(* ===== verification/_CoqProject ===== *)
-Q . S2P
Prelude.v
Json.v
Media.v
Plan.v
Compiled.v
CapabilityMap.v
Condition.v
Evaluator.v
EmitFacts.v
PhaseFacts.v
Codecs.v
Ast.v
TopoSort.v
Compiler.v
CompilerFacts.v
PhaseGraph.v
Validator.v
ValueFacts.v
Formatter.v
Grammar.v
Parser.v
ParserFacts.v
Composition.v
CompositionFacts.v
Pipeline.v
Jobs.v
Engine.v
SqliteJobs.v
JobSpec.v
SqliteJobsFacts.v
MemoryJobs.v
Events.v
Kernel.v
KernelFacts.v
CallPlugins.v
JobQueue.v
WorkerPool.v
WorkerPoolFacts.v
WorkerStream.v
WorkerStreamFacts.v
Process.v
Transitions.v
FileTables.v
ScanSessions.v
RowMappers.v
FileStore.v
TransitionStore.v
ScanSpec.v
IngestFacts.v
SessionFacts.v
StoreInvariant.v
FileFacts.v
StoreFacts.v
MkvExecutor.v
MkvFacts.v
CropDetect.v
FfmpegCommand.v
VmafSearch.v
FfmpegExecutor.v
FfmpegFacts.v
BackupManager.v
Estimate.v
PolicyMap.v
ProcessFile.v
BackupFacts.v
Recovery.v
RecoveryFacts.v
Samples.v
EvaluatorTheorems.v
OperationTheorems.v
CompilerTheorems.v
KernelTheorems.v
DomainTheorems.v
DslTheorems.v
StoreSamples.v
JobTheorems.v
ExecutorTheorems.v
FfmpegTheorems.v
ScanTheorems.v
BackupTheorems.v
