(* ===== verification/Prelude.v ===== *)
(** * VOOM: a verification development

    VOOM manages video libraries by declarative policies. A policy file is
    parsed to a syntax tree and compiled ([crates/voom-dsl]); the compiled
    policy is evaluated against an introspected media file to one plan per
    phase ([plugins/policy-evaluator]); the plans are turned into phase results
    ([plugins/phase-orchestrator]) and executed by plugins. Plugins talk through
    a kernel ([crates/voom-kernel]) that owns an event bus, a plugin registry
    and capability routing. Files are processed as jobs: a queue over a
    persistent store and a pool of workers ([plugins/job-manager],
    [plugins/sqlite-store]). Scans of the library enter the files on disk in the
    same store. Plans are executed by plugins that start tools:
    [plugins/mkvtoolnix-executor] and [plugins/ffmpeg-executor]. Before that
    [plugins/backup-manager] makes a copy of the file. The command line
    ([crates/voom-cli]) drives all this, phase by phase, and recovers the files of
    a run that has crashed. The data all of them share is in
    [crates/voom-domain].

    This library models that core in Rocq, definition by definition, and proves
    what makes it correct. Definitions keep the source's names; a method [m] of
    a type [T] is [T_m], a field [f] of a struct [S] is [S_f], a variant [V] of
    an enum [E] is [E_V] (shortened for the large enums: [Op_], [AP_], [CO_],
    [CF_], [CC_], [CA_]).

    ** Files

    - [Prelude]: [Result], strings, [f64] (through [SpecFloat]), paths, the
      iteration order of hash maps ([HashOrder]), shared list lemmas, the hint
      database [voom].
    - [Json], [Media], [Plan], [Compiled], [CapabilityMap], [Events]:
      the types of [voom-domain] ([media.rs], [errors.rs] and [plan.rs] with the
      small files around them, [compiled.rs], [capability_map.rs], [events.rs])
      with their methods, and the JSON values they carry.
    - [Condition]: [condition.rs] and [filter.rs] of the
      evaluator: field paths, track filters and conditions.
    - [Evaluator]: [container_compat.rs],
      [evaluator.rs] and the wrappers of [lib.rs]. The operations of a phase
      run in a small monad [M] over the plan under construction, whose results
      are success, a [VoomError] or a panic.
    - [EmitFacts], [PhaseFacts]: the invariant
      of plans and its preservation by every [emit_*] function, closed forms of
      the operations, what the safeguards guarantee, and the trace of a whole
      evaluation.
    - [Codecs]: [utils/codecs.rs] with the recursive
      edit distance it refines, and [utils/language.rs].
    - [Ast], [TopoSort], [Compiler], [CompilerFacts]: [ast.rs]
      and [compiler.rs]; the phase sort with its loop invariant.
    - [PhaseGraph], [Validator], [ValueFacts]:
      [errors.rs] and [validator.rs] of the DSL. A check is the list of
      diagnostics it pushes; the graph checks are the depth first search for
      cycles and the reachability loop; the facts relate what passes the
      validator to what the compiler accepts.
    - [Composition], [CompositionFacts]: [composition.rs], the resolution of
      [extends] clauses and the merge of a child policy into its parent.
    - [Grammar], [Parser], [ParserFacts]: [grammar.pest], rule by rule, with the
      evaluation of its expressions ([peg]); [parser.rs], every builder with its
      errors and its panics; what a derivation of the grammar says of a tree, and
      that no builder panics on one that is plainly written.
    - [Formatter], [Pipeline]: [formatter.rs] and the string
      literals of [parser.rs]; the entry points of [lib.rs] and
      [service.rs] that compose all stages.
    - [Engine]: the SQLite engine as the store uses it: a monad
      [Db] over the rows of a database in which every call can fail, with
      transactions, and triples [db_spec] that bound what a program does with
      and without failures.
    - [Jobs], [SqliteJobs], [MemoryJobs]: [job.rs], the job part of
      [storage.rs] with the trait [JobStorage] as a class, and its two
      implementations: [job_storage.rs] of the SQLite store over the rows of
      the [jobs] table, and the in-memory store of [test_support.rs].
    - [JobSpec], [SqliteJobsFacts] and the second half of [MemoryJobs]: the
      laws of a job store ([JobStoreLaws], and [JobTableLaws] for listing,
      counting and retention) over a map from identifiers to jobs, the abstract
      machine [spec_run], and the proofs that both stores obey the laws that are
      theirs.
    - [JobQueue]: [queue.rs], [lib.rs], the storing reporter
      of [progress.rs] and the plan limiter of [worker.rs], over any store with
      the laws.
    - [WorkerPool], [WorkerPoolFacts], [WorkerStream], [WorkerStreamFacts]:
      [worker.rs] and [worker_stream.rs] as transition systems. A step is one
      access to the shared state (store, counters, channel, token, heap) by one
      task; a schedule is any list of steps that [pool_run] or [stream_run]
      accepts, with cancellations and foreign writes to the store in between.
      Claims are proved of all schedules.
    - [Kernel], [KernelFacts]: [bus.rs], [registry.rs] and [lib.rs] of the
      kernel. Plugins are records of handlers over an arbitrary shared state
      [W]; [kernel_reachable] is the transition system of registrations and
      shutdown.
    - [CallPlugins]: the phase orchestrator, and
      the evaluator and the orchestrator as plugins of the kernel.
    - [Process]: paths, files and child processes: [crates/voom-process],
      [temp_file.rs], [utils/sanitize.rs] and [scan_session_mutations.rs]. A
      program is a function on a [World]: files by path, the store of mutations,
      and the list of faults of the coming file operations.
    - [Transitions]: [transition.rs], [snapshot.rs] and
      [bad_file.rs]; the scan part of the trait [FileStorage] as the class
      [ScanStorage], with [with_scan_session] and
      [reconcile_discovered_files] over it.
    - [FileTables], [ScanSessions], [RowMappers], [FileStore],
      [TransitionStore]: the rows and constraints of [schema.rs]; the sessions
      and mutations, the mappers of rows, the rest of [file_storage.rs], and
      [file_transition_storage.rs] with [bad_file_storage.rs] and the pruning of
      [maintenance_storage.rs] of the SQLite store. One Rocq function per SQL statement, on lists of rows in the order
      of their [rowid].
    - [ScanSpec], [IngestFacts], [SessionFacts]: what an ingestion does as a relation with one rule per
      decision, the invariant of a session in progress, and the end of a
      session.
    - [StoreInvariant], [FileFacts], [StoreFacts]: the invariant
      [tables_ok] and the writing calls [StoreOp] of the store; the round trip
      of a file; atomicity, recorded mutations and retention; listing and
      counting, and the meaning of a path prefix.
    - [MkvExecutor], [MkvFacts]: [merge.rs], [propedit.rs] and
      [lib.rs] of the MKVToolNix executor: command lines, execution of plans and
      the plugin; the command lines read back, and what a merge does to files.
    - [CropDetect]: [cropdetect.rs] of the FFmpeg executor.
    - [FfmpegCommand]: [hwaccel.rs] and [command.rs] of the FFmpeg executor: the
      choice of encoders and the command line of a list of actions.
    - [VmafSearch]: [vmaf_iterate.rs] of the FFmpeg executor, the
      search for a CRF that reaches a quality score, in which arithmetic that
      overflows is a value of its own; and the measuring of [vmaf.rs] with
      [libvmaf], which the executor's runner uses.
    - [FfmpegExecutor], [FfmpegFacts]: [executor.rs] and [lib.rs] of the FFmpeg
      executor: preparation, execution and the plugin; command lines read back,
      and which files each step may change ([frame]).
    - [BackupManager]: the backup manager: [destination.rs] (validation, [rclone]
      commands), [inventory.rs], [backup.rs], [space.rs] and [lib.rs], with
      [utils/disk.rs]. An operation is a [Run]: it returns a value or an error, or
      panics; the state of the plugin, its lock included, is part of the shared
      state ([BackupHost]).
    - [Estimate], [PolicyMap]: [estimate.rs] with the calibration of the command
      [estimate]; [policy_map.rs] of the command line, which policy is for which
      file.
    - [ProcessFile]: [commands/process] of the command line
      for one job, executed or as a dry run: [dispatch.rs], [plan_outcome.rs], [safeguards.rs],
      [transitions.rs], [audio_language.rs], the counters of [mod.rs] and the
      phase loop of [pipeline.rs], with [kernel_invoke.rs] and [introspect.rs]; one
      function per
      stage of the loop body, in a state monad [Proc] over the world, the
      statistics of the kernel and the counters.
    - [Recovery]: [recovery.rs] of the command line, and [hash_file] and
      [normalize_path] of [plugins/discovery].
    - [BackupFacts], [RecoveryFacts]: how events pass the bus around one plugin,
      triples for the stages of the phase loop, what holds of a file and its
      backup between them, and the count of modified files; paths of directory
      entries, names of backups, what the scan for backups finds and what recovery
      does to files, and the text of the inventory.
    - [Samples], [StoreSamples]: concrete instances, a sample
      policy, a sample job table, sample schedules and a sample library on
      which the definitions evaluate.
    - [EvaluatorTheorems], [OperationTheorems], [CompilerTheorems],
      [KernelTheorems], [DomainTheorems], [DslTheorems], [JobTheorems],
      [ExecutorTheorems], [FfmpegTheorems], [ScanTheorems], [BackupTheorems]: the
      theorems, with witnesses.

    ** Code outside the repository

    What the code takes from other crates, or from parts of the standard
    library whose result is not determined, is a class that the definitions
    take as an argument: [Unicode] (case mapping), [HashOrder] (any order of a
    hash map's entries), [JsonDisplay] (the text of a JSON value), [RegexCrate],
    [PartitionPoint] and [BinarySearch] (with the documented laws of the slice
    searches), [ValueDebug], [QueryDebug], [CallDebug] (debug texts),
    [ActionResultsJson], [Clock], [F64Display], [SourceHash]; [Pest] (the parser
    that [pest] generates) with [PestLaws], by which its tree is one that the
    grammar yields; [PolicySources] (the texts of the bundled policies and the files
    that can be read); [PolicyEnv] (the policy files that exist); [Chrono] and [UuidText] (texts of times and identifiers, which
    read back and keep the order); [Sqlite] (error texts, JSON texts and the
    order [ORDER BY] gives to equal rows) with the list [db_faults] that says
    which calls on the engine fail; [RootsJson], [MapsJson] and [SnapshotJson]
    (JSON texts of root lists, which read back, and of tags, metadata and
    snapshots); [JobHashOrder]; [Children] (what a child
    process answers and does to the files), [ChildrenEnv] (the same with
    environment variables), [VmafHost] (the home directory and which directories
    exist), [JsonParse], [JsonFromStr], [StrDebug];
    [CommandOutput], [RcloneSizeJson] ([rclone]), [Volume] ([statvfs], links and
    directories), [TornWrite] (what a failed write leaves), [Ambient] (new
    identifiers and the time), [TimestampText], [Sha256], [Xxh3], [InventoryJson],
    [Canonical] (resolution of links and NFC), [ReadDir], [CropSettingsJson],
    [ViolationsJson], [PlanJson], [AnyhowText], [ResponseDebug], [RecordsOrder]. Traits of the code are classes
    too: [MutationStorage], [EncodeAttempt], [SampleExtractor], [VmafRunner],
    [FfmpegStorage], [ProcessStorage], [StoredFiles], [RecoveryStorage]; so are [Introspector] (the
    plugin that calls [ffprobe], which is not modelled) and [FileHash], of which
    [discovery_hash] is the instance. [MkvmergeWrites] and [FfmpegWrites] say what
    the tools document: each writes only the file it is given for its output or its
    log, and nothing when it is asked for a listing or a measurement;
    [RcloneKeeps], [ToolsRead], [StoredReads] and [StorageSpares] say that [rclone], [ffprobe] and
    the store leave the library alone, [ReadDirComplete] that a directory is
    listed completely, [InventoryJsonLaws] that a record reads back. [Cooperative]
    states what the phase loop relies on in the other plugins: they change files
    only to execute a plan, and no backups. [Samples], [StoreSamples] and
    the theorem files give concrete instances. New identifiers and times are
    read from a [Stamp] or are arguments.

    ** What the theorems show

    - Evaluation is total: no policy and no file makes it panic in a build without
      debug assertions, and every plan is well formed, its actions on tracks
      changing something; a plan that runs keeps some video and some audio and
      never converts to a container that cannot hold what is left; phases run
      only when their dependencies and [run_if] allow; the whole-policy and
      single-phase entry points agree.
    - The operations [keep], [remove], [defaults] and [transcode] do what the
      language says, stated on the tracks of the file; the executor hint is
      exact.
    - Compilation of trees within the grammar never panics, keeps the phases,
      is deterministic, and its phase order is a permutation with dependencies
      first; the sort succeeds on every acyclic policy. From the tree to the
      plans: one plan per phase, after the plans of its dependencies.
    - The cycle search of the validator is exact, its reachability loop computes
      the least fixed point and the two agree; a policy that passes validation
      compiles, up to two parts the validator does not visit; the settings of a
      video transcode that the validator checks are in range after compilation. Resolution of
      [extends] ends also on cyclic files, and merging is characterised phase by
      phase. The parser never panics on a plainly written source and names
      known targets only, and then neither does the pipeline from source to compiled
      policy; string literals survive formatting. A policy map gives a file the
      policy of the longest matching prefix.
    - In every kernel that registrations can build, an exclusive or sharded
      capability has at most one owner, which every query finds; events are
      delivered in priority order until claimed, cascades are bounded, rejected
      plugins are not initialized, shutdown runs once in reverse. A call of the
      evaluator through the kernel is answered by safe plans.
    - No job is claimed twice, whatever the interleaving of the users of the
      queue; the SQLite table refines a map of jobs, for all methods of the trait
      and under any failures of the engine; [cancel] changes live jobs only; pruning keeps the newest finished
      jobs. For every schedule, a batch ends within a bound, never blocks, and
      accounts for every item; a stream accounts for every job it enqueued; plan
      limits are never exceeded.
    - The command line of [mkvmerge], read back, drops exactly the tracks the
      plan removes; executing a plan of structural changes changes the files
      completely or not at all, and a change is on record before it is made. A
      detected crop cuts away no more than every sample shows, up to one pixel.
      The search for a CRF is a bisection that, if scores fall with the CRF and
      some CRF hits the target, stays in bounds and ends on the target within six
      rounds.
    - The command line of [ffmpeg], read back, maps the streams of the file and
      gives each the metadata its last actions ask for; its hardware encoders
      are those that were found to work; the codec of a stream is decided by
      its rank. Executing a plan with the plugin changes the files completely or
      not at all, panics and the default quality search included; only the store
      can make it report an error for a file that it has replaced.
    - A scan that succeeds leaves the store a mirror of the disk, whatever calls
      of the engine fail on the way, and without failures it does succeed; each
      ingestion takes the decision of the specification; a file that VOOM
      writes during the scan is not taken for missing, from the executor's
      record to the end of the session. No sequence of calls breaks the tables,
      a failed call changes nothing unless it is one of four that are several
      statements, a storable file reads back, and retention keeps the last transition of a file.
    - A file that no plan is recorded to have modified has its old content after a
      run, unless the backup manager itself has failed, which the statistics show.
      A dry run changes nothing. After a crash recovery, in the mode that always
      recovers, puts the content of a backup beside a file with an ASCII name back. The inventory of remote backups reads back.
    - Limits of the code are recorded as lemmas: a skipped plan may carry
      actions, [system.hwaccels] depends on hash order, [channels: 5.1] is
      dropped by the compiler ([surround_number_dropped]), [crf] is not validated
      ([crf_unchecked]); in [DslTheorems], a comment after [track] makes the parser
      panic and a line break there the compiler, a glued [not] is lost, [matches]
      can be read as [contains], a membership in a number reaches a debug assertion,
      and a longer text can win over a deeper directory; and, at the end of
      [JobTheorems], a job reported as cancelled may stay pending, a stream may
      strand jobs, a gate signal may be lost, [complete] overwrites a cancelled
      job, a NaN progress makes a job unreadable, an offset without a limit
      fails, and [delete_jobs] can delete pending jobs; at the end of
      [ExecutorTheorems], the search can underflow when a score jumps over the
      target, a partly failed plan is reported as succeeded, properties may be
      edited in another file or another track, and attachments are not removed;
      at the end of [FfmpegTheorems], an override is not checked against the
      device, the executor can panic without actions, report a replaced file as
      a failure and a kept track as removed, drop actions and rename files.
      At the end of [ScanTheorems]: a file seen in a cancelled scan loses its
      history, purging can lose the history of a file it keeps, large track
      indices cannot be read back, a filter for codec and language is about one
      track, a failed pruning of missing files leaves changes, and a scan ends a
      quarantine. In [BackupTheorems]: confirmed savings skip plans that also change
      something else, a plan is executed
      although its backup has failed, and of two backups of a file recovery
      consumes both.
    - Domain helpers: the edit distance is minimal, suggestions are nearest,
      names round-trip, number literals keep their value.

    ** Fuel

    Loops that do not follow the structure of their data carry fuel, and a
    theorem shows that it is enough: [topo_loop] (one unit per phase,
    [topological_sort_correct]), [detect_cycle] and [reach_loop] (phases plus
    one, [cycle_detection_exact] and [reachability_least_fixed_point]),
    [resolve_ast] (the number of sources, [resolve_policy_file_terminates]).
    [publish_recursive] recurses on the remaining cascade depth, which starts at
    [MAX_CASCADE_DEPTH]. The pools have no fuel: a batch of n jobs takes at most
    20 n + 4 internal steps ([process_batch_terminates]); a stream runs until
    its producer closes it. The search for a CRF recurses on the number of
    iterations that are left. The scan for backups has one unit per level of
    directories, of which there are at most [tree_depth]
    ([crash_recovery_restores_file]); [nearest_existing] one per byte of the path;
    [read_to_end] one per block of the file. The evaluation [peg] of the grammar has
    fuel that is used only to say what a tree of the library may be: there is some
    amount with which the grammar yields it. All other recursion is structural.

    ** Not modelled

    Tracing output; serialization beyond the columns of the job table; locks of
    the kernel, whose operations run one at a time; the use of the stack, which a
    deeply nested policy can exhaust in the generated parser; the WASM host; the tables of plans, statistics,
    verifications and events of the SQLite store, its migrations; the
    probes of the FFmpeg executor, its sampling strategies other than the whole
    file, which it does not use, and the asynchronous process helpers; the
    plugins whose work is processes, directories or HTTP (introspector, the walk
    of discovery, verifier, web server); of the command line the
    streaming of jobs, reports and configuration. Builds are modelled without debug
    assertions; a policy can reach the one in [filter.rs]
    ([numeric_membership_accepted]). In the pools an identifier made by
    [Uuid::new_v4] is an input of the step that makes it. Files are contents by
    path: permissions and empty directories are left out, links too except where
    [Volume] tells them apart. These parts are input and output around tools and
    libraries that are not in the repository, or data without logic of its own.
    Left open: the gates and buffers of the streaming pipeline of the command
    line, the probes of the FFmpeg executor, and independence of evaluation from
    hash order for policies that do not read [system.hwaccels] (see
    [hwaccels_field_depends_on_order]). *)

From stdpp Require Export prelude strings gmap pretty sorting list.
From Stdlib Require Export ZArith.
From Stdlib Require Export Ascii SpecFloat.

Local Open Scope stdpp_scope.

(** ** Machine data

    [u32]/[u64] values are [N] (no arithmetic is done on them in the modelled
    code beyond counting), [usize] counters are [nat]; [Uuid] is its 128-bit
    value and a [DateTime<Utc>] its nanosecond offset from the Unix epoch. *)
Abbreviation u32 := N (only parsing).
Abbreviation u64 := N (only parsing).
Abbreviation usize := nat (only parsing).
Abbreviation i32 := Z (only parsing).
Abbreviation Uuid := N (only parsing).
Abbreviation DateTime := Z (only parsing).
Abbreviation PathBuf := string (only parsing).

(** ** Results: Rust's [Result<A, E>] *)
Inductive result (E A : Type) : Type :=
| Ok (a : A)
| Err (e : E).
Arguments Ok {E A} a.
Arguments Err {E A} e.

#[export] Instance result_mret {E} : MRet (result E) := λ _ a, Ok a.

#[export] Instance result_mbind {E} : MBind (result E) := λ _ _ f r,
  match r with Ok a => f a | Err e => Err e end.

#[export] Instance result_fmap {E} : FMap (result E) := λ _ _ f r,
  match r with Ok a => Ok (f a) | Err e => Err e end.

(** [iter().map(f).collect::<Result<Vec<_>, _>>()]: left to right, stopping
    at the first error. *)
Definition try_map {E A B} (f : A → result E B) : list A → result E (list B) :=
  fix go l :=
    match l with
    | [] => Ok []
    | x :: l => y ← f x; ys ← go l; Ok (y :: ys)
    end.

(** [Option::map(f).transpose()] *)
Definition try_opt {E A B} (f : A → result E B) (o : option A) : result E (option B) :=
  match o with
  | None => Ok None
  | Some x => y ← f x; Ok (Some y)
  end.

Lemma try_map_Ok_Forall2 {E A B} (f : A → result E B) l ys :
  try_map f l = Ok ys ↔ Forall2 (λ x y, f x = Ok y) l ys.
Proof.
  revert ys; induction l as [|x l IH]; intros ys; simpl.
  - split; [by intros [= <-] | by inversion 1].
  - split.
    + destruct (f x) as [y|] eqn:Hx; [|done]; simpl.
      destruct (try_map f l) as [ys'|] eqn:Hl; [|done]; simpl.
      intros [= <-]. constructor; [done|]. by apply IH.
    + inversion 1 as [|? y ? ys' Hx Hl]; subst.
      rewrite Hx; simpl. by rewrite (proj2 (IH _) Hl).
Qed.

(** ** Vectors

    [Vec::insert], which panics beyond the end. *)
Definition vec_insert {A} (pos : nat) (x : A) (l : list A) : option (list A) :=
  if bool_decide (pos ≤ length l) then Some (take pos l ++ x :: drop pos l) else None.

Lemma vec_insert_perm {A} pos (x : A) l :
  pos ≤ length l → ∃ k, vec_insert pos x l = Some k ∧ k ≡ₚ x :: l.
Proof.
  intros Hle. unfold vec_insert. rewrite bool_decide_true by done. eexists. split; [done|].
  rewrite <-(take_drop pos l) at 3. by rewrite Permutation_middle.
Qed.

(** ** Strings

    A Rust [str] is the list of its UTF-8 bytes; [string] is a list of bytes. *)
Fixpoint starts_with (pat s : string) : bool :=
  match pat, s with
  | EmptyString, _ => true
  | String a p, String b s => bool_decide (a = b) && starts_with p s
  | _, EmptyString => false
  end.

(** [str::strip_prefix] *)
Fixpoint strip_prefix (pat s : string) : option string :=
  match pat, s with
  | EmptyString, _ => Some s
  | String a p, String b s => if bool_decide (a = b) then strip_prefix p s else None
  | _, EmptyString => None
  end.

(** [str::contains] for a string pattern *)
Fixpoint str_contains (pat s : string) : bool :=
  starts_with pat s ||
  match s with EmptyString => false | String _ s => str_contains pat s end.

(** [str::ends_with] for a string pattern *)
Fixpoint ends_with (pat s : string) : bool :=
  bool_decide (pat = s) ||
  match s with EmptyString => false | String _ s => ends_with pat s end.

(** [str::replace]: every non-overlapping occurrence, left to right. [skip]
    counts the bytes of the occurrence just replaced that are still to be
    passed over; the pattern is a non-empty literal in the modelled code. *)
Fixpoint str_replace_go (pat rep s : string) (skip : nat) : string :=
  match s with
  | EmptyString => EmptyString
  | String c s' =>
      match skip with
      | S k => str_replace_go pat rep s' k
      | O => if starts_with pat s
             then rep +:+ str_replace_go pat rep s' (String.length pat - 1)
             else String c (str_replace_go pat rep s' 0)
      end
  end.

Definition str_replace (pat rep s : string) : string := str_replace_go pat rep s 0.

(** [slice.join(sep)] *)
Fixpoint str_join (sep : string) (l : list string) : string :=
  match l with
  | [] => ""
  | [x] => x
  | x :: l => x +:+ sep +:+ str_join sep l
  end.

(** [u8::to_ascii_lowercase], bytewise *)
Definition ascii_lower (c : ascii) : ascii :=
  let n := nat_of_ascii c in
  if bool_decide (65 ≤ n ∧ n ≤ 90) then ascii_of_nat (n + 32) else c.

Fixpoint to_ascii_lowercase (s : string) : string :=
  match s with
  | EmptyString => EmptyString
  | String c s => String (ascii_lower c) (to_ascii_lowercase s)
  end.

Definition is_ascii_byte (c : ascii) : bool := bool_decide (nat_of_ascii c < 128).

Fixpoint is_ascii (s : string) : bool :=
  match s with
  | EmptyString => true
  | String c s => is_ascii_byte c && is_ascii s
  end.

(** [char::is_whitespace] code points, as their UTF-8 encodings:
    U+0009..U+000D, U+0020, U+0085, U+00A0, U+1680, U+2000..U+200A, U+2028,
    U+2029, U+202F, U+205F, U+3000. *)
Definition whitespace_bytes : list (list nat) :=
  [[9]; [10]; [11]; [12]; [13]; [32]; [194; 133]; [194; 160]; [225; 154; 128]] ++
  ((λ b, [226; 128; 128 + b]) <$> seq 0 11) ++
  [[226; 128; 168]; [226; 128; 169]; [226; 128; 175]; [226; 129; 159]; [227; 128; 128]].

Definition whitespace_list : list string :=
  (λ bs, String.string_of_list_ascii (ascii_of_nat <$> bs)) <$> whitespace_bytes.

(** [str::trim_start]: [fuel] is the length of the string, an upper bound on
    the number of characters that can be dropped. *)
Fixpoint trim_start_go (fuel : nat) (ws : list string) (s : string) : string :=
  match fuel with
  | O => s
  | S fuel =>
      match List.find (λ w, starts_with w s) ws with
      | Some w => trim_start_go fuel ws (String.substring (String.length w) (String.length s) s)
      | None => s
      end
  end.

Definition str_rev (s : string) : string :=
  String.string_of_list_ascii (reverse (String.list_ascii_of_string s)).

(** [str::trim] *)
Definition str_trim (s : string) : string :=
  let s := trim_start_go (String.length s) whitespace_list s in
  str_rev (trim_start_go (String.length s) (str_rev <$> whitespace_list) (str_rev s)).

(** [str::chars]: a character is its UTF-8 encoding, which starts at every byte
    that is not a continuation byte (128 to 191). *)
Definition utf8_continuation (c : ascii) : bool :=
  bool_decide (128 ≤ nat_of_ascii c ∧ nat_of_ascii c ≤ 191).

Fixpoint str_chars (s : string) : list string :=
  match s with
  | EmptyString => []
  | String c s' =>
      match str_chars s' with
      | String c' x :: xs =>
          if utf8_continuation c' then String c (String c' x) :: xs
          else String c "" :: String c' x :: xs
      | xs => String c "" :: xs
      end
  end.

Definition is_ascii_digit (c : ascii) : bool :=
  bool_decide (48 ≤ nat_of_ascii c ∧ nat_of_ascii c ≤ 57).

(** The value of a string of decimal digits. *)
Fixpoint decimal_value (acc : N) (s : string) : option N :=
  match s with
  | EmptyString => Some acc
  | String c s =>
      if is_ascii_digit c then decimal_value (10 * acc + N.of_nat (nat_of_ascii c - 48)) s
      else None
  end.

(** [str::parse] for an unsigned integer type with maximum [max]: an optional
    plus sign and at least one digit. The checked arithmetic of the standard
    library overflows exactly when the value exceeds [max]. *)
Definition parse_unsigned (max : N) (s : string) : option N :=
  let digits := match s with
                | String c s' => if bool_decide (c = ascii_of_nat 43) then s' else s
                | EmptyString => s
                end in
  if bool_decide (digits = "") then None
  else v ← decimal_value 0 digits; if (v <=? max)%N then Some v else None.

(** [str::split_once] for a character of one byte *)
Fixpoint split_once (sep : ascii) (s : string) : option (string * string) :=
  match s with
  | EmptyString => None
  | String c s =>
      if bool_decide (c = sep) then Some ("", s)
      else '(a, b) ← split_once sep s; Some (String c a, b)
  end.

(** [str]'s [Ord]: lexicographic on bytes. *)
Definition str_ltb (a b : string) : bool := String.ltb a b.
Definition str_leb (a b : string) : bool := String.leb a b.

Lemma str_leb_total a b : str_leb a b = true ∨ str_leb b a = true.
Proof.
  unfold str_leb, String.leb. rewrite (String.compare_antisym a b).
  destruct (String.compare b a); auto.
Qed.

Lemma str_ltb_leb a b : str_ltb a b = negb (str_leb b a).
Proof.
  unfold str_ltb, str_leb, String.ltb, String.leb. rewrite (String.compare_antisym b a).
  by destruct (String.compare a b).
Qed.

Lemma str_leb_trans a b c : str_leb a b = true → str_leb b c = true → str_leb a c = true.
Proof.
  unfold str_leb. intros Hab%Is_true_true Hbc%Is_true_true. apply Is_true_true.
  by apply (transitivity (R := String.le) Hab Hbc).
Qed.

(** The string of its bytes, last one first *)
Definition of_bytes_rev (l : list ascii) : string := String.string_of_list_ascii (reverse l).

(** Pieces between the bytes [sep]. *)
Fixpoint split_on (sep : ascii) (cur : list ascii) (s : string) : list string :=
  match s with
  | EmptyString => [of_bytes_rev cur]
  | String c s =>
      if bool_decide (c = sep) then of_bytes_rev cur :: split_on sep [] s
      else split_on sep (c :: cur) s
  end.

Lemma string_app_nil (a : string) : a +:+ "" = a.
Proof. induction a as [|d a IH]; [done|]. change (String d (a +:+ "") = String d a). by rewrite IH. Qed.

Lemma string_app_assoc (a b c : string) : (a +:+ b) +:+ c = a +:+ (b +:+ c).
Proof.
  induction a as [|x a IH]; [done|].
  change (String x ((a +:+ b) +:+ c) = String x (a +:+ (b +:+ c))). by rewrite IH.
Qed.

Lemma string_length_app s t : String.length (s +:+ t) = String.length s + String.length t.
Proof. induction s as [|c s IH]; simpl; [done|]. by rewrite IH. Qed.

(** The double quote, which string literals of this development avoid. *)
Definition dquote : string := String (ascii_of_nat 34) EmptyString.

(** ** f64

    IEEE-754 binary64 through the Standard Library's executable specification
    of floating point: precision 53, maximal exponent 1024. *)
Abbreviation f64 := spec_float (only parsing).

Definition f64_prec : Z := 53.
Definition f64_emax : Z := 1024.

(** [m * 2^e], rounded to nearest even: the literals of the code. *)
Definition f64_lit (m e : Z) : f64 := binary_normalize f64_prec f64_emax m e false.

(** [n as f64] for an integer [n] *)
Definition f64_of_Z (n : Z) : f64 := f64_lit n 0.
Definition f64_of_N (n : N) : f64 := f64_of_Z (Z.of_N n).

Definition f64_sub (a b : f64) : f64 := SFsub f64_prec f64_emax a b.
Definition f64_abs (a : f64) : f64 := SFabs a.
Definition f64_ltb (a b : f64) : bool := SFltb a b.
Definition f64_leb (a b : f64) : bool := SFleb a b.
Definition f64_eqb (a b : f64) : bool := SFeqb a b.

(** [f64::EPSILON] = 2^-52 *)
Definition f64_EPSILON : f64 := f64_lit 1 (-52).

Lemma f64_EPSILON_val : f64_EPSILON = S754_finite false 4503599627370496 (-104).
Proof. by vm_compute. Qed.

Definition f64_is_nan (a : f64) : bool := match a with S754_nan => true | _ => false end.

Definition f64_is_finite (a : f64) : bool :=
  match a with S754_nan | S754_infinity _ => false | _ => true end.

(** The integer a float denotes exactly, if any: [x.fract() == 0.0] holds just
    for those floats ([fract] is exact). *)
Definition f64_integer (x : f64) : option Z :=
  match x with
  | S754_zero _ => Some 0%Z
  | S754_finite s m e =>
      let z := (if s then Z.neg m else Z.pos m) in
      if (0 <=? e)%Z then Some (z * 2 ^ e)%Z
      else if (Z.pos m mod 2 ^ (- e) =? 0)%Z
           then Some (if s then - (Z.pos m / 2 ^ (- e)) else Z.pos m / 2 ^ (- e))%Z else None
  | S754_infinity _ | S754_nan => None
  end.

Definition u32_MAX : N := 4294967295.
Definition u64_MAX : N := 18446744073709551615.

(** [x as u32]: truncation towards zero, saturating; NaN gives 0. *)
Definition f64_as_u32 (x : f64) : u32 :=
  match x with
  | S754_zero _ | S754_nan => 0%N
  | S754_infinity s => if s then 0%N else u32_MAX
  | S754_finite true _ _ => 0%N
  | S754_finite false m e =>
      N.min u32_MAX (Z.to_N (if (0 <=? e)%Z then Z.pos m * 2 ^ e else Z.pos m / 2 ^ (- e)))
  end.

(** What a 64-bit pattern can denote: canonical mantissas only. *)
Definition f64_valid (x : f64) : bool := valid_binary f64_prec f64_emax x.

(** [format!("{:.1}", x)]: the exact value rounded half-to-even at the first
    decimal; the sign is printed whenever the sign bit is set. *)
Definition round_half_even (num den : Z) : Z :=
  let q := (num / den)%Z in
  let r := (num mod den)%Z in
  match (2 * r ?= den)%Z with
  | Lt => q
  | Gt => (q + 1)%Z
  | Eq => if Z.even q then q else (q + 1)%Z
  end.

Definition fmt_tenths (neg : bool) (t : Z) : string :=
  (if neg then "-" else "") +:+ pretty (Z.to_N (t / 10)) +:+ "." +:+ pretty (Z.to_N (t mod 10)).

Definition fmt_f64_1 (x : f64) : string :=
  match x with
  | S754_nan => "NaN"
  | S754_infinity s => if s then "-inf" else "inf"
  | S754_zero s => fmt_tenths s 0
  | S754_finite s m e =>
      fmt_tenths s
        (if (0 <=? e)%Z then (10 * Z.pos m * 2 ^ e)%Z
         else round_half_even (10 * Z.pos m) (2 ^ (- e)))
  end.

(** The nearest [f64] of a decimal number. *)
Definition f64_of_decimal (neg : bool) (m : N) (k : Z) : f64 :=
  match m with
  | N0 => S754_zero neg
  | Npos m =>
      if (0 <=? k)%Z
      then binary_normalize f64_prec f64_emax (cond_Zopp neg (Z.pos m * 10 ^ k)) 0 neg
      else SFdiv f64_prec f64_emax (S754_finite neg m 0) (S754_finite false (Z.to_pos (10 ^ (- k))) 0)
  end.

Definition split_sign (s : string) : bool * string :=
  match s with
  | String c r =>
      if bool_decide (c = ascii_of_nat 45) then (true, r)
      else if bool_decide (c = ascii_of_nat 43) then (false, r) else (false, s)
  | EmptyString => (false, s)
  end.

(** The digits at the start and what follows them. *)
Fixpoint take_digits (s : string) : string * string :=
  match s with
  | String c r =>
      if is_ascii_digit c then let '(ds, rest) := take_digits r in (String c ds, rest) else ("", s)
  | EmptyString => ("", "")
  end.

(** The fraction after the digits before the point. *)
Definition take_fraction (s : string) : string * string :=
  match s with
  | String c r => if bool_decide (c = ascii_of_nat 46) then take_digits r else ("", s)
  | EmptyString => ("", s)
  end.

(** An exponent, or nothing. *)
Definition parse_exponent (s : string) : option Z :=
  match s with
  | EmptyString => Some 0%Z
  | String c r =>
      if bool_decide (to_ascii_lowercase (String c "") = "e") then
        let '(neg, r) := split_sign r in
        let '(ds, rest) := take_digits r in
        if bool_decide (ds = "" ∨ rest ≠ "") then None
        else v ← decimal_value 0 ds; Some (if neg then - Z.of_N v else Z.of_N v)%Z
      else None
  end.

(** [str::parse::<f64>] *)
Definition f64_from_str (s : string) : option f64 :=
  let '(neg, s) := split_sign s in
  let lower := to_ascii_lowercase s in
  if bool_decide (lower = "inf" ∨ lower = "infinity") then Some (S754_infinity neg)
  else if bool_decide (lower = "nan") then Some S754_nan
  else
    let '(int, rest) := take_digits s in
    let '(frac, rest) := take_fraction rest in
    if bool_decide (int +:+ frac = "") then None
    else
      m ← decimal_value 0 (int +:+ frac);
      e ← parse_exponent rest;
      Some (f64_of_decimal neg m (e - Z.of_nat (String.length frac))).

(** ** Paths

    [Path::file_name] on Unix: the last component when it is a normal one;
    empty components and [.] are dropped, a trailing [..] gives [None]. *)
Fixpoint split_slash (cur s : string) : list string :=
  match s with
  | EmptyString => [str_rev cur]
  | String c s =>
      if bool_decide (c = ascii_of_nat 47) then str_rev cur :: split_slash "" s
      else split_slash (String c cur) s
  end.

Definition path_file_name (p : PathBuf) : option string :=
  let comps := List.filter (λ c, negb (bool_decide (c = "")) && negb (bool_decide (c = ".")))
                           (split_slash "" p) in
  match last comps with
  | Some c => if bool_decide (c = "..") then None else Some c
  | None => None
  end.

(** ** What the Rust standard library leaves open

    Unicode lower-casing ([str::to_lowercase]) is known here by its behaviour
    on ASCII; lossy path conversion by its behaviour on ASCII (hence valid
    UTF-8) bytes; the iteration order of a [HashMap] is any enumeration of its
    entries without repetition. *)
Class Unicode := {
  to_lowercase : string → string;
  to_lowercase_ascii s : is_ascii s = true → to_lowercase s = to_ascii_lowercase s;
  to_string_lossy : PathBuf → string;
  to_string_lossy_ascii p : is_ascii p = true → to_string_lossy p = p;
}.

Class HashOrder := {
  hash_iter {V : Type} : gmap string V → list (string * V);
  hash_iter_perm {V : Type} (m : gmap string V) : hash_iter m ≡ₚ map_to_list m;
}.

(** Concrete instances, used to evaluate the model on examples. *)
Definition unicode_ascii : Unicode := {|
  to_lowercase := to_ascii_lowercase;
  to_lowercase_ascii _ _ := eq_refl;
  to_string_lossy p := p;
  to_string_lossy_ascii _ _ := eq_refl;
|}.

Definition hash_order_gmap : HashOrder := {|
  hash_iter V m := map_to_list m;
  hash_iter_perm V m := reflexivity _;
|}.

(** ** Shared lemmas on lists and booleans *)
Lemma list_ascii_app a b :
  String.list_ascii_of_string (a +:+ b) = String.list_ascii_of_string a ++ String.list_ascii_of_string b.
Proof. induction a as [|c a IH]; [done|]. by apply (f_equal (cons c)) in IH. Qed.

Lemma is_ascii_cat a b : is_ascii a = true → is_ascii b = true → is_ascii (a +:+ b) = true.
Proof.
  intros Ha Hb. induction a as [|d a IH]; [done|]. change (String d a +:+ b) with (String d (a +:+ b)).
  cbn in *. apply andb_true_iff in Ha as [-> Ha]. by apply IH.
Qed.


Lemma existsb_elem_of {A} (f : A → bool) (l : list A) :
  existsb f l = true ↔ ∃ x, x ∈ l ∧ f x = true.
Proof. rewrite existsb_exists. by setoid_rewrite list_elem_of_In. Qed.

Lemma forallb_elem_of {A} (f : A → bool) (l : list A) :
  forallb f l = true ↔ ∀ x, x ∈ l → f x = true.
Proof. rewrite forallb_forall. by setoid_rewrite list_elem_of_In. Qed.

Lemma filter_elem_of {A} (f : A → bool) (l : list A) x :
  x ∈ List.filter f l ↔ x ∈ l ∧ f x = true.
Proof. rewrite !list_elem_of_In. apply filter_In. Qed.

Lemma filter_all {A} (f : A → bool) l : Forall (λ x, f x = true) l → List.filter f l = l.
Proof. induction 1 as [|x l Hx _ IH]; simpl; [done|]. by rewrite Hx, IH. Qed.

Lemma filter_none {A} (f : A → bool) l : Forall (λ x, f x = false) l → List.filter f l = [].
Proof. induction 1 as [|x l Hx _ IH]; simpl; [done|]. by rewrite Hx, IH. Qed.

Lemma find_Some_elem_of {A} (f : A → bool) (l : list A) x :
  List.find f l = Some x → x ∈ l ∧ f x = true.
Proof. intros [H ?]%find_some. split; [by apply list_elem_of_In|done]. Qed.

Lemma existsb_ext_elem {A} (f g : A → bool) (l : list A) :
  (∀ x, x ∈ l → f x = g x) → existsb f l = existsb g l.
Proof.
  intros H. induction l as [|x l IH]; [done|]; simpl.
  rewrite H by set_solver. f_equal. apply IH. set_solver.
Qed.

Lemma forallb_ext_elem {A} (f g : A → bool) (l : list A) :
  (∀ x, x ∈ l → f x = g x) → forallb f l = forallb g l.
Proof.
  intros H. induction l as [|x l IH]; [done|]; simpl.
  rewrite H by set_solver. f_equal. apply IH. set_solver.
Qed.

Lemma existsb_perm {A} (f : A → bool) (l k : list A) :
  l ≡ₚ k → existsb f l = existsb f k.
Proof.
  intros Hp. apply eq_iff_eq_true. rewrite !existsb_elem_of.
  by setoid_rewrite Hp.
Qed.

(** Selection is insensitive to the order of enumeration. *)
#[export] Instance list_filter_perm {A} (f : A → bool) :
  Proper ((≡ₚ) ==> (≡ₚ)) (List.filter f).
Proof.
  intros l k Hp. induction Hp as [|x l k _ IH|x y l|l k j _ IH1 _ IH2]; simpl; [done| | |].
  - destruct (f x); [by constructor|done].
  - destruct (f x), (f y); try done. apply perm_swap.
  - by etrans.
Qed.

Lemma filter_nil_existsb {A} (f : A → bool) (l : list A) :
  List.filter f l = [] ↔ existsb f l = false.
Proof.
  induction l as [|x l IH]; [done|]; simpl.
  destruct (f x); simpl; [split; intros; discriminate|done].
Qed.

Lemma length_filter_pos {A} (f : A → bool) (l : list A) :
  0 < length (List.filter f l) ↔ existsb f l = true.
Proof.
  rewrite existsb_elem_of. split.
  - destruct (List.filter f l) as [|x k] eqn:E; simpl; [lia|]. intros _.
    exists x. apply filter_elem_of. rewrite E. set_solver.
  - intros [x Hx]. apply filter_elem_of in Hx.
    destruct (List.filter f l); [set_solver|simpl; lia].
Qed.

(** The [i]-th selected element and the selected elements before it. *)
Lemma filter_lookup_split {A} (f : A → bool) (l : list A) i x :
  List.filter f l !! i = Some x →
  ∃ pre post, l = pre ++ x :: post ∧ List.filter f pre = take i (List.filter f l).
Proof.
  revert i; induction l as [|y l IH]; intros i Hi; simpl in *; [done|].
  destruct (f y) eqn:Hy.
  - destruct i as [|i]; simplify_eq/=; [by exists [], l|].
    destruct (IH i Hi) as (pre & post & -> & Hpre). exists (y :: pre), post.
    simpl. rewrite Hy, Hpre. done.
  - destruct (IH i Hi) as (pre & post & -> & Hpre). exists (y :: pre), post.
    simpl. by rewrite Hy.
Qed.

(** A list without repetition of a projection is determined by it. *)
Lemma NoDup_fmap_inj_elem {A B} (f : A → B) (l : list A) x y :
  NoDup (f <$> l) → x ∈ l → y ∈ l → f x = f y → x = y.
Proof.
  intros Hnd [i Hi]%list_elem_of_lookup [j Hj]%list_elem_of_lookup Hf.
  assert (i = j) as <-; [|congruence].
  eapply NoDup_lookup; [done|rewrite list_lookup_fmap, Hi; done|].
  by rewrite list_lookup_fmap, Hj, Hf.
Qed.

(** Selection keeps a projection without repetition. *)
Lemma NoDup_fmap_filter {A B} (f : A → B) p l :
  NoDup (f <$> l) → NoDup (f <$> List.filter p l).
Proof.
  intros Hnd. induction l as [|x l IH]; [constructor|].
  apply NoDup_cons in Hnd as [Hx Hnd]. simpl. destruct (p x); [|by apply IH].
  apply NoDup_cons. split; [|by apply IH].
  intros Hin. apply Hx. apply list_elem_of_fmap in Hin as (y & -> & Hy).
  apply list_elem_of_fmap. exists y. split; [done|].
  apply list_elem_of_In. apply list_elem_of_In in Hy. by apply List.filter_In in Hy as [? _].
Qed.

(** ** Automation

    [voom] collects the closure lemmas of the invariants of the components;
    [case_all] splits every match on a variable or constructor of the goal and
    discharges the impossible branches. *)
Create HintDb voom.

Ltac case_all :=
  repeat (case_match; simplify_eq/=; try done).
