(* ===== verification/Json.v ===== *)
(** * JSON values

    The values of [serde_json::Value] the policy code builds and inspects.
    [Number] is generated by the documented conversions of [serde_json]
    ([From<u64>], [From<i64>] for negative values, [Number::from_f64]);
    [as_f64] is its documented view. An [Object] is the key-ordered map of the
    crate's default configuration (no [preserve_order] feature). *)
From S2P Require Import Prelude.

Inductive Number : Type :=
| Number_PosInt (n : u64)
| Number_NegInt (z : Z)
| Number_Float (f : f64).

Inductive JValue : Type :=
| JNull
| JBool (b : bool)
| JNumber (n : Number)
| JString (s : string)
| JArray (l : list JValue)
| JObject (l : list (string * JValue)).

(** [Number::as_f64] *)
Definition Number_as_f64 (n : Number) : option f64 :=
  match n with
  | Number_PosInt n => Some (f64_of_N n)
  | Number_NegInt z => Some (f64_of_Z z)
  | Number_Float f => Some f
  end.

(** [PartialEq for Number] *)
Definition Number_eqb (a b : Number) : bool :=
  match a, b with
  | Number_PosInt a, Number_PosInt b => (a =? b)%N
  | Number_NegInt a, Number_NegInt b => (a =? b)%Z
  | Number_Float a, Number_Float b => f64_eqb a b
  | _, _ => false
  end.

(** [json!(n)] for an unsigned integer, and for an [f64]: a non-finite float
    becomes [null]. *)
Definition json_u64 (n : u64) : JValue := JNumber (Number_PosInt n).

Definition json_f64 (f : f64) : JValue :=
  if f64_is_finite f then JNumber (Number_Float f) else JNull.

(** [Value::get] with a string key *)
Definition JValue_get (key : string) (v : JValue) : option JValue :=
  match v with
  | JObject l => snd <$> List.find (λ kv, bool_decide (kv.1 = key)) l
  | _ => None
  end.

(** [PartialEq for Value] *)
Fixpoint JValue_eqb (a b : JValue) {struct a} : bool :=
  match a, b with
  | JNull, JNull => true
  | JBool a, JBool b => Bool.eqb a b
  | JNumber a, JNumber b => Number_eqb a b
  | JString a, JString b => bool_decide (a = b)
  | JArray l, JArray k =>
      (fix go l k :=
         match l, k with
         | [], [] => true
         | x :: l, y :: k => JValue_eqb x y && go l k
         | _, _ => false
         end) l k
  | JObject l, JObject k =>
      (fix go (l k : list (string * JValue)) :=
         match l, k with
         | [], [] => true
         | (p, x) :: l, (q, y) :: k => bool_decide (p = q) && JValue_eqb x y && go l k
         | _, _ => false
         end) l k
  | _, _ => false
  end.

(** Insertion into a key-ordered object, replacing an existing entry. *)
Fixpoint json_map_insert (key : string) (v : JValue) (l : list (string * JValue)) :=
  match l with
  | [] => [(key, v)]
  | (k, w) :: l =>
      if bool_decide (key = k) then (key, v) :: l
      else if str_ltb key k then (key, v) :: (k, w) :: l
      else (k, w) :: json_map_insert key v l
  end.

(** [into_iter().collect::<serde_json::Map<_, _>>()] *)
Definition json_map_collect (l : list (string * JValue)) : list (string * JValue) :=
  foldl (λ m kv, json_map_insert kv.1 kv.2 m) [] l.

(** [Display for Value] (compact JSON text): the crate's printer. *)
Class JsonDisplay := json_to_string : JValue → string.
