(* ===== verification/Media.v ===== *)
(** * Media files and tracks

    [crates/voom-domain/src/media.rs]: the introspected media file, its tracks
    and containers, with [FileStatus] of [transition.rs]. *)
From S2P Require Import Prelude Json.

(** ** File status *)
Inductive FileStatus : Type :=
| FileStatus_Active
| FileStatus_Missing
| FileStatus_Quarantined.

#[export] Instance FileStatus_eq_dec : EqDecision FileStatus.
Proof. solve_decision. Defined.

Definition FileStatus_as_str (s : FileStatus) : string :=
  match s with
  | FileStatus_Active => "active"
  | FileStatus_Missing => "missing"
  | FileStatus_Quarantined => "quarantined"
  end.

Definition FileStatus_parse (s : string) : option FileStatus :=
  if bool_decide (s = "active") then Some FileStatus_Active
  else if bool_decide (s = "missing") then Some FileStatus_Missing
  else if bool_decide (s = "quarantined") then Some FileStatus_Quarantined
  else None.

(** ** Crop rectangles *)
Record CropRect : Type := {
  CropRect_left : u32;
  CropRect_top : u32;
  CropRect_right : u32;
  CropRect_bottom : u32;
}.

Definition CropRect_is_empty (r : CropRect) : bool :=
  (CropRect_left r =? 0)%N && (CropRect_top r =? 0)%N &&
  (CropRect_right r =? 0)%N && (CropRect_bottom r =? 0)%N.

Record CropDetection : Type := {
  CropDetection_rect : CropRect;
  CropDetection_detected_at : DateTime;
  CropDetection_settings_fingerprint : option string;
}.

Definition CropDetection_new (rect : CropRect) (detected_at : DateTime) : CropDetection := {|
  CropDetection_rect := rect;
  CropDetection_detected_at := detected_at;
  CropDetection_settings_fingerprint := None;
|}.

Definition CropDetection_with_settings_fingerprint (d : CropDetection) (fingerprint : string)
    : CropDetection := {|
  CropDetection_rect := CropDetection_rect d;
  CropDetection_detected_at := CropDetection_detected_at d;
  CropDetection_settings_fingerprint := Some fingerprint;
|}.

(** ** Track types *)
Inductive TrackType : Type :=
| TrackType_Video
| TrackType_AudioMain
| TrackType_AudioAlternate
| TrackType_AudioCommentary
| TrackType_AudioMusic
| TrackType_AudioSfx
| TrackType_AudioNonSpeech
| TrackType_SubtitleMain
| TrackType_SubtitleForced
| TrackType_SubtitleCommentary
| TrackType_Attachment.

#[export] Instance TrackType_eq_dec : EqDecision TrackType.
Proof. solve_decision. Defined.

Definition TrackType_is_audio (t : TrackType) : bool :=
  match t with
  | TrackType_AudioMain | TrackType_AudioAlternate | TrackType_AudioCommentary
  | TrackType_AudioMusic | TrackType_AudioSfx | TrackType_AudioNonSpeech => true
  | _ => false
  end.

Definition TrackType_is_subtitle (t : TrackType) : bool :=
  match t with
  | TrackType_SubtitleMain | TrackType_SubtitleForced | TrackType_SubtitleCommentary => true
  | _ => false
  end.

Definition TrackType_is_video (t : TrackType) : bool :=
  match t with TrackType_Video => true | _ => false end.

Definition TrackType_track_category (t : TrackType) : string :=
  if TrackType_is_video t then "video"
  else if TrackType_is_audio t then "audio"
  else if TrackType_is_subtitle t then "subtitle"
  else "attachment".

Definition TrackType_as_str (t : TrackType) : string :=
  match t with
  | TrackType_Video => "video"
  | TrackType_AudioMain => "audio_main"
  | TrackType_AudioAlternate => "audio_alternate"
  | TrackType_AudioCommentary => "audio_commentary"
  | TrackType_AudioMusic => "audio_music"
  | TrackType_AudioSfx => "audio_sfx"
  | TrackType_AudioNonSpeech => "audio_non_speech"
  | TrackType_SubtitleMain => "subtitle_main"
  | TrackType_SubtitleForced => "subtitle_forced"
  | TrackType_SubtitleCommentary => "subtitle_commentary"
  | TrackType_Attachment => "attachment"
  end.

(** [FromStr for TrackType]; the error carries the validation message. *)
Definition TrackType_from_str (s : string) : result string TrackType :=
  if bool_decide (s = "video") then Ok TrackType_Video
  else if bool_decide (s = "audio_main") then Ok TrackType_AudioMain
  else if bool_decide (s = "audio_alternate") then Ok TrackType_AudioAlternate
  else if bool_decide (s = "audio_commentary") then Ok TrackType_AudioCommentary
  else if bool_decide (s = "audio_music") then Ok TrackType_AudioMusic
  else if bool_decide (s = "audio_sfx") then Ok TrackType_AudioSfx
  else if bool_decide (s = "audio_non_speech") then Ok TrackType_AudioNonSpeech
  else if bool_decide (s = "subtitle_main") then Ok TrackType_SubtitleMain
  else if bool_decide (s = "subtitle_forced") then Ok TrackType_SubtitleForced
  else if bool_decide (s = "subtitle_commentary") then Ok TrackType_SubtitleCommentary
  else if bool_decide (s = "attachment") then Ok TrackType_Attachment
  else Err ("unknown track type: " +:+ s).

(** ** Containers *)
Inductive Container : Type :=
| Container_Mkv
| Container_Mp4
| Container_Avi
| Container_Webm
| Container_Flv
| Container_Wmv
| Container_Mov
| Container_Ts
| Container_Other.

#[export] Instance Container_eq_dec : EqDecision Container.
Proof. solve_decision. Defined.

(** Membership of a string in a literal alternative [ "a" | "b" | ... ]. *)
Definition str_in (l : list string) (s : string) : bool := bool_decide (s ∈ l).

Definition Container_from_extension (ext : string) : Container :=
  let e := to_ascii_lowercase ext in
  if str_in ["mkv"; "mka"; "mks"] e then Container_Mkv
  else if str_in ["mp4"; "m4v"; "m4a"] e then Container_Mp4
  else if str_in ["avi"] e then Container_Avi
  else if str_in ["webm"] e then Container_Webm
  else if str_in ["flv"] e then Container_Flv
  else if str_in ["wmv"; "wma"] e then Container_Wmv
  else if str_in ["mov"] e then Container_Mov
  else if str_in ["ts"; "m2ts"; "mts"] e then Container_Ts
  else Container_Other.

Definition Container_known_extensions : list string :=
  ["mkv"; "mka"; "mks"; "mp4"; "m4v"; "m4a"; "avi"; "webm"; "flv"; "wmv"; "wma"; "mov";
   "ts"; "m2ts"; "mts"].

Definition Container_as_str (c : Container) : string :=
  match c with
  | Container_Mkv => "mkv"
  | Container_Mp4 => "mp4"
  | Container_Avi => "avi"
  | Container_Webm => "webm"
  | Container_Flv => "flv"
  | Container_Wmv => "wmv"
  | Container_Mov => "mov"
  | Container_Ts => "ts"
  | Container_Other => "other"
  end.

Definition Container_ffmpeg_format_name (c : Container) : option string :=
  match c with
  | Container_Mkv => Some "matroska"
  | Container_Mp4 => Some "mp4"
  | Container_Avi => Some "avi"
  | Container_Webm => Some "webm"
  | Container_Flv => Some "flv"
  | Container_Wmv => Some "asf"
  | Container_Mov => Some "mov"
  | Container_Ts => Some "mpegts"
  | Container_Other => None
  end.

(** ** Tracks *)
Record Track : Type := {
  Track_index : u32;
  Track_track_type : TrackType;
  Track_codec : string;
  Track_language : string;
  Track_title : string;
  Track_is_default : bool;
  Track_is_forced : bool;
  Track_channels : option u32;
  Track_channel_layout : option string;
  Track_sample_rate : option u32;
  Track_bit_depth : option u32;
  Track_loudness_integrated_lufs : option f64;
  Track_loudness_true_peak_db : option f64;
  Track_loudness_range_lu : option f64;
  Track_loudness_measured_at : option DateTime;
  Track_width : option u32;
  Track_height : option u32;
  Track_frame_rate : option f64;
  Track_is_vfr : bool;
  Track_is_hdr : bool;
  Track_hdr_format : option string;
  Track_pixel_format : option string;
  Track_color_primaries : option string;
  Track_color_transfer : option string;
  Track_color_matrix : option string;
  Track_max_cll : option u32;
  Track_max_fall : option u32;
  Track_master_display : option string;
  Track_dolby_vision_profile : option N;
  Track_is_animation : option bool;
}.

(** [Track::new] over [Default for Track] *)
Definition Track_new (index : u32) (track_type : TrackType) (codec : string) : Track := {|
  Track_index := index;
  Track_track_type := track_type;
  Track_codec := codec;
  Track_language := "und";
  Track_title := "";
  Track_is_default := false;
  Track_is_forced := false;
  Track_channels := None;
  Track_channel_layout := None;
  Track_sample_rate := None;
  Track_bit_depth := None;
  Track_loudness_integrated_lufs := None;
  Track_loudness_true_peak_db := None;
  Track_loudness_range_lu := None;
  Track_loudness_measured_at := None;
  Track_width := None;
  Track_height := None;
  Track_frame_rate := None;
  Track_is_vfr := false;
  Track_is_hdr := false;
  Track_hdr_format := None;
  Track_pixel_format := None;
  Track_color_primaries := None;
  Track_color_transfer := None;
  Track_color_matrix := None;
  Track_max_cll := None;
  Track_max_fall := None;
  Track_master_display := None;
  Track_dolby_vision_profile := None;
  Track_is_animation := None;
|}.

(** ** Media files *)
Record MediaFile : Type := {
  MediaFile_id : Uuid;
  MediaFile_path : PathBuf;
  MediaFile_size : u64;
  MediaFile_content_hash : option string;
  MediaFile_expected_hash : option string;
  MediaFile_status : FileStatus;
  MediaFile_container : Container;
  MediaFile_duration : f64;
  MediaFile_bitrate : option u32;
  MediaFile_crop_detection : option CropDetection;
  MediaFile_tracks : list Track;
  MediaFile_tags : gmap string string;
  MediaFile_plugin_metadata : gmap string JValue;
  MediaFile_introspected_at : DateTime;
}.

(** [MediaFile::new]; [id] and [now] are the results of [Uuid::new_v4] and
    [Utc::now]. *)
Definition MediaFile_new (id : Uuid) (now : DateTime) (path : PathBuf) : MediaFile := {|
  MediaFile_id := id;
  MediaFile_path := path;
  MediaFile_size := 0%N;
  MediaFile_content_hash := None;
  MediaFile_expected_hash := None;
  MediaFile_status := FileStatus_Active;
  MediaFile_container := Container_Other;
  MediaFile_duration := f64_of_Z 0;
  MediaFile_bitrate := None;
  MediaFile_crop_detection := None;
  MediaFile_tracks := [];
  MediaFile_tags := ∅;
  MediaFile_plugin_metadata := ∅;
  MediaFile_introspected_at := now;
|}.

Definition MediaFile_tracks_of_type (f : MediaFile) (tt : TrackType) : list Track :=
  List.filter (λ t, bool_decide (Track_track_type t = tt)) (MediaFile_tracks f).

Definition MediaFile_video_tracks (f : MediaFile) : list Track :=
  MediaFile_tracks_of_type f TrackType_Video.

Definition MediaFile_audio_tracks (f : MediaFile) : list Track :=
  List.filter (λ t, TrackType_is_audio (Track_track_type t)) (MediaFile_tracks f).

Definition MediaFile_subtitle_tracks (f : MediaFile) : list Track :=
  List.filter (λ t, TrackType_is_subtitle (Track_track_type t)) (MediaFile_tracks f).

Definition MediaFile_has_animation_video (f : MediaFile) : bool :=
  existsb (λ t, TrackType_is_video (Track_track_type t) &&
                bool_decide (Track_is_animation t = Some true)) (MediaFile_tracks f).

Definition MediaFile_with_tracks (f : MediaFile) (tracks : list Track) : MediaFile := {|
  MediaFile_id := MediaFile_id f;
  MediaFile_path := MediaFile_path f;
  MediaFile_size := MediaFile_size f;
  MediaFile_content_hash := MediaFile_content_hash f;
  MediaFile_expected_hash := MediaFile_expected_hash f;
  MediaFile_status := MediaFile_status f;
  MediaFile_container := MediaFile_container f;
  MediaFile_duration := MediaFile_duration f;
  MediaFile_bitrate := MediaFile_bitrate f;
  MediaFile_crop_detection := MediaFile_crop_detection f;
  MediaFile_tracks := tracks;
  MediaFile_tags := MediaFile_tags f;
  MediaFile_plugin_metadata := MediaFile_plugin_metadata f;
  MediaFile_introspected_at := MediaFile_introspected_at f;
|}.

Definition MediaFile_with_container (f : MediaFile) (container : Container) : MediaFile := {|
  MediaFile_id := MediaFile_id f;
  MediaFile_path := MediaFile_path f;
  MediaFile_size := MediaFile_size f;
  MediaFile_content_hash := MediaFile_content_hash f;
  MediaFile_expected_hash := MediaFile_expected_hash f;
  MediaFile_status := MediaFile_status f;
  MediaFile_container := container;
  MediaFile_duration := MediaFile_duration f;
  MediaFile_bitrate := MediaFile_bitrate f;
  MediaFile_crop_detection := MediaFile_crop_detection f;
  MediaFile_tracks := MediaFile_tracks f;
  MediaFile_tags := MediaFile_tags f;
  MediaFile_plugin_metadata := MediaFile_plugin_metadata f;
  MediaFile_introspected_at := MediaFile_introspected_at f;
|}.

(** ** Properties *)

(** The four categories partition the track types. *)
Lemma TrackType_categories_disjoint t :
  (TrackType_is_video t = true → TrackType_is_audio t = false ∧ TrackType_is_subtitle t = false) ∧
  (TrackType_is_audio t = true → TrackType_is_subtitle t = false).
Proof. by destruct t. Qed.

Lemma TrackType_from_str_as_str t : TrackType_from_str (TrackType_as_str t) = Ok t.
Proof. by destruct t. Qed.

Lemma TrackType_as_str_from_str s t : TrackType_from_str s = Ok t → TrackType_as_str t = s.
Proof. unfold TrackType_from_str. repeat case_bool_decide; intros; by simplify_eq. Qed.

Lemma Container_from_extension_as_str c : Container_from_extension (Container_as_str c) = c.
Proof. by destruct c. Qed.

(** [from_extension] recognises exactly [known_extensions], in any case. *)
Lemma Container_known_extensions_complete ext :
  Container_from_extension ext ≠ Container_Other ↔
  to_ascii_lowercase ext ∈ Container_known_extensions.
Proof.
  unfold Container_from_extension, Container_known_extensions, str_in.
  set (e := to_ascii_lowercase ext). clearbody e. split.
  - repeat (let E := fresh "E" in case_bool_decide as E; [intros _; set_solver +E|]). congruence.
  - intros H. repeat (apply elem_of_cons in H as [->|H]; [by vm_compute|]).
    by apply elem_of_nil in H.
Qed.

Lemma MediaFile_video_tracks_spec f :
  MediaFile_video_tracks f
  = List.filter (λ t, TrackType_is_video (Track_track_type t)) (MediaFile_tracks f).
Proof.
  unfold MediaFile_video_tracks, MediaFile_tracks_of_type.
  apply filter_ext. intros t. by destruct (Track_track_type t).
Qed.
