(* ===== verification/Plan.v ===== *)
(** * Domain errors and plans

    [crates/voom-domain/src/errors.rs], and [plan.rs] with [safeguard.rs],
    [verification.rs], [evaluation.rs] and [orchestration.rs]: plans, their actions
    and settings, and the outcomes of phases. *)
From S2P Require Import Prelude Json Media.

(** ** Errors

    The payloads of [Io] and [Other] are foreign error values; they are kept as the
    text they display. *)

Inductive StorageErrorKind : Type :=
| StorageErrorKind_ConstraintViolation
| StorageErrorKind_NotFound
| StorageErrorKind_Other.

Inductive VoomError : Type :=
| VoomError_Plugin (plugin message : string)
| VoomError_Wasm (message : string)
| VoomError_Storage (kind : StorageErrorKind) (message : string)
| VoomError_ToolNotFound (tool : string)
| VoomError_ToolExecution (tool message : string)
| VoomError_Validation (message : string)
| VoomError_Io (message : string)
| VoomError_Other (message : string).

Definition VoomError_plugin (plugin message : string) : VoomError :=
  VoomError_Plugin plugin message.

(** [Display for VoomError], as derived from the [#[error(...)]] attributes. *)
Definition VoomError_to_string (e : VoomError) : string :=
  match e with
  | VoomError_Plugin plugin message => "plugin error: " +:+ plugin +:+ ": " +:+ message
  | VoomError_Wasm m => "wasm error: " +:+ m
  | VoomError_Storage _ message => "storage error: " +:+ message
  | VoomError_ToolNotFound tool => "tool not found: " +:+ tool
  | VoomError_ToolExecution tool message =>
      "tool execution error: " +:+ tool +:+ ": " +:+ message
  | VoomError_Validation m => "validation error: " +:+ m
  | VoomError_Io m => "I/O error: " +:+ m
  | VoomError_Other m => m
  end.

(** * Execution plans

    [crates/voom-domain/src/plan.rs] and [safeguard.rs], [verification.rs]
    (modes only), [evaluation.rs] and [orchestration.rs]: the contract between
    the policy evaluator and the executors. *)

(** ** Verification modes *)
Inductive VerificationMode : Type :=
| VerificationMode_Quick
| VerificationMode_Thorough
| VerificationMode_Hash.

#[export] Instance VerificationMode_eq_dec : EqDecision VerificationMode.
Proof. solve_decision. Defined.

Definition VerificationMode_as_str (m : VerificationMode) : string :=
  match m with
  | VerificationMode_Quick => "quick"
  | VerificationMode_Thorough => "thorough"
  | VerificationMode_Hash => "hash"
  end.

Definition VerificationMode_parse (s : string) : option VerificationMode :=
  if bool_decide (s = "quick") then Some VerificationMode_Quick
  else if bool_decide (s = "thorough") then Some VerificationMode_Thorough
  else if bool_decide (s = "hash") then Some VerificationMode_Hash
  else None.

(** ** Safeguards *)
Inductive SafeguardKind : Type :=
| SafeguardKind_AllTracksRemoved
| SafeguardKind_NoVideoTrack
| SafeguardKind_NoAudioTrack
| SafeguardKind_OutputLarger
| SafeguardKind_DiskSpaceLow
| SafeguardKind_DurationShrunk
| SafeguardKind_ContainerIncompatible.

#[export] Instance SafeguardKind_eq_dec : EqDecision SafeguardKind.
Proof. solve_decision. Defined.

Definition SafeguardKind_as_str (k : SafeguardKind) : string :=
  match k with
  | SafeguardKind_AllTracksRemoved => "all_tracks_removed"
  | SafeguardKind_NoVideoTrack => "no_video_track"
  | SafeguardKind_NoAudioTrack => "no_audio_track"
  | SafeguardKind_OutputLarger => "output_larger"
  | SafeguardKind_DiskSpaceLow => "disk_space_low"
  | SafeguardKind_DurationShrunk => "duration_shrunk"
  | SafeguardKind_ContainerIncompatible => "container_incompatible"
  end.

Record SafeguardViolation : Type := {
  SafeguardViolation_kind : SafeguardKind;
  SafeguardViolation_message : string;
  SafeguardViolation_phase_name : string;
}.

Definition SafeguardViolation_new (kind : SafeguardKind) (message phase_name : string)
    : SafeguardViolation := {|
  SafeguardViolation_kind := kind;
  SafeguardViolation_message := message;
  SafeguardViolation_phase_name := phase_name;
|}.

(** ** Transcode settings *)
Inductive TranscodeChannels : Type :=
| TranscodeChannels_Named (s : string)
| TranscodeChannels_Count (n : u32).

Inductive SampleStrategy : Type :=
| SampleStrategy_Scenes (count : u32) (duration : string)
| SampleStrategy_Uniform (count : u32) (duration : string)
| SampleStrategy_Full.

Record TranscodeFallback : Type := {
  TranscodeFallback_crf : u32;
  TranscodeFallback_preset : string;
}.

Definition TranscodeFallback_new (crf : u32) (preset : string) : TranscodeFallback := {|
  TranscodeFallback_crf := crf;
  TranscodeFallback_preset := preset;
|}.

Definition TranscodeChannels_to_count (c : TranscodeChannels) : option u32 :=
  match c with
  | TranscodeChannels_Count n => Some n
  | TranscodeChannels_Named name =>
      if bool_decide (name = "mono") then Some 1%N
      else if bool_decide (name = "stereo") then Some 2%N
      else if str_in ["5.1"; "surround"] name then Some 6%N
      else if bool_decide (name = "7.1") then Some 8%N
      else None
  end.

Inductive LoudnessPreset : Type :=
| LoudnessPreset_EbuR128
| LoudnessPreset_EbuR128Broadcast
| LoudnessPreset_StreamingMovies
| LoudnessPreset_StreamingMusic
| LoudnessPreset_Mobile
| LoudnessPreset_VoiceFocused.

Record LoudnessMeasurement : Type := {
  LoudnessMeasurement_input_i : f64;
  LoudnessMeasurement_input_tp : f64;
  LoudnessMeasurement_input_lra : f64;
  LoudnessMeasurement_input_thresh : f64;
  LoudnessMeasurement_target_offset : f64;
}.

Record LoudnessNormalization : Type := {
  LoudnessNormalization_preset : LoudnessPreset;
  LoudnessNormalization_target_lufs : f64;
  LoudnessNormalization_true_peak_db : f64;
  LoudnessNormalization_lra_max : option f64;
  LoudnessNormalization_tolerance_lufs : f64;
  LoudnessNormalization_measured : option LoudnessMeasurement;
}.

(** [0.5] *)
Definition default_loudness_tolerance : f64 := f64_lit 1 (-1).

Definition LoudnessNormalization_new (preset : LoudnessPreset) (target_lufs true_peak_db : f64)
    (lra_max : option f64) : LoudnessNormalization := {|
  LoudnessNormalization_preset := preset;
  LoudnessNormalization_target_lufs := target_lufs;
  LoudnessNormalization_true_peak_db := true_peak_db;
  LoudnessNormalization_lra_max := lra_max;
  LoudnessNormalization_tolerance_lufs := default_loudness_tolerance;
  LoudnessNormalization_measured := None;
|}.

Definition LoudnessPreset_parse (value : string) : option LoudnessPreset :=
  if bool_decide (value = "ebu_r128") then Some LoudnessPreset_EbuR128
  else if bool_decide (value = "ebu_r128_broadcast") then Some LoudnessPreset_EbuR128Broadcast
  else if bool_decide (value = "streaming_movies") then Some LoudnessPreset_StreamingMovies
  else if bool_decide (value = "streaming_music") then Some LoudnessPreset_StreamingMusic
  else if bool_decide (value = "mobile") then Some LoudnessPreset_Mobile
  else if bool_decide (value = "voice_focused") then Some LoudnessPreset_VoiceFocused
  else None.

Definition LoudnessPreset_defaults (p : LoudnessPreset) : LoudnessNormalization :=
  match p with
  | LoudnessPreset_EbuR128 | LoudnessPreset_EbuR128Broadcast =>
      LoudnessNormalization_new p (f64_of_Z (-23)) (f64_of_Z (-1)) (Some (f64_of_Z 18))
  | LoudnessPreset_StreamingMovies =>
      LoudnessNormalization_new p (f64_of_Z (-24)) (f64_of_Z (-2)) None
  | LoudnessPreset_StreamingMusic =>
      LoudnessNormalization_new p (f64_of_Z (-14)) (f64_of_Z (-1)) None
  | LoudnessPreset_Mobile =>
      LoudnessNormalization_new p (f64_of_Z (-16)) (f64_lit (-3) (-1)) None
  | LoudnessPreset_VoiceFocused =>
      LoudnessNormalization_new p (f64_of_Z (-19)) (f64_of_Z (-1)) (Some (f64_of_Z 7))
  end.

(** [(measured - target).abs() <= tolerance] *)
Definition LoudnessNormalization_is_within_target (l : LoudnessNormalization) (measured : f64)
    : bool :=
  f64_leb (f64_abs (f64_sub measured (LoudnessNormalization_target_lufs l)))
          (LoudnessNormalization_tolerance_lufs l).

Record CropSettings : Type := {
  CropSettings_sample_duration_secs : option u32;
  CropSettings_sample_count : option u32;
  CropSettings_threshold : option N;
  CropSettings_minimum_crop : option u32;
  CropSettings_preserve_bottom_pixels : option u32;
  CropSettings_aspect_lock : list string;
}.

Definition CropSettings_auto : CropSettings := {|
  CropSettings_sample_duration_secs := None;
  CropSettings_sample_count := None;
  CropSettings_threshold := None;
  CropSettings_minimum_crop := None;
  CropSettings_preserve_bottom_pixels := None;
  CropSettings_aspect_lock := [];
|}.

Record TranscodeSettings : Type := {
  TranscodeSettings_crf : option u32;
  TranscodeSettings_preset : option string;
  TranscodeSettings_bitrate : option string;
  TranscodeSettings_target_vmaf : option u32;
  TranscodeSettings_max_bitrate : option string;
  TranscodeSettings_min_bitrate : option string;
  TranscodeSettings_sample_strategy : option SampleStrategy;
  TranscodeSettings_fallback : option TranscodeFallback;
  TranscodeSettings_vmaf_overrides : option (gmap string u32);
  TranscodeSettings_channels : option TranscodeChannels;
  TranscodeSettings_hw : option string;
  TranscodeSettings_hw_fallback : option bool;
  TranscodeSettings_max_resolution : option string;
  TranscodeSettings_scale_algorithm : option string;
  TranscodeSettings_hdr_mode : option string;
  TranscodeSettings_preserve_hdr : option bool;
  TranscodeSettings_tonemap : option string;
  TranscodeSettings_hdr_color_metadata : option string;
  TranscodeSettings_dolby_vision : option string;
  TranscodeSettings_tune : option string;
  TranscodeSettings_crop : option CropSettings;
  TranscodeSettings_loudness : option LoudnessNormalization;
}.

(** [TranscodeSettings::default()] *)
Definition TranscodeSettings_default : TranscodeSettings := {|
  TranscodeSettings_crf := None;
  TranscodeSettings_preset := None;
  TranscodeSettings_bitrate := None;
  TranscodeSettings_target_vmaf := None;
  TranscodeSettings_max_bitrate := None;
  TranscodeSettings_min_bitrate := None;
  TranscodeSettings_sample_strategy := None;
  TranscodeSettings_fallback := None;
  TranscodeSettings_vmaf_overrides := None;
  TranscodeSettings_channels := None;
  TranscodeSettings_hw := None;
  TranscodeSettings_hw_fallback := None;
  TranscodeSettings_max_resolution := None;
  TranscodeSettings_scale_algorithm := None;
  TranscodeSettings_hdr_mode := None;
  TranscodeSettings_preserve_hdr := None;
  TranscodeSettings_tonemap := None;
  TranscodeSettings_hdr_color_metadata := None;
  TranscodeSettings_dolby_vision := None;
  TranscodeSettings_tune := None;
  TranscodeSettings_crop := None;
  TranscodeSettings_loudness := None;
|}.

Definition TranscodeSettings_with_loudness (s : TranscodeSettings)
    (loudness : option LoudnessNormalization) : TranscodeSettings := {|
  TranscodeSettings_crf := TranscodeSettings_crf s;
  TranscodeSettings_preset := TranscodeSettings_preset s;
  TranscodeSettings_bitrate := TranscodeSettings_bitrate s;
  TranscodeSettings_target_vmaf := TranscodeSettings_target_vmaf s;
  TranscodeSettings_max_bitrate := TranscodeSettings_max_bitrate s;
  TranscodeSettings_min_bitrate := TranscodeSettings_min_bitrate s;
  TranscodeSettings_sample_strategy := TranscodeSettings_sample_strategy s;
  TranscodeSettings_fallback := TranscodeSettings_fallback s;
  TranscodeSettings_vmaf_overrides := TranscodeSettings_vmaf_overrides s;
  TranscodeSettings_channels := TranscodeSettings_channels s;
  TranscodeSettings_hw := TranscodeSettings_hw s;
  TranscodeSettings_hw_fallback := TranscodeSettings_hw_fallback s;
  TranscodeSettings_max_resolution := TranscodeSettings_max_resolution s;
  TranscodeSettings_scale_algorithm := TranscodeSettings_scale_algorithm s;
  TranscodeSettings_hdr_mode := TranscodeSettings_hdr_mode s;
  TranscodeSettings_preserve_hdr := TranscodeSettings_preserve_hdr s;
  TranscodeSettings_tonemap := TranscodeSettings_tonemap s;
  TranscodeSettings_hdr_color_metadata := TranscodeSettings_hdr_color_metadata s;
  TranscodeSettings_dolby_vision := TranscodeSettings_dolby_vision s;
  TranscodeSettings_tune := TranscodeSettings_tune s;
  TranscodeSettings_crop := TranscodeSettings_crop s;
  TranscodeSettings_loudness := loudness;
|}.

(** The effective VMAF target: an [animation] override wins over the general
    target when the file has an animated video track. *)
Definition TranscodeSettings_resolve_target_vmaf (s : TranscodeSettings) (file : MediaFile)
    : option u32 :=
  let target := TranscodeSettings_target_vmaf s in
  let animation_override :=
    overrides ← TranscodeSettings_vmaf_overrides s;
    overrides !! "animation" in
  if MediaFile_has_animation_video file then
    match animation_override with Some v => Some v | None => target end
  else target.

(** ** Actions *)
Inductive OperationType : Type :=
| Op_SetDefault
| Op_ClearDefault
| Op_SetForced
| Op_ClearForced
| Op_SetTitle
| Op_SetLanguage
| Op_RemoveTrack
| Op_ReorderTracks
| Op_ConvertContainer
| Op_TranscodeVideo
| Op_TranscodeAudio
| Op_SynthesizeAudio
| Op_SetContainerTag
| Op_ClearContainerTags
| Op_DeleteContainerTag
| Op_MuxSubtitle
| Op_VerifyMedia
| Op_Quarantine.

#[export] Instance OperationType_eq_dec : EqDecision OperationType.
Proof. solve_decision. Defined.

Definition OperationType_as_str (o : OperationType) : string :=
  match o with
  | Op_SetDefault => "set_default"
  | Op_ClearDefault => "clear_default"
  | Op_SetForced => "set_forced"
  | Op_ClearForced => "clear_forced"
  | Op_SetTitle => "set_title"
  | Op_SetLanguage => "set_language"
  | Op_RemoveTrack => "remove_track"
  | Op_ReorderTracks => "reorder_tracks"
  | Op_ConvertContainer => "convert_container"
  | Op_TranscodeVideo => "transcode_video"
  | Op_TranscodeAudio => "transcode_audio"
  | Op_SynthesizeAudio => "synthesize_audio"
  | Op_SetContainerTag => "set_container_tag"
  | Op_ClearContainerTags => "clear_container_tags"
  | Op_DeleteContainerTag => "delete_container_tag"
  | Op_MuxSubtitle => "mux_subtitle"
  | Op_VerifyMedia => "verify_media"
  | Op_Quarantine => "quarantine"
  end.

Definition OperationType_parse (s : string) : option OperationType :=
  if bool_decide (s = "set_default") then Some Op_SetDefault
  else if bool_decide (s = "clear_default") then Some Op_ClearDefault
  else if bool_decide (s = "set_forced") then Some Op_SetForced
  else if bool_decide (s = "clear_forced") then Some Op_ClearForced
  else if bool_decide (s = "set_title") then Some Op_SetTitle
  else if bool_decide (s = "set_language") then Some Op_SetLanguage
  else if bool_decide (s = "remove_track") then Some Op_RemoveTrack
  else if bool_decide (s = "reorder_tracks") then Some Op_ReorderTracks
  else if bool_decide (s = "convert_container") then Some Op_ConvertContainer
  else if bool_decide (s = "transcode_video") then Some Op_TranscodeVideo
  else if bool_decide (s = "transcode_audio") then Some Op_TranscodeAudio
  else if bool_decide (s = "synthesize_audio") then Some Op_SynthesizeAudio
  else if bool_decide (s = "set_container_tag") then Some Op_SetContainerTag
  else if bool_decide (s = "clear_container_tags") then Some Op_ClearContainerTags
  else if bool_decide (s = "delete_container_tag") then Some Op_DeleteContainerTag
  else if bool_decide (s = "mux_subtitle") then Some Op_MuxSubtitle
  else if bool_decide (s = "verify_media") then Some Op_VerifyMedia
  else if bool_decide (s = "quarantine") then Some Op_Quarantine
  else None.

Definition OperationType_METADATA_OPS : list OperationType :=
  [Op_SetDefault; Op_ClearDefault; Op_SetForced; Op_ClearForced; Op_SetTitle; Op_SetLanguage;
   Op_SetContainerTag; Op_ClearContainerTags; Op_DeleteContainerTag].

Definition OperationType_is_metadata_op (o : OperationType) : bool :=
  bool_decide (o ∈ OperationType_METADATA_OPS).

Inductive ActionParams : Type :=
| AP_Empty
| AP_Container (container : Container)
| AP_RemoveTrack (reason : string) (track_type : TrackType)
| AP_ReorderTracks (order : list string)
| AP_Language (language : string)
| AP_Title (title : string)
| AP_Transcode (codec : string) (settings : TranscodeSettings)
| AP_Synthesize (name : string) (language codec text bitrate : option string)
    (channels : option u32) (title position : option string) (source_track : option u32)
    (loudness : option LoudnessNormalization)
| AP_SetTag (tag value : string)
| AP_ClearTags (tags : list string)
| AP_DeleteTag (tag : string)
| AP_MuxSubtitle (subtitle_path : PathBuf) (language : string) (forced : bool)
    (title : option string)
| AP_VerifyMedia (mode : VerificationMode)
| AP_Quarantine (reason : string).

Definition ActionParams_kind (p : ActionParams) : string :=
  match p with
  | AP_Empty => "empty"
  | AP_Container _ => "container"
  | AP_RemoveTrack _ _ => "remove_track"
  | AP_ReorderTracks _ => "reorder_tracks"
  | AP_Language _ => "language"
  | AP_Title _ => "title"
  | AP_Transcode _ _ => "transcode"
  | AP_Synthesize _ _ _ _ _ _ _ _ _ _ => "synthesize"
  | AP_SetTag _ _ => "set_tag"
  | AP_ClearTags _ => "clear_tags"
  | AP_DeleteTag _ => "delete_tag"
  | AP_MuxSubtitle _ _ _ _ => "mux_subtitle"
  | AP_VerifyMedia _ => "verify_media"
  | AP_Quarantine _ => "quarantine"
  end.

Definition validate_action_params (operation : OperationType) (parameters : ActionParams)
    : result string unit :=
  match operation, parameters with
  | (Op_SetDefault | Op_ClearDefault | Op_SetForced | Op_ClearForced), AP_Empty
  | Op_ConvertContainer, AP_Container _
  | Op_RemoveTrack, AP_RemoveTrack _ _
  | Op_ReorderTracks, AP_ReorderTracks _
  | Op_SetLanguage, AP_Language _
  | Op_SetTitle, AP_Title _
  | (Op_TranscodeVideo | Op_TranscodeAudio), AP_Transcode _ _
  | Op_SynthesizeAudio, AP_Synthesize _ _ _ _ _ _ _ _ _ _
  | Op_SetContainerTag, AP_SetTag _ _
  | Op_ClearContainerTags, AP_ClearTags _
  | Op_DeleteContainerTag, AP_DeleteTag _
  | Op_MuxSubtitle, AP_MuxSubtitle _ _ _ _
  | Op_VerifyMedia, AP_VerifyMedia _
  | Op_Quarantine, AP_Quarantine _ => Ok tt
  | _, _ => Err ("operation " +:+ OperationType_as_str operation +:+ " cannot use "
                 +:+ ActionParams_kind parameters +:+ " parameters")
  end.

Record PlannedAction : Type := {
  PlannedAction_operation : OperationType;
  PlannedAction_track_index : option u32;
  PlannedAction_parameters : ActionParams;
  PlannedAction_description : string;
}.

Definition PlannedAction_new_checked (operation : OperationType) (track_index : option u32)
    (parameters : ActionParams) (description : string) : result string PlannedAction :=
  _ ← validate_action_params operation parameters;
  Ok {|
    PlannedAction_operation := operation;
    PlannedAction_track_index := track_index;
    PlannedAction_parameters := parameters;
    PlannedAction_description := description;
  |}.

Definition PlannedAction_try_file_op (operation : OperationType) (parameters : ActionParams)
    (description : string) : result string PlannedAction :=
  PlannedAction_new_checked operation None parameters description.

Definition PlannedAction_try_track_op (operation : OperationType) (track_index : u32)
    (parameters : ActionParams) (description : string) : result string PlannedAction :=
  PlannedAction_new_checked operation (Some track_index) parameters description.

(** ** Plans *)
Record Plan : Type := {
  Plan_id : Uuid;
  Plan_file : MediaFile;
  Plan_policy_name : string;
  Plan_phase_name : string;
  Plan_actions : list PlannedAction;
  Plan_warnings : list string;
  Plan_safeguard_violations : list SafeguardViolation;
  Plan_skip_reason : option string;
  Plan_policy_hash : option string;
  Plan_evaluated_at : DateTime;
  Plan_executor_hint : option string;
  Plan_session_id : option Uuid;
  Plan_scan_session : option Uuid;
}.

(** What [Uuid::new_v4] and [Utc::now] return when a plan is created. *)
Record Stamp : Type := { Stamp_id : Uuid; Stamp_now : DateTime }.

Definition Plan_new (stamp : Stamp) (file : MediaFile) (policy_name phase_name : string) : Plan := {|
  Plan_id := Stamp_id stamp;
  Plan_file := file;
  Plan_policy_name := policy_name;
  Plan_phase_name := phase_name;
  Plan_actions := [];
  Plan_warnings := [];
  Plan_safeguard_violations := [];
  Plan_skip_reason := None;
  Plan_policy_hash := None;
  Plan_evaluated_at := Stamp_now stamp;
  Plan_executor_hint := None;
  Plan_session_id := None;
  Plan_scan_session := None;
|}.

Definition Plan_is_empty (p : Plan) : bool :=
  match Plan_actions p with [] => true | _ => false end.

Definition Plan_is_skipped (p : Plan) : bool :=
  match Plan_skip_reason p with Some _ => true | None => false end.

(** Field assignments [plan.field = value]. *)
Definition Plan_set_actions (p : Plan) (actions : list PlannedAction) : Plan := {|
  Plan_id := Plan_id p;
  Plan_file := Plan_file p;
  Plan_policy_name := Plan_policy_name p;
  Plan_phase_name := Plan_phase_name p;
  Plan_actions := actions;
  Plan_warnings := Plan_warnings p;
  Plan_safeguard_violations := Plan_safeguard_violations p;
  Plan_skip_reason := Plan_skip_reason p;
  Plan_policy_hash := Plan_policy_hash p;
  Plan_evaluated_at := Plan_evaluated_at p;
  Plan_executor_hint := Plan_executor_hint p;
  Plan_session_id := Plan_session_id p;
  Plan_scan_session := Plan_scan_session p;
|}.

Definition Plan_set_warnings (p : Plan) (warnings : list string) : Plan := {|
  Plan_id := Plan_id p;
  Plan_file := Plan_file p;
  Plan_policy_name := Plan_policy_name p;
  Plan_phase_name := Plan_phase_name p;
  Plan_actions := Plan_actions p;
  Plan_warnings := warnings;
  Plan_safeguard_violations := Plan_safeguard_violations p;
  Plan_skip_reason := Plan_skip_reason p;
  Plan_policy_hash := Plan_policy_hash p;
  Plan_evaluated_at := Plan_evaluated_at p;
  Plan_executor_hint := Plan_executor_hint p;
  Plan_session_id := Plan_session_id p;
  Plan_scan_session := Plan_scan_session p;
|}.

Definition Plan_set_violations (p : Plan) (violations : list SafeguardViolation) : Plan := {|
  Plan_id := Plan_id p;
  Plan_file := Plan_file p;
  Plan_policy_name := Plan_policy_name p;
  Plan_phase_name := Plan_phase_name p;
  Plan_actions := Plan_actions p;
  Plan_warnings := Plan_warnings p;
  Plan_safeguard_violations := violations;
  Plan_skip_reason := Plan_skip_reason p;
  Plan_policy_hash := Plan_policy_hash p;
  Plan_evaluated_at := Plan_evaluated_at p;
  Plan_executor_hint := Plan_executor_hint p;
  Plan_session_id := Plan_session_id p;
  Plan_scan_session := Plan_scan_session p;
|}.

Definition Plan_set_skip_reason (p : Plan) (skip_reason : option string) : Plan := {|
  Plan_id := Plan_id p;
  Plan_file := Plan_file p;
  Plan_policy_name := Plan_policy_name p;
  Plan_phase_name := Plan_phase_name p;
  Plan_actions := Plan_actions p;
  Plan_warnings := Plan_warnings p;
  Plan_safeguard_violations := Plan_safeguard_violations p;
  Plan_skip_reason := skip_reason;
  Plan_policy_hash := Plan_policy_hash p;
  Plan_evaluated_at := Plan_evaluated_at p;
  Plan_executor_hint := Plan_executor_hint p;
  Plan_session_id := Plan_session_id p;
  Plan_scan_session := Plan_scan_session p;
|}.

Definition Plan_set_policy_hash (p : Plan) (policy_hash : option string) : Plan := {|
  Plan_id := Plan_id p;
  Plan_file := Plan_file p;
  Plan_policy_name := Plan_policy_name p;
  Plan_phase_name := Plan_phase_name p;
  Plan_actions := Plan_actions p;
  Plan_warnings := Plan_warnings p;
  Plan_safeguard_violations := Plan_safeguard_violations p;
  Plan_skip_reason := Plan_skip_reason p;
  Plan_policy_hash := policy_hash;
  Plan_evaluated_at := Plan_evaluated_at p;
  Plan_executor_hint := Plan_executor_hint p;
  Plan_session_id := Plan_session_id p;
  Plan_scan_session := Plan_scan_session p;
|}.

Definition Plan_set_executor_hint (p : Plan) (executor_hint : option string) : Plan := {|
  Plan_id := Plan_id p;
  Plan_file := Plan_file p;
  Plan_policy_name := Plan_policy_name p;
  Plan_phase_name := Plan_phase_name p;
  Plan_actions := Plan_actions p;
  Plan_warnings := Plan_warnings p;
  Plan_safeguard_violations := Plan_safeguard_violations p;
  Plan_skip_reason := Plan_skip_reason p;
  Plan_policy_hash := Plan_policy_hash p;
  Plan_evaluated_at := Plan_evaluated_at p;
  Plan_executor_hint := executor_hint;
  Plan_session_id := Plan_session_id p;
  Plan_scan_session := Plan_scan_session p;
|}.

(** [Plan::with_skip_reason]: skipped plans have no actions. *)
Definition Plan_with_skip_reason (p : Plan) (reason : string) : Plan :=
  Plan_set_actions (Plan_set_skip_reason p (Some reason)) [].

Definition Plan_with_warning (p : Plan) (warning : string) : Plan :=
  Plan_set_warnings p (Plan_warnings p ++ [warning]).

Definition Plan_with_action (p : Plan) (action : PlannedAction) : Plan :=
  Plan_set_actions p (Plan_actions p ++ [action]).

(** ** Phase outputs, outcomes and results *)
Record PhaseOutput : Type := {
  PhaseOutput_completed : bool;
  PhaseOutput_modified : bool;
  PhaseOutput_outcome : option string;
  PhaseOutput_error_count : u32;
  PhaseOutput_warning_count : u32;
}.

Definition PHASE_OUTPUT_FIELDS : list string :=
  ["completed"; "modified"; "outcome"; "error_count"; "warning_count"].

Inductive PhaseOutcome : Type :=
| PhaseOutcome_Pending
| PhaseOutcome_Completed
| PhaseOutcome_Skipped
| PhaseOutcome_Failed.

#[export] Instance PhaseOutcome_eq_dec : EqDecision PhaseOutcome.
Proof. solve_decision. Defined.

Record ExecutionDetail : Type := {
  ExecutionDetail_command : string;
  ExecutionDetail_exit_code : option i32;
  ExecutionDetail_stderr_tail : string;
  ExecutionDetail_duration_ms : u64;
}.

Record ActionResult : Type := {
  ActionResult_operation : OperationType;
  ActionResult_success : bool;
  ActionResult_description : string;
  ActionResult_error : option string;
  ActionResult_execution_detail : option ExecutionDetail;
}.

Record PhaseResult : Type := {
  PhaseResult_phase_name : string;
  PhaseResult_outcome : PhaseOutcome;
  PhaseResult_actions : list ActionResult;
  PhaseResult_file_modified : bool;
  PhaseResult_skip_reason : option string;
  PhaseResult_duration_ms : u64;
  PhaseResult_temp_path : option string;
}.

(** [evaluation.rs] *)
Inductive EvaluationOutcome : Type :=
| EvaluationOutcome_Executed (modified : bool)
| EvaluationOutcome_Skipped
| EvaluationOutcome_SafeguardFailed
| EvaluationOutcome_ExecutionFailed.

Record EvaluationResult : Type := { EvaluationResult_plans : list Plan }.

(** [orchestration.rs] *)
Record OrchestrationResult : Type := {
  OrchestrationResult_plans : list Plan;
  OrchestrationResult_phase_results : list PhaseResult;
  OrchestrationResult_file_modified : bool;
}.

(** ** Properties *)

(** An action is well formed when its parameters fit its operation. *)
Definition action_wf (a : PlannedAction) : Prop :=
  validate_action_params (PlannedAction_operation a) (PlannedAction_parameters a) = Ok tt.

Lemma new_checked_wf o i ps d a :
  PlannedAction_new_checked o i ps d = Ok a →
  action_wf a ∧ PlannedAction_operation a = o ∧ PlannedAction_track_index a = i ∧
  PlannedAction_parameters a = ps.
Proof.
  unfold PlannedAction_new_checked, action_wf.
  destruct (validate_action_params o ps) as [[]|e] eqn:E; [|done].
  intros [= <-]. by simpl.
Qed.

Lemma OperationType_parse_as_str o : OperationType_parse (OperationType_as_str o) = Some o.
Proof. by destruct o. Qed.

Lemma OperationType_as_str_parse s o :
  OperationType_parse s = Some o → OperationType_as_str o = s.
Proof. unfold OperationType_parse. repeat case_bool_decide; intros; by simplify_eq. Qed.

(** Metadata-only operations never touch the track or container structure. *)
Lemma metadata_ops_not_structural o :
  OperationType_is_metadata_op o = true →
  o ∉ [Op_RemoveTrack; Op_ReorderTracks; Op_ConvertContainer; Op_TranscodeVideo;
       Op_TranscodeAudio; Op_SynthesizeAudio; Op_MuxSubtitle].
Proof. destruct o; intros H; try discriminate H; apply (bool_decide_unpack _); by vm_compute. Qed.
