(* ===== verification/Compiled.v ===== *)
(** * Compiled policies

    [crates/voom-domain/src/compiled.rs]: the intermediate representation the
    DSL compiler produces and the policy evaluator consumes. *)
From S2P Require Import Prelude Json Media Plan.

(** The [regex] crate: compilation of a pattern ([Err] carries the displayed
    error) and matching of a compiled pattern. A [CompiledRegex] is determined
    by its pattern. *)
Class RegexCrate := {
  regex_new : string → result string unit;
  regex_is_match : string → string → bool;
}.

Record CompiledRegex : Type := { CompiledRegex_pattern : string }.

Definition CompiledRegex_new `{RegexCrate} (pattern : string) : result string CompiledRegex :=
  _ ← regex_new pattern;
  Ok {| CompiledRegex_pattern := pattern |}.

(** ** Enumerations *)
Inductive ErrorStrategy : Type :=
| ErrorStrategy_Continue
| ErrorStrategy_Abort
| ErrorStrategy_Skip
| ErrorStrategy_Quarantine.

#[export] Instance ErrorStrategy_eq_dec : EqDecision ErrorStrategy.
Proof. solve_decision. Defined.

Inductive PhaseCompositionKind : Type :=
| PhaseCompositionKind_Local
| PhaseCompositionKind_Inherited
| PhaseCompositionKind_Extended
| PhaseCompositionKind_Overridden.

Inductive RunIfTrigger : Type :=
| RunIfTrigger_Modified
| RunIfTrigger_Completed.

Inductive TrackTarget : Type :=
| TrackTarget_Video
| TrackTarget_Audio
| TrackTarget_Subtitle
| TrackTarget_Attachment
| TrackTarget_Any.

#[export] Instance TrackTarget_eq_dec : EqDecision TrackTarget.
Proof. solve_decision. Defined.

Inductive DefaultStrategy : Type :=
| DefaultStrategy_FirstPerLanguage
| DefaultStrategy_None
| DefaultStrategy_First
| DefaultStrategy_All.

Inductive RulesMode : Type :=
| RulesMode_First
| RulesMode_All.

#[export] Instance RulesMode_eq_dec : EqDecision RulesMode.
Proof. solve_decision. Defined.

Inductive CompiledCompareOp : Type :=
| Cmp_Eq
| Cmp_Ne
| Cmp_Lt
| Cmp_Le
| Cmp_Gt
| Cmp_Ge
| Cmp_In.

#[export] Instance CompiledCompareOp_eq_dec : EqDecision CompiledCompareOp.
Proof. solve_decision. Defined.

(** ** Expressions *)
Inductive CompiledFilter : Type :=
| CF_LangIn (langs : list string)
| CF_LangCompare (op : CompiledCompareOp) (lang : string)
| CF_LangField (op : CompiledCompareOp) (path : list string)
| CF_CodecIn (codecs : list string)
| CF_CodecCompare (op : CompiledCompareOp) (codec : string)
| CF_CodecField (op : CompiledCompareOp) (path : list string)
| CF_Channels (op : CompiledCompareOp) (value : f64)
| CF_Commentary
| CF_Forced
| CF_Default
| CF_Font
| CF_TitleContains (s : string)
| CF_TitleMatches (re : CompiledRegex)
| CF_And (filters : list CompiledFilter)
| CF_Or (filters : list CompiledFilter)
| CF_Not (inner : CompiledFilter).

Inductive CompiledCondition : Type :=
| CC_Exists (target : TrackTarget) (filter : option CompiledFilter)
| CC_Count (target : TrackTarget) (filter : option CompiledFilter)
    (op : CompiledCompareOp) (value : f64)
| CC_FieldCompare (path : list string) (op : CompiledCompareOp) (value : JValue)
| CC_FieldExists (path : list string)
| CC_AudioIsMultiLanguage
| CC_IsDubbed
| CC_IsOriginal
| CC_And (conditions : list CompiledCondition)
| CC_Or (conditions : list CompiledCondition)
| CC_Not (inner : CompiledCondition).

(** Induction through the nested lists of sub-expressions. *)
Definition filter_leaf (f : CompiledFilter) : bool :=
  match f with CF_And _ | CF_Or _ | CF_Not _ => false | _ => true end.

Definition condition_leaf (c : CompiledCondition) : bool :=
  match c with CC_And _ | CC_Or _ | CC_Not _ => false | _ => true end.

Lemma CompiledFilter_nested_ind (P : CompiledFilter → Prop) :
  (∀ f, filter_leaf f = true → P f) →
  (∀ fs, Forall P fs → P (CF_And fs)) →
  (∀ fs, Forall P fs → P (CF_Or fs)) →
  (∀ f, P f → P (CF_Not f)) →
  ∀ f, P f.
Proof.
  intros Hleaf Hand Hor Hnot. fix IH 1. intros [| | | | | | | | | | | | |fs|fs|f];
    try (by apply Hleaf).
  - apply Hand. induction fs; constructor; [apply IH|done].
  - apply Hor. induction fs; constructor; [apply IH|done].
  - apply Hnot, IH.
Qed.

Lemma CompiledCondition_nested_ind (P : CompiledCondition → Prop) :
  (∀ c, condition_leaf c = true → P c) →
  (∀ cs, Forall P cs → P (CC_And cs)) →
  (∀ cs, Forall P cs → P (CC_Or cs)) →
  (∀ c, P c → P (CC_Not c)) →
  ∀ c, P c.
Proof.
  intros Hleaf Hand Hor Hnot. fix IH 1. intros [| | | | | | |cs|cs|c]; try (by apply Hleaf).
  - apply Hand. induction cs; constructor; [apply IH|done].
  - apply Hor. induction cs; constructor; [apply IH|done].
  - apply Hnot, IH.
Qed.

Inductive CompiledValueOrField : Type :=
| CV_Value (v : JValue)
| CV_Field (path : list string).

(** ** Actions and operations *)
Inductive CompiledAction : Type :=
| CA_Keep (target : TrackTarget) (filter : option CompiledFilter)
| CA_Remove (target : TrackTarget) (filter : option CompiledFilter)
| CA_Skip (phase : option string)
| CA_Warn (msg : string)
| CA_Fail (msg : string)
| CA_SetDefault (target : TrackTarget) (filter : option CompiledFilter)
| CA_SetForced (target : TrackTarget) (filter : option CompiledFilter)
| CA_SetLanguage (target : TrackTarget) (filter : option CompiledFilter)
    (value : CompiledValueOrField)
| CA_SetTag (tag : string) (value : CompiledValueOrField).

Record CompiledConditional : Type := {
  CompiledConditional_condition : CompiledCondition;
  CompiledConditional_then_actions : list CompiledAction;
  CompiledConditional_else_actions : list CompiledAction;
}.

Record CompiledRule : Type := {
  CompiledRule_name : string;
  CompiledRule_conditional : CompiledConditional;
}.

Record CompiledDefault : Type := {
  CompiledDefault_target : TrackTarget;
  CompiledDefault_strategy : DefaultStrategy;
}.

Record ClearActionsSettings : Type := {
  ClearActionsSettings_clear_all_default : bool;
  ClearActionsSettings_clear_all_forced : bool;
  ClearActionsSettings_clear_all_titles : bool;
}.

Record CompiledTranscodeSettings : Type := {
  CTS_preserve : list string;
  CTS_crf : option u32;
  CTS_preset : option string;
  CTS_bitrate : option string;
  CTS_target_vmaf : option u32;
  CTS_max_bitrate : option string;
  CTS_min_bitrate : option string;
  CTS_sample_strategy : option SampleStrategy;
  CTS_fallback : option TranscodeFallback;
  CTS_vmaf_overrides : option (gmap string u32);
  CTS_channels : option TranscodeChannels;
  CTS_hw : option string;
  CTS_hw_fallback : option bool;
  CTS_max_resolution : option string;
  CTS_scale_algorithm : option string;
  CTS_hdr_mode : option string;
  CTS_preserve_hdr : option bool;
  CTS_tonemap : option string;
  CTS_hdr_color_metadata : option string;
  CTS_dolby_vision : option string;
  CTS_tune : option string;
  CTS_crop : option CropSettings;
  CTS_loudness : option LoudnessNormalization;
}.

Inductive SynthPosition : Type :=
| SynthPosition_Named (s : string)
| SynthPosition_Index (n : u32).

Inductive SynthLanguage : Type :=
| SynthLanguage_Inherit
| SynthLanguage_Fixed (l : string).

Record CompiledSynthesize : Type := {
  CompiledSynthesize_name : string;
  CompiledSynthesize_codec : option string;
  CompiledSynthesize_channels : option TranscodeChannels;
  CompiledSynthesize_source : option CompiledFilter;
  CompiledSynthesize_bitrate : option string;
  CompiledSynthesize_skip_if_exists : option CompiledFilter;
  CompiledSynthesize_create_if : option CompiledCondition;
  CompiledSynthesize_title : option string;
  CompiledSynthesize_language : option SynthLanguage;
  CompiledSynthesize_position : option SynthPosition;
  CompiledSynthesize_loudness : option LoudnessNormalization;
}.

Inductive CompiledOperation : Type :=
| CO_SetContainer (container : Container)
| CO_Keep (target : TrackTarget) (filter : option CompiledFilter)
| CO_Remove (target : TrackTarget) (filter : option CompiledFilter)
| CO_ReorderTracks (order : list string)
| CO_SetDefaults (defaults : list CompiledDefault)
| CO_ClearActions (target : TrackTarget) (settings : ClearActionsSettings)
| CO_Transcode (target : TrackTarget) (codec : string) (settings : CompiledTranscodeSettings)
| CO_NormalizeAudio (target : TrackTarget) (filter : option CompiledFilter)
    (settings : LoudnessNormalization)
| CO_Synthesize (synth : CompiledSynthesize)
| CO_ClearTags
| CO_SetTag (tag : string) (value : CompiledValueOrField)
| CO_DeleteTag (tag : string)
| CO_Conditional (cond : CompiledConditional)
| CO_Rules (mode : RulesMode) (rules : list CompiledRule)
| CO_Verify (mode : VerificationMode).

(** ** Phases and policies *)
Record CompiledRunIf : Type := {
  CompiledRunIf_phase : string;
  CompiledRunIf_trigger : RunIfTrigger;
}.

Record CompiledPhaseComposition : Type := {
  CompiledPhaseComposition_kind : PhaseCompositionKind;
  CompiledPhaseComposition_source : option string;
  CompiledPhaseComposition_added_operations : usize;
}.

Record CompiledPhase : Type := {
  CompiledPhase_name : string;
  CompiledPhase_depends_on : list string;
  CompiledPhase_skip_when : option CompiledCondition;
  CompiledPhase_run_if : option CompiledRunIf;
  CompiledPhase_on_error : ErrorStrategy;
  CompiledPhase_composition : CompiledPhaseComposition;
  CompiledPhase_operations : list CompiledOperation;
}.

Record CompiledMetadata : Type := {
  CompiledMetadata_version : option string;
  CompiledMetadata_author : option string;
  CompiledMetadata_description : option string;
  CompiledMetadata_requires_voom : option string;
  CompiledMetadata_requires_tools : list string;
  CompiledMetadata_test_fixtures : list string;
  CompiledMetadata_extends_chain : list string;
}.

Record CompiledConfig : Type := {
  CompiledConfig_audio_languages : list string;
  CompiledConfig_subtitle_languages : list string;
  CompiledConfig_on_error : ErrorStrategy;
  CompiledConfig_commentary_patterns : list string;
  CompiledConfig_keep_backups : bool;
}.

Record CompiledPolicy : Type := {
  CompiledPolicy_name : string;
  CompiledPolicy_metadata : CompiledMetadata;
  CompiledPolicy_config : CompiledConfig;
  CompiledPolicy_phases : list CompiledPhase;
  CompiledPolicy_phase_order : list string;
  CompiledPolicy_source_hash : string;
}.
