(* ===== verification/CapabilityMap.v ===== *)
(** * Executor capabilities

    [crates/voom-domain/src/capability_map.rs] with the capability payloads of
    [events.rs]: the aggregated view of what the registered executors support.
    Every iteration over the underlying [HashMap] goes through [hash_iter], so
    the theorems hold for any iteration order. *)
From S2P Require Import Prelude.

Record CodecCapabilities : Type := {
  CodecCapabilities_decoders : list string;
  CodecCapabilities_encoders : list string;
  CodecCapabilities_hw_decoders : list string;
  CodecCapabilities_hw_encoders : list string;
}.

Record ExecutorParallelLimit : Type := {
  ExecutorParallelLimit_resource : string;
  ExecutorParallelLimit_max_parallel : usize;
}.

Record ExecutorCapabilitiesEvent : Type := {
  ECE_plugin_name : string;
  ECE_codecs : CodecCapabilities;
  ECE_formats : list string;
  ECE_hw_accels : list string;
  ECE_parallel_limits : list ExecutorParallelLimit;
}.

Record CapabilityMap : Type := {
  CapabilityMap_executors : gmap string ExecutorCapabilitiesEvent;
}.

Definition CapabilityMap_new : CapabilityMap := {| CapabilityMap_executors := ∅ |}.

Definition CapabilityMap_register (m : CapabilityMap) (event : ExecutorCapabilitiesEvent)
    : CapabilityMap := {|
  CapabilityMap_executors := <[ECE_plugin_name event := event]> (CapabilityMap_executors m);
|}.

Definition CapabilityMap_is_empty (m : CapabilityMap) : bool :=
  bool_decide (CapabilityMap_executors m = ∅).

(** Normalize raw ffmpeg hwaccel names to canonical backend names. *)
Definition normalize_hwaccel (raw : string) : string :=
  let lower := to_ascii_lowercase raw in
  if bool_decide (lower ∈ ["cuda"; "nvdec"; "nvenc"]) then "nvenc"
  else if bool_decide (lower = "qsv") then "qsv"
  else if bool_decide (lower = "vaapi") then "vaapi"
  else if bool_decide (lower = "videotoolbox") then "videotoolbox"
  else "unknown".

Section capability_map.
Context `{HashOrder}.
Implicit Types (m : CapabilityMap) (e : ExecutorCapabilitiesEvent).

(** [self.executors.values()] *)
Definition CapabilityMap_values m : list ExecutorCapabilitiesEvent :=
  (hash_iter (CapabilityMap_executors m)).*2.

Definition ECE_has_encoder e (codec : string) : bool :=
  existsb (λ c, bool_decide (c = codec)) (CodecCapabilities_encoders (ECE_codecs e)).

Definition CapabilityMap_has_encoder m (codec : string) : bool :=
  existsb (λ e, ECE_has_encoder e codec) (CapabilityMap_values m).

Definition CapabilityMap_has_format m (format : string) : bool :=
  existsb (λ e, existsb (λ f, bool_decide (f = format)) (ECE_formats e))
          (CapabilityMap_values m).

Definition CapabilityMap_encoders_for m (codec : string) : list string :=
  (List.filter (λ ne, ECE_has_encoder ne.2 codec) (hash_iter (CapabilityMap_executors m))).*1.

(** [min()] over the positive limits of a resource *)
Definition CapabilityMap_parallel_limit m (resource : string) : option usize :=
  let limits :=
    (λ l, ExecutorParallelLimit_max_parallel l) <$>
      List.filter (λ l, bool_decide (ExecutorParallelLimit_resource l = resource) &&
                        (0 <? ExecutorParallelLimit_max_parallel l)%nat)
                  (mjoin (ECE_parallel_limits <$> CapabilityMap_values m)) in
  match limits with
  | [] => None
  | x :: l => Some (foldl Nat.min x l)
  end.

(** The [for] loops of [hw_accels]: [result] collects the first occurrence of
    each normalized name; the [HashSet] [seen] holds the same names. *)
Definition push_unseen (acc : list string) (name : string) : list string :=
  if bool_decide (name ∈ acc) then acc else acc ++ [name].

Definition CapabilityMap_hw_accels m : list string :=
  foldl (λ acc e, foldl (λ acc raw, push_unseen acc (normalize_hwaccel raw)) acc (ECE_hw_accels e))
        [] (CapabilityMap_values m).

Definition CapabilityMap_has_hwaccel m (backend : string) : bool :=
  bool_decide (backend ∈ CapabilityMap_hw_accels m).

Definition hwaccel_priority : list string := ["nvenc"; "qsv"; "vaapi"; "videotoolbox"].

Definition CapabilityMap_best_hwaccel m : string :=
  let accels := CapabilityMap_hw_accels m in
  match List.find (λ c, bool_decide (c ∈ accels)) hwaccel_priority with
  | Some candidate => candidate
  | None => "none"
  end.
End capability_map.

(** ** Properties *)
Section capability_map_facts.
Context `{HashOrder}.
Implicit Types (m : CapabilityMap) (e : ExecutorCapabilitiesEvent).

Lemma elem_of_CapabilityMap_values m e :
  e ∈ CapabilityMap_values m ↔ ∃ n, CapabilityMap_executors m !! n = Some e.
Proof.
  unfold CapabilityMap_values. rewrite list_elem_of_fmap.
  setoid_rewrite hash_iter_perm. split.
  - intros ([n e'] & -> & Hin). exists n. by apply elem_of_map_to_list.
  - intros [n Hn]. exists (n, e). split; [done|]. by apply elem_of_map_to_list.
Qed.

Lemma elem_of_push_unseen acc x n : n ∈ push_unseen acc x ↔ n ∈ acc ∨ n = x.
Proof. unfold push_unseen. case_bool_decide; set_solver. Qed.

Lemma elem_of_foldl_push f (raws : list string) acc n :
  n ∈ foldl (λ acc raw, push_unseen acc (f raw)) acc raws ↔
  n ∈ acc ∨ ∃ raw, raw ∈ raws ∧ n = f raw.
Proof.
  revert acc; induction raws as [|raw raws IH]; intros acc; simpl; [set_solver|].
  rewrite IH, elem_of_push_unseen. set_solver.
Qed.

Lemma elem_of_hw_accels m n :
  n ∈ CapabilityMap_hw_accels m ↔
  ∃ e raw, e ∈ CapabilityMap_values m ∧ raw ∈ ECE_hw_accels e ∧ n = normalize_hwaccel raw.
Proof.
  unfold CapabilityMap_hw_accels. generalize (CapabilityMap_values m) as es.
  cut (∀ es acc, n ∈ foldl (λ acc e, foldl (λ acc raw, push_unseen acc (normalize_hwaccel raw))
                                           acc (ECE_hw_accels e)) acc es ↔
                 n ∈ acc ∨ ∃ e raw, e ∈ es ∧ raw ∈ ECE_hw_accels e ∧ n = normalize_hwaccel raw).
  { intros Hc es. rewrite Hc. set_solver. }
  induction es as [|e es IH]; intros acc; simpl; [set_solver|].
  rewrite IH, elem_of_foldl_push. set_solver.
Qed.

Lemma NoDup_push_unseen acc x : NoDup acc → NoDup (push_unseen acc x).
Proof.
  intros. unfold push_unseen. case_bool_decide; [done|].
  apply NoDup_app. split; [done|]. split; [set_solver|apply NoDup_singleton].
Qed.

Lemma CapabilityMap_hw_accels_NoDup m : NoDup (CapabilityMap_hw_accels m).
Proof.
  unfold CapabilityMap_hw_accels. generalize (CapabilityMap_values m) as es.
  assert (Hin : ∀ raws acc, NoDup acc →
            NoDup (foldl (λ acc raw, push_unseen acc (normalize_hwaccel raw)) acc raws)).
  { induction raws; simpl; auto using NoDup_push_unseen. }
  cut (∀ es acc, NoDup acc → NoDup (foldl (λ acc e, foldl (λ acc raw,
         push_unseen acc (normalize_hwaccel raw)) acc (ECE_hw_accels e)) acc es)).
  { intros Hc es. apply Hc. constructor. }
  induction es; simpl; auto.
Qed.

Lemma elem_of_encoders_for m codec n :
  n ∈ CapabilityMap_encoders_for m codec ↔
  ∃ e, CapabilityMap_executors m !! n = Some e ∧ ECE_has_encoder e codec = true.
Proof.
  unfold CapabilityMap_encoders_for. rewrite list_elem_of_fmap. split.
  - intros ([n' e] & -> & Hin). apply filter_elem_of in Hin as [Hin He].
    rewrite hash_iter_perm in Hin. apply elem_of_map_to_list in Hin. by exists e.
  - intros (e & Hn & He). exists (n, e). split; [done|]. apply filter_elem_of.
    rewrite hash_iter_perm. split; [by apply elem_of_map_to_list|done].
Qed.

Lemma encoders_for_nil m codec :
  CapabilityMap_encoders_for m codec = [] ↔ CapabilityMap_has_encoder m codec = false.
Proof.
  unfold CapabilityMap_encoders_for, CapabilityMap_has_encoder, CapabilityMap_values.
  induction (hash_iter (CapabilityMap_executors m)) as [|[n e] l IH]; [done|]; simpl.
  destruct (ECE_has_encoder e codec); [split; discriminate|done].
Qed.
End capability_map_facts.

(** The set of backends does not depend on the iteration order. *)
Lemma hw_accels_order_irrel (H1 H2 : HashOrder) m n :
  n ∈ @CapabilityMap_hw_accels H1 m ↔ n ∈ @CapabilityMap_hw_accels H2 m.
Proof.
  rewrite !elem_of_hw_accels. by setoid_rewrite elem_of_CapabilityMap_values.
Qed.

Lemma best_hwaccel_order_irrel (H1 H2 : HashOrder) m :
  @CapabilityMap_best_hwaccel H1 m = @CapabilityMap_best_hwaccel H2 m.
Proof.
  unfold CapabilityMap_best_hwaccel.
  replace (List.find (λ c, bool_decide (c ∈ @CapabilityMap_hw_accels H1 m)) hwaccel_priority)
    with (List.find (λ c, bool_decide (c ∈ @CapabilityMap_hw_accels H2 m)) hwaccel_priority); [done|].
  induction hwaccel_priority as [|c cs IH]; [done|]; simpl.
  rewrite (bool_decide_ext _ _ (hw_accels_order_irrel H1 H2 m c)), IH. done.
Qed.
