(* ===== verification/Condition.v ===== *)
(** * Field resolution

    [plugins/policy-evaluator/src/condition.rs], the [resolve_*] functions:
    field paths such as [video.codec], [plugin.radarr.original_language] or
    [verify.outcome] looked up in a media file, the system capabilities or the
    recorded phase outputs. *)
From S2P Require Import Prelude Json Media Plan Compiled CapabilityMap.

(** Evaluation context: capabilities and the cross-phase output lookup. *)
Record EvalContext : Type := {
  EvalContext_capabilities : option CapabilityMap;
  EvalContext_phase_output_lookup : option (string → option PhaseOutput);
}.

Definition EvalContext_empty : EvalContext := {|
  EvalContext_capabilities := None;
  EvalContext_phase_output_lookup := None;
|}.

Definition EvalContext_with_capabilities (capabilities : option CapabilityMap) : EvalContext := {|
  EvalContext_capabilities := capabilities;
  EvalContext_phase_output_lookup := None;
|}.

Section fields.
Context `{Unicode, HashOrder, JsonDisplay}.
Implicit Types (file : MediaFile) (path : list string) (ctx : EvalContext).

(** [<phase>.<field>] *)
Definition resolve_phase_field ctx (phase : string) path : option JValue :=
  match path with
  | [field] =>
      lookup ← EvalContext_phase_output_lookup ctx;
      out ← lookup phase;
      if bool_decide (field = "outcome") then JString <$> PhaseOutput_outcome out
      else if bool_decide (field = "completed") then Some (JBool (PhaseOutput_completed out))
      else if bool_decide (field = "modified") then Some (JBool (PhaseOutput_modified out))
      else if bool_decide (field = "error_count") then Some (json_u64 (PhaseOutput_error_count out))
      else if bool_decide (field = "warning_count") then Some (json_u64 (PhaseOutput_warning_count out))
      else None
  | _ => None
  end.

(** [system.*] *)
Definition resolve_system_field path ctx : option JValue :=
  match path with
  | [] => None
  | field :: _ =>
      caps ← EvalContext_capabilities ctx;
      if bool_decide (field = "hwaccel") then Some (JString (CapabilityMap_best_hwaccel caps))
      else if bool_decide (field = "has_hwaccel") then
        Some (JBool (negb (bool_decide (CapabilityMap_best_hwaccel caps = "none"))))
      else if bool_decide (field = "hwaccels") then
        Some (JArray (JString <$> CapabilityMap_hw_accels caps))
      else None
  end.

Definition resolve_track_field (track : Track) path : option JValue :=
  match path with
  | [] => None
  | field :: _ =>
      if bool_decide (field = "codec") then Some (JString (Track_codec track))
      else if str_in ["language"; "lang"] field then Some (JString (Track_language track))
      else if bool_decide (field = "title") then Some (JString (Track_title track))
      else if bool_decide (field = "channels") then json_u64 <$> Track_channels track
      else if bool_decide (field = "width") then json_u64 <$> Track_width track
      else if bool_decide (field = "height") then json_u64 <$> Track_height track
      else if bool_decide (field = "frame_rate") then json_f64 <$> Track_frame_rate track
      else if bool_decide (field = "is_default") then Some (JBool (Track_is_default track))
      else if bool_decide (field = "is_forced") then Some (JBool (Track_is_forced track))
      else if bool_decide (field = "is_hdr") then Some (JBool (Track_is_hdr track))
      else if bool_decide (field = "is_vfr") then Some (JBool (Track_is_vfr track))
      else if bool_decide (field = "hdr_format") then JString <$> Track_hdr_format track
      else None
  end.

Definition resolve_video_field file path : option JValue :=
  video ← head (MediaFile_video_tracks file);
  resolve_track_field video path.

Definition resolve_audio_field file path : option JValue :=
  audio ← head (MediaFile_audio_tracks file);
  resolve_track_field audio path.

(** The [for key in &path[1..]] walk through nested objects. *)
Fixpoint json_walk (current : JValue) path : option JValue :=
  match path with
  | [] => Some current
  | key :: path => next ← JValue_get key current; json_walk next path
  end.

Definition resolve_plugin_field file path : option JValue :=
  match path with
  | [] => None
  | plugin :: path =>
      plugin_data ← MediaFile_plugin_metadata file !! plugin;
      json_walk plugin_data path
  end.

Definition resolve_file_field file path : option JValue :=
  match path with
  | [] => None
  | field :: _ =>
      if bool_decide (field = "container") then
        Some (JString (Container_as_str (MediaFile_container file)))
      else if bool_decide (field = "size") then Some (json_u64 (MediaFile_size file))
      else if bool_decide (field = "duration") then Some (json_f64 (MediaFile_duration file))
      else if bool_decide (field = "path") then
        Some (JString (to_string_lossy (MediaFile_path file)))
      else if bool_decide (field = "filename") then
        (λ n, JString (to_string_lossy n)) <$> path_file_name (MediaFile_path file)
      else JString <$> MediaFile_tags file !! field
  end.

Definition resolve_field file path ctx : option JValue :=
  match path with
  | [] => None
  | root :: rest =>
      if bool_decide (root = "video") then resolve_video_field file rest
      else if bool_decide (root = "audio") then resolve_audio_field file rest
      else if bool_decide (root = "plugin") then resolve_plugin_field file rest
      else if bool_decide (root = "file") then resolve_file_field file rest
      else if bool_decide (root = "system") then resolve_system_field rest ctx
      else resolve_phase_field ctx root rest
  end.

(** A string literal is used as is; any other value through its JSON text. *)
Definition json_as_text (v : JValue) : string :=
  match v with JString s => s | other => json_to_string other end.

Definition resolve_value_or_field (vof : CompiledValueOrField) file ctx : option string :=
  match vof with
  | CV_Value v => Some (json_as_text v)
  | CV_Field path => json_as_text <$> resolve_field file path ctx
  end.

(** ** Properties *)

(** Every field of [PHASE_OUTPUT_FIELDS] except an absent [outcome] resolves
    for a phase with recorded output, and no other field does. *)
Lemma resolve_phase_field_dom ctx lookup phase out field :
  EvalContext_phase_output_lookup ctx = Some lookup → lookup phase = Some out →
  is_Some (resolve_phase_field ctx phase [field]) ↔
  field ∈ PHASE_OUTPUT_FIELDS ∧ (field = "outcome" → is_Some (PhaseOutput_outcome out)).
Proof.
  intros Hl Ho. unfold resolve_phase_field, PHASE_OUTPUT_FIELDS. rewrite Hl; simpl. rewrite Ho; simpl.
  rewrite !elem_of_cons, elem_of_nil.
  repeat case_bool_decide; subst; rewrite ?fmap_is_Some; split; intros Hs;
    first [by eexists | by destruct Hs | split; [tauto|by intros]
          | destruct Hs as [? Hs]; first [by apply Hs | tauto]].
Qed.
End fields.

(** * Track filters

    [plugins/policy-evaluator/src/filter.rs]: matching of a [CompiledFilter]
    against a track, with field references resolved against the file. *)

Definition is_commentary_track (track : Track) : bool :=
  match Track_track_type track with
  | TrackType_AudioCommentary | TrackType_SubtitleCommentary => true
  | _ => false
  end.

Definition compare_string (left : string) (op : CompiledCompareOp) (right : string) : bool :=
  match op with
  | Cmp_Eq => bool_decide (left = right)
  | Cmp_Ne => negb (bool_decide (left = right))
  | _ => false
  end.

(** Equality is up to [f64::EPSILON]. The [In] arm is that of a build without debug
    assertions; with them it panics, and [channels in N] and [count(..) in N] reach it
    ([numeric_membership_accepted]). *)
Definition compare_f64 (left : f64) (op : CompiledCompareOp) (right : f64) : bool :=
  match op with
  | Cmp_Eq => f64_ltb (f64_abs (f64_sub left right)) f64_EPSILON
  | Cmp_Ne => f64_leb f64_EPSILON (f64_abs (f64_sub left right))
  | Cmp_Lt => f64_ltb left right
  | Cmp_Le => f64_leb left right
  | Cmp_Gt => f64_ltb right left
  | Cmp_Ge => f64_leb right left
  | Cmp_In => false
  end.

(** Tracks of the file in the category of a target, in file order. *)
Definition tracks_for_target (file : MediaFile) (target : TrackTarget) : list Track :=
  match target with
  | TrackTarget_Video => MediaFile_video_tracks file
  | TrackTarget_Audio => MediaFile_audio_tracks file
  | TrackTarget_Subtitle => MediaFile_subtitle_tracks file
  | TrackTarget_Attachment => MediaFile_tracks_of_type file TrackType_Attachment
  | TrackTarget_Any => MediaFile_tracks file
  end.

Section filter.
Context `{Unicode, HashOrder, JsonDisplay, RegexCrate}.

Definition is_font_attachment (track : Track) : bool :=
  if bool_decide (Track_track_type track ≠ TrackType_Attachment) then false
  else
    let codec_lower := to_lowercase (Track_codec track) in
    let title_lower := to_lowercase (Track_title track) in
    str_contains "font" codec_lower || str_contains "ttf" codec_lower ||
    str_contains "otf" codec_lower || ends_with ".ttf" title_lower ||
    ends_with ".otf" title_lower || ends_with ".woff" title_lower.

Definition is_commentary_by_pattern (track : Track) (patterns : list string) : bool :=
  match patterns with
  | [] => is_commentary_track track
  | _ =>
      let title_lower := to_lowercase (Track_title track) in
      existsb (λ p, str_contains (to_lowercase p) title_lower) patterns ||
      is_commentary_track track
  end.

Definition resolve_field_str (ctx : option (MediaFile * EvalContext)) (path : list string)
    : option string :=
  '(file, eval_ctx) ← ctx;
  v ← resolve_field file path eval_ctx;
  match v with JString s => Some s | _ => None end.

Fixpoint track_matches_impl (track : Track) (filter : CompiledFilter)
    (ctx : option (MediaFile * EvalContext)) : bool :=
  match filter with
  | CF_LangIn langs => existsb (λ l, bool_decide (l = Track_language track)) langs
  | CF_LangCompare op lang => compare_string (Track_language track) op lang
  | CF_LangField op path =>
      match resolve_field_str ctx path with
      | Some val => compare_string (Track_language track) op val
      | None => false
      end
  | CF_CodecIn codecs => existsb (λ c, bool_decide (c = Track_codec track)) codecs
  | CF_CodecCompare op codec => compare_string (Track_codec track) op codec
  | CF_CodecField op path =>
      match resolve_field_str ctx path with
      | Some val => compare_string (Track_codec track) op val
      | None => false
      end
  | CF_Channels op value =>
      match Track_channels track with
      | Some ch => compare_f64 (f64_of_N ch) op value
      | None => false
      end
  | CF_Commentary => is_commentary_track track
  | CF_Forced => Track_is_forced track
  | CF_Default => Track_is_default track
  | CF_Font => is_font_attachment track
  | CF_TitleContains s => str_contains (to_lowercase s) (to_lowercase (Track_title track))
  | CF_TitleMatches re => regex_is_match (CompiledRegex_pattern re) (Track_title track)
  | CF_And filters => forallb (λ f, track_matches_impl track f ctx) filters
  | CF_Or filters => existsb (λ f, track_matches_impl track f ctx) filters
  | CF_Not inner => negb (track_matches_impl track inner ctx)
  end.

Definition track_matches_with_context (track : Track) (filter : CompiledFilter)
    (file : MediaFile) (eval_ctx : EvalContext) : bool :=
  track_matches_impl track filter (Some (file, eval_ctx)).

(** [filter_matches_ctx] of [evaluator.rs]: no filter matches every track. *)
Definition filter_matches_ctx (track : Track) (filter : option CompiledFilter)
    (file : MediaFile) (eval_ctx : EvalContext) : bool :=
  match filter with
  | Some f => track_matches_with_context track f file eval_ctx
  | None => true
  end.
End filter.

(** ** Properties *)

(** The type test behind each target. *)
Definition target_type (target : TrackTarget) (tt : TrackType) : bool :=
  match target with
  | TrackTarget_Video => TrackType_is_video tt
  | TrackTarget_Audio => TrackType_is_audio tt
  | TrackTarget_Subtitle => TrackType_is_subtitle tt
  | TrackTarget_Attachment => bool_decide (tt = TrackType_Attachment)
  | TrackTarget_Any => true
  end.

Lemma tracks_for_target_filter file target :
  tracks_for_target file target
  = List.filter (λ t, target_type target (Track_track_type t)) (MediaFile_tracks file).
Proof.
  destruct target; simpl; try done.
  - apply MediaFile_video_tracks_spec.
  - induction (MediaFile_tracks file) as [|t l IH]; simpl; congruence.
Qed.

Lemma elem_of_tracks_for_target file target t :
  t ∈ tracks_for_target file target ↔
  t ∈ MediaFile_tracks file ∧ target_type target (Track_track_type t) = true.
Proof. by rewrite tracks_for_target_filter, filter_elem_of. Qed.

(** [==] and [!=] on floats are complementary unless the difference is NaN
    (a NaN operand, or the difference of two equal infinities), in which case
    both are false. *)
Lemma compare_f64_eq_ne a b :
  compare_f64 a Cmp_Ne b =
  negb (compare_f64 a Cmp_Eq b) && negb (f64_is_nan (f64_sub a b)).
Proof.
  unfold compare_f64. generalize (f64_sub a b) as d. intros d.
  unfold f64_ltb, f64_leb, SFltb, SFleb, f64_abs, SFabs, SFcompare.
  rewrite f64_EPSILON_val. generalize 4503599627370496%positive (-104)%Z.
  intros k z. destruct d as [s|s| |s m e]; try done.
  rewrite (Z.compare_antisym e z).
  change (Pos.compare_cont Eq m k) with (Pos.compare m k).
  change (Pos.compare_cont Eq k m) with (Pos.compare k m).
  rewrite (Pos.compare_antisym m k).
  by destruct (e ?= z)%Z, (m ?= k)%positive.
Qed.

(** * Conditions

    [plugins/policy-evaluator/src/condition.rs]: evaluation of a
    [CompiledCondition] against a media file. *)

(** Number of distinct audio languages other than [und]. *)
Definition audio_lang_set (file : MediaFile) : gset string :=
  list_to_set (List.filter (λ l, negb (bool_decide (l = "und")))
                           (Track_language <$> MediaFile_audio_tracks file)).

Definition audio_lang_count (file : MediaFile) : usize := size (audio_lang_set file).

Definition compare_json (left : JValue) (op : CompiledCompareOp) (right : JValue) : bool :=
  match left, right with
  | JNumber l, JNumber r =>
      match Number_as_f64 l, Number_as_f64 r with
      | Some lf, Some rf => compare_f64 lf op rf
      | _, _ => false
      end
  | JString l, JString r =>
      match op with
      | Cmp_Eq => bool_decide (l = r)
      | Cmp_Ne => negb (bool_decide (l = r))
      | Cmp_Lt => str_ltb l r
      | Cmp_Le => str_leb l r
      | Cmp_Gt => str_ltb r l
      | Cmp_Ge => str_leb r l
      | Cmp_In => false
      end
  | JBool l, JBool r =>
      match op with
      | Cmp_Eq => Bool.eqb l r
      | Cmp_Ne => negb (Bool.eqb l r)
      | _ => false
      end
  | _, _ => false
  end.

(** Numbers compare as [f64], so [1] equals [1.0]. *)
Definition json_values_equal (a b : JValue) : bool :=
  match a, b with
  | JNumber l, JNumber r =>
      match Number_as_f64 l, Number_as_f64 r with
      | Some x, Some y => f64_eqb x y
      | None, None => true
      | _, _ => false
      end
  | _, _ => JValue_eqb a b
  end.

Section condition.
Context `{Unicode, HashOrder, JsonDisplay, RegexCrate}.
Implicit Types (file : MediaFile) (ctx : EvalContext).

Definition evaluate_field_compare file (path : list string) (op : CompiledCompareOp)
    (value : JValue) ctx : bool :=
  match resolve_field file path ctx with
  | None => false
  | Some resolved =>
      if bool_decide (op = Cmp_In) then
        match value with
        | JArray list => existsb (λ v, json_values_equal resolved v) list
        | _ => false
        end
      else compare_json resolved op value
  end.

Fixpoint evaluate_condition (cond : CompiledCondition) file ctx : bool :=
  match cond with
  | CC_Exists target filter =>
      let tracks := tracks_for_target file target in
      match filter with
      | Some f => existsb (λ t, track_matches_with_context t f file ctx) tracks
      | None => negb (match tracks with [] => true | _ => false end)
      end
  | CC_Count target filter op value =>
      let tracks := tracks_for_target file target in
      let count :=
        match filter with
        | Some f => length (List.filter (λ t, track_matches_with_context t f file ctx) tracks)
        | None => length tracks
        end in
      compare_f64 (f64_of_Z (Z.of_nat count)) op value
  | CC_FieldCompare path op value => evaluate_field_compare file path op value ctx
  | CC_FieldExists path =>
      match resolve_field file path ctx with Some _ => true | None => false end
  | CC_AudioIsMultiLanguage => bool_decide (1 < audio_lang_count file)
  | CC_IsDubbed =>
      bool_decide (1 < audio_lang_count file) &&
      negb (match MediaFile_subtitle_tracks file with [] => true | _ => false end)
  | CC_IsOriginal => bool_decide (audio_lang_count file ≤ 1)
  | CC_And conditions => forallb (λ c, evaluate_condition c file ctx) conditions
  | CC_Or conditions => existsb (λ c, evaluate_condition c file ctx) conditions
  | CC_Not inner => negb (evaluate_condition inner file ctx)
  end.

(** ** Properties *)

Lemma evaluate_exists_filter file ctx target filter :
  evaluate_condition (CC_Exists target filter) file ctx = true ↔
  ∃ t, t ∈ MediaFile_tracks file ∧ target_type target (Track_track_type t) = true ∧
       filter_matches_ctx t filter file ctx = true.
Proof.
  simpl. unfold filter_matches_ctx. setoid_rewrite (assoc (∧)).
  setoid_rewrite <- elem_of_tracks_for_target. destruct filter as [f|].
  - apply existsb_elem_of.
  - destruct (tracks_for_target file target) as [|t l]; set_solver.
Qed.
End condition.

(** ** Independence of the evaluation context *)

(** A field path that reads only the media file. *)
Definition file_path (path : list string) : bool :=
  match path with
  | [] => true
  | root :: _ => str_in ["video"; "audio"; "plugin"; "file"] root
  end.

Fixpoint filter_closed (f : CompiledFilter) : bool :=
  match f with
  | CF_LangField _ path | CF_CodecField _ path => file_path path
  | CF_And fs | CF_Or fs => forallb filter_closed fs
  | CF_Not f => filter_closed f
  | _ => true
  end.

Fixpoint condition_closed (c : CompiledCondition) : bool :=
  match c with
  | CC_Exists _ (Some f) | CC_Count _ (Some f) _ _ => filter_closed f
  | CC_FieldCompare path _ _ | CC_FieldExists path => file_path path
  | CC_And cs | CC_Or cs => forallb condition_closed cs
  | CC_Not c => condition_closed c
  | _ => true
  end.

Section context_independence.
Context `{Unicode, HashOrder, JsonDisplay, RegexCrate}.

Lemma resolve_field_closed file path ctx1 ctx2 :
  file_path path = true → resolve_field file path ctx1 = resolve_field file path ctx2.
Proof.
  destruct path as [|root rest]; [done|]. unfold file_path, str_in, resolve_field.
  rewrite bool_decide_eq_true. intros Hin.
  repeat (apply elem_of_cons in Hin as [->|Hin]; [done|]). by apply elem_of_nil in Hin.
Qed.

Lemma resolve_field_str_closed file path ctx1 ctx2 :
  file_path path = true →
  resolve_field_str (Some (file, ctx1)) path = resolve_field_str (Some (file, ctx2)) path.
Proof. intros Hp. unfold resolve_field_str; simpl. by rewrite (resolve_field_closed _ _ ctx1 ctx2). Qed.

Lemma track_matches_closed file t ctx1 ctx2 f :
  filter_closed f = true →
  track_matches_with_context t f file ctx1 = track_matches_with_context t f file ctx2.
Proof.
  unfold track_matches_with_context.
  induction f as [f Hf|fs IH|fs IH|f IH] using CompiledFilter_nested_ind; intros Hc.
  - destruct f; try done; cbn -[resolve_field_str];
      by rewrite (resolve_field_str_closed _ _ ctx1 ctx2).
  - simpl. apply forallb_ext_elem. rewrite Forall_forall in IH.
    intros f Hf. apply IH; [done|]. simpl in Hc. rewrite forallb_elem_of in Hc. auto.
  - simpl. apply existsb_ext_elem. rewrite Forall_forall in IH.
    intros f Hf. apply IH; [done|]. simpl in Hc. rewrite forallb_elem_of in Hc. auto.
  - simpl. by rewrite IH.
Qed.

Lemma evaluate_condition_closed file ctx1 ctx2 c :
  condition_closed c = true →
  evaluate_condition c file ctx1 = evaluate_condition c file ctx2.
Proof.
  induction c as [c Hf|cs IH|cs IH|c IH] using CompiledCondition_nested_ind; intros Hc.
  - destruct c as [tg [f|]|tg [f|] op v|path op v|path| | | | | |]; try done; simpl in Hc |- *.
    + apply existsb_ext_elem. intros t _. by apply track_matches_closed.
    + do 3 f_equal. f_equal. apply filter_ext. intros t. by apply track_matches_closed.
    + unfold evaluate_field_compare. by rewrite (resolve_field_closed _ _ ctx1 ctx2).
    + by rewrite (resolve_field_closed _ _ ctx1 ctx2).
  - simpl. apply forallb_ext_elem. rewrite Forall_forall in IH.
    intros f Hf. apply IH; [done|]. simpl in Hc. rewrite forallb_elem_of in Hc. auto.
  - simpl. apply existsb_ext_elem. rewrite Forall_forall in IH.
    intros f Hf. apply IH; [done|]. simpl in Hc. rewrite forallb_elem_of in Hc. auto.
  - simpl. by rewrite IH.
Qed.
End context_independence.
