(* ===== verification/Evaluator.v ===== *)
(** * The policy evaluator

    [plugins/policy-evaluator/src]: [container_compat.rs], [evaluator.rs] with the
    validation of plans against the executors, and the wrappers of [lib.rs]. *)
From S2P Require Import Prelude Json Media Plan Compiled CapabilityMap Condition.

(** ** Container/codec compatibility: [container_compat.rs] *)
Definition mp4_supports (codec : string) : bool :=
  str_in ["h264"; "avc1"; "hevc"; "h265"; "hev1"; "hvc1"; "av1"; "mpeg4"; "mpeg2video"; "vp9";
          "aac"; "mp3"; "ac3"; "eac3"; "opus"; "alac"; "flac"; "mov_text"; "tx3g"] codec.

Definition webm_supports (codec : string) : bool :=
  str_in ["vp8"; "vp9"; "av1"; "opus"; "vorbis"; "webvtt"] codec.

Definition avi_supports (codec : string) : bool :=
  str_in ["mpeg4"; "mpeg2video"; "mpeg1video"; "mjpeg"; "h264"; "avc1"; "mp3"; "ac3"; "aac";
          "pcm_s16le"; "pcm_s24le"; "pcm_u8"] codec.

(** [Some true]: modelled and supported; [Some false]: modelled and not
    supported; [None]: not judged. *)
Definition codec_supported (container : Container) (codec : string) : option bool :=
  let codec := to_ascii_lowercase (str_trim codec) in
  if bool_decide (codec = "") then None
  else
    match container with
    | Container_Mkv => Some true
    | Container_Mp4 => Some (mp4_supports codec)
    | Container_Webm => Some (webm_supports codec)
    | Container_Avi => Some (avi_supports codec)
    | Container_Mov | Container_Ts | Container_Flv | Container_Wmv | Container_Other => None
    end.

(** Matroska never blocks a conversion. *)
Lemma codec_supported_mkv codec : codec_supported Container_Mkv codec ≠ Some false.
Proof. unfold codec_supported. by case_bool_decide. Qed.

(** * Policy evaluation

    [plugins/policy-evaluator/src/evaluator.rs] (and the wrappers of its
    [lib.rs]): a compiled policy and a media file give one plan per phase.

    The code threads a mutable [Plan] through the [emit_*] functions, some of
    which fail with [?]; the actions pushed before a failure stay in the plan.
    [PlannedAction::file_op]/[track_op] panic on ill-typed parameters. The
    monad [M] carries the plan through all three endings. *)

(** ** The emission monad *)
Inductive exec (A : Type) : Type :=
| XOk (a : A) (p : Plan)
| XErr (e : VoomError) (p : Plan)
| XPanic (msg : string).
Arguments XOk {A} a p.
Arguments XErr {A} e p.
Arguments XPanic {A} msg.

Definition M (A : Type) : Type := Plan → exec A.

#[export] Instance M_ret : MRet M := λ _ a p, XOk a p.

#[export] Instance M_bind : MBind M := λ _ _ f m p,
  match m p with
  | XOk a p => f a p
  | XErr e p => XErr e p
  | XPanic msg => XPanic msg
  end.

Definition modify (f : Plan → Plan) : M unit := λ p, XOk tt (f p).
Definition gets {A} (f : Plan → A) : M A := λ p, XOk (f p) p.
Definition throw {A} (e : VoomError) : M A := λ p, XErr e p.

(** [for x in l { f(x) }] *)
Fixpoint for_each {A} (f : A → M unit) (l : list A) : M unit :=
  match l with
  | [] => mret tt
  | x :: l => f x ≫= λ _, for_each f l
  end.

Definition push_action (r : result string PlannedAction) : M unit := λ p,
  match r with
  | Ok a => XOk tt (Plan_with_action p a)
  | Err error => XPanic ("invalid planned action: " +:+ error)
  end.

(** [ctx.plan.actions.push(PlannedAction::file_op(...))] *)
Definition push_file_op (operation : OperationType) (parameters : ActionParams)
    (description : string) : M unit :=
  push_action (PlannedAction_try_file_op operation parameters description).

(** [ctx.plan.actions.push(PlannedAction::track_op(...))] *)
Definition push_track_op (operation : OperationType) (track_index : u32)
    (parameters : ActionParams) (description : string) : M unit :=
  push_action (PlannedAction_try_track_op operation track_index parameters description).

Definition push_warning (msg : string) : M unit := modify (λ p, Plan_with_warning p msg).

(** ** Helpers *)
Definition target_str (target : TrackTarget) : string :=
  match target with
  | TrackTarget_Video => "video"
  | TrackTarget_Audio => "audio"
  | TrackTarget_Subtitle => "subtitle"
  | TrackTarget_Attachment => "attachment"
  | TrackTarget_Any => "track"
  end.

Definition file_name `{Unicode} (file : MediaFile) : string :=
  match path_file_name (MediaFile_path file) with
  | Some n => to_string_lossy n
  | None => ""
  end.

(** [expand_template]: the [{filename}] replacements are done first, so a
    [{path}] occurring in the file name is expanded too. *)
Definition expand_template `{Unicode} (template : string) (file : MediaFile) : string :=
  str_replace "{path}" (to_string_lossy (MediaFile_path file))
    (str_replace "{filename}" (file_name file) template).

Definition transcode_settings_from (s : CompiledTranscodeSettings) : TranscodeSettings := {|
  TranscodeSettings_crf := CTS_crf s;
  TranscodeSettings_preset := CTS_preset s;
  TranscodeSettings_bitrate := CTS_bitrate s;
  TranscodeSettings_target_vmaf := CTS_target_vmaf s;
  TranscodeSettings_max_bitrate := CTS_max_bitrate s;
  TranscodeSettings_min_bitrate := CTS_min_bitrate s;
  TranscodeSettings_sample_strategy := CTS_sample_strategy s;
  TranscodeSettings_fallback := CTS_fallback s;
  TranscodeSettings_vmaf_overrides := CTS_vmaf_overrides s;
  TranscodeSettings_channels := CTS_channels s;
  TranscodeSettings_hw := CTS_hw s;
  TranscodeSettings_hw_fallback := CTS_hw_fallback s;
  TranscodeSettings_max_resolution := CTS_max_resolution s;
  TranscodeSettings_scale_algorithm := CTS_scale_algorithm s;
  TranscodeSettings_hdr_mode := CTS_hdr_mode s;
  TranscodeSettings_preserve_hdr := CTS_preserve_hdr s;
  TranscodeSettings_tonemap := CTS_tonemap s;
  TranscodeSettings_hdr_color_metadata := CTS_hdr_color_metadata s;
  TranscodeSettings_dolby_vision := CTS_dolby_vision s;
  TranscodeSettings_tune := CTS_tune s;
  TranscodeSettings_crop := CTS_crop s;
  TranscodeSettings_loudness := CTS_loudness s;
|}.

(** Record a safeguard warning and violation on a plan. *)
Definition record_safeguard_plan (p : Plan) (kind : SafeguardKind) (msg : string) : Plan :=
  let p := Plan_with_warning p msg in
  Plan_set_violations p
    (Plan_safeguard_violations p ++ [SafeguardViolation_new kind msg (Plan_phase_name p)]).

Definition record_safeguard (kind : SafeguardKind) (msg : string) : M unit :=
  modify (λ p, record_safeguard_plan p kind msg).

(** ** Emission of planned actions

    [file] and [eval_ctx] are the immutable fields of [PhaseContext]. *)
Section emit.
Context `{Unicode, HashOrder, JsonDisplay, RegexCrate}.
Variables (file : MediaFile) (eval_ctx : EvalContext).

Definition emit_set_container (target : Container) : M unit :=
  if bool_decide (MediaFile_container file ≠ target) then
    push_file_op Op_ConvertContainer (AP_Container target)
      ("Convert container from " +:+ Container_as_str (MediaFile_container file)
       +:+ " to " +:+ Container_as_str target)
  else mret tt.

Definition emit_verify (mode : VerificationMode) : M unit :=
  push_file_op Op_VerifyMedia (AP_VerifyMedia mode)
    ("Verify media integrity (" +:+ VerificationMode_as_str mode +:+ ")").

Definition emit_remove_track (track : Track) (target : TrackTarget) (reason : string) : M unit :=
  push_track_op Op_RemoveTrack (Track_index track)
    (AP_RemoveTrack reason (Track_track_type track))
    ("Remove " +:+ target_str target +:+ " track " +:+ pretty (Track_index track)
     +:+ " (" +:+ Track_codec track +:+ ", " +:+ Track_language track +:+ ")").

Definition emit_normalize_audio (target : TrackTarget) (filter : option CompiledFilter)
    (settings : LoudnessNormalization) : M unit :=
  if bool_decide (target ≠ TrackTarget_Audio) then mret tt
  else
    for_each (λ track,
      let should_normalize :=
        match filter with
        | Some f => track_matches_with_context track f file eval_ctx
        | None => true
        end in
      let within :=
        match Track_loudness_integrated_lufs track with
        | Some lufs => LoudnessNormalization_is_within_target settings lufs
        | None => false
        end in
      if negb should_normalize then mret tt
      else if within then mret tt
      else
        push_track_op Op_TranscodeAudio (Track_index track)
          (AP_Transcode (Track_codec track)
             (TranscodeSettings_with_loudness TranscodeSettings_default (Some settings)))
          ("Normalize audio track " +:+ pretty (Track_index track) +:+ " to "
           +:+ fmt_f64_1 (LoudnessNormalization_target_lufs settings) +:+ " LUFS"))
      (tracks_for_target file target).

(** The loop of [emit_keep]/[emit_remove]: emit a removal for the tracks to
    remove and count the others. *)
Fixpoint remove_loop (should_remove : Track → bool) (target : TrackTarget) (reason : string)
    (tracks : list Track) (kept : nat) : M nat :=
  match tracks with
  | [] => mret kept
  | track :: tracks =>
      if should_remove track then
        emit_remove_track track target reason ≫= λ _,
        remove_loop should_remove target reason tracks kept
      else remove_loop should_remove target reason tracks (S kept)
  end.

(** [ctx.plan.actions.truncate(n)] *)
Definition truncate_actions (n : nat) : M unit :=
  modify (λ p, Plan_set_actions p (take n (Plan_actions p))).

Definition emit_keep (target : TrackTarget) (filter : option CompiledFilter) : M unit :=
  let tracks := tracks_for_target file target in
  match tracks with
  | [] => mret tt
  | _ =>
      actions_before ← gets (λ p, length (Plan_actions p));
      kept ← remove_loop
        (λ track, match filter with
                  | Some f => negb (track_matches_with_context track f file eval_ctx)
                  | None => false
                  end)
        target "does not match keep filter" tracks 0;
      if (kept =? 0)%nat then
        truncate_actions actions_before ≫= λ _,
        record_safeguard SafeguardKind_AllTracksRemoved
          ("Safeguard: kept all " +:+ target_str target +:+ " tracks in " +:+ file_name file
           +:+ " — no tracks matched the keep filter, would have removed all")
      else mret tt
  end.

Definition is_critical_target (target : TrackTarget) : bool :=
  match target with TrackTarget_Video | TrackTarget_Audio => true | _ => false end.

Definition emit_remove (target : TrackTarget) (filter : option CompiledFilter) : M unit :=
  let tracks := tracks_for_target file target in
  match tracks with
  | [] => mret tt
  | _ =>
      actions_before ← gets (λ p, length (Plan_actions p));
      kept ← remove_loop
        (λ track, match filter with
                  | Some f => track_matches_with_context track f file eval_ctx
                  | None => true
                  end)
        target "matches remove filter" tracks 0;
      if (kept =? 0)%nat && is_critical_target target then
        truncate_actions actions_before ≫= λ _,
        record_safeguard SafeguardKind_AllTracksRemoved
          ("Safeguard: kept all " +:+ target_str target +:+ " tracks in " +:+ file_name file
           +:+ " — remove operation would have removed all")
      else mret tt
  end.

Definition emit_reorder (order : list string) : M unit :=
  push_file_op Op_ReorderTracks (AP_ReorderTracks order)
    ("Reorder tracks: " +:+ str_join ", " order).

Definition emit_set_default (target : TrackTarget) (track : Track) (detail : string) : M unit :=
  push_track_op Op_SetDefault (Track_index track) AP_Empty
    ("Set default on " +:+ target_str target +:+ " track " +:+ pretty (Track_index track)
     +:+ detail).

Definition emit_clear_default (target : TrackTarget) (track : Track) (detail : string) : M unit :=
  push_track_op Op_ClearDefault (Track_index track) AP_Empty
    ("Clear default flag on " +:+ target_str target +:+ " track "
     +:+ pretty (Track_index track) +:+ detail).

Definition emit_clear_forced (target : TrackTarget) (track : Track) : M unit :=
  push_track_op Op_ClearForced (Track_index track) AP_Empty
    ("Clear forced flag on " +:+ target_str target +:+ " track "
     +:+ pretty (Track_index track)).

Definition emit_clear_title (target : TrackTarget) (track : Track) : M unit :=
  push_track_op Op_SetTitle (Track_index track) (AP_Title "")
    ("Clear title on " +:+ target_str target +:+ " track " +:+ pretty (Track_index track)).

Definition emit_defaults_none (target : TrackTarget) (tracks : list Track) : M unit :=
  for_each (λ track,
    if Track_is_default track then emit_clear_default target track "" else mret tt) tracks.

Definition emit_defaults_first (target : TrackTarget) (tracks : list Track) : M unit :=
  match tracks with
  | [] => mret tt
  | first_track :: rest =>
      (if negb (Track_is_default first_track) then emit_set_default target first_track ""
       else mret tt) ≫= λ _,
      for_each (λ track,
        if Track_is_default track then emit_clear_default target track "" else mret tt) rest
  end.

Fixpoint emit_defaults_first_per_language_go (target : TrackTarget) (seen_langs : gset string)
    (tracks : list Track) : M unit :=
  match tracks with
  | [] => mret tt
  | track :: tracks =>
      let is_first := negb (bool_decide (Track_language track ∈ seen_langs)) in
      (if is_first && negb (Track_is_default track) then
         emit_set_default target track
           (" (first for lang '" +:+ Track_language track +:+ "')")
       else if negb is_first && Track_is_default track then
         emit_clear_default target track
           (" (not first for lang '" +:+ Track_language track +:+ "')")
       else mret tt) ≫= λ _,
      emit_defaults_first_per_language_go target ({[Track_language track]} ∪ seen_langs) tracks
  end.

Definition emit_defaults_first_per_language (target : TrackTarget) (tracks : list Track)
    : M unit :=
  emit_defaults_first_per_language_go target ∅ tracks.

Definition emit_defaults_all (target : TrackTarget) (tracks : list Track) : M unit :=
  for_each (λ track,
    if negb (Track_is_default track) then emit_set_default target track "" else mret tt) tracks.

Definition emit_set_defaults (defaults : list CompiledDefault) : M unit :=
  for_each (λ default,
    let target := CompiledDefault_target default in
    let tracks := tracks_for_target file target in
    match CompiledDefault_strategy default with
    | DefaultStrategy_None => emit_defaults_none target tracks
    | DefaultStrategy_First => emit_defaults_first target tracks
    | DefaultStrategy_FirstPerLanguage => emit_defaults_first_per_language target tracks
    | DefaultStrategy_All => emit_defaults_all target tracks
    end) defaults.

Definition emit_clear_actions (target : TrackTarget) (settings : ClearActionsSettings) : M unit :=
  for_each (λ track,
    (if ClearActionsSettings_clear_all_default settings && Track_is_default track
     then emit_clear_default target track "" else mret tt) ≫= λ _,
    (if ClearActionsSettings_clear_all_forced settings && Track_is_forced track
     then emit_clear_forced target track else mret tt) ≫= λ _,
    (if ClearActionsSettings_clear_all_titles settings && negb (bool_decide (Track_title track = ""))
     then emit_clear_title target track else mret tt))
    (tracks_for_target file target).

(** The per-track part of [emit_transcode]. *)
Definition emit_transcode_tracks (target : TrackTarget) (operation : OperationType)
    (codec : string) (settings : CompiledTranscodeSettings) : M unit :=
  for_each (λ track,
    if bool_decide (Track_codec track = codec) then mret tt
    else if existsb (λ p, bool_decide (p = Track_codec track)) (CTS_preserve settings) then mret tt
    else
      push_track_op operation (Track_index track)
        (AP_Transcode codec (transcode_settings_from settings))
        ("Transcode " +:+ target_str target +:+ " track " +:+ pretty (Track_index track)
         +:+ " from " +:+ Track_codec track +:+ " to " +:+ codec))
    (tracks_for_target file target).

(** A required hardware backend that is not available. *)
Definition hw_unavailable (settings : CompiledTranscodeSettings) : option string :=
  hw ← CTS_hw settings;
  let hw_available :=
    match EvalContext_capabilities eval_ctx with
    | Some caps => CapabilityMap_has_hwaccel caps hw
    | None => false
    end in
  if negb (bool_decide (hw = "auto")) && negb (bool_decide (hw = "none")) &&
     negb hw_available && bool_decide (CTS_hw_fallback settings = Some false)
  then Some hw else None.

Definition emit_transcode (target : TrackTarget) (codec : string)
    (settings : CompiledTranscodeSettings) : M unit :=
  let go (operation : OperationType) : M unit :=
    match hw_unavailable settings with
    | Some hw =>
        modify (λ p, Plan_set_actions
          (Plan_set_skip_reason p
             (Some ("hw backend '" +:+ hw +:+ "' unavailable and hw_fallback is false"))) [])
    | None => emit_transcode_tracks target operation codec settings
    end in
  match target with
  | TrackTarget_Video => go Op_TranscodeVideo
  | TrackTarget_Audio => go Op_TranscodeAudio
  | TrackTarget_Subtitle | TrackTarget_Attachment | TrackTarget_Any => mret tt
  end.

(** The source track of a synthesized track. *)
Definition synth_source_index (synth : CompiledSynthesize) : option u32 :=
  let audio_tracks := MediaFile_audio_tracks file in
  match CompiledSynthesize_source synth with
  | Some source_filter =>
      Track_index <$>
        List.find (λ t, track_matches_with_context t source_filter file eval_ctx) audio_tracks
  | None => Track_index <$> head audio_tracks
  end.

Definition synth_language (synth : CompiledSynthesize) (source_index : option u32)
    : option string :=
  match CompiledSynthesize_language synth with
  | Some SynthLanguage_Inherit =>
      idx ← source_index;
      Track_language <$>
        List.find (λ t, bool_decide (Track_index t = idx)) (MediaFile_tracks file)
  | Some (SynthLanguage_Fixed l) => Some l
  | None => None
  end.

Definition emit_synthesize (synth : CompiledSynthesize) : M unit :=
  let create :=
    match CompiledSynthesize_create_if synth with
    | Some cond => evaluate_condition cond file eval_ctx
    | None => true
    end in
  let exists_already :=
    match CompiledSynthesize_skip_if_exists synth with
    | Some skip_filter =>
        existsb (λ t, track_matches_with_context t skip_filter file eval_ctx)
                (MediaFile_audio_tracks file)
    | None => false
    end in
  if negb create then mret tt
  else if exists_already then mret tt
  else
    let source_index := synth_source_index synth in
    let channels :=
      (λ c, match TranscodeChannels_to_count c with Some n => n | None => 2%N end) <$>
        CompiledSynthesize_channels synth in
    let position :=
      (λ p, match p with
            | SynthPosition_Index n => pretty n
            | SynthPosition_Named s => s
            end) <$> CompiledSynthesize_position synth in
    let params :=
      AP_Synthesize (CompiledSynthesize_name synth) (synth_language synth source_index)
        (CompiledSynthesize_codec synth) None (CompiledSynthesize_bitrate synth) channels
        (CompiledSynthesize_title synth) position source_index
        (CompiledSynthesize_loudness synth) in
    let desc := "Synthesize audio: " +:+ CompiledSynthesize_name synth in
    match source_index with
    | Some idx => push_track_op Op_SynthesizeAudio idx params desc
    | None => push_file_op Op_SynthesizeAudio params desc
    end.

(** ** Tags *)
Definition sorted_tag_keys : list string :=
  merge_sort String.le (hash_iter (MediaFile_tags file)).*1.

Definition emit_clear_tags : M unit :=
  if bool_decide (MediaFile_tags file = ∅) then mret tt
  else
    push_file_op Op_ClearContainerTags (AP_ClearTags sorted_tag_keys)
      ("Clear all container tags (" +:+ str_join ", " sorted_tag_keys +:+ ")").

Definition emit_set_tag (tag : string) (value : CompiledValueOrField) : M unit :=
  match resolve_value_or_field value file eval_ctx with
  | None => throw (VoomError_Validation ("Cannot resolve tag value for '" +:+ tag +:+ "'"))
  | Some val =>
      push_file_op Op_SetContainerTag (AP_SetTag tag val)
        ("Set container tag '" +:+ tag +:+ "' = '" +:+ val +:+ "'")
  end.

Definition emit_delete_tag (tag : string) : M unit :=
  match MediaFile_tags file !! tag with
  | Some _ =>
      push_file_op Op_DeleteContainerTag (AP_DeleteTag tag)
        ("Delete container tag '" +:+ tag +:+ "'")
  | None => mret tt
  end.

(** ** Conditional actions *)
Inductive FlagKind : Type :=
| FlagKind_Default
| FlagKind_Forced.

Definition emit_flag_action (target : TrackTarget) (filter : option CompiledFilter)
    (kind : FlagKind) : M unit :=
  let '(op, label, is_set_fn) :=
    match kind with
    | FlagKind_Default => (Op_SetDefault, "default", Track_is_default)
    | FlagKind_Forced => (Op_SetForced, "forced", Track_is_forced)
    end in
  for_each (λ track,
    if filter_matches_ctx track filter file eval_ctx && negb (is_set_fn track) then
      push_track_op op (Track_index track) AP_Empty
        ("Set " +:+ label +:+ " on " +:+ target_str target +:+ " track "
         +:+ pretty (Track_index track))
    else mret tt) (tracks_for_target file target).

Definition emit_set_language (target : TrackTarget) (filter : option CompiledFilter)
    (lang : string) : M unit :=
  for_each (λ track,
    if filter_matches_ctx track filter file eval_ctx &&
       negb (bool_decide (Track_language track = lang)) then
      push_track_op Op_SetLanguage (Track_index track) (AP_Language lang)
        ("Set language on " +:+ target_str target +:+ " track " +:+ pretty (Track_index track)
         +:+ " to '" +:+ lang +:+ "'")
    else mret tt) (tracks_for_target file target).

Definition emit_action (action : CompiledAction) : M unit :=
  match action with
  | CA_Keep target filter => emit_keep target filter
  | CA_Remove target filter => emit_remove target filter
  | CA_Skip phase =>
      modify (λ p, Plan_set_skip_reason p (Some
        match phase with
        | Some p => "Skipped by action (phase: " +:+ p +:+ ")"
        | None => "Skipped by action"
        end))
  | CA_Warn msg => push_warning (expand_template msg file)
  | CA_Fail msg => throw (VoomError_Validation (expand_template msg file))
  | CA_SetDefault target filter => emit_flag_action target filter FlagKind_Default
  | CA_SetForced target filter => emit_flag_action target filter FlagKind_Forced
  | CA_SetLanguage target filter value =>
      match resolve_value_or_field value file eval_ctx with
      | None => throw (VoomError_Validation "Cannot resolve language value")
      | Some lang => emit_set_language target filter lang
      end
  | CA_SetTag tag value => emit_set_tag tag value
  end.

Definition emit_conditional (cond : CompiledConditional) : M unit :=
  let matched := evaluate_condition (CompiledConditional_condition cond) file eval_ctx in
  for_each emit_action
    (if matched then CompiledConditional_then_actions cond
     else CompiledConditional_else_actions cond).

Fixpoint emit_rules (mode : RulesMode) (rules : list CompiledRule) : M unit :=
  match rules with
  | [] => mret tt
  | rule :: rules =>
      let cond := CompiledRule_conditional rule in
      if evaluate_condition (CompiledConditional_condition cond) file eval_ctx then
        for_each emit_action (CompiledConditional_then_actions cond) ≫= λ _,
        if bool_decide (mode = RulesMode_First) then mret tt else emit_rules mode rules
      else
        for_each emit_action (CompiledConditional_else_actions cond) ≫= λ _,
        emit_rules mode rules
  end.

Definition emit_operation (op : CompiledOperation) : M unit :=
  match op with
  | CO_SetContainer container => emit_set_container container
  | CO_Keep target filter => emit_keep target filter
  | CO_Remove target filter => emit_remove target filter
  | CO_ReorderTracks order => emit_reorder order
  | CO_SetDefaults defaults => emit_set_defaults defaults
  | CO_ClearActions target settings => emit_clear_actions target settings
  | CO_Transcode target codec settings => emit_transcode target codec settings
  | CO_NormalizeAudio target filter settings =>
      emit_keep target filter ≫= λ _,
      emit_normalize_audio target filter settings
  | CO_Synthesize synth => emit_synthesize synth
  | CO_ClearTags => emit_clear_tags
  | CO_SetTag tag value => emit_set_tag tag value
  | CO_DeleteTag tag => emit_delete_tag tag
  | CO_Conditional cond => emit_conditional cond
  | CO_Rules mode rules => emit_rules mode rules
  | CO_Verify mode => emit_verify mode
  end.
End emit.

(** ** Safeguards *)

(** Indices of the tracks a plan removes. *)
Definition removed_indices (actions : list PlannedAction) : gset N :=
  list_to_set (omap PlannedAction_track_index
    (List.filter (λ a, bool_decide (PlannedAction_operation a = Op_RemoveTrack)) actions)).

Definition apply_safeguard_for_track_type (p : Plan) (file : MediaFile) (removed : gset N)
    (filename : string) (type_check : TrackType → bool) (kind : SafeguardKind) (label : string)
    : Plan :=
  let total := length (List.filter (λ t, type_check (Track_track_type t)) (MediaFile_tracks file)) in
  let surviving :=
    length (List.filter (λ t, type_check (Track_track_type t) &&
                              negb (bool_decide (Track_index t ∈ removed)))
                        (MediaFile_tracks file)) in
  if (total =? 0)%nat then p
  else if (0 <? surviving)%nat then p
  else
    let p := Plan_set_actions p
      (List.filter (λ a,
         negb (bool_decide (PlannedAction_operation a = Op_RemoveTrack) &&
               match PlannedAction_track_index a with
               | Some idx =>
                   existsb (λ t, bool_decide (Track_index t = idx) && type_check (Track_track_type t))
                           (MediaFile_tracks file)
               | None => false
               end)) (Plan_actions p)) in
    record_safeguard_plan p kind
      ("Safeguard: would have removed all " +:+ label +:+ " tracks in " +:+ filename
       +:+ ", keeping them instead").

(** The target of the first [ConvertContainer] action. *)
Definition convert_target (actions : list PlannedAction) : option Container :=
  head (omap (λ a,
    if bool_decide (PlannedAction_operation a = Op_ConvertContainer) then
      match PlannedAction_parameters a with
      | AP_Container container => Some container
      | _ => None
      end
    else None) actions).

(** Post-transcode codec of each transcoded track; a later action wins. *)
Definition transcode_codecs (actions : list PlannedAction) : gmap N string :=
  foldl (λ m a,
    match PlannedAction_operation a, PlannedAction_track_index a, PlannedAction_parameters a with
    | (Op_TranscodeVideo | Op_TranscodeAudio), Some idx, AP_Transcode codec _ => <[idx := codec]> m
    | _, _, _ => m
    end) ∅ actions.

Definition effective_codec (actions : list PlannedAction) (track : Track) : string :=
  match transcode_codecs actions !! Track_index track with
  | Some codec => codec
  | None => Track_codec track
  end.

Definition track_offenders (target : Container) (actions : list PlannedAction) (file : MediaFile)
    : list string :=
  omap (λ track,
    if bool_decide (Track_index track ∈ removed_indices actions) then None
    else
      match codec_supported target (effective_codec actions track) with
      | Some false =>
          Some ("track " +:+ pretty (Track_index track) +:+ " (" +:+ effective_codec actions track
                +:+ ")")
      | _ => None
      end) (MediaFile_tracks file).

Definition synth_offenders (target : Container) (actions : list PlannedAction) : list string :=
  omap (λ a,
    if bool_decide (PlannedAction_operation a = Op_SynthesizeAudio) then
      match PlannedAction_parameters a with
      | AP_Synthesize name _ (Some codec) _ _ _ _ _ _ _ =>
          match codec_supported target codec with
          | Some false => Some ("synthesized " +:+ name +:+ " (" +:+ codec +:+ ")")
          | _ => None
          end
      | _ => None
      end
    else None) actions.

Definition apply_container_safeguard (p : Plan) (file : MediaFile) (filename : string) : Plan :=
  match convert_target (Plan_actions p) with
  | None => p
  | Some target =>
      let offenders :=
        track_offenders target (Plan_actions p) file ++ synth_offenders target (Plan_actions p) in
      match offenders with
      | [] => p
      | _ =>
          let p := Plan_set_actions p
            (List.filter (λ a, negb (bool_decide (PlannedAction_operation a = Op_ConvertContainer)))
                         (Plan_actions p)) in
          let details := str_join ", " (take 4 offenders) in
          let suffix :=
            if (4 <? length offenders)%nat
            then " and " +:+ pretty (N.of_nat (length offenders - 4)) +:+ " more" else "" in
          record_safeguard_plan p SafeguardKind_ContainerIncompatible
            ("Safeguard: container conversion from " +:+ Container_as_str (MediaFile_container file)
             +:+ " to " +:+ Container_as_str target +:+ " would leave incompatible codecs in "
             +:+ filename +:+ ": " +:+ details +:+ suffix +:+ "; keeping original container")
      end
  end.

Definition apply_safeguards `{Unicode} (p : Plan) (file : MediaFile) : Plan :=
  if Plan_is_skipped p then p
  else
    let removed := removed_indices (Plan_actions p) in
    let filename := file_name file in
    let p :=
      if bool_decide (removed = ∅) then p
      else
        let p := apply_safeguard_for_track_type p file removed filename TrackType_is_video
                   SafeguardKind_NoVideoTrack "video" in
        apply_safeguard_for_track_type p file removed filename TrackType_is_audio
          SafeguardKind_NoAudioTrack "audio" in
    apply_container_safeguard p file filename.

(** ** Phases *)
Section evaluate.
Context `{Unicode, HashOrder, JsonDisplay, RegexCrate}.

Definition run_if_satisfied (run_if : CompiledRunIf)
    (phase_outcomes : gmap string EvaluationOutcome) : bool :=
  match phase_outcomes !! CompiledRunIf_phase run_if with
  | Some outcome =>
      match CompiledRunIf_trigger run_if with
      | RunIfTrigger_Modified =>
          match outcome with
          | EvaluationOutcome_Executed modified => modified
          | EvaluationOutcome_Skipped | EvaluationOutcome_SafeguardFailed
          | EvaluationOutcome_ExecutionFailed => false
          end
      | RunIfTrigger_Completed =>
          match outcome with
          | EvaluationOutcome_Executed _ => true
          | EvaluationOutcome_Skipped | EvaluationOutcome_SafeguardFailed
          | EvaluationOutcome_ExecutionFailed => false
          end
      end
  | None => false
  end.

Definition run_if_reason (run_if : CompiledRunIf) : string :=
  "run_if " +:+ CompiledRunIf_phase run_if +:+ "." +:+
  match CompiledRunIf_trigger run_if with
  | RunIfTrigger_Modified => "modified"
  | RunIfTrigger_Completed => "completed"
  end +:+ " not satisfied".

Definition missing_dependency (deps : list string)
    (phase_outcomes : gmap string EvaluationOutcome) : option string :=
  List.find (λ dep, bool_decide (phase_outcomes !! dep = None)) deps.

Definition check_skip_conditions (phase : CompiledPhase) (file : MediaFile)
    (phase_outcomes : gmap string EvaluationOutcome) (eval_ctx : EvalContext) : option string :=
  let skip_when :=
    match CompiledPhase_skip_when phase with
    | Some cond => evaluate_condition cond file eval_ctx
    | None => false
    end in
  if skip_when then Some "skip_when condition met"
  else
    match CompiledPhase_run_if phase with
    | Some run_if =>
        if negb (run_if_satisfied run_if phase_outcomes) then Some (run_if_reason run_if)
        else
          (λ dep, "dependency '" +:+ dep +:+ "' not yet executed") <$>
            missing_dependency (CompiledPhase_depends_on phase) phase_outcomes
    | None =>
        (λ dep, "dependency '" +:+ dep +:+ "' not yet executed") <$>
          missing_dependency (CompiledPhase_depends_on phase) phase_outcomes
    end.

(** The operation loop of [evaluate_phase]; [Err] is a panic. *)
Fixpoint run_operations (on_error : ErrorStrategy) (file : MediaFile) (eval_ctx : EvalContext)
    (ops : list CompiledOperation) (p : Plan) : result string Plan :=
  match ops with
  | [] => Ok p
  | op :: ops =>
      match emit_operation file eval_ctx op p with
      | XPanic msg => Err msg
      | XOk _ p => run_operations on_error file eval_ctx ops p
      | XErr e p =>
          match on_error with
          | ErrorStrategy_Abort | ErrorStrategy_Quarantine =>
              Ok (Plan_with_warning p ("Error (aborting): " +:+ VoomError_to_string e))
          | ErrorStrategy_Continue =>
              run_operations on_error file eval_ctx ops
                (Plan_with_warning p ("Error (continuing): " +:+ VoomError_to_string e))
          | ErrorStrategy_Skip =>
              Ok (Plan_set_skip_reason p
                    (Some ("Error (skipping phase): " +:+ VoomError_to_string e)))
          end
      end
  end.

Definition evaluate_phase (stamp : Stamp) (phase : CompiledPhase) (policy : CompiledPolicy)
    (file : MediaFile) (phase_outcomes : gmap string EvaluationOutcome) (eval_ctx : EvalContext)
    : result string Plan :=
  let plan := Plan_new stamp file (CompiledPolicy_name policy) (CompiledPhase_name phase) in
  let plan := Plan_set_policy_hash plan
    (if bool_decide (CompiledPolicy_source_hash policy = "") then None
     else Some (CompiledPolicy_source_hash policy)) in
  match check_skip_conditions phase file phase_outcomes eval_ctx with
  | Some reason => Ok (Plan_set_skip_reason plan (Some reason))
  | None =>
      plan ← run_operations (CompiledPhase_on_error phase) file eval_ctx
               (CompiledPhase_operations phase) plan;
      Ok (apply_safeguards plan file)
  end.

Definition find_phase (policy : CompiledPolicy) (phase_name : string) : option CompiledPhase :=
  List.find (λ p, bool_decide (CompiledPhase_name p = phase_name)) (CompiledPolicy_phases policy).

(** The outcome [evaluate_with_phase_outputs] records for a plan. *)
Definition plan_outcome (plan : Plan) : EvaluationOutcome :=
  if Plan_is_skipped plan then EvaluationOutcome_Skipped
  else EvaluationOutcome_Executed (negb (Plan_is_empty plan)).

(** The phase loop. [stamps n] is the stamp of the [n]-th plan created. *)
Fixpoint evaluate_phases (stamps : nat → Stamp) (policy : CompiledPolicy) (file : MediaFile)
    (eval_ctx : EvalContext) (order : list string)
    (phase_outcomes : gmap string EvaluationOutcome) (plans : list Plan)
    : result string (list Plan) :=
  match order with
  | [] => Ok plans
  | phase_name :: order =>
      match find_phase policy phase_name with
      | None => evaluate_phases stamps policy file eval_ctx order phase_outcomes plans
      | Some phase =>
          plan ← evaluate_phase (stamps (length plans)) phase policy file phase_outcomes eval_ctx;
          evaluate_phases stamps policy file eval_ctx order
            (<[phase_name := plan_outcome plan]> phase_outcomes) (plans ++ [plan])
      end
  end.

Definition evaluate_with_phase_outputs (stamps : nat → Stamp) (policy : CompiledPolicy)
    (file : MediaFile) (capabilities : option CapabilityMap)
    (phase_output_lookup : option (string → option PhaseOutput))
    : result string EvaluationResult :=
  let eval_ctx := {|
    EvalContext_capabilities := capabilities;
    EvalContext_phase_output_lookup := phase_output_lookup;
  |} in
  plans ← evaluate_phases stamps policy file eval_ctx (CompiledPolicy_phase_order policy) ∅ [];
  Ok {| EvaluationResult_plans := plans |}.

Definition evaluate_with_context (stamps : nat → Stamp) (policy : CompiledPolicy)
    (file : MediaFile) (capabilities : option CapabilityMap) : result string EvaluationResult :=
  evaluate_with_phase_outputs stamps policy file capabilities None.

Definition evaluate (stamps : nat → Stamp) (policy : CompiledPolicy) (file : MediaFile)
    : result string EvaluationResult :=
  evaluate_with_context stamps policy file None.

Definition evaluate_single_phase_with_phase_outputs (stamp : Stamp) (phase_name : string)
    (policy : CompiledPolicy) (file : MediaFile)
    (phase_outcomes : gmap string EvaluationOutcome) (capabilities : option CapabilityMap)
    (phase_output_lookup : option (string → option PhaseOutput))
    : result string (option Plan) :=
  match find_phase policy phase_name with
  | None => Ok None
  | Some phase =>
      let eval_ctx := {|
        EvalContext_capabilities := capabilities;
        EvalContext_phase_output_lookup := phase_output_lookup;
      |} in
      plan ← evaluate_phase stamp phase policy file phase_outcomes eval_ctx;
      Ok (Some plan)
  end.

Definition evaluate_single_phase (stamp : Stamp) (phase_name : string)
    (policy : CompiledPolicy) (file : MediaFile)
    (phase_outcomes : gmap string EvaluationOutcome) (capabilities : option CapabilityMap)
    : result string (option Plan) :=
  evaluate_single_phase_with_phase_outputs stamp phase_name policy file phase_outcomes
    capabilities None.
End evaluate.

(** * Executor hints

    The last part of [plugins/policy-evaluator/src/evaluator.rs] (validation
    of plans against the executors' capabilities) and the wrappers of
    [plugins/policy-evaluator/src/lib.rs]. A [HashSet<&str>] is a [gset]. *)

(** Intersect the running set of candidate executors with a new set. *)
Definition intersect_executors (running : option (gset string)) (new : list string)
    : option (gset string) :=
  let new_set : gset string := list_to_set new in
  match running with
  | Some existing => Some (existing ∩ new_set)
  | None => Some new_set
  end.

Section hints.
Context `{HashOrder}.

(** The two [&mut] arguments are the pair [st]: the running intersection and
    the warnings. *)
Definition check_action_capabilities (action : PlannedAction) (capabilities : CapabilityMap)
    (st : option (gset string) * list string) : option (gset string) * list string :=
  let '(all_encoders, warnings) := st in
  let check_codec codec :=
    let executors := CapabilityMap_encoders_for capabilities codec in
    (intersect_executors all_encoders executors,
     match executors with
     | [] => warnings ++ ["No executor supports encoder '" +:+ codec +:+ "'"]
     | _ => warnings
     end) in
  match PlannedAction_parameters action with
  | AP_Transcode codec _ => check_codec codec
  | AP_Synthesize _ _ (Some c) _ _ _ _ _ _ _ => check_codec c
  | AP_Container container =>
      let fmt := default (Container_as_str container) (Container_ffmpeg_format_name container) in
      (all_encoders,
       if negb (CapabilityMap_has_format capabilities fmt)
       then warnings ++ ["No executor supports format '" +:+ fmt +:+ "'"] else warnings)
  | _ => (all_encoders, warnings)
  end.

(** The body of the loop of [apply_capability_hints]. *)
Definition apply_hints_to_plan (plan : Plan) (capabilities : CapabilityMap) : Plan :=
  if Plan_is_skipped plan || Plan_is_empty plan then plan
  else
    let '(all_encoders, warnings) :=
      foldl (λ st action, check_action_capabilities action capabilities st) (None, [])
            (Plan_actions plan) in
    let plan := Plan_set_warnings plan (Plan_warnings plan ++ warnings) in
    match all_encoders with
    | Some candidates =>
        if (size candidates =? 1)%nat
        then Plan_set_executor_hint plan (head (elements candidates)) else plan
    | None => plan
    end.

Definition apply_capability_hints (plans : list Plan) (capabilities : CapabilityMap) : list Plan :=
  if CapabilityMap_is_empty capabilities then plans
  else (λ plan, apply_hints_to_plan plan capabilities) <$> plans.
End hints.

Section wrappers.
Context `{Unicode, HashOrder, JsonDisplay, RegexCrate}.

Definition evaluate_with_capabilities (stamps : nat → Stamp) (policy : CompiledPolicy)
    (file : MediaFile) (capabilities : CapabilityMap) : result string EvaluationResult :=
  res ← evaluate_with_context stamps policy file (Some capabilities);
  Ok {| EvaluationResult_plans :=
          apply_capability_hints (EvaluationResult_plans res) capabilities |}.

Definition evaluate_single_phase_with_hints (stamp : Stamp) (phase_name : string)
    (policy : CompiledPolicy) (file : MediaFile)
    (phase_outcomes : gmap string EvaluationOutcome) (capabilities : CapabilityMap)
    : result string (option Plan) :=
  plan ← evaluate_single_phase stamp phase_name policy file phase_outcomes (Some capabilities);
  Ok (plan ≫= λ p, head (apply_capability_hints [p] capabilities)).
End wrappers.

(** ** Properties *)

(** The encoder an action needs. *)
Definition action_codec (a : PlannedAction) : option string :=
  match PlannedAction_parameters a with
  | AP_Transcode codec _ => Some codec
  | AP_Synthesize _ _ c _ _ _ _ _ _ _ => c
  | _ => None
  end.

(** The executor [n] is registered and can encode [codec]. *)
Definition can_encode (caps : CapabilityMap) (n codec : string) : Prop :=
  ∃ e, CapabilityMap_executors caps !! n = Some e ∧
       codec ∈ CodecCapabilities_encoders (ECE_codecs e).

(** The executor [n] can encode every codec the plan needs. *)
Definition can_encode_all (caps : CapabilityMap) (n : string) (actions : list PlannedAction) : Prop :=
  ∀ codec, codec ∈ omap action_codec actions → can_encode caps n codec.

Section hints_facts.
Context `{HashOrder}.

Lemma encoders_for_can_encode caps codec n :
  n ∈ CapabilityMap_encoders_for caps codec ↔ can_encode caps n codec.
Proof.
  rewrite elem_of_encoders_for. unfold can_encode, ECE_has_encoder.
  setoid_rewrite existsb_elem_of. setoid_rewrite bool_decide_eq_true. naive_solver.
Qed.

Lemma check_action_candidates a caps st :
  (check_action_capabilities a caps st).1 =
  match action_codec a with
  | Some codec => intersect_executors st.1 (CapabilityMap_encoders_for caps codec)
  | None => st.1
  end.
Proof.
  destruct st as [r w]. unfold check_action_capabilities, action_codec. simpl.
  by repeat case_match; simplify_eq/=.
Qed.

(** The running intersection after a list of actions. *)
Lemma check_actions_candidates caps actions st :
  match (foldl (λ st a, check_action_capabilities a caps st) st actions).1 with
  | None => st.1 = None ∧ omap action_codec actions = []
  | Some cands =>
      (st.1 = None → omap action_codec actions ≠ []) ∧
      ∀ n, n ∈ cands ↔ (∀ s, st.1 = Some s → n ∈ s) ∧ can_encode_all caps n actions
  end.
Proof.
  revert st; induction actions as [|a actions IH]; intros st; simpl.
  { destruct st as [[s|] w]; simpl; [|done]. split; [done|].
    intros n. unfold can_encode_all; simpl. set_solver. }
  specialize (IH (check_action_capabilities a caps st)).
  rewrite check_action_candidates in IH. unfold can_encode_all in *; simpl.
  destruct (action_codec a) as [codec|] eqn:Hc; [|done].
  destruct (foldl _ _ actions).1 as [cands|].
  - destruct IH as [_ IH]. split; [done|]. intros n. rewrite IH.
    unfold intersect_executors. destruct st as [[s|] w]; simpl.
    + split; [intros [Hs Hall]; specialize (Hs _ eq_refl) | intros [Hs Hall]].
      * rewrite elem_of_intersection, elem_of_list_to_set, encoders_for_can_encode in Hs.
        set_solver.
      * split; [|set_solver]. intros ? [= <-]. 
        rewrite elem_of_intersection, elem_of_list_to_set, encoders_for_can_encode.
        set_solver.
    + split; [intros [Hs Hall]; specialize (Hs _ eq_refl) | intros [Hs Hall]].
      * rewrite elem_of_list_to_set, encoders_for_can_encode in Hs. set_solver.
      * split; [|set_solver]. intros ? [= <-].
        rewrite elem_of_list_to_set, encoders_for_can_encode. set_solver.
  - destruct IH as [IH _]. unfold intersect_executors in IH. by destruct st.1.
Qed.

Lemma apply_hints_executor_hint plan caps :
  Plan_is_skipped plan = false →
  Plan_executor_hint plan = None →
  ∀ n, Plan_executor_hint (apply_hints_to_plan plan caps) = Some n ↔
       omap action_codec (Plan_actions plan) ≠ [] ∧
       ∀ x, can_encode_all caps x (Plan_actions plan) ↔ x = n.
Proof.
  intros Hs Hh n. unfold apply_hints_to_plan. rewrite Hs; simpl.
  destruct (Plan_is_empty plan) eqn:He.
  { unfold Plan_is_empty in He. destruct (Plan_actions plan); [|done]; simpl.
    rewrite Hh. naive_solver. }
  pose proof (check_actions_candidates caps (Plan_actions plan) (None, [])) as Hc.
  destruct (foldl _ _ _) as [[cands|] w]; simpl in *.
  2:{ rewrite Hh. naive_solver. }
  destruct Hc as [Hne Hc].
  assert (∀ x, x ∈ cands ↔ can_encode_all caps x (Plan_actions plan)) as Hc'.
  { intros x. rewrite Hc. naive_solver. }
  destruct (Nat.eqb_spec (size cands) 1) as [Hsz|Hsz]; simpl.
  - apply size_1_elem_of in Hsz as [y Hy]. apply leibniz_equiv in Hy as ->.
    rewrite elements_singleton; simpl. setoid_rewrite <-Hc'.
    setoid_rewrite elem_of_singleton. split.
    + intros [= ->]. split; [by apply Hne|done].
    + intros [_ Hx]. f_equal. by apply Hx.
  - rewrite Hh. split; [done|]. intros [_ Hx]. destruct Hsz.
    assert (cands = {[n]}) as ->; [|apply size_singleton].
    apply set_eq. intros x. rewrite Hc', elem_of_singleton. apply Hx.
Qed.
End hints_facts.
