(* ===== verification/EmitFacts.v ===== *)
(** * What the emission functions guarantee

    A small program logic for the emission monad ([keeps]: an invariant is
    preserved on success and on error, and no panic happens), the invariant of
    the plans under construction, and the exact effect of [keep], [remove] and
    of the default-flag strategies. *)
From S2P Require Import Prelude Json Media Plan Compiled CapabilityMap Condition Evaluator.

(** ** Invariants of emission programs *)
Definition exec_holds {A} (I : Plan → Prop) (x : exec A) : Prop :=
  match x with
  | XOk _ p | XErr _ p => I p
  | XPanic _ => False
  end.

Definition keeps {A} (I : Plan → Prop) (m : M A) : Prop := ∀ p, I p → exec_holds I (m p).

Section keeps.
Context (I : Plan → Prop).

Lemma keeps_ret {A} (a : A) : keeps I (mret a).
Proof. by intros p. Qed.

Lemma keeps_bind {A B} (m : M A) (f : A → M B) :
  keeps I m → (∀ a, keeps I (f a)) → keeps I (m ≫= f).
Proof.
  intros Hm Hf p Hp. specialize (Hm p Hp). unfold mbind, M_bind.
  destruct (m p) as [a p'| |]; simpl in *; [by apply Hf|done|done].
Qed.

Lemma keeps_modify f : (∀ p, I p → I (f p)) → keeps I (modify f).
Proof. intros Hf p Hp. by apply Hf. Qed.

Lemma keeps_gets {A} (f : Plan → A) : keeps I (gets f).
Proof. by intros p. Qed.

Lemma keeps_throw {A} e : keeps I (throw (A := A) e).
Proof. by intros p. Qed.

Lemma keeps_for_each {A} (f : A → M unit) l :
  (∀ x, x ∈ l → keeps I (f x)) → keeps I (for_each f l).
Proof.
  induction l as [|x l IH]; intros Hf; simpl; [apply keeps_ret|].
  apply keeps_bind; [apply Hf; set_solver|]. intros _. apply IH. set_solver.
Qed.

Lemma keeps_if {A} (b : bool) (m1 m2 : M A) :
  (b = true → keeps I m1) → (b = false → keeps I m2) → keeps I (if b then m1 else m2).
Proof. destruct b; auto. Qed.
End keeps.

#[export] Hint Resolve keeps_ret keeps_gets keeps_throw : voom.
#[export] Hint Resolve keeps_bind keeps_if keeps_for_each | 10 : voom.

(** ** The invariant of plans *)

(** What a planned action on a track says about it: it is of the right kind, and a
    flag, a title, a language or a codec differs from what it is set to. *)
Definition track_action_ok (t : Track) (o : OperationType) (ps : ActionParams) : Prop :=
  match o, ps with
  | Op_SetDefault, _ => Track_is_default t = false
  | Op_ClearDefault, _ => Track_is_default t = true
  | Op_SetForced, _ => Track_is_forced t = false
  | Op_ClearForced, _ => Track_is_forced t = true
  | Op_SetTitle, AP_Title title => Track_title t ≠ title
  | Op_SetLanguage, AP_Language lang => Track_language t ≠ lang
  | Op_RemoveTrack, AP_RemoveTrack _ ty => Track_track_type t = ty
  | Op_TranscodeVideo, AP_Transcode codec _ =>
      TrackType_is_video (Track_track_type t) = true ∧ Track_codec t ≠ codec
  | Op_TranscodeAudio, AP_Transcode codec s =>
      TrackType_is_audio (Track_track_type t) = true ∧
      (Track_codec t ≠ codec ∨ is_Some (TranscodeSettings_loudness s))
  | Op_SynthesizeAudio, AP_Synthesize _ _ _ _ _ _ _ _ source _ =>
      TrackType_is_audio (Track_track_type t) = true ∧ source = Some (Track_index t)
  | _, _ => False
  end.

(** What a planned action on the file says about it: a conversion is to another
    container, tags that are cleared or deleted are there, and a track synthesized
    for the file as a whole has no source. Setting a tag, ordering the tracks and
    verifying the file are planned whatever the file is. *)
Definition file_action_ok (file : MediaFile) (o : OperationType) (ps : ActionParams) : Prop :=
  match o, ps with
  | Op_ConvertContainer, AP_Container c => MediaFile_container file ≠ c
  | Op_ClearContainerTags, AP_ClearTags tags =>
      tags ≠ [] ∧ (∀ k, k ∈ tags ↔ is_Some (MediaFile_tags file !! k))
  | Op_DeleteContainerTag, AP_DeleteTag tag => is_Some (MediaFile_tags file !! tag)
  | Op_SynthesizeAudio, AP_Synthesize _ _ _ _ _ _ _ _ source _ => source = None
  | Op_SetContainerTag, AP_SetTag _ _
  | Op_ReorderTracks, AP_ReorderTracks _
  | Op_VerifyMedia, AP_VerifyMedia _ => True
  | _, _ => False
  end.

Definition action_ok (file : MediaFile) (a : PlannedAction) : Prop :=
  action_wf a ∧
  match PlannedAction_track_index a with
  | Some i => ∃ t, t ∈ MediaFile_tracks file ∧ Track_index t = i ∧
                   track_action_ok t (PlannedAction_operation a) (PlannedAction_parameters a)
  | None => file_action_ok file (PlannedAction_operation a) (PlannedAction_parameters a)
  end.

(** Every recorded violation is also a warning and names the plan's phase. *)
Definition violation_ok (p : Plan) (v : SafeguardViolation) : Prop :=
  SafeguardViolation_message v ∈ Plan_warnings p ∧
  SafeguardViolation_phase_name v = Plan_phase_name p.

(** The fields that identify a plan are never touched by emission. *)
Definition same_identity (p0 p : Plan) : Prop :=
  Plan_id p = Plan_id p0 ∧ Plan_file p = Plan_file p0 ∧
  Plan_policy_name p = Plan_policy_name p0 ∧ Plan_phase_name p = Plan_phase_name p0 ∧
  Plan_policy_hash p = Plan_policy_hash p0 ∧ Plan_evaluated_at p = Plan_evaluated_at p0 ∧
  Plan_executor_hint p = Plan_executor_hint p0 ∧ Plan_session_id p = Plan_session_id p0 ∧
  Plan_scan_session p = Plan_scan_session p0.

Record plan_ok (file : MediaFile) (p0 p : Plan) : Prop := {
  plan_ok_actions : Forall (action_ok file) (Plan_actions p);
  plan_ok_violations : Forall (violation_ok p) (Plan_safeguard_violations p);
  plan_ok_identity : same_identity p0 p;
}.

Section plan_ok.
Context (file : MediaFile) (p0 : Plan).
Abbreviation I := (plan_ok file p0) (only parsing).

Lemma plan_ok_set_actions p actions :
  I p → Forall (action_ok file) actions → I (Plan_set_actions p actions).
Proof. intros [Ha Hv Hi] ?. by split. Qed.

Lemma plan_ok_set_skip p r : I p → I (Plan_set_skip_reason p r).
Proof. intros [Ha Hv Hi]. by split. Qed.

Lemma plan_ok_warning p w : I p → I (Plan_with_warning p w).
Proof.
  intros [Ha Hv Hi]. split; [done| |done].
  eapply Forall_impl; [done|]. intros v [Hm Hn]. split; simpl; [set_solver|done].
Qed.

Lemma plan_ok_record p kind msg : I p → I (record_safeguard_plan p kind msg).
Proof.
  intros Hp. destruct (plan_ok_warning p msg Hp) as [Ha Hv Hi]. split; [done| |done].
  apply Forall_app. split; [done|]. apply Forall_singleton. split; simpl; [set_solver|done].
Qed.

Lemma plan_ok_take p n : I p → I (Plan_set_actions p (take n (Plan_actions p))).
Proof. intros Hp. apply plan_ok_set_actions; [done|]. apply Forall_take, Hp. Qed.

Lemma plan_ok_filter p f : I p → I (Plan_set_actions p (List.filter f (Plan_actions p))).
Proof.
  intros Hp. apply plan_ok_set_actions; [done|]. apply Forall_forall.
  intros a [Ha _]%filter_elem_of. revert a Ha. apply Forall_forall, Hp.
Qed.

Lemma keeps_push_track_op o t ps d :
  validate_action_params o ps = Ok tt → t ∈ MediaFile_tracks file → track_action_ok t o ps →
  keeps I (push_track_op o (Track_index t) ps d).
Proof.
  intros Hv Ht Hok p Hp. unfold push_track_op, PlannedAction_try_track_op, push_action,
    PlannedAction_new_checked. rewrite Hv. simpl.
  apply plan_ok_set_actions; [done|]. apply Forall_app. split; [apply Hp|].
  apply Forall_singleton. split; [done|]. simpl. by exists t.
Qed.

Lemma keeps_push_file_op o ps d :
  validate_action_params o ps = Ok tt → file_action_ok file o ps →
  keeps I (push_file_op o ps d).
Proof.
  intros Hv Hok p Hp. unfold push_file_op, PlannedAction_try_file_op, push_action,
    PlannedAction_new_checked. rewrite Hv. simpl.
  apply plan_ok_set_actions; [done|]. apply Forall_app. split; [apply Hp|].
  apply Forall_singleton. by split.
Qed.
End plan_ok.

#[export] Hint Resolve plan_ok_set_skip plan_ok_warning plan_ok_record plan_ok_take
  plan_ok_filter : voom.

(** [keeps_solve] reduces a [keeps] goal to the side conditions of the pushed
    actions: the boolean guards of the code become hypotheses. *)
Ltac keeps_guards :=
  repeat match goal with
  | H : negb _ = true |- _ => apply negb_true_iff in H
  | H : negb _ = false |- _ => apply negb_false_iff in H
  | H : _ && _ = true |- _ => apply andb_prop in H as [? ?]
  | H : bool_decide _ = true |- _ => apply bool_decide_eq_true in H
  | H : bool_decide _ = false |- _ => apply bool_decide_eq_false in H
  end.

Ltac keeps_step :=
  match goal with
  | |- keeps _ (if _ then _ else _) => apply keeps_if; intros ?
  | |- keeps _ (_ ≫= _) => apply keeps_bind; [|intros ?]
  | |- keeps _ (mret _) => apply keeps_ret
  | |- keeps _ (throw _) => apply keeps_throw
  | |- keeps _ (gets _) => apply keeps_gets
  | |- keeps _ (for_each _ _) => apply keeps_for_each; intros ? ?
  | |- keeps _ (modify _) => apply keeps_modify; intros ? ?
  | |- keeps _ (match ?x with _ => _ end) => destruct x eqn:?
  | |- keeps _ _ => by auto with voom
  end.

Ltac keeps_solve := repeat (keeps_step; try done); keeps_guards; eauto with voom.

(** ** Every operation keeps the invariant *)
Section emit_ok.
Context `{Unicode, HashOrder, JsonDisplay, RegexCrate}.
Context (file : MediaFile) (eval_ctx : EvalContext) (p0 : Plan).
Abbreviation I := (plan_ok file p0) (only parsing).
Implicit Types (target : TrackTarget) (t : Track).

Lemma elem_of_target_tracks target t :
  t ∈ tracks_for_target file target → t ∈ MediaFile_tracks file.
Proof. by intros [? ?]%elem_of_tracks_for_target. Qed.

Lemma keeps_record_safeguard kind msg : keeps I (record_safeguard kind msg).
Proof. apply keeps_modify. auto with voom. Qed.

Lemma keeps_truncate n : keeps I (truncate_actions n).
Proof. apply keeps_modify. auto with voom. Qed.

Lemma keeps_emit_remove_track target t reason :
  t ∈ MediaFile_tracks file → keeps I (emit_remove_track t target reason).
Proof. intros. by apply keeps_push_track_op. Qed.

Lemma keeps_remove_loop should_remove target reason tracks kept :
  (∀ t, t ∈ tracks → t ∈ MediaFile_tracks file) →
  keeps I (remove_loop should_remove target reason tracks kept).
Proof.
  revert kept; induction tracks as [|t tracks IH]; intros kept Hin; simpl; [apply keeps_ret|].
  apply keeps_if; intros _; [|apply IH; set_solver].
  apply keeps_bind; [apply keeps_emit_remove_track; set_solver|].
  intros _. apply IH. set_solver.
Qed.

Lemma keeps_emit_keep target filter : keeps I (emit_keep file eval_ctx target filter).
Proof.
  unfold emit_keep. destruct (tracks_for_target file target) eqn:E; [apply keeps_ret|].
  rewrite <-E. keeps_solve;
    eauto using keeps_remove_loop, elem_of_target_tracks, keeps_truncate, keeps_record_safeguard.
Qed.

Lemma keeps_emit_remove target filter : keeps I (emit_remove file eval_ctx target filter).
Proof.
  unfold emit_remove. destruct (tracks_for_target file target) eqn:E; [apply keeps_ret|].
  rewrite <-E. keeps_solve;
    eauto using keeps_remove_loop, elem_of_target_tracks, keeps_truncate, keeps_record_safeguard.
Qed.

Lemma keeps_emit_set_container c : keeps I (emit_set_container file c).
Proof. unfold emit_set_container. keeps_solve. by apply keeps_push_file_op. Qed.

Lemma keeps_emit_verify mode : keeps I (emit_verify mode).
Proof. by apply keeps_push_file_op. Qed.

Lemma keeps_emit_reorder order : keeps I (emit_reorder order).
Proof. by apply keeps_push_file_op. Qed.

Lemma keeps_emit_normalize_audio target filter settings :
  keeps I (emit_normalize_audio file eval_ctx target filter settings).
Proof.
  unfold emit_normalize_audio. apply keeps_if; [keeps_solve|].
  intros ->%bool_decide_eq_false%dec_stable. keeps_solve.
  apply elem_of_tracks_for_target in H3 as [Hin Hty].
  apply keeps_push_track_op; [done|done|]. simpl. split; [done|]. right. by eexists.
Qed.

Lemma keeps_emit_set_default target t d :
  t ∈ MediaFile_tracks file → Track_is_default t = false →
  keeps I (emit_set_default target t d).
Proof. intros. by apply keeps_push_track_op. Qed.

Lemma keeps_emit_clear_default target t d :
  t ∈ MediaFile_tracks file → Track_is_default t = true →
  keeps I (emit_clear_default target t d).
Proof. intros. by apply keeps_push_track_op. Qed.

Lemma keeps_emit_clear_forced target t :
  t ∈ MediaFile_tracks file → Track_is_forced t = true → keeps I (emit_clear_forced target t).
Proof. intros. by apply keeps_push_track_op. Qed.

Lemma keeps_emit_clear_title target t :
  t ∈ MediaFile_tracks file → Track_title t ≠ "" → keeps I (emit_clear_title target t).
Proof. intros. by apply keeps_push_track_op. Qed.

Hint Resolve keeps_emit_set_default keeps_emit_clear_default keeps_emit_clear_forced
  keeps_emit_clear_title elem_of_target_tracks : voom.

Lemma keeps_emit_defaults_per_language target seen tracks :
  (∀ t, t ∈ tracks → t ∈ MediaFile_tracks file) →
  keeps I (emit_defaults_first_per_language_go target seen tracks).
Proof.
  revert seen; induction tracks as [|t tracks IH]; intros seen Hin; simpl; [apply keeps_ret|].
  assert (t ∈ MediaFile_tracks file) by set_solver.
  apply keeps_bind; [keeps_solve|]. intros _. apply IH. set_solver.
Qed.

Lemma keeps_emit_set_defaults defaults : keeps I (emit_set_defaults file defaults).
Proof.
  unfold emit_set_defaults. apply keeps_for_each. intros [target strategy] _. simpl.
  pose proof (elem_of_target_tracks target) as Hin.
  destruct strategy; simpl.
  - by apply keeps_emit_defaults_per_language.
  - unfold emit_defaults_none. keeps_solve.
  - unfold emit_defaults_first. destruct (tracks_for_target file target) as [|t l]; [keeps_solve|].
    assert (t ∈ MediaFile_tracks file) by set_solver.
    assert (∀ t, t ∈ l → t ∈ MediaFile_tracks file) by set_solver. keeps_solve.
  - unfold emit_defaults_all. keeps_solve.
Qed.

Lemma keeps_emit_clear_actions target settings : keeps I (emit_clear_actions file target settings).
Proof. unfold emit_clear_actions. keeps_solve. Qed.

Lemma keeps_emit_transcode target codec settings :
  keeps I (emit_transcode file eval_ctx target codec settings).
Proof.
  assert (∀ o, (o = Op_TranscodeVideo ∧ target = TrackTarget_Video) ∨
               (o = Op_TranscodeAudio ∧ target = TrackTarget_Audio) →
               keeps I (emit_transcode_tracks file target o codec settings)) as Htr.
  { intros o Ho. unfold emit_transcode_tracks. apply keeps_for_each.
    intros t [Hin Hty]%elem_of_tracks_for_target. keeps_solve.
    destruct Ho as [[-> ->]|[-> ->]]; apply keeps_push_track_op; simpl; auto. }
  unfold emit_transcode. destruct target; try apply keeps_ret;
    destruct (hw_unavailable eval_ctx settings); auto;
    apply keeps_modify; intros p Hp; apply plan_ok_set_actions; auto with voom.
Qed.

Lemma synth_source_index_track synth i :
  synth_source_index file eval_ctx synth = Some i →
  ∃ t, t ∈ MediaFile_tracks file ∧ Track_index t = i ∧
       TrackType_is_audio (Track_track_type t) = true.
Proof.
  assert (∀ t, t ∈ MediaFile_audio_tracks file →
               t ∈ MediaFile_tracks file ∧ TrackType_is_audio (Track_track_type t) = true) as Ha.
  { intros t. apply (elem_of_tracks_for_target file TrackTarget_Audio). }
  unfold synth_source_index. destruct (CompiledSynthesize_source synth) as [f|].
  - intros (t & [Hin _]%find_Some_elem_of & ->)%fmap_Some. exists t. naive_solver.
  - intros (t & Hh & ->)%fmap_Some. exists t.
    destruct (MediaFile_audio_tracks file); simplify_eq/=. set_solver.
Qed.

Lemma keeps_emit_synthesize synth : keeps I (emit_synthesize file eval_ctx synth).
Proof.
  unfold emit_synthesize. apply keeps_if; [keeps_solve|intros _].
  apply keeps_if; [keeps_solve|intros _].
  destruct (synth_source_index file eval_ctx synth) as [i|] eqn:Hs.
  - apply synth_source_index_track in Hs as (t & Hin & <- & Ha). by apply keeps_push_track_op.
  - by apply keeps_push_file_op.
Qed.

Lemma elem_of_sorted_tag_keys k :
  k ∈ sorted_tag_keys file ↔ is_Some (MediaFile_tags file !! k).
Proof.
  unfold sorted_tag_keys. rewrite merge_sort_Permutation.
  rewrite list_elem_of_fmap. setoid_rewrite hash_iter_perm. split.
  - intros ([k' v] & -> & Hin). exists v. by apply elem_of_map_to_list.
  - intros [v Hv]. exists (k, v). split; [done|]. by apply elem_of_map_to_list.
Qed.

Lemma keeps_emit_clear_tags : keeps I (emit_clear_tags file).
Proof.
  unfold emit_clear_tags. keeps_solve. apply keeps_push_file_op; [done|]. simpl.
  split; [|apply elem_of_sorted_tag_keys]. intros Hnil.
  apply H3, map_empty. intros k. destruct (MediaFile_tags file !! k) eqn:E; [|done].
  assert (k ∈ sorted_tag_keys file) as Hk by (apply elem_of_sorted_tag_keys; by eexists).
  rewrite Hnil in Hk. set_solver.
Qed.

Lemma keeps_emit_set_tag tag value : keeps I (emit_set_tag file eval_ctx tag value).
Proof. unfold emit_set_tag. keeps_solve. by apply keeps_push_file_op. Qed.

Lemma keeps_emit_delete_tag tag : keeps I (emit_delete_tag file tag).
Proof. unfold emit_delete_tag. keeps_solve. apply keeps_push_file_op; [done|by eexists]. Qed.

Lemma keeps_emit_flag_action target filter kind :
  keeps I (emit_flag_action file eval_ctx target filter kind).
Proof.
  unfold emit_flag_action. destruct kind; keeps_solve; apply keeps_push_track_op;
    eauto with voom.
Qed.

Lemma keeps_emit_set_language target filter lang :
  keeps I (emit_set_language file eval_ctx target filter lang).
Proof.
  unfold emit_set_language. keeps_solve. apply keeps_push_track_op; eauto with voom.
Qed.

Hint Resolve keeps_emit_keep keeps_emit_remove keeps_emit_set_container keeps_emit_verify
  keeps_emit_reorder keeps_emit_normalize_audio keeps_emit_set_defaults
  keeps_emit_clear_actions keeps_emit_transcode keeps_emit_synthesize keeps_emit_clear_tags
  keeps_emit_set_tag keeps_emit_delete_tag keeps_emit_flag_action keeps_emit_set_language : voom.

Lemma keeps_emit_action action : keeps I (emit_action file eval_ctx action).
Proof. destruct action; unfold emit_action, push_warning; keeps_solve. Qed.

Hint Resolve keeps_emit_action : voom.

Lemma keeps_emit_conditional cond : keeps I (emit_conditional file eval_ctx cond).
Proof. unfold emit_conditional. apply keeps_for_each. auto with voom. Qed.

Lemma keeps_emit_rules mode rules : keeps I (emit_rules file eval_ctx mode rules).
Proof. induction rules as [|r rules IH]; simpl; keeps_solve. Qed.

Hint Resolve keeps_emit_conditional keeps_emit_rules : voom.

Lemma keeps_emit_operation op : keeps I (emit_operation file eval_ctx op).
Proof. destruct op; simpl; auto with voom. Qed.
End emit_ok.

(** * Exact behaviour of the track operations

    The actions that [keep], [remove] and the default-flag strategies plan, as
    closed forms, and what executing those actions means for the tracks. *)

(** ** Programs that only append actions *)
Definition add_actions (p : Plan) (acts : list PlannedAction) : Plan :=
  Plan_set_actions p (Plan_actions p ++ acts).

Definition emits (m : M unit) (acts : list PlannedAction) : Prop :=
  ∀ p, m p = XOk tt (add_actions p acts).

Lemma Plan_set_actions_id p : Plan_set_actions p (Plan_actions p) = p.
Proof. by destruct p. Qed.

Lemma add_actions_nil p : add_actions p [] = p.
Proof. unfold add_actions. by rewrite app_nil_r, Plan_set_actions_id. Qed.

Lemma add_actions_app p k l : add_actions (add_actions p k) l = add_actions p (k ++ l).
Proof. unfold add_actions. simpl. by rewrite (assoc_L (++)). Qed.

Lemma emits_ret : emits (mret tt) [].
Proof. intros p. by rewrite add_actions_nil. Qed.

Lemma emits_bind m1 m2 k l : emits m1 k → emits m2 l → emits (m1 ≫= λ _, m2) (k ++ l).
Proof.
  intros H1 H2 p. unfold mbind, M_bind. by rewrite H1, H2, add_actions_app.
Qed.

(** ** Removals *)

(** The action [emit_remove_track] plans. *)
Definition removal_action (target : TrackTarget) (reason : string) (t : Track) : PlannedAction := {|
  PlannedAction_operation := Op_RemoveTrack;
  PlannedAction_track_index := Some (Track_index t);
  PlannedAction_parameters := AP_RemoveTrack reason (Track_track_type t);
  PlannedAction_description :=
    "Remove " +:+ target_str target +:+ " track " +:+ pretty (Track_index t)
    +:+ " (" +:+ Track_codec t +:+ ", " +:+ Track_language t +:+ ")";
|}.

Lemma emit_remove_track_emits target reason t :
  emits (emit_remove_track t target reason) [removal_action target reason t].
Proof. by intros p. Qed.

Lemma remove_loop_eq f target reason tracks kept p :
  remove_loop f target reason tracks kept p =
  XOk (kept + length (List.filter (λ t, negb (f t)) tracks))
      (add_actions p (removal_action target reason <$> List.filter f tracks)).
Proof.
  revert kept p; induction tracks as [|t tracks IH]; intros kept p; simpl.
  { by rewrite add_actions_nil, Nat.add_0_r. }
  destruct (f t) eqn:Hf; simpl.
  - unfold mbind, M_bind. rewrite emit_remove_track_emits, IH, add_actions_app. done.
  - rewrite IH. by rewrite Nat.add_succ_r.
Qed.

Lemma truncate_add p acts :
  truncate_actions (length (Plan_actions p)) (add_actions p acts) = XOk tt p.
Proof.
  unfold truncate_actions, modify, add_actions. simpl.
  rewrite take_app_length. by destruct p.
Qed.

Section removal.
Context `{Unicode, HashOrder, JsonDisplay, RegexCrate}.
Context (file : MediaFile) (eval_ctx : EvalContext).

Definition keep_msg (target : TrackTarget) : string :=
  "Safeguard: kept all " +:+ target_str target +:+ " tracks in " +:+ file_name file
  +:+ " — no tracks matched the keep filter, would have removed all".

Definition remove_msg (target : TrackTarget) : string :=
  "Safeguard: kept all " +:+ target_str target +:+ " tracks in " +:+ file_name file
  +:+ " — remove operation would have removed all".

(** Closed form of [emit_keep]. *)
Lemma emit_keep_eq target filter p :
  emit_keep file eval_ctx target filter p =
  XOk tt
    (let tracks := tracks_for_target file target in
     let m t := filter_matches_ctx t filter file eval_ctx in
     if bool_decide (tracks ≠ [] ∧ List.filter m tracks = [])
     then record_safeguard_plan p SafeguardKind_AllTracksRemoved (keep_msg target)
     else add_actions p (removal_action target "does not match keep filter" <$>
                           List.filter (λ t, negb (m t)) tracks)).
Proof.
  unfold emit_keep. destruct (tracks_for_target file target) as [|t l] eqn:E.
  { rewrite bool_decide_false by naive_solver. simpl. by rewrite add_actions_nil. }
  rewrite <-E. unfold mbind, M_bind, gets.
  set (f := λ track, match filter with
            | Some f => negb (track_matches_with_context track f file eval_ctx)
            | None => false end).
  rewrite (remove_loop_eq f). cbv zeta beta iota.
  assert (∀ t, filter_matches_ctx t filter file eval_ctx = negb (f t)) as Hm.
  { intros x. unfold filter_matches_ctx, f. destruct filter; [by rewrite negb_involutive|done]. }
  rewrite (filter_ext _ _ Hm (tracks_for_target file target)).
  rewrite (filter_ext (λ t, negb (filter_matches_ctx t filter file eval_ctx)) f).
  2:{ intros x. by rewrite Hm, negb_involutive. }
  destruct (List.filter (λ t, negb (f t)) (tracks_for_target file target)) as [|k kk]; cbn [length Nat.add Nat.eqb].
  - rewrite truncate_add, bool_decide_true by (rewrite E; done). done.
  - by rewrite bool_decide_false by naive_solver.
Qed.

(** Closed form of [emit_remove]: only video and audio are protected. *)
Lemma emit_remove_eq target filter p :
  emit_remove file eval_ctx target filter p =
  XOk tt
    (let tracks := tracks_for_target file target in
     let m t := filter_matches_ctx t filter file eval_ctx in
     if bool_decide (tracks ≠ [] ∧ List.filter (λ t, negb (m t)) tracks = []) &&
        is_critical_target target
     then record_safeguard_plan p SafeguardKind_AllTracksRemoved (remove_msg target)
     else add_actions p (removal_action target "matches remove filter" <$>
                           List.filter m tracks)).
Proof.
  unfold emit_remove. destruct (tracks_for_target file target) as [|t l] eqn:E.
  { rewrite bool_decide_false by naive_solver. simpl. by rewrite add_actions_nil. }
  rewrite <-E. unfold mbind, M_bind, gets.
  change (λ track, match filter with
            | Some f => track_matches_with_context track f file eval_ctx
            | None => true end) with (λ t, filter_matches_ctx t filter file eval_ctx).
  rewrite remove_loop_eq.
  cbv zeta beta iota. destruct (List.filter (λ t, negb (filter_matches_ctx t filter file eval_ctx))
              (tracks_for_target file target)) as [|k kk]; cbn [length Nat.add Nat.eqb].
  - rewrite bool_decide_true by (rewrite E; done).
    destruct (is_critical_target target); cbn [andb]; [by rewrite truncate_add|done].
  - by rewrite bool_decide_false by naive_solver.
Qed.
End removal.

(** ** What removals mean for the file *)

(** The track [t] is left in the file by the actions. *)
Definition survives (actions : list PlannedAction) (t : Track) : bool :=
  negb (bool_decide (Track_index t ∈ removed_indices actions)).

Lemma elem_of_removed_indices actions i :
  i ∈ removed_indices actions ↔
  ∃ a, a ∈ actions ∧ PlannedAction_operation a = Op_RemoveTrack ∧
       PlannedAction_track_index a = Some i.
Proof.
  unfold removed_indices. rewrite elem_of_list_to_set, list_elem_of_omap.
  setoid_rewrite filter_elem_of. setoid_rewrite bool_decide_eq_true. naive_solver.
Qed.

Lemma survives_spec actions t :
  survives actions t = true ↔
  ∀ a, a ∈ actions → PlannedAction_operation a = Op_RemoveTrack →
       PlannedAction_track_index a ≠ Some (Track_index t).
Proof.
  unfold survives. rewrite negb_true_iff, bool_decide_eq_false, elem_of_removed_indices.
  naive_solver.
Qed.

Lemma survives_app k l t : survives (k ++ l) t = survives k t && survives l t.
Proof.
  apply eq_iff_eq_true. rewrite andb_true_iff, !survives_spec. setoid_rewrite elem_of_app.
  naive_solver.
Qed.

(** With distinct track indices, the planned removals of a selection remove
    exactly the selected tracks. *)
Lemma survives_removals target target' reason (file : MediaFile) f t :
  NoDup (Track_index <$> MediaFile_tracks file) → t ∈ MediaFile_tracks file →
  survives (removal_action target' reason <$> List.filter f (tracks_for_target file target)) t =
  negb (target_type target (Track_track_type t) && f t).
Proof.
  intros Hnd Ht. unfold survives. f_equal. apply eq_iff_eq_true.
  rewrite bool_decide_eq_true, elem_of_removed_indices, andb_true_iff. split.
  - intros (a & (x & -> & Hx)%list_elem_of_fmap & _ & [= Hi]).
    apply filter_elem_of in Hx as [[Hx ?]%elem_of_tracks_for_target ?].
    by rewrite (NoDup_fmap_inj_elem Track_index (MediaFile_tracks file) t x).
  - intros [Hty Hf]. exists (removal_action target' reason t). split; [|done].
    apply list_elem_of_fmap. exists t. split; [done|].
    apply filter_elem_of. by rewrite elem_of_tracks_for_target.
Qed.

(** ** Default flags *)

(** The flag each track of a target should end up with. *)
Fixpoint first_per_language (seen : gset string) (tracks : list Track) : list bool :=
  match tracks with
  | [] => []
  | t :: tracks =>
      negb (bool_decide (Track_language t ∈ seen)) ::
      first_per_language ({[Track_language t]} ∪ seen) tracks
  end.

Definition wanted_defaults (strategy : DefaultStrategy) (tracks : list Track) : list bool :=
  match strategy with
  | DefaultStrategy_None => replicate (length tracks) false
  | DefaultStrategy_First =>
      match tracks with [] => [] | _ :: l => true :: replicate (length l) false end
  | DefaultStrategy_FirstPerLanguage => first_per_language ∅ tracks
  | DefaultStrategy_All => replicate (length tracks) true
  end.

(** The default flag of [t] after the actions, in order. *)
Definition default_step (t : Track) (b : bool) (a : PlannedAction) : bool :=
  if bool_decide (PlannedAction_track_index a = Some (Track_index t)) then
    match PlannedAction_operation a with
    | Op_SetDefault => true
    | Op_ClearDefault => false
    | _ => b
    end
  else b.

Definition default_after (actions : list PlannedAction) (t : Track) : bool :=
  foldl (default_step t) (Track_is_default t) actions.

(** At most one action per track, exactly where the flag differs. *)
Definition flag_action (t : Track) (want : bool) (a : list PlannedAction) : Prop :=
  if bool_decide (Track_is_default t = want) then a = []
  else ∃ d, a = [{| PlannedAction_operation := if want then Op_SetDefault else Op_ClearDefault;
                    PlannedAction_track_index := Some (Track_index t);
                    PlannedAction_parameters := AP_Empty;
                    PlannedAction_description := d |}].

Inductive flag_actions : list Track → list bool → list PlannedAction → Prop :=
| flag_actions_nil : flag_actions [] [] []
| flag_actions_cons t w ts ws a acts :
    flag_action t w a → flag_actions ts ws acts → flag_actions (t :: ts) (w :: ws) (a ++ acts).

(** [m] plans flag actions towards [ws]. *)
Definition emits_flags (m : M unit) (ts : list Track) (ws : list bool) : Prop :=
  ∃ acts, flag_actions ts ws acts ∧ emits m acts.

Lemma emits_flags_nil : emits_flags (mret tt) [] [].
Proof. exists []. split; [constructor|apply emits_ret]. Qed.

Lemma emits_flags_cons m1 m2 t w ts ws a :
  flag_action t w a → emits m1 a → emits_flags m2 ts ws →
  emits_flags (m1 ≫= λ _, m2) (t :: ts) (w :: ws).
Proof.
  intros ? ? (acts & ? & ?). exists (a ++ acts). split; [by constructor|by apply emits_bind].
Qed.

Lemma emits_set_if target t d :
  ∃ a, flag_action t true a ∧
       emits (if negb (Track_is_default t) then emit_set_default target t d else mret tt) a.
Proof.
  unfold flag_action. destruct (Track_is_default t); simpl.
  - exists []. split; [done|apply emits_ret].
  - eexists. split; [by eexists|by intros p].
Qed.

Lemma emits_clear_if target t d :
  ∃ a, flag_action t false a ∧
       emits (if Track_is_default t then emit_clear_default target t d else mret tt) a.
Proof.
  unfold flag_action. destruct (Track_is_default t); simpl.
  - eexists. split; [by eexists|by intros p].
  - exists []. split; [done|apply emits_ret].
Qed.

Lemma emits_clear_all target d ts :
  emits_flags (for_each (λ t, if Track_is_default t then emit_clear_default target t d
                              else mret tt) ts) ts (replicate (length ts) false).
Proof.
  induction ts as [|t ts IH]; simpl; [apply emits_flags_nil|].
  destruct (emits_clear_if target t d) as (a & ? & ?). by eapply emits_flags_cons.
Qed.

Lemma emits_set_all target d ts :
  emits_flags (for_each (λ t, if negb (Track_is_default t) then emit_set_default target t d
                              else mret tt) ts) ts (replicate (length ts) true).
Proof.
  induction ts as [|t ts IH]; simpl; [apply emits_flags_nil|].
  destruct (emits_set_if target t d) as (a & ? & ?). by eapply emits_flags_cons.
Qed.

Lemma emits_first_per_language target seen ts :
  emits_flags (emit_defaults_first_per_language_go target seen ts) ts
              (first_per_language seen ts).
Proof.
  revert seen; induction ts as [|t ts IH]; intros seen; simpl; [apply emits_flags_nil|].
  destruct (bool_decide (Track_language t ∈ seen)); simpl.
  - edestruct (emits_clear_if target t) as (a & ? & ?). by eapply emits_flags_cons.
  - edestruct (emits_set_if target t (" (first for lang '" +:+ Track_language t +:+ "')"))
      as (a & ? & ?). eapply emits_flags_cons; [done| |done].
    by destruct (Track_is_default t).
Qed.

(** The actions one [defaults] entry plans, for every strategy. *)
Lemma emit_set_defaults_flags file d :
  emits_flags (emit_set_defaults file [d]) (tracks_for_target file (CompiledDefault_target d))
    (wanted_defaults (CompiledDefault_strategy d)
                     (tracks_for_target file (CompiledDefault_target d))).
Proof.
  destruct d as [target strategy]. simpl.
  set (ts := tracks_for_target file target).
  assert (∀ m ws, emits_flags m ts ws → emits_flags (m ≫= λ _, mret tt) ts ws) as Hret.
  { intros m ws (acts & ? & ?). exists acts. split; [done|].
    rewrite <-(app_nil_r acts). by apply emits_bind, emits_ret. }
  apply Hret. destruct strategy; simpl.
  - apply emits_first_per_language.
  - apply emits_clear_all.
  - unfold emit_defaults_first. fold ts. clear Hret.
    destruct ts as [|t ts]; [apply emits_flags_nil|].
    destruct (emits_set_if target t "") as (a & ? & ?).
    eapply emits_flags_cons; [done..|]. apply emits_clear_all.
  - apply emits_set_all.
Qed.

Lemma flag_action_index t w a x :
  flag_action t w a → x ∈ a → PlannedAction_track_index x = Some (Track_index t).
Proof. unfold flag_action. case_bool_decide; [intros ->; set_solver|]. intros [d ->]. set_solver. Qed.

Lemma flag_actions_index ts ws acts x :
  flag_actions ts ws acts → x ∈ acts →
  ∃ t, t ∈ ts ∧ PlannedAction_track_index x = Some (Track_index t).
Proof.
  induction 1 as [|t w ts ws a acts Ha ? IH]; [by intros ?%elem_of_nil|]. intros [Hx|Hx]%elem_of_app.
  - exists t. split; [by apply elem_of_cons; left|]. by eapply flag_action_index.
  - destruct (IH Hx) as (u & ? & ?). exists u. split; [by apply elem_of_cons; right|done].
Qed.

Lemma default_steps_other t b acts :
  (∀ a, a ∈ acts → PlannedAction_track_index a ≠ Some (Track_index t)) →
  foldl (default_step t) b acts = b.
Proof.
  revert b; induction acts as [|a acts IH]; intros b Hne; simpl; [done|].
  unfold default_step at 2. rewrite bool_decide_false by (apply Hne; set_solver).
  apply IH. set_solver.
Qed.

Lemma flag_action_step t w a : flag_action t w a → default_after a t = w.
Proof.
  unfold flag_action, default_after. case_bool_decide as Hb; [by intros ->|].
  intros [d ->]. simpl. unfold default_step. rewrite bool_decide_true by done. by destruct w.
Qed.

(** Executing flag actions gives every track its wanted flag. *)
Lemma flag_actions_default_after ts ws acts :
  NoDup (Track_index <$> ts) → flag_actions ts ws acts → default_after acts <$> ts = ws.
Proof.
  intros Hnd. induction 1 as [|t w ts ws a acts Ha Hacts IH]; [done|].
  apply NoDup_cons in Hnd as [Hni Hnd]. simpl. f_equal.
  - unfold default_after. rewrite foldl_app. fold (default_after a t).
    rewrite (flag_action_step t w a Ha). apply default_steps_other.
    intros x Hx Heq. eapply flag_actions_index in Hx as (u & Hu & Hux); [|done].
    apply Hni, list_elem_of_fmap. exists u. split; [congruence|done].
  - rewrite <-IH by done. apply list_fmap_ext. intros i u Hu%list_elem_of_lookup_2.
    unfold default_after. rewrite foldl_app. f_equal. apply default_steps_other.
    intros x Hx Heq. rewrite (flag_action_index t w a x) in Heq by done. simplify_eq.
    apply Hni, list_elem_of_fmap. eauto.
Qed.

(** No action is planned for tracks whose flags are already as wanted. *)
Lemma flag_actions_noop ts acts : flag_actions ts (Track_is_default <$> ts) acts → acts = [].
Proof.
  remember (Track_is_default <$> ts) as ws eqn:Hws. intros Hf. revert Hws.
  induction Hf as [|t w ts ws a acts Ha Hacts IH]; intros Hws; [done|].
  simplify_eq/=. rewrite IH by done. unfold flag_action in Ha.
  rewrite bool_decide_true in Ha by done. by rewrite Ha.
Qed.
