(* ===== verification/PhaseFacts.v ===== *)
(** * Safeguards and phases

    Totality of phase evaluation, the invariant of the plans it returns, and
    what the safeguards of [evaluator.rs] guarantee about a plan that is not
    skipped. *)
From S2P Require Import Prelude Json Media Plan Compiled CapabilityMap Condition Evaluator.
From S2P Require Import EmitFacts.

(** ** Safeguards keep the invariant *)
Lemma plan_ok_track_safeguard file p0 p removed fname ty kind label :
  plan_ok file p0 p →
  plan_ok file p0 (apply_safeguard_for_track_type p file removed fname ty kind label).
Proof.
  intros Hp. unfold apply_safeguard_for_track_type. repeat case_match; auto with voom.
Qed.

Lemma plan_ok_container_safeguard file p0 p fname :
  plan_ok file p0 p → plan_ok file p0 (apply_container_safeguard p file fname).
Proof. intros Hp. unfold apply_container_safeguard. repeat case_match; auto with voom. Qed.

#[export] Hint Resolve plan_ok_track_safeguard plan_ok_container_safeguard : voom.

Lemma plan_ok_safeguards `{Unicode} file p0 p :
  plan_ok file p0 p → plan_ok file p0 (apply_safeguards p file).
Proof. intros Hp. unfold apply_safeguards. repeat case_match; auto with voom. Qed.

(** ** The track safeguards *)

(** Some track of the type is left in the file, if there was one. *)
Definition type_protected (file : MediaFile) (ty : TrackType → bool) (actions : list PlannedAction)
    : Prop :=
  (∃ t, t ∈ MediaFile_tracks file ∧ ty (Track_track_type t) = true) →
  ∃ t, t ∈ MediaFile_tracks file ∧ ty (Track_track_type t) = true ∧ survives actions t = true.

(** The removals of [q] are among those of [p]. *)
Definition fewer_removals (q p : list PlannedAction) : Prop :=
  ∀ a, a ∈ q → PlannedAction_operation a = Op_RemoveTrack → a ∈ p.

Lemma survives_fewer q p t : fewer_removals q p → survives p t = true → survives q t = true.
Proof. unfold fewer_removals. rewrite !survives_spec. naive_solver. Qed.

Lemma type_protected_fewer file ty q p :
  fewer_removals q p → type_protected file ty p → type_protected file ty q.
Proof.
  intros Hf Hp He. destruct (Hp He) as (t & ? & ? & ?). exists t.
  split_and!; [done|done|by eapply survives_fewer].
Qed.

Lemma fewer_removals_filter f p : fewer_removals (List.filter f p) p.
Proof. by intros a [Ha _]%filter_elem_of _. Qed.

Lemma track_safeguard_fewer p file removed fname ty kind label :
  fewer_removals
    (Plan_actions (apply_safeguard_for_track_type p file removed fname ty kind label))
    (Plan_actions p).
Proof.
  unfold apply_safeguard_for_track_type. repeat case_match; simpl; try by intros a.
  apply fewer_removals_filter.
Qed.

Lemma container_safeguard_fewer p file fname :
  fewer_removals (Plan_actions (apply_container_safeguard p file fname)) (Plan_actions p).
Proof.
  unfold apply_container_safeguard. repeat case_match; simpl; try by intros a.
  all: apply fewer_removals_filter.
Qed.

(** [removed] may be any superset of the removals of the plan: the second
    safeguard runs with the set computed before the first one. *)
Lemma track_safeguard_protects p file removed fname ty kind label :
  removed_indices (Plan_actions p) ⊆ removed →
  type_protected file ty
    (Plan_actions (apply_safeguard_for_track_type p file removed fname ty kind label)).
Proof.
  intros Hsub (t & Ht & Hty). unfold apply_safeguard_for_track_type.
  destruct (Nat.eqb_spec (length (List.filter (λ t, ty (Track_track_type t))
                                              (MediaFile_tracks file))) 0) as [Hz|_].
  { assert (0 < 0) as ?; [|lia]. rewrite <-Hz at 2. apply length_filter_pos, existsb_elem_of. eauto. }
  case_match eqn:Hs.
  - apply Nat.ltb_lt in Hs. apply length_filter_pos, existsb_elem_of in Hs as (u & Hu & Hok).
    apply andb_prop in Hok as [? Hn]. exists u. split_and!; [done|done|].
    unfold survives. apply negb_true_iff, bool_decide_eq_false in Hn.
    apply negb_true_iff, bool_decide_eq_false. set_solver.
  - exists t. split_and!; [done|done|]. apply survives_spec. simpl.
    intros a [Ha Hf]%filter_elem_of Ho Hi. revert Hf.
    rewrite Ho, Hi, bool_decide_true by done. simpl.
    rewrite (proj2 (existsb_elem_of _ _)); [done|]. exists t.
    by rewrite bool_decide_true, Hty by done.
Qed.

Lemma apply_safeguards_protects `{Unicode} p file :
  Plan_is_skipped p = false →
  type_protected file TrackType_is_video (Plan_actions (apply_safeguards p file)) ∧
  type_protected file TrackType_is_audio (Plan_actions (apply_safeguards p file)).
Proof.
  intros Hs. unfold apply_safeguards. rewrite Hs.
  set (R := removed_indices (Plan_actions p)).
  destruct (bool_decide (R = ∅)) eqn:HR.
  - apply bool_decide_eq_true in HR.
    assert (∀ ty, type_protected file ty (Plan_actions p)) as Hall.
    { intros ty (t & ? & ?). exists t. split_and!; [done|done|].
      unfold survives. fold R. by rewrite HR. }
    split; eapply type_protected_fewer; eauto using container_safeguard_fewer.
  - set (q := apply_safeguard_for_track_type p file R (file_name file) TrackType_is_video
                SafeguardKind_NoVideoTrack "video").
    split; eapply type_protected_fewer; eauto using container_safeguard_fewer.
    + eapply type_protected_fewer; [apply track_safeguard_fewer|].
      by apply track_safeguard_protects.
    + apply track_safeguard_protects. intros i (a & Ha & Ho & Hi)%elem_of_removed_indices.
      apply elem_of_removed_indices. exists a. split; [|done].
      revert Ha Ho. apply track_safeguard_fewer.
Qed.

(** ** The container safeguard *)

(** The planned conversion (the first of the plan) is to a container that is not
    known to reject the codec of any surviving or synthesized track. *)
Definition conversion_safe (file : MediaFile) (actions : list PlannedAction) : Prop :=
  ∀ c, convert_target actions = Some c →
    (∀ t, t ∈ MediaFile_tracks file → survives actions t = true →
          codec_supported c (effective_codec actions t) ≠ Some false) ∧
    (∀ a n l codec x b ch ti po s lo, a ∈ actions → PlannedAction_operation a = Op_SynthesizeAudio →
          PlannedAction_parameters a = AP_Synthesize n l (Some codec) x b ch ti po s lo →
          codec_supported c codec ≠ Some false).

Lemma convert_target_filtered actions :
  convert_target (List.filter
    (λ a, negb (bool_decide (PlannedAction_operation a = Op_ConvertContainer))) actions) = None.
Proof.
  unfold convert_target. induction actions as [|a l IH]; [done|]; simpl.
  destruct (bool_decide (PlannedAction_operation a = Op_ConvertContainer)) eqn:E; simpl; [done|].
  by rewrite E.
Qed.

Lemma omap_nil_elem {A B} (f : A → option B) l x : omap f l = [] → x ∈ l → f x = None.
Proof.
  intros Hn Hx. destruct (f x) as [y|] eqn:Hy; [|done].
  assert (y ∈ omap f l) as Hin by (apply list_elem_of_omap; eauto).
  rewrite Hn in Hin. by apply elem_of_nil in Hin.
Qed.

Lemma container_safeguard_safe p file fname :
  conversion_safe file (Plan_actions (apply_container_safeguard p file fname)).
Proof.
  unfold apply_container_safeguard.
  destruct (convert_target (Plan_actions p)) as [c|] eqn:Hc; [|intros c Hc'; congruence].
  destruct (track_offenders c (Plan_actions p) file ++ synth_offenders c (Plan_actions p))
    eqn:Ho.
  - apply app_eq_nil in Ho as [Ht Hs]. intros c' Hc'. assert (c' = c) as -> by congruence. split.
    + intros t Hin Hsv Hf. unfold track_offenders in Ht.
      apply (omap_nil_elem _ _ t) in Ht; [|done]. revert Ht. simpl.
      unfold survives in Hsv. apply negb_true_iff in Hsv. by rewrite Hsv, Hf.
    + intros a n l codec x b ch ti po s lo Ha Hop Hps Hf. unfold synth_offenders in Hs.
      apply (omap_nil_elem _ _ a) in Hs; [|done]. revert Hs. simpl.
      by rewrite Hop, Hps, bool_decide_true, Hf by done.
  - intros c' Hc'. cbv zeta in Hc'. unfold record_safeguard_plan in Hc'. simpl in Hc'.
    by rewrite convert_target_filtered in Hc'.
Qed.

Lemma apply_safeguards_conversion `{Unicode} p file :
  Plan_is_skipped p = false → conversion_safe file (Plan_actions (apply_safeguards p file)).
Proof.
  intros Hs. unfold apply_safeguards. rewrite Hs. case_match; apply container_safeguard_safe.
Qed.

Lemma apply_safeguards_skip `{Unicode} p file :
  Plan_skip_reason (apply_safeguards p file) = Plan_skip_reason p.
Proof.
  unfold apply_safeguards, apply_container_safeguard, apply_safeguard_for_track_type.
  repeat case_match; done.
Qed.

(** * Phase evaluation

    [evaluate_phase] and the phase loop of [evaluator.rs]: totality, the
    invariant of every returned plan, the meaning of [skip_when], [run_if] and
    [depends_on], and the agreement of the whole-policy and the single-phase
    entry points. *)

Section phase_facts.
Context `{Unicode, HashOrder, JsonDisplay, RegexCrate}.
Implicit Types (file : MediaFile) (policy : CompiledPolicy) (phase : CompiledPhase).
Implicit Types (ctx : EvalContext) (oc : gmap string EvaluationOutcome).

Lemma run_operations_ok on_error file ctx ops p0 p :
  plan_ok file p0 p →
  ∃ p', run_operations on_error file ctx ops p = Ok p' ∧ plan_ok file p0 p'.
Proof.
  revert p; induction ops as [|op ops IH]; intros p Hp; simpl; [by exists p|].
  pose proof (keeps_emit_operation file ctx p0 op p Hp) as Hk.
  destruct (emit_operation file ctx op p) as [[] q|e q|msg]; simpl in Hk; [by apply IH| |done].
  destruct on_error; eauto with voom.
Qed.

(** The plan [evaluate_phase] starts from. *)
Definition base_plan (stamp : Stamp) phase policy file : Plan :=
  Plan_set_policy_hash
    (Plan_new stamp file (CompiledPolicy_name policy) (CompiledPhase_name phase))
    (if bool_decide (CompiledPolicy_source_hash policy = "") then None
     else Some (CompiledPolicy_source_hash policy)).

Lemma plan_ok_base stamp phase policy file :
  plan_ok file (base_plan stamp phase policy file) (base_plan stamp phase policy file).
Proof. by split. Qed.

Lemma evaluate_phase_ok stamp phase policy file oc ctx :
  ∃ p, evaluate_phase stamp phase policy file oc ctx = Ok p ∧
       plan_ok file (base_plan stamp phase policy file) p.
Proof.
  unfold evaluate_phase. fold (base_plan stamp phase policy file).
  pose proof (plan_ok_base stamp phase policy file) as Hb.
  destruct (check_skip_conditions phase file oc ctx); [by eauto with voom|].
  destruct (run_operations_ok (CompiledPhase_on_error phase) file ctx
              (CompiledPhase_operations phase) _ _ Hb) as (p & -> & Hp).
  eexists. split; [done|]. by apply plan_ok_safeguards.
Qed.

Lemma evaluate_phase_plan_ok stamp phase policy file oc ctx p :
  evaluate_phase stamp phase policy file oc ctx = Ok p →
  plan_ok file (base_plan stamp phase policy file) p.
Proof.
  destruct (evaluate_phase_ok stamp phase policy file oc ctx) as (q & -> & Hq).
  by intros [= <-].
Qed.

(** The phase ran: it was not skipped before or during its operations. *)
Lemma evaluate_phase_ran stamp phase policy file oc ctx p :
  evaluate_phase stamp phase policy file oc ctx = Ok p → Plan_is_skipped p = false →
  check_skip_conditions phase file oc ctx = None ∧
  ∃ q, run_operations (CompiledPhase_on_error phase) file ctx (CompiledPhase_operations phase)
         (base_plan stamp phase policy file) = Ok q ∧
       Plan_is_skipped q = false ∧ p = apply_safeguards q file.
Proof.
  unfold evaluate_phase. fold (base_plan stamp phase policy file).
  destruct (check_skip_conditions phase file oc ctx); [by intros [= <-]|].
  destruct (run_operations _ _ _ _ _) as [q|]; simpl; [|done]. intros [= <-] Hs.
  split; [done|]. exists q. split_and!; [done| |done].
  unfold Plan_is_skipped in *. by rewrite apply_safeguards_skip in Hs.
Qed.

Lemma evaluate_phase_protects stamp phase policy file oc ctx p :
  evaluate_phase stamp phase policy file oc ctx = Ok p → Plan_is_skipped p = false →
  type_protected file TrackType_is_video (Plan_actions p) ∧
  type_protected file TrackType_is_audio (Plan_actions p) ∧
  conversion_safe file (Plan_actions p).
Proof.
  intros He Hs. destruct (evaluate_phase_ran _ _ _ _ _ _ _ He Hs) as (_ & q & _ & Hq & ->).
  destruct (apply_safeguards_protects q file Hq). split_and!; [done..|].
  by apply apply_safeguards_conversion.
Qed.

(** ** Skip conditions *)
Lemma missing_dependency_None deps oc :
  missing_dependency deps oc = None ↔ ∀ d, d ∈ deps → is_Some (oc !! d).
Proof.
  unfold missing_dependency. induction deps as [|d deps IH]; simpl; [set_solver|].
  case_bool_decide as Hd.
  - split; [done|]. intros Hall. destruct (Hall d) as [? ?]; [set_solver|congruence].
  - rewrite IH. setoid_rewrite elem_of_cons. split; [|naive_solver].
    intros Hall x [->|?]; [by apply not_eq_None_Some|auto].
Qed.

Lemma check_skip_None phase file oc ctx :
  check_skip_conditions phase file oc ctx = None ↔
  (∀ c, CompiledPhase_skip_when phase = Some c → evaluate_condition c file ctx = false) ∧
  (∀ r, CompiledPhase_run_if phase = Some r → run_if_satisfied r oc = true) ∧
  (∀ d, d ∈ CompiledPhase_depends_on phase → is_Some (oc !! d)).
Proof.
  unfold check_skip_conditions. rewrite <-missing_dependency_None.
  destruct (CompiledPhase_skip_when phase) as [c|];
    [destruct (evaluate_condition c file ctx) eqn:Hc|];
    destruct (CompiledPhase_run_if phase) as [r|];
    try (destruct (run_if_satisfied r oc) eqn:Hr); simpl;
    rewrite ?fmap_None; naive_solver congruence.
Qed.

(** ** The phase loop *)

(** The outcomes recorded after a list of plans. *)
Definition outcomes_after oc (plans : list Plan) : gmap string EvaluationOutcome :=
  foldl (λ m p, <[Plan_phase_name p := plan_outcome p]> m) oc plans.

Definition known_phase policy (name : string) : bool :=
  match find_phase policy name with Some _ => true | None => false end.

Lemma find_phase_Some policy name phase :
  find_phase policy name = Some phase →
  phase ∈ CompiledPolicy_phases policy ∧ CompiledPhase_name phase = name.
Proof. intros [? ?%bool_decide_eq_true]%find_Some_elem_of. done. Qed.

Lemma evaluate_phase_name stamp phase policy file oc ctx p :
  evaluate_phase stamp phase policy file oc ctx = Ok p →
  Plan_phase_name p = CompiledPhase_name phase.
Proof.
  intros He%evaluate_phase_plan_ok. by destruct He as [_ _ (_ & _ & _ & -> & _)].
Qed.

(** Plan [i] is the evaluation of its phase after the plans before it. *)
Definition phase_trace (stamps : nat → Stamp) policy file ctx oc (n : nat) (plans : list Plan)
    : Prop :=
  ∀ i p, plans !! i = Some p →
    ∃ phase, find_phase policy (Plan_phase_name p) = Some phase ∧
      evaluate_phase (stamps (n + i)) phase policy file
        (outcomes_after oc (take i plans)) ctx = Ok p.

Lemma evaluate_phases_trace stamps policy file ctx order oc plans0 :
  ∃ plans, evaluate_phases stamps policy file ctx order oc plans0 = Ok (plans0 ++ plans) ∧
    Plan_phase_name <$> plans = List.filter (known_phase policy) order ∧
    phase_trace stamps policy file ctx oc (length plans0) plans.
Proof.
  revert oc plans0; induction order as [|name order IH]; intros oc plans0; simpl.
  { exists []. rewrite app_nil_r. split_and!; [done|done|]. by intros i p Hi. }
  destruct (find_phase policy name) as [phase|] eqn:Hf.
  2:{ destruct (IH oc plans0) as (plans & ? & ? & ?). exists plans.
      unfold known_phase at 1. by rewrite Hf. }
  destruct (evaluate_phase_ok (stamps (length plans0)) phase policy file oc ctx)
    as (p & Hp & _). rewrite Hp. simpl.
  pose proof (evaluate_phase_name _ _ _ _ _ _ _ Hp) as Hn.
  destruct (find_phase_Some _ _ _ Hf) as [_ Hname].
  destruct (IH (<[name:=plan_outcome p]> oc) (plans0 ++ [p])) as (plans & He & Hm & Ht).
  exists (p :: plans). rewrite He, <-(assoc_L (++)). simpl. unfold known_phase at 1. rewrite Hf.
  split_and!; [done|by rewrite <-Hm, Hn, Hname|]. intros [|i] q Hi; simplify_eq/=.
  - rewrite Nat.add_0_r. exists phase. rewrite Hn. done.
  - destruct (Ht i q Hi) as (ph & ? & Hq). exists ph. split; [done|].
    rewrite length_app in Hq. simpl in Hq. rewrite Hn.
    replace (length plans0 + S i) with (length plans0 + 1 + i) by lia. done.
Qed.

(** The whole evaluation: plan [i] is the evaluation of its phase after the
    plans before it. *)
Definition evaluation_trace (stamps : nat → Stamp) policy file ctx (plans : list Plan) : Prop :=
  ∀ i p, plans !! i = Some p →
    ∃ phase, find_phase policy (Plan_phase_name p) = Some phase ∧
      evaluate_phase (stamps i) phase policy file (outcomes_after ∅ (take i plans)) ctx = Ok p.

Lemma evaluate_with_phase_outputs_trace stamps policy file caps lookup :
  ∃ r, evaluate_with_phase_outputs stamps policy file caps lookup = Ok r ∧
    Plan_phase_name <$> EvaluationResult_plans r =
      List.filter (known_phase policy) (CompiledPolicy_phase_order policy) ∧
    evaluation_trace stamps policy file
      {| EvalContext_capabilities := caps; EvalContext_phase_output_lookup := lookup |}
      (EvaluationResult_plans r).
Proof.
  unfold evaluate_with_phase_outputs. set (ctx := {| EvalContext_capabilities := caps;
    EvalContext_phase_output_lookup := lookup |}).
  destruct (evaluate_phases_trace stamps policy file ctx
              (CompiledPolicy_phase_order policy) ∅ []) as (plans & -> & Hn & Ht).
  by eexists.
Qed.

Lemma evaluate_Ok_trace stamps policy file caps lookup r :
  evaluate_with_phase_outputs stamps policy file caps lookup = Ok r →
  Plan_phase_name <$> EvaluationResult_plans r =
    List.filter (known_phase policy) (CompiledPolicy_phase_order policy) ∧
  evaluation_trace stamps policy file
    {| EvalContext_capabilities := caps; EvalContext_phase_output_lookup := lookup |}
    (EvaluationResult_plans r).
Proof.
  destruct (evaluate_with_phase_outputs_trace stamps policy file caps lookup) as (q & -> & Hq).
  by intros [= <-].
Qed.

Lemma evaluation_trace_elem stamps policy file ctx plans p :
  evaluation_trace stamps policy file ctx plans → p ∈ plans →
  ∃ stamp phase oc, find_phase policy (Plan_phase_name p) = Some phase ∧
    evaluate_phase stamp phase policy file oc ctx = Ok p.
Proof. intros Ht [i Hi]%list_elem_of_lookup. destruct (Ht i p Hi) as (phase & ? & ?). eauto. Qed.

Lemma outcomes_after_lookup oc plans name :
  outcomes_after oc plans !! name =
  match List.find (λ p, bool_decide (Plan_phase_name p = name)) (rev plans) with
  | Some p => Some (plan_outcome p)
  | None => oc !! name
  end.
Proof.
  induction plans as [|p plans IH] using rev_ind; [done|].
  unfold outcomes_after in *. rewrite foldl_app, rev_app_distr. simpl.
  case_bool_decide as Hn; [subst; by rewrite lookup_insert_eq|].
  by rewrite lookup_insert_ne.
Qed.

Lemma outcomes_after_is_Some plans name :
  is_Some (outcomes_after ∅ plans !! name) ↔ name ∈ Plan_phase_name <$> plans.
Proof.
  rewrite outcomes_after_lookup, list_elem_of_fmap.
  destruct (List.find _ (rev plans)) as [p|] eqn:Hfind.
  - apply find_Some_elem_of in Hfind as [Hin <-%bool_decide_eq_true].
    split; [|by eauto]. intros _. exists p. split; [done|].
    by apply list_elem_of_In, in_rev, list_elem_of_In.
  - rewrite lookup_empty. split; [by intros []|]. intros (p & -> & Hin).
    eapply find_none in Hfind; [by apply bool_decide_eq_false in Hfind|].
    rewrite <-in_rev. by apply list_elem_of_In.
Qed.

(** [depends_on] edges point to known phases that come earlier. *)
Definition deps_first policy (order : list string) : Prop :=
  ∀ pre name post phase, order = pre ++ name :: post → find_phase policy name = Some phase →
    ∀ d, d ∈ CompiledPhase_depends_on phase → d ∈ pre ∧ known_phase policy d = true.

Lemma deps_first_no_missing policy order plans i p phase :
  deps_first policy order →
  Plan_phase_name <$> plans = List.filter (known_phase policy) order →
  plans !! i = Some p → find_phase policy (Plan_phase_name p) = Some phase →
  missing_dependency (CompiledPhase_depends_on phase) (outcomes_after ∅ (take i plans)) = None.
Proof.
  intros Hd Hn Hi Hf. apply missing_dependency_None. intros d Hdep.
  apply outcomes_after_is_Some. rewrite fmap_take, Hn.
  assert (List.filter (known_phase policy) order !! i = Some (Plan_phase_name p)) as Hl.
  { by rewrite <-Hn, list_lookup_fmap, Hi. }
  apply filter_lookup_split in Hl as (pre & post & -> & <-).
  destruct (Hd pre _ post phase eq_refl Hf d Hdep). by apply filter_elem_of.
Qed.
End phase_facts.
