(* ===== verification/Codecs.v ===== *)
(** * Codec and language names

    [crates/voom-domain/src/utils/codecs.rs]: alias tables, normalization and
    the fuzzy suggestions; and [utils/language.rs]: the tables of language codes and
    names. The tables are hash maps filled by insertions; the [for] loops over them
    go through [hash_iter]. *)
From S2P Require Import Prelude.

(** [HashMap::new()] followed by insertions, in order *)
Definition codec_table (l : list (string * string)) : gmap string string :=
  foldl (λ m kv, <[kv.1 := kv.2]> m) ∅ l.

Definition VIDEO_CODECS : gmap string string := codec_table
  [("h264", "h264"); ("avc", "h264"); ("avc1", "h264"); ("x264", "h264");
   ("h265", "hevc"); ("hevc", "hevc"); ("x265", "hevc"); ("hev1", "hevc");
   ("av1", "av1"); ("av01", "av1"); ("vp9", "vp9"); ("vp09", "vp9"); ("vp8", "vp8");
   ("mpeg2", "mpeg2video"); ("mpeg2video", "mpeg2video"); ("m2v", "mpeg2video");
   ("vc1", "vc1"); ("vc-1", "vc1"); ("wmv3", "vc1")].

Definition AUDIO_CODECS : gmap string string := codec_table
  [("aac", "aac"); ("aac-lc", "aac"); ("mp4a", "aac");
   ("ac3", "ac3"); ("ac-3", "ac3"); ("a_ac3", "ac3");
   ("eac3", "eac3"); ("e-ac-3", "eac3"); ("a_eac3", "eac3");
   ("truehd", "truehd"); ("mlp", "truehd"); ("a_truehd", "truehd");
   ("dts", "dts"); ("a_dts", "dts");
   ("dts_hd", "dts_hd_ma"); ("dts-hd", "dts_hd_ma"); ("dts-hd ma", "dts_hd_ma");
   ("dts_hd_ma", "dts_hd_ma");
   ("flac", "flac"); ("a_flac", "flac"); ("opus", "opus"); ("a_opus", "opus");
   ("vorbis", "vorbis"); ("a_vorbis", "vorbis"); ("mp3", "mp3"); ("mp2", "mp2");
   ("pcm", "pcm"); ("pcm_s16le", "pcm"); ("pcm_s24le", "pcm")].

Definition SUBTITLE_CODECS : gmap string string := codec_table
  [("srt", "subrip"); ("subrip", "subrip"); ("s_text/utf8", "subrip");
   ("ass", "ass"); ("ssa", "ass"); ("s_text/ass", "ass");
   ("pgs", "hdmv_pgs_subtitle"); ("hdmv_pgs_subtitle", "hdmv_pgs_subtitle");
   ("s_hdmv/pgs", "hdmv_pgs_subtitle");
   ("vobsub", "dvd_subtitle"); ("dvd_subtitle", "dvd_subtitle"); ("s_vobsub", "dvd_subtitle");
   ("dvb_subtitle", "dvb_subtitle"); ("webvtt", "webvtt")].

Definition normalize_codec (name : string) : option string :=
  let lower := to_ascii_lowercase name in
  match VIDEO_CODECS !! lower with
  | Some c => Some c
  | None =>
      match AUDIO_CODECS !! lower with
      | Some c => Some c
      | None => SUBTITLE_CODECS !! lower
      end
  end.

(** [normalize_codec(c).map_or_else(|| c.clone(), ToString::to_string)] *)
Definition canonical_codec (c : string) : string := default c (normalize_codec c).

Inductive CodecType : Type :=
| CodecType_Video
| CodecType_Audio
| CodecType_Subtitle.

Definition codec_type (name : string) : option CodecType :=
  let lower := to_ascii_lowercase name in
  match VIDEO_CODECS !! lower, AUDIO_CODECS !! lower, SUBTITLE_CODECS !! lower with
  | Some _, _, _ => Some CodecType_Video
  | None, Some _, _ => Some CodecType_Audio
  | None, None, Some _ => Some CodecType_Subtitle
  | None, None, None => None
  end.

(** ** Edit distance

    The two-row dynamic program: [prev] and [curr] are vectors of length
    [n + 1], indexed as in the code ([!!!] is an index that is always in
    range). *)
Definition edit_cell (a b : list ascii) (prev : list nat) (i : nat) (curr : list nat) (j : nat)
    : list nat :=
  let cost := if bool_decide (a !! (i - 1) = b !! (j - 1)) then 0 else 1 in
  <[j := Nat.min (Nat.min (prev !!! j + 1) (curr !!! (j - 1) + 1)) (prev !!! (j - 1) + cost)]> curr.

(** One outer iteration: the rows are swapped at its end. *)
Definition edit_row (a b : list ascii) (rows : list nat * list nat) (i : nat)
    : list nat * list nat :=
  let '(prev, curr) := rows in
  let curr := <[0 := i]> curr in
  let curr := foldl (edit_cell a b prev i) curr (seq 1 (length b)) in
  (curr, prev).

Definition edit_distance (s t : string) : nat :=
  let a := String.list_ascii_of_string s in
  let b := String.list_ascii_of_string t in
  let '(prev, _) :=
    foldl (edit_row a b) (seq 0 (length b + 1), replicate (length b + 1) 0) (seq 1 (length a)) in
  prev !!! length b.

Section suggest.
Context `{HashOrder}.

Definition push_new (names : list string) (v : string) : list string :=
  if bool_decide (v ∈ names) then names else names ++ [v].

Definition ALL_CODEC_NAMES : list string :=
  let values (m : gmap string string) := (hash_iter m).*2 in
  merge_sort String.le
    (foldl push_new (foldl push_new (foldl push_new [] (values VIDEO_CODECS))
                           (values AUDIO_CODECS)) (values SUBTITLE_CODECS)).

(** One candidate: its canonical name and the alias compared against. *)
Definition suggest_step (lower : string) (best : option (string * nat))
    (candidate : string * string) : option (string * nat) :=
  let '(alias, canonical) := candidate in
  let dist := edit_distance lower alias in
  if (dist <=? 3)%nat &&
     match best with None => true | Some b => (dist <? b.2)%nat end
  then Some (canonical, dist) else best.

Definition suggest_codec (name : string) : option string :=
  let lower := to_ascii_lowercase name in
  let candidates :=
    ((λ c, (c, c)) <$> ALL_CODEC_NAMES) ++
    (hash_iter VIDEO_CODECS ++ hash_iter AUDIO_CODECS ++ hash_iter SUBTITLE_CODECS) in
  fst <$> foldl (suggest_step lower) None candidates.
End suggest.

(** * Correctness of codec normalization and of the edit distance *)

(** ** Edit scripts *)

(** [edits a b k]: [k] insertions, deletions and substitutions turn [a] into
    [b]. *)
Inductive edits {A : Type} : list A → list A → nat → Prop :=
| edits_nil : edits [] [] 0
| edits_keep x a b k : edits a b k → edits (x :: a) (x :: b) k
| edits_subst x y a b k : edits a b k → edits (x :: a) (y :: b) (S k)
| edits_ins y a b k : edits a b k → edits a (y :: b) (S k)
| edits_del x a b k : edits a b k → edits (x :: a) b (S k).

#[export] Hint Constructors edits : voom.

Section edits.
Context {A : Type}.
Implicit Types a b c d : list A.

Lemma edits_app a b c d k l : edits a b k → edits c d l → edits (a ++ c) (b ++ d) (k + l).
Proof. induction 1; simpl; auto with voom. Qed.

Lemma edits_rev a b k : edits a b k → edits (rev a) (rev b) k.
Proof.
  induction 1 as [|x a b k _ IH|x y a b k _ IH|y a b k _ IH|x a b k _ IH]; simpl.
  - constructor.
  - rewrite <-(Nat.add_0_r k). apply edits_app; auto with voom.
  - rewrite <-(Nat.add_1_r k). apply edits_app; auto with voom.
  - rewrite <-(Nat.add_1_r k), <-(app_nil_r (rev a)). apply edits_app; auto with voom.
  - rewrite <-(Nat.add_1_r k), <-(app_nil_r (rev b)). apply edits_app; auto with voom.
Qed.

Lemma edits_sym a b k : edits a b k → edits b a k.
Proof. induction 1; auto with voom. Qed.

Lemma edits_refl a : edits a a 0.
Proof. induction a; auto with voom. Qed.

Lemma edits_0 a b k : edits a b k → k = 0 → a = b.
Proof. induction 1; intros Hk; try done. f_equal; auto. Qed.

Lemma edits_ins_all b : edits [] b (length b).
Proof. induction b; simpl; auto with voom. Qed.

Lemma edits_length a b k : edits a b k → length a ≤ length b + k ∧ length b ≤ length a + k.
Proof. induction 1; simpl in *; lia. Qed.
End edits.

(** ** The recursive distance *)
Section lev.
Context {A : Type} `{!EqDecision A}.
Implicit Types a b : list A.

Fixpoint lev a : list A → nat :=
  match a with
  | [] => length
  | x :: a' =>
      fix go b :=
        match b with
        | [] => S (length a')
        | y :: b' =>
            Nat.min (Nat.min (lev a' b + 1) (go b' + 1))
                    (lev a' b' + (if bool_decide (x = y) then 0 else 1))
        end
  end.

Lemma lev_nil_r a : lev a [] = length a.
Proof. by destruct a. Qed.

Lemma lev_cons x y a b :
  lev (x :: a) (y :: b) =
  Nat.min (Nat.min (lev a (y :: b) + 1) (lev (x :: a) b + 1))
          (lev a b + (if bool_decide (x = y) then 0 else 1)).
Proof. done. Qed.

Lemma lev_edits a b : edits a b (lev a b).
Proof.
  revert b; induction a as [|x a IHa]; intros b; [apply edits_ins_all|].
  induction b as [|y b IHb].
  { rewrite lev_nil_r. apply edits_sym, edits_ins_all. }
  rewrite lev_cons.
  destruct (Nat.min_dec (Nat.min (lev a (y :: b) + 1) (lev (x :: a) b + 1))
              (lev a b + (if bool_decide (x = y) then 0 else 1))) as [-> | ->].
  - destruct (Nat.min_dec (lev a (y :: b) + 1) (lev (x :: a) b + 1)) as [-> | ->];
      rewrite Nat.add_1_r; [by apply edits_del|by apply edits_ins].
  - case_bool_decide; subst; [rewrite Nat.add_0_r; by apply edits_keep|rewrite Nat.add_1_r; by apply edits_subst].
Qed.

Lemma lev_minimal a b k : edits a b k → lev a b ≤ k.
Proof.
  induction 1 as [|x a b k _ IH|x y a b k _ IH|y a b k _ IH|x a b k _ IH].
  - done.
  - rewrite lev_cons, bool_decide_true by done. lia.
  - rewrite lev_cons. case_bool_decide; lia.
  - destruct a; [simpl in *; lia|rewrite lev_cons; lia].
  - destruct b; [rewrite lev_nil_r in *; simpl; lia|rewrite lev_cons; lia].
Qed.

Lemma lev_unique a b k :
  edits a b k → (∀ l, edits a b l → k ≤ l) → lev a b = k.
Proof. intros Hk Hmin. pose proof (lev_minimal _ _ _ Hk). pose proof (Hmin _ (lev_edits a b)). lia. Qed.

Lemma lev_rev a b : lev (rev a) (rev b) = lev a b.
Proof.
  apply lev_unique; [apply edits_rev, lev_edits|]. intros l Hl. apply lev_minimal.
  rewrite <-(rev_involutive a), <-(rev_involutive b). by apply edits_rev.
Qed.

(** Distance of two prefixes, from their last elements. *)
Lemma lev_prefix a b i j x y :
  a !! i = Some x → b !! j = Some y →
  lev (rev (take (S i) a)) (rev (take (S j) b)) =
  Nat.min (Nat.min (lev (rev (take i a)) (rev (take (S j) b)) + 1)
                   (lev (rev (take (S i) a)) (rev (take j b)) + 1))
          (lev (rev (take i a)) (rev (take j b)) + (if bool_decide (x = y) then 0 else 1)).
Proof.
  intros Hx Hy. rewrite (take_S_r a i x Hx), (take_S_r b j y Hy), !rev_app_distr. done.
Qed.
End lev.

(** ** The dynamic program

    [cell a b i j] is the distance of the prefixes of lengths [i] and [j]. *)
Section cells.
Context {A : Type} `{!EqDecision A} (a b : list A).

Definition cell (i j : nat) : nat := lev (rev (take i a)) (rev (take j b)).

Definition row_ok (i m : nat) (row : list nat) : Prop :=
  length row = length b + 1 ∧ ∀ j, j ≤ m → row !!! j = cell i j.

Lemma cell_0_l j : j ≤ length b → cell 0 j = j.
Proof. intros. unfold cell. simpl. rewrite length_rev, length_take. lia. Qed.

Lemma cell_0_r i : i ≤ length a → cell i 0 = i.
Proof. intros. unfold cell. simpl. rewrite lev_nil_r, length_rev, length_take. lia. Qed.

End cells.

Section dp.
Context (a b : list ascii).

Lemma edit_cell_ok i j prev curr :
  i < length a → j < length b → row_ok a b i (length b) prev → row_ok a b (S i) j curr →
  row_ok a b (S i) (S j) (edit_cell a b prev (S i) curr (S j)).
Proof.
  intros Hi Hj [Hlp Hp] [Hlc Hc]. unfold edit_cell.
  destruct (lookup_lt_is_Some_2 a i Hi) as [x Hx], (lookup_lt_is_Some_2 b j Hj) as [y Hy].
  split; [by rewrite length_insert|]. intros k Hk.
  destruct (decide (k = S j)) as [->|Hne].
  - rewrite list_lookup_total_insert_eq by lia. simpl.
    rewrite !Nat.sub_0_r, !Hp, Hc, Hx, Hy by lia. unfold cell.
    rewrite (lev_prefix a b i j x y) by done.
    by rewrite (bool_decide_ext (Some x = Some y) (x = y)) by naive_solver.
  - rewrite list_lookup_total_insert_ne by done. apply Hc. lia.
Qed.

Lemma edit_cells_ok i prev m k curr :
  i < length a → m + k = length b → row_ok a b i (length b) prev → row_ok a b (S i) m curr →
  row_ok a b (S i) (length b) (foldl (edit_cell a b prev (S i)) curr (seq (S m) k)).
Proof.
  intros Hi. revert m curr; induction k as [|k IH]; intros m curr Hm Hp Hc; simpl.
  - by replace (length b) with m by lia.
  - apply IH; [lia|done|]. apply edit_cell_ok; [done|lia|done|done].
Qed.

Lemma edit_row_ok i prev curr :
  i < length a → row_ok a b i (length b) prev → length curr = length b + 1 →
  row_ok a b (S i) (length b) (edit_row a b (prev, curr) (S i)).1 ∧
  length (edit_row a b (prev, curr) (S i)).2 = length b + 1.
Proof.
  intros Hi Hp Hl. unfold edit_row. simpl. split; [|apply Hp].
  apply edit_cells_ok; [done|lia|done|]. split; [by rewrite length_insert|].
  intros j Hj. replace j with 0 by lia. rewrite list_lookup_total_insert_eq by lia.
  by rewrite cell_0_r by lia.
Qed.

Lemma edit_rows_ok k i rows :
  i + k = length a → row_ok a b i (length b) rows.1 → length rows.2 = length b + 1 →
  row_ok a b (length a) (length b) (foldl (edit_row a b) rows (seq (S i) k)).1.
Proof.
  revert i rows; induction k as [|k IH]; intros i [prev curr] Hik Hp Hl; simpl in *.
  - by replace (length a) with i by lia.
  - destruct (edit_row_ok i prev curr) as [H1 H2]; [lia|done|done|].
    apply IH; [lia|done|done].
Qed.
End dp.

Lemma edit_distance_lev s t :
  edit_distance s t = lev (String.list_ascii_of_string s) (String.list_ascii_of_string t).
Proof.
  unfold edit_distance. set (a := String.list_ascii_of_string s).
  set (b := String.list_ascii_of_string t).
  pose proof (edit_rows_ok a b (length a) 0
    (seq 0 (length b + 1), replicate (length b + 1) 0)) as Hrows.
  destruct (foldl _ _ _) as [prev curr]. simpl in Hrows.
  destruct Hrows as [_ Hp]; [done| |apply length_replicate|].
  - split; [by rewrite length_seq|]. intros j Hj. rewrite cell_0_l by done.
    apply list_lookup_total_correct. apply lookup_seq. lia.
  - rewrite Hp by done. unfold cell. rewrite !take_ge by done. apply lev_rev.
Qed.

(** ** Normalization *)

(** A property of all entries of a table, checked by evaluation. *)
Lemma codec_table_check (m : gmap string string) (f : string → string → bool) k c :
  forallb (λ kv, f kv.1 kv.2) (map_to_list m) = true → m !! k = Some c → f k c = true.
Proof.
  intros Hall Hk. apply elem_of_map_to_list in Hk.
  rewrite forallb_elem_of in Hall. apply (Hall _ Hk).
Qed.

#[export] Instance CodecType_eq_dec : EqDecision CodecType.
Proof. solve_decision. Defined.

(** The canonical name of every entry is a fixed point with the same type. *)
Definition entry_canonical (ty : CodecType) (k c : string) : bool :=
  bool_decide (normalize_codec c = Some c) && bool_decide (codec_type c = Some ty) &&
  bool_decide (codec_type k = Some ty).

Lemma normalize_codec_entry name c :
  normalize_codec name = Some c →
  ∃ ty, entry_canonical ty (to_ascii_lowercase name) c = true.
Proof.
  unfold normalize_codec. set (k := to_ascii_lowercase name).
  destruct (VIDEO_CODECS !! k) as [v|] eqn:Hv; [intros [= <-]; exists CodecType_Video|].
  { revert Hv. apply codec_table_check. by vm_compute. }
  destruct (AUDIO_CODECS !! k) as [v|] eqn:Ha; [intros [= <-]; exists CodecType_Audio|].
  { revert Ha. apply codec_table_check. by vm_compute. }
  intros Hs. exists CodecType_Subtitle. revert Hs. apply codec_table_check. by vm_compute.
Qed.

Lemma to_ascii_lowercase_idemp s : to_ascii_lowercase (to_ascii_lowercase s) = to_ascii_lowercase s.
Proof.
  induction s as [|c s IH]; simpl; [done|]. rewrite IH. f_equal.
  clear IH s. unfold ascii_lower.
  destruct (bool_decide (65 ≤ nat_of_ascii c ∧ nat_of_ascii c ≤ 90)) eqn:Hc; [|by rewrite Hc].
  apply bool_decide_eq_true in Hc. rewrite nat_ascii_embedding by lia.
  by rewrite bool_decide_false by lia.
Qed.

Lemma codec_type_lower name : codec_type (to_ascii_lowercase name) = codec_type name.
Proof. unfold codec_type. by rewrite to_ascii_lowercase_idemp. Qed.

Lemma normalize_codec_lower name : normalize_codec (to_ascii_lowercase name) = normalize_codec name.
Proof. unfold normalize_codec. by rewrite to_ascii_lowercase_idemp. Qed.

Lemma normalize_codec_type name c :
  normalize_codec name = Some c →
  normalize_codec c = Some c ∧ codec_type c = codec_type name ∧ is_Some (codec_type name).
Proof.
  intros Hc. apply normalize_codec_entry in Hc as [ty Hok].
  unfold entry_canonical in Hok. apply andb_prop in Hok as [Hok Hk].
  apply andb_prop in Hok as [Hn Ht]. rewrite codec_type_lower in Hk.
  apply bool_decide_eq_true in Hk, Hn, Ht. split_and!; [done|congruence|by eexists].
Qed.

(** ** Suggestions *)
Section suggest_facts.
Context `{HashOrder}.

Lemma suggest_step_cases lower best alias c :
  let d := edit_distance lower alias in
  (suggest_step lower best (alias, c) = best ∧
   (3 < d ∨ ∃ b, best = Some b ∧ b.2 ≤ d)) ∨
  (suggest_step lower best (alias, c) = Some (c, d) ∧ d ≤ 3 ∧ ∀ b, best = Some b → d < b.2).
Proof.
  unfold suggest_step. simpl. destruct (Nat.leb_spec (edit_distance lower alias) 3); simpl; [|auto].
  destruct best as [[bc bd]|]; simpl; [|right; by split_and!].
  destruct (Nat.ltb_spec (edit_distance lower alias) bd); simpl; [right|left; eauto].
  split_and!; [done|done|]. by intros b [= <-].
Qed.

(** The fold selects a candidate of smallest distance not above 3. *)
Definition best_candidate (lower : string) (cands : list (string * string))
    (best : option (string * nat)) (r : option (string * nat)) : Prop :=
  match r with
  | Some (c, d) =>
      (best = Some (c, d) ∨
       (d ≤ 3 ∧ ∃ alias, (alias, c) ∈ cands ∧ edit_distance lower alias = d)) ∧
      (∀ alias c', (alias, c') ∈ cands →
         d ≤ edit_distance lower alias ∨ 3 < edit_distance lower alias) ∧
      (∀ b, best = Some b → d ≤ b.2)
  | None => best = None ∧ ∀ alias c, (alias, c) ∈ cands → 3 < edit_distance lower alias
  end.

Lemma suggest_fold_spec lower cands best :
  best_candidate lower cands best (foldl (suggest_step lower) best cands).
Proof.
  revert best; induction cands as [|[alias c] cands IH]; intros best; cbn [foldl].
  { destruct best as [[c d]|]; simpl; [|set_solver].
    split_and!; [by left|set_solver|]. by intros b [= <-]. }
  specialize (IH (suggest_step lower best (alias, c))). revert IH.
  set (r := foldl (suggest_step lower) (suggest_step lower best (alias, c)) cands).
  clearbody r. assert (∀ x, x ∈ cands → x ∈ (alias, c) :: cands) as Hc by (by right).
  destruct (suggest_step_cases lower best alias c) as [[-> Hd]|(-> & Hd & Hb)];
    destruct r as [[c0 d0]|]; unfold best_candidate.
  - intros (Hin & Hmin & Hbest). split; [|split; [|done]].
    + destruct Hin as [?|(?&a'&?&?)]; [by left|right; eauto].
    + intros a' c' [[= -> ->]|?]%elem_of_cons; [|eauto].
      destruct Hd as [?|(b & Hb & ?)]; [by right|]. left. specialize (Hbest b Hb). lia.
  - intros [-> Hall]. split; [done|]. intros a' c' [[= -> ->]|?]%elem_of_cons; [|eauto].
    by destruct Hd as [?|(b & ? & ?)].
  - intros (Hin & Hmin & Hbest). specialize (Hbest _ eq_refl). simpl in Hbest.
    split; [|split].
    + right. destruct Hin as [[= <- <-]|(?&a'&?&?)]; [|by eauto].
      split; [done|]. exists alias. split; [by left|done].
    + intros a' c' [[= -> ->]|?]%elem_of_cons; [by left|eauto].
    + intros b Hbb. specialize (Hb b Hbb). lia.
  - by intros [? _].
Qed.
End suggest_facts.

(** * Language codes

    [crates/voom-domain/src/utils/language.rs]: the tables of ISO 639 codes and
    display names and the look-ups through them. The tables are hash maps filled
    by insertions; the reverse table of names is collected in the iteration
    order of the table of display names. *)

Definition LANGUAGE_CODES : gmap string string := codec_table
  [("en", "eng"); ("eng", "eng"); ("fr", "fre"); ("fra", "fre"); ("fre", "fre");
   ("de", "ger"); ("deu", "ger"); ("ger", "ger"); ("es", "spa"); ("spa", "spa");
   ("it", "ita"); ("ita", "ita"); ("pt", "por"); ("por", "por"); ("ru", "rus");
   ("rus", "rus"); ("ja", "jpn"); ("jpn", "jpn"); ("zh", "chi"); ("zho", "chi");
   ("chi", "chi"); ("ko", "kor"); ("kor", "kor"); ("ar", "ara"); ("ara", "ara");
   ("hi", "hin"); ("hin", "hin"); ("nl", "dut"); ("nld", "dut"); ("dut", "dut");
   ("sv", "swe"); ("swe", "swe"); ("no", "nor"); ("nor", "nor"); ("da", "dan");
   ("dan", "dan"); ("fi", "fin"); ("fin", "fin"); ("pl", "pol"); ("pol", "pol");
   ("cs", "cze"); ("ces", "cze"); ("cze", "cze"); ("hu", "hun"); ("hun", "hun");
   ("ro", "rum"); ("ron", "rum"); ("rum", "rum"); ("el", "gre"); ("ell", "gre");
   ("gre", "gre"); ("tr", "tur"); ("tur", "tur"); ("he", "heb"); ("heb", "heb");
   ("th", "tha"); ("tha", "tha"); ("vi", "vie"); ("vie", "vie"); ("uk", "ukr");
   ("ukr", "ukr"); ("und", "und"); ("zxx", "zxx"); ("mul", "mul")].

Definition LANGUAGE_NAMES : gmap string string := codec_table
  [("eng", "English"); ("fre", "French"); ("ger", "German"); ("spa", "Spanish");
   ("ita", "Italian"); ("por", "Portuguese"); ("rus", "Russian"); ("jpn", "Japanese");
   ("chi", "Chinese"); ("kor", "Korean"); ("ara", "Arabic"); ("hin", "Hindi");
   ("dut", "Dutch"); ("swe", "Swedish"); ("nor", "Norwegian"); ("dan", "Danish");
   ("fin", "Finnish"); ("pol", "Polish"); ("cze", "Czech"); ("hun", "Hungarian");
   ("rum", "Romanian"); ("gre", "Greek"); ("tur", "Turkish"); ("heb", "Hebrew");
   ("tha", "Thai"); ("vie", "Vietnamese"); ("ukr", "Ukrainian"); ("und", "Undetermined");
   ("zxx", "No linguistic content"); ("mul", "Multiple languages")].

Definition normalize_language (code : string) : option string :=
  LANGUAGE_CODES !! to_ascii_lowercase code.

Definition from_iso639_1 (code : string) : option string :=
  let lower := to_ascii_lowercase code in
  if (String.length lower =? 2)%nat then LANGUAGE_CODES !! lower else None.

Definition is_valid_language (code : string) : bool :=
  bool_decide (is_Some (LANGUAGE_CODES !! to_ascii_lowercase code)).

Definition language_name (code : string) : option string :=
  canonical ← normalize_language code; LANGUAGE_NAMES !! canonical.

#[global] Arguments normalize_language _ : simpl never.
#[global] Arguments is_valid_language _ : simpl never.

Section names.
Context `{Unicode, HashOrder}.

(** [iter().map(..).collect()]: later entries replace earlier ones. *)
Definition NAME_TO_CODE : gmap string string :=
  codec_table ((λ kv, (to_lowercase kv.2, kv.1)) <$> hash_iter LANGUAGE_NAMES).

Definition language_code_from_name (name : string) : option string :=
  NAME_TO_CODE !! to_lowercase name.

Definition all_language_codes : list string :=
  merge_sort String.le (hash_iter LANGUAGE_NAMES).*1.
End names.

(** ** Properties *)

Lemma codec_table_app l k :
  codec_table (l ++ k) = foldl (λ m kv, <[kv.1 := kv.2]> m) (codec_table l) k.
Proof. unfold codec_table. by rewrite foldl_app. Qed.

Lemma foldl_insert_lookup_ne (l : list (string * string)) (m : gmap string string) k :
  k ∉ l.*1 → foldl (λ m kv, <[kv.1 := kv.2]> m) m l !! k = m !! k.
Proof.
  revert m; induction l as [|[a b] l IH]; intros m Hk; simpl in *; [done|].
  rewrite IH by set_solver. rewrite lookup_insert_ne by set_solver. done.
Qed.

(** A table without repeated keys holds exactly its entries. *)
Lemma codec_table_lookup l k v :
  NoDup l.*1 → (k, v) ∈ l → codec_table l !! k = Some v.
Proof.
  intros Hnd (pre & post & ->)%list_elem_of_split.
  rewrite codec_table_app. simpl. rewrite fmap_app in Hnd. simpl in Hnd.
  apply NoDup_app in Hnd as (_ & _ & Hpost). apply NoDup_cons in Hpost as [Hpost _].
  rewrite foldl_insert_lookup_ne by done. by rewrite lookup_insert_eq.
Qed.

Lemma codec_table_elem l k v : codec_table l !! k = Some v → (k, v) ∈ l.
Proof.
  unfold codec_table. assert (∀ m : gmap string string, foldl (λ m kv, <[kv.1 := kv.2]> m) m l !! k = Some v →
    (k, v) ∈ l ∨ m !! k = Some v) as Hg.
  { induction l as [|[a b] l IH]; intros m; simpl; [by right|]. intros [Hl|Hm]%IH; [set_solver|].
    apply lookup_insert_Some in Hm as [[-> ->]|[_ ?]]; [|by right]. left. by left. }
  intros Hl. apply Hg in Hl as [?|Hl]; [done|]. by rewrite lookup_empty in Hl.
Qed.

(** The entries of the tables, checked by evaluation. *)
Definition language_entry_ok (k c : string) : bool :=
  bool_decide (LANGUAGE_CODES !! c = Some c) && bool_decide (is_Some (LANGUAGE_NAMES !! c)) &&
  bool_decide (String.length c = 3) && bool_decide (String.length k = 2 ∨ String.length k = 3).

Lemma language_codes_ok k c : LANGUAGE_CODES !! k = Some c → language_entry_ok k c = true.
Proof.
  intros Hk. apply elem_of_map_to_list in Hk. revert k c Hk.
  assert (forallb (λ kv, language_entry_ok kv.1 kv.2) (map_to_list LANGUAGE_CODES) = true) as Hall
    by (by vm_compute).
  rewrite forallb_elem_of in Hall. intros k c Hk. apply (Hall _ Hk).
Qed.

Lemma normalize_language_canonical code c :
  normalize_language code = Some c →
  LANGUAGE_CODES !! c = Some c ∧ is_Some (LANGUAGE_NAMES !! c) ∧ String.length c = 3.
Proof.
  intros Hc. apply language_codes_ok in Hc. unfold language_entry_ok in Hc.
  apply andb_prop in Hc as [Hc _]. apply andb_prop in Hc as [Hc Hl].
  apply andb_prop in Hc as [Hc Hn]. by apply bool_decide_eq_true in Hc, Hn, Hl.
Qed.

Lemma language_name_entries :
  forallb (λ kv, is_ascii kv.2 && bool_decide (to_ascii_lowercase kv.1 = kv.1) &&
                 bool_decide (LANGUAGE_CODES !! kv.1 = Some kv.1))
          (map_to_list LANGUAGE_NAMES) = true ∧
  NoDup (to_ascii_lowercase <$> (map_to_list LANGUAGE_NAMES).*2).
Proof. split; [by vm_compute|]. apply (bool_decide_unpack _). by vm_compute. Qed.

Section name_lookup.
Context `{Unicode, HashOrder}.

(** Whatever the iteration order, the reverse table inverts the table of names. *)
Lemma NAME_TO_CODE_lookup c n :
  LANGUAGE_NAMES !! c = Some n → NAME_TO_CODE !! to_lowercase n = Some c.
Proof.
  intros Hc. destruct language_name_entries as [Hall Hnd]. rewrite forallb_elem_of in Hall.
  assert (∀ kv, kv ∈ hash_iter LANGUAGE_NAMES → is_ascii kv.2 = true) as Hascii.
  { intros kv Hkv. rewrite hash_iter_perm in Hkv. specialize (Hall _ Hkv).
    apply andb_prop in Hall as [Hall _]. by apply andb_prop in Hall as [? _]. }
  apply codec_table_lookup.
  - rewrite <-list_fmap_compose. unfold compose. simpl.
    rewrite (list_fmap_ext _ (λ kv, to_ascii_lowercase kv.2)).
    + rewrite hash_iter_perm. by rewrite <-list_fmap_compose in Hnd.
    + intros i kv Hkv. apply to_lowercase_ascii, Hascii. by eapply list_elem_of_lookup_2.
  - apply list_elem_of_fmap. exists (c, n). split; [done|].
    rewrite hash_iter_perm. by apply elem_of_map_to_list.
Qed.

Lemma reverse_table_elem (m : gmap string string) l c :
  codec_table ((λ kv, (to_lowercase kv.2, kv.1)) <$> hash_iter m) !! l = Some c →
  ∃ n, m !! c = Some n ∧ to_lowercase n = l.
Proof.
  intros Hl. apply codec_table_elem in Hl. apply list_elem_of_fmap in Hl as ([c' n] & Heq & Hin).
  simplify_eq/=. exists n. split; [|done]. rewrite hash_iter_perm in Hin.
  by apply elem_of_map_to_list in Hin.
Qed.

Lemma NAME_TO_CODE_elem l c :
  NAME_TO_CODE !! l = Some c → ∃ n, LANGUAGE_NAMES !! c = Some n ∧ to_lowercase n = l.
Proof. apply reverse_table_elem. Qed.

Lemma language_names_valid c n :
  LANGUAGE_NAMES !! c = Some n → normalize_language c = Some c.
Proof.
  intros Hc. apply elem_of_map_to_list in Hc. destruct language_name_entries as [Hall _].
  rewrite forallb_elem_of in Hall. specialize (Hall _ Hc). cbn [fst snd] in Hall.
  apply andb_prop in Hall as [Hall Hk]. apply andb_prop in Hall as [_ Hlow].
  apply bool_decide_eq_true in Hlow, Hk. unfold normalize_language. by rewrite Hlow.
Qed.
End name_lookup.
