(* ===== verification/Ast.v ===== *)
(** * The abstract syntax of policies

    [crates/voom-dsl/src/ast.rs] and [errors.rs]: what the parser produces and the
    validator and compiler consume, and the diagnostics of all three. *)
From S2P Require Import Prelude.

Record Span : Type := {
  Span_start : usize;
  Span_end : usize;
  Span_line : usize;
  Span_col : usize;
}.

Inductive ExtendsSource : Type :=
| ExtendsSource_Bundled (name : string)
| ExtendsSource_File (path : string).

Record MetadataNode : Type := {
  MetadataNode_version : option string;
  MetadataNode_author : option string;
  MetadataNode_description : option string;
  MetadataNode_requires_voom : option string;
  MetadataNode_requires_tools : option (list string);
  MetadataNode_test_fixtures : option (list string);
  MetadataNode_span : Span;
}.

Inductive ErrorStrategyNode : Type :=
| ErrorStrategyNode_Continue
| ErrorStrategyNode_Skip
| ErrorStrategyNode_Abort
| ErrorStrategyNode_Quarantine.

Definition ErrorStrategyNode_from_token (token : string) : option ErrorStrategyNode :=
  if bool_decide (token = "continue") then Some ErrorStrategyNode_Continue
  else if bool_decide (token = "skip") then Some ErrorStrategyNode_Skip
  else if bool_decide (token = "abort") then Some ErrorStrategyNode_Abort
  else if bool_decide (token = "quarantine") then Some ErrorStrategyNode_Quarantine
  else None.

Definition ErrorStrategyNode_as_str (s : ErrorStrategyNode) : string :=
  match s with
  | ErrorStrategyNode_Continue => "continue"
  | ErrorStrategyNode_Skip => "skip"
  | ErrorStrategyNode_Abort => "abort"
  | ErrorStrategyNode_Quarantine => "quarantine"
  end.

Inductive RunIfTriggerNode : Type :=
| RunIfTriggerNode_Modified
| RunIfTriggerNode_Completed.

Definition RunIfTriggerNode_from_token (token : string) : option RunIfTriggerNode :=
  if bool_decide (token = "modified") then Some RunIfTriggerNode_Modified
  else if bool_decide (token = "completed") then Some RunIfTriggerNode_Completed
  else None.

Definition RunIfTriggerNode_as_str (t : RunIfTriggerNode) : string :=
  match t with
  | RunIfTriggerNode_Modified => "modified"
  | RunIfTriggerNode_Completed => "completed"
  end.

Record ConfigNode : Type := {
  ConfigNode_audio_languages : list string;
  ConfigNode_subtitle_languages : list string;
  ConfigNode_on_error : option ErrorStrategyNode;
  ConfigNode_commentary_patterns : list string;
  ConfigNode_keep_backups : option bool;
  ConfigNode_span : Span;
}.

Record RunIfNode : Type := {
  RunIfNode_phase : string;
  RunIfNode_trigger : RunIfTriggerNode;
}.

Inductive CompareOp : Type :=
| CompareOp_Eq
| CompareOp_Ne
| CompareOp_Lt
| CompareOp_Le
| CompareOp_Gt
| CompareOp_Ge
| CompareOp_In.

(** A DSL value; [Value_Number] carries its source text as well. *)
Inductive Value : Type :=
| Value_String (s : string)
| Value_Number (n : f64) (text : string)
| Value_Bool (b : bool)
| Value_Ident (s : string)
| Value_List (items : list Value)
| Value_Object (items : list (string * Value))
| Value_Call (name : string) (args : list (string * Value)).

Inductive ValueOrField : Type :=
| ValueOrField_Value (v : Value)
| ValueOrField_Field (path : list string).

Inductive FilterNode : Type :=
| FilterNode_LangIn (langs : list string)
| FilterNode_LangCompare (op : CompareOp) (lang : string)
| FilterNode_LangField (op : CompareOp) (path : list string)
| FilterNode_CodecIn (codecs : list string)
| FilterNode_CodecCompare (op : CompareOp) (codec : string)
| FilterNode_CodecField (op : CompareOp) (path : list string)
| FilterNode_Channels (op : CompareOp) (value : f64)
| FilterNode_Commentary
| FilterNode_Forced
| FilterNode_Default
| FilterNode_Font
| FilterNode_TitleContains (s : string)
| FilterNode_TitleMatches (s : string)
| FilterNode_And (items : list FilterNode)
| FilterNode_Or (items : list FilterNode)
| FilterNode_Not (inner : FilterNode).

Record TrackQueryNode : Type := {
  TrackQueryNode_target : string;
  TrackQueryNode_filter : option FilterNode;
}.

Inductive ConditionNode : Type :=
| ConditionNode_Exists (query : TrackQueryNode)
| ConditionNode_Count (query : TrackQueryNode) (op : CompareOp) (value : f64)
| ConditionNode_FieldCompare (path : list string) (op : CompareOp) (value : Value)
| ConditionNode_FieldExists (path : list string)
| ConditionNode_AudioIsMultiLanguage
| ConditionNode_IsDubbed
| ConditionNode_IsOriginal
| ConditionNode_And (items : list ConditionNode)
| ConditionNode_Or (items : list ConditionNode)
| ConditionNode_Not (inner : ConditionNode).

Record TrackRefNode : Type := {
  TrackRefNode_target : string;
  TrackRefNode_filter : option FilterNode;
}.

Inductive ActionNode : Type :=
| ActionNode_Keep (target : string) (filter : option FilterNode)
| ActionNode_Remove (target : string) (filter : option FilterNode)
| ActionNode_Skip (phase : option string)
| ActionNode_Warn (msg : string)
| ActionNode_Fail (msg : string)
| ActionNode_SetDefault (track_ref : TrackRefNode)
| ActionNode_SetForced (track_ref : TrackRefNode)
| ActionNode_SetLanguage (track_ref : TrackRefNode) (value : ValueOrField)
| ActionNode_SetTag (tag : string) (value : ValueOrField).

Record WhenNode : Type := {
  WhenNode_condition : ConditionNode;
  WhenNode_then_actions : list ActionNode;
  WhenNode_else_actions : list ActionNode;
  WhenNode_span : Span;
}.

Record RuleNode : Type := {
  RuleNode_name : string;
  RuleNode_when : WhenNode;
}.

Inductive VerifyMode : Type :=
| VerifyMode_Quick
| VerifyMode_Thorough
| VerifyMode_Hash.

Record NormalizeSetting : Type := {
  NormalizeSetting_preset : string;
  NormalizeSetting_settings : list (string * Value);
}.

Inductive SynthSetting : Type :=
| SynthSetting_Codec (c : string)
| SynthSetting_Channels (v : Value)
| SynthSetting_Source (f : FilterNode)
| SynthSetting_Bitrate (b : string)
| SynthSetting_SkipIfExists (f : FilterNode)
| SynthSetting_CreateIf (c : ConditionNode)
| SynthSetting_Title (t : string)
| SynthSetting_Language (l : string)
| SynthSetting_Position (v : Value)
| SynthSetting_Normalize (n : NormalizeSetting).

Inductive OperationNode : Type :=
| OperationNode_Container (name : string)
| OperationNode_Keep (target : string) (filter : option FilterNode)
    (normalize : option NormalizeSetting)
| OperationNode_Remove (target : string) (filter : option FilterNode)
| OperationNode_Order (items : list string)
| OperationNode_Defaults (items : list (string * string))
| OperationNode_Actions (target : string) (settings : list (string * Value))
| OperationNode_Transcode (target codec : string) (settings : list (string * Value))
| OperationNode_Synthesize (name : string) (settings : list SynthSetting)
| OperationNode_ClearTags
| OperationNode_SetTag (tag : string) (value : ValueOrField)
| OperationNode_DeleteTag (tag : string)
| OperationNode_When (when : WhenNode)
| OperationNode_Rules (mode : string) (rules : list RuleNode)
| OperationNode_Verify (mode : VerifyMode).

Record SpannedOperation : Type := {
  SpannedOperation_node : OperationNode;
  SpannedOperation_span : Span;
}.

Record PhaseNode : Type := {
  PhaseNode_name : string;
  PhaseNode_extend : bool;
  PhaseNode_skip_when : option ConditionNode;
  PhaseNode_depends_on : option (list string);
  PhaseNode_run_if : option RunIfNode;
  PhaseNode_on_error : option ErrorStrategyNode;
  PhaseNode_operations : list SpannedOperation;
  PhaseNode_span : Span;
}.

Record PolicyAst : Type := {
  PolicyAst_name : string;
  PolicyAst_extends : option ExtendsSource;
  PolicyAst_metadata : option MetadataNode;
  PolicyAst_config : option ConfigNode;
  PolicyAst_phases : list PhaseNode;
  PolicyAst_span : Span;
}.

(** ** Errors *)
Inductive DslError : Type :=
| DslError_Parse (line col : usize) (message : string) (suggestion : option string)
| DslError_Build (line col : usize) (message : string)
| DslError_Validation (line col : usize) (message : string) (suggestion : option string)
| DslError_Compile (message : string).

(** ** Properties *)

(** Induction through the nested lists of sub-expressions. *)
Definition filter_node_leaf (f : FilterNode) : bool :=
  match f with FilterNode_And _ | FilterNode_Or _ | FilterNode_Not _ => false | _ => true end.

Definition condition_node_leaf (c : ConditionNode) : bool :=
  match c with
  | ConditionNode_And _ | ConditionNode_Or _ | ConditionNode_Not _ => false
  | _ => true
  end.

Lemma FilterNode_nested_ind (P : FilterNode → Prop) :
  (∀ f, filter_node_leaf f = true → P f) →
  (∀ fs, Forall P fs → P (FilterNode_And fs)) →
  (∀ fs, Forall P fs → P (FilterNode_Or fs)) →
  (∀ f, P f → P (FilterNode_Not f)) →
  ∀ f, P f.
Proof.
  intros Hleaf Hand Hor Hnot. fix IH 1. intros [| | | | | | | | | | | | |fs|fs|f];
    try (by apply Hleaf).
  - apply Hand. induction fs; constructor; [apply IH|done].
  - apply Hor. induction fs; constructor; [apply IH|done].
  - apply Hnot, IH.
Qed.

Lemma ConditionNode_nested_ind (P : ConditionNode → Prop) :
  (∀ c, condition_node_leaf c = true → P c) →
  (∀ cs, Forall P cs → P (ConditionNode_And cs)) →
  (∀ cs, Forall P cs → P (ConditionNode_Or cs)) →
  (∀ c, P c → P (ConditionNode_Not c)) →
  ∀ c, P c.
Proof.
  intros Hleaf Hand Hor Hnot. fix IH 1. intros [| | | | | | |cs|cs|c]; try (by apply Hleaf).
  - apply Hand. induction cs; constructor; [apply IH|done].
  - apply Hor. induction cs; constructor; [apply IH|done].
  - apply Hnot, IH.
Qed.

Lemma ErrorStrategyNode_from_token_as_str s :
  ErrorStrategyNode_from_token (ErrorStrategyNode_as_str s) = Some s.
Proof. by destruct s. Qed.

(** * Diagnostics of the policy language

    [crates/voom-dsl/src/errors.rs] beyond the [DslError] type itself: its
    constructors and display text, validation errors, warnings and the error of
    the whole pipeline. *)

Definition DslError_parse (line col : usize) (message : string) : DslError :=
  DslError_Parse line col message None.

Definition DslError_build (line col : usize) (message : string) : DslError :=
  DslError_Build line col message.

Definition DslError_validation (line col : usize) (message : string) : DslError :=
  DslError_Validation line col message None.

Definition DslError_validation_with_suggestion (line col : usize) (message suggestion : string)
    : DslError :=
  DslError_Validation line col message (Some suggestion).

Definition DslError_compile (message : string) : DslError := DslError_Compile message.

Record ValidationErrors : Type := { ValidationErrors_errors : list DslError }.

Record DslWarning : Type := {
  DslWarning_line : usize;
  DslWarning_col : usize;
  DslWarning_message : string;
  DslWarning_suggestion : option string;
}.

Definition DslWarning_new (line col : usize) (message : string) (suggestion : option string)
    : DslWarning :=
  {| DslWarning_line := line; DslWarning_col := col;
     DslWarning_message := message; DslWarning_suggestion := suggestion |}.

Inductive DslPipelineError : Type :=
| DslPipelineError_Parse (e : DslError)
| DslPipelineError_Validation (e : ValidationErrors)
| DslPipelineError_Compile (e : DslError).

(** [impl From<DslError>] *)
Definition DslPipelineError_from (e : DslError) : DslPipelineError :=
  match e with
  | DslError_Parse _ _ _ _ | DslError_Build _ _ _ => DslPipelineError_Parse e
  | DslError_Validation _ _ _ _ =>
      DslPipelineError_Validation {| ValidationErrors_errors := [e] |}
  | DslError_Compile _ => DslPipelineError_Compile e
  end.

(** ** Display *)
Definition newline : string := String (ascii_of_nat 10) EmptyString.

Definition fmt_suggestion (suggestion : option string) : string :=
  match suggestion with
  | Some s => newline +:+ "  suggestion: " +:+ s
  | None => ""
  end.

Definition fmt_at (line col : usize) (message : string) : string :=
  "line " +:+ pretty line +:+ ", col " +:+ pretty col +:+ ": " +:+ message.

Definition DslError_fmt (e : DslError) : string :=
  match e with
  | DslError_Parse line col message suggestion =>
      "parse error at " +:+ fmt_at line col message +:+ fmt_suggestion suggestion
  | DslError_Build line col message => "AST build error at " +:+ fmt_at line col message
  | DslError_Validation line col message suggestion =>
      "validation error at " +:+ fmt_at line col message +:+ fmt_suggestion suggestion
  | DslError_Compile message => "compilation error: " +:+ message
  end.

Definition ValidationErrors_fmt (e : ValidationErrors) : string :=
  pretty (length (ValidationErrors_errors e)) +:+ " validation error(s):" +:+ newline +:+
  String.concat "" ((λ err, "  - " +:+ DslError_fmt err +:+ newline)
                      <$> ValidationErrors_errors e).

Definition DslWarning_fmt (w : DslWarning) : string :=
  "warning at " +:+ fmt_at (DslWarning_line w) (DslWarning_col w) (DslWarning_message w) +:+
  fmt_suggestion (DslWarning_suggestion w).

Definition DslPipelineError_fmt (e : DslPipelineError) : string :=
  match e with
  | DslPipelineError_Parse e => "parse error: " +:+ DslError_fmt e
  | DslPipelineError_Validation e => "validation failed: " +:+ ValidationErrors_fmt e
  | DslPipelineError_Compile e => "compile error: " +:+ DslError_fmt e
  end.

(** ** What a validation function pushes

    The validator's functions receive [&mut Vec<DslError>] (and
    [&mut Vec<DslWarning>]) and only ever push: a function is modelled by what
    it pushes, and running one after the other is appending. *)
Record diagnostics : Type := {
  diag_errors : list DslError;
  diag_warnings : list DslWarning;
}.

Definition no_diag : diagnostics := {| diag_errors := []; diag_warnings := [] |}.

Definition errors_only (es : list DslError) : diagnostics :=
  {| diag_errors := es; diag_warnings := [] |}.

Definition diag_app (a b : diagnostics) : diagnostics :=
  {| diag_errors := diag_errors a ++ diag_errors b;
     diag_warnings := diag_warnings a ++ diag_warnings b |}.

Infix "⊕" := diag_app (at level 50, left associativity).

(** A [for] loop over [l] *)
Definition diag_each {A} (f : A → diagnostics) : list A → diagnostics :=
  fix go l := match l with [] => no_diag | x :: l => f x ⊕ go l end.

Definition diag_opt {A} (f : A → diagnostics) (o : option A) : diagnostics :=
  match o with Some x => f x | None => no_diag end.

(** A single error, pushed when [b] holds *)
Definition push_if (b : bool) (e : DslError) : list DslError := if b then [e] else [].

(** ** Reading off success *)
Lemma push_if_nil b e : push_if b e = [] ↔ b = false.
Proof. by destruct b. Qed.

Lemma diag_app_ok a b : diag_errors (a ⊕ b) = [] ↔ diag_errors a = [] ∧ diag_errors b = [].
Proof. simpl. apply app_nil. Qed.

Lemma diag_each_ok {A} (f : A → diagnostics) l :
  diag_errors (diag_each f l) = [] ↔ ∀ x, x ∈ l → diag_errors (f x) = [].
Proof.
  induction l as [|x l IH]; simpl; [set_solver|].
  rewrite app_nil, IH. set_solver.
Qed.

Lemma diag_opt_ok {A} (f : A → diagnostics) o :
  diag_errors (diag_opt f o) = [] ↔ ∀ x, o = Some x → diag_errors (f x) = [].
Proof. destruct o; simpl; naive_solver. Qed.

Lemma bind_nil_iff {A B} (f : A → list B) l : l ≫= f = [] ↔ ∀ x, x ∈ l → f x = [].
Proof.
  induction l as [|x l IH]; csimpl; [set_solver|]. rewrite app_nil, IH. set_solver.
Qed.
