(* ===== verification/TopoSort.v ===== *)
(** * Phase ordering

    [topological_sort] of [crates/voom-dsl/src/compiler.rs]: Kahn's algorithm
    over the [depends_on] edges of the phases.

    [slice::partition_point] is specified only on a partitioned slice; on any
    other slice its result is unspecified (but in range). The class
    [PartitionPoint] says exactly that, so the theorems hold for whatever
    position the insertion uses. *)
From S2P Require Import Prelude Ast.

Class PartitionPoint := {
  partition_point {A} : (A → bool) → list A → nat;
  partition_point_le {A} (f : A → bool) l : partition_point f l ≤ length l;
  partition_point_partitioned {A} (f : A → bool) l k :
    Forall (λ x, f x = true) l → Forall (λ x, f x = false) k →
    partition_point f (l ++ k) = length l;
}.

Definition deps_of (phase : PhaseNode) : list string := default [] (PhaseNode_depends_on phase).

(** One [for phase in &ast.phases] iteration: the pair is [(adj, in_degree)]. *)
Definition topo_add_dep (name : string)
    (st : gmap string (list string) * gmap string nat) (dep : string)
    : gmap string (list string) * gmap string nat :=
  let '(adj, in_degree) := st in
  (<[dep := default [] (adj !! dep) ++ [name]]> adj,
   <[name := default 0 (in_degree !! name) + 1]> in_degree).

Definition topo_add_phase (st : gmap string (list string) * gmap string nat) (phase : PhaseNode)
    : gmap string (list string) * gmap string nat :=
  let '(adj, in_degree) := st in
  let name := PhaseNode_name phase in
  let adj := <[name := default [] (adj !! name)]> adj in
  let in_degree := <[name := default 0 (in_degree !! name)]> in_degree in
  foldl (topo_add_dep name) (adj, in_degree) (deps_of phase).

Definition topo_graph (ast : PolicyAst) : gmap string (list string) * gmap string nat :=
  foldl topo_add_phase (∅, ∅) (PolicyAst_phases ast).

Section topo.
Context `{PartitionPoint, HashOrder}.

(** The [for &neighbor in neighbors] loop. [None] is a panic: [unwrap] of a
    missing degree, subtraction below zero or insertion out of range. *)
Fixpoint topo_relax (neighbors : list string) (in_degree : gmap string nat)
    (queue : list string) : option (gmap string nat * list string) :=
  match neighbors with
  | [] => Some (in_degree, queue)
  | neighbor :: neighbors =>
      deg ← in_degree !! neighbor;
      match deg with
      | O => None
      | S deg =>
          let in_degree := <[neighbor := deg]> in_degree in
          if (deg =? 0)%nat then
            let pos := partition_point (λ x, str_ltb neighbor x) queue in
            queue ← vec_insert pos neighbor queue;
            topo_relax neighbors in_degree queue
          else topo_relax neighbors in_degree queue
      end
  end.

(** [Vec::pop] *)
Definition vec_pop {A} (l : list A) : option (A * list A) :=
  match reverse l with
  | [] => None
  | x :: k => Some (x, reverse k)
  end.

(** The [while let Some(node) = queue.pop()] loop; [None] is a panic or not
    enough fuel. *)
Fixpoint topo_loop (fuel : nat) (adj : gmap string (list string)) (in_degree : gmap string nat)
    (queue result : list string) : option (list string) :=
  match vec_pop queue with
  | None => Some result
  | Some (node, queue) =>
      match fuel with
      | O => None
      | S fuel =>
          let result := result ++ [node] in
          match adj !! node with
          | Some neighbors =>
              '(in_degree, queue) ← topo_relax neighbors in_degree queue;
              topo_loop fuel adj in_degree queue result
          | None => topo_loop fuel adj in_degree queue result
          end
      end
  end.

Definition topo_queue (in_degree : gmap string nat) : list string :=
  merge_sort String.le
    (List.filter (λ kv, (kv.2 =? 0)%nat) (hash_iter in_degree)).*1.

(** Names of the phases that could not be ordered, sorted. *)
Definition topo_stuck (ast : PolicyAst) (result : list string) : list string :=
  let phase_names : gset string := list_to_set (PhaseNode_name <$> PolicyAst_phases ast) in
  let result_set : gset string := list_to_set result in
  merge_sort String.le (elements (phase_names ∖ result_set)).

Definition topo_unknown_dep (ast : PolicyAst) (name : string) : bool :=
  let phase_names : gset string := list_to_set (PhaseNode_name <$> PolicyAst_phases ast) in
  match List.find (λ p, bool_decide (PhaseNode_name p = name)) (PolicyAst_phases ast) with
  | Some p => existsb (λ d, negb (bool_decide (d ∈ phase_names))) (deps_of p)
  | None => false
  end.

(** The outer [option] is a panic of the loop (or missing fuel); the fuel is
    one iteration per phase. *)
Definition topological_sort (ast : PolicyAst) : option (result DslError (list string)) :=
  let '(adj, in_degree) := topo_graph ast in
  result ← topo_loop (length (PolicyAst_phases ast)) adj in_degree (topo_queue in_degree) [];
  if negb (length result =? length (PolicyAst_phases ast))%nat then
    let stuck := topo_stuck ast result in
    if existsb (topo_unknown_dep ast) stuck then
      Some (Err (DslError_Compile ("phases [" +:+ str_join ", " stuck
                                   +:+ "] reference unknown dependencies")))
    else
      Some (Err (DslError_Compile ("circular dependency involving phases: ["
                                   +:+ str_join ", " stuck +:+ "]")))
  else Some (Ok result).
End topo.

(** * Correctness of the phase ordering

    [topological_sort] never panics, terminates within one iteration per phase,
    and returns either a dependency-respecting enumeration of the phases or an
    error that names phases which indeed cannot be ordered. *)

(** ** The dependency graph *)

(** The edges [(dep, phase)], in source order. *)
Definition phase_edges (phases : list PhaseNode) : list (string * string) :=
  phases ≫= λ p, (λ d, (d, PhaseNode_name p)) <$> deps_of p.

(** The targets of the edges from [d]. *)
Definition out_edges (E : list (string * string)) (d : string) : list string :=
  (List.filter (λ e, bool_decide (e.1 = d)) E).*2.

(** The number of edges into [n] whose source is not in [done]. *)
Definition pending (E : list (string * string)) (done : list string) (n : string) : nat :=
  length (List.filter (λ e, bool_decide (e.2 = n) && negb (bool_decide (e.1 ∈ done))) E).

Definition occurrences (n : string) (l : list string) : nat :=
  length (List.filter (λ x, bool_decide (x = n)) l).

Lemma pending_app E E' done n : pending (E ++ E') done n = pending E done n + pending E' done n.
Proof. unfold pending. by rewrite List.filter_app, length_app. Qed.

Lemma pending_zero E done n :
  pending E done n = 0 ↔ ∀ e, e ∈ E → e.2 = n → e.1 ∈ done.
Proof.
  unfold pending. rewrite length_zero_iff_nil, filter_nil_existsb.
  rewrite <-not_true_iff_false, existsb_elem_of. split.
  - intros Hn e He Hen. destruct (decide (e.1 ∈ done)) as [?|Hd]; [done|].
    destruct Hn. exists e. by rewrite (bool_decide_true (e.2 = n)), bool_decide_false by done.
  - intros Hall (e & He & Hb). apply andb_prop in Hb as [He2 He1].
    apply bool_decide_eq_true in He2. apply negb_true_iff, bool_decide_eq_false in He1. auto.
Qed.

(** Finishing [node] turns its edges from pending into to-be-relaxed. *)
Lemma pending_snoc E done node n :
  node ∉ done →
  pending E done n = pending E (done ++ [node]) n + occurrences n (out_edges E node).
Proof.
  intros Hn. unfold pending, occurrences, out_edges.
  induction E as [|[d m] E IH]; csimpl; [done|].
  rewrite (bool_decide_ext (d ∈ done ++ [node]) (d ∈ done ∨ d = node)) by set_solver.
  destruct (decide (m = n)) as [->|Hm].
  - rewrite (bool_decide_true (n = n)) by done. csimpl.
    destruct (decide (d = node)) as [->|Hd].
    + rewrite (bool_decide_true (node = node)) by done. csimpl.
      rewrite (bool_decide_true (n = n)) by done.
      rewrite (bool_decide_false (node ∈ done)) by done.
      rewrite bool_decide_true by (by right). csimpl. lia.
    + rewrite (bool_decide_false (d = node)) by done.
      rewrite (bool_decide_ext (d ∈ done ∨ d = node) (d ∈ done)) by naive_solver.
      destruct (bool_decide (d ∈ done)); csimpl; lia.
  - rewrite (bool_decide_false (m = n)) by done. csimpl.
    destruct (bool_decide (d = node)); csimpl; [|done].
    by rewrite (bool_decide_false (m = n)) by done.
Qed.

(** What the graph construction builds. *)
Record graph_ok (E : list (string * string)) (names : list string)
    (st : gmap string (list string) * gmap string nat) : Prop := {
  graph_adj : ∀ d, default [] (st.1 !! d) = out_edges E d;
  graph_deg : ∀ n, st.2 !! n = if bool_decide (n ∈ names) then Some (pending E [] n) else None;
  graph_targets : ∀ e, e ∈ E → e.2 ∈ names;
}.

Lemma graph_ok_add_dep E names st name dep :
  name ∈ names → graph_ok E names st →
  graph_ok (E ++ [(dep, name)]) names (topo_add_dep name st dep).
Proof.
  destruct st as [adj deg]. intros Hin [Ha Hd Ht]. simpl in *. split; simpl.
  - intros d. unfold out_edges. rewrite List.filter_app, fmap_app. simpl.
    destruct (decide (dep = d)) as [->|Hne].
    + rewrite lookup_insert_eq, bool_decide_true by done. simpl. by rewrite Ha.
    + rewrite lookup_insert_ne, bool_decide_false by done. simpl. by rewrite app_nil_r.
  - intros n. rewrite pending_app. unfold pending at 2. simpl.
    destruct (decide (name = n)) as [->|Hne].
    + rewrite lookup_insert_eq, Hd, !bool_decide_true by done. done.
    + rewrite lookup_insert_ne, Hd, (bool_decide_false (name = n)) by done. simpl.
      by rewrite Nat.add_0_r.
  - intros e [He|He]%elem_of_app; [by apply Ht|]. by apply list_elem_of_singleton in He as ->.
Qed.

Lemma graph_ok_add_phase E names st p :
  graph_ok E names st →
  graph_ok (E ++ phase_edges [p]) (names ++ [PhaseNode_name p]) (topo_add_phase st p).
Proof.
  destruct st as [adj deg]. intros [Ha Hd Ht]. unfold topo_add_phase, phase_edges.
  set (name := PhaseNode_name p). simpl. rewrite app_nil_r.
  assert (graph_ok E (names ++ [name])
            (<[name:=default [] (adj !! name)]> adj, <[name:=default 0 (deg !! name)]> deg)) as Hg.
  { split; simpl in *.
    - intros d. destruct (decide (name = d)) as [->|?];
        [by rewrite lookup_insert_eq, <-Ha|by rewrite lookup_insert_ne].
    - intros n. rewrite (bool_decide_ext (n ∈ names ++ [name]) (n ∈ names ∨ n = name)) by set_solver.
      destruct (decide (name = n)) as [->|Hne].
      + rewrite lookup_insert_eq, Hd, (bool_decide_true (_ ∨ _)) by (by right).
        case_bool_decide as Hn; simpl; [done|]. f_equal. symmetry. apply pending_zero.
        intros e He <-. destruct Hn. by apply Ht.
      + rewrite lookup_insert_ne, Hd by done.
        by rewrite (bool_decide_ext (n ∈ names ∨ n = name) (n ∈ names)) by naive_solver.
    - intros e He. specialize (Ht e He). set_solver. }
  assert (name ∈ names ++ [name]) as Hin by set_solver.
  clear Ha Hd Ht. revert Hg Hin.
  generalize (names ++ [name]), (<[name:=default [] (adj !! name)]> adj,
                                 <[name:=default 0 (deg !! name)]> deg).
  (* the dependencies are added one by one *)
  intros ns st Hg Hin. revert st E Hg.
  induction (deps_of p) as [|d deps IH]; intros st E Hg; simpl.
  - by rewrite app_nil_r.
  - specialize (IH (topo_add_dep name st d) (E ++ [(d, name)])).
    rewrite <-(assoc_L (++)) in IH. apply IH. by apply graph_ok_add_dep.
Qed.

Lemma topo_graph_ok_gen phases st E names :
  graph_ok E names st →
  graph_ok (E ++ phase_edges phases) (names ++ (PhaseNode_name <$> phases))
           (foldl topo_add_phase st phases).
Proof.
  revert st E names; induction phases as [|p phases IH]; intros st E names Hg; simpl.
  { by rewrite !app_nil_r. }
  apply (graph_ok_add_phase _ _ _ p) in Hg. apply IH in Hg.
  rewrite <-!(assoc_L (++)) in Hg. unfold phase_edges in Hg at 1. simpl in Hg.
  by rewrite app_nil_r in Hg.
Qed.

Lemma topo_graph_ok ast :
  graph_ok (phase_edges (PolicyAst_phases ast)) (PhaseNode_name <$> PolicyAst_phases ast)
           (topo_graph ast).
Proof.
  apply (topo_graph_ok_gen _ (∅, ∅) [] []). split; simpl; intros; [by rewrite lookup_empty..|].
  by apply elem_of_nil in H.
Qed.

(** ** The loop invariant *)

(** [done] is the result so far, [rem] the edges of its last element still to
    be relaxed. *)
Record topo_inv (E : list (string * string)) (names done rem : list string)
    (deg : gmap string nat) (queue : list string) : Prop := {
  topo_nodup : NoDup (done ++ queue);
  topo_deg : ∀ n, deg !! n = if bool_decide (n ∈ names)
                             then Some (pending E done n + occurrences n rem) else None;
  topo_zero : ∀ n, n ∈ done ++ queue ↔ deg !! n = Some 0;
}.

(** Every phase of [l] comes after its dependencies. *)
Definition topo_ordered (E : list (string * string)) (l : list string) : Prop :=
  ∀ pre n post, l = pre ++ n :: post → ∀ d, (d, n) ∈ E → d ∈ pre.

Lemma topo_ordered_snoc E l n :
  topo_ordered E l → (∀ d, (d, n) ∈ E → d ∈ l) → topo_ordered E (l ++ [n]).
Proof.
  intros Hl Hn pre m post Heq d Hd. destruct post as [|x post _] using rev_ind.
  - apply app_inj_tail in Heq as [-> ->]. by apply Hn.
  - rewrite app_comm_cons, (assoc_L (++)) in Heq. apply app_inj_tail in Heq as [-> ->].
    by eapply Hl.
Qed.

Section loop.
Context `{PartitionPoint, HashOrder}.
Context (E : list (string * string)) (names : list string).
Context (Htargets : ∀ e, e ∈ E → e.2 ∈ names).

Lemma topo_relax_ok rem done deg queue :
  topo_inv E names done rem deg queue → (∀ n, n ∈ rem → n ∈ names) →
  ∃ deg' queue', topo_relax rem deg queue = Some (deg', queue') ∧
                 topo_inv E names done [] deg' queue'.
Proof.
  revert deg queue; induction rem as [|m rem IH]; intros deg queue Hinv Hrem; simpl; [by eauto|].
  destruct Hinv as [Hnd Hdeg Hz].
  assert (m ∈ names) as Hm by (apply Hrem; by left).
  assert (∀ n, occurrences n (m :: rem) =
               (if bool_decide (m = n) then 1 else 0) + occurrences n rem) as Hocc.
  { intros n. unfold occurrences. simpl. by case_bool_decide. }
  assert (deg !! m = Some (S (pending E done m + occurrences m rem))) as Hdm.
  { rewrite Hdeg, bool_decide_true, Hocc, bool_decide_true by done. f_equal. lia. }
  rewrite Hdm. simpl. set (k := pending E done m + occurrences m rem).
  assert (Hdeg' : ∀ n, <[m:=k]> deg !! n = if bool_decide (n ∈ names)
                     then Some (pending E done n + occurrences n rem) else None).
  { intros n. destruct (decide (m = n)) as [->|Hne].
    - by rewrite lookup_insert_eq, bool_decide_true.
    - rewrite lookup_insert_ne, Hdeg, Hocc, (bool_decide_false (m = n)) by done. done. }
  assert (Hmq : m ∉ done ++ queue) by (rewrite Hz, Hdm; congruence).
  assert (Hrem' : ∀ n, n ∈ rem → n ∈ names) by (intros; apply Hrem; by right).
  destruct (Nat.eqb_spec k 0) as [Hk|Hk].
  - destruct (vec_insert_perm (partition_point (λ x, str_ltb m x) queue) m queue)
      as (q & -> & Hq); [apply partition_point_le|]. simpl.
    apply IH; [|done]. split; [|done|].
    + rewrite Hq, <-Permutation_middle. by constructor.
    + intros n. rewrite Hq, <-Permutation_middle, elem_of_cons, Hz.
      destruct (decide (m = n)) as [->|Hne].
      * rewrite lookup_insert_eq, Hk. naive_solver.
      * rewrite lookup_insert_ne by done. naive_solver.
  - apply IH; [|done]. split; [done|done|]. intros n. rewrite Hz.
    destruct (decide (m = n)) as [->|Hne].
    + rewrite lookup_insert_eq, Hdm. naive_solver lia.
    + by rewrite lookup_insert_ne.
Qed.

Lemma vec_pop_Some {A} (l : list A) x k : vec_pop l = Some (x, k) ↔ l = k ++ [x].
Proof.
  unfold vec_pop. destruct l as [|y l _] using rev_ind.
  - simpl. split; [done|]. by destruct k.
  - rewrite reverse_snoc, reverse_involutive. split; [by intros [= -> ->]|].
    by intros [-> ->]%app_inj_tail.
Qed.

Lemma vec_pop_None {A} (l : list A) : vec_pop l = None ↔ l = [].
Proof.
  unfold vec_pop. destruct l as [|y l _] using rev_ind; [done|].
  rewrite reverse_snoc. split; [done|]. by destruct l.
Qed.

(** Popping [node] makes its edges the ones to relax. *)
Lemma topo_inv_pop done deg queue node :
  topo_inv E names done [] deg (queue ++ [node]) →
  topo_inv E names (done ++ [node]) (out_edges E node) deg queue ∧
  pending E done node = 0.
Proof.
  intros [Hnd Hdeg Hz].
  assert ((done ++ [node]) ++ queue ≡ₚ done ++ queue ++ [node]) as Hp by solve_Permutation.
  assert (node ∉ done) as Hni.
  { apply NoDup_app in Hnd as (_ & Hd & _). intros Hin. apply (Hd _ Hin). set_solver. }
  split.
  - split; [by rewrite Hp| |intros n; by rewrite Hp].
    intros n. rewrite Hdeg. case_bool_decide; [|done]. f_equal.
    rewrite (pending_snoc E done node n) by done. unfold occurrences at 2. simpl. lia.
  - assert (deg !! node = Some 0) as Hd0 by (apply Hz; set_solver).
    rewrite Hdeg in Hd0. case_bool_decide; simplify_eq/=. lia.
Qed.

Lemma topo_loop_ok fuel adj deg queue done :
  (∀ d, default [] (adj !! d) = out_edges E d) →
  topo_inv E names done [] deg queue → topo_ordered E done →
  length names ≤ fuel + length done →
  ∃ res deg', topo_loop fuel adj deg queue done = Some res ∧
              topo_inv E names res [] deg' [] ∧ topo_ordered E res.
Proof.
  intros Hadj. revert deg queue done.
  induction fuel as [|fuel IH]; intros deg queue done Hinv Hord Hlen; simpl.
  - destruct (vec_pop queue) as [[node q]|] eqn:Hpop.
    + apply vec_pop_Some in Hpop as ->.
      assert (length (done ++ q ++ [node]) ≤ length names) as Hle.
      { apply submseteq_length, NoDup_submseteq; [apply Hinv|]. intros n Hn.
        apply (topo_zero _ _ _ _ _ _ Hinv) in Hn.
        rewrite (topo_deg _ _ _ _ _ _ Hinv) in Hn. by case_bool_decide. }
      rewrite !length_app in Hle. simpl in Hle. lia.
    + apply vec_pop_None in Hpop as ->. eauto.
  - destruct (vec_pop queue) as [[node q]|] eqn:Hpop.
    2:{ apply vec_pop_None in Hpop as ->. eauto. }
    apply vec_pop_Some in Hpop as ->.
    apply topo_inv_pop in Hinv as [Hinv Hp0].
    assert (topo_ordered E (done ++ [node])) as Hord'.
    { apply topo_ordered_snoc; [done|]. intros d Hd.
      by apply (proj1 (pending_zero E done node) Hp0 (d, node)). }
    assert (length names ≤ fuel + length (done ++ [node])) as Hlen'.
    { rewrite length_app. simpl. lia. }
    specialize (Hadj node). destruct (adj !! node) as [ns|]; simpl in Hadj; subst.
    + destruct (topo_relax_ok _ _ _ _ Hinv) as (deg' & q' & -> & Hinv').
      { intros n (e & -> & He)%list_elem_of_fmap. apply filter_elem_of in He as [He _].
        by apply Htargets. }
      simpl. by eapply IH.
    + rewrite <-Hadj in Hinv. by eapply IH.
Qed.
End loop.

(** ** The result *)
Section sort.
Context `{PartitionPoint, HashOrder}.
Implicit Types ast : PolicyAst.

Definition ast_names ast : list string := PhaseNode_name <$> PolicyAst_phases ast.
Definition ast_edges ast : list (string * string) := phase_edges (PolicyAst_phases ast).

Lemma elem_of_ast_edges ast d n :
  (d, n) ∈ ast_edges ast ↔
  ∃ p, p ∈ PolicyAst_phases ast ∧ PhaseNode_name p = n ∧ d ∈ deps_of p.
Proof.
  unfold ast_edges, phase_edges. rewrite list_elem_of_bind. setoid_rewrite list_elem_of_fmap.
  naive_solver.
Qed.

Lemma topo_queue_zero deg : NoDup (topo_queue deg) ∧
  ∀ n, n ∈ topo_queue deg ↔ deg !! n = Some 0.
Proof.
  unfold topo_queue.
  assert (List.filter (λ kv : string * nat, (kv.2 =? 0)%nat) (hash_iter deg) ≡ₚ
          List.filter (λ kv, (kv.2 =? 0)%nat) (map_to_list deg)) as Hp.
  { by rewrite <-hash_iter_perm. }
  split.
  - rewrite merge_sort_Permutation, Hp. pose proof (NoDup_fst_map_to_list deg) as Hnd. revert Hnd.
    generalize (map_to_list deg) as l. induction l as [|[n k] l IH]; csimpl; [done|].
    intros [Hn Hnd]%NoDup_cons. destruct (k =? 0)%nat; [|by apply IH].
    csimpl. constructor; [|by apply IH]. intros (x & Hx & Hin)%list_elem_of_fmap.
    apply Hn, list_elem_of_fmap. exists x. by apply filter_elem_of in Hin as [? _].
  - intros n. rewrite merge_sort_Permutation, Hp, list_elem_of_fmap. setoid_rewrite filter_elem_of.
    setoid_rewrite Nat.eqb_eq. split.
    + intros ([m k] & -> & Hin & Hk). simpl in *. subst. by apply elem_of_map_to_list.
    + intros Hn. exists (n, 0). by rewrite elem_of_map_to_list.
Qed.

(** The loop run of [topological_sort]. *)
Lemma topological_sort_run ast :
  ∃ res deg, topo_loop (length (PolicyAst_phases ast)) (topo_graph ast).1 (topo_graph ast).2
               (topo_queue (topo_graph ast).2) [] = Some res ∧
    topo_inv (ast_edges ast) (ast_names ast) res [] deg [] ∧ topo_ordered (ast_edges ast) res.
Proof.
  destruct (topo_graph_ok ast) as [Ha Hd Ht].
  destruct (topo_queue_zero (topo_graph ast).2) as [Hnd Hz].
  apply topo_loop_ok; [exact Ht|exact Ha| | |].
  - split; [done| |done]. intros n. rewrite Hd. by rewrite Nat.add_0_r.
  - intros pre n post Heq. by destruct pre.
  - unfold ast_names. rewrite length_fmap. lia.
Qed.

Lemma topo_inv_elem ast res deg n :
  topo_inv (ast_edges ast) (ast_names ast) res [] deg [] →
  n ∈ res ↔ n ∈ ast_names ast ∧ ∀ d, (d, n) ∈ ast_edges ast → d ∈ res.
Proof.
  intros [_ Hd Hz]. specialize (Hz n). rewrite app_nil_r in Hz. rewrite Hz, Hd.
  unfold occurrences. simpl. rewrite Nat.add_0_r.
  assert (pending (ast_edges ast) res n = 0 ↔ ∀ d, (d, n) ∈ ast_edges ast → d ∈ res) as <-.
  { rewrite pending_zero. split; [intros Ha d Hin; by apply (Ha (d, n))|].
    intros Ha [d m] He ?. simpl in *. subst. by apply Ha. }
  case_bool_decide; naive_solver congruence.
Qed.

Lemma elem_of_topo_stuck ast res n : n ∈ topo_stuck ast res ↔ n ∈ ast_names ast ∧ n ∉ res.
Proof.
  unfold topo_stuck, ast_names. rewrite merge_sort_Permutation, elem_of_elements. set_solver.
Qed.

(** The ordering that [topological_sort] accepts. *)
Definition valid_order ast (order : list string) : Prop :=
  NoDup order ∧ order ≡ₚ ast_names ast ∧ topo_ordered (ast_edges ast) order.

(** A set of phases each of which waits for an unknown phase or for another
    phase of the set. *)
Definition blocked ast (stuck : list string) : Prop :=
  stuck ≠ [] ∧
  ∀ n, n ∈ stuck → n ∈ ast_names ast ∧
    ∃ d, (d, n) ∈ ast_edges ast ∧ (d ∉ ast_names ast ∨ d ∈ stuck).

Lemma topological_sort_cases ast :
  (∃ order, topological_sort ast = Some (Ok order) ∧ valid_order ast order) ∨
  (∃ e res, topological_sort ast = Some (Err e) ∧
     (NoDup (ast_names ast) → blocked ast (topo_stuck ast res)) ∧
     e = DslError_Compile
           (if existsb (topo_unknown_dep ast) (topo_stuck ast res)
            then "phases [" +:+ str_join ", " (topo_stuck ast res)
                 +:+ "] reference unknown dependencies"
            else "circular dependency involving phases: ["
                 +:+ str_join ", " (topo_stuck ast res) +:+ "]")).
Proof.
  destruct (topological_sort_run ast) as (res & deg & Hrun & Hinv & Hord).
  unfold topological_sort. destruct (topo_graph ast) as [adj dg]. simpl in Hrun.
  rewrite Hrun. simpl.
  assert (NoDup res) as Hnd by (pose proof (topo_nodup _ _ _ _ _ _ Hinv) as Hn;
                                by rewrite app_nil_r in Hn).
  assert (res ⊆+ ast_names ast) as Hsub.
  { apply NoDup_submseteq; [done|]. intros n Hn. by apply (topo_inv_elem ast res deg n Hinv). }
  destruct (Nat.eqb_spec (length res) (length (PolicyAst_phases ast))) as [Hl|Hl]; simpl.
  - left. exists res. split; [done|]. split_and!; [done| |done].
    apply submseteq_length_Permutation; [done|]. unfold ast_names. rewrite length_fmap. lia.
  - right. exists (DslError_Compile (if existsb (topo_unknown_dep ast) (topo_stuck ast res)
      then "phases [" +:+ str_join ", " (topo_stuck ast res) +:+ "] reference unknown dependencies"
      else "circular dependency involving phases: [" +:+ str_join ", " (topo_stuck ast res)
           +:+ "]")), res.
    split; [by destruct (existsb _ _)|]. split; [|done].
    intros Hndn. split.
    + intros Hnil. apply Hl. rewrite <-(length_fmap PhaseNode_name).
      apply Permutation_length, submseteq_length_Permutation; [done|].
      apply submseteq_length, NoDup_submseteq; [done|]. intros n Hn.
      destruct (decide (n ∈ res)) as [?|Hr]; [done|].
      assert (n ∈ topo_stuck ast res) as Hin by (by apply elem_of_topo_stuck).
      rewrite Hnil in Hin. by apply elem_of_nil in Hin.
    + intros n [Hn Hr]%elem_of_topo_stuck. split; [done|].
      destruct (decide (Exists (λ e, e.2 = n ∧ e.1 ∉ res) (ast_edges ast))) as [Hex|Hex].
      * apply Exists_exists in Hex as ([d m] & He & Hm & Hdr). simpl in *. subst.
        exists d. split; [done|]. destruct (decide (d ∈ ast_names ast)); [right|by left].
        by apply elem_of_topo_stuck.
      * destruct Hr. apply (topo_inv_elem ast res deg n Hinv). split; [done|].
        intros d He. destruct (decide (d ∈ res)) as [?|Hd]; [done|].
        destruct Hex. apply Exists_exists. by exists (d, n).
Qed.
End sort.
