(* ===== verification/Compiler.v ===== *)
(** * The policy compiler

    [crates/voom-dsl/src/compiler.rs]: the translation of a validated AST into
    a [CompiledPolicy]. The code fails with a [DslError] and panics
    ([unreachable!]) on track targets and rule modes the validator should have
    rejected; both endings are values of [compile_failure]. *)
From S2P Require Import Prelude Json Media Plan Compiled Codecs Ast TopoSort.

Inductive compile_failure : Type :=
| CompileError (e : DslError)
| CompilePanic (msg : string).

Abbreviation compiled A := (result compile_failure A) (only parsing).

Definition compile_error {A} (message : string) : compiled A :=
  Err (CompileError (DslError_Compile message)).

(** [format!("{v:?}")]: the derived debug text of a value. *)
Class ValueDebug := value_debug : Value → string.

(** ** Scalars *)
Definition safe_u32 (n : f64) : option u32 :=
  if f64_leb (f64_of_Z 0) n && f64_leb n (f64_of_N u32_MAX) &&
     match f64_integer n with Some _ => true | None => false end
  then Some (f64_as_u32 n) else None.

Definition parse_default_strategy (value : string) : option DefaultStrategy :=
  if bool_decide (value = "first_per_language") then Some DefaultStrategy_FirstPerLanguage
  else if bool_decide (value = "none") then Some DefaultStrategy_None
  else if bool_decide (value = "first") then Some DefaultStrategy_First
  else if bool_decide (value = "all") then Some DefaultStrategy_All
  else None.

Definition compile_error_strategy (strategy : ErrorStrategyNode) : ErrorStrategy :=
  match strategy with
  | ErrorStrategyNode_Continue => ErrorStrategy_Continue
  | ErrorStrategyNode_Skip => ErrorStrategy_Skip
  | ErrorStrategyNode_Abort => ErrorStrategy_Abort
  | ErrorStrategyNode_Quarantine => ErrorStrategy_Quarantine
  end.

Definition compile_run_if_trigger (trigger : RunIfTriggerNode) : RunIfTrigger :=
  match trigger with
  | RunIfTriggerNode_Modified => RunIfTrigger_Modified
  | RunIfTriggerNode_Completed => RunIfTrigger_Completed
  end.

Definition compile_compare_op (op : CompareOp) : CompiledCompareOp :=
  match op with
  | CompareOp_Eq => Cmp_Eq
  | CompareOp_Ne => Cmp_Ne
  | CompareOp_Lt => Cmp_Lt
  | CompareOp_Le => Cmp_Le
  | CompareOp_Gt => Cmp_Gt
  | CompareOp_Ge => Cmp_Ge
  | CompareOp_In => Cmp_In
  end.

(** The targets [parse_track_target] knows. *)
Definition track_target_of (target : string) : option TrackTarget :=
  if bool_decide (target = "video") then Some TrackTarget_Video
  else if bool_decide (target = "audio") then Some TrackTarget_Audio
  else if bool_decide (target = "subtitle") || bool_decide (target = "subtitles")
  then Some TrackTarget_Subtitle
  else if bool_decide (target = "attachment") || bool_decide (target = "attachments")
  then Some TrackTarget_Attachment
  else if bool_decide (target = "track") then Some TrackTarget_Any
  else None.

Definition parse_track_target (target : string) : compiled TrackTarget :=
  match track_target_of target with
  | Some t => Ok t
  | None => Err (CompilePanic "validator rejects unknown track targets")
  end.

(** ** Metadata and configuration *)
Definition compile_metadata (metadata : option MetadataNode) (extends_chain : list string)
    : CompiledMetadata :=
  match metadata with
  | None => {|
      CompiledMetadata_version := None;
      CompiledMetadata_author := None;
      CompiledMetadata_description := None;
      CompiledMetadata_requires_voom := None;
      CompiledMetadata_requires_tools := [];
      CompiledMetadata_test_fixtures := [];
      CompiledMetadata_extends_chain := extends_chain;
    |}
  | Some m => {|
      CompiledMetadata_version := MetadataNode_version m;
      CompiledMetadata_author := MetadataNode_author m;
      CompiledMetadata_description := MetadataNode_description m;
      CompiledMetadata_requires_voom := MetadataNode_requires_voom m;
      CompiledMetadata_requires_tools := default [] (MetadataNode_requires_tools m);
      CompiledMetadata_test_fixtures := default [] (MetadataNode_test_fixtures m);
      CompiledMetadata_extends_chain := extends_chain;
    |}
  end.

Definition compile_config (config : option ConfigNode) : CompiledConfig :=
  match config with
  | Some c => {|
      CompiledConfig_audio_languages := ConfigNode_audio_languages c;
      CompiledConfig_subtitle_languages := ConfigNode_subtitle_languages c;
      CompiledConfig_on_error :=
        default ErrorStrategy_Abort (compile_error_strategy <$> ConfigNode_on_error c);
      CompiledConfig_commentary_patterns := ConfigNode_commentary_patterns c;
      CompiledConfig_keep_backups := default false (ConfigNode_keep_backups c);
    |}
  | None => {|
      CompiledConfig_audio_languages := [];
      CompiledConfig_subtitle_languages := [];
      CompiledConfig_on_error := ErrorStrategy_Abort;
      CompiledConfig_commentary_patterns := [];
      CompiledConfig_keep_backups := false;
    |}
  end.

(** ** Values *)
Fixpoint value_to_json (value : Value) : JValue :=
  match value with
  | Value_String s | Value_Ident s => JString s
  | Value_Number n _ => json_f64 n
  | Value_Bool b => JBool b
  | Value_List items => JArray (value_to_json <$> items)
  | Value_Object items =>
      JObject (json_map_collect ((λ kv, (kv.1, value_to_json kv.2)) <$> items))
  | Value_Call name args =>
      JObject (json_map_insert "args"
                 (JObject (json_map_collect ((λ kv, (kv.1, value_to_json kv.2)) <$> args)))
                 (json_map_insert "name" (JString name) []))
  end.

Definition compile_value_or_field (vof : ValueOrField) : CompiledValueOrField :=
  match vof with
  | ValueOrField_Value v => CV_Value (value_to_json v)
  | ValueOrField_Field path => CV_Field path
  end.

(** [settings.iter().find(|(k, _)| k == key).map(|(_, v)| v)] *)
Definition get_setting (settings : list (string * Value)) (key : string) : option Value :=
  snd <$> List.find (λ kv, bool_decide (kv.1 = key)) settings.

Definition get_u32 (value : option Value) : option u32 :=
  match value with
  | Some (Value_Number n _) => safe_u32 n
  | _ => None
  end.

(** The text of a string, identifier or number *)
Definition value_as_string (value : Value) : option string :=
  match value with
  | Value_Ident s | Value_String s | Value_Number _ s => Some s
  | _ => None
  end.

(** The text of a string or identifier ([get_str]) *)
Definition value_as_name (value : Value) : option string :=
  match value with
  | Value_Ident s | Value_String s => Some s
  | _ => None
  end.

Definition value_as_bool (value : Value) : option bool :=
  match value with Value_Bool b => Some b | _ => None end.

Definition value_as_channels (value : Value) : option TranscodeChannels :=
  match value with
  | Value_Number n _ => TranscodeChannels_Count <$> safe_u32 n
  | Value_Ident s | Value_String s => Some (TranscodeChannels_Named s)
  | _ => None
  end.

(** The texts of a list value's strings, identifiers and numbers *)
Definition value_string_list (value : option Value) : list string :=
  match value with
  | Some (Value_List items) => omap value_as_string items
  | _ => []
  end.

(** ** Transcoding *)
Definition parse_sample_strategy (value : option Value) : option SampleStrategy :=
  match value with
  | Some (Value_Ident name) =>
      if bool_decide (name = "full") then Some SampleStrategy_Full else None
  | Some (Value_Call name args) =>
      if bool_decide (name = "scenes") || bool_decide (name = "uniform") then
        count ← get_u32 (get_setting args "count");
        duration ← (get_setting args "duration" ≫= value_as_string);
        Some (if bool_decide (name = "scenes") then SampleStrategy_Scenes count duration
              else SampleStrategy_Uniform count duration)
      else None
  | _ => None
  end.

Definition parse_transcode_fallback (value : option Value) : option TranscodeFallback :=
  match value with
  | Some (Value_Object items) =>
      crf ← get_u32 (get_setting items "crf");
      preset ← (get_setting items "preset" ≫= value_as_name);
      Some (TranscodeFallback_new crf preset)
  | _ => None
  end.

Definition vmaf_override (overrides : gmap string u32) (setting : string * Value)
    : gmap string u32 :=
  let '(key, value) := setting in
  match strip_prefix "target_vmaf_when " key ≫= strip_prefix "content." with
  | Some content_type =>
      match get_u32 (Some value) with
      | Some target => <[content_type := target]> overrides
      | None => overrides
      end
  | None => overrides
  end.

Definition parse_vmaf_overrides (settings : list (string * Value)) : option (gmap string u32) :=
  let overrides := foldl vmaf_override ∅ settings in
  if bool_decide (overrides = ∅) then None else Some overrides.

Definition compile_crop_settings (settings : list (string * Value)) : option CropSettings :=
  let get := get_setting settings in
  let get_str key := get key ≫= value_as_name in
  if negb (bool_decide (get_str "crop" = Some "auto")) then None
  else Some {|
    CropSettings_sample_duration_secs := get_u32 (get "crop_sample_duration");
    CropSettings_sample_count := get_u32 (get "crop_sample_count");
    CropSettings_threshold :=
      v ← get_u32 (get "crop_threshold"); if (v <=? 255)%N then Some v else None;
    CropSettings_minimum_crop := get_u32 (get "crop_minimum");
    CropSettings_preserve_bottom_pixels := get_u32 (get "crop_preserve_bottom_pixels");
    CropSettings_aspect_lock := value_string_list (get "crop_aspect_lock");
  |}.

Definition normalize_from_preset (name : string) : option LoudnessNormalization :=
  LoudnessPreset_defaults <$> LoudnessPreset_parse name.

Definition value_to_normalize (value : Value) : option LoudnessNormalization :=
  match value with
  | Value_Ident name | Value_String name => normalize_from_preset name
  | _ => None
  end.

Definition compile_transcode_settings (settings : list (string * Value))
    : CompiledTranscodeSettings :=
  let get := get_setting settings in
  let get_str key := get key ≫= value_as_name in
  let get_text key := get key ≫= value_as_string in
  {|
    CTS_preserve := value_string_list (get "preserve");
    CTS_crf := get_u32 (get "crf");
    CTS_preset := get_str "preset";
    CTS_bitrate := get_text "bitrate";
    CTS_target_vmaf := get_u32 (get "target_vmaf");
    CTS_max_bitrate := get_text "max_bitrate";
    CTS_min_bitrate := get_text "min_bitrate";
    CTS_sample_strategy := parse_sample_strategy (get "sample_strategy");
    CTS_fallback := parse_transcode_fallback (get "fallback");
    CTS_vmaf_overrides := parse_vmaf_overrides settings;
    CTS_channels := get "channels" ≫= value_as_channels;
    CTS_hw := get_str "hw";
    CTS_hw_fallback := get "hw_fallback" ≫= value_as_bool;
    CTS_max_resolution := get_text "max_resolution";
    CTS_scale_algorithm := get_str "scale_algorithm";
    CTS_hdr_mode := get_str "hdr_mode";
    CTS_preserve_hdr := get "preserve_hdr" ≫= value_as_bool;
    CTS_tonemap := get_str "tonemap";
    CTS_hdr_color_metadata := get_str "hdr_color_metadata";
    CTS_dolby_vision := get_str "dolby_vision";
    CTS_tune := get_str "tune";
    CTS_crop := compile_crop_settings settings;
    CTS_loudness :=
      match get "normalize" ≫= value_to_normalize with
      | Some l => Some l
      | None => get_str "normalize" ≫= normalize_from_preset
      end;
  |}.

Definition compile_transcode (target codec : string) (settings : list (string * Value))
    : compiled CompiledOperation :=
  target ← parse_track_target target;
  Ok (CO_Transcode target (canonical_codec codec) (compile_transcode_settings settings)).

(** ** Loudness *)
Definition normalize_override (l : LoudnessNormalization) (setting : string * Value)
    : LoudnessNormalization :=
  let '(key, value) := setting in
  match value with
  | Value_Number n _ =>
      {| LoudnessNormalization_preset := LoudnessNormalization_preset l;
         LoudnessNormalization_target_lufs :=
           if bool_decide (key = "target_lufs") then n else LoudnessNormalization_target_lufs l;
         LoudnessNormalization_true_peak_db :=
           if bool_decide (key = "true_peak_db") then n else LoudnessNormalization_true_peak_db l;
         LoudnessNormalization_lra_max :=
           if bool_decide (key = "lra_max") then Some n else LoudnessNormalization_lra_max l;
         LoudnessNormalization_tolerance_lufs :=
           if bool_decide (key = "tolerance_lufs") then n
           else LoudnessNormalization_tolerance_lufs l;
         LoudnessNormalization_measured := LoudnessNormalization_measured l |}
  | _ => l
  end.

Definition compile_normalize (setting : NormalizeSetting) : compiled LoudnessNormalization :=
  match LoudnessPreset_parse (NormalizeSetting_preset setting) with
  | None =>
      compile_error ("unknown loudness preset '" +:+ NormalizeSetting_preset setting +:+ "'")
  | Some preset =>
      Ok (foldl normalize_override (LoudnessPreset_defaults preset)
            (NormalizeSetting_settings setting))
  end.

Inductive PhaseComposition : Type :=
| PhaseComposition_Local
| PhaseComposition_Inherited (source : string)
| PhaseComposition_Extended (source : string) (added_operations : usize)
| PhaseComposition_Overridden (source : string).

Definition compile_phase_composition (composition : option PhaseComposition)
    : CompiledPhaseComposition :=
  match composition with
  | None | Some PhaseComposition_Local =>
      Build_CompiledPhaseComposition PhaseCompositionKind_Local None 0
  | Some (PhaseComposition_Inherited source) =>
      Build_CompiledPhaseComposition PhaseCompositionKind_Inherited (Some source) 0
  | Some (PhaseComposition_Extended source added) =>
      Build_CompiledPhaseComposition PhaseCompositionKind_Extended (Some source) added
  | Some (PhaseComposition_Overridden source) =>
      Build_CompiledPhaseComposition PhaseCompositionKind_Overridden (Some source) 0
  end.

Section compile.
Context `{RegexCrate, ValueDebug}.

(** ** Filters and conditions *)
Fixpoint compile_filter (filter : FilterNode) : compiled CompiledFilter :=
  match filter with
  | FilterNode_LangIn langs => Ok (CF_LangIn langs)
  | FilterNode_LangCompare op lang => Ok (CF_LangCompare (compile_compare_op op) lang)
  | FilterNode_LangField op path => Ok (CF_LangField (compile_compare_op op) path)
  | FilterNode_CodecCompare op codec =>
      Ok (CF_CodecCompare (compile_compare_op op) (canonical_codec codec))
  | FilterNode_CodecField op path => Ok (CF_CodecField (compile_compare_op op) path)
  | FilterNode_CodecIn codec_list => Ok (CF_CodecIn (canonical_codec <$> codec_list))
  | FilterNode_Channels op val => Ok (CF_Channels (compile_compare_op op) val)
  | FilterNode_Commentary => Ok CF_Commentary
  | FilterNode_Forced => Ok CF_Forced
  | FilterNode_Default => Ok CF_Default
  | FilterNode_Font => Ok CF_Font
  | FilterNode_TitleContains s => Ok (CF_TitleContains s)
  | FilterNode_TitleMatches s =>
      match CompiledRegex_new s with
      | Ok compiled => Ok (CF_TitleMatches compiled)
      | Err e => compile_error ("invalid regex pattern '" +:+ s +:+ "': " +:+ e)
      end
  | FilterNode_And items => cs ← try_map compile_filter items; Ok (CF_And cs)
  | FilterNode_Or items => cs ← try_map compile_filter items; Ok (CF_Or cs)
  | FilterNode_Not inner => c ← compile_filter inner; Ok (CF_Not c)
  end.

(** A target with its optional filter, in evaluation order. *)
Definition compile_target_filter (target : string) (filter : option FilterNode)
    : compiled (TrackTarget * option CompiledFilter) :=
  target ← parse_track_target target;
  filter ← try_opt compile_filter filter;
  Ok (target, filter).

Fixpoint compile_condition (cond : ConditionNode) : compiled CompiledCondition :=
  match cond with
  | ConditionNode_Exists query =>
      '(target, filter) ← compile_target_filter (TrackQueryNode_target query)
                            (TrackQueryNode_filter query);
      Ok (CC_Exists target filter)
  | ConditionNode_Count query op value =>
      '(target, filter) ← compile_target_filter (TrackQueryNode_target query)
                            (TrackQueryNode_filter query);
      Ok (CC_Count target filter (compile_compare_op op) value)
  | ConditionNode_FieldCompare path op value =>
      Ok (CC_FieldCompare path (compile_compare_op op) (value_to_json value))
  | ConditionNode_FieldExists path => Ok (CC_FieldExists path)
  | ConditionNode_AudioIsMultiLanguage => Ok CC_AudioIsMultiLanguage
  | ConditionNode_IsDubbed => Ok CC_IsDubbed
  | ConditionNode_IsOriginal => Ok CC_IsOriginal
  | ConditionNode_And items => cs ← try_map compile_condition items; Ok (CC_And cs)
  | ConditionNode_Or items => cs ← try_map compile_condition items; Ok (CC_Or cs)
  | ConditionNode_Not inner => c ← compile_condition inner; Ok (CC_Not c)
  end.

(** ** Actions *)
Definition compile_action (action : ActionNode) : compiled CompiledAction :=
  match action with
  | ActionNode_Keep target filter =>
      '(target, filter) ← compile_target_filter target filter; Ok (CA_Keep target filter)
  | ActionNode_Remove target filter =>
      '(target, filter) ← compile_target_filter target filter; Ok (CA_Remove target filter)
  | ActionNode_Skip phase => Ok (CA_Skip phase)
  | ActionNode_Warn msg => Ok (CA_Warn msg)
  | ActionNode_Fail msg => Ok (CA_Fail msg)
  | ActionNode_SetDefault r =>
      '(target, filter) ← compile_target_filter (TrackRefNode_target r) (TrackRefNode_filter r);
      Ok (CA_SetDefault target filter)
  | ActionNode_SetForced r =>
      '(target, filter) ← compile_target_filter (TrackRefNode_target r) (TrackRefNode_filter r);
      Ok (CA_SetForced target filter)
  | ActionNode_SetLanguage r val =>
      '(target, filter) ← compile_target_filter (TrackRefNode_target r) (TrackRefNode_filter r);
      Ok (CA_SetLanguage target filter (compile_value_or_field val))
  | ActionNode_SetTag tag val => Ok (CA_SetTag tag (compile_value_or_field val))
  end.

Definition compile_conditional (when : WhenNode) : compiled CompiledConditional :=
  condition ← compile_condition (WhenNode_condition when);
  then_actions ← try_map compile_action (WhenNode_then_actions when);
  else_actions ← try_map compile_action (WhenNode_else_actions when);
  Ok (Build_CompiledConditional condition then_actions else_actions).

(** ** Synthesized tracks

    One iteration of the loop over the settings; the local variables of the
    code are the fields of the result under construction. *)
Definition synth_apply (s : CompiledSynthesize) (setting : SynthSetting)
    : compiled CompiledSynthesize :=
  let '(Build_CompiledSynthesize name co ch so br sk cr ti la po lo) := s in
  match setting with
  | SynthSetting_Codec c =>
      Ok (Build_CompiledSynthesize name (Some (canonical_codec c)) ch so br sk cr ti la po lo)
  | SynthSetting_Channels v =>
      Ok (Build_CompiledSynthesize name co (value_as_channels v) so br sk cr ti la po lo)
  | SynthSetting_Source f =>
      f ← compile_filter f;
      Ok (Build_CompiledSynthesize name co ch (Some f) br sk cr ti la po lo)
  | SynthSetting_Bitrate b =>
      Ok (Build_CompiledSynthesize name co ch so (Some b) sk cr ti la po lo)
  | SynthSetting_SkipIfExists f =>
      f ← compile_filter f;
      Ok (Build_CompiledSynthesize name co ch so br (Some f) cr ti la po lo)
  | SynthSetting_CreateIf c =>
      c ← compile_condition c;
      Ok (Build_CompiledSynthesize name co ch so br sk (Some c) ti la po lo)
  | SynthSetting_Title t =>
      Ok (Build_CompiledSynthesize name co ch so br sk cr (Some t) la po lo)
  | SynthSetting_Language l =>
      Ok (Build_CompiledSynthesize name co ch so br sk cr ti
            (Some (if bool_decide (l = "inherit") then SynthLanguage_Inherit
                   else SynthLanguage_Fixed l)) po lo)
  | SynthSetting_Position v =>
      Ok (Build_CompiledSynthesize name co ch so br sk cr ti la
            (Some match v with
                  | Value_Number n _ => SynthPosition_Index (default 0%N (safe_u32 n))
                  | Value_Ident s => SynthPosition_Named s
                  | _ => SynthPosition_Named (value_debug v)
                  end) lo)
  | SynthSetting_Normalize n =>
      l ← compile_normalize n;
      Ok (Build_CompiledSynthesize name co ch so br sk cr ti la po (Some l))
  end.

Fixpoint synth_apply_all (s : CompiledSynthesize) (settings : list SynthSetting)
    : compiled CompiledSynthesize :=
  match settings with
  | [] => Ok s
  | setting :: settings => s ← synth_apply s setting; synth_apply_all s settings
  end.

Definition compile_synthesize (name : string) (settings : list SynthSetting)
    : compiled CompiledSynthesize :=
  synth_apply_all
    (Build_CompiledSynthesize name None None None None None None None None None None) settings.

(** ** Operations *)
Definition compile_default (item : string * string) : compiled CompiledDefault :=
  target ← parse_track_target item.1;
  Ok (Build_CompiledDefault target
        (default DefaultStrategy_None (parse_default_strategy item.2))).

Definition bool_setting (settings : list (string * Value)) (key : string) : bool :=
  default false (get_setting settings key ≫= value_as_bool).

Definition compile_rules_mode (mode : string) : compiled RulesMode :=
  if bool_decide (mode = "first") then Ok RulesMode_First
  else if bool_decide (mode = "all") then Ok RulesMode_All
  else Err (CompilePanic "validator rejects unknown rules modes").

Definition compile_verify_mode (mode : VerifyMode) : VerificationMode :=
  match mode with
  | VerifyMode_Quick => VerificationMode_Quick
  | VerifyMode_Thorough => VerificationMode_Thorough
  | VerifyMode_Hash => VerificationMode_Hash
  end.

Definition compile_operation (op : OperationNode) : compiled CompiledOperation :=
  match op with
  | OperationNode_Container name =>
      let container := Container_from_extension name in
      if bool_decide (container = Container_Other) then
        compile_error ("unknown container '" +:+ name +:+ "'; expected one of: "
                       +:+ str_join ", " Container_known_extensions)
      else Ok (CO_SetContainer container)
  | OperationNode_Keep target filter normalize =>
      '(target, filter) ← compile_target_filter target filter;
      match normalize with
      | Some normalize =>
          settings ← compile_normalize normalize;
          Ok (CO_NormalizeAudio target filter settings)
      | None => Ok (CO_Keep target filter)
      end
  | OperationNode_Remove target filter =>
      '(target, filter) ← compile_target_filter target filter; Ok (CO_Remove target filter)
  | OperationNode_Order items => Ok (CO_ReorderTracks items)
  | OperationNode_Defaults items =>
      defaults ← try_map compile_default items; Ok (CO_SetDefaults defaults)
  | OperationNode_Actions target settings =>
      target ← parse_track_target target;
      Ok (CO_ClearActions target
            (Build_ClearActionsSettings (bool_setting settings "clear_all_default")
               (bool_setting settings "clear_all_forced")
               (bool_setting settings "clear_all_titles")))
  | OperationNode_Transcode target codec settings => compile_transcode target codec settings
  | OperationNode_Synthesize name settings =>
      s ← compile_synthesize name settings; Ok (CO_Synthesize s)
  | OperationNode_ClearTags => Ok CO_ClearTags
  | OperationNode_SetTag tag value => Ok (CO_SetTag tag (compile_value_or_field value))
  | OperationNode_DeleteTag tag => Ok (CO_DeleteTag tag)
  | OperationNode_When when => c ← compile_conditional when; Ok (CO_Conditional c)
  | OperationNode_Rules mode rules =>
      compiled_rules ← try_map (λ r,
        c ← compile_conditional (RuleNode_when r);
        Ok (Build_CompiledRule (RuleNode_name r) c)) rules;
      mode ← compile_rules_mode mode;
      Ok (CO_Rules mode compiled_rules)
  | OperationNode_Verify mode => Ok (CO_Verify (compile_verify_mode mode))
  end.

(** ** Phases and policies *)
Definition compile_phase (phase : PhaseNode) (composition : option PhaseComposition)
    : compiled CompiledPhase :=
  if PhaseNode_extend phase then
    compile_error ("phase " +:+ dquote +:+ PhaseNode_name phase +:+ dquote
                   +:+ " uses extend but policy composition was not resolved")
  else
    skip_when ← try_opt compile_condition (PhaseNode_skip_when phase);
    operations ← try_map (λ s, compile_operation (SpannedOperation_node s))
                   (PhaseNode_operations phase);
    Ok {|
      CompiledPhase_name := PhaseNode_name phase;
      CompiledPhase_depends_on := default [] (PhaseNode_depends_on phase);
      CompiledPhase_skip_when := skip_when;
      CompiledPhase_run_if :=
        (λ r, Build_CompiledRunIf (RunIfNode_phase r)
                (compile_run_if_trigger (RunIfNode_trigger r))) <$> PhaseNode_run_if phase;
      CompiledPhase_on_error :=
        default ErrorStrategy_Abort (compile_error_strategy <$> PhaseNode_on_error phase);
      CompiledPhase_composition := compile_phase_composition composition;
      CompiledPhase_operations := operations;
    |}.

Context `{PartitionPoint, HashOrder}.

Definition compile_ast_with_composition (ast : PolicyAst) (extends_chain : list string)
    (phase_sources : gmap string PhaseComposition) : compiled CompiledPolicy :=
  phases ← try_map (λ phase, compile_phase phase (phase_sources !! PhaseNode_name phase))
             (PolicyAst_phases ast);
  phase_order ← match topological_sort ast with
                | Some (Ok order) => Ok order
                | Some (Err e) => Err (CompileError e)
                | None => Err (CompilePanic "topological_sort")
                end;
  Ok {|
    CompiledPolicy_name := PolicyAst_name ast;
    CompiledPolicy_metadata := compile_metadata (PolicyAst_metadata ast) extends_chain;
    CompiledPolicy_config := compile_config (PolicyAst_config ast);
    CompiledPolicy_phases := phases;
    CompiledPolicy_phase_order := phase_order;
    CompiledPolicy_source_hash := "";
  |}.

Definition compile_ast (ast : PolicyAst) : compiled CompiledPolicy :=
  compile_ast_with_composition ast [] ∅.
End compile.
