(* ===== verification/CompilerFacts.v ===== *)
(** * Correctness of the compiler

    The compiler panics only on track targets and rule modes outside the
    grammar; what it produces has the phases of the source, in an order that
    respects their dependencies. *)
From S2P Require Import Prelude Json Media Plan Compiled CapabilityMap Condition Evaluator.
From S2P Require Import EmitFacts PhaseFacts Codecs Ast TopoSort Compiler.

(** ** Absence of panics *)

Definition no_panic {A} (r : result compile_failure A) : Prop := ∀ msg, r ≠ Err (CompilePanic msg).

Lemma no_panic_Ok {A} (a : A) : no_panic (Ok a).
Proof. by intros msg. Qed.

Lemma no_panic_error {A} msg : no_panic (compile_error (A := A) msg).
Proof. by intros m. Qed.

Lemma no_panic_bind {A B} (r : result compile_failure A) (f : A → result compile_failure B) :
  no_panic r → (∀ a, no_panic (f a)) → no_panic (r ≫= f).
Proof. destruct r as [a|e]; simpl; [auto|]. intros Hr _ msg [= ->]. by apply (Hr msg). Qed.

Lemma no_panic_try_map {A B} (f : A → result compile_failure B) l :
  (∀ x, x ∈ l → no_panic (f x)) → no_panic (try_map f l).
Proof.
  induction l as [|x l IH]; intros Hf; simpl; [apply no_panic_Ok|].
  apply no_panic_bind; [apply Hf; by left|]. intros y. apply no_panic_bind; [|by intros].
  apply IH. intros z Hz. apply Hf. by right.
Qed.

Lemma no_panic_try_opt {A B} (f : A → result compile_failure B) o :
  (∀ x, o = Some x → no_panic (f x)) → no_panic (try_opt f o).
Proof.
  destruct o; simpl; [|intros; apply no_panic_Ok]. intros Hf.
  apply no_panic_bind; [by apply Hf|by intros].
Qed.

#[export] Hint Resolve no_panic_Ok no_panic_error : voom.

(** The conditions the grammar (and the validator) guarantee. *)
Definition target_ok (target : string) : bool :=
  match track_target_of target with Some _ => true | None => false end.

Fixpoint condition_ok (c : ConditionNode) : bool :=
  match c with
  | ConditionNode_Exists q | ConditionNode_Count q _ _ => target_ok (TrackQueryNode_target q)
  | ConditionNode_And cs | ConditionNode_Or cs => forallb condition_ok cs
  | ConditionNode_Not c => condition_ok c
  | _ => true
  end.

Definition action_node_ok (a : ActionNode) : bool :=
  match a with
  | ActionNode_Keep target _ | ActionNode_Remove target _ => target_ok target
  | ActionNode_SetDefault r | ActionNode_SetForced r | ActionNode_SetLanguage r _ =>
      target_ok (TrackRefNode_target r)
  | _ => true
  end.

Definition when_ok (w : WhenNode) : bool :=
  condition_ok (WhenNode_condition w) && forallb action_node_ok (WhenNode_then_actions w) &&
  forallb action_node_ok (WhenNode_else_actions w).

Definition synth_ok (s : SynthSetting) : bool :=
  match s with SynthSetting_CreateIf c => condition_ok c | _ => true end.

Definition operation_ok (op : OperationNode) : bool :=
  match op with
  | OperationNode_Keep target _ _ | OperationNode_Remove target _
  | OperationNode_Actions target _ | OperationNode_Transcode target _ _ => target_ok target
  | OperationNode_Defaults items => forallb (λ i, target_ok i.1) items
  | OperationNode_Synthesize _ settings => forallb synth_ok settings
  | OperationNode_When w => when_ok w
  | OperationNode_Rules mode rules =>
      str_in ["first"; "all"] mode && forallb (λ r, when_ok (RuleNode_when r)) rules
  | _ => true
  end.

Definition phase_node_ok (p : PhaseNode) : bool :=
  match PhaseNode_skip_when p with Some c => condition_ok c | None => true end &&
  forallb (λ s, operation_ok (SpannedOperation_node s)) (PhaseNode_operations p).

Definition ast_ok (ast : PolicyAst) : bool := forallb phase_node_ok (PolicyAst_phases ast).

Ltac bool_hyps :=
  repeat match goal with
  | H : _ && _ = true |- _ => apply andb_prop in H as [? ?]
  end.

Section no_panic.
Context `{RegexCrate, ValueDebug, PartitionPoint, HashOrder}.

Lemma no_panic_target target : target_ok target = true → no_panic (parse_track_target target).
Proof. unfold target_ok, parse_track_target. case_match; [auto with voom|done]. Qed.

Lemma no_panic_filter f : no_panic (compile_filter f).
Proof.
  induction f as [f Hf|fs IH|fs IH|f IH] using FilterNode_nested_ind; simpl.
  - destruct f; try done; simpl; auto with voom. case_match; auto with voom.
  - apply no_panic_bind; [|by intros]. apply no_panic_try_map. by apply Forall_forall.
  - apply no_panic_bind; [|by intros]. apply no_panic_try_map. by apply Forall_forall.
  - apply no_panic_bind; [done|by intros].
Qed.

Lemma no_panic_target_filter target filter :
  target_ok target = true → no_panic (compile_target_filter target filter).
Proof.
  intros Ht. apply no_panic_bind; [by apply no_panic_target|]. intros t.
  apply no_panic_bind; [|by intros]. apply no_panic_try_opt. intros f _. apply no_panic_filter.
Qed.

Hint Resolve no_panic_target no_panic_filter no_panic_target_filter : voom.

Lemma no_panic_condition c : condition_ok c = true → no_panic (compile_condition c).
Proof.
  induction c as [c Hf|cs IH|cs IH|c IH] using ConditionNode_nested_ind; intros Hok; simpl in *.
  - destruct c; try done; simpl; auto with voom;
      (apply no_panic_bind; [auto with voom|intros []; auto with voom]).
  - apply no_panic_bind; [|by intros]. apply no_panic_try_map. intros c Hc.
    rewrite forallb_elem_of in Hok. rewrite Forall_forall in IH. auto.
  - apply no_panic_bind; [|by intros]. apply no_panic_try_map. intros c Hc.
    rewrite forallb_elem_of in Hok. rewrite Forall_forall in IH. auto.
  - apply no_panic_bind; [auto|by intros].
Qed.

Lemma no_panic_action a : action_node_ok a = true → no_panic (compile_action a).
Proof.
  destruct a; simpl; intros Hok; auto with voom;
    (apply no_panic_bind; [auto with voom|intros []; auto with voom]).
Qed.

Lemma no_panic_conditional w : when_ok w = true → no_panic (compile_conditional w).
Proof.
  unfold when_ok. intros Hok. bool_hyps. rewrite !forallb_elem_of in *.
  apply no_panic_bind; [by apply no_panic_condition|]. intros c.
  apply no_panic_bind; [apply no_panic_try_map; auto using no_panic_action|]. intros t.
  apply no_panic_bind; [apply no_panic_try_map; auto using no_panic_action|by intros].
Qed.

Lemma no_panic_normalize n : no_panic (compile_normalize n).
Proof. unfold compile_normalize. case_match; auto with voom. Qed.

Lemma no_panic_synthesize name settings :
  forallb synth_ok settings = true → no_panic (compile_synthesize name settings).
Proof.
  unfold compile_synthesize. generalize (Build_CompiledSynthesize name None None None None
    None None None None None None) as s.
  induction settings as [|x settings IH]; intros s Hok; simpl in *; [auto with voom|]. bool_hyps.
  apply no_panic_bind; [|auto]. destruct s; simpl. destruct x; simpl in *; auto with voom;
    (apply no_panic_bind; [|auto with voom]);
    auto using no_panic_condition, no_panic_filter, no_panic_normalize.
Qed.

Lemma no_panic_operation op : operation_ok op = true → no_panic (compile_operation op).
Proof.
  destruct op; simpl; intros Hok; auto with voom.
  - case_match; auto with voom.
  - apply no_panic_bind; [auto with voom|]. intros [t f]. case_match; auto with voom.
    apply no_panic_bind; [apply no_panic_normalize|auto with voom].
  - apply no_panic_bind; [auto with voom|intros []; auto with voom].
  - rewrite forallb_elem_of in Hok. apply no_panic_bind; [|auto with voom].
    apply no_panic_try_map. intros i Hi. apply no_panic_bind; auto with voom.
  - apply no_panic_bind; auto with voom.
  - apply no_panic_bind; auto with voom.
  - apply no_panic_bind; [by apply no_panic_synthesize|auto with voom].
  - apply no_panic_bind; [by apply no_panic_conditional|auto with voom].
  - bool_hyps. match goal with Hr : forallb _ _ = true |- _ => rewrite forallb_elem_of in Hr end.
    apply no_panic_bind.
    + apply no_panic_try_map. intros r Hr.
      apply no_panic_bind; [apply no_panic_conditional; auto|auto with voom].
    + intros rs. apply no_panic_bind; [|auto with voom]. unfold compile_rules_mode, str_in in *.
      repeat case_bool_decide; auto with voom; try set_solver.
Qed.

Lemma no_panic_phase p c : phase_node_ok p = true → no_panic (compile_phase p c).
Proof.
  unfold phase_node_ok, compile_phase. intros Hok. bool_hyps.
  destruct (PhaseNode_extend p); [auto with voom|].
  apply no_panic_bind.
  - apply no_panic_try_opt. intros x Hx. apply no_panic_condition. by rewrite Hx in *.
  - intros sw. apply no_panic_bind; [|by intros]. apply no_panic_try_map.
    match goal with Hr : forallb _ _ = true |- _ => rewrite forallb_elem_of in Hr end.
    intros s Hs. apply no_panic_operation. auto.
Qed.

Lemma no_panic_compile ast chain sources :
  ast_ok ast = true → no_panic (compile_ast_with_composition ast chain sources).
Proof.
  unfold ast_ok. rewrite forallb_elem_of. intros Hok.
  apply no_panic_bind; [apply no_panic_try_map; auto using no_panic_phase|]. intros phases.
  destruct (topological_sort_cases ast) as [(o & -> & _)|(e & res & -> & _)]; simpl;
    auto with voom. by intros m.
Qed.
End no_panic.

(** ** Shape of the compiled policy *)
Section shape.
Context `{RegexCrate, ValueDebug, PartitionPoint, HashOrder}.

Lemma compile_phase_Ok p c cp :
  compile_phase p c = Ok cp →
  CompiledPhase_name cp = PhaseNode_name p ∧ CompiledPhase_depends_on cp = deps_of p ∧
  PhaseNode_extend p = false ∧
  Forall2 (λ s o, compile_operation (SpannedOperation_node s) = Ok o)
          (PhaseNode_operations p) (CompiledPhase_operations cp).
Proof.
  unfold compile_phase. destruct (PhaseNode_extend p); [done|].
  destruct (try_opt compile_condition (PhaseNode_skip_when p)) as [sw|]; simpl; [|done].
  destruct (try_map _ (PhaseNode_operations p)) as [ops|] eqn:Hops; simpl; [|done].
  intros [= <-]. simpl. apply try_map_Ok_Forall2 in Hops. done.
Qed.

Lemma compile_Ok ast chain sources policy :
  compile_ast_with_composition ast chain sources = Ok policy →
  Forall2 (λ p cp, compile_phase p (sources !! PhaseNode_name p) = Ok cp)
          (PolicyAst_phases ast) (CompiledPolicy_phases policy) ∧
  topological_sort ast = Some (Ok (CompiledPolicy_phase_order policy)) ∧
  CompiledPolicy_name policy = PolicyAst_name ast.
Proof.
  unfold compile_ast_with_composition.
  destruct (try_map _ (PolicyAst_phases ast)) as [phases|] eqn:Hp; simpl; [|done].
  destruct (topological_sort ast) as [[o|]|]; simpl; [|done|done].
  intros [= <-]. simpl. by rewrite <-try_map_Ok_Forall2.
Qed.

Lemma compile_names ast chain sources policy :
  compile_ast_with_composition ast chain sources = Ok policy →
  CompiledPhase_name <$> CompiledPolicy_phases policy = ast_names ast.
Proof.
  intros (Hf & _ & _)%compile_Ok. unfold ast_names.
  induction Hf as [|p cp ps cps Hp _ IH]; csimpl; [done|].
  apply compile_phase_Ok in Hp as (-> & _). by rewrite IH.
Qed.

Lemma compile_valid_order ast chain sources policy :
  compile_ast_with_composition ast chain sources = Ok policy →
  valid_order ast (CompiledPolicy_phase_order policy).
Proof.
  intros (_ & Ho & _)%compile_Ok.
  destruct (topological_sort_cases ast) as [(o & Ho' & Hv)|(e & res & Ho' & _)];
    rewrite Ho in Ho'; by simplify_eq.
Qed.

Lemma known_phase_names policy n :
  known_phase policy n = true ↔ n ∈ CompiledPhase_name <$> CompiledPolicy_phases policy.
Proof.
  unfold known_phase. destruct (find_phase policy n) as [ph|] eqn:Hf.
  - apply find_phase_Some in Hf as [Hin <-]. split; [|done]. intros _.
    apply list_elem_of_fmap. eauto.
  - split; [done|]. intros (ph & -> & Hin)%list_elem_of_fmap.
    unfold find_phase in Hf. eapply find_none in Hf; [|by apply list_elem_of_In].
    by apply bool_decide_eq_false in Hf.
Qed.

(** The compiled order lists known phases only, each after its dependencies. *)
Lemma compile_deps_first ast chain sources policy :
  compile_ast_with_composition ast chain sources = Ok policy →
  deps_first policy (CompiledPolicy_phase_order policy) ∧
  List.filter (known_phase policy) (CompiledPolicy_phase_order policy) =
    CompiledPolicy_phase_order policy.
Proof.
  intros Hc. destruct (compile_valid_order _ _ _ _ Hc) as (_ & Hperm & Htop).
  assert (∀ n, n ∈ CompiledPolicy_phase_order policy → known_phase policy n = true) as Hk.
  { intros n Hn. rewrite known_phase_names, (compile_names _ _ _ _ Hc). by rewrite <-Hperm. }
  split.
  - intros pre n post cp Ho Hf d Hd.
    assert ((d, n) ∈ ast_edges ast) as He.
    { apply find_phase_Some in Hf as [Hin <-]. destruct (compile_Ok _ _ _ _ Hc) as (Hf2 & _).
      apply list_elem_of_lookup in Hin as [i Hi].
      destruct (Forall2_lookup_r _ _ _ _ _ Hf2 Hi) as (p & Hp & Hcp).
      apply compile_phase_Ok in Hcp as (-> & Hdep & _). rewrite Hdep in Hd.
      apply elem_of_ast_edges. exists p. split; [by eapply list_elem_of_lookup_2|done]. }
    specialize (Htop pre n post Ho d He). split; [done|]. apply Hk. rewrite Ho. set_solver.
  - revert Hk. generalize (CompiledPolicy_phase_order policy) as l.
    induction l as [|n l IH]; intros Hk; simpl; [done|].
    rewrite Hk by (by left). f_equal. apply IH. intros; apply Hk. by right.
Qed.
End shape.

(** ** Bounded integers *)

(** The largest mantissa of a valid float. *)
Lemma f64_valid_digits s m e :
  f64_valid (S754_finite s m e) = true → (Z.pos (digits2_pos m) ≤ 53)%Z ∧ (-1074 ≤ e)%Z.
Proof.
  unfold f64_valid, valid_binary, bounded, canonical_mantissa. intros Hv.
  apply andb_prop in Hv as [Hc _]. apply Z.eqb_eq in Hc.
  unfold fexp, SpecFloat.emin, f64_prec, f64_emax in Hc. lia.
Qed.

Lemma digits2_pos_lt m : (Z.pos m < 2 ^ Z.pos (digits2_pos m))%Z.
Proof.
  induction m as [m IH|m IH|]; cbn [digits2_pos]; rewrite ?Pos2Z.inj_succ, ?Z.pow_succ_r by lia;
    lia.
Qed.

Lemma u32_MAX_f64 :
  ∃ C, f64_of_N u32_MAX = S754_finite false C (-21) ∧ Z.pos C = (4294967295 * 2 ^ 21)%Z.
Proof. eexists. split; [by vm_compute|done]. Qed.

Lemma safe_u32_sound n k :
  f64_valid n = true → safe_u32 n = Some k → (k ≤ u32_MAX)%N ∧ f64_integer n = Some (Z.of_N k).
Proof.
  unfold safe_u32. intros Hv. destruct u32_MAX_f64 as (C & -> & HC).
  destruct (f64_leb (f64_of_Z 0) n) eqn:H0; [|done].
  destruct (f64_leb n _) eqn:H1; [|done].
  destruct (f64_integer n) as [z|] eqn:Hz; [|done]. simpl. intros [= <-].
  destruct n as [s|s| |[] m e]; try done; simpl in Hz.
  apply f64_valid_digits in Hv as [Hd _]. pose proof (digits2_pos_lt m) as Hm.
  assert (Z.pos m < 2 ^ 53)%Z as Hm53.
  { eapply Z.lt_le_trans; [done|]. apply Z.pow_le_mono_r; lia. }
  unfold f64_leb, SFleb, SFcompare in H1.
  destruct (e ?= -21)%Z eqn:He; [apply Z.compare_eq in He as ->| |done].
  - change (Pos.compare_cont Eq m C) with (Pos.compare m C) in H1.
    assert (Z.pos m ≤ Z.pos C)%Z as Hle.
    { destruct (Pos.compare_spec m C); try done; lia. }
    simpl in *. destruct (_ =? 0)%Z; simplify_eq/=.
    assert (Z.pos m / 2 ^ 21 ≤ 4294967295)%Z by (apply Z.div_le_upper_bound; lia).
    assert (0 ≤ Z.pos m / 2 ^ 21)%Z by (apply Z.div_pos; lia). unfold u32_MAX.
    change (- (-21))%Z with 21%Z.
    rewrite N.min_r by lia. split; [lia|]. f_equal. lia.
  - assert (e < -21)%Z by (by apply Z.compare_lt_iff).
    assert (2 ^ 22 ≤ 2 ^ (-e))%Z as Hpow by (apply Z.pow_le_mono_r; lia).
    assert (Z.pos m / 2 ^ (-e) < 2 ^ 31)%Z as Hq.
    { apply Z.div_lt_upper_bound; [lia|]. change (2 ^ 53)%Z with (2 ^ 22 * 2 ^ 31)%Z in Hm53. nia. }
    assert (0 ≤ Z.pos m / 2 ^ (-e))%Z by (apply Z.div_pos; lia).
    unfold f64_as_u32. destruct (Z.leb_spec 0 e); [lia|].
    destruct (_ =? 0)%Z; simplify_eq/=. unfold u32_MAX. rewrite N.min_r by lia.
    split; [lia|]. f_equal. lia.
Qed.

Lemma digits2_pos_iter_xO m p : digits2_pos (Pos.iter xO m p) = (digits2_pos m + p)%positive.
Proof.
  induction p as [|p IH] using Pos.peano_ind; [simpl; lia|].
  rewrite Pos.iter_succ. cbn [digits2_pos]. rewrite IH. lia.
Qed.

Lemma Zpos_iter_xO m p : Z.pos (Pos.iter xO m p) = (Z.pos m * 2 ^ Z.pos p)%Z.
Proof.
  induction p as [|p IH] using Pos.peano_ind; [simpl; lia|].
  rewrite Pos.iter_succ, Pos2Z.inj_xO, IH, Pos2Z.inj_succ, Z.pow_succ_r by lia. lia.
Qed.

Lemma digits2_pos_le m k : (Z.pos m < 2 ^ Z.pos k)%Z → (digits2_pos m ≤ k)%positive.
Proof.
  revert k; induction m as [m IH|m IH|]; intros k Hk; cbn [digits2_pos]; [| |lia].
  all: destruct (decide (k = 1%positive)) as [->|Hk1]; [simpl in Hk; lia|];
    rewrite <-(Pos.succ_pred k), <-Pos.succ_le_mono by done; apply IH;
    rewrite <-(Pos.succ_pred k), Pos2Z.inj_succ, Z.pow_succ_r in Hk by (done || lia); lia.
Qed.

(** A short integer is represented exactly: its mantissa is shifted to full
    precision. *)
Lemma f64_of_pos_exact m :
  (Z.pos m < 2 ^ 52)%Z →
  ∃ p, f64_of_Z (Z.pos m) = S754_finite false (Pos.iter xO m p) (Z.neg p) ∧
       (digits2_pos m + p = 53)%positive.
Proof.
  intros Hm. apply (digits2_pos_le m 52) in Hm.
  exists (53 - digits2_pos m)%positive. set (p := (53 - digits2_pos m)%positive).
  assert (digits2_pos m + p = 53)%positive as Hp by lia. split; [|done].
  assert (fexp f64_prec f64_emax (53 + Z.neg p) = Z.neg p) as Hf.
  { unfold fexp, SpecFloat.emin, f64_prec, f64_emax. lia. }
  unfold f64_of_Z, f64_lit, binary_normalize, binary_round.
  replace (Z.pos (digits2_pos m) + 0)%Z with (53 + Z.neg p)%Z by lia.
  rewrite Hf. unfold shl_align. rewrite Z.sub_0_r.
  unfold binary_round_aux, shr_fexp. cbn [Zdigits2].
  rewrite digits2_pos_iter_xO, Hp, Hf, Z.sub_diag. simpl.
  rewrite digits2_pos_iter_xO, Hp, Hf, Z.sub_diag. simpl. done.
Qed.

Lemma safe_u32_complete k : (k ≤ u32_MAX)%N → safe_u32 (f64_of_N k) = Some k.
Proof.
  intros Hk. destruct k as [|m]; [by vm_compute|]. unfold safe_u32.
  destruct u32_MAX_f64 as (C & -> & HC).
  assert (Z.pos m ≤ 4294967295)%Z as Hm by (unfold u32_MAX in Hk; lia).
  destruct (f64_of_pos_exact m) as (p & Hf & Hp); [lia|].
  unfold f64_of_N. cbn [Z.of_N]. rewrite Hf. pose proof (Zpos_iter_xO m p) as HZ.
  set (M := Pos.iter xO m p) in *.
  assert (digits2_pos m ≤ 32)%positive as Hd by (apply digits2_pos_le; lia).
  assert (f64_leb (S754_finite false M (Z.neg p)) (S754_finite false C (-21)) = true) as ->.
  { unfold f64_leb, SFleb, SFcompare. destruct (Z.compare_spec (Z.neg p) (-21)) as [He|He|He];
      [|done|lia].
    assert (p = 21%positive) as -> by lia.
    change (Pos.compare_cont Eq M C) with (Pos.compare M C).
    destruct (Pos.compare_spec M C); [done|done|]. lia. }
  assert (Z.pos M mod 2 ^ Z.pos p = 0)%Z as Hmod.
  { rewrite HZ. apply Z_mod_mult. }
  assert (Z.pos M / 2 ^ Z.pos p = Z.pos m)%Z as Hdiv.
  { rewrite HZ. apply Z_div_mult. lia. }
  unfold f64_integer, f64_as_u32. change (- Z.neg p)%Z with (Z.pos p). change (0 <=? Z.neg p)%Z with false. cbv iota zeta. rewrite Hmod, Hdiv. simpl.
  unfold u32_MAX in *. rewrite N.min_r by lia. done.
Qed.
