(* ===== verification/PhaseGraph.v ===== *)
(** * Validation of the phase graph

    The checks of [crates/voom-dsl/src/validator.rs] on phases as a whole:
    distinct names, declared references, absence of dependency cycles (a depth
    first search) and reachability (a fixed point). Each function returns the
    errors it pushes; [None] is a panic ([unwrap] of [None]) or not enough fuel
    for the recursion. *)
From S2P Require Import Prelude Ast TopoSort.

Definition quote (s : string) : string := dquote +:+ s +:+ dquote.

Definition phase_error (phase : PhaseNode) (message : string) : DslError :=
  DslError_validation (Span_line (PhaseNode_span phase)) (Span_col (PhaseNode_span phase)) message.

(** [ast.phases.iter().map(|p| p.name.as_str()).collect::<HashSet<_>>()] *)
Definition phase_name_set (ast : PolicyAst) : gset string :=
  list_to_set (PhaseNode_name <$> PolicyAst_phases ast).

(** ** Names and references *)
Definition phase_names_go : gset string → list PhaseNode → list DslError :=
  fix go seen phases :=
    match phases with
    | [] => []
    | phase :: phases =>
        push_if (bool_decide (PhaseNode_name phase ∈ seen))
          (phase_error phase ("duplicate phase name " +:+ quote (PhaseNode_name phase)))
        ++ go ({[PhaseNode_name phase]} ∪ seen) phases
    end.

Definition validate_phase_names (ast : PolicyAst) : list DslError :=
  phase_names_go ∅ (PolicyAst_phases ast).

Definition validate_dep (phase_names : gset string) (phase : PhaseNode) (dep : string)
    : list DslError :=
  push_if (negb (bool_decide (dep ∈ phase_names)))
    (phase_error phase ("phase " +:+ quote (PhaseNode_name phase)
                        +:+ " depends on unknown phase " +:+ quote dep))
  ++ push_if (bool_decide (dep = PhaseNode_name phase))
    (phase_error phase ("phase " +:+ quote (PhaseNode_name phase) +:+ " depends on itself")).

Definition validate_run_if_reference (phase_names : gset string) (phase : PhaseNode)
    : list DslError :=
  match PhaseNode_run_if phase with
  | Some run_if =>
      push_if (negb (bool_decide (RunIfNode_phase run_if ∈ phase_names)))
        (phase_error phase ("phase " +:+ quote (PhaseNode_name phase)
           +:+ " has run_if referencing unknown phase " +:+ quote (RunIfNode_phase run_if)))
  | None => []
  end.

Definition validate_phase_references (ast : PolicyAst) : list DslError :=
  let phase_names := phase_name_set ast in
  PolicyAst_phases ast ≫= λ phase,
    (deps_of phase ≫= validate_dep phase_names phase)
    ++ validate_run_if_reference phase_names phase.

(** ** Cycles *)

(** The adjacency list; a repeated name keeps its last entry. *)
Definition cycle_adj (phases : list PhaseNode) : gmap string (list string) :=
  foldl (λ adj phase, <[PhaseNode_name phase := deps_of phase]> adj) ∅ phases.

Record dfs_state : Type := {
  visited : gset string;
  in_stack : gset string;
  path : list string;
}.

Definition dfs_enter (node : string) (st : dfs_state) : dfs_state :=
  {| visited := {[node]} ∪ visited st;
     in_stack := {[node]} ∪ in_stack st;
     path := path st ++ [node] |}.

Definition dfs_leave (node : string) (st : dfs_state) : dfs_state :=
  {| visited := visited st;
     in_stack := in_stack st ∖ {[node]};
     path := removelast (path st) |}.

(** The [for &dep in deps] loop, with the recursive call as [rec]: it stops
    with [true] as soon as a cycle is found. *)
Definition detect_deps (rec : string → dfs_state → option (bool * dfs_state))
    : list string → dfs_state → option (bool * dfs_state) :=
  fix go deps st :=
    match deps with
    | [] => Some (false, st)
    | dep :: deps =>
        if negb (bool_decide (dep ∈ visited st)) then
          '(found, st) ← rec dep st;
          if (found : bool) then Some (true, st) else go deps st
        else if bool_decide (dep ∈ in_stack st) then
          Some (true, {| visited := visited st; in_stack := in_stack st;
                         path := path st ++ [dep] |})
        else go deps st
    end.

Fixpoint detect_cycle (fuel : nat) (adj : gmap string (list string)) (node : string)
    (st : dfs_state) : option (bool * dfs_state) :=
  match fuel with
  | O => None
  | S fuel =>
      let st := dfs_enter node st in
      '(found, st) ←
        match adj !! node with
        | Some deps => detect_deps (detect_cycle fuel adj) deps st
        | None => Some (false, st)
        end;
      if (found : bool) then Some (true, st) else Some (false, dfs_leave node st)
  end.

(** The error for the path of a detected cycle. *)
Definition cycle_error (phases : list PhaseNode) (path : list string) : option DslError :=
  cycle_start ← last path;
  '(cycle_pos, _) ← list_find (λ p, p = cycle_start) path;
  let cycle := drop cycle_pos path in
  phase ← List.find (λ p, bool_decide (PhaseNode_name p = cycle_start)) phases;
  Some (phase_error phase ("circular dependency: " +:+ str_join " → " cycle)).

(** The [for phase in &ast.phases] loop over [todo]; the recursion depth is at
    most one more than the number of phases. *)
Fixpoint cycle_loop (phases : list PhaseNode) (adj : gmap string (list string))
    (todo : list PhaseNode) (vis stack : gset string) : option (list DslError) :=
  match todo with
  | [] => Some []
  | phase :: todo =>
      if bool_decide (PhaseNode_name phase ∈ vis) then cycle_loop phases adj todo vis stack
      else
        '(found, st) ← detect_cycle (length phases + 1) adj (PhaseNode_name phase)
                         {| visited := vis; in_stack := stack; path := [] |};
        if (found : bool) then
          e ← cycle_error phases (path st);
          es ← cycle_loop phases adj todo (visited st) ∅;
          Some (e :: es)
        else cycle_loop phases adj todo (visited st) (in_stack st)
  end.

Definition validate_cycle_detection (ast : PolicyAst) : option (list DslError) :=
  let phases := PolicyAst_phases ast in
  cycle_loop phases (cycle_adj phases) phases ∅ ∅.

(** ** Reachability *)
Definition reach_roots (phases : list PhaseNode) : gset string :=
  list_to_set (PhaseNode_name <$> List.filter (λ p, bool_decide (deps_of p = [])) phases).

(** One phase of one pass; the pair is [(reachable, changed)]. *)
Definition reach_step (phase_names : gset string) (st : gset string * bool) (phase : PhaseNode)
    : gset string * bool :=
  let '(reachable, changed) := st in
  if bool_decide (PhaseNode_name phase ∈ reachable) then st
  else if forallb (λ d, negb (bool_decide (d ∈ phase_names)) || bool_decide (d ∈ reachable))
            (deps_of phase)
  then ({[PhaseNode_name phase]} ∪ reachable, true)
  else st.

Fixpoint reach_loop (fuel : nat) (phase_names : gset string) (phases : list PhaseNode)
    (reachable : gset string) : option (gset string) :=
  match fuel with
  | O => None
  | S fuel =>
      let '(reachable, changed) := foldl (reach_step phase_names) (reachable, false) phases in
      if (changed : bool) then reach_loop fuel phase_names phases reachable else Some reachable
  end.

(** Every pass but the last adds a phase: one more pass than phases is enough. *)
Definition reachable_phases (ast : PolicyAst) : option (gset string) :=
  let phases := PolicyAst_phases ast in
  reach_loop (length phases + 1) (phase_name_set ast) phases (reach_roots phases).

Definition validate_reachability (ast : PolicyAst) : option (list DslError) :=
  if bool_decide (PolicyAst_phases ast = []) then Some []
  else
    reachable ← reachable_phases ast;
    Some (PolicyAst_phases ast ≫= λ phase,
            push_if (negb (bool_decide (PhaseNode_name phase ∈ reachable)))
              (phase_error phase ("phase " +:+ quote (PhaseNode_name phase)
                                  +:+ " is unreachable"))).

(** * Facts on the phase graph checks

    The depth first search and the reachability loop of the validator: both
    terminate within their fuel, the search reports genuine cycles and misses
    none, and the loop computes the least fixed point. *)

Lemma size_list_to_set_le (l : list string) : size (list_to_set (C := gset string) l) ≤ length l.
Proof.
  induction l as [|x l IH]; simpl; [done|].
  rewrite size_union_alt, size_singleton.
  assert (size (list_to_set (C := gset string) l ∖ {[x]}) ≤ size (list_to_set (C := gset string) l)).
  { apply subseteq_size. set_solver. }
  lia.
Qed.

(** ** Depth first search *)
Section dfs.
Context (adj : gmap string (list string)).

(** [n] lists [d] among its dependencies. *)
Definition dep (n d : string) : Prop := ∃ deps, adj !! n = Some deps ∧ d ∈ deps.

(** Consecutive elements depend on each other. *)
Definition chain (l : list string) : Prop :=
  ∀ i a b, l !! i = Some a → l !! S i = Some b → dep a b.

Definition cyclic_path (l : list string) : Prop :=
  chain l ∧ ∃ pre x mid, l = pre ++ x :: mid ++ [x] ∧ NoDup (pre ++ x :: mid).

(** The nodes that cannot reach a cycle. *)
Definition grounded_node (n : string) : Prop := Acc (λ d n, dep n d) n.

Record dfs_ok (st : dfs_state) : Prop := {
  dfs_stack n : n ∈ in_stack st ↔ n ∈ path st;
  dfs_nodup : NoDup (path st);
  dfs_visited n : n ∈ path st → n ∈ visited st;
  dfs_chain : chain (path st);
}.

(** Visited nodes that were left are safe. *)
Definition black (st : dfs_state) : Prop :=
  ∀ n, n ∈ visited st → n ∉ in_stack st → grounded_node n.

(** The outcome of a search that started in [st]. *)
Definition dfs_post (st : dfs_state) (found : bool) (st' : dfs_state) : Prop :=
  visited st ⊆ visited st' ∧
  if found then cyclic_path (path st')
  else dfs_ok st' ∧ in_stack st' = in_stack st ∧ path st' = path st ∧ (black st → black st').

Lemma chain_snoc l a : chain l → (∀ b, last l = Some b → dep b a) → chain (l ++ [a]).
Proof.
  intros Hl Ha i b c Hb Hc. apply lookup_app_Some in Hc as [Hc|[Hle Hc]].
  - eapply Hl; [|done]. rewrite lookup_app_l in Hb; [done|]. apply lookup_lt_Some in Hc. lia.
  - apply list_lookup_singleton_Some in Hc as [Hi <-].
    assert (i = pred (length l)) as -> by lia. apply Ha. rewrite last_lookup.
    rewrite lookup_app_l in Hb; [done|]. lia.
Qed.

Lemma chain_nil : chain [].
Proof. intros i a b Ha. by rewrite lookup_nil in Ha. Qed.

Lemma dfs_enter_ok node st :
  dfs_ok st → node ∉ visited st → (∀ a, last (path st) = Some a → dep a node) →
  dfs_ok (dfs_enter node st).
Proof.
  intros [Hs Hn Hv Hc] Hnv Ha. split; simpl.
  - intros n. rewrite elem_of_union, elem_of_singleton, elem_of_app, list_elem_of_singleton, Hs. tauto.
  - apply NoDup_app. split_and!; [done| |apply NoDup_singleton].
    intros x Hx ->%list_elem_of_singleton. by apply Hnv, Hv.
  - intros n. rewrite elem_of_app, list_elem_of_singleton. set_solver.
  - by apply chain_snoc.
Qed.

Lemma removelast_snoc {A} (l : list A) x : removelast (l ++ [x]) = l.
Proof. apply removelast_last. Qed.

(** Leaving [node], entered from [st], restores the stack and the path. *)
Lemma dfs_leave_ok node st st' :
  dfs_ok st → node ∉ visited st →
  dfs_ok st' → in_stack st' = in_stack (dfs_enter node st) →
  path st' = path (dfs_enter node st) →
  dfs_ok (dfs_leave node st') ∧ in_stack (dfs_leave node st') = in_stack st ∧
  path (dfs_leave node st') = path st.
Proof.
  intros [Hs Hn Hv Hc] Hnv [Hs' Hn' Hv' Hc'] Hstack Hpath. simpl in *.
  assert (node ∉ in_stack st) as Hni by (rewrite Hs; intros ?; by apply Hnv, Hv).
  assert (in_stack st' ∖ {[node]} = in_stack st) as Hst by (rewrite Hstack; set_solver).
  assert (removelast (path st') = path st) as Hp by (rewrite Hpath; apply removelast_snoc).
  split_and!; [|done|done]. split; simpl; rewrite ?Hst, ?Hp; [done|done| |done].
  intros n Hin. apply Hv'. rewrite Hpath. set_solver.
Qed.

Lemma dfs_found_here st d :
  dfs_ok st → d ∈ in_stack st → (∀ a, last (path st) = Some a → dep a d) →
  cyclic_path (path st ++ [d]).
Proof.
  intros [Hs Hn Hv Hc] Hd Ha. split; [by apply chain_snoc|].
  apply Hs, list_elem_of_split in Hd as (pre & mid & Hp). exists pre, d, mid.
  rewrite <-Hp. split; [|done]. rewrite Hp. by rewrite <-(assoc_L (++)).
Qed.

(** Unexplored phases bound the recursion. *)
Definition unexplored (st : dfs_state) : nat := size (dom adj ∖ visited st).

Lemma unexplored_mono st st' : visited st ⊆ visited st' → unexplored st' ≤ unexplored st.
Proof. intros Hsub. unfold unexplored. apply subseteq_size. set_solver. Qed.

Lemma unexplored_enter node st :
  node ∈ dom adj → node ∉ visited st → unexplored (dfs_enter node st) < unexplored st.
Proof.
  intros Hd Hv. unfold unexplored. simpl. apply subset_size. split; [set_solver|].
  intros Hsub. specialize (Hsub node). set_solver.
Qed.

Section deps.
Context (rec : string → dfs_state → option (bool * dfs_state)) (bound : nat).
Hypothesis rec_ok : ∀ node st,
  dfs_ok st → node ∉ visited st → (∀ a, last (path st) = Some a → dep a node) →
  unexplored st < bound →
  ∃ found st', rec node st = Some (found, st') ∧ dfs_post st found st' ∧ node ∈ visited st'.

Lemma detect_deps_ok deps st :
  dfs_ok st → (∀ a d, last (path st) = Some a → d ∈ deps → dep a d) →
  unexplored st < bound →
  ∃ found st', detect_deps rec deps st = Some (found, st') ∧ dfs_post st found st' ∧
    (found = false → ∀ d, d ∈ deps → d ∈ visited st' ∧ d ∉ in_stack st').
Proof.
  revert st; induction deps as [|d deps IH]; intros st Hok Hdep Hb; simpl.
  { exists false, st. split_and!; [done|split; [done|]|set_solver]. auto. }
  case_bool_decide as Hv; simpl.
  - case_bool_decide as Hs.
    + eexists true, _. split_and!; [done| |done]. split; [done|]. simpl.
      apply dfs_found_here; [done|done|]. intros a Ha. apply Hdep; [done|by left].
    + destruct (IH st) as (found & st' & Heq & Hpost & Hin); [done|set_solver|done|].
      exists found, st'. split_and!; [done|done|]. intros -> x [->|Hx]%elem_of_cons; [|by apply Hin].
      destruct Hpost as (Hsub & _ & Hst & _). rewrite Hst. split; [by apply Hsub|done].
  - destruct (rec_ok d st) as (found & st' & Heq & Hpost & Hd); [done|done| |done|].
    { intros a Ha. apply Hdep; [done|by left]. }
    rewrite Heq. simpl. destruct found; [by exists true, st'|].
    destruct Hpost as (Hsub & Hok' & Hst & Hp & Hbl).
    destruct (IH st') as (found & st'' & Heq' & (Hsub' & Hpost') & Hin); [done| | |].
    { intros a x Ha Hx. rewrite Hp in Ha. apply Hdep; [done|by right]. }
    { pose proof (unexplored_mono _ _ Hsub). lia. }
    exists found, st''. split_and!; [done| |].
    + split; [by etrans|]. destruct found; [done|].
      destruct Hpost' as (? & Hst' & Hp' & ?). rewrite Hst', Hp', Hst, Hp. naive_solver.
    + intros -> x [->|Hx]%elem_of_cons; [|by apply Hin]. destruct Hpost' as (_ & Hst' & _).
      split; [by apply Hsub'|]. rewrite Hst', Hst. intros Hdin. by apply Hv, Hok, Hok.
Qed.
End deps.

Lemma detect_cycle_ok fuel node st :
  dfs_ok st → node ∉ visited st → (∀ a, last (path st) = Some a → dep a node) →
  unexplored st < fuel →
  ∃ found st', detect_cycle fuel adj node st = Some (found, st') ∧ dfs_post st found st' ∧
               node ∈ visited st'.
Proof.
  revert node st; induction fuel as [|fuel IH]; intros node st Hok Hv Ha Hf; [lia|]. simpl.
  pose proof (dfs_enter_ok _ _ Hok Hv Ha) as Henter.
  assert (visited st ⊆ visited (dfs_enter node st)) as Hsub by (simpl; set_solver).
  assert (∃ found st', match adj !! node with
      | Some deps => detect_deps (detect_cycle fuel adj) deps (dfs_enter node st)
      | None => Some (false, dfs_enter node st) end = Some (found, st') ∧
      dfs_post (dfs_enter node st) found st' ∧
      (found = false → ∀ d, dep node d → d ∈ visited st' ∧ d ∉ in_stack st'))
    as (found & st' & -> & (Hsub' & Hpost) & Hd).
  { destruct (adj !! node) as [deps|] eqn:Hadj.
    - destruct (detect_deps_ok (detect_cycle fuel adj) fuel IH deps (dfs_enter node st))
        as (found & st' & Heq & Hpost & Hd); [done| | |].
      + simpl. intros a d. rewrite last_snoc. intros [= <-] ?. by exists deps.
      + assert (node ∈ dom adj) as Hdom by (by apply elem_of_dom_2 in Hadj).
        pose proof (unexplored_enter _ _ Hdom Hv). lia.
      + exists found, st'. split_and!; [done|done|]. intros Hff d (deps' & Hdeps & ?).
        simplify_eq. auto.
    - exists false, (dfs_enter node st). split_and!; [done|split; [done|done]|].
      intros _ d (deps & Hdeps & _). congruence. }
  assert (node ∈ visited st') as Hnode by (apply Hsub'; simpl; set_solver).
  simpl. destruct found.
  { exists true, st'. split_and!; [done|split; [by etrans|done]|done]. }
  destruct Hpost as (Hok' & Hst & Hp & Hbl). exists false, (dfs_leave node st').
  destruct (dfs_leave_ok node st st') as (HokL & HstL & HpL); [done..|].
  split_and!; [done| |done]. split; [by etrans|]. split_and!; [done|done|done|].
  intros Hb n Hn Hni. simpl in Hn. rewrite HstL in Hni.
  assert (black st') as Hb'.
  { apply Hbl. intros m Hm Hmi. simpl in *. apply Hb; set_solver. }
  destruct (decide (n = node)) as [->|Hne].
  - constructor. intros d Hdep. apply Hb'; by apply Hd.
  - apply Hb'; [done|]. rewrite Hst. simpl. set_solver.
Qed.

(** A closed chain is a cycle of the transitive closure. *)
Lemma chain_tc l i j a b :
  chain l → l !! i = Some a → l !! j = Some b → i < j → tc dep a b.
Proof.
  intros Hc Ha Hb Hij. remember (j - S i) as k eqn:Hk. revert j b Hb Hij Hk.
  induction k as [|k IH]; intros j b Hb Hij Hk.
  - apply tc_once. assert (j = S i) as -> by lia. by eapply Hc.
  - destruct (lookup_lt_is_Some_2 l (pred j)) as [c Hp].
    { apply lookup_lt_Some in Hb. lia. }
    apply tc_r with c; [by apply (IH (pred j)); [done|lia..]|].
    eapply Hc; [done|]. by replace (S (pred j)) with j by lia.
Qed.

Lemma cyclic_path_tc l : cyclic_path l → ∃ x, x ∈ l ∧ tc dep x x.
Proof.
  intros (Hc & pre & x & mid & -> & _). exists x. split; [set_solver|].
  eapply (chain_tc _ (length pre) (length pre + S (length mid))); [done|..|lia].
  - by rewrite list_lookup_middle.
  - rewrite lookup_app_r by lia. replace (_ + S _ - _) with (S (length mid)) by lia. simpl.
    by rewrite list_lookup_middle.
Qed.

Lemma grounded_no_cycle n : grounded_node n → ¬ tc dep n n.
Proof.
  induction 1 as [n _ IH]. intros Hc.
  assert (∀ a b, tc dep a b → ∃ d, dep a d ∧ rtc dep d b) as Hfirst.
  { induction 1 as [a b Hab|a c b Hac Hcb _]; [by exists b; split; [|constructor]|].
    exists c. split; [done|]. by apply tc_rtc. }
  destruct (Hfirst _ _ Hc) as (d & Hnd & Hdn). apply (IH d Hnd).
  apply tc_rtc_l with n; [done|by apply tc_once].
Qed.
End dfs.

(** ** The loop over the phases *)
Section cycles.
Context (phases : list PhaseNode).

Lemma cycle_adj_gen (acc : gmap string (list string)) n :
  foldl (λ adj p, <[PhaseNode_name p := deps_of p]> adj) acc phases !! n =
  match List.find (λ p, bool_decide (PhaseNode_name p = n)) (reverse phases) with
  | Some p => Some (deps_of p)
  | None => acc !! n
  end.
Proof.
  induction phases as [|p ps IH] using rev_ind; [done|].
  rewrite foldl_app, reverse_snoc. simpl. case_bool_decide as Hn; subst.
  - by rewrite lookup_insert_eq.
  - rewrite lookup_insert_ne by done. apply IH.
Qed.

(** The adjacency list has the dependencies of the last phase of each name. *)
Lemma cycle_adj_lookup n :
  cycle_adj phases !! n =
  deps_of <$> List.find (λ p, bool_decide (PhaseNode_name p = n)) (reverse phases).
Proof.
  unfold cycle_adj. rewrite cycle_adj_gen. by destruct (List.find _ _).
Qed.

Lemma dom_cycle_adj : dom (cycle_adj phases) = list_to_set (PhaseNode_name <$> phases).
Proof.
  apply set_eq. intros n. rewrite elem_of_dom, elem_of_list_to_set, cycle_adj_lookup, fmap_is_Some.
  split.
  - intros [p [Hin Hp]%find_Some_elem_of]. apply bool_decide_eq_true in Hp as <-.
    apply list_elem_of_fmap. exists p. by rewrite elem_of_reverse in Hin.
  - intros (p & -> & Hin)%list_elem_of_fmap.
    destruct (List.find _ _) as [q|] eqn:Hf; [by eexists|].
    eapply find_none in Hf; [|apply list_elem_of_In, elem_of_reverse, Hin].
    by apply bool_decide_eq_false in Hf.
Qed.

Lemma dep_declared n d : dep (cycle_adj phases) n d → n ∈ PhaseNode_name <$> phases.
Proof.
  intros (deps & Hn & _). apply elem_of_dom_2 in Hn. rewrite dom_cycle_adj in Hn. set_solver.
Qed.

(** With distinct names the edges are those of the tree. *)
Lemma dep_distinct n d :
  NoDup (PhaseNode_name <$> phases) →
  dep (cycle_adj phases) n d ↔ ∃ p, p ∈ phases ∧ PhaseNode_name p = n ∧ d ∈ deps_of p.
Proof.
  intros Hnd. unfold dep. rewrite cycle_adj_lookup. split.
  - intros (deps & Hf & Hd). destruct (List.find _ _) as [p|] eqn:Hp; [|done]. simplify_eq/=.
    apply find_Some_elem_of in Hp as [Hin Hn]. apply bool_decide_eq_true in Hn.
    exists p. by rewrite elem_of_reverse in Hin.
  - intros (p & Hin & Hn & Hd). exists (deps_of p). split; [|done].
    destruct (List.find _ _) as [q|] eqn:Hp.
    + apply find_Some_elem_of in Hp as [Hq Hqn]. apply bool_decide_eq_true in Hqn.
      rewrite elem_of_reverse in Hq. simpl. do 2 f_equal.
      eapply NoDup_fmap_inj_elem; [done..|]. congruence.
    + eapply find_none in Hp; [|apply list_elem_of_In, elem_of_reverse, Hin].
      by apply bool_decide_eq_false in Hp.
Qed.

(** [e] describes the cycle [c] of phases, starting and ending at a phase [p]. *)
Definition reports_cycle (e : DslError) : Prop :=
  ∃ p mid, p ∈ phases ∧
    let c := PhaseNode_name p :: mid ++ [PhaseNode_name p] in
    chain (cycle_adj phases) c ∧ NoDup (PhaseNode_name p :: mid) ∧
    e = phase_error p ("circular dependency: " +:+ str_join " → " c).

Lemma chain_drop adj pre l : chain adj (pre ++ l) → chain adj l.
Proof.
  intros Hc i a b Ha Hb. apply (Hc (length pre + i)).
  - by rewrite lookup_app_r, Nat.add_sub_swap, Nat.sub_diag by lia.
  - rewrite lookup_app_r by lia. by replace (S (length pre + i) - length pre) with (S i) by lia.
Qed.

Lemma cycle_error_ok p :
  cyclic_path (cycle_adj phases) p → ∃ e, cycle_error phases p = Some e ∧ reports_cycle e.
Proof.
  intros (Hc & pre & x & mid & -> & Hnd). unfold cycle_error.
  assert (last (pre ++ x :: mid ++ [x]) = Some x) as ->.
  { by rewrite app_comm_cons, (assoc_L (++)), last_snoc. }
  assert (list_find (λ p, p = x) (pre ++ x :: mid ++ [x]) = Some (length pre, x)) as Hf.
  { apply list_find_Some. split_and!; [by rewrite list_lookup_middle|done|].
    intros j y Hj Hlt ->. rewrite lookup_app_l in Hj by done.
    apply NoDup_app in Hnd as (_ & Hdis & _).
    apply (Hdis x); [by eapply list_elem_of_lookup_2|by left]. }
  simpl. rewrite Hf. simpl. rewrite drop_app_length.
  apply chain_drop in Hc.
  assert (x ∈ PhaseNode_name <$> phases) as (p & -> & Hp)%list_elem_of_fmap.
  { destruct mid as [|y mid]; (eapply dep_declared, (Hc 0); [done|done]). }
  destruct (List.find (λ q, bool_decide (PhaseNode_name q = PhaseNode_name p)) phases)
    as [q|] eqn:Hq.
  - apply find_Some_elem_of in Hq as [Hqin Hqn]. apply bool_decide_eq_true in Hqn.
    eexists. split; [done|]. exists q, mid. simpl. rewrite Hqn.
    split_and!; [done|done| |done]. by apply NoDup_app in Hnd as (_ & _ & ?).
  - eapply find_none in Hq; [|by apply list_elem_of_In].
    by apply bool_decide_eq_false in Hq.
Qed.

Lemma reports_cycle_tc e :
  reports_cycle e → ∃ n, tc (dep (cycle_adj phases)) n n.
Proof.
  intros (p & mid & _ & Hc & Hnd & _).
  destruct (cyclic_path_tc (cycle_adj phases) (PhaseNode_name p :: mid ++ [PhaseNode_name p]))
    as (x & _ & Hx); [|by exists x].
  split; [done|]. by exists [], (PhaseNode_name p), mid.
Qed.

(** All nodes a finished loop has seen without an error are grounded. *)
Lemma cycle_loop_ok todo vis :
  ∃ es, cycle_loop phases (cycle_adj phases) todo vis ∅ = Some es ∧
    Forall reports_cycle es ∧
    (es = [] → (∀ n, n ∈ vis → grounded_node (cycle_adj phases) n) →
     ∀ p, p ∈ todo → grounded_node (cycle_adj phases) (PhaseNode_name p)).
Proof.
  revert vis; induction todo as [|p todo IH]; intros vis; simpl.
  { exists []. split_and!; [done|constructor|set_solver]. }
  case_bool_decide as Hv.
  { destruct (IH vis) as (es & -> & Hes & Hg). exists es. split_and!; [done|done|].
    intros Hnil Hvis q [->|Hq]%elem_of_cons; [by apply Hvis|by apply Hg]. }
  set (st := {| visited := vis; in_stack := ∅; path := [] |}).
  assert (dfs_ok (cycle_adj phases) st) as Hok.
  { split; simpl; [set_solver|constructor|set_solver|apply chain_nil]. }
  destruct (detect_cycle_ok (cycle_adj phases) (length phases + 1) (PhaseNode_name p) st)
    as (found & st' & -> & (Hsub & Hpost) & Hin); [done|done|done| |].
  { unfold unexplored. rewrite dom_cycle_adj.
    assert (size (list_to_set (C := gset string) (PhaseNode_name <$> phases) ∖ visited st) ≤
            length phases); [|lia].
    rewrite <-(length_fmap PhaseNode_name phases).
    etrans; [|apply size_list_to_set_le]. apply subseteq_size. set_solver. }
  simpl. destruct found.
  - destruct (cycle_error_ok _ Hpost) as (e & -> & He). simpl.
    destruct (IH (visited st')) as (es & -> & Hes & _). exists (e :: es). simpl.
    split_and!; [done|by constructor|done].
  - destruct Hpost as (_ & Hst & _ & Hbl). rewrite Hst. simpl.
    destruct (IH (visited st')) as (es & -> & Hes & Hg). exists es. split_and!; [done|done|].
    intros Hnil Hvis.
    assert (∀ n, n ∈ visited st' → grounded_node (cycle_adj phases) n) as Hvis'; [|set_solver].
    { intros n Hn. apply Hbl; [by intros m Hm _; apply Hvis|done|]. rewrite Hst. set_solver. }
Qed.
End cycles.

(** ** Reachability *)
Section reach.
Context (phases : list PhaseNode).
Let names : gset string := list_to_set (PhaseNode_name <$> phases).

(** The least set of names closed under: a phase is reachable when all its
    declared dependencies are. *)
Inductive rooted : string → Prop :=
| rooted_intro p :
    p ∈ phases → (∀ d, d ∈ deps_of p → d ∈ names → rooted d) → rooted (PhaseNode_name p).

(** All declared dependencies of [p] are in [R]. *)
Definition deps_within (R : gset string) (p : PhaseNode) : Prop :=
  ∀ d, d ∈ deps_of p → d ∈ names → d ∈ R.

Lemma deps_within_forallb R p :
  forallb (λ d, negb (bool_decide (d ∈ names)) || bool_decide (d ∈ R)) (deps_of p) = true ↔
  deps_within R p.
Proof.
  rewrite forallb_elem_of. unfold deps_within. apply forall_proper; intros d.
  rewrite orb_true_iff, negb_true_iff, bool_decide_eq_true, bool_decide_eq_false.
  destruct (decide (d ∈ names)); naive_solver.
Qed.

Record pass_ok (ps : list PhaseNode) (R : gset string) (c : bool) (R' : gset string) (c' : bool)
    : Prop := {
  pass_mono : R ⊆ R';
  pass_names : R ⊆ names → R' ⊆ names;
  pass_sound : (∀ n, n ∈ R → rooted n) → ∀ n, n ∈ R' → rooted n;
  pass_same : c' = false →
    R' = R ∧ ∀ p, p ∈ ps → PhaseNode_name p ∈ R ∨ ¬ deps_within R p;
  pass_grow : c' = true → c = true ∨ R ⊂ R';
}.

Lemma reach_pass_ok ps R c :
  ps ⊆ phases →
  pass_ok ps R c (foldl (reach_step names) (R, c) ps).1 (foldl (reach_step names) (R, c) ps).2.
Proof.
  revert R c; induction ps as [|p ps IH]; intros R c Hps; cbn [foldl].
  { split; simpl; auto. intros _. split; [done|set_solver]. }
  assert (p ∈ phases ∧ ps ⊆ phases) as [Hp Hps'] by set_solver. unfold reach_step at 2 4.
  case_bool_decide as Hin; [|destruct (forallb _ _) eqn:Hd].
  - destruct (IH R c Hps') as [Hm Hn Hs Hsame Hg]. split; auto.
    intros Hc. destruct (Hsame Hc) as [? Hall]. split; [done|]. set_solver.
  - apply deps_within_forallb in Hd.
    destruct (IH ({[PhaseNode_name p]} ∪ R) true Hps') as [Hm Hn Hs Hsame Hg].
    assert (R ⊂ {[PhaseNode_name p]} ∪ R) as Hlt by set_solver.
    split.
    + set_solver.
    + intros HR. apply Hn. intros n [->%elem_of_singleton|?]%elem_of_union; [|by apply HR].
      apply elem_of_list_to_set, list_elem_of_fmap. eauto.
    + intros HR. apply Hs. intros n [->%elem_of_singleton|?]%elem_of_union; [|by apply HR].
      constructor; [done|]. intros d Hdd Hdn. by apply HR, Hd.
    + intros Hc. destruct (Hsame Hc) as [Heq Hall].
      exfalso. clear -Hc. revert Hc. assert (∀ S, (foldl (reach_step names) (S, true) ps).2 = true) as ->.
      { induction ps as [|q ps IH]; intros S; cbn [foldl]; [done|]. unfold reach_step at 2.
        case_bool_decide; [apply IH|]. destruct (forallb _ _); apply IH. }
      done.
    + intros _. right. set_solver.
  - destruct (IH R c Hps') as [Hm Hn Hs Hsame Hg]. split; auto.
    intros Hc. destruct (Hsame Hc) as [? Hall]. split; [done|].
    intros q [->|Hq]%elem_of_cons; [|by apply Hall]. right. rewrite <-deps_within_forallb.
    by rewrite Hd.
Qed.

(** The loop ends within one pass per phase not yet reached, plus one. *)
Lemma reach_loop_ok fuel R :
  R ⊆ names → (∀ n, n ∈ R → rooted n) → size (names ∖ R) < fuel →
  ∃ R', reach_loop fuel names phases R = Some R' ∧ ∀ n, n ∈ R' ↔ rooted n.
Proof.
  revert R; induction fuel as [|fuel IH]; intros R Hn Hs Hf; [lia|]. simpl.
  destruct (reach_pass_ok phases R false) as [Hm Hnames Hsound Hsame Hgrow]; [done|].
  destruct (foldl _ _ _) as [R' c]. simpl in *. destruct c.
  - destruct (Hgrow eq_refl) as [?|Hlt]; [done|]. apply IH; [by apply Hnames|by apply Hsound|].
    assert (size (names ∖ R') < size (names ∖ R)); [|lia].
    apply subset_size. split; [set_solver|]. intros Hsub. destruct Hlt as [_ Hlt]. apply Hlt.
    intros n Hn'. destruct (decide (n ∈ R)); [done|]. specialize (Hsub n).
    pose proof (Hnames Hn n Hn'). set_solver.
  - destruct (Hsame eq_refl) as [-> Hall]. exists R. split; [done|]. intros n. split; [by apply Hs|].
    induction 1 as [p Hp _ IHd]. destruct (Hall p Hp) as [?|Hnd]; [done|]. by destruct Hnd.
Qed.
End reach.

Lemma reachable_phases_ok ast :
  ∃ R, reachable_phases ast = Some R ∧ ∀ n, n ∈ R ↔ rooted (PolicyAst_phases ast) n.
Proof.
  unfold reachable_phases, phase_name_set. set (phases := PolicyAst_phases ast).
  apply reach_loop_ok.
  - unfold reach_roots. intros n. rewrite !elem_of_list_to_set, !list_elem_of_fmap.
    intros (p & -> & [Hp _]%filter_elem_of). eauto.
  - intros n. unfold reach_roots. rewrite elem_of_list_to_set, list_elem_of_fmap.
    intros (p & -> & [Hp Hd]%filter_elem_of). apply bool_decide_eq_true in Hd.
    constructor; [done|]. rewrite Hd. set_solver.
  - pose proof (size_list_to_set_le (PhaseNode_name <$> phases)) as Hle.
    rewrite length_fmap in Hle.
    assert (size (list_to_set (C := gset string) (PhaseNode_name <$> phases) ∖ reach_roots phases) ≤
            size (list_to_set (C := gset string) (PhaseNode_name <$> phases))); [|lia].
    apply subseteq_size. set_solver.
Qed.

(** ** Both checks against the graph *)
Lemma validate_cycle_detection_ok ast :
  ∃ es, validate_cycle_detection ast = Some es ∧
    Forall (reports_cycle (PolicyAst_phases ast)) es ∧
    (es = [] ↔ ∀ p, p ∈ PolicyAst_phases ast →
                    grounded_node (cycle_adj (PolicyAst_phases ast)) (PhaseNode_name p)).
Proof.
  unfold validate_cycle_detection.
  destruct (cycle_loop_ok (PolicyAst_phases ast) (PolicyAst_phases ast) ∅) as (es & -> & Hes & Hg).
  exists es. split_and!; [done|done|]. split; [intros ->; apply Hg; set_solver|].
  intros Hall. destruct es as [|e es]; [done|]. exfalso.
  apply Forall_cons in Hes as [He _]. destruct (reports_cycle_tc _ _ He) as (n & Hn).
  assert (n ∈ PhaseNode_name <$> PolicyAst_phases ast) as (p & -> & Hp)%list_elem_of_fmap.
  { inversion Hn; subst; by eapply dep_declared. }
  by eapply grounded_no_cycle; [apply Hall|].
Qed.

Lemma validate_reachability_ok ast :
  ∃ es, validate_reachability ast = Some es ∧
    (es = [] ↔ ∀ p, p ∈ PolicyAst_phases ast → rooted (PolicyAst_phases ast) (PhaseNode_name p)).
Proof.
  unfold validate_reachability. case_bool_decide as Hnil.
  { exists []. split; [done|]. rewrite Hnil. set_solver. }
  destruct (reachable_phases_ok ast) as (R & -> & HR). eexists. split; [done|].
  rewrite bind_nil_iff. apply forall_proper; intros p. rewrite push_if_nil, negb_false_iff.
  by rewrite bool_decide_eq_true, HR.
Qed.

(** With distinct names, being reachable and not reaching a cycle coincide. *)
Lemma rooted_grounded phases n :
  NoDup (PhaseNode_name <$> phases) → n ∈ PhaseNode_name <$> phases →
  rooted phases n ↔ grounded_node (cycle_adj phases) n.
Proof.
  intros Hnd Hn. split.
  - clear Hn. induction 1 as [p Hp _ IH]. constructor. intros d Hd.
    apply dep_distinct in Hd as (q & Hq & Hqn & Hd); [|done].
    assert (q = p) as -> by (by eapply NoDup_fmap_inj_elem).
    destruct (decide (d ∈ PhaseNode_name <$> phases)) as [Hdn|Hdn].
    + apply IH; [done|]. by apply elem_of_list_to_set.
    + constructor. intros d' Hd'. by apply dep_declared in Hd'.
  - intros Hg. revert Hn. induction Hg as [n _ IH].
    intros (p & -> & Hp)%list_elem_of_fmap. constructor; [done|].
    intros d Hd Hdn%elem_of_list_to_set. apply IH; [|done]. apply dep_distinct; [done|]. eauto.
Qed.
