(* ===== verification/Validator.v ===== *)
(** * The validator

    [crates/voom-dsl/src/validator.rs] but for the checks of the phase graph. First
    its leaves: known names and their suggestions, codecs, languages, number
    suffixes, bitrates, crop ratios and the named or numeric settings; then
    operations, filters, conditions, phases and policies. Every function returns the
    diagnostics it pushes. *)
From S2P Require Import Prelude Media Plan Compiled Codecs Ast TopoSort Compiler CompilerFacts.
From S2P Require Import PhaseGraph.

(** ** Suggestions *)

(** The full matrix of distances of prefixes. *)
Definition matrix_cell (a b : list string) (i : nat) (dp : list (list nat)) (j : nat)
    : list (list nat) :=
  let cost := if bool_decide (a !! (i - 1) = b !! (j - 1)) then 0 else 1 in
  let v := Nat.min (Nat.min ((dp !!! (i - 1)) !!! j + 1) ((dp !!! i) !!! (j - 1) + 1))
                   ((dp !!! (i - 1)) !!! (j - 1) + cost) in
  <[i := <[j := v]> (dp !!! i)]> dp.

Definition matrix_row (a b : list string) (dp : list (list nat)) (i : nat) : list (list nat) :=
  foldl (matrix_cell a b i) dp (seq 1 (length b)).

Definition matrix_init (a b : list string) : list (list nat) :=
  let dp := replicate (length a + 1) (replicate (length b + 1) 0) in
  let dp := imap (λ i row, <[0 := i]> row) dp in
  <[0 := imap (λ j _, j) (dp !!! 0)]> dp.

Definition matrix_edit_distance (s t : string) : nat :=
  let a := str_chars s in
  let b := str_chars t in
  let dp := foldl (matrix_row a b) (matrix_init a b) (seq 1 (length a)) in
  (dp !!! length a) !!! length b.

Definition suggest_from_step (input : string) (best : option (string * nat)) (candidate : string)
    : option (string * nat) :=
  let dist := matrix_edit_distance input candidate in
  if (dist <=? 3)%nat && match best with None => true | Some b => (dist <? b.2)%nat end
  then Some (candidate, dist) else best.

Definition suggest_from (input : string) (known : list string) : option string :=
  fst <$> foldl (suggest_from_step input) None known.

Definition did_you_mean (suggestion : string) : string :=
  "did you mean " +:+ quote suggestion +:+ "?".

Definition validate_ident_against (input kind : string) (known : list string) (line col : usize)
    : list DslError :=
  if str_in known input then []
  else
    let msg := "unknown " +:+ kind +:+ " " +:+ quote input +:+ ", expected one of: "
               +:+ str_join ", " known in
    match suggest_from input known with
    | Some suggestion =>
        [DslError_validation_with_suggestion line col msg (did_you_mean suggestion)]
    | None => [DslError_validation line col msg]
    end.

(** ** Targets, codecs and languages *)
Definition valid_targets : list string :=
  ["video"; "audio"; "subtitle"; "subtitles"; "attachment"; "attachments"; "track"].

Definition validate_track_target (target : string) (line col : usize) : list DslError :=
  push_if (negb (str_in valid_targets target))
    (DslError_validation line col ("unknown track target " +:+ quote target)).

Definition validate_codec `{HashOrder} (codec : string) (line col : usize) : list DslError :=
  match normalize_codec codec with
  | Some _ => []
  | None =>
      let msg := "unknown codec " +:+ quote codec in
      match suggest_codec codec with
      | Some suggestion =>
          [DslError_validation_with_suggestion line col msg (did_you_mean suggestion)]
      | None => [DslError_validation line col msg]
      end
  end.

Definition codec_type_name (t : CodecType) : string :=
  match t with
  | CodecType_Video => "video"
  | CodecType_Audio => "audio"
  | CodecType_Subtitle => "subtitle"
  end.

Definition validate_codec_track_type (target codec : string) (line col : usize) : list DslError :=
  match (if bool_decide (target = "video") then Some CodecType_Video
         else if bool_decide (target = "audio") then Some CodecType_Audio else None),
        codec_type codec with
  | Some expected_type, Some actual_type =>
      let type_name := codec_type_name actual_type in
      let article := if existsb (λ v, starts_with v type_name) ["a"; "e"; "i"; "o"; "u"]
                     then "an" else "a" in
      push_if (negb (bool_decide (actual_type = expected_type)))
        (DslError_validation line col
           ("codec " +:+ quote codec +:+ " is " +:+ article +:+ " " +:+ type_name
            +:+ " codec but target is " +:+ target))
  | _, _ => []
  end.

(** ** Numbers *)

(** [raw.chars().last()] is not a digit or a dot; the last byte decides. *)
Definition has_number_suffix (raw : string) : bool :=
  match last (String.list_ascii_of_string raw) with
  | Some c => negb (is_ascii_digit c) && negb (bool_decide (c = ascii_of_nat 46))
  | None => false
  end.

(** [skip_while] over digits, dots and minus signs *)
Fixpoint skip_number (s : string) : string :=
  match s with
  | EmptyString => ""
  | String c s' =>
      if is_ascii_digit c || bool_decide (c = ascii_of_nat 46) || bool_decide (c = ascii_of_nat 45)
      then skip_number s' else s
  end.

Definition valid_suffixes : list string := ["k"; "K"; "p"; "m"; "M"; "g"; "G"].

Definition validate_number_suffix (raw : string) (line col : usize) : list DslError :=
  let suffix := skip_number raw in
  if bool_decide (suffix = "") then []
  else push_if (negb (str_in valid_suffixes suffix))
         (DslError_validation line col
            ("unknown number suffix " +:+ quote suffix +:+ " in " +:+ quote raw
             +:+ ", expected one of: " +:+ str_join ", " valid_suffixes)).

Definition validate_value (val : Value) (line col : usize) : list DslError :=
  match val with Value_Number _ raw => validate_number_suffix raw line col | _ => [] end.

Definition numeric_u32 (value : Value) : option u32 :=
  match value with
  | Value_Number n _ =>
      if f64_leb (f64_of_Z 0) n && f64_leb n (f64_of_N u32_MAX) &&
         match f64_integer n with Some _ => true | None => false end
      then Some (f64_as_u32 n) else None
  | _ => None
  end.

Definition value_string (value : Value) : option string :=
  match value with
  | Value_String s | Value_Ident s | Value_Number _ s => Some s
  | _ => None
  end.

Definition find_arg (items : list (string * Value)) (key : string) : option (string * Value) :=
  List.find (λ item, bool_decide (item.1 = key)) items.

Definition numeric_arg (items : list (string * Value)) (key : string) : option u32 :=
  '(_, value) ← find_arg items key; numeric_u32 value.

Definition string_arg (items : list (string * Value)) (key : string) : option string :=
  '(_, value) ← find_arg items key;
  match value with
  | Value_String s | Value_Ident s | Value_Number _ s => Some s
  | _ => None
  end.

(** The longest prefix of digits and the rest *)
Fixpoint split_digits (s : string) : string * string :=
  match s with
  | EmptyString => ("", "")
  | String c s' =>
      if is_ascii_digit c then let '(a, b) := split_digits s' in (String c a, b) else ("", s)
  end.

Definition parse_bitrate (raw : string) : option u64 :=
  let '(digits, suffix) := split_digits raw in
  value ← parse_unsigned u64_MAX digits;
  multiplier ←
    (if bool_decide (suffix = "k") || bool_decide (suffix = "K") then Some 1000%N
     else if bool_decide (suffix = "m") || bool_decide (suffix = "M") then Some 1000000%N
     else if bool_decide (suffix = "g") || bool_decide (suffix = "G") then Some 1000000000%N
     else if bool_decide (suffix = "") then Some 1%N
     else None);
  let product := (value * multiplier)%N in
  if (product <=? u64_MAX)%N then Some product else None.

(** The parsed bitrate, and the errors pushed. *)
Definition validate_bitrate_value (val : Value) (key : string) (line col : usize)
    : option u64 * list DslError :=
  match val with
  | Value_String raw | Value_Ident raw | Value_Number _ raw =>
      match parse_bitrate raw with
      | Some v => (Some v, [])
      | None =>
          (None, [DslError_validation line col (key +:+ " has invalid bitrate " +:+ quote raw)])
      end
  | _ =>
      (None, [DslError_validation line col
                (key +:+ " must be a bitrate string such as " +:+ quote "8M" +:+ " or "
                 +:+ quote "500k")])
  end.

Definition is_crop_ratio (value : string) : bool :=
  match split_once (ascii_of_nat 47) value with
  | None => false
  | Some (width, height) =>
      match parse_unsigned u32_MAX width, parse_unsigned u32_MAX height with
      | Some width, Some height => (0 <? width)%N && (0 <? height)%N
      | _, _ => false
      end
  end.

(** ** Settings of a given shape *)
Definition value_kind (val : Value) : string :=
  match val with
  | Value_Number _ _ => "number"
  | Value_Bool _ => "boolean"
  | Value_List _ => "list"
  | Value_Object _ => "object"
  | Value_Call _ _ => "call"
  | _ => "unknown"
  end.

Definition validate_ident_setting (val : Value) (key : string) (valid : list string)
    (line col : usize) : list DslError :=
  match val with
  | Value_Ident name | Value_String name =>
      validate_ident_against name (key +:+ " value") valid line col
  | _ =>
      [DslError_validation line col
         (key +:+ " must be a string or identifier, got " +:+ value_kind val)]
  end.

Definition validate_bool_setting (val : Value) (key : string) (line col : usize)
    : list DslError :=
  match val with
  | Value_Bool _ => []
  | _ => [DslError_validation line col (key +:+ " requires a boolean value")]
  end.

Definition validate_named_or_numeric (val : Value) (kind : string) (known_names : list string)
    (number_check_fn : f64 → string → option string) (line col : usize) : list DslError :=
  match val with
  | Value_Number n raw =>
      match number_check_fn n raw with
      | Some msg => [DslError_validation line col msg]
      | None => []
      end
  | Value_Ident s => validate_ident_against s (kind +:+ " value") known_names line col
  | _ =>
      [DslError_validation line col
         ("invalid " +:+ kind +:+ " value, expected a number or one of: "
          +:+ str_join ", " known_names)]
  end.

Definition KNOWN_CHANNEL_NAMES : list string :=
  ["mono"; "stereo"; "5.1"; "surround"; "7.1"; "preserve"].

Definition KNOWN_POSITION_NAMES : list string := ["after_source"; "last"; "beginning"].

Definition f64_fractional (n : f64) : bool :=
  match f64_integer n with Some _ => false | None => true end.

Definition validate_synth_channels (val : Value) (line col : usize) : list DslError :=
  validate_named_or_numeric val "channels" KNOWN_CHANNEL_NAMES
    (λ n raw,
      if bool_decide (raw = "5.1") || bool_decide (raw = "7.1") then None
      else if has_number_suffix raw then
        Some ("invalid channels value " +:+ quote raw
              +:+ ", suffixed numbers are not valid here; expected a positive integer or one of: "
              +:+ str_join ", " KNOWN_CHANNEL_NAMES)
      else if f64_fractional n || f64_leb n (f64_of_Z 0) || f64_ltb (f64_of_N u32_MAX) n then
        Some ("invalid channels value " +:+ quote raw
              +:+ ", expected a positive integer or one of: "
              +:+ str_join ", " KNOWN_CHANNEL_NAMES)
      else None) line col.

Definition validate_synth_position (val : Value) (line col : usize) : list DslError :=
  validate_named_or_numeric val "position" KNOWN_POSITION_NAMES
    (λ n raw,
      if has_number_suffix raw then
        Some ("invalid position value " +:+ quote raw
              +:+ ", suffixed numbers are not valid here; "
              +:+ "expected a non-negative integer or one of: "
              +:+ str_join ", " KNOWN_POSITION_NAMES)
      else if f64_fractional n || f64_ltb n (f64_of_Z 0) || f64_ltb (f64_of_N u32_MAX) n then
        Some ("invalid position value " +:+ quote raw
              +:+ ", expected a non-negative integer or one of: "
              +:+ str_join ", " KNOWN_POSITION_NAMES)
      else None) line col.

(** * Validation of transcode settings

    The part of [crates/voom-dsl/src/validator.rs] about the settings of a
    [transcode] operation: known keys, hardware backends, video settings, crop
    detection, VMAF targets, bitrates, sampling and the fallback block. *)

Definition KNOWN_TRANSCODE_KEYS : list string :=
  ["preserve"; "crf"; "preset"; "bitrate"; "target_vmaf"; "max_bitrate"; "min_bitrate";
   "sample_strategy"; "fallback"; "channels"; "hw"; "hw_fallback"; "max_resolution";
   "scale_algorithm"; "hdr_mode"; "preserve_hdr"; "tonemap"; "hdr_color_metadata";
   "dolby_vision"; "tune"; "crop"; "crop_sample_duration"; "crop_sample_count";
   "crop_threshold"; "crop_minimum"; "crop_preserve_bottom_pixels"; "crop_aspect_lock";
   "normalize"].

Definition VALID_HW_VALUES : list string :=
  ["auto"; "nvenc"; "qsv"; "vaapi"; "videotoolbox"; "none"].
Definition VALID_HDR_MODES : list string := ["preserve"; "tonemap"].
Definition VALID_TONEMAP_ALGORITHMS : list string :=
  ["bt2390"; "hable"; "mobius"; "reinhard"; "clip"].
Definition VALID_HDR_COLOR_METADATA : list string := ["copy"].
Definition VALID_DOLBY_VISION_MODES : list string := ["copy_rpu"].
Definition VALID_TUNE_VALUES : list string :=
  ["film"; "animation"; "grain"; "stillimage"; "fastdecode"; "zerolatency"; "psnr"; "ssim"].
Definition VALID_SCALE_ALGORITHMS : list string :=
  ["lanczos"; "bicubic"; "bilinear"; "neighbor"; "area"; "spline"; "sinc"].
Definition VIDEO_ONLY_KEYS : list string :=
  ["hdr_mode"; "preserve_hdr"; "tonemap"; "hdr_color_metadata"; "dolby_vision"; "tune";
   "scale_algorithm"; "max_resolution"; "target_vmaf"; "max_bitrate"; "min_bitrate";
   "sample_strategy"; "fallback"; "crop"; "crop_sample_duration"; "crop_sample_count";
   "crop_threshold"; "crop_minimum"; "crop_preserve_bottom_pixels"; "crop_aspect_lock"].
Definition valid_resolutions : list string :=
  ["480p"; "720p"; "1080p"; "1440p"; "2160p"; "4k"; "8k"].

Definition vmaf_when_prefix : string := "target_vmaf_when ".

(** ** Keys *)
Definition validate_transcode_key (line col : usize) (setting : string * Value)
    : list DslError :=
  let '(key, _) := setting in
  if (64 <? String.length key)%nat then
    [DslError_validation line col ("transcode setting key too long: " +:+ quote key)]
  else if starts_with vmaf_when_prefix key then []
  else validate_ident_against key "transcode setting" KNOWN_TRANSCODE_KEYS line col.

Definition validate_transcode_keys (settings : list (string * Value)) (line col : usize)
    : list DslError :=
  settings ≫= validate_transcode_key line col.

Definition validate_hw_settings (settings : list (string * Value)) (line col : usize)
    : list DslError :=
  let has_hw := existsb (λ s, bool_decide (s.1 = "hw")) settings in
  let has_hw_fallback := existsb (λ s, bool_decide (s.1 = "hw_fallback")) settings in
  (settings ≫= λ '(key, val),
     if bool_decide (key = "hw") then validate_ident_setting val "hw" VALID_HW_VALUES line col
     else [])
  ++ push_if (has_hw_fallback && negb has_hw)
       (DslError_validation line col "hw_fallback has no effect without hw").

Definition reject_video_only_keys (settings : list (string * Value)) (target : string)
    (line col : usize) : list DslError :=
  settings ≫= λ '(key, _),
    push_if (str_in VIDEO_ONLY_KEYS key || starts_with vmaf_when_prefix key)
      (DslError_validation line col
         (key +:+ " is only valid for video transcodes, not " +:+ target)).

(** ** Crop detection *)
Definition is_crop_auto (val : Value) : bool :=
  match val with
  | Value_Ident mode | Value_String mode => bool_decide (mode = "auto")
  | _ => false
  end.

Definition validate_crop_enabled (crop_enabled : bool) (key : string) (line col : usize)
    : list DslError :=
  push_if (negb crop_enabled)
    (DslError_validation line col (key +:+ " has no effect without crop: auto")).

Definition validate_crop_mode (val : Value) (line col : usize) : list DslError :=
  push_if (negb (is_crop_auto val)) (DslError_validation line col "crop must be auto").

Definition validate_crop_positive_integer (val : Value) (key : string) (line col : usize)
    : list DslError :=
  match numeric_u32 val with
  | None => [DslError_validation line col (key +:+ " must be a positive integer")]
  | Some value =>
      push_if (value =? 0)%N (DslError_validation line col (key +:+ " must be greater than 0"))
  end.

Definition validate_crop_integer_bounds (val : Value) (key : string) (min max : u32)
    (line col : usize) : list DslError :=
  match numeric_u32 val with
  | None => [DslError_validation line col (key +:+ " must be an integer")]
  | Some value =>
      push_if ((value <? min)%N || (max <? value)%N)
        (DslError_validation line col
           (key +:+ " must be from " +:+ pretty min +:+ " to " +:+ pretty max))
  end.

Definition validate_crop_ratio (line col : usize) (item : Value) : list DslError :=
  match value_string item with
  | None => [DslError_validation line col "crop_aspect_lock entries must be ratios like 16/9"]
  | Some ratio =>
      push_if (negb (is_crop_ratio ratio))
        (DslError_validation line col
           ("invalid crop_aspect_lock ratio " +:+ quote ratio +:+ ", expected WIDTH/HEIGHT"))
  end.

Definition validate_crop_aspect_lock (val : Value) (line col : usize) : list DslError :=
  match val with
  | Value_List items => items ≫= validate_crop_ratio line col
  | _ =>
      [DslError_validation line col "crop_aspect_lock must be a list of ratios like [16/9, 4/3]"]
  end.

(** ** Video settings *)
Definition validate_max_resolution (val : Value) (line col : usize) : list DslError :=
  match val with
  | Value_Ident s | Value_String s | Value_Number _ s =>
      push_if (negb (str_in valid_resolutions s))
        (DslError_validation line col
           ("invalid max_resolution " +:+ quote s +:+ ", expected one of: "
            +:+ str_join ", " valid_resolutions))
  | _ =>
      [DslError_validation line col
         "max_resolution must be a resolution value (e.g. 1080p, 720p, 4k, 2160p)"]
  end.

Definition validate_video_setting (crop_enabled : bool) (line col : usize)
    (setting : string * Value) : list DslError :=
  let '(key, val) := setting in
  let enabled := validate_crop_enabled crop_enabled key line col in
  if bool_decide (key = "hdr_mode") then
    validate_ident_setting val "hdr_mode" VALID_HDR_MODES line col
  else if bool_decide (key = "preserve_hdr") then
    validate_bool_setting val "preserve_hdr" line col
  else if bool_decide (key = "tonemap") then
    validate_ident_setting val "tonemap" VALID_TONEMAP_ALGORITHMS line col
  else if bool_decide (key = "hdr_color_metadata") then
    validate_ident_setting val "hdr_color_metadata" VALID_HDR_COLOR_METADATA line col
  else if bool_decide (key = "dolby_vision") then
    validate_ident_setting val "dolby_vision" VALID_DOLBY_VISION_MODES line col
  else if bool_decide (key = "tune") then
    validate_ident_setting val "tune" VALID_TUNE_VALUES line col
  else if bool_decide (key = "scale_algorithm") then
    validate_ident_setting val "scale_algorithm" VALID_SCALE_ALGORITHMS line col
  else if bool_decide (key = "max_resolution") then validate_max_resolution val line col
  else if bool_decide (key = "crop") then validate_crop_mode val line col
  else if bool_decide (key = "crop_sample_duration") || bool_decide (key = "crop_sample_count")
  then enabled ++ validate_crop_positive_integer val key line col
  else if bool_decide (key = "crop_threshold") then
    enabled ++ validate_crop_integer_bounds val key 0 255 line col
  else if bool_decide (key = "crop_minimum") || bool_decide (key = "crop_preserve_bottom_pixels")
  then enabled ++ validate_crop_integer_bounds val key 0 u32_MAX line col
  else if bool_decide (key = "crop_aspect_lock") then
    enabled ++ validate_crop_aspect_lock val line col
  else [].

Definition validate_video_transcode_settings (settings : list (string * Value))
    (line col : usize) : list DslError :=
  let crop_enabled := existsb (λ s, bool_decide (s.1 = "crop") && is_crop_auto s.2) settings in
  settings ≫= validate_video_setting crop_enabled line col.

(** ** Quality targets *)
Definition validate_vmaf_target (val : Value) (key : string) (line col : usize) : diagnostics :=
  match numeric_u32 val with
  | None =>
      errors_only [DslError_validation line col (key +:+ " must be an integer from 60 to 100")]
  | Some target =>
      if negb ((60 <=? target)%N && (target <=? 100)%N) then
        errors_only [DslError_validation line col (key +:+ " must be from 60 to 100")]
      else if negb ((80 <=? target)%N && (target <=? 99)%N) then
        {| diag_errors := [];
           diag_warnings := [DslWarning_new line col
             (key +:+ " value " +:+ pretty target +:+ " is outside the typical 80-99 range")
             None] |}
      else no_diag
  end.

Definition validate_vmaf_override (key : string) (val : Value) (line col : usize)
    : diagnostics :=
  match strip_prefix vmaf_when_prefix key with
  | None => no_diag
  | Some path =>
      errors_only (push_if (negb (starts_with "content." path))
        (DslError_validation line col "target_vmaf_when requires a content.<type> path"))
      ⊕ validate_vmaf_target val "target_vmaf_when" line col
  end.

Definition validate_sample_strategy (val : Value) (line col : usize) : list DslError :=
  let invalid :=
    [DslError_validation line col
       ("sample_strategy must be full, scenes(count: N, duration: Ts), or "
        +:+ "uniform(count: N, duration: Ts)")] in
  match val with
  | Value_Ident name => if bool_decide (name = "full") then [] else invalid
  | Value_Call name args =>
      if bool_decide (name = "scenes") || bool_decide (name = "uniform") then
        push_if (bool_decide (numeric_arg args "count" = None))
          (DslError_validation line col (name +:+ " sample_strategy requires integer count"))
        ++ push_if (bool_decide (string_arg args "duration" = None))
          (DslError_validation line col (name +:+ " sample_strategy requires duration"))
      else invalid
  | _ => invalid
  end.

Definition validate_transcode_fallback (val : Value) (line col : usize) : list DslError :=
  match val with
  | Value_Object items =>
      match numeric_arg items "crf" with
      | Some crf =>
          push_if (negb (crf <=? 51)%N)
            (DslError_validation line col "fallback.crf must be from 0 to 51")
      | None => [DslError_validation line col "fallback requires crf"]
      end
      ++ push_if (bool_decide (string_arg items "preset" = None))
           (DslError_validation line col "fallback requires preset")
  | _ => [DslError_validation line col "fallback must be a nested block"]
  end.

(** One setting; the last two components are [min_bitrate] and [max_bitrate]. *)
Definition validate_vmaf_setting (line col : usize)
    (st : diagnostics * option u64 * option u64) (setting : string * Value)
    : diagnostics * option u64 * option u64 :=
  let '(d, min_bitrate, max_bitrate) := st in
  let '(key, val) := setting in
  if bool_decide (key = "target_vmaf") then
    (d ⊕ validate_vmaf_target val "target_vmaf" line col, min_bitrate, max_bitrate)
  else if bool_decide (key = "min_bitrate") then
    let '(v, es) := validate_bitrate_value val key line col in
    (d ⊕ errors_only es, v, max_bitrate)
  else if bool_decide (key = "max_bitrate") then
    let '(v, es) := validate_bitrate_value val key line col in
    (d ⊕ errors_only es, min_bitrate, v)
  else if bool_decide (key = "sample_strategy") then
    (d ⊕ errors_only (validate_sample_strategy val line col), min_bitrate, max_bitrate)
  else if bool_decide (key = "fallback") then
    (d ⊕ errors_only (validate_transcode_fallback val line col), min_bitrate, max_bitrate)
  else if starts_with vmaf_when_prefix key then
    (d ⊕ validate_vmaf_override key val line col, min_bitrate, max_bitrate)
  else st.

Definition validate_vmaf_transcode_settings (settings : list (string * Value))
    (line col : usize) : diagnostics :=
  let '(d, min_bitrate, max_bitrate) :=
    foldl (validate_vmaf_setting line col) (no_diag, None, None) settings in
  d ⊕ errors_only
        match min_bitrate, max_bitrate with
        | Some min, Some max =>
            push_if (max <? min)%N
              (DslError_validation line col
                 "min_bitrate must be less than or equal to max_bitrate")
        | _, _ => []
        end.

(** ** The whole operation *)
Definition validate_transcode_operation `{HashOrder} (target codec : string)
    (settings : list (string * Value)) (line col : usize) : diagnostics :=
  errors_only
    (validate_track_target target line col ++ validate_codec codec line col
     ++ validate_codec_track_type target codec line col
     ++ (settings ≫= λ s, validate_value s.2 line col)
     ++ validate_transcode_keys settings line col
     ++ validate_hw_settings settings line col)
  ⊕ (if bool_decide (target = "video") then
       errors_only (validate_video_transcode_settings settings line col)
       ⊕ validate_vmaf_transcode_settings settings line col
     else errors_only (reject_video_only_keys settings target line col)).

(** * The policy validator

    [crates/voom-dsl/src/validator.rs]: the checks on operations, filters,
    conditions and phases and the entry points. A function that receives
    [&mut Vec<DslError>] returns the errors it pushes; one that also receives
    the warnings returns [diagnostics]. *)

(** ** Configuration *)
Definition validate_config (ast : PolicyAst) : list DslError :=
  match PolicyAst_config ast with
  | None => []
  | Some config =>
      let line := Span_line (ConfigNode_span config) in
      let col := Span_col (ConfigNode_span config) in
      (ConfigNode_audio_languages config ≫= λ lang,
         push_if (negb (is_valid_language lang))
           (DslError_validation line col ("unknown audio language code " +:+ quote lang)))
      ++ (ConfigNode_subtitle_languages config ≫= λ lang,
         push_if (negb (is_valid_language lang))
           (DslError_validation line col ("unknown subtitle language code " +:+ quote lang)))
  end.

(** ** Conflicts within a phase *)
Definition broad_track_category (target : string) : string :=
  if bool_decide (target = "video") then "video"
  else if str_in ["audio"; "audio_main"; "audio_alternate"; "audio_commentary"] target
  then "audio"
  else if str_in ["subtitle"; "subtitles"; "subtitle_main"; "subtitle_forced";
                  "subtitle_commentary"] target
  then "subtitle"
  else if str_in ["attachment"; "attachments"] target then "attachment"
  else target.

Definition check_track_conflicts (phase : PhaseNode)
    (kept_targets removed_targets : list (string * bool)) : list DslError :=
  kept_targets ≫= λ '(target, keep_filtered),
    let broad_category := broad_track_category target in
    removed_targets ≫= λ '(removed, remove_filtered),
      push_if (bool_decide (broad_track_category removed = broad_category)
               && negb keep_filtered && negb remove_filtered)
        (phase_error phase ("conflicting keep and remove on " +:+ quote broad_category
                            +:+ " in phase " +:+ quote (PhaseNode_name phase))).

Definition set_tag_of (op : SpannedOperation) : option string :=
  match SpannedOperation_node op with OperationNode_SetTag tag _ => Some tag | _ => None end.

Definition delete_tag_of (op : SpannedOperation) : option string :=
  match SpannedOperation_node op with OperationNode_DeleteTag tag => Some tag | _ => None end.

Definition is_clear_tags (op : SpannedOperation) : bool :=
  match SpannedOperation_node op with OperationNode_ClearTags => true | _ => false end.

(** The index of the last [clear_tags] *)
Definition clear_tags_index (ops : list SpannedOperation) : option nat :=
  fst <$> last (List.filter (λ iop, is_clear_tags iop.2) (imap pair ops)).

Section with_order.
Context `{HashOrder}.

(** The set keys are visited in hash order. *)
Definition check_tag_conflicts (phase : PhaseNode) : list DslError :=
  let ops := PhaseNode_operations phase in
  let set_tag_keys : gset string := list_to_set (omap set_tag_of ops) in
  let delete_tag_keys : gset string := list_to_set (omap delete_tag_of ops) in
  ((hash_iter (gset_to_gmap tt set_tag_keys)).*1 ≫= λ key,
     push_if (bool_decide (key ∈ delete_tag_keys))
       (phase_error phase ("tag " +:+ quote key +:+ " is both set and deleted in phase "
                           +:+ quote (PhaseNode_name phase))))
  ++ match clear_tags_index ops with
     | Some clear_idx =>
         if bool_decide (set_tag_keys = ∅) then []
         else imap pair ops ≫= λ '(i, op),
           match set_tag_of op with
           | Some tag =>
               push_if (i <? clear_idx)%nat
                 (DslError_validation (Span_line (SpannedOperation_span op))
                    (Span_col (SpannedOperation_span op))
                    ("set_tag " +:+ quote tag
                     +:+ " appears before clear_tags and will be overwritten"))
           | None => []
           end
     | None => []
     end.

(** ** Field paths *)
Definition KNOWN_PLUGIN_NAMES : list string := ["radarr"; "sonarr"; "plex"].
Definition KNOWN_FIELD_ROOTS : list string := ["plugin"; "file"; "video"; "audio"; "system"].

(** Called with a path of at least one segment ([path[0]] is indexed). *)
Definition validate_phase_output_path (path : list string) (line col : usize) : list DslError :=
  match path with
  | [] => []
  | [head] =>
      [DslError_validation line col
         ("phase reference " +:+ quote head +:+ " requires a field; expected one of: "
          +:+ str_join ", " PHASE_OUTPUT_FIELDS)]
  | [head; field] =>
      push_if (negb (str_in PHASE_OUTPUT_FIELDS field))
        (DslError_validation line col
           ("unknown phase output field " +:+ quote (head +:+ "." +:+ field)
            +:+ "; expected one of: " +:+ str_join ", " PHASE_OUTPUT_FIELDS))
  | head :: field :: _ =>
      [DslError_validation line col
         ("phase output " +:+ quote (head +:+ "." +:+ field) +:+ " does not support nested fields")]
  end.

Definition plugin_name_warnings (path : list string) (line col : usize) : list DslWarning :=
  match path with
  | head :: plugin_name :: _ =>
      if bool_decide (head = "plugin") && negb (str_in KNOWN_PLUGIN_NAMES plugin_name) then
        match suggest_from plugin_name KNOWN_PLUGIN_NAMES with
        | Some suggestion =>
            [DslWarning_new line col
               ("unknown plugin name " +:+ quote plugin_name +:+ " in field path; known plugins: "
                +:+ str_join ", " KNOWN_PLUGIN_NAMES) (Some (did_you_mean suggestion))]
        | None => []
        end
      else []
  | _ => []
  end.

Definition validate_field_path (path : list string) (line col : usize)
    (phase_names : gset string) : diagnostics :=
  match path with
  | [] => errors_only [DslError_validation line col "empty field path in filter"]
  | head :: _ =>
      let is_known_root := str_in KNOWN_FIELD_ROOTS head in
      let is_phase_ref := bool_decide (head ∈ phase_names) in
      if negb is_known_root && negb is_phase_ref then
        errors_only [DslError_validation line col
          ("unknown field root " +:+ quote head +:+ " in filter; expected one of: "
           +:+ str_join ", " KNOWN_FIELD_ROOTS +:+ " or a declared phase name")]
      else if is_phase_ref && negb is_known_root then
        errors_only (validate_phase_output_path path line col)
      else {| diag_errors := []; diag_warnings := plugin_name_warnings path line col |}
  end.

(** ** Filters, conditions and actions *)
Context `{RegexCrate}.

Definition validate_filter_language (lang : string) (line col : usize) : list DslError :=
  push_if (negb (is_valid_language lang))
    (DslError_validation line col ("unknown language code " +:+ quote lang +:+ " in filter")).

Fixpoint validate_filter (filter : FilterNode) (line col : usize) (phase_names : gset string)
    : diagnostics :=
  match filter with
  | FilterNode_LangIn langs =>
      errors_only (langs ≫= λ lang, validate_filter_language lang line col)
  | FilterNode_LangCompare _ lang => errors_only (validate_filter_language lang line col)
  | FilterNode_LangField _ path | FilterNode_CodecField _ path =>
      validate_field_path path line col phase_names
  | FilterNode_CodecIn codecs => errors_only (codecs ≫= λ codec, validate_codec codec line col)
  | FilterNode_CodecCompare _ codec => errors_only (validate_codec codec line col)
  | FilterNode_And items | FilterNode_Or items =>
      diag_each (λ item, validate_filter item line col phase_names) items
  | FilterNode_TitleMatches pattern =>
      errors_only
        match regex_new pattern with
        | Ok _ => []
        | Err _ =>
            [DslError_validation line col
               ("invalid regex pattern in title matches: " +:+ quote pattern)]
        end
  | FilterNode_Not inner => validate_filter inner line col phase_names
  | _ => no_diag
  end.

(** A track target with its optional filter *)
Definition validate_target_filter (target : string) (filter : option FilterNode)
    (line col : usize) (phase_names : gset string) : diagnostics :=
  errors_only (validate_track_target target line col)
  ⊕ diag_opt (λ f, validate_filter f line col phase_names) filter.

Fixpoint validate_condition (cond : ConditionNode) (line col : usize) (phase_names : gset string)
    : diagnostics :=
  match cond with
  | ConditionNode_Exists query | ConditionNode_Count query _ _ =>
      validate_target_filter (TrackQueryNode_target query) (TrackQueryNode_filter query)
        line col phase_names
  | ConditionNode_FieldCompare path _ value =>
      validate_field_path path line col phase_names ⊕ errors_only (validate_value value line col)
  | ConditionNode_FieldExists path => validate_field_path path line col phase_names
  | ConditionNode_And items | ConditionNode_Or items =>
      diag_each (λ item, validate_condition item line col phase_names) items
  | ConditionNode_Not inner => validate_condition inner line col phase_names
  | ConditionNode_AudioIsMultiLanguage | ConditionNode_IsDubbed | ConditionNode_IsOriginal =>
      no_diag
  end.

Definition validate_action (action : ActionNode) (line col : usize) (phase_names : gset string)
    : diagnostics :=
  match action with
  | ActionNode_Keep target filter | ActionNode_Remove target filter =>
      validate_target_filter target filter line col phase_names
  | ActionNode_SetDefault r | ActionNode_SetForced r =>
      validate_target_filter (TrackRefNode_target r) (TrackRefNode_filter r) line col phase_names
  | ActionNode_SetLanguage r val =>
      validate_target_filter (TrackRefNode_target r) (TrackRefNode_filter r) line col phase_names
      ⊕ match val with
        | ValueOrField_Value (Value_String s) =>
            errors_only
              (push_if (negb (is_valid_language s))
                 (DslError_validation line col
                    ("unknown language code " +:+ quote s +:+ " in set_language action")))
        | ValueOrField_Field path => validate_field_path path line col phase_names
        | ValueOrField_Value _ => no_diag
        end
  | ActionNode_SetTag _ val =>
      match val with
      | ValueOrField_Field path => validate_field_path path line col phase_names
      | ValueOrField_Value _ => no_diag
      end
  | ActionNode_Skip _ | ActionNode_Warn _ | ActionNode_Fail _ => no_diag
  end.

Definition validate_when (when : WhenNode) (phase_names : gset string) : diagnostics :=
  let line := Span_line (WhenNode_span when) in
  let col := Span_col (WhenNode_span when) in
  validate_condition (WhenNode_condition when) line col phase_names
  ⊕ diag_each (λ a, validate_action a line col phase_names) (WhenNode_then_actions when)
  ⊕ diag_each (λ a, validate_action a line col phase_names) (WhenNode_else_actions when).
End with_order.

(** ** Operations *)
Definition KNOWN_ACTIONS_KEYS : list string :=
  ["clear_all_default"; "clear_all_forced"; "clear_all_titles"].

Definition validate_actions_setting (line col : usize) (setting : string * Value)
    : list DslError :=
  let '(key, val) := setting in
  if negb (str_in KNOWN_ACTIONS_KEYS key) then
    validate_ident_against key "actions setting" KNOWN_ACTIONS_KEYS line col
  else
    match val with
    | Value_Bool _ => []
    | _ =>
        [DslError_validation line col
           ("actions setting " +:+ quote key +:+ " requires a boolean value")]
    end.

Definition validate_actions_settings (settings : list (string * Value)) (line col : usize)
    : list DslError :=
  settings ≫= validate_actions_setting line col.

Definition NORMALIZE_KEYS : list string :=
  ["target_lufs"; "true_peak_db"; "lra_max"; "tolerance_lufs"].

Definition validate_normalize_entry (line col : usize) (entry : string * Value)
    : list DslError :=
  let '(key, value) := entry in
  if str_in NORMALIZE_KEYS key then
    match value with
    | Value_Number _ _ => []
    | _ => [DslError_validation line col (key +:+ " must be a number")]
    end
  else [DslError_validation line col ("unknown normalize setting " +:+ quote key)].

Definition validate_normalize_setting (setting : NormalizeSetting) (line col : usize)
    : list DslError :=
  push_if (bool_decide (LoudnessPreset_parse (NormalizeSetting_preset setting) = None))
    (DslError_validation line col
       ("unknown loudness preset " +:+ quote (NormalizeSetting_preset setting)))
  ++ (NormalizeSetting_settings setting ≫= validate_normalize_entry line col).

Definition valid_order_items : list string :=
  ["video"; "audio"; "audio_main"; "audio_alternate"; "audio_commentary"; "subtitle";
   "subtitles"; "subtitle_main"; "subtitle_forced"; "subtitle_commentary"; "attachment"].

Definition validate_default_item (line col : usize) (item : string * string) : list DslError :=
  let '(kind, value) := item in
  push_if (negb (str_in ["audio"; "subtitle"] kind))
    (DslError_validation line col ("invalid defaults kind " +:+ quote kind))
  ++ match parse_default_strategy value with
     | Some _ => []
     | None =>
         [DslError_validation line col
            ("invalid defaults value " +:+ quote value
             +:+ ", expected one of: first_per_language, none, first, all")]
     end.

Section operations.
Context `{HashOrder, RegexCrate}.

Definition validate_synth_setting (line col : usize) (phase_names : gset string)
    (setting : SynthSetting) : diagnostics :=
  match setting with
  | SynthSetting_Codec c => errors_only (validate_codec c line col)
  | SynthSetting_Language lang =>
      errors_only
        (push_if (negb (bool_decide (lang = "inherit")) && negb (is_valid_language lang))
           (DslError_validation line col ("unknown language code " +:+ quote lang)))
  | SynthSetting_Source f | SynthSetting_SkipIfExists f =>
      validate_filter f line col phase_names
  | SynthSetting_Channels v => errors_only (validate_synth_channels v line col)
  | SynthSetting_Position v => errors_only (validate_synth_position v line col)
  | SynthSetting_Normalize setting => errors_only (validate_normalize_setting setting line col)
  | SynthSetting_Bitrate _ | SynthSetting_Title _ | SynthSetting_CreateIf _ => no_diag
  end.

Definition validate_synthesize_operation (settings : list SynthSetting) (line col : usize)
    (phase_names : gset string) : diagnostics :=
  diag_each (validate_synth_setting line col phase_names) settings.

Definition validate_operation (op : OperationNode) (line col : usize) (phase_names : gset string)
    : diagnostics :=
  match op with
  | OperationNode_Container name =>
      errors_only
        (push_if (bool_decide (Container_from_extension name = Container_Other))
           (DslError_validation line col
              ("unknown container '" +:+ name +:+ "'; expected one of: "
               +:+ str_join ", " Container_known_extensions)))
  | OperationNode_Keep target filter _ | OperationNode_Remove target filter =>
      validate_target_filter target filter line col phase_names
  | OperationNode_Transcode target codec settings =>
      validate_transcode_operation target codec settings line col
  | OperationNode_Synthesize _ settings =>
      validate_synthesize_operation settings line col phase_names
  | OperationNode_When when => validate_when when phase_names
  | OperationNode_Rules mode rules =>
      errors_only
        (push_if (negb (str_in ["first"; "all"] mode))
           (DslError_validation line col
              ("invalid rules mode " +:+ quote mode +:+ ", expected " +:+ quote "first"
               +:+ " or " +:+ quote "all")))
      ⊕ diag_each (λ rule, validate_when (RuleNode_when rule) phase_names) rules
  | OperationNode_Order items =>
      errors_only (items ≫= λ item,
        push_if (negb (str_in valid_order_items item))
          (DslError_validation line col ("unknown track order item " +:+ quote item)))
  | OperationNode_Defaults items => errors_only (items ≫= validate_default_item line col)
  | OperationNode_Actions target settings =>
      errors_only (validate_track_target target line col
                   ++ validate_actions_settings settings line col)
  | OperationNode_ClearTags => no_diag
  | OperationNode_SetTag tag _ =>
      errors_only (push_if (bool_decide (tag = ""))
        (DslError_validation line col "set_tag requires a non-empty tag name"))
  | OperationNode_DeleteTag tag =>
      errors_only (push_if (bool_decide (tag = ""))
        (DslError_validation line col "delete_tag requires a non-empty tag name"))
  | OperationNode_Verify _ => no_diag
  end.

(** ** Phases and policies *)
Definition kept_target_of (op : SpannedOperation) : option (string * bool) :=
  match SpannedOperation_node op with
  | OperationNode_Keep target filter _ => Some (target, bool_decide (is_Some filter))
  | _ => None
  end.

Definition removed_target_of (op : SpannedOperation) : option (string * bool) :=
  match SpannedOperation_node op with
  | OperationNode_Remove target filter => Some (target, bool_decide (is_Some filter))
  | _ => None
  end.

Definition validate_phase (phase : PhaseNode) (phase_names : gset string) : diagnostics :=
  let line := Span_line (PhaseNode_span phase) in
  let col := Span_col (PhaseNode_span phase) in
  let ops := PhaseNode_operations phase in
  errors_only (push_if (PhaseNode_extend phase)
    (phase_error phase ("phase " +:+ quote (PhaseNode_name phase)
                        +:+ " uses extend but policy composition was not resolved")))
  ⊕ diag_opt (λ c, validate_condition c line col phase_names) (PhaseNode_skip_when phase)
  ⊕ diag_each (λ op, validate_operation (SpannedOperation_node op)
                       (Span_line (SpannedOperation_span op))
                       (Span_col (SpannedOperation_span op)) phase_names) ops
  ⊕ errors_only (check_tag_conflicts phase)
  ⊕ errors_only (check_track_conflicts phase (omap kept_target_of ops)
                   (omap removed_target_of ops)).

(** All diagnostics of a tree; [None] is a panic of the graph checks. *)
Definition collect_diagnostics (ast : PolicyAst) : option diagnostics :=
  cycles ← validate_cycle_detection ast;
  unreachable ← validate_reachability ast;
  let phase_names := phase_name_set ast in
  Some (errors_only (validate_config ast ++ validate_phase_names ast
                     ++ validate_phase_references ast ++ cycles ++ unreachable)
        ⊕ diag_each (λ phase, validate_phase phase phase_names) (PolicyAst_phases ast)).

Definition validate_collecting_warnings (ast : PolicyAst)
    : option (list DslWarning * result ValidationErrors unit) :=
  d ← collect_diagnostics ast;
  Some (diag_warnings d,
        if bool_decide (diag_errors d = []) then Ok tt
        else Err {| ValidationErrors_errors := diag_errors d |}).

Definition validate (ast : PolicyAst) : option (result ValidationErrors unit) :=
  snd <$> validate_collecting_warnings ast.

Definition validate_with_warnings (ast : PolicyAst)
    : option (list DslWarning * result ValidationErrors unit) :=
  validate_collecting_warnings ast.
End operations.

(** * Facts on the validator

    What a policy without validation errors satisfies, read off check by check,
    and that compilation of such a policy succeeds. *)

(** ** Names and references *)
Lemma phase_names_go_ok seen phases :
  phase_names_go seen phases = [] ↔
  NoDup (PhaseNode_name <$> phases) ∧ ∀ p, p ∈ phases → PhaseNode_name p ∉ seen.
Proof.
  revert seen; induction phases as [|p ps IH]; intros seen; csimpl.
  { split; [|done]. intros _. split; [constructor|set_solver]. }
  rewrite app_nil, push_if_nil, bool_decide_eq_false, IH, NoDup_cons.
  rewrite list_elem_of_fmap. set_solver.
Qed.

Lemma validate_phase_names_ok ast : validate_phase_names ast = [] ↔ NoDup (ast_names ast).
Proof. unfold validate_phase_names. rewrite phase_names_go_ok. set_solver. Qed.

Lemma elem_of_phase_name_set ast n : n ∈ phase_name_set ast ↔ n ∈ ast_names ast.
Proof. unfold phase_name_set, ast_names. apply elem_of_list_to_set. Qed.

Lemma validate_phase_references_ok ast :
  validate_phase_references ast = [] ↔
  ∀ p, p ∈ PolicyAst_phases ast →
    (∀ d, d ∈ deps_of p → d ∈ ast_names ast ∧ d ≠ PhaseNode_name p) ∧
    (∀ r, PhaseNode_run_if p = Some r → RunIfNode_phase r ∈ ast_names ast).
Proof.
  unfold validate_phase_references. rewrite bind_nil_iff. apply forall_proper; intros p.
  apply forall_proper; intros _. rewrite app_nil, bind_nil_iff. f_equiv.
  - apply forall_proper; intros d. unfold validate_dep.
    rewrite app_nil, !push_if_nil, negb_false_iff, bool_decide_eq_true, bool_decide_eq_false.
    by rewrite elem_of_phase_name_set.
  - unfold validate_run_if_reference. destruct (PhaseNode_run_if p) as [r|]; [|naive_solver].
    rewrite push_if_nil, negb_false_iff, bool_decide_eq_true, elem_of_phase_name_set. naive_solver.
Qed.

(** ** The sort accepts what the graph checks accept *)
Lemma rooted_not_blocked ast stuck :
  NoDup (ast_names ast) →
  (∀ p d, p ∈ PolicyAst_phases ast → d ∈ deps_of p → d ∈ ast_names ast) →
  (∀ p, p ∈ PolicyAst_phases ast → rooted (PolicyAst_phases ast) (PhaseNode_name p)) →
  ¬ blocked ast stuck.
Proof.
  intros Hnd Hknown Hroot [Hne Hblock].
  assert (∀ n, rooted (PolicyAst_phases ast) n → n ∉ stuck) as Hno.
  { induction 1 as [p Hp _ IH]. intros Hin. destruct (Hblock _ Hin) as [_ (d & Hd & Hcase)].
    apply elem_of_ast_edges in Hd as (q & Hq & Hqn & Hd).
    assert (q = p) as -> by (by eapply NoDup_fmap_inj_elem).
    assert (d ∈ ast_names ast) as Hdn by (by eapply Hknown).
    destruct Hcase as [?|Hs]; [done|]. apply (IH d Hd); [|done].
    by apply elem_of_list_to_set. }
  destruct stuck as [|n stuck]; [done|].
  destruct (Hblock n) as [(p & -> & Hp)%list_elem_of_fmap _]; [by left|].
  apply (Hno (PhaseNode_name p)); [by apply Hroot|by left].
Qed.

Section sort.
Context `{PartitionPoint, HashOrder}.

Lemma validated_graph_sorts ast :
  validate_phase_names ast = [] → validate_phase_references ast = [] →
  validate_reachability ast = Some [] →
  ∃ order, topological_sort ast = Some (Ok order) ∧ valid_order ast order.
Proof.
  intros Hn%validate_phase_names_ok Hr Hreach. rewrite validate_phase_references_ok in Hr.
  destruct (validate_reachability_ok ast) as (es & Hes & Hroot).
  assert (es = []) as -> by congruence. destruct Hroot as [Hroot _]. specialize (Hroot eq_refl).
  destruct (topological_sort_cases ast) as [?|(e & res & _ & Hb & _)]; [done|].
  exfalso. eapply rooted_not_blocked; [done| |done|by apply Hb].
  intros p d Hp Hd. by apply (Hr p Hp).
Qed.
End sort.

(** ** Filters and conditions compile *)
Section compile.
Context `{HashOrder, RegexCrate, ValueDebug}.

Lemma valid_target_ok target line col :
  validate_track_target target line col = [] → ∃ t, parse_track_target target = Ok t.
Proof.
  unfold validate_track_target, str_in.
  rewrite push_if_nil, negb_false_iff, bool_decide_eq_true. unfold valid_targets.
  rewrite !elem_of_cons, elem_of_nil.
  intros [->|[->|[->|[->|[->|[->|[->|[]]]]]]]]; by eexists.
Qed.

Lemma try_map_Ok_exists {E A B} (f : A → result E B) l :
  (∀ x, x ∈ l → ∃ y, f x = Ok y) → ∃ ys, try_map f l = Ok ys.
Proof.
  induction l as [|x l IH]; intros Hf; simpl; [by eexists|].
  destruct (Hf x) as [y ->]; [by left|]. destruct IH as [ys ->]; [set_solver|]. by eexists.
Qed.

Lemma try_opt_Ok_exists {E A B} (f : A → result E B) o :
  (∀ x, o = Some x → ∃ y, f x = Ok y) → ∃ y, try_opt f o = Ok y.
Proof.
  destruct o as [x|]; simpl; [|by eexists]. intros Hf. destruct (Hf x eq_refl) as [y ->].
  by eexists.
Qed.

Lemma validated_filter_compiles f line col names :
  diag_errors (validate_filter f line col names) = [] → ∃ c, compile_filter f = Ok c.
Proof.
  induction f as [f Hf|fs IH|fs IH|f IH] using FilterNode_nested_ind; simpl.
  - destruct f; try done; simpl; try (by eexists). unfold CompiledRegex_new.
    destruct (regex_new _); [by eexists|done].
  - rewrite diag_each_ok. intros Hall. rewrite Forall_forall in IH.
    destruct (try_map_Ok_exists compile_filter fs) as [cs ->]; [auto|]. by eexists.
  - rewrite diag_each_ok. intros Hall. rewrite Forall_forall in IH.
    destruct (try_map_Ok_exists compile_filter fs) as [cs ->]; [auto|]. by eexists.
  - intros Hi. destruct (IH Hi) as [c ->]. by eexists.
Qed.

Lemma validated_target_filter_compiles target filter line col names :
  diag_errors (validate_target_filter target filter line col names) = [] →
  ∃ r, compile_target_filter target filter = Ok r.
Proof.
  unfold validate_target_filter. rewrite diag_app_ok, diag_opt_ok. simpl. intros [Ht Hf].
  unfold compile_target_filter. destruct (valid_target_ok _ _ _ Ht) as [t ->]. simpl.
  destruct (try_opt_Ok_exists compile_filter filter) as [c ->]; [|by eexists].
  intros f ->. eapply validated_filter_compiles. by apply Hf.
Qed.

Lemma validated_condition_compiles c line col names :
  diag_errors (validate_condition c line col names) = [] → ∃ cc, compile_condition c = Ok cc.
Proof.
  induction c as [c Hf|cs IH|cs IH|c IH] using ConditionNode_nested_ind; simpl.
  - destruct c; try done; simpl; try (by eexists);
      intros [[t f] ->]%validated_target_filter_compiles; by eexists.
  - rewrite diag_each_ok. intros Hall. rewrite Forall_forall in IH.
    destruct (try_map_Ok_exists compile_condition cs) as [ccs ->]; [auto|]. by eexists.
  - rewrite diag_each_ok. intros Hall. rewrite Forall_forall in IH.
    destruct (try_map_Ok_exists compile_condition cs) as [ccs ->]; [auto|]. by eexists.
  - intros Hi. destruct (IH Hi) as [cc ->]. by eexists.
Qed.

Lemma validated_action_compiles a line col names :
  diag_errors (validate_action a line col names) = [] → ∃ ca, compile_action a = Ok ca.
Proof.
  destruct a; unfold validate_action, compile_action; try (intros _; by eexists);
    rewrite ?diag_app_ok; intros Hok; try apply proj1 in Hok;
    apply validated_target_filter_compiles in Hok as [[t f] ->]; by eexists.
Qed.

Lemma validated_when_compiles w names :
  diag_errors (validate_when w names) = [] → ∃ c, compile_conditional w = Ok c.
Proof.
  unfold validate_when. rewrite !diag_app_ok, !diag_each_ok. intros [[Hc Ht] He].
  unfold compile_conditional. apply validated_condition_compiles in Hc as [c ->]. simpl.
  destruct (try_map_Ok_exists compile_action (WhenNode_then_actions w)) as [ts ->].
  { intros a Ha. eapply validated_action_compiles, Ht, Ha. }
  destruct (try_map_Ok_exists compile_action (WhenNode_else_actions w)) as [es ->].
  { intros a Ha. eapply validated_action_compiles, He, Ha. }
  by eexists.
Qed.

(** ** Operations compile

    The validator does not look into the loudness settings of a [keep] nor into
    the [create_if] condition of a synthesized track. *)
Definition keep_normalize_ok (op : OperationNode) : bool :=
  match op with
  | OperationNode_Keep _ _ (Some n) =>
      negb (bool_decide (LoudnessPreset_parse (NormalizeSetting_preset n) = None))
  | _ => true
  end.

Definition create_if_ok (op : OperationNode) : bool :=
  match op with
  | OperationNode_Synthesize _ settings =>
      forallb (λ s, match s with
                    | SynthSetting_CreateIf c =>
                        match compile_condition c with Ok _ => true | Err _ => false end
                    | _ => true
                    end) settings
  | _ => true
  end.

Lemma validated_normalize_compiles n line col :
  validate_normalize_setting n line col = [] → ∃ l, compile_normalize n = Ok l.
Proof.
  unfold validate_normalize_setting. rewrite app_nil, push_if_nil, bool_decide_eq_false.
  intros [Hp _]. unfold compile_normalize. destruct (LoudnessPreset_parse _); [by eexists|done].
Qed.

Lemma validated_synth_compiles settings s line col names :
  (∀ x, x ∈ settings → diag_errors (validate_synth_setting line col names x) = []) →
  create_if_ok (OperationNode_Synthesize "" settings) = true →
  ∃ r, synth_apply_all s settings = Ok r.
Proof.
  revert s; induction settings as [|x settings IH]; intros s Hv Hc; [by eexists|].
  simpl in Hc. apply andb_prop in Hc as [Hx Hc].
  assert (∃ s', synth_apply s x = Ok s') as [s' Hs'].
  { specialize (Hv x). destruct s, x; try (by eexists); simpl.
    - destruct (validated_filter_compiles _ _ _ _ (Hv ltac:(by left))) as [c ->]. by eexists.
    - destruct (validated_filter_compiles _ _ _ _ (Hv ltac:(by left))) as [c ->]. by eexists.
    - destruct (compile_condition _); [by eexists|done].
    - destruct (validated_normalize_compiles _ _ _ (Hv ltac:(by left))) as [c ->]. by eexists. }
  cbn [synth_apply_all]. rewrite Hs'. simpl. apply IH; [|done]. intros y Hy. apply Hv. by right.
Qed.

Lemma validated_operation_compiles op line col names :
  diag_errors (validate_operation op line col names) = [] →
  keep_normalize_ok op = true → create_if_ok op = true →
  ∃ c, compile_operation op = Ok c.
Proof.
  destruct op as [name|target filter normalize|target filter|items|items|target settings
    |target codec settings|name settings| |tag value|tag|when|mode rules|mode];
    unfold validate_operation, compile_operation; intros Hv Hk Hc; try (by eexists).
  - simpl in Hv. case_bool_decide; [done|]. by eexists.
  - apply validated_target_filter_compiles in Hv as [[t f] ->]. cbn [mbind result_mbind].
    destruct normalize as [n|]; [|by eexists]. simpl in Hk. unfold compile_normalize.
    destruct (LoudnessPreset_parse _); [by eexists|done].
  - apply validated_target_filter_compiles in Hv as [[t f] ->]. by eexists.
  - simpl in Hv. rewrite bind_nil_iff in Hv.
    destruct (try_map_Ok_exists compile_default items) as [ds ->]; [|by eexists].
    intros [kind value] Hi. apply Hv in Hi. unfold validate_default_item in Hi.
    apply app_nil in Hi as [Hi _]. unfold str_in in Hi.
    rewrite push_if_nil, negb_false_iff, bool_decide_eq_true in Hi.
    rewrite !elem_of_cons, elem_of_nil in Hi. unfold compile_default. simpl.
    destruct Hi as [->|[->|[]]]; by eexists.
  - simpl in Hv. apply app_nil in Hv as [Ht _]. apply valid_target_ok in Ht as [t ->]. by eexists.
  - unfold validate_transcode_operation in Hv. apply diag_app_ok in Hv as [Hv _]. simpl in Hv.
    apply app_nil in Hv as [Ht _]. unfold compile_transcode.
    apply valid_target_ok in Ht as [t ->]. by eexists.
  - unfold validate_synthesize_operation in Hv. rewrite diag_each_ok in Hv. unfold compile_synthesize.
    destruct (validated_synth_compiles settings (Build_CompiledSynthesize name None None None None
      None None None None None None) line col names) as [r ->]; [done|done|by eexists].
  - destruct (validated_when_compiles _ _ Hv) as [c ->]. by eexists.
  - rewrite diag_app_ok, diag_each_ok in Hv. simpl in Hv. destruct Hv as [Hm Hr].
    destruct (try_map_Ok_exists (λ r, c ← compile_conditional (RuleNode_when r);
      Ok (Build_CompiledRule (RuleNode_name r) c)) rules) as [cs ->].
    { intros r Hin. destruct (validated_when_compiles _ _ (Hr r Hin)) as [c ->]. by eexists. }
    unfold str_in in Hm. rewrite push_if_nil, negb_false_iff, bool_decide_eq_true in Hm.
    rewrite !elem_of_cons, elem_of_nil in Hm. destruct Hm as [->|[->|[]]]; by eexists.
Qed.

Definition unchecked_parts_ok (ast : PolicyAst) : bool :=
  forallb (λ p, forallb (λ s, keep_normalize_ok (SpannedOperation_node s) &&
                              create_if_ok (SpannedOperation_node s))
                        (PhaseNode_operations p)) (PolicyAst_phases ast).

Lemma validated_phase_compiles p names comp :
  diag_errors (validate_phase p names) = [] →
  forallb (λ s, keep_normalize_ok (SpannedOperation_node s) &&
                create_if_ok (SpannedOperation_node s)) (PhaseNode_operations p) = true →
  ∃ c, compile_phase p comp = Ok c.
Proof.
  unfold validate_phase. rewrite !diag_app_ok, diag_opt_ok, diag_each_ok. simpl.
  rewrite push_if_nil. intros [[[[Hx Hs] Hops] _] _] Hu. unfold compile_phase. rewrite Hx.
  destruct (try_opt_Ok_exists compile_condition (PhaseNode_skip_when p)) as [sw ->].
  { intros c Hc. eapply validated_condition_compiles, Hs, Hc. }
  rewrite forallb_elem_of in Hu. simpl.
  destruct (try_map_Ok_exists (λ s, compile_operation (SpannedOperation_node s))
    (PhaseNode_operations p)) as [ops ->]; [|by eexists].
  intros s Hin. specialize (Hu s Hin). apply andb_prop in Hu as [Hk Hc].
  by eapply validated_operation_compiles; [apply Hops|..].
Qed.
End compile.

(** ** The whole validator *)
Section validate.
Context `{HashOrder, RegexCrate}.

Lemma collect_diagnostics_total ast : ∃ d, collect_diagnostics ast = Some d.
Proof.
  unfold collect_diagnostics.
  destruct (validate_cycle_detection_ok ast) as (es & -> & _).
  destruct (validate_reachability_ok ast) as (es' & -> & _). by eexists.
Qed.

Lemma validate_Ok ast :
  validate ast = Some (Ok tt) ↔
  validate_config ast = [] ∧ validate_phase_names ast = [] ∧ validate_phase_references ast = [] ∧
  validate_cycle_detection ast = Some [] ∧ validate_reachability ast = Some [] ∧
  ∀ p, p ∈ PolicyAst_phases ast → diag_errors (validate_phase p (phase_name_set ast)) = [].
Proof.
  unfold validate, validate_collecting_warnings, collect_diagnostics.
  destruct (validate_cycle_detection_ok ast) as (es & -> & _).
  destruct (validate_reachability_ok ast) as (es' & -> & _).
  cbn [mbind option_bind fmap option_fmap option_map snd]. rewrite <-diag_each_ok.
  set (d := diag_each _ _). cbn [diag_app errors_only diag_errors].
  case_bool_decide as Hd; rewrite !app_nil in Hd; split; try naive_solver.
Qed.
End validate.
