(* ===== verification/ValueFacts.v ===== *)
(** * Facts on values

    The matrix edit distance, suggestions, bitrates, and what a validated
    transcode operation compiles to. *)
From S2P Require Import Prelude Media Plan Compiled Codecs Ast Compiler CompilerFacts PhaseGraph.
From S2P Require Import Validator.

(** ** The matrix of distances *)
Section matrix.
Context (a b : list string).

(** Rows up to [i] are final, and row [S i] is final up to column [m]. *)
Definition matrix_ok (i m : nat) (dp : list (list nat)) : Prop :=
  length dp = length a + 1 ∧
  (∀ r, r ≤ i → row_ok a b r (length b) (dp !!! r)) ∧
  (∀ r, i < r → r ≤ length a → row_ok a b r (if decide (r = S i) then m else 0) (dp !!! r)).

Lemma matrix_init_ok : matrix_ok 0 0 (matrix_init a b).
Proof.
  unfold matrix_init. set (zeros := replicate (length b + 1) 0).
  assert (∀ i, i ≤ length a →
    imap (λ i row, <[0 := i]> row) (replicate (length a + 1) zeros) !! i =
    Some (<[0 := i]> zeros)) as Hrow.
  { intros i Hi. rewrite list_lookup_imap, lookup_replicate_2 by lia. done. }
  assert (length zeros = length b + 1) as Hz by apply length_replicate.
  split_and!.
  - by rewrite length_insert, length_imap, length_replicate.
  - intros r Hr. assert (r = 0) as -> by lia.
    rewrite list_lookup_total_insert_eq by (rewrite length_imap, length_replicate; lia).
    pose proof (list_lookup_total_correct _ _ _ (Hrow 0 (Nat.le_0_l _))) as ->.
    split; [by rewrite length_imap, length_insert|]. intros j Hj. rewrite cell_0_l by done.
    apply list_lookup_total_correct. rewrite list_lookup_imap.
    destruct (lookup_lt_is_Some_2 (<[0:=0]> zeros) j) as [x ->]; [|done].
    rewrite length_insert. lia.
  - intros r Hr Hle. rewrite list_lookup_total_insert_ne by lia.
    pose proof (list_lookup_total_correct _ _ _ (Hrow r Hle)) as ->.
    split; [by rewrite length_insert|]. intros j Hj.
    assert (j = 0) as -> by (destruct (decide _); lia).
    rewrite cell_0_r by done. by rewrite list_lookup_total_insert_eq by lia.
Qed.

Lemma matrix_cell_ok i j dp :
  i < length a → j < length b → matrix_ok i j dp → matrix_ok i (S j) (matrix_cell a b (S i) dp (S j)).
Proof.
  intros Hi Hj (Hlen & Hdone & Hrest). unfold matrix_cell.
  destruct (lookup_lt_is_Some_2 a i Hi) as [x Hx], (lookup_lt_is_Some_2 b j Hj) as [y Hy].
  destruct (Hdone i) as [Hlp Hp]; [done|].
  destruct (Hrest (S i)) as [Hlc Hc]; [lia|lia|]. rewrite decide_True in Hc by done.
  split_and!; [by rewrite length_insert| |].
  - intros r Hr. rewrite list_lookup_total_insert_ne by lia. by apply Hdone.
  - intros r Hr Hle. destruct (decide (r = S i)) as [->|Hne].
    + rewrite list_lookup_total_insert_eq by lia. split; [by rewrite length_insert|].
      intros k Hk. destruct (decide (k = S j)) as [->|Hne].
      * rewrite list_lookup_total_insert_eq by lia. simpl.
        rewrite !Nat.sub_0_r, !Hp, Hc, Hx, Hy by lia. unfold cell.
        rewrite (lev_prefix a b i j x y) by done.
        by rewrite (bool_decide_ext (Some x = Some y) (x = y)) by naive_solver.
      * rewrite list_lookup_total_insert_ne by done. apply Hc. lia.
    + rewrite list_lookup_total_insert_ne by lia. specialize (Hrest r Hr Hle).
      by rewrite decide_False in Hrest by done.
Qed.

Lemma matrix_row_ok i dp :
  i < length a → matrix_ok i 0 dp → matrix_ok (S i) 0 (matrix_row a b dp (S i)).
Proof.
  intros Hi Hdp. unfold matrix_row.
  assert (∀ k m dp, m + k = length b → matrix_ok i m dp →
    matrix_ok i (length b) (foldl (matrix_cell a b (S i)) dp (seq (S m) k))) as Hcells.
  { induction k as [|k IH]; intros m dp' Hm Hok; simpl; [by replace (length b) with m by lia|].
    apply IH; [lia|]. apply matrix_cell_ok; [done|lia|done]. }
  destruct (Hcells (length b) 0 dp) as (Hl & Hd & Hr); [done|done|]. split_and!; [done| |].
  - intros r Hle. destruct (decide (r = S i)) as [->|]; [|apply Hd; lia].
    specialize (Hr (S i)). rewrite decide_True in Hr by done. apply Hr; lia.
  - intros r Hlt Hle. specialize (Hr r). rewrite decide_False in Hr by lia.
    destruct (Hr ltac:(lia) Hle) as [Hlen Hc]. split; [done|]. intros j Hj. apply Hc.
    destruct (decide _); lia.
Qed.

Lemma matrix_rows_ok k i dp :
  i + k = length a → matrix_ok i 0 dp →
  matrix_ok (length a) 0 (foldl (matrix_row a b) dp (seq (S i) k)).
Proof.
  revert i dp; induction k as [|k IH]; intros i dp Hik Hok; simpl.
  - by replace (length a) with i by lia.
  - apply IH; [lia|]. apply matrix_row_ok; [lia|done].
Qed.
End matrix.

Lemma matrix_edit_distance_lev s t :
  matrix_edit_distance s t = lev (str_chars s) (str_chars t).
Proof.
  unfold matrix_edit_distance. set (a := str_chars s). set (b := str_chars t).
  destruct (matrix_rows_ok a b (length a) 0 (matrix_init a b)) as (_ & Hd & _);
    [done|apply matrix_init_ok|].
  destruct (Hd (length a)) as [_ Hc]; [done|]. rewrite Hc by done. unfold cell.
  rewrite !take_ge by done. apply lev_rev.
Qed.

(** On ASCII text characters are bytes. *)
Lemma str_chars_ascii s :
  is_ascii s = true → str_chars s = (λ c, String c "") <$> String.list_ascii_of_string s.
Proof.
  induction s as [|c s IH]; simpl; [done|]. intros [Hc Hs]%andb_prop. rewrite IH by done.
  destruct s as [|c' s]; [done|]. csimpl. simpl in Hs. apply andb_prop in Hs as [Hc' _].
  unfold is_ascii_byte in Hc'. apply bool_decide_eq_true in Hc'.
  unfold utf8_continuation. by rewrite bool_decide_false by lia.
Qed.

Lemma lev_fmap_inj {A B} `{!EqDecision A, !EqDecision B} (f : A → B) `{!Inj (=) (=) f} a b :
  lev (f <$> a) (f <$> b) = lev a b.
Proof.
  revert b; induction a as [|x a IHa]; intros b; [apply length_fmap|].
  induction b as [|y b IHb].
  - rewrite fmap_nil, !lev_nil_r. apply length_fmap.
  - rewrite !fmap_cons in *. rewrite !lev_cons, IHb, IHa.
    pose proof (IHa (y :: b)) as Hy. rewrite fmap_cons in Hy. rewrite Hy.
    by rewrite (bool_decide_ext (f x = f y) (x = y)) by (split; [apply (inj f)|congruence]).
Qed.

Lemma matrix_edit_distance_ascii s t :
  is_ascii s = true → is_ascii t = true → matrix_edit_distance s t = edit_distance s t.
Proof.
  intros Hs Ht. rewrite matrix_edit_distance_lev, edit_distance_lev, !str_chars_ascii by done.
  apply lev_fmap_inj. by intros c d [= ->].
Qed.

(** ** Settings that pass are settings that are read *)

Lemma get_setting_elem settings key v :
  get_setting settings key = Some v → (key, v) ∈ settings.
Proof.
  unfold get_setting. intros ([k w] & Hf & ->)%fmap_Some.
  apply find_Some_elem_of in Hf as [Hin Hk]. simpl in *. case_bool_decide; [by subst|done].
Qed.

Lemma get_setting_present (settings : list (string * Value)) key :
  key ∈ settings.*1 → ∃ v, get_setting settings key = Some v ∧ (key, v) ∈ settings.
Proof.
  intros ([k v] & -> & Hin)%list_elem_of_fmap. simpl.
  destruct (get_setting settings k) as [w|] eqn:Hg; [by eauto using get_setting_elem|].
  apply fmap_None in Hg. eapply find_none in Hg; [|by apply list_elem_of_In].
  by apply bool_decide_eq_false in Hg.
Qed.

Lemma get_setting_unique settings key v :
  NoDup settings.*1 → (key, v) ∈ settings → get_setting settings key = Some v.
Proof.
  intros Hnd Hin. destruct (get_setting_present settings key) as (w & Hw & Hwin).
  { apply list_elem_of_fmap. by exists (key, v). }
  rewrite Hw. f_equal.
  assert ((key, w) = (key, v)) as [= ->]; [|done]. by eapply NoDup_fmap_inj_elem.
Qed.

(** The validator and the compiler read numbers in the same way. *)
Lemma numeric_u32_get v : numeric_u32 v = get_u32 (Some v).
Proof. by destruct v. Qed.

Lemma find_arg_get items key : snd <$> find_arg items key = get_setting items key.
Proof. done. Qed.

Lemma numeric_arg_get items key : numeric_arg items key = get_u32 (get_setting items key).
Proof.
  unfold numeric_arg. rewrite <-find_arg_get. destruct (find_arg items key) as [[k v]|]; [|done].
  apply numeric_u32_get.
Qed.

Lemma string_arg_get items key : string_arg items key = get_setting items key ≫= value_as_string.
Proof.
  unfold string_arg. rewrite <-find_arg_get.
  destruct (find_arg items key) as [[k v]|]; [by destruct v|done].
Qed.

Lemma validate_ident_against_ok input kind known line col :
  validate_ident_against input kind known line col = [] ↔ input ∈ known.
Proof.
  unfold validate_ident_against, str_in. case_bool_decide; [done|]. by case_match.
Qed.

Lemma validate_ident_setting_ok val key valid line col :
  validate_ident_setting val key valid line col = [] ↔
  ∃ name, value_as_name val = Some name ∧ name ∈ valid.
Proof.
  destruct val; simpl; rewrite ?validate_ident_against_ok; naive_solver.
Qed.

Lemma validate_sample_strategy_ok val line col :
  validate_sample_strategy val line col = [] → is_Some (parse_sample_strategy (Some val)).
Proof.
  destruct val as [| | |name| | |name args]; simpl; try done.
  - case_bool_decide; [by eexists|done].
  - destruct (bool_decide (name = "scenes") || bool_decide (name = "uniform")); [|done].
    rewrite app_nil, !push_if_nil, !bool_decide_eq_false, numeric_arg_get, string_arg_get.
    intros [Hc Hd]. destruct (get_u32 _); [|done]. simpl.
    destruct (get_setting args "duration" ≫= value_as_string); [by eexists|done].
Qed.

Lemma validate_transcode_fallback_ok val line col :
  validate_transcode_fallback val line col = [] →
  ∃ items crf, val = Value_Object items ∧ get_u32 (get_setting items "crf") = Some crf ∧
    (crf ≤ 51)%N ∧ is_Some (get_setting items "preset" ≫= value_as_string).
Proof.
  destruct val as [| | | | |items|]; simpl; try done.
  rewrite app_nil, numeric_arg_get, string_arg_get. intros [Hc Hp].
  destruct (get_u32 _) as [crf|] eqn:Hcrf; [|done].
  rewrite push_if_nil, negb_false_iff, N.leb_le in Hc.
  rewrite push_if_nil, bool_decide_eq_false in Hp.
  exists items, crf. split_and!; [done|done|done|]. by apply not_eq_None_Some.
Qed.

Lemma validate_vmaf_target_ok val key line col :
  diag_errors (validate_vmaf_target val key line col) = [] ↔
  ∃ n, get_u32 (Some val) = Some n ∧ (60 ≤ n ≤ 100)%N.
Proof.
  unfold validate_vmaf_target. rewrite numeric_u32_get.
  destruct (get_u32 (Some val)) as [n|]; [|split; [done|naive_solver]].
  destruct (N.leb_spec 60 n), (N.leb_spec n 100); simpl; try (split; [done|]; naive_solver lia).
  split; [|by case_match]. intros _. exists n. split; [done|lia].
Qed.

Lemma parse_bitrate_bound raw n : parse_bitrate raw = Some n → (n ≤ u64_MAX)%N.
Proof.
  unfold parse_bitrate. destruct (split_digits raw) as [digits suffix].
  destruct (parse_unsigned u64_MAX digits) as [v|]; simpl; [|done].
  destruct (if _ : bool then _ else _) as [m|]; simpl; [|done].
  destruct (N.leb_spec (v * m) u64_MAX); [by intros [= <-]|done].
Qed.

Lemma validate_bitrate_value_ok val key line col :
  (validate_bitrate_value val key line col).2 = [] →
  ∃ raw v, value_as_string val = Some raw ∧ parse_bitrate raw = Some v ∧
           (validate_bitrate_value val key line col).1 = Some v.
Proof.
  destruct val; simpl; try done; destruct (parse_bitrate _) as [v|] eqn:Hv; simpl; try done;
    intros _; by eexists _, v.
Qed.

Lemma starts_with_strip pat s :
  starts_with pat s = true → ∃ rest, strip_prefix pat s = Some rest.
Proof.
  revert s; induction pat as [|c pat IH]; intros [|d s]; simpl; try done; [by eexists..|].
  case_bool_decide; simpl; [|done]. apply IH.
Qed.

(** What one setting pushes, and how the remembered bitrates change. *)
Definition vmaf_diag (line col : usize) (s : string * Value) : diagnostics :=
  (validate_vmaf_setting line col (no_diag, None, None) s).1.1.

Lemma vmaf_setting_errors line col d mn mx s :
  diag_errors (validate_vmaf_setting line col (d, mn, mx) s).1.1 =
  diag_errors d ++ diag_errors (vmaf_diag line col s).
Proof.
  destruct s as [key val]. unfold vmaf_diag, validate_vmaf_setting.
  repeat case_bool_decide; try done; try (destruct (validate_bitrate_value _ _ _ _); done).
  destruct (starts_with _ _); [done|]. simpl. by rewrite app_nil_r.
Qed.

Lemma vmaf_fold_errors line col settings st :
  diag_errors (foldl (validate_vmaf_setting line col) st settings).1.1 = [] →
  diag_errors st.1.1 = [] ∧ ∀ s, s ∈ settings → diag_errors (vmaf_diag line col s) = [].
Proof.
  revert st; induction settings as [|s settings IH]; intros [[d mn] mx]; cbn [foldl].
  { intros Hd. split; [done|set_solver]. }
  intros [Hd Hs]%IH. rewrite vmaf_setting_errors in Hd. apply app_nil in Hd as [Hd He].
  split; [done|]. intros x [->|Hx]%elem_of_cons; [done|by apply Hs].
Qed.

Lemma vmaf_setting_bitrates line col st key val :
  (validate_vmaf_setting line col st (key, val)).1.2 =
    (if bool_decide (key = "min_bitrate") then (validate_bitrate_value val key line col).1
     else st.1.2) ∧
  (validate_vmaf_setting line col st (key, val)).2 =
    (if bool_decide (key = "max_bitrate") then (validate_bitrate_value val key line col).1
     else st.2).
Proof.
  destruct st as [[d mn] mx]. unfold validate_vmaf_setting.
  destruct (decide (key = "target_vmaf")) as [->|H1]; [done|].
  destruct (decide (key = "min_bitrate")) as [->|H2].
  { simpl. by destruct (validate_bitrate_value _ _ _ _). }
  destruct (decide (key = "max_bitrate")) as [->|H3].
  { simpl. by destruct (validate_bitrate_value _ _ _ _). }
  rewrite !(bool_decide_false (key = _)) by done.
  repeat case_bool_decide; try done. by destruct (starts_with _ _).
Qed.

(** The last occurrence of a key wins; keys that occur once keep their value. *)
Lemma vmaf_fold_min line col settings st :
  "min_bitrate" ∉ settings.*1 →
  (foldl (validate_vmaf_setting line col) st settings).1.2 = st.1.2.
Proof.
  revert st; induction settings as [|[key val] settings IH]; intros st Hn; cbn [foldl]; [done|].
  rewrite IH by set_solver. rewrite (proj1 (vmaf_setting_bitrates _ _ _ _ _)).
  rewrite bool_decide_false; [done|]. intros ->. apply Hn. by left.
Qed.

Lemma vmaf_fold_max line col settings st :
  "max_bitrate" ∉ settings.*1 →
  (foldl (validate_vmaf_setting line col) st settings).2 = st.2.
Proof.
  revert st; induction settings as [|[key val] settings IH]; intros st Hn; cbn [foldl]; [done|].
  rewrite IH by set_solver. rewrite (proj2 (vmaf_setting_bitrates _ _ _ _ _)).
  rewrite bool_decide_false; [done|]. intros ->. apply Hn. by left.
Qed.

Lemma NoDup_fst_split (settings : list (string * Value)) key val :
  NoDup settings.*1 → (key, val) ∈ settings →
  ∃ pre post, settings = pre ++ (key, val) :: post ∧ key ∉ post.*1.
Proof.
  intros Hnd (pre & post & ->)%list_elem_of_split. exists pre, post. split; [done|].
  rewrite fmap_app in Hnd. apply NoDup_app in Hnd as (_ & _ & Hnd). by apply NoDup_cons in Hnd as [].
Qed.

Lemma validated_bitrates_ordered settings line col a b :
  NoDup settings.*1 →
  diag_errors (validate_vmaf_transcode_settings settings line col) = [] →
  ("min_bitrate", a) ∈ settings → ("max_bitrate", b) ∈ settings →
  ∃ ra rb m n, value_as_string a = Some ra ∧ value_as_string b = Some rb ∧
    parse_bitrate ra = Some m ∧ parse_bitrate rb = Some n ∧ (m ≤ n)%N.
Proof.
  intros Hnd. unfold validate_vmaf_transcode_settings.
  destruct (foldl _ _ _) as [[d mn] mx] eqn:Hf. rewrite diag_app_ok. intros [Hd Hmm] Ha Hb.
  assert (diag_errors (foldl (validate_vmaf_setting line col) (no_diag, None, None)
    settings).1.1 = []) as Hall by (by rewrite Hf).
  apply vmaf_fold_errors in Hall as [_ Hall].
  assert (∀ key val, (key, val) ∈ settings → key = "min_bitrate" ∨ key = "max_bitrate" →
    (validate_bitrate_value val key line col).2 = []) as Herr.
  { intros key val Hin [->| ->]; apply Hall in Hin; unfold vmaf_diag, validate_vmaf_setting in Hin;
      simpl in Hin; by destruct (validate_bitrate_value _ _ _ _). }
  destruct (validate_bitrate_value_ok _ _ _ _ (Herr _ _ Ha ltac:(by left)))
    as (ra & m & Hra & Hpa & Hva).
  destruct (validate_bitrate_value_ok _ _ _ _ (Herr _ _ Hb ltac:(by right)))
    as (rb & n & Hrb & Hpb & Hvb).
  assert (mn = Some m) as ->.
  { destruct (NoDup_fst_split _ _ _ Hnd Ha) as (pre & post & Heq & Hpost).
    replace mn with (foldl (validate_vmaf_setting line col) (no_diag, None, None) settings).1.2
      by (by rewrite Hf).
    rewrite Heq, foldl_app. cbn [foldl]. rewrite vmaf_fold_min by done.
    by rewrite (proj1 (vmaf_setting_bitrates _ _ _ _ _)), bool_decide_true. }
  assert (mx = Some n) as ->.
  { destruct (NoDup_fst_split _ _ _ Hnd Hb) as (pre & post & Heq & Hpost).
    replace mx with (foldl (validate_vmaf_setting line col) (no_diag, None, None) settings).2
      by (by rewrite Hf).
    rewrite Heq, foldl_app. cbn [foldl]. rewrite vmaf_fold_max by done.
    by rewrite (proj2 (vmaf_setting_bitrates _ _ _ _ _)), bool_decide_true. }
  simpl in Hmm. rewrite push_if_nil, N.ltb_ge in Hmm. by exists ra, rb, m, n.
Qed.

(** ** The settings of a validated video transcode *)

(** Every key that the validator checks is compiled to a value in the range of its
    setting. The validator does not look at [crf], [preset], [bitrate], [preserve]
    and the value of [hw_fallback], and accepts values of [fallback] that the
    compiler drops. *)
Record video_settings_typed (keys : list string) (s : CompiledTranscodeSettings) : Prop := {
  typed_vmaf : "target_vmaf" ∈ keys → ∃ n, CTS_target_vmaf s = Some n ∧ (60 ≤ n ≤ 100)%N;
  typed_hw : "hw" ∈ keys → ∃ h, CTS_hw s = Some h ∧
    h ∈ ["auto"; "nvenc"; "qsv"; "vaapi"; "videotoolbox"; "none"];
  typed_hdr_mode : "hdr_mode" ∈ keys → ∃ m, CTS_hdr_mode s = Some m ∧ m ∈ ["preserve"; "tonemap"];
  typed_preserve_hdr : "preserve_hdr" ∈ keys → is_Some (CTS_preserve_hdr s);
  typed_tonemap : "tonemap" ∈ keys → ∃ n, CTS_tonemap s = Some n ∧ n ∈ VALID_TONEMAP_ALGORITHMS;
  typed_tune : "tune" ∈ keys → ∃ n, CTS_tune s = Some n ∧ n ∈ VALID_TUNE_VALUES;
  typed_scale : "scale_algorithm" ∈ keys → ∃ n, CTS_scale_algorithm s = Some n ∧ n ∈ VALID_SCALE_ALGORITHMS;
  typed_color : "hdr_color_metadata" ∈ keys → ∃ n, CTS_hdr_color_metadata s = Some n ∧
    n ∈ VALID_HDR_COLOR_METADATA;
  typed_dolby : "dolby_vision" ∈ keys → ∃ n, CTS_dolby_vision s = Some n ∧
    n ∈ VALID_DOLBY_VISION_MODES;
  typed_hw_fallback : "hw_fallback" ∈ keys → is_Some (CTS_hw s);
  typed_min_bitrate : "min_bitrate" ∈ keys → ∃ b n, CTS_min_bitrate s = Some b ∧ parse_bitrate b = Some n;
  typed_max_bitrate : "max_bitrate" ∈ keys → ∃ b n, CTS_max_bitrate s = Some b ∧ parse_bitrate b = Some n;
  typed_resolution : "max_resolution" ∈ keys → ∃ r, CTS_max_resolution s = Some r ∧
    r ∈ ["480p"; "720p"; "1080p"; "1440p"; "2160p"; "4k"; "8k"];
  typed_sampling : "sample_strategy" ∈ keys → is_Some (CTS_sample_strategy s);
  typed_crop : "crop" ∈ keys → is_Some (CTS_crop s);
  typed_crop_threshold : "crop_threshold" ∈ keys →
    ∃ c t, CTS_crop s = Some c ∧ CropSettings_threshold c = Some t ∧ (t ≤ 255)%N;
  typed_crop_samples : "crop_sample_count" ∈ keys →
    ∃ c n, CTS_crop s = Some c ∧ CropSettings_sample_count c = Some n ∧ (0 < n)%N;
  typed_crop_duration : "crop_sample_duration" ∈ keys →
    ∃ c n, CTS_crop s = Some c ∧ CropSettings_sample_duration_secs c = Some n ∧ (0 < n)%N;
  typed_crop_minimum : "crop_minimum" ∈ keys →
    ∃ c n, CTS_crop s = Some c ∧ CropSettings_minimum_crop c = Some n;
  typed_crop_bottom : "crop_preserve_bottom_pixels" ∈ keys →
    ∃ c n, CTS_crop s = Some c ∧ CropSettings_preserve_bottom_pixels c = Some n;
  typed_crop_ratios : "crop_aspect_lock" ∈ keys →
    ∃ c, CTS_crop s = Some c ∧ Forall (λ r, is_crop_ratio r = true) (CropSettings_aspect_lock c);
  typed_overrides : ∀ m k n, CTS_vmaf_overrides s = Some m → m !! k = Some n → (60 ≤ n ≤ 100)%N;
}.

Section typed.
Context (settings : list (string * Value)) (line col : usize).
Let s := compile_transcode_settings settings.

Hypothesis video_ok : validate_video_transcode_settings settings line col = [].
Hypothesis vmaf_ok : diag_errors (validate_vmaf_transcode_settings settings line col) = [].
Hypothesis hw_ok : validate_hw_settings settings line col = [].

Let crop_enabled := existsb (λ s, bool_decide (s.1 = "crop") && is_crop_auto s.2) settings.

Lemma video_setting_ok key v :
  (key, v) ∈ settings → validate_video_setting crop_enabled line col (key, v) = [].
Proof. revert video_ok. unfold validate_video_transcode_settings. rewrite bind_nil_iff. auto. Qed.

Lemma vmaf_setting_ok key v :
  (key, v) ∈ settings → diag_errors (vmaf_diag line col (key, v)) = [].
Proof.
  revert vmaf_ok. unfold validate_vmaf_transcode_settings.
  destruct (foldl _ _ _) as [[d mn] mx] eqn:Hf. rewrite diag_app_ok. intros [Hd _].
  eapply vmaf_fold_errors. by rewrite Hf.
Qed.

(** The first setting with a key, with what its validation says. *)
Ltac present Hk v Hv :=
  apply get_setting_present in Hk as (v & Hv & Hk).

Definition compiled_crop : CropSettings :=
  {| CropSettings_sample_duration_secs := get_u32 (get_setting settings "crop_sample_duration");
     CropSettings_sample_count := get_u32 (get_setting settings "crop_sample_count");
     CropSettings_threshold :=
       v ← get_u32 (get_setting settings "crop_threshold"); if (v <=? 255)%N then Some v else None;
     CropSettings_minimum_crop := get_u32 (get_setting settings "crop_minimum");
     CropSettings_preserve_bottom_pixels :=
       get_u32 (get_setting settings "crop_preserve_bottom_pixels");
     CropSettings_aspect_lock := value_string_list (get_setting settings "crop_aspect_lock") |}.

Lemma crop_compiled : crop_enabled = true → CTS_crop s = Some compiled_crop.
Proof.
  unfold crop_enabled. rewrite existsb_elem_of. intros ([key v] & Hin & Hb). simpl in Hb.
  apply andb_prop in Hb as [Hk _]. apply bool_decide_eq_true in Hk as ->.
  assert ("crop" ∈ settings.*1) as Hk by (apply list_elem_of_fmap; by exists ("crop", v)).
  present Hk w Hw. apply video_setting_ok in Hk. simpl in Hk. unfold validate_crop_mode in Hk.
  rewrite push_if_nil, negb_false_iff in Hk.
  assert (value_as_name w = Some "auto") as Hauto.
  { destruct w; simpl in *; try done; apply bool_decide_eq_true in Hk; by subst. }
  unfold s, compile_transcode_settings, compile_crop_settings. simpl.
  rewrite Hw. simpl. by rewrite Hauto, bool_decide_true by done.
Qed.

(** A setting of the crop is accepted with [crop: auto] only. *)
Lemma crop_checked key es :
  validate_crop_enabled crop_enabled key line col ++ es = [] →
  CTS_crop s = Some compiled_crop ∧ es = [].
Proof.
  intros [He ->]%app_nil. split; [|done]. unfold validate_crop_enabled in He.
  rewrite push_if_nil, negb_false_iff in He. by apply crop_compiled.
Qed.

Lemma vmaf_override_range key v :
  (key, v) ∈ settings → starts_with vmaf_when_prefix key = true →
  ∃ n, get_u32 (Some v) = Some n ∧ (60 ≤ n ≤ 100)%N.
Proof.
  intros Hin Hpre. apply vmaf_setting_ok in Hin. revert Hin.
  unfold vmaf_diag, validate_vmaf_setting.
  assert (∀ lit, starts_with vmaf_when_prefix lit = false → bool_decide (key = lit) = false) as Hne.
  { intros lit Hlit. apply bool_decide_eq_false. intros ->. congruence. }
  rewrite !Hne by done. rewrite Hpre. unfold validate_vmaf_override.
  destruct (starts_with_strip _ _ Hpre) as [rest ->]. cbn [fst]. rewrite !diag_app_ok.
  intros [_ [_ Hv]]. by apply validate_vmaf_target_ok in Hv.
Qed.

Lemma strip_prefix_starts pat str rest :
  strip_prefix pat str = Some rest → starts_with pat str = true.
Proof.
  revert str; induction pat as [|c pat IH]; intros [|d str]; simpl; try done.
  case_bool_decide; simpl; [apply IH|done].
Qed.

Lemma overrides_range k n :
  foldl vmaf_override ∅ settings !! k = Some n → (60 ≤ n ≤ 100)%N.
Proof.
  assert (∀ l (m : gmap string N), l ⊆ settings → foldl vmaf_override m l !! k = Some n →
    m !! k = Some n ∨ (60 ≤ n ≤ 100)%N) as Hg; cycle 1.
  { intros Hl. apply Hg in Hl as [Hl|?]; [by rewrite lookup_empty in Hl|done|done]. }
  induction l as [|[key v] l IH]; intros m Hsub; cbn [foldl]; [by left|].
  intros [Hm|?]%IH; [|by right|set_solver]. revert Hm. unfold vmaf_override.
  destruct (strip_prefix "target_vmaf_when " key) as [rest|] eqn:Hp; [|by left]. cbn [mbind option_bind].
  destruct (strip_prefix "content." rest); [|by left].
  destruct (vmaf_override_range key v) as (x & Hx & Hr); [set_solver| |].
  { by eapply strip_prefix_starts. }
  rewrite Hx. intros [[_ <-]|[_ ?]]%lookup_insert_Some; [by right|by left].
Qed.
End typed.

Lemma positive_get v key line col :
  validate_crop_positive_integer v key line col = [] → ∃ n, get_u32 (Some v) = Some n ∧ (0 < n)%N.
Proof.
  unfold validate_crop_positive_integer. rewrite numeric_u32_get.
  destruct (get_u32 (Some v)) as [n|]; [|done]. rewrite push_if_nil, N.eqb_neq.
  intros Hn. exists n. split; [done|lia].
Qed.

Lemma bounded_get v key lo hi line col :
  validate_crop_integer_bounds v key lo hi line col = [] → is_Some (get_u32 (Some v)).
Proof. unfold validate_crop_integer_bounds. rewrite numeric_u32_get. by destruct (get_u32 (Some v)). Qed.

Lemma ratios_checked v line col :
  validate_crop_aspect_lock v line col = [] →
  Forall (λ r, is_crop_ratio r = true) (value_string_list (Some v)).
Proof.
  destruct v as [| | | |items| |]; simpl; try done. rewrite bind_nil_iff. intros Hall.
  apply Forall_forall. intros r (i & Hi & Hr)%list_elem_of_omap. specialize (Hall i Hi).
  unfold validate_crop_ratio in Hall. replace (value_string i) with (value_as_string i) in Hall by by destruct i.
  rewrite Hr, push_if_nil, negb_false_iff in Hall. done.
Qed.

Lemma bitrate_checked line col key v :
  diag_errors (vmaf_diag line col (key, v)) = [] → key = "min_bitrate" ∨ key = "max_bitrate" →
  ∃ raw n, value_as_string v = Some raw ∧ parse_bitrate raw = Some n.
Proof.
  intros Hin Hk. assert ((validate_bitrate_value v key line col).2 = []) as Herr.
  { destruct Hk as [->| ->]; unfold vmaf_diag, validate_vmaf_setting in Hin;
      simpl in Hin; by destruct (validate_bitrate_value _ _ _ _). }
  apply validate_bitrate_value_ok in Herr as (raw & n & ? & ? & _). eauto.
Qed.

Section typed_all.
Context (settings : list (string * Value)) (line col : usize).
Hypothesis video_ok : validate_video_transcode_settings settings line col = [].
Hypothesis vmaf_ok : diag_errors (validate_vmaf_transcode_settings settings line col) = [].
Hypothesis hw_ok : validate_hw_settings settings line col = [].

Ltac present key v Hv Hk :=
  intros Hk; apply (get_setting_present settings key) in Hk as (v & Hv & Hk).

(** A setting that holds one of a list of names *)
Lemma named_setting key valid (v : Value) :
  get_setting settings key = Some v → validate_ident_setting v key valid line col = [] →
  ∃ n, (get_setting settings key ≫= value_as_name) = Some n ∧ n ∈ valid.
Proof. intros ->. rewrite validate_ident_setting_ok. done. Qed.

Lemma hw_checked : "hw" ∈ settings.*1 → ∃ h, (get_setting settings "hw" ≫= value_as_name) = Some h ∧
  h ∈ VALID_HW_VALUES.
Proof.
  present "hw" v Hv Hk. eapply named_setting; [done|].
  revert hw_ok. unfold validate_hw_settings. rewrite app_nil, bind_nil_iff.
  intros [Hall _]. apply (Hall _ Hk).
Qed.

Lemma hw_fallback_present : "hw_fallback" ∈ settings.*1 → "hw" ∈ settings.*1.
Proof.
  intros (x & Hx & Hin)%list_elem_of_fmap. revert hw_ok. unfold validate_hw_settings.
  rewrite app_nil, push_if_nil. intros [_ Hb]. apply andb_false_iff in Hb as [Hb|Hb%negb_false_iff].
  - exfalso. assert (existsb (λ s, bool_decide (s.1 = "hw_fallback")) settings = true) as Ht; [|congruence].
    apply existsb_elem_of. exists x. by rewrite bool_decide_true.
  - apply existsb_elem_of in Hb as (y & Hy & Hk%bool_decide_eq_true). rewrite <-Hk.
    by apply list_elem_of_fmap_2.
Qed.

Lemma validated_video_settings_typed :
  video_settings_typed settings.*1 (compile_transcode_settings settings).
Proof.
  pose proof (video_setting_ok settings line col video_ok) as Hvid.
  pose proof (vmaf_setting_ok settings line col vmaf_ok) as Hvm.
  pose proof (crop_checked settings line col video_ok) as Hcrop.
  split.
  - present "target_vmaf" v Hv Hk. apply Hvm in Hk.
    apply diag_app_ok in Hk as [_ (n & Hn & Hr)%validate_vmaf_target_ok].
    exists n. split; [|done]. simpl. by rewrite Hv.
  - by apply hw_checked.
  - present "hdr_mode" v Hv Hk. eapply named_setting; [done|]. by apply Hvid in Hk.
  - present "preserve_hdr" v Hv Hk. apply Hvid in Hk. simpl in *. rewrite Hv. by destruct v.
  - present "tonemap" v Hv Hk. apply Hvid in Hk. by eapply named_setting.
  - present "tune" v Hv Hk. apply Hvid in Hk. by eapply named_setting.
  - present "scale_algorithm" v Hv Hk. apply Hvid in Hk. by eapply named_setting.
  - present "hdr_color_metadata" v Hv Hk. apply Hvid in Hk. by eapply named_setting.
  - present "dolby_vision" v Hv Hk. apply Hvid in Hk. by eapply named_setting.
  - intros (h & Hh & _)%hw_fallback_present%hw_checked. by exists h.
  - present "min_bitrate" v Hv Hk. apply Hvm, bitrate_checked in Hk as (b & n & Hb & Hn); [|by left].
    exists b, n. split; [|done]. simpl. by rewrite Hv.
  - present "max_bitrate" v Hv Hk. apply Hvm, bitrate_checked in Hk as (b & n & Hb & Hn); [|by right].
    exists b, n. split; [|done]. simpl. by rewrite Hv.
  - present "max_resolution" v Hv Hk. apply Hvid in Hk. cbn [CTS_max_resolution compile_transcode_settings].
    rewrite Hv. change (validate_max_resolution v line col = []) in Hk.
    destruct v; simpl in *; try done; eexists; (split; [done|]);
      rewrite push_if_nil, negb_false_iff in Hk; by apply bool_decide_eq_true in Hk.
  - present "sample_strategy" v Hv Hk. apply Hvm in Hk.
    cbn [CTS_sample_strategy compile_transcode_settings]. rewrite Hv.
    apply diag_app_ok in Hk as [_ Hk]. exact (validate_sample_strategy_ok v line col Hk).
  - present "crop" v Hv Hk. eexists. apply (crop_compiled settings line col video_ok).
    apply existsb_elem_of. exists ("crop", v). split; [done|]. apply Hvid in Hk. simpl in *.
    unfold validate_crop_mode in Hk. by rewrite push_if_nil, negb_false_iff in Hk.
  - present "crop_threshold" v Hv Hk. apply Hvid in Hk. apply Hcrop in Hk as (Hc & Hk).
    unfold validate_crop_integer_bounds in Hk. rewrite numeric_u32_get in Hk.
    destruct (get_u32 (Some v)) as [t|] eqn:Ht; [|done].
    rewrite push_if_nil, orb_false_iff, !N.ltb_ge in Hk.
    eexists _, t. split; [exact Hc|]. cbn [CropSettings_threshold compiled_crop].
    rewrite Hv, Ht. cbn [mbind option_bind].
    rewrite (proj2 (N.leb_le t 255)) by lia. split; [done|lia].
  - present "crop_sample_count" v Hv Hk. apply Hvid in Hk. apply Hcrop in Hk as (Hc & Hk).
    apply positive_get in Hk as (n & Hn & ?). eexists _, n. split; [exact Hc|]. simpl. by rewrite Hv.
  - present "crop_sample_duration" v Hv Hk. apply Hvid in Hk. apply Hcrop in Hk as (Hc & Hk).
    apply positive_get in Hk as (n & Hn & ?). eexists _, n. split; [exact Hc|]. simpl. by rewrite Hv.
  - present "crop_minimum" v Hv Hk. apply Hvid in Hk. apply Hcrop in Hk as (Hc & Hk).
    apply bounded_get in Hk as (n & Hn). eexists _, n. split; [exact Hc|]. simpl. by rewrite Hv.
  - present "crop_preserve_bottom_pixels" v Hv Hk. apply Hvid in Hk. apply Hcrop in Hk as (Hc & Hk).
    apply bounded_get in Hk as (n & Hn). eexists _, n. split; [exact Hc|]. simpl. by rewrite Hv.
  - present "crop_aspect_lock" v Hv Hk. apply Hvid in Hk. apply Hcrop in Hk as (Hc & Hk).
    eexists. split; [exact Hc|]. simpl. rewrite Hv. by eapply ratios_checked.
  - intros m k n Hm Hk. cbn [CTS_vmaf_overrides compile_transcode_settings] in Hm.
    unfold parse_vmaf_overrides in Hm. case_bool_decide; [done|]. injection Hm as <-.
    by eapply overrides_range.
Qed.
End typed_all.
