(* ===== verification/Formatter.v ===== *)
(** * The policy formatter

    [crates/voom-dsl/src/formatter.rs]: the source text of a syntax tree, whose
    hash identifies a composed policy. Functions that append to a [String]
    return what they append. The text of a number that is not an integer (the
    shortest decimal that reads back as the number) is a parameter. *)
From S2P Require Import Prelude Ast PhaseGraph.

(** [format!("{n}")] for an [f64] *)
Class F64Display := f64_display : f64 → string.

(** [f64::floor]; a float that is not an integer is below [2^53] in magnitude,
    where every integer is a float. *)
Definition f64_floor (x : f64) : f64 :=
  match x with
  | S754_finite s m e =>
      if (0 <=? e)%Z then x
      else match f64_integer x with
           | Some _ => x
           | None => f64_of_Z ((if s then Z.neg m else Z.pos m) / 2 ^ (- e))
           end
  | _ => x
  end.

Definition i64_MIN : Z := -9223372036854775808.
Definition i64_MAX : Z := 9223372036854775807.

(** [x as i64]: truncation towards zero, saturating; NaN gives 0. *)
Definition f64_as_i64 (x : f64) : Z :=
  match x with
  | S754_zero _ | S754_nan => 0
  | S754_infinity s => if s then i64_MIN else i64_MAX
  | S754_finite s m e =>
      let a := if (0 <=? e)%Z then (Z.pos m * 2 ^ e)%Z else (Z.pos m / 2 ^ (- e))%Z in
      Z.max i64_MIN (Z.min i64_MAX (if s then - a else a))
  end.

(** ** Text *)
Fixpoint indent (level : nat) : string :=
  match level with O => "" | S level => "  " +:+ indent level end.

Definition backslash : string := String (ascii_of_nat 92) EmptyString.

Definition escape_string (s : string) : string :=
  str_replace dquote (backslash +:+ dquote) (str_replace backslash (backslash +:+ backslash) s).

Definition quoted (s : string) : string := dquote +:+ escape_string s +:+ dquote.

Definition line (level : nat) (s : string) : string := indent level +:+ s +:+ newline.

Definition paren_if (b : bool) (s : string) : string := if b then "(" +:+ s +:+ ")" else s.

Definition opt_line {A} (f : A → string) (o : option A) : string :=
  match o with Some x => f x | None => "" end.

Definition concat_map {A} (f : A → string) (l : list A) : string := str_join "" (f <$> l).

Definition format_compare_op (op : CompareOp) : string :=
  match op with
  | CompareOp_Eq => "=="
  | CompareOp_Ne => "!="
  | CompareOp_Lt => "<"
  | CompareOp_Le => "<="
  | CompareOp_Gt => ">"
  | CompareOp_Ge => ">="
  | CompareOp_In => "in"
  end.

Definition format_field_compare (field : string) (op : CompareOp) (value : string) : string :=
  field +:+ " " +:+ format_compare_op op +:+ " " +:+ value.

(** ** Values *)
Fixpoint format_value (val : Value) : string :=
  match val with
  | Value_String s => quoted s
  | Value_Number _ raw => raw
  | Value_Bool b => if b then "true" else "false"
  | Value_Ident s => s
  | Value_List items => "[" +:+ str_join ", " (format_value <$> items) +:+ "]"
  | Value_Object items =>
      "{ " +:+ str_join ", " ((λ kv, kv.1 +:+ ": " +:+ format_value kv.2) <$> items) +:+ " }"
  | Value_Call name args =>
      name +:+ "(" +:+ str_join ", " ((λ kv, kv.1 +:+ ": " +:+ format_value kv.2) <$> args)
      +:+ ")"
  end.

Definition format_value_or_field (val : ValueOrField) : string :=
  match val with
  | ValueOrField_Value v => format_value v
  | ValueOrField_Field path => str_join "." path
  end.

Definition format_setting (level : nat) (setting : string * Value) : string :=
  line level (setting.1 +:+ ": " +:+ format_value setting.2).

(** ** Header blocks *)
Definition quoted_list (l : list string) : string := str_join ", " (quoted <$> l).

Definition format_metadata (metadata : MetadataNode) (level : nat) : string :=
  line level "metadata {"
  +:+ opt_line (λ v, line (S level) ("version: " +:+ quoted v)) (MetadataNode_version metadata)
  +:+ opt_line (λ v, line (S level) ("author: " +:+ quoted v)) (MetadataNode_author metadata)
  +:+ opt_line (λ v, line (S level) ("description: " +:+ quoted v))
        (MetadataNode_description metadata)
  +:+ opt_line (λ v, line (S level) ("requires_voom: " +:+ quoted v))
        (MetadataNode_requires_voom metadata)
  +:+ opt_line (λ l, line (S level) ("requires_tools: [" +:+ quoted_list l +:+ "]"))
        (MetadataNode_requires_tools metadata)
  +:+ opt_line (λ l, line (S level) ("test_fixtures: [" +:+ quoted_list l +:+ "]"))
        (MetadataNode_test_fixtures metadata)
  +:+ line level "}".

Definition format_config (config : ConfigNode) (level : nat) : string :=
  let list_line (name : string) (items : list string) (text : string) :=
    if bool_decide (items = []) then "" else line (S level) (name +:+ ": [" +:+ text +:+ "]") in
  line level "config {"
  +:+ list_line "languages audio" (ConfigNode_audio_languages config)
        (str_join ", " (ConfigNode_audio_languages config))
  +:+ list_line "languages subtitle" (ConfigNode_subtitle_languages config)
        (str_join ", " (ConfigNode_subtitle_languages config))
  +:+ list_line "commentary_patterns" (ConfigNode_commentary_patterns config)
        (quoted_list (ConfigNode_commentary_patterns config))
  +:+ opt_line (λ s, line (S level) ("on_error: " +:+ ErrorStrategyNode_as_str s))
        (ConfigNode_on_error config)
  +:+ opt_line (λ b : bool, line (S level) ("keep_backups: " +:+ if b then "true" else "false"))
        (ConfigNode_keep_backups config)
  +:+ line level "}".

Definition extends_source (source : ExtendsSource) : string :=
  match source with ExtendsSource_Bundled value | ExtendsSource_File value => value end.

Definition format_normalize (normalize : NormalizeSetting) (level : nat) : string :=
  let head := indent level +:+ "normalize: " +:+ NormalizeSetting_preset normalize in
  if bool_decide (NormalizeSetting_settings normalize = []) then head +:+ newline
  else head +:+ " {" +:+ newline
       +:+ concat_map (format_setting (S level)) (NormalizeSetting_settings normalize)
       +:+ line level "}".

Definition format_transcode_setting (level : nat) (setting : string * Value) : string :=
  let '(key, val) := setting in
  if bool_decide (key = "fallback") then
    line (S level) "fallback {"
    +:+ match val with
        | Value_Object items => concat_map (format_setting (S (S level))) items
        | _ => ""
        end
    +:+ line (S level) "}"
  else format_setting (S level) setting.

Definition format_transcode (target codec : string) (settings : list (string * Value))
    (level : nat) : string :=
  let head := "transcode " +:+ target +:+ " to " +:+ codec in
  if bool_decide (settings = []) then line level head
  else line level (head +:+ " {") +:+ concat_map (format_transcode_setting level) settings
       +:+ line level "}".

Section format.
Context `{F64Display}.

Definition format_number (n : f64) : string :=
  if f64_ltb (f64_abs (f64_sub n (f64_floor n))) f64_EPSILON then pretty (f64_as_i64 n)
  else f64_display n.

(** ** Filters and conditions *)
Definition filter_is_or (f : FilterNode) : bool :=
  match f with FilterNode_Or _ => true | _ => false end.

Definition filter_is_list (f : FilterNode) : bool :=
  match f with FilterNode_And _ | FilterNode_Or _ => true | _ => false end.

Fixpoint format_filter (filter : FilterNode) : string :=
  match filter with
  | FilterNode_LangIn langs => "lang in [" +:+ str_join ", " langs +:+ "]"
  | FilterNode_LangCompare op lang => format_field_compare "lang" op lang
  | FilterNode_LangField op path => format_field_compare "lang" op (str_join "." path)
  | FilterNode_CodecIn codecs => "codec in [" +:+ str_join ", " codecs +:+ "]"
  | FilterNode_CodecCompare op codec => format_field_compare "codec" op codec
  | FilterNode_CodecField op path => format_field_compare "codec" op (str_join "." path)
  | FilterNode_Channels op val => format_field_compare "channels" op (format_number val)
  | FilterNode_Commentary => "commentary"
  | FilterNode_Forced => "forced"
  | FilterNode_Default => "default"
  | FilterNode_Font => "font"
  | FilterNode_TitleContains s => "title contains " +:+ quoted s
  | FilterNode_TitleMatches s => "title matches " +:+ quoted s
  | FilterNode_And items =>
      str_join " and " ((λ f, paren_if (filter_is_or f) (format_filter f)) <$> items)
  | FilterNode_Or items => str_join " or " (format_filter <$> items)
  | FilterNode_Not inner => "not " +:+ paren_if (filter_is_list inner) (format_filter inner)
  end.

(** The optional [where] clause *)
Definition format_where (filter : option FilterNode) : string :=
  opt_line (λ f, " where " +:+ format_filter f) filter.

Definition format_track_query (query : TrackQueryNode) : string :=
  TrackQueryNode_target query +:+ format_where (TrackQueryNode_filter query).

Definition condition_is_or (c : ConditionNode) : bool :=
  match c with ConditionNode_Or _ => true | _ => false end.

Definition condition_is_list (c : ConditionNode) : bool :=
  match c with ConditionNode_And _ | ConditionNode_Or _ => true | _ => false end.

Fixpoint format_condition (cond : ConditionNode) : string :=
  match cond with
  | ConditionNode_Exists query => "exists(" +:+ format_track_query query +:+ ")"
  | ConditionNode_Count query op value =>
      "count(" +:+ format_track_query query +:+ ") " +:+ format_compare_op op +:+ " "
      +:+ format_number value
  | ConditionNode_FieldCompare path op value =>
      format_field_compare (str_join "." path) op (format_value value)
  | ConditionNode_FieldExists path => str_join "." path +:+ " exists"
  | ConditionNode_AudioIsMultiLanguage => "audio_is_multi_language"
  | ConditionNode_IsDubbed => "is_dubbed"
  | ConditionNode_IsOriginal => "is_original"
  | ConditionNode_And items =>
      str_join " and " ((λ c, paren_if (condition_is_or c) (format_condition c)) <$> items)
  | ConditionNode_Or items => str_join " or " (format_condition <$> items)
  | ConditionNode_Not inner =>
      "not " +:+ paren_if (condition_is_list inner) (format_condition inner)
  end.

(** ** Actions and operations *)
Definition format_action (action : ActionNode) (level : nat) : string :=
  line level
    match action with
    | ActionNode_Keep target filter => "keep " +:+ target +:+ format_where filter
    | ActionNode_Remove target filter => "remove " +:+ target +:+ format_where filter
    | ActionNode_Skip phase => "skip" +:+ opt_line (λ p, " " +:+ p) phase
    | ActionNode_Warn msg => "warn " +:+ quoted msg
    | ActionNode_Fail msg => "fail " +:+ quoted msg
    | ActionNode_SetDefault r =>
        "set_default " +:+ TrackRefNode_target r +:+ format_where (TrackRefNode_filter r)
    | ActionNode_SetForced r =>
        "set_forced " +:+ TrackRefNode_target r +:+ format_where (TrackRefNode_filter r)
    | ActionNode_SetLanguage r val =>
        "set_language " +:+ TrackRefNode_target r +:+ format_where (TrackRefNode_filter r)
        +:+ " " +:+ format_value_or_field val
    | ActionNode_SetTag tag val =>
        "set_tag " +:+ quoted tag +:+ " " +:+ format_value_or_field val
    end.

Definition format_when (when : WhenNode) (level : nat) : string :=
  line level ("when " +:+ format_condition (WhenNode_condition when) +:+ " {")
  +:+ concat_map (λ a, format_action a (S level)) (WhenNode_then_actions when)
  +:+ (if bool_decide (WhenNode_else_actions when = []) then ""
       else line level "} else {"
            +:+ concat_map (λ a, format_action a (S level)) (WhenNode_else_actions when))
  +:+ line level "}".

Definition format_rules (mode : string) (rules : list RuleNode) (level : nat) : string :=
  line level ("rules " +:+ mode +:+ " {")
  +:+ concat_map (λ rule,
        line (S level) ("rule " +:+ quoted (RuleNode_name rule) +:+ " {")
        +:+ format_when (RuleNode_when rule) (S (S level)) +:+ line (S level) "}") rules
  +:+ line level "}".

Definition format_synth_setting (setting : SynthSetting) (level : nat) : string :=
  match setting with
  | SynthSetting_Codec c => line level ("codec: " +:+ c)
  | SynthSetting_Channels v => line level ("channels: " +:+ format_value v)
  | SynthSetting_Source f => line level ("source: prefer(" +:+ format_filter f +:+ ")")
  | SynthSetting_Bitrate b => line level ("bitrate: " +:+ quoted b)
  | SynthSetting_SkipIfExists f => line level ("skip_if_exists { " +:+ format_filter f +:+ " }")
  | SynthSetting_CreateIf c => line level ("create_if " +:+ format_condition c)
  | SynthSetting_Title t => line level ("title: " +:+ quoted t)
  | SynthSetting_Language l => line level ("language: " +:+ l)
  | SynthSetting_Position v => line level ("position: " +:+ format_value v)
  | SynthSetting_Normalize normalize => indent level +:+ format_normalize normalize level
  end.

Definition format_operation (op : OperationNode) (level : nat) : string :=
  match op with
  | OperationNode_Container name => line level ("container " +:+ name)
  | OperationNode_Keep target filter normalize =>
      indent level +:+ "keep " +:+ target +:+ format_where filter
      +:+ match normalize with
          | Some normalize =>
              " {" +:+ newline +:+ format_normalize normalize (S level) +:+ line level "}"
          | None => newline
          end
  | OperationNode_Remove target filter =>
      line level ("remove " +:+ target +:+ format_where filter)
  | OperationNode_Order items => line level ("order tracks [" +:+ str_join ", " items +:+ "]")
  | OperationNode_Defaults items =>
      line level "defaults {"
      +:+ concat_map (λ kv, line (S level) (kv.1 +:+ ": " +:+ kv.2)) items +:+ line level "}"
  | OperationNode_Actions target settings =>
      line level (target +:+ " actions {") +:+ concat_map (format_setting (S level)) settings
      +:+ line level "}"
  | OperationNode_Transcode target codec settings => format_transcode target codec settings level
  | OperationNode_Synthesize name settings =>
      line level ("synthesize " +:+ quoted name +:+ " {")
      +:+ concat_map (λ s, format_synth_setting s (S level)) settings +:+ line level "}"
  | OperationNode_ClearTags => line level "clear_tags"
  | OperationNode_SetTag tag value =>
      line level ("set_tag " +:+ quoted tag +:+ " " +:+ format_value_or_field value)
  | OperationNode_DeleteTag tag => line level ("delete_tag " +:+ quoted tag)
  | OperationNode_When when => format_when when level
  | OperationNode_Rules mode rules => format_rules mode rules level
  | OperationNode_Verify mode =>
      line level ("verify " +:+ match mode with
                                | VerifyMode_Quick => "quick"
                                | VerifyMode_Thorough => "thorough"
                                | VerifyMode_Hash => "hash"
                                end)
  end.

(** ** Phases and policies *)
Definition format_phase (phase : PhaseNode) (level : nat) : string :=
  line level ("phase " +:+ PhaseNode_name phase +:+ " {")
  +:+ (if PhaseNode_extend phase then line (S level) "extend" else "")
  +:+ opt_line (λ l, line (S level) ("depends_on: [" +:+ str_join ", " l +:+ "]"))
        (PhaseNode_depends_on phase)
  +:+ opt_line (λ c, line (S level) ("skip when " +:+ format_condition c))
        (PhaseNode_skip_when phase)
  +:+ opt_line (λ r, line (S level) ("run_if " +:+ RunIfNode_phase r +:+ "."
                                     +:+ RunIfTriggerNode_as_str (RunIfNode_trigger r)))
        (PhaseNode_run_if phase)
  +:+ opt_line (λ s, line (S level) ("on_error: " +:+ ErrorStrategyNode_as_str s))
        (PhaseNode_on_error phase)
  +:+ concat_map (λ s, format_operation (SpannedOperation_node s) (S level))
        (PhaseNode_operations phase)
  +:+ line level "}".

Definition format_policy (ast : PolicyAst) : string :=
  let has_header := bool_decide (is_Some (PolicyAst_config ast))
                    || bool_decide (is_Some (PolicyAst_metadata ast)) in
  "policy " +:+ quoted (PolicyAst_name ast)
  +:+ opt_line (λ e, " extends " +:+ quoted (extends_source e)) (PolicyAst_extends ast)
  +:+ " {" +:+ newline
  +:+ opt_line (λ m, format_metadata m 1) (PolicyAst_metadata ast)
  +:+ opt_line (λ c, (if bool_decide (is_Some (PolicyAst_metadata ast)) then newline else "")
                     +:+ format_config c 1) (PolicyAst_config ast)
  +:+ str_join "" (imap (λ i p, (if (0 <? i)%nat || has_header then newline else "")
                                +:+ format_phase p 1) (PolicyAst_phases ast))
  +:+ "}" +:+ newline.
End format.

(** ** Reading a string literal back

    [parse_string_value] of [parser.rs] on the text of a literal token. *)
Fixpoint unescape (s : string) : string :=
  match s with
  | EmptyString => EmptyString
  | String c s' =>
      if bool_decide (c = ascii_of_nat 92) then
        match s' with
        | EmptyString => backslash
        | String d s'' =>
            if bool_decide (d = ascii_of_nat 34) then String d (unescape s'')
            else if bool_decide (d = ascii_of_nat 92) then String d (unescape s'')
            else String c (String d (unescape s''))
        end
      else String c (unescape s')
  end.

Definition parse_string_value (s : string) : string :=
  if starts_with dquote s && ends_with dquote s
  then unescape (String.substring 1 (String.length s - 2) s)
  else s.
