(* ===== verification/Grammar.v ===== *)
(** * The grammar of the policy language

    [crates/voom-dsl/src/grammar.pest], rule by rule, and what a grammar of the
    [pest] library means: a parsing expression grammar whose choices are ordered
    and in which blanks and comments may stand between the parts of a sequence.
    [peg] evaluates an expression on a text; [derives] keeps of an evaluation what
    the parser relies on: the texts that an expression matches and the pairs it
    yields. *)
From S2P Require Import Prelude.

(** ** Trees *)
Inductive Rule : Type :=
| R_policy | R_extends_clause | R_metadata | R_metadata_item | R_config | R_config_item
| R_lang_target | R_phase | R_phase_extend | R_phase_item | R_skip_when | R_depends_on | R_run_if
| R_run_if_trigger | R_on_error | R_clear_tags_op | R_set_tag_op | R_delete_tag_op
| R_container_op | R_keep_op | R_remove_op | R_track_target | R_where_clause | R_keep_block
| R_normalize_block | R_loudness_preset | R_order_op | R_defaults_op | R_default_item
| R_actions_op | R_action_setting | R_transcode_op | R_transcode_block | R_transcode_kv_pair
| R_transcode_value | R_sample_strategy | R_sample_strategy_kind | R_sample_strategy_arg
| R_transcode_fallback | R_transcode_vmaf_override | R_verify_op | R_verify_mode | R_block
| R_kv_pair | R_synthesize_op | R_synth_item | R_source_pref | R_when_block | R_else_block
| R_rules_block | R_match_mode | R_rule_item | R_condition | R_condition_or | R_condition_and
| R_condition_not | R_condition_atom | R_field_access | R_track_query | R_filter_expr
| R_filter_or | R_filter_and | R_filter_not | R_filter_atom | R_action | R_track_ref
| R_compare_op | R_list | R_value | R_boolean | R_string | R_number | R_ident | R_EOI.

#[export] Instance Rule_eq_dec : EqDecision Rule.
Proof. solve_decision. Defined.

(** A pair has its rule, its text, the offset of the text in the source with its line
    and column, and its inner pairs. *)
Inductive Pair : Type :=
  mkPair (r : Rule) (text : string) (start : usize) (pos : usize * usize) (inner : list Pair).

Definition as_rule (p : Pair) : Rule := let '(mkPair r _ _ _ _) := p in r.
Definition as_str (p : Pair) : string := let '(mkPair _ text _ _ _) := p in text.
Definition p_start (p : Pair) : usize := let '(mkPair _ _ start _ _) := p in start.
Definition p_line_col (p : Pair) : usize * usize := let '(mkPair _ _ _ pos _) := p in pos.
Definition into_inner (p : Pair) : list Pair := let '(mkPair _ _ _ _ inner) := p in inner.

(** ** The grammar: [grammar.pest] *)
(** [More a] is the rest of a repetition [a*] after its first [a]. *)
Inductive expr : Type :=
| Lit (s : string)
| Sub (r : Rule)
| Seq (a b : expr)
| Alt (a b : expr)
| Opt (a : expr)
| Star (a : expr)
| More (a : expr).

Declare Scope grammar_scope.
Delimit Scope grammar_scope with grammar.
Notation "a ~ b" := (Seq a b) (at level 60, right associativity) : grammar_scope.
Notation "a '||' b" := (Alt a b) : grammar_scope.
#[local] Coercion Lit : string >-> expr.
#[local] Coercion Sub : Rule >-> expr.

(** [a+] *)
Definition Plus (a : expr) : expr := Seq a (Star a).

(** [a ~ ("," ~ a)*] *)
Definition separated (sep : string) (a : expr) : expr := Seq a (Star (Seq (Lit sep) a)).

Definition keyed (k : string) (a : expr) : expr := Seq (Lit k) (Seq (Lit ":") a).
Definition braces (a : expr) : expr := Seq (Lit "{") (Seq a (Lit "}")).
Definition parens (a : expr) : expr := Seq (Lit "(") (Seq a (Lit ")")).

(** The rules that are sequences of others; [None] for tokens. The silent rules
    [keep_item] and [transcode_item] are written in place, [SOI] is the empty text. *)
Definition grammar (r : Rule) : option expr := (
  match r with
  | R_policy => Some ("" ~ "policy" ~ R_string ~ Opt R_extends_clause ~ "{" ~ Opt R_metadata
                      ~ Opt R_config ~ Plus R_phase ~ "}" ~ R_EOI)
  | R_extends_clause => Some ("extends" ~ R_string)
  | R_metadata => Some ("metadata" ~ braces (Star R_metadata_item))
  | R_metadata_item =>
      Some (keyed "version" R_string || keyed "author" R_string || keyed "description" R_string
            || keyed "requires_voom" R_string || keyed "requires_tools" R_list || keyed "test_fixtures" R_list)
  | R_config => Some ("config" ~ braces (Star R_config_item))
  | R_config_item =>
      Some (("languages" ~ R_lang_target ~ ":" ~ R_list) || keyed "on_error" R_ident
            || keyed "commentary_patterns" R_list || keyed "keep_backups" R_boolean)
  | R_lang_target => Some ("audio" || "subtitle")
  | R_phase => Some ("phase" ~ R_ident ~ "{" ~ Opt R_phase_extend ~ Star R_phase_item ~ "}")
  | R_phase_extend => Some (Lit "extend")
  | R_phase_item =>
      Some (R_skip_when || R_depends_on || R_run_if || R_on_error || R_clear_tags_op || R_set_tag_op
            || R_delete_tag_op || R_container_op || R_keep_op || R_remove_op || R_order_op
            || R_defaults_op || R_actions_op || R_transcode_op || R_synthesize_op || R_verify_op
            || R_when_block || R_rules_block)
  | R_skip_when => Some ("skip" ~ "when" ~ R_condition)
  | R_depends_on => Some (keyed "depends_on" R_list)
  | R_run_if => Some ("run_if" ~ R_ident ~ "." ~ R_run_if_trigger)
  | R_run_if_trigger => Some ("modified" || "completed")
  | R_on_error => Some (keyed "on_error" R_ident)
  | R_clear_tags_op => Some (Lit "clear_tags")
  | R_set_tag_op => Some ("set_tag" ~ R_string ~ (R_field_access || R_value))
  | R_delete_tag_op => Some ("delete_tag" ~ R_string)
  | R_container_op => Some ("container" ~ R_ident)
  | R_keep_op => Some ("keep" ~ R_track_target ~ Opt R_where_clause ~ Opt R_keep_block)
  | R_remove_op => Some ("remove" ~ R_track_target ~ Opt R_where_clause)
  | R_track_target =>
      Some ("audio" || "subtitles" || "subtitle" || "attachments" || "attachment" || "video")
  | R_where_clause => Some ("where" ~ R_filter_expr)
  | R_keep_block => Some (braces (Star R_normalize_block))
  | R_normalize_block => Some (keyed "normalize" (R_loudness_preset ~ Opt R_block))
  | R_loudness_preset =>
      Some ("ebu_r128" || "ebu_r128_broadcast" || "streaming_movies" || "streaming_music" || "mobile"
            || "voice_focused")
  | R_order_op => Some ("order" ~ "tracks" ~ R_list)
  | R_defaults_op => Some ("defaults" ~ braces (Star R_default_item))
  | R_default_item => Some (("audio" || "subtitle") ~ ":" ~ R_ident)
  | R_actions_op =>
      Some (("audio" || "subtitle" || "video") ~ "actions" ~ braces (Star R_action_setting))
  | R_action_setting => Some (R_ident ~ ":" ~ R_value)
  | R_transcode_op =>
      Some ("transcode" ~ ("video" || "audio") ~ "to" ~ R_ident ~ Opt R_transcode_block)
  | R_transcode_block =>
      Some (braces (Star (R_transcode_fallback || R_transcode_vmaf_override || R_transcode_kv_pair)))
  | R_transcode_kv_pair => Some (R_ident ~ ":" ~ R_transcode_value)
  | R_transcode_value => Some (R_sample_strategy || R_value)
  | R_sample_strategy =>
      Some ((R_sample_strategy_kind ~ parens (separated "," R_sample_strategy_arg)) || "full")
  | R_sample_strategy_kind => Some ("scenes" || "uniform")
  | R_sample_strategy_arg => Some (R_ident ~ ":" ~ R_value)
  | R_transcode_fallback => Some ("fallback" ~ braces (Star R_kv_pair))
  | R_transcode_vmaf_override => Some ("target_vmaf_when" ~ R_field_access ~ ":" ~ R_number)
  | R_verify_op => Some ("verify" ~ R_verify_mode)
  | R_verify_mode => Some ("quick" || "thorough" || "hash")
  | R_block => Some (braces (Star R_kv_pair))
  | R_kv_pair => Some (R_ident ~ ":" ~ R_value)
  | R_synthesize_op => Some ("synthesize" ~ R_string ~ braces (Star R_synth_item))
  | R_synth_item =>
      Some (keyed "codec" R_ident || keyed "channels" (R_ident || R_number) || keyed "source" R_source_pref
            || keyed "bitrate" R_string || ("skip_if_exists" ~ braces R_filter_expr)
            || ("create_if" ~ R_condition) || keyed "title" R_string
            || keyed "language" (R_ident || "inherit") || keyed "position" (R_ident || R_number)
            || R_normalize_block)
  | R_source_pref => Some ("prefer" ~ parens R_filter_expr)
  | R_when_block => Some ("when" ~ R_condition ~ "{" ~ Star R_action ~ "}" ~ Opt R_else_block)
  | R_else_block => Some ("else" ~ braces (Star R_action))
  | R_rules_block => Some ("rules" ~ R_match_mode ~ braces (Star R_rule_item))
  | R_match_mode => Some ("first" || "all")
  | R_rule_item => Some ("rule" ~ R_string ~ braces R_when_block)
  | R_condition => Some (Sub R_condition_or)
  | R_condition_or => Some (separated "or" R_condition_and)
  | R_condition_and => Some (separated "and" R_condition_not)
  | R_condition_not => Some (("not" ~ R_condition_atom) || R_condition_atom)
  | R_condition_atom =>
      Some (("exists" ~ parens R_track_query)
            || ("count" ~ "(" ~ R_track_query ~ ")" ~ R_compare_op ~ R_number)
            || "audio_is_multi_language" || "is_dubbed" || "is_original"
            || (R_field_access ~ R_compare_op ~ R_value) || (R_field_access ~ "exists")
            || parens R_condition)
  | R_field_access => Some (R_ident ~ Plus ("." ~ R_ident))
  | R_track_query => Some ((R_track_target || "track") ~ Opt ("where" ~ R_filter_expr))
  | R_filter_expr => Some (Sub R_filter_or)
  | R_filter_or => Some (separated "or" R_filter_and)
  | R_filter_and => Some (separated "and" R_filter_not)
  | R_filter_not => Some (("not" ~ R_filter_atom) || R_filter_atom)
  | R_filter_atom =>
      Some (("lang" ~ "in" ~ R_list) || ("lang" ~ R_compare_op ~ (R_field_access || R_value))
            || ("codec" ~ "in" ~ R_list) || ("codec" ~ R_compare_op ~ (R_field_access || R_value))
            || ("channels" ~ R_compare_op ~ R_number) || "commentary" || "forced" || "default" || "font"
            || ("title" ~ ("contains" || "matches") ~ R_string) || parens R_filter_expr)
  | R_action =>
      Some (R_keep_op || R_remove_op || ("skip" ~ Opt R_ident) || ("warn" ~ R_string)
            || ("fail" ~ R_string) || ("set_default" ~ R_track_ref) || ("set_forced" ~ R_track_ref)
            || ("set_language" ~ R_track_ref ~ (R_field_access || R_string))
            || ("set_tag" ~ R_string ~ (R_field_access || R_value)))
  | R_track_ref => Some (R_track_target ~ Opt ("where" ~ R_filter_expr))
  | R_compare_op => Some ("==" || "!=" || "<=" || ">=" || "<" || ">" || "in")
  | R_list => Some ("[" ~ Opt (separated "," R_value) ~ Opt "," ~ "]")
  | R_value => Some (R_string || R_number || R_boolean || R_ident || R_list)
  | R_boolean | R_string | R_number | R_ident | R_EOI => None
  end)%grammar.

(** ** Tokens *)
Definition byte_in (lo hi : nat) (c : ascii) : bool :=
  (lo <=? nat_of_ascii c)%nat && (nat_of_ascii c <=? hi)%nat.

Definition is_ascii_alpha (c : ascii) : bool := byte_in 65 90 c || byte_in 97 122 c.
Definition is_byte (n : nat) (c : ascii) : bool := (nat_of_ascii c =? n)%nat.
Definition ident_start (c : ascii) : bool := is_ascii_alpha c || is_byte 95 c.
Definition word_char (c : ascii) : bool := ident_start c || is_ascii_digit c.
Definition ident_char (c : ascii) : bool := word_char c || is_byte 45 c.

(** The longest prefix of bytes with a property, and the rest. *)
Fixpoint span_while (f : ascii → bool) (s : string) : string * string :=
  match s with
  | String c r => if f c then let '(a, b) := span_while f r in (String c a, b) else ("", s)
  | EmptyString => ("", "")
  end.

(** [ident] *)
Definition token_ident (s : string) : option (string * string) :=
  match s with
  | String c r =>
      if ident_start c then let '(a, b) := span_while ident_char r in Some (String c a, b) else None
  | EmptyString => None
  end.

(** The fraction of a number, with its point; it needs a digit. *)
Definition number_fraction (s : string) : string * string :=
  match s with
  | String c r =>
      if is_byte 46 c then
        let '(ds, rest) := span_while is_ascii_digit r in
        if bool_decide (ds = "") then ("", s) else (String c ds, rest)
      else ("", s)
  | EmptyString => ("", s)
  end.

(** [number] *)
Definition token_number (s : string) : option (string * string) :=
  let '(sign, s1) := match s with
                     | String c r => if is_byte 45 c then (String c "", r) else ("", s)
                     | EmptyString => ("", s)
                     end in
  let '(ds, s2) := span_while is_ascii_digit s1 in
  if bool_decide (ds = "") then None
  else
    let '(frac, s3) := number_fraction s2 in
    let '(unit, s4) := span_while is_ascii_alpha s3 in
    Some (sign +:+ ds +:+ frac +:+ unit, s4).

(** [boolean]: a word of its own *)
Definition word_ends (s : string) : bool :=
  match s with String c _ => negb (word_char c) | EmptyString => true end.

Definition token_word (w s : string) : option (string * string) :=
  match strip_prefix w s with
  | Some rest => if word_ends rest then Some (w, rest) else None
  | None => None
  end.

Definition token_boolean (s : string) : option (string * string) :=
  match token_word "true" s with Some r => Some r | None => token_word "false" s end.

(** [string] after its opening quote: the text up to and with the closing quote *)
Fixpoint string_tail (s : string) : option (string * string) :=
  match s with
  | EmptyString => None
  | String c r =>
      if is_byte 34 c then Some (String c "", r)
      else if is_byte 92 c then
        match r with
        | String d r' =>
            if is_byte 34 d || is_byte 92 d
            then '(a, b) ← string_tail r'; Some (String c (String d a), b)
            else None
        | EmptyString => None
        end
      else '(a, b) ← string_tail r; Some (String c a, b)
  end.

Definition token_string (s : string) : option (string * string) :=
  match s with
  | String c r => if is_byte 34 c then '(a, b) ← string_tail r; Some (String c a, b) else None
  | EmptyString => None
  end.

Definition token (r : Rule) (s : string) : option (string * string) :=
  match r with
  | R_ident => token_ident s
  | R_number => token_number s
  | R_boolean => token_boolean s
  | R_string => token_string s
  | R_EOI => if bool_decide (s = "") then Some ("", "") else None
  | _ => None
  end.

(** ** Blanks: [WHITESPACE] and [COMMENT] *)
Definition is_newline (c : ascii) : bool := is_byte 10 c || is_byte 13 c.
Definition is_blank (c : ascii) : bool := is_byte 32 c || is_byte 9 c || is_newline c.

(** What may be skipped at the start of a text, and the rest. *)
Fixpoint skip_blank (in_comment : bool) (s : string) : string * string :=
  match s with
  | EmptyString => ("", "")
  | String c r =>
      if in_comment then
        let '(a, b) := skip_blank (negb (is_newline c)) r in (String c a, b)
      else if is_blank c then
        let '(a, b) := skip_blank false r in (String c a, b)
      else
        match r with
        | String d r' =>
            if is_byte 47 c && is_byte 47 d
            then let '(a, b) := skip_blank true r' in (String c (String d a), b)
            else ("", s)
        | EmptyString => ("", s)
        end
  end.

(** ** Evaluation *)
Inductive Outcome : Type :=
| Match (text rest : string) (ps : list Pair)
| NoMatch
| NoFuel.

Section peg.
(** Line and column of an offset *)
Context (line_col : usize → usize * usize).

Definition literal (l s : string) : Outcome :=
  match strip_prefix l s with Some rest => Match l rest [] | None => NoMatch end.

(** The evaluation of [e] on the text [s] that stands at [off]. *)
Fixpoint peg (fuel : nat) (e : expr) (off : usize) (s : string) : Outcome :=
  match fuel with
  | O => NoFuel
  | S n =>
      match e with
      | Lit l => literal l s
      | Sub r =>
          match grammar r with
          | Some e =>
              match peg n e off s with
              | Match t rest ps => Match t rest [mkPair r t off (line_col off) ps]
              | o => o
              end
          | None =>
              match token r s with
              | Some (t, rest) => Match t rest [mkPair r t off (line_col off) []]
              | None => NoMatch
              end
          end
      | Seq a b =>
          match peg n a off s with
          | Match t1 s1 p1 =>
              let '(w, s2) := skip_blank false s1 in
              match peg n b (off + String.length t1 + String.length w) s2 with
              | Match t2 s3 p2 => Match (t1 +:+ w +:+ t2) s3 (p1 ++ p2)
              | o => o
              end
          | o => o
          end
      | Alt a b => match peg n a off s with NoMatch => peg n b off s | o => o end
      | Opt a => match peg n a off s with NoMatch => Match "" s [] | o => o end
      | Star a =>
          match peg n a off s with
          | Match t1 s1 p1 =>
              match peg n (More a) (off + String.length t1) s1 with
              | Match t2 s2 p2 => Match (t1 +:+ t2) s2 (p1 ++ p2)
              | o => o
              end
          | NoMatch => Match "" s []
          | NoFuel => NoFuel
          end
      | More a =>
          let '(w, s1) := skip_blank false s in
          match peg n a (off + String.length w) s1 with
          | Match t1 s2 p1 =>
              match peg n (More a) (off + String.length w + String.length t1) s2 with
              | Match t2 s3 p2 => Match (w +:+ t1 +:+ t2) s3 (p1 ++ p2)
              | o => o
              end
          | NoMatch => Match "" s []
          | NoFuel => NoFuel
          end
      end
  end.
End peg.

(** ** What an evaluation tells

    [derives e s text ps]: at the start of [s] the expression matches [text] and
    yields the pairs [ps]. Of the order of choices only the failure of the first
    alternative is kept. *)
Definition blank (w : string) : Prop := ∃ s, (skip_blank false s).1 = w.

Inductive derives : expr → string → string → list Pair → Prop :=
| derives_lit l s : derives (Lit l) (l +:+ s) l []
| derives_token r s t rest off pos :
    grammar r = None → token r s = Some (t, rest) → derives (Sub r) s t [mkPair r t off pos []]
| derives_rule r e s t ps off pos :
    grammar r = Some e → derives e s t ps → derives (Sub r) s t [mkPair r t off pos ps]
| derives_seq a b s t1 p1 w s2 t2 p2 :
    derives a s t1 p1 → blank w → derives b s2 t2 p2 →
    derives (Seq a b) s (t1 +:+ w +:+ t2) (p1 ++ p2)
| derives_left a b s t ps : derives a s t ps → derives (Alt a b) s t ps
| derives_right a b s t ps line_col n off :
    peg line_col n a off s = NoMatch → derives b s t ps → derives (Alt a b) s t ps
| derives_none a s : derives (Opt a) s "" []
| derives_some a s t ps : derives a s t ps → derives (Opt a) s t ps
| derives_end a s : derives (Star a) s "" []
| derives_more a s t1 p1 w s2 t2 p2 :
    derives a s t1 p1 → blank w → derives (Star a) s2 t2 p2 →
    derives (Star a) s (t1 +:+ w +:+ t2) (p1 ++ p2)
| derives_rest a s w s2 t ps :
    blank w → derives (Star a) s2 t ps → derives (More a) s (w +:+ t) ps.

Lemma blank_nil : blank "".
Proof. by exists "". Qed.

#[export] Hint Resolve blank_nil : voom.
#[export] Hint Constructors derives : voom.

Lemma strip_prefix_app p s r : strip_prefix p s = Some r → s = p +:+ r.
Proof.
  revert s; induction p as [|c p IH]; intros [|d s]; cbn [strip_prefix]; try (by intros [= <-]).
  destruct (decide (c = d)) as [->|]; [|by rewrite bool_decide_false]. rewrite bool_decide_true by done.
  by intros ->%IH.
Qed.

Lemma skip_blank_blank s w r : skip_blank false s = (w, r) → blank w.
Proof. intros Hs. exists s. by rewrite Hs. Qed.

#[export] Hint Resolve skip_blank_blank : voom.

Lemma derives_more_rest a s t1 p1 s2 t2 p2 :
  derives a s t1 p1 → derives (More a) s2 t2 p2 → derives (Star a) s (t1 +:+ t2) (p1 ++ p2).
Proof. intros H1 H2. inversion H2; subst. eauto with voom. Qed.

(** Every match of an evaluation is a derivation. *)
Lemma peg_derives line_col n e off s t rest ps :
  peg line_col n e off s = Match t rest ps → derives e s t ps.
Proof.
  revert e off s t rest ps. induction n as [|n IH]; intros e off s t rest ps; [done|].
  destruct e as [l|r|a b|a b|a|a|a]; simpl.
  - unfold literal. destruct (strip_prefix l s) eqn:Hl; [|done]. apply strip_prefix_app in Hl as ->.
    intros [= <- <- <-]. constructor.
  - destruct (grammar r) as [e|] eqn:Hr.
    + destruct (peg _ n e off s) eqn:He; try done. intros [= <- <- <-]. eauto with voom.
    + destruct (token r s) as [[t' rest']|] eqn:Ht; [|done]. intros [= <- <- <-]. eauto with voom.
  - destruct (peg _ n a off s) eqn:Ha; try done. destruct (skip_blank false _) eqn:Hw.
    destruct (peg _ n b _ _) eqn:Hb; try done. intros [= <- <- <-]. eauto with voom.
  - destruct (peg _ n a off s) eqn:Ha; try done; [intros [= <- <- <-]|intros Hb]; eauto with voom.
  - destruct (peg _ n a off s) eqn:Ha; try done; intros [= <- <- <-]; eauto with voom.
  - destruct (peg _ n a off s) eqn:Ha; try done; [|intros [= <- <- <-]; eauto with voom].
    destruct (peg _ n (More a) _ _) eqn:Hm; try done. intros [= <- <- <-].
    eapply derives_more_rest; eauto.
  - destruct (skip_blank false s) eqn:Hw. destruct (peg _ n a _ _) eqn:Ha; try done.
    + destruct (peg _ n (More a) _ _) eqn:Hm; try done. intros [= <- <- <-].
      eapply derives_rest; [eauto with voom|]. eapply derives_more_rest; eauto.
    + intros [= <- <- <-]. eapply (derives_rest a s "" s ""); eauto with voom.
Qed.
