(* ===== verification/Parser.v ===== *)
(** * The parser of the policy language

    [crates/voom-dsl/src/parser.rs]: the tree that [pest] returns for a source is
    turned into the syntax tree of [Ast]. The library is a parameter ([Pest]); what
    it promises is that its tree follows the grammar ([PestLaws]). A builder
    returns a value or an error, or panics: an [unwrap] of a child that is not
    there. Iterators are lists of pairs, and [inner.next()] is their head. *)
From S2P Require Import Prelude Ast Formatter Grammar.

(** ** The library *)
Record PestError : Type := {
  PestError_line : usize;
  PestError_col : usize;
  PestError_text : string;
}.

(** [VoomParser::parse(Rule::policy, input)] *)
Class Pest := pest_parse : string → result PestError (list Pair).

Class PestLaws `{Pest} := {
  pest_follows_grammar input ps :
    pest_parse input = Ok ps →
    ∃ line_col fuel text rest, peg line_col fuel (Sub R_policy) 0 input = Match text rest ps;
}.

(** ** Results

    A computation returns a value or an error, or panics. *)
Inductive Attempt (E A : Type) : Type :=
| Done (a : A)
| Fails (e : E)
| Panics.
Arguments Done {E A} a.
Arguments Fails {E A} e.
Arguments Panics {E A}.

#[export] Instance Attempt_ret {E} : MRet (Attempt E) := λ _ a, Done a.

#[export] Instance Attempt_bind {E} : MBind (Attempt E) := λ _ _ f b,
  match b with Done a => f a | Fails e => Fails e | Panics => Panics end.

(** A result that is not a panic *)
Definition returned {E A} (r : result E A) : Attempt E A :=
  match r with Ok a => Done a | Err e => Fails e end.

(** What the builders return *)
Abbreviation Built := (Attempt DslError).

(** [unwrap] *)
Definition unwrap {A} (o : option A) : Built A :=
  match o with Some a => Done a | None => Panics end.

(** [inner.next().unwrap()] *)
Definition next (inner : list Pair) : Built (Pair * list Pair) :=
  match inner with q :: qs => Done (q, qs) | [] => Panics end.

(** [inner.find(|p| p.as_rule() == r).unwrap()], with what the iterator still holds *)
Fixpoint find_rule (r : Rule) (inner : list Pair) : Built (Pair * list Pair) :=
  match inner with
  | q :: qs => if bool_decide (as_rule q = r) then Done (q, qs) else find_rule r qs
  | [] => Panics
  end.

(** A [for] loop that collects *)
Definition collect {A B} (f : A → Built B) : list A → Built (list B) :=
  fix go l :=
    match l with
    | [] => Done []
    | x :: l => y ← f x; ys ← go l; Done (y :: ys)
    end.

(** A [for] loop over mutable variables *)
Definition loop {A B} (f : B → A → Built B) : B → list A → Built B :=
  fix go acc l :=
    match l with
    | [] => Done acc
    | x :: l => acc ← f acc x; go acc l
    end.

Definition has_rule (r : Rule) (p : Pair) : bool := bool_decide (as_rule p = r).

(** An error at the start of a pair *)
Definition fail_at {A} (p : Pair) (message : string) : Built A :=
  Fails (DslError_build (p_line_col p).1 (p_line_col p).2 message).

Definition fail_parse_at {A} (p : Pair) (message : string) : Built A :=
  Fails (DslError_parse (p_line_col p).1 (p_line_col p).2 message).

(** ** Text *)
Definition at_whitespace (s : string) : bool := existsb (λ w, starts_with w s) whitespace_list.

Fixpoint leading_keyword (text : string) : string :=
  match text with
  | EmptyString => ""
  | String c r =>
      if at_whitespace text || is_byte 58 c || is_byte 40 c then ""
      else String c (leading_keyword r)
  end.

(** The text up to the first whitespace, and the rest *)
Fixpoint break_word (s : string) : string * string :=
  match s with
  | EmptyString => ("", "")
  | String c r =>
      if at_whitespace s then ("", s)
      else let '(a, b) := break_word r in (String c a, b)
  end.

(** [split_whitespace().next()], with the rest of the text *)
Definition next_word (s : string) : option (string * string) :=
  let s := trim_start_go (String.length s) whitespace_list s in
  if bool_decide (s = "") then None else Some (break_word s).

(** [{:?}] of a rule *)
Definition Rule_debug (r : Rule) : string :=
  match r with
  | R_policy => "policy" | R_extends_clause => "extends_clause" | R_metadata => "metadata"
  | R_metadata_item => "metadata_item" | R_config => "config" | R_config_item => "config_item"
  | R_lang_target => "lang_target" | R_phase => "phase" | R_phase_extend => "phase_extend"
  | R_phase_item => "phase_item" | R_skip_when => "skip_when" | R_depends_on => "depends_on"
  | R_run_if => "run_if" | R_run_if_trigger => "run_if_trigger" | R_on_error => "on_error"
  | R_clear_tags_op => "clear_tags_op" | R_set_tag_op => "set_tag_op"
  | R_delete_tag_op => "delete_tag_op" | R_container_op => "container_op" | R_keep_op => "keep_op"
  | R_remove_op => "remove_op" | R_track_target => "track_target" | R_where_clause => "where_clause"
  | R_keep_block => "keep_block" | R_normalize_block => "normalize_block"
  | R_loudness_preset => "loudness_preset" | R_order_op => "order_op" | R_defaults_op => "defaults_op"
  | R_default_item => "default_item" | R_actions_op => "actions_op"
  | R_action_setting => "action_setting" | R_transcode_op => "transcode_op"
  | R_transcode_block => "transcode_block" | R_transcode_kv_pair => "transcode_kv_pair"
  | R_transcode_value => "transcode_value" | R_sample_strategy => "sample_strategy"
  | R_sample_strategy_kind => "sample_strategy_kind" | R_sample_strategy_arg => "sample_strategy_arg"
  | R_transcode_fallback => "transcode_fallback"
  | R_transcode_vmaf_override => "transcode_vmaf_override" | R_verify_op => "verify_op"
  | R_verify_mode => "verify_mode" | R_block => "block" | R_kv_pair => "kv_pair"
  | R_synthesize_op => "synthesize_op" | R_synth_item => "synth_item" | R_source_pref => "source_pref"
  | R_when_block => "when_block" | R_else_block => "else_block" | R_rules_block => "rules_block"
  | R_match_mode => "match_mode" | R_rule_item => "rule_item" | R_condition => "condition"
  | R_condition_or => "condition_or" | R_condition_and => "condition_and"
  | R_condition_not => "condition_not" | R_condition_atom => "condition_atom"
  | R_field_access => "field_access" | R_track_query => "track_query" | R_filter_expr => "filter_expr"
  | R_filter_or => "filter_or" | R_filter_and => "filter_and" | R_filter_not => "filter_not"
  | R_filter_atom => "filter_atom" | R_action => "action" | R_track_ref => "track_ref"
  | R_compare_op => "compare_op" | R_list => "list" | R_value => "value" | R_boolean => "boolean"
  | R_string => "string" | R_number => "number" | R_ident => "ident" | R_EOI => "EOI"
  end.

Definition span_from_pair (p : Pair) : Span :=
  {| Span_start := p_start p; Span_end := p_start p + String.length (as_str p);
     Span_line := (p_line_col p).1; Span_col := (p_line_col p).2 |}.

(** ** Tokens and values *)

(** [parse_string_value] of a pair: the slice between the quotes panics on a text
    that is one quote. *)
Definition build_string (p : Pair) : Built string :=
  if bool_decide (as_str p = dquote) then Panics else Done (parse_string_value (as_str p)).

Definition parse_number_f64 (p : Pair) : f64 :=
  let '(numeric, _) := span_while (λ c, is_ascii_digit c || is_byte 46 c || is_byte 45 c) (as_str p) in
  default (S754_zero false) (f64_from_str numeric).

Definition build_field_access (p : Pair) : list string :=
  str_trim <$> split_on (ascii_of_nat 46) [] (as_str p).

Definition build_compare_op (p : Pair) : Built CompareOp :=
  let s := as_str p in
  if bool_decide (s = "==") then Done CompareOp_Eq
  else if bool_decide (s = "!=") then Done CompareOp_Ne
  else if bool_decide (s = "<") then Done CompareOp_Lt
  else if bool_decide (s = "<=") then Done CompareOp_Le
  else if bool_decide (s = ">") then Done CompareOp_Gt
  else if bool_decide (s = ">=") then Done CompareOp_Ge
  else if bool_decide (s = "in") then Done CompareOp_In
  else Panics.

(** [{op:?}] *)
Definition CompareOp_debug (op : CompareOp) : string :=
  match op with
  | CompareOp_Eq => "Eq" | CompareOp_Ne => "Ne" | CompareOp_Lt => "Lt" | CompareOp_Le => "Le"
  | CompareOp_Gt => "Gt" | CompareOp_Ge => "Ge" | CompareOp_In => "In"
  end.

(** [build_value] with [build_list_values] *)
Fixpoint build_value (p : Pair) : Built Value :=
  match p with
  | mkPair r text _ _ inner =>
      match r with
      | R_value => match inner with q :: _ => build_value q | [] => Panics end
      | R_string => s ← build_string p; Done (Value_String s)
      | R_number => Done (Value_Number (parse_number_f64 p) text)
      | R_boolean => Done (Value_Bool (bool_decide (text = "true")))
      | R_list => vs ← collect build_value inner; Done (Value_List vs)
      | _ => Done (Value_Ident text)
      end
  end.

Definition build_list (p : Pair) : Built (list string) :=
  collect (λ v, '(q, _) ← next (into_inner v);
                if has_rule R_string q then build_string q else Done (as_str q))
    (into_inner p).

(** A key and its value: two children *)
Definition build_entry (value : Pair → Built Value) (p : Pair) : Built (string * Value) :=
  '(k, rest) ← next (into_inner p);
  '(v, _) ← next rest;
  val ← value v;
  Done (as_str k, val).

Definition build_object (pairs : list Pair) : Built (list (string * Value)) :=
  collect (build_entry build_value) (filter (λ p, as_rule p = R_kv_pair) pairs).

(** [parse_set_tag_value] *)
Definition parse_set_tag_value (p : Pair) : Built ValueOrField :=
  if has_rule R_field_access p then Done (ValueOrField_Field (build_field_access p))
  else v ← build_value p; Done (ValueOrField_Value v).

Definition parse_on_error_token (p : Pair) : Built ErrorStrategyNode :=
  match ErrorStrategyNode_from_token (as_str p) with
  | Some s => Done s
  | None =>
      fail_at p ("invalid on_error value " +:+ dquote +:+ as_str p +:+ dquote +:+ ", expected " +:+
        dquote +:+ "continue" +:+ dquote +:+ ", " +:+ dquote +:+ "abort" +:+ dquote +:+ ", " +:+
        dquote +:+ "skip" +:+ dquote +:+ ", or " +:+ dquote +:+ "quarantine" +:+ dquote)
  end.

Definition build_on_error (p : Pair) : Built ErrorStrategyNode :=
  '(q, _) ← next (into_inner p); parse_on_error_token q.

(** ** Filters *)
Definition MAX_NESTING_DEPTH : nat := 100.

Inductive ListOrCompare : Type :=
| ListOrCompare_InList (v : list string)
| ListOrCompare_Compare (op : CompareOp) (v : string)
| ListOrCompare_Field (op : CompareOp) (path : list string).

(** [span] is the one of the pair [p]. *)
Definition build_list_or_compare_filter (p : Pair) (inner : list Pair) (kind : string)
    : Built ListOrCompare :=
  '(q, inner) ← next inner;
  if has_rule R_list q then v ← build_list q; Done (ListOrCompare_InList v)
  else
    op ← build_compare_op q;
    '(val, _) ← next inner;
    if has_rule R_field_access val then
      match op with
      | CompareOp_Eq | CompareOp_Ne => Done (ListOrCompare_Field op (build_field_access val))
      | _ => fail_at p ("operator " +:+ CompareOp_debug op +:+ " is not valid for " +:+ kind +:+
                        " field comparisons; use == or !=")
      end
    else
      val_str ← (if has_rule R_value val
                 then '(q, _) ← next (into_inner val); Done (as_str q)
                 else Done (as_str val));
      match op with
      | CompareOp_Eq | CompareOp_In => Done (ListOrCompare_InList [val_str])
      | CompareOp_Ne => Done (ListOrCompare_Compare CompareOp_Ne val_str)
      | _ => fail_at p ("operator " +:+ CompareOp_debug op +:+ " is not valid for " +:+ kind +:+
                        " comparisons; use == or !=")
      end.

Definition lang_filter (c : ListOrCompare) : FilterNode :=
  match c with
  | ListOrCompare_InList v => FilterNode_LangIn v
  | ListOrCompare_Compare op v => FilterNode_LangCompare op v
  | ListOrCompare_Field op path => FilterNode_LangField op path
  end.

Definition codec_filter (c : ListOrCompare) : FilterNode :=
  match c with
  | ListOrCompare_InList v => FilterNode_CodecIn v
  | ListOrCompare_Compare op v => FilterNode_CodecCompare op v
  | ListOrCompare_Field op path => FilterNode_CodecField op path
  end.

(** The first half of [build_filter_atom]: what the leading keyword decides, if it
    is one of those. *)
Definition filter_keyword (p : Pair) : option (Built FilterNode) :=
  let text := str_trim (as_str p) in
  let inner := into_inner p in
  let keyword := leading_keyword text in
  if bool_decide (keyword = "lang") then
    Some (c ← build_list_or_compare_filter p inner "lang"; Done (lang_filter c))
  else if bool_decide (keyword = "codec") then
    Some (c ← build_list_or_compare_filter p inner "codec"; Done (codec_filter c))
  else if bool_decide (keyword = "channels") then
    Some ('(q, inner) ← next inner;
          op ← build_compare_op q;
          '(n, _) ← next inner;
          Done (FilterNode_Channels op (parse_number_f64 n)))
  else if bool_decide (keyword = "commentary") then Some (Done FilterNode_Commentary)
  else if bool_decide (keyword = "forced") then Some (Done FilterNode_Forced)
  else if bool_decide (keyword = "default") then Some (Done FilterNode_Default)
  else if bool_decide (keyword = "font") then Some (Done FilterNode_Font)
  else if bool_decide (keyword = "title" ∨ keyword = "title_contains") then
    Some ('(q, _) ← next inner;
          s ← build_string q;
          Done (if str_contains "contains" text then FilterNode_TitleContains s
                else FilterNode_TitleMatches s))
  else None.

Fixpoint build_filter_depth (p : Pair) (depth : nat) : Built FilterNode :=
  match p with
  | mkPair _ _ _ _ inner => match inner with q :: _ => build_filter_or q depth | [] => Panics end
  end
with build_filter_or (p : Pair) (depth : nat) : Built FilterNode :=
  match p with
  | mkPair _ _ _ _ inner =>
      match inner with
      | [q] => build_filter_and q depth
      | _ => fs ← collect (λ q, build_filter_and q depth) inner; Done (FilterNode_Or fs)
      end
  end
with build_filter_and (p : Pair) (depth : nat) : Built FilterNode :=
  match p with
  | mkPair _ _ _ _ inner =>
      match inner with
      | [q] => build_filter_not q depth
      | _ => fs ← collect (λ q, build_filter_not q depth) inner; Done (FilterNode_And fs)
      end
  end
with build_filter_not (p : Pair) (depth : nat) : Built FilterNode :=
  match p with
  | mkPair _ text _ _ inner =>
      match inner with
      | q :: _ =>
          if bool_decide (leading_keyword (str_trim text) = "not")
          then f ← build_filter_atom q depth; Done (FilterNode_Not f)
          else build_filter_atom q depth
      | [] => Panics
      end
  end
with build_filter_atom (p : Pair) (depth : nat) : Built FilterNode :=
  match p with
  | mkPair _ text _ _ inner =>
      match filter_keyword p with
      | Some b => b
      | None =>
          if starts_with "(" (str_trim text) then
            if (MAX_NESTING_DEPTH <? depth + 1)%nat then
              fail_parse_at p ("filter nesting depth exceeds maximum of " +:+ pretty MAX_NESTING_DEPTH)
            else match inner with q :: _ => build_filter_depth q (depth + 1) | [] => Panics end
          else fail_at p ("unexpected filter: " +:+ str_trim text)
      end
  end.

Definition build_filter (p : Pair) : Built FilterNode := build_filter_depth p 0.

(** ** Conditions *)
(** The filter of a query *)
Definition query_filter (child : option Pair) : Built (option FilterNode) :=
  match child with
  | Some q => if has_rule R_filter_expr q then f ← build_filter q; Done (Some f) else Done None
  | None => Done None
  end.

Definition build_track_query (p : Pair) : Built TrackQueryNode :=
  let text := str_trim (as_str p) in
  let inner := into_inner p in
  '(target, first_child) ←
    (if starts_with "track " text || bool_decide (text = "track")
     then Done ("track", head inner)
     else '(q, inner) ← next inner; Done (as_str q, head inner));
  filter ← query_filter first_child;
  Done {| TrackQueryNode_target := target; TrackQueryNode_filter := filter |}.

(** The first half of [build_condition_atom] *)
Definition condition_keyword (p : Pair) : option (Built ConditionNode) :=
  let inner := into_inner p in
  let keyword := leading_keyword (str_trim (as_str p)) in
  if bool_decide (keyword = "audio_is_multi_language") then
    Some (Done ConditionNode_AudioIsMultiLanguage)
  else if bool_decide (keyword = "is_dubbed") then Some (Done ConditionNode_IsDubbed)
  else if bool_decide (keyword = "is_original") then Some (Done ConditionNode_IsOriginal)
  else if bool_decide (keyword = "exists") then
    Some ('(query, _) ← next inner;
          query ← build_track_query query;
          Done (ConditionNode_Exists query))
  else if bool_decide (keyword = "count") then
    Some ('(query, inner) ← next inner;
          '(q, inner) ← next inner;
          op ← build_compare_op q;
          '(n, _) ← next inner;
          query ← build_track_query query;
          Done (ConditionNode_Count query op (parse_number_f64 n)))
  else None.

(** Its last part: [field_access compare_op value] or [field_access exists] *)
Definition build_field_condition (p : Pair) : Built ConditionNode :=
  '(first, inner) ← next (into_inner p);
  if has_rule R_field_access first then
    let fields := build_field_access first in
    match inner with
    | second :: inner =>
        if has_rule R_compare_op second then
          op ← build_compare_op second;
          '(v, _) ← next inner;
          val ← build_value v;
          Done (ConditionNode_FieldCompare fields op val)
        else Done (ConditionNode_FieldExists fields)
    | [] => Done (ConditionNode_FieldExists fields)
    end
  else fail_at first ("unexpected condition: " +:+ str_trim (as_str p)).

Fixpoint build_condition_depth (p : Pair) (depth : nat) : Built ConditionNode :=
  match p with
  | mkPair _ _ _ _ inner => match inner with q :: _ => build_condition_or q depth | [] => Panics end
  end
with build_condition_or (p : Pair) (depth : nat) : Built ConditionNode :=
  match p with
  | mkPair _ _ _ _ inner =>
      match inner with
      | [q] => build_condition_and q depth
      | _ => cs ← collect (λ q, build_condition_and q depth) inner; Done (ConditionNode_Or cs)
      end
  end
with build_condition_and (p : Pair) (depth : nat) : Built ConditionNode :=
  match p with
  | mkPair _ _ _ _ inner =>
      match inner with
      | [q] => build_condition_not q depth
      | _ => cs ← collect (λ q, build_condition_not q depth) inner; Done (ConditionNode_And cs)
      end
  end
with build_condition_not (p : Pair) (depth : nat) : Built ConditionNode :=
  match p with
  | mkPair _ text _ _ inner =>
      match inner with
      | q :: _ =>
          if bool_decide (leading_keyword (str_trim text) = "not")
          then c ← build_condition_atom q depth; Done (ConditionNode_Not c)
          else build_condition_atom q depth
      | [] => Panics
      end
  end
with build_condition_atom (p : Pair) (depth : nat) : Built ConditionNode :=
  match p with
  | mkPair _ text _ _ inner =>
      match condition_keyword p with
      | Some b => b
      | None =>
          if starts_with "(" (str_trim text) then
            if (MAX_NESTING_DEPTH <? depth + 1)%nat then
              fail_parse_at p
                ("condition nesting depth exceeds maximum of " +:+ pretty MAX_NESTING_DEPTH)
            else match inner with q :: _ => build_condition_depth q (depth + 1) | [] => Panics end
          else build_field_condition p
      end
  end.

Definition build_condition (p : Pair) : Built ConditionNode := build_condition_depth p 0.

(** ** Operations *)
Definition build_normalize_from_parts (parts : list Pair) : Built NormalizeSetting :=
  '(preset, parts) ← next parts;
  settings ← match parts with
             | block :: _ => build_object (into_inner block)
             | [] => Done []
             end;
  Done {| NormalizeSetting_preset := as_str preset; NormalizeSetting_settings := settings |}.

Definition build_normalize (p : Pair) : Built NormalizeSetting :=
  build_normalize_from_parts (into_inner p).

(** The last [normalize] of a block that is not the first one of all *)
Definition keep_block_step (normalize : option NormalizeSetting) (item : Pair)
    : Built (option NormalizeSetting) :=
  if has_rule R_normalize_block item then n ← build_normalize item; Done (Some n)
  else Done normalize.

Definition keep_remove_step (acc : option FilterNode * option NormalizeSetting) (child : Pair)
    : Built (option FilterNode * option NormalizeSetting) :=
  match as_rule child with
  | R_where_clause =>
      '(q, _) ← next (into_inner child); f ← build_filter q; Done (Some f, acc.2)
  | R_keep_block => n ← loop keep_block_step acc.2 (into_inner child); Done (acc.1, n)
  | _ => Done acc
  end.

Definition build_keep_remove_parts (p : Pair)
    : Built (string * option FilterNode * option NormalizeSetting) :=
  '(target, inner) ← next (into_inner p);
  '(filter, normalize) ← loop keep_remove_step (None, None) inner;
  Done (as_str target, filter, normalize).

Definition build_keep_remove (p : Pair) (is_keep : bool) : Built OperationNode :=
  '(target, filter, normalize) ← build_keep_remove_parts p;
  Done (if is_keep then OperationNode_Keep target filter normalize
        else OperationNode_Remove target filter).

Definition build_default_item (child : Pair) : Built (string * string) :=
  let keyword := leading_keyword (str_trim (as_str child)) in
  kind ← (if bool_decide (keyword = "audio") then Done "audio"
          else if bool_decide (keyword = "subtitle" ∨ keyword = "subtitles") then Done "subtitle"
          else fail_at child ("unknown defaults kind: " +:+ keyword));
  '(v, _) ← next (into_inner child);
  Done (kind, as_str v).

Definition build_defaults (p : Pair) : Built OperationNode :=
  items ← collect build_default_item (filter (λ c, as_rule c = R_default_item) (into_inner p));
  Done (OperationNode_Defaults items).

Definition build_actions (p : Pair) : Built OperationNode :=
  '(target, _) ← unwrap (next_word (as_str p));
  settings ← collect (build_entry build_value)
               (filter (λ c, as_rule c = R_action_setting) (into_inner p));
  Done (OperationNode_Actions target settings).

Definition build_sample_strategy (p : Pair) : Built Value :=
  if bool_decide (as_str p = "full") then Done (Value_Ident "full")
  else
    '(name, parts) ← next (into_inner p);
    args ← collect (build_entry build_value)
             (filter (λ c, as_rule c = R_sample_strategy_arg) parts);
    Done (Value_Call (as_str name) args).

Fixpoint build_transcode_value (p : Pair) : Built Value :=
  match p with
  | mkPair r _ _ _ inner =>
      match r with
      | R_transcode_value => match inner with q :: _ => build_transcode_value q | [] => Panics end
      | R_sample_strategy => build_sample_strategy p
      | _ => build_value p
      end
  end.

(** What an item of a transcode block pushes *)
Definition build_transcode_item (child : Pair) : Built (list (string * Value)) :=
  match as_rule child with
  | R_transcode_kv_pair => e ← build_entry build_transcode_value child; Done [e]
  | R_transcode_fallback =>
      values ← build_object (into_inner child); Done [("fallback", Value_Object values)]
  | R_transcode_vmaf_override =>
      '(path, val) ← build_entry build_value child; Done [("target_vmaf_when " +:+ path, val)]
  | _ => Done []
  end.

Definition build_transcode (p : Pair) : Built OperationNode :=
  let target := match next_word (as_str p) with
                | Some (_, rest) => match next_word rest with Some (w, _) => w | None => "audio" end
                | None => "audio"
                end in
  '(codec, inner) ← next (into_inner p);
  settings ← match inner with
             | block :: _ => collect build_transcode_item (into_inner block)
             | [] => Done []
             end;
  Done (OperationNode_Transcode target (as_str codec) (concat settings)).

Definition build_synth_item (child : Pair) : Built SynthSetting :=
  let parts := into_inner child in
  let keyword := leading_keyword (str_trim (as_str child)) in
  if bool_decide (keyword = "codec") then
    '(q, _) ← next parts; Done (SynthSetting_Codec (as_str q))
  else if bool_decide (keyword = "channels") then
    '(q, _) ← next parts; v ← build_value q; Done (SynthSetting_Channels v)
  else if bool_decide (keyword = "source") then
    '(q, _) ← next parts;
    '(q, _) ← next (into_inner q);
    f ← build_filter q;
    Done (SynthSetting_Source f)
  else if bool_decide (keyword = "bitrate") then
    '(q, _) ← next parts; s ← build_string q; Done (SynthSetting_Bitrate s)
  else if bool_decide (keyword = "skip_if_exists") then
    '(q, _) ← next parts; f ← build_filter q; Done (SynthSetting_SkipIfExists f)
  else if bool_decide (keyword = "create_if") then
    '(q, _) ← next parts; c ← build_condition q; Done (SynthSetting_CreateIf c)
  else if bool_decide (keyword = "title") then
    '(q, _) ← next parts; s ← build_string q; Done (SynthSetting_Title s)
  else if bool_decide (keyword = "language") then
    '(q, _) ← next parts; Done (SynthSetting_Language (as_str q))
  else if bool_decide (keyword = "position") then
    '(q, _) ← next parts; v ← build_value q; Done (SynthSetting_Position v)
  else if bool_decide (keyword = "normalize") then
    n ← build_normalize_from_parts parts; Done (SynthSetting_Normalize n)
  else fail_at child ("unexpected synth keyword: " +:+ keyword).

Definition build_synthesize (p : Pair) : Built OperationNode :=
  '(q, inner) ← next (into_inner p);
  name ← build_string q;
  settings ← collect build_synth_item (filter (λ c, as_rule c = R_synth_item) inner);
  Done (OperationNode_Synthesize name settings).

(** ** Actions, rules *)
Definition build_track_ref (p : Pair) : Built TrackRefNode :=
  '(target, inner) ← next (into_inner p);
  filter ← match inner with
           | q :: _ => f ← build_filter q; Done (Some f)
           | [] => Done None
           end;
  Done {| TrackRefNode_target := as_str target; TrackRefNode_filter := filter |}.

(** The actions that the leading keyword decides *)
Definition build_keyword_action (p : Pair) : Built ActionNode :=
  let text := str_trim (as_str p) in
  let inner := into_inner p in
  let keyword := leading_keyword text in
  if bool_decide (keyword = "skip") then Done (ActionNode_Skip (as_str <$> head inner))
  else if bool_decide (keyword = "warn") then
    '(q, _) ← next inner; s ← build_string q; Done (ActionNode_Warn s)
  else if bool_decide (keyword = "fail") then
    '(q, _) ← next inner; s ← build_string q; Done (ActionNode_Fail s)
  else if bool_decide (keyword = "set_default") then
    '(q, _) ← next inner; r ← build_track_ref q; Done (ActionNode_SetDefault r)
  else if bool_decide (keyword = "set_forced") then
    '(q, _) ← next inner; r ← build_track_ref q; Done (ActionNode_SetForced r)
  else if bool_decide (keyword = "set_language") then
    '(q, inner) ← next inner;
    r ← build_track_ref q;
    '(v, _) ← next inner;
    val ← (if has_rule R_field_access v then Done (ValueOrField_Field (build_field_access v))
           else s ← build_string v; Done (ValueOrField_Value (Value_String s)));
    Done (ActionNode_SetLanguage r val)
  else if bool_decide (keyword = "set_tag") then
    '(q, inner) ← next inner;
    tag ← build_string q;
    '(v, _) ← next inner;
    val ← parse_set_tag_value v;
    Done (ActionNode_SetTag tag val)
  else fail_at p ("unexpected action: " +:+ text).

Definition build_action (p : Pair) : Built ActionNode :=
  match into_inner p with
  | first :: _ =>
      match as_rule first with
      | R_keep_op =>
          '(target, filter, _) ← build_keep_remove_parts first; Done (ActionNode_Keep target filter)
      | R_remove_op =>
          '(target, filter, _) ← build_keep_remove_parts first; Done (ActionNode_Remove target filter)
      | _ => build_keyword_action p
      end
  | [] => build_keyword_action p
  end.

Definition when_step (acc : list ActionNode * list ActionNode) (child : Pair)
    : Built (list ActionNode * list ActionNode) :=
  match as_rule child with
  | R_action => a ← build_action child; Done (acc.1 ++ [a], acc.2)
  | R_else_block =>
      els ← collect build_action (filter (λ c, as_rule c = R_action) (into_inner child));
      Done (acc.1, acc.2 ++ els)
  | other => fail_at child ("unexpected rule in when block: " +:+ Rule_debug other)
  end.

Definition build_when (p : Pair) : Built WhenNode :=
  '(q, inner) ← next (into_inner p);
  condition ← build_condition q;
  '(thens, els) ← loop when_step ([], []) inner;
  Done {| WhenNode_condition := condition; WhenNode_then_actions := thens;
          WhenNode_else_actions := els; WhenNode_span := span_from_pair p |}.

Definition build_rule_item (child : Pair) : Built RuleNode :=
  '(q, parts) ← next (into_inner child);
  name ← build_string q;
  '(w, _) ← next parts;
  when ← build_when w;
  Done {| RuleNode_name := name; RuleNode_when := when |}.

Definition build_rules (p : Pair) : Built OperationNode :=
  '(mode, inner) ← next (into_inner p);
  rules ← collect build_rule_item (filter (λ c, as_rule c = R_rule_item) inner);
  Done (OperationNode_Rules (as_str mode) rules).

(** ** Phases *)

(** The updates of the variables of [build_phase] *)
Definition emit_op (ph : PhaseNode) (span : Span) (node : OperationNode) : PhaseNode :=
  {| PhaseNode_name := PhaseNode_name ph; PhaseNode_extend := PhaseNode_extend ph;
     PhaseNode_skip_when := PhaseNode_skip_when ph; PhaseNode_depends_on := PhaseNode_depends_on ph;
     PhaseNode_run_if := PhaseNode_run_if ph; PhaseNode_on_error := PhaseNode_on_error ph;
     PhaseNode_operations := PhaseNode_operations ph ++
       [{| SpannedOperation_node := node; SpannedOperation_span := span |}];
     PhaseNode_span := PhaseNode_span ph |}.

Definition set_extend (ph : PhaseNode) : PhaseNode :=
  {| PhaseNode_name := PhaseNode_name ph; PhaseNode_extend := true;
     PhaseNode_skip_when := PhaseNode_skip_when ph; PhaseNode_depends_on := PhaseNode_depends_on ph;
     PhaseNode_run_if := PhaseNode_run_if ph; PhaseNode_on_error := PhaseNode_on_error ph;
     PhaseNode_operations := PhaseNode_operations ph; PhaseNode_span := PhaseNode_span ph |}.

Definition set_skip_when (ph : PhaseNode) (c : ConditionNode) : PhaseNode :=
  {| PhaseNode_name := PhaseNode_name ph; PhaseNode_extend := PhaseNode_extend ph;
     PhaseNode_skip_when := Some c; PhaseNode_depends_on := PhaseNode_depends_on ph;
     PhaseNode_run_if := PhaseNode_run_if ph; PhaseNode_on_error := PhaseNode_on_error ph;
     PhaseNode_operations := PhaseNode_operations ph; PhaseNode_span := PhaseNode_span ph |}.

Definition set_depends_on (ph : PhaseNode) (l : list string) : PhaseNode :=
  {| PhaseNode_name := PhaseNode_name ph; PhaseNode_extend := PhaseNode_extend ph;
     PhaseNode_skip_when := PhaseNode_skip_when ph; PhaseNode_depends_on := Some l;
     PhaseNode_run_if := PhaseNode_run_if ph; PhaseNode_on_error := PhaseNode_on_error ph;
     PhaseNode_operations := PhaseNode_operations ph; PhaseNode_span := PhaseNode_span ph |}.

Definition set_run_if (ph : PhaseNode) (r : RunIfNode) : PhaseNode :=
  {| PhaseNode_name := PhaseNode_name ph; PhaseNode_extend := PhaseNode_extend ph;
     PhaseNode_skip_when := PhaseNode_skip_when ph; PhaseNode_depends_on := PhaseNode_depends_on ph;
     PhaseNode_run_if := Some r; PhaseNode_on_error := PhaseNode_on_error ph;
     PhaseNode_operations := PhaseNode_operations ph; PhaseNode_span := PhaseNode_span ph |}.

Definition set_on_error (ph : PhaseNode) (s : ErrorStrategyNode) : PhaseNode :=
  {| PhaseNode_name := PhaseNode_name ph; PhaseNode_extend := PhaseNode_extend ph;
     PhaseNode_skip_when := PhaseNode_skip_when ph; PhaseNode_depends_on := PhaseNode_depends_on ph;
     PhaseNode_run_if := PhaseNode_run_if ph; PhaseNode_on_error := Some s;
     PhaseNode_operations := PhaseNode_operations ph; PhaseNode_span := PhaseNode_span ph |}.

Definition build_run_if (child : Pair) : Built RunIfNode :=
  '(phase, inner) ← find_rule R_ident (into_inner child);
  '(t, _) ← find_rule R_run_if_trigger inner;
  trigger ← unwrap (RunIfTriggerNode_from_token (as_str t));
  Done {| RunIfNode_phase := as_str phase; RunIfNode_trigger := trigger |}.

Definition build_set_tag (child : Pair) : Built OperationNode :=
  '(q, inner) ← next (into_inner child);
  tag ← build_string q;
  '(v, _) ← next inner;
  val ← parse_set_tag_value v;
  Done (OperationNode_SetTag tag val).

Definition build_verify (child : Pair) : Built OperationNode :=
  '(m, _) ← next (into_inner child);
  let mode := as_str m in
  if bool_decide (mode = "quick") then Done (OperationNode_Verify VerifyMode_Quick)
  else if bool_decide (mode = "thorough") then Done (OperationNode_Verify VerifyMode_Thorough)
  else if bool_decide (mode = "hash") then Done (OperationNode_Verify VerifyMode_Hash)
  else fail_at m ("unknown verify mode: " +:+ mode).

(** The operation of a child of a phase; [None] for what is not one. *)
Definition build_operation (child : Pair) : option (Built OperationNode) :=
  match as_rule child with
  | R_container_op =>
      Some ('(q, _) ← next (into_inner child); Done (OperationNode_Container (as_str q)))
  | R_keep_op => Some (build_keep_remove child true)
  | R_remove_op => Some (build_keep_remove child false)
  | R_order_op =>
      Some ('(q, _) ← next (into_inner child); l ← build_list q; Done (OperationNode_Order l))
  | R_defaults_op => Some (build_defaults child)
  | R_actions_op => Some (build_actions child)
  | R_transcode_op => Some (build_transcode child)
  | R_synthesize_op => Some (build_synthesize child)
  | R_clear_tags_op => Some (Done OperationNode_ClearTags)
  | R_set_tag_op => Some (build_set_tag child)
  | R_delete_tag_op =>
      Some ('(q, _) ← next (into_inner child); s ← build_string q; Done (OperationNode_DeleteTag s))
  | R_when_block => Some (w ← build_when child; Done (OperationNode_When w))
  | R_rules_block => Some (build_rules child)
  | R_verify_op => Some (build_verify child)
  | _ => None
  end.

(** The body of the loop after the child of the item has been taken *)
Definition phase_child (ph : PhaseNode) (child : Pair) : Built PhaseNode :=
  match build_operation child with
  | Some op => node ← op; Done (emit_op ph (span_from_pair child) node)
  | None =>
      match as_rule child with
      | R_skip_when =>
          '(q, _) ← next (into_inner child); c ← build_condition q; Done (set_skip_when ph c)
      | R_depends_on =>
          '(q, _) ← next (into_inner child); l ← build_list q; Done (set_depends_on ph l)
      | R_run_if => r ← build_run_if child; Done (set_run_if ph r)
      | R_on_error => s ← build_on_error child; Done (set_on_error ph s)
      | other => fail_at child ("unexpected rule " +:+ Rule_debug other)
      end
  end.

Definition phase_step (ph : PhaseNode) (item : Pair) : Built PhaseNode :=
  if has_rule R_phase_extend item then Done (set_extend ph)
  else if has_rule R_phase_item item then
    '(child, _) ← next (into_inner item); phase_child ph child
  else Done ph.

Definition build_phase (p : Pair) : Built PhaseNode :=
  '(name, inner) ← next (into_inner p);
  loop phase_step
    {| PhaseNode_name := as_str name; PhaseNode_extend := false; PhaseNode_skip_when := None;
       PhaseNode_depends_on := None; PhaseNode_run_if := None; PhaseNode_on_error := None;
       PhaseNode_operations := []; PhaseNode_span := span_from_pair p |} inner.

(** ** The policy *)
Definition build_extends (p : Pair) : Built ExtendsSource :=
  '(q, _) ← next (into_inner p);
  source ← build_string q;
  Done (if starts_with "file://" source then ExtendsSource_File source
        else ExtendsSource_Bundled source).

Definition metadata_string_value (item : Pair) : Built string :=
  '(q, _) ← find_rule R_string (into_inner item); build_string q.

Definition metadata_list_value (item : Pair) : Built (list string) :=
  '(q, _) ← find_rule R_list (into_inner item); build_list q.

Definition metadata_step (m : MetadataNode) (item : Pair) : Built MetadataNode :=
  if negb (has_rule R_metadata_item item) then Done m
  else
    let keyword := leading_keyword (str_trim (as_str item)) in
    let '(Build_MetadataNode version author description requires_voom requires_tools fixtures span)
      := m in
    if bool_decide (keyword = "version") then
      v ← metadata_string_value item;
      Done (Build_MetadataNode (Some v) author description requires_voom requires_tools fixtures span)
    else if bool_decide (keyword = "author") then
      v ← metadata_string_value item;
      Done (Build_MetadataNode version (Some v) description requires_voom requires_tools fixtures span)
    else if bool_decide (keyword = "description") then
      v ← metadata_string_value item;
      Done (Build_MetadataNode version author (Some v) requires_voom requires_tools fixtures span)
    else if bool_decide (keyword = "requires_voom") then
      v ← metadata_string_value item;
      Done (Build_MetadataNode version author description (Some v) requires_tools fixtures span)
    else if bool_decide (keyword = "requires_tools") then
      l ← metadata_list_value item;
      Done (Build_MetadataNode version author description requires_voom (Some l) fixtures span)
    else if bool_decide (keyword = "test_fixtures") then
      l ← metadata_list_value item;
      Done (Build_MetadataNode version author description requires_voom requires_tools (Some l) span)
    else fail_at item ("unexpected metadata keyword: " +:+ keyword).

Definition build_metadata (p : Pair) : Built MetadataNode :=
  loop metadata_step (Build_MetadataNode None None None None None None (span_from_pair p))
    (into_inner p).

Definition config_step (c : ConfigNode) (item : Pair) : Built ConfigNode :=
  if negb (has_rule R_config_item item) then Done c
  else
    let keyword := leading_keyword (str_trim (as_str item)) in
    let inner := into_inner item in
    let '(Build_ConfigNode audio subtitle on_error patterns backups span) := c in
    if bool_decide (keyword = "languages") then
      '(target, inner) ← find_rule R_lang_target inner;
      '(q, _) ← find_rule R_list inner;
      values ← build_list q;
      Done (if bool_decide (as_str target = "audio")
            then Build_ConfigNode values subtitle on_error patterns backups span
            else Build_ConfigNode audio values on_error patterns backups span)
    else if bool_decide (keyword = "on_error") then
      '(q, _) ← find_rule R_ident inner;
      s ← parse_on_error_token q;
      Done (Build_ConfigNode audio subtitle (Some s) patterns backups span)
    else if bool_decide (keyword = "commentary_patterns") then
      '(q, _) ← find_rule R_list inner;
      l ← build_list q;
      Done (Build_ConfigNode audio subtitle on_error l backups span)
    else if bool_decide (keyword = "keep_backups") then
      '(q, _) ← find_rule R_boolean inner;
      Done (Build_ConfigNode audio subtitle on_error patterns
              (Some (bool_decide (as_str q = "true"))) span)
    else fail_at item ("unexpected config keyword: " +:+ keyword).

Definition build_config (p : Pair) : Built ConfigNode :=
  loop config_step (Build_ConfigNode [] [] None [] None (span_from_pair p)) (into_inner p).

Definition policy_step (ast : PolicyAst) (item : Pair) : Built PolicyAst :=
  let '(Build_PolicyAst name extends metadata config phases span) := ast in
  match as_rule item with
  | R_extends_clause =>
      e ← build_extends item; Done (Build_PolicyAst name (Some e) metadata config phases span)
  | R_metadata =>
      m ← build_metadata item; Done (Build_PolicyAst name extends (Some m) config phases span)
  | R_config =>
      c ← build_config item; Done (Build_PolicyAst name extends metadata (Some c) phases span)
  | R_phase =>
      ph ← build_phase item; Done (Build_PolicyAst name extends metadata config (phases ++ [ph]) span)
  | R_EOI => Done ast
  | other => fail_at item ("unexpected rule in policy: " +:+ Rule_debug other)
  end.

Definition build_policy (p : Pair) : Built PolicyAst :=
  '(q, inner) ← next (into_inner p);
  name ← build_string q;
  loop policy_step (Build_PolicyAst name None None None [] (span_from_pair p)) inner.

Definition MAX_POLICY_SIZE : N := 1024 * 1024.

Definition parse_policy `{Pest} (input : string) : Built PolicyAst :=
  let len := N.of_nat (String.length input) in
  if (MAX_POLICY_SIZE <? len)%N then
    Fails (DslError_parse 1 1
      ("policy too large: " +:+ pretty len +:+ " bytes (max " +:+ pretty MAX_POLICY_SIZE +:+ ")"))
  else
    match pest_parse input with
    | Err e => Fails (DslError_parse (PestError_line e) (PestError_col e) (PestError_text e))
    | Ok pairs => '(p, _) ← next pairs; build_policy p
    end.
