(* ===== verification/ParserFacts.v ===== *)
(** * Facts about the parser

    What a derivation says about the children and the text of a pair, what the
    leading keyword of a text is, and that the builders neither panic nor yield
    unknown targets on the pairs of a derivation in which no pair is [misread]. *)
From S2P Require Import Prelude Media Ast Compiler CompilerFacts Formatter Grammar Parser.

(** ** Derivations *)

(** The pair comes from a derivation of its rule. *)
Definition grown (q : Pair) : Prop := ∃ s, derives (Sub (as_rule q)) s (as_str q) [q].

Lemma derives_grown e s t ps : derives e s t ps → Forall grown ps.
Proof.
  induction 1; try (by constructor); try (by apply Forall_app); try done.
  - constructor; [|done]. exists s. eauto with voom.
  - constructor; [|done]. exists s. eauto with voom.
Qed.

Lemma grown_inner q e :
  grown q → grammar (as_rule q) = Some e → ∃ s, derives e s (as_str q) (into_inner q).
Proof.
  intros [s Hd] Hr. exists s. inversion Hd; subst; simpl in *; congruence.
Qed.

Lemma grown_token q : grown q → grammar (as_rule q) = None →
  into_inner q = [] ∧ ∃ s rest, token (as_rule q) s = Some (as_str q, rest).
Proof. intros [s Hd] Hr. inversion Hd; subst; simpl in *; [eauto|congruence]. Qed.

(** One pair of a rule *)
Definition one (r : Rule) (t : string) (ps : list Pair) : Prop :=
  ∃ q, ps = [q] ∧ as_rule q = r ∧ as_str q = t ∧ grown q.

Lemma derives_Sub r s t ps : derives (Sub r) s t ps → one r t ps.
Proof.
  intros Hd. assert (Forall grown ps) as Hg by by eapply derives_grown.
  inversion Hd; subst; eexists; split_and!; try done; by inversion Hg.
Qed.

Lemma derives_Lit l s t ps : derives (Lit l) s t ps → t = l ∧ ps = [] ∧ ∃ r, s = l +:+ r.
Proof. inversion 1; subst. eauto. Qed.

Lemma derives_Seq a b s t ps : derives (Seq a b) s t ps →
  ∃ t1 p1 w s2 t2 p2, t = t1 +:+ w +:+ t2 ∧ ps = p1 ++ p2 ∧ blank w ∧
    derives a s t1 p1 ∧ derives b s2 t2 p2.
Proof. inversion 1; subst. eauto 12. Qed.

Lemma derives_Alt a b s t ps : derives (Alt a b) s t ps → derives a s t ps ∨ derives b s t ps.
Proof. inversion 1; subst; eauto. Qed.

Lemma derives_Opt a s t ps : derives (Opt a) s t ps → t = "" ∧ ps = [] ∨ derives a s t ps.
Proof. inversion 1; subst; eauto. Qed.

(** The pairs of a repetition are those of its turns. *)
Lemma derives_Star (P : Pair → Prop) a s t ps :
  derives (Star a) s t ps → (∀ s t ps, derives a s t ps → Forall P ps) → Forall P ps.
Proof.
  intros Hd HP. remember (Star a) as e eqn:He. revert He.
  induction Hd; intros [= ->]; [constructor|]. apply Forall_app. eauto.
Qed.

Lemma derives_Star_Sub r s t ps :
  derives (Star (Sub r)) s t ps → Forall (λ q, as_rule q = r) ps.
Proof.
  intros Hd. eapply derives_Star; [done|]. clear. intros s t ps (q & -> & Hr & _)%derives_Sub.
  by repeat constructor.
Qed.

Lemma token_ident_some c s : ident_start c = true → ∃ x, token_ident (String c s) = Some x.
Proof. intros Hc. simpl. rewrite Hc. destruct (span_while ident_char s). eauto. Qed.

Lemma ident_not_rejected line_col n off r : peg line_col n (Sub R_ident) off ("inherit" +:+ r) ≠ NoMatch.
Proof.
  destruct (token_ident_some "i" ("nherit" +:+ r)) as [[a b] Ht]; [done|].
  change (String "i" ("nherit" +:+ r)) with ("inherit" +:+ r) in Ht.
  destruct n; [done|]. cbn. by rewrite Ht.
Qed.

(** A language has a child: an identifier is matched first. *)
Lemma language_child s t ps : derives (Alt (Sub R_ident) (Lit "inherit")) s t ps → one R_ident t ps.
Proof.
  inversion 1; subst; [by eapply derives_Sub|].
  match goal with H : derives (Lit _) _ _ _ |- _ => apply derives_Lit in H as (_ & _ & r & ->) end.
  exfalso. by eapply ident_not_rejected.
Qed.

(** Takes a derivation of a closed expression apart. *)
Ltac inv_derives :=
  repeat match goal with
  | H : derives (Lit _) _ _ _ |- _ => apply derives_Lit in H as (-> & -> & _)
  | H : derives (Sub _) _ _ _ |- _ =>
      let q := fresh "q" in let Hr := fresh "Hrule" in let Hg := fresh "Hgrown" in
      apply derives_Sub in H as (q & -> & Hr & <- & Hg)
  | H : derives (Seq _ _) _ _ _ |- _ =>
      let Hb := fresh "Hblank" in
      apply derives_Seq in H as (? & ? & ? & ? & ? & ? & -> & -> & Hb & ? & ?)
  | H : derives (Alt (Sub R_ident) (Lit "inherit")) _ _ _ |- _ =>
      let q := fresh "q" in let Hr := fresh "Hrule" in let Hg := fresh "Hgrown" in
      apply language_child in H as (q & -> & Hr & <- & Hg)
  | H : derives (Alt _ _) _ _ _ |- _ => apply derives_Alt in H as [?|?]
  | H : derives (Opt _) _ _ _ |- _ => apply derives_Opt in H as [[-> ->]|?]
  | H : derives (keyed _ _) _ _ _ |- _ => unfold keyed in H
  | H : derives (braces _) _ _ _ |- _ => unfold braces in H
  | H : derives (parens _) _ _ _ |- _ => unfold parens in H
  | H : derives (separated _ _) _ _ _ |- _ => unfold separated in H
  | H : derives (Plus _) _ _ _ |- _ => unfold Plus in H
  end.

(** ** Text *)
Fixpoint all_bytes (f : ascii → bool) (s : string) : bool :=
  match s with EmptyString => true | String c s => f c && all_bytes f s end.

(** Printable ASCII: no byte of a whitespace character *)
Definition solid (c : ascii) : bool := byte_in 33 126 c.

Definition void (c : ascii) : bool := negb (solid c).

Lemma all_bytes_app f a b : all_bytes f (a +:+ b) = all_bytes f a && all_bytes f b.
Proof. induction a as [|c a IH]; [done|]. simpl. by rewrite IH, andb_assoc. Qed.

Lemma starts_with_left f w a k :
  all_bytes (λ c, negb (f c)) w = true → all_bytes f k = true →
  starts_with w (a +:+ k) = true → starts_with w a = true.
Proof.
  revert a; induction w as [|c w IH]; intros a Hw Hk; [by destruct a|].
  simpl in Hw. apply andb_prop in Hw as [Hc Hw]. destruct a as [|d a]; cbn.
  - destruct k as [|d k]; [done|]. simpl in Hk. apply andb_prop in Hk as [Hd _].
    intros [Heq%bool_decide_eq_true _]%andb_prop. subst d. by rewrite Hd in Hc.
  - intros [Heq Hs]%andb_prop. rewrite Heq. by apply IH.
Qed.

Lemma starts_with_split w s : starts_with w s = true → ∃ r, s = w +:+ r.
Proof.
  revert s; induction w as [|c w IH]; intros [|d s]; try done; [by eexists..|]. cbn [starts_with].
  intros [->%bool_decide_eq_true [r ->]%IH]%andb_prop. by exists r.
Qed.

Lemma substring_drop w r m : String.length r ≤ m → String.substring (String.length w) m (w +:+ r) = r.
Proof.
  intros Hm. induction w as [|c w IH]; [|done]. simpl. revert m Hm.
  induction r as [|c r IH]; intros [|m] Hm; simpl in *; try done; [lia|]. f_equal. apply IH. lia.
Qed.

Lemma trim_go_keeps fuel ws a k :
  Forall (λ w, all_bytes void w = true) ws → all_bytes solid k = true →
  ∃ b, trim_start_go fuel ws (a +:+ k) = b +:+ k ∧ ∃ c, a = c +:+ b.
Proof.
  intros Hws Hk. revert a; induction fuel as [|fuel IH]; intros a; simpl; [by exists a; split; [|exists ""]|].
  destruct (List.find _ ws) as [w|] eqn:Hf; [|by exists a; split; [|exists ""]].
  apply find_some in Hf as [Hin Hs]. rewrite Forall_forall in Hws.
  assert (all_bytes void w = true) as Hv by by apply Hws, list_elem_of_In.
  apply (starts_with_left solid) in Hs as [r ->]%starts_with_split; [|done..].
  rewrite string_app_assoc, substring_drop by (rewrite !string_length_app; lia).
  destruct (IH r) as (b & Hb & c & ->). exists b. split; [done|].
  exists (w +:+ c). by rewrite string_app_assoc.
Qed.

Lemma string_of_list_app a b :
  String.string_of_list_ascii (a ++ b) = String.string_of_list_ascii a +:+ String.string_of_list_ascii b.
Proof. induction a as [|c a IH]; [done|]. by apply (f_equal (String c)) in IH. Qed.

Lemma str_rev_app a b : str_rev (a +:+ b) = str_rev b +:+ str_rev a.
Proof. unfold str_rev. by rewrite list_ascii_app, reverse_app, string_of_list_app. Qed.

Lemma str_rev_rev s : str_rev (str_rev s) = s.
Proof.
  unfold str_rev. rewrite String.list_ascii_of_string_of_list_ascii, reverse_involutive.
  apply String.string_of_list_ascii_of_string.
Qed.

Lemma all_bytes_rev f s : all_bytes f (str_rev s) = all_bytes f s.
Proof.
  induction s as [|c s IH]; [done|]. change (String c s) with (String c "" +:+ s).
  rewrite str_rev_app, !all_bytes_app, IH. simpl. by rewrite andb_true_r, andb_comm.
Qed.

Lemma whitespace_void : Forall (λ w, all_bytes void w = true) whitespace_list.
Proof. by repeat constructor. Qed.

Lemma whitespace_rev_void : Forall (λ w, all_bytes void w = true) (str_rev <$> whitespace_list).
Proof. by repeat constructor. Qed.

(** Nothing is trimmed from a text that starts with a solid byte. *)
Lemma find_whitespace_None c s :
  solid c = true → List.find (λ w, starts_with w (String c s)) whitespace_list = None.
Proof.
  intros Hc. destruct (List.find _ _) as [w|] eqn:Hf; [|done]. exfalso. revert Hf.
  intros [Hw%list_elem_of_In Hs]%find_some.
  pose proof whitespace_void as Hv. rewrite Forall_forall in Hv. specialize (Hv w Hw).
  destruct w as [|d w].
  { apply list_elem_of_In in Hw. by repeat destruct Hw as [Hw|Hw]. }
  simpl in *. apply andb_prop in Hv as [Hd _]. apply andb_prop in Hs as [->%bool_decide_eq_true _].
  unfold void in Hd. by rewrite Hc in Hd.
Qed.

Lemma trim_start_solid n c s :
  solid c = true → trim_start_go n whitespace_list (String c s) = String c s.
Proof. intros Hc. destruct n; [done|]. cbn [trim_start_go]. by rewrite find_whitespace_None. Qed.

Lemma trim_word c k r :
  all_bytes solid (String c k) = true → ∃ r', str_trim (String c k +:+ r) = String c k +:+ r'.
Proof.
  intros Hk. pose proof Hk as Hc. simpl in Hc. apply andb_prop in Hc as [Hc _].
  assert (∀ n, trim_start_go n whitespace_list (String c k +:+ r) = String c k +:+ r) as Hs.
  { intros n. by apply (trim_start_solid n c (k +:+ r)). }
  unfold str_trim. rewrite Hs, str_rev_app.
  destruct (trim_go_keeps (String.length (String c k +:+ r)) (str_rev <$> whitespace_list)
    (str_rev r) (str_rev (String c k))) as (b & -> & _).
  - apply whitespace_rev_void.
  - by rewrite all_bytes_rev.
  - exists (str_rev b). by rewrite str_rev_app, str_rev_rev.
Qed.

(** The bytes that do not end a keyword *)
Definition keyword_byte (c : ascii) : bool := solid c && negb (is_byte 58 c) && negb (is_byte 40 c).

Lemma leading_keyword_word k r :
  all_bytes keyword_byte k = true → leading_keyword (k +:+ r) = k +:+ leading_keyword r.
Proof.
  induction k as [|c k IH]; [done|]. intros [Hc Hk]%andb_prop. change (String c k +:+ r) with (String c (k +:+ r)).
  cbn [leading_keyword]. unfold keyword_byte in Hc. apply andb_prop in Hc as [[Hs H1]%andb_prop H2].
  assert (at_whitespace (String c (k +:+ r)) = false) as ->.
  { unfold at_whitespace. apply not_true_iff_false. intros (w & Hw & Ht)%existsb_exists.
    pose proof (find_whitespace_None c (k +:+ r) Hs) as Hn. by rewrite (find_none _ _ Hn w Hw) in Ht. }
  apply negb_true_iff in H1, H2. rewrite H1, H2. cbn [orb]. rewrite IH by done. done.
Qed.

(** The keyword of a text that starts with a word starts with the word. *)
Lemma keyword_of c k r : all_bytes keyword_byte (String c k) = true →
  ∃ x, leading_keyword (str_trim (String c k +:+ r)) = String c k +:+ x.
Proof.
  intros Hk. destruct (trim_word c k r) as [r' ->].
  - revert Hk. generalize (String c k). intros w. induction w as [|d w IH]; [done|]. simpl.
    intros [[[-> _]%andb_prop _]%andb_prop ?%IH]%andb_prop. done.
  - exists (leading_keyword r'). by apply leading_keyword_word.
Qed.

(** ** Pairs that are read as they are meant

    The parser tells the alternatives of some rules apart by their text, and takes
    some texts for another alternative: [track] that is not followed by a space, a
    field whose path starts with [exists] or [count] and a blank, and targets that
    are glued to a comment or to the next word. *)
Definition first_word (s : string) : string :=
  match next_word s with Some (w, _) => w | None => "" end.

Definition second_word (s : string) : string :=
  match next_word s with Some (_, rest) => first_word rest | None => "" end.

Definition misread (q : Pair) : bool :=
  let text := str_trim (as_str q) in
  match as_rule q with
  | R_track_query =>
      starts_with "track" text && negb (starts_with "track " text || bool_decide (text = "track"))
  | R_condition_atom =>
      match into_inner q with
      | first :: _ => has_rule R_field_access first && str_in ["exists"; "count"] (leading_keyword text)
      | [] => false
      end
  | R_actions_op => negb (str_in ["audio"; "subtitle"; "video"] (first_word (as_str q)))
  | R_transcode_op => negb (str_in ["video"; "audio"] (second_word (as_str q)))
  | _ => false
  end.

Fixpoint no_misread (q : Pair) : bool :=
  match q with mkPair _ _ _ _ inner => negb (misread q) && forallb no_misread inner end.

Definition sound (q : Pair) : Prop := grown q ∧ no_misread q = true.

Create HintDb parser.

Lemma no_misread_inner q :
  no_misread q = true → misread q = false ∧ Forall (λ p, no_misread p = true) (into_inner q).
Proof.
  destruct q. cbn [no_misread into_inner]. intros [Hm Hf]%andb_prop. split; [by apply negb_true_iff|].
  apply Forall_forall. by apply forallb_elem_of.
Qed.

(** A pair of a composed rule: its text, its children and their derivation. *)
Lemma sound_inner q e : sound q → grammar (as_rule q) = Some e →
  misread q = false ∧
  ∃ s t ps, as_str q = t ∧ into_inner q = ps ∧ derives e s t ps ∧ Forall sound ps.
Proof.
  intros [Hg [Hm Hn]%no_misread_inner] Hr. split; [done|].
  destruct (grown_inner q e Hg Hr) as [s Hd]. exists s. do 2 eexists. split_and!; [done..|].
  apply Forall_and. split; [|done]. by eapply derives_grown.
Qed.

Lemma sound_children q : sound q → Forall sound (into_inner q).
Proof.
  intros Hq. destruct (grammar (as_rule q)) as [e|] eqn:Hr.
  - destruct (sound_inner q e Hq Hr) as (_ & s & t & ps & _ & -> & _ & ?). done.
  - destruct Hq as [Hg _]. destruct (grown_token q Hg Hr) as [-> _]. constructor.
Qed.

(** ** Builders that do not panic *)
Definition builds {A} (P : A → Prop) (b : Built A) : Prop :=
  match b with Done a => P a | Fails _ => True | Panics => False end.

Abbreviation returns := (builds (λ _, True)).

Lemma builds_bind {A B} (P : A → Prop) (Q : B → Prop) b f :
  builds P b → (∀ a, P a → builds Q (f a)) → builds Q (mbind f b).
Proof. destruct b; simpl; auto. Qed.

Lemma returns_bind {A B} (Q : B → Prop) (b : Built A) f :
  returns b → (∀ a, builds Q (f a)) → builds Q (mbind f b).
Proof. destruct b; simpl; auto. Qed.

Lemma builds_weaken {A} (P Q : A → Prop) b : builds P b → (∀ a, P a → Q a) → builds Q b.
Proof. destruct b; simpl; auto. Qed.

Lemma builds_fail {A} (P : A → Prop) p m : builds P (fail_at p m).
Proof. done. Qed.

Lemma builds_collect {A B} (P : B → Prop) (f : A → Built B) l :
  Forall (λ x, builds P (f x)) l → builds (Forall P) (collect f l).
Proof.
  induction 1 as [|x l Hx _ IH]; simpl; [constructor|].
  eapply builds_bind; [done|]. intros y Hy. eapply builds_bind; [done|]. intros ys Hys.
  by constructor.
Qed.

Lemma returns_collect {A B} (f : A → Built B) l :
  Forall (λ x, returns (f x)) l → returns (collect f l).
Proof. intros Hl. by eapply builds_weaken; [apply builds_collect|]. Qed.

Lemma builds_loop {A B} (I : B → Prop) (f : B → A → Built B) acc l :
  I acc → Forall (λ x, ∀ acc, I acc → builds I (f acc x)) l → builds I (loop f acc l).
Proof.
  intros Hacc Hl. revert acc Hacc. induction Hl as [|x l Hx _ IH]; intros acc Hacc; [done|].
  simpl. eapply builds_bind; [by apply Hx|]. intros a Ha. by apply IH.
Qed.

Lemma Forall_filter_rule (P : Pair → Prop) r l :
  Forall (λ q, as_rule q = r → P q) l → Forall P (filter (λ q, as_rule q = r) l).
Proof.
  rewrite !Forall_forall. intros Hl q [Hr Hq]%list_elem_of_filter. by apply Hl.
Qed.

Lemma Pair_nested_ind (P : Pair → Prop) :
  (∀ p, Forall P (into_inner p) → P p) → ∀ p, P p.
Proof.
  intros HP. fix IH 1. intros [r t off pos inner]. apply HP. simpl.
  induction inner; constructor; [apply IH|done].
Qed.

(** The children of a sound pair with the rule of hypothesis [Hr]. *)
Ltac children q Hsound :=
  let Hm := fresh "Hmisread" in let s := fresh "s" in let t := fresh "t" in
  let ps := fresh "ps" in let Ht := fresh "Htext" in let Hi := fresh "Hinner" in
  let Hd := fresh "Hd" in let Ha := fresh "Hall" in
  match goal with Hr : as_rule q = ?r |- _ =>
    match eval cbn in (grammar r) with Some ?e =>
      destruct (sound_inner q e Hsound (eq_trans (f_equal grammar Hr) eq_refl))
        as (Hm & s & t & ps & Ht & Hi & Hd & Ha);
      inv_derives; cbn [app] in Hi, Ha; decompose_Forall_hyps
    end
  end.

(** ** Tokens *)
Lemma build_string_ok q : sound q → as_rule q = R_string → returns (build_string q).
Proof.
  intros [Hg _] Hr. destruct (grown_token q Hg) as (_ & s & rest & Ht); [by rewrite Hr|].
  rewrite Hr in Ht. unfold build_string. case_bool_decide as Hq; [|done]. exfalso. rewrite Hq in Ht.
  destruct s as [|c s]; [done|]. simpl in Ht. destruct (is_byte 34 c); [|done].
  destruct (string_tail s) as [[a b]|] eqn:Hs; [|done]. injection Ht as _ -> _.
  destruct s as [|d s]; [done|]. simpl in Hs. destruct (is_byte 34 d); [done|].
  destruct (is_byte 92 d); [|by destruct (string_tail s) as [[]|]].
  destruct s as [|d' s]; [done|]. destruct (is_byte 34 d' || is_byte 92 d'); [|done].
  by destruct (string_tail s) as [[]|].
Qed.

Lemma build_compare_op_ok q : sound q → as_rule q = R_compare_op → returns (build_compare_op q).
Proof. intros Hq Hr. children q Hq; unfold build_compare_op; by rewrite Htext. Qed.

Lemma build_value_value q : as_rule q = R_value →
  build_value q = match into_inner q with q :: _ => build_value q | [] => Panics end.
Proof. destruct q. by intros [= ->]. Qed.

Lemma build_value_list q : as_rule q = R_list →
  build_value q = vs ← collect build_value (into_inner q); Done (Value_List vs).
Proof. destruct q. by intros [= ->]. Qed.

Lemma build_value_string q : as_rule q = R_string →
  build_value q = s ← build_string q; Done (Value_String s).
Proof. destruct q. by intros [= ->]. Qed.

Lemma build_value_ok q : sound q → returns (build_value q).
Proof.
  induction q as [q IH] using Pair_nested_ind. intros Hq.
  destruct (decide (as_rule q = R_value)) as [Hr|Hv]; [|destruct (decide (as_rule q = R_list)) as [Hr|Hl];
    [|destruct (decide (as_rule q = R_string)) as [Hr|Hs]]].
  - rewrite build_value_value by done. children q Hq; rewrite Hinner in *; decompose_Forall_hyps; auto.
  - rewrite build_value_list by done. apply returns_bind; [|done]. apply returns_collect.
    apply sound_children in Hq. rewrite Forall_forall in *. auto.
  - rewrite build_value_string by done. apply returns_bind; [|done]. by apply build_string_ok.
  - destruct q as [[] ? ? ? ?]; done.
Qed.

(** The items of a list are values. *)
Lemma list_items q : sound q → as_rule q = R_list →
  Forall (λ v, sound v ∧ as_rule v = R_value) (into_inner q).
Proof.
  intros Hq Hr. pose proof (sound_children q Hq) as Ht. apply Forall_and. split; [done|].
  assert (∀ s t ps, derives (Star (Seq (Lit ",") (Sub R_value))) s t ps →
    Forall (λ v, as_rule v = R_value) ps) as Hs.
  { intros s t ps Hd. eapply derives_Star; [done|]. clear. intros. inv_derives. by repeat constructor. }
  children q Hq; rewrite Hinner; 
    repeat first [done | by eapply Hs | apply Forall_cons; split | apply Forall_app; split | constructor].
Qed.

Lemma build_list_ok q : sound q → as_rule q = R_list → returns (build_list q).
Proof.
  intros Hq Hr. unfold build_list. apply returns_collect. eapply Forall_impl; [by apply list_items|].
  intros v [Hv Hrv]. children v Hv; rewrite Hinner; cbn; unfold has_rule;
    case_bool_decide; try done; by apply build_string_ok.
Qed.

#[export] Hint Resolve build_string_ok build_compare_op_ok build_value_ok build_list_ok : parser.

(** ** Filters *)

(** The keyword and the start of a text that begins with a word *)
Lemma text_of_word c k r : all_bytes keyword_byte (String c k) = true →
  ∃ x r', leading_keyword (str_trim (String c k +:+ r)) = String c k +:+ x ∧
          str_trim (String c k +:+ r) = String c k +:+ r'.
Proof.
  intros Hk. destruct (keyword_of c k r Hk) as [x Hx]. destruct (trim_word c k r) as [r' Hr'].
  - revert Hk. generalize (String c k). intros w. induction w as [|d w IH]; [done|]. simpl.
    intros [[[-> _]%andb_prop _]%andb_prop ?%IH]%andb_prop. done.
  - eauto.
Qed.

(** Rewrites the keyword of a pair whose text starts with a literal, and decides
    the comparisons of the keyword with other words. *)
Ltac decide_words :=
  repeat match goal with
  | |- context [bool_decide ?P] =>
      let E := fresh "Eword" in
      destruct (decide P) as [E|E];
      [rewrite (bool_decide_true P E); try (exfalso; discriminate E);
       try (exfalso; destruct E as [E|E]; discriminate E)
      |rewrite (bool_decide_false P E)]
  end.

Ltac keyword p :=
  match goal with
  | H : as_str p = String ?c ?k +:+ ?r |- _ =>
      let x := fresh "x" in let r' := fresh "r" in let Hx := fresh "Hkey" in let Hr := fresh "Htrim" in
      destruct (text_of_word c k r eq_refl) as (x & r' & Hx & Hr);
      rewrite <- H in Hx, Hr; rewrite ?Hx
  end.

Lemma build_list_or_compare_list p q kind :
  sound q → as_rule q = R_list → returns (build_list_or_compare_filter p [q] kind).
Proof.
  intros Hq Hr. cbn. unfold has_rule. rewrite bool_decide_true by done.
  apply returns_bind; [|done]. auto with parser.
Qed.

Lemma build_list_or_compare_ops p o v kind :
  sound o → as_rule o = R_compare_op → sound v → as_rule v = R_field_access ∨ as_rule v = R_value →
  returns (build_list_or_compare_filter p [o; v] kind).
Proof.
  intros Ho Hro Hv Hrv. cbn. unfold has_rule. rewrite Hro, bool_decide_false by done.
  apply returns_bind; [auto with parser|]. intros op. cbn.
  destruct Hrv as [Hr|Hr]; rewrite Hr; cbn; [by destruct op|].
  children v Hv; rewrite Hinner; cbn; by destruct op.
Qed.

(** A text in parentheses has no keyword. *)
Lemma text_of_paren r : ∃ r', str_trim (String "(" "" +:+ r) = String "(" r' ∧
  leading_keyword (str_trim (String "(" "" +:+ r)) = "".
Proof. destruct (trim_word "(" "" r) as [r' ->]; [done|]. by exists r'. Qed.

Ltac paren p :=
  match goal with
  | H : as_str p = String "(" "" +:+ ?r |- _ =>
      let r' := fresh "r" in let Ht := fresh "Htrim" in let Hk := fresh "Hkey" in
      destruct (text_of_paren r) as (r' & Ht & Hk); rewrite <- H in Ht, Hk; rewrite ?Hk
  end.

Lemma filter_atom_cases p : sound p → as_rule p = R_filter_atom →
  (∃ b, filter_keyword p = Some b ∧ returns b) ∨
  (filter_keyword p = None ∧ ∃ q, into_inner p = [q] ∧ as_rule q = R_filter_expr ∧ sound q) ∨
  (filter_keyword p = None ∧ starts_with "(" (str_trim (as_str p)) = false).
Proof.
  intros Hp Hr. children p Hp; unfold filter_keyword; rewrite Hinner.
  all: try (keyword p; decide_words; [left; eexists; split; [done|]|right; right; by rewrite Htrim]).
  all: try (apply returns_bind; [|done]; by eauto using build_list_or_compare_list, build_list_or_compare_ops).
  all: try (rewrite Htext; left; by eexists).
  - cbn. apply returns_bind; [auto with parser|done].
  - cbn. apply returns_bind; [auto with parser|done].
  - cbn. apply returns_bind; [auto with parser|done].
  - right. left. paren p. eauto.
Qed.

(** *** The mutual recursion *)
Lemma build_filter_depth_eq q d : build_filter_depth q d =
  match into_inner q with q :: _ => build_filter_or q d | [] => Panics end.
Proof. by destruct q. Qed.

Lemma build_filter_or_eq q d : build_filter_or q d =
  match into_inner q with
  | [q] => build_filter_and q d
  | _ => fs ← collect (λ q, build_filter_and q d) (into_inner q); Done (FilterNode_Or fs)
  end.
Proof. by destruct q as [? ? ? ? [|? []]]. Qed.

Lemma build_filter_and_eq q d : build_filter_and q d =
  match into_inner q with
  | [q] => build_filter_not q d
  | _ => fs ← collect (λ q, build_filter_not q d) (into_inner q); Done (FilterNode_And fs)
  end.
Proof. by destruct q as [? ? ? ? [|? []]]. Qed.

Lemma build_filter_not_eq q d : build_filter_not q d =
  match into_inner q with
  | q' :: _ =>
      if bool_decide (leading_keyword (str_trim (as_str q)) = "not")
      then f ← build_filter_atom q' d; Done (FilterNode_Not f) else build_filter_atom q' d
  | [] => Panics
  end.
Proof. by destruct q. Qed.

Lemma build_filter_atom_eq q d : build_filter_atom q d =
  match filter_keyword q with
  | Some b => b
  | None =>
      if starts_with "(" (str_trim (as_str q)) then
        if (MAX_NESTING_DEPTH <? d + 1)%nat then
          fail_parse_at q ("filter nesting depth exceeds maximum of " +:+ pretty MAX_NESTING_DEPTH)
        else match into_inner q with q' :: _ => build_filter_depth q' (d + 1) | [] => Panics end
      else fail_at q ("unexpected filter: " +:+ str_trim (as_str q))
  end.
Proof. by destruct q. Qed.

(** The parts of a rule [a ~ (sep ~ a)*] *)
Lemma separated_parts sep r s t ps :
  derives (separated sep (Sub r)) s t ps → Forall (λ q, as_rule q = r) ps ∧ ps ≠ [].
Proof.
  intros Hd. inv_derives. split; [|done]. constructor; [done|]. cbn. eapply derives_Star; [done|].
  clear. intros. inv_derives. by repeat constructor.
Qed.

Lemma separated_children q sep r : sound q → grammar (as_rule q) = Some (separated sep (Sub r)) →
  Forall (λ c, sound c ∧ as_rule c = r) (into_inner q).
Proof.
  intros Hq Hr. destruct (sound_inner q _ Hq Hr) as (_ & s & t & ps & _ & -> & Hd & Hall).
  apply Forall_and. split; [done|]. by apply separated_parts in Hd as [? _].
Qed.

(** One part, or a node of all parts *)
Lemma builds_parts {A} (P : A → Prop) (f : Pair → Built A) (g : list A → A) inner :
  Forall (λ q, builds P (f q)) inner → (∀ xs, Forall P xs → P (g xs)) →
  builds P (match inner with [q] => f q | _ => xs ← collect f inner; Done (g xs) end).
Proof.
  intros Hf Hg. assert (builds P (xs ← collect f inner; Done (g xs))) as Hc.
  { eapply builds_bind; [by apply builds_collect|exact Hg]. }
  destruct inner as [|q [|q' inner]]; [exact Hc| |exact Hc]. by inversion Hf.
Qed.

Definition filter_ok_at (q : Pair) : Prop := ∀ d,
  (as_rule q = R_filter_expr → returns (build_filter_depth q d)) ∧
  (as_rule q = R_filter_or → returns (build_filter_or q d)) ∧
  (as_rule q = R_filter_and → returns (build_filter_and q d)) ∧
  (as_rule q = R_filter_not → returns (build_filter_not q d)) ∧
  (as_rule q = R_filter_atom → returns (build_filter_atom q d)).

Lemma filters_ok q : sound q → filter_ok_at q.
Proof.
  induction q as [q IH] using Pair_nested_ind. intros Hq.
  assert (Forall filter_ok_at (into_inner q)) as Hin.
  { apply sound_children in Hq. rewrite Forall_forall in *. auto. }
  clear IH. intros d. split_and!; intros Hr.
  - rewrite build_filter_depth_eq. children q Hq. rewrite Hinner in *. decompose_Forall_hyps.
    match goal with H : filter_ok_at _ |- _ => by apply (H d) end.
  - rewrite build_filter_or_eq. apply (builds_parts _ (λ q, _ q d)); [|done].
    eapply Forall_impl; [apply Forall_and; split; [exact Hin|]|].
    + eapply (separated_children q "or" R_filter_and); [done|by rewrite Hr].
    + intros c [Hc [_ ?]]. by apply (Hc d).
  - rewrite build_filter_and_eq. apply (builds_parts _ (λ q, _ q d)); [|done].
    eapply Forall_impl; [apply Forall_and; split; [exact Hin|]|].
    + eapply (separated_children q "and" R_filter_not); [done|by rewrite Hr].
    + intros c [Hc [_ ?]]. by apply (Hc d).
  - rewrite build_filter_not_eq. children q Hq; rewrite Hinner in *; decompose_Forall_hyps;
      match goal with H : filter_ok_at ?c |- _ =>
        assert (returns (build_filter_atom c d)) by by apply (H d) end;
      case_bool_decide; try done; by apply returns_bind.
  - rewrite build_filter_atom_eq.
    destruct (filter_atom_cases q Hq Hr) as [(b & -> & Hb)|[[-> (c & Hc & Hrc & _)]|[-> ->]]]; [done| |done].
    rewrite Hc in *. inversion Hin as [|? ? Hoc]; subst. repeat case_match; try done.
    by apply (Hoc (d + 1)).
Qed.

Lemma build_filter_ok q : sound q → as_rule q = R_filter_expr → returns (build_filter q).
Proof. intros Hq. by apply (filters_ok q Hq 0). Qed.

#[export] Hint Resolve build_filter_ok : parser.

(** ** Conditions *)
Lemma track_target_text q : sound q → as_rule q = R_track_target →
  as_str q ∈ ["audio"; "subtitles"; "subtitle"; "attachments"; "attachment"; "video"].
Proof. intros Hq Hr. children q Hq; rewrite Htext; set_solver. Qed.

Lemma track_target_ok q : sound q → as_rule q = R_track_target → target_ok (as_str q) = true.
Proof.
  intros Hq Hr. pose proof (track_target_text q Hq Hr) as Ht. rewrite !elem_of_cons, elem_of_nil in Ht.
  by destruct_or? Ht; rewrite ?Ht.
Qed.

#[export] Hint Resolve track_target_ok : parser.

Lemma query_filter_ok q : sound q → as_rule q = R_filter_expr → returns (query_filter (Some q)).
Proof.
  intros Hq Hr. simpl. unfold has_rule. rewrite bool_decide_true by done.
  apply returns_bind; [auto with parser|done].
Qed.

Definition query_ok (t : TrackQueryNode) : Prop := target_ok (TrackQueryNode_target t) = true.

Lemma returns_query_none : returns (query_filter None).
Proof. done. Qed.

#[export] Hint Resolve query_filter_ok returns_query_none : parser.

(** What [build_track_query] asks of the text *)
Definition is_track (text : string) : bool := starts_with "track " text || bool_decide (text = "track").

Lemma is_track_other c r : c ≠ "t"%char → is_track (String c r) = false.
Proof.
  intros Hc. unfold is_track. cbn [starts_with]. rewrite bool_decide_false by congruence.
  apply bool_decide_eq_false. congruence.
Qed.

Lemma track_target_start q r : sound q → as_rule q = R_track_target →
  is_track (str_trim (as_str q +:+ r)) = false.
Proof.
  intros Hq Hr. pose proof (track_target_text q Hq Hr) as Ht. rewrite !elem_of_cons, elem_of_nil in Ht.
  destruct_or? Ht; try done; rewrite Ht;
    match goal with |- context [String ?c ?k +:+ r] =>
      destruct (trim_word c k r eq_refl) as [r' ->] end; by apply is_track_other.
Qed.

Lemma build_track_query_ok q : sound q → as_rule q = R_track_query →
  builds query_ok (build_track_query q).
Proof.
  intros Hq Hr. unfold build_track_query. fold (is_track (str_trim (as_str q))).
  children q Hq; rewrite Hinner.
  1, 2: rewrite Htext, track_target_start by done; cbn -[query_filter]; apply returns_bind; [by auto with parser|];
    intros; by apply track_target_ok.
  all: assert (is_track (str_trim (as_str q)) = true) as ->;
    [|cbn -[query_filter]; apply returns_bind; [by auto with parser|done]].
  all: unfold misread in Hmisread; rewrite Hr in Hmisread; keyword q; rewrite Htrim in Hmisread |- *;
    apply andb_false_iff in Hmisread as [?|?%negb_false_iff]; done.
Qed.

Lemma ident_char_keyword c : ident_char c = true → keyword_byte c = true.
Proof. by destruct c as [[] [] [] [] [] [] [] []]. Qed.

Lemma ident_start_keyword c : ident_start c = true → keyword_byte c = true.
Proof. by destruct c as [[] [] [] [] [] [] [] []]. Qed.

Lemma span_while_all f s : all_bytes f (span_while f s).1 = true.
Proof.
  induction s as [|c s IH]; [done|]. simpl. destruct (f c) eqn:Hc; [|done].
  destruct (span_while f s). simpl in *. by rewrite Hc.
Qed.

Lemma all_bytes_impl (f g : ascii → bool) s :
  (∀ c, f c = true → g c = true) → all_bytes f s = true → all_bytes g s = true.
Proof.
  intros Hfg. induction s as [|c s IH]; [done|]. simpl. intros [Hc%Hfg ?%IH]%andb_prop.
  by rewrite Hc.
Qed.

Lemma ident_text q : sound q → as_rule q = R_ident →
  ∃ c k, as_str q = String c k ∧ all_bytes keyword_byte (String c k) = true.
Proof.
  intros [Hg _] Hr. destruct (grown_token q Hg) as (_ & s & rest & Ht); [by rewrite Hr|].
  rewrite Hr in Ht. destruct s as [|c s]; [done|]. simpl in Ht.
  destruct (ident_start c) eqn:Hc; [|done]. pose proof (span_while_all ident_char s) as Ha.
  destruct (span_while ident_char s) as [a b]. injection Ht as <- _. exists c, a. split; [done|].
  simpl. rewrite ident_start_keyword by done. by eapply all_bytes_impl; [apply ident_char_keyword|].
Qed.

Lemma field_text q : sound q → as_rule q = R_field_access →
  ∃ c k r, as_str q = String c k +:+ r ∧ all_bytes keyword_byte (String c k) = true.
Proof.
  intros Hq Hr. children q Hq. destruct (ident_text q0) as (c & k & Hk & Ha); [done..|].
  rewrite Htext, Hk. eauto.
Qed.

#[export] Hint Resolve build_track_query_ok : parser.

Definition condition_good (c : ConditionNode) : Prop := condition_ok c = true.

(** The text of an atom that starts with a field *)
Lemma field_start q r : sound q → as_rule q = R_field_access →
  starts_with "(" (str_trim (as_str q +:+ r)) = false.
Proof.
  intros Hq Hr. destruct (field_text q Hq Hr) as (c & k & r0 & -> & Hk). rewrite string_app_assoc.
  pose proof Hk as Hc. simpl in Hc. apply andb_prop in Hc as [Hc _].
  destruct (trim_word c k (r0 +:+ r)) as [r' ->].
  - eapply all_bytes_impl; [|done]. clear. intros c. unfold keyword_byte. by destruct (solid c).
  - simpl. rewrite bool_decide_false; [done|]. intros <-. done.
Qed.

Lemma build_field_condition_ok p first rest :
  into_inner p = first :: rest → as_rule first = R_field_access →
  rest = [] ∨ (∃ o v, rest = [o; v] ∧ sound o ∧ as_rule o = R_compare_op ∧ sound v) →
  builds condition_good (build_field_condition p).
Proof.
  intros Hi Hr Hrest. unfold build_field_condition. rewrite Hi. cbn. unfold has_rule.
  rewrite bool_decide_true by done. destruct Hrest as [->|(o & v & -> & Ho & Hro & Hv)]; [done|].
  rewrite bool_decide_true by done. apply returns_bind; [auto with parser|]. intros op. cbn.
  apply returns_bind; [auto with parser|done].
Qed.

(** An atom that begins with a query: when the keyword is cut off, an error *)
Lemma build_field_condition_query p first rest :
  into_inner p = first :: rest → as_rule first = R_track_query →
  builds condition_good (build_field_condition p).
Proof.
  intros Hi Hr. unfold build_field_condition. rewrite Hi. cbn. unfold has_rule. by rewrite Hr.
Qed.

(** A field is not taken for a query. *)
Lemma field_not_misread p first rest : misread p = false → as_rule p = R_condition_atom →
  into_inner p = first :: rest → as_rule first = R_field_access →
  (∃ b, condition_keyword p = Some b ∧ builds condition_good b) ∨ condition_keyword p = None.
Proof.
  intros Hm Hr Hi Hf. unfold misread in Hm. rewrite Hr, Hi in Hm. unfold has_rule in Hm.
  rewrite bool_decide_true in Hm by done. apply bool_decide_eq_false in Hm.
  unfold condition_keyword. repeat case_bool_decide; try (left; by eexists); try (by right);
    destruct Hm; match goal with Hk : leading_keyword _ = _ |- _ => rewrite Hk end; set_solver.
Qed.

Lemma condition_atom_cases p : sound p → as_rule p = R_condition_atom →
  (∃ b, condition_keyword p = Some b ∧ builds condition_good b) ∨
  (condition_keyword p = None ∧ starts_with "(" (str_trim (as_str p)) = true ∧
   ∃ q, into_inner p = [q] ∧ as_rule q = R_condition ∧ sound q) ∨
  (condition_keyword p = None ∧ starts_with "(" (str_trim (as_str p)) = false ∧
   builds condition_good (build_field_condition p)).
Proof.
  intros Hp Hr. children p Hp.
  - unfold condition_keyword. keyword p. rewrite Hinner. decide_words.
    + left. eexists. split; [done|]. cbn -[build_track_query].
      eapply builds_bind; [by auto with parser|done].
    + right. right. rewrite Htrim. split_and!; [done..|]. by eapply build_field_condition_query.
  - unfold condition_keyword. keyword p. rewrite Hinner. decide_words.
    + left. eexists. split; [done|]. cbn -[build_track_query].
      apply returns_bind; [by auto with parser|]. intros op. cbn -[build_track_query].
      eapply builds_bind; [by auto with parser|done].
    + right. right. rewrite Htrim. split_and!; [done..|]. by eapply build_field_condition_query.
  - left. unfold condition_keyword. rewrite Htext. by eexists.
  - left. unfold condition_keyword. rewrite Htext. by eexists.
  - left. unfold condition_keyword. rewrite Htext. by eexists.
  - destruct (field_not_misread _ _ _ Hmisread Hr Hinner) as [?|?]; [done|by left|].
    right. right. split_and!; [done|rewrite Htext; by apply field_start|].
    eapply build_field_condition_ok; [done..|]. right. eauto 8.
  - destruct (field_not_misread _ _ _ Hmisread Hr Hinner) as [?|?]; [done|by left|].
    right. right. split_and!; [done|rewrite Htext; by apply field_start|].
    eapply build_field_condition_ok; [done..|]. by left.
  - right. left. unfold condition_keyword. paren p. rewrite Htrim. eauto 8.
Qed.

(** *** The mutual recursion *)
Lemma build_condition_depth_eq q d : build_condition_depth q d =
  match into_inner q with q :: _ => build_condition_or q d | [] => Panics end.
Proof. by destruct q. Qed.

Lemma build_condition_or_eq q d : build_condition_or q d =
  match into_inner q with
  | [q] => build_condition_and q d
  | _ => cs ← collect (λ q, build_condition_and q d) (into_inner q); Done (ConditionNode_Or cs)
  end.
Proof. by destruct q as [? ? ? ? [|? []]]. Qed.

Lemma build_condition_and_eq q d : build_condition_and q d =
  match into_inner q with
  | [q] => build_condition_not q d
  | _ => cs ← collect (λ q, build_condition_not q d) (into_inner q); Done (ConditionNode_And cs)
  end.
Proof. by destruct q as [? ? ? ? [|? []]]. Qed.

Lemma build_condition_not_eq q d : build_condition_not q d =
  match into_inner q with
  | q' :: _ =>
      if bool_decide (leading_keyword (str_trim (as_str q)) = "not")
      then c ← build_condition_atom q' d; Done (ConditionNode_Not c) else build_condition_atom q' d
  | [] => Panics
  end.
Proof. by destruct q. Qed.

Lemma build_condition_atom_eq q d : build_condition_atom q d =
  match condition_keyword q with
  | Some b => b
  | None =>
      if starts_with "(" (str_trim (as_str q)) then
        if (MAX_NESTING_DEPTH <? d + 1)%nat then
          fail_parse_at q ("condition nesting depth exceeds maximum of " +:+ pretty MAX_NESTING_DEPTH)
        else match into_inner q with q' :: _ => build_condition_depth q' (d + 1) | [] => Panics end
      else build_field_condition q
  end.
Proof. by destruct q. Qed.

Definition condition_ok_at (q : Pair) : Prop := ∀ d,
  (as_rule q = R_condition → builds condition_good (build_condition_depth q d)) ∧
  (as_rule q = R_condition_or → builds condition_good (build_condition_or q d)) ∧
  (as_rule q = R_condition_and → builds condition_good (build_condition_and q d)) ∧
  (as_rule q = R_condition_not → builds condition_good (build_condition_not q d)) ∧
  (as_rule q = R_condition_atom → builds condition_good (build_condition_atom q d)).

Lemma condition_good_all cs : Forall condition_good cs → forallb condition_ok cs = true.
Proof. intros Hcs. apply forallb_elem_of. by apply Forall_forall. Qed.

Lemma conditions_ok q : sound q → condition_ok_at q.
Proof.
  induction q as [q IH] using Pair_nested_ind. intros Hq.
  assert (Forall condition_ok_at (into_inner q)) as Hin.
  { apply sound_children in Hq. rewrite Forall_forall in *. auto. }
  clear IH. intros d. split_and!; intros Hr.
  - rewrite build_condition_depth_eq. children q Hq. rewrite Hinner in *. decompose_Forall_hyps.
    match goal with H : condition_ok_at _ |- _ => by apply (H d) end.
  - rewrite build_condition_or_eq. apply (builds_parts _ (λ q, _ q d)); [|apply condition_good_all].
    eapply Forall_impl; [apply Forall_and; split; [exact Hin|]|].
    + eapply (separated_children q "or" R_condition_and); [done|by rewrite Hr].
    + intros c [Hc [_ ?]]. by apply (Hc d).
  - rewrite build_condition_and_eq. apply (builds_parts _ (λ q, _ q d)); [|apply condition_good_all].
    eapply Forall_impl; [apply Forall_and; split; [exact Hin|]|].
    + eapply (separated_children q "and" R_condition_not); [done|by rewrite Hr].
    + intros c [Hc [_ ?]]. by apply (Hc d).
  - rewrite build_condition_not_eq. children q Hq; rewrite Hinner in *; decompose_Forall_hyps;
      match goal with H : condition_ok_at ?c |- _ =>
        assert (builds condition_good (build_condition_atom c d)) by by apply (H d) end;
      case_bool_decide; try done; by eapply builds_bind.
  - rewrite build_condition_atom_eq.
    destruct (condition_atom_cases q Hq Hr)
      as [(b & -> & Hb)|[(-> & -> & c & Hc & Hrc & _)|(-> & -> & ?)]]; [done| |done].
    rewrite Hc in *. inversion Hin as [|? ? Hoc]; subst. destruct (_ <? _)%nat; [done|].
    by apply (Hoc (d + 1)).
Qed.

Lemma build_condition_ok q : sound q → as_rule q = R_condition →
  builds condition_good (build_condition q).
Proof. intros Hq. by apply (conditions_ok q Hq 0). Qed.

#[export] Hint Resolve build_condition_ok : parser.

(** ** Operations *)
Lemma build_entry_ok value q k v :
  into_inner q = [k; v] → returns (value v) → returns (build_entry value q).
Proof. intros Hi Hv. unfold build_entry. rewrite Hi. cbn. by apply returns_bind. Qed.

Lemma entry_ok q : sound q →
  as_rule q ∈ [R_kv_pair; R_action_setting; R_sample_strategy_arg; R_transcode_vmaf_override] →
  returns (build_entry build_value q).
Proof.
  intros Hq Hr. rewrite !elem_of_cons, elem_of_nil in Hr. destruct_or? Hr; try done;
    children q Hq; (eapply build_entry_ok; [done|auto with parser]).
Qed.

(** The entries among the children *)
Lemma entries_ok r l :
  r ∈ [R_kv_pair; R_action_setting; R_sample_strategy_arg; R_transcode_vmaf_override] →
  Forall sound l →
  returns (collect (build_entry build_value) (filter (λ c, as_rule c = r) l)).
Proof.
  intros Hr Hl. apply returns_collect, Forall_filter_rule. eapply Forall_impl; [done|].
  intros c Hc <-. by apply entry_ok.
Qed.

Lemma build_object_ok l : Forall sound l → returns (build_object l).
Proof. intros. apply entries_ok; [set_solver|done]. Qed.

Lemma build_normalize_ok parts :
  Forall sound parts → parts ≠ [] → returns (build_normalize_from_parts parts).
Proof.
  intros Hp Hne. destruct parts as [|q parts]; [done|]. cbn. apply returns_bind; [|done].
  inversion Hp as [|? ? ? Hps]; subst. destruct parts as [|b parts]; [done|].
  inversion Hps; subst. by apply build_object_ok, sound_children.
Qed.

Lemma normalize_block_ok q : sound q → as_rule q = R_normalize_block → returns (build_normalize q).
Proof.
  intros Hq Hr. apply build_normalize_ok; [by apply sound_children|].
  children q Hq; rewrite Hinner; done.
Qed.

Lemma keep_block_ok q n : sound q → returns (loop keep_block_step n (into_inner q)).
Proof.
  intros Hq%sound_children. apply builds_loop; [done|]. eapply Forall_impl; [done|].
  intros c Hc acc _. unfold keep_block_step, has_rule. case_bool_decide; [|done].
  apply returns_bind; [by apply normalize_block_ok|done].
Qed.

Lemma keep_remove_step_ok acc c : sound c → returns (keep_remove_step acc c).
Proof.
  intros Hc. unfold keep_remove_step. destruct (as_rule c) eqn:Hr; try done.
  - children c Hc. rewrite Hinner. cbn [next mbind Attempt_bind]. apply returns_bind; [auto with parser|done].
  - apply returns_bind; [by apply keep_block_ok|done].
Qed.

Definition parts_good (x : string * option FilterNode * option NormalizeSetting) : Prop :=
  target_ok x.1.1 = true.

Lemma build_keep_remove_parts_ok q : sound q → as_rule q = R_keep_op ∨ as_rule q = R_remove_op →
  builds parts_good (build_keep_remove_parts q).
Proof.
  intros Hq Hr. assert (∃ t rest, into_inner q = t :: rest ∧ as_rule t = R_track_target) as
    (t & rest & Hi & Ht) by (destruct Hr as [Hr|Hr]; children q Hq; eauto).
  apply sound_children in Hq. unfold build_keep_remove_parts. rewrite Hi in *. inversion Hq as [|? ? Htt Hrest]; subst.
  cbn [next mbind Attempt_bind]. apply returns_bind.
  - apply builds_loop; [done|]. eapply Forall_impl; [done|]. intros c Hc acc _. by apply keep_remove_step_ok.
  - intros [f n]. by apply track_target_ok.
Qed.

Definition operation_good (op : OperationNode) : Prop := operation_ok op = true.

Lemma build_keep_remove_ok q k : sound q → as_rule q = R_keep_op ∨ as_rule q = R_remove_op →
  builds operation_good (build_keep_remove q k).
Proof.
  intros Hq Hr. eapply builds_bind; [by apply build_keep_remove_parts_ok|].
  intros [[t f] n] Ht. by destruct k.
Qed.

Lemma build_default_item_ok q : sound q → as_rule q = R_default_item →
  builds (λ i, target_ok i.1 = true) (build_default_item q).
Proof.
  intros Hq Hr. unfold build_default_item.
  eapply (builds_bind (λ k, target_ok k = true)); [by repeat case_bool_decide|].
  intros k Hk. children q Hq; by rewrite Hinner.
Qed.

Lemma build_defaults_ok q : sound q → builds operation_good (build_defaults q).
Proof.
  intros Hq%sound_children. eapply builds_bind.
  - apply builds_collect, Forall_filter_rule. eapply Forall_impl; [done|].
    intros c Hc Hr. by apply build_default_item_ok.
  - intros items Hi. unfold operation_good. simpl. apply forallb_elem_of. by apply Forall_forall.
Qed.

Lemma build_actions_ok q : sound q → as_rule q = R_actions_op → builds operation_good (build_actions q).
Proof.
  intros Hq Hr. destruct (Hq) as [_ [Hm _]%no_misread_inner].
  unfold misread, first_word in Hm. rewrite Hr in Hm. apply negb_false_iff, bool_decide_eq_true in Hm.
  unfold build_actions. destruct (next_word (as_str q)) as [[w rest]|]; [|set_solver]. cbn [unwrap].
  cbn [next mbind Attempt_bind]. apply returns_bind.
  - apply entries_ok; [set_solver|by apply sound_children].
  - intros a. unfold operation_good. simpl. rewrite !elem_of_cons, elem_of_nil in Hm.
    by destruct_or? Hm; subst.
Qed.

Lemma build_sample_strategy_ok q : sound q → as_rule q = R_sample_strategy →
  returns (build_sample_strategy q).
Proof.
  intros Hq Hr. unfold build_sample_strategy. case_bool_decide as Hf; [done|].
  children q Hq; rewrite Hinner; try done. cbn [next mbind Attempt_bind]. apply returns_bind; [|done].
  apply entries_ok; [set_solver|]. apply sound_children in Hq. rewrite Hinner in Hq.
  by inversion Hq.
Qed.

Lemma build_transcode_value_eq q : build_transcode_value q =
  match as_rule q with
  | R_transcode_value => match into_inner q with q :: _ => build_transcode_value q | [] => Panics end
  | R_sample_strategy => build_sample_strategy q
  | _ => build_value q
  end.
Proof. by destruct q. Qed.

Lemma build_transcode_value_ok q : sound q → as_rule q = R_transcode_value →
  returns (build_transcode_value q).
Proof.
  intros Hq Hr. rewrite build_transcode_value_eq, Hr. children q Hq; rewrite Hinner;
    rewrite build_transcode_value_eq, Hrule; [by apply build_sample_strategy_ok|by apply build_value_ok].
Qed.

Lemma build_transcode_item_ok q : sound q → returns (build_transcode_item q).
Proof.
  intros Hq. unfold build_transcode_item. destruct (as_rule q) eqn:Hr; try done.
  - apply returns_bind; [|done]. children q Hq. eapply build_entry_ok; [done|].
    by apply build_transcode_value_ok.
  - apply returns_bind; [|done]. by apply build_object_ok, sound_children.
  - apply returns_bind; [|by intros []]. apply entry_ok; [done|set_solver].
Qed.

Lemma build_transcode_ok q : sound q → as_rule q = R_transcode_op →
  builds operation_good (build_transcode q).
Proof.
  intros Hq Hr. destruct (Hq) as [_ [Hm _]%no_misread_inner].
  unfold misread, second_word, first_word in Hm. rewrite Hr in Hm. apply negb_false_iff, bool_decide_eq_true in Hm.
  unfold build_transcode.
  assert (target_ok (match next_word (as_str q) with
    | Some (_, rest) => match next_word rest with Some (w, _) => w | None => "audio" end
    | None => "audio" end) = true) as Ht.
  { destruct (next_word (as_str q)) as [[w rest]|]; [|set_solver].
    destruct (next_word rest) as [[w' rest']|]; [|set_solver].
    rewrite !elem_of_cons, elem_of_nil in Hm. by destruct_or? Hm; subst. }
  children q Hq; rewrite Hinner; cbn [next mbind Attempt_bind]; try done;
    (apply returns_bind; [|done]); apply returns_collect; (eapply Forall_impl; [by apply sound_children|]);
    intros c Hc; by apply build_transcode_item_ok.
Qed.

(** *** Synthesis *)
Definition synth_good (s : SynthSetting) : Prop := synth_ok s = true.

Lemma source_pref_filter q : sound q → as_rule q = R_source_pref →
  ∃ f, into_inner q = [f] ∧ sound f ∧ as_rule f = R_filter_expr.
Proof. intros Hq Hr. children q Hq. eauto. Qed.

Lemma normalize_text q : sound q → as_rule q = R_normalize_block → ∃ r, as_str q = "normalize" +:+ r.
Proof. intros Hq Hr. children q Hq; eauto. Qed.

Lemma build_synth_item_ok q : sound q → as_rule q = R_synth_item → builds synth_good (build_synth_item q).
Proof.
  intros Hq Hr. children q Hq; unfold build_synth_item; rewrite Hinner.
  all: try (keyword q; decide_words; [|by apply builds_fail]; cbn [next mbind Attempt_bind]; try done).
  all: try (apply returns_bind; [by auto with parser|done]).
  - destruct (source_pref_filter q0) as (f & -> & Hf & Hrf); [done..|]. cbn [next mbind Attempt_bind].
    apply returns_bind; [auto with parser|done].
  - eapply builds_bind; [by auto with parser|done].
  - destruct (normalize_text q0) as [r Hn]; [done..|]. rewrite Hn in Htext. keyword q.
    decide_words; [|by apply builds_fail]. apply returns_bind; [|done].
    apply build_normalize_ok; [by apply Forall_singleton|done].
Qed.

Lemma build_synthesize_ok q : sound q → as_rule q = R_synthesize_op →
  builds operation_good (build_synthesize q).
Proof.
  intros Hq Hr. unfold build_synthesize. children q Hq. rewrite Hinner. cbn [next mbind Attempt_bind].
  apply returns_bind; [auto with parser|]. intros name. eapply builds_bind.
  - apply builds_collect, Forall_filter_rule. apply sound_children in Hq. rewrite Hinner in Hq.
    inversion Hq; subst. eapply Forall_impl; [done|]. intros c Hc Hrc. by apply build_synth_item_ok.
  - intros l Hl. unfold operation_good. simpl. apply forallb_elem_of. by apply Forall_forall.
Qed.

(** *** Actions and rules *)
Lemma build_track_ref_ok q : sound q → as_rule q = R_track_ref →
  builds (λ r, target_ok (TrackRefNode_target r) = true) (build_track_ref q).
Proof.
  intros Hq Hr. unfold build_track_ref. children q Hq; rewrite Hinner; cbn [next mbind Attempt_bind].
  - by apply track_target_ok.
  - apply returns_bind; [apply returns_bind; [auto with parser|done]|]. intros. by apply track_target_ok.
Qed.

#[export] Hint Resolve build_track_ref_ok : parser.

Lemma parse_set_tag_value_ok q : sound q → returns (parse_set_tag_value q).
Proof.
  intros Hq. unfold parse_set_tag_value. destruct (has_rule _ _); [done|].
  apply returns_bind; [auto with parser|done].
Qed.

#[export] Hint Resolve parse_set_tag_value_ok : parser.

Definition action_good (a : ActionNode) : Prop := action_node_ok a = true.

Lemma language_value_ok v : sound v → as_rule v = R_field_access ∨ as_rule v = R_string →
  returns (if has_rule R_field_access v then Done (ValueOrField_Field (build_field_access v))
           else s ← build_string v; Done (ValueOrField_Value (Value_String s))).
Proof.
  intros Hv Hr. destruct (has_rule R_field_access v) eqn:Hf; [done|].
  apply bool_decide_eq_false in Hf. destruct Hr as [?|Hr]; [done|].
  apply returns_bind; [auto with parser|done].
Qed.

Lemma build_action_ok q : sound q → as_rule q = R_action → builds action_good (build_action q).
Proof.
  intros Hq Hr. children q Hq; unfold build_action, build_keyword_action; rewrite Hinner;
    try rewrite Hrule.
  all: try (keyword q; decide_words; [|by apply builds_fail]; cbn [next mbind Attempt_bind]; try done).
  1, 2: eapply builds_bind; [apply build_keep_remove_parts_ok; by auto|by intros [[]]].
  1, 2: apply returns_bind; [by auto with parser|done].
  1, 2: eapply builds_bind; [by auto with parser|done].
  1, 2: eapply builds_bind; [by auto with parser|]; intros tr Htr;
    (apply returns_bind; [by apply language_value_ok; auto|done]).
  all: apply returns_bind; [by auto with parser|]; intros tag; apply returns_bind; [by auto with parser|done].
Qed.

Definition actions_good (acc : list ActionNode * list ActionNode) : Prop :=
  Forall action_good acc.1 ∧ Forall action_good acc.2.

Lemma when_step_ok acc c : actions_good acc → sound c → builds actions_good (when_step acc c).
Proof.
  intros [H1 H2] Hc. unfold when_step. destruct (as_rule c) eqn:Hr; try done.
  - eapply builds_bind.
    + apply builds_collect, Forall_filter_rule. eapply Forall_impl; [by apply sound_children|].
      intros a Ha Hra. by apply build_action_ok.
    + intros els Hels. split; [done|]. by apply Forall_app.
  - eapply builds_bind; [by apply build_action_ok|]. intros a Ha. split; [|done].
    apply Forall_app. split; [done|]. by apply Forall_singleton.
Qed.

Definition when_good (w : WhenNode) : Prop := when_ok w = true.

Lemma build_when_ok q : sound q → as_rule q = R_when_block → builds when_good (build_when q).
Proof.
  intros Hq Hr. assert (∃ c rest, into_inner q = c :: rest ∧ as_rule c = R_condition)
    as (c & rest & Hi & Hrc) by (children q Hq; eauto).
  apply sound_children in Hq. unfold build_when. rewrite Hi in *. inversion Hq as [|? ? Hc Hrest]; subst.
  cbn [next mbind Attempt_bind]. eapply builds_bind; [by auto with parser|]. intros cond Hcond.
  eapply (builds_bind actions_good).
  - apply builds_loop; [by split|]. eapply Forall_impl; [done|]. intros a Ha acc Hacc.
    by apply when_step_ok.
  - intros [thens els] [Ht He]. unfold when_good, when_ok. simpl. rewrite Hcond. simpl.
    apply andb_true_intro. rewrite !forallb_elem_of. by rewrite Forall_forall in Ht, He.
Qed.

Lemma build_rule_item_ok q : sound q → as_rule q = R_rule_item →
  builds (λ r, when_good (RuleNode_when r)) (build_rule_item q).
Proof.
  intros Hq Hr. unfold build_rule_item. children q Hq. rewrite Hinner. cbn [next mbind Attempt_bind].
  apply returns_bind; [auto with parser|]. intros name. cbn [next mbind Attempt_bind].
  eapply builds_bind; [by apply build_when_ok|done].
Qed.

Lemma match_mode_text q : sound q → as_rule q = R_match_mode → str_in ["first"; "all"] (as_str q) = true.
Proof. intros Hq Hr. children q Hq; by rewrite Htext. Qed.

Lemma build_rules_ok q : sound q → as_rule q = R_rules_block → builds operation_good (build_rules q).
Proof.
  intros Hq Hr. unfold build_rules. children q Hq. rewrite Hinner. cbn [next mbind Attempt_bind].
  eapply builds_bind.
  - apply builds_collect, Forall_filter_rule. apply sound_children in Hq. rewrite Hinner in Hq.
    inversion Hq; subst. eapply Forall_impl; [done|]. intros c Hc Hrc. by apply build_rule_item_ok.
  - intros l Hl. apply andb_true_intro. split; [by apply match_mode_text|].
    apply forallb_elem_of. by apply Forall_forall.
Qed.

(** ** Phases *)
Lemma find_rule_here r q l : as_rule q = r → find_rule r (q :: l) = Done (q, l).
Proof. intros Hr. simpl. by rewrite bool_decide_true. Qed.

Lemma build_run_if_ok q : sound q → as_rule q = R_run_if → returns (build_run_if q).
Proof.
  intros Hq Hr. unfold build_run_if. children q Hq. rewrite Hinner, find_rule_here by done.
  cbn [mbind Attempt_bind]. rewrite find_rule_here by done. cbn [mbind Attempt_bind].
  match goal with H : sound ?c, Hc : as_rule ?c = R_run_if_trigger |- _ => children c H end;
    by rewrite Htext0.
Qed.

Lemma build_set_tag_ok q : sound q → as_rule q = R_set_tag_op → builds operation_good (build_set_tag q).
Proof.
  intros Hq Hr. unfold build_set_tag. children q Hq; rewrite Hinner; cbn [next mbind Attempt_bind];
    (apply returns_bind; [by auto with parser|]); intros tag; cbn [next mbind Attempt_bind];
    (apply returns_bind; [by auto with parser|done]).
Qed.

Lemma build_verify_ok q : sound q → as_rule q = R_verify_op → builds operation_good (build_verify q).
Proof.
  intros Hq Hr. unfold build_verify. children q Hq. rewrite Hinner. cbn [next mbind Attempt_bind].
  by repeat case_bool_decide.
Qed.

Lemma build_operation_ok q b : sound q → build_operation q = Some b → builds operation_good b.
Proof.
  intros Hq. unfold build_operation. destruct (as_rule q) eqn:Hr; intros [= <-];
    auto using build_keep_remove_ok, build_defaults_ok, build_actions_ok, build_transcode_ok,
      build_synthesize_ok, build_set_tag_ok, build_rules_ok, build_verify_ok.
  all: try done.
  all: try (children q Hq; rewrite Hinner; cbn [next mbind Attempt_bind];
            first [done | apply returns_bind; [by auto with parser|done]]).
  eapply builds_bind; [by apply build_when_ok|done].
Qed.

Definition phase_good (ph : PhaseNode) : Prop := phase_node_ok ph = true.

Lemma emit_op_good ph span node :
  phase_good ph → operation_good node → phase_good (emit_op ph span node).
Proof.
  unfold phase_good, phase_node_ok, emit_op. simpl. intros [-> Ho]%andb_prop Hn. simpl.
  rewrite forallb_app, Ho. simpl. by rewrite Hn.
Qed.

Lemma phase_child_ok ph q : phase_good ph → sound q → builds phase_good (phase_child ph q).
Proof.
  intros Hph Hq. unfold phase_child. destruct (build_operation q) as [b|] eqn:Hb.
  { eapply builds_bind; [by eapply build_operation_ok|]. intros node Hn. by apply emit_op_good. }
  clear Hb. destruct (as_rule q) eqn:Hr; try done.
  - children q Hq. rewrite Hinner. cbn [next mbind Attempt_bind].
    eapply builds_bind; [by auto with parser|]. intros c Hc. unfold phase_good, phase_node_ok in *. simpl.
    apply andb_prop in Hph as [_ ->]. by rewrite Hc.
  - children q Hq. rewrite Hinner. cbn [next mbind Attempt_bind]. apply returns_bind; [by auto with parser|done].
  - apply returns_bind; [by apply build_run_if_ok|done].
  - apply returns_bind; [|done]. children q Hq. unfold build_on_error. rewrite Hinner.
    cbn [next mbind Attempt_bind]. unfold parse_on_error_token. by case_match.
Qed.

Lemma phase_step_ok ph q : phase_good ph → sound q → builds phase_good (phase_step ph q).
Proof.
  intros Hph Hq. unfold phase_step, has_rule. case_bool_decide; [done|].
  case_bool_decide as Hr; [|done]. children q Hq; rewrite Hinner; by apply phase_child_ok.
Qed.

Lemma build_phase_ok q : sound q → as_rule q = R_phase → builds phase_good (build_phase q).
Proof.
  intros Hq Hr. assert (∃ c rest, into_inner q = c :: rest) as (c & rest & Hi)
    by (children q Hq; eauto).
  apply sound_children in Hq. unfold build_phase. rewrite Hi in *. inversion Hq as [|? ? Hc Hrest]; subst.
  cbn [next mbind Attempt_bind]. apply builds_loop; [done|]. eapply Forall_impl; [done|].
  intros a Ha ph Hph. by apply phase_step_ok.
Qed.

(** ** The policy *)
Lemma metadata_step_ok m q : sound q → returns (metadata_step m q).
Proof.
  intros Hq. unfold metadata_step. destruct (has_rule _ q) eqn:Hr; [|done]. cbn [negb].
  apply bool_decide_eq_true in Hr. destruct m.
  children q Hq; keyword q; decide_words; try (by apply builds_fail);
    unfold metadata_string_value, metadata_list_value; rewrite Hinner, find_rule_here by done;
    cbn [mbind Attempt_bind];
    (apply returns_bind; [by auto with parser|done]).
Qed.

Lemma config_step_ok c q : sound q → returns (config_step c q).
Proof.
  intros Hq. unfold config_step. destruct (has_rule _ q) eqn:Hr; [|done]. simpl.
  apply bool_decide_eq_true in Hr. destruct c.
  children q Hq; keyword q; decide_words; try (by apply builds_fail);
    rewrite Hinner, find_rule_here by done; cbn [mbind Attempt_bind].
  - rewrite find_rule_here by done. cbn [mbind Attempt_bind].
    apply returns_bind; [by auto with parser|]. intros. by case_bool_decide.
  - apply returns_bind; [|done]. unfold parse_on_error_token. by case_match.
  - apply returns_bind; [by auto with parser|done].
  - done.
Qed.

Definition policy_good (ast : PolicyAst) : Prop := ast_ok ast = true.

Lemma policy_step_ok ast q : policy_good ast → sound q → builds policy_good (policy_step ast q).
Proof.
  intros Hast Hq. unfold policy_step. destruct ast as [name extends metadata config phases span].
  destruct (as_rule q) eqn:Hr; try done.
  - apply returns_bind; [|by intros]. children q Hq. unfold build_extends. rewrite Hinner.
    cbn [next mbind Attempt_bind]. apply returns_bind; [by auto with parser|done].
  - apply returns_bind; [|by intros]. apply builds_loop; [done|].
    eapply Forall_impl; [by apply sound_children|]. intros. by apply metadata_step_ok.
  - apply returns_bind; [|by intros]. apply builds_loop; [done|].
    eapply Forall_impl; [by apply sound_children|]. intros. by apply config_step_ok.
  - eapply builds_bind; [by apply build_phase_ok|]. intros ph Hph. unfold policy_good, ast_ok in *.
    simpl in *. rewrite forallb_app, Hast. simpl. by rewrite Hph.
Qed.

Lemma build_policy_ok q : sound q → as_rule q = R_policy → builds policy_good (build_policy q).
Proof.
  intros Hq Hr. assert (∃ c rest, into_inner q = c :: rest ∧ as_rule c = R_string) as (c & rest & Hi & Hrc)
    by (children q Hq; eauto).
  apply sound_children in Hq. unfold build_policy. rewrite Hi in *. inversion Hq as [|? ? Hc Hrest]; subst.
  cbn [next mbind Attempt_bind]. apply returns_bind; [by auto with parser|]. intros name.
  apply builds_loop; [done|]. eapply Forall_impl; [done|]. intros a Ha ast Hast. by apply policy_step_ok.
Qed.

(** ** The parser *)

(** No part of the text is of a form whose keyword the builders look for in the
    wrong place. *)
Definition plainly_written `{Pest} (input : string) : Prop :=
  ∀ ps, pest_parse input = Ok ps → forallb no_misread ps = true.

Lemma parse_policy_ok `{PestLaws} input :
  plainly_written input → builds policy_good (parse_policy input).
Proof.
  intros Hm. unfold parse_policy. destruct (_ <? _)%N; [done|].
  destruct (pest_parse input) as [ps|] eqn:Hp; [|done]. specialize (Hm ps Hp).
  destruct (pest_follows_grammar input ps Hp) as (lc & n & text & rest & Hpeg%peg_derives).
  apply derives_Sub in Hpeg as (q & -> & Hr & _ & Hg). cbn [next mbind Attempt_bind].
  simpl in Hm. apply andb_prop in Hm as [Hm _]. by apply build_policy_ok.
Qed.

(** ** Nesting *)
Fixpoint filter_height (f : FilterNode) : nat :=
  match f with
  | FilterNode_And fs | FilterNode_Or fs => S (max_list (filter_height <$> fs))
  | FilterNode_Not f => S (filter_height f)
  | _ => 1
  end.

Definition query_height (q : TrackQueryNode) : nat :=
  from_option filter_height 0 (TrackQueryNode_filter q).

Fixpoint condition_height (c : ConditionNode) : nat :=
  match c with
  | ConditionNode_And cs | ConditionNode_Or cs => S (max_list (condition_height <$> cs))
  | ConditionNode_Not c => S (condition_height c)
  | ConditionNode_Exists q | ConditionNode_Count q _ _ => S (query_height q)
  | _ => 1
  end.

(** What a builder returns, if it does *)
Definition yields {A} (P : A → Prop) (b : Built A) : Prop :=
  match b with Done a => P a | _ => True end.

Lemma yields_bind {A B} (P : A → Prop) (Q : B → Prop) b f :
  yields P b → (∀ a, P a → yields Q (f a)) → yields Q (mbind f b).
Proof. destruct b; simpl; auto. Qed.

Lemma yields_any {A B} (Q : B → Prop) (b : Built A) f :
  (∀ a, yields Q (f a)) → yields Q (mbind f b).
Proof. destruct b; simpl; auto. Qed.

Lemma yields_collect {A B} (P : B → Prop) (f : A → Built B) l :
  Forall (λ x, yields P (f x)) l → yields (Forall P) (collect f l).
Proof.
  induction 1 as [|x l Hx _ IH]; simpl; [constructor|].
  eapply yields_bind; [done|]. intros y Hy. eapply yields_bind; [done|]. intros ys Hys.
  by constructor.
Qed.

Lemma yields_parts {A} (P Q : A → Prop) (f : Pair → Built A) (g : list A → A) inner :
  Forall (λ q, yields P (f q)) inner → (∀ x, P x → Q x) → (∀ xs, Forall P xs → Q (g xs)) →
  yields Q (match inner with [q] => f q | _ => xs ← collect f inner; Done (g xs) end).
Proof.
  intros Hf HPQ Hg. assert (yields Q (xs ← collect f inner; Done (g xs))) as Hc.
  { eapply yields_bind; [by apply yields_collect|exact Hg]. }
  destruct inner as [|q [|q' inner]]; [exact Hc| |exact Hc]. inversion Hf as [|? ? Hq]; subst.
  destruct (f q); simpl in *; auto.
Qed.

Lemma max_list_le (l : list nat) n : Forall (λ x, x ≤ n) l → max_list l ≤ n.
Proof. induction 1; simpl; lia. Qed.

Lemma heights_le {A} (h : A → nat) xs n : Forall (λ x, h x ≤ n) xs → S (max_list (h <$> xs)) ≤ S n.
Proof. intros Hx. apply le_n_S, max_list_le. by apply Forall_fmap. Qed.

(** Height that may still be built at a depth, above the leaves *)
Definition room (d : nat) : nat := 3 * (MAX_NESTING_DEPTH - d).

Lemma room_step d : (MAX_NESTING_DEPTH <? d + 1)%nat = false → room (d + 1) + 3 = room d.
Proof. intros Hd%Nat.ltb_ge. unfold room, MAX_NESTING_DEPTH in *. lia. Qed.

Lemma filter_keyword_leaf p b : filter_keyword p = Some b → yields (λ f, filter_height f = 1) b.
Proof.
  unfold filter_keyword. repeat case_bool_decide; intros [= <-]; try done;
    (apply yields_any; intros); try (by case_match; apply yields_any; intros; repeat case_match).
  - by destruct a.
  - by destruct a.
  - destruct a. repeat (apply yields_any; intros). by destruct a0.
Qed.

Definition filter_shallow_at (q : Pair) : Prop := ∀ d,
  yields (λ f, filter_height f ≤ room d + 4) (build_filter_depth q d) ∧
  yields (λ f, filter_height f ≤ room d + 4) (build_filter_or q d) ∧
  yields (λ f, filter_height f ≤ room d + 3) (build_filter_and q d) ∧
  yields (λ f, filter_height f ≤ room d + 2) (build_filter_not q d) ∧
  yields (λ f, filter_height f ≤ room d + 1) (build_filter_atom q d).

Lemma yields_weaken {A} (P Q : A → Prop) b : yields P b → (∀ a, P a → Q a) → yields Q b.
Proof. destruct b; simpl; auto. Qed.

Lemma filters_shallow q : filter_shallow_at q.
Proof.
  induction q as [q IH] using Pair_nested_ind. intros d.
  assert (Forall (λ c, yields (λ f, filter_height f ≤ room d + 3) (build_filter_and c d)) (into_inner q))
    as Hand by (eapply Forall_impl; [exact IH|]; intros c Hc; apply (Hc d)).
  assert (Forall (λ c, yields (λ f, filter_height f ≤ room d + 2) (build_filter_not c d)) (into_inner q))
    as Hnot by (eapply Forall_impl; [exact IH|]; intros c Hc; apply (Hc d)).
  split_and!.
  - rewrite build_filter_depth_eq. destruct IH as [|c l Hc _]; [done|]. apply (Hc d).
  - rewrite build_filter_or_eq. eapply yields_parts; [exact Hand|simpl; lia|].
    intros xs Hx. apply (heights_le filter_height) in Hx. simpl. lia.
  - rewrite build_filter_and_eq. eapply yields_parts; [exact Hnot|simpl; lia|].
    intros xs Hx. apply (heights_le filter_height) in Hx. simpl. lia.
  - rewrite build_filter_not_eq. destruct IH as [|c l Hc _]; [done|].
    destruct (Hc d) as (_ & _ & _ & _ & Ha). case_bool_decide.
    + eapply yields_bind; [exact Ha|]. simpl. lia.
    + eapply yields_weaken; [exact Ha|]. simpl. lia.
  - rewrite build_filter_atom_eq. destruct (filter_keyword q) as [b|] eqn:Hk.
    { eapply yields_weaken; [by eapply filter_keyword_leaf|]. simpl. lia. }
    destruct (starts_with _ _); [|done]. destruct (_ <? _)%nat eqn:Hd; [done|].
    apply room_step in Hd. destruct IH as [|c l Hc _]; [done|].
    destruct (Hc (d + 1)) as [Ha _]. eapply yields_weaken; [exact Ha|]. simpl. lia.
Qed.

(** The height of a filter that the parser builds *)
Definition MAX_FILTER_HEIGHT : nat := room 0 + 4.

Lemma build_filter_shallow q : yields (λ f, filter_height f ≤ MAX_FILTER_HEIGHT) (build_filter q).
Proof. apply (filters_shallow q 0). Qed.

Lemma build_track_query_shallow q :
  yields (λ t, query_height t ≤ MAX_FILTER_HEIGHT) (build_track_query q).
Proof.
  apply yields_any. intros [target child]. eapply (yields_bind (λ o, from_option filter_height 0 o ≤ MAX_FILTER_HEIGHT)).
  - destruct child as [c|]; simpl; [|lia]. destruct (has_rule _ _); simpl; [|lia].
    eapply yields_bind; [apply build_filter_shallow|done].
  - done.
Qed.

Lemma condition_keyword_leaf p b :
  condition_keyword p = Some b → yields (λ c, condition_height c ≤ S MAX_FILTER_HEIGHT) b.
Proof.
  unfold condition_keyword. repeat case_bool_decide; intros [= <-]; try (simpl; lia);
    (apply yields_any; intros [q1 i1]).
  - eapply yields_bind; [apply build_track_query_shallow|]. simpl. lia.
  - apply yields_any. intros [q2 i2]. apply yields_any. intros op. apply yields_any. intros [n i3].
    eapply yields_bind; [apply build_track_query_shallow|]. simpl. lia.
Qed.

Lemma build_field_condition_leaf p : yields (λ c, condition_height c = 1) (build_field_condition p).
Proof.
  unfold build_field_condition. apply yields_any. intros [first inner]. destruct (has_rule _ first); [|done].
  destruct inner as [|second inner]; [done|]. destruct (has_rule _ second); [|done].
  apply yields_any. intros op. apply yields_any. intros [v i]. by apply yields_any.
Qed.

(** The levels of a condition at a depth, above those of its filters *)
Definition condition_shallow_at (q : Pair) : Prop := ∀ d,
  yields (λ f, condition_height f ≤ room d + 4 + MAX_FILTER_HEIGHT) (build_condition_depth q d) ∧
  yields (λ f, condition_height f ≤ room d + 4 + MAX_FILTER_HEIGHT) (build_condition_or q d) ∧
  yields (λ f, condition_height f ≤ room d + 3 + MAX_FILTER_HEIGHT) (build_condition_and q d) ∧
  yields (λ f, condition_height f ≤ room d + 2 + MAX_FILTER_HEIGHT) (build_condition_not q d) ∧
  yields (λ f, condition_height f ≤ room d + 1 + MAX_FILTER_HEIGHT) (build_condition_atom q d).

Lemma conditions_shallow q : condition_shallow_at q.
Proof.
  induction q as [q IH] using Pair_nested_ind. intros d.
  assert (Forall (λ c, yields (λ f, condition_height f ≤ room d + 3 + MAX_FILTER_HEIGHT)
    (build_condition_and c d)) (into_inner q))
    as Hand by (eapply Forall_impl; [exact IH|]; intros c Hc; apply (Hc d)).
  assert (Forall (λ c, yields (λ f, condition_height f ≤ room d + 2 + MAX_FILTER_HEIGHT)
    (build_condition_not c d)) (into_inner q))
    as Hnot by (eapply Forall_impl; [exact IH|]; intros c Hc; apply (Hc d)).
  split_and!.
  - rewrite build_condition_depth_eq. destruct IH as [|c l Hc _]; [done|]. apply (Hc d).
  - rewrite build_condition_or_eq. eapply yields_parts; [exact Hand|simpl; lia|].
    intros xs Hx. apply (heights_le condition_height) in Hx. simpl. lia.
  - rewrite build_condition_and_eq. eapply yields_parts; [exact Hnot|simpl; lia|].
    intros xs Hx. apply (heights_le condition_height) in Hx. simpl. lia.
  - rewrite build_condition_not_eq. destruct IH as [|c l Hc _]; [done|].
    destruct (Hc d) as (_ & _ & _ & _ & Ha). case_bool_decide.
    + eapply yields_bind; [exact Ha|]. simpl. lia.
    + eapply yields_weaken; [exact Ha|]. simpl. lia.
  - rewrite build_condition_atom_eq. destruct (condition_keyword q) as [b|] eqn:Hk.
    { eapply yields_weaken; [by eapply condition_keyword_leaf|]. simpl. lia. }
    destruct (starts_with _ _).
    2: { eapply yields_weaken; [apply build_field_condition_leaf|]. simpl. lia. }
    destruct (_ <? _)%nat eqn:Hd; [done|].
    apply room_step in Hd. destruct IH as [|c l Hc _]; [done|].
    destruct (Hc (d + 1)) as [Ha _]. eapply yields_weaken; [exact Ha|]. simpl. lia.
Qed.
