(* ===== verification/Composition.v ===== *)
(** * Policy composition

    [crates/voom-dsl/src/composition.rs]: the resolution of [extends] clauses
    and the merge of a policy into its parent. The parser is [Parser], over the
    library [Pest]; the texts of the bundled policies and the file system are
    parameters. *)
From S2P Require Import Prelude Ast Compiler PhaseGraph Parser.

(** [read_to_string] and [canonicalize] are the functions of [std::fs], with the
    text of their error. *)
Class PolicySources := {
  BUNDLED_POLICIES : list (string * string);
  read_to_string : PathBuf → result string string;
  canonicalize : PathBuf → result string PathBuf;
}.

Inductive PolicySourceId : Type :=
| PolicySourceId_Inline
| PolicySourceId_Bundled (name : string)
| PolicySourceId_File (path : PathBuf).

#[export] Instance PolicySourceId_eq_dec : EqDecision PolicySourceId.
Proof. solve_decision. Defined.

Record ResolvedPolicyAst : Type := {
  ResolvedPolicyAst_ast : PolicyAst;
  ResolvedPolicyAst_source_id : PolicySourceId;
  ResolvedPolicyAst_extends_chain : list string;
  ResolvedPolicyAst_phase_sources : gmap string PhaseComposition;
}.

Inductive AllowFiles : Type :=
| AllowFiles_Yes
| AllowFiles_No.

Definition composition_error {A} (message : string) : result DslPipelineError A :=
  Err (DslPipelineError_Compile (DslError_compile message)).

(** ** Labels

    [path.display()] is the path itself here (paths are UTF-8). *)
Definition source_label (source_id : PolicySourceId) : string :=
  match source_id with
  | PolicySourceId_Inline => "inline"
  | PolicySourceId_Bundled name => name
  | PolicySourceId_File path => path
  end.

Definition phase_source_label (composition : PhaseComposition) (parent_source_id : PolicySourceId)
    : string :=
  match composition with
  | PhaseComposition_Local => source_label parent_source_id
  | PhaseComposition_Inherited source
  | PhaseComposition_Extended source _
  | PhaseComposition_Overridden source => source
  end.

(** ** Merging *)
Definition clear_extend (phase : PhaseNode) : PhaseNode := {|
  PhaseNode_name := PhaseNode_name phase;
  PhaseNode_extend := false;
  PhaseNode_skip_when := PhaseNode_skip_when phase;
  PhaseNode_depends_on := PhaseNode_depends_on phase;
  PhaseNode_run_if := PhaseNode_run_if phase;
  PhaseNode_on_error := PhaseNode_on_error phase;
  PhaseNode_operations := PhaseNode_operations phase;
  PhaseNode_span := PhaseNode_span phase;
|}.

(** [child.or(parent)] on options *)
Definition opt_or {A} (child parent : option A) : option A :=
  match child with Some _ => child | None => parent end.

Definition extend_phase (parent child : PhaseNode) : PhaseNode := {|
  PhaseNode_name := PhaseNode_name parent;
  PhaseNode_extend := false;
  PhaseNode_skip_when := opt_or (PhaseNode_skip_when child) (PhaseNode_skip_when parent);
  PhaseNode_depends_on := opt_or (PhaseNode_depends_on child) (PhaseNode_depends_on parent);
  PhaseNode_run_if := opt_or (PhaseNode_run_if child) (PhaseNode_run_if parent);
  PhaseNode_on_error := opt_or (PhaseNode_on_error child) (PhaseNode_on_error parent);
  PhaseNode_operations := PhaseNode_operations parent ++ PhaseNode_operations child;
  PhaseNode_span := PhaseNode_span parent;
|}.

Definition merge_metadata (parent child : option MetadataNode) : option MetadataNode :=
  match parent, child with
  | None, None => None
  | Some metadata, None | None, Some metadata => Some metadata
  | Some parent, Some child => Some {|
      MetadataNode_version := opt_or (MetadataNode_version child) (MetadataNode_version parent);
      MetadataNode_author := opt_or (MetadataNode_author child) (MetadataNode_author parent);
      MetadataNode_description :=
        opt_or (MetadataNode_description child) (MetadataNode_description parent);
      MetadataNode_requires_voom :=
        opt_or (MetadataNode_requires_voom child) (MetadataNode_requires_voom parent);
      MetadataNode_requires_tools :=
        opt_or (MetadataNode_requires_tools child) (MetadataNode_requires_tools parent);
      MetadataNode_test_fixtures :=
        opt_or (MetadataNode_test_fixtures child) (MetadataNode_test_fixtures parent);
      MetadataNode_span := MetadataNode_span child;
    |}
  end.

Definition reject_unresolved_phase_extends (ast : PolicyAst) : result DslPipelineError unit :=
  match List.find PhaseNode_extend (PolicyAst_phases ast) with
  | Some phase =>
      composition_error ("phase " +:+ quote (PhaseNode_name phase)
                         +:+ " uses extend but policy composition was not resolved")
  | None => Ok tt
  end.

(** The local variables of [merge_policy] *)
Record merge_state : Type := {
  merge_consumed : list bool;
  merge_phases : list PhaseNode;
  merge_sources : gmap string PhaseComposition;
}.

(** The first child phase of that name that is not yet consumed, with its index *)
Definition find_child_phase (child_phases : list PhaseNode) (consumed : list bool) (name : string)
    : option (nat * PhaseNode) :=
  List.find (λ ip, negb (default false (consumed !! ip.1)) && bool_decide (PhaseNode_name ip.2 = name))
    (imap pair child_phases).

(** One [for parent_phase in parent_ast.phases] iteration *)
Definition merge_parent_phase (parent_source_id : PolicySourceId)
    (parent_phase_sources : gmap string PhaseComposition) (child_source : string)
    (child_phases : list PhaseNode) (st : merge_state) (parent_phase : PhaseNode) : merge_state :=
  let name := PhaseNode_name parent_phase in
  let parent_source :=
    match parent_phase_sources !! name with
    | None => source_label parent_source_id
    | Some composition => phase_source_label composition parent_source_id
    end in
  match find_child_phase child_phases (merge_consumed st) name with
  | Some (index, child_phase) =>
      let consumed := <[index := true]> (merge_consumed st) in
      if PhaseNode_extend child_phase then
        {| merge_consumed := consumed;
           merge_phases := merge_phases st ++ [extend_phase parent_phase child_phase];
           merge_sources :=
             <[name := PhaseComposition_Extended parent_source
                         (length (PhaseNode_operations child_phase))]> (merge_sources st) |}
      else
        {| merge_consumed := consumed;
           merge_phases := merge_phases st ++ [clear_extend child_phase];
           merge_sources := <[name := PhaseComposition_Overridden child_source]> (merge_sources st) |}
  | None =>
      {| merge_consumed := merge_consumed st;
         merge_phases := merge_phases st ++ [clear_extend parent_phase];
         merge_sources := <[name := PhaseComposition_Inherited parent_source]> (merge_sources st) |}
  end.

(** The remaining child phases, from [index] on *)
Fixpoint merge_child_phases (index : nat) (child_phases : list PhaseNode) (st : merge_state)
    : result DslPipelineError merge_state :=
  match child_phases with
  | [] => Ok st
  | phase :: child_phases =>
      if default false (merge_consumed st !! index) then merge_child_phases (S index) child_phases st
      else if PhaseNode_extend phase then
        composition_error ("phase " +:+ quote (PhaseNode_name phase)
                           +:+ " uses extend but no parent phase exists")
      else
        merge_child_phases (S index) child_phases
          {| merge_consumed := merge_consumed st;
             merge_phases := merge_phases st ++ [clear_extend phase];
             merge_sources := <[PhaseNode_name phase := PhaseComposition_Local]> (merge_sources st) |}
  end.

Definition merge_policy (parent : ResolvedPolicyAst) (child : PolicyAst) (source_id : PolicySourceId)
    : result DslPipelineError ResolvedPolicyAst :=
  let child_source := source_label source_id in
  let parent_ast := ResolvedPolicyAst_ast parent in
  let child_phases := PolicyAst_phases child in
  let st := foldl (merge_parent_phase (ResolvedPolicyAst_source_id parent)
                     (ResolvedPolicyAst_phase_sources parent) child_source child_phases)
              {| merge_consumed := replicate (length child_phases) false;
                 merge_phases := []; merge_sources := ∅ |}
              (PolicyAst_phases parent_ast) in
  st ← merge_child_phases 0 child_phases st;
  Ok {|
    ResolvedPolicyAst_ast := {|
      PolicyAst_name := PolicyAst_name child;
      PolicyAst_extends := None;
      PolicyAst_metadata := merge_metadata (PolicyAst_metadata parent_ast) (PolicyAst_metadata child);
      PolicyAst_config := opt_or (PolicyAst_config child) (PolicyAst_config parent_ast);
      PolicyAst_phases := merge_phases st;
      PolicyAst_span := PolicyAst_span child;
    |};
    ResolvedPolicyAst_source_id := source_id;
    ResolvedPolicyAst_extends_chain :=
      ResolvedPolicyAst_extends_chain parent ++ [source_label (ResolvedPolicyAst_source_id parent)];
    ResolvedPolicyAst_phase_sources := merge_sources st;
  |}.

(** [ast.extends.take()] *)
Definition take_extends (ast : PolicyAst) : PolicyAst := {|
  PolicyAst_name := PolicyAst_name ast;
  PolicyAst_extends := None;
  PolicyAst_metadata := PolicyAst_metadata ast;
  PolicyAst_config := PolicyAst_config ast;
  PolicyAst_phases := PolicyAst_phases ast;
  PolicyAst_span := PolicyAst_span ast;
|}.

(** ** Sources *)
Definition push_source (source_id : PolicySourceId) (stack : list PolicySourceId)
    : result DslPipelineError (list PolicySourceId) :=
  match list_find (λ source, source = source_id) stack with
  | Some (index, _) =>
      let chain := (source_label <$> drop index stack) ++ [source_label source_id] in
      composition_error ("cyclic policy extends: " +:+ str_join " -> " chain)
  | None => Ok (stack ++ [source_id])
  end.

(** [Path::parent] of a canonical path: all before the last separator. *)
Definition path_parent (path : PathBuf) : option PathBuf :=
  match reverse (split_slash "" path) with
  | [] | [_] => None
  | _ :: rest =>
      if bool_decide (path = "/") then None
      else Some (let dir := str_join "/" (reverse rest) in if bool_decide (dir = "") then "/" else dir)
  end.

Definition path_is_absolute (path : PathBuf) : bool := starts_with "/" path.

(** [Path::join] of a relative path *)
Definition path_join (base path : PathBuf) : PathBuf :=
  if bool_decide (base = "") || ends_with "/" base then base +:+ path else base +:+ "/" +:+ path.

Section resolve.
Context `{Pest} `{PolicySources}.

Definition bundled_policy (name : string) : option string :=
  snd <$> List.find (λ p, bool_decide (p.1 = name)) BUNDLED_POLICIES.

Definition canonicalize_existing_path (path : PathBuf) : result DslPipelineError PathBuf :=
  match canonicalize path with
  | Ok p => Ok p
  | Err err => composition_error ("failed to resolve policy file " +:+ path +:+ ": " +:+ err)
  end.

Definition unsupported_uri (uri : string) : string :=
  "unsupported policy extends URI " +:+ quote uri
  +:+ "; only file:// URIs and bundled policy names are supported".

Definition files_not_allowed : string :=
  "file:// policy extends requires compile_policy_file(path)".

Definition resolve_file_uri (uri : string) (base_dir : option PathBuf)
    : result DslPipelineError PathBuf :=
  match strip_prefix "file://" uri with
  | None => composition_error (unsupported_uri uri)
  | Some path =>
      if bool_decide (path = "") then
        composition_error "file:// policy extends URI must include a path"
      else
        path ← (if path_is_absolute path then Ok path
                else match base_dir with
                     | Some base_dir => Ok (path_join base_dir path)
                     | None => composition_error files_not_allowed
                     end);
        canonicalize_existing_path path
  end.

(** [map_err(DslPipelineError::Parse)] *)
Definition parse_source (source : string) : Attempt DslPipelineError PolicyAst :=
  match parse_policy source with
  | Done ast => Done ast
  | Fails e => Fails (DslPipelineError_Parse e)
  | Panics => Panics
  end.

Definition read_policy_file (path : PathBuf) : result DslPipelineError string :=
  match read_to_string path with
  | Ok source => Ok source
  | Err err => composition_error ("failed to read policy file " +:+ path +:+ ": " +:+ err)
  end.

(** Resolution goes on with [k] if [m] returns a value. *)
Definition then_resolve {A B} (m : Attempt DslPipelineError A)
    (k : A → option (Attempt DslPipelineError B)) : option (Attempt DslPipelineError B) :=
  match m with Done a => k a | Fails e => Some (Fails e) | Panics => Some Panics end.

(** [resolve_ast] and its two mutually recursive callers, [resolve_bundled_policy]
    and [resolve_file_path]. [fuel] bounds the length of the chain of parents;
    [None] is not enough fuel. The stack is threaded downwards: each caller pops
    what it pushed, and an error ends the resolution. *)
Fixpoint resolve_ast (fuel : nat) (ast : PolicyAst) (source_id : PolicySourceId)
    (base_dir : option PathBuf) (allow_files : AllowFiles) (stack : list PolicySourceId)
    : option (Attempt DslPipelineError ResolvedPolicyAst) :=
  match PolicyAst_extends ast with
  | None =>
      Some (returned (_ ← reject_unresolved_phase_extends ast;
                      Ok {| ResolvedPolicyAst_ast := take_extends ast;
                            ResolvedPolicyAst_source_id := source_id;
                            ResolvedPolicyAst_extends_chain := [];
                            ResolvedPolicyAst_phase_sources := ∅ |}))
  | Some extends =>
      match fuel with
      | O => None
      | S fuel =>
          parent ←
            match extends with
            | ExtendsSource_Bundled name =>
                if str_contains "://" name then Some (returned (composition_error (unsupported_uri name)))
                else
                  let parent_id := PolicySourceId_Bundled name in
                  then_resolve
                    (stack ← returned (push_source parent_id stack);
                     source ← match bundled_policy name with
                              | Some source => Done source
                              | None =>
                                  returned (composition_error ("unknown bundled policy " +:+ quote name))
                              end;
                     parent ← parse_source source;
                     Done (stack, parent))
                    (λ '(stack, parent), resolve_ast fuel parent parent_id None allow_files stack)
            | ExtendsSource_File uri =>
                match allow_files with
                | AllowFiles_No => Some (returned (composition_error files_not_allowed))
                | AllowFiles_Yes =>
                    then_resolve
                      (path ← returned (resolve_file_uri uri base_dir);
                       stack ← returned (push_source (PolicySourceId_File path) stack);
                       source ← returned (read_policy_file path);
                       parent ← parse_source source;
                       Done (path, stack, parent))
                      (λ '(path, stack, parent),
                         resolve_ast fuel parent (PolicySourceId_File path) (path_parent path)
                           allow_files stack)
                end
            end;
          Some (parent ← parent; returned (merge_policy parent (take_extends ast) source_id))
      end
  end.

Definition resolve_policy_with_bundled (fuel : nat) (source : string)
    : option (Attempt DslPipelineError ResolvedPolicyAst) :=
  then_resolve (parse_source source) (λ ast,
    resolve_ast fuel ast PolicySourceId_Inline None AllowFiles_No []).

Definition resolve_policy_file (fuel : nat) (path : PathBuf)
    : option (Attempt DslPipelineError ResolvedPolicyAst) :=
  then_resolve
    (path ← returned (canonicalize_existing_path path);
     stack ← returned (push_source (PolicySourceId_File path) []);
     source ← returned (read_policy_file path);
     ast ← parse_source source;
     Done (path, stack, ast))
    (λ '(path, stack, ast),
       resolve_ast fuel ast (PolicySourceId_File path) (path_parent path) AllowFiles_Yes stack).
End resolve.
