(* ===== verification/CompositionFacts.v ===== *)
(** * Facts on policy composition

    The closed form of a merge, what every resolved policy satisfies, and that
    resolution ends on every finite set of sources. *)
From S2P Require Import Prelude Ast Compiler PhaseGraph Parser Composition.

(** ** The merge of one phase *)

(** The phase that stands for parent phase [p] in the merged policy *)
Definition merged_phase (child_phases : list PhaseNode) (p : PhaseNode) : PhaseNode :=
  match List.find (λ c, bool_decide (PhaseNode_name c = PhaseNode_name p)) child_phases with
  | Some c => if PhaseNode_extend c then extend_phase p c else clear_extend c
  | None => clear_extend p
  end.

Lemma find_by_name (l : list PhaseNode) n c :
  List.find (λ c, bool_decide (PhaseNode_name c = n)) l = Some c → c ∈ l ∧ PhaseNode_name c = n.
Proof. intros [Hin Hn]%find_Some_elem_of. by apply bool_decide_eq_true in Hn. Qed.

Lemma merged_phase_name cs p : PhaseNode_name (merged_phase cs p) = PhaseNode_name p.
Proof.
  unfold merged_phase. destruct (List.find _ _) as [c|] eqn:Hf; [|done].
  apply find_by_name in Hf as [_ Hn]. by destruct (PhaseNode_extend c).
Qed.

Lemma merged_phase_extend cs p : PhaseNode_extend (merged_phase cs p) = false.
Proof. unfold merged_phase. destruct (List.find _ _) as [c|]; [by destruct (PhaseNode_extend c)|done]. Qed.

Lemma merged_phase_names cs (ps : list PhaseNode) :
  PhaseNode_name <$> (merged_phase cs <$> ps) = PhaseNode_name <$> ps.
Proof. rewrite <-list_fmap_compose. apply list_fmap_ext. intros. apply merged_phase_name. Qed.

Lemma clear_extend_names (l : list PhaseNode) : PhaseNode_name <$> (clear_extend <$> l) = PhaseNode_name <$> l.
Proof. rewrite <-list_fmap_compose. by apply list_fmap_ext. Qed.

Lemma clear_extend_id p : PhaseNode_extend p = false → clear_extend p = p.
Proof. destruct p. simpl. by intros ->. Qed.

Lemma find_by_name_unique (l : list PhaseNode) c :
  NoDup (PhaseNode_name <$> l) → c ∈ l →
  List.find (λ d, bool_decide (PhaseNode_name d = PhaseNode_name c)) l = Some c.
Proof.
  intros Hnd Hc. destruct (List.find _ _) as [d|] eqn:Hf.
  - apply find_by_name in Hf as [Hd Hn]. f_equal. by eapply NoDup_fmap_inj_elem.
  - eapply find_none in Hf; [|by apply list_elem_of_In]. by apply bool_decide_eq_false in Hf.
Qed.

(** With distinct child names, the child's phase of that name decides. *)
Lemma merged_phase_child cs p c :
  NoDup (PhaseNode_name <$> cs) → c ∈ cs → PhaseNode_name c = PhaseNode_name p →
  (PhaseNode_extend c = true →
     PhaseNode_operations (merged_phase cs p) = PhaseNode_operations p ++ PhaseNode_operations c) ∧
  (PhaseNode_extend c = false → merged_phase cs p = c).
Proof.
  intros Hnd Hc Hn. unfold merged_phase. rewrite <-Hn, find_by_name_unique by done.
  split; intros Hx; rewrite Hx; [done|]. by apply clear_extend_id.
Qed.

Lemma merged_phase_inherited cs p :
  PhaseNode_name p ∉ PhaseNode_name <$> cs → merged_phase cs p = clear_extend p.
Proof.
  intros Hn. unfold merged_phase. destruct (List.find _ _) as [c|] eqn:Hf; [|done].
  apply find_by_name in Hf as [Hc Hname]. destruct Hn. rewrite <-Hname.
  apply list_elem_of_fmap. eauto.
Qed.

(** Indexed search *)
Lemma find_imap (cs : list PhaseNode) (consumed : list bool) n f :
  (∀ i c, cs !! i = Some c → PhaseNode_name c = n → default false (consumed !! f i) = false) →
  snd <$> List.find (λ ip, negb (default false (consumed !! ip.1)) &&
                           bool_decide (PhaseNode_name ip.2 = n)) (imap (λ i c, (f i, c)) cs) =
  List.find (λ c, bool_decide (PhaseNode_name c = n)) cs.
Proof.
  revert f; induction cs as [|c cs IH]; intros f Hc; [done|]. rewrite imap_cons. simpl.
  case_bool_decide as Hn.
  - rewrite (Hc 0 c) by done. done.
  - rewrite andb_false_r. apply (IH (f ∘ S)). intros i d Hi. apply (Hc (S i) d Hi).
Qed.

Lemma find_child_phase_Some cs consumed n i c :
  find_child_phase cs consumed n = Some (i, c) →
  cs !! i = Some c ∧ PhaseNode_name c = n ∧ default false (consumed !! i) = false.
Proof.
  unfold find_child_phase. intros [Hin Hb]%find_Some_elem_of. simpl in Hb.
  apply andb_prop in Hb as [Hc Hn]. apply bool_decide_eq_true in Hn.
  apply negb_true_iff in Hc. split; [|done].
  apply list_elem_of_lookup in Hin as [j Hj]. rewrite list_lookup_imap in Hj.
  destruct (cs !! j) eqn:Hcs; simpl in Hj; [|done]. by simplify_eq.
Qed.

Section merge.
Context (sid : PolicySourceId) (psources : gmap string PhaseComposition) (label : string).
Context (cs : list PhaseNode).
Hypothesis child_names : NoDup (PhaseNode_name <$> cs).

Let step := merge_parent_phase sid psources label cs.

(** After the parent phases [done], exactly the child phases of their names are
    consumed. *)
Record merge_inv (done : list PhaseNode) (st : merge_state) : Prop := {
  inv_length : length (merge_consumed st) = length cs;
  inv_consumed i c : cs !! i = Some c →
    default false (merge_consumed st !! i) = true ↔ PhaseNode_name c ∈ PhaseNode_name <$> done;
  inv_phases : merge_phases st = merged_phase cs <$> done;
  inv_sources n : is_Some (merge_sources st !! n) ↔ n ∈ PhaseNode_name <$> done;
}.

Lemma merge_step_consumed done st p :
  merge_inv done st → ∀ i c, cs !! i = Some c →
  default false (merge_consumed (step st p) !! i) = true ↔
  PhaseNode_name c ∈ PhaseNode_name <$> (done ++ [p]).
Proof.
  intros [Hl Hc _ _] i c Hi. rewrite fmap_app, elem_of_app, <-(Hc i c Hi). simpl.
  rewrite list_elem_of_singleton. unfold step, merge_parent_phase.
  destruct (find_child_phase _ _ _) as [[j d]|] eqn:Hf.
  - apply find_child_phase_Some in Hf as (Hj & Hd & Hfalse).
    assert (default false (<[j:=true]> (merge_consumed st) !! i) = true ↔
            default false (merge_consumed st !! i) = true ∨ PhaseNode_name c = PhaseNode_name p);
      [|by destruct (PhaseNode_extend d)].
    destruct (decide (i = j)) as [->|Hne].
    + rewrite list_lookup_insert_eq by (rewrite Hl; by eapply lookup_lt_Some).
      simplify_eq/=. naive_solver.
    + rewrite list_lookup_insert_ne by done. split; [by left|]. intros [?|Hname]; [done|].
      destruct Hne. eapply (NoDup_lookup _ _ _ (PhaseNode_name p) child_names);
        rewrite list_lookup_fmap; [rewrite Hi|rewrite Hj]; simpl; congruence.
  - simpl. split; [by left|]. intros [?|Hname]; [done|].
    destruct (default false (merge_consumed st !! i)) eqn:Hdef; [done|].
    unfold find_child_phase in Hf. eapply find_none in Hf.
    2:{ apply list_elem_of_In, list_elem_of_lookup. exists i. rewrite list_lookup_imap, Hi. done. }
    simpl in Hf. rewrite Hdef in Hf. simpl in Hf. by apply bool_decide_eq_false in Hf.
Qed.

Lemma merge_step_phases done st p :
  merge_inv done st → PhaseNode_name p ∉ PhaseNode_name <$> done →
  merge_phases (step st p) = (merged_phase cs <$> done) ++ [merged_phase cs p].
Proof.
  intros [Hl Hc Hp _] Hn. unfold step, merge_parent_phase.
  assert (snd <$> find_child_phase cs (merge_consumed st) (PhaseNode_name p) =
          List.find (λ c, bool_decide (PhaseNode_name c = PhaseNode_name p)) cs) as Hfind.
  { apply (find_imap cs _ _ id). intros i c Hi Hname. apply not_true_iff_false.
    rewrite (Hc i c Hi). by rewrite Hname. }
  unfold merged_phase. rewrite <-Hfind.
  destruct (find_child_phase _ _ _) as [[j d]|]; simpl; [|by rewrite Hp].
  destruct (PhaseNode_extend d); simpl; by rewrite Hp.
Qed.

Lemma merge_step_sources st p n :
  is_Some (merge_sources (step st p) !! n) ↔
  is_Some (merge_sources st !! n) ∨ n = PhaseNode_name p.
Proof.
  assert (∀ v, is_Some (<[PhaseNode_name p := v]> (merge_sources st) !! n) ↔
               is_Some (merge_sources st !! n) ∨ n = PhaseNode_name p) as Hins.
  { intros v. rewrite lookup_insert_is_Some'. naive_solver. }
  unfold step, merge_parent_phase.
  destruct (find_child_phase _ _ _) as [[j d]|]; [destruct (PhaseNode_extend d)|]; apply Hins.
Qed.

Lemma merge_step_inv done st p :
  merge_inv done st → PhaseNode_name p ∉ PhaseNode_name <$> done →
  merge_inv (done ++ [p]) (step st p).
Proof.
  intros Hinv Hn. split.
  - destruct Hinv as [Hl _ _ _]. unfold step, merge_parent_phase.
    destruct (find_child_phase _ _ _) as [[j d]|]; [destruct (PhaseNode_extend d)|]; simpl;
      by rewrite ?length_insert.
  - by apply merge_step_consumed.
  - rewrite fmap_app. by apply merge_step_phases.
  - intros n. rewrite merge_step_sources, (inv_sources _ _ Hinv), fmap_app. set_solver.
Qed.

Lemma merge_fold_inv ps done st :
  merge_inv done st → NoDup (PhaseNode_name <$> (done ++ ps)) →
  merge_inv (done ++ ps) (foldl step st ps).
Proof.
  revert done st; induction ps as [|p ps IH]; intros done st Hinv Hnd; cbn [foldl].
  { by rewrite app_nil_r. }
  replace (done ++ p :: ps) with ((done ++ [p]) ++ ps) in * by (by rewrite <-(assoc_L (++))).
  apply IH; [|done]. apply merge_step_inv; [done|].
  rewrite !fmap_app in Hnd. apply NoDup_app in Hnd as (Hnd & _ & _).
  apply NoDup_app in Hnd as (_ & Hnd & _). simpl in Hnd. intros Hin.
  apply (Hnd _ Hin). set_solver.
Qed.
End merge.

(** The phases of [l] whose names are not in [names] *)
Definition fresh_phases (names : list string) (l : list PhaseNode) : list PhaseNode :=
  List.filter (λ c, negb (bool_decide (PhaseNode_name c ∈ names))) l.

(** The child phases that stand for no parent phase *)
Definition unmatched (cs ps : list PhaseNode) : list PhaseNode :=
  fresh_phases (PhaseNode_name <$> ps) cs.

Section children.
Context (names : list string).

(** The remaining child phases are appended, unless one of them extends. *)
Lemma merge_child_phases_spec cs i st :
  (∀ j c, cs !! j = Some c →
    default false (merge_consumed st !! (i + j)) = bool_decide (PhaseNode_name c ∈ names)) →
  match List.find PhaseNode_extend (fresh_phases names cs) with
  | Some c => merge_child_phases i cs st =
      composition_error ("phase " +:+ quote (PhaseNode_name c)
                         +:+ " uses extend but no parent phase exists")
  | None => ∃ st', merge_child_phases i cs st = Ok st' ∧
      merge_phases st' = merge_phases st ++ (clear_extend <$> fresh_phases names cs) ∧
      ∀ n, is_Some (merge_sources st' !! n) ↔
           is_Some (merge_sources st !! n) ∨ n ∈ PhaseNode_name <$> fresh_phases names cs
  end.
Proof.
  revert i st; induction cs as [|c cs IH]; intros i st Hc; simpl.
  { exists st. split_and!; [done|by rewrite app_nil_r|set_solver]. }
  pose proof (Hc 0 c eq_refl) as H0. rewrite Nat.add_0_r in H0. rewrite H0.
  assert (∀ j d, cs !! j = Some d →
    default false (merge_consumed st !! (S i + j)) = bool_decide (PhaseNode_name d ∈ names)) as Hc'.
  { intros j d Hj. rewrite <-(Hc (S j) d Hj). do 2 f_equal. lia. }
  case_bool_decide; simpl; [by apply IH|].
  destruct (PhaseNode_extend c) eqn:Hx; [done|].
  set (st' := {| merge_consumed := merge_consumed st |}).
  specialize (IH (S i) st' Hc'). destruct (List.find PhaseNode_extend (fresh_phases names cs)); [done|].
  destruct IH as (st'' & Heq & Hp & Hs). exists st''. csimpl. split_and!; [done| |].
  - rewrite Hp. simpl. by rewrite <-(assoc_L (++)).
  - intros n. rewrite Hs. simpl. rewrite lookup_insert_is_Some', elem_of_cons. naive_solver.
Qed.
End children.

(** ** The whole merge *)
Definition ResolvedPolicyAst_phases (r : ResolvedPolicyAst) : list PhaseNode :=
  PolicyAst_phases (ResolvedPolicyAst_ast r).

Lemma merge_policy_cases parent child sid :
  let ps := ResolvedPolicyAst_phases parent in
  let cs := PolicyAst_phases child in
  NoDup (PhaseNode_name <$> ps) → NoDup (PhaseNode_name <$> cs) →
  match List.find PhaseNode_extend (unmatched cs ps) with
  | Some c => merge_policy parent child sid =
      composition_error ("phase " +:+ quote (PhaseNode_name c)
                         +:+ " uses extend but no parent phase exists")
  | None => ∃ r, merge_policy parent child sid = Ok r ∧
      ResolvedPolicyAst_phases r =
        (merged_phase cs <$> ps) ++ (clear_extend <$> unmatched cs ps) ∧
      (∀ n, is_Some (ResolvedPolicyAst_phase_sources r !! n) ↔
            n ∈ PhaseNode_name <$> ResolvedPolicyAst_phases r)
  end.
Proof.
  intros ps cs Hps Hcs. unfold merge_policy. fold cs. fold (ResolvedPolicyAst_phases parent). fold ps.
  set (st0 := {| merge_consumed := replicate (length cs) false;
                 merge_phases := []; merge_sources := ∅ |}).
  assert (merge_inv cs [] st0) as H0.
  { split; simpl.
    - apply length_replicate.
    - intros i c Hi. rewrite lookup_replicate_2 by (by eapply lookup_lt_Some). simpl. set_solver.
    - done.
    - intros n. rewrite lookup_empty. split; [by intros [? ?]|set_solver]. }
  destruct (merge_fold_inv (ResolvedPolicyAst_source_id parent)
    (ResolvedPolicyAst_phase_sources parent) (source_label sid) cs Hcs ps [] st0 H0 Hps)
    as [_ Hc Hp Hs].
  set (st := foldl _ st0 ps) in *. simpl in *.
  pose proof (merge_child_phases_spec (PhaseNode_name <$> ps) cs 0 st) as Hspec.
  fold (unmatched cs ps) in Hspec.
  destruct (List.find PhaseNode_extend (unmatched cs ps)) as [c|].
  - rewrite Hspec; [done|]. intros j c' Hj. simpl. apply eq_iff_eq_true.
    by rewrite (Hc j c' Hj), bool_decide_eq_true.
  - destruct Hspec as (st' & -> & Hp' & Hs').
    { intros j c' Hj. simpl. apply eq_iff_eq_true. by rewrite (Hc j c' Hj), bool_decide_eq_true. }
    eexists. split; [done|]. unfold ResolvedPolicyAst_phases. simpl.
    split; [by rewrite Hp', Hp|]. intros n. rewrite Hs', Hs, Hp', Hp, fmap_app, elem_of_app.
    by rewrite merged_phase_names, clear_extend_names.
Qed.

Lemma merge_policy_names parent child sid r :
  let ps := ResolvedPolicyAst_phases parent in
  let cs := PolicyAst_phases child in
  NoDup (PhaseNode_name <$> ps) → NoDup (PhaseNode_name <$> cs) →
  merge_policy parent child sid = Ok r →
  PhaseNode_name <$> ResolvedPolicyAst_phases r =
    (PhaseNode_name <$> ps) ++ (PhaseNode_name <$> unmatched cs ps) ∧
  NoDup (PhaseNode_name <$> ResolvedPolicyAst_phases r).
Proof.
  intros ps cs Hps Hcs Hm. pose proof (merge_policy_cases parent child sid Hps Hcs) as Hcase.
  fold ps cs in Hcase. destruct (List.find _ _) as [c|]; [by rewrite Hm in Hcase|].
  destruct Hcase as (r' & Hm' & Hp & _). assert (r' = r) as -> by congruence.
  rewrite Hp, fmap_app, merged_phase_names, clear_extend_names. split; [done|].
  apply NoDup_app. split_and!; [done| |].
  - intros n Hn (c & -> & [_ Hc]%filter_elem_of)%list_elem_of_fmap.
    apply negb_true_iff, bool_decide_eq_false in Hc. done.
  - revert Hcs. unfold unmatched, fresh_phases. clear. induction cs as [|c l IH]; csimpl; [done|].
    intros [Hc Hl]%NoDup_cons. destruct (negb _); [|by apply IH]. csimpl.
    apply NoDup_cons. split; [|by apply IH]. intros (d & Hd & [Hin _]%filter_elem_of)%list_elem_of_fmap.
    apply Hc. apply list_elem_of_fmap. eauto.
Qed.

(** ** Extension flags never survive *)
Lemma merge_parent_phase_extend sid psources label cs st p :
  Forall (λ p, PhaseNode_extend p = false) (merge_phases st) →
  Forall (λ p, PhaseNode_extend p = false)
    (merge_phases (merge_parent_phase sid psources label cs st p)).
Proof.
  intros Hst. unfold merge_parent_phase.
  destruct (find_child_phase _ _ _) as [[j d]|]; [destruct (PhaseNode_extend d)|]; simpl;
    apply Forall_app; (split; [done|by constructor]).
Qed.

Lemma merge_child_phases_extend cs i st st' :
  Forall (λ p, PhaseNode_extend p = false) (merge_phases st) →
  merge_child_phases i cs st = Ok st' →
  Forall (λ p, PhaseNode_extend p = false) (merge_phases st').
Proof.
  revert i st; induction cs as [|c cs IH]; intros i st Hst; simpl; [by intros [= <-]|].
  destruct (default false _); [by apply IH|]. destruct (PhaseNode_extend c); [done|].
  apply IH. simpl. apply Forall_app. split; [done|by constructor].
Qed.

(** A resolved policy has no [extends] clause and no [extend] flag left. *)
Definition resolved_ok (r : ResolvedPolicyAst) : Prop :=
  PolicyAst_extends (ResolvedPolicyAst_ast r) = None ∧
  Forall (λ p, PhaseNode_extend p = false) (ResolvedPolicyAst_phases r).

Lemma merge_policy_resolved parent child sid r :
  merge_policy parent child sid = Ok r →
  resolved_ok r ∧ ResolvedPolicyAst_source_id r = sid ∧
  ResolvedPolicyAst_extends_chain r =
    ResolvedPolicyAst_extends_chain parent ++ [source_label (ResolvedPolicyAst_source_id parent)].
Proof.
  unfold merge_policy. destruct (merge_child_phases _ _ _) as [st|] eqn:Hm; simpl; [|done].
  intros [= <-]. split_and!; [split; [done|]|done|done]. unfold ResolvedPolicyAst_phases. simpl.
  eapply merge_child_phases_extend; [|done].
  assert (∀ ps st, Forall (λ p, PhaseNode_extend p = false) (merge_phases st) →
    Forall (λ p, PhaseNode_extend p = false) (merge_phases (foldl (merge_parent_phase
      (ResolvedPolicyAst_source_id parent) (ResolvedPolicyAst_phase_sources parent)
      (source_label sid) (PolicyAst_phases child)) st ps))) as Hfold; [|by apply Hfold; constructor].
  induction ps as [|p ps IH]; intros st' Hst'; simpl; [done|].
  by apply IH, merge_parent_phase_extend.
Qed.

(** ** Termination *)
Section resolve.
Context `{Pest} `{PolicySources} (files : list PathBuf).

Definition known_sources : list PolicySourceId :=
  (PolicySourceId_Bundled <$> BUNDLED_POLICIES.*1) ++ (PolicySourceId_File <$> files).

Lemma push_source_Ok sid stack stack' :
  push_source sid stack = Ok stack' → stack' = stack ++ [sid] ∧ sid ∉ stack.
Proof.
  unfold push_source. destruct (list_find _ _) as [[i x]|] eqn:Hf; [done|].
  intros [= <-]. split; [done|]. apply list_find_None in Hf. rewrite Forall_forall in Hf.
  intros Hin. by eapply Hf.
Qed.

Lemma push_source_cycle sid stack :
  sid ∈ stack →
  ∃ chain, push_source sid stack =
    composition_error ("cyclic policy extends: " +:+ str_join " -> " chain).
Proof.
  intros Hin. unfold push_source. destruct (list_find _ _) as [[i x]|] eqn:Hf; [by eexists|].
  apply list_find_None in Hf. rewrite Forall_forall in Hf. by destruct (Hf _ Hin).
Qed.

(** The stack of sources under resolution *)
Definition stack_ok (stack : list PolicySourceId) : Prop :=
  NoDup stack ∧ stack ⊆ known_sources.

Lemma stack_ok_length stack : stack_ok stack → length stack ≤ length known_sources.
Proof. intros [Hnd Hsub]. by apply submseteq_length, NoDup_submseteq. Qed.

Lemma stack_ok_push sid stack :
  stack_ok stack → sid ∉ stack → sid ∈ known_sources → stack_ok (stack ++ [sid]).
Proof.
  intros [Hnd Hsub] Hn Hk. split; [|set_solver].
  apply NoDup_app. split_and!; [done|set_solver|apply NoDup_singleton].
Qed.

Lemma bundled_known name source :
  bundled_policy name = Some source → PolicySourceId_Bundled name ∈ known_sources.
Proof.
  unfold bundled_policy. intros ([n s] & Hf & _)%fmap_Some.
  apply find_Some_elem_of in Hf as [Hin Hn]. apply bool_decide_eq_true in Hn. simpl in Hn. subst n.
  apply elem_of_app. left. apply list_elem_of_fmap. exists name. split; [done|].
  apply list_elem_of_fmap. by exists (name, s).
Qed.

Lemma file_known path source :
  (∀ p s, read_to_string p = Ok s → p ∈ files) → read_policy_file path = Ok source → PolicySourceId_File path ∈ known_sources.
Proof.
  intros readable. unfold read_policy_file. destruct (read_to_string path) as [s|] eqn:Hr; [|done]. intros _.
  apply elem_of_app. right. apply list_elem_of_fmap. exists path. split; [done|]. by eapply readable.
Qed.

(** One more unit of fuel than sources outside the stack is enough. *)
Lemma resolve_ast_total fuel ast sid base allow stack :
  (allow = AllowFiles_Yes → ∀ p s, read_to_string p = Ok s → p ∈ files) →
  stack_ok stack → length known_sources < fuel + length stack →
  ∃ r, resolve_ast fuel ast sid base allow stack = Some r ∧
    ∀ res, r = Done res →
      resolved_ok res ∧ ResolvedPolicyAst_source_id res = sid ∧
      length (ResolvedPolicyAst_extends_chain res) + length stack ≤ length known_sources.
Proof.
  intros Hread. revert ast sid base stack; induction fuel as [|fuel IH]; intros ast sid base stack Hst Hlen;
    pose proof (stack_ok_length _ Hst) as Hle; [lia|]. simpl.
  destruct (PolicyAst_extends ast) as [ext|] eqn:Hext.
  - assert (∀ sid' base' stack' parent', stack_ok stack' → length stack' = S (length stack) →
      ∃ r, (parent ← resolve_ast fuel parent' sid' base' allow stack';
            Some (parent ← parent; returned (merge_policy parent (take_extends ast) sid))) = Some r ∧
        ∀ res, r = Done res →
          resolved_ok res ∧ ResolvedPolicyAst_source_id res = sid ∧
          length (ResolvedPolicyAst_extends_chain res) + length stack ≤ length known_sources) as Hrec.
    { intros sid' base' stack' parent' Hst' Hl'.
      destruct (IH parent' sid' base' stack' Hst') as (r & -> & Hr); [lia|].
      eexists. split; [done|]. intros res. destruct r as [parent|e|]; simpl; [|done|done].
      destruct (merge_policy parent (take_extends ast) sid) as [m|] eqn:Hmerge; [|done].
      intros [= ->]. apply merge_policy_resolved in Hmerge as (Hok & Hsid & ->).
      destruct (Hr parent eq_refl) as (_ & _ & Hchain). rewrite length_app. simpl.
      split_and!; [done|done|lia]. }
    destruct ext as [name|uri].
    + destruct (str_contains "://" name); [by eexists|].
      destruct (push_source _ stack) as [stack'|e] eqn:Hp; simpl; [|by eexists].
      apply push_source_Ok in Hp as [-> Hn].
      destruct (bundled_policy name) as [source|] eqn:Hb; simpl; [|by eexists].
      destruct (parse_source source) as [parent| |]; simpl; [|by eexists..].
      apply Hrec; [|rewrite length_app; simpl; lia].
      apply stack_ok_push; [done|done|by eapply bundled_known].
    + destruct allow; [|by eexists].
      destruct (resolve_file_uri uri base) as [path|]; simpl; [|by eexists].
      destruct (push_source _ stack) as [stack'|e] eqn:Hp; simpl; [|by eexists].
      apply push_source_Ok in Hp as [-> Hn].
      destruct (read_policy_file path) as [source|] eqn:Hb; simpl; [|by eexists].
      destruct (parse_source source) as [parent| |]; simpl; [|by eexists..].
      apply Hrec; [|rewrite length_app; simpl; lia].
      apply stack_ok_push; [done|done|by eapply file_known; [apply Hread|]].
  - eexists. split; [done|]. unfold reject_unresolved_phase_extends.
    destruct (List.find _ _) eqn:Hf; simpl; [done|]. intros res [= <-].
    split_and!; [split; [done|]|done|done]. unfold ResolvedPolicyAst_phases. simpl.
    apply Forall_forall. intros p Hp. eapply find_none in Hf; [done|by apply list_elem_of_In].
Qed.
End resolve.
