(* ===== verification/Pipeline.v ===== *)
(** * The policy pipeline

    [crates/voom-dsl/src/lib.rs] and [service.rs]: parse, resolve, validate and
    compile in one call, and the service functions of the editors. The outer
    [option] of a result is a panic of the code (or missing fuel). *)
From S2P Require Import Prelude Media Plan Compiled Ast TopoSort Compiler CompilerFacts.
From S2P Require Import PhaseGraph Validator Formatter Grammar Parser ParserFacts Composition.
From S2P Require Import CompositionFacts.

(** [format!("{:016x}", xxh3_64(source.as_bytes()))] *)
Class SourceHash := source_hash : string → string.

Definition with_source_hash (policy : CompiledPolicy) (hash : string) : CompiledPolicy := {|
  CompiledPolicy_name := CompiledPolicy_name policy;
  CompiledPolicy_metadata := CompiledPolicy_metadata policy;
  CompiledPolicy_config := CompiledPolicy_config policy;
  CompiledPolicy_phases := CompiledPolicy_phases policy;
  CompiledPolicy_phase_order := CompiledPolicy_phase_order policy;
  CompiledPolicy_source_hash := hash;
|}.

Section pipeline.
Context `{Pest} `{PolicySources, SourceHash, F64Display, RegexCrate, ValueDebug, PartitionPoint, HashOrder}.

Definition compile_resolved_ast (resolved : ResolvedPolicyAst)
    : result compile_failure CompiledPolicy :=
  compile_ast_with_composition (ResolvedPolicyAst_ast resolved)
    (ResolvedPolicyAst_extends_chain resolved) (ResolvedPolicyAst_phase_sources resolved).

(** [compile(..).map_err(DslPipelineError::Compile)], then the hash of [source] *)
Definition compile_and_hash (r : result compile_failure CompiledPolicy) (source : string)
    : option (result DslPipelineError CompiledPolicy) :=
  match r with
  | Ok policy => Some (Ok (with_source_hash policy (source_hash source)))
  | Err (CompileError e) => Some (Err (DslPipelineError_Compile e))
  | Err (CompilePanic _) => None
  end.

(** [validate(ast).map_err(DslPipelineError::Validation)?] before [k] *)
Definition validate_then {A} (ast : PolicyAst) (k : option (result DslPipelineError A))
    : option (result DslPipelineError A) :=
  v ← validate ast;
  match v with
  | Ok _ => k
  | Err e => Some (Err (DslPipelineError_Validation e))
  end.

Definition compile_policy (source : string) : option (result DslPipelineError CompiledPolicy) :=
  match parse_source source with
  | Panics => None
  | Fails e => Some (Err e)
  | Done ast =>
      match PolicyAst_extends ast with
      | Some _ =>
          Some (composition_error
            ("policy extends requires composition resolution; use "
             +:+ "compile_policy_with_bundled(source) or compile_policy_file(path)"))
      | None => validate_then ast (compile_and_hash (compile_ast ast) source)
      end
  end.

Definition compile_resolved_policy (resolved : ResolvedPolicyAst)
    (standalone_source : option string) : option (result DslPipelineError CompiledPolicy) :=
  let ast := ResolvedPolicyAst_ast resolved in
  let composed := negb (bool_decide (ResolvedPolicyAst_extends_chain resolved = []))
                  || negb (bool_decide (ResolvedPolicyAst_phase_sources resolved = ∅)) in
  let source :=
    match standalone_source with
    | Some source => if composed then format_policy ast else source
    | None => format_policy ast
    end in
  validate_then ast (compile_and_hash (compile_resolved_ast resolved) source).

Definition compile_policy_with_bundled (fuel : nat) (source : string)
    : option (result DslPipelineError CompiledPolicy) :=
  resolved ← resolve_policy_with_bundled fuel source;
  match resolved with
  | Panics => None
  | Fails e => Some (Err e)
  | Done resolved => compile_resolved_policy resolved (Some source)
  end.

Definition compile_policy_file (fuel : nat) (path : PathBuf)
    : option (result DslPipelineError CompiledPolicy) :=
  resolved ← resolve_policy_file fuel path;
  match resolved with
  | Panics => None
  | Fails e => Some (Err e)
  | Done resolved =>
      if bool_decide (ResolvedPolicyAst_extends_chain resolved = [])
         && bool_decide (ResolvedPolicyAst_phase_sources resolved = ∅) then
        match read_policy_file path with
        | Err e => Some (Err e)
        | Ok source => compile_resolved_policy resolved (Some source)
        end
      else compile_resolved_policy resolved None
  end.

(** ** Services *)
Record ErrorInfo : Type := {
  ErrorInfo_message : string;
  ErrorInfo_line : option usize;
  ErrorInfo_column : option usize;
  ErrorInfo_suggestion : option string;
}.

Record ValidationResult : Type := {
  ValidationResult_valid : bool;
  ValidationResult_errors : list ErrorInfo;
}.

Record FormatResult : Type := {
  FormatResult_formatted : option string;
  FormatResult_errors : list ErrorInfo;
}.

Definition error_info_from_dsl (err : DslError) : ErrorInfo :=
  match err with
  | DslError_Parse line col message suggestion =>
      {| ErrorInfo_message := "parse error at " +:+ fmt_at line col message;
         ErrorInfo_line := Some line; ErrorInfo_column := Some col;
         ErrorInfo_suggestion := suggestion |}
  | DslError_Build line col message =>
      {| ErrorInfo_message := "AST build error at " +:+ fmt_at line col message;
         ErrorInfo_line := Some line; ErrorInfo_column := Some col;
         ErrorInfo_suggestion := None |}
  | DslError_Validation line col message suggestion =>
      {| ErrorInfo_message := "validation error at " +:+ fmt_at line col message;
         ErrorInfo_line := Some line; ErrorInfo_column := Some col;
         ErrorInfo_suggestion := suggestion |}
  | DslError_Compile message =>
      {| ErrorInfo_message := "compilation error: " +:+ message;
         ErrorInfo_line := None; ErrorInfo_column := None;
         ErrorInfo_suggestion := None |}
  end.

Definition validate_source (source : string) : option ValidationResult :=
  match parse_policy source with
  | Done ast =>
      v ← validate ast;
      Some match v with
           | Ok _ => {| ValidationResult_valid := true; ValidationResult_errors := [] |}
           | Err e => {| ValidationResult_valid := false;
                         ValidationResult_errors :=
                           error_info_from_dsl <$> ValidationErrors_errors e |}
           end
  | Fails e =>
      Some {| ValidationResult_valid := false;
              ValidationResult_errors := [error_info_from_dsl e] |}
  | Panics => None
  end.

Definition format_source (source : string) : option FormatResult :=
  match parse_policy source with
  | Done ast =>
      Some {| FormatResult_formatted := Some (format_policy ast); FormatResult_errors := [] |}
  | Fails e =>
      Some {| FormatResult_formatted := None; FormatResult_errors := [error_info_from_dsl e] |}
  | Panics => None
  end.
End pipeline.

(** * Facts on the pipeline

    String literals read back, a validated policy compiles, and neither
    validation nor compilation of a resolved policy panics. *)

(** ** String literals *)
Lemma str_replace_cons c rep d s :
  str_replace (String c "") rep (String d s) =
  if bool_decide (c = d) then rep +:+ str_replace (String c "") rep s
  else String d (str_replace (String c "") rep s).
Proof. unfold str_replace. simpl. rewrite andb_true_r. by case_bool_decide. Qed.

Definition escape_char (c : ascii) : string :=
  if bool_decide (c = ascii_of_nat 92) then String c (String c "")
  else if bool_decide (c = ascii_of_nat 34) then backslash +:+ String c ""
  else String c "".

Lemma escape_string_cons c s : escape_string (String c s) = escape_char c +:+ escape_string s.
Proof.
  unfold escape_string, escape_char, backslash, dquote.
  rewrite (str_replace_cons (ascii_of_nat 92)). destruct (decide (c = ascii_of_nat 92)) as [->|Hb].
  - rewrite !(bool_decide_true (_ = _)) by done.
    set (rest := str_replace (String (ascii_of_nat 92) "") _ s).
    change ((String (ascii_of_nat 92) "" +:+ String (ascii_of_nat 92) "") +:+ rest)
      with (String (ascii_of_nat 92) (String (ascii_of_nat 92) rest)).
    rewrite !str_replace_cons. by rewrite !(bool_decide_false (ascii_of_nat 34 = _)) by done.
  - rewrite !(bool_decide_false (_ = ascii_of_nat 92)), (bool_decide_false (ascii_of_nat 92 = _))
      by congruence.
    rewrite str_replace_cons. destruct (decide (c = ascii_of_nat 34)) as [->|Hq].
    + by rewrite !(bool_decide_true (_ = _)).
    + by rewrite (bool_decide_false (c = _)), (bool_decide_false (_ = c)) by congruence.
Qed.

Lemma escape_string_nil : escape_string "" = "".
Proof. done. Qed.

Lemma unescape_escape s : unescape (escape_string s) = s.
Proof.
  induction s as [|c s IH]; [done|]. rewrite escape_string_cons. unfold escape_char.
  case_bool_decide as Hb; [|case_bool_decide as Hq]; subst; simpl;
    change ("" +:+ escape_string s) with (escape_string s);
    rewrite ?(bool_decide_false (c = _)) by done; by rewrite IH.
Qed.

Lemma substring_all s : String.substring 0 (String.length s) s = s.
Proof. induction s as [|c s IH]; simpl; [done|]. by rewrite IH. Qed.

Lemma substring_prefix s t : String.substring 0 (String.length s) (s +:+ t) = s.
Proof. induction s as [|c s IH]; simpl; [by destruct t|]. by rewrite IH. Qed.

Lemma ends_with_app s t : ends_with t (s +:+ t) = true.
Proof.
  induction s as [|c s IH]; [|simpl; by rewrite IH, orb_true_r].
  change ("" +:+ t) with t. destruct t; [done|]. cbn [ends_with]. by rewrite bool_decide_true.
Qed.

Lemma parse_quoted s : parse_string_value (quoted s) = s.
Proof.
  unfold parse_string_value, quoted.
  assert (starts_with dquote (dquote +:+ escape_string s +:+ dquote) = true) as -> by done.
  assert (ends_with dquote (dquote +:+ escape_string s +:+ dquote) = true) as ->.
  { exact (ends_with_app (String (ascii_of_nat 34) (escape_string s)) dquote). }
  change (dquote +:+ escape_string s +:+ dquote)
    with (String (ascii_of_nat 34) (escape_string s +:+ dquote)).
  cbn [String.length String.substring andb]. rewrite string_length_app.
  replace (S (String.length (escape_string s) + String.length dquote) - 2)
    with (String.length (escape_string s)) by (simpl; lia).
  rewrite substring_prefix. apply unescape_escape.
Qed.

(** ** Validated policies compile *)
Section compiles.
Context `{RegexCrate, ValueDebug, PartitionPoint, HashOrder}.

Lemma validated_compiles ast chain sources :
  validate ast = Some (Ok tt) → unchecked_parts_ok ast = true →
  ∃ policy, compile_ast_with_composition ast chain sources = Ok policy.
Proof.
  intros (_ & Hn & Hr & _ & Hreach & Hp)%validate_Ok Hu. unfold unchecked_parts_ok in Hu.
  rewrite forallb_elem_of in Hu. unfold compile_ast_with_composition.
  destruct (try_map_Ok_exists (λ phase, compile_phase phase (sources !! PhaseNode_name phase))
    (PolicyAst_phases ast)) as [phases ->].
  { intros p Hin. eapply validated_phase_compiles; [by apply Hp|by apply Hu]. }
  simpl. destruct (validated_graph_sorts ast) as (order & -> & _); [done..|]. by eexists.
Qed.
End compiles.

(** ** No panics *)
Section targets.
Context `{HashOrder, RegexCrate}.

Lemma valid_target_target_ok target line col :
  validate_track_target target line col = [] → target_ok target = true.
Proof.
  intros [t Ht]%valid_target_ok. unfold parse_track_target in Ht. unfold target_ok.
  by destruct (track_target_of target).
Qed.

Lemma valid_target_filter_ok target filter line col names :
  diag_errors (validate_target_filter target filter line col names) = [] → target_ok target = true.
Proof. intros [Ht _]%diag_app_ok. exact (valid_target_target_ok _ _ _ Ht). Qed.

Lemma valid_condition_ok c line col names :
  diag_errors (validate_condition c line col names) = [] → condition_ok c = true.
Proof.
  induction c as [c Hf|cs IH|cs IH|c IH] using ConditionNode_nested_ind; simpl.
  - destruct c; try done; apply valid_target_filter_ok.
  - rewrite diag_each_ok, forallb_elem_of. rewrite Forall_forall in IH. auto.
  - rewrite diag_each_ok, forallb_elem_of. rewrite Forall_forall in IH. auto.
  - done.
Qed.

Lemma valid_action_ok a line col names :
  diag_errors (validate_action a line col names) = [] → action_node_ok a = true.
Proof.
  destruct a; unfold validate_action; try done; rewrite ?diag_app_ok; intros Hv;
    try apply proj1 in Hv; by eapply valid_target_filter_ok.
Qed.

Lemma valid_when_ok w names : diag_errors (validate_when w names) = [] → when_ok w = true.
Proof.
  unfold validate_when. rewrite !diag_app_ok, !diag_each_ok. intros [[Hc Ht] He]. unfold when_ok.
  rewrite (valid_condition_ok _ _ _ _ Hc). simpl. apply andb_true_intro.
  rewrite !forallb_elem_of. split; intros a Ha; eapply valid_action_ok; [by apply Ht|by apply He].
Qed.

(** The [create_if] conditions name known targets, as the grammar demands. *)
Definition create_if_targets_ok (op : OperationNode) : bool :=
  match op with
  | OperationNode_Synthesize _ settings => forallb synth_ok settings
  | _ => true
  end.

Lemma valid_operation_ok op line col names :
  diag_errors (validate_operation op line col names) = [] →
  create_if_targets_ok op = true → operation_ok op = true.
Proof.
  destruct op as [name|target filter normalize|target filter|items|items|target settings
    |target codec settings|name settings| |tag value|tag|when|mode rules|mode];
    unfold validate_operation; intros Hv Hc; try done.
  - by eapply valid_target_filter_ok.
  - by eapply valid_target_filter_ok.
  - simpl in *. rewrite bind_nil_iff in Hv. apply forallb_elem_of. intros [kind value] Hi.
    apply Hv in Hi. unfold validate_default_item in Hi. apply app_nil in Hi as [Hi _].
    unfold str_in in Hi. rewrite push_if_nil, negb_false_iff, bool_decide_eq_true in Hi.
    rewrite !elem_of_cons, elem_of_nil in Hi. by destruct Hi as [->|[->|[]]].
  - simpl in *. apply app_nil in Hv as [Ht _]. by eapply valid_target_target_ok.
  - unfold validate_transcode_operation in Hv. apply diag_app_ok in Hv as [Hv _]. simpl in *.
    apply app_nil in Hv as [Ht _]. by eapply valid_target_target_ok.
  - by eapply valid_when_ok.
  - rewrite diag_app_ok, diag_each_ok in Hv. simpl in *. destruct Hv as [Hm Hr].
    rewrite push_if_nil, negb_false_iff in Hm. rewrite Hm. simpl.
    apply forallb_elem_of. intros r Hin. by eapply valid_when_ok, Hr.
Qed.

Definition ast_ops (ast : PolicyAst) : list SpannedOperation :=
  PolicyAst_phases ast ≫= PhaseNode_operations.

Definition create_ifs_ok (ast : PolicyAst) : Prop :=
  ∀ s, s ∈ ast_ops ast → create_if_targets_ok (SpannedOperation_node s) = true.

Lemma valid_ast_ok ast : validate ast = Some (Ok tt) → create_ifs_ok ast → ast_ok ast = true.
Proof.
  intros (_ & _ & _ & _ & _ & Hp)%validate_Ok Hc. apply forallb_elem_of. intros p Hin.
  specialize (Hp p Hin). unfold validate_phase in Hp.
  rewrite !diag_app_ok, diag_opt_ok, diag_each_ok in Hp. destruct Hp as [[[[_ Hs] Ho] _] _].
  unfold phase_node_ok. apply andb_true_intro. split.
  - destruct (PhaseNode_skip_when p); [|done]. by eapply valid_condition_ok, Hs.
  - apply forallb_elem_of. intros s Hs'. eapply valid_operation_ok; [by apply Ho|].
    apply Hc, list_elem_of_bind. eauto.
Qed.
End targets.

(** ** Operations of a merged policy *)
Definition phases_ops (ps : list PhaseNode) : list SpannedOperation := ps ≫= PhaseNode_operations.

Lemma phases_ops_snoc ps p : phases_ops (ps ++ [p]) = phases_ops ps ++ PhaseNode_operations p.
Proof. unfold phases_ops. rewrite bind_app. simpl. by rewrite app_nil_r. Qed.

Section merged_ops.
Context (P : SpannedOperation → Prop).

Lemma phases_ops_Forall ps p :
  Forall P (phases_ops ps) → p ∈ ps → Forall P (PhaseNode_operations p).
Proof.
  intros Hall Hp. rewrite !Forall_forall in *. intros s Hs. apply Hall, list_elem_of_bind. eauto.
Qed.

Lemma merge_parent_phase_ops sid psources label cs st p :
  Forall P (phases_ops cs) → Forall P (PhaseNode_operations p) →
  Forall P (phases_ops (merge_phases st)) →
  Forall P (phases_ops (merge_phases (merge_parent_phase sid psources label cs st p))).
Proof.
  intros Hcs Hp Hst. unfold merge_parent_phase.
  destruct (find_child_phase _ _ _) as [[j d]|] eqn:Hf.
  - assert (Forall P (PhaseNode_operations d)) as Hd.
    { apply find_child_phase_Some in Hf as (Hj & _). eapply phases_ops_Forall; [exact Hcs|].
      by eapply list_elem_of_lookup_2. }
    destruct (PhaseNode_extend d); simpl; rewrite phases_ops_snoc; apply Forall_app; split;
      [done|by apply Forall_app|done|exact Hd].
  - simpl. rewrite phases_ops_snoc. by apply Forall_app.
Qed.

Lemma merge_child_phases_ops cs i st st' :
  Forall P (phases_ops cs) → Forall P (phases_ops (merge_phases st)) →
  merge_child_phases i cs st = Ok st' → Forall P (phases_ops (merge_phases st')).
Proof.
  revert i st; induction cs as [|c cs IH]; intros i st Hcs Hst; simpl; [by intros [= <-]|].
  unfold phases_ops in Hcs. simpl in Hcs. apply Forall_app in Hcs as [Hc Hcs].
  destruct (default false _); [by apply IH|]. destruct (PhaseNode_extend c); [done|].
  apply IH; [done|]. simpl. rewrite phases_ops_snoc. by apply Forall_app.
Qed.

Lemma merge_policy_ops parent child sid r :
  Forall P (phases_ops (ResolvedPolicyAst_phases parent)) →
  Forall P (phases_ops (PolicyAst_phases child)) →
  merge_policy parent child sid = Ok r →
  Forall P (phases_ops (ResolvedPolicyAst_phases r)).
Proof.
  intros Hp Hc. unfold merge_policy.
  destruct (merge_child_phases _ _ _) as [st|] eqn:Hm; simpl; [|done]. intros [= <-].
  unfold ResolvedPolicyAst_phases. simpl. eapply merge_child_phases_ops; [done| |done].
  fold (ResolvedPolicyAst_phases parent). clear Hm. revert Hp.
  generalize (ResolvedPolicyAst_phases parent) as ps.
  assert (Forall P (phases_ops (merge_phases {| merge_consumed :=
    replicate (length (PolicyAst_phases child)) false; merge_phases := [];
    merge_sources := ∅ |}))) as H0 by constructor.
  revert H0. generalize ({| merge_consumed :=
    replicate (length (PolicyAst_phases child)) false; merge_phases := [];
    merge_sources := ∅ |}) as st0.
  intros st0 H0 ps. revert st0 H0. induction ps as [|p ps IH]; intros st0 H0 Hps; simpl; [done|].
  unfold phases_ops in Hps. simpl in Hps. apply Forall_app in Hps as [Hp' Hps].
  apply IH; [|done]. by apply merge_parent_phase_ops.
Qed.

(** The sources that resolution may parse: bundled ones, and files if it may read. *)
Definition reachable_source `{PolicySources} (allow : AllowFiles) (s : string) : Prop :=
  s ∈ BUNDLED_POLICIES.*2 ∨ allow = AllowFiles_Yes ∧ ∃ p, read_to_string p = Ok s.

Lemma bundled_reachable `{PolicySources} allow name s :
  bundled_policy name = Some s → reachable_source allow s.
Proof.
  unfold bundled_policy. intros (x & Hf & ->)%fmap_Some.
  apply find_Some_elem_of in Hf as [Hin _]. left. apply list_elem_of_fmap. by exists x.
Qed.

(** If every source yields good trees or errors, resolution does not panic, and
    what it returns is good. *)
Lemma resolve_ast_ops `{Pest} `{PolicySources} fuel ast sid base allow stack r :
  (∀ s, reachable_source allow s →
     builds (λ a, Forall P (phases_ops (PolicyAst_phases a))) (parse_policy s)) →
  Forall P (phases_ops (PolicyAst_phases ast)) →
  resolve_ast fuel ast sid base allow stack = Some r →
  match r with
  | Done r => Forall P (phases_ops (ResolvedPolicyAst_phases r))
  | Fails _ => True
  | Panics => False
  end.
Proof.
  intros Hparse. revert ast sid base stack r.
  induction fuel as [|fuel IH]; intros ast sid base stack r Hast; cbn [resolve_ast];
    destruct (PolicyAst_extends ast) as [ext|]; try done.
  1, 3: intros [= <-]; by destruct (reject_unresolved_phase_extends ast).
  assert (∀ s A (mk : PolicyAst → A) k, reachable_source allow s →
    (∀ a r', Forall P (phases_ops (PolicyAst_phases a)) → k (mk a) = Some r' →
       match r' with
       | Done r' => Forall P (phases_ops (ResolvedPolicyAst_phases r'))
       | Fails _ => True | Panics => False end) →
    ∀ r', then_resolve (a ← parse_source s; Done (mk a)) k = Some r' →
      match r' with
      | Done r' => Forall P (phases_ops (ResolvedPolicyAst_phases r'))
      | Fails _ => True | Panics => False end) as Hsrc.
  { intros s A mk k Hs Hk r'. specialize (Hparse s Hs). unfold parse_source.
    destruct (parse_policy s) as [a| |]; cbn in *; [by apply Hk|by intros [= <-]|done]. }
  destruct (match ext with ExtendsSource_Bundled _ => _ | ExtendsSource_File _ => _ end)
    as [parent|] eqn:Hpar; simpl; [|done]. intros [= <-].
  assert (match parent with
          | Done r' => Forall P (phases_ops (ResolvedPolicyAst_phases r'))
          | Fails _ => True | Panics => False end) as Hp.
  { destruct ext as [name|uri].
    - destruct (str_contains _ _); [by injection Hpar as <-|].
      destruct (push_source _ _) as [st|]; cbn [returned mbind Attempt_bind] in Hpar; [|by injection Hpar as <-].
      destruct (bundled_policy name) as [s|] eqn:Hb; cbn [returned mbind Attempt_bind] in Hpar;
        [|by injection Hpar as <-].
      eapply (Hsrc s _ (λ a, (st, a))); [by eapply bundled_reachable| |exact Hpar].
      intros a r' Ha. by apply IH.
    - destruct allow; [|by injection Hpar as <-].
      destruct (resolve_file_uri uri base) as [path|]; cbn [returned mbind Attempt_bind] in Hpar; [|by injection Hpar as <-].
      destruct (push_source _ _) as [st|]; cbn [returned mbind Attempt_bind] in Hpar; [|by injection Hpar as <-].
      destruct (read_policy_file path) as [s|] eqn:Hr; cbn [returned mbind Attempt_bind] in Hpar;
        [|by injection Hpar as <-].
      eapply (Hsrc s _ (λ a, (path, st, a))); [|  |exact Hpar].
      + right. split; [done|]. exists path. unfold read_policy_file in Hr.
        destruct (read_to_string path); [by injection Hr as ->|done].
      + intros a r' Ha. by apply IH. }
  destruct parent as [parent| |]; [|done..]. cbn [mbind Attempt_bind].
  destruct (merge_policy parent (take_extends ast) sid) eqn:Hm; cbn [returned]; [|exact I].
  eapply merge_policy_ops; [exact Hp|exact Hast|exact Hm].
Qed.
End merged_ops.

(** ** The tail of the pipeline *)
Section tail.
Context `{Pest} `{PolicySources, SourceHash, F64Display, RegexCrate, ValueDebug, PartitionPoint, HashOrder}.

Lemma validate_total ast : ∃ v, validate ast = Some v.
Proof.
  unfold validate, validate_collecting_warnings.
  destruct (collect_diagnostics_total ast) as [d ->]. by eexists.
Qed.

Lemma compile_resolved_policy_total res standalone :
  Forall (λ o, create_if_targets_ok (SpannedOperation_node o) = true)
    (phases_ops (ResolvedPolicyAst_phases res)) →
  ∃ r, compile_resolved_policy res standalone = Some r ∧
    ∀ policy, r = Ok policy → ∃ ast, validate ast = Some (Ok tt) ∧
      CompiledPolicy_name policy = PolicyAst_name ast ∧
      valid_order ast (CompiledPolicy_phase_order policy).
Proof.
  intros Hops. unfold compile_resolved_policy, validate_then.
  set (ast := ResolvedPolicyAst_ast res).
  destruct (validate_total ast) as [[[]|e] Hv]; rewrite Hv; simpl; [|by eexists].
  assert (ast_ok ast = true) as Hok.
  { apply valid_ast_ok; [done|]. intros s Hs. rewrite Forall_forall in Hops. by apply Hops. }
  unfold compile_resolved_ast.
  pose proof (no_panic_compile ast (ResolvedPolicyAst_extends_chain res)
    (ResolvedPolicyAst_phase_sources res) Hok) as Hnp. fold ast.
  destruct (compile_ast_with_composition _ _ _) as [policy|[e|msg]] eqn:Hc; simpl;
    [|by eexists|by destruct (Hnp msg)].
  eexists. split; [done|]. intros p [= <-]. exists ast. split_and!; [done| |].
  - apply compile_Ok in Hc as (_ & _ & Hn). exact Hn.
  - exact (compile_valid_order _ _ _ _ Hc).
Qed.
End tail.
