(* ===== verification/Jobs.v ===== *)
(** * Jobs

    [crates/voom-domain/src/job.rs] and the job part of
    [crates/voom-domain/src/storage.rs]: background jobs, partial updates,
    filters and retention policies, and the trait [JobStorage]. *)
From S2P Require Import Prelude Json Plan.

(** ** [job.rs] *)
Inductive JobType : Type :=
| JobType_Process
| JobType_Transcode
| JobType_Scan
| JobType_Introspect
| JobType_Custom (name : string).

Definition JobType_as_str (t : JobType) : string :=
  match t with
  | JobType_Process => "process"
  | JobType_Transcode => "transcode"
  | JobType_Scan => "scan"
  | JobType_Introspect => "introspect"
  | JobType_Custom s => s
  end.

Definition JobType_parse (s : string) : JobType :=
  if bool_decide (s = "process") then JobType_Process
  else if bool_decide (s = "transcode") then JobType_Transcode
  else if bool_decide (s = "scan") then JobType_Scan
  else if bool_decide (s = "introspect") then JobType_Introspect
  else JobType_Custom s.

Inductive JobStatus : Type :=
| JobStatus_Pending
| JobStatus_Running
| JobStatus_Completed
| JobStatus_Failed
| JobStatus_Cancelled.

#[export] Instance JobStatus_eq_dec : EqDecision JobStatus.
Proof. solve_decision. Defined.

Definition JobStatus_as_str (s : JobStatus) : string :=
  match s with
  | JobStatus_Pending => "pending"
  | JobStatus_Running => "running"
  | JobStatus_Completed => "completed"
  | JobStatus_Failed => "failed"
  | JobStatus_Cancelled => "cancelled"
  end.

Definition JobStatus_parse (s : string) : option JobStatus :=
  if bool_decide (s = "pending") then Some JobStatus_Pending
  else if bool_decide (s = "running") then Some JobStatus_Running
  else if bool_decide (s = "completed") then Some JobStatus_Completed
  else if bool_decide (s = "failed") then Some JobStatus_Failed
  else if bool_decide (s = "cancelled") then Some JobStatus_Cancelled
  else None.

Record Job : Type := {
  Job_id : Uuid;
  Job_job_type : JobType;
  Job_status : JobStatus;
  Job_priority : i32;
  Job_payload : option JValue;
  Job_progress : f64;
  Job_progress_message : option string;
  Job_output : option JValue;
  Job_error : option string;
  Job_worker_id : option string;
  Job_created_at : DateTime;
  Job_started_at : option DateTime;
  Job_completed_at : option DateTime;
}.

(** [id] and [now] are what [Uuid::new_v4] and [Utc::now] return. *)
Definition Job_new (id : Uuid) (now : DateTime) (job_type : JobType) : Job := {|
  Job_id := id;
  Job_job_type := job_type;
  Job_status := JobStatus_Pending;
  Job_priority := 100%Z;
  Job_payload := None;
  Job_progress := f64_of_Z 0;
  Job_progress_message := None;
  Job_output := None;
  Job_error := None;
  Job_worker_id := None;
  Job_created_at := now;
  Job_started_at := None;
  Job_completed_at := None;
|}.

Definition JobStatus_is_terminal (s : JobStatus) : bool :=
  match s with
  | JobStatus_Completed | JobStatus_Failed | JobStatus_Cancelled => true
  | _ => false
  end.

Definition Job_is_terminal (j : Job) : bool := JobStatus_is_terminal (Job_status j).

Record JobUpdate : Type := {
  JobUpdate_status : option JobStatus;
  JobUpdate_progress : option f64;
  JobUpdate_progress_message : option (option string);
  JobUpdate_output : option (option JValue);
  JobUpdate_error : option (option string);
  JobUpdate_worker_id : option (option string);
  JobUpdate_started_at : option (option DateTime);
  JobUpdate_completed_at : option (option DateTime);
}.

Definition JobUpdate_default : JobUpdate := {|
  JobUpdate_status := None;
  JobUpdate_progress := None;
  JobUpdate_progress_message := None;
  JobUpdate_output := None;
  JobUpdate_error := None;
  JobUpdate_worker_id := None;
  JobUpdate_started_at := None;
  JobUpdate_completed_at := None;
|}.

(** ** [storage.rs]

    The text [to_rfc3339] writes for a time and the parser of such texts belong
    to [chrono]. The printed text has nanosecond precision and a fixed zone, so
    that parsing gives the time back, and for years of four digits the order of
    texts is the order of times. *)
Definition rfc3339_range (t : DateTime) : Prop :=
  (0 ≤ t < 253402300800 * 1000000000)%Z.

Class Chrono := {
  to_rfc3339 : DateTime → string;
  parse_rfc3339 : string → result string DateTime;
  parse_to_rfc3339 t : parse_rfc3339 (to_rfc3339 t) = Ok t;
  to_rfc3339_order t u : rfc3339_range t → rfc3339_range u →
    str_leb (to_rfc3339 t) (to_rfc3339 u) = (t <=? u)%Z;
}.

Definition format_iso `{Chrono} (dt : DateTime) : string := to_rfc3339 dt.

Record RetentionPolicy : Type := {
  RetentionPolicy_max_age : option Z;
  RetentionPolicy_keep_last : option u64;
}.

Definition RetentionPolicy_is_disabled (p : RetentionPolicy) : bool :=
  bool_decide (RetentionPolicy_max_age p = None)
  && bool_decide (RetentionPolicy_keep_last p = None).

(** [chrono::Duration] is a number of nanoseconds; [now] is [Utc::now()]. *)
Definition RetentionPolicy_cutoff_str `{Chrono} (now : DateTime) (p : RetentionPolicy)
    : option string :=
  (λ d, format_iso (now - d)%Z) <$> RetentionPolicy_max_age p.

Definition i64_MAX : Z := 9223372036854775807.

(** [i64::try_from(n).ok()] *)
Definition RetentionPolicy_keep_last_i64 (p : RetentionPolicy) : option Z :=
  n ← RetentionPolicy_keep_last p;
  if (Z.of_N n <=? i64_MAX)%Z then Some (Z.of_N n) else None.

Record PruneReport : Type := {
  PruneReport_deleted : u64;
  PruneReport_kept : u64;
}.

Record JobFilters : Type := {
  JobFilters_status : option JobStatus;
  JobFilters_limit : option u32;
  JobFilters_offset : option u32;
}.

Definition JobFilters_default : JobFilters := {|
  JobFilters_status := None;
  JobFilters_limit := None;
  JobFilters_offset := None;
|}.

(** The texts of identifiers belong to [uuid]. *)
Class UuidText := {
  Uuid_to_string : Uuid → string;
  Uuid_parse_str : string → result string Uuid;
  Uuid_parse_to_string u : Uuid_parse_str (Uuid_to_string u) = Ok u;
}.

Lemma Uuid_to_string_inj `{UuidText} u v : Uuid_to_string u = Uuid_to_string v → u = v.
Proof.
  intros Huv. apply (f_equal Uuid_parse_str) in Huv. rewrite !Uuid_parse_to_string in Huv.
  by injection Huv.
Qed.

(** [trait JobStorage]: operations on a store [S] behind a shared reference;
    each one returns its result and the store it leaves. Operations that read
    the clock take the time. *)
Class JobStorage (S : Type) := {
  create_job : Job → S → result VoomError Uuid * S;
  job : Uuid → S → result VoomError (option Job) * S;
  update_job : Uuid → JobUpdate → S → result VoomError unit * S;
  claim_next_job : DateTime → string → S → result VoomError (option Job) * S;
  claim_job_by_id : DateTime → Uuid → string → S → result VoomError (option Job) * S;
  list_jobs : JobFilters → S → result VoomError (list Job) * S;
  count_jobs_by_status : S → result VoomError (list (JobStatus * u64)) * S;
  delete_jobs : option JobStatus → S → result VoomError u64 * S;
  prune_old_jobs : DateTime → RetentionPolicy → S → result VoomError PruneReport * S;
  count_old_jobs : DateTime → RetentionPolicy → S → result VoomError PruneReport * S;
  oldest_job_created_at : S → result VoomError (option DateTime) * S;
}.

(** ** What the operations mean for one job *)

(** The effect of [update_job] on the fields of a job. *)
Definition apply_update (u : JobUpdate) (j : Job) : Job := {|
  Job_id := Job_id j;
  Job_job_type := Job_job_type j;
  Job_status := default (Job_status j) (JobUpdate_status u);
  Job_priority := Job_priority j;
  Job_payload := Job_payload j;
  Job_progress := default (Job_progress j) (JobUpdate_progress u);
  Job_progress_message := default (Job_progress_message j) (JobUpdate_progress_message u);
  Job_output := default (Job_output j) (JobUpdate_output u);
  Job_error := default (Job_error j) (JobUpdate_error u);
  Job_worker_id := default (Job_worker_id j) (JobUpdate_worker_id u);
  Job_created_at := Job_created_at j;
  Job_started_at := default (Job_started_at j) (JobUpdate_started_at u);
  Job_completed_at := default (Job_completed_at j) (JobUpdate_completed_at u);
|}.

(** The update a claim applies. *)
Definition claim_update (now : DateTime) (worker_id : string) : JobUpdate := {|
  JobUpdate_status := Some JobStatus_Running;
  JobUpdate_progress := None;
  JobUpdate_progress_message := None;
  JobUpdate_output := None;
  JobUpdate_error := None;
  JobUpdate_worker_id := Some (Some worker_id);
  JobUpdate_started_at := Some (Some now);
  JobUpdate_completed_at := None;
|}.

Definition claimed (now : DateTime) (worker_id : string) (j : Job) : Job :=
  apply_update (claim_update now worker_id) j.

(** The order in which pending jobs are claimed: priority, then creation. *)
Definition claim_leb (a b : Job) : bool :=
  (Job_priority a <? Job_priority b)%Z
  || (Job_priority a =? Job_priority b)%Z && (Job_created_at a <=? Job_created_at b)%Z.

Definition is_pending (j : Job) : bool := bool_decide (Job_status j = JobStatus_Pending).

(** ** Lemmas *)
Lemma JobStatus_parse_as_str s : JobStatus_parse (JobStatus_as_str s) = Some s.
Proof. by destruct s. Qed.

Lemma JobStatus_as_str_inj : Inj (=) (=) JobStatus_as_str.
Proof. intros a b Hab. apply (f_equal JobStatus_parse) in Hab.
  rewrite !JobStatus_parse_as_str in Hab. by injection Hab. Qed.
#[export] Existing Instance JobStatus_as_str_inj.

(** A custom type whose name is that of a built-in type is read back as the
    built-in one; all other types survive. *)
Definition JobType_canonical (t : JobType) : bool :=
  match t with
  | JobType_Custom s =>
      bool_decide (s ∉ ["process"; "transcode"; "scan"; "introspect"])
  | _ => true
  end.

Lemma JobType_parse_as_str t :
  JobType_parse (JobType_as_str t) = t ↔ JobType_canonical t = true.
Proof.
  destruct t as [| | | |s]; try done. cbn -[bool_decide]. unfold JobType_parse.
  rewrite bool_decide_eq_true.
  repeat case_bool_decide; subst; set_solver.
Qed.

Lemma apply_update_id u j : Job_id (apply_update u j) = Job_id j.
Proof. done. Qed.

Lemma claimed_status now w j : Job_status (claimed now w j) = JobStatus_Running.
Proof. done. Qed.

Lemma claim_leb_total a b : claim_leb a b = true ∨ claim_leb b a = true.
Proof. unfold claim_leb. rewrite !orb_true_iff, !andb_true_iff. lia. Qed.

Lemma claim_leb_trans a b c : claim_leb a b = true → claim_leb b c = true → claim_leb a c = true.
Proof. unfold claim_leb. rewrite !orb_true_iff, !andb_true_iff. lia. Qed.
