(* ===== verification/Engine.v ===== *)
(** * Calls on the SQLite engine

    What the modules under [plugins/sqlite-store/src/store/] share: errors,
    connections, statements and transactions ([mod.rs]) and the readers of
    columns ([row_mappers.rs]). The tables are a type [T]; a statement is a
    function on them.

    The engine may fail any call. [db_faults] lists the answers to the next
    calls on the pool or a connection: [None] lets a call through, [Some e]
    makes it fail with [e]; after the end of the list calls go through. A
    transaction that is dropped before its commit restores the tables. *)
From S2P Require Import Prelude Json Plan Jobs.

(** ** Foreign values *)
Inductive ErrorCode : Type :=
| ErrorCode_ConstraintViolation
| ErrorCode_Unknown.

(** [rusqlite::Error], with the payloads the code looks at. *)
Inductive rusqlite_Error : Type :=
| rusqlite_SqliteFailure (code : ErrorCode) (message : string)
| rusqlite_QueryReturnedNoRows
| rusqlite_FromSqlConversionFailure (message : string)
| rusqlite_InvalidColumnType (column : string)
| rusqlite_IntegralValueOutOfRange (value : Z).

(** Texts written and read by [serde_json] and [rusqlite], and what SQL
    leaves open: the order of rows that compare equal, and of groups. *)
Class Sqlite := {
  rusqlite_to_string : rusqlite_Error → string;
  serde_json_to_string : JValue → result string string;
  serde_json_from_str : string → result string JValue;
  order_by {A : Type} (leb : A → A → bool) : list A → list A;
  order_by_perm {A} (leb : A → A → bool) l : order_by leb l ≡ₚ l;
  order_by_sorted {A} (leb : A → A → bool) l :
    (∀ a b, leb a b = true ∨ leb b a = true) →
    (∀ a b c, leb a b = true → leb b c = true → leb a c = true) →
    StronglySorted (λ a b, leb a b = true) (order_by leb l);
  group_keys : list string → list string;
  group_keys_nodup l : NoDup (group_keys l);
  group_keys_elem l k : k ∈ group_keys l ↔ k ∈ l;
}.

(** ** Errors: [mod.rs] *)
Definition classify_rusqlite (e : rusqlite_Error) : StorageErrorKind :=
  match e with
  | rusqlite_SqliteFailure code _ =>
      match code with
      | ErrorCode_ConstraintViolation => StorageErrorKind_ConstraintViolation
      | _ => StorageErrorKind_Other
      end
  | rusqlite_QueryReturnedNoRows => StorageErrorKind_NotFound
  | _ => StorageErrorKind_Other
  end.

Definition other_storage_err (msg e : string) : VoomError :=
  VoomError_Storage StorageErrorKind_Other (msg +:+ ": " +:+ e).

(** [OptionalExt::optional] *)
Definition optional {A} (r : result rusqlite_Error A) : result rusqlite_Error (option A) :=
  match r with
  | Ok v => Ok (Some v)
  | Err rusqlite_QueryReturnedNoRows => Ok None
  | Err e => Err e
  end.

(** The tables and the coming failures. *)
Record SqlDb (T : Type) : Type := {
  db_rows : T;
  db_faults : list (option rusqlite_Error);
}.
Arguments db_rows {T} _.
Arguments db_faults {T} _.
Arguments Build_SqlDb {T} _ _.

(** Rows of a table that a statement selects, changes or deletes. *)
Section rows.
Context {R : Type}.

(** [query_row(.., params![id], decode)] on the primary key *)
Definition query_row {A} (p : R → bool) (decode : R → result rusqlite_Error A) (rows : list R)
    : result rusqlite_Error A :=
  match List.find p rows with
  | None => Err rusqlite_QueryReturnedNoRows
  | Some r => decode r
  end.

(** [UPDATE .. SET .. WHERE p]: the number of rows changed. *)
Definition update_rows (p : R → bool) (f : R → R) (rows : list R) : nat * list R :=
  (length (List.filter p rows), map (λ r, if p r then f r else r) rows).

(** [DELETE FROM .. WHERE p]: the number of rows deleted. *)
Definition delete_rows (p : R → bool) (rows : list R) : nat * list R :=
  (length (List.filter p rows), List.filter (λ r, negb (p r)) rows).
End rows.

Section engine.
Context {T : Type} `{Chrono} `{UuidText} `{Sqlite}.

Definition storage_err (msg : string) (e : rusqlite_Error) : VoomError :=
  VoomError_Storage (classify_rusqlite e) (msg +:+ ": " +:+ rusqlite_to_string e).

(** ** Calls of the engine *)
Definition Sql (A : Type) : Type := SqlDb T → result VoomError A * SqlDb T.

Definition db_ret {A} (a : A) : Sql A := λ s, (Ok a, s).

Definition db_err {A} (e : VoomError) : Sql A := λ s, (Err e, s).

Definition db_bind {A B} (x : Sql A) (f : A → Sql B) : Sql B := λ s,
  match x s with
  | (Ok a, s') => f a s'
  | (Err e, s') => (Err e, s')
  end.

(** [r?] for a result of pure code *)
Definition db_lift {A} (r : result VoomError A) : Sql A := λ s, (r, s).

(** The next call on the engine: [run] is what it does unless it is made to
    fail, in which case the tables are left alone. *)
Definition db_call {A} (wrap : rusqlite_Error → VoomError)
    (run : T → result rusqlite_Error A * T) : Sql A := λ s,
  match db_faults s with
  | Some e :: fs => (Err (wrap e), {| db_rows := db_rows s; db_faults := fs |})
  | fs =>
      let '(r, rows) := run (db_rows s) in
      (match r with Ok a => Ok a | Err e => Err (wrap e) end,
       {| db_rows := rows; db_faults := tail fs |})
  end.

(** [self.conn()] *)
Definition db_conn : Sql unit :=
  db_call (λ e, other_storage_err "failed to get connection" (rusqlite_to_string e))
          (λ rows, (Ok tt, rows)).

(** A statement that only reads *)
Definition db_query {A} (msg : string) (q : T → result rusqlite_Error A) : Sql A :=
  db_call (storage_err msg) (λ rows, (q rows, rows)).

Definition db_execute {A} (msg : string) (f : T → A * T) : Sql A :=
  db_call (storage_err msg) (λ rows, let '(a, rows') := f rows in (Ok a, rows')).

Definition db_commit (msg : string) : Sql unit :=
  db_call (storage_err msg) (λ rows, (Ok tt, rows)).

(** [conn.transaction_with_behavior(Immediate)] around [body], which ends with
    [tx.commit()]: an early return drops the transaction and rolls it back. *)
Definition db_transaction {A} (msg : string) (body : Sql A) : Sql A :=
  db_bind (db_call (storage_err msg) (λ rows, (Ok tt, rows)))
    (λ _ s,
       match body s with
       | (Ok a, s') => (Ok a, s')
       | (Err e, s') => (Err e, {| db_rows := db_rows s; db_faults := db_faults s' |})
       end).
End engine.

Arguments Sql T A : clear implicits.

(** ** Columns: [row_mappers.rs] *)
Section columns.
Context `{Chrono} `{UuidText} `{Sqlite}.

(** SQLite stores a NaN as [NULL]. *)
Definition bind_real (x : f64) : option f64 := if f64_is_nan x then None else Some x.

Definition bind_time (t : DateTime) : string := format_iso t.

Definition parse_required_datetime (s field : string) : result rusqlite_Error DateTime :=
  match parse_rfc3339 s with
  | Ok t => Ok t
  | Err e => Err (rusqlite_FromSqlConversionFailure
      ("corrupt datetime in " +:+ field +:+ ": " +:+ s +:+ ": " +:+ e))
  end.

Definition parse_optional_datetime (s : option string) (field : string)
    : result rusqlite_Error (option DateTime) :=
  try_opt (λ v, parse_required_datetime v field) s.

Definition parse_optional_json (s : option string) (field : string)
    : result rusqlite_Error (option JValue) :=
  try_opt (λ v, match serde_json_from_str v with
                | Ok j => Ok j
                | Err e => Err (rusqlite_FromSqlConversionFailure
                    ("invalid JSON in " +:+ field +:+ ": " +:+ e))
                end) s.

Definition row_uuid (value table : string) : result rusqlite_Error Uuid :=
  match Uuid_parse_str value with
  | Ok u => Ok u
  | Err e => Err (rusqlite_FromSqlConversionFailure
      ("invalid UUID in " +:+ table +:+ ": " +:+ value +:+ ": " +:+ e))
  end.

(** [row.get("progress")?] as an [f64]: [NULL] has the wrong type. *)
Definition get_real (column : string) (v : option f64) : result rusqlite_Error f64 :=
  match v with
  | Some x => Ok x
  | None => Err (rusqlite_InvalidColumnType column)
  end.

Definition parse_datetime (s : string) : result VoomError DateTime :=
  match parse_rfc3339 s with
  | Ok t => Ok t
  | Err e => Err (other_storage_err ("invalid datetime '" +:+ s +:+ "'") e)
  end.

(** [SqlQuery::paginate] and the grammar of SQLite, in which [OFFSET] follows a
    [LIMIT]: the rows of a page, or a syntax error. *)
Definition paginate {A} (limit offset : option u32) (rows : list A)
    : result rusqlite_Error (list A) :=
  let limit := N.min 10000 <$> limit in
  let offset := N.min 1000000 <$> offset in
  match limit, offset with
  | None, None => Ok rows
  | Some n, None => Ok (take (N.to_nat n) rows)
  | Some n, Some k => Ok (take (N.to_nat n) (drop (N.to_nat k) rows))
  | None, Some _ =>
      Err (rusqlite_SqliteFailure ErrorCode_Unknown "near OFFSET: syntax error")
  end.

End columns.

(** * A Hoare logic for the calls of the engine *)

Section facts.
Context {T : Type} `{Chrono} `{UuidText} `{Sqlite}.

(** ** Triples

    From the rows [rows], whatever calls fail, [x] ends in [ok] with a value or
    in [err] with an error. With [b] false no call fails, and [err] is about the
    errors of the statements themselves. *)
Definition faults_ok (b : bool) (fs : list (option rusqlite_Error)) : Prop :=
  b = true ∨ fs = [].

Definition db_spec {A} (b : bool) (rows : T) (x : Sql T A)
    (ok : A → T → Prop) (err : T → Prop) : Prop :=
  ∀ fs, faults_ok b fs →
    let '(r, s) := x {| db_rows := rows; db_faults := fs |} in
    faults_ok b (db_faults s) ∧
    match r with Ok a => ok a (db_rows s) | Err _ => err (db_rows s) end.

Lemma db_spec_run {A} b s (x : Sql T A) ok err :
  faults_ok b (db_faults s) → db_spec b (db_rows s) x ok err →
  faults_ok b (db_faults (x s).2) ∧
  match (x s).1 with Ok a => ok a (db_rows (x s).2) | Err _ => err (db_rows (x s).2) end.
Proof.
  destruct s as [rows fs]. intros Hfs Hx. specialize (Hx fs Hfs). cbn in *.
  by destruct (x _) as [[]].
Qed.

Lemma spec_ret {A} b rows (a : A) ok err : ok a rows → db_spec b rows (db_ret a) ok err.
Proof. by intros ? fs. Qed.

Lemma spec_lift {A} b rows (r : result VoomError A) (ok : A → T → Prop) err :
  match r with Ok a => ok a rows | Err _ => err rows end → db_spec b rows (db_lift r) ok err.
Proof. by intros Hr fs. Qed.

Lemma spec_bind {A B} b rows (x : Sql T A) (f : A → Sql T B) ok ok' err :
  db_spec b rows x ok err → (∀ a rows', ok a rows' → db_spec b rows' (f a) ok' err) →
  db_spec b rows (db_bind x f) ok' err.
Proof.
  intros Hx Hf fs Hfs. unfold db_bind. specialize (Hx fs Hfs).
  destruct (x _) as [[a|e] [rows' fs']]; [|done]. destruct Hx as [Hfs' Ha]. by apply Hf.
Qed.

Lemma spec_call {A} b rows wrap (run : T → result rusqlite_Error A * T) ok err :
  (match run rows with (Ok a, rows') => ok a rows' | (Err _, rows') => err rows' end) →
  (b = true → err rows) → db_spec b rows (db_call wrap run) ok err.
Proof.
  intros Hrun Herr fs Hfs. unfold db_call; cbn [db_faults db_rows].
  assert (Hend : ∀ fs', faults_ok b fs' →
    let '(r, s) := (let '(r, rows') := run rows in
      (match r with Ok a => Ok a | Err e => Err (wrap e) end,
       {| db_rows := rows'; db_faults := tail fs' |})) in
    faults_ok b (db_faults s) ∧
    match r with Ok a => ok a (db_rows s) | Err _ => err (db_rows s) end).
  { intros fs' Hfs'. destruct (run rows) as [[a|e] rows']; (split; [|done]);
      (destruct Hfs' as [? | ->]; [by left | by right]). }
  destruct fs as [|[e|] fs]; [by apply (Hend []) | | by apply (Hend (None :: fs))].
  destruct Hfs as [Hb|]; [|done]. split; [by left | by apply Herr].
Qed.

Lemma spec_conn b rows (ok : unit → T → Prop) err :
  ok tt rows → (b = true → err rows) → db_spec b rows db_conn ok err.
Proof. intros. by apply spec_call. Qed.

Lemma spec_query {A} b rows msg (q : T → result rusqlite_Error A) ok err :
  match q rows with Ok a => ok a rows | Err _ => err rows end →
  (b = true → err rows) → db_spec b rows (db_query msg q) ok err.
Proof. intros Hq Herr. apply spec_call; [|done]. by destruct (q rows). Qed.

Lemma spec_execute {A} b rows msg (f : T → A * T) ok err :
  ok (f rows).1 (f rows).2 → (b = true → err rows) → db_spec b rows (db_execute msg f) ok err.
Proof. intros Hf Herr. apply spec_call; [|done]. by destruct (f rows). Qed.

Lemma spec_commit b rows msg (ok : unit → T → Prop) err :
  ok tt rows → (b = true → err rows) → db_spec b rows (db_commit msg) ok err.
Proof. intros. by apply spec_call. Qed.

Lemma spec_transaction {A} b rows msg (body : Sql T A) ok (err : T → Prop) :
  db_spec b rows body ok (λ _, b = true) → (b = true → err rows) →
  db_spec b rows (db_transaction msg body) ok err.
Proof.
  intros Hb Herr. apply (spec_bind _ _ _ _ (λ _, eq rows)); [by apply spec_call|].
  intros _ ? <- fs Hfs. specialize (Hb fs Hfs). destruct (body _) as [[] ]; [done|].
  destruct Hb as [Hfs' Hb]. split; [done | by apply Herr].
Qed.

Lemma spec_weaken {A} b rows (x : Sql T A) (ok ok' : A → T → Prop) (err err' : T → Prop) :
  db_spec b rows x ok err → (∀ a rows', ok a rows' → ok' a rows') →
  (∀ rows', err rows' → err' rows') → db_spec b rows x ok' err'.
Proof.
  intros Hx Hok Herr fs Hfs. specialize (Hx fs Hfs). destruct (x _) as [[] ]; naive_solver.
Qed.

(** ** Steps of a transaction

    [F] says that the step may fail; the state it then leaves is thrown away. *)
Section steps.
Context {A B : Type} (b : bool) (F : Prop) (HF : b = true → F) (t : T) (ok : B → T → Prop).

Lemma bind_call wrap (run : T → result rusqlite_Error A * T) (f : A → Sql T B) :
  match run t with (Ok a, t') => db_spec b t' (f a) ok (λ _, F) | (Err _, _) => F end →
  db_spec b t (db_bind (db_call wrap run) f) ok (λ _, F).
Proof.
  intros Hrun. apply (spec_bind _ _ _ _ (λ a t', run t = (Ok a, t'))).
  - apply spec_call; [|done]. by destruct (run t) as [[] ].
  - intros a t' Ht. by rewrite Ht in Hrun.
Qed.

Lemma bind_query msg (q : T → result rusqlite_Error A) (f : A → Sql T B) :
  match q t with Ok a => db_spec b t (f a) ok (λ _, F) | Err _ => F end →
  db_spec b t (db_bind (db_query msg q) f) ok (λ _, F).
Proof. intros Hq. apply bind_call. by destruct (q t). Qed.

Lemma bind_execute msg (g : T → A * T) (f : A → Sql T B) :
  db_spec b (g t).2 (f (g t).1) ok (λ _, F) →
  db_spec b t (db_bind (db_execute msg g) f) ok (λ _, F).
Proof. intros Hg. apply bind_call. by destruct (g t). Qed.

Lemma bind_lift (r : result VoomError A) (f : A → Sql T B) :
  match r with Ok a => db_spec b t (f a) ok (λ _, F) | Err _ => F end →
  db_spec b t (db_bind (db_lift r) f) ok (λ _, F).
Proof.
  intros Hr. apply (spec_bind _ _ _ _ (λ a t', r = Ok a ∧ t' = t)).
  - apply spec_lift. by destruct r.
  - intros a t' [-> ->]. done.
Qed.

Lemma bind_ret (a : A) (f : A → Sql T B) :
  db_spec b t (f a) ok (λ _, F) → db_spec b t (db_bind (db_ret a) f) ok (λ _, F).
Proof. done. Qed.
End steps.

Lemma bind_commit {B} b (F : Prop) t msg (f : unit → Sql T B) ok :
  (b = true → F) → db_spec b t (f tt) ok (λ _, F) →
  db_spec b t (db_bind (db_commit msg) f) ok (λ _, F).
Proof. intros HF Hf. by apply bind_call. Qed.

(** A transaction that fails leaves the tables as they were. *)
Lemma spec_rollback {A} b (F : Prop) rows msg (body : Sql T A) ok :
  (b = true → F) → db_spec b rows body ok (λ _, F) →
  db_spec b rows (db_transaction msg body) ok (λ rows', F ∧ rows' = rows).
Proof.
  intros HF Hb. apply (spec_bind _ _ _ _ (λ _, eq rows)); [by apply spec_call; auto|].
  intros _ ? <- fs Hfs. specialize (Hb fs Hfs). destruct (body _) as [[] ]; [done|].
  by destruct Hb as [Hfs' Hb].
Qed.

Lemma spec_on_conn {A} b (F : Prop) rows (body : Sql T A) ok :
  (b = true → F) → db_spec b rows body ok (λ rows', F ∧ rows' = rows) →
  db_spec b rows (db_bind db_conn (λ _, body)) ok (λ rows', F ∧ rows' = rows).
Proof.
  intros HF Hb. apply (spec_bind _ _ _ _ (λ _, eq rows)); [by apply spec_conn; auto|].
  by intros _ ? <-.
Qed.

End facts.

(** Steps through a transaction as far as the values are known. *)
Ltac db_step :=
  first
    [ apply bind_query; [done|] | apply bind_lift | apply bind_execute; [done|]
    | apply bind_commit; [done|] | apply bind_ret ].
