(* ===== verification/SqliteJobs.v ===== *)
(** * The job table of the SQLite store

    [plugins/sqlite-store/src/store/job_storage.rs] with the row mapper of
    [row_mappers.rs]. The table is the list of its rows, a row has the text
    columns of [schema.rs]. *)
From S2P Require Import Prelude Json Plan Jobs Engine.

(** A row of the table [jobs]. [progress] is a nullable [REAL]. *)
Record JobRow : Type := {
  row_id : string;
  row_job_type : string;
  row_status : string;
  row_priority : i32;
  row_payload : option string;
  row_progress : option f64;
  row_progress_message : option string;
  row_output : option string;
  row_error : option string;
  row_worker_id : option string;
  row_created_at : string;
  row_started_at : option string;
  row_completed_at : option string;
}.

Abbreviation JobsDb := (SqlDb (list JobRow)).

Section store.
Context `{Chrono} `{UuidText} `{Sqlite}.

Definition Db (A : Type) : Type := Sql (list JobRow) A.

(** ** Rows: [row_mappers.rs] *)
Definition row_to_job (row : JobRow) : result rusqlite_Error Job :=
  id ← row_uuid (row_id row) "jobs";
  status ← match JobStatus_parse (row_status row) with
           | Some s => Ok s
           | None => Err (rusqlite_FromSqlConversionFailure
                            ("unknown job status: " +:+ row_status row))
           end;
  payload ← parse_optional_json (row_payload row) "jobs.payload";
  progress ← get_real "progress" (row_progress row);
  output ← parse_optional_json (row_output row) "jobs.output";
  created_at ← parse_required_datetime (row_created_at row) "jobs.created_at";
  started_at ← parse_optional_datetime (row_started_at row) "jobs.started_at";
  completed_at ← parse_optional_datetime (row_completed_at row) "jobs.completed_at";
  Ok {| Job_id := id;
        Job_job_type := JobType_parse (row_job_type row);
        Job_status := status;
        Job_priority := row_priority row;
        Job_payload := payload;
        Job_progress := progress;
        Job_progress_message := row_progress_message row;
        Job_output := output;
        Job_error := row_error row;
        Job_worker_id := row_worker_id row;
        Job_created_at := created_at;
        Job_started_at := started_at;
        Job_completed_at := completed_at |}.

(** ** [job_storage.rs] *)
Definition serialize_json (v : JValue) : result VoomError string :=
  match serde_json_to_string v with
  | Ok s => Ok s
  | Err e => Err (other_storage_err "failed to serialize JSON" e)
  end.

(** The parameters of the [INSERT]. *)
Definition job_row (payload_json output_json : option string) (j : Job) : JobRow := {|
  row_id := Uuid_to_string (Job_id j);
  row_job_type := JobType_as_str (Job_job_type j);
  row_status := JobStatus_as_str (Job_status j);
  row_priority := Job_priority j;
  row_payload := payload_json;
  row_progress := bind_real (Job_progress j);
  row_progress_message := Job_progress_message j;
  row_output := output_json;
  row_error := Job_error j;
  row_worker_id := Job_worker_id j;
  row_created_at := bind_time (Job_created_at j);
  row_started_at := bind_time <$> Job_started_at j;
  row_completed_at := bind_time <$> Job_completed_at j;
|}.

Definition has_id (id : string) (r : JobRow) : bool := bool_decide (row_id r = id).

Definition sqlite_create_job (j : Job) : Db Uuid :=
  db_bind db_conn (λ _,
  db_bind (db_lift (try_opt serialize_json (Job_payload j))) (λ payload_json,
  db_bind (db_lift (try_opt serialize_json (Job_output j))) (λ output_json,
  db_bind (db_call (storage_err "failed to create job") (λ rows,
      let r := job_row payload_json output_json j in
      if existsb (has_id (row_id r)) rows
      then (Err (rusqlite_SqliteFailure ErrorCode_ConstraintViolation
                   "UNIQUE constraint failed: jobs.id"), rows)
      else (Ok tt, rows ++ [r]))) (λ _,
  db_ret (Job_id j))))).

Definition sqlite_job (id : Uuid) : Db (option Job) :=
  db_bind db_conn (λ _,
  db_query "failed to get job"
    (λ rows, optional (query_row (has_id (Uuid_to_string id)) row_to_job rows))).

(** A [SET] clause: the columns an update assigns. *)
Definition set_columns (u : JobUpdate) (output_json : option (option string)) (r : JobRow)
    : JobRow := {|
  row_id := row_id r;
  row_job_type := row_job_type r;
  row_status := default (row_status r) (JobStatus_as_str <$> JobUpdate_status u);
  row_priority := row_priority r;
  row_payload := row_payload r;
  row_progress := default (row_progress r) (bind_real <$> JobUpdate_progress u);
  row_progress_message := default (row_progress_message r) (JobUpdate_progress_message u);
  row_output := default (row_output r) output_json;
  row_error := default (row_error r) (JobUpdate_error u);
  row_worker_id := default (row_worker_id r) (JobUpdate_worker_id u);
  row_created_at := row_created_at r;
  row_started_at := default (row_started_at r) (option_map bind_time <$> JobUpdate_started_at u);
  row_completed_at := default (row_completed_at r) (option_map bind_time <$> JobUpdate_completed_at u);
|}.

(** [sets.is_empty()] *)
Definition JobUpdate_is_empty (u : JobUpdate) : bool :=
  match u with
  | Build_JobUpdate None None None None None None None None => true
  | _ => false
  end.

Definition sqlite_update_job (id : Uuid) (u : JobUpdate) : Db unit :=
  db_bind db_conn (λ _,
  db_bind (db_lift (try_opt (try_opt serialize_json) (JobUpdate_output u))) (λ output_json,
  if JobUpdate_is_empty u then db_ret tt
  else
    db_bind (db_execute "failed to update job"
               (update_rows (has_id (Uuid_to_string id)) (set_columns u output_json))) (λ _,
    db_ret tt))).

(** [SET status = 'running', worker_id = ?1, started_at = ?2] *)
Definition claim_columns (now : DateTime) (worker_id : string) : JobRow → JobRow :=
  set_columns (claim_update now worker_id) None.

Definition row_is_pending (r : JobRow) : bool := bool_decide (row_status r = "pending").

(** [ORDER BY priority ASC, created_at ASC], and with [created_at DESC] *)
Definition row_claim_leb (a b : JobRow) : bool :=
  (row_priority a <? row_priority b)%Z
  || (row_priority a =? row_priority b)%Z && str_leb (row_created_at a) (row_created_at b).

Definition row_list_leb (a b : JobRow) : bool :=
  (row_priority a <? row_priority b)%Z
  || (row_priority a =? row_priority b)%Z && str_leb (row_created_at b) (row_created_at a).

Definition sqlite_claim_next_job (now : DateTime) (worker_id : string) : Db (option Job) :=
  db_bind db_conn (λ _,
  db_transaction "failed to begin transaction" (
    db_bind (db_query "failed to find pending job" (λ rows,
        Ok (row_id <$> head (order_by row_claim_leb (List.filter row_is_pending rows)))))
      (λ target_id,
    match target_id with
    | None => db_bind (db_commit "failed to commit claim") (λ _, db_ret None)
    | Some target_id =>
        db_bind (db_execute "failed to claim job"
                   (update_rows (has_id target_id) (claim_columns now worker_id))) (λ _,
        db_bind (db_query "failed to get claimed job"
                   (λ rows, optional (query_row (has_id target_id) row_to_job rows))) (λ result,
        db_bind (db_commit "failed to commit claim") (λ _, db_ret result)))
    end))).

Definition sqlite_claim_job_by_id (now : DateTime) (job_id : Uuid) (worker_id : string)
    : Db (option Job) :=
  let id_str := Uuid_to_string job_id in
  db_bind db_conn (λ _,
  db_transaction "failed to begin transaction" (
    db_bind (db_execute "failed to claim job by id"
               (update_rows (λ r, has_id id_str r && row_is_pending r)
                            (claim_columns now worker_id))) (λ changed,
    db_bind (if bool_decide (changed = 0) then db_ret None
             else db_query "failed to get claimed job"
                    (λ rows, optional (query_row (has_id id_str) row_to_job rows))) (λ result,
    db_bind (db_commit "failed to commit claim") (λ _, db_ret result))))).

Definition filter_status (status : option JobStatus) (r : JobRow) : bool :=
  match status with
  | None => true
  | Some s => bool_decide (row_status r = JobStatus_as_str s)
  end.

(** [prepare] reports the syntax error; the rows are decoded as they are
    collected. *)
Definition sqlite_list_jobs (filters : JobFilters) : Db (list Job) :=
  db_bind db_conn (λ _,
  db_bind (db_query "failed to prepare list jobs query" (λ rows,
      paginate (JobFilters_limit filters) (JobFilters_offset filters)
        (order_by row_list_leb (List.filter (filter_status (JobFilters_status filters)) rows))))
    (λ page,
  db_bind (db_query "failed to list jobs" (λ _, Ok tt)) (λ _,
  db_query "failed to collect jobs" (λ _, try_map row_to_job page)))).

(** [status IN ('completed','failed','cancelled')] *)
Definition row_is_terminal (r : JobRow) : bool :=
  bool_decide (row_status r ∈ ["completed"; "failed"; "cancelled"]).

Definition sqlite_delete_jobs (status : option JobStatus) : Db u64 :=
  db_bind db_conn (λ _,
  db_bind (db_execute "failed to delete jobs"
             (delete_rows (match status with
                           | Some s => λ r, bool_decide (row_status r = JobStatus_as_str s)
                           | None => row_is_terminal
                           end))) (λ count,
  db_ret (N.of_nat count))).

(** [SELECT COUNT( * ) FROM jobs WHERE status IN (..)] *)
Definition count_terminal (rows : list JobRow) : u64 :=
  N.of_nat (length (List.filter row_is_terminal rows)).

(** [COALESCE(completed_at, created_at)] *)
Definition effective_at (r : JobRow) : string :=
  default (row_created_at r) (row_completed_at r).

(** The rows of the common table expression: terminal jobs, newest first, with
    their [ROW_NUMBER()]. *)
Definition ranked (rows : list JobRow) : list (nat * JobRow) :=
  imap (λ i r, (S i, r))
    (order_by (λ a b, str_leb (effective_at b) (effective_at a))
       (List.filter row_is_terminal rows)).

(** [(?1 IS NOT NULL AND effective_at < ?1) OR (?2 IS NOT NULL AND rn > ?2)] *)
Definition expired (cutoff : option string) (keep_last : option Z) (x : nat * JobRow) : bool :=
  match cutoff with Some c => str_ltb (effective_at x.2) c | None => false end
  || match keep_last with Some n => (n <? Z.of_nat x.1)%Z | None => false end.

(** [SELECT id FROM ranked WHERE ..] *)
Definition expired_ids (cutoff : option string) (keep_last : option Z) (rows : list JobRow)
    : list string :=
  map (λ x, row_id x.2) (List.filter (expired cutoff keep_last) (ranked rows)).

Definition sqlite_prune_old_jobs (now : DateTime) (policy : RetentionPolicy) : Db PruneReport :=
  if RetentionPolicy_is_disabled policy then
    db_bind db_conn (λ _,
    db_bind (db_query "failed to count jobs" (λ rows, Ok (count_terminal rows))) (λ kept,
    db_ret {| PruneReport_deleted := 0; PruneReport_kept := kept |}))
  else
    db_bind db_conn (λ _,
    let cutoff := RetentionPolicy_cutoff_str now policy in
    let keep_last := RetentionPolicy_keep_last_i64 policy in
    db_bind (db_execute "failed to prune old jobs" (λ rows,
        let ids := expired_ids cutoff keep_last rows in
        delete_rows (λ r, bool_decide (row_id r ∈ ids)) rows)) (λ deleted,
    db_bind (db_query "failed to count remaining jobs" (λ rows, Ok (count_terminal rows)))
      (λ kept,
    db_ret {| PruneReport_deleted := N.of_nat deleted; PruneReport_kept := kept |}))).

Definition sqlite_count_old_jobs (now : DateTime) (policy : RetentionPolicy) : Db PruneReport :=
  if RetentionPolicy_is_disabled policy then
    db_bind db_conn (λ _,
    db_bind (db_query "failed to count jobs" (λ rows, Ok (count_terminal rows))) (λ kept,
    db_ret {| PruneReport_deleted := 0; PruneReport_kept := kept |}))
  else
    db_bind db_conn (λ _,
    let cutoff := RetentionPolicy_cutoff_str now policy in
    let keep_last := RetentionPolicy_keep_last_i64 policy in
    db_bind (db_query "failed to count old jobs" (λ rows,
        Ok (N.of_nat (length (List.filter (expired cutoff keep_last) (ranked rows))))))
      (λ deleted,
    db_bind (db_query "failed to count terminal jobs" (λ rows, Ok (count_terminal rows)))
      (λ total,
    db_ret {| PruneReport_deleted := deleted; PruneReport_kept := total - deleted |}))).

(** [SELECT MIN(created_at) FROM jobs], [NULL] on an empty table *)
Definition min_created_at (rows : list JobRow) : option string :=
  foldr (λ r acc, match acc with
                  | None => Some (row_created_at r)
                  | Some m => Some (if str_leb (row_created_at r) m then row_created_at r else m)
                  end) None rows.

Definition sqlite_oldest_job_created_at : Db (option DateTime) :=
  db_bind db_conn (λ _,
  db_bind (db_query "failed to query oldest job" (λ rows, Ok (min_created_at rows)))
    (λ oldest,
  db_lift (try_opt parse_datetime oldest))).

(** [SELECT status, COUNT( * ) FROM jobs GROUP BY status] *)
Definition status_counts (rows : list JobRow) : list (string * u64) :=
  map (λ k, (k, N.of_nat (length (List.filter (λ r, bool_decide (row_status r = k)) rows))))
      (group_keys (map row_status rows)).

Definition sqlite_count_jobs_by_status : Db (list (JobStatus * u64)) :=
  db_bind db_conn (λ _,
  db_bind (db_query "failed to prepare count query" (λ _, Ok tt)) (λ _,
  db_bind (db_query "failed to count jobs" (λ _, Ok tt)) (λ _,
  db_bind (db_query "failed to collect counts" (λ rows, Ok (status_counts rows))) (λ counts,
  db_lift (try_map (λ sc : string * u64,
      match JobStatus_parse sc.1 with
      | Some status => Ok (status, sc.2)
      | None => Err (VoomError_Storage StorageErrorKind_Other
          ("unknown job status in database: '" +:+ sc.1 +:+ "' (count=" +:+ pretty sc.2
           +:+ ") — data integrity issue"))
      end) counts))))).

#[export] Instance SqliteStore_JobStorage : JobStorage JobsDb := {|
  create_job := sqlite_create_job;
  job := sqlite_job;
  update_job := sqlite_update_job;
  claim_next_job := sqlite_claim_next_job;
  claim_job_by_id := sqlite_claim_job_by_id;
  list_jobs := sqlite_list_jobs;
  count_jobs_by_status := sqlite_count_jobs_by_status;
  delete_jobs := sqlite_delete_jobs;
  prune_old_jobs := sqlite_prune_old_jobs;
  count_old_jobs := sqlite_count_old_jobs;
  oldest_job_created_at := sqlite_oldest_job_created_at;
|}.
End store.
