(* ===== verification/JobSpec.v ===== *)
(** * What a job store promises

    The contract of the trait [JobStorage], which the job manager is proved
    against: the store behaves as a finite map from identifiers to jobs, every
    operation is atomic, and an operation that reports an error has done
    nothing. [rep s m] says that the store [s] holds the jobs of [m]; [storable]
    restricts the jobs the store can represent. *)
From S2P Require Import Prelude Json Plan Jobs.

(** ** The abstract operations *)

(** The job a claim may take: a pending one that no other pending job
    precedes, or none if there is none. *)
Definition first_pending (m : gmap Uuid Job) (o : option Job) : Prop :=
  match o with
  | None => ∀ id j, m !! id = Some j → is_pending j = false
  | Some j =>
      m !! Job_id j = Some j ∧ is_pending j = true ∧
      ∀ id k, m !! id = Some k → is_pending k = true → claim_leb j k = true
  end.

Definition claim_first (now : DateTime) (w : string) (o : option Job) (m : gmap Uuid Job)
    : gmap Uuid Job :=
  match o with
  | Some j => <[Job_id j := claimed now w j]> m
  | None => m
  end.

(** The job with a given identifier, if it is pending *)
Definition pending_at (id : Uuid) (m : gmap Uuid Job) : option Job :=
  j ← m !! id; if is_pending j then Some j else None.

Definition status_matches (status : option JobStatus) (j : Job) : bool :=
  match status with
  | None => true
  | Some s => bool_decide (Job_status j = s)
  end.

(** The jobs [delete_jobs] removes: those with the given status, or the
    terminal ones. *)
Definition deleted_by (status : option JobStatus) (j : Job) : bool :=
  match status with
  | Some s => bool_decide (Job_status j = s)
  | None => Job_is_terminal j
  end.

Definition delete_where (p : Job → bool) (m : gmap Uuid Job) : gmap Uuid Job :=
  filter (λ kv, p kv.2 = false) m.

Lemma delete_where_None p (m : gmap Uuid Job) id : m !! id = None → delete_where p m !! id = None.
Proof. unfold delete_where. rewrite map_lookup_filter_None. by left. Qed.

(** What the reports and lists of a store say of its jobs *)
Definition jobs_of (m : gmap Uuid Job) : list Job := (map_to_list m).*2.

(** [priority] ascending, then [created_at] descending *)
Definition listed_before (a b : Job) : bool :=
  (Job_priority a <? Job_priority b)%Z
  || (Job_priority a =? Job_priority b)%Z && (Job_created_at b <=? Job_created_at a)%Z.

Definition listed (m : gmap Uuid Job) (status : option JobStatus) (l : list Job) : Prop :=
  l ≡ₚ List.filter (status_matches status) (jobs_of m) ∧
  StronglySorted (λ a b, listed_before a b = true) l.

(** A page of at most 10,000 jobs after at most 1,000,000; there is none if an offset is
    given without a limit. *)
Definition page (filters : JobFilters) (l : list Job) : option (list Job) :=
  match JobFilters_limit filters, JobFilters_offset filters with
  | None, None => Some l
  | None, Some _ => None
  | Some n, k =>
      Some (take (N.to_nat (N.min 10000 n)) (drop (N.to_nat (N.min 1000000 (default 0%N k))) l))
  end.

(** Each status that occurs, once, with the number of its jobs *)
Definition counted (m : gmap Uuid Job) (l : list (JobStatus * u64)) : Prop :=
  NoDup l.*1 ∧ ∀ st n, (st, n) ∈ l ↔
    n = N.of_nat (length (List.filter (status_matches (Some st)) (jobs_of m))) ∧ (0 < n)%N.

Definition oldest_created (m : gmap Uuid Job) (o : option DateTime) : Prop :=
  match o with
  | None => m = ∅
  | Some t => (∃ id j, m !! id = Some j ∧ Job_created_at j = t) ∧
              ∀ id j, m !! id = Some j → (t ≤ Job_created_at j)%Z
  end.

(** When a job ended, as the text by which retention compares *)
Definition ended `{Chrono} (j : Job) : string :=
  format_iso (default (Job_created_at j) (Job_completed_at j)).

(** The terminal jobs, split by a retention policy into the newest, which are within
    its bounds, and the oldest, each of them past the cutoff or more than are kept *)
Record retained `{Chrono} (now : DateTime) (policy : RetentionPolicy) (m : gmap Uuid Job)
    (newest oldest : list Job) : Prop := {
  retained_all : newest ++ oldest ≡ₚ List.filter Job_is_terminal (jobs_of m);
  retained_order a b : a ∈ newest → b ∈ oldest → str_leb (ended b) (ended a) = true;
  retained_age a c : a ∈ newest → RetentionPolicy_cutoff_str now policy = Some c →
    str_ltb (ended a) c = false;
  retained_number n : RetentionPolicy_keep_last_i64 policy = Some n →
    (Z.of_nat (length newest) ≤ n)%Z;
  retained_reason b : b ∈ oldest →
    (∃ c, RetentionPolicy_cutoff_str now policy = Some c ∧ str_ltb (ended b) c = true) ∨
    (∃ n, RetentionPolicy_keep_last_i64 policy = Some n ∧ (n ≤ Z.of_nat (length newest))%Z);
}.

Definition without (gone : list Job) (m : gmap Uuid Job) : gmap Uuid Job :=
  delete_where (λ j, bool_decide (Job_id j ∈ Job_id <$> gone)) m.

Definition retention_report (newest oldest : list Job) : PruneReport :=
  {| PruneReport_deleted := N.of_nat (length oldest); PruneReport_kept := N.of_nat (length newest) |}.

(** The outcome of an operation: it answers [a] and leaves the jobs of [m'], or
    it reports an error and leaves those of [m]. *)
Definition answers {S A} (rep : S → gmap Uuid Job → Prop) (rs : result VoomError A * S)
    (m : gmap Uuid Job) (a : A) (m' : gmap Uuid Job) : Prop :=
  match rs.1 with
  | Ok b => b = a ∧ rep rs.2 m'
  | Err _ => rep rs.2 m
  end.

Class JobStoreLaws (S : Type) `{JobStorage S} := {
  rep : S → gmap Uuid Job → Prop;
  storable : Job → Prop;
  rep_keys s m id j : rep s m → m !! id = Some j → Job_id j = id;
  rep_storable s m id j : rep s m → m !! id = Some j → storable j;
  storable_claimed now w j : storable j → storable (claimed now w j);
  create_job_law s m j :
    rep s m → m !! Job_id j = None → storable j →
    answers rep (create_job j s) m (Job_id j) (<[Job_id j := j]> m);
  job_law s m id : rep s m → answers rep (job id s) m (m !! id) m;
  update_job_law s m id u :
    rep s m → (∀ j, m !! id = Some j → storable (apply_update u j)) →
    answers rep (update_job id u s) m tt (alter (apply_update u) id m);
  claim_next_job_law s m now w :
    rep s m → ∃ o, first_pending m o ∧
      answers rep (claim_next_job now w s) m (claimed now w <$> o) (claim_first now w o m);
  claim_job_by_id_law s m now id w :
    rep s m →
    answers rep (claim_job_by_id now id w s) m
      (claimed now w <$> pending_at id m) (claim_first now w (pending_at id m) m);
  list_jobs_law s m status :
    rep s m → ∃ l, l ≡ₚ List.filter (status_matches status) (map_to_list m).*2 ∧
      answers rep (list_jobs {| JobFilters_status := status; JobFilters_limit := None;
                                JobFilters_offset := None |} s) m l m;
  delete_jobs_law s m status :
    rep s m →
    answers rep (delete_jobs status s) m
      (N.of_nat (size m - size (delete_where (deleted_by status) m)))
      (delete_where (deleted_by status) m);
}.

(** The further promises of a table of jobs: pages, counts and retention. Pruning is two
    statements, of which the second may fail after the first has deleted. *)
Class JobTableLaws (S : Type) `{JobStoreLaws S} `{Chrono} := {
  list_page_law s m filters :
    rep s m → ∃ l, listed m (JobFilters_status filters) l ∧
      match page filters l with
      | Some p => answers rep (list_jobs filters s) m p m
      | None => (∃ e, (list_jobs filters s).1 = Err e) ∧ rep (list_jobs filters s).2 m
      end;
  count_jobs_law s m :
    rep s m → ∃ l, counted m l ∧ answers rep (count_jobs_by_status s) m l m;
  prune_jobs_law s m now policy :
    rep s m → ∃ newest oldest, retained now policy m newest oldest ∧
      match prune_old_jobs now policy s with
      | (Ok r, s') => r = retention_report newest oldest ∧ rep s' (without oldest m)
      | (Err _, s') => rep s' m ∨ rep s' (without oldest m)
      end;
  count_old_law s m now policy :
    rep s m → ∃ newest oldest, retained now policy m newest oldest ∧
      answers rep (count_old_jobs now policy s) m (retention_report newest oldest) m;
  oldest_job_law s m :
    rep s m → ∃ o, oldest_created m o ∧ answers rep (oldest_job_created_at s) m o m;
}.

(** ** Lists of jobs as maps *)
Definition jmap (js : list Job) : gmap Uuid Job :=
  list_to_map (map (λ j, (Job_id j, j)) js).

Lemma jmap_cons j js : jmap (j :: js) = <[Job_id j := j]> (jmap js).
Proof. done. Qed.

Lemma jmap_lookup js id :
  jmap js !! id = List.find (λ j, bool_decide (Job_id j = id)) js.
Proof.
  induction js as [|j js IH]; [done|]. rewrite jmap_cons; simpl.
  case_bool_decide; subst; simplify_map_eq; [done|]. by rewrite IH.
Qed.

Lemma jmap_lookup_elem js id j :
  NoDup (Job_id <$> js) → jmap js !! id = Some j ↔ j ∈ js ∧ Job_id j = id.
Proof.
  intros Hnd. rewrite jmap_lookup. split.
  - intros Hf. apply List.find_some in Hf as [Hin Hid].
    split; [by apply list_elem_of_In | by apply bool_decide_eq_true in Hid].
  - intros [Hin <-]. induction js as [|k js IH]; [by apply elem_of_nil in Hin|].
    apply NoDup_cons in Hnd as [Hk Hnd]. simpl.
    apply elem_of_cons in Hin as [<-|Hin]; [by rewrite bool_decide_true|].
    rewrite bool_decide_false; [by apply IH|].
    intros Heq. apply Hk. rewrite Heq. apply list_elem_of_fmap. by exists j.
Qed.

Lemma jmap_In js id j :
  NoDup (Job_id <$> js) → In j js → Job_id j = id → jmap js !! id = Some j.
Proof. intros Hnd Hin Hid. apply jmap_lookup_elem; [done|]. by rewrite list_elem_of_In. Qed.

Lemma jmap_none js id : jmap js !! id = None ↔ id ∉ (Job_id <$> js).
Proof.
  induction js as [|j js IH]; cbn [fmap list_fmap map].
  - change (jmap []) with (∅ : gmap Uuid Job). rewrite lookup_empty. split; [intros _; apply not_elem_of_nil | done].
  - rewrite jmap_cons, lookup_insert_None, IH, not_elem_of_cons. naive_solver.
Qed.

Lemma jmap_values js :
  NoDup (Job_id <$> js) → (map_to_list (jmap js)).*2 ≡ₚ js.
Proof.
  intros Hnd. unfold jmap. rewrite map_to_list_to_map.
  - change (map (λ j, (Job_id j, j)) js) with ((λ j, (Job_id j, j)) <$> js).
    rewrite <-list_fmap_compose. by rewrite list_fmap_id.
  - change (map (λ j, (Job_id j, j)) js) with ((λ j, (Job_id j, j)) <$> js).
    by rewrite <-list_fmap_compose.
Qed.

Lemma jmap_size js : NoDup (Job_id <$> js) → size (jmap js) = length js.
Proof.
  intros Hnd. unfold jmap. rewrite map_size_list_to_map.
  - by rewrite length_map.
  - change (map (λ j, (Job_id j, j)) js) with ((λ j, (Job_id j, j)) <$> js).
    by rewrite <-list_fmap_compose.
Qed.

Lemma jmap_snoc js j :
  jmap js !! Job_id j = None → jmap (js ++ [j]) = <[Job_id j := j]> (jmap js).
Proof.
  induction js as [|k js IH]; intros Hn; [done|].
  rewrite jmap_cons, lookup_insert_None in Hn. destruct Hn as [Hn Hk].
  cbn [app]. rewrite !jmap_cons, IH by done. by apply insert_insert_ne.
Qed.

(** Updating the jobs with one identifier *)
Lemma jmap_alter f id js :
  (∀ j, Job_id (f j) = Job_id j) →
  jmap (map (λ j, if bool_decide (Job_id j = id) then f j else j) js) = alter f id (jmap js).
Proof.
  intros Hf. induction js as [|j js IH].
  { symmetry. apply (alter_empty (M := gmap Uuid)). }
  cbn [map]. rewrite !jmap_cons, IH. case_bool_decide as Hid.
  - rewrite Hf. subst id. apply map_eq. intros i.
    destruct (decide (i = Job_id j)) as [->|]; by simplify_map_eq.
  - apply map_eq. intros i. destruct (decide (i = id)) as [->|]; simplify_map_eq; [done|].
    destruct (decide (i = Job_id j)) as [->|]; by simplify_map_eq.
Qed.

Lemma jmap_filter p js :
  NoDup (Job_id <$> js) →
  jmap (List.filter (λ j, negb (p j)) js) = delete_where p (jmap js).
Proof.
  intros Hnd. apply map_eq. intros id. apply option_eq. intros j.
  unfold delete_where. rewrite map_lookup_filter_Some; simpl.
  assert (NoDup (Job_id <$> List.filter (λ j, negb (p j)) js)) by by apply NoDup_fmap_filter.
  rewrite !jmap_lookup_elem by done.
  rewrite !list_elem_of_In, List.filter_In, negb_true_iff. naive_solver.
Qed.

(** * Job stores refine a map of jobs

    An abstract store is a finite map of jobs; its transitions say what each
    operation of [JobStorage] may answer. Any store that keeps the contract of
    [JobSpec] refines it: every sequence of operations has the answers of a run
    of the abstract store. *)

Inductive store_op : Type :=
| SCreate (j : Job)
| SJob (id : Uuid)
| SUpdate (id : Uuid) (u : JobUpdate)
| SClaimNext (now : DateTime) (worker_id : string)
| SClaimById (now : DateTime) (id : Uuid) (worker_id : string)
| SList (filters : JobFilters)
| SCountByStatus
| SDelete (status : option JobStatus)
| SPrune (now : DateTime) (policy : RetentionPolicy)
| SCountOld (now : DateTime) (policy : RetentionPolicy)
| SOldest.

Inductive store_answer : Type :=
| AnsId (id : Uuid)
| AnsUnit
| AnsJob (o : option Job)
| AnsJobs (l : list Job)
| AnsCounts (l : list (JobStatus * u64))
| AnsCount (n : u64)
| AnsReport (r : PruneReport)
| AnsTime (o : option DateTime)
| AnsError (e : VoomError).

(** The abstract store. An operation may fail, and then has no effect; only pruning may
    fail after it has deleted. *)
Inductive spec_step `{Chrono} (m : gmap Uuid Job) : store_op → store_answer → gmap Uuid Job → Prop :=
| spec_error op e : spec_step m op (AnsError e) m
| spec_create j :
    m !! Job_id j = None → spec_step m (SCreate j) (AnsId (Job_id j)) (<[Job_id j := j]> m)
| spec_job id : spec_step m (SJob id) (AnsJob (m !! id)) m
| spec_update id u : spec_step m (SUpdate id u) AnsUnit (alter (apply_update u) id m)
| spec_claim_next now w o :
    first_pending m o →
    spec_step m (SClaimNext now w) (AnsJob (claimed now w <$> o)) (claim_first now w o m)
| spec_claim_by_id now id w :
    spec_step m (SClaimById now id w) (AnsJob (claimed now w <$> pending_at id m))
      (claim_first now w (pending_at id m) m)
| spec_list filters l p :
    listed m (JobFilters_status filters) l → page filters l = Some p →
    spec_step m (SList filters) (AnsJobs p) m
| spec_count l : counted m l → spec_step m SCountByStatus (AnsCounts l) m
| spec_prune now policy newest oldest :
    retained now policy m newest oldest →
    spec_step m (SPrune now policy) (AnsReport (retention_report newest oldest)) (without oldest m)
| spec_prune_error now policy newest oldest e :
    retained now policy m newest oldest →
    spec_step m (SPrune now policy) (AnsError e) (without oldest m)
| spec_count_old now policy newest oldest :
    retained now policy m newest oldest →
    spec_step m (SCountOld now policy) (AnsReport (retention_report newest oldest)) m
| spec_oldest o : oldest_created m o → spec_step m SOldest (AnsTime o) m
| spec_delete status :
    spec_step m (SDelete status)
      (AnsCount (N.of_nat (size m - size (delete_where (deleted_by status) m))))
      (delete_where (deleted_by status) m).

Inductive spec_run `{Chrono} : gmap Uuid Job → list store_op → list store_answer → gmap Uuid Job → Prop :=
| spec_run_nil m : spec_run m [] [] m
| spec_run_cons m m' m'' op ops a az :
    spec_step m op a m' → spec_run m' ops az m'' → spec_run m (op :: ops) (a :: az) m''.

Definition created_id (op : store_op) : list Uuid :=
  match op with SCreate j => [Job_id j] | _ => [] end.

Section refinement.
Context {S : Type} `{JobStorage S}.

Definition answer {A} (f : A → store_answer) (rs : result VoomError A * S) : store_answer * S :=
  (match rs.1 with Ok a => f a | Err e => AnsError e end, rs.2).

Definition exec_op (op : store_op) (s : S) : store_answer * S :=
  match op with
  | SCreate j => answer AnsId (create_job j s)
  | SJob id => answer AnsJob (job id s)
  | SUpdate id u => answer (λ _, AnsUnit) (update_job id u s)
  | SClaimNext now w => answer AnsJob (claim_next_job now w s)
  | SClaimById now id w => answer AnsJob (claim_job_by_id now id w s)
  | SList filters => answer AnsJobs (list_jobs filters s)
  | SCountByStatus => answer AnsCounts (count_jobs_by_status s)
  | SDelete status => answer AnsCount (delete_jobs status s)
  | SPrune now policy => answer AnsReport (prune_old_jobs now policy s)
  | SCountOld now policy => answer AnsReport (count_old_jobs now policy s)
  | SOldest => answer AnsTime (oldest_job_created_at s)
  end.

Fixpoint exec_ops (ops : list store_op) (s : S) : list store_answer * S :=
  match ops with
  | [] => ([], s)
  | op :: ops =>
      let '(a, s) := exec_op op s in
      let '(az, s) := exec_ops ops s in
      (a :: az, s)
  end.

Context `{!JobStoreLaws S} `{Chrono} `{!JobTableLaws S}.

Definition op_values_storable (op : store_op) : Prop :=
  match op with
  | SCreate j => storable j
  | SUpdate _ u => ∀ j, storable j → storable (apply_update u j)
  | _ => True
  end.

Lemma answer_refines {A} (f : A → store_answer) rs m a m' op :
  answers rep rs m a m' → spec_step m op (f a) m' →
  ∃ m'', rep (answer f rs).2 m'' ∧ spec_step m op (answer f rs).1 m''.
Proof.
  destruct rs as [[b|e] s']; unfold answers, answer; cbn.
  - intros [-> Hs] Hstep. by exists m'.
  - intros Hs _. exists m. split; [done | constructor].
Qed.

Lemma exec_op_refines op s m :
  rep s m → op_values_storable op → (∀ id, id ∈ created_id op → m !! id = None) →
  ∃ m', rep (exec_op op s).2 m' ∧ spec_step m op (exec_op op s).1 m'.
Proof.
  intros Hs Hop Hnew. destruct op as [j|id|id u|now w|now id w|filters| |status|now policy|now policy|];
    cbn [exec_op].
  - assert (m !! Job_id j = None) by (apply Hnew; by left).
    eapply answer_refines; [by apply create_job_law | by constructor].
  - eapply answer_refines; [by apply job_law | constructor].
  - eapply answer_refines; [apply update_job_law; [done|] | constructor].
    intros j Hj. apply Hop. by eapply rep_storable.
  - destruct (claim_next_job_law s m now w Hs) as (o & Ho & Ha).
    eapply answer_refines; [done | by constructor].
  - eapply answer_refines; [by apply claim_job_by_id_law | constructor].
  - destruct (list_page_law s m filters Hs) as (l & Hl & Ha).
    destruct (page filters l) as [p|] eqn:Hp; [eapply answer_refines; [done|by econstructor]|].
    destruct Ha as [[e He] Ha]. exists m. unfold answer. cbn. rewrite He. split; [done|constructor].
  - destruct (count_jobs_law s m Hs) as (l & Hl & Ha).
    eapply answer_refines; [done | by constructor].
  - eapply answer_refines; [by apply delete_jobs_law | constructor].
  - destruct (prune_jobs_law s m now policy Hs) as (newest & oldest & Hr & Ha). unfold answer.
    destruct (prune_old_jobs now policy s) as [[r|e] s']; cbn in *.
    + destruct Ha as [-> Ha]. exists (without oldest m). split; [done|by constructor].
    + destruct Ha as [Ha|Ha]; [exists m|exists (without oldest m)];
        (split; [done|]); [constructor|by econstructor].
  - destruct (count_old_law s m now policy Hs) as (newest & oldest & Hr & Ha).
    eapply answer_refines; [done | by constructor].
  - destruct (oldest_job_law s m Hs) as (o & Ho & Ha).
    eapply answer_refines; [done | by constructor].
Qed.

(** An abstract step adds only the identifiers it creates. *)
Lemma spec_step_dom m op a m' id :
  (∀ id j, m !! id = Some j → Job_id j = id) →
  spec_step m op a m' → m !! id = None → id ∉ created_id op → m' !! id = None.
Proof.
  intros Hkeys. destruct 1 as [op e|j Hj|i|i u|now w o Ho|now i w|filters l p Hl|l Hl|now policy newest oldest Hr
    |now policy newest oldest e Hr|now policy newest oldest Hr|o Ho|st]; intros Hid Hc; try done.
  - rewrite lookup_insert_ne; [done|]. intros <-. apply Hc. by left.
  - by rewrite lookup_alter_None.
  - destruct o as [j|]; [|done]. destruct Ho as (Hj & _). cbn.
    rewrite lookup_insert_ne; [done|]. intros <-. congruence.
  - destruct (pending_at i m) as [j|] eqn:Hp; [|done]. cbn.
    unfold pending_at in Hp. destruct (m !! i) as [k|] eqn:Hk; [|done]. cbn in Hp.
    destruct (is_pending k); simplify_eq.
    rewrite lookup_insert_ne; [done|]. intros Hij. rewrite (Hkeys i _ Hk) in Hij. congruence.
  - by apply delete_where_None.
  - by apply delete_where_None.
  - by apply delete_where_None.
Qed.

(** New identifiers: those of the operations to come are not in use. *)
Definition ids_fresh (ops : list store_op) (m : gmap Uuid Job) : Prop :=
  NoDup (ops ≫= created_id) ∧ ∀ id, id ∈ ops ≫= created_id → m !! id = None.

Lemma ids_fresh_head op ops m id : ids_fresh (op :: ops) m → id ∈ created_id op → m !! id = None.
Proof. intros [_ Hn] Hid. apply Hn. rewrite bind_cons. apply elem_of_app. by left. Qed.

Lemma exec_op_fresh op ops s m :
  rep s m → op_values_storable op → ids_fresh (op :: ops) m →
  ∃ m', rep (exec_op op s).2 m' ∧ spec_step m op (exec_op op s).1 m' ∧ ids_fresh ops m'.
Proof.
  intros Hs Hop Hfr.
  destruct (exec_op_refines op s m Hs Hop (λ id, ids_fresh_head op ops m id Hfr)) as (m' & Hs' & Hstep).
  exists m'. split_and!; [done..|]. destruct Hfr as [Hnd Hnew]. rewrite bind_cons in Hnd, Hnew.
  apply NoDup_app in Hnd as (_ & Hdis & Hnd). split; [done|]. intros id Hid.
  apply (spec_step_dom m op (exec_op op s).1 m'); [|done| |].
  - intros i j. by apply (rep_keys s).
  - apply Hnew, elem_of_app. by right.
  - intros Hc. by apply (Hdis id).
Qed.

Lemma exec_ops_refines ops s m :
  rep s m → Forall op_values_storable ops → ids_fresh ops m →
  ∃ m', rep (exec_ops ops s).2 m' ∧ spec_run m ops (exec_ops ops s).1 m'.
Proof.
  revert s m. induction ops as [|op ops IH]; intros s m Hs Hst Hfr.
  { exists m. split; [done | constructor]. }
  apply Forall_cons in Hst as [Hop Hst].
  destruct (exec_op_fresh op ops s m Hs Hop Hfr) as (m' & Hs' & Hstep & Hfr').
  cbn [exec_ops]. destruct (exec_op op s) as [a s']; cbn [fst snd] in *.
  destruct (IH s' m' Hs' Hst Hfr') as (m'' & Hs'' & Hrun).
  exists m''. destruct (exec_ops ops s') as [az s'']; cbn in *. split; [done|].
  by econstructor.
Qed.
End refinement.
