(* ===== verification/SqliteJobsFacts.v ===== *)
(** * Facts about the job table

    Rows as encodings of jobs, and the proof that the table keeps the contract of
    [JobSpec]. *)
From S2P Require Import Prelude Json Plan Jobs Engine SqliteJobs JobSpec.

Section facts.
Context `{Chrono} `{UuidText} `{Sqlite}.

(** ** Rows *)

(** Printed and parsed values: a JSON value whose text reads back as itself. *)
Definition json_ok (v : JValue) : Prop :=
  ∃ s, serde_json_to_string v = Ok s ∧ serde_json_from_str s = Ok v.

Definition opt_json_ok (o : option JValue) : Prop :=
  match o with Some v => json_ok v | None => True end.

Definition json_text (v : JValue) : string :=
  match serde_json_to_string v with Ok s => s | Err _ => "" end.

(** The jobs a row can hold without loss. *)
Definition sqlite_storable (j : Job) : Prop :=
  JobType_canonical (Job_job_type j) = true ∧
  f64_is_nan (Job_progress j) = false ∧
  opt_json_ok (Job_payload j) ∧ opt_json_ok (Job_output j) ∧
  rfc3339_range (Job_created_at j).

Definition row_of (j : Job) : JobRow :=
  job_row (json_text <$> Job_payload j) (json_text <$> Job_output j) j.

Lemma serialize_json_ok v : json_ok v → serialize_json v = Ok (json_text v).
Proof. intros (s & Hs & _). unfold serialize_json, json_text. by rewrite Hs. Qed.

Lemma try_serialize_ok o : opt_json_ok o → try_opt serialize_json o = Ok (json_text <$> o).
Proof. destruct o; intros Ho; [|done]. simpl. by rewrite serialize_json_ok. Qed.

Lemma parse_optional_json_ok o field :
  opt_json_ok o → parse_optional_json (json_text <$> o) field = Ok o.
Proof.
  destruct o as [v|]; intros Ho; [|done]. destruct Ho as (s & Hs & Hp).
  unfold parse_optional_json, json_text. simpl. by rewrite Hs, Hp.
Qed.

Lemma parse_optional_datetime_ok o field :
  parse_optional_datetime (bind_time <$> o) field = Ok o.
Proof.
  destruct o as [t|]; [|done]. unfold parse_optional_datetime, parse_required_datetime. simpl.
  unfold bind_time, format_iso. by rewrite parse_to_rfc3339.
Qed.

Lemma row_to_job_row_of j : sqlite_storable j → row_to_job (row_of j) = Ok j.
Proof.
  intros (Hty & Hnan & Hpay & Hout & _). unfold row_to_job, row_of, job_row; cbn -[JobStatus_parse].
  unfold row_uuid. rewrite Uuid_parse_to_string. cbn -[JobStatus_parse].
  rewrite JobStatus_parse_as_str. cbn -[JobStatus_parse].
  rewrite (parse_optional_json_ok (Job_payload j)) by done. cbn.
  unfold bind_real. rewrite Hnan. cbn.
  rewrite (parse_optional_json_ok (Job_output j)) by done. cbn.
  unfold parse_required_datetime, bind_time, format_iso. rewrite parse_to_rfc3339. cbn.
  change (λ t, to_rfc3339 t) with bind_time.
  rewrite (parse_optional_datetime_ok (Job_started_at j)). cbn.
  rewrite (parse_optional_datetime_ok (Job_completed_at j)). cbn.
  apply JobType_parse_as_str in Hty. rewrite Hty. by destruct j.
Qed.

Lemma has_id_row_of id j :
  has_id (Uuid_to_string id) (row_of j) = bool_decide (Job_id j = id).
Proof.
  apply bool_decide_ext. simpl. split; [apply Uuid_to_string_inj | congruence].
Qed.

Lemma row_status_row_of s j :
  bool_decide (row_status (row_of j) = JobStatus_as_str s) = bool_decide (Job_status j = s).
Proof. apply bool_decide_ext. simpl. split; [apply (inj _) | congruence]. Qed.

Lemma row_is_pending_row_of j : row_is_pending (row_of j) = is_pending j.
Proof. apply (row_status_row_of JobStatus_Pending). Qed.

Lemma row_is_terminal_row_of j : row_is_terminal (row_of j) = Job_is_terminal j.
Proof.
  unfold row_is_terminal, Job_is_terminal. simpl. by destruct (Job_status j).
Qed.

Lemma row_claim_leb_row_of a b :
  sqlite_storable a → sqlite_storable b →
  row_claim_leb (row_of a) (row_of b) = claim_leb a b.
Proof.
  intros (_&_&_&_&Ha) (_&_&_&_&Hb). unfold row_claim_leb, claim_leb; simpl.
  unfold bind_time, format_iso. by rewrite to_rfc3339_order.
Qed.

(** An assignment of columns is the encoding of the update of the job. *)
Lemma set_columns_row_of u oj j :
  oj = option_map json_text <$> JobUpdate_output u →
  set_columns u oj (row_of j) = row_of (apply_update u j).
Proof.
  intros ->. destruct u as [st pr pm out er wk sa ca]. unfold set_columns, row_of, job_row; simpl.
  f_equal; [by destruct st | by destruct pr | by destruct out | by destruct sa | by destruct ca].
Qed.

(** ** Tables *)
Definition sqlite_rep_rows (rows : list JobRow) (m : gmap Uuid Job) : Prop :=
  ∃ js, rows = map row_of js ∧ NoDup (Job_id <$> js) ∧ Forall sqlite_storable js ∧ m = jmap js.

Definition sqlite_rep (s : JobsDb) (m : gmap Uuid Job) : Prop :=
  sqlite_rep_rows (db_rows s) m.

(** The triple of an operation of the contract; with [b] false it answers. *)
Definition op_spec {A} (b : bool) (rows : list JobRow) (x : Db A) (m : gmap Uuid Job) (a : A)
    (m' : gmap Uuid Job) : Prop :=
  db_spec b rows x (λ v rows', v = a ∧ sqlite_rep_rows rows' m')
    (λ rows', b = true ∧ sqlite_rep_rows rows' m).

Lemma answers_of_spec {A} s (x : Db A) m a m' :
  op_spec true (db_rows s) x m a m' → answers sqlite_rep (x s) m a m'.
Proof.
  intros Hx. apply db_spec_run in Hx as [_ Hx]; [|by left]. unfold answers.
  destruct (x s) as [[]]; [done|]. by destruct Hx.
Qed.

Lemma total_of_spec {A} s (x : Db A) m a m' :
  db_faults s = [] → op_spec false (db_rows s) x m a m' →
  (x s).1 = Ok a ∧ db_faults (x s).2 = [] ∧ sqlite_rep (x s).2 m'.
Proof.
  intros Hfs Hx. apply db_spec_run in Hx as [Hf Hx]; [|by right].
  destruct (x s) as [[b|e] s']; cbn in *; [|by destruct Hx].
  destruct Hx as [-> Hx]. destruct Hf; [done|]. done.
Qed.

Lemma find_map {A B} (f : A → B) p l : List.find p (map f l) = f <$> List.find (λ x, p (f x)) l.
Proof. induction l as [|x l IH]; [done|]. simpl. by destruct (p (f x)). Qed.

Lemma find_ext {A} (p q : A → bool) l : (∀ x, p x = q x) → List.find p l = List.find q l.
Proof. intros Hpq. induction l as [|x l IH]; [done|]. simpl. by rewrite Hpq, IH. Qed.

Lemma find_row_of id js :
  List.find (has_id (Uuid_to_string id)) (map row_of js) = row_of <$> jmap js !! id.
Proof.
  rewrite find_map, jmap_lookup. f_equal. apply find_ext. intros j. apply has_id_row_of.
Qed.

Lemma no_row_with_id id js :
  jmap js !! id = None → existsb (has_id (Uuid_to_string id)) (map row_of js) = false.
Proof.
  intros Hn. destruct (existsb _ _) eqn:He; [|done]. exfalso.
  apply existsb_exists in He as (r & Hr & Hid). apply in_map_iff in Hr as (j & <- & Hj).
  rewrite has_id_row_of, bool_decide_eq_true in Hid. apply jmap_none in Hn. apply Hn.
  apply list_elem_of_fmap. exists j. by rewrite list_elem_of_In.
Qed.

(** Looking a job up by its identifier *)
Lemma query_row_of id js :
  NoDup (Job_id <$> js) → Forall sqlite_storable js →
  optional (query_row (has_id (Uuid_to_string id)) row_to_job (map row_of js)) =
  Ok (jmap js !! id).
Proof.
  intros Hnd Hst. unfold query_row. rewrite find_row_of.
  destruct (jmap js !! id) as [j|] eqn:Hj; [|done]. simpl.
  apply jmap_lookup_elem in Hj as [Hin _]; [|done].
  rewrite row_to_job_row_of; [done|]. by apply (proj1 (Forall_forall _ _) Hst).
Qed.

Lemma fmap_id_update f id js :
  (∀ j, Job_id (f j) = Job_id j) →
  Job_id <$> map (λ j, if bool_decide (Job_id j = id) then f j else j) js = Job_id <$> js.
Proof.
  intros Hf. induction js as [|j js IH]; [done|]. cbn [map]. rewrite !fmap_cons, IH.
  f_equal. by case_bool_decide.
Qed.

Lemma filter_map {A B} (f : A → B) p l :
  List.filter p (map f l) = map f (List.filter (λ x, p (f x)) l).
Proof. induction l as [|x l IH]; [done|]. simpl. rewrite IH. by destruct (p (f x)). Qed.

(** Updating the row of one job *)
Lemma update_rows_rep id u oj js :
  oj = option_map json_text <$> JobUpdate_output u →
  NoDup (Job_id <$> js) → Forall sqlite_storable js →
  (∀ j, jmap js !! id = Some j → sqlite_storable (apply_update u j)) →
  sqlite_rep_rows (update_rows (has_id (Uuid_to_string id)) (set_columns u oj) (map row_of js)).2
    (alter (apply_update u) id (jmap js)).
Proof.
  intros Hoj Hnd Hst Hu.
  exists (map (λ j, if bool_decide (Job_id j = id) then apply_update u j else j) js).
  split_and!.
  - cbn [update_rows snd]. rewrite !map_map. apply map_ext. intros j.
    rewrite has_id_row_of. case_bool_decide; [by apply set_columns_row_of | done].
  - by rewrite fmap_id_update.
  - apply Forall_forall. intros k Hk. apply list_elem_of_In, in_map_iff in Hk as (j & <- & Hj).
    apply list_elem_of_In in Hj. case_bool_decide as Hid.
    + apply Hu. by apply jmap_lookup_elem.
    + by apply (proj1 (Forall_forall _ _) Hst).
  - symmetry. by apply jmap_alter.
Qed.
(** ** The operations keep the contract *)
Lemma sqlite_create_job_spec b rows m j :
  sqlite_rep_rows rows m → m !! Job_id j = None → sqlite_storable j →
  op_spec b rows (sqlite_create_job j) m (Job_id j) (<[Job_id j := j]> m).
Proof.
  intros (js & -> & Hnd & Hst & ->) Hnone Hj. unfold op_spec.
  assert (Herr : sqlite_rep_rows (map row_of js) (jmap js)) by by exists js.
  pose proof Hj as (_&_&Hpay&Hout&_). unfold sqlite_create_job.
  apply (spec_bind _ _ _ _ (λ _, eq (map row_of js))); [by apply spec_conn|]. intros _ ? <-.
  rewrite (try_serialize_ok (Job_payload j)), (try_serialize_ok (Job_output j)) by done.
  apply (spec_bind _ _ _ _ (λ p r, p = json_text <$> Job_payload j ∧ map row_of js = r)).
  { by apply spec_lift. } intros ? ? [-> <-].
  apply (spec_bind _ _ _ _ (λ p r, p = json_text <$> Job_output j ∧ map row_of js = r)).
  { by apply spec_lift. } intros ? ? [-> <-].
  apply (spec_bind _ _ _ _ (λ _ r, r = map row_of (js ++ [j]))).
  - apply spec_call; [|done]. change (job_row _ _ j) with (row_of j). cbn [row_id row_of job_row].
    rewrite no_row_with_id by done. by rewrite map_app.
  - intros _ ? ->. apply spec_ret. split; [done|]. exists (js ++ [j]). split_and!; [done|..].
    + rewrite fmap_app. apply jmap_none in Hnone. apply NoDup_app. split_and!; [done| |].
      * intros x Hx Hx'. apply list_elem_of_singleton in Hx'. by subst.
      * apply NoDup_singleton.
    + apply Forall_app. split; [done|]. by apply Forall_singleton.
    + symmetry. by apply jmap_snoc.
Qed.

Lemma sqlite_job_spec b rows m id :
  sqlite_rep_rows rows m → op_spec b rows (sqlite_job id) m (m !! id) m.
Proof.
  intros (js & -> & Hnd & Hst & ->). unfold op_spec.
  assert (Herr : sqlite_rep_rows (map row_of js) (jmap js)) by by exists js.
  apply (spec_bind _ _ _ _ (λ _, eq (map row_of js))); [by apply spec_conn|]. intros _ ? <-.
  apply spec_query; [|done]. by rewrite query_row_of.
Qed.

Lemma try_opt_serialize u oj :
  try_opt (try_opt serialize_json) (JobUpdate_output u) = Ok oj →
  oj = option_map json_text <$> JobUpdate_output u.
Proof.
  destruct (JobUpdate_output u) as [[v|]|]; simpl; [|by intros [= <-]..].
  unfold json_text, serialize_json. destruct (serde_json_to_string v); simpl; by intros [= <-].
Qed.

(** The output an update writes can be printed. *)
Definition update_serializable (u : JobUpdate) : Prop :=
  ∀ v, JobUpdate_output u = Some (Some v) → json_ok v.

Lemma try_opt_serializable u e :
  update_serializable u → try_opt (try_opt serialize_json) (JobUpdate_output u) ≠ Err e.
Proof.
  unfold update_serializable. intros Hu. destruct (JobUpdate_output u) as [[v|]|]; try done. cbn.
  by rewrite serialize_json_ok by by apply Hu.
Qed.

Lemma apply_update_empty u j : JobUpdate_is_empty u = true → apply_update u j = j.
Proof. destruct u as [[][][][][][][][]]; try done. by destruct j. Qed.

Lemma sqlite_update_job_spec b rows m id u :
  sqlite_rep_rows rows m → (∀ j, m !! id = Some j → sqlite_storable (apply_update u j)) →
  (b = false → update_serializable u) →
  op_spec b rows (sqlite_update_job id u) m tt (alter (apply_update u) id m).
Proof.
  intros (js & -> & Hnd & Hst & ->) Hu Hser. unfold op_spec.
  assert (Herr : sqlite_rep_rows (map row_of js) (jmap js)) by by exists js.
  apply (spec_bind _ _ _ _ (λ _, eq (map row_of js))); [by apply spec_conn|]. intros _ ? <-.
  apply (spec_bind _ _ _ _ (λ oj r, oj = option_map json_text <$> JobUpdate_output u ∧
                                  map row_of js = r)).
  { apply spec_lift. destruct (try_opt _ _) as [oj|e] eqn:Hoj; [by apply try_opt_serialize in Hoj|].
    split; [|done]. destruct b; [done|]. by destruct (try_opt_serializable u e (Hser eq_refl)). }
  intros oj ? [Hoj <-]. destruct (JobUpdate_is_empty u) eqn:Hemp.
  - apply spec_ret. split; [done|]. rewrite alter_id; [done|].
    intros. by apply apply_update_empty.
  - eapply spec_bind; [apply spec_execute; [|done]|].
    + instantiate (1 := λ _ r, sqlite_rep_rows r (alter (apply_update u) id (jmap js))).
      by apply update_rows_rep.
    + intros ? rows' Hr. by apply spec_ret.
Qed.

Lemma sqlite_storable_claimed now w j : sqlite_storable j → sqlite_storable (claimed now w j).
Proof. done. Qed.

(** A table after a claim *)
Lemma claim_rows_rep now w id js :
  NoDup (Job_id <$> js) → Forall sqlite_storable js →
  sqlite_rep_rows
    (update_rows (has_id (Uuid_to_string id)) (claim_columns now w) (map row_of js)).2
    (alter (claimed now w) id (jmap js)).
Proof.
  intros Hnd Hst. apply update_rows_rep; [done..|]. intros j Hj.
  apply jmap_lookup_elem in Hj as [Hin _]; [|done].
  apply sqlite_storable_claimed. by apply (proj1 (Forall_forall _ _) Hst).
Qed.

(** Looking up the claimed job *)
Lemma claim_query now w id j js rows :
  jmap js !! id = Some j → sqlite_rep_rows rows (alter (claimed now w) id (jmap js)) →
  optional (query_row (has_id (Uuid_to_string id)) row_to_job rows) = Ok (Some (claimed now w j)).
Proof.
  intros Hj (ks & -> & Hnd & Hst & Hm). rewrite query_row_of by done.
  rewrite <-Hm, lookup_alter_eq, Hj. done.
Qed.

Lemma alter_insert_claim (m : gmap Uuid Job) f j :
  m !! Job_id j = Some j → alter f (Job_id j) m = <[Job_id j := f j]> m.
Proof.
  intros Hj. apply map_eq. intros i.
  destruct (decide (i = Job_id j)) as [->|]; by simplify_map_eq.
Qed.

(** The row chosen by [ORDER BY .. LIMIT 1] *)
Lemma order_by_head {A} (leb : A → A → bool) l :
  (∀ a b, leb a b = true ∨ leb b a = true) →
  (∀ a b c, leb a b = true → leb b c = true → leb a c = true) →
  match head (order_by leb l) with
  | None => l = []
  | Some x => x ∈ l ∧ ∀ y, y ∈ l → leb x y = true
  end.
Proof.
  intros Htot Htr. pose proof (order_by_perm leb l) as Hp.
  pose proof (order_by_sorted leb l Htot Htr) as Hs.
  destruct (order_by leb l) as [|x l']; simpl.
  { by apply Permutation_nil in Hp. }
  apply StronglySorted_inv in Hs as [_ Hs]. split.
  - rewrite <-Hp. by left.
  - intros y Hy. rewrite <-Hp in Hy. apply elem_of_cons in Hy as [->|Hy].
    + by destruct (Htot x x).
    + by apply (proj1 (Forall_forall _ _) Hs).
Qed.

Lemma row_claim_leb_total a b : row_claim_leb a b = true ∨ row_claim_leb b a = true.
Proof.
  unfold row_claim_leb. rewrite !orb_true_iff, !andb_true_iff, !Z.ltb_lt, !Z.eqb_eq.
  destruct (Z.lt_trichotomy (row_priority a) (row_priority b)) as [|[->|]]; [auto| |auto].
  destruct (str_leb_total (row_created_at a) (row_created_at b)); auto.
Qed.

Lemma row_claim_leb_trans a b c :
  row_claim_leb a b = true → row_claim_leb b c = true → row_claim_leb a c = true.
Proof.
  unfold row_claim_leb. rewrite !orb_true_iff, !andb_true_iff, !Z.ltb_lt, !Z.eqb_eq.
  pose proof (str_leb_trans (row_created_at a) (row_created_at b) (row_created_at c)).
  intros [|[]] [|[]]; [left; lia | left; lia | left; lia | right; split; [lia | auto]].
Qed.

(** What the first [SELECT] of a claim finds *)
Lemma claim_target js :
  NoDup (Job_id <$> js) → Forall sqlite_storable js →
  ∃ o, first_pending (jmap js) o ∧
    row_id <$> head (order_by row_claim_leb (List.filter row_is_pending (map row_of js))) =
    (λ j, Uuid_to_string (Job_id j)) <$> o.
Proof.
  intros Hnd Hst. rewrite filter_map.
  pose proof (order_by_head row_claim_leb
    (map row_of (List.filter (λ j, row_is_pending (row_of j)) js))
    row_claim_leb_total row_claim_leb_trans) as Hh.
  assert (Hin : ∀ r, r ∈ map row_of (List.filter (λ j, row_is_pending (row_of j)) js) ↔
                     ∃ j, r = row_of j ∧ j ∈ js ∧ is_pending j = true).
  { intros r. rewrite list_elem_of_In, in_map_iff. setoid_rewrite List.filter_In.
    setoid_rewrite row_is_pending_row_of. setoid_rewrite list_elem_of_In. naive_solver. }
  destruct (head _) as [r|].
  - destruct Hh as [Hr Hmin]. apply Hin in Hr as (j & -> & Hj & Hpj).
    exists (Some j). split; [|done]. simpl. split_and!; [by apply jmap_lookup_elem|done|].
    intros id k Hk Hpk. apply jmap_lookup_elem in Hk as [Hk _]; [|done].
    rewrite <-row_claim_leb_row_of by by apply (proj1 (Forall_forall _ _) Hst).
    apply Hmin, Hin. eauto.
  - exists None. split; [|done]. intros id k Hk.
    apply jmap_lookup_elem in Hk as [Hk _]; [|done].
    destruct (is_pending k) eqn:Hp; [|done]. exfalso.
    apply (not_elem_of_nil (row_of k)). rewrite <-Hh. apply Hin. eauto.
Qed.

Lemma sqlite_claim_next_job_spec b rows m now w :
  sqlite_rep_rows rows m → ∃ o, first_pending m o ∧
    op_spec b rows (sqlite_claim_next_job now w) m (claimed now w <$> o)
      (claim_first now w o m).
Proof.
  intros (js & -> & Hnd & Hst & ->).
  destruct (claim_target js Hnd Hst) as (o & Ho & Hsel).
  exists o. split; [done|]. unfold op_spec.
  assert (Herr : sqlite_rep_rows (map row_of js) (jmap js)) by by exists js.
  apply (spec_bind _ _ _ _ (λ _, eq (map row_of js))); [by apply spec_conn|]. intros _ ? <-.
  apply spec_transaction; [|done].
  apply (spec_bind _ _ _ _ (λ a r, a = (λ j, Uuid_to_string (Job_id j)) <$> o ∧ r = map row_of js)).
  { by apply spec_query. }
  intros ? ? [-> ->]. destruct o as [j|]; simpl.
  - apply (spec_bind _ _ _ _ (λ _ r, sqlite_rep_rows r (alter (claimed now w) (Job_id j) (jmap js)))).
    { apply spec_execute; [|done]. by apply claim_rows_rep. }
    intros n rows Hr. eapply (spec_bind _ _ _ _ (λ a r, a = Some (claimed now w j) ∧ rows = r));
      [apply spec_query; [|done]|].
    + by rewrite (claim_query now w (Job_id j) j js) by naive_solver.
    + intros ? ? [-> <-].
      apply (spec_bind _ _ _ _ (λ _, eq rows)); [by apply spec_commit|]. intros _ ? <-.
      apply spec_ret. split; [done|]. rewrite <-alter_insert_claim; naive_solver.
  - apply (spec_bind _ _ _ _ (λ _, eq (map row_of js))); [by apply spec_commit|].
    intros _ ? <-. by apply spec_ret.
Qed.

(** [UPDATE .. WHERE id = ?3 AND status = 'pending'] *)
Lemma claim_pending_rows now w id js :
  NoDup (Job_id <$> js) → Forall sqlite_storable js →
  let '(changed, rows) :=
    update_rows (λ r, has_id (Uuid_to_string id) r && row_is_pending r)
      (claim_columns now w) (map row_of js) in
  match pending_at id (jmap js) with
  | Some j => jmap js !! id = Some j ∧ Job_id j = id ∧ changed ≠ 0 ∧
              sqlite_rep_rows rows (alter (claimed now w) id (jmap js))
  | None => changed = 0 ∧ rows = map row_of js
  end.
Proof.
  intros Hnd Hst.
  assert (Hp : ∀ j, has_id (Uuid_to_string id) (row_of j) && row_is_pending (row_of j) =
                    bool_decide (Job_id j = id) && is_pending j).
  { intros j. by rewrite has_id_row_of, row_is_pending_row_of. }
  cbn [update_rows]. rewrite filter_map, length_map, map_map.
  destruct (pending_at id (jmap js)) as [j|] eqn:Hpd.
  - unfold pending_at in Hpd. destruct (jmap js !! id) as [k|] eqn:Hk; [|done]. simpl in Hpd.
    destruct (is_pending k) eqn:Hpk; simplify_eq.
    pose proof (proj1 (jmap_lookup_elem js id j Hnd) Hk) as [Hin Hid].
    split_and!; [done | done | |].
    + intros Hl. apply nil_length_inv in Hl. apply (in_nil (a := j)). rewrite <-Hl.
      apply List.filter_In. split; [by apply list_elem_of_In|].
      rewrite Hp, Hpk, bool_decide_true by done. done.
    + replace (map _ js) with (update_rows (has_id (Uuid_to_string id)) (claim_columns now w)
                                 (map row_of js)).2; [by apply claim_rows_rep|].
      cbn [update_rows snd]. rewrite map_map. apply map_ext_in. intros k Hk'.
      rewrite Hp, has_id_row_of. case_bool_decide as Hidk; [|done].
      pose proof (jmap_In js id k Hnd Hk' Hidk).
      simplify_eq. by rewrite Hpk.
  - assert (Hno : ∀ j, In j js → bool_decide (Job_id j = id) && is_pending j = false).
    { intros j Hj. case_bool_decide as Hid; [|done]. simpl. unfold pending_at in Hpd.
      rewrite (jmap_In js id j Hnd Hj Hid) in Hpd. simpl in Hpd. by destruct (is_pending j). }
    split.
    + apply length_zero_iff_nil.
      assert (Hnil : ∀ l, (∀ j, In j l → bool_decide (Job_id j = id) && is_pending j = false) →
        List.filter (λ x, has_id (Uuid_to_string id) (row_of x) && row_is_pending (row_of x)) l = []).
      { induction l as [|k l IH]; intros Hl; [done|]. cbn [List.filter].
        rewrite Hp, (Hl k) by by left. apply IH. intros j Hj. apply Hl. by right. }
      by apply Hnil.
    + apply map_ext_in. intros j Hj. by rewrite Hp, Hno.
Qed.

Lemma sqlite_claim_job_by_id_spec b rows m now id w :
  sqlite_rep_rows rows m →
  op_spec b rows (sqlite_claim_job_by_id now id w) m
    (claimed now w <$> pending_at id m) (claim_first now w (pending_at id m) m).
Proof.
  intros (js & -> & Hnd & Hst & ->). unfold op_spec.
  assert (Herr : sqlite_rep_rows (map row_of js) (jmap js)) by by exists js.
  apply (spec_bind _ _ _ _ (λ _, eq (map row_of js))); [by apply spec_conn|]. intros _ ? <-.
  apply spec_transaction; [|done].
  pose proof (claim_pending_rows now w id js Hnd Hst) as Hup.
  destruct (update_rows _ _ _) as [changed rows] eqn:HE.
  apply (spec_bind _ _ _ _ (λ c r, c = changed ∧ rows = r)).
  { apply spec_execute; [|done]. by rewrite HE. }
  intros ? ? [-> <-]. destruct (pending_at id (jmap js)) as [j|].
  - destruct Hup as (Hj & <- & Hne & Hrep). rewrite bool_decide_false by done.
    apply (spec_bind _ _ _ _ (λ a r, a = Some (claimed now w j) ∧ rows = r)).
    { apply spec_query; [|done]. by rewrite (claim_query now w (Job_id j) j js). }
    intros ? ? [-> <-].
    apply (spec_bind _ _ _ _ (λ _, eq rows)); [by apply spec_commit|]. intros _ ? <-.
    apply spec_ret. split; [done|]. cbn [claim_first]. by rewrite <-alter_insert_claim.
  - destruct Hup as [-> ->]. rewrite bool_decide_true by done.
    apply (spec_bind _ _ _ _ (λ a r, a = None ∧ map row_of js = r)); [by apply spec_ret|].
    intros ? ? [-> <-].
    apply (spec_bind _ _ _ _ (λ _, eq (map row_of js))); [by apply spec_commit|].
    intros _ ? <-. by apply spec_ret.
Qed.

Lemma try_map_row_of js : Forall sqlite_storable js → try_map row_to_job (map row_of js) = Ok js.
Proof.
  intros Hst. apply try_map_Ok_Forall2. induction Hst as [|j js Hj Hst IH]; constructor; [|done].
  by apply row_to_job_row_of.
Qed.

Lemma Forall_filter {A} (P : A → Prop) p l : Forall P l → Forall P (List.filter p l).
Proof. induction 1; simpl; [constructor|]. destruct (p x); [by constructor | done]. Qed.

Lemma filter_ext_all {A} (p q : A → bool) l :
  (∀ x, p x = q x) → List.filter p l = List.filter q l.
Proof. intros Hpq. by apply List.filter_ext. Qed.

Lemma sqlite_list_jobs_spec b rows m status :
  sqlite_rep_rows rows m → ∃ l, l ≡ₚ List.filter (status_matches status) (map_to_list m).*2 ∧
    op_spec b rows (sqlite_list_jobs {| JobFilters_status := status;
      JobFilters_limit := None; JobFilters_offset := None |}) m l m.
Proof.
  intros (js & -> & Hnd & Hst & ->).
  assert (Hf : List.filter (filter_status status) (map row_of js) =
               map row_of (List.filter (status_matches status) js)).
  { rewrite filter_map. f_equal. apply filter_ext_all. intros j.
    destruct status; [apply row_status_row_of | done]. }
  pose proof (order_by_perm row_list_leb (map row_of (List.filter (status_matches status) js))) as Hp.
  apply Permutation_map_inv in Hp as (l & Hl & Hperm).
  exists l. split.
  { rewrite <-Hperm. by rewrite jmap_values. }
  unfold op_spec.
  assert (Herr : sqlite_rep_rows (map row_of js) (jmap js)) by by exists js.
  apply (spec_bind _ _ _ _ (λ _, eq (map row_of js))); [by apply spec_conn|]. intros _ ? <-.
  apply (spec_bind _ _ _ _ (λ p r, p = map row_of l ∧ map row_of js = r)).
  { apply spec_query; [|done]. cbn. by rewrite Hf, Hl. }
  intros ? ? [-> <-].
  apply (spec_bind _ _ _ _ (λ _, eq (map row_of js))); [by apply spec_query|]. intros _ ? <-.
  apply spec_query; [|done]. rewrite try_map_row_of; [done|].
  rewrite <-Hperm. by apply Forall_filter.
Qed.

Lemma sqlite_delete_jobs_spec b rows m status :
  sqlite_rep_rows rows m →
  op_spec b rows (sqlite_delete_jobs status) m
    (N.of_nat (size m - size (delete_where (deleted_by status) m)))
    (delete_where (deleted_by status) m).
Proof.
  intros (js & -> & Hnd & Hst & ->). unfold op_spec.
  assert (Herr : sqlite_rep_rows (map row_of js) (jmap js)) by by exists js.
  apply (spec_bind _ _ _ _ (λ _, eq (map row_of js))); [by apply spec_conn|]. intros _ ? <-.
  rewrite <-jmap_filter by done.
  rewrite !jmap_size by first [done | by apply NoDup_fmap_filter].
  assert (Hd : ∀ j, (match status with
                     | Some s => λ r, bool_decide (row_status r = JobStatus_as_str s)
                     | None => row_is_terminal
                     end) (row_of j) = deleted_by status j).
  { intros j. destruct status; [apply row_status_row_of | apply row_is_terminal_row_of]. }
  set (ks := List.filter (λ j, negb (deleted_by status j)) js).
  apply (spec_bind _ _ _ _ (λ n r, n = length js - length ks ∧ r = map row_of ks)).
  - apply spec_execute; [|done]. unfold delete_rows; cbn [fst snd]. rewrite !filter_map.
    rewrite (filter_ext_all _ _ js Hd), (filter_ext_all _ _ js (λ j, f_equal negb (Hd j))).
    split; [|done]. rewrite length_map. subst ks.
    rewrite <-(filter_length (deleted_by status) js) at 1. lia.
  - intros ? ? [-> ->]. apply spec_ret. split; [done|]. exists ks. split_and!; [done|..].
    + by apply NoDup_fmap_filter.
    + by apply Forall_filter.
    + done.
Qed.

Lemma sqlite_rep_entry s m id j :
  sqlite_rep s m → m !! id = Some j → Job_id j = id ∧ sqlite_storable j.
Proof.
  intros (js & _ & Hnd & Hst & ->) Hj. apply jmap_lookup_elem in Hj as [Hj Hid]; [|done].
  split; [done|]. by apply (proj1 (Forall_forall _ _) Hst).
Qed.

#[export] Program Instance sqlite_laws : JobStoreLaws JobsDb := {|
  rep := sqlite_rep;
  storable := sqlite_storable;
  rep_keys s m id j Hs Hj := proj1 (sqlite_rep_entry s m id j Hs Hj);
  rep_storable s m id j Hs Hj := proj2 (sqlite_rep_entry s m id j Hs Hj);
  storable_claimed := sqlite_storable_claimed;
|}.
Next Obligation. intros. by apply answers_of_spec, sqlite_create_job_spec. Qed.
Next Obligation. intros. by apply answers_of_spec, sqlite_job_spec. Qed.
Next Obligation. intros. by apply answers_of_spec, sqlite_update_job_spec. Qed.
Next Obligation.
  intros s m now w Hs. destruct (sqlite_claim_next_job_spec true (db_rows s) m now w Hs) as (o & Ho & Ha).
  exists o. split; [done|]. by apply answers_of_spec.
Qed.
Next Obligation. intros. by apply answers_of_spec, sqlite_claim_job_by_id_spec. Qed.
Next Obligation.
  intros s m status Hs. destruct (sqlite_list_jobs_spec true (db_rows s) m status Hs) as (l & Hl & Ha).
  exists l. split; [done|]. by apply answers_of_spec.
Qed.
Next Obligation. intros. by apply answers_of_spec, sqlite_delete_jobs_spec. Qed.

(** A claim by identifier returns the job with that identifier, whatever the
    table holds. *)
Lemma row_to_job_id row j : row_to_job row = Ok j → Uuid_parse_str (row_id row) = Ok (Job_id j).
Proof.
  unfold row_to_job, row_uuid. destruct (Uuid_parse_str (row_id row)) as [id|]; [|done].
  cbn [mbind result_mbind]. destruct (JobStatus_parse _); [|done]. cbn [mbind result_mbind].
  destruct (parse_optional_json (row_payload row) _); [|done]. cbn [mbind result_mbind].
  destruct (get_real _ _); [|done]. cbn [mbind result_mbind].
  destruct (parse_optional_json (row_output row) _); [|done]. cbn [mbind result_mbind].
  destruct (parse_required_datetime _ _); [|done]. cbn [mbind result_mbind].
  destruct (parse_optional_datetime (row_started_at row) _); [|done]. cbn [mbind result_mbind].
  destruct (parse_optional_datetime (row_completed_at row) _); [|done]. by intros [= <-].
Qed.

Lemma sqlite_claim_returns_id now id w s j s' :
  sqlite_claim_job_by_id now id w s = (Ok (Some j), s') → Job_id j = id.
Proof.
  intros Hc.
  assert (Hq : ∀ rows, match optional (query_row (has_id (Uuid_to_string id)) row_to_job rows) with
                       | Ok a => ∀ k, a = Some k → Job_id k = id
                       | Err _ => True
                       end).
  { intros rows. unfold query_row. destruct (List.find _ rows) as [r|] eqn:Hf; [|done].
    apply List.find_some in Hf as [_ Hid%bool_decide_eq_true].
    destruct (row_to_job r) as [k|e] eqn:Hr; [|by destruct e].
    intros ? [= <-]. apply row_to_job_id in Hr. rewrite Hid, Uuid_parse_to_string in Hr.
    by injection Hr. }
  assert (Hs : db_spec true (db_rows s) (sqlite_claim_job_by_id now id w)
                 (λ a _, ∀ k, a = Some k → Job_id k = id) (λ _, True)).
  { apply (spec_bind _ _ _ _ (λ _ _, True)); [by apply spec_conn|]. intros _ rows _.
    apply spec_transaction; [|done].
    apply (spec_bind _ _ _ _ (λ _ _, True)); [by apply spec_execute|]. intros n rows' _.
    apply (spec_bind _ _ _ _ (λ a _, ∀ k, a = Some k → Job_id k = id)).
    - case_bool_decide; [by apply spec_ret|]. apply spec_query; [|done].
      specialize (Hq rows'). by destruct (optional _).
    - intros a rows'' Ha. apply (spec_bind _ _ _ _ (λ _ _, True)); [by apply spec_commit|].
      intros _ ? _. by apply spec_ret. }
  apply db_spec_run in Hs as [_ Hs]; [|by left]. rewrite Hc in Hs. by apply Hs.
Qed.
End facts.

(** * Retention of finished jobs

    What [prune_old_jobs] deletes, and that [count_old_jobs] predicts it. *)

(** A predicate that stays true along a list selects a suffix of it. *)
Lemma filter_suffix {A} (p : A → bool) l :
  StronglySorted (λ a b, p a = true → p b = true) l →
  ∃ l1 l2, l = l1 ++ l2 ∧ List.filter p l = l2 ∧ Forall (λ a, p a = false) l1.
Proof.
  induction 1 as [|x l Hs IH Hx]; [by exists [], []|]. destruct (p x) eqn:Hp.
  - exists [], (x :: l). split_and!; [done | | done]. cbn. rewrite Hp. f_equal.
    clear IH Hs. induction Hx as [|y l Hy Hx IH]; [done|]. cbn. by rewrite Hy, IH.
  - destruct IH as (l1 & l2 & -> & Hf & Hall). exists (x :: l1), l2.
    split_and!; [done | cbn; by rewrite Hp | by constructor].
Qed.

Lemma StronglySorted_app_between {A} (R : A → A → Prop) l1 l2 a b :
  StronglySorted R (l1 ++ l2) → a ∈ l1 → b ∈ l2 → R a b.
Proof.
  induction l1 as [|x l1 IH]; cbn; intros Hs Ha Hb; [by apply elem_of_nil in Ha|].
  apply StronglySorted_inv in Hs as [Hs Hx]. apply elem_of_cons in Ha as [->|Ha]; [|by apply IH].
  apply (proj1 (Forall_forall _ _) Hx). apply elem_of_app. by right.
Qed.

Lemma StronglySorted_mono {A} (R R' : A → A → Prop) l :
  (∀ a b, R a b → R' a b) → StronglySorted R l → StronglySorted R' l.
Proof.
  intros HR. induction 1 as [|x l Hs IH Hx]; constructor; [done|].
  eapply Forall_impl; [done|]. intros y. apply HR.
Qed.

(** Numbering a sorted list *)
Lemma imap_sorted {A} (R : A → A → Prop) k l :
  StronglySorted R l →
  StronglySorted (λ x y : nat * A, x.1 ≤ y.1 ∧ R x.2 y.2) (imap (λ i a, (k + i, a)) l).
Proof.
  intros Hs. revert k. induction Hs as [|x l Hs IH Hx]; intros k; [constructor|].
  rewrite imap_cons. constructor.
  - rewrite (imap_ext _ (λ i a, (Datatypes.S k + i, a))).
    + apply IH.
    + intros i y _. cbn. f_equal. lia.
  - apply Forall_forall. intros [n y] Hy. apply elem_of_lookup_imap in Hy as (i & z & [= -> ->] & Hz).
    cbn. split; [lia|]. apply (proj1 (Forall_forall _ _) Hx). by eapply list_elem_of_lookup_2.
Qed.

Lemma imap_number_fst {A} k (l : list A) : (imap (λ i a, (k + i, a)) l).*2 = l.
Proof.
  revert k. induction l as [|x l IH]; intros k; [done|]. rewrite imap_cons. cbn. f_equal.
  rewrite (imap_ext _ (λ i a, (Datatypes.S k + i, a))) by (intros i y _; cbn; f_equal; lia).
  apply IH.
Qed.

Lemma imap_number_take {A} k n (l : list A) :
  take n (imap (λ i a, (k + i, a)) l) = imap (λ i a, (k + i, a)) (take n l).
Proof.
  apply list_eq. intros i. rewrite lookup_take, !list_lookup_imap, lookup_take.
  by case_decide.
Qed.

Lemma imap_number_lookup {A} k (l : list A) i x n :
  imap (λ i a, (k + i, a)) l !! i = Some (n, x) → n = k + i.
Proof. rewrite list_lookup_imap. by destruct (l !! i) as [y|]; intros [= <- <-]. Qed.

Lemma filter_forall {A} (p : A → bool) l : Forall (λ x, p x = true) (List.filter p l).
Proof.
  apply Forall_forall. intros x Hx. rewrite list_elem_of_In, List.filter_In in Hx. by destruct Hx.
Qed.

Lemma bfilter_comm {A} (p q : A → bool) l :
  List.filter p (List.filter q l) = List.filter q (List.filter p l).
Proof.
  induction l as [|x l IH]; [done|]. cbn.
  destruct (p x) eqn:Hp, (q x) eqn:Hq; cbn; rewrite ?Hp, ?Hq; by rewrite ?IH.
Qed.

Section prune.
Context `{Chrono} `{UuidText} `{Sqlite}.

Definition newest_first (a b : JobRow) : bool := str_leb (effective_at b) (effective_at a).

(** The ranking, split where the policy starts to delete. *)
Lemma ranked_split cutoff keep_last rows :
  ∃ newest oldest,
    ranked rows = imap (λ i r, (1 + i, r)) (newest ++ oldest) ∧
    newest ++ oldest ≡ₚ List.filter row_is_terminal rows ∧
    StronglySorted (λ a b, newest_first a b = true) (newest ++ oldest) ∧
    List.filter (expired cutoff keep_last) (ranked rows) =
      imap (λ i r, (1 + length newest + i, r)) oldest ∧
    Forall (λ x, expired cutoff keep_last x = false) (imap (λ i r, (1 + i, r)) newest).
Proof.
  set (L := order_by newest_first (List.filter row_is_terminal rows)).
  assert (Hs : StronglySorted (λ a b, newest_first a b = true) L).
  { apply order_by_sorted; unfold newest_first.
    - intros a b. apply str_leb_total.
    - intros a b c Hab Hbc. by eapply str_leb_trans. }
  assert (Hr : ranked rows = imap (λ i r, (1 + i, r)) L) by done.
  destruct (filter_suffix (expired cutoff keep_last) (ranked rows)) as (l1 & l2 & Hl & Hf & Hall).
  { rewrite Hr. eapply StronglySorted_mono; [|by apply imap_sorted].
    intros [n a] [k b] [Hn Hab]; cbn in *. unfold expired; cbn.
    rewrite !orb_true_iff. intros [Hc|Hc].
    - left. destruct cutoff as [c|]; [|done]. rewrite str_ltb_leb in *.
      apply negb_true_iff. apply negb_true_iff in Hc.
      destruct (str_leb c (effective_at b)) eqn:Hcb; [|done].
      by rewrite (str_leb_trans _ _ _ Hcb Hab) in Hc.
    - right. destruct keep_last; [|done]. lia. }
  exists (take (length l1) L), (drop (length l1) L). rewrite take_drop.
  assert (Hl1 : l1 = imap (λ i r, (1 + i, r)) (take (length l1) L)).
  { rewrite Hr in Hl. apply (f_equal (take (length l1))) in Hl.
    rewrite take_app_length in Hl. etrans; [symmetry; exact Hl|].
    apply imap_number_take. }
  assert (Hlen : length (take (length l1) L) = length l1).
  { rewrite length_take. apply (f_equal length) in Hl. rewrite Hr, length_imap, length_app in Hl. lia. }
  split_and!; [done | apply order_by_perm | done | | by rewrite <-Hl1].
  rewrite Hf, Hlen. rewrite Hr in Hl.
  rewrite <-(take_drop (length l1) L) in Hl at 1. rewrite imap_app, Hlen in Hl.
  rewrite <-Hl1 in Hl. apply app_inv_head in Hl. rewrite <-Hl.
  by apply imap_ext.
Qed.

(** Deleting the rows of a suffix by their primary keys *)
Lemma delete_split rows (newest oldest : list JobRow) :
  NoDup (row_id <$> rows) → newest ++ oldest ≡ₚ List.filter row_is_terminal rows →
  let p := λ r, bool_decide (row_id r ∈ map row_id oldest) in
  length (List.filter p rows) = length oldest ∧
  List.filter row_is_terminal (List.filter (λ r, negb (p r)) rows) ≡ₚ newest ∧
  (∀ r, r ∈ List.filter (λ r, negb (p r)) rows ↔ r ∈ rows ∧ r ∉ oldest).
Proof.
  intros Hnd Hperm p.
  assert (Hin : ∀ r, r ∈ newest ++ oldest → r ∈ rows ∧ row_is_terminal r = true).
  { intros r Hr. rewrite Hperm, list_elem_of_In, List.filter_In in Hr.
    by rewrite list_elem_of_In. }
  assert (Hkey : ∀ r, r ∈ rows → p r = bool_decide (row_id r ∈ map row_id oldest) ∧
                      (p r = true ↔ r ∈ oldest)).
  { intros r Hr. split; [done|]. unfold p. rewrite bool_decide_eq_true.
    rewrite list_elem_of_In, in_map_iff. split.
    - intros (x & Hx & Hxo%list_elem_of_In).
      assert (x ∈ rows) by (apply Hin, elem_of_app; by right).
      by rewrite <-(NoDup_fmap_inj_elem row_id rows x r Hnd).
    - intros Hro. exists r. by rewrite <-list_elem_of_In. }
  assert (Hsub : NoDup (newest ++ oldest)).
  { rewrite Hperm. apply (NoDup_fmap_1 row_id). by apply NoDup_fmap_filter. }
  assert (Hdis : ∀ r, r ∈ newest → r ∉ oldest) by (apply NoDup_app in Hsub; naive_solver).
  assert (Hpn : List.filter p newest = [] ∧ List.filter (λ r, negb (p r)) newest = newest).
  { split; [apply filter_none | apply filter_all]; apply Forall_forall; intros r Hr;
      [|apply negb_true_iff]; (destruct (p r) eqn:Hpr; [|done]);
      (exfalso; apply (Hdis r Hr), (Hkey r); [apply Hin, elem_of_app; by left | done]). }
  assert (Hpo : List.filter p oldest = oldest ∧ List.filter (λ r, negb (p r)) oldest = []).
  { assert (Ht : ∀ r, r ∈ oldest → p r = true).
    { intros r Hr. apply (Hkey r); [apply Hin, elem_of_app; by right | done]. }
    split; [by apply filter_all, Forall_forall | apply filter_none, Forall_forall]. intros r Hr. by rewrite Ht. }
  split_and!.
  - replace (List.filter p rows) with (List.filter p (List.filter row_is_terminal rows)).
    + rewrite <-Hperm, List.filter_app, (proj1 Hpn), (proj1 Hpo). done.
    + rewrite bfilter_comm. apply filter_all, Forall_forall. intros r Hr.
      rewrite list_elem_of_In, List.filter_In, <-list_elem_of_In in Hr. destruct Hr as [Hr Hpr].
      apply (Hkey r Hr) in Hpr. apply Hin, elem_of_app. by right.
  - rewrite bfilter_comm, <-Hperm, List.filter_app, (proj2 Hpn), (proj2 Hpo). by rewrite app_nil_r.
  - intros r. rewrite list_elem_of_In, List.filter_In, <-list_elem_of_In, negb_true_iff.
    split; intros [Hr Hx]; (split; [done|]).
    + intros Ho. apply (Hkey r Hr) in Ho. congruence.
    + destruct (p r) eqn:Hpr; [|done]. by apply (Hkey r Hr) in Hpr.
Qed.

(** What is kept respects both bounds. *)
Lemma newest_bounds cutoff keep_last (newest : list JobRow) :
  (∀ n, keep_last = Some n → (0 ≤ n)%Z) →
  Forall (λ x, expired cutoff keep_last x = false) (imap (λ i r, (1 + i, r)) newest) →
  (∀ r c, r ∈ newest → cutoff = Some c → str_ltb (effective_at r) c = false) ∧
  (∀ n, keep_last = Some n → (Z.of_nat (length newest) ≤ n)%Z).
Proof.
  intros Hpos Hall. rewrite Forall_lookup in Hall.
  assert (Hat : ∀ i r, newest !! i = Some r → expired cutoff keep_last (1 + i, r) = false).
  { intros i r Hi. apply (Hall i). by rewrite list_lookup_imap, Hi. }
  split.
  - intros r c [i Hi]%list_elem_of_lookup ->. specialize (Hat i r Hi).
    unfold expired in Hat; cbn [fst snd] in Hat. by apply orb_false_iff in Hat as [? _].
  - intros n ->. destruct (length newest) as [|k] eqn:Hlen; [by apply Hpos|].
    destruct (lookup_lt_is_Some_2 newest k) as [r Hr]; [lia|].
    specialize (Hat k r Hr). unfold expired in Hat; cbn [fst snd] in Hat.
    apply orb_false_iff in Hat as [_ Hat%Z.ltb_ge]. lia.
Qed.

(** What is deleted is past the cutoff, or the number to keep is reached. *)
Lemma oldest_reason cutoff keep_last (newest oldest : list JobRow) :
  StronglySorted (λ a b, newest_first a b = true) (newest ++ oldest) →
  Forall (λ x, expired cutoff keep_last x = true)
    (imap (λ i r, (1 + length newest + i, r)) oldest) →
  ∀ r, r ∈ oldest →
    (∃ c, cutoff = Some c ∧ str_ltb (effective_at r) c = true) ∨
    (∃ n, keep_last = Some n ∧ (n ≤ Z.of_nat (length newest))%Z).
Proof.
  intros Hs Hall r Hr. destruct oldest as [|x oldest]; [by apply elem_of_nil in Hr|].
  rewrite imap_cons in Hall. apply Forall_cons in Hall as [Hx _].
  unfold expired in Hx; cbn [fst snd] in Hx. apply orb_true_iff in Hx as [Hx|Hx].
  - left. destruct cutoff as [c|]; [|done]. exists c. split; [done|].
    assert (Hxr : newest_first x r = true).
    { apply elem_of_cons in Hr as [->|Hr]; [by destruct (str_leb_total (effective_at x) (effective_at x))|].
      apply (StronglySorted_app_between (λ a b, newest_first a b = true) (newest ++ [x]) oldest); [by rewrite <-app_assoc | |done].
      apply elem_of_app. right. by apply list_elem_of_singleton. }
    unfold newest_first in Hxr. rewrite str_ltb_leb in *. apply negb_true_iff.
    apply negb_true_iff in Hx. destruct (str_leb c (effective_at r)) eqn:Hcr; [|done].
    by rewrite (str_leb_trans _ _ _ Hcr Hxr) in Hx.
  - right. destruct keep_last as [n|]; [|done]. exists n. split; [done|].
    apply Z.ltb_lt in Hx. lia.
Qed.

Lemma keep_last_i64_nonneg policy n :
  RetentionPolicy_keep_last_i64 policy = Some n → (0 ≤ n)%Z.
Proof.
  unfold RetentionPolicy_keep_last_i64. destruct (RetentionPolicy_keep_last policy) as [k|]; [|done].
  cbn. case_match; [|done]. intros [= <-]. lia.
Qed.
End prune.

(** * Pages, counts and retention

    The further promises of [JobTableLaws]. *)
Section table.
Context `{Chrono} `{UuidText} `{Sqlite}.

Lemma row_list_leb_row_of a b :
  sqlite_storable a → sqlite_storable b → row_list_leb (row_of a) (row_of b) = listed_before a b.
Proof.
  intros (_&_&_&_&Ha) (_&_&_&_&Hb). unfold row_list_leb, listed_before; simpl.
  unfold bind_time, format_iso. by rewrite to_rfc3339_order.
Qed.

Lemma row_list_leb_total a b : row_list_leb a b = true ∨ row_list_leb b a = true.
Proof.
  unfold row_list_leb. rewrite !orb_true_iff, !andb_true_iff, !Z.ltb_lt, !Z.eqb_eq.
  destruct (Z.lt_trichotomy (row_priority a) (row_priority b)) as [|[->|]]; [auto| |auto].
  destruct (str_leb_total (row_created_at a) (row_created_at b)); auto.
Qed.

Lemma row_list_leb_trans a b c :
  row_list_leb a b = true → row_list_leb b c = true → row_list_leb a c = true.
Proof.
  unfold row_list_leb. rewrite !orb_true_iff, !andb_true_iff, !Z.ltb_lt, !Z.eqb_eq.
  pose proof (str_leb_trans (row_created_at c) (row_created_at b) (row_created_at a)).
  intros [|[]] [|[]]; [left; lia | left; lia | left; lia | right; split; [lia | auto]].
Qed.

Lemma sorted_rows (R : JobRow → JobRow → Prop) (R' : Job → Job → Prop) js :
  (∀ a b, a ∈ js → b ∈ js → R (row_of a) (row_of b) → R' a b) →
  StronglySorted R (map row_of js) → StronglySorted R' js.
Proof.
  intros HR. induction js as [|j js IH]; [constructor|]. cbn.
  intros [Hs Hj]%StronglySorted_inv. constructor.
  - apply IH; [|done]. intros a b Ha Hb. apply HR; by right.
  - apply Forall_forall. intros k Hk. apply HR; [by left|by right|].
    rewrite Forall_forall in Hj. apply Hj, list_elem_of_fmap. by exists k.
Qed.

Lemma paginate_page filters js :
  paginate (JobFilters_limit filters) (JobFilters_offset filters) (map row_of js) =
  match page filters js with
  | Some p => Ok (map row_of p)
  | None => Err (rusqlite_SqliteFailure ErrorCode_Unknown "near OFFSET: syntax error")
  end.
Proof.
  unfold paginate, page.
  destruct (JobFilters_limit filters) as [n|], (JobFilters_offset filters) as [k|]; cbn; try done.
  - by rewrite <-firstn_map, <-skipn_map.
  - by rewrite drop_0, <-firstn_map.
Qed.

Lemma page_incl filters l p j : page filters l = Some p → j ∈ p → j ∈ l.
Proof.
  unfold page. destruct (JobFilters_limit filters) as [n|], (JobFilters_offset filters) as [k|];
    intros [= <-]; try done; intros Hj; eapply subseteq_drop, subseteq_take, Hj.
Qed.

Lemma sqlite_list_page_spec b rows m filters :
  sqlite_rep_rows rows m → ∃ l, listed m (JobFilters_status filters) l ∧
    match page filters l with
    | Some p => op_spec b rows (sqlite_list_jobs filters) m p m
    | None => db_spec true rows (sqlite_list_jobs filters) (λ _ _, False) (λ rows', sqlite_rep_rows rows' m)
    end.
Proof.
  intros (js & -> & Hnd & Hst & ->). set (status := JobFilters_status filters).
  assert (Hf : List.filter (filter_status status) (map row_of js) =
               map row_of (List.filter (status_matches status) js)).
  { rewrite filter_map. f_equal. apply filter_ext_all. intros j.
    destruct status; [apply row_status_row_of | done]. }
  pose proof (order_by_perm row_list_leb (map row_of (List.filter (status_matches status) js))) as Hp.
  pose proof (order_by_sorted row_list_leb (map row_of (List.filter (status_matches status) js))
    row_list_leb_total row_list_leb_trans) as Hs.
  apply Permutation_map_inv in Hp as (l & Hl & Hperm). rewrite Hl in Hs.
  assert (Hstl : Forall sqlite_storable l) by (rewrite <-Hperm; by apply Forall_filter).
  assert (Herr : sqlite_rep_rows (map row_of js) (jmap js)) by by exists js.
  exists l. split.
  { split; [rewrite <-Hperm; unfold jobs_of; by rewrite jmap_values|].
    rewrite Forall_forall in Hstl.
    eapply (sorted_rows (λ a b, row_list_leb a b = true)); [|exact Hs].
    intros x y Hx Hy. by rewrite row_list_leb_row_of by auto. }
  destruct (page filters l) as [p|] eqn:Hpage.
  - apply (spec_bind _ _ _ _ (λ _, eq (map row_of js))); [by apply spec_conn|]. intros _ ? <-.
    apply (spec_bind _ _ _ _ (λ q r, q = map row_of p ∧ map row_of js = r)).
    { apply spec_query; [|done]. fold status. by rewrite Hf, Hl, paginate_page, Hpage. }
    intros ? ? [-> <-].
    apply (spec_bind _ _ _ _ (λ _, eq (map row_of js))); [by apply spec_query|]. intros _ ? <-.
    apply spec_query; [|done]. rewrite try_map_row_of; [done|].
    apply Forall_forall. intros j Hj%(page_incl _ _ _ _ Hpage). by eapply Forall_forall in Hstl.
  - apply (spec_bind _ _ _ _ (λ _, eq (map row_of js))); [by apply spec_conn|]. intros _ ? <-.
    apply (spec_bind _ _ _ _ (λ _ _, False)); [|done]. apply spec_query; [|done]. fold status.
    by rewrite Hf, Hl, paginate_page, Hpage.
Qed.

(** ** Counts *)
Lemma status_counts_row_of js :
  ∃ l, try_map (λ sc : string * u64,
      match JobStatus_parse sc.1 with
      | Some status => Ok (status, sc.2)
      | None => Err (VoomError_Storage StorageErrorKind_Other
          ("unknown job status in database: '" +:+ sc.1 +:+ "' (count=" +:+ pretty sc.2
           +:+ ") — data integrity issue"))
      end) (status_counts (map row_of js)) = Ok l ∧
    NoDup l.*1 ∧ ∀ st n, (st, n) ∈ l ↔
      n = N.of_nat (length (List.filter (status_matches (Some st)) js)) ∧ (0 < n)%N.
Proof.
  assert (Hkeys : ∀ k, k ∈ group_keys (map row_status (map row_of js)) ↔
    ∃ j, j ∈ js ∧ k = JobStatus_as_str (Job_status j)).
  { intros k. rewrite group_keys_elem, map_map, list_elem_of_fmap. naive_solver. }
  unfold status_counts.
  set (keys := group_keys (map row_status (map row_of js))) in *.
  set (number := λ k, N.of_nat (length (List.filter (λ r, bool_decide (row_status r = k)) (map row_of js)))).
  assert (∃ sts, keys = JobStatus_as_str <$> sts) as [sts Hsts].
  { clearbody number. assert (Hall : Forall (λ k, ∃ st, k = JobStatus_as_str st) keys).
    { apply Forall_forall. intros k (j & _ & ->)%Hkeys. by eexists. }
    clear Hkeys. induction Hall as [|k ks [st ->] _ [sts IH]]; [by exists []|].
    exists (st :: sts). cbn. by rewrite <-IH. }
  assert (Hnum : ∀ st, number (JobStatus_as_str st) =
    N.of_nat (length (List.filter (status_matches (Some st)) js))).
  { intros st. unfold number. rewrite filter_map, length_map. do 2 f_equal. apply filter_ext_all.
    intros j. apply row_status_row_of. }
  exists ((λ st, (st, number (JobStatus_as_str st))) <$> sts). split_and!.
  - rewrite Hsts. clear Hsts. apply try_map_Ok_Forall2. clear Hkeys.
    induction sts as [|st sts IH]; cbn; [constructor|].
    constructor; [by destruct st|exact IH].
  - rewrite <-list_fmap_compose. cbn. rewrite list_fmap_id.
    apply (NoDup_fmap_1 JobStatus_as_str). rewrite <-Hsts. apply group_keys_nodup.
  - intros st n. rewrite list_elem_of_fmap. split.
    + intros (st' & [= -> ->] & Hin). split; [apply Hnum|].
      assert (JobStatus_as_str st' ∈ keys) as (j & Hj & Heq%(inj JobStatus_as_str))%Hkeys
        by (rewrite Hsts; by apply list_elem_of_fmap_2).
      rewrite Hnum. enough (List.filter (status_matches (Some st')) js ≠ []) as Hne
        by (destruct (List.filter _ js); [done|cbn; lia]).
      intros Hnil. apply (not_elem_of_nil j). rewrite <-Hnil. apply filter_elem_of.
      split; [done|]. cbn. by rewrite bool_decide_true.
    + intros [-> Hpos]. exists st. rewrite Hnum. split; [done|].
      destruct (List.filter (status_matches (Some st)) js) as [|j l] eqn:Hl; [cbn in Hpos; lia|].
      assert (j ∈ List.filter (status_matches (Some st)) js) as [Hj Hs]%filter_elem_of
        by (rewrite Hl; by left).
      cbn in Hs. apply bool_decide_eq_true in Hs. subst st.
      assert (JobStatus_as_str (Job_status j) ∈ keys) as Hk by (apply Hkeys; eauto).
      rewrite Hsts in Hk. apply list_elem_of_fmap in Hk as (st' & Heq%(inj JobStatus_as_str) & Hin).
      by subst.
Qed.

Lemma sqlite_count_jobs_spec b rows m :
  sqlite_rep_rows rows m → ∃ l, counted m l ∧ op_spec b rows sqlite_count_jobs_by_status m l m.
Proof.
  intros (js & -> & Hnd & Hst & ->). destruct (status_counts_row_of js) as (l & Hl & Hn & Hin).
  assert (Herr : sqlite_rep_rows (map row_of js) (jmap js)) by by exists js.
  exists l. split.
  { split; [done|]. intros st n. rewrite Hin. unfold jobs_of.
    by rewrite (jmap_values js Hnd). }
  apply (spec_bind _ _ _ _ (λ _, eq (map row_of js))); [by apply spec_conn|]. intros _ ? <-.
  do 2 (apply (spec_bind _ _ _ _ (λ _, eq (map row_of js))); [by apply spec_query|]; intros _ ? <-).
  apply (spec_bind _ _ _ _ (λ c r, c = status_counts (map row_of js) ∧ map row_of js = r));
    [by apply spec_query|].
  intros ? ? [-> <-]. apply spec_lift. by rewrite Hl.
Qed.

(** ** The oldest job *)
Lemma min_created_row_of js :
  Forall sqlite_storable js →
  match min_created_at (map row_of js) with
  | None => js = []
  | Some text => ∃ j, j ∈ js ∧ text = format_iso (Job_created_at j) ∧
      ∀ k, k ∈ js → (Job_created_at j ≤ Job_created_at k)%Z
  end.
Proof.
  induction 1 as [|j js Hj Hst IH]; [done|]. cbn.
  fold (min_created_at (map row_of js)).
  destruct (min_created_at (map row_of js)) as [text|].
  - destruct IH as (k & Hk & -> & Hmin). rewrite Forall_forall in Hst.
    destruct (Hst k Hk) as (_ & _ & _ & _ & Hkr). destruct Hj as (_ & _ & _ & _ & Hjr).
    unfold bind_time, format_iso. rewrite to_rfc3339_order by done. case Z.leb_spec; intros Hle.
    + exists j. split_and!; [by left|done|]. intros x [->|Hx]%elem_of_cons; [lia|].
      specialize (Hmin x Hx). lia.
    + exists k. split_and!; [by right|done|]. intros x [->|Hx]%elem_of_cons; [lia|by apply Hmin].
  - subst js. exists j. split_and!; [by left|done|]. by intros x ->%list_elem_of_singleton.
Qed.

Lemma sqlite_oldest_spec b rows m :
  sqlite_rep_rows rows m →
  ∃ o, oldest_created m o ∧ op_spec b rows sqlite_oldest_job_created_at m o m.
Proof.
  intros (js & -> & Hnd & Hst & ->). pose proof (min_created_row_of js Hst) as Hmin.
  assert (Herr : sqlite_rep_rows (map row_of js) (jmap js)) by by exists js.
  assert (∃ o, oldest_created (jmap js) o ∧
    try_opt parse_datetime (min_created_at (map row_of js)) = Ok o) as (o & Ho & Hp).
  { destruct (min_created_at (map row_of js)) as [text|].
    - destruct Hmin as (j & Hj & -> & Hle). exists (Some (Job_created_at j)). split.
      + split; [exists (Job_id j), j; split; [by apply jmap_lookup_elem|done]|].
        intros id k [Hk _]%jmap_lookup_elem; [|done]. by apply Hle.
      + cbn. unfold parse_datetime, format_iso. by rewrite parse_to_rfc3339.
    - subst js. by exists None. }
  exists o. split; [done|].
  apply (spec_bind _ _ _ _ (λ _, eq (map row_of js))); [by apply spec_conn|]. intros _ ? <-.
  apply (spec_bind _ _ _ _ (λ c r, c = min_created_at (map row_of js) ∧ map row_of js = r));
    [by apply spec_query|].
  intros ? ? [-> <-]. apply spec_lift. by rewrite Hp.
Qed.
(** ** Retention *)
Lemma effective_at_row_of j : effective_at (row_of j) = ended j.
Proof. unfold effective_at, ended. cbn. by destruct (Job_completed_at j). Qed.

(** The rows that go, and what they are *)
Lemma retained_rows now policy js :
  NoDup (Job_id <$> js) →
  let cutoff := RetentionPolicy_cutoff_str now policy in
  let keep_last := RetentionPolicy_keep_last_i64 policy in
  ∃ newest oldest, retained now policy (jmap js) newest oldest ∧
    length (List.filter Job_is_terminal js) = length newest + length oldest ∧
    expired_ids cutoff keep_last (map row_of js) = map row_id (map row_of oldest) ∧
    length (List.filter (expired cutoff keep_last) (ranked (map row_of js))) = length oldest.
Proof.
  intros Hnd cutoff keep_last.
  destruct (ranked_split cutoff keep_last (map row_of js)) as (nr & or & Hr & Hperm & Hs & Hexp & Hkept).
  destruct (newest_bounds cutoff keep_last nr) as [Hcut Hlast]; [apply keep_last_i64_nonneg | done |].
  pose proof (oldest_reason cutoff keep_last nr or Hs) as Hreason.
  assert (Hids : expired_ids cutoff keep_last (map row_of js) = map row_id or).
  { unfold expired_ids. rewrite Hexp, <-(map_map snd row_id). f_equal. apply imap_number_fst. }
  assert (Hlen : length (List.filter (expired cutoff keep_last) (ranked (map row_of js))) = length or)
    by (rewrite Hexp; apply length_imap).
  assert (Hall : Forall (λ x, expired cutoff keep_last x = true)
    (imap (λ i r, (1 + length nr + i, r)) or)) by (rewrite <-Hexp; apply filter_forall).
  specialize (Hreason Hall). rewrite filter_map in Hperm.
  rewrite (filter_ext_all _ Job_is_terminal js row_is_terminal_row_of) in Hperm.
  apply Permutation_map_inv in Hperm as (l & Hl & Hperm). symmetry in Hl.
  apply map_eq_app in Hl as (newest & oldest & -> & <- & <-).
  assert (Hrow : ∀ j l, j ∈ l → row_of j ∈ map row_of l) by (intros j l Hj; by apply list_elem_of_fmap_2).
  exists newest, oldest. split_and!; [split| |done|by rewrite length_map in Hlen].
  - rewrite <-Hperm. unfold jobs_of. by rewrite (jmap_values js Hnd).
  - intros a b Ha Hb. rewrite <-!effective_at_row_of.
    exact (StronglySorted_app_between (λ a b, newest_first a b = true) _ _ _ _ Hs (Hrow _ _ Ha) (Hrow _ _ Hb)).
  - intros a c Ha Hc. rewrite <-effective_at_row_of. by apply (Hcut _ c (Hrow _ _ Ha)).
  - intros n Hn. rewrite <-(length_map row_of). by apply Hlast.
  - intros b Hb. rewrite <-effective_at_row_of, <-(length_map row_of newest). by apply Hreason, Hrow.
  - by rewrite Hperm, length_app.
Qed.

Lemma delete_expired js oldest :
  let p := λ r, bool_decide (row_id r ∈ map row_id (map row_of oldest)) in
  let gone := λ j, bool_decide (Job_id j ∈ Job_id <$> oldest) in
  delete_rows p (map row_of js) =
    (length (List.filter gone js), map row_of (List.filter (λ j, negb (gone j)) js)).
Proof.
  intros p gone.
  assert (Hp : ∀ j, p (row_of j) = gone j).
  { intros j. apply bool_decide_ext. rewrite map_map. cbn. rewrite !list_elem_of_fmap.
    split; intros (k & Hk & Hin); exists k; (split; [|done]); [by apply Uuid_to_string_inj|by rewrite Hk]. }
  unfold delete_rows. rewrite !filter_map, length_map.
  by rewrite (filter_ext_all _ _ js Hp), (filter_ext_all _ _ js (λ j, f_equal negb (Hp j))).
Qed.

(** The rows of a terminal list that go are as many as it has. *)
Lemma gone_length js newest oldest :
  NoDup (Job_id <$> js) → newest ++ oldest ≡ₚ List.filter Job_is_terminal js →
  let gone := λ j, bool_decide (Job_id j ∈ Job_id <$> oldest) in
  length (List.filter gone js) = length oldest ∧
  length (List.filter Job_is_terminal (List.filter (λ j, negb (gone j)) js)) = length newest.
Proof.
  intros Hnd Hperm gone.
  assert (Hin : ∀ j, j ∈ newest ++ oldest → j ∈ js ∧ Job_is_terminal j = true).
  { intros j Hj. rewrite Hperm in Hj. by apply filter_elem_of. }
  assert (Hgone : ∀ j, j ∈ js → gone j = true → j ∈ oldest).
  { intros j Hj (k & Hk & Hko)%bool_decide_eq_true%list_elem_of_fmap.
    destruct (Hin k) as [Hkj _]; [apply elem_of_app; by right|].
    assert (jmap js !! Job_id j = Some j) as Hj1 by by apply jmap_lookup_elem.
    assert (jmap js !! Job_id j = Some k) as Hj2 by by apply jmap_lookup_elem. congruence. }
  assert (HndT : NoDup (newest ++ oldest)).
  { rewrite Hperm. apply (NoDup_fmap_1 Job_id). by apply NoDup_fmap_filter. }
  apply NoDup_app in HndT as (Hn & Hdis & Ho).
  assert (Hold : List.filter gone js ≡ₚ oldest).
  { apply NoDup_Permutation; [apply (NoDup_fmap_1 Job_id); by apply NoDup_fmap_filter|done|].
    intros j. rewrite filter_elem_of. split; [intros [? ?]; by apply Hgone|]. intros Hj.
    split; [apply Hin, elem_of_app; by right|]. apply bool_decide_eq_true. by apply list_elem_of_fmap_2. }
  assert (Hnew : List.filter Job_is_terminal (List.filter (λ j, negb (gone j)) js) ≡ₚ newest).
  { apply NoDup_Permutation; [apply (NoDup_fmap_1 Job_id); by do 2 apply NoDup_fmap_filter|done|].
    intros j. rewrite !filter_elem_of, negb_true_iff. split.
    - intros [[Hj Hg] Ht]. assert (j ∈ newest ++ oldest) as [?|Hjo]%elem_of_app; [|done|].
      { rewrite Hperm. by apply filter_elem_of. }
      exfalso. apply bool_decide_eq_false in Hg. by apply Hg, list_elem_of_fmap_2.
    - intros Hj. destruct (Hin j) as [Hjs Ht]; [apply elem_of_app; by left|]. split; [|done].
      split; [done|]. destruct (gone j) eqn:Hg; [|done]. exfalso. exact (Hdis j Hj (Hgone j Hjs Hg)). }
  by rewrite Hold, Hnew.
Qed.

Lemma retained_disabled now policy m newest oldest :
  RetentionPolicy_is_disabled policy = true → retained now policy m newest oldest → oldest = [].
Proof.
  unfold RetentionPolicy_is_disabled. intros [Ha%bool_decide_eq_true Hk%bool_decide_eq_true]%andb_prop Hr.
  destruct oldest as [|j oldest]; [done|].
  destruct (retained_reason _ _ _ _ _ Hr j (list_elem_of_here _ _)) as [(c & Hc & _)|(n & Hn & _)].
  - unfold RetentionPolicy_cutoff_str in Hc. by rewrite Ha in Hc.
  - unfold RetentionPolicy_keep_last_i64 in Hn. by rewrite Hk in Hn.
Qed.

Lemma without_nil m : without [] m = m.
Proof. unfold without, delete_where. apply map_filter_id. intros i j _. by apply bool_decide_eq_false, not_elem_of_nil. Qed.

Lemma count_terminal_row_of js :
  count_terminal (map row_of js) = N.of_nat (length (List.filter Job_is_terminal js)).
Proof.
  unfold count_terminal. rewrite filter_map, length_map. do 2 f_equal.
  apply filter_ext_all, row_is_terminal_row_of.
Qed.

(** With retention disabled, both calls only count. *)
Lemma disabled_report_spec b js newest :
  length (List.filter Job_is_terminal js) = length newest →
  NoDup (Job_id <$> js) → Forall sqlite_storable js →
  op_spec b (map row_of js)
    (db_bind db_conn (λ _,
     db_bind (db_query "failed to count jobs" (λ rows, Ok (count_terminal rows))) (λ kept,
     db_ret {| PruneReport_deleted := 0; PruneReport_kept := kept |})))
    (jmap js) (retention_report newest []) (jmap js).
Proof.
  intros Hlen Hnd Hst. assert (Herr : sqlite_rep_rows (map row_of js) (jmap js)) by by exists js.
  apply (spec_bind _ _ _ _ (λ _, eq (map row_of js))); [by apply spec_conn|]. intros _ ? <-.
  apply (spec_bind _ _ _ _ (λ k r, k = N.of_nat (length newest) ∧ map row_of js = r)).
  { apply spec_query; [|done]. by rewrite count_terminal_row_of, Hlen. }
  intros ? ? [-> <-]. by apply spec_ret.
Qed.

Lemma sqlite_prune_spec b rows m now policy :
  sqlite_rep_rows rows m → ∃ newest oldest, retained now policy m newest oldest ∧
    db_spec b rows (sqlite_prune_old_jobs now policy)
      (λ r rows', r = retention_report newest oldest ∧ sqlite_rep_rows rows' (without oldest m))
      (λ rows', b = true ∧ (sqlite_rep_rows rows' m ∨ sqlite_rep_rows rows' (without oldest m))).
Proof.
  intros (js & -> & Hnd & Hst & ->).
  destruct (retained_rows now policy js Hnd) as (newest & oldest & Hr & Hlen & Hids & _).
  exists newest, oldest. split; [done|]. unfold sqlite_prune_old_jobs.
  assert (Herr : sqlite_rep_rows (map row_of js) (jmap js)) by by exists js.
  destruct (RetentionPolicy_is_disabled policy) eqn:Hd.
  { pose proof (retained_disabled _ _ _ _ _ Hd Hr) as ->. rewrite without_nil.
    eapply spec_weaken; [apply (disabled_report_spec b js newest); [cbn in Hlen; lia|done..]|done|].
    intros rows' [? ?]. auto. }
  destruct (gone_length js newest oldest Hnd) as [Hgone Hkept].
  { rewrite (retained_all _ _ _ _ _ Hr). unfold jobs_of. by rewrite (jmap_values js Hnd). }
  set (ks := List.filter (λ j, negb (bool_decide (Job_id j ∈ Job_id <$> oldest))) js) in *.
  assert (Hks : sqlite_rep_rows (map row_of ks) (without oldest (jmap js))).
  { exists ks. split_and!; [done|by apply NoDup_fmap_filter|by apply Forall_filter|].
    symmetry. by apply jmap_filter. }
  apply (spec_bind _ _ _ _ (λ _, eq (map row_of js))); [apply spec_conn; auto|]. intros _ ? <-.
  apply (spec_bind _ _ _ _ (λ n r, n = length oldest ∧ map row_of ks = r)).
  { apply spec_execute; [|auto]. cbv zeta. rewrite Hids, delete_expired. cbn. by rewrite Hgone. }
  intros ? ? [-> <-].
  apply (spec_bind _ _ _ _ (λ k r, k = N.of_nat (length newest) ∧ map row_of ks = r)).
  { apply spec_query; [|auto]. by rewrite count_terminal_row_of, Hkept. }
  intros ? ? [-> <-]. by apply spec_ret.
Qed.

Lemma sqlite_count_old_spec b rows m now policy :
  sqlite_rep_rows rows m → ∃ newest oldest, retained now policy m newest oldest ∧
    op_spec b rows (sqlite_count_old_jobs now policy) m (retention_report newest oldest) m.
Proof.
  intros (js & -> & Hnd & Hst & ->).
  destruct (retained_rows now policy js Hnd) as (newest & oldest & Hr & Hlen & _ & Hexp).
  exists newest, oldest. split; [done|]. unfold sqlite_count_old_jobs.
  destruct (RetentionPolicy_is_disabled policy) eqn:Hd.
  { pose proof (retained_disabled _ _ _ _ _ Hd Hr) as ->. apply disabled_report_spec; [|done..]. cbn in Hlen. lia. }
  assert (Herr : sqlite_rep_rows (map row_of js) (jmap js)) by by exists js.
  apply (spec_bind _ _ _ _ (λ _, eq (map row_of js))); [by apply spec_conn|]. intros _ ? <-.
  apply (spec_bind _ _ _ _ (λ k r, k = N.of_nat (length oldest) ∧ map row_of js = r)).
  { apply spec_query; [|done]. by rewrite Hexp. }
  intros ? ? [-> <-].
  apply (spec_bind _ _ _ _ (λ k r, k = N.of_nat (length newest + length oldest) ∧ map row_of js = r)).
  { apply spec_query; [|done]. by rewrite count_terminal_row_of, Hlen. }
  intros ? ? [-> <-]. apply spec_ret. split; [|done]. unfold retention_report. f_equal. lia.
Qed.

#[export] Program Instance sqlite_table_laws : JobTableLaws JobsDb.
Next Obligation.
  intros s m filters Hs. destruct (sqlite_list_page_spec true (db_rows s) m filters Hs) as (l & Hl & Ha).
  exists l. split; [done|]. destruct (page filters l); [by apply answers_of_spec|].
  apply db_spec_run in Ha as [_ Ha]; [|by left]. cbn.
  destruct (sqlite_list_jobs filters s) as [[]]; [done|]. by split; [eexists|].
Qed.
Next Obligation.
  intros s m Hs. destruct (sqlite_count_jobs_spec true (db_rows s) m Hs) as (l & Hl & Ha).
  exists l. split; [done|]. by apply answers_of_spec.
Qed.
Next Obligation.
  intros s m now policy Hs. destruct (sqlite_prune_spec true (db_rows s) m now policy Hs) as (n & o & Hr & Ha).
  exists n, o. split; [done|]. apply db_spec_run in Ha as [_ Ha]; [|by left]. cbn.
  destruct (sqlite_prune_old_jobs now policy s) as [[]]; [done|]. by destruct Ha.
Qed.
Next Obligation.
  intros s m now policy Hs. destruct (sqlite_count_old_spec true (db_rows s) m now policy Hs) as (n & o & Hr & Ha).
  exists n, o. split; [done|]. by apply answers_of_spec.
Qed.
Next Obligation.
  intros s m Hs. destruct (sqlite_oldest_spec true (db_rows s) m Hs) as (o & Ho & Ha).
  exists o. split; [done|]. by apply answers_of_spec.
Qed.
End table.
