(* ===== verification/MemoryJobs.v ===== *)
(** * The in-memory job store

    The jobs of [InMemoryStore] in [crates/voom-domain/src/test_support.rs]: a
    hash map behind a lock, against which the job manager is also run. Pruning
    is a stub there. *)
From S2P Require Import Prelude Json Plan Jobs JobSpec.

(** The order in which a hash map keyed by identifiers, and one keyed by
    statuses, is traversed. *)
Class JobHashOrder := {
  jobs_values : gmap Uuid Job → list Job;
  jobs_values_perm m : jobs_values m ≡ₚ (map_to_list m).*2;
  status_keys : list JobStatus → list JobStatus;
  status_keys_nodup l : NoDup (status_keys l);
  status_keys_elem l k : k ∈ status_keys l ↔ k ∈ l;
}.

Record InMemoryStore : Type := { InMemoryStore_jobs : gmap Uuid Job }.

(** [Iterator::min_by_key]: the first of the least elements. *)
Fixpoint min_by {A} (leb : A → A → bool) (l : list A) : option A :=
  match l with
  | [] => None
  | x :: l =>
      match min_by leb l with
      | None => Some x
      | Some y => Some (if leb x y then x else y)
      end
  end.

(** [slice::sort_by], which is stable. *)
Fixpoint insert_by {A} (leb : A → A → bool) (x : A) (l : list A) : list A :=
  match l with
  | [] => [x]
  | y :: l => if leb x y then x :: y :: l else y :: insert_by leb x l
  end.

Definition sort_by {A} (leb : A → A → bool) (l : list A) : list A :=
  foldr (insert_by leb) [] l.

(** [priority] ascending, then [created_at] descending *)
Definition list_leb (a b : Job) : bool :=
  (Job_priority a <? Job_priority b)%Z
  || (Job_priority a =? Job_priority b)%Z && (Job_created_at b <=? Job_created_at a)%Z.

Section memory.
Context `{UuidText} `{JobHashOrder}.

Definition mem_create_job (j : Job) (s : InMemoryStore) : result VoomError Uuid * InMemoryStore :=
  (Ok (Job_id j), {| InMemoryStore_jobs := <[Job_id j := j]> (InMemoryStore_jobs s) |}).

Definition mem_job (id : Uuid) (s : InMemoryStore)
    : result VoomError (option Job) * InMemoryStore :=
  (Ok (InMemoryStore_jobs s !! id), s).

Definition mem_update_job (id : Uuid) (u : JobUpdate) (s : InMemoryStore)
    : result VoomError unit * InMemoryStore :=
  match InMemoryStore_jobs s !! id with
  | None => (Err (VoomError_Storage StorageErrorKind_NotFound
                    ("job " +:+ Uuid_to_string id +:+ " not found")), s)
  | Some j =>
      (Ok tt, {| InMemoryStore_jobs := <[id := apply_update u j]> (InMemoryStore_jobs s) |})
  end.

(** The key of a job is its own id, so that [get_mut(&id).unwrap()] finds it; the
    branch of the panic is never taken ([memory_laws]). *)
Definition mem_claim_next_job (now : DateTime) (worker_id : string) (s : InMemoryStore)
    : result VoomError (option Job) * InMemoryStore :=
  let jobs := InMemoryStore_jobs s in
  match Job_id <$> min_by claim_leb (List.filter is_pending (jobs_values jobs)) with
  | Some id =>
      match jobs !! id with
      | Some j =>
          let j' := claimed now worker_id j in
          (Ok (Some j'), {| InMemoryStore_jobs := <[id := j']> jobs |})
      | None => (Ok None, s)
      end
  | None => (Ok None, s)
  end.

Definition mem_claim_job_by_id (now : DateTime) (job_id : Uuid) (worker_id : string)
    (s : InMemoryStore) : result VoomError (option Job) * InMemoryStore :=
  match InMemoryStore_jobs s !! job_id with
  | Some j =>
      if is_pending j then
        let j' := claimed now worker_id j in
        (Ok (Some j'), {| InMemoryStore_jobs := <[job_id := j']> (InMemoryStore_jobs s) |})
      else (Ok None, s)
  | None => (Ok None, s)
  end.

Definition mem_list_jobs (filters : JobFilters) (s : InMemoryStore)
    : result VoomError (list Job) * InMemoryStore :=
  let result :=
    sort_by list_leb
      (List.filter (λ j, match JobFilters_status filters with
                         | None => true
                         | Some s => bool_decide (Job_status j = s)
                         end) (jobs_values (InMemoryStore_jobs s))) in
  let result := match JobFilters_offset filters with
                | Some offset => drop (N.to_nat offset) result
                | None => result
                end in
  let result := match JobFilters_limit filters with
                | Some limit => take (N.to_nat limit) result
                | None => result
                end in
  (Ok result, s).

Definition mem_count_jobs_by_status (s : InMemoryStore)
    : result VoomError (list (JobStatus * u64)) * InMemoryStore :=
  let jobs := jobs_values (InMemoryStore_jobs s) in
  (Ok (map (λ k, (k, N.of_nat (length (List.filter (λ j, bool_decide (Job_status j = k)) jobs))))
           (status_keys (map Job_status jobs))), s).

Definition mem_delete_jobs (status : option JobStatus) (s : InMemoryStore)
    : result VoomError u64 * InMemoryStore :=
  let jobs := InMemoryStore_jobs s in
  let jobs' :=
    match status with
    | Some st => filter (λ kv, Job_status kv.2 ≠ st) jobs
    | None => filter (λ kv, ¬ Is_true (Job_is_terminal kv.2)) jobs
    end in
  (Ok (N.of_nat (size jobs - size jobs')), {| InMemoryStore_jobs := jobs' |}).

(** Not implemented by the store: it reports an empty result. *)
Definition mem_prune_old_jobs (now : DateTime) (policy : RetentionPolicy) (s : InMemoryStore)
    : result VoomError PruneReport * InMemoryStore :=
  (Ok {| PruneReport_deleted := 0; PruneReport_kept := 0 |}, s).

Definition mem_count_old_jobs (now : DateTime) (policy : RetentionPolicy) (s : InMemoryStore)
    : result VoomError PruneReport * InMemoryStore :=
  (Ok {| PruneReport_deleted := 0; PruneReport_kept := 0 |}, s).

Definition mem_oldest_job_created_at (s : InMemoryStore)
    : result VoomError (option DateTime) * InMemoryStore :=
  (Ok (min_by Z.leb (map Job_created_at (jobs_values (InMemoryStore_jobs s)))), s).

#[export] Instance InMemoryStore_JobStorage : JobStorage InMemoryStore := {|
  create_job := mem_create_job;
  job := mem_job;
  update_job := mem_update_job;
  claim_next_job := mem_claim_next_job;
  claim_job_by_id := mem_claim_job_by_id;
  list_jobs := mem_list_jobs;
  count_jobs_by_status := mem_count_jobs_by_status;
  delete_jobs := mem_delete_jobs;
  prune_old_jobs := mem_prune_old_jobs;
  count_old_jobs := mem_count_old_jobs;
  oldest_job_created_at := mem_oldest_job_created_at;
|}.
End memory.

(** * Facts about the in-memory store

    It keeps the contract of [JobSpec] for all jobs. *)

Section facts.
Context `{UuidText} `{JobHashOrder}.

(** Every job is stored under its own identifier. *)
Definition memory_rep (s : InMemoryStore) (m : gmap Uuid Job) : Prop :=
  InMemoryStore_jobs s = m ∧ map_Forall (λ id j, Job_id j = id) m.

Lemma min_by_spec {A} (leb : A → A → bool) l :
  (∀ a b, leb a b = true ∨ leb b a = true) →
  (∀ a b c, leb a b = true → leb b c = true → leb a c = true) →
  match min_by leb l with
  | None => l = []
  | Some x => x ∈ l ∧ ∀ y, y ∈ l → leb x y = true
  end.
Proof.
  intros Htot Htr. induction l as [|x l IH]; [done|]. simpl.
  destruct (min_by leb l) as [y|].
  - destruct IH as [Hy Hmin]. destruct (leb x y) eqn:Hxy.
    + split; [by left|]. intros z [->|Hz]%elem_of_cons; [by destruct (Htot x x)|].
      by eapply Htr, Hmin.
    + split; [by right|]. intros z [->|Hz]%elem_of_cons; [|by apply Hmin].
      destruct (Htot x y); congruence.
  - subst l. split; [by left|]. intros z [->|Hz]%elem_of_cons; [by destruct (Htot x x)|].
    by apply elem_of_nil in Hz.
Qed.

Lemma elem_of_jobs_values m j : j ∈ jobs_values m ↔ ∃ id, m !! id = Some j.
Proof.
  rewrite jobs_values_perm, list_elem_of_fmap. split.
  - intros ([id k] & -> & Hin). exists id. by apply elem_of_map_to_list.
  - intros [id Hid]. exists (id, j). split; [done|]. by apply elem_of_map_to_list.
Qed.

(** The job [min_by_key] selects *)
Lemma memory_first_pending m :
  map_Forall (λ id j, Job_id j = id) m →
  first_pending m (min_by claim_leb (List.filter is_pending (jobs_values m))).
Proof.
  intros Hk. pose proof (min_by_spec claim_leb (List.filter is_pending (jobs_values m))
    claim_leb_total claim_leb_trans) as Hmin.
  assert (Hin : ∀ j, j ∈ List.filter is_pending (jobs_values m) ↔
                     (∃ id, m !! id = Some j) ∧ is_pending j = true).
  { intros j. by rewrite list_elem_of_In, List.filter_In, <-list_elem_of_In, elem_of_jobs_values. }
  destruct (min_by _ _) as [j|]; simpl.
  - destruct Hmin as [Hj Hmin]. apply Hin in Hj as [[id Hid] Hp].
    pose proof (Hk id j Hid) as <-. split_and!; [done..|].
    intros id k Hid' Hp'. apply Hmin, Hin. eauto.
  - intros id j Hid. destruct (is_pending j) eqn:Hp; [|done]. exfalso.
    apply (not_elem_of_nil j). rewrite <-Hmin. apply Hin. eauto.
Qed.

Lemma memory_claim_first now w o m :
  map_Forall (λ id j, Job_id j = id) m →
  map_Forall (λ id j, Job_id j = id) (claim_first now w o m).
Proof. intros Hk. destruct o; [|done]. by apply map_Forall_insert_2. Qed.

Lemma memory_claim_next_law s m now w :
  memory_rep s m → ∃ o, first_pending m o ∧
    answers memory_rep (mem_claim_next_job now w s) m (claimed now w <$> o)
      (claim_first now w o m).
Proof.
  intros [Hs Hk]. eexists. split; [by apply memory_first_pending|].
  unfold mem_claim_next_job. rewrite Hs.
  pose proof (memory_first_pending m Hk) as Hfp.
  destruct (min_by _ _) as [j|]; cbn in *; [|done].
  destruct Hfp as (Hj & _ & _). rewrite Hj. cbn.
  split; [done|]. split; [done|]. by apply (memory_claim_first now w (Some j)).
Qed.

Lemma memory_claim_by_id_law s m now id w :
  memory_rep s m →
  answers memory_rep (mem_claim_job_by_id now id w s) m
    (claimed now w <$> pending_at id m) (claim_first now w (pending_at id m) m).
Proof.
  intros [Hs Hk]. unfold mem_claim_job_by_id, pending_at. rewrite Hs.
  destruct (m !! id) as [j|] eqn:Hj; [|done]. cbn. pose proof (Hk id j Hj) as <-.
  destruct (is_pending j); [|done]. cbn.
  split; [done|]. split; [done|]. by apply (memory_claim_first now w (Some j)).
Qed.

Lemma memory_update_law s m id u :
  memory_rep s m →
  answers memory_rep (mem_update_job id u s) m tt (alter (apply_update u) id m).
Proof.
  intros [Hs Hk]. unfold mem_update_job. rewrite Hs. destruct (m !! id) as [j|] eqn:Hj; [|done].
  split; [done|]. cbn. split.
  - cbn. apply map_eq. intros i. destruct (decide (i = id)) as [->|]; by simplify_map_eq.
  - intros i k. rewrite lookup_alter_Some. intros [(-> & k' & Hk' & ->)|[_ Hk']].
    + rewrite apply_update_id. by apply Hk.
    + by apply Hk.
Qed.

Lemma insert_by_perm {A} (leb : A → A → bool) x l : insert_by leb x l ≡ₚ x :: l.
Proof.
  induction l as [|y l IH]; [done|]. simpl. destruct (leb x y); [done|]. rewrite IH. constructor.
Qed.

Lemma sort_by_perm {A} (leb : A → A → bool) l : sort_by leb l ≡ₚ l.
Proof. induction l as [|x l IH]; [done|]. cbn. by rewrite insert_by_perm, IH. Qed.

Lemma memory_delete_law s m status :
  memory_rep s m →
  answers memory_rep (mem_delete_jobs status s) m
    (N.of_nat (size m - size (delete_where (deleted_by status) m)))
    (delete_where (deleted_by status) m).
Proof.
  intros [Hs Hk]. unfold mem_delete_jobs. rewrite Hs.
  assert (Hd : match status with
               | Some st => filter (λ kv : Uuid * Job, Job_status kv.2 ≠ st) m
               | None => filter (λ kv : Uuid * Job, ¬ Is_true (Job_is_terminal kv.2)) m
               end = delete_where (deleted_by status) m).
  { destruct status as [st|]; apply map_filter_ext; intros i j _; simpl.
    - by rewrite bool_decide_eq_false.
    - destruct (Job_is_terminal j); naive_solver. }
  unfold answers. cbn. rewrite Hd. split; [done|]. split; [done|].
  intros i j. unfold delete_where. rewrite map_lookup_filter_Some. intros [Hj _]. by apply Hk.
Qed.

#[export] Program Instance memory_laws : JobStoreLaws InMemoryStore := {|
  rep := memory_rep;
  storable _ := True;
  claim_next_job_law := memory_claim_next_law;
  claim_job_by_id_law := memory_claim_by_id_law;
  delete_jobs_law := memory_delete_law;
|}.
Next Obligation. intros s m id j [_ Hk]. apply Hk. Qed.
Next Obligation. done. Qed.
Next Obligation. done. Qed.
Next Obligation.
  intros s m j [<- Hk] _ _. split; [done|]. split; [done|]. by apply map_Forall_insert_2.
Qed.
Next Obligation. intros s m id [<- Hk]. split; [done|]. done. Qed.
Next Obligation. intros s m id u Hs _. by apply memory_update_law. Qed.
Next Obligation.
  intros s m status [<- Hk]. eexists. split; [|split; [done|done]].
  cbn. rewrite sort_by_perm. by rewrite jobs_values_perm.
Qed.
End facts.
