(* ===== verification/Events.v ===== *)
(** * Events

    [crates/voom-domain/src/events.rs]: the messages plugins exchange through
    the event bus, and the result a plugin returns for one. *)
From S2P Require Import Prelude Json Media Plan CapabilityMap Jobs.

Inductive BadFileSource : Type :=
| BadFileSource_Discovery
| BadFileSource_Introspection
| BadFileSource_Io
| BadFileSource_Parse.

Definition BadFileSource_to_string (s : BadFileSource) : string :=
  match s with
  | BadFileSource_Discovery => "discovery"
  | BadFileSource_Introspection => "introspection"
  | BadFileSource_Io => "io"
  | BadFileSource_Parse => "parse"
  end.

Definition BadFileSource_from_str (s : string) : result string BadFileSource :=
  if bool_decide (s = "discovery") then Ok BadFileSource_Discovery
  else if bool_decide (s = "introspection") then Ok BadFileSource_Introspection
  else if bool_decide (s = "io") then Ok BadFileSource_Io
  else if bool_decide (s = "parse") then Ok BadFileSource_Parse
  else Err ("unknown bad file source: " +:+ s).

Inductive RetentionTrigger : Type :=
| RetentionTrigger_Scheduled
| RetentionTrigger_CliEndOfRun
| RetentionTrigger_OnDemand.

Inductive VerificationOutcome : Type :=
| VerificationOutcome_Ok
| VerificationOutcome_Warning
| VerificationOutcome_Error.

Definition VerificationOutcome_as_str (o : VerificationOutcome) : string :=
  match o with
  | VerificationOutcome_Ok => "ok"
  | VerificationOutcome_Warning => "warning"
  | VerificationOutcome_Error => "error"
  end.

Definition VerificationOutcome_parse (s : string) : option VerificationOutcome :=
  if bool_decide (s = "ok") then Some VerificationOutcome_Ok
  else if bool_decide (s = "warning") then Some VerificationOutcome_Warning
  else if bool_decide (s = "error") then Some VerificationOutcome_Error
  else None.

(** ** Payloads *)
Record FileDiscoveredEvent : Type := {
  FileDiscoveredEvent_path : PathBuf;
  FileDiscoveredEvent_size : u64;
  FileDiscoveredEvent_content_hash : option string;
}.

Record RootWalkCompletedEvent : Type := {
  RootWalkCompletedEvent_root : PathBuf;
  RootWalkCompletedEvent_session : Uuid;
  RootWalkCompletedEvent_duration_ms : u64;
}.

Record FileIntrospectedEvent : Type := {
  FileIntrospectedEvent_file : MediaFile;
  FileIntrospectedEvent_scan_session : option Uuid;
}.

Record FileIntrospectionFailedEvent : Type := {
  FileIntrospectionFailedEvent_path : PathBuf;
  FileIntrospectionFailedEvent_size : u64;
  FileIntrospectionFailedEvent_content_hash : option string;
  FileIntrospectionFailedEvent_error : string;
  FileIntrospectionFailedEvent_error_source : BadFileSource;
}.

Record MetadataEnrichedEvent : Type := {
  MetadataEnrichedEvent_path : PathBuf;
  MetadataEnrichedEvent_source : string;
  MetadataEnrichedEvent_metadata : JValue;
  MetadataEnrichedEvent_scan_session : option Uuid;
}.

Record SubtitleGeneratedEvent : Type := {
  SubtitleGeneratedEvent_path : PathBuf;
  SubtitleGeneratedEvent_subtitle_path : PathBuf;
  SubtitleGeneratedEvent_language : string;
  SubtitleGeneratedEvent_forced : bool;
  SubtitleGeneratedEvent_title : option string;
  SubtitleGeneratedEvent_scan_session : option Uuid;
}.

Record PlanCreatedEvent : Type := {
  PlanCreatedEvent_plan : Plan;
}.

Record PlanExecutingEvent : Type := {
  PlanExecutingEvent_plan_id : Uuid;
  PlanExecutingEvent_path : PathBuf;
  PlanExecutingEvent_phase_name : string;
  PlanExecutingEvent_action_count : usize;
}.

Record PlanCompletedEvent : Type := {
  PlanCompletedEvent_plan_id : Uuid;
  PlanCompletedEvent_path : PathBuf;
  PlanCompletedEvent_phase_name : string;
  PlanCompletedEvent_actions_applied : usize;
  PlanCompletedEvent_keep_backups : bool;
}.

Record PlanSkippedEvent : Type := {
  PlanSkippedEvent_plan_id : Uuid;
  PlanSkippedEvent_path : PathBuf;
  PlanSkippedEvent_phase_name : string;
  PlanSkippedEvent_skip_reason : string;
}.

Record PlanFailedEvent : Type := {
  PlanFailedEvent_plan_id : Uuid;
  PlanFailedEvent_path : PathBuf;
  PlanFailedEvent_phase_name : string;
  PlanFailedEvent_error : string;
  PlanFailedEvent_error_code : option string;
  PlanFailedEvent_plugin_name : option string;
  PlanFailedEvent_error_chain : list string;
  PlanFailedEvent_execution_detail : option ExecutionDetail;
}.

Record JobStartedEvent : Type := {
  JobStartedEvent_job_id : Uuid;
  JobStartedEvent_description : string;
}.

Record JobProgressEvent : Type := {
  JobProgressEvent_job_id : Uuid;
  JobProgressEvent_progress : f64;
  JobProgressEvent_message : option string;
}.

Record JobCompletedEvent : Type := {
  JobCompletedEvent_job_id : Uuid;
  JobCompletedEvent_success : bool;
  JobCompletedEvent_message : option string;
}.

Record JobEnqueueRequestedEvent : Type := {
  JobEnqueueRequestedEvent_job_type : JobType;
  JobEnqueueRequestedEvent_priority : i32;
  JobEnqueueRequestedEvent_payload : option JValue;
  JobEnqueueRequestedEvent_requester : string;
}.

Record ToolDetectedEvent : Type := {
  ToolDetectedEvent_tool_name : string;
  ToolDetectedEvent_version : string;
  ToolDetectedEvent_path : PathBuf;
}.

Record PluginErrorEvent : Type := {
  PluginErrorEvent_plugin_name : string;
  PluginErrorEvent_event_type : string;
  PluginErrorEvent_error : string;
}.

Record HealthStatusEvent : Type := {
  HealthStatusEvent_check_name : string;
  HealthStatusEvent_passed : bool;
  HealthStatusEvent_details : option string;
}.

Record ScanCompleteEvent : Type := {
  ScanCompleteEvent_files_discovered : u64;
  ScanCompleteEvent_files_introspected : u64;
}.

Record IntrospectSessionCompletedEvent : Type := {
  IntrospectSessionCompletedEvent_files_introspected : u64;
}.

Record TableRetentionResult : Type := {
  TableRetentionResult_table : string;
  TableRetentionResult_deleted : u64;
  TableRetentionResult_kept : u64;
  TableRetentionResult_error : option string;
}.

Record RetentionCompletedEvent : Type := {
  RetentionCompletedEvent_trigger : RetentionTrigger;
  RetentionCompletedEvent_per_table : list TableRetentionResult;
  RetentionCompletedEvent_duration_ms : u64;
}.

Record VerifyCompletedEvent : Type := {
  VerifyCompletedEvent_file_id : string;
  VerifyCompletedEvent_path : PathBuf;
  VerifyCompletedEvent_mode : VerificationMode;
  VerifyCompletedEvent_outcome : VerificationOutcome;
  VerifyCompletedEvent_error_count : u32;
  VerifyCompletedEvent_warning_count : u32;
  VerifyCompletedEvent_verification_id : Uuid;
}.

Record FileQuarantinedEvent : Type := {
  FileQuarantinedEvent_file_id : string;
  FileQuarantinedEvent_from : PathBuf;
  FileQuarantinedEvent_to : PathBuf;
  FileQuarantinedEvent_reason : string;
}.

Inductive Event : Type :=
| Event_FileDiscovered (e : FileDiscoveredEvent)
| Event_RootWalkCompleted (e : RootWalkCompletedEvent)
| Event_FileIntrospected (e : FileIntrospectedEvent)
| Event_FileIntrospectionFailed (e : FileIntrospectionFailedEvent)
| Event_MetadataEnriched (e : MetadataEnrichedEvent)
| Event_SubtitleGenerated (e : SubtitleGeneratedEvent)
| Event_PlanCreated (e : PlanCreatedEvent)
| Event_PlanExecuting (e : PlanExecutingEvent)
| Event_PlanCompleted (e : PlanCompletedEvent)
| Event_PlanSkipped (e : PlanSkippedEvent)
| Event_PlanFailed (e : PlanFailedEvent)
| Event_JobStarted (e : JobStartedEvent)
| Event_JobProgress (e : JobProgressEvent)
| Event_JobCompleted (e : JobCompletedEvent)
| Event_JobEnqueueRequested (e : JobEnqueueRequestedEvent)
| Event_ToolDetected (e : ToolDetectedEvent)
| Event_ExecutorCapabilities (e : ExecutorCapabilitiesEvent)
| Event_PluginError (e : PluginErrorEvent)
| Event_HealthStatus (e : HealthStatusEvent)
| Event_ScanComplete (e : ScanCompleteEvent)
| Event_IntrospectSessionCompleted (e : IntrospectSessionCompletedEvent)
| Event_RetentionCompleted (e : RetentionCompletedEvent)
| Event_VerifyCompleted (e : VerifyCompletedEvent)
| Event_FileQuarantined (e : FileQuarantinedEvent).

(** The string subscriptions match on. *)
Definition Event_event_type (e : Event) : string :=
  match e with
  | Event_FileDiscovered _ => "file.discovered"
  | Event_RootWalkCompleted _ => "root.walk.completed"
  | Event_FileIntrospected _ => "file.introspected"
  | Event_FileIntrospectionFailed _ => "file.introspection_failed"
  | Event_MetadataEnriched _ => "metadata.enriched"
  | Event_SubtitleGenerated _ => "subtitle.generated"
  | Event_PlanCreated _ => "plan.created"
  | Event_PlanExecuting _ => "plan.executing"
  | Event_PlanCompleted _ => "plan.completed"
  | Event_PlanSkipped _ => "plan.skipped"
  | Event_PlanFailed _ => "plan.failed"
  | Event_JobStarted _ => "job.started"
  | Event_JobProgress _ => "job.progress"
  | Event_JobCompleted _ => "job.completed"
  | Event_JobEnqueueRequested _ => "job.enqueue_requested"
  | Event_ToolDetected _ => "tool.detected"
  | Event_ExecutorCapabilities _ => "executor.capabilities"
  | Event_PluginError _ => "plugin.error"
  | Event_HealthStatus _ => "health.status"
  | Event_ScanComplete _ => "scan.complete"
  | Event_IntrospectSessionCompleted _ => "introspect.session.completed"
  | Event_RetentionCompleted _ => "retention.completed"
  | Event_VerifyCompleted _ => "verify.completed"
  | Event_FileQuarantined _ => "file.quarantined"
  end.

(** ** Results of event handlers *)
Record EventResult : Type := {
  EventResult_plugin_name : string;
  EventResult_produced_events : list Event;
  EventResult_data : option JValue;
  EventResult_claimed : bool;
  EventResult_execution_error : option string;
  EventResult_execution_detail : option ExecutionDetail;
}.

Definition EventResult_new (plugin_name : string) : EventResult := {|
  EventResult_plugin_name := plugin_name;
  EventResult_produced_events := [];
  EventResult_data := None;
  EventResult_claimed := false;
  EventResult_execution_error := None;
  EventResult_execution_detail := None;
|}.

Definition EventResult_with_execution_detail (r : EventResult) (detail : ExecutionDetail)
    : EventResult := {|
  EventResult_plugin_name := EventResult_plugin_name r;
  EventResult_produced_events := EventResult_produced_events r;
  EventResult_data := EventResult_data r;
  EventResult_claimed := EventResult_claimed r;
  EventResult_execution_error := EventResult_execution_error r;
  EventResult_execution_detail := Some detail;
|}.

Definition EventResult_plan_succeeded (plugin_name : string) (data : option JValue)
    : EventResult := {|
  EventResult_plugin_name := plugin_name;
  EventResult_produced_events := [];
  EventResult_data := data;
  EventResult_claimed := true;
  EventResult_execution_error := None;
  EventResult_execution_detail := None;
|}.

Definition EventResult_plan_failed (plugin_name error : string) : EventResult := {|
  EventResult_plugin_name := plugin_name;
  EventResult_produced_events := [];
  EventResult_data := None;
  EventResult_claimed := true;
  EventResult_execution_error := Some error;
  EventResult_execution_detail := None;
|}.

(** [serde_json::to_value(&results).unwrap_or_default()]: the derived
    serialization of the action results. *)
Class ActionResultsJson := action_results_json : list ActionResult → JValue.

Definition EventResult_from_plan_execution `{ActionResultsJson} (plugin_name : string)
    (outcome : result VoomError (list ActionResult)) : EventResult :=
  match outcome with
  | Ok results =>
      let actions_applied := length (List.filter ActionResult_success results) in
      let detail := head (omap ActionResult_execution_detail results) in
      if (actions_applied =? 0)%nat && negb (match results with [] => true | _ => false end) then
        let error_msg := default "all actions failed" (head (omap ActionResult_error results)) in
        let r := EventResult_plan_failed plugin_name error_msg in
        match detail with
        | Some d => EventResult_with_execution_detail r d
        | None => r
        end
      else
        let r := EventResult_plan_succeeded plugin_name
          (Some (JObject (json_map_insert "results" (action_results_json results)
                   (json_map_insert "actions_applied" (json_u64 (N.of_nat actions_applied)) [])))) in
        {| EventResult_plugin_name := EventResult_plugin_name r;
           EventResult_produced_events := EventResult_produced_events r;
           EventResult_data := EventResult_data r;
           EventResult_claimed := EventResult_claimed r;
           EventResult_execution_error := EventResult_execution_error r;
           EventResult_execution_detail := detail |}
  | Err e => EventResult_plan_failed plugin_name (VoomError_to_string e)
  end.

(** ** Properties *)

(** An executor's report always claims the plan; it is an error report exactly
    when execution failed or every action did. *)
Lemma from_plan_execution_error `{ActionResultsJson} name outcome :
  EventResult_claimed (EventResult_from_plan_execution name outcome) = true ∧
  (is_Some (EventResult_execution_error (EventResult_from_plan_execution name outcome)) ↔
   match outcome with
   | Ok results => results ≠ [] ∧ Forall (λ r, ActionResult_success r = false) results
   | Err _ => True
   end).
Proof.
  destruct outcome as [results|e]; simpl; [|split; [done|]; by split; eauto].
  destruct (Nat.eqb_spec (length (List.filter ActionResult_success results)) 0) as [Hz|Hz]; simpl.
  - apply length_zero_iff_nil, filter_nil_existsb in Hz.
    assert (Forall (λ r, ActionResult_success r = false) results) as Hall.
    { apply Forall_forall. intros r Hr. apply not_true_iff_false. intros Ht.
      rewrite (proj2 (existsb_elem_of _ _)) in Hz; [done|eauto]. }
    destruct results as [|r rs]; simpl.
    + split; [done|]. split; [by intros []|by intros []].
    + by repeat case_match; simpl; (split; [done|]; split; eauto).
  - split; [done|]. split; [by intros []|]. intros [_ Hall]. destruct Hz.
    apply length_zero_iff_nil, filter_nil_existsb, not_true_iff_false.
    rewrite existsb_elem_of. intros (r & Hr & Ht). rewrite Forall_forall in Hall.
    rewrite Hall in Ht; done.
Qed.
