(* ===== verification/Kernel.v ===== *)
(** * The kernel

    [crates/voom-kernel/src/bus.rs], [registry.rs] and [lib.rs], with the
    capability types of [crates/voom-domain/src/capabilities.rs]: registration
    of plugins, event dispatch with cascading, routing of calls and shutdown.

    Plugins are trait objects with interior state. [W] is the joint state of
    all plugins (and of whatever they act upon); a handler is a function on it
    that returns a value or panics. The name, capabilities and subscriptions of
    a plugin are values. The statistics records, without their timing, are the
    log the operations append to. *)
From S2P Require Import Prelude Json Media Plan Compiled CapabilityMap Events.

(** ** Capabilities *)
Inductive Capability : Type :=
| Capability_Discover (schemes : list string)
| Capability_Introspect (formats : list string)
| Capability_EvaluatePolicy
| Capability_Execute (operations : list OperationType) (formats : list string)
| Capability_Store (backend : string)
| Capability_DetectTools
| Capability_ManageJobs
| Capability_ServeHttp
| Capability_OrchestratePhases
| Capability_Backup
| Capability_EnrichMetadata (source : string)
| Capability_Transcribe
| Capability_Synthesize
| Capability_GenerateSubtitle
| Capability_HealthCheck
| Capability_Verify (modes : list VerificationMode).

Inductive CapabilityResolution : Type :=
| CapabilityResolution_Exclusive
| CapabilityResolution_Sharded
| CapabilityResolution_Competing.

#[export] Instance CapabilityResolution_eq_dec : EqDecision CapabilityResolution.
Proof. solve_decision. Defined.

Definition Capability_kind (c : Capability) : string :=
  match c with
  | Capability_Discover _ => "discover"
  | Capability_Introspect _ => "introspect"
  | Capability_EvaluatePolicy => "evaluate_policy"
  | Capability_Execute _ _ => "execute"
  | Capability_Store _ => "store"
  | Capability_DetectTools => "detect_tools"
  | Capability_ManageJobs => "manage_jobs"
  | Capability_ServeHttp => "serve_http"
  | Capability_OrchestratePhases => "orchestrate_phases"
  | Capability_Backup => "backup"
  | Capability_EnrichMetadata _ => "enrich_metadata"
  | Capability_Transcribe => "transcribe"
  | Capability_Synthesize => "synthesize"
  | Capability_GenerateSubtitle => "generate_subtitle"
  | Capability_HealthCheck => "health_check"
  | Capability_Verify _ => "verify"
  end.

Definition Capability_resolution (c : Capability) : CapabilityResolution :=
  match c with
  | Capability_Discover _ | Capability_EnrichMetadata _ => CapabilityResolution_Sharded
  | Capability_EvaluatePolicy | Capability_Store _ | Capability_ManageJobs
  | Capability_ServeHttp | Capability_OrchestratePhases => CapabilityResolution_Exclusive
  | Capability_Introspect _ | Capability_Execute _ _ | Capability_DetectTools
  | Capability_Backup | Capability_Transcribe | Capability_Synthesize
  | Capability_GenerateSubtitle | Capability_HealthCheck | Capability_Verify _ =>
      CapabilityResolution_Competing
  end.

Inductive CapabilityQuery : Type :=
| CapabilityQuery_Exclusive (kind : string)
| CapabilityQuery_Sharded (kind key : string)
| CapabilityQuery_Competing (kind : string).

Definition Capability_matches_query (c : Capability) (query : CapabilityQuery) : bool :=
  match query with
  | CapabilityQuery_Exclusive kind =>
      bool_decide (Capability_kind c = kind) &&
      bool_decide (Capability_resolution c = CapabilityResolution_Exclusive)
  | CapabilityQuery_Competing kind =>
      bool_decide (Capability_kind c = kind) &&
      bool_decide (Capability_resolution c = CapabilityResolution_Competing)
  | CapabilityQuery_Sharded kind key =>
      if negb (bool_decide (Capability_kind c = kind)) ||
         negb (bool_decide (Capability_resolution c = CapabilityResolution_Sharded))
      then false
      else
        match c with
        | Capability_Discover schemes => existsb (λ s, bool_decide (s = key)) schemes
        | Capability_EnrichMetadata source => bool_decide (source = key)
        | _ => false
        end
  end.

Definition sharded_collision_key (a b : Capability) : option string :=
  match a, b with
  | Capability_Discover a_s, Capability_Discover b_s =>
      List.find (λ s, existsb (λ x, bool_decide (x = s)) b_s) a_s
  | Capability_EnrichMetadata a_src, Capability_EnrichMetadata b_src =>
      if bool_decide (a_src = b_src) then Some a_src else None
  | _, _ => None
  end.

(** ** Calls

    The channels, cancellation token and callbacks of [ScanLibrary] are
    resources of the shared state and are not part of the message. *)
Record ScanOptions : Type := {
  ScanOptions_root : PathBuf;
  ScanOptions_recursive : bool;
  ScanOptions_hash_files : bool;
  ScanOptions_workers : usize;
}.

Inductive Call : Type :=
| Call_EvaluatePolicy (policy : CompiledPolicy) (file : MediaFile) (phase : option string)
    (phase_outputs : option (gmap string PhaseOutput))
    (phase_outcomes : option (gmap string EvaluationOutcome))
    (capabilities_override : option CapabilityMap)
| Call_Orchestrate (plans : list Plan) (policy_name : string)
| Call_ScanLibrary (uri : string) (options : ScanOptions) (scan_session : Uuid).

Record DiscoveryError : Type := {
  DiscoveryError_path : string;
  DiscoveryError_message : string;
}.

Record ScanSummary : Type := {
  ScanSummary_file_count : u64;
  ScanSummary_errors : list DiscoveryError;
  ScanSummary_roots_scanned : u64;
}.

Inductive CallResponse : Type :=
| CallResponse_EvaluatePolicy (r : EvaluationResult)
| CallResponse_Orchestrate (r : OrchestrationResult)
| CallResponse_ScanLibrary (r : ScanSummary).

Definition call_kind_str (call : Call) : string :=
  match call with
  | Call_EvaluatePolicy _ _ _ _ _ _ => "call.evaluate_policy"
  | Call_Orchestrate _ _ => "call.orchestrate"
  | Call_ScanLibrary _ _ _ => "call.scan_library"
  end.

(** [format!("{query:?}")] *)
Class QueryDebug := query_debug : CapabilityQuery → string.

(** ** Plugins *)

(** A handler returns, or panics (and is caught by the dispatcher). *)
Inductive handler (A : Type) : Type :=
| Returned (r : result VoomError A)
| Panicked.
Arguments Returned {A} r.
Arguments Panicked {A}.

Record Plugin (W : Type) : Type := {
  Plugin_name : string;
  Plugin_capabilities : list Capability;
  Plugin_handles : string → bool;
  Plugin_on_event : Event → W → handler (option EventResult) * W;
  Plugin_on_call : Call → W → handler CallResponse * W;
  Plugin_shutdown : W → handler unit * W;
}.
Arguments Plugin_name {W} _.
Arguments Plugin_capabilities {W} _.
Arguments Plugin_handles {W} _.
Arguments Plugin_on_event {W} _.
Arguments Plugin_on_call {W} _.
Arguments Plugin_shutdown {W} _.

Inductive PluginInvocationOutcome : Type :=
| PluginInvocationOutcome_Ok
| PluginInvocationOutcome_Skipped
| PluginInvocationOutcome_Err (category : string)
| PluginInvocationOutcome_Panic.

Record PluginStatRecord : Type := {
  PluginStatRecord_plugin_id : string;
  PluginStatRecord_event_type : string;
  PluginStatRecord_started_at : DateTime;
  PluginStatRecord_duration_ms : u64;
  PluginStatRecord_outcome : PluginInvocationOutcome;
}.

(** The clock, read before and after a handler runs. *)
Class Clock (W : Type) := {
  clock_now : W → DateTime;
  clock_elapsed_ms : W → W → u64;
}.

Definition error_category (err : VoomError) : string :=
  match err with
  | VoomError_Plugin _ _ => "plugin"
  | VoomError_Wasm _ => "wasm"
  | VoomError_Storage kind _ =>
      match kind with
      | StorageErrorKind_ConstraintViolation => "storage.constraint"
      | StorageErrorKind_NotFound => "storage.not_found"
      | StorageErrorKind_Other => "storage.other"
      end
  | VoomError_ToolNotFound _ => "tool_not_found"
  | VoomError_ToolExecution _ _ => "tool_execution"
  | VoomError_Validation _ => "validation"
  | VoomError_Io _ => "io"
  | VoomError_Other _ => "other"
  end.

(** ** The event bus *)

(** [slice::binary_search_by_key] on a sorted slice: the index of any matching
    element, or the insertion point. *)
Class BinarySearch := {
  binary_search : list Z → Z → result nat nat;
  binary_search_Ok l key i :
    StronglySorted Z.le l → binary_search l key = Ok i → l !! i = Some key;
  binary_search_Err l key i :
    StronglySorted Z.le l → binary_search l key = Err i →
    i ≤ length l ∧ Forall (λ x, x < key)%Z (take i l) ∧ Forall (λ x, key < x)%Z (drop i l);
}.

Record Subscriber (W : Type) : Type := {
  Subscriber_plugin_name : string;
  Subscriber_priority : i32;
  Subscriber_handler : Plugin W;
}.
Arguments Subscriber_plugin_name {W} _.
Arguments Subscriber_priority {W} _.
Arguments Subscriber_handler {W} _.

Definition MAX_CASCADE_DEPTH : nat := 8.

Definition make_error_result (plugin_name event_type error : string) : EventResult := {|
  EventResult_plugin_name := plugin_name;
  EventResult_produced_events :=
    [Event_PluginError {| PluginErrorEvent_plugin_name := plugin_name;
                          PluginErrorEvent_event_type := event_type;
                          PluginErrorEvent_error := error |}];
  EventResult_data := None;
  EventResult_claimed := false;
  EventResult_execution_error := None;
  EventResult_execution_detail := None;
|}.

Section bus.
Context {W : Type} `{Clock W}.
Implicit Types (subs : list (Subscriber W)) (w : W) (log : list PluginStatRecord).

(** The [while] loop: how many of the next subscribers have this priority. *)
Fixpoint equal_run (priority : i32) subs : nat :=
  match subs with
  | [] => 0
  | s :: subs =>
      if (Subscriber_priority s =? priority)%Z then S (equal_run priority subs) else 0
  end.

(** [None]: insertion out of range (a panic). *)
Definition subscribe_plugin `{BinarySearch} subs (plugin : Plugin W) (priority : i32)
    : option (list (Subscriber W)) :=
  let pos :=
    match binary_search (Subscriber_priority <$> subs) priority with
    | Ok i => i + 1 + equal_run priority (drop (i + 1) subs)
    | Err i => i
    end in
  vec_insert pos {| Subscriber_plugin_name := Plugin_name plugin;
                    Subscriber_priority := priority;
                    Subscriber_handler := plugin |} subs.

Definition event_outcome (r : handler (option EventResult)) : PluginInvocationOutcome :=
  match r with
  | Returned (Ok (Some _)) => PluginInvocationOutcome_Ok
  | Returned (Ok None) => PluginInvocationOutcome_Skipped
  | Returned (Err e) => PluginInvocationOutcome_Err (error_category e)
  | Panicked => PluginInvocationOutcome_Panic
  end.

(** The loop over the matching handlers: results, shared state and log. *)
Fixpoint deliver (event : Event) subs w log : list EventResult * W * list PluginStatRecord :=
  match subs with
  | [] => ([], w, log)
  | s :: subs =>
      let name := Subscriber_plugin_name s in
      let event_type := Event_event_type event in
      let '(r, w') := Plugin_on_event (Subscriber_handler s) event w in
      let log := log ++ [{| PluginStatRecord_plugin_id := name;
                            PluginStatRecord_event_type := event_type;
                            PluginStatRecord_started_at := clock_now w;
                            PluginStatRecord_duration_ms := clock_elapsed_ms w w';
                            PluginStatRecord_outcome := event_outcome r |}] in
      let w := w' in
      match r with
      | Returned (Ok (Some result)) =>
          if EventResult_claimed result then ([result], w, log)
          else let '(results, w, log) := deliver event subs w log in (result :: results, w, log)
      | Returned (Ok None) => deliver event subs w log
      | Returned (Err e) =>
          let '(results, w, log) := deliver event subs w log in
          (make_error_result name event_type (VoomError_to_string e) :: results, w, log)
      | Panicked =>
          let '(results, w, log) := deliver event subs w log in
          (make_error_result name event_type "plugin panicked" :: results, w, log)
      end
  end.

Definition matching_handlers subs (event : Event) : list (Subscriber W) :=
  List.filter (λ s, Plugin_handles (Subscriber_handler s) (Event_event_type event)) subs.

(** Events published one after the other. *)
Fixpoint cascade (publish : Event → W → list PluginStatRecord →
                            list EventResult * W * list PluginStatRecord)
    (events : list Event) w log : list EventResult * W * list PluginStatRecord :=
  match events with
  | [] => ([], w, log)
  | e :: events =>
      let '(r1, w, log) := publish e w log in
      let '(r2, w, log) := cascade publish events w log in
      (r1 ++ r2, w, log)
  end.

(** [publish_recursive] at depth [MAX_CASCADE_DEPTH - remaining]. *)
Fixpoint publish_recursive subs (remaining : nat) (event : Event) w log
    : list EventResult * W * list PluginStatRecord :=
  let '(results, w, log) := deliver event (matching_handlers subs event) w log in
  match remaining with
  | O => (results, w, log)
  | S remaining =>
      let produced := results ≫= EventResult_produced_events in
      let '(cascaded, w, log) := cascade (publish_recursive subs remaining) produced w log in
      (results ++ cascaded, w, log)
  end.

Definition publish subs (event : Event) w log
    : list EventResult * W * list PluginStatRecord :=
  publish_recursive subs MAX_CASCADE_DEPTH event w log.
End bus.

(** ** The kernel *)
Record Kernel (W : Type) : Type := {
  Kernel_registry : gmap string (Plugin W);
  Kernel_subscribers : list (Subscriber W);
  Kernel_shutdown_called : bool;
}.
Arguments Kernel_registry {W} _.
Arguments Kernel_subscribers {W} _.
Arguments Kernel_shutdown_called {W} _.

Section kernel.
Context {W : Type} `{Clock W, HashOrder, BinarySearch, QueryDebug}.
Implicit Types (k : Kernel W) (w : W) (log : list PluginStatRecord).

Definition Kernel_new : Kernel W := {|
  Kernel_registry := ∅;
  Kernel_subscribers := [];
  Kernel_shutdown_called := false;
|}.

Definition PluginRegistry_register (registry : gmap string (Plugin W)) (plugin : Plugin W)
    : result VoomError (gmap string (Plugin W)) :=
  match registry !! Plugin_name plugin with
  | Some _ => Err (VoomError_Plugin (Plugin_name plugin)
                     "a plugin with this name is already registered")
  | None => Ok (<[Plugin_name plugin := plugin]> registry)
  end.

(** The conflict of a new capability with one of an existing plugin. *)
Definition capability_conflict (new_name existing_name : string) (new_cap existing_cap : Capability)
    : option VoomError :=
  if negb (bool_decide (Capability_kind new_cap = Capability_kind existing_cap)) then None
  else
    match Capability_resolution new_cap with
    | CapabilityResolution_Exclusive =>
        Some (VoomError_plugin new_name
          ("capability conflict: " +:+ Capability_kind new_cap +:+ " already claimed by '"
           +:+ existing_name +:+ "'"))
    | CapabilityResolution_Sharded =>
        key ← sharded_collision_key new_cap existing_cap;
        Some (VoomError_plugin new_name
          ("capability conflict: " +:+ Capability_kind new_cap +:+ " key '" +:+ key
           +:+ "' already claimed by '" +:+ existing_name +:+ "'"))
    | CapabilityResolution_Competing => None
    end.

(** The three nested loops, with the early return of the first conflict. *)
Definition check_capability_collisions k (new_plugin : Plugin W) : result VoomError unit :=
  let new_name := Plugin_name new_plugin in
  let conflicts :=
    new_cap ← Plugin_capabilities new_plugin;
    '(existing_name, existing_plugin) ← hash_iter (Kernel_registry k);
    if bool_decide (existing_name = new_name) then []
    else omap (capability_conflict new_name existing_name new_cap)
              (Plugin_capabilities existing_plugin) in
  match conflicts with
  | [] => Ok tt
  | e :: _ => Err e
  end.

(** [None] is a panic of the subscription. *)
Definition register_and_subscribe k (plugin : Plugin W) (priority : i32)
    : option (result VoomError (Kernel W)) :=
  match PluginRegistry_register (Kernel_registry k) plugin with
  | Err e => Some (Err e)
  | Ok registry =>
      subs ← subscribe_plugin (Kernel_subscribers k) plugin priority;
      Some (Ok {| Kernel_registry := registry;
                  Kernel_subscribers := subs;
                  Kernel_shutdown_called := Kernel_shutdown_called k |})
  end.

Definition register_plugin k (plugin : Plugin W) (priority : i32)
    : option (result VoomError (Kernel W)) :=
  match check_capability_collisions k plugin with
  | Err e => Some (Err e)
  | Ok _ => register_and_subscribe k plugin priority
  end.

Definition dispatch k (event : Event) w log : list EventResult * W * list PluginStatRecord :=
  publish (Kernel_subscribers k) event w log.

(** Dispatch of the initial events, results discarded. *)
Fixpoint dispatch_all k (events : list Event) w log : W * list PluginStatRecord :=
  match events with
  | [] => (w, log)
  | e :: events => let '(_, w, log) := dispatch k e w log in dispatch_all k events w log
  end.

(** What [Plugin::init] does: it may change the shared state, and on success
    it leaves the plugin as it is registered and the events to dispatch. *)
Definition PluginInit : Type := W → result VoomError (Plugin W * list Event) * W.

(** The shared tail of the two paths below. *)
Definition finish_registration k (plugin : Plugin W) (priority : i32) (init_events : list Event)
    w log : option (result VoomError (Kernel W)) * W * list PluginStatRecord :=
  match register_and_subscribe k plugin priority with
  | Some (Ok k) =>
      let '(w, log) := dispatch_all k init_events w log in (Some (Ok k), w, log)
  | r => (r, w, log)
  end.

(** [unique] is whether the caller's [Arc] is the only one ([Arc::get_mut]). *)
Definition init_and_register k (plugin : Plugin W) (unique : bool) (priority : i32)
    (init : PluginInit) w log
    : option (result VoomError (Kernel W)) * W * list PluginStatRecord :=
  let name := Plugin_name plugin in
  match Kernel_registry k !! name with
  | Some _ =>
      (Some (Err (VoomError_plugin name "a plugin with this name is already registered")), w, log)
  | None =>
      match check_capability_collisions k plugin with
      | Err e => (Some (Err e), w, log)
      | Ok _ =>
          if negb unique then
            (Some (Err (VoomError_plugin name
               "init requires exclusive Arc ownership (refcount must be 1)")), w, log)
          else
            match init w with
            | (Err e, w) =>
                (Some (Err (VoomError_plugin name ("init failed: " +:+ VoomError_to_string e))),
                 w, log)
            | (Ok (plugin, init_events), w) =>
                finish_registration k plugin priority init_events w log
            end
      end
  end.

(** The typed variant: the kernel makes the [Arc] itself, so it is unique. *)
Definition init_and_register_shared k (plugin : Plugin W) (priority : i32) (init : PluginInit)
    w log : option (result VoomError (Kernel W)) * W * list PluginStatRecord :=
  init_and_register k plugin true priority init w log.

Definition resolve_capability k (query : CapabilityQuery) : result VoomError (Plugin W) :=
  match List.find (λ s, existsb (λ c, Capability_matches_query c query)
                                (Plugin_capabilities (Subscriber_handler s)))
                  (Kernel_subscribers k) with
  | Some s => Ok (Subscriber_handler s)
  | None => Err (VoomError_plugin (query_debug query)
                   ("no handler for capability " +:+ query_debug query))
  end.

Definition call_outcome (r : handler CallResponse) : PluginInvocationOutcome :=
  match r with
  | Returned (Ok _) => PluginInvocationOutcome_Ok
  | Returned (Err e) => PluginInvocationOutcome_Err (error_category e)
  | Panicked => PluginInvocationOutcome_Panic
  end.

(** [Plugin_on_call] is [plugin.on_call], or [invoke_wasm_on_call] for a WASM
    plugin (the host boundary, which is not modelled). *)
Definition dispatch_to_capability k (query : CapabilityQuery) (call : Call) w log
    : result VoomError CallResponse * W * list PluginStatRecord :=
  match resolve_capability k query with
  | Err e => (Err e, w, log)
  | Ok plugin =>
      let '(r, w') := Plugin_on_call plugin call w in
      let log := log ++ [{| PluginStatRecord_plugin_id := Plugin_name plugin;
                            PluginStatRecord_event_type := call_kind_str call;
                            PluginStatRecord_started_at := clock_now w;
                            PluginStatRecord_duration_ms := clock_elapsed_ms w w';
                            PluginStatRecord_outcome := call_outcome r |}] in
      (match r with
       | Returned r => r
       | Panicked => Err (VoomError_plugin (Plugin_name plugin)
                            "panic during dispatch_to_capability")
       end, w', log)
  end.

(** Shutdown of a list of subscribers; a panic is not caught and ends it. *)
Fixpoint shutdown_all (subs : list (Subscriber W)) w : handler unit * W :=
  match subs with
  | [] => (Returned (Ok tt), w)
  | s :: subs =>
      match Plugin_shutdown (Subscriber_handler s) w with
      | (Returned _, w) => shutdown_all subs w
      | (Panicked, w) => (Panicked, w)
      end
  end.

Definition shutdown k w : handler unit * Kernel W * W :=
  if Kernel_shutdown_called k then (Returned (Ok tt), k, w)
  else
    let k := {| Kernel_registry := Kernel_registry k;
                Kernel_subscribers := Kernel_subscribers k;
                Kernel_shutdown_called := true |} in
    let '(r, w) := shutdown_all (reverse (Kernel_subscribers k)) w in
    (r, k, w).
End kernel.
