(* ===== verification/KernelFacts.v ===== *)
(** * Correctness of the kernel

    The subscriber list is sorted by priority and stable, capability claims
    stay unique over any sequence of registrations, events reach the handlers
    in order until one claims them, and cascading is bounded. *)
From S2P Require Import Prelude Json Media Plan Compiled CapabilityMap Events Kernel.

(** ** Subscription order *)
Section subscribe.
Context {W : Type} `{BinarySearch}.
Implicit Types (subs : list (Subscriber W)) (s : Subscriber W).

Definition prio_sorted subs : Prop := StronglySorted Z.le (Subscriber_priority <$> subs).

Lemma prio_sorted_app k l :
  prio_sorted (k ++ l) ↔
  prio_sorted k ∧ prio_sorted l ∧
  ∀ s t, s ∈ k → t ∈ l → (Subscriber_priority s ≤ Subscriber_priority t)%Z.
Proof.
  unfold prio_sorted. induction k as [|s k IH]; simpl.
  { split; [|tauto]. intros; split_and!; [constructor|done|set_solver]. }
  split.
  - intros [Hs Hall]%StronglySorted_inv. apply IH in Hs as (Hk & Hl & Hkl).
    rewrite fmap_app, Forall_app in Hall. destruct Hall as [Hak Hal].
    split_and!; [by constructor|done|]. intros x t [->|Hx]%elem_of_cons Ht; [|by apply Hkl].
    rewrite Forall_forall in Hal. apply Hal, list_elem_of_fmap. eauto.
  - intros ([Hk Hall]%StronglySorted_inv & Hl & Hkl). constructor.
    + apply IH. split_and!; [done|done|]. intros; apply Hkl; [by right|done].
    + rewrite fmap_app, Forall_app. split; [done|]. apply Forall_forall.
      intros x (t & -> & Ht)%list_elem_of_fmap. apply Hkl; [by left|done].
Qed.

Lemma equal_run_spec p subs :
  prio_sorted subs → Forall (λ s, p ≤ Subscriber_priority s)%Z subs →
  Forall (λ s, Subscriber_priority s = p) (take (equal_run p subs) subs) ∧
  Forall (λ s, p < Subscriber_priority s)%Z (drop (equal_run p subs) subs) ∧
  equal_run p subs ≤ length subs.
Proof.
  induction subs as [|s subs IH]; intros Hs Hp; simpl; [split_and!; [constructor..|lia]|].
  apply (prio_sorted_app [s]) in Hs as (_ & Hs & Hle).
  apply Forall_cons in Hp as [Hps Hp].
  destruct (Z.eqb_spec (Subscriber_priority s) p) as [He|He]; simpl.
  - destruct (IH Hs Hp) as (? & ? & ?). split_and!; [by constructor|done|lia].
  - split_and!; [constructor| |lia]. constructor; [lia|]. apply Forall_forall. intros t Ht.
    specialize (Hle s t). assert (Subscriber_priority s ≤ Subscriber_priority t)%Z
      by (apply Hle; set_solver). lia.
Qed.

(** The insertion point separates the priorities up to [p] from the others. *)
Definition splits_at (p : Z) subs (pos : nat) : Prop :=
  pos ≤ length subs ∧
  Forall (λ s, Subscriber_priority s ≤ p)%Z (take pos subs) ∧
  Forall (λ s, p < Subscriber_priority s)%Z (drop pos subs).

Lemma subscribe_pos_ok p subs :
  prio_sorted subs →
  splits_at p subs
    match binary_search (Subscriber_priority <$> subs) p with
    | Ok i => i + 1 + equal_run p (drop (i + 1) subs)
    | Err i => i
    end.
Proof.
  intros Hs. destruct (binary_search _ p) as [i|i] eqn:Hb.
  - apply binary_search_Ok in Hb; [|done].
    rewrite list_lookup_fmap in Hb. destruct (subs !! i) as [s|] eqn:Hi; simplify_eq/=.
    pose proof (lookup_lt_Some _ _ _ Hi) as Hlt.
    pose proof Hs as Hs'. rewrite <-(take_drop (i + 1) subs) in Hs'.
    apply prio_sorted_app in Hs' as (Ht & Hd & Htd).
    assert (take (i + 1) subs = take i subs ++ [s]) as Htake
      by (rewrite Nat.add_1_r; by apply take_S_r).
    assert (Forall (λ x, Subscriber_priority x ≤ Subscriber_priority s)%Z (take (i + 1) subs)).
    { rewrite Htake in *. apply prio_sorted_app in Ht as (_ & _ & Hts). apply Forall_app.
      split; [|by constructor]. apply Forall_forall. intros x Hx. apply Hts; set_solver. }
    destruct (equal_run_spec (Subscriber_priority s) (drop (i + 1) subs) Hd) as (Hr & Hg & Hle).
    { apply Forall_forall. intros x Hx. apply Htd; [rewrite Htake; set_solver|done]. }
    rewrite length_drop in Hle. split; [lia|]. split; [|by rewrite <-drop_drop].
    rewrite <-take_take_drop. apply Forall_app. split; [done|].
    eapply Forall_impl; [exact Hr|]. simpl. lia.
  - apply binary_search_Err in Hb as (Hle & Ht & Hd); [|done]. rewrite length_fmap in Hle.
    rewrite <-fmap_take, Forall_fmap in Ht. rewrite <-fmap_drop, Forall_fmap in Hd.
    split_and!; [done| |done]. eapply Forall_impl; [exact Ht|]. simpl. lia.
Qed.

(** A new subscriber goes after every subscriber of lower or equal priority. *)
Lemma subscribe_plugin_eq subs plugin p :
  prio_sorted subs →
  let new := {| Subscriber_plugin_name := Plugin_name plugin; Subscriber_priority := p;
                Subscriber_handler := plugin |} in
  subscribe_plugin subs plugin p =
  Some (List.filter (λ s, Subscriber_priority s <=? p)%Z subs ++ new ::
        List.filter (λ s, p <? Subscriber_priority s)%Z subs).
Proof.
  intros Hs. destruct (subscribe_pos_ok p subs Hs) as (Hle & Ht & Hd). simpl.
  unfold subscribe_plugin, vec_insert. revert Hle Ht Hd.
  generalize (match binary_search (Subscriber_priority <$> subs) p with
              | Ok i => i + 1 + equal_run p (drop (i + 1) subs) | Err i => i end) as pos.
  intros pos Hle Ht Hd. rewrite bool_decide_true by done.
  rewrite <-(take_drop pos subs) at 3 4. rewrite !List.filter_app. do 2 f_equal.
  - rewrite (filter_all _ (take pos subs)), (filter_none _ (drop pos subs)), app_nil_r; [done| |].
    + eapply Forall_impl; [exact Hd|]. simpl. intros; by apply Z.leb_gt.
    + eapply Forall_impl; [exact Ht|]. simpl. intros; by apply Z.leb_le.
  - f_equal. rewrite (filter_none _ (take pos subs)), (filter_all _ (drop pos subs)); [done| |].
    + eapply Forall_impl; [exact Hd|]. simpl. intros; by apply Z.ltb_lt.
    + eapply Forall_impl; [exact Ht|]. simpl. intros; by apply Z.ltb_ge.
Qed.

Lemma prio_sorted_filter (f : Subscriber W → bool) subs :
  prio_sorted subs → prio_sorted (List.filter f subs).
Proof.
  induction subs as [|s subs IH]; intros Hs; simpl; [done|].
  apply (prio_sorted_app [s]) in Hs as (H1 & H2 & H3).
  destruct (f s); [|by apply IH]. apply (prio_sorted_app [s]). split_and!; [done|by apply IH|].
  intros x t Hx [Ht _]%filter_elem_of. by apply H3.
Qed.

Lemma subscribe_plugin_sorted subs plugin p subs' :
  prio_sorted subs → subscribe_plugin subs plugin p = Some subs' → prio_sorted subs'.
Proof.
  intros Hs. rewrite subscribe_plugin_eq by done. intros [= <-].
  apply prio_sorted_app. split_and!; [by apply prio_sorted_filter| |].
  - apply (prio_sorted_app [_]). split_and!; [by repeat constructor|by apply prio_sorted_filter|].
    intros x t ->%list_elem_of_singleton [_ Ht]%filter_elem_of. simpl. lia.
  - intros x t [_ Hx]%filter_elem_of [->|[_ Ht]%filter_elem_of]%elem_of_cons; simpl; lia.
Qed.

Lemma subscribe_plugin_perm subs plugin p subs' :
  prio_sorted subs → subscribe_plugin subs plugin p = Some subs' →
  subs' ≡ₚ {| Subscriber_plugin_name := Plugin_name plugin; Subscriber_priority := p;
              Subscriber_handler := plugin |} :: subs.
Proof.
  intros Hs. unfold subscribe_plugin. destruct (subscribe_pos_ok p subs Hs) as (Hle & _).
  intros Hv. apply (vec_insert_perm _ {| Subscriber_plugin_name := Plugin_name plugin;
    Subscriber_priority := p; Subscriber_handler := plugin |}) in Hle as (k & Hk & Hp).
  rewrite Hk in Hv. by injection Hv as <-.
Qed.
End subscribe.

(** ** Capability conflicts *)

(** Two claims the kernel never accepts from two different plugins. *)
Definition conflicting (c d : Capability) : Prop :=
  Capability_kind c = Capability_kind d ∧
  (Capability_resolution c = CapabilityResolution_Exclusive ∨
   is_Some (sharded_collision_key c d)).

Lemma kind_resolution c d :
  Capability_kind c = Capability_kind d → Capability_resolution c = Capability_resolution d.
Proof. destruct c, d; simpl; intros; by simplify_eq. Qed.

Lemma find_common_sym (k l : list string) :
  is_Some (List.find (λ s, existsb (λ x, bool_decide (x = s)) l) k) →
  is_Some (List.find (λ s, existsb (λ x, bool_decide (x = s)) k) l).
Proof.
  intros [s Hs]. apply find_Some_elem_of in Hs as [Hk Hl].
  apply existsb_elem_of in Hl as (x & Hx & ->%bool_decide_eq_true).
  destruct (List.find _ l) eqn:Hf; [by eexists|].
  eapply find_none in Hf; [|by apply list_elem_of_In].
  rewrite (proj2 (existsb_elem_of _ _)) in Hf; [done|]. exists s. by rewrite bool_decide_true.
Qed.

Lemma conflicting_sym c d : conflicting c d → conflicting d c.
Proof.
  intros [Hk Hc]. split; [done|]. rewrite <-(kind_resolution c d) by done.
  destruct Hc as [?|Hc]; [by left|right]. revert Hc. destruct c, d; simpl; try done.
  - apply find_common_sym.
  - case_bool_decide as He; [|by intros [? ?]]. by rewrite bool_decide_true.
Qed.

Lemma capability_conflict_spec n m c d :
  is_Some (capability_conflict n m c d) ↔ conflicting c d.
Proof.
  unfold capability_conflict, conflicting.
  destruct (decide (Capability_kind c = Capability_kind d)) as [Hk|Hk].
  2:{ rewrite bool_decide_false by done. simpl. split; [by intros [? ?]|tauto]. }
  rewrite bool_decide_true by done. simpl.
  destruct (Capability_resolution c) eqn:Hr.
  - split; [intros _; split; auto|intros _; by eexists].
  - destruct (sharded_collision_key c d) as [key|]; simpl.
    + split; [intros _|intros _; by eexists]. split; [done|right; by eexists].
    + split; [by intros [? ?]|]. by intros [_ [?|[? ?]]].
  - split; [by intros [? ?]|]. intros [_ [?|[key Hkey]]]; [done|].
    destruct c, d; done.
Qed.

Lemma matches_sharded_conflict c d query :
  (∀ kind, query ≠ CapabilityQuery_Competing kind) →
  Capability_matches_query c query = true → Capability_matches_query d query = true →
  conflicting c d.
Proof.
  intros Hq. destruct query as [kind|kind key|kind]; [| |by destruct (Hq kind)]; simpl.
  - rewrite !andb_true_iff, !bool_decide_eq_true. intros [Hc ?] [Hd ?]. split; [congruence|by left].
  - repeat (case_bool_decide; simpl; try done). intros Hc Hd. split; [congruence|]. right.
    destruct c, d; simpl in *; try congruence.
    + apply existsb_elem_of in Hc as (s & Hs & ->%bool_decide_eq_true).
      destruct (List.find _ schemes) as [x|] eqn:Hf; [by eexists|].
      eapply find_none in Hf; [|by apply list_elem_of_In]. congruence.
    + apply bool_decide_eq_true in Hc as ->, Hd as ->. rewrite bool_decide_true by done. by eexists.
Qed.

(** ** The kernel invariant *)
Section kernel_inv.
Context {W : Type} `{Clock W, HashOrder, BinarySearch, QueryDebug}.
Implicit Types (k : Kernel W) (s t : Subscriber W).

Record kernel_ok k : Prop := {
  kernel_sorted : prio_sorted (Kernel_subscribers k);
  kernel_names : NoDup (Subscriber_plugin_name <$> Kernel_subscribers k);
  kernel_named s : s ∈ Kernel_subscribers k →
    Subscriber_plugin_name s = Plugin_name (Subscriber_handler s);
  kernel_registry n p : Kernel_registry k !! n = Some p ↔
    ∃ s, s ∈ Kernel_subscribers k ∧ Subscriber_plugin_name s = n ∧ Subscriber_handler s = p;
  kernel_claims s t c d : s ∈ Kernel_subscribers k → t ∈ Kernel_subscribers k →
    Subscriber_plugin_name s ≠ Subscriber_plugin_name t →
    c ∈ Plugin_capabilities (Subscriber_handler s) →
    d ∈ Plugin_capabilities (Subscriber_handler t) → ~ conflicting c d;
}.

Lemma kernel_ok_new : kernel_ok Kernel_new.
Proof.
  split; simpl; [constructor|constructor|set_solver| |set_solver].
  intros n p. rewrite lookup_empty. set_solver.
Qed.

(** The claims of [p] are free of conflicts with the plugins of [k]. *)
Definition claims_free k (p : Plugin W) : Prop :=
  ∀ n q c d, Kernel_registry k !! n = Some q → n ≠ Plugin_name p →
    c ∈ Plugin_capabilities p → d ∈ Plugin_capabilities q → ~ conflicting c d.

Lemma check_collisions_spec k p :
  check_capability_collisions k p = Ok tt ↔ claims_free k p.
Proof.
  unfold check_capability_collisions, claims_free.
  match goal with |- context [match ?l with [] => _ | _ => _ end] => set (conf := l) end.
  assert (conf = [] ↔ ∀ e, e ∉ conf) as Hnil.
  { destruct conf as [|e l]; [set_solver|]. split; [done|]. intros Hn. destruct (Hn e). by left. }
  assert ((match conf with [] => Ok tt | e :: _ => Err e end) = Ok tt ↔ conf = []) as ->
    by (by destruct conf).
  rewrite Hnil. unfold conf. split.
  - intros Hn n q c d Hq Hne Hc Hd Hcf. apply (capability_conflict_spec (Plugin_name p) n) in Hcf
      as [e He]. apply (Hn e). apply list_elem_of_bind. exists c. split; [|done].
    apply list_elem_of_bind. exists (n, q). rewrite bool_decide_false by done.
    rewrite hash_iter_perm, elem_of_map_to_list. split; [|done].
    apply list_elem_of_omap. eauto.
  - intros Hf e (c & He & Hc)%list_elem_of_bind.
    apply list_elem_of_bind in He as ([n q] & He & Hnq).
    rewrite hash_iter_perm, elem_of_map_to_list in Hnq. case_bool_decide; [set_solver|].
    apply list_elem_of_omap in He as (d & Hd & He).
    eapply Hf; [done..|]. apply (capability_conflict_spec (Plugin_name p) n). by eexists.
Qed.

Lemma register_ok k p priority k' :
  kernel_ok k → claims_free k p → register_and_subscribe k p priority = Some (Ok k') →
  kernel_ok k'.
Proof.
  intros [Hs Hn Hnm Hr Hc] Hf. unfold register_and_subscribe, PluginRegistry_register.
  destruct (Kernel_registry k !! Plugin_name p) eqn:Hp; [done|].
  destruct (subscribe_plugin (Kernel_subscribers k) p priority) as [subs|] eqn:Hsub; [|done].
  simpl. intros [= <-]. pose proof (subscribe_plugin_perm _ _ _ _ Hs Hsub) as Hperm.
  assert (∀ s, s ∈ Kernel_subscribers k → Subscriber_plugin_name s ≠ Plugin_name p) as Hfresh.
  { intros s Hin Heq. assert (Kernel_registry k !! Plugin_name p = Some (Subscriber_handler s))
      by (apply Hr; eauto). congruence. }
  assert (∀ s c d, s ∈ Kernel_subscribers k → c ∈ Plugin_capabilities p →
            d ∈ Plugin_capabilities (Subscriber_handler s) → ~ conflicting c d) as Hfree.
  { intros s c d Hin. apply (Hf (Subscriber_plugin_name s)); [|by apply Hfresh].
    apply Hr. eauto. }
  split; simpl.
  - by eapply subscribe_plugin_sorted.
  - rewrite Hperm. csimpl. constructor; [|done]. simpl.
    intros (s & Heq & Hin)%list_elem_of_fmap. by apply (Hfresh s).
  - intros s. rewrite Hperm, elem_of_cons. intros [->|?]; [done|by apply Hnm].
  - intros n q. setoid_rewrite Hperm. setoid_rewrite elem_of_cons.
    destruct (decide (n = Plugin_name p)) as [->|Hne].
    + rewrite lookup_insert_eq. split.
      * intros [= <-]. eexists. split; [by left|done].
      * intros (s & [->|Hin] & Hsn & <-); [done|]. by destruct (Hfresh s Hin).
    + rewrite lookup_insert_ne by done. rewrite Hr. split.
      * intros (s & ? & ? & ?). eauto.
      * intros (s & [->|Hin] & Hsn & Hh); [done|eauto].
  - intros s t c d. rewrite !Hperm, !elem_of_cons. intros [->|Hin] [->|Hit] Hne; simpl in *.
    + done.
    + intros. by eapply Hfree.
    + intros Hcs Hdp Hcf%conflicting_sym. by eapply Hfree.
    + by eapply Hc.
Qed.

Lemma register_no_panic k p priority :
  kernel_ok k → is_Some (register_and_subscribe k p priority).
Proof.
  intros [Hs _ _ _ _]. unfold register_and_subscribe.
  destruct (PluginRegistry_register _ p); [|by eexists].
  rewrite subscribe_plugin_eq by done. by eexists.
Qed.

(** Kernels built by the public operations. [init] may not change the name
    or the capabilities that were checked before it ran. *)
Definition init_stable (p : Plugin W) (init : PluginInit (W := W)) : Prop :=
  ∀ w q events w', init w = (Ok (q, events), w') →
    Plugin_name q = Plugin_name p ∧ Plugin_capabilities q = Plugin_capabilities p.

Inductive kernel_reachable : Kernel W → Prop :=
| reach_new : kernel_reachable Kernel_new
| reach_register k p priority k' :
    kernel_reachable k → register_plugin k p priority = Some (Ok k') → kernel_reachable k'
| reach_init k p unique priority init w log k' w' log' :
    kernel_reachable k → init_stable p init →
    init_and_register k p unique priority init w log = (Some (Ok k'), w', log') → kernel_reachable k'
| reach_shutdown k w r k' w' :
    kernel_reachable k → shutdown k w = (r, k', w') → kernel_reachable k'.

Lemma register_plugin_ok k p priority k' :
  kernel_ok k → register_plugin k p priority = Some (Ok k') → kernel_ok k'.
Proof.
  intros Hk. unfold register_plugin. destruct (check_capability_collisions k p) as [[]|] eqn:Hc;
    [|done]. apply register_ok; [done|]. by apply check_collisions_spec.
Qed.

(** The successful run of [init_and_register]. *)
Lemma init_and_register_Ok k p unique priority init w log k' w' log' :
  init_and_register k p unique priority init w log = (Some (Ok k'), w', log') →
  claims_free k p ∧ Kernel_registry k !! Plugin_name p = None ∧
  ∃ q events w1, init w = (Ok (q, events), w1) ∧
    register_and_subscribe k q priority = Some (Ok k') ∧
    dispatch_all k' events w1 log = (w', log').
Proof.
  unfold init_and_register. destruct (Kernel_registry k !! Plugin_name p); [done|].
  destruct (check_capability_collisions k p) as [[]|] eqn:Hc; [|done].
  destruct unique; simpl; [|done].
  destruct (init w) as [[[q events]|] w1]; [|done]. unfold finish_registration.
  destruct (register_and_subscribe k q priority) as [[k1|]|] eqn:Hr; [|done|done].
  destruct (dispatch_all k1 events w1 log) as [w2 log2] eqn:Hd. intros [= <- <- <-].
  split_and!; [by apply check_collisions_spec|done|]. by exists q, events, w1.
Qed.

Lemma kernel_reachable_ok k : kernel_reachable k → kernel_ok k.
Proof.
  induction 1 as [|k p prio k' _ IH Hr|k p unique prio init w log k' w' log' _ IH Hst Hr|
                  k w r k' w' _ IH Hs].
  - apply kernel_ok_new.
  - by eapply register_plugin_ok.
  - apply init_and_register_Ok in Hr as (Hf & _ & q & events & w1 & Hi & Hr & _).
    apply Hst in Hi as [Hn Hc]. eapply register_ok; [done| |done].
    unfold claims_free in *. by rewrite Hn, Hc.
  - unfold shutdown in Hs. destruct (Kernel_shutdown_called k); [by simplify_eq|].
    destruct (shutdown_all _ w). simplify_eq. by destruct IH.
Qed.

(** At most one plugin answers an exclusive or sharded query. *)
Lemma kernel_ok_unique k query s t :
  kernel_ok k → (∀ kind, query ≠ CapabilityQuery_Competing kind) →
  s ∈ Kernel_subscribers k → t ∈ Kernel_subscribers k →
  existsb (λ c, Capability_matches_query c query) (Plugin_capabilities (Subscriber_handler s))
    = true →
  existsb (λ c, Capability_matches_query c query) (Plugin_capabilities (Subscriber_handler t))
    = true →
  s = t.
Proof.
  intros Hk Hq Hs Ht (c & Hc & Hcq)%existsb_elem_of (d & Hd & Hdq)%existsb_elem_of.
  destruct (decide (Subscriber_plugin_name s = Subscriber_plugin_name t)) as [He|Hne].
  - by eapply (NoDup_fmap_inj_elem Subscriber_plugin_name); [apply kernel_names| | |].
  - exfalso. eapply (kernel_claims k Hk s t c d); [done..|].
    by eapply matches_sharded_conflict.
Qed.
End kernel_inv.

(** ** Delivery *)
Section delivery.
Context {W : Type} `{Clock W}.
Implicit Types (subs : list (Subscriber W)) (w : W) (log recs : list PluginStatRecord).

(** The result that an invocation record goes with: a handler that declined
    has none, a failed one has an error result that raises [plugin.error]. *)
Definition answers (rec : PluginStatRecord) (r : option EventResult) : Prop :=
  match PluginStatRecord_outcome rec with
  | PluginInvocationOutcome_Skipped => r = None
  | PluginInvocationOutcome_Ok => is_Some r
  | PluginInvocationOutcome_Err _ | PluginInvocationOutcome_Panic =>
      ∃ msg, r = Some (make_error_result (PluginStatRecord_plugin_id rec)
                         (PluginStatRecord_event_type rec) msg)
  end.

(** The records name the first subscribers, in order, each with its answer;
    delivery stops early only at a claim, and a claim is the last result. *)
Definition delivered (event : Event) subs (results : list EventResult) recs : Prop :=
  ∃ n, n ≤ length subs ∧
    PluginStatRecord_plugin_id <$> recs = Subscriber_plugin_name <$> take n subs ∧
    Forall (λ r, PluginStatRecord_event_type r = Event_event_type event) recs ∧
    (∀ pre r post, results = pre ++ r :: post → EventResult_claimed r = true → post = []) ∧
    (n < length subs → ∃ r, last results = Some r ∧ EventResult_claimed r = true) ∧
    ∃ rs, results = omap id rs ∧ Forall2 answers recs rs.

Lemma delivered_cons event s subs rec (r : option EventResult) results recs :
  PluginStatRecord_plugin_id rec = Subscriber_plugin_name s →
  PluginStatRecord_event_type rec = Event_event_type event →
  (∀ x, r = Some x → EventResult_claimed x = false) → answers rec r →
  delivered event subs results recs →
  delivered event (s :: subs) (match r with Some x => x :: results | None => results end)
            (rec :: recs).
Proof.
  intros Hid Hty Hr Hans (n & Hn & Hids & Htys & Hlast & Hstop & rs & -> & Hrs).
  exists (S n). cbn [length take].
  split_and!; [lia|rewrite !fmap_cons; congruence|by constructor| | |].
  - destruct r as [x|]; [|done]. intros [|y pre] z post Heq Hz; simplify_eq/=.
    + specialize (Hr _ eq_refl). congruence.
    + by eapply Hlast.
  - intros Hlt. destruct Hstop as (z & Hz & Hc); [lia|].
    exists z. split; [|done]. destruct r; [|done]. by rewrite last_cons, Hz.
  - exists (r :: rs). split; [by destruct r|by constructor].
Qed.

Lemma deliver_spec event subs w log results w' log' :
  deliver event subs w log = (results, w', log') →
  ∃ recs, log' = log ++ recs ∧ delivered event subs results recs.
Proof.
  revert w log results w' log'; induction subs as [|s subs IH]; intros w log results w' log'; simpl.
  { intros [= <- <- <-]. exists []. rewrite app_nil_r. split; [done|]. exists 0.
    split_and!; [lia|done|constructor| |simpl; lia|by exists []]. by intros [|? ?] ? ?. }
  destruct (Plugin_on_event (Subscriber_handler s) event w) as [r w1].
  match goal with |- context [log ++ [?x]] => set (rec := x) end.
  assert (∀ (o : option EventResult) rs,
            (∀ x, o = Some x → EventResult_claimed x = false) → answers rec o →
            deliver event subs w1 (log ++ [rec]) = (rs, w', log') →
            ∃ recs, log' = log ++ recs ∧
              delivered event (s :: subs) (match o with Some x => x :: rs | None => rs end) recs)
    as Hstep.
  { intros o rs Ho Ha Hd. apply IH in Hd as (recs & -> & Hd). exists (rec :: recs).
    rewrite <-(assoc_L (++)). split; [done|]. by apply delivered_cons. }
  destruct r as [[[res|]|e]|].
  - destruct (EventResult_claimed res) eqn:Hcl.
    + intros [= <- <- <-]. exists [rec]. split; [done|]. exists 1.
      split_and!; [simpl; lia|by destruct subs|by repeat constructor| |intros _; by exists res|
                   exists [Some res]; split; [done|by repeat econstructor]].
      intros [|? [|? ?]] ? ? ?; by simplify_eq/=.
    + destruct (deliver event subs w1 _) as [[rs w2] log2] eqn:Hd. intros [= <- <- <-].
      apply (Hstep (Some res)); [by intros ? [= <-]|by eexists|done].
  - intros Hd. by apply (Hstep None) in Hd.
  - destruct (deliver event subs w1 _) as [[rs w2] log2] eqn:Hd. intros [= <- <- <-].
    apply (Hstep (Some _)); [by intros ? [= <-]|by eexists|done].
  - destruct (deliver event subs w1 _) as [[rs w2] log2] eqn:Hd. intros [= <- <- <-].
    apply (Hstep (Some _)); [by intros ? [= <-]|by eexists|done].
Qed.

(** ** Bound on cascades *)

(** No handler result produces more than [B] events. *)
Definition produces_at_most (B : nat) subs : Prop :=
  ∀ s event w r w', s ∈ subs →
    Plugin_on_event (Subscriber_handler s) event w = (Returned (Ok (Some r)), w') →
    length (EventResult_produced_events r) ≤ B.

(** Handler invocations of a cascade with [remaining] levels left. *)
Fixpoint cascade_bound (H B remaining : nat) : nat :=
  match remaining with
  | O => H
  | S remaining => H + H * B * cascade_bound H B remaining
  end.

Lemma deliver_bound B event subs w log results w' log' :
  1 ≤ B → produces_at_most B subs → deliver event subs w log = (results, w', log') →
  length log' ≤ length log + length subs ∧
  length (results ≫= EventResult_produced_events) ≤ length subs * B.
Proof.
  intros HB. revert w log results w' log'.
  induction subs as [|s subs IH]; intros w log results w' log' Hp; simpl.
  { intros [= <- <- <-]. simpl. lia. }
  destruct (Plugin_on_event (Subscriber_handler s) event w) as [r w1] eqn:Hs.
  match goal with |- context [log ++ [?x]] => set (rec := x) end.
  assert (produces_at_most B subs) as Hp' by (intros ? ? ? ? ? ?; apply Hp; by right).
  assert (∀ rs w2 log2, deliver event subs w1 (log ++ [rec]) = (rs, w2, log2) →
            length log2 ≤ length log + S (length subs) ∧
            length (rs ≫= EventResult_produced_events) ≤ length subs * B) as Hstep.
  { intros rs w2 log2 Hd. apply IH in Hd as [Hl Hr]; [|done].
    rewrite length_app in Hl. simpl in Hl. lia. }
  destruct r as [[[res|]|e]|].
  - assert (length (EventResult_produced_events res) ≤ B) as Hres by (eapply Hp; [by left|done]).
    destruct (EventResult_claimed res).
    + intros [= <- <- <-]. csimpl. rewrite !length_app. simpl. lia.
    + destruct (deliver event subs w1 _) as [[rs w2] log2] eqn:Hd. intros [= <- <- <-].
      specialize (Hstep _ _ _ eq_refl). csimpl. rewrite length_app. lia.
  - intros Hd. apply Hstep in Hd. lia.
  - destruct (deliver event subs w1 _) as [[rs w2] log2] eqn:Hd. intros [= <- <- <-].
    specialize (Hstep _ _ _ eq_refl). csimpl. lia.
  - destruct (deliver event subs w1 _) as [[rs w2] log2] eqn:Hd. intros [= <- <- <-].
    specialize (Hstep _ _ _ eq_refl). csimpl. lia.
Qed.

Lemma cascade_length publish events w log results w' log' N :
  (∀ e w log results w' log', publish e w log = (results, w', log') →
     length log' ≤ length log + N) →
  cascade (W := W) publish events w log = (results, w', log') →
  length log' ≤ length log + length events * N.
Proof.
  intros Hp. revert w log results w' log'.
  induction events as [|e events IH]; intros w log results w' log'; simpl.
  { intros [= <- <- <-]. lia. }
  destruct (publish e w log) as [[r1 w1] log1] eqn:H1. apply Hp in H1.
  destruct (cascade publish events w1 log1) as [[r2 w2] log2] eqn:H2. apply IH in H2.
  intros [= <- <- <-]. lia.
Qed.

Lemma publish_recursive_bound B subs remaining event w log results w' log' :
  1 ≤ B → produces_at_most B subs →
  publish_recursive subs remaining event w log = (results, w', log') →
  length log' ≤ length log + cascade_bound (length subs) B remaining.
Proof.
  intros HB Hp. revert event w log results w' log'.
  assert (∀ event, length (matching_handlers subs event) ≤ length subs) as Hm.
  { intros event. apply List.filter_length_le. }
  assert (∀ event, produces_at_most B (matching_handlers subs event)) as Hpm.
  { intros event s e w r w' [Hs _]%filter_elem_of. by apply Hp. }
  induction remaining as [|remaining IH]; intros event w log results w' log'; simpl.
  all: destruct (deliver event (matching_handlers subs event) w log) as [[rs w1] log1] eqn:Hd;
    apply (deliver_bound B) in Hd as [Hl Hr]; [|done|done]; specialize (Hm event).
  - intros [= <- <- <-]. lia.
  - destruct (cascade _ _ w1 log1) as [[rs2 w2] log2] eqn:Hc. intros [= <- <- <-].
    apply (cascade_length _ _ _ _ _ _ _ (cascade_bound (length subs) B remaining)) in Hc;
      [|intros; by eapply IH].
    assert (length (rs ≫= EventResult_produced_events) ≤ length subs * B) as Hrs.
    { etrans; [exact Hr|]. by apply Nat.mul_le_mono_r. }
    apply (Nat.mul_le_mono_r _ _ (cascade_bound (length subs) B remaining)) in Hrs. lia.
Qed.

(** ** Shutdown *)
Definition shutdown_effect w (s : Subscriber W) : W :=
  snd (Plugin_shutdown (Subscriber_handler s) w).

Lemma shutdown_all_effects subs w :
  (∀ s w, s ∈ subs → fst (Plugin_shutdown (Subscriber_handler s) w) ≠ Panicked) →
  shutdown_all subs w = (Returned (Ok tt), foldl shutdown_effect w subs).
Proof.
  revert w; induction subs as [|s subs IH]; intros w Hp; simpl; [done|].
  assert (fst (Plugin_shutdown (Subscriber_handler s) w) ≠ Panicked) as Hs by (apply Hp; by left).
  unfold shutdown_effect at 2. destruct (Plugin_shutdown (Subscriber_handler s) w) as [[r|] w1];
    [|done]. simpl. apply IH. intros t w2 Ht. apply Hp. by right.
Qed.
End delivery.
