(* ===== verification/CallPlugins.v ===== *)
(** * Phase orchestration

    [plugins/phase-orchestrator/src/lib.rs]: the outcome of each phase from
    its evaluated plan, and the dry-run report. *)
From S2P Require Import Prelude Json Media Plan Compiled CapabilityMap Condition Evaluator.
From S2P Require Import EmitFacts PhaseFacts Events Kernel.

(** [PhaseResult::new] with the two fields the loop sets afterwards. *)
Definition phase_result_of (plan : Plan) (outcome : PhaseOutcome) (file_modified : bool)
    : PhaseResult := {|
  PhaseResult_phase_name := Plan_phase_name plan;
  PhaseResult_outcome := outcome;
  PhaseResult_actions := [];
  PhaseResult_file_modified := file_modified;
  PhaseResult_skip_reason := Plan_skip_reason plan;
  PhaseResult_duration_ms := 0;
  PhaseResult_temp_path := None;
|}.

(** One iteration: the accumulated results and the [file_modified] flag. *)
Definition orchestrate_step (st : list PhaseResult * bool) (plan : Plan) : list PhaseResult * bool :=
  let '(phase_results, file_modified) := st in
  let outcome :=
    if Plan_is_skipped plan then PhaseOutcome_Skipped
    else
      match Plan_actions plan with
      | [] => PhaseOutcome_Completed
      | _ => PhaseOutcome_Pending
      end in
  let phase_modified := bool_decide (outcome = PhaseOutcome_Pending) in
  (phase_results ++ [phase_result_of plan outcome phase_modified],
   if phase_modified then true else file_modified).

Definition orchestrate (plans : list Plan) : OrchestrationResult :=
  let '(phase_results, file_modified) := foldl orchestrate_step ([], false) plans in
  {| OrchestrationResult_plans := plans;
     OrchestrationResult_phase_results := phase_results;
     OrchestrationResult_file_modified := file_modified |}.

Definition nl : string := String (ascii_of_nat 10) EmptyString.

Fixpoint format_actions (i : nat) (actions : list PlannedAction) : string :=
  match actions with
  | [] => ""
  | a :: actions =>
      "  " +:+ pretty (N.of_nat (i + 1)) +:+ ". " +:+ PlannedAction_description a +:+ nl
      +:+ format_actions (S i) actions
  end.

Fixpoint format_warnings (warnings : list string) : string :=
  match warnings with
  | [] => ""
  | w :: warnings => "  WARNING: " +:+ w +:+ nl +:+ format_warnings warnings
  end.

Definition dry_run_phase (plan : Plan) (phase_result : PhaseResult) : string :=
  nl +:+ "=== Phase: " +:+ Plan_phase_name plan +:+ " ===" +:+ nl +:+
  match PhaseResult_skip_reason phase_result with
  | Some reason => "  SKIPPED: " +:+ reason +:+ nl
  | None =>
      match Plan_actions plan with
      | [] => "  No actions needed." +:+ nl
      | actions => format_actions 0 actions
      end +:+ format_warnings (Plan_warnings plan)
  end.

Fixpoint format_phases (l : list (Plan * PhaseResult)) : string :=
  match l with
  | [] => ""
  | (plan, phase_result) :: l => dry_run_phase plan phase_result +:+ format_phases l
  end.

Definition format_dry_run (result : OrchestrationResult) : string :=
  format_phases (zip (OrchestrationResult_plans result)
                     (OrchestrationResult_phase_results result)).

Definition needs_execution (result : OrchestrationResult) : bool :=
  existsb (λ p, negb (Plan_is_skipped p) && negb (Plan_is_empty p))
          (OrchestrationResult_plans result).

Definition phase_error_strategy (policy : CompiledPolicy) (phase_name : string) : ErrorStrategy :=
  match find_phase policy phase_name with
  | Some p => CompiledPhase_on_error p
  | None => ErrorStrategy_Abort
  end.

(** ** Properties *)

(** The plan has something to execute. *)
Definition plan_pending (p : Plan) : bool := negb (Plan_is_skipped p) && negb (Plan_is_empty p).

(** The phase result of a plan, in closed form. *)
Definition plan_result (p : Plan) : PhaseResult :=
  phase_result_of p
    (if Plan_is_skipped p then PhaseOutcome_Skipped
     else if plan_pending p then PhaseOutcome_Pending else PhaseOutcome_Completed)
    (plan_pending p).

Lemma orchestrate_step_eq rs b p :
  orchestrate_step (rs, b) p = (rs ++ [plan_result p], b || plan_pending p).
Proof.
  unfold orchestrate_step, plan_result, plan_pending, Plan_is_empty.
  destruct (Plan_is_skipped p); simpl; [by rewrite orb_false_r|].
  destruct (Plan_actions p); simpl; [by rewrite orb_false_r|by rewrite orb_true_r].
Qed.

Lemma orchestrate_eq plans :
  orchestrate plans = {|
    OrchestrationResult_plans := plans;
    OrchestrationResult_phase_results := plan_result <$> plans;
    OrchestrationResult_file_modified := existsb plan_pending plans;
  |}.
Proof.
  unfold orchestrate.
  assert (∀ rs b, foldl orchestrate_step (rs, b) plans =
                  (rs ++ (plan_result <$> plans), b || existsb plan_pending plans)) as ->; [|done].
  induction plans as [|p plans IH]; intros rs b; cbn [foldl].
  - by rewrite app_nil_r, orb_false_r.
  - rewrite orchestrate_step_eq, IH, <-(assoc_L (++)), <-orb_assoc. done.
Qed.

(** * The plugins behind calls

    [plugins/policy-evaluator/src/plugin.rs] and
    [plugins/phase-orchestrator/src/plugin.rs] as plugins of the kernel model.
    The evaluator's capability cache is a component of the shared state, read
    and written through [cache]/[set_cache]; [stamps] supplies the identifiers
    and times of new plans. *)

(** [format!("{:?}", std::mem::discriminant(call))] *)
Class CallDebug := discriminant_debug : Call → string.

Section plugins.
Context `{Unicode, HashOrder, JsonDisplay, RegexCrate, CallDebug}.
Context {W : Type} (cache : W → CapabilityMap) (set_cache : CapabilityMap → W → W).
Context (stamps : W → nat → Stamp).

(** A panic inside the evaluator is a panic of the handler. *)
Definition evaluated (r : result string EvaluationResult) : handler CallResponse :=
  match r with
  | Ok res => Returned (Ok (CallResponse_EvaluatePolicy res))
  | Err _ => Panicked
  end.

(** [plan.map(|p| vec![p]).unwrap_or_default()] *)
Definition single_plan (r : result string (option Plan)) : result string EvaluationResult :=
  p ← r; Ok {| EvaluationResult_plans := match p with Some p => [p] | None => [] end |}.

Definition PolicyEvaluator_on_event (event : Event) (w : W) : handler (option EventResult) * W :=
  match event with
  | Event_ExecutorCapabilities caps =>
      (Returned (Ok None), set_cache (CapabilityMap_register (cache w) caps) w)
  | _ => (Returned (Ok None), w)
  end.

Definition PolicyEvaluator_evaluate (policy : CompiledPolicy) (file : MediaFile)
    (phase : option string) (phase_outputs : option (gmap string PhaseOutput))
    (phase_outcomes : option (gmap string EvaluationOutcome)) (caps : CapabilityMap)
    (st : nat → Stamp) : result string EvaluationResult :=
  match phase, phase_outputs with
  | None, None => evaluate_with_capabilities st policy file caps
  | None, Some outputs =>
      res ← evaluate_with_phase_outputs st policy file (Some caps) (Some (λ n, outputs !! n));
      Ok {| EvaluationResult_plans := apply_capability_hints (EvaluationResult_plans res) caps |}
  | Some phase_name, None =>
      single_plan (evaluate_single_phase_with_hints (st 0) phase_name policy file
                     (default ∅ phase_outcomes) caps)
  | Some phase_name, Some outputs =>
      single_plan
        (plan ← evaluate_single_phase_with_phase_outputs (st 0) phase_name policy file
                  (default ∅ phase_outcomes) (Some caps) (Some (λ n, outputs !! n));
         Ok (plan ≫= λ p, head (apply_capability_hints [p] caps)))
  end.

Definition PolicyEvaluator_on_call (call : Call) (w : W) : handler CallResponse * W :=
  match call with
  | Call_EvaluatePolicy policy file phase phase_outputs phase_outcomes capabilities_override =>
      let caps := default (cache w) capabilities_override in
      (evaluated (PolicyEvaluator_evaluate policy file phase phase_outputs phase_outcomes caps
                    (stamps w)), w)
  | _ =>
      (Returned (Err (VoomError_plugin "policy-evaluator"
         ("PolicyEvaluatorPlugin only handles Call::EvaluatePolicy, got "
          +:+ discriminant_debug call))), w)
  end.

Definition PolicyEvaluatorPlugin : Plugin W := {|
  Plugin_name := "policy-evaluator";
  Plugin_capabilities := [Capability_EvaluatePolicy];
  Plugin_handles event_type := bool_decide (event_type = "executor.capabilities");
  Plugin_on_event := PolicyEvaluator_on_event;
  Plugin_on_call := PolicyEvaluator_on_call;
  Plugin_shutdown w := (Returned (Ok tt), w);
|}.

Definition PhaseOrchestrator_on_call (call : Call) (w : W) : handler CallResponse * W :=
  match call with
  | Call_Orchestrate plans _ =>
      (Returned (Ok (CallResponse_Orchestrate (orchestrate plans))), w)
  | _ =>
      (Returned (Err (VoomError_plugin "phase-orchestrator"
         ("PhaseOrchestratorPlugin only handles Call::Orchestrate, got "
          +:+ discriminant_debug call))), w)
  end.

Definition PhaseOrchestratorPlugin : Plugin W := {|
  Plugin_name := "phase-orchestrator";
  Plugin_capabilities := [Capability_OrchestratePhases];
  Plugin_handles _ := false;
  Plugin_on_event _ w := (Returned (Ok None), w);
  Plugin_on_call := PhaseOrchestrator_on_call;
  Plugin_shutdown w := (Returned (Ok tt), w);
|}.
End plugins.

(** * What a call of the policy evaluator answers

    Capability hints change nothing but the warnings and the executor hint of
    a plan, so whatever the arguments of [Call::EvaluatePolicy], the plans in
    the answer are safe for the file. *)

(** A plan for [file] that applies to it, keeps its video and audio and
    converts it only to a container that holds what is left. *)
Definition plan_safe (file : MediaFile) (p : Plan) : Prop :=
  Plan_file p = file ∧ Forall (action_ok file) (Plan_actions p) ∧
  (Plan_skip_reason p = None →
   type_protected file TrackType_is_video (Plan_actions p) ∧
   type_protected file TrackType_is_audio (Plan_actions p) ∧
   conversion_safe file (Plan_actions p)).

Section call_facts.
Context `{Unicode, HashOrder, JsonDisplay, RegexCrate}.

Lemma evaluate_phase_safe stamp phase policy file oc ctx p :
  evaluate_phase stamp phase policy file oc ctx = Ok p → plan_safe file p.
Proof.
  intros He. destruct (evaluate_phase_plan_ok _ _ _ _ _ _ _ He) as [Ha _ (_ & Hf & _)].
  split_and!; [by rewrite Hf|done|]. intros Hs.
  apply evaluate_phase_protects in He; [done|]. unfold Plan_is_skipped. by rewrite Hs.
Qed.

Lemma evaluate_safe stamps policy file caps lookup r :
  evaluate_with_phase_outputs stamps policy file caps lookup = Ok r →
  Forall (plan_safe file) (EvaluationResult_plans r).
Proof.
  intros [_ Ht]%evaluate_Ok_trace. apply Forall_forall. intros p Hp.
  eapply evaluation_trace_elem in Hp as (stamp & phase & oc & _ & He); [|done].
  by eapply evaluate_phase_safe.
Qed.

Lemma apply_hints_to_plan_safe file caps p :
  plan_safe file p → plan_safe file (apply_hints_to_plan p caps).
Proof.
  intros Hp. unfold apply_hints_to_plan. case_match; [done|].
  destruct (foldl _ _ _) as [[c|] w]; [|done]. by case_match.
Qed.

Lemma apply_capability_hints_safe file caps plans :
  Forall (plan_safe file) plans → Forall (plan_safe file) (apply_capability_hints plans caps).
Proof.
  intros Hp. unfold apply_capability_hints. case_match; [done|].
  apply Forall_fmap. eapply Forall_impl; [exact Hp|]. intros p. apply apply_hints_to_plan_safe.
Qed.

Lemma evaluate_single_safe stamp name policy file oc caps lookup :
  ∃ o, evaluate_single_phase_with_phase_outputs stamp name policy file oc caps lookup = Ok o ∧
       Forall (plan_safe file) (option_list o).
Proof.
  unfold evaluate_single_phase_with_phase_outputs.
  destruct (find_phase policy name) as [phase|]; [|eexists; split; [done|constructor]].
  set (ctx := Build_EvalContext _ _).
  destruct (evaluate_phase_ok stamp phase policy file oc ctx) as (p & He & _). rewrite He.
  eexists. split; [done|]. apply Forall_singleton. by eapply evaluate_phase_safe.
Qed.

Lemma hint_single_safe file caps o :
  Forall (plan_safe file) (option_list o) →
  Forall (plan_safe file)
    (option_list (o ≫= λ p, head (apply_capability_hints [p] caps))).
Proof.
  destruct o as [p|]; simpl; [|done]. intros Hp%(apply_capability_hints_safe file caps).
  destruct (apply_capability_hints [p] caps) as [|q l]; simpl; [constructor|].
  apply Forall_cons in Hp as [Hq _]. by apply Forall_cons_2; [|constructor].
Qed.

(** Every form of the call evaluates without a panic to safe plans. *)
Lemma PolicyEvaluator_evaluate_safe policy file phase outputs outcomes caps st :
  ∃ r, PolicyEvaluator_evaluate policy file phase outputs outcomes caps st = Ok r ∧
       Forall (plan_safe file) (EvaluationResult_plans r).
Proof.
  assert (∀ o : option Plan, Forall (plan_safe file) (option_list o) →
            ∃ r, single_plan (Ok (o ≫= λ p, head (apply_capability_hints [p] caps))) = Ok r ∧
                 Forall (plan_safe file) (EvaluationResult_plans r)) as Hsingle.
  { intros o Ho%(hint_single_safe file caps). unfold single_plan. simpl.
    eexists. split; [done|]. simpl. by destruct (o ≫= _). }
  destruct phase as [name|], outputs as [outputs|]; simpl.
  - destruct (evaluate_single_safe (st 0) name policy file (default ∅ outcomes) (Some caps)
                (Some (λ n, outputs !! n))) as (o & -> & Ho). by apply Hsingle.
  - unfold evaluate_single_phase_with_hints, evaluate_single_phase.
    destruct (evaluate_single_safe (st 0) name policy file (default ∅ outcomes) (Some caps) None)
      as (o & -> & Ho). by apply Hsingle.
  - destruct (evaluate_with_phase_outputs_trace st policy file (Some caps)
                (Some (λ n, outputs !! n))) as (r & He & _). rewrite He. simpl.
    eexists. split; [done|]. apply apply_capability_hints_safe. by eapply evaluate_safe.
  - unfold evaluate_with_capabilities, evaluate_with_context.
    destruct (evaluate_with_phase_outputs_trace st policy file (Some caps) None) as (r & He & _).
    rewrite He. simpl. eexists. split; [done|].
    apply apply_capability_hints_safe. by eapply evaluate_safe.
Qed.
End call_facts.
