(* ===== verification/JobQueue.v ===== *)
(** * The job manager

    [plugins/job-manager]: the queue over a job store ([queue.rs]), progress
    reporters ([progress.rs]), the plugin ([lib.rs]) and the limiter of plan
    executions ([worker.rs]). *)
From S2P Require Import Prelude Json Media Plan Compiled CapabilityMap Jobs JobSpec Events Kernel.

(** [f64::clamp]: NaN stays NaN. *)
Definition f64_clamp (lo hi x : f64) : f64 :=
  let x := if f64_ltb x lo then lo else x in
  if f64_ltb hi x then hi else x.

(** [format!("{status:?}")] *)
Definition JobStatus_debug (s : JobStatus) : string :=
  match s with
  | JobStatus_Pending => "Pending"
  | JobStatus_Running => "Running"
  | JobStatus_Completed => "Completed"
  | JobStatus_Failed => "Failed"
  | JobStatus_Cancelled => "Cancelled"
  end.

(** ** Updates the queue applies *)
Definition progress_update (progress : f64) (message : option string) : JobUpdate := {|
  JobUpdate_status := None;
  JobUpdate_progress := Some (f64_clamp (f64_of_Z 0) (f64_of_Z 1) progress);
  JobUpdate_progress_message := Some message;
  JobUpdate_output := None;
  JobUpdate_error := None;
  JobUpdate_worker_id := None;
  JobUpdate_started_at := None;
  JobUpdate_completed_at := None;
|}.

Definition complete_update (now : DateTime) (output : option JValue) : JobUpdate := {|
  JobUpdate_status := Some JobStatus_Completed;
  JobUpdate_progress := Some (f64_of_Z 1);
  JobUpdate_progress_message := None;
  JobUpdate_output := Some output;
  JobUpdate_error := None;
  JobUpdate_worker_id := None;
  JobUpdate_started_at := None;
  JobUpdate_completed_at := Some (Some now);
|}.

Definition fail_update (now : DateTime) (error : string) : JobUpdate := {|
  JobUpdate_status := Some JobStatus_Failed;
  JobUpdate_progress := None;
  JobUpdate_progress_message := None;
  JobUpdate_output := None;
  JobUpdate_error := Some (Some error);
  JobUpdate_worker_id := None;
  JobUpdate_started_at := None;
  JobUpdate_completed_at := Some (Some now);
|}.

Definition cancel_update (now : DateTime) : JobUpdate := {|
  JobUpdate_status := Some JobStatus_Cancelled;
  JobUpdate_progress := None;
  JobUpdate_progress_message := None;
  JobUpdate_output := None;
  JobUpdate_error := None;
  JobUpdate_worker_id := None;
  JobUpdate_started_at := None;
  JobUpdate_completed_at := Some (Some now);
|}.

Definition plugin_err (message : string) : VoomError :=
  VoomError_plugin "job-manager" message.

(** ** [JobQueue] *)
Section queue.
Context {S : Type} `{JobStorage S} `{UuidText}.

Definition enqueue_job (id : Uuid) (now : DateTime) (job_type : JobType) (priority : i32)
    (payload : option JValue) : Job :=
  let j := Job_new id now job_type in {|
    Job_id := Job_id j;
    Job_job_type := Job_job_type j;
    Job_status := Job_status j;
    Job_priority := priority;
    Job_payload := payload;
    Job_progress := Job_progress j;
    Job_progress_message := Job_progress_message j;
    Job_output := Job_output j;
    Job_error := Job_error j;
    Job_worker_id := Job_worker_id j;
    Job_created_at := Job_created_at j;
    Job_started_at := Job_started_at j;
    Job_completed_at := Job_completed_at j;
  |}.

Definition JobQueue_enqueue (id : Uuid) (now : DateTime) (job_type : JobType) (priority : i32)
    (payload : option JValue) (s : S) : result VoomError Uuid * S :=
  create_job (enqueue_job id now job_type priority payload) s.

Definition JobQueue_claim (now : DateTime) (worker_id : string) (s : S)
    : result VoomError (option Job) * S :=
  claim_next_job now worker_id s.

Definition JobQueue_report_progress (job_id : Uuid) (progress : f64) (message : option string)
    (s : S) : result VoomError unit * S :=
  update_job job_id (progress_update progress message) s.

Definition JobQueue_complete (now : DateTime) (job_id : Uuid) (output : option JValue) (s : S)
    : result VoomError unit * S :=
  update_job job_id (complete_update now output) s.

Definition JobQueue_fail (now : DateTime) (job_id : Uuid) (error : string) (s : S)
    : result VoomError unit * S :=
  update_job job_id (fail_update now error) s.

(** The first half of [cancel]: read the job and check its status. *)
Definition cancel_check (job_id : Uuid) (s : S) : result VoomError unit * S :=
  match job job_id s with
  | (Err e, s) => (Err e, s)
  | (Ok None, s) =>
      (Err (plugin_err ("job " +:+ Uuid_to_string job_id +:+ " not found")), s)
  | (Ok (Some j), s) =>
      match Job_status j with
      | JobStatus_Pending | JobStatus_Running => (Ok tt, s)
      | status =>
          (Err (plugin_err ("cannot cancel job " +:+ Uuid_to_string job_id
             +:+ ": already in terminal state '" +:+ JobStatus_debug status +:+ "'")), s)
      end
  end.

(** The second half: the update, which does not look at the status again. *)
Definition cancel_write (now : DateTime) (job_id : Uuid) (s : S) : result VoomError unit * S :=
  update_job job_id (cancel_update now) s.

Definition JobQueue_cancel (now : DateTime) (job_id : Uuid) (s : S) : result VoomError unit * S :=
  match cancel_check job_id s with
  | (Ok _, s) => cancel_write now job_id s
  | (Err e, s) => (Err e, s)
  end.

Definition JobQueue_claim_by_id (now : DateTime) (job_id : Uuid) (worker_id : string) (s : S)
    : result VoomError (option Job) * S :=
  claim_job_by_id now job_id worker_id s.

Definition JobQueue_job (job_id : Uuid) (s : S) : result VoomError (option Job) * S :=
  job job_id s.

Definition JobQueue_list_jobs (filters : JobFilters) (s : S) : result VoomError (list Job) * S :=
  list_jobs filters s.

Definition JobQueue_job_counts (s : S) : result VoomError (list (JobStatus * u64)) * S :=
  count_jobs_by_status s.

(** The reporter that stores progress; unlike the queue it does not clamp. *)
Definition StorageReporter_on_job_progress (job_id : Uuid) (progress : f64)
    (message : option string) (s : S) : S :=
  (update_job job_id {|
     JobUpdate_status := None;
     JobUpdate_progress := Some progress;
     JobUpdate_progress_message := Some message;
     JobUpdate_output := None;
     JobUpdate_error := None;
     JobUpdate_worker_id := None;
     JobUpdate_started_at := None;
     JobUpdate_completed_at := None |} s).2.
End queue.

(** ** The plugin

    The shared state [W] holds the store of the queue, if there is one; [fresh]
    is the next [Uuid::new_v4()]. *)
Section plugin.
Context {W S : Type} `{JobStorage S} `{Clock W}.
Context (get_store : W → option S) (set_store : S → W → W) (fresh : W → Uuid).

Definition JobManager_handles (event_type : string) : bool :=
  bool_decide (event_type ∈
    ["job.started"; "job.progress"; "job.completed"; "job.enqueue_requested"]).

Definition JobManager_on_event (event : Event) (w : W) : handler (option EventResult) * W :=
  match event with
  | Event_JobEnqueueRequested e =>
      match get_store w with
      | Some s =>
          match JobQueue_enqueue (fresh w) (clock_now w) (JobEnqueueRequestedEvent_job_type e)
                  (JobEnqueueRequestedEvent_priority e) (JobEnqueueRequestedEvent_payload e) s with
          | (Ok _, s') => (Returned (Ok None), set_store s' w)
          | (Err err, s') => (Returned (Err err), set_store s' w)
          end
      | None => (Returned (Ok None), w)
      end
  | _ => (Returned (Ok None), w)
  end.

Definition JobManagerPlugin : Plugin W := {|
  Plugin_name := "job-manager";
  Plugin_capabilities := [Capability_ManageJobs];
  Plugin_handles := JobManager_handles;
  Plugin_on_event := JobManager_on_event;
  Plugin_on_call _ w :=
    (Returned (Err (VoomError_plugin "job-manager"
       "plugin does not handle calls (no on_call override)")), w);
  Plugin_shutdown w := (Returned (Ok tt), w);
|}.
End plugin.

(** ** Limits on concurrent plans: [worker.rs] *)

(** The loop of [PlanParallelResource::from_plan_with_default]. *)
Fixpoint plan_resource_of (default_resource : option string) (actions : list PlannedAction)
    : option string :=
  match actions with
  | [] => None
  | action :: actions =>
      let continue := plan_resource_of default_resource actions in
      if negb (bool_decide (PlannedAction_operation action = Op_TranscodeVideo)) then continue
      else
        match PlannedAction_parameters action with
        | AP_Transcode _ settings =>
            match TranscodeSettings_hw settings with
            | None => match default_resource with Some r => Some r | None => continue end
            | Some hw =>
                if bool_decide (hw = "nvenc") then Some "hw:nvenc"
                else if bool_decide (hw = "qsv") then Some "hw:qsv"
                else if bool_decide (hw = "vaapi") then Some "hw:vaapi"
                else if bool_decide (hw = "videotoolbox") then Some "hw:videotoolbox"
                else if bool_decide (hw = "auto") then
                  match default_resource with Some r => Some r | None => continue end
                else continue
            end
        | _ => continue
        end
  end.

Definition from_plan_with_default (plan : Plan) (default_resource : option string)
    : option string :=
  plan_resource_of default_resource (Plan_actions plan).

(** A limiter holds one semaphore per limited resource; the map gives the
    permits that are left. *)
Record PlanExecutionLimiter : Type := {
  PlanExecutionLimiter_semaphores : gmap string nat;
  PlanExecutionLimiter_default_resource : option string;
}.

Definition from_limits_with_default (limits : list (string * usize))
    (default_resource : option string) : PlanExecutionLimiter :=
  let semaphores :=
    foldl (λ m rl, if bool_decide (rl.2 = 0) then m else <[rl.1 := rl.2]> m) ∅ limits in {|
    PlanExecutionLimiter_semaphores := semaphores;
    PlanExecutionLimiter_default_resource :=
      r ← default_resource; if decide (is_Some (semaphores !! r)) then Some r else None;
  |}.

Definition from_limits (limits : list (string * usize)) : PlanExecutionLimiter :=
  from_limits_with_default limits None.

(** The semaphore [acquire_for_plan] waits on, if any. *)
Definition plan_permit (l : PlanExecutionLimiter) (plan : Plan) : option string :=
  r ← from_plan_with_default plan (PlanExecutionLimiter_default_resource l);
  if decide (is_Some (PlanExecutionLimiter_semaphores l !! r)) then Some r else None.

Definition set_permits (l : PlanExecutionLimiter) (r : string) (n : nat) : PlanExecutionLimiter := {|
  PlanExecutionLimiter_semaphores := <[r := n]> (PlanExecutionLimiter_semaphores l);
  PlanExecutionLimiter_default_resource := PlanExecutionLimiter_default_resource l;
|}.

(** [acquire_for_plan]: the permit and the limiter left, or [None] while the
    plan has to wait. *)
Definition acquire_for_plan (l : PlanExecutionLimiter) (plan : Plan)
    : option (option string * PlanExecutionLimiter) :=
  match plan_permit l plan with
  | None => Some (None, l)
  | Some r =>
      match PlanExecutionLimiter_semaphores l !! r with
      | Some (Datatypes.S n) => Some (Some r, set_permits l r n)
      | _ => None
      end
  end.

(** Dropping a permit *)
Definition release_permit (permit : option string) (l : PlanExecutionLimiter)
    : PlanExecutionLimiter :=
  match permit with
  | Some r => set_permits l r (Datatypes.S (default 0 (PlanExecutionLimiter_semaphores l !! r)))
  | None => l
  end.

(** * Facts about the job queue

    Runs of the queue: any number of workers and users share one store, and a
    run is a sequence of their operations, each of which is atomic. All facts
    are proved against the contract of [JobSpec], for every store that keeps
    it. *)

(** The operations on the queue that change the store. [cancel] reads and then
    writes: [QCancel] is a cancellation without interference, [QCancelLate] the
    write of one whose read happened before other operations. *)
Inductive queue_op : Type :=
| QEnqueue (id : Uuid) (now : DateTime) (ty : JobType) (priority : i32) (payload : option JValue)
| QClaim (now : DateTime) (worker : string)
| QClaimById (now : DateTime) (id : Uuid) (worker : string)
| QProgress (id : Uuid) (progress : f64) (message : option string)
| QComplete (now : DateTime) (id : Uuid) (output : option JValue)
| QFail (now : DateTime) (id : Uuid) (error : string)
| QCancel (now : DateTime) (id : Uuid)
| QCancelLate (now : DateTime) (id : Uuid)
| QDelete (status : option JobStatus).

(** The identifier an operation creates a job with. *)
Definition enqueued_id (op : queue_op) : list Uuid :=
  match op with QEnqueue id _ _ _ _ => [id] | _ => [] end.

Section runs.
Context {S : Type} `{JobStorage S} `{UuidText}.

Definition claimed_id (r : result VoomError (option Job)) : option Uuid :=
  match r with Ok (Some j) => Some (Job_id j) | _ => None end.

(** The effect of an operation: the job it claims, if any, and the store. *)
Definition run_op (op : queue_op) (s : S) : option Uuid * S :=
  match op with
  | QEnqueue id now ty priority payload => (None, (JobQueue_enqueue id now ty priority payload s).2)
  | QClaim now w => let '(r, s') := JobQueue_claim now w s in (claimed_id r, s')
  | QClaimById now id w => let '(r, s') := JobQueue_claim_by_id now id w s in (claimed_id r, s')
  | QProgress id p msg => (None, (JobQueue_report_progress id p msg s).2)
  | QComplete now id out => (None, (JobQueue_complete now id out s).2)
  | QFail now id err => (None, (JobQueue_fail now id err s).2)
  | QCancel now id => (None, (JobQueue_cancel now id s).2)
  | QCancelLate now id => (None, (cancel_write now id s).2)
  | QDelete status => (None, (delete_jobs status s).2)
  end.

Fixpoint run_ops (ops : list queue_op) (s : S) : list Uuid * S :=
  match ops with
  | [] => ([], s)
  | op :: ops =>
      let '(c, s) := run_op op s in
      let '(cs, s) := run_ops ops s in
      (option_list c ++ cs, s)
  end.

Context `{!JobStoreLaws S}.

(** The values an operation writes can be stored. *)
Definition update_storable (u : JobUpdate) : Prop :=
  ∀ j, storable j → storable (apply_update u j).

Definition op_storable (op : queue_op) : Prop :=
  match op with
  | QEnqueue id now ty priority payload => storable (enqueue_job id now ty priority payload)
  | QProgress _ p msg => update_storable (progress_update p msg)
  | QComplete now _ out => update_storable (complete_update now out)
  | QFail now _ err => update_storable (fail_update now err)
  | QCancel now _ | QCancelLate now _ => update_storable (cancel_update now)
  | QClaim _ _ | QClaimById _ _ _ | QDelete _ => True
  end.

(** ** One operation *)

(** What an operation may do to the jobs: with [c] the job it claims and [new]
    the identifiers it creates. No operation makes a job pending again. *)
Definition abs_step (c : option Uuid) (new : list Uuid) (m m' : gmap Uuid Job) : Prop :=
  (∀ id j', m' !! id = Some j' → id ∉ new →
     ∃ j, m !! id = Some j ∧ (is_pending j' = true → is_pending j = true)) ∧
  (∀ id, c = Some id → (∃ j, m !! id = Some j ∧ is_pending j = true) ∧
                       (∃ j, m' !! id = Some j ∧ is_pending j = false)).

Lemma abs_step_refl new m : abs_step None new m m.
Proof. split; [eauto | done]. Qed.

Lemma abs_step_alter u id m :
  JobUpdate_status u ≠ Some JobStatus_Pending →
  abs_step None [] m (alter (apply_update u) id m).
Proof.
  intros Hu. split; [|done]. intros i j'.
  rewrite lookup_alter_Some. intros [(-> & j & Hj & ->)|[_ Hj]] _; [|eauto].
  exists j. split; [done|]. unfold is_pending, apply_update; simpl.
  destruct (JobUpdate_status u) as [st|]; [|done]. simpl.
  intros Hp%bool_decide_eq_true. congruence.
Qed.

Lemma abs_step_claim now w o m :
  (∀ j, o = Some j → m !! Job_id j = Some j ∧ is_pending j = true) →
  abs_step (Job_id <$> o) [] m (claim_first now w o m).
Proof.
  intros Ho. destruct o as [j|]; [|apply abs_step_refl].
  destruct (Ho j eq_refl) as [Hj Hp]. split; cbn.
  - intros i j' Hi _. apply lookup_insert_Some in Hi as [[<- <-]|[_ Hi]]; eauto.
  - intros ? [= <-]. split; [eauto|]. exists (claimed now w j). by simplify_map_eq.
Qed.

Lemma claim_answers r s now w o m :
  answers rep (r, s) m (claimed now w <$> o) (claim_first now w o m) →
  (∀ j, o = Some j → m !! Job_id j = Some j ∧ is_pending j = true) →
  ∃ m', rep s m' ∧ abs_step (claimed_id r) [] m m'.
Proof.
  unfold answers; cbn. destruct r as [a|e].
  - intros [-> Hs] Ho. exists (claim_first now w o m). split; [done|].
    replace (claimed_id (Ok (claimed now w <$> o))) with (Job_id <$> o) by by destruct o.
    by apply abs_step_claim.
  - intros Hs _. exists m. split; [done|]. apply abs_step_refl.
Qed.

Lemma update_step s m id u :
  rep s m → update_storable u → JobUpdate_status u ≠ Some JobStatus_Pending →
  ∃ m', rep (update_job id u s).2 m' ∧ abs_step None [] m m'.
Proof.
  intros Hs Hu Hst.
  pose proof (update_job_law s m id u Hs (λ j Hj, Hu j (rep_storable s m id j Hs Hj))) as Ha.
  unfold answers in Ha. destruct (update_job id u s) as [[[]|e] s']; cbn in *.
  - destruct Ha as [_ Ha]. eexists. split; [done|]. by apply abs_step_alter.
  - exists m. split; [done|]. apply abs_step_refl.
Qed.

Lemma cancel_step s m id now :
  rep s m → update_storable (cancel_update now) →
  ∃ m', rep (JobQueue_cancel now id s).2 m' ∧ abs_step None [] m m'.
Proof.
  intros Hs Hu. pose proof (job_law s m id Hs) as Ha. unfold answers in Ha.
  unfold JobQueue_cancel, cancel_check. destruct (job id s) as [[o|e] s']; cbn in *.
  - destruct Ha as [-> Hs']. destruct (m !! id) as [j|].
    + destruct (Job_status j); try by (exists m; split; [done | apply abs_step_refl]).
      all: by apply update_step.
    + exists m. split; [done | apply abs_step_refl].
  - exists m. split; [done | apply abs_step_refl].
Qed.

Lemma pending_at_Some id m j :
  pending_at id m = Some j → m !! id = Some j ∧ is_pending j = true.
Proof.
  unfold pending_at. destruct (m !! id) as [k|]; [|done]. simpl.
  destruct (is_pending k) eqn:Hp; [|done]. intros [= <-]. done.
Qed.

Lemma run_op_step op s m :
  rep s m → op_storable op → (∀ id, id ∈ enqueued_id op → m !! id = None) →
  ∃ m', rep (run_op op s).2 m' ∧ abs_step (run_op op s).1 (enqueued_id op) m m'.
Proof.
  intros Hs Hop Hnew. destruct op as [id now ty pr pl|now w|now id w|id p msg|now id out|now id err|
    now id|now id|status]; cbn [run_op fst snd enqueued_id].
  - assert (Hnone : m !! id = None) by (apply Hnew; by left).
    pose proof (create_job_law s m (enqueue_job id now ty pr pl) Hs Hnone Hop) as Ha.
    unfold answers in Ha.
    unfold JobQueue_enqueue. destruct (create_job _ s) as [[a|e] s']; cbn in *.
    + destruct Ha as [_ Ha]. eexists. split; [done|]. split; [|done].
      intros i j' Hj Hni. apply lookup_insert_Some in Hj as [[<- _]|[_ Hj]]; [|eauto].
      exfalso. apply Hni. by left.
    + exists m. split; [done | apply abs_step_refl].
  - destruct (claim_next_job_law s m now w Hs) as (o & Ho & Ha).
    unfold JobQueue_claim. destruct (claim_next_job now w s) as [r s'].
    apply (claim_answers r s' now w o m Ha). intros j ->. naive_solver.
  - pose proof (claim_job_by_id_law s m now id w Hs) as Ha. unfold JobQueue_claim_by_id.
    destruct (claim_job_by_id now id w s) as [r s'].
    apply (claim_answers r s' now w _ m Ha). intros j [Hj Hp]%pending_at_Some.
    by rewrite (rep_keys s m id j Hs Hj).
  - by apply update_step.
  - by apply update_step.
  - by apply update_step.
  - by apply cancel_step.
  - by apply update_step.
  - pose proof (delete_jobs_law s m status Hs) as Ha. unfold answers in Ha.
    destruct (delete_jobs status s) as [[n|e] s']; cbn in *.
    + destruct Ha as [_ Ha]. eexists. split; [done|]. split; [|done].
      intros i j' Hj _. apply map_lookup_filter_Some in Hj as [Hj _]. eauto.
    + exists m. split; [done | apply abs_step_refl].
Qed.

(** ** Sequences of operations *)

(** [C] are the jobs claimed so far and [new] the identifiers to come. *)
Definition run_inv (C new : list Uuid) (m : gmap Uuid Job) : Prop :=
  (∀ id, id ∈ new → m !! id = None ∧ id ∉ C) ∧
  (∀ id j, id ∈ C → m !! id = Some j → is_pending j = false).

Lemma run_inv_step c C now_new new m m' :
  NoDup (now_new ++ new) → run_inv C (now_new ++ new) m → abs_step c now_new m m' →
  (∀ id, c = Some id → id ∉ C) ∧ run_inv (option_list c ++ C) new m'.
Proof.
  intros Hnd [Hnew HC] [Hkeep Hc]. split; [|split].
  - intros id -> Hin. destruct (Hc id eq_refl) as [(j & Hj & Hp) _].
    by rewrite (HC id j Hin Hj) in Hp.
  - intros id Hid. destruct (Hnew id) as [Hnone HnC]; [by apply elem_of_app; right|]. split.
    + destruct (m' !! id) as [j'|] eqn:Hj'; [|done].
      destruct (Hkeep id j' Hj') as (j & Hj & _); [|congruence].
      intros Hin. apply NoDup_app in Hnd as (_ & Hnd & _). by apply (Hnd id).
    + rewrite elem_of_app. intros [Hin|Hin]; [|done].
      destruct c as [x|]; [|by apply elem_of_nil in Hin].
      apply list_elem_of_singleton in Hin as ->.
      destruct (Hc x eq_refl) as [(j & Hj & _) _]. congruence.
  - intros id j' Hin Hj'. apply elem_of_app in Hin as [Hin|Hin].
    + destruct c as [x|]; [|by apply elem_of_nil in Hin].
      apply list_elem_of_singleton in Hin as ->.
      destruct (Hc x eq_refl) as [_ (k & Hk & Hp)]. congruence.
    + destruct (Hkeep id j' Hj') as (j & Hj & Hp).
      { intros Hnn. destruct (Hnew id) as [_ HnC]; [by apply elem_of_app; left | done]. }
      pose proof (HC id j Hin Hj) as Hf. destruct (is_pending j'); [|done].
      by rewrite Hp in Hf.
Qed.

Lemma run_ops_claims ops s m C :
  rep s m → Forall op_storable ops → NoDup (ops ≫= enqueued_id) →
  run_inv C (ops ≫= enqueued_id) m →
  NoDup (run_ops ops s).1 ∧ (∀ id, id ∈ (run_ops ops s).1 → id ∉ C) ∧
  ∃ m', rep (run_ops ops s).2 m'.
Proof.
  revert s m C. induction ops as [|op ops IH]; intros s m C Hs Hst Hnd Hinv.
  { split_and!; [constructor | intros id Hid; by apply elem_of_nil in Hid | by exists m]. }
  apply Forall_cons in Hst as [Hop Hst]. rewrite bind_cons in Hnd, Hinv.
  destruct (run_op_step op s m Hs Hop) as (m' & Hs' & Hstep).
  { intros id Hid. apply Hinv. apply elem_of_app. by left. }
  cbn [run_ops]. destruct (run_op op s) as [c s']; cbn [fst snd] in *.
  destruct (run_inv_step c C _ _ m m' Hnd Hinv Hstep) as [Hc Hinv'].
  apply NoDup_app in Hnd as (_ & _ & Hnd).
  destruct (IH s' m' (option_list c ++ C) Hs' Hst Hnd Hinv') as (Hcs & Hfresh & m'' & Hm'').
  destruct (run_ops ops s') as [cs s'']; cbn [fst snd] in *. split_and!.
  - destruct c as [id|]; [|done]. cbn. apply NoDup_cons. split; [|done].
    intros Hin. apply (Hfresh id Hin). by left.
  - intros id [Hid|Hid]%elem_of_app.
    + destruct c as [x|]; [|by apply elem_of_nil in Hid].
      apply list_elem_of_singleton in Hid as ->. by apply Hc.
    + intros HC. apply (Hfresh id Hid). apply elem_of_app. by right.
  - by exists m''.
Qed.
End runs.

(** ** Limits on concurrent plans

    The permits [held] by running plans, as plans start and end in any order. *)
Inductive limiter_reachable (l0 : PlanExecutionLimiter)
    : PlanExecutionLimiter → list string → Prop :=
| limiter_start : limiter_reachable l0 l0 []
| limiter_acquire l held plan permit l' :
    limiter_reachable l0 l held → acquire_for_plan l plan = Some (permit, l') →
    limiter_reachable l0 l' (option_list permit ++ held)
| limiter_release l held1 r held2 :
    limiter_reachable l0 l (held1 ++ r :: held2) →
    limiter_reachable l0 (release_permit (Some r) l) (held1 ++ held2).

Definition permits_of (r : string) (held : list string) : nat :=
  length (List.filter (λ x, bool_decide (x = r)) held).

Lemma permits_of_app r h1 h2 : permits_of r (h1 ++ h2) = permits_of r h1 + permits_of r h2.
Proof. unfold permits_of. by rewrite List.filter_app, length_app. Qed.

Lemma permits_of_cons r x h :
  permits_of r (x :: h) = (if bool_decide (x = r) then 1 else 0) + permits_of r h.
Proof. unfold permits_of. cbn. by case_bool_decide. Qed.

Lemma permits_of_elem r h : r ∈ h → permits_of r h ≠ 0.
Proof.
  induction h as [|x h IH]; intros Hr; [by apply elem_of_nil in Hr|]. rewrite permits_of_cons.
  apply elem_of_cons in Hr as [->|Hr]; [by rewrite bool_decide_true|]. specialize (IH Hr). lia.
Qed.

(** Permits that are held and those that are left add up to the limit; only
    limited resources are held. *)
Definition permits_balanced (l0 l : PlanExecutionLimiter) (held : list string) : Prop :=
  PlanExecutionLimiter_default_resource l = PlanExecutionLimiter_default_resource l0 ∧
  ∀ r, match PlanExecutionLimiter_semaphores l0 !! r with
       | Some n => ∃ k, PlanExecutionLimiter_semaphores l !! r = Some k ∧ k + permits_of r held = n
       | None => PlanExecutionLimiter_semaphores l !! r = None ∧ permits_of r held = 0
       end.

Lemma set_permits_lookup l r n x :
  PlanExecutionLimiter_semaphores (set_permits l r n) !! x =
  if bool_decide (r = x) then Some n else PlanExecutionLimiter_semaphores l !! x.
Proof. cbn. case_bool_decide; subst; by simplify_map_eq. Qed.

Lemma limiter_balanced l0 l held : limiter_reachable l0 l held → permits_balanced l0 l held.
Proof.
  induction 1 as [|l held plan permit l' _ [Hd IH] Hacq|l held1 r held2 _ [Hd IH]].
  - split; [done|]. intros r. destruct (_ !! r) as [n|]; [|done]. exists n. split; [done|].
    unfold permits_of. cbn. lia.
  - unfold acquire_for_plan in Hacq. destruct (plan_permit l plan) as [r|]; [|by simplify_eq].
    destruct (_ !! r) as [[|n]|] eqn:Hr; simplify_eq. split; [done|]. intros x.
    specialize (IH x). rewrite set_permits_lookup.
    change (option_list (Some r) ++ held) with (r :: held).
    rewrite permits_of_cons. case_bool_decide; subst; [|done]. rewrite Hr in IH.
    destruct (PlanExecutionLimiter_semaphores l0 !! x); [|by destruct IH].
    destruct IH as (k & [= <-] & Hk). exists n. split; [done|]. lia.
  - split; [done|]. intros x. specialize (IH x). cbn [release_permit].
    rewrite set_permits_lookup. rewrite permits_of_app, permits_of_cons in IH.
    rewrite permits_of_app. case_bool_decide; subst; [|done].
    destruct (PlanExecutionLimiter_semaphores l0 !! x); [|lia].
    destruct IH as (k & -> & Hk). cbn. eexists. split; [done|]. lia.
Qed.

(** The limits a limiter starts with are positive. *)
Lemma from_limits_positive limits d r n :
  PlanExecutionLimiter_semaphores (from_limits_with_default limits d) !! r = Some n →
  0 < n ∧ (r, n) ∈ limits.
Proof.
  cbn. enough (Hgen : ∀ (m : gmap string nat) (k : list (string * usize)),
    (∀ r n, m !! r = Some n → 0 < n ∧ (r, n) ∈ k) →
    foldl (λ m rl, if bool_decide (rl.2 = 0) then m else <[rl.1 := rl.2]> m) m limits !! r = Some n →
    0 < n ∧ (r, n) ∈ k ++ limits).
  { apply (Hgen ∅ []). intros ? ?. by rewrite lookup_empty. }
  induction limits as [|[r' n'] limits IH]; intros m k Hm; cbn [foldl].
  - rewrite app_nil_r. apply Hm.
  - intros Hf. rewrite cons_middle, app_assoc. eapply IH; [|exact Hf]. cbn.
    intros x y Hxy. rewrite elem_of_app, list_elem_of_singleton.
    case_bool_decide as Hz; [destruct (Hm x y Hxy); auto|].
    apply lookup_insert_Some in Hxy as [[<- <-]|[_ Hxy]]; [split; [lia|by right]|].
    destruct (Hm x y Hxy); auto.
Qed.
