(* ===== verification/WorkerPool.v ===== *)
(** * The worker pool

    [plugins/job-manager/src/worker.rs]: [WorkerPool::process_batch] as a
    transition system. The main task enqueues the items, spawns one task per
    job while it holds a permit of the semaphore, cancels what it did not start,
    and collects the results; the spawned tasks run [run_one_job]. Between two
    steps of a task every other task, and every other user of the store, may
    run. A step is a call on the store, a check or a change of the token, a
    change of a counter with the report next to it, or a message. *)
From S2P Require Import Prelude Json Media Plan Compiled CapabilityMap Jobs Events Kernel.
From S2P Require Import JobQueue.

(** ** Data *)
Record WorkItem (P : Type) : Type := {
  WorkItem_job_type : JobType;
  WorkItem_priority : i32;
  WorkItem_payload : option P;
}.
Arguments WorkItem_job_type {P} _.
Arguments WorkItem_priority {P} _.
Arguments WorkItem_payload {P} _.

Record WorkerPoolConfig : Type := {
  WorkerPoolConfig_max_workers : usize;
  WorkerPoolConfig_worker_prefix : string;
}.

Definition WorkerPoolConfig_default : WorkerPoolConfig := {|
  WorkerPoolConfig_max_workers := 0;
  WorkerPoolConfig_worker_prefix := "worker";
|}.

(** [available] is what [std::thread::available_parallelism] returns, a
    positive number or an error. *)
Definition num_cpus (available : option positive) : usize :=
  match available with
  | Some n => Pos.to_nat n
  | None => 4
  end.

Definition effective_workers (available : option positive) (c : WorkerPoolConfig) : usize :=
  if bool_decide (WorkerPoolConfig_max_workers c = 0) then num_cpus available
  else WorkerPoolConfig_max_workers c.

Inductive JobOutcome : Type :=
| JobOutcome_Success
| JobOutcome_Failure (error : string)
| JobOutcome_AlreadyClaimed.

Definition JobOutcome_is_success (o : JobOutcome) : bool :=
  match o with JobOutcome_Success => true | _ => false end.

Definition JobOutcome_is_failure (o : JobOutcome) : bool :=
  match o with JobOutcome_Failure _ => true | _ => false end.

Definition JobOutcome_is_already_claimed (o : JobOutcome) : bool :=
  match o with JobOutcome_AlreadyClaimed => true | _ => false end.

Definition JobOutcome_error (o : JobOutcome) : option string :=
  match o with JobOutcome_Failure e => Some e | _ => None end.

Record JobResult : Type := {
  JobResult_job_id : Uuid;
  JobResult_outcome : JobOutcome;
}.

Definition JobResult_success (id : Uuid) : JobResult :=
  {| JobResult_job_id := id; JobResult_outcome := JobOutcome_Success |}.

Definition JobResult_failure (id : Uuid) (error : string) : JobResult :=
  {| JobResult_job_id := id; JobResult_outcome := JobOutcome_Failure error |}.

Definition JobResult_already_claimed (id : Uuid) : JobResult :=
  {| JobResult_job_id := id; JobResult_outcome := JobOutcome_AlreadyClaimed |}.

Inductive JobErrorStrategy : Type :=
| JobErrorStrategy_Fail
| JobErrorStrategy_Skip
| JobErrorStrategy_Continue.

#[export] Instance JobErrorStrategy_eq_dec : EqDecision JobErrorStrategy.
Proof. solve_decision. Defined.

(** The calls of a [ProgressReporter]. *)
Inductive Report : Type :=
| on_batch_start (total_jobs : usize)
| on_job_start (job : Job)
| on_job_complete (job_id : Uuid) (success : bool) (error : option string)
| on_batch_complete (completed failed : u64)
| on_jobs_extended (additional : usize).

(** What tasks share: the store, the cancellation token, the counters, the
    channel of results and the reports made so far. *)
Record Shared (S : Type) : Type := {
  sh_store : S;
  sh_token : bool;
  sh_completed : u64;
  sh_failed : u64;
  sh_already_claimed : u64;
  sh_channel : list JobResult;
  sh_reports : list Report;
}.
Arguments sh_store {S} _.
Arguments sh_token {S} _.
Arguments sh_completed {S} _.
Arguments sh_failed {S} _.
Arguments sh_already_claimed {S} _.
Arguments sh_channel {S} _.
Arguments sh_reports {S} _.
Arguments Build_Shared {S} _ _ _ _ _ _ _.

Section shared.
Context {S : Type}.
Implicit Type sh : Shared S.

Definition with_store (s : S) sh : Shared S :=
  Build_Shared s (sh_token sh) (sh_completed sh) (sh_failed sh) (sh_already_claimed sh)
    (sh_channel sh) (sh_reports sh).

(** [token.cancel()] *)
Definition cancel_token sh : Shared S :=
  Build_Shared (sh_store sh) true (sh_completed sh) (sh_failed sh) (sh_already_claimed sh)
    (sh_channel sh) (sh_reports sh).

(** [fetch_add(1)] on the counter of an outcome; the counters of the code have 64 bits
    and would wrap after that many results. *)
Definition count_outcome (o : JobOutcome) sh : Shared S :=
  match o with
  | JobOutcome_Success =>
      Build_Shared (sh_store sh) (sh_token sh) (sh_completed sh + 1) (sh_failed sh)
        (sh_already_claimed sh) (sh_channel sh) (sh_reports sh)
  | JobOutcome_Failure _ =>
      Build_Shared (sh_store sh) (sh_token sh) (sh_completed sh) (sh_failed sh + 1)
        (sh_already_claimed sh) (sh_channel sh) (sh_reports sh)
  | JobOutcome_AlreadyClaimed =>
      Build_Shared (sh_store sh) (sh_token sh) (sh_completed sh) (sh_failed sh)
        (sh_already_claimed sh + 1) (sh_channel sh) (sh_reports sh)
  end.

Definition with_channel (ch : list JobResult) sh : Shared S :=
  Build_Shared (sh_store sh) (sh_token sh) (sh_completed sh) (sh_failed sh)
    (sh_already_claimed sh) ch (sh_reports sh).

Definition report (r : Report) sh : Shared S :=
  Build_Shared (sh_store sh) (sh_token sh) (sh_completed sh) (sh_failed sh)
    (sh_already_claimed sh) (sh_channel sh) (sh_reports sh ++ [r]).
End shared.

(** ** [run_one_job] and [run_claimed_job] *)

(** Where a task stands; [T_Panicked] is a task whose processor panicked. *)
Inductive TaskPc : Type :=
| T_Check
| T_Claim
| T_Recheck (j : Job)
| T_CancelCheck
| T_CancelWrite
| T_Start (j : Job)
| T_Run (j : Job)
| T_MarkComplete (output : option JValue)
| T_MarkFailed (error : string)
| T_Count (o : JobOutcome) (cancel : bool)
| T_Send (o : JobOutcome) (cancel : bool)
| T_CancelToken
| T_Done
| T_Panicked.

Inductive ProcessorResult : Type :=
| Processed (output : option JValue)
| ProcessingFailed (error : string)
| ProcessorPanicked.

(** What the surroundings decide in one step: the time, whether the blocking
    call could be joined, and what the processor did. *)
Record TaskInput : Type := {
  in_now : DateTime;
  in_join_error : option string;
  in_processor : ProcessorResult;
}.

Section task.
Context {S : Type} `{JobStorage S} `{UuidText}.
Context (on_error : JobErrorStrategy) (capacity : nat).

(** [record_job_update]: the update in a blocking task; a task that cannot be
    joined has not run it. *)
Definition record_job_update (operation : string) (inp : TaskInput)
    (update : S → result VoomError unit * S) (s : S) : result string unit * S :=
  match in_join_error inp with
  | Some e => (Err ("task join error while trying to " +:+ operation +:+ ": " +:+ e), s)
  | None =>
      match update s with
      | (Ok _, s') => (Ok tt, s')
      | (Err e, s') => (Err ("failed to " +:+ operation +:+ ": " +:+ VoomError_to_string e), s')
      end
  end.

(** [send_failure], from the increment on *)
Definition send_failure (error : string) (cancel : bool) : TaskPc :=
  T_Count (JobOutcome_Failure error) cancel.

(** One step of the task for [job_id]; [None] when the task is finished or
    waits for room in the channel. *)
Definition task_step (job_id : Uuid) (worker_id : string) (inp : TaskInput) (pc : TaskPc)
    (sh : Shared S) : option (TaskPc * Shared S) :=
  match pc with
  | T_Check =>
      Some (if sh_token sh then send_failure "cancelled" false else T_Claim, sh)
  | T_Claim =>
      Some match in_join_error inp with
           | Some e => (send_failure ("task join error: " +:+ e) false, sh)
           | None =>
               let '(r, s) := JobQueue_claim_by_id (in_now inp) job_id worker_id (sh_store sh) in
               (match r with
                | Ok (Some j) => T_Recheck j
                | Ok None => T_Count JobOutcome_AlreadyClaimed false
                | Err e => send_failure ("failed to claim: " +:+ VoomError_to_string e) false
                end, with_store s sh)
           end
  | T_Recheck j => Some (if sh_token sh then T_CancelCheck else T_Start j, sh)
  | T_CancelCheck =>
      let '(r, s) :=
        record_job_update "mark job as cancelled" inp (cancel_check job_id) (sh_store sh) in
      Some (match r with Ok _ => T_CancelWrite | Err e => send_failure e false end,
            with_store s sh)
  | T_CancelWrite =>
      let '(r, s) :=
        record_job_update "mark job as cancelled" inp (cancel_write (in_now inp) job_id)
          (sh_store sh) in
      Some (match r with
            | Ok _ => send_failure "cancelled" false
            | Err e => send_failure e false
            end, with_store s sh)
  | T_Start j => Some (T_Run j, report (on_job_start j) sh)
  | T_Run j =>
      Some (match in_processor inp with
            | Processed output => T_MarkComplete output
            | ProcessingFailed error => T_MarkFailed error
            | ProcessorPanicked => T_Panicked
            end, sh)
  | T_MarkComplete output =>
      let '(r, s) :=
        record_job_update "mark job as complete" inp
          (JobQueue_complete (in_now inp) job_id output) (sh_store sh) in
      Some match r with
           | Ok _ => (T_Count JobOutcome_Success false, with_store s sh)
           | Err e =>
               (send_failure e false,
                report (on_job_complete job_id false (Some e)) (with_store s sh))
           end
  | T_MarkFailed error =>
      let '(persisted, s) :=
        record_job_update "mark job as failed" inp
          (JobQueue_fail (in_now inp) job_id error) (sh_store sh) in
      let failure := match persisted with
                     | Ok _ => error
                     | Err e => error +:+ "; " +:+ e
                     end in
      Some (send_failure failure (bool_decide (on_error = JobErrorStrategy_Fail)),
            report (on_job_complete job_id false (Some error)) (with_store s sh))
  | T_Count o cancel =>
      Some (T_Send o cancel,
            match o with
            | JobOutcome_Success =>
                report (on_job_complete job_id true None) (count_outcome o sh)
            | _ => count_outcome o sh
            end)
  | T_Send o cancel =>
      if bool_decide (length (sh_channel sh) < capacity) then
        Some (if cancel then T_CancelToken else T_Done,
              with_channel
                (sh_channel sh ++ [{| JobResult_job_id := job_id; JobResult_outcome := o |}]) sh)
      else None
  | T_CancelToken => Some (T_Done, cancel_token sh)
  | T_Done | T_Panicked => None
  end.
End task.

(** ** [process_batch] *)
Record Task : Type := {
  Task_job_id : Uuid;
  Task_worker_id : string;
  Task_pc : TaskPc;
}.

(** A task that has ended has dropped its permit and its sender. *)
Definition Task_ended (t : Task) : bool :=
  match Task_pc t with T_Done | T_Panicked => true | _ => false end.

Definition live_tasks (ts : list Task) : nat := length (List.filter (λ t, negb (Task_ended t)) ts).

(** Where the main task stands. *)
Inductive MainPc : Type :=
| M_Spawn (job_ids : list Uuid)
| M_Sweep (job_ids : list Uuid)
| M_SweepWrite (job_id : Uuid) (job_ids : list Uuid)
| M_Drain
| M_Finished.

Record Pool (S : Type) : Type := {
  Pool_shared : Shared S;
  Pool_main : MainPc;
  Pool_tasks : list Task;
  Pool_results : list JobResult;
  Pool_unstarted : list Uuid;
}.
Arguments Pool_shared {S} _.
Arguments Pool_main {S} _.
Arguments Pool_tasks {S} _.
Arguments Pool_results {S} _.
Arguments Pool_unstarted {S} _.
Arguments Build_Pool {S} _ _ _ _ _.

Inductive PoolAction (S : Type) : Type :=
| A_Spawn (worker_id : string)
| A_StopSpawning
| A_EndSpawning
| A_Sweep
| A_SweepWrite (now : DateTime)
| A_EndSweep
| A_Recv
| A_Finish
| A_Task (i : nat) (inp : TaskInput)
| A_Cancel
| A_Other (f : S → S).
Arguments A_Spawn {S} _.
Arguments A_StopSpawning {S}.
Arguments A_EndSpawning {S}.
Arguments A_Sweep {S}.
Arguments A_SweepWrite {S} _.
Arguments A_EndSweep {S}.
Arguments A_Recv {S}.
Arguments A_Finish {S}.
Arguments A_Task {S} _ _.
Arguments A_Cancel {S}.
Arguments A_Other {S} _.

(** The last two actions are those of the surroundings: the token is cancelled
    from outside, or another user changes the store. *)
Definition internal {S} (a : PoolAction S) : bool :=
  match a with A_Cancel | A_Other _ => false | _ => true end.

Section batch.
Context {S : Type} `{JobStorage S} `{UuidText}.
Context (workers : nat) (on_error : JobErrorStrategy) (capacity : nat).

(** One step of the pool; [None] when the action is not possible. *)
Definition pool_step (a : PoolAction S) (p : Pool S) : option (Pool S) :=
  let sh := Pool_shared p in
  match a, Pool_main p with
  | A_Spawn worker_id, M_Spawn (id :: ids) =>
      if bool_decide (live_tasks (Pool_tasks p) < workers) then
        Some (Build_Pool sh (M_Spawn ids)
                (Pool_tasks p ++ [{| Task_job_id := id; Task_worker_id := worker_id;
                                     Task_pc := T_Check |}])
                (Pool_results p) (Pool_unstarted p))
      else None
  | A_StopSpawning, M_Spawn (id :: ids) =>
      if sh_token sh then
        Some (Build_Pool sh (M_Sweep (id :: ids)) (Pool_tasks p) (Pool_results p) (id :: ids))
      else None
  | A_EndSpawning, M_Spawn [] =>
      Some (Build_Pool sh (M_Sweep []) (Pool_tasks p) (Pool_results p) (Pool_unstarted p))
  | A_Sweep, M_Sweep (id :: ids) =>
      let '(r, s) := cancel_check id (sh_store sh) in
      Some (Build_Pool (with_store s sh)
              (match r with Ok _ => M_SweepWrite id ids | Err _ => M_Sweep ids end)
              (Pool_tasks p) (Pool_results p) (Pool_unstarted p))
  | A_SweepWrite now, M_SweepWrite id ids =>
      Some (Build_Pool (with_store (cancel_write now id (sh_store sh)).2 sh) (M_Sweep ids)
              (Pool_tasks p) (Pool_results p) (Pool_unstarted p))
  | A_EndSweep, M_Sweep [] =>
      Some (Build_Pool sh M_Drain (Pool_tasks p) (Pool_results p) (Pool_unstarted p))
  | A_Recv, M_Drain =>
      match sh_channel sh with
      | r :: rs =>
          Some (Build_Pool (with_channel rs sh) M_Drain (Pool_tasks p) (Pool_results p ++ [r])
                  (Pool_unstarted p))
      | [] => None
      end
  | A_Finish, M_Drain =>
      if bool_decide (sh_channel sh = [] ∧ live_tasks (Pool_tasks p) = 0) then
        Some (Build_Pool (report (on_batch_complete (sh_completed sh) (sh_failed sh)) sh)
                M_Finished (Pool_tasks p) (Pool_results p) (Pool_unstarted p))
      else None
  | A_Task i inp, _ =>
      t ← Pool_tasks p !! i;
      '(pc, sh') ← task_step on_error capacity (Task_job_id t) (Task_worker_id t) inp
                     (Task_pc t) sh;
      Some (Build_Pool sh' (Pool_main p)
              (<[i := {| Task_job_id := Task_job_id t; Task_worker_id := Task_worker_id t;
                         Task_pc := pc |}]> (Pool_tasks p))
              (Pool_results p) (Pool_unstarted p))
  | A_Cancel, _ =>
      Some (Build_Pool (cancel_token sh) (Pool_main p) (Pool_tasks p) (Pool_results p)
              (Pool_unstarted p))
  | A_Other f, _ =>
      Some (Build_Pool (with_store (f (sh_store sh)) sh) (Pool_main p) (Pool_tasks p)
              (Pool_results p) (Pool_unstarted p))
  | _, _ => None
  end.

(** A schedule: the actions in the order in which they happen. *)
Fixpoint pool_run (l : list (PoolAction S)) (p : Pool S) : option (Pool S) :=
  match l with
  | [] => Some p
  | a :: l => p' ← pool_step a p; pool_run l p'
  end.
End batch.

(** ** Enqueueing

    The first loop of [process_batch]. [EnqueueInput] holds the identifier and
    time of the new job and the identifier of a failure's result; [to_value] is
    the [Serialize] implementation of the payload. *)
Record EnqueueInput : Type := {
  ei_id : Uuid;
  ei_now : DateTime;
  ei_error_id : Uuid;
}.

Section enqueue.
Context {S P : Type} `{JobStorage S} (to_value : P → result string JValue).

(** The failure of one item: counted, and kept as a result. *)
Definition enqueue_failure (inp : EnqueueInput) (error : string) (sh : Shared S)
    : list Uuid * list JobResult * Shared S :=
  ([], [JobResult_failure (ei_error_id inp) error], count_outcome (JobOutcome_Failure error) sh).

Definition enqueue_item (item : WorkItem P) (inp : EnqueueInput) (sh : Shared S)
    : list Uuid * list JobResult * Shared S :=
  match try_opt to_value (WorkItem_payload item) with
  | Err e => enqueue_failure inp ("payload serialization failed: " +:+ e) sh
  | Ok json_payload =>
      match JobQueue_enqueue (ei_id inp) (ei_now inp) (WorkItem_job_type item)
              (WorkItem_priority item) json_payload (sh_store sh) with
      | (Ok id, s) => ([id], [], with_store s sh)
      | (Err e, s) =>
          enqueue_failure inp ("enqueue failed: " +:+ VoomError_to_string e) (with_store s sh)
      end
  end.

Fixpoint enqueue_items (items : list (WorkItem P * EnqueueInput)) (sh : Shared S)
    : list Uuid * list JobResult * Shared S :=
  match items with
  | [] => ([], [], sh)
  | (item, inp) :: items =>
      let '(ids, rs, sh) := enqueue_item item inp sh in
      let '(ids', rs', sh) := enqueue_items items sh in
      (ids ++ ids', rs ++ rs', sh)
  end.

(** The state in which the loop that spawns tasks starts, with a fresh channel
    of capacity [channel_capacity]. *)
Definition process_batch (items : list (WorkItem P * EnqueueInput)) (sh : Shared S) : Pool S :=
  let '(ids, rs, sh) := enqueue_items items sh in
  Build_Pool (report (on_batch_start (length ids)) (with_channel [] sh)) (M_Spawn ids) [] rs [].

Definition channel_capacity (job_ids : list Uuid) : nat := Nat.max (length job_ids) 1.
End enqueue.
