(* ===== verification/WorkerPoolFacts.v ===== *)
(** * Facts about the worker pool

    The accounting invariant of a batch, the bound on its steps, and that it
    never gets stuck, for every schedule and every store. *)
From S2P Require Import Prelude Json Media Plan Compiled CapabilityMap Jobs Events Kernel.
From S2P Require Import JobQueue WorkerPool.

(** ** What one step of a task changes *)
Definition tally (k : JobOutcome → bool) (l : list JobOutcome) : N :=
  N.of_nat (length (List.filter k l)).

Lemma tally_app k l l' : tally k (l ++ l') = (tally k l + tally k l')%N.
Proof. unfold tally. rewrite List.filter_app, length_app. lia. Qed.

Lemma tally_cons k o l : tally k (o :: l) = ((if k o then 1 else 0) + tally k l)%N.
Proof. unfold tally. simpl. destruct (k o); simpl; lia. Qed.

(** The outcome a task has counted but not sent; whether it has sent it. *)
Definition Task_counted (t : Task) : list JobOutcome :=
  match Task_pc t with T_Send o _ => [o] | _ => [] end.

Definition Task_sent (t : Task) : bool :=
  match Task_pc t with T_CancelToken | T_Done => true | _ => false end.

(** The three counters of a pool and the outcomes they count. *)
Inductive outcome_kind : Type := K_Success | K_Failure | K_AlreadyClaimed.

Definition is_kind (k : outcome_kind) : JobOutcome → bool :=
  match k with
  | K_Success => JobOutcome_is_success
  | K_Failure => JobOutcome_is_failure
  | K_AlreadyClaimed => JobOutcome_is_already_claimed
  end.

Definition counter {S} (k : outcome_kind) : Shared S → u64 :=
  match k with
  | K_Success => sh_completed
  | K_Failure => sh_failed
  | K_AlreadyClaimed => sh_already_claimed
  end.

Definition same_counters {S} (sh sh' : Shared S) : Prop := ∀ k, counter k sh' = counter k sh.

Lemma counter_count_outcome {S} k o (sh : Shared S) :
  counter k (count_outcome o sh) = (counter k sh + if is_kind k o then 1 else 0)%N.
Proof. destruct k, o; cbn; lia. Qed.

(** A step leaves the accounts alone, counts an outcome, or sends it. *)
Inductive task_effect {S} (capacity : nat) (t t' : Task) (sh sh' : Shared S) : Prop :=
| effect_quiet :
    Task_counted t' = Task_counted t → Task_sent t' = Task_sent t →
    sh_channel sh' = sh_channel sh → same_counters sh sh' → task_effect capacity t t' sh sh'
| effect_count o :
    Task_counted t = [] → Task_counted t' = [o] → Task_sent t = false → Task_sent t' = false →
    sh_channel sh' = sh_channel sh → same_counters (count_outcome o sh) sh' →
    task_effect capacity t t' sh sh'
| effect_send o :
    Task_counted t = [o] → Task_counted t' = [] → Task_sent t = false → Task_sent t' = true →
    length (sh_channel sh) < capacity →
    sh_channel sh' = sh_channel sh ++
      [{| JobResult_job_id := Task_job_id t; JobResult_outcome := o |}] →
    same_counters sh sh' → task_effect capacity t t' sh sh'.

(** The steps a task has left, at most. *)
Definition pc_rank (pc : TaskPc) : nat :=
  match pc with
  | T_Check => 9 | T_Claim => 8 | T_Recheck _ => 7 | T_Start _ => 6
  | T_Run _ | T_CancelCheck => 5
  | T_CancelWrite | T_MarkComplete _ | T_MarkFailed _ => 4
  | T_Count _ _ => 3 | T_Send _ _ => 2 | T_CancelToken => 1
  | T_Done | T_Panicked => 0
  end.

Section task.
Context {S : Type} `{JobStorage S} `{UuidText}.
Context (on_error : JobErrorStrategy) (capacity : nat).
Implicit Types (sh : Shared S) (t : Task).

Definition set_pc (pc : TaskPc) (t : Task) : Task :=
  {| Task_job_id := Task_job_id t; Task_worker_id := Task_worker_id t; Task_pc := pc |}.

Ltac quiet := by apply effect_quiet; [..|intros []].

Lemma task_step_effect t inp sh pc sh' :
  task_step on_error capacity (Task_job_id t) (Task_worker_id t) inp (Task_pc t) sh =
    Some (pc, sh') →
  Task_ended t = false ∧ task_effect capacity t (set_pc pc t) sh sh' ∧
  pc_rank pc < pc_rank (Task_pc t).
Proof.
  destruct t as [id w pc0]. unfold Task_ended, set_pc; cbn [Task_pc Task_job_id Task_worker_id].
  intros Hstep. destruct pc0; cbn [task_step] in Hstep; try done.
  all: repeat (case_match; simplify_eq/=); simplify_eq/=.
  all: split; [done|]; split; [|cbn; repeat case_match; cbn; lia].
  all: try quiet.
  all: try by (eapply effect_count; [..|intros []]).
  all: apply bool_decide_eq_true in H1; by (eapply effect_send; [..|intros []]).
Qed.
End task.

(** ** The accounts of a pool *)
Definition ids_left (m : MainPc) : list Uuid :=
  match m with M_Spawn ids => ids | _ => [] end.

(** Outcomes that have been counted: those of the results received since the
    start, of the channel, and of tasks about to send. *)
Definition counted {S} (R : list JobResult) (p : Pool S) : list JobOutcome :=
  (JobResult_outcome <$> R ++ sh_channel (Pool_shared p)) ++ (Pool_tasks p ≫= Task_counted).

Definition sent_ids (ts : list Task) : list Uuid :=
  Task_job_id <$> List.filter Task_sent ts.

(** [rs0] are the results of the enqueueing loop and [sh0] holds the counters
    after it. *)
Record pool_inv {S} (workers capacity : nat) (job_ids : list Uuid) (rs0 : list JobResult)
    (sh0 : Shared S) (R : list JobResult) (p : Pool S) : Prop := {
  inv_results : Pool_results p = rs0 ++ R;
  inv_ids : ids_left (Pool_main p) ++ (Task_job_id <$> Pool_tasks p) ++ Pool_unstarted p ≡ₚ job_ids;
  inv_live : live_tasks (Pool_tasks p) ≤ workers;
  inv_sent : JobResult_job_id <$> R ++ sh_channel (Pool_shared p) ≡ₚ sent_ids (Pool_tasks p);
  inv_counters : ∀ k, counter k (Pool_shared p) =
    (counter k sh0 + tally (is_kind k) (counted R p))%N;
  inv_spawning : ∀ ids, Pool_main p = M_Spawn ids → Pool_unstarted p = [];
  inv_finished : Pool_main p = M_Finished →
    sh_channel (Pool_shared p) = [] ∧ live_tasks (Pool_tasks p) = 0;
}.

Lemma lookup_split {A} (l : list A) i x y :
  l !! i = Some x → ∃ l1 l2, l = l1 ++ x :: l2 ∧ <[i := y]> l = l1 ++ y :: l2.
Proof.
  intros Hi. exists (take i l), (drop (Datatypes.S i) l). split.
  - symmetry. by apply take_drop_middle.
  - apply insert_take_drop. by eapply lookup_lt_Some.
Qed.

Lemma live_tasks_app l1 l2 : live_tasks (l1 ++ l2) = live_tasks l1 + live_tasks l2.
Proof. unfold live_tasks. by rewrite List.filter_app, length_app. Qed.

Lemma live_tasks_cons t l :
  live_tasks (t :: l) = (if Task_ended t then 0 else 1) + live_tasks l.
Proof. unfold live_tasks. simpl. by destruct (Task_ended t). Qed.

Lemma sent_ids_app l1 l2 : sent_ids (l1 ++ l2) = sent_ids l1 ++ sent_ids l2.
Proof. unfold sent_ids. by rewrite List.filter_app, fmap_app. Qed.

Lemma sent_ids_cons t l :
  sent_ids (t :: l) = (if Task_sent t then [Task_job_id t] else []) ++ sent_ids l.
Proof. unfold sent_ids. simpl. by destruct (Task_sent t). Qed.

Lemma filter_split_perm {A} (f : A → bool) l :
  List.filter f l ++ List.filter (λ x, negb (f x)) l ≡ₚ l.
Proof.
  induction l as [|x l IH]; [done|]. cbn. destruct (f x); cbn; [by rewrite IH|].
  by rewrite <-Permutation_middle, IH.
Qed.

(** When no task is alive, all have ended and none is about to send. *)
Lemma live_tasks_zero ts t : live_tasks ts = 0 → t ∈ ts → Task_ended t = true.
Proof.
  induction ts as [|u ts IH]; intros Hl Ht; [by apply elem_of_nil in Ht|].
  rewrite live_tasks_cons in Hl. destruct (Task_ended u) eqn:Hu; [|lia].
  apply elem_of_cons in Ht as [->|Ht]; [done | by apply IH].
Qed.

Lemma counted_none ts : live_tasks ts = 0 → ts ≫= Task_counted = [].
Proof.
  induction ts as [|u ts IH]; intros Hl; [done|]. rewrite live_tasks_cons in Hl.
  destruct (Task_ended u) eqn:Hu; [|lia]. rewrite bind_cons, IH by lia.
  unfold Task_ended in Hu. unfold Task_counted. by destruct (Task_pc u).
Qed.

Lemma tally_failures k rs :
  Forall (λ r, JobOutcome_is_failure (JobResult_outcome r) = true) rs →
  tally (is_kind k) (JobResult_outcome <$> rs) =
  match k with K_Failure => N.of_nat (length rs) | _ => 0%N end.
Proof.
  induction 1 as [|r rs Hr _ IH]; [by destruct k|].
  rewrite fmap_cons, tally_cons, IH. destruct (JobResult_outcome r); try done.
  destruct k; cbn; lia.
Qed.

Section pool.
Context {S : Type} `{JobStorage S} `{UuidText}.
Context (workers : nat) (on_error : JobErrorStrategy) (capacity : nat).
Context (job_ids : list Uuid) (rs0 : list JobResult) (sh0 : Shared S).
Implicit Types (p : Pool S) (sh : Shared S).

Local Abbreviation inv := (pool_inv workers capacity job_ids rs0 sh0).

(** Replacing one task by its successor *)
Lemma inv_task R p l1 l2 t t' sh' :
  inv R p → Pool_tasks p = l1 ++ t :: l2 → Task_job_id t' = Task_job_id t →
  Task_ended t = false → task_effect capacity t t' (Pool_shared p) sh' →
  inv R (Build_Pool sh' (Pool_main p) (l1 ++ t' :: l2) (Pool_results p) (Pool_unstarted p)).
Proof.
  intros [Hres Hids Hlive Hsent Hc Hsp Hfin] Hts Hid Hend Heff.
  rewrite Hts in *. unfold counted in *.
  rewrite live_tasks_app, live_tasks_cons, Hend in Hlive, Hfin.
  rewrite sent_ids_app, sent_ids_cons in Hsent.
  split; unfold counted; cbn [Pool_results Pool_main Pool_tasks Pool_unstarted Pool_shared]; try done.
  - rewrite <-Hids, !fmap_app, !fmap_cons. by rewrite Hid.
  - rewrite live_tasks_app, live_tasks_cons. destruct (Task_ended t'); lia.
  - rewrite sent_ids_app, sent_ids_cons, Hid.
    destruct Heff as [_ HS Hch _|o _ _ HS HS' Hch _|o _ _ HS HS' _ Hch _];
      rewrite ?HS', ?HS, ?Hch in *; [done|done|].
    rewrite app_assoc, fmap_app, Hsent, (Permutation_app_comm _ (_ <$> [_])).
    apply (Permutation_middle (sent_ids l1) (sent_ids l2) (Task_job_id t)).
  - intros k. specialize (Hc k).
    rewrite Hts, !fmap_app, bind_app, bind_cons, !tally_app in Hc.
    rewrite !fmap_app, bind_app, bind_cons, !tally_app.
    destruct Heff as [HC _ Hch Hk|o HC HC' _ _ Hch Hk|o HC HC' _ _ _ Hch Hk];
      rewrite Hk, ?counter_count_outcome, Hc, ?HC', ?HC, ?Hch, ?fmap_app, ?tally_app; [done| |];
      cbn; rewrite !tally_cons; unfold tally; simpl; lia.
  - intros Hm. destruct (Hfin Hm). lia.
Qed.

(** Steps of the main task and of the surroundings: the channel and the results
    together, the identifiers and the counters stay as they are. *)
Lemma inv_frame R R' p p' :
  inv R p → Pool_tasks p' = Pool_tasks p →
  Pool_results p' = rs0 ++ R' →
  R' ++ sh_channel (Pool_shared p') = R ++ sh_channel (Pool_shared p) →
  same_counters (Pool_shared p) (Pool_shared p') →
  ids_left (Pool_main p') ++ Pool_unstarted p' = ids_left (Pool_main p) ++ Pool_unstarted p →
  (∀ ids, Pool_main p' = M_Spawn ids → Pool_unstarted p' = []) →
  (Pool_main p' = M_Finished →
     sh_channel (Pool_shared p') = [] ∧ live_tasks (Pool_tasks p) = 0) →
  inv R' p'.
Proof.
  intros [Hres Hids Hlive Hsent Hc Hsp Hfin] Hts Hr Hch Hk Hi Hs Hf.
  split; unfold counted; rewrite ?Hts, ?Hch; try done.
  - rewrite (Permutation_app_comm (Task_job_id <$> _)), app_assoc, Hi.
    rewrite <-Hids, (Permutation_app_comm (Task_job_id <$> _)). by rewrite app_assoc.
  - intros k. rewrite (Hk k), (Hc k). unfold counted. done.
Qed.

Lemma inv_spawn R p id ids w :
  inv R p → Pool_main p = M_Spawn (id :: ids) → live_tasks (Pool_tasks p) < workers →
  inv R (Build_Pool (Pool_shared p) (M_Spawn ids)
           (Pool_tasks p ++ [{| Task_job_id := id; Task_worker_id := w; Task_pc := T_Check |}])
           (Pool_results p) (Pool_unstarted p)).
Proof.
  intros [Hres Hids Hlive Hsent Hc Hsp Hfin] Hm Hlt.
  rewrite Hm in Hids. split; unfold counted; cbn [Pool_results Pool_main Pool_tasks
    Pool_unstarted Pool_shared ids_left] in *; try done.
  - rewrite <-Hids. rewrite fmap_app, <-app_assoc. cbn. symmetry.
    rewrite app_assoc, (app_assoc ids). apply Permutation_middle.
  - rewrite live_tasks_app, live_tasks_cons. cbn. lia.
  - rewrite sent_ids_app, Hsent. cbn. by rewrite app_nil_r.
  - intros k. rewrite (Hc k). unfold counted. rewrite bind_app. cbn. by rewrite !app_nil_r.
  - intros ? _. by eapply Hsp.
Qed.

Ltac frame R R' p :=
  apply (inv_frame R R' p); try done; cbn [Pool_main Pool_shared Pool_results Pool_unstarted
    Pool_tasks ids_left app];
  try match goal with Hm : Pool_main p = _ |- context [Pool_main p] => rewrite Hm end; try done;
  try by intros [].

Lemma pool_step_inv R p a p' :
  inv R p → pool_step workers on_error capacity a p = Some p' → ∃ R', inv R' p'.
Proof.
  intros Hinv Hstep. pose proof Hinv as [Hres _ _ _ _ Hsp Hfin].
  destruct a; cbn [pool_step] in Hstep.
  1-8: destruct (Pool_main p) as [[|id ids]|[|id ids]|id ids| |] eqn:Hm; try done.
  - case_bool_decide; simplify_eq. exists R. by apply inv_spawn.
  - destruct (sh_token _); simplify_eq. exists R. frame R R p.
    rewrite (Hsp _ eq_refl). cbn. by rewrite app_nil_r.
  - simplify_eq. exists R. frame R R p.
  - destruct (cancel_check _ _) as [[]]; simplify_eq; exists R; frame R R p.
  - simplify_eq. exists R. frame R R p.
  - simplify_eq. exists R. frame R R p.
  - destruct (sh_channel _) as [|r rs] eqn:Hch; simplify_eq. exists (R ++ [r]).
    frame R (R ++ [r]) p; rewrite ?Hch, ?Hres; by rewrite <-?app_assoc.
  - case_bool_decide as Hd; simplify_eq. destruct Hd. exists R. frame R R p.
  - destruct (Pool_tasks p !! i) as [t|] eqn:Hi; [|done]; cbn [mbind option_bind] in Hstep.
    destruct (task_step _ _ _ _ _ _ _) as [[pc sh']|] eqn:Ht; simplify_eq/=.
    apply task_step_effect in Ht as (Hend & Heff & _).
    destruct (lookup_split _ i t (set_pc pc t) Hi) as (l1 & l2 & Hl & Hl').
    change {| Task_job_id := _; Task_worker_id := _; Task_pc := pc |} with (set_pc pc t).
    rewrite Hl'. exists R. by eapply inv_task.
  - simplify_eq. exists R. frame R R p.
  - simplify_eq. exists R. frame R R p.
Qed.

Lemma pool_run_inv l R p p' :
  inv R p → pool_run workers on_error capacity l p = Some p' → ∃ R', inv R' p'.
Proof.
  revert R p. induction l as [|a l IH]; intros R p Hinv Hrun; cbn [pool_run] in Hrun.
  - simplify_eq. by exists R.
  - destruct (pool_step _ _ _ a p) as [q|] eqn:Hstep; [|done]; cbn in Hrun.
    destruct (pool_step_inv R p a q Hinv Hstep) as [R' HR']. by apply (IH R' q).
Qed.
End pool.

Lemma effective_workers_pos available config : 0 < effective_workers available config.
Proof.
  unfold effective_workers, num_cpus. case_bool_decide; [|lia]. destruct available; lia.
Qed.

(** ** Enqueueing *)
Section enqueue.
Context {S P : Type} `{JobStorage S} (to_value : P → result string JValue).

(** Every item becomes a job or a failed result, and failures are counted. *)
Lemma enqueue_items_spec items sh ids rs sh' :
  enqueue_items to_value items sh = (ids, rs, sh') →
  length ids + length rs = length items ∧
  Forall (λ r, JobOutcome_is_failure (JobResult_outcome r) = true) rs ∧
  sh_completed sh' = sh_completed sh ∧
  sh_failed sh' = (sh_failed sh + N.of_nat (length rs))%N ∧
  sh_already_claimed sh' = sh_already_claimed sh ∧ sh_token sh' = sh_token sh.
Proof.
  revert sh ids rs. induction items as [|[item inp] items IH]; intros sh ids rs He.
  { injection He as <- <- <-. cbn. split_and!; [done | constructor | done | lia | done | done]. }
  cbn [enqueue_items] in He.
  destruct (enqueue_item to_value item inp sh) as [[ids1 rs1] sh1] eqn:H1.
  destruct (enqueue_items to_value items sh1) as [[ids2 rs2] sh2] eqn:H2.
  injection He as <- <- <-. apply IH in H2 as (Hlen & Hall & Hc & Hf & Ha & Ht).
  assert (length ids1 + length rs1 = 1 ∧
    Forall (λ r, JobOutcome_is_failure (JobResult_outcome r) = true) rs1 ∧
    sh_completed sh1 = sh_completed sh ∧ sh_failed sh1 = (sh_failed sh + N.of_nat (length rs1))%N ∧
    sh_already_claimed sh1 = sh_already_claimed sh ∧ sh_token sh1 = sh_token sh)
    as (Hlen1 & Hall1 & Hc1 & Hf1 & Ha1 & Ht1).
  { clear -H1. unfold enqueue_item, enqueue_failure in H1.
    repeat case_match; simplify_eq/=; split_and!; try done; try lia; by repeat constructor. }
  rewrite !length_app. split_and!; [cbn; lia | by apply Forall_app | congruence | lia | congruence..].
Qed.

Lemma process_batch_inv workers items sh :
  let ids := (enqueue_items to_value items sh).1.1 in
  let p := process_batch to_value items sh in
  pool_inv workers (channel_capacity ids) ids (Pool_results p) (Pool_shared p) [] p.
Proof.
  unfold process_batch. destruct (enqueue_items to_value items sh) as [[ids rs] sh'] eqn:He.
  cbn. split; cbn; try done.
  - by rewrite app_nil_r.
  - by rewrite !app_nil_r.
  - unfold live_tasks. cbn. lia.
  - intros k. unfold counted, tally. cbn. lia.
Qed.
End enqueue.

(** ** Steps that are left *)
Definition main_measure (m : MainPc) : nat :=
  match m with
  | M_Spawn ids => 20 * length ids + 4
  | M_Sweep ids => 2 * length ids + 3
  | M_SweepWrite _ ids => 2 * length ids + 4
  | M_Drain => 2
  | M_Finished => 0
  end.

Definition tasks_measure (ts : list Task) : nat := sum_list_with (λ t, 2 * pc_rank (Task_pc t)) ts.

Definition pool_measure {S} (p : Pool S) : nat :=
  main_measure (Pool_main p) + tasks_measure (Pool_tasks p)
  + length (sh_channel (Pool_shared p)).

Lemma tasks_measure_app l1 l2 : tasks_measure (l1 ++ l2) = tasks_measure l1 + tasks_measure l2.
Proof. apply sum_list_with_app. Qed.

Section steps.
Context {S : Type} `{JobStorage S} `{UuidText}.
Context (workers : nat) (on_error : JobErrorStrategy) (capacity : nat).
Implicit Types (p : Pool S) (sh : Shared S).

(** Internal actions make the measure smaller, the others leave it alone. *)
Lemma pool_step_measure p a p' :
  pool_step workers on_error capacity a p = Some p' →
  if internal a then pool_measure p' < pool_measure p else pool_measure p' = pool_measure p.
Proof.
  intros Hstep. destruct a; cbn [pool_step internal] in *; unfold pool_measure.
  1-8: destruct (Pool_main p) as [[|id ids]|[|id ids]|id ids| |] eqn:Hm; try done.
  - case_bool_decide; simplify_eq/=. rewrite tasks_measure_app. cbn. lia.
  - destruct (sh_token _); simplify_eq/=. lia.
  - simplify_eq/=. lia.
  - destruct (cancel_check _ _) as [[]]; simplify_eq/=; lia.
  - simplify_eq/=. lia.
  - simplify_eq/=. lia.
  - destruct (sh_channel _) as [|r rs] eqn:Hch; simplify_eq/=. lia.
  - case_bool_decide; simplify_eq/=. lia.
  - destruct (Pool_tasks p !! i) as [t|] eqn:Hi; [|done]; cbn [mbind option_bind] in Hstep.
    destruct (task_step _ _ _ _ _ _ _) as [[pc sh']|] eqn:Ht; simplify_eq/=.
    apply task_step_effect in Ht as (_ & Heff & Hrank).
    destruct (lookup_split _ i t (set_pc pc t) Hi) as (l1 & l2 & Hl & Hl').
    change {| Task_job_id := _; Task_worker_id := _; Task_pc := pc |} with (set_pc pc t).
    rewrite Hl', Hl, !tasks_measure_app. cbn.
    destruct Heff as [_ _ -> _|o _ _ _ _ -> _|o _ _ _ _ _ -> _]; rewrite ?length_app; cbn; lia.
  - by simplify_eq/=.
  - by simplify_eq/=.
Qed.

Lemma pool_run_measure l p p' :
  pool_run workers on_error capacity l p = Some p' →
  length (List.filter internal l) + pool_measure p' ≤ pool_measure p.
Proof.
  revert p. induction l as [|a l IH]; intros p Hrun; cbn [pool_run] in Hrun.
  - simplify_eq/=. lia.
  - destruct (pool_step _ _ _ a p) as [q|] eqn:Hstep; [|done]; cbn in Hrun.
    apply IH in Hrun. apply pool_step_measure in Hstep. cbn. destruct (internal a); cbn; lia.
Qed.

Lemma live_task_index ts : live_tasks ts ≠ 0 → ∃ i t, ts !! i = Some t ∧ Task_ended t = false.
Proof.
  induction ts as [|t ts IH]; [done|]. rewrite live_tasks_cons.
  destruct (Task_ended t) eqn:Ht.
  - intros Hl. destruct (IH Hl) as (i & u & Hi & Hu). by exists (Datatypes.S i), u.
  - intros _. by exists 0, t.
Qed.

Lemma filter_length_lt {A} (f : A → bool) l i x :
  l !! i = Some x → f x = false → length (List.filter f l) < length l.
Proof.
  intros Hi Hx. destruct (lookup_split l i x x Hi) as (l1 & l2 & -> & _).
  rewrite List.filter_app, !length_app. cbn. rewrite Hx.
  pose proof (List.filter_length_le f l1). pose proof (List.filter_length_le f l2). lia.
Qed.

(** A task that has not ended can take a step: the channel has room. *)
Lemma live_task_step R p job_ids rs0 sh0 i t :
  pool_inv workers (channel_capacity job_ids) job_ids rs0 sh0 R p →
  Pool_tasks p !! i = Some t → Task_ended t = false →
  ∃ p', pool_step workers on_error (channel_capacity job_ids)
          (A_Task i {| in_now := 0; in_join_error := None; in_processor := Processed None |}) p
        = Some p'.
Proof.
  intros [Hres Hids Hlive Hsent _ _ _] Hi Hend. cbn [pool_step]. rewrite Hi. cbn [mbind option_bind].
  destruct (task_step _ _ _ _ _ _ _) as [[pc sh']|] eqn:Ht; [by eexists|]. exfalso.
  unfold Task_ended in Hend. destruct (Task_pc t) eqn:Hpc; try done; cbn in Ht;
    repeat case_match; try done.
  case_bool_decide as Hlt; [done|]. apply Hlt.
  pose proof (filter_length_lt Task_sent _ i t Hi) as Hsl.
  unfold Task_sent in Hsl at 1. rewrite Hpc in Hsl. specialize (Hsl eq_refl).
  apply Permutation_length in Hsent. unfold sent_ids in Hsent.
  rewrite !length_fmap, length_app in Hsent.
  apply Permutation_length in Hids. rewrite !length_app, length_fmap in Hids.
  unfold channel_capacity. lia.
Qed.

Lemma pool_progress R p job_ids rs0 sh0 :
  0 < workers → pool_inv workers (channel_capacity job_ids) job_ids rs0 sh0 R p →
  Pool_main p ≠ M_Finished →
  ∃ a p', internal a = true ∧
    pool_step workers on_error (channel_capacity job_ids) a p = Some p'.
Proof.
  intros Hw Hinv Hnf.
  assert (Htask : live_tasks (Pool_tasks p) ≠ 0 → ∃ a p', internal a = true ∧
    pool_step workers on_error (channel_capacity job_ids) a p = Some p').
  { intros (i & t & Hi & Ht)%live_task_index.
    destruct (live_task_step R p job_ids rs0 sh0 i t Hinv Hi Ht) as [p' Hp'].
    by eexists _, p'; split; [|exact Hp']. }
  destruct (Pool_main p) as [[|id ids]|[|id ids]|id ids| |] eqn:Hm; try done.
  - exists A_EndSpawning. cbn. rewrite Hm. by eexists.
  - destruct (decide (live_tasks (Pool_tasks p) < workers)) as [Hlt|Hge]; [|apply Htask; lia].
    exists (A_Spawn ""). cbn. rewrite Hm, bool_decide_true by done. by eexists.
  - exists A_EndSweep. cbn. rewrite Hm. by eexists.
  - exists A_Sweep. cbn. rewrite Hm. destruct (cancel_check _ _). by eexists.
  - exists (A_SweepWrite 0). cbn. rewrite Hm. by eexists.
  - destruct (sh_channel (Pool_shared p)) as [|r rs] eqn:Hch.
    + destruct (decide (live_tasks (Pool_tasks p) = 0)) as [H0'|]; [|by apply Htask].
      exists A_Finish. cbn. rewrite Hm, bool_decide_true by done. by eexists.
    + exists A_Recv. cbn. rewrite Hm, Hch. by eexists.
Qed.
End steps.
