(* ===== verification/WorkerStream.v ===== *)
(** * The streaming worker pool

    [plugins/job-manager/src/worker_stream.rs]: [WorkerPool::process_stream] as
    a transition system. A producer sends items over a channel; one task
    enqueues them and pushes their identifiers on a heap; workers wait at a gate
    and then claim the best entry of the heap until it is empty and the producer
    is done; a collector receives results all the time. After cancellation the
    jobs of this run that are still pending are cancelled. *)
From S2P Require Import Prelude Json Media Plan Compiled CapabilityMap Jobs Events Kernel.
From S2P Require Import JobQueue WorkerPool.

(** ** The heap

    [BinaryHeap<Reverse<(i32, u64, Uuid)>>]: [pop] removes a least entry in the
    order of tuples. The entries are kept as a list. *)
Record HeapEntry : Type := {
  HeapEntry_priority : i32;
  HeapEntry_seq : u64;
  HeapEntry_id : Uuid;
}.

Definition heap_leb (a b : HeapEntry) : bool :=
  (HeapEntry_priority a <? HeapEntry_priority b)%Z
  || (HeapEntry_priority a =? HeapEntry_priority b)%Z
     && ((HeapEntry_seq a <? HeapEntry_seq b)%N
         || (HeapEntry_seq a =? HeapEntry_seq b)%N && (HeapEntry_id a <=? HeapEntry_id b)%N).

(** The least entry and the others. *)
Fixpoint heap_pop (h : list HeapEntry) : option (HeapEntry * list HeapEntry) :=
  match h with
  | [] => None
  | x :: h =>
      match heap_pop h with
      | None => Some (x, [])
      | Some (y, rest) => Some (if heap_leb x y then (x, h) else (y, x :: rest))
      end
  end.

(** ** State *)
Inductive WorkerPc : Type :=
| W_Start
| W_Waiting
| W_Loop
| W_Empty
| W_Claim (id : Uuid)
| W_Claimed (j : Job)
| W_Job (pre_failed : u64) (job_id : Uuid) (pc : TaskPc)
| W_Exit
| W_Panicked (job_id : Uuid).

Record Worker : Type := {
  Worker_id : string;
  Worker_pc : WorkerPc;
}.

Definition Worker_ended (w : Worker) : bool :=
  match Worker_pc w with W_Exit | W_Panicked _ => true | _ => false end.

Inductive EnqueuerPc (P : Type) : Type :=
| E_Recv
| E_Enqueue (item : WorkItem P) (inp : EnqueueInput)
| E_Push (priority : i32) (id : Uuid)
| E_Record (id : Uuid)
| E_Send (r : JobResult)
| E_Finish
| E_Done.
Arguments E_Recv {P}.
Arguments E_Enqueue {P} _ _.
Arguments E_Push {P} _ _.
Arguments E_Record {P} _.
Arguments E_Send {P} _.
Arguments E_Finish {P}.
Arguments E_Done {P}.

Inductive StreamPc : Type :=
| S_Running
| S_Sweep (ids : list Uuid)
| S_SweepWrite (id : Uuid) (ids : list Uuid)
| S_Report
| S_Finished.

(** [st_items] and [st_closed] are the channel of items; [st_missed] logs the
    popped identifiers whose claim gave no job. *)
Record Stream (S P : Type) : Type := {
  st_shared : Shared S;
  st_items : list (WorkItem P * EnqueueInput);
  st_closed : bool;
  st_enqueuer : EnqueuerPc P;
  st_producer_done : bool;
  st_enqueued : list Uuid;
  st_heap : list HeapEntry;
  st_seq : u64;
  st_workers : list Worker;
  st_results : list JobResult;
  st_missed : list Uuid;
  st_main : StreamPc;
}.
Arguments st_shared {S P} _.
Arguments st_items {S P} _.
Arguments st_closed {S P} _.
Arguments st_enqueuer {S P} _.
Arguments st_producer_done {S P} _.
Arguments st_enqueued {S P} _.
Arguments st_heap {S P} _.
Arguments st_seq {S P} _.
Arguments st_workers {S P} _.
Arguments st_results {S P} _.
Arguments st_missed {S P} _.
Arguments st_main {S P} _.
Arguments Build_Stream {S P} _ _ _ _ _ _ _ _ _ _ _ _.

Inductive StreamAction (S P : Type) : Type :=
| SA_Produce (item : WorkItem P) (inp : EnqueueInput)
| SA_Close
| SA_OpenGate
| SA_Cancel
| SA_Other (f : S → S)
| SA_Enqueuer
| SA_Worker (i : nat) (inp : TaskInput)
| SA_Collect
| SA_EndWorkers
| SA_Sweep
| SA_SweepWrite (now : DateTime)
| SA_EndSweep
| SA_Report.
Arguments SA_Produce {S P} _ _.
Arguments SA_Close {S P}.
Arguments SA_OpenGate {S P}.
Arguments SA_Cancel {S P}.
Arguments SA_Other {S P} _.
Arguments SA_Enqueuer {S P}.
Arguments SA_Worker {S P} _ _.
Arguments SA_Collect {S P}.
Arguments SA_EndWorkers {S P}.
Arguments SA_Sweep {S P}.
Arguments SA_SweepWrite {S P} _.
Arguments SA_EndSweep {S P}.
Arguments SA_Report {S P}.

(** Field assignments *)
Section setters.
Context {S P : Type}.
Implicit Type st : Stream S P.

Definition st_with_shared (sh : Shared S) st : Stream S P :=
  Build_Stream sh (st_items st) (st_closed st) (st_enqueuer st) (st_producer_done st)
    (st_enqueued st) (st_heap st) (st_seq st) (st_workers st) (st_results st) (st_missed st)
    (st_main st).

Definition st_with_items (items : list (WorkItem P * EnqueueInput)) (closed : bool) st : Stream S P :=
  Build_Stream (st_shared st) items closed (st_enqueuer st) (st_producer_done st)
    (st_enqueued st) (st_heap st) (st_seq st) (st_workers st) (st_results st) (st_missed st)
    (st_main st).

Definition st_with_enqueuer (pc : EnqueuerPc P) (done : bool) st : Stream S P :=
  Build_Stream (st_shared st) (st_items st) (st_closed st) pc done
    (st_enqueued st) (st_heap st) (st_seq st) (st_workers st) (st_results st) (st_missed st)
    (st_main st).

Definition st_with_heap (h : list HeapEntry) (seq : u64) st : Stream S P :=
  Build_Stream (st_shared st) (st_items st) (st_closed st) (st_enqueuer st) (st_producer_done st)
    (st_enqueued st) h seq (st_workers st) (st_results st) (st_missed st) (st_main st).

Definition st_with_enqueued (ids : list Uuid) st : Stream S P :=
  Build_Stream (st_shared st) (st_items st) (st_closed st) (st_enqueuer st) (st_producer_done st)
    ids (st_heap st) (st_seq st) (st_workers st) (st_results st) (st_missed st) (st_main st).

Definition st_with_workers (ws : list Worker) st : Stream S P :=
  Build_Stream (st_shared st) (st_items st) (st_closed st) (st_enqueuer st) (st_producer_done st)
    (st_enqueued st) (st_heap st) (st_seq st) ws (st_results st) (st_missed st) (st_main st).

Definition st_with_results (rs : list JobResult) st : Stream S P :=
  Build_Stream (st_shared st) (st_items st) (st_closed st) (st_enqueuer st) (st_producer_done st)
    (st_enqueued st) (st_heap st) (st_seq st) (st_workers st) rs (st_missed st) (st_main st).

Definition st_with_missed (ids : list Uuid) st : Stream S P :=
  Build_Stream (st_shared st) (st_items st) (st_closed st) (st_enqueuer st) (st_producer_done st)
    (st_enqueued st) (st_heap st) (st_seq st) (st_workers st) (st_results st) ids (st_main st).

Definition st_with_main (m : StreamPc) st : Stream S P :=
  Build_Stream (st_shared st) (st_items st) (st_closed st) (st_enqueuer st) (st_producer_done st)
    (st_enqueued st) (st_heap st) (st_seq st) (st_workers st) (st_results st) (st_missed st) m.
End setters.

(** ** Steps *)
Section stream.
Context {S P : Type} `{JobStorage S} `{UuidText} (to_value : P → result string JValue).
Context (on_error : JobErrorStrategy) (capacity : nat).
Implicit Type st : Stream S P.

(** [result_tx.send(r)], possible while the channel has room *)
Definition stream_send (r : JobResult) (sh : Shared S) : option (Shared S) :=
  if bool_decide (length (sh_channel sh) < capacity)
  then Some (with_channel (sh_channel sh ++ [r]) sh) else None.

(** The enqueuer task; a failed item is counted and sent as a result. *)
Definition enqueuer_step st : option (Stream S P) :=
  let sh := st_shared st in
  let goto pc := st_with_enqueuer pc (st_producer_done st) in
  match st_enqueuer st with
  | E_Recv =>
      if sh_token sh then Some (goto E_Finish st)
      else
        match st_items st with
        | (item, inp) :: items =>
            Some (goto (E_Enqueue item inp) (st_with_items items (st_closed st) st))
        | [] => if st_closed st then Some (goto E_Finish st) else None
        end
  | E_Enqueue item inp =>
      match try_opt to_value (WorkItem_payload item) with
      | Err e =>
          let error := "payload serialization failed: " +:+ e in
          Some (goto (E_Send (JobResult_failure (ei_error_id inp) error))
                  (st_with_shared (count_outcome (JobOutcome_Failure error) sh) st))
      | Ok json_payload =>
          match JobQueue_enqueue (ei_id inp) (ei_now inp) (WorkItem_job_type item)
                  (WorkItem_priority item) json_payload (sh_store sh) with
          | (Ok id, s) =>
              Some (goto (E_Push (WorkItem_priority item) id)
                      (st_with_shared (with_store s sh) st))
          | (Err e, s) =>
              let error := "enqueue failed: " +:+ VoomError_to_string e in
              Some (goto (E_Send (JobResult_failure (ei_error_id inp) error))
                      (st_with_shared
                         (count_outcome (JobOutcome_Failure error) (with_store s sh)) st))
          end
      end
  | E_Push priority id =>
      Some (goto (E_Record id)
              (st_with_heap
                 ({| HeapEntry_priority := priority; HeapEntry_seq := st_seq st;
                     HeapEntry_id := id |} :: st_heap st) (st_seq st + 1) st))
  | E_Record id =>
      Some (goto E_Recv (st_with_shared (report (on_jobs_extended 1) sh)
              (st_with_enqueued (id :: st_enqueued st) st)))
  | E_Send r => sh' ← stream_send r sh; Some (goto E_Recv (st_with_shared sh' st))
  | E_Finish => Some (st_with_enqueuer E_Done true st)
  | E_Done => None
  end.

(** After [run_claimed_job]: under the [Fail] strategy a worker stops when the
    counter of failures has grown. *)
Definition after_job (pre_failed : u64) (sh : Shared S) : WorkerPc :=
  if bool_decide (on_error = JobErrorStrategy_Fail) && (pre_failed <? sh_failed sh)%N
  then W_Exit else W_Loop.

(** A worker task. *)
Definition worker_step (w : Worker) (inp : TaskInput) st : option (WorkerPc * Stream S P) :=
  let sh := st_shared st in
  match Worker_pc w with
  | W_Start => Some (if sh_token sh then W_Exit else W_Waiting, st)
  | W_Waiting => if sh_token sh then Some (W_Exit, st) else None
  | W_Loop =>
      if sh_token sh then Some (W_Exit, st)
      else
        match heap_pop (st_heap st) with
        | Some (e, rest) => Some (W_Claim (HeapEntry_id e), st_with_heap rest (st_seq st) st)
        | None => Some (W_Empty, st)
        end
  | W_Empty =>
      Some (if st_producer_done st && bool_decide (st_heap st = []) then W_Exit else W_Loop, st)
  | W_Claim id =>
      match in_join_error inp with
      | Some _ => Some (W_Loop, st_with_missed (id :: st_missed st) st)
      | None =>
          let '(r, s) := JobQueue_claim_by_id (in_now inp) id (Worker_id w) (sh_store sh) in
          let st := st_with_shared (with_store s sh) st in
          Some (match r with
                | Ok (Some j) => (W_Claimed j, st)
                | Ok None | Err _ => (W_Loop, st_with_missed (id :: st_missed st) st)
                end)
      end
  | W_Claimed j => Some (W_Job (sh_failed sh) (Job_id j) (T_Recheck j), st)
  | W_Job pre_failed job_id T_Done => Some (after_job pre_failed sh, st)
  | W_Job pre_failed job_id T_Panicked => Some (W_Panicked job_id, st)
  | W_Job pre_failed job_id pc =>
      '(pc', sh') ← task_step on_error capacity job_id (Worker_id w) inp pc sh;
      Some (W_Job pre_failed job_id pc', st_with_shared sh' st)
  | W_Exit | W_Panicked _ => None
  end.

(** [collect_unstarted_enqueued_ids] *)
Definition collect_unstarted_enqueued_ids (enqueued : list Uuid) (s : S) : list Uuid * S :=
  match JobQueue_list_jobs {| JobFilters_status := Some JobStatus_Pending;
                              JobFilters_limit := None; JobFilters_offset := None |} s with
  | (Ok pending, s) =>
      (List.filter (λ id, bool_decide (id ∈ enqueued)) (map Job_id pending), s)
  | (Err _, s) => ([], s)
  end.

Definition stream_step (a : StreamAction S P) st : option (Stream S P) :=
  let sh := st_shared st in
  match a with
  | SA_Produce item inp =>
      if st_closed st then None
      else Some (st_with_items (st_items st ++ [(item, inp)]) false st)
  | SA_Close => Some (st_with_items (st_items st) true st)
  | SA_OpenGate =>
      Some (st_with_workers
              (map (λ w, match Worker_pc w with
                         | W_Waiting => {| Worker_id := Worker_id w; Worker_pc := W_Loop |}
                         | _ => w
                         end) (st_workers st)) st)
  | SA_Cancel => Some (st_with_shared (cancel_token sh) st)
  | SA_Other f => Some (st_with_shared (with_store (f (sh_store sh)) sh) st)
  | SA_Enqueuer => enqueuer_step st
  | SA_Worker i inp =>
      w ← st_workers st !! i;
      '(pc, st') ← worker_step w inp st;
      Some (st_with_workers
              (<[i := {| Worker_id := Worker_id w; Worker_pc := pc |}]> (st_workers st')) st')
  | SA_Collect =>
      match sh_channel sh with
      | r :: rs => Some (st_with_results (st_results st ++ [r]) (st_with_shared (with_channel rs sh) st))
      | [] => None
      end
  | SA_EndWorkers =>
      match st_main st, st_enqueuer st with
      | S_Running, E_Done =>
          if forallb Worker_ended (st_workers st) && bool_decide (sh_channel sh = []) then
            if sh_token sh then
              let '(leftover, s) := collect_unstarted_enqueued_ids (st_enqueued st) (sh_store sh) in
              Some (st_with_main (S_Sweep leftover)
                      (st_with_heap [] (st_seq st) (st_with_shared (with_store s sh) st)))
            else Some (st_with_main S_Report st)
          else None
      | _, _ => None
      end
  | SA_Sweep =>
      match st_main st with
      | S_Sweep (id :: ids) =>
          let '(r, s) := cancel_check id (sh_store sh) in
          Some (st_with_main (match r with Ok _ => S_SweepWrite id ids | Err _ => S_Sweep ids end)
                  (st_with_shared (with_store s sh) st))
      | _ => None
      end
  | SA_SweepWrite now =>
      match st_main st with
      | S_SweepWrite id ids =>
          Some (st_with_main (S_Sweep ids)
                  (st_with_shared (with_store (cancel_write now id (sh_store sh)).2 sh) st))
      | _ => None
      end
  | SA_EndSweep =>
      match st_main st with
      | S_Sweep [] => Some (st_with_main S_Report st)
      | _ => None
      end
  | SA_Report =>
      match st_main st with
      | S_Report =>
          Some (st_with_main S_Finished
                  (st_with_shared
                     (report (on_batch_complete (sh_completed sh) (sh_failed sh)) sh) st))
      | _ => None
      end
  end.

Fixpoint stream_run (l : list (StreamAction S P)) st : option (Stream S P) :=
  match l with
  | [] => Some st
  | a :: l => st' ← stream_step a st; stream_run l st'
  end.
End stream.

(** The start of [process_stream]: workers are numbered by [worker_ids]. *)
Definition process_stream {S P} (worker_ids : list string) (sh : Shared S) : Stream S P :=
  Build_Stream (with_channel [] sh) [] false E_Recv false [] [] 0
    (map (λ w, {| Worker_id := w; Worker_pc := W_Start |}) worker_ids) [] [] S_Running.

(** [effective_workers.max(1) * 4] *)
Definition stream_capacity (effective_workers : nat) : nat := Nat.max effective_workers 1 * 4.
