(* ===== verification/WorkerStreamFacts.v ===== *)
(** * Facts about the streaming pool

    The order of the heap, and the accounts of a stream: what becomes of every
    identifier that was enqueued. *)
From S2P Require Import Prelude Json Media Plan Compiled CapabilityMap Jobs Events Kernel.
From S2P Require Import JobQueue WorkerPool WorkerPoolFacts WorkerStream.

(** ** The heap *)
Lemma heap_leb_total a b : heap_leb a b = true ∨ heap_leb b a = true.
Proof.
  unfold heap_leb. rewrite !orb_true_iff, !andb_true_iff, !orb_true_iff, !andb_true_iff.
  rewrite !Z.ltb_lt, !Z.eqb_eq, !N.ltb_lt, !N.eqb_eq, !N.leb_le. lia.
Qed.

Lemma heap_leb_trans a b c : heap_leb a b = true → heap_leb b c = true → heap_leb a c = true.
Proof.
  unfold heap_leb. rewrite !orb_true_iff, !andb_true_iff, !orb_true_iff, !andb_true_iff.
  rewrite !Z.ltb_lt, !Z.eqb_eq, !N.ltb_lt, !N.eqb_eq, !N.leb_le. lia.
Qed.

(** [pop] takes a least entry and keeps the others. *)
Lemma heap_pop_spec h :
  match heap_pop h with
  | None => h = []
  | Some (e, rest) => h ≡ₚ e :: rest ∧ ∀ x, x ∈ h → heap_leb e x = true
  end.
Proof.
  induction h as [|x h IH]; [done|]. cbn. destruct (heap_pop h) as [[y rest]|].
  - destruct IH as [Hp Hmin]. destruct (heap_leb x y) eqn:Hxy.
    + split; [done|]. intros z [->|Hz]%elem_of_cons; [by destruct (heap_leb_total x x)|].
      by eapply heap_leb_trans, Hmin.
    + split; [by rewrite Hp; constructor|]. intros z [->|Hz]%elem_of_cons; [|by apply Hmin].
      destruct (heap_leb_total x y); congruence.
  - subst h. split; [done|]. intros z [->|Hz]%elem_of_cons; [by destruct (heap_leb_total x x)|].
    by apply elem_of_nil in Hz.
Qed.

(** ** Occurrences of identifiers *)
Definition occ (l : list Uuid) (x : Uuid) : nat := count_occ N.eq_dec l x.

Lemma occ_app l k x : occ (l ++ k) x = occ l x + occ k x.
Proof. apply count_occ_app. Qed.

Lemma occ_cons id l x : occ (id :: l) x = occ [id] x + occ l x.
Proof. apply (count_occ_app N.eq_dec [id] l). Qed.

Lemma occ_nil x : occ [] x = 0.
Proof. done. Qed.

Lemma occ_perm l k : (∀ x, occ l x = occ k x) ↔ l ≡ₚ k.
Proof. symmetry. apply (Permutation_count_occ N.eq_dec). Qed.

Lemma occ_Permutation l k x : l ≡ₚ k → occ l x = occ k x.
Proof. intros Hp. by apply occ_perm. Qed.

(** ** The accounts *)

(** The identifier a worker holds and has no result for. *)
Definition in_flight (w : Worker) : list Uuid :=
  match Worker_pc w with
  | W_Claim id | W_Panicked id => [id]
  | W_Claimed j => [Job_id j]
  | W_Job _ id (T_CancelToken | T_Done) => []
  | W_Job _ id _ => [id]
  | _ => []
  end.

Definition worker_counted (w : Worker) : list JobOutcome :=
  match Worker_pc w with W_Job _ _ (T_Send o _) => [o] | _ => [] end.

Definition enqueuer_counted {P} (pc : EnqueuerPc P) : list JobOutcome :=
  match pc with E_Send r => [JobResult_outcome r] | _ => [] end.

(** The identifier that is on the heap and not yet recorded. *)
Definition recording {P} (pc : EnqueuerPc P) : list Uuid :=
  match pc with E_Record id => [id] | _ => [] end.

Definition stream_counted {S P} (st : Stream S P) : list JobOutcome :=
  (JobResult_outcome <$> st_results st ++ sh_channel (st_shared st)) ++
  (st_workers st ≫= worker_counted) ++ enqueuer_counted (st_enqueuer st).

(** [F] are the results of items that could not be enqueued, [R] those of
    jobs, [L] the identifiers dropped with the heap after cancellation. *)
Record stream_inv {S P} (on_error : JobErrorStrategy) (sh0 : Shared S) (F R : list JobResult)
    (L : list Uuid) (st : Stream S P) : Prop := {
  si_results : st_results st ++ sh_channel (st_shared st) ≡ₚ F ++ R;
  si_failures : Forall (λ r, JobOutcome_is_failure (JobResult_outcome r) = true) F;
  si_sending : ∀ r, st_enqueuer st = E_Send r → JobOutcome_is_failure (JobResult_outcome r) = true;
  si_ids : ∀ x, occ (recording (st_enqueuer st) ++ st_enqueued st) x =
    occ (L ++ (HeapEntry_id <$> st_heap st) ++ (st_workers st ≫= in_flight) ++ st_missed st ++
         (JobResult_job_id <$> R)) x;
  si_left : L ≠ [] → sh_token (st_shared st) = true;
  si_counters : ∀ k, counter k (st_shared st) =
    (counter k sh0 + tally (is_kind k) (stream_counted st))%N;
  si_done : st_producer_done st = true → st_enqueuer st = E_Done;
  si_exit : ∀ w, w ∈ st_workers st → Worker_pc w = W_Exit →
    on_error = JobErrorStrategy_Fail ∨ sh_token (st_shared st) = true ∨
    (st_producer_done st = true ∧ st_heap st = []);
  si_ended : st_main st ≠ S_Running →
    st_enqueuer st = E_Done ∧ forallb Worker_ended (st_workers st) = true ∧
    sh_channel (st_shared st) = [];
}.

Section stream.
Context {S P : Type} `{JobStorage S} `{UuidText} (to_value : P → result string JValue).
Context (on_error : JobErrorStrategy) (capacity : nat) (sh0 : Shared S).
Implicit Type st : Stream S P.

Local Abbreviation inv := (stream_inv on_error sh0).

(** Steps that leave the accounts as they are *)
Lemma stream_frame F R L st st' :
  inv F R L st →
  st_results st' ++ sh_channel (st_shared st') = st_results st ++ sh_channel (st_shared st) →
  recording (st_enqueuer st') ++ st_enqueued st' = recording (st_enqueuer st) ++ st_enqueued st →
  st_heap st' = st_heap st → st_workers st' = st_workers st → st_missed st' = st_missed st →
  same_counters (st_shared st) (st_shared st') →
  enqueuer_counted (st_enqueuer st') = enqueuer_counted (st_enqueuer st) →
  (sh_token (st_shared st) = true → sh_token (st_shared st') = true) →
  (st_producer_done st = true → st_producer_done st' = true) →
  (st_producer_done st' = true → st_enqueuer st' = E_Done) →
  (∀ r, st_enqueuer st' = E_Send r → st_enqueuer st = E_Send r) →
  (st_main st' ≠ S_Running →
     st_enqueuer st' = E_Done ∧ forallb Worker_ended (st_workers st) = true ∧
     sh_channel (st_shared st') = []) →
  inv F R L st'.
Proof.
  intros [] Hr Hi Hh Hw Hm Hc He Ht Hp Hd Hs Hmn.
  split; unfold stream_counted in *; rewrite ?Hr, ?Hi, ?Hh, ?Hw, ?Hm, ?He; try done.
  - intros r Hr'. by apply si_sending0, Hs.
  - intros HL. by apply Ht, si_left0.
  - intros k. rewrite (Hc k), (si_counters0 k). done.
  - intros w Hin Hx. destruct (si_exit0 w Hin Hx) as [?|[?|[??]]]; auto.
Qed.

Ltac stream_frame_tac :=
  match goal with
  | Hinv : stream_inv _ _ ?F ?R ?L ?st |- _ =>
      exists F, R, L; apply (stream_frame F R L st); try done; try by intros []
  end.

Ltac sproj :=
  cbn [st_shared st_items st_closed st_enqueuer st_producer_done st_enqueued st_heap st_seq
       st_workers st_results st_missed st_main st_with_shared st_with_items st_with_enqueuer
       st_with_heap st_with_enqueued st_with_workers st_with_results st_with_missed st_with_main].

(** Replacing one worker *)
Lemma stream_worker F R R' L st l1 l2 w pc sh' heap' missed' results' :
  inv F R L st → st_workers st = l1 ++ w :: l2 → Worker_ended w = false →
  let w' := {| Worker_id := Worker_id w; Worker_pc := pc |} in
  results' ++ sh_channel sh' ≡ₚ F ++ R' →
  (∀ x, occ ((HeapEntry_id <$> st_heap st) ++ in_flight w ++ st_missed st ++
             (JobResult_job_id <$> R)) x =
        occ ((HeapEntry_id <$> heap') ++ in_flight w' ++ missed' ++ (JobResult_job_id <$> R')) x) →
  (∀ k, (counter k sh' + tally (is_kind k) ((JobResult_outcome <$> st_results st ++
           sh_channel (st_shared st)) ++ worker_counted w))%N =
        (counter k (st_shared st) + tally (is_kind k) ((JobResult_outcome <$> results' ++
           sh_channel sh') ++ worker_counted w'))%N) →
  (sh_token (st_shared st) = true → sh_token sh' = true) →
  (st_heap st = [] → heap' = []) →
  (pc = W_Exit → on_error = JobErrorStrategy_Fail ∨ sh_token sh' = true ∨
                 (st_producer_done st = true ∧ heap' = [])) →
  inv F R' L (Build_Stream sh' (st_items st) (st_closed st) (st_enqueuer st) (st_producer_done st)
                (st_enqueued st) heap' (st_seq st) (l1 ++ w' :: l2) results' missed' (st_main st)).
Proof.
  intros [Hres Hfl Hsend Hids Hleft Hc Hdone Hexit Hend] Hws Hwe w' Hres' Hocc Hcnt Htok Hheap Hpc.
  rewrite Hws in *. unfold stream_counted in *.
  split; unfold stream_counted; cbn [st_results st_shared st_enqueuer st_enqueued st_heap st_workers
    st_missed st_producer_done st_main]; try done.
  - intros x. rewrite Hids. specialize (Hocc x). rewrite !bind_app, !bind_cons.
    rewrite !occ_app in *. lia.
  - intros HL. by apply Htok, Hleft.
  - intros k. specialize (Hcnt k). specialize (Hc k). rewrite Hws in Hc.
    rewrite !bind_app, !bind_cons, !tally_app in *. lia.
  - intros v Hv Hx. apply elem_of_app in Hv as [Hv|[->|Hv]%elem_of_cons]; [|by apply Hpc|].
    + destruct (Hexit v) as [?|[?|[??]]]; auto. apply elem_of_app. by left.
    + destruct (Hexit v) as [?|[?|[??]]]; auto. apply elem_of_app. right. by right.
  - intros Hm. destruct (Hend Hm) as (_ & Hf & _). rewrite forallb_app in Hf.
    apply andb_true_iff in Hf as [_ Hf]. cbn in Hf. by rewrite Hwe in Hf.
Qed.

Lemma task_step_token id w inp pc sh pc' sh' :
  task_step on_error capacity id w inp pc sh = Some (pc', sh') →
  sh_token sh = true → sh_token sh' = true.
Proof.
  destruct pc; cbn [task_step]; intros Hstep Ht; try done.
  all: repeat (case_match; simplify_eq/=); simplify_eq/=; done.
Qed.

Definition task_of (w : Worker) (id : Uuid) (pc : TaskPc) : Task :=
  {| Task_job_id := id; Task_worker_id := Worker_id w; Task_pc := pc |}.

Lemma in_flight_job w pre id pc :
  in_flight {| Worker_id := Worker_id w; Worker_pc := W_Job pre id pc |} =
  if Task_sent (task_of w id pc) then [] else [id].
Proof. by destruct pc. Qed.

(** A worker at a job takes a step of the task. *)
Lemma worker_job_step F R L st l1 l2 w inp pre id pc pc' sh' :
  inv F R L st → st_workers st = l1 ++ w :: l2 → Worker_pc w = W_Job pre id pc →
  task_step on_error capacity id (Worker_id w) inp pc (st_shared st) = Some (pc', sh') →
  ∃ R', inv F R' L (st_with_workers (l1 ++ {| Worker_id := Worker_id w;
           Worker_pc := W_Job pre id pc' |} :: l2) (st_with_shared sh' st)).
Proof.
  intros Hinv Hws Hpc Hstep.
  pose proof (task_step_token _ _ _ _ _ _ _ Hstep) as Htok.
  apply (task_step_effect _ _ (task_of w id pc)) in Hstep as (_ & Heff & _).
  change (set_pc pc' (task_of w id pc)) with (task_of w id pc') in Heff.
  assert (Hfl : in_flight w = if Task_sent (task_of w id pc) then [] else [id]).
  { rewrite <-(in_flight_job w pre). destruct w; cbn in *. by rewrite Hpc. }
  assert (Hcn : worker_counted w = Task_counted (task_of w id pc)).
  { unfold worker_counted. rewrite Hpc. by destruct pc. }
  assert (Hcn' : worker_counted {| Worker_id := Worker_id w; Worker_pc := W_Job pre id pc' |} =
                 Task_counted (task_of w id pc')) by by destruct pc'.
  assert (Hend : Worker_ended w = false) by (unfold Worker_ended; by rewrite Hpc).
  pose proof (si_results _ _ _ _ _ _ Hinv) as Hres.
  destruct Heff as [HC HS Hch Hk|o HC HC' HS HS' Hch Hk|o HC HC' HS HS' Hlt Hch Hk].
  - exists R. apply (stream_worker F R R L st l1 l2 w); sproj; try done.
    + by rewrite Hch.
    + intros x. by rewrite Hfl, in_flight_job, HS.
    + intros k. rewrite Hcn, Hcn', HC, Hch, (Hk k). lia.
  - exists R. apply (stream_worker F R R L st l1 l2 w); sproj; try done.
    + by rewrite Hch.
    + intros x. by rewrite Hfl, in_flight_job, HS, HS'.
    + intros k. rewrite Hcn, Hcn', HC, HC', Hch, (Hk k), counter_count_outcome.
      rewrite !tally_app, tally_cons. unfold tally; cbn. lia.
  - exists (R ++ [{| JobResult_job_id := id; JobResult_outcome := o |}]).
    apply (stream_worker F R _ L st l1 l2 w); sproj; try done.
    + rewrite Hch, app_assoc, Hres. by rewrite <-app_assoc.
    + intros x. rewrite Hfl, in_flight_job, HS, HS', fmap_app, !occ_app. cbn [fmap list_fmap].
      rewrite occ_nil. cbn. lia.
    + intros k. rewrite Hcn, Hcn', HC, HC', Hch, (Hk k).
      rewrite !fmap_app, !tally_app, tally_cons. cbn. rewrite tally_cons. unfold tally; cbn. lia.
Qed.

(** A claim by identifier returns the job with that identifier. *)
Context (claim_id : ∀ now id w s j s',
  claim_job_by_id now id w s = (Ok (Some j), s') → Job_id j = id).

(** A worker that changes nothing but its own state and what it holds *)
Lemma worker_moves F R L st l1 l2 w pc heap' missed' sh' :
  inv F R L st → st_workers st = l1 ++ w :: l2 → Worker_ended w = false →
  let w' := {| Worker_id := Worker_id w; Worker_pc := pc |} in
  sh_channel sh' = sh_channel (st_shared st) → same_counters (st_shared st) sh' →
  sh_token sh' = sh_token (st_shared st) →
  worker_counted w = [] → worker_counted w' = [] →
  (∀ x, occ ((HeapEntry_id <$> st_heap st) ++ in_flight w ++ st_missed st) x =
        occ ((HeapEntry_id <$> heap') ++ in_flight w' ++ missed') x) →
  (st_heap st = [] → heap' = []) →
  (pc = W_Exit → on_error = JobErrorStrategy_Fail ∨ sh_token sh' = true ∨
                 (st_producer_done st = true ∧ heap' = [])) →
  ∃ R', inv F R' L (Build_Stream sh' (st_items st) (st_closed st) (st_enqueuer st)
    (st_producer_done st) (st_enqueued st) heap' (st_seq st) (l1 ++ w' :: l2) (st_results st)
    missed' (st_main st)).
Proof.
  intros Hinv Hws Hend w' Hch Hk Ht Hc Hc' Hocc Hheap Hpc.
  exists R. apply (stream_worker F R R L st l1 l2 w); sproj; try done.
  - rewrite Hch. apply (si_results _ _ _ _ _ _ Hinv).
  - intros x. fold w'. specialize (Hocc x). rewrite !occ_app in *. lia.
  - intros k. fold w'. rewrite Hc, Hc', Hch, (Hk k). lia.
  - congruence.
Qed.

Ltac moves F R L st l1 l2 w Hfl :=
  eapply (worker_moves F R L st l1 l2 w); try done; try (by rewrite Hfl); try (by intros []);
  try (by auto).

Lemma worker_step_workers w inp st pc st' :
  worker_step on_error capacity w inp st = Some (pc, st') → st_workers st' = st_workers st.
Proof.
  unfold worker_step. intros Hstep.
  repeat (case_match; simplify_eq/=); simplify_eq/=; try done.
  all: destruct (task_step _ _ _ _ _ _ _) as [[]|]; by simplify_eq/=.
Qed.

Lemma worker_step_inv F R L st l1 l2 w inp pc st' :
  inv F R L st → st_workers st = l1 ++ w :: l2 → worker_step on_error capacity w inp st = Some (pc, st') →
  ∃ R', inv F R' L
    (st_with_workers (l1 ++ {| Worker_id := Worker_id w; Worker_pc := pc |} :: l2) st').
Proof.
  intros Hinv Hws Hstep. unfold worker_step in Hstep.
  assert (Hfl : in_flight w = in_flight {| Worker_id := Worker_id w; Worker_pc := Worker_pc w |})
    by by destruct w.
  destruct (Worker_pc w) as [| | | |id|j|pre id tpc| |id] eqn:Hpc; try done.
  1-6: assert (Hend : Worker_ended w = false) by (unfold Worker_ended; by rewrite Hpc).
  1-6: assert (Hcn : worker_counted w = []) by (unfold worker_counted; by rewrite Hpc).
  - injection Hstep as <- <-. destruct (sh_token (st_shared st)) eqn:Ht; moves F R L st l1 l2 w Hfl.
  - destruct (sh_token (st_shared st)) eqn:Ht; [|done]. injection Hstep as <- <-.
    moves F R L st l1 l2 w Hfl.
  - destruct (sh_token (st_shared st)) eqn:Ht.
    { injection Hstep as <- <-. moves F R L st l1 l2 w Hfl. }
    pose proof (heap_pop_spec (st_heap st)) as Hp.
    destruct (heap_pop (st_heap st)) as [[e rest]|]; injection Hstep as <- <-;
      [destruct Hp as [Hp _]|]; moves F R L st l1 l2 w Hfl.
    + intros x. apply occ_Permutation. rewrite Hfl, Hp.
      sproj. cbn [in_flight Worker_pc app]. rewrite fmap_cons. cbn [app]. apply Permutation_middle.
    + intros Hnil. rewrite Hnil in Hp. by apply Permutation_nil_cons in Hp.
  - injection Hstep as <- <-.
    destruct (st_producer_done st && bool_decide (st_heap st = [])) eqn:Hd; [|moves F R L st l1 l2 w Hfl].
    apply andb_true_iff in Hd as [Hd1 Hd2%bool_decide_eq_true]. moves F R L st l1 l2 w Hfl.
  - assert (Hmiss : ∀ x, occ ((HeapEntry_id <$> st_heap st) ++ in_flight w ++ st_missed st) x =
      occ ((HeapEntry_id <$> st_heap st) ++
           in_flight {| Worker_id := Worker_id w; Worker_pc := W_Loop |} ++ id :: st_missed st) x).
    { intros x. by rewrite Hfl. }
    destruct (in_join_error inp).
    { injection Hstep as <- <-. moves F R L st l1 l2 w Hfl. }
    unfold JobQueue_claim_by_id in Hstep.
    destruct (claim_job_by_id _ _ _ _) as [[[j|]|e] s] eqn:Hcl; injection Hstep as <- <-;
      moves F R L st l1 l2 w Hfl.
    intros x. rewrite Hfl. cbn. by rewrite (claim_id _ _ _ _ _ _ Hcl).
  - injection Hstep as <- <-. moves F R L st l1 l2 w Hfl.
  - assert (Hend : Worker_ended w = false) by (unfold Worker_ended; by rewrite Hpc).
    assert (Hcn : tpc = T_Done ∨ tpc = T_Panicked → worker_counted w = []).
    { unfold worker_counted. rewrite Hpc. by intros [->| ->]. }
    destruct tpc.
    1-12: destruct (task_step _ _ _ _ _ _ _) as [[pc' sh']|] eqn:Ht in Hstep; [|done];
      injection Hstep as <- <-; by eapply worker_job_step.
    + injection Hstep as <- <-. unfold after_job.
      destruct (bool_decide _ && _) eqn:Hd; moves F R L st l1 l2 w Hfl.
      intros _. left. apply andb_true_iff in Hd as [Hd _]. by apply bool_decide_eq_true in Hd.
    + injection Hstep as <- <-. moves F R L st l1 l2 w Hfl.
Qed.

(** A failed item: counted, to be sent *)
Lemma enqueuer_fails F R L st r sh' d :
  inv F R L st → d = st_producer_done st → enqueuer_counted (st_enqueuer st) = [] → recording (st_enqueuer st) = [] →
  st_enqueuer st ≠ E_Done → JobOutcome_is_failure (JobResult_outcome r) = true →
  sh_channel sh' = sh_channel (st_shared st) → sh_token sh' = sh_token (st_shared st) →
  same_counters (count_outcome (JobResult_outcome r) (st_shared st)) sh' →
  inv F R L (st_with_enqueuer (E_Send r) d (st_with_shared sh' st)).
Proof.
  intros [Hres Hfl Hsend Hids Hleft Hc Hdone Hexit Hend] -> Hcn Hrec Hnd Hr Hch Ht Hk.
  split; unfold stream_counted in *; sproj; rewrite ?Hch, ?Ht; try done.
  - by intros ? [= <-].
  - intros x. rewrite <-Hids, Hrec. done.
  - intros k. rewrite (Hk k), counter_count_outcome, (Hc k), Hcn.
    rewrite !tally_app. cbn. rewrite tally_cons. unfold tally; cbn. lia.
  - intros Hp. by destruct (Hnd (Hdone Hp)).
  - intros Hm. by destruct (Hnd (proj1 (Hend Hm))).
Qed.

Ltac frames F R L st He :=
  apply (stream_frame F R L st); sproj; rewrite ?He; try done; try congruence; try (by intros []).

Ltac frames0 F R L st :=
  apply (stream_frame F R L st); sproj; try done; try congruence; try (by intros []).

Lemma enqueuer_step_inv F R L st st' :
  inv F R L st → enqueuer_step to_value capacity st = Some st' → ∃ F' R' L', inv F' R' L' st'.
Proof.
  intros Hinv Hstep. unfold enqueuer_step in Hstep.
  assert (Hnd : st_enqueuer st ≠ E_Done → st_producer_done st = false).
  { intros Hn. destruct (st_producer_done st) eqn:Hp; [|done].
    by destruct (Hn (si_done _ _ _ _ _ _ Hinv Hp)). }
  assert (Hrun : st_enqueuer st ≠ E_Done → st_main st = S_Running).
  { intros Hn. destruct (st_main st) eqn:Hm; try done; exfalso; apply Hn;
      by apply (si_ended _ _ _ _ _ _ Hinv); rewrite Hm. }
  destruct (st_enqueuer st) as [|item inp|pr id|id|r| |] eqn:He; try done.
  all: rewrite ?(Hnd ltac:(done)) in Hstep; specialize (Hnd ltac:(done)); specialize (Hrun ltac:(done)).
  - exists F, R, L.
    destruct (sh_token (st_shared st)) eqn:Ht; [|destruct (st_items st) as [|[item inp] items]].
    2: destruct (st_closed st); [|done].
    all: injection Hstep as <-; frames F R L st He.
  - destruct (try_opt _ _) as [payload|e].
    + destruct (JobQueue_enqueue _ _ _ _ _ _) as [[id|e] s]; injection Hstep as <-; exists F, R, L.
      * frames F R L st He.
      * apply enqueuer_fails; rewrite ?He; try done. by intros [].
    + injection Hstep as <-. exists F, R, L.
      apply enqueuer_fails; rewrite ?He; try done.
  - injection Hstep as <-. exists F, R, L.
    destruct Hinv as [Hres Hfl Hsend Hids Hleft Hc Hdone Hexit Hend]. unfold stream_counted in *.
    rewrite He in *.
    split; unfold stream_counted; sproj; try done; try congruence.
    + intros x. specialize (Hids x). cbn [recording] in *. rewrite fmap_cons. cbn [HeapEntry_id].
      rewrite !occ_app in *. rewrite (occ_cons id (HeapEntry_id <$> _)), occ_nil in *. lia.
    + intros w Hw Hx. destruct (Hexit w Hw Hx) as [?|[?|[??]]]; auto. congruence.
  - injection Hstep as <-. exists F, R, L.
    frames F R L st He.
  - destruct (stream_send _ _ _) as [sh'|] eqn:Hsd; [|done]; injection Hstep as <-.
    unfold stream_send in Hsd. case_bool_decide; [|done]. injection Hsd as <-.
    destruct Hinv as [Hres Hfl Hsend Hids Hleft Hc Hdone Hexit Hend]. unfold stream_counted in *.
    rewrite He in *. exists (F ++ [r]), R, L.
    split; unfold stream_counted; sproj; try done; try congruence.
    + cbn [sh_channel with_channel]. rewrite app_assoc, Hres, <-!app_assoc.
      by rewrite (Permutation_app_comm R).
    + apply Forall_app. split; [done|]. apply Forall_singleton. by apply Hsend.
    + intros k. replace (counter k (with_channel _ _)) with (counter k (st_shared st)) by by destruct k.
      rewrite (Hc k). cbn [sh_channel with_channel enqueuer_counted]. rewrite !fmap_app, !tally_app.
      change (JobResult_outcome <$> [r]) with [JobResult_outcome r].
      change (tally (is_kind k) []) with 0%N. lia.
    + intros w Hw Hx. destruct (Hexit w Hw Hx) as [?|[?|[??]]]; auto. congruence.
  - injection Hstep as <-. exists F, R, L.
    frames F R L st He.
Qed.

Definition open_gate (w : Worker) : Worker :=
  match Worker_pc w with
  | W_Waiting => {| Worker_id := Worker_id w; Worker_pc := W_Loop |}
  | _ => w
  end.

Lemma open_gate_accounts ws :
  map open_gate ws ≫= in_flight = ws ≫= in_flight ∧
  map open_gate ws ≫= worker_counted = ws ≫= worker_counted ∧
  forallb Worker_ended (map open_gate ws) = forallb Worker_ended ws.
Proof.
  induction ws as [|w ws (IH1 & IH2 & IH3)]; [done|]. cbn [map]. rewrite !bind_cons, IH1, IH2.
  cbn [forallb]. rewrite IH3.
  destruct w as [i pc]; destruct pc; split_and!; done.
Qed.

Lemma open_gate_inv F R L st : inv F R L st → inv F R L (st_with_workers (map open_gate (st_workers st)) st).
Proof.
  intros [Hres Hfl Hsend Hids Hleft Hc Hdone Hexit Hend].
  destruct (open_gate_accounts (st_workers st)) as (H1 & H2 & H3).
  split; unfold stream_counted in *; sproj; rewrite ?H1, ?H2, ?H3; try done.
  intros w Hw Hx. apply list_elem_of_In, in_map_iff in Hw as (v & <- & Hv).
  apply (Hexit v); [by apply list_elem_of_In|]. unfold open_gate in Hx.
  destruct (Worker_pc v) eqn:Hp; cbn in Hx; congruence.
Qed.

(** After cancellation the heap is dropped. *)
Lemma drop_heap_inv F R L st s' :
  inv F R L st → sh_token (st_shared st) = true → st_enqueuer st = E_Done →
  forallb Worker_ended (st_workers st) = true → sh_channel (st_shared st) = [] →
  ∀ m, inv F R (L ++ (HeapEntry_id <$> st_heap st))
    (st_with_main m (st_with_heap [] (st_seq st)
       (st_with_shared (with_store s' (st_shared st)) st))).
Proof.
  intros [Hres Hfl Hsend Hids Hleft Hc Hdone Hexit Hend] Ht He Hw Hch m.
  split; unfold stream_counted in *; sproj; try done.
  - intros x. rewrite Hids, !occ_app, fmap_nil, occ_nil. lia.
  - intros k. etrans; [|exact (Hc k)]. by destruct k.
  - intros w Hin Hx. right. by left.
Qed.

Lemma stream_step_inv F R L st a st' :
  inv F R L st → stream_step to_value on_error capacity a st = Some st' →
  ∃ F' R' L', inv F' R' L' st'.
Proof.
  intros Hinv Hstep.
  pose proof (si_done _ _ _ _ _ _ Hinv) as Hd. pose proof (si_ended _ _ _ _ _ _ Hinv) as Hmn.
  destruct a; cbn [stream_step] in Hstep.
  - destruct (st_closed st); [done|]. injection Hstep as <-. exists F, R, L. frames0 F R L st.
  - injection Hstep as <-. exists F, R, L. frames0 F R L st.
  - injection Hstep as <-. exists F, R, L. by apply open_gate_inv.
  - injection Hstep as <-. exists F, R, L. frames0 F R L st.
  - injection Hstep as <-. exists F, R, L. frames0 F R L st.
  - by eapply enqueuer_step_inv.
  - destruct (st_workers st !! i) as [w|] eqn:Hi; [|done]; cbn [mbind option_bind] in Hstep.
    destruct (worker_step _ _ _ _ _) as [[pc st1]|] eqn:Hw; [|done]; cbn in Hstep.
    injection Hstep as <-. rewrite (worker_step_workers _ _ _ _ _ Hw).
    destruct (lookup_split _ i w {| Worker_id := Worker_id w; Worker_pc := pc |} Hi)
      as (l1 & l2 & Hl & ->).
    destruct (worker_step_inv F R L st l1 l2 w inp pc st1 Hinv Hl Hw) as [R' HR']. by exists F, R', L.
  - destruct (sh_channel (st_shared st)) as [|r rs] eqn:Hch; [done|]. injection Hstep as <-.
    exists F, R, L. frames F R L st Hch.
    + by rewrite <-app_assoc.
    + intros Hm. destruct (Hmn Hm) as (_ & _ & Hc). congruence.
  - destruct (st_main st) eqn:Hm; try done. destruct (st_enqueuer st) eqn:He; try done.
    destruct (forallb _ _ && _) eqn:Hf; [|done].
    apply andb_true_iff in Hf as [Hf Hch%bool_decide_eq_true].
    destruct (sh_token (st_shared st)) eqn:Ht.
    + destruct (collect_unstarted_enqueued_ids _ _) as [left s]; injection Hstep as <-.
      eexists F, R, _. by apply drop_heap_inv.
    + injection Hstep as <-. exists F, R, L. frames F R L st He.
  - destruct (st_main st) as [|[|id ids]| | |] eqn:Hm; try done.
    destruct (cancel_check _ _) as [r s]; injection Hstep as <-. exists F, R, L.
    frames0 F R L st. intros _. by apply Hmn.
  - destruct (st_main st) eqn:Hm; try done. injection Hstep as <-. exists F, R, L.
    frames0 F R L st. intros _. by apply Hmn.
  - destruct (st_main st) as [|[|id ids]| | |] eqn:Hm; try done. injection Hstep as <-. exists F, R, L.
    frames0 F R L st. intros _. by apply Hmn.
  - destruct (st_main st) eqn:Hm; try done. injection Hstep as <-. exists F, R, L.
    frames0 F R L st. intros _. by apply Hmn.
Qed.

Lemma stream_run_inv l F R L st st' :
  inv F R L st → stream_run to_value on_error capacity l st = Some st' →
  ∃ F' R' L', inv F' R' L' st'.
Proof.
  revert F R L st. induction l as [|a l IH]; intros F R L st Hinv Hrun; cbn [stream_run] in Hrun.
  - injection Hrun as <-. by exists F, R, L.
  - destruct (stream_step _ _ _ a st) as [st1|] eqn:Hs; [|done]; cbn in Hrun.
    destruct (stream_step_inv F R L st a st1 Hinv Hs) as (F' & R' & L' & Hinv'). by eapply IH.
Qed.
End stream.

Lemma process_stream_inv {S P} on_error worker_ids (sh : Shared S) :
  stream_inv (P := P) on_error sh [] [] [] (process_stream worker_ids sh).
Proof.
  assert (Hws : ∀ w, w ∈ st_workers (process_stream (P := P) worker_ids sh) → Worker_pc w = W_Start).
  { intros w Hw. apply list_elem_of_In, in_map_iff in Hw as (i & <- & _). done. }
  assert (Hflat : ∀ B (f : Worker → list B) ws, (∀ w, w ∈ ws → f w = []) → ws ≫= f = []).
  { intros B f ws. induction ws as [|w ws IH]; intros Hf; [done|]. rewrite bind_cons, (Hf w) by by left.
    apply IH. intros v Hv. apply Hf. by right. }
  split; try done.
  - intros x. rewrite (Hflat _ in_flight); [done|]. intros w Hw. unfold in_flight. by rewrite (Hws w Hw).
  - intros k. unfold stream_counted. rewrite (Hflat _ worker_counted).
    + replace (counter k (st_shared _)) with (counter k sh) by by destruct k. unfold tally. cbn. lia.
    + intros w Hw. unfold worker_counted. by rewrite (Hws w Hw).
  - intros w Hw Hx. by rewrite (Hws w Hw) in Hx.
Qed.

(** ** When all workers have ended *)
Lemma ended_counted ws : forallb Worker_ended ws = true → ws ≫= worker_counted = [].
Proof.
  induction ws as [|w ws IH]; [done|]. cbn [forallb]. intros [Hw Hws]%andb_true_iff.
  rewrite bind_cons, IH by done. unfold Worker_ended in Hw. unfold worker_counted.
  by destruct (Worker_pc w).
Qed.

Lemma in_flight_panicked ws :
  forallb Worker_ended ws = true →
  Forall (λ id, ∃ w, w ∈ ws ∧ Worker_pc w = W_Panicked id) (ws ≫= in_flight).
Proof.
  intros Hws. apply Forall_forall. intros id Hid. apply list_elem_of_bind in Hid as (w & Hid & Hw).
  exists w. split; [done|]. rewrite forallb_forall in Hws.
  specialize (Hws w (proj1 (list_elem_of_In _ _) Hw)). unfold Worker_ended in Hws.
  unfold in_flight in Hid. destruct (Worker_pc w); try done.
  - by apply elem_of_nil in Hid.
  - by apply list_elem_of_singleton in Hid as ->.
Qed.

Lemma list_find_exit ws :
  forallb Worker_ended ws = true →
  (∃ w, w ∈ ws ∧ Worker_pc w = W_Exit) ∨ Forall (λ w, ∃ id, Worker_pc w = W_Panicked id) ws.
Proof.
  induction ws as [|w ws IH]; [by right|]. cbn [forallb]. intros [Hw Hws]%andb_true_iff.
  unfold Worker_ended in Hw. destruct (Worker_pc w) eqn:Hpc; try done.
  - left. exists w. split; [by left | done].
  - destruct (IH Hws) as [(v & Hv & Hx)|Hall]; [|right; constructor; eauto].
    left. exists v. split; [by right | done].
Qed.
