(* ===== verification/Process.v ===== *)
(** * Processes, files and paths

    What the executors need from the system: [crates/voom-process/src/lib.rs]
    (bounded capture of output, [run_with_timeout], quoting), and of
    [crates/voom-domain]: [temp_file.rs], [utils/sanitize.rs],
    [scan_session_mutations.rs] and the constructors of [ActionResult].

    A program runs over a [World]: the files, by path, the store that records
    mutations, and the list [w_faults] of the failures of the coming file
    operations. What a child process does is the parameter [Children]. Paths
    are those of Unix; two paths name the same file when they are equal, that
    is when they have the same components: links, [..] and the working directory
    are not resolved. *)
From S2P Require Import Prelude Plan.

(** ** Paths *)
Definition slash : ascii := ascii_of_nat 47.
Definition dot : ascii := ascii_of_nat 46.

Definition path_is_absolute (p : PathBuf) : bool :=
  match p with String c _ => bool_decide (c = slash) | EmptyString => false end.

(** [Path::components]: empty components and [.] are dropped, except a [.] at
    the start of a relative path. *)
Definition path_components (p : PathBuf) : list string :=
  let cs := split_slash "" p in
  let keep := List.filter (λ c, negb (bool_decide (c = "")) && negb (bool_decide (c = "."))) cs in
  match cs with
  | c :: _ => if bool_decide (c = ".") then "." :: keep else keep
  | [] => keep
  end.

(** The file a path names. *)
Abbreviation PathKey := (bool * list string)%type (only parsing).

Definition path_key (p : PathBuf) : PathKey := (path_is_absolute p, path_components p).

(** [PartialEq for Path] *)
Definition path_eqb (a b : PathBuf) : bool := bool_decide (path_key a = path_key b).

(** Trailing separators and [/.] of the reversed bytes of a path *)
Fixpoint trim_path_rev (l : list ascii) : list ascii :=
  match l with
  | [] => []
  | c :: l' =>
      if bool_decide (c = slash) then trim_path_rev l'
      else match l' with
           | d :: _ => if bool_decide (c = dot ∧ d = slash) then trim_path_rev l' else l
           | [] => l
           end
  end.

(** The last component of reversed bytes and what precedes it. *)
Fixpoint split_last_rev (acc l : list ascii) : list ascii * list ascii :=
  match l with
  | [] => (acc, [])
  | c :: l' => if bool_decide (c = slash) then (acc, l) else split_last_rev (c :: acc) l'
  end.

Definition bytes_rev (p : PathBuf) : list ascii := reverse (String.list_ascii_of_string p).

(** The bytes before the last component. *)
Definition path_prefix (p : PathBuf) : string :=
  of_bytes_rev (split_last_rev [] (trim_path_rev (bytes_rev p))).2.

(** [Path::parent] *)
Definition path_parent (p : PathBuf) : option PathBuf :=
  let '(name, rest) := split_last_rev [] (trim_path_rev (bytes_rev p)) in
  match name with
  | [] => None
  | _ :: _ =>
      let dir := of_bytes_rev (trim_path_rev rest) in
      Some (if bool_decide (dir = "") && path_is_absolute p then String slash "" else dir)
  end.

(** The name split at its last dot, if that is not its first byte. *)
Fixpoint split_last_dot (name : string) : option (string * string) :=
  match name with
  | EmptyString => None
  | String c s =>
      match split_last_dot s with
      | Some (a, b) => Some (String c a, b)
      | None => if bool_decide (c = dot) then Some ("", s) else None
      end
  end.

(** [Path::file_stem] and [Path::extension] *)
Definition path_file_stem (p : PathBuf) : option string :=
  name ← path_file_name p;
  match split_last_dot name with
  | Some (stem, _) => Some (if bool_decide (stem = "") then name else stem)
  | None => Some name
  end.

Definition path_extension (p : PathBuf) : option string :=
  name ← path_file_name p;
  '(stem, ext) ← split_last_dot name;
  if bool_decide (stem = "") then None else Some ext.

(** [PathBuf::set_extension] for a non-empty extension *)
Definition path_set_extension (p : PathBuf) (ext : string) : PathBuf :=
  match path_file_stem p with
  | None => p
  | Some stem => path_prefix p +:+ stem +:+ "." +:+ ext
  end.

(** [Path::join] for a relative path *)
Definition path_join (dir name : PathBuf) : PathBuf :=
  match bytes_rev dir with
  | [] => name
  | c :: _ => if bool_decide (c = slash) then dir +:+ name else dir +:+ String slash name
  end.

(** ** [temp_file.rs] *)
Definition TEMP_MARKER : string := ".voom_tmp_".

(** [to_str] gives [None] on names that are not UTF-8. [id] is the simple form
    of a new UUID. *)
Definition temp_path_with_ext (to_str : string → option string) (id : string) (original : PathBuf)
    (ext : string) : PathBuf :=
  let parent := default "." (path_parent original) in
  let stem := default "output" (path_file_stem original ≫= to_str) in
  path_join parent (stem +:+ TEMP_MARKER +:+ id +:+ "." +:+ ext).

Definition is_voom_temp (to_str : string → option string) (path : PathBuf) : bool :=
  match path_file_name path ≫= to_str with
  | Some name => str_contains TEMP_MARKER name
  | None => false
  end.

(** ** [sanitize.rs] *)
Definition is_control_byte (c : ascii) : bool :=
  let n := nat_of_ascii c in
  bool_decide (n < 32 ∧ n ≠ 9 ∧ n ≠ 10 ∧ n ≠ 13).

Fixpoint find_control (pos : nat) (s : string) : option (nat * ascii) :=
  match s with
  | EmptyString => None
  | String c s => if is_control_byte c then Some (pos, c) else find_control (S pos) s
  end.

Definition hex_digit (n : nat) : string :=
  default "" (["0"; "1"; "2"; "3"; "4"; "5"; "6"; "7"; "8"; "9"; "a"; "b"; "c"; "d"; "e"; "f"] !! n).

(** [{:02x}] of a byte *)
Definition fmt_hex_byte (c : ascii) : string :=
  let n := nat_of_ascii c in hex_digit (n / 16) +:+ hex_digit (n mod 16).

Definition validate_metadata_value (value : string) : result VoomError string :=
  match find_control 0 value with
  | Some (pos, c) =>
      Err (VoomError_Validation ("metadata value contains control character at byte "
             +:+ pretty pos +:+ ": 0x" +:+ fmt_hex_byte c))
  | None => Ok value
  end.

(** ** Output of child processes *)
Record BoundedCapture : Type := {
  BoundedCapture_output : string;
  BoundedCapture_truncated_bytes : N;
  BoundedCapture_max_bytes : N;
}.

Definition BoundedCapture_new (max_bytes : N) : BoundedCapture :=
  {| BoundedCapture_output := ""; BoundedCapture_truncated_bytes := 0;
     BoundedCapture_max_bytes := max_bytes |}.

Definition str_len (s : string) : N := N.of_nat (String.length s).

Definition BoundedCapture_push (c : BoundedCapture) (chunk : string) : BoundedCapture :=
  let remaining := (BoundedCapture_max_bytes c - str_len (BoundedCapture_output c))%N in
  let retained := N.min remaining (str_len chunk) in
  {| BoundedCapture_output :=
       BoundedCapture_output c +:+ String.substring 0 (N.to_nat retained) chunk;
     BoundedCapture_truncated_bytes :=
       (BoundedCapture_truncated_bytes c + (str_len chunk - retained))%N;
     BoundedCapture_max_bytes := BoundedCapture_max_bytes c |}.

Definition newline_str : string := String (ascii_of_nat 10) "".

Definition append_truncation_marker (buf : string) (truncated_bytes : N) : string :=
  if (truncated_bytes =? 0)%N then buf
  else
    let buf := if negb (bool_decide (buf = "")) && negb (ends_with newline_str buf)
               then buf +:+ newline_str else buf in
    buf +:+ "...[truncated " +:+ pretty truncated_bytes +:+ " bytes]".

Definition BoundedCapture_finish (c : BoundedCapture) : string :=
  append_truncation_marker (BoundedCapture_output c) (BoundedCapture_truncated_bytes c).

(** What reading a pipe to its end gives: the chunks in order, or an error. *)
Inductive PipeRead : Type :=
| Pipe_Chunks (chunks : list string)
| Pipe_Error (e : string)
| Pipe_Panicked (e : string).

Definition read_bounded (chunks : list string) (max_bytes : N) : string :=
  BoundedCapture_finish (foldl BoundedCapture_push (BoundedCapture_new max_bytes) chunks).

Definition DEFAULT_CAPTURE_LIMIT_BYTES : N := 1048576.

Definition join_pipe_reader (tool stream_name : string) (p : PipeRead) (max_bytes : N)
    : result VoomError string :=
  match p with
  | Pipe_Chunks chunks => Ok (read_bounded chunks max_bytes)
  | Pipe_Error e =>
      Err (VoomError_ToolExecution tool
             ("failed to capture " +:+ stream_name +:+ " from " +:+ tool +:+ ": " +:+ e))
  | Pipe_Panicked e =>
      Err (VoomError_ToolExecution tool
             ("capture thread for " +:+ stream_name +:+ " from " +:+ tool +:+ " panicked: " +:+ e))
  end.

(** A status is an exit code, or a signal with its text. *)
Inductive ExitStatus : Type :=
| ExitStatus_Code (code : i32)
| ExitStatus_Signal (display : string).

Definition ExitStatus_code (s : ExitStatus) : option i32 :=
  match s with ExitStatus_Code c => Some c | ExitStatus_Signal _ => None end.

Definition ExitStatus_success (s : ExitStatus) : bool :=
  bool_decide (ExitStatus_code s = Some 0%Z).

Definition ExitStatus_to_string (s : ExitStatus) : string :=
  match s with
  | ExitStatus_Code c => "exit status: " +:+ pretty c
  | ExitStatus_Signal d => d
  end.

Record Output : Type := {
  Output_status : ExitStatus;
  Output_stdout : string;
  Output_stderr : string;
}.

(** What becomes of a child process. *)
Inductive ChildOutcome : Type :=
| Child_NotFound
| Child_SpawnFailed (e : string)
| Child_Exited (status : ExitStatus) (stdout stderr : PipeRead)
| Child_TimedOut
| Child_WaitFailed (e : string).

Abbreviation Files := (gmap (bool * list string) string) (only parsing).

(** The programs that are started: outcome and files after a run. *)
Class Children := run_child : string → list string → Files → ChildOutcome * Files.

Definition child_result (tool : string) (timeout_secs : N) (o : ChildOutcome)
    : result VoomError Output :=
  match o with
  | Child_NotFound => Err (VoomError_ToolNotFound tool)
  | Child_SpawnFailed e =>
      Err (VoomError_ToolExecution tool ("failed to spawn " +:+ tool +:+ ": " +:+ e))
  | Child_Exited status stdout stderr =>
      out ← join_pipe_reader tool "stdout" stdout DEFAULT_CAPTURE_LIMIT_BYTES;
      err ← join_pipe_reader tool "stderr" stderr DEFAULT_CAPTURE_LIMIT_BYTES;
      Ok {| Output_status := status; Output_stdout := out; Output_stderr := err |}
  | Child_TimedOut =>
      Err (VoomError_ToolExecution tool
             (tool +:+ " timed out after " +:+ fmt_f64_1 (f64_of_N timeout_secs) +:+ "s"))
  | Child_WaitFailed e =>
      Err (VoomError_ToolExecution tool ("error waiting for " +:+ tool +:+ ": " +:+ e))
  end.

(** ** Quoting and the end of the error output *)
Definition shell_meta : list string :=
  dquote :: ((λ n, String (ascii_of_nat n) "") <$>
             [39; 92; 36; 96; 33; 35; 38; 124; 59; 40; 41; 123; 125; 91; 93; 60; 62; 63; 42; 126]).

Definition needs_quotes (s : string) : bool :=
  existsb (λ w, str_contains w s) (whitespace_list ++ shell_meta).

Definition squote : string := String (ascii_of_nat 39) "".

Definition shell_quote (s : string) : string :=
  squote +:+ str_replace squote (squote +:+ String (ascii_of_nat 92) "" +:+ squote +:+ squote) s
  +:+ squote.

Definition shell_quote_args (tool : string) (args : list string) : string :=
  str_join " "
    ((if needs_quotes tool then shell_quote tool else tool) ::
     ((λ s, if bool_decide (s = "") || needs_quotes s then shell_quote s else s) <$> args)).

(** [str::lines]: pieces ended by a line feed, without it and without a carriage
    return before it. *)
Definition strip_cr (l : list ascii) : list ascii :=
  match l with
  | c :: l' => if bool_decide (c = ascii_of_nat 13) then l' else l
  | [] => []
  end.

Fixpoint lines_go (cur : list ascii) (s : string) : list string :=
  match s with
  | EmptyString => match cur with [] => [] | _ => [of_bytes_rev cur] end
  | String c s =>
      if bool_decide (c = ascii_of_nat 10) then of_bytes_rev (strip_cr cur) :: lines_go [] s
      else lines_go (c :: cur) s
  end.

Definition str_lines (s : string) : list string := lines_go [] s.

Definition stderr_tail `{Unicode} (bytes : string) (max_lines : nat) : string :=
  let lines := List.filter (λ l, negb (bool_decide (l = ""))) (str_lines (to_string_lossy bytes)) in
  str_join newline_str (drop (length lines - max_lines) lines).

(** ** Mutations of files by a scan session: [scan_session_mutations.rs] *)
Inductive MutationKind : Type :=
| MutationKind_Overwrite
| MutationKind_Rename
| MutationKind_ContainerConversion
| MutationKind_NewOutput.

Record VoomOriginatedMutation : Type := {
  Mutation_session : Uuid;
  Mutation_path : PathBuf;
  Mutation_original : option PathBuf;
  Mutation_kind : MutationKind;
  Mutation_recorded_at : DateTime;
}.

(** The method of [ScanSessionMutationStorage] that executors call. *)
Class MutationStorage (S : Type) :=
  record_voom_mutation : VoomOriginatedMutation → S → result VoomError unit * S.

(** ** Programs *)
Record World (S : Type) : Type := {
  w_files : Files;
  w_store : S;
  w_faults : list (option string);
}.
Arguments w_files {S} _.
Arguments w_store {S} _.
Arguments w_faults {S} _.
Arguments Build_World {S} _ _ _.

Definition Io (S A : Type) : Type := World S → result VoomError A * World S.

(** What a write that fails leaves in the file: [None] if the file was not even
    opened. *)
Class TornWrite := torn : string → string → option string.

Section io.
Context {S : Type}.

Definition io_ret {A} (a : A) : Io S A := λ w, (Ok a, w).

Definition io_err {A} (e : VoomError) : Io S A := λ w, (Err e, w).

Definition io_bind {A B} (m : Io S A) (f : A → Io S B) : Io S B := λ w,
  match m w with
  | (Ok a, w') => f a w'
  | (Err e, w') => (Err e, w')
  end.

Definition io_lift {A} (r : result VoomError A) : Io S A := λ w, (r, w).

(** [path.exists()] *)
Definition fs_exists (p : PathBuf) (w : World S) : bool :=
  bool_decide (is_Some (w_files w !! path_key p)).

(** A file operation, which fails if the next fault says so. *)
Definition fs_call (f : Files → result string Files) (w : World S) : result string unit * World S :=
  match w_faults w with
  | Some e :: fs => (Err e, Build_World (w_files w) (w_store w) fs)
  | fs =>
      match f (w_files w) with
      | Ok files => (Ok tt, Build_World files (w_store w) (tail fs))
      | Err e => (Err e, Build_World (w_files w) (w_store w) (tail fs))
      end
  end.

Definition no_such_file : string := "No such file or directory (os error 2)".

(** [fs::rename], which replaces an existing file *)
Definition fs_rename (src dst : PathBuf) : World S → result string unit * World S :=
  fs_call (λ files,
    match files !! path_key src with
    | Some content => Ok (<[path_key dst := content]> (delete (path_key src) files))
    | None => Err no_such_file
    end).

Definition fs_remove (p : PathBuf) : World S → result string unit * World S :=
  fs_call (λ files,
    if bool_decide (is_Some (files !! path_key p)) then Ok (delete (path_key p) files)
    else Err no_such_file).

(** An operation that only reads files. *)
Definition fs_query {A} (f : Files → result string A) (w : World S) : result string A * World S :=
  match w_faults w with
  | Some e :: fs => (Err e, Build_World (w_files w) (w_store w) fs)
  | fs => (f (w_files w), Build_World (w_files w) (w_store w) (tail fs))
  end.

(** [fs::copy]: the destination is opened, truncated and written. *)
Definition fs_copy `{TornWrite} (src dst : PathBuf) (w : World S) : result string unit * World S :=
  let put c fs := Build_World (<[path_key dst := c]> (w_files w)) (w_store w) fs in
  match w_files w !! path_key src, w_faults w with
  | None, fs => (Err no_such_file, Build_World (w_files w) (w_store w) (tail fs))
  | Some content, Some e :: fs =>
      (Err e, match torn e content with
              | Some c => put c fs
              | None => Build_World (w_files w) (w_store w) fs
              end)
  | Some content, fs =>
      (Ok tt, put (if bool_decide (path_key src = path_key dst) then "" else content) (tail fs))
  end.

(** [let _ = fs::remove_file(p)] *)
Definition remove_quietly (p : PathBuf) (w : World S) : World S := (fs_remove p w).2.

(** A [scopeguard] that removes the temporary file, around [body], which says
    in addition whether it has defused the guard. *)
Definition with_temp_guard {A} (temp : PathBuf) (body : Io S (A * bool)) : Io S A := λ w,
  match body w with
  | (Ok (a, true), w') => (Ok a, w')
  | (Ok (a, false), w') => (Ok a, remove_quietly temp w')
  | (Err e, w') => (Err e, remove_quietly temp w')
  end.

Definition run_with_timeout `{Children} (tool : string) (args : list string) (timeout_secs : N)
    : Io S Output := λ w,
  let '(o, files) := run_child tool args (w_files w) in
  (child_result tool timeout_secs o, Build_World files (w_store w) (w_faults w)).

(** [probe_tool_status] *)
Definition probe_tool_status `{Children} (tool : string) (args : list string) (timeout_secs : N)
    (w : World S) : bool * World S :=
  match run_with_timeout tool args timeout_secs w with
  | (Ok o, w') => (ExitStatus_success (Output_status o), w')
  | (Err _, w') => (false, w')
  end.

(** [record_mutation_for_pending_write]: [has_store] tells whether the executor
    has a storage handle. *)
Definition record_mutation_for_pending_write `{MutationStorage S} `{Unicode} (has_store : bool)
    (now : DateTime) (scan_session : option Uuid) (plan_source dest : PathBuf) : Io S unit := λ w,
  match scan_session with
  | None => (Ok tt, w)
  | Some session =>
      if negb has_store then (Ok tt, w)
      else
        let kind :=
          if path_eqb dest plan_source then MutationKind_Overwrite
          else if bool_decide (path_extension dest ≠ path_extension plan_source)
          then MutationKind_ContainerConversion else MutationKind_Rename in
        let m := {| Mutation_session := session;
                    Mutation_path := dest;
                    Mutation_original :=
                      if path_eqb dest plan_source then None else Some plan_source;
                    Mutation_kind := kind;
                    Mutation_recorded_at := now |} in
        let '(r, s) := record_voom_mutation m (w_store w) in
        (match r with
         | Ok _ => Ok tt
         | Err e =>
             Err (VoomError_ToolExecution "voom-executor"
               ("failed to record VOOM mutation for " +:+ to_string_lossy dest +:+ ": "
                +:+ VoomError_to_string e
                +:+ "; refusing to perform filesystem write to avoid scanner race"))
         end, Build_World (w_files w) s (w_faults w))
  end.
End io.

(** ** Results of actions *)
Definition ActionResult_new_success (operation : OperationType) (description : string)
    : ActionResult :=
  {| ActionResult_operation := operation; ActionResult_success := true;
     ActionResult_description := description; ActionResult_error := None;
     ActionResult_execution_detail := None |}.

Definition ActionResult_new_failure (operation : OperationType) (description error : string)
    : ActionResult :=
  {| ActionResult_operation := operation; ActionResult_success := false;
     ActionResult_description := description; ActionResult_error := Some error;
     ActionResult_execution_detail := None |}.

Definition ActionResult_with_execution_detail (r : ActionResult) (detail : ExecutionDetail)
    : ActionResult :=
  {| ActionResult_operation := ActionResult_operation r;
     ActionResult_success := ActionResult_success r;
     ActionResult_description := ActionResult_description r;
     ActionResult_error := ActionResult_error r;
     ActionResult_execution_detail := Some detail |}.
