(* ===== verification/Transitions.v ===== *)
(** * Transitions of files and scan sessions

    [crates/voom-domain/src/transition.rs], [snapshot.rs], [bad_file.rs] and the
    outcome of [stats.rs]. *)
From S2P Require Import Prelude Json Media Plan Jobs Events Process.

(** ** Transitions *)
Inductive TransitionSource : Type :=
| TransitionSource_Discovery
| TransitionSource_Voom
| TransitionSource_External
| TransitionSource_Unknown.

#[export] Instance TransitionSource_eq_dec : EqDecision TransitionSource.
Proof. solve_decision. Defined.

Definition TransitionSource_as_str (s : TransitionSource) : string :=
  match s with
  | TransitionSource_Discovery => "discovery"
  | TransitionSource_Voom => "voom"
  | TransitionSource_External => "external"
  | TransitionSource_Unknown => "unknown"
  end.

Definition TransitionSource_parse (s : string) : option TransitionSource :=
  if bool_decide (s = "discovery") then Some TransitionSource_Discovery
  else if bool_decide (s = "voom") then Some TransitionSource_Voom
  else if bool_decide (s = "external") then Some TransitionSource_External
  else if bool_decide (s = "unknown") then Some TransitionSource_Unknown
  else None.

Inductive ProcessingOutcome : Type :=
| ProcessingOutcome_Success
| ProcessingOutcome_Failure
| ProcessingOutcome_Skipped.

Definition ProcessingOutcome_as_str (o : ProcessingOutcome) : string :=
  match o with
  | ProcessingOutcome_Success => "success"
  | ProcessingOutcome_Failure => "failure"
  | ProcessingOutcome_Skipped => "skipped"
  end.

Definition ProcessingOutcome_parse (s : string) : option ProcessingOutcome :=
  if str_in ["success"; "completed"] s then Some ProcessingOutcome_Success
  else if str_in ["failure"; "failed"] s then Some ProcessingOutcome_Failure
  else if bool_decide (s = "skipped") then Some ProcessingOutcome_Skipped
  else None.

Record MetadataSnapshot : Type := {
  MetadataSnapshot_container : string;
  MetadataSnapshot_video_tracks : u32;
  MetadataSnapshot_audio_tracks : u32;
  MetadataSnapshot_subtitle_tracks : u32;
  MetadataSnapshot_codecs : list string;
  MetadataSnapshot_resolution : option string;
  MetadataSnapshot_duration_secs : f64;
}.

(** [Vec::dedup] *)
Fixpoint dedup (l : list string) : list string :=
  match l with
  | a :: l' =>
      match dedup l' with
      | b :: _ as r => if bool_decide (a = b) then r else a :: r
      | [] => [a]
      end
  | [] => []
  end.

(** [u32::try_from(n).unwrap_or(u32::MAX)] *)
Definition len_u32 {A} (l : list A) : u32 := N.min u32_MAX (N.of_nat (length l)).

Definition str_le (a b : string) : Prop := str_leb a b = true.

#[export] Instance str_le_dec a b : Decision (str_le a b) := decide (str_leb a b = true).

Definition MetadataSnapshot_from_media_file (file : MediaFile) : MetadataSnapshot := {|
  MetadataSnapshot_container := Container_as_str (MediaFile_container file);
  MetadataSnapshot_video_tracks := len_u32 (MediaFile_video_tracks file);
  MetadataSnapshot_audio_tracks := len_u32 (MediaFile_audio_tracks file);
  MetadataSnapshot_subtitle_tracks := len_u32 (MediaFile_subtitle_tracks file);
  MetadataSnapshot_codecs :=
    dedup (merge_sort str_le
      (List.filter (λ c, negb (bool_decide (c = "")))
         ((λ t, str_trim (Track_codec t)) <$> MediaFile_tracks file)));
  MetadataSnapshot_resolution :=
    match head (MediaFile_video_tracks file) with
    | Some t =>
        match Track_width t, Track_height t with
        | Some w, Some h => Some (pretty w +:+ "x" +:+ pretty h)
        | _, _ => None
        end
    | None => None
    end;
  MetadataSnapshot_duration_secs :=
    if f64_is_finite (MediaFile_duration file) then MediaFile_duration file else f64_of_Z 0;
|}.

(** [MetadataSnapshot::to_json] and [from_json], which [serde_json] implements *)
Class SnapshotJson := {
  snapshot_to_json : MetadataSnapshot → result string string;
  snapshot_from_json : string → result string MetadataSnapshot;
}.

Record FileTransition : Type := {
  FileTransition_id : Uuid;
  FileTransition_file_id : Uuid;
  FileTransition_path : PathBuf;
  FileTransition_from_path : option PathBuf;
  FileTransition_from_hash : option string;
  FileTransition_to_hash : string;
  FileTransition_from_size : option u64;
  FileTransition_to_size : u64;
  FileTransition_source : TransitionSource;
  FileTransition_source_detail : option string;
  FileTransition_plan_id : option Uuid;
  FileTransition_created_at : DateTime;
  FileTransition_duration_ms : option u64;
  FileTransition_actions_taken : option u32;
  FileTransition_tracks_modified : option u32;
  FileTransition_outcome : option ProcessingOutcome;
  FileTransition_policy_name : option string;
  FileTransition_phase_name : option string;
  FileTransition_metadata_snapshot : option MetadataSnapshot;
  FileTransition_error_message : option string;
  FileTransition_session_id : option Uuid;
}.

(** [id] is [Uuid::new_v4()] and [now] is [Utc::now()]. *)
Definition FileTransition_new (id : Uuid) (now : DateTime) (file_id : Uuid) (path : PathBuf)
    (to_hash : string) (to_size : u64) (source : TransitionSource) : FileTransition := {|
  FileTransition_id := id;
  FileTransition_file_id := file_id;
  FileTransition_path := path;
  FileTransition_from_path := None;
  FileTransition_from_hash := None;
  FileTransition_to_hash := to_hash;
  FileTransition_from_size := None;
  FileTransition_to_size := to_size;
  FileTransition_source := source;
  FileTransition_source_detail := None;
  FileTransition_plan_id := None;
  FileTransition_created_at := now;
  FileTransition_duration_ms := None;
  FileTransition_actions_taken := None;
  FileTransition_tracks_modified := None;
  FileTransition_outcome := None;
  FileTransition_policy_name := None;
  FileTransition_phase_name := None;
  FileTransition_metadata_snapshot := None;
  FileTransition_error_message := None;
  FileTransition_session_id := None;
|}.

Definition FileTransition_with_from (t : FileTransition) (hash : option string)
    (size : option u64) : FileTransition := {|
  FileTransition_id := FileTransition_id t;
  FileTransition_file_id := FileTransition_file_id t;
  FileTransition_path := FileTransition_path t;
  FileTransition_from_path := FileTransition_from_path t;
  FileTransition_from_hash := hash;
  FileTransition_to_hash := FileTransition_to_hash t;
  FileTransition_from_size := size;
  FileTransition_to_size := FileTransition_to_size t;
  FileTransition_source := FileTransition_source t;
  FileTransition_source_detail := FileTransition_source_detail t;
  FileTransition_plan_id := FileTransition_plan_id t;
  FileTransition_created_at := FileTransition_created_at t;
  FileTransition_duration_ms := FileTransition_duration_ms t;
  FileTransition_actions_taken := FileTransition_actions_taken t;
  FileTransition_tracks_modified := FileTransition_tracks_modified t;
  FileTransition_outcome := FileTransition_outcome t;
  FileTransition_policy_name := FileTransition_policy_name t;
  FileTransition_phase_name := FileTransition_phase_name t;
  FileTransition_metadata_snapshot := FileTransition_metadata_snapshot t;
  FileTransition_error_message := FileTransition_error_message t;
  FileTransition_session_id := FileTransition_session_id t;
|}.

(** [with_from_path(path).with_detail(detail)], the two setters that moves use
    together *)
Definition FileTransition_with_move (t : FileTransition) (path : PathBuf) (detail : string)
    : FileTransition := {|
  FileTransition_id := FileTransition_id t;
  FileTransition_file_id := FileTransition_file_id t;
  FileTransition_path := FileTransition_path t;
  FileTransition_from_path := Some path;
  FileTransition_from_hash := FileTransition_from_hash t;
  FileTransition_to_hash := FileTransition_to_hash t;
  FileTransition_from_size := FileTransition_from_size t;
  FileTransition_to_size := FileTransition_to_size t;
  FileTransition_source := FileTransition_source t;
  FileTransition_source_detail := Some detail;
  FileTransition_plan_id := FileTransition_plan_id t;
  FileTransition_created_at := FileTransition_created_at t;
  FileTransition_duration_ms := FileTransition_duration_ms t;
  FileTransition_actions_taken := FileTransition_actions_taken t;
  FileTransition_tracks_modified := FileTransition_tracks_modified t;
  FileTransition_outcome := FileTransition_outcome t;
  FileTransition_policy_name := FileTransition_policy_name t;
  FileTransition_phase_name := FileTransition_phase_name t;
  FileTransition_metadata_snapshot := FileTransition_metadata_snapshot t;
  FileTransition_error_message := FileTransition_error_message t;
  FileTransition_session_id := FileTransition_session_id t;
|}.

(** ** Scans *)
Record DiscoveredFile : Type := {
  DiscoveredFile_path : PathBuf;
  DiscoveredFile_size : u64;
  DiscoveredFile_content_hash : string;
}.

Record ReconcileResult : Type := {
  ReconcileResult_new_files : u32;
  ReconcileResult_unchanged : u32;
  ReconcileResult_moved : u32;
  ReconcileResult_external_changes : u32;
  ReconcileResult_missing : u32;
  ReconcileResult_needs_introspection : list PathBuf;
}.

Definition ReconcileResult_default : ReconcileResult := Build_ReconcileResult 0 0 0 0 0 [].

Record ScanFinishOutcome : Type := {
  ScanFinishOutcome_missing : u32;
  ScanFinishOutcome_promoted_moves : u32;
}.

(** [ScanSessionId] is a newtype around a UUID. *)
Abbreviation ScanSessionId := Uuid (only parsing).

Definition STALE_SESSION_SECS : Z := 60.

(** The components of a path, the root directory included. *)
Definition path_all_components (p : PathBuf) : list string :=
  (if path_is_absolute p then ["/"] else []) ++ path_components p.

(** [Path::starts_with] *)
Definition path_starts_with (p root : PathBuf) : bool :=
  bool_decide (path_all_components root `prefix_of` path_all_components p).

Definition is_under_any (path : PathBuf) (roots : list PathBuf) : bool :=
  existsb (path_starts_with path) roots.

Inductive ScanSessionStatus : Type :=
| ScanSessionStatus_InProgress
| ScanSessionStatus_Completed
| ScanSessionStatus_Cancelled.

#[export] Instance ScanSessionStatus_eq_dec : EqDecision ScanSessionStatus.
Proof. solve_decision. Defined.

Definition ScanSessionStatus_as_str (s : ScanSessionStatus) : string :=
  match s with
  | ScanSessionStatus_InProgress => "in_progress"
  | ScanSessionStatus_Completed => "completed"
  | ScanSessionStatus_Cancelled => "cancelled"
  end.

Definition ScanSessionStatus_parse (s : string) : option ScanSessionStatus :=
  if bool_decide (s = "in_progress") then Some ScanSessionStatus_InProgress
  else if bool_decide (s = "completed") then Some ScanSessionStatus_Completed
  else if bool_decide (s = "cancelled") then Some ScanSessionStatus_Cancelled
  else None.

Inductive IngestDecision : Type :=
| IngestDecision_New (file_id : Uuid) (needs_introspection : bool)
| IngestDecision_Unchanged (file_id : Uuid)
| IngestDecision_ExternallyChanged (file_id superseded : Uuid)
| IngestDecision_Moved (file_id : Uuid) (from_path : PathBuf)
| IngestDecision_Duplicate (file_id : Uuid).

Definition IngestDecision_file_id (d : IngestDecision) : Uuid :=
  match d with
  | IngestDecision_New file_id _ | IngestDecision_Unchanged file_id
  | IngestDecision_ExternallyChanged file_id _ | IngestDecision_Moved file_id _
  | IngestDecision_Duplicate file_id => file_id
  end.

Definition IngestDecision_needs_introspection_path (d : IngestDecision) (ingested_path : PathBuf)
    : option PathBuf :=
  match d with
  | IngestDecision_New _ true | IngestDecision_ExternallyChanged _ _
  | IngestDecision_Moved _ _ => Some ingested_path
  | IngestDecision_New _ false | IngestDecision_Unchanged _ | IngestDecision_Duplicate _ => None
  end.

(** ** Bad files *)
Record BadFile : Type := {
  BadFile_id : Uuid;
  BadFile_path : PathBuf;
  BadFile_size : u64;
  BadFile_content_hash : option string;
  BadFile_error : string;
  BadFile_error_source : BadFileSource;
  BadFile_attempt_count : u32;
  BadFile_first_seen_at : DateTime;
  BadFile_last_seen_at : DateTime;
}.

Definition BadFile_new (id : Uuid) (now : DateTime) (path : PathBuf) (size : u64)
    (content_hash : option string) (error : string) (error_source : BadFileSource) : BadFile := {|
  BadFile_id := id;
  BadFile_path := path;
  BadFile_size := size;
  BadFile_content_hash := content_hash;
  BadFile_error := error;
  BadFile_error_source := error_source;
  BadFile_attempt_count := 1;
  BadFile_first_seen_at := now;
  BadFile_last_seen_at := now;
|}.

(** ** Round trips *)
Lemma ScanSessionStatus_parse_as_str s :
  ScanSessionStatus_parse (ScanSessionStatus_as_str s) = Some s.
Proof. by destruct s. Qed.

Lemma TransitionSource_parse_as_str s : TransitionSource_parse (TransitionSource_as_str s) = Some s.
Proof. by destruct s. Qed.

(** * Reconciling discovered files with a store

    [with_scan_session] and [reconcile_discovered_files] of
    [crates/voom-domain/src/storage.rs], against the methods of [trait FileStorage]
    that drive a scan session. *)

(** Inputs of one ingestion: the time and the identifiers it may need. *)
Record IngestInput : Type := {
  ii_now : DateTime;
  ii_file_id : Uuid;
  ii_transition_id : Uuid;
  ii_second_transition_id : Uuid;
}.

(** The methods of [FileStorage] that a scan uses, on a store [S]. The time and
    the identifiers that an implementation draws are arguments. *)
Class ScanStorage (S : Type) := {
  begin_scan_session : Uuid → DateTime → list PathBuf → S → result VoomError ScanSessionId * S;
  ingest_discovered_file : IngestInput → ScanSessionId → DiscoveredFile → S →
    result VoomError IngestDecision * S;
  finish_scan_session : DateTime → (nat → Uuid) → ScanSessionId → S →
    result VoomError ScanFinishOutcome * S;
  cancel_scan_session : DateTime → ScanSessionId → S → result VoomError unit * S;
  heartbeat_scan_session : DateTime → ScanSessionId → S → result VoomError unit * S;
}.

(** The clock at the calls of one scan and the identifiers it draws. *)
Record ScanInput : Type := {
  si_begin : DateTime;
  si_ingest : nat → DateTime;
  si_finish : DateTime;
  si_cancel : DateTime;
  si_session : Uuid;
  si_ids : nat → Uuid;
}.

(** The inputs of the [i]-th ingestion. *)
Definition ingest_input (inp : ScanInput) (i : nat) : IngestInput := {|
  ii_now := si_ingest inp i;
  ii_file_id := si_ids inp (3 * i);
  ii_transition_id := si_ids inp (3 * i + 1);
  ii_second_transition_id := si_ids inp (3 * i + 2);
|}.

Section reconcile.
Context {S : Type} `{ScanStorage S}.

(** The session is cancelled when [body] fails; an error of the cancellation is
    only logged. *)
Definition with_scan_session {A} (inp : ScanInput) (roots : list PathBuf)
    (body : ScanSessionId → S → result VoomError A * S) (s : S) : result VoomError A * S :=
  match begin_scan_session (si_session inp) (si_begin inp) roots s with
  | (Err e, s) => (Err e, s)
  | (Ok session, s) =>
      match body session s with
      | (Ok value, s) => (Ok value, s)
      | (Err e, s) => (Err e, (cancel_scan_session (si_cancel inp) session s).2)
      end
  end.

(** The counters and the list that one decision adds to. The counters are [u32]
    and stay below the number of files. *)
Definition count_decision (df : DiscoveredFile) (decision : IngestDecision)
    (result : ReconcileResult) : ReconcileResult :=
  let counted :=
    match decision with
    | IngestDecision_New _ _ =>
        Build_ReconcileResult (ReconcileResult_new_files result + 1)
          (ReconcileResult_unchanged result) (ReconcileResult_moved result)
          (ReconcileResult_external_changes result) (ReconcileResult_missing result)
    | IngestDecision_Unchanged _ =>
        Build_ReconcileResult (ReconcileResult_new_files result)
          (ReconcileResult_unchanged result + 1) (ReconcileResult_moved result)
          (ReconcileResult_external_changes result) (ReconcileResult_missing result)
    | IngestDecision_ExternallyChanged _ _ =>
        Build_ReconcileResult (ReconcileResult_new_files result)
          (ReconcileResult_unchanged result) (ReconcileResult_moved result)
          (ReconcileResult_external_changes result + 1) (ReconcileResult_missing result)
    | IngestDecision_Moved _ _ =>
        Build_ReconcileResult (ReconcileResult_new_files result)
          (ReconcileResult_unchanged result) (ReconcileResult_moved result + 1)
          (ReconcileResult_external_changes result) (ReconcileResult_missing result)
    | IngestDecision_Duplicate _ =>
        Build_ReconcileResult (ReconcileResult_new_files result)
          (ReconcileResult_unchanged result) (ReconcileResult_moved result)
          (ReconcileResult_external_changes result) (ReconcileResult_missing result)
    end in
  counted
    (match IngestDecision_needs_introspection_path decision (DiscoveredFile_path df) with
     | Some p => ReconcileResult_needs_introspection result ++ [p]
     | None => ReconcileResult_needs_introspection result
     end).

(** Promoted moves were counted as new. *)
Definition count_finish (finish : ScanFinishOutcome) (result : ReconcileResult) : ReconcileResult :=
  Build_ReconcileResult
    (ReconcileResult_new_files result - ScanFinishOutcome_promoted_moves finish)
    (ReconcileResult_unchanged result)
    (ReconcileResult_moved result + ScanFinishOutcome_promoted_moves finish)
    (ReconcileResult_external_changes result) (ScanFinishOutcome_missing finish)
    (ReconcileResult_needs_introspection result).

(** [for df in discovered], from the [i]-th file on *)
Fixpoint ingest_loop (inp : ScanInput) (session : ScanSessionId) (i : nat)
    (discovered : list DiscoveredFile) (result : ReconcileResult) (s : S)
    : Prelude.result VoomError ReconcileResult * S :=
  match discovered with
  | [] => (Ok result, s)
  | df :: discovered =>
      match ingest_discovered_file (ingest_input inp i) session df s with
      | (Err e, s) => (Err e, s)
      | (Ok decision, s) =>
          ingest_loop inp session (1 + i) discovered (count_decision df decision result) s
      end
  end.

Definition reconcile_body (inp : ScanInput) (discovered : list DiscoveredFile)
    (session : ScanSessionId) (s : S) : result VoomError ReconcileResult * S :=
  match ingest_loop inp session 0 discovered ReconcileResult_default s with
  | (Err e, s) => (Err e, s)
  | (Ok result, s) =>
      match finish_scan_session (si_finish inp) (λ j, si_ids inp (3 * length discovered + j))
              session s with
      | (Err e, s) => (Err e, s)
      | (Ok finish, s) => (Ok (count_finish finish result), s)
      end
  end.

Definition reconcile_discovered_files (inp : ScanInput) (discovered : list DiscoveredFile)
    (scanned_dirs : list PathBuf) (s : S) : result VoomError ReconcileResult * S :=
  with_scan_session inp scanned_dirs (reconcile_body inp discovered) s.
End reconcile.
