(* ===== verification/FileTables.v ===== *)
(** * The file tables of the SQLite store

    The tables of [plugins/sqlite-store/src/schema.rs] that hold files: their
    columns, their constraints and the statements that change them. A table is
    the list of its rows. [NULL] is [None]; integers are [i64].

    [files.path] and [files.superseded_by] are unique where they are not null,
    [tracks], [plans] and [verifications] are deleted with their file, and a file
    with rows in [transcode_outcomes] cannot be deleted. A statement that would
    break a constraint fails and changes nothing. *)
From S2P Require Import Prelude Json Media Plan Jobs Engine Events Process Transitions.

(** ** Rows *)

(** The columns of [files] that describe the media. *)
Record MediaColumns : Type := {
  files_container : string;
  files_duration : option f64;
  files_bitrate : option Z;
  files_crop_left : option Z;
  files_crop_top : option Z;
  files_crop_right : option Z;
  files_crop_bottom : option Z;
  files_crop_detected_at : option string;
  files_crop_settings_fingerprint : option string;
  files_tags : option string;
  files_plugin_metadata : option string;
  files_introspected_at : string;
}.

Record FilesRow : Type := {
  files_id : string;
  files_path : option string;
  files_filename : string;
  files_size : Z;
  files_content_hash : string;
  files_expected_hash : option string;
  files_status : string;
  files_missing_since : option string;
  files_superseded_by : option string;
  files_media : MediaColumns;
  files_last_seen_session_id : option string;
  files_created_at : string;
  files_updated_at : string;
}.

Record TracksRow : Type := {
  tracks_id : string;
  tracks_file_id : string;
  tracks_stream_index : Z;
  tracks_track_type : string;
  tracks_codec : string;
  tracks_language : string;
  tracks_title : string;
  tracks_is_default : Z;
  tracks_is_forced : Z;
  tracks_channels : option Z;
  tracks_channel_layout : option string;
  tracks_sample_rate : option Z;
  tracks_bit_depth : option Z;
  tracks_loudness_integrated_lufs : option f64;
  tracks_loudness_true_peak_db : option f64;
  tracks_loudness_range_lu : option f64;
  tracks_loudness_measured_at : option string;
  tracks_width : option Z;
  tracks_height : option Z;
  tracks_frame_rate : option f64;
  tracks_is_vfr : Z;
  tracks_is_hdr : Z;
  tracks_hdr_format : option string;
  tracks_pixel_format : option string;
  tracks_color_primaries : option string;
  tracks_color_transfer : option string;
  tracks_color_matrix : option string;
  tracks_max_cll : option Z;
  tracks_max_fall : option Z;
  tracks_master_display : option string;
  tracks_dolby_vision_profile : option Z;
  tracks_is_animation : option Z;
}.

Record TransitionsRow : Type := {
  transitions_id : string;
  transitions_file_id : string;
  transitions_path : string;
  transitions_from_path : option string;
  transitions_from_hash : option string;
  transitions_to_hash : string;
  transitions_from_size : option Z;
  transitions_to_size : Z;
  transitions_source : string;
  transitions_source_detail : option string;
  transitions_plan_id : option string;
  transitions_duration_ms : option Z;
  transitions_actions_taken : option Z;
  transitions_tracks_modified : option Z;
  transitions_outcome : option string;
  transitions_policy_name : option string;
  transitions_phase_name : option string;
  transitions_metadata_snapshot : option string;
  transitions_error_message : option string;
  transitions_session_id : option string;
  transitions_created_at : string;
}.

Record SessionsRow : Type := {
  sessions_id : string;
  sessions_roots_json : string;
  sessions_status : string;
  sessions_started_at : string;
  sessions_finished_at : option string;
  sessions_last_heartbeat_at : string;
}.

Record MutationsRow : Type := {
  mutations_session_id : string;
  mutations_path : string;
  mutations_kind : string;
  mutations_recorded_at : Z;
}.

Record BadFilesRow : Type := {
  bad_id : string;
  bad_path : string;
  bad_size : Z;
  bad_content_hash : option string;
  bad_error : string;
  bad_error_source : string;
  bad_attempt_count : Z;
  bad_first_seen_at : string;
  bad_last_seen_at : string;
}.

(** Of [plans] and [verifications] ([t_children]) and of [transcode_outcomes]
    ([t_outcomes]) only the column [file_id] matters here. *)
Record FileTables : Type := {
  t_files : list FilesRow;
  t_tracks : list TracksRow;
  t_transitions : list TransitionsRow;
  t_sessions : list SessionsRow;
  t_mutations : list MutationsRow;
  t_bad_files : list BadFilesRow;
  t_children : list string;
  t_outcomes : list string;
}.

(** ** Assignments of a [SET] clause *)
Definition set_path (v : option string) (r : FilesRow) : FilesRow :=
  Build_FilesRow (files_id r) v (files_filename r) (files_size r) (files_content_hash r)
    (files_expected_hash r) (files_status r) (files_missing_since r) (files_superseded_by r)
    (files_media r) (files_last_seen_session_id r) (files_created_at r) (files_updated_at r).

Definition set_filename (v : string) (r : FilesRow) : FilesRow :=
  Build_FilesRow (files_id r) (files_path r) v (files_size r) (files_content_hash r)
    (files_expected_hash r) (files_status r) (files_missing_since r) (files_superseded_by r)
    (files_media r) (files_last_seen_session_id r) (files_created_at r) (files_updated_at r).

Definition set_size (v : Z) (r : FilesRow) : FilesRow :=
  Build_FilesRow (files_id r) (files_path r) (files_filename r) v (files_content_hash r)
    (files_expected_hash r) (files_status r) (files_missing_since r) (files_superseded_by r)
    (files_media r) (files_last_seen_session_id r) (files_created_at r) (files_updated_at r).

Definition set_content_hash (v : string) (r : FilesRow) : FilesRow :=
  Build_FilesRow (files_id r) (files_path r) (files_filename r) (files_size r) v
    (files_expected_hash r) (files_status r) (files_missing_since r) (files_superseded_by r)
    (files_media r) (files_last_seen_session_id r) (files_created_at r) (files_updated_at r).

Definition set_expected_hash (v : string) (r : FilesRow) : FilesRow :=
  Build_FilesRow (files_id r) (files_path r) (files_filename r) (files_size r)
    (files_content_hash r) (Some v) (files_status r) (files_missing_since r)
    (files_superseded_by r) (files_media r) (files_last_seen_session_id r) (files_created_at r)
    (files_updated_at r).

Definition set_status (v : string) (r : FilesRow) : FilesRow :=
  Build_FilesRow (files_id r) (files_path r) (files_filename r) (files_size r)
    (files_content_hash r) (files_expected_hash r) v (files_missing_since r)
    (files_superseded_by r) (files_media r) (files_last_seen_session_id r) (files_created_at r)
    (files_updated_at r).

Definition set_missing_since (v : option string) (r : FilesRow) : FilesRow :=
  Build_FilesRow (files_id r) (files_path r) (files_filename r) (files_size r)
    (files_content_hash r) (files_expected_hash r) (files_status r) v (files_superseded_by r)
    (files_media r) (files_last_seen_session_id r) (files_created_at r) (files_updated_at r).

Definition set_superseded_by (v : option string) (r : FilesRow) : FilesRow :=
  Build_FilesRow (files_id r) (files_path r) (files_filename r) (files_size r)
    (files_content_hash r) (files_expected_hash r) (files_status r) (files_missing_since r) v
    (files_media r) (files_last_seen_session_id r) (files_created_at r) (files_updated_at r).

Definition set_media (v : MediaColumns) (r : FilesRow) : FilesRow :=
  Build_FilesRow (files_id r) (files_path r) (files_filename r) (files_size r)
    (files_content_hash r) (files_expected_hash r) (files_status r) (files_missing_since r)
    (files_superseded_by r) v (files_last_seen_session_id r) (files_created_at r)
    (files_updated_at r).

Definition set_last_seen (v : string) (r : FilesRow) : FilesRow :=
  Build_FilesRow (files_id r) (files_path r) (files_filename r) (files_size r)
    (files_content_hash r) (files_expected_hash r) (files_status r) (files_missing_since r)
    (files_superseded_by r) (files_media r) (Some v) (files_created_at r) (files_updated_at r).

Definition set_updated_at (v : string) (r : FilesRow) : FilesRow :=
  Build_FilesRow (files_id r) (files_path r) (files_filename r) (files_size r)
    (files_content_hash r) (files_expected_hash r) (files_status r) (files_missing_since r)
    (files_superseded_by r) (files_media r) (files_last_seen_session_id r) (files_created_at r) v.

(** ** Tables *)
Definition put_files (v : list FilesRow) (t : FileTables) : FileTables :=
  Build_FileTables v (t_tracks t) (t_transitions t) (t_sessions t) (t_mutations t)
    (t_bad_files t) (t_children t) (t_outcomes t).

Definition put_tracks (v : list TracksRow) (t : FileTables) : FileTables :=
  Build_FileTables (t_files t) v (t_transitions t) (t_sessions t) (t_mutations t)
    (t_bad_files t) (t_children t) (t_outcomes t).

Definition put_transitions (v : list TransitionsRow) (t : FileTables) : FileTables :=
  Build_FileTables (t_files t) (t_tracks t) v (t_sessions t) (t_mutations t)
    (t_bad_files t) (t_children t) (t_outcomes t).

Definition put_sessions (v : list SessionsRow) (t : FileTables) : FileTables :=
  Build_FileTables (t_files t) (t_tracks t) (t_transitions t) v (t_mutations t)
    (t_bad_files t) (t_children t) (t_outcomes t).

Definition put_mutations (v : list MutationsRow) (t : FileTables) : FileTables :=
  Build_FileTables (t_files t) (t_tracks t) (t_transitions t) (t_sessions t) v
    (t_bad_files t) (t_children t) (t_outcomes t).

Definition put_bad_files (v : list BadFilesRow) (t : FileTables) : FileTables :=
  Build_FileTables (t_files t) (t_tracks t) (t_transitions t) (t_sessions t) (t_mutations t)
    v (t_children t) (t_outcomes t).

Definition put_children (v : list string) (t : FileTables) : FileTables :=
  Build_FileTables (t_files t) (t_tracks t) (t_transitions t) (t_sessions t) (t_mutations t)
    (t_bad_files t) v (t_outcomes t).

(** ** Statements with constraints *)
Definition constraint_failed {A} (what : string) : result rusqlite_Error A :=
  Err (rusqlite_SqliteFailure ErrorCode_ConstraintViolation
         ("constraint failed: " +:+ what)).

(** The unique columns of [files]. *)
Definition files_unique (rows : list FilesRow) : bool :=
  bool_decide (NoDup (files_id <$> rows)) && bool_decide (NoDup (omap files_path rows))
  && bool_decide (NoDup (omap files_superseded_by rows)).

(** [UPDATE files SET f WHERE p] *)
Definition update_files (p : FilesRow → bool) (f : FilesRow → FilesRow) (t : FileTables)
    : result rusqlite_Error nat * FileTables :=
  let '(n, rows) := update_rows p f (t_files t) in
  if files_unique rows then (Ok n, put_files rows t) else (constraint_failed "files", t).

(** [INSERT INTO files] *)
Definition insert_file (r : FilesRow) (t : FileTables) : result rusqlite_Error unit * FileTables :=
  let rows := t_files t ++ [r] in
  if files_unique rows then (Ok tt, put_files rows t) else (constraint_failed "files", t).

(** [DELETE FROM files WHERE p] *)
Definition delete_files (p : FilesRow → bool) (t : FileTables)
    : result rusqlite_Error nat * FileTables :=
  let ids := files_id <$> List.filter p (t_files t) in
  if existsb (λ id, bool_decide (id ∈ ids)) (t_outcomes t)
  then (constraint_failed "FOREIGN KEY", t)
  else
    let '(n, rows) := delete_rows p (t_files t) in
    (Ok n,
     put_children (List.filter (λ id, bool_decide (id ∉ ids)) (t_children t))
       (put_tracks (List.filter (λ r, bool_decide (tracks_file_id r ∉ ids)) (t_tracks t))
          (put_files rows t))).

(** [INSERT INTO file_transitions] *)
Definition insert_transition (r : TransitionsRow) (t : FileTables)
    : result rusqlite_Error unit * FileTables :=
  if bool_decide (transitions_id r ∈ (transitions_id <$> t_transitions t))
  then (constraint_failed "file_transitions.id", t)
  else (Ok tt, put_transitions (t_transitions t ++ [r]) t).

(** [DELETE FROM file_transitions WHERE file_id IN ids] *)
Definition delete_transitions (ids : list string) (t : FileTables) : nat * FileTables :=
  let '(n, rows) := delete_rows (λ r, bool_decide (transitions_file_id r ∈ ids))
                      (t_transitions t) in
  (n, put_transitions rows t).

(** [INSERT INTO tracks]: the file exists, no two tracks have the same index. *)
Definition insert_track (r : TracksRow) (t : FileTables)
    : result rusqlite_Error unit * FileTables :=
  if bool_decide (tracks_id r ∈ (tracks_id <$> t_tracks t))
     || existsb (λ q, bool_decide (tracks_file_id q = tracks_file_id r ∧
                                   tracks_stream_index q = tracks_stream_index r)) (t_tracks t)
     || negb (existsb (λ f, bool_decide (files_id f = tracks_file_id r)) (t_files t))
  then (constraint_failed "tracks", t)
  else (Ok tt, put_tracks (t_tracks t ++ [r]) t).

(** [INSERT INTO scan_sessions] *)
Definition insert_session (r : SessionsRow) (t : FileTables)
    : result rusqlite_Error unit * FileTables :=
  if bool_decide (sessions_id r ∈ (sessions_id <$> t_sessions t))
  then (constraint_failed "scan_sessions.id", t)
  else (Ok tt, put_sessions (t_sessions t ++ [r]) t).

(** [UPDATE scan_sessions SET f WHERE p] *)
Definition update_sessions (p : SessionsRow → bool) (f : SessionsRow → SessionsRow)
    (t : FileTables) : nat * FileTables :=
  let '(n, rows) := update_rows p f (t_sessions t) in (n, put_sessions rows t).

(** ** Columns *)

(** [v as i64] for a [u64], and [v as u64] for an [i64] *)
Definition u64_as_i64 (n : u64) : Z :=
  if (Z.of_N n <=? i64_MAX)%Z then Z.of_N n else (Z.of_N n - 18446744073709551616)%Z.

Definition i64_as_u64 (z : Z) : u64 := Z.to_N (z mod 18446744073709551616).

Definition i32_MIN : Z := -2147483648.
Definition i32_MAX : Z := 2147483647.

Definition bool_as_i64 (b : bool) : Z := if b then 1 else 0.

Section statements.
Context `{Chrono} `{UuidText} `{Sqlite} `{Unicode}.

(** A [SELECT] without [ORDER BY] gives the rows in an order of its own. *)
Definition select {R} (p : R → bool) (rows : list R) : list R :=
  order_by (λ _ _, true) (List.filter p rows).

(** [.. LIMIT 1] with [query_row] *)
Definition select_one {R} (p : R → bool) (rows : list R) : option R := head (select p rows).

Definition filename_string (path : PathBuf) : string :=
  default "" (to_string_lossy <$> path_file_name path).

Definition parse_uuid (s : string) : result VoomError Uuid :=
  match Uuid_parse_str s with
  | Ok u => Ok u
  | Err e => Err (other_storage_err ("invalid UUID '" +:+ s +:+ "'") e)
  end.

Definition has_file_id (id : string) (r : FilesRow) : bool := bool_decide (files_id r = id).

Definition at_path (path : string) (r : FilesRow) : bool := bool_decide (files_path r = Some path).
End statements.
