(* ===== verification/ScanSessions.v ===== *)
(** * Scan sessions of the SQLite store

    The part of [plugins/sqlite-store/src/store/file_storage.rs] that compares
    what a walk over the disk has found with what is stored: sessions, the
    ingestion of one discovered file, and the end of a session, with moves and
    missing files; the record of mutations of [scan_session_mutations_storage.rs].

    Operations run one at a time, as the write lock of [BEGIN IMMEDIATE] makes
    them; new identifiers and the time are inputs. *)
From S2P Require Import Prelude Json Media Plan Jobs Engine Events Process Transitions FileTables.

(** [serde_json] on the roots of a session: a path that is not UTF-8 is an error,
    and what was written reads back. *)
Class RootsJson := {
  roots_to_json : list PathBuf → result string string;
  roots_from_json : string → result string (list PathBuf);
  roots_from_to roots s : roots_to_json roots = Ok s → roots_from_json s = Ok roots;
}.

Record IngestCtx : Type := {
  ctx_now : string;
  ctx_session_str : string;
  ctx_path_str : string;
  ctx_filename : string;
  ctx_file : DiscoveredFile;
}.

Record MissingCandidate : Type := {
  MissingCandidate_id : string;
  MissingCandidate_path : string;
  MissingCandidate_expected_hash : string;
}.

Definition storage_other (message : string) : VoomError :=
  VoomError_Storage StorageErrorKind_Other message.

Section sessions.
Context `{Chrono} `{UuidText} `{Sqlite} `{Unicode} `{SnapshotJson} `{RootsJson}.

Definition Fs (A : Type) : Type := Sql FileTables A.

(** A statement that can break a constraint. *)
Definition fs_run {A} (msg : string) (f : FileTables → result rusqlite_Error A * FileTables) : Fs A :=
  db_call (storage_err msg) f.

Definition fs_exec (msg : string) (f : FileTables → result rusqlite_Error nat * FileTables)
    : Fs unit := db_bind (fs_run msg f) (λ _, db_ret tt).

(** [for x in l { f(x)?; }] *)
Fixpoint fs_each {A} (f : A → Fs unit) (l : list A) : Fs unit :=
  match l with
  | [] => db_ret tt
  | x :: l => db_bind (f x) (λ _, fs_each f l)
  end.

(** ** Inserts *)
Definition discovered_media (now : string) : MediaColumns := {|
  files_container := "other";
  files_duration := Some (f64_of_Z 0);
  files_bitrate := None;
  files_crop_left := None;
  files_crop_top := None;
  files_crop_right := None;
  files_crop_bottom := None;
  files_crop_detected_at := None;
  files_crop_settings_fingerprint := None;
  files_tags := Some "{}";
  files_plugin_metadata := Some "{}";
  files_introspected_at := now;
|}.

Definition active_file_row (new_id : Uuid) (ctx : IngestCtx) : FilesRow := {|
  files_id := Uuid_to_string new_id;
  files_path := Some (ctx_path_str ctx);
  files_filename := ctx_filename ctx;
  files_size := u64_as_i64 (DiscoveredFile_size (ctx_file ctx));
  files_content_hash := DiscoveredFile_content_hash (ctx_file ctx);
  files_expected_hash := Some (DiscoveredFile_content_hash (ctx_file ctx));
  files_status := "active";
  files_missing_since := None;
  files_superseded_by := None;
  files_media := discovered_media (ctx_now ctx);
  files_last_seen_session_id := Some (ctx_session_str ctx);
  files_created_at := ctx_now ctx;
  files_updated_at := ctx_now ctx;
|}.

Definition insert_active_file_in_tx (new_id : Uuid) (ctx : IngestCtx) (err_msg : string) : Fs unit :=
  fs_run err_msg (insert_file (active_file_row new_id ctx)).

(** [snapshot.to_json().ok()] *)
Definition snapshot_text (s : MetadataSnapshot) : option string :=
  match snapshot_to_json s with Ok j => Some j | Err _ => None end.

Definition transition_row (t : FileTransition) (now : string) : TransitionsRow := {|
  transitions_id := Uuid_to_string (FileTransition_id t);
  transitions_file_id := Uuid_to_string (FileTransition_file_id t);
  transitions_path := to_string_lossy (FileTransition_path t);
  transitions_from_path := to_string_lossy <$> FileTransition_from_path t;
  transitions_from_hash := FileTransition_from_hash t;
  transitions_to_hash := FileTransition_to_hash t;
  transitions_from_size := u64_as_i64 <$> FileTransition_from_size t;
  transitions_to_size := u64_as_i64 (FileTransition_to_size t);
  transitions_source := TransitionSource_as_str (FileTransition_source t);
  transitions_source_detail := FileTransition_source_detail t;
  transitions_plan_id := Uuid_to_string <$> FileTransition_plan_id t;
  transitions_duration_ms := u64_as_i64 <$> FileTransition_duration_ms t;
  transitions_actions_taken := Z.of_N <$> FileTransition_actions_taken t;
  transitions_tracks_modified := Z.of_N <$> FileTransition_tracks_modified t;
  transitions_outcome := ProcessingOutcome_as_str <$> FileTransition_outcome t;
  transitions_policy_name := FileTransition_policy_name t;
  transitions_phase_name := FileTransition_phase_name t;
  transitions_metadata_snapshot := FileTransition_metadata_snapshot t ≫= snapshot_text;
  transitions_error_message := None;
  transitions_session_id := None;
  transitions_created_at := now;
|}.

Definition insert_transition_in_tx (t : FileTransition) (now : string) : Fs unit :=
  fs_run "failed to insert transition" (insert_transition (transition_row t now)).

(** ** Sessions *)
Definition has_session_id (id : string) (r : SessionsRow) : bool :=
  bool_decide (sessions_id r = id).

Definition is_in_progress (r : SessionsRow) : bool :=
  bool_decide (sessions_status r = "in_progress").

(** [SET status = s, finished_at = now, last_heartbeat_at = now] *)
Definition close_session (s now : string) (r : SessionsRow) : SessionsRow :=
  Build_SessionsRow (sessions_id r) (sessions_roots_json r) s (sessions_started_at r) (Some now) now.

(** [num_seconds] of a difference in nanoseconds, which rounds towards zero *)
Definition num_seconds (ns : Z) : Z := Z.quot ns 1000000000.

(** The loop over earlier sessions in progress: the stale ones, or an error. *)
Fixpoint stale_sessions (now : DateTime) (prior : list (string * string))
    : result VoomError (list string) :=
  match prior with
  | [] => Ok []
  | (sid, heartbeat_str) :: prior =>
      heartbeat ← match parse_datetime heartbeat_str with
                  | Ok t => Ok t
                  | Err e => Err (storage_other ("failed to parse last_heartbeat_at for session "
                               +:+ sid +:+ ": " +:+ VoomError_to_string e))
                  end;
      if (STALE_SESSION_SECS <? num_seconds (now - heartbeat))%Z then
        rest ← stale_sessions now prior;
        Ok (sid :: rest)
      else Err (storage_other ("another scan is in progress (session " +:+ sid
                  +:+ ", last heartbeat " +:+ heartbeat_str +:+ "); wait up to "
                  +:+ pretty STALE_SESSION_SECS
                  +:+ " seconds or abandon it manually if stale"))
  end.

Definition sqlite_begin_scan_session (id : Uuid) (now : DateTime) (roots : list PathBuf)
    : Fs ScanSessionId :=
  db_bind db_conn (λ _,
  let now_str := bind_time now in
  db_bind (db_lift (match roots_to_json roots with
                    | Ok j => Ok j
                    | Err e => Err (other_storage_err "failed to serialize scan roots" e)
                    end)) (λ roots_json,
  db_transaction "failed to begin scan_session transaction" (
    db_bind (db_query "failed to prepare prior-session lookup" (λ t,
        Ok ((λ r, (sessions_id r, sessions_last_heartbeat_at r)) <$>
              select is_in_progress (t_sessions t)))) (λ prior,
    db_bind (db_query "failed to query prior in_progress sessions" (λ _, Ok tt)) (λ _,
    db_bind (db_query "failed to collect prior in_progress session rows" (λ _, Ok tt)) (λ _,
    db_bind (db_lift (stale_sessions now prior)) (λ cancelled_ids,
    db_bind (fs_each (λ sid,
        db_bind (db_execute "failed to auto-cancel stale scan session"
                   (update_sessions (λ r, has_session_id sid r && is_in_progress r)
                      (close_session "cancelled" now_str))) (λ _, db_ret tt)) cancelled_ids) (λ _,
    db_bind (fs_run "failed to insert scan session"
               (insert_session {| sessions_id := Uuid_to_string id;
                                  sessions_roots_json := roots_json;
                                  sessions_status := "in_progress";
                                  sessions_started_at := now_str;
                                  sessions_finished_at := None;
                                  sessions_last_heartbeat_at := now_str |})) (λ _,
    db_bind (db_commit "failed to commit begin_scan_session") (λ _,
    db_ret id)))))))))).

Definition sqlite_cancel_scan_session (now : DateTime) (session : ScanSessionId) : Fs unit :=
  db_bind db_conn (λ _,
  db_bind (db_execute "failed to cancel scan session"
             (update_sessions (λ r, has_session_id (Uuid_to_string session) r && is_in_progress r)
                (close_session "cancelled" (bind_time now)))) (λ _, db_ret tt)).

Definition set_heartbeat (now : string) (r : SessionsRow) : SessionsRow :=
  Build_SessionsRow (sessions_id r) (sessions_roots_json r) (sessions_status r)
    (sessions_started_at r) (sessions_finished_at r) now.

Definition sqlite_heartbeat_scan_session (now : DateTime) (session : ScanSessionId) : Fs unit :=
  db_bind db_conn (λ _,
  db_bind (db_execute "failed to bump scan session heartbeat"
             (update_sessions (λ r, has_session_id (Uuid_to_string session) r && is_in_progress r)
                (set_heartbeat (bind_time now)))) (λ _, db_ret tt)).

(** ** Ingestion *)
Definition validate_session_in_progress_in_tx (session_str : string) : Fs unit :=
  db_bind (db_query "failed to look up scan session" (λ t,
      optional (query_row (has_session_id session_str) (λ r, Ok (sessions_status r)) (t_sessions t))))
    (λ status,
  match status ≫= ScanSessionStatus_parse with
  | Some ScanSessionStatus_InProgress => db_ret tt
  | Some other =>
      db_err (storage_other ("scan session " +:+ session_str +:+ " is not in_progress (status: "
                +:+ ScanSessionStatus_as_str other +:+ ")"))
  | None =>
      match status with
      | Some s => db_err (storage_other ("scan session " +:+ session_str
                            +:+ " has unrecognized status: " +:+ s))
      | None => db_err (VoomError_Storage StorageErrorKind_NotFound
                          ("unknown scan session " +:+ session_str))
      end
  end).

Definition lookup_existing_file_in_tx (path_str : string) : Fs (option FilesRow) :=
  db_query "failed to look up existing file" (λ t,
    optional (query_row (at_path path_str) Ok (t_files t))).

Definition prior_session_needs_recovery_in_tx (prior : option string) : Fs bool :=
  match prior with
  | None => db_ret false
  | Some prior =>
      db_bind (db_query "failed to look up prior session status" (λ t,
          optional (query_row (has_session_id prior) (λ r, Ok (sessions_status r)) (t_sessions t))))
        (λ prior_status,
      db_ret (negb (bool_decide
        (prior_status ≫= ScanSessionStatus_parse = Some ScanSessionStatus_Completed))))
  end.

Definition session_roots (roots_json : string) : result VoomError (list PathBuf) :=
  match roots_from_json roots_json with
  | Ok roots => Ok roots
  | Err e => Err (other_storage_err "failed to parse roots_json" e)
  end.

(** [expected_hash = ?1 AND status = 'missing' AND path IS NOT NULL] *)
Definition is_move_source (content_hash : string) (r : FilesRow) : bool :=
  bool_decide (files_expected_hash r = Some content_hash) &&
  bool_decide (files_status r = "missing") && bool_decide (is_Some (files_path r)).

Definition id_and_path (r : FilesRow) : string * string := (files_id r, default "" (files_path r)).

Definition find_move_candidate_in_tx (session_str content_hash : string)
    : Fs (option (string * string)) :=
  db_bind (db_query "failed to load session roots for move lookup" (λ t,
      query_row (has_session_id session_str) (λ r, Ok (sessions_roots_json r)) (t_sessions t)))
    (λ roots_json,
  db_bind (db_lift (session_roots roots_json)) (λ roots,
  db_bind (db_query "failed to prepare move-candidate select" (λ t,
      Ok (id_and_path <$> select (is_move_source content_hash) (t_files t)))) (λ candidates,
  db_bind (db_query "failed to query move candidates" (λ _, Ok tt)) (λ _,
  db_bind (db_query "failed to collect move candidates" (λ _, Ok tt)) (λ _,
  db_ret (List.find (λ c, is_under_any c.2 roots) candidates)))))).

Definition recover_stub_in_tx (existing_id : string) : Fs unit :=
  db_bind (fs_exec "failed to clear dangling supersession during stub recovery"
             (update_files (λ r, bool_decide (files_superseded_by r = Some existing_id))
                (set_superseded_by None))) (λ _,
  db_bind (db_execute "failed to delete stub transitions" (delete_transitions [existing_id])) (λ _,
  fs_exec "failed to delete stub file row" (delete_files (has_file_id existing_id)))).

(** [SET size, content_hash, status = 'active', missing_since = NULL,
    last_seen_session_id, updated_at] *)
Definition set_seen (size : Z) (content_hash session_str now : string) (r : FilesRow) : FilesRow :=
  set_updated_at now (set_last_seen session_str (set_missing_since None (set_status "active"
    (set_content_hash content_hash (set_size size r))))).

Definition ctx_size (ctx : IngestCtx) : Z := u64_as_i64 (DiscoveredFile_size (ctx_file ctx)).
Definition ctx_hash (ctx : IngestCtx) : string := DiscoveredFile_content_hash (ctx_file ctx).

Definition ingest_unchanged_in_tx (ctx : IngestCtx) (existing_id : string)
    (expected_hash_was_none : bool) : Fs Uuid :=
  db_bind (fs_exec "failed to update unchanged file"
             (update_files (has_file_id existing_id)
                (set_seen (ctx_size ctx) (ctx_hash ctx) (ctx_session_str ctx) (ctx_now ctx)))) (λ _,
  db_bind (if expected_hash_was_none
           then fs_exec "failed to backfill expected_hash"
                  (update_files (has_file_id existing_id) (set_expected_hash (ctx_hash ctx)))
           else db_ret tt) (λ _,
  db_lift (parse_uuid existing_id))).

(** A transition of the file of [ctx]. *)
Definition ctx_transition (id : Uuid) (now : DateTime) (file_id : Uuid) (ctx : IngestCtx)
    (source : TransitionSource) : FileTransition :=
  FileTransition_new id now file_id (DiscoveredFile_path (ctx_file ctx)) (ctx_hash ctx)
    (DiscoveredFile_size (ctx_file ctx)) source.

Definition ingest_externally_changed_in_tx (inp : IngestInput) (ctx : IngestCtx)
    (existing_id : string) (expected_hash : option string) (existing_size : Z)
    : Fs (Uuid * Uuid) :=
  db_bind (db_lift (parse_uuid existing_id)) (λ old_uuid,
  let new_id := ii_file_id inp in
  db_bind (insert_transition_in_tx
             (FileTransition_with_from
                (ctx_transition (ii_transition_id inp) (ii_now inp) old_uuid ctx
                   TransitionSource_External)
                expected_hash (Some (i64_as_u64 existing_size))) (ctx_now ctx)) (λ _,
  db_bind (fs_exec "failed to clear old file for external change"
             (update_files (has_file_id existing_id) (λ r,
                set_superseded_by (Some (Uuid_to_string new_id))
                  (set_missing_since (Some (ctx_now ctx))
                     (set_status "missing" (set_path None r)))))) (λ _,
  db_bind (insert_active_file_in_tx new_id ctx "failed to insert new file for external change") (λ _,
  db_bind (insert_transition_in_tx
             (ctx_transition (ii_second_transition_id inp) (ii_now inp) new_id ctx
                TransitionSource_Discovery) (ctx_now ctx)) (λ _,
  db_ret (new_id, old_uuid)))))).

Definition ingest_moved_in_tx (inp : IngestInput) (ctx : IngestCtx) (missing_id prior_path : string)
    : Fs Uuid :=
  db_bind (fs_exec "failed to reactivate moved file"
             (update_files (has_file_id missing_id) (λ r,
                set_seen (ctx_size ctx) (ctx_hash ctx) (ctx_session_str ctx) (ctx_now ctx)
                  (set_filename (ctx_filename ctx) (set_path (Some (ctx_path_str ctx)) r))))) (λ _,
  db_bind (db_lift (parse_uuid missing_id)) (λ file_uuid,
  db_bind (insert_transition_in_tx
             (FileTransition_with_move
                (ctx_transition (ii_transition_id inp) (ii_now inp) file_uuid ctx
                   TransitionSource_Discovery) prior_path "detected_move") (ctx_now ctx)) (λ _,
  db_ret file_uuid))).

Definition ingest_new_in_tx (inp : IngestInput) (ctx : IngestCtx) : Fs Uuid :=
  let new_id := ii_file_id inp in
  db_bind (insert_active_file_in_tx new_id ctx "failed to insert new file in ingest") (λ _,
  db_bind (insert_transition_in_tx
             (ctx_transition (ii_transition_id inp) (ii_now inp) new_id ctx
                TransitionSource_Discovery) (ctx_now ctx)) (λ _,
  db_ret new_id)).

Definition ingest_ctx (inp : IngestInput) (session : ScanSessionId) (file : DiscoveredFile)
    : IngestCtx := {|
  ctx_now := bind_time (ii_now inp);
  ctx_session_str := Uuid_to_string session;
  ctx_path_str := to_string_lossy (DiscoveredFile_path file);
  ctx_filename := filename_string (DiscoveredFile_path file);
  ctx_file := file;
|}.

(** No row at this path: a move or a new file. *)
Definition ingest_move_or_new (inp : IngestInput) (ctx : IngestCtx) : Fs IngestDecision :=
  db_bind (find_move_candidate_in_tx (ctx_session_str ctx) (ctx_hash ctx)) (λ move_match,
  match move_match with
  | Some (missing_id, prior_path) =>
      db_bind (ingest_moved_in_tx inp ctx missing_id prior_path) (λ file_uuid,
      db_bind (db_commit "failed to commit moved ingest") (λ _,
      db_ret (IngestDecision_Moved file_uuid prior_path)))
  | None =>
      db_bind (ingest_new_in_tx inp ctx) (λ new_id,
      db_bind (db_commit "failed to commit ingest transaction") (λ _,
      db_ret (IngestDecision_New new_id true)))
  end).

(** [expected_hash.is_none_or(|eh| eh == content_hash)] *)
Definition hash_matches (expected_hash : option string) (content_hash : string) : bool :=
  match expected_hash with Some eh => bool_decide (eh = content_hash) | None => true end.

(** A row at this path. *)
Definition ingest_existing (inp : IngestInput) (ctx : IngestCtx) (existing : FilesRow)
    : Fs IngestDecision :=
  if bool_decide (files_last_seen_session_id existing = Some (ctx_session_str ctx)) then
    db_bind (db_lift (parse_uuid (files_id existing))) (λ file_uuid,
    db_bind (db_commit "failed to commit duplicate ingest") (λ _,
    db_ret (IngestDecision_Duplicate file_uuid)))
  else
    db_bind (prior_session_needs_recovery_in_tx (files_last_seen_session_id existing))
      (λ needs_recovery,
    let expected_hash := files_expected_hash existing in
    if needs_recovery then
      db_bind (recover_stub_in_tx (files_id existing)) (λ _, ingest_move_or_new inp ctx)
    else if hash_matches expected_hash (ctx_hash ctx) then
      db_bind (ingest_unchanged_in_tx ctx (files_id existing) (bool_decide (expected_hash = None)))
        (λ file_uuid,
      db_bind (db_commit "failed to commit unchanged ingest") (λ _,
      db_ret (IngestDecision_Unchanged file_uuid)))
    else
      db_bind (ingest_externally_changed_in_tx inp ctx (files_id existing) expected_hash
                 (files_size existing)) (λ ids,
      db_bind (db_commit "failed to commit external-change ingest") (λ _,
      db_ret (IngestDecision_ExternallyChanged ids.1 ids.2)))).

Definition sqlite_ingest_discovered_file (inp : IngestInput) (session : ScanSessionId)
    (file : DiscoveredFile) : Fs IngestDecision :=
  db_bind db_conn (λ _,
  let ctx := ingest_ctx inp session file in
  db_transaction "failed to begin ingest transaction" (
    db_bind (validate_session_in_progress_in_tx (ctx_session_str ctx)) (λ _,
    db_bind (lookup_existing_file_in_tx (ctx_path_str ctx)) (λ existing,
    match existing with
    | Some row => ingest_existing inp ctx row
    | None => ingest_move_or_new inp ctx
    end)))).

(** ** The end of a session *)

(** [last_seen_session_id IS NULL OR last_seen_session_id != ?1] *)
Definition unseen (session_str : string) (r : FilesRow) : bool :=
  bool_decide (files_last_seen_session_id r ≠ Some session_str).

(** [status = 'active' AND path IS NOT NULL AND ..] *)
Definition active_unseen (session_str : string) (r : FilesRow) : bool :=
  bool_decide (files_status r = "active") && bool_decide (is_Some (files_path r))
  && unseen session_str r.

Definition missing_candidates (session_str : string) (rows : list FilesRow)
    : list MissingCandidate :=
  omap (λ r, match files_path r, files_expected_hash r with
             | Some path, Some expected_hash =>
                 Some {| MissingCandidate_id := files_id r;
                         MissingCandidate_path := path;
                         MissingCandidate_expected_hash := expected_hash |}
             | _, _ => None
             end)
    (select (λ r, active_unseen session_str r && bool_decide (is_Some (files_expected_hash r))) rows).

(** The row a candidate has moved to: new in this session, same content, and
    not the successor of another row. *)
Definition is_promotion_target (session_str session_started_at : string)
    (candidate : MissingCandidate) (rows : list FilesRow) (r : FilesRow) : bool :=
  bool_decide (files_last_seen_session_id r = Some session_str) &&
  bool_decide (files_content_hash r = MissingCandidate_expected_hash candidate) &&
  str_leb session_started_at (files_created_at r) &&
  bool_decide (is_Some (files_path r)) &&
  bool_decide (files_id r ≠ MissingCandidate_id candidate) &&
  bool_decide (files_id r ∉ omap files_superseded_by rows).

Definition try_promote_one_move_in_tx (candidate : MissingCandidate)
    (session_str session_started_at now : string) (now_dt : DateTime) (transition_id : Uuid)
    : Fs bool :=
  db_bind (db_query "failed to look up move-promotion target" (λ t,
      Ok (select_one (is_promotion_target session_str session_started_at candidate (t_files t))
            (t_files t)))) (λ new_match,
  match new_match with
  | None => db_ret false
  | Some new_row =>
      let new_id := files_id new_row in
      let new_path := default "" (files_path new_row) in
      let new_size := files_size new_row in
      let hash := MissingCandidate_expected_hash candidate in
      db_bind (db_execute "failed to delete New row's transitions" (delete_transitions [new_id])) (λ _,
      db_bind (fs_exec "failed to delete New row for move promotion"
                 (delete_files (has_file_id new_id))) (λ _,
      db_bind (fs_exec "failed to promote candidate to moved"
                 (update_files (has_file_id (MissingCandidate_id candidate)) (λ r,
                    set_seen new_size hash session_str now
                      (set_filename (filename_string new_path) (set_path (Some new_path) r))))) (λ _,
      db_bind (db_lift (parse_uuid (MissingCandidate_id candidate))) (λ file_uuid,
      db_bind (insert_transition_in_tx
                 (FileTransition_with_move
                    (FileTransition_new transition_id now_dt file_uuid new_path hash
                       (i64_as_u64 new_size) TransitionSource_Discovery)
                    (MissingCandidate_path candidate) "detected_move") now) (λ _,
      db_ret true)))))
  end).

(** The loop over the candidates; [ids i] is the identifier of the transition
    of the [i]-th one. The count is a [u32] below the number of rows. *)
Fixpoint promote_loop (session_str session_started_at now : string) (now_dt : DateTime)
    (ids : nat → Uuid) (i : nat) (candidates : list MissingCandidate) : Fs N :=
  match candidates with
  | [] => db_ret 0%N
  | c :: candidates =>
      db_bind (try_promote_one_move_in_tx c session_str session_started_at now now_dt (ids i))
        (λ promoted,
      db_bind (promote_loop session_str session_started_at now now_dt ids (S i) candidates) (λ n,
      db_ret (if promoted then n + 1 else n)%N))
  end.

Definition promote_moves_in_tx (session_str session_started_at : string) (roots : list PathBuf)
    (now : string) (now_dt : DateTime) (ids : nat → Uuid) : Fs N :=
  db_bind (db_query "failed to prepare move-candidate select" (λ t,
      Ok (missing_candidates session_str (t_files t)))) (λ candidates,
  db_bind (db_query "failed to query move candidates" (λ _, Ok tt)) (λ _,
  db_bind (db_query "failed to collect move candidates" (λ _, Ok tt)) (λ _,
  promote_loop session_str session_started_at now now_dt ids 0
    (List.filter (λ c, is_under_any (MissingCandidate_path c) roots) candidates)))).

(** [SET status = 'missing', missing_since = ?1, updated_at = ?1] *)
Definition set_missing (now : string) (r : FilesRow) : FilesRow :=
  set_updated_at now (set_missing_since (Some now) (set_status "missing" r)).

Definition is_active (r : FilesRow) : bool := bool_decide (files_status r = "active").

Fixpoint mark_missing_loop (roots : list PathBuf) (voom_paths : list string) (now : string)
    (candidates : list (string * string)) : Fs N :=
  match candidates with
  | [] => db_ret 0%N
  | (id, path) :: candidates =>
      if negb (is_under_any path roots) || bool_decide (path ∈ voom_paths)
      then mark_missing_loop roots voom_paths now candidates
      else
        db_bind (fs_exec "failed to mark file missing in finish"
                   (update_files (λ r, has_file_id id r && is_active r) (set_missing now))) (λ _,
        db_bind (mark_missing_loop roots voom_paths now candidates) (λ n, db_ret (n + 1)%N))
  end.

(** The paths that a session has recorded as changed by VOOM itself. *)
Definition session_mutation_paths (session_str : string) (rows : list MutationsRow) : list string :=
  mutations_path <$> List.filter (λ m, bool_decide (mutations_session_id m = session_str)) rows.

Definition mark_missing_in_finish_tx (session_str : string) (roots : list PathBuf) (now : string)
    : Fs N :=
  db_bind (db_query "failed to prepare voom-mutations select" (λ t,
      Ok (session_mutation_paths session_str (t_mutations t)))) (λ voom_paths,
  db_bind (db_query "failed to query voom-mutations" (λ _, Ok tt)) (λ _,
  db_bind (db_query "failed to read voom-mutation row" (λ _, Ok tt)) (λ _,
  db_bind (db_query "failed to prepare missing-scan select" (λ t,
      Ok (id_and_path <$> select (active_unseen session_str) (t_files t)))) (λ candidates,
  db_bind (db_query "failed to query missing candidates" (λ _, Ok tt)) (λ _,
  db_bind (db_query "failed to collect missing candidates" (λ _, Ok tt)) (λ _,
  mark_missing_loop roots voom_paths now candidates)))))).

Definition sqlite_finish_scan_session (now_dt : DateTime) (ids : nat → Uuid)
    (session : ScanSessionId) : Fs ScanFinishOutcome :=
  db_bind db_conn (λ _,
  let now := bind_time now_dt in
  let session_str := Uuid_to_string session in
  db_transaction "failed to begin finish_scan_session tx" (
    db_bind (db_query "failed to load scan session" (λ t,
        optional (query_row (has_session_id session_str) Ok (t_sessions t)))) (λ row,
    match row with
    | None => db_err (storage_other ("unknown scan session " +:+ session_str))
    | Some row =>
        if negb (bool_decide (ScanSessionStatus_parse (sessions_status row)
                              = Some ScanSessionStatus_InProgress))
        then db_err (storage_other ("scan session " +:+ session_str
               +:+ " is not in_progress (status: " +:+ sessions_status row +:+ ")"))
        else
          db_bind (db_lift (session_roots (sessions_roots_json row))) (λ roots,
          db_bind (promote_moves_in_tx session_str (sessions_started_at row) roots now now_dt ids)
            (λ promoted_moves,
          db_bind (mark_missing_in_finish_tx session_str roots now) (λ missing,
          db_bind (db_execute "failed to mark session completed"
                     (update_sessions (has_session_id session_str)
                        (close_session "completed" now))) (λ _,
          db_bind (db_commit "failed to commit finish_scan_session") (λ _,
          db_ret {| ScanFinishOutcome_missing := missing;
                    ScanFinishOutcome_promoted_moves := promoted_moves |})))))
    end))).

(** ** Mutations by VOOM: [scan_session_mutations_storage.rs] *)
Definition kind_as_str (k : MutationKind) : string :=
  match k with
  | MutationKind_Overwrite => "overwrite"
  | MutationKind_Rename => "rename"
  | MutationKind_ContainerConversion => "container_conversion"
  | MutationKind_NewOutput => "new_output"
  end.

Definition kind_from_str (s : string) : result VoomError MutationKind :=
  if bool_decide (s = "overwrite") then Ok MutationKind_Overwrite
  else if bool_decide (s = "rename") then Ok MutationKind_Rename
  else if bool_decide (s = "container_conversion") then Ok MutationKind_ContainerConversion
  else if bool_decide (s = "new_output") then Ok MutationKind_NewOutput
  else Err (storage_other ("scan_session_mutations.kind: unknown MutationKind '" +:+ s +:+ "'")).

(** [INSERT OR REPLACE INTO scan_session_mutations], with the key
    [(session_id, path)] *)
Definition put_mutation (m : MutationsRow) (t : FileTables) : FileTables :=
  put_mutations
    (List.filter (λ r, negb (bool_decide (mutations_session_id r = mutations_session_id m ∧
                                          mutations_path r = mutations_path m))) (t_mutations t)
     ++ [m]) t.

(** Whole seconds since the epoch of a time in nanoseconds. *)
Definition recorded_unix (t : DateTime) : result VoomError Z :=
  if (t <? 0)%Z
  then Err (other_storage_err "recorded_at before UNIX_EPOCH"
              "second time provided was later than self")
  else
    let secs := (t / 1000000000)%Z in
    if (i64_MAX <? secs)%Z
    then Err (other_storage_err "recorded_at exceeds i64"
                "out of range integral type conversion attempted")
    else Ok secs.

Definition sqlite_record_voom_mutation (m : VoomOriginatedMutation) : Fs unit :=
  db_bind db_conn (λ _,
  db_bind (db_lift (recorded_unix (Mutation_recorded_at m))) (λ recorded,
  let row path := {| mutations_session_id := Uuid_to_string (Mutation_session m);
                     mutations_path := to_string_lossy path;
                     mutations_kind := kind_as_str (Mutation_kind m);
                     mutations_recorded_at := recorded |} in
  db_transaction "begin tx for record_voom_mutation" (
    db_bind (db_execute "insert destination row" (λ t, (tt, put_mutation (row (Mutation_path m)) t)))
      (λ _,
    db_bind (match Mutation_original m with
             | Some orig => db_execute "insert source row" (λ t, (tt, put_mutation (row orig) t))
             | None => db_ret tt
             end) (λ _,
    db_commit "commit record_voom_mutation"))))).

Definition sqlite_is_voom_originated (session : ScanSessionId) (path : PathBuf) : Fs bool :=
  db_bind db_conn (λ _,
  db_query "count scan_session_mutations" (λ t,
    Ok (bool_decide (0 < length (List.filter (λ r,
          bool_decide (mutations_session_id r = Uuid_to_string session ∧
                       mutations_path r = to_string_lossy path)) (t_mutations t)))%nat))).

Definition row_to_mutation (session : ScanSessionId) (r : MutationsRow)
    : result VoomError VoomOriginatedMutation :=
  if (mutations_recorded_at r <? 0)%Z
  then Err (other_storage_err "negative recorded_at"
              "out of range integral type conversion attempted")
  else
    kind ← kind_from_str (mutations_kind r);
    Ok {| Mutation_session := session;
          Mutation_path := mutations_path r;
          Mutation_original := None;
          Mutation_kind := kind;
          Mutation_recorded_at := (mutations_recorded_at r * 1000000000)%Z |}.

Definition sqlite_voom_mutations_for_session (session : ScanSessionId)
    : Fs (list VoomOriginatedMutation) :=
  db_bind db_conn (λ _,
  db_bind (db_query "prepare scan_session_mutations select" (λ t,
      Ok (select (λ r, bool_decide (mutations_session_id r = Uuid_to_string session))
            (t_mutations t)))) (λ rows,
  db_bind (db_query "query scan_session_mutations" (λ _, Ok tt)) (λ _,
  db_bind (db_query "row scan_session_mutations" (λ _, Ok tt)) (λ _,
  db_lift (try_map (row_to_mutation session) rows))))).

(** ** The store behind its interfaces *)
#[export] Instance sqlite_scan_storage : ScanStorage (SqlDb FileTables) := {
  begin_scan_session := sqlite_begin_scan_session;
  ingest_discovered_file := sqlite_ingest_discovered_file;
  finish_scan_session := sqlite_finish_scan_session;
  cancel_scan_session := sqlite_cancel_scan_session;
  heartbeat_scan_session := sqlite_heartbeat_scan_session;
}.

#[export] Instance sqlite_mutation_storage : MutationStorage (SqlDb FileTables) :=
  sqlite_record_voom_mutation.
End sessions.
