(* ===== verification/RowMappers.v ===== *)
(** * Rows of the file tables and the values they stand for

    [plugins/sqlite-store/src/store/row_mappers.rs] for files, tracks and bad
    files, and the parameters that [file_storage.rs] and [bad_file_storage.rs] bind
    when they write them. Integers are written as [i64]; most are read as [i32] and
    then checked against the unsigned type. *)
From S2P Require Import Prelude Json Media Plan Jobs Engine Events Process Transitions FileTables.

(** [serde_json] on the maps of a media file *)
Class MapsJson := {
  tags_to_json : gmap string string → result string string;
  tags_from_json : string → result string (gmap string string);
  metadata_to_json : gmap string JValue → result string string;
  metadata_from_json : string → result string (gmap string JValue);
}.

(** ** Numbers *)
Definition numeric_conversion_failure (field : string) : rusqlite_Error :=
  rusqlite_FromSqlConversionFailure
    ("invalid numeric value in " +:+ field +:+ ": out of range integral type conversion attempted").

Definition checked_i64_to_u64 (value : Z) (field : string) : result rusqlite_Error u64 :=
  if (value <? 0)%Z then Err (numeric_conversion_failure field) else Ok (Z.to_N value).

Definition checked_optional_i64_to_u64 (value : option Z) (field : string)
    : result rusqlite_Error (option u64) := try_opt (λ v, checked_i64_to_u64 v field) value.

Definition checked_i64_to_u32 (value : Z) (field : string) : result rusqlite_Error u32 :=
  if (value <? 0)%Z || (Z.of_N u32_MAX <? value)%Z
  then Err (numeric_conversion_failure field) else Ok (Z.to_N value).

Definition checked_optional_i64_to_u32 (value : option Z) (field : string)
    : result rusqlite_Error (option u32) := try_opt (λ v, checked_i64_to_u32 v field) value.

(** [row.get::<_, i32>] of an integer column *)
Definition get_i32 (value : Z) : result rusqlite_Error Z :=
  if (i32_MIN <=? value)%Z && (value <=? i32_MAX)%Z then Ok value
  else Err (rusqlite_IntegralValueOutOfRange value).

Definition checked_i32_to_u32 (value : Z) (field : string) : result rusqlite_Error u32 :=
  value ← get_i32 value;
  if (value <? 0)%Z then Err (numeric_conversion_failure field) else Ok (Z.to_N value).

Definition checked_optional_i32_to_u32 (value : option Z) (field : string)
    : result rusqlite_Error (option u32) := try_opt (λ v, checked_i32_to_u32 v field) value.

Definition get_bool (value : Z) : result rusqlite_Error bool :=
  value ← get_i32 value; Ok (negb (bool_decide (value = 0%Z))).

Definition u8_from_i32 (value : Z) (field : string) : result rusqlite_Error N :=
  value ← get_i32 value;
  if (value <? 0)%Z || (255 <? value)%Z then Err (numeric_conversion_failure field)
  else Ok (Z.to_N value).

Section mappers.
Context `{Chrono} `{UuidText} `{Sqlite} `{Unicode} `{MapsJson}.

(** ** Files *)
Record FileRow : Type := {
  FileRow_id : string;
  FileRow_path : string;
  FileRow_size : u64;
  FileRow_content_hash : string;
  FileRow_expected_hash : option string;
  FileRow_status : string;
  FileRow_bitrate : option u32;
  FileRow_media : MediaColumns;
}.

Definition row_to_file (r : FilesRow) : result rusqlite_Error FileRow :=
  size ← checked_i64_to_u64 (files_size r) "files.size";
  bitrate ← checked_optional_i32_to_u32 (files_bitrate (files_media r)) "files.bitrate";
  Ok {| FileRow_id := files_id r;
        FileRow_path := default "" (files_path r);
        FileRow_size := size;
        FileRow_content_hash := files_content_hash r;
        FileRow_expected_hash := files_expected_hash r;
        FileRow_status := files_status r;
        FileRow_bitrate := bitrate;
        FileRow_media := files_media r |}.

(** [u32::try_from(v).map_err(other_storage_err(msg))] *)
Definition crop_side (v : Z) (msg : string) : result VoomError u32 :=
  if (v <? 0)%Z || (Z.of_N u32_MAX <? v)%Z
  then Err (other_storage_err msg "out of range integral type conversion attempted")
  else Ok (Z.to_N v).

Definition FileRow_crop_detection (m : MediaColumns) : result VoomError (option CropDetection) :=
  match files_crop_detected_at m, files_crop_left m, files_crop_top m, files_crop_right m,
        files_crop_bottom m with
  | Some detected_at, Some l, Some t, Some r, Some b =>
      l ← crop_side l "invalid files.crop_left";
      t ← crop_side t "invalid files.crop_top";
      r ← crop_side r "invalid files.crop_right";
      b ← crop_side b "invalid files.crop_bottom";
      detected_at ← parse_datetime detected_at;
      let detection :=
        CropDetection_new {| CropRect_left := l; CropRect_top := t; CropRect_right := r;
                             CropRect_bottom := b |} detected_at in
      Ok (Some (match files_crop_settings_fingerprint m with
                | Some fingerprint => CropDetection_with_settings_fingerprint detection fingerprint
                | None => detection
                end))
  | _, _, _, _, _ => Ok None
  end.

Definition parse_file_status (value : string) : result VoomError FileStatus :=
  match FileStatus_parse value with
  | Some s => Ok s
  | None => Err (VoomError_Storage StorageErrorKind_Other
                   ("unknown file status in files.status: " +:+ value))
  end.

(** [.map(|s| serde_json::from_str(s).map_err(..)).transpose()?.unwrap_or_default()] *)
Definition json_map_column {V} (from_json : string → result string (gmap string V)) (msg : string)
    (column : option string) : result VoomError (gmap string V) :=
  match column with
  | Some s => match from_json s with Ok m => Ok m | Err e => Err (other_storage_err msg e) end
  | None => Ok ∅
  end.

Definition to_media_file (fr : FileRow) (tracks : list Track) : result VoomError MediaFile :=
  let m := FileRow_media fr in
  tags ← json_map_column tags_from_json "corrupt JSON in files.tags" (files_tags m);
  plugin_metadata ← json_map_column metadata_from_json "corrupt JSON in files.plugin_metadata"
                      (files_plugin_metadata m);
  id ← parse_uuid (FileRow_id fr);
  crop_detection ← FileRow_crop_detection m;
  introspected_at ← parse_datetime (files_introspected_at m);
  status ← parse_file_status (FileRow_status fr);
  Ok {| MediaFile_id := id;
        MediaFile_path := FileRow_path fr;
        MediaFile_size := FileRow_size fr;
        MediaFile_content_hash :=
          if bool_decide (FileRow_content_hash fr = "") then None
          else Some (FileRow_content_hash fr);
        MediaFile_expected_hash := FileRow_expected_hash fr;
        MediaFile_status := status;
        MediaFile_container := Container_from_extension (files_container m);
        MediaFile_duration := default (f64_of_Z 0) (files_duration m);
        MediaFile_bitrate := FileRow_bitrate fr;
        MediaFile_crop_detection := crop_detection;
        MediaFile_tracks := tracks;
        MediaFile_tags := tags;
        MediaFile_plugin_metadata := plugin_metadata;
        MediaFile_introspected_at := introspected_at |}.

(** The columns that [upsert_file] binds for the media of a file. *)
Definition media_columns (file : MediaFile) (tags_json meta_json : string) : MediaColumns :=
  let crop := MediaFile_crop_detection file in
  let side f := (λ d, Z.of_N (f (CropDetection_rect d))) <$> crop in
  {| files_container := Container_as_str (MediaFile_container file);
     files_duration := bind_real (MediaFile_duration file);
     files_bitrate := Z.of_N <$> MediaFile_bitrate file;
     files_crop_left := side CropRect_left;
     files_crop_top := side CropRect_top;
     files_crop_right := side CropRect_right;
     files_crop_bottom := side CropRect_bottom;
     files_crop_detected_at := bind_time ∘ CropDetection_detected_at <$> crop;
     files_crop_settings_fingerprint := crop ≫= CropDetection_settings_fingerprint;
     files_tags := Some tags_json;
     files_plugin_metadata := Some meta_json;
     files_introspected_at := bind_time (MediaFile_introspected_at file) |}.

(** ** Tracks *)
Definition row_to_track (r : TracksRow) : result rusqlite_Error Track :=
  track_type ← match TrackType_from_str (tracks_track_type r) with
               | Ok t => Ok t
               | Err _ => Err (rusqlite_FromSqlConversionFailure
                            ("unknown track type: " +:+ tracks_track_type r))
               end;
  stream_index ← checked_i32_to_u32 (tracks_stream_index r) "tracks.stream_index";
  channels ← checked_optional_i32_to_u32 (tracks_channels r) "tracks.channels";
  sample_rate ← checked_optional_i32_to_u32 (tracks_sample_rate r) "tracks.sample_rate";
  bit_depth ← checked_optional_i32_to_u32 (tracks_bit_depth r) "tracks.bit_depth";
  width ← checked_optional_i32_to_u32 (tracks_width r) "tracks.width";
  height ← checked_optional_i32_to_u32 (tracks_height r) "tracks.height";
  is_default ← get_bool (tracks_is_default r);
  is_forced ← get_bool (tracks_is_forced r);
  measured_at ← parse_optional_datetime (tracks_loudness_measured_at r)
                  "tracks.loudness_measured_at";
  is_vfr ← get_bool (tracks_is_vfr r);
  is_hdr ← get_bool (tracks_is_hdr r);
  max_cll ← checked_optional_i32_to_u32 (tracks_max_cll r) "tracks.max_cll";
  max_fall ← checked_optional_i32_to_u32 (tracks_max_fall r) "tracks.max_fall";
  profile ← try_opt (λ v, u8_from_i32 v "tracks.dolby_vision_profile")
              (tracks_dolby_vision_profile r);
  is_animation ← try_opt get_bool (tracks_is_animation r);
  Ok {| Track_index := stream_index;
        Track_track_type := track_type;
        Track_codec := tracks_codec r;
        Track_language := tracks_language r;
        Track_title := tracks_title r;
        Track_is_default := is_default;
        Track_is_forced := is_forced;
        Track_channels := channels;
        Track_channel_layout := tracks_channel_layout r;
        Track_sample_rate := sample_rate;
        Track_bit_depth := bit_depth;
        Track_loudness_integrated_lufs := tracks_loudness_integrated_lufs r;
        Track_loudness_true_peak_db := tracks_loudness_true_peak_db r;
        Track_loudness_range_lu := tracks_loudness_range_lu r;
        Track_loudness_measured_at := measured_at;
        Track_width := width;
        Track_height := height;
        Track_frame_rate := tracks_frame_rate r;
        Track_is_vfr := is_vfr;
        Track_is_hdr := is_hdr;
        Track_hdr_format := tracks_hdr_format r;
        Track_pixel_format := tracks_pixel_format r;
        Track_color_primaries := tracks_color_primaries r;
        Track_color_transfer := tracks_color_transfer r;
        Track_color_matrix := tracks_color_matrix r;
        Track_max_cll := max_cll;
        Track_max_fall := max_fall;
        Track_master_display := tracks_master_display r;
        Track_dolby_vision_profile := profile;
        Track_is_animation := is_animation |}.

(** The parameters of [INSERT INTO tracks]; [id] is [Uuid::new_v4()]. *)
Definition track_row (id : Uuid) (file_id : string) (track : Track) : TracksRow :=
  let real (x : option f64) := x ≫= bind_real in
  let int (x : option u32) := Z.of_N <$> x in
  {| tracks_id := Uuid_to_string id;
     tracks_file_id := file_id;
     tracks_stream_index := Z.of_N (Track_index track);
     tracks_track_type := TrackType_as_str (Track_track_type track);
     tracks_codec := Track_codec track;
     tracks_language := Track_language track;
     tracks_title := Track_title track;
     tracks_is_default := bool_as_i64 (Track_is_default track);
     tracks_is_forced := bool_as_i64 (Track_is_forced track);
     tracks_channels := int (Track_channels track);
     tracks_channel_layout := Track_channel_layout track;
     tracks_sample_rate := int (Track_sample_rate track);
     tracks_bit_depth := int (Track_bit_depth track);
     tracks_loudness_integrated_lufs := real (Track_loudness_integrated_lufs track);
     tracks_loudness_true_peak_db := real (Track_loudness_true_peak_db track);
     tracks_loudness_range_lu := real (Track_loudness_range_lu track);
     tracks_loudness_measured_at := to_rfc3339 <$> Track_loudness_measured_at track;
     tracks_width := int (Track_width track);
     tracks_height := int (Track_height track);
     tracks_frame_rate := real (Track_frame_rate track);
     tracks_is_vfr := bool_as_i64 (Track_is_vfr track);
     tracks_is_hdr := bool_as_i64 (Track_is_hdr track);
     tracks_hdr_format := Track_hdr_format track;
     tracks_pixel_format := Track_pixel_format track;
     tracks_color_primaries := Track_color_primaries track;
     tracks_color_transfer := Track_color_transfer track;
     tracks_color_matrix := Track_color_matrix track;
     tracks_max_cll := int (Track_max_cll track);
     tracks_max_fall := int (Track_max_fall track);
     tracks_master_display := Track_master_display track;
     tracks_dolby_vision_profile := Z.of_N <$> Track_dolby_vision_profile track;
     tracks_is_animation := bool_as_i64 <$> Track_is_animation track |}.

(** ** Bad files *)
Definition row_to_bad_file (r : BadFilesRow) : result rusqlite_Error BadFile :=
  error_source ← match BadFileSource_from_str (bad_error_source r) with
                 | Ok s => Ok s
                 | Err _ => Err (rusqlite_FromSqlConversionFailure
                              ("unknown error_source in bad_files: " +:+ bad_error_source r))
                 end;
  size ← checked_i64_to_u64 (bad_size r) "bad_files.size";
  id ← row_uuid (bad_id r) "bad_files";
  attempt_count ← checked_i64_to_u32 (bad_attempt_count r) "bad_files.attempt_count";
  first_seen_at ← parse_required_datetime (bad_first_seen_at r) "bad_files.first_seen_at";
  last_seen_at ← parse_required_datetime (bad_last_seen_at r) "bad_files.last_seen_at";
  Ok {| BadFile_id := id;
        BadFile_path := bad_path r;
        BadFile_size := size;
        BadFile_content_hash := bad_content_hash r;
        BadFile_error := bad_error r;
        BadFile_error_source := error_source;
        BadFile_attempt_count := attempt_count;
        BadFile_first_seen_at := first_seen_at;
        BadFile_last_seen_at := last_seen_at |}.

Definition bad_file_row (bad_file : BadFile) : BadFilesRow := {|
  bad_id := Uuid_to_string (BadFile_id bad_file);
  bad_path := to_string_lossy (BadFile_path bad_file);
  bad_size := u64_as_i64 (BadFile_size bad_file);
  bad_content_hash := BadFile_content_hash bad_file;
  bad_error := BadFile_error bad_file;
  bad_error_source := BadFileSource_to_string (BadFile_error_source bad_file);
  bad_attempt_count := Z.of_N (BadFile_attempt_count bad_file);
  bad_first_seen_at := to_rfc3339 (BadFile_first_seen_at bad_file);
  bad_last_seen_at := to_rfc3339 (BadFile_last_seen_at bad_file);
|}.
End mappers.
