(* ===== verification/FileStore.v ===== *)
(** * Files in the SQLite store

    The rest of [impl FileStorage for SqliteStore] in
    [plugins/sqlite-store/src/store/file_storage.rs], with the loading of tracks and
    the helpers for queries of [mod.rs]. *)
From S2P Require Import Prelude Json Media Plan Jobs Engine Events Process Transitions FileTables.
From S2P Require Import ScanSessions RowMappers.

Record FileFilters : Type := {
  FileFilters_container : option Container;
  FileFilters_has_codec : option string;
  FileFilters_has_language : option string;
  FileFilters_path_prefix : option string;
  FileFilters_limit : option u32;
  FileFilters_offset : option u32;
  FileFilters_include_missing : bool;
}.

Record StoredFingerprint : Type := {
  StoredFingerprint_size : u64;
  StoredFingerprint_content_hash : string;
  StoredFingerprint_last_seen : DateTime;
}.

(** ** Patterns *)
Definition escape_like (s : string) : string :=
  str_replace "_" "\_" (str_replace "%" "\%" (str_replace "\" "\\" s)).

(** [LIKE .. ESCAPE '\'] of SQLite, which ignores the case of ASCII letters. An
    unescaped [_] stands for one byte here; no pattern of the store has one. *)
Fixpoint sql_like (pattern value : list ascii) : bool :=
  let same (a b : ascii) := bool_decide (ascii_lower a = ascii_lower b) in
  match pattern with
  | [] => bool_decide (value = [])
  | c :: pattern =>
      if bool_decide (c = "%"%char) then
        (fix any (value : list ascii) : bool :=
           sql_like pattern value || match value with [] => false | _ :: value => any value end)
          value
      else if bool_decide (c = "_"%char) then
        match value with [] => false | _ :: value => sql_like pattern value end
      else if bool_decide (c = "\"%char) then
        match pattern, value with
        | c :: pattern, d :: value => same c d && sql_like pattern value
        | _, _ => false
        end
      else match value with [] => false | d :: value => same c d && sql_like pattern value end
  end.

(** [path LIKE prefix || '%'] *)
Definition like_prefix (prefix value : string) : bool :=
  sql_like (String.list_ascii_of_string (escape_like prefix +:+ "%")) (String.list_ascii_of_string value).

(** [slice.chunks(n)] *)
Fixpoint chunks_from {A} (fuel n : nat) (l : list A) : list (list A) :=
  match fuel, l with
  | S fuel, _ :: _ => take n l :: chunks_from fuel n (drop n l)
  | _, _ => []
  end.

Definition chunks {A} (n : nat) (l : list A) : list (list A) := chunks_from (length l) n l.

Section store.
Context `{Chrono} `{UuidText} `{Sqlite} `{Unicode} `{SnapshotJson} `{RootsJson} `{MapsJson}.

(** ** Loading *)
Definition load_tracks (file_id : Uuid) : Fs (list Track) :=
  db_bind (db_query "failed to prepare track query" (λ _, Ok tt)) (λ _,
  db_bind (db_query "failed to query tracks" (λ _, Ok tt)) (λ _,
  db_query "failed to collect tracks" (λ t,
    try_map row_to_track
      (order_by (λ a b, (tracks_stream_index a <=? tracks_stream_index b)%Z)
         (List.filter (λ r, bool_decide (tracks_file_id r = Uuid_to_string file_id))
            (t_tracks t)))))).

(** The rows of one chunk, added to the map from files to their tracks. *)
Fixpoint read_track_rows (rows : list TracksRow) (result : gmap Uuid (list Track))
    : Prelude.result VoomError (gmap Uuid (list Track)) :=
  match rows with
  | [] => Ok result
  | r :: rows =>
      match row_to_track r with
      | Err e => Err (storage_err "failed to read track row" e)
      | Ok track =>
          file_id ← parse_uuid (tracks_file_id r);
          read_track_rows rows (<[file_id := default [] (result !! file_id) ++ [track]]> result)
      end
  end.

(** [ORDER BY file_id, stream_index] *)
Definition track_leb (a b : TracksRow) : bool :=
  str_ltb (tracks_file_id a) (tracks_file_id b) ||
  bool_decide (tracks_file_id a = tracks_file_id b) &&
  (tracks_stream_index a <=? tracks_stream_index b)%Z.

Fixpoint load_track_chunks (id_chunks : list (list Uuid)) (result : gmap Uuid (list Track))
    : Fs (gmap Uuid (list Track)) :=
  match id_chunks with
  | [] => db_ret result
  | chunk :: id_chunks =>
      db_bind (db_query "failed to prepare batch track query" (λ _, Ok tt)) (λ _,
      db_bind (db_query "failed to batch query tracks" (λ t,
          Ok (order_by track_leb
                (List.filter (λ r, bool_decide (tracks_file_id r ∈ Uuid_to_string <$> chunk))
                   (t_tracks t))))) (λ rows,
      db_bind (db_query "failed to read track row" (λ _, Ok tt)) (λ _,
      db_bind (db_lift (read_track_rows rows result)) (λ result,
      load_track_chunks id_chunks result))))
  end.

Definition load_tracks_batch (file_ids : list Uuid) : Fs (gmap Uuid (list Track)) :=
  load_track_chunks (chunks 500 file_ids) ∅.

(** ** Writing a file *)

(** [ON CONFLICT(path) DO UPDATE SET ..] *)
Definition excluded (new old : FilesRow) : FilesRow :=
  set_updated_at (files_updated_at new) (set_media (files_media new) (set_status (files_status new)
    (set_content_hash (files_content_hash new) (set_size (files_size new)
      (set_filename (files_filename new) old))))).

(** [INSERT INTO files .. ON CONFLICT(path) ..]: the conflict on the path is the
    first to be looked at. *)
Definition upsert_files_row (path_str : string) (new : FilesRow) (t : FileTables)
    : result rusqlite_Error nat * FileTables :=
  if existsb (at_path path_str) (t_files t)
  then update_files (at_path path_str) (excluded new) t
  else
    let '(r, t') := insert_file new t in
    (match r with Ok _ => Ok 1%nat | Err e => Err e end, t').

Definition delete_tracks_at (path_str : string) (t : FileTables) : nat * FileTables :=
  let ids := files_id <$> List.filter (at_path path_str) (t_files t) in
  let '(n, rows) := delete_rows (λ r, bool_decide (tracks_file_id r ∈ ids)) (t_tracks t) in
  (n, put_tracks rows t).

Definition file_row (effective_id path_str filename tags_json meta_json now : string)
    (file : MediaFile) : FilesRow := {|
  files_id := effective_id;
  files_path := Some path_str;
  files_filename := filename;
  files_size := u64_as_i64 (MediaFile_size file);
  files_content_hash := default "" (MediaFile_content_hash file);
  files_expected_hash := None;
  files_status := FileStatus_as_str (MediaFile_status file);
  files_missing_since := None;
  files_superseded_by := None;
  files_media := media_columns file tags_json meta_json;
  files_last_seen_session_id := None;
  files_created_at := now;
  files_updated_at := now;
|}.

(** The loop over the tracks; [ids i] is the identifier of the [i]-th one. *)
Fixpoint insert_tracks (file_id : string) (ids : nat → Uuid) (i : nat) (tracks : list Track)
    : Fs unit :=
  match tracks with
  | [] => db_ret tt
  | track :: tracks =>
      db_bind (fs_run "failed to insert track" (insert_track (track_row (ids i) file_id track)))
        (λ _, insert_tracks file_id ids (S i) tracks)
  end.

Definition upsert_tracks_in_tx (file_id : string) (ids : nat → Uuid) (tracks : list Track)
    : Fs unit :=
  db_bind (db_query "failed to prepare track insert" (λ _, Ok tt)) (λ _,
  insert_tracks file_id ids 0 tracks).

(** [serde_json::to_string(..).map_err(other_storage_err(msg))?] *)
Definition json_text (msg : string) (r : result string string) : result VoomError string :=
  match r with Ok j => Ok j | Err e => Err (other_storage_err msg e) end.

Definition sqlite_upsert_file (now_dt : DateTime) (track_ids : nat → Uuid) (file : MediaFile)
    : Fs unit :=
  db_bind db_conn (λ _,
  let now := bind_time now_dt in
  db_bind (db_lift (json_text "failed to serialize tags" (tags_to_json (MediaFile_tags file))))
    (λ tags_json,
  db_bind (db_lift (json_text "failed to serialize metadata"
                      (metadata_to_json (MediaFile_plugin_metadata file)))) (λ meta_json,
  let filename := filename_string (MediaFile_path file) in
  let path_str := to_string_lossy (MediaFile_path file) in
  db_bind (db_query "failed to query existing file" (λ t,
      optional (query_row (at_path path_str) (λ r, Ok (files_id r)) (t_files t)))) (λ existing_id,
  let effective_id := default (Uuid_to_string (MediaFile_id file)) existing_id in
  db_transaction "failed to begin transaction" (
    db_bind (db_execute "failed to delete old tracks" (delete_tracks_at path_str)) (λ _,
    db_bind (fs_exec "failed to upsert file"
               (upsert_files_row path_str
                  (file_row effective_id path_str filename tags_json meta_json now file))) (λ _,
    db_bind (upsert_tracks_in_tx effective_id track_ids (MediaFile_tracks file)) (λ _,
    db_commit "failed to commit")))))))).

(** ** Reading files *)
Definition read_file (msg : string) (q : FileTables → option FilesRow)
    (tracks_of : FileRow → result VoomError Uuid) : Fs (option MediaFile) :=
  db_bind (db_query msg (λ t, try_opt row_to_file (q t))) (λ file_row,
  match file_row with
  | Some fr =>
      db_bind (db_lift (tracks_of fr)) (λ id,
      db_bind (load_tracks id) (λ tracks,
      db_bind (db_lift (to_media_file fr tracks)) (λ file, db_ret (Some file))))
  | None => db_ret None
  end).

Definition sqlite_file (id : Uuid) : Fs (option MediaFile) :=
  db_bind db_conn (λ _,
  read_file "failed to get file" (λ t, List.find (has_file_id (Uuid_to_string id)) (t_files t))
    (λ _, Ok id)).

Definition sqlite_file_by_path (path : PathBuf) : Fs (option MediaFile) :=
  db_bind db_conn (λ _,
  read_file "failed to get file by path"
    (λ t, List.find (at_path (to_string_lossy path)) (t_files t))
    (λ fr, parse_uuid (FileRow_id fr))).

Definition sqlite_predecessor_of (successor_id : Uuid) : Fs (option MediaFile) :=
  db_bind db_conn (λ _,
  read_file ("failed to query predecessor for " +:+ Uuid_to_string successor_id)
    (λ t, select_one (λ r, bool_decide (files_superseded_by r = Some (Uuid_to_string successor_id)))
            (t_files t))
    (λ fr, parse_uuid (FileRow_id fr))).

Definition sqlite_predecessor_id_of (successor_id : Uuid) : Fs (option Uuid) :=
  db_bind db_conn (λ _,
  db_bind (db_query ("failed to query predecessor id for " +:+ Uuid_to_string successor_id) (λ t,
      Ok (files_id <$>
            select_one (λ r, bool_decide (files_superseded_by r = Some (Uuid_to_string successor_id)))
              (t_files t)))) (λ id_str,
  db_lift (try_opt parse_uuid id_str))).

Definition sqlite_file_fingerprint_by_path (path : PathBuf) : Fs (option StoredFingerprint) :=
  db_bind db_conn (λ _,
  db_bind (db_query "failed to get file fingerprint by path" (λ t,
      Ok (List.find (at_path (to_string_lossy path)) (t_files t)))) (λ row,
  match row with
  | None => db_ret None
  | Some r =>
      if bool_decide (files_content_hash r = "") then db_ret None
      else
        db_bind (db_lift (parse_datetime (files_introspected_at (files_media r)))) (λ last_seen,
        if (files_size r <? 0)%Z
        then db_err (other_storage_err "file size does not fit in u64"
                       "out of range integral type conversion attempted")
        else db_ret (Some {| StoredFingerprint_size := Z.to_N (files_size r);
                             StoredFingerprint_content_hash := files_content_hash r;
                             StoredFingerprint_last_seen := last_seen |}))
  end)).

(** ** Listing *)

(** The conditions of the [WHERE] clause on a file. *)
Definition file_matches (filters : FileFilters) (r : FilesRow) : bool :=
  (FileFilters_include_missing filters || bool_decide (files_status r = "active")) &&
  match FileFilters_container filters with
  | Some c => bool_decide (files_container (files_media r) = Container_as_str c)
  | None => true
  end &&
  match FileFilters_path_prefix filters with
  | Some prefix => match files_path r with Some p => like_prefix prefix p | None => false end
  | None => true
  end.

Definition has_track_filter (filters : FileFilters) : bool :=
  bool_decide (is_Some (FileFilters_has_codec filters)) ||
  bool_decide (is_Some (FileFilters_has_language filters)).

(** [INNER JOIN tracks], with the conditions on the joined track *)
Definition track_matches (filters : FileFilters) (r : TracksRow) : bool :=
  match FileFilters_has_codec filters with
  | Some codec => bool_decide (tracks_codec r = codec)
  | None => true
  end &&
  match FileFilters_has_language filters with
  | Some lang => bool_decide (tracks_language r = lang)
  | None => true
  end.

Definition matching_files (filters : FileFilters) (t : FileTables) : list FilesRow :=
  List.filter (λ r,
    file_matches filters r &&
    (negb (has_track_filter filters) ||
     existsb (λ q, bool_decide (tracks_file_id q = files_id r) && track_matches filters q)
       (t_tracks t))) (t_files t).

(** [ORDER BY path], in which [NULL] comes first *)
Definition path_leb (a b : FilesRow) : bool :=
  match files_path a, files_path b with
  | None, _ => true
  | Some _, None => false
  | Some p, Some q => str_leb p q
  end.

(** [rows.iter().zip(file_ids.iter())], with the tracks of each file *)
Definition to_media_files (tracks_map : gmap Uuid (list Track)) (rows : list (FileRow * Uuid))
    : result VoomError (list MediaFile) :=
  try_map (λ x, to_media_file x.1 (default [] (tracks_map !! x.2))) rows.

Definition sqlite_list_files (filters : FileFilters) : Fs (list MediaFile) :=
  db_bind db_conn (λ _,
  db_bind (db_query "failed to prepare list query" (λ t,
      paginate (FileFilters_limit filters) (FileFilters_offset filters)
        (order_by path_leb (matching_files filters t)))) (λ found,
  db_bind (db_query "failed to list files" (λ _, Ok tt)) (λ _,
  db_bind (db_query "failed to collect files" (λ _, try_map row_to_file found)) (λ rows,
  db_bind (db_lift (try_map (λ fr, parse_uuid (FileRow_id fr)) rows)) (λ file_ids,
  db_bind (load_tracks_batch file_ids) (λ tracks_map,
  db_lift (to_media_files tracks_map (zip rows file_ids)))))))).

Definition sqlite_count_files (filters : FileFilters) : Fs u64 :=
  db_bind db_conn (λ _,
  db_query "failed to count files" (λ t,
    Ok (N.of_nat (length (remove_dups (files_id <$> matching_files filters t)))))).

(** ** Single updates *)
Definition sqlite_mark_missing (now : DateTime) (id : Uuid) : Fs unit :=
  db_bind db_conn (λ _,
  fs_exec "failed to mark file missing"
    (update_files (λ r, has_file_id (Uuid_to_string id) r && is_active r)
       (λ r, set_missing_since (Some (bind_time now)) (set_status "missing" r)))).

Definition sqlite_reactivate_file (now : DateTime) (id : Uuid) (new_path : PathBuf) : Fs unit :=
  db_bind db_conn (λ _,
  fs_exec "failed to reactivate file"
    (update_files (has_file_id (Uuid_to_string id)) (λ r,
       set_updated_at (bind_time now) (set_filename (filename_string new_path)
         (set_path (Some (to_string_lossy new_path))
            (set_missing_since None (set_status "active" r))))))).

(** [SET path, filename, updated_at] *)
Definition set_new_path (now : DateTime) (new_path : PathBuf) (r : FilesRow) : FilesRow :=
  set_updated_at (bind_time now) (set_filename (filename_string new_path)
    (set_path (Some (to_string_lossy new_path)) r)).

Definition sqlite_rename_file_path (now : DateTime) (id : Uuid) (new_path : PathBuf) : Fs unit :=
  db_bind db_conn (λ _,
  fs_exec "failed to rename file path"
    (update_files (has_file_id (Uuid_to_string id)) (set_new_path now new_path))).

Definition sqlite_update_expected_hash (id : Uuid) (hash : string) : Fs unit :=
  db_bind db_conn (λ _,
  fs_exec "failed to update expected_hash"
    (update_files (has_file_id (Uuid_to_string id)) (set_expected_hash hash))).

Definition sqlite_set_file_status (now : DateTime) (id : Uuid) (status : FileStatus) : Fs unit :=
  db_bind db_conn (λ _,
  fs_exec "failed to set file status"
    (update_files (has_file_id (Uuid_to_string id)) (λ r,
       set_updated_at (bind_time now) (set_status (FileStatus_as_str status) r)))).

(** [status = 'missing' AND missing_since < cutoff] *)
Definition long_missing (cutoff : string) (r : FilesRow) : bool :=
  bool_decide (files_status r = "missing") &&
  match files_missing_since r with Some since => str_ltb since cutoff | None => false end.

(** Two statements, each on its own. *)
Definition sqlite_purge_missing (older_than : DateTime) : Fs u64 :=
  db_bind db_conn (λ _,
  let cutoff := bind_time older_than in
  db_bind (db_execute "failed to purge transitions for missing files" (λ t,
      delete_transitions (files_id <$> List.filter (long_missing cutoff) (t_files t)) t)) (λ _,
  db_bind (fs_run "failed to purge missing files" (delete_files (long_missing cutoff))) (λ deleted,
  db_ret (N.of_nat deleted)))).

Fixpoint mark_paths_loop (discovered : list string) (scanned_dirs : list PathBuf) (now : string)
    (active_files : list (string * string)) : Fs u32 :=
  match active_files with
  | [] => db_ret 0%N
  | (id, path) :: active_files =>
      if is_under_any path scanned_dirs && negb (bool_decide (path ∈ discovered)) then
        db_bind (fs_exec "failed to mark missing"
                   (update_files (λ r, has_file_id id r && is_active r)
                      (λ r, set_missing_since (Some now) (set_status "missing" r)))) (λ _,
        db_bind (mark_paths_loop discovered scanned_dirs now active_files) (λ n, db_ret (n + 1)%N))
      else mark_paths_loop discovered scanned_dirs now active_files
  end.

Definition sqlite_mark_missing_paths (now : DateTime) (discovered_paths scanned_dirs : list PathBuf)
    : Fs u32 :=
  db_bind db_conn (λ _,
  db_bind (db_query "failed to prepare missing-path check" (λ t,
      Ok (id_and_path <$> select (λ r, is_active r && bool_decide (is_Some (files_path r)))
            (t_files t)))) (λ active_files,
  db_bind (db_query "failed to query active files" (λ _, Ok tt)) (λ _,
  db_bind (db_query "failed to collect active files" (λ _, Ok tt)) (λ _,
  mark_paths_loop (to_string_lossy <$> discovered_paths) scanned_dirs (bind_time now)
    active_files)))).
End store.
