(* ===== verification/TransitionStore.v ===== *)
(** * Transitions and bad files in the SQLite store

    [plugins/sqlite-store/src/store/file_transition_storage.rs] without its reports on
    savings and on failed plans, [bad_file_storage.rs], the pruning of missing files
    in [maintenance_storage.rs], and the writes of
    [record_post_execution] of [file_storage.rs], which joins the two. *)
From S2P Require Import Prelude Json Media Plan Jobs Engine Events Process Transitions FileTables.
From S2P Require Import ScanSessions RowMappers FileStore.

Record BadFileFilters : Type := {
  BadFileFilters_path_prefix : option string;
  BadFileFilters_error_source : option BadFileSource;
  BadFileFilters_limit : option u32;
  BadFileFilters_offset : option u32;
}.

Record SessionSummary : Type := {
  SessionSummary_session_id : Uuid;
  SessionSummary_started_at : DateTime;
  SessionSummary_failure_count : u64;
}.

(** [.filter(|s| !s.is_empty())] *)
Definition non_empty (s : option string) : option string :=
  match s with Some "" => None | _ => s end.

Section store.
Context `{Chrono} `{UuidText} `{Sqlite} `{Unicode} `{SnapshotJson} `{RootsJson} `{MapsJson}.

(** ** Writing transitions *)
Definition full_transition_row (t : FileTransition) : TransitionsRow := {|
  transitions_id := Uuid_to_string (FileTransition_id t);
  transitions_file_id := Uuid_to_string (FileTransition_file_id t);
  transitions_path := to_string_lossy (FileTransition_path t);
  transitions_from_path := to_string_lossy <$> FileTransition_from_path t;
  transitions_from_hash := non_empty (FileTransition_from_hash t);
  transitions_to_hash := FileTransition_to_hash t;
  transitions_from_size := u64_as_i64 <$> FileTransition_from_size t;
  transitions_to_size := u64_as_i64 (FileTransition_to_size t);
  transitions_source := TransitionSource_as_str (FileTransition_source t);
  transitions_source_detail := non_empty (FileTransition_source_detail t);
  transitions_plan_id := Uuid_to_string <$> FileTransition_plan_id t;
  transitions_duration_ms := u64_as_i64 <$> FileTransition_duration_ms t;
  transitions_actions_taken := Z.of_N <$> FileTransition_actions_taken t;
  transitions_tracks_modified := Z.of_N <$> FileTransition_tracks_modified t;
  transitions_outcome := ProcessingOutcome_as_str <$> FileTransition_outcome t;
  transitions_policy_name := FileTransition_policy_name t;
  transitions_phase_name := FileTransition_phase_name t;
  transitions_metadata_snapshot := FileTransition_metadata_snapshot t ≫= snapshot_text;
  transitions_error_message := FileTransition_error_message t;
  transitions_session_id := Uuid_to_string <$> FileTransition_session_id t;
  transitions_created_at := bind_time (FileTransition_created_at t);
|}.

Definition insert_full_transition_in_tx (t : FileTransition) : Fs unit :=
  fs_run "failed to insert transition" (insert_transition (full_transition_row t)).

Definition sqlite_record_transition (t : FileTransition) : Fs unit :=
  db_bind db_conn (λ _, insert_full_transition_in_tx t).

(** ** Reading transitions *)
Definition parse_uuid_for_row (s field : string) : result rusqlite_Error Uuid :=
  match Uuid_parse_str s with
  | Ok u => Ok u
  | Err e => Err (rusqlite_FromSqlConversionFailure
      ("invalid UUID in " +:+ field +:+ ": " +:+ s +:+ ": " +:+ e))
  end.

(** The columns [error_message] and [session_id] are not selected. *)
Definition row_to_transition (r : TransitionsRow) : result rusqlite_Error FileTransition :=
  id ← parse_uuid_for_row (transitions_id r) "file_transitions.id";
  file_id ← parse_uuid_for_row (transitions_file_id r) "file_transitions.file_id";
  source ← match TransitionSource_parse (transitions_source r) with
           | Some s => Ok s
           | None => Err (rusqlite_FromSqlConversionFailure
               ("unknown transition source in file_transitions.source: " +:+ transitions_source r))
           end;
  plan_id ← try_opt (λ s, parse_uuid_for_row s "file_transitions.plan_id")
              (non_empty (transitions_plan_id r));
  created_at ← parse_required_datetime (transitions_created_at r) "file_transitions.created_at";
  from_size ← checked_optional_i64_to_u64 (transitions_from_size r) "file_transitions.from_size";
  to_size ← checked_i64_to_u64 (transitions_to_size r) "file_transitions.to_size";
  duration_ms ← checked_optional_i64_to_u64 (transitions_duration_ms r)
                  "file_transitions.duration_ms";
  actions_taken ← checked_optional_i64_to_u32 (transitions_actions_taken r)
                    "file_transitions.actions_taken";
  tracks_modified ← checked_optional_i64_to_u32 (transitions_tracks_modified r)
                      "file_transitions.tracks_modified";
  Ok {| FileTransition_id := id;
        FileTransition_file_id := file_id;
        FileTransition_path := transitions_path r;
        FileTransition_from_path := non_empty (transitions_from_path r);
        FileTransition_from_hash := non_empty (transitions_from_hash r);
        FileTransition_to_hash := transitions_to_hash r;
        FileTransition_from_size := from_size;
        FileTransition_to_size := to_size;
        FileTransition_source := source;
        FileTransition_source_detail := non_empty (transitions_source_detail r);
        FileTransition_plan_id := plan_id;
        FileTransition_created_at := created_at;
        FileTransition_duration_ms := duration_ms;
        FileTransition_actions_taken := actions_taken;
        FileTransition_tracks_modified := tracks_modified;
        FileTransition_outcome := transitions_outcome r ≫= ProcessingOutcome_parse;
        FileTransition_policy_name := transitions_policy_name r;
        FileTransition_phase_name := transitions_phase_name r;
        FileTransition_metadata_snapshot :=
          transitions_metadata_snapshot r ≫= λ s,
            match snapshot_from_json s with Ok m => Some m | Err _ => None end;
        FileTransition_error_message := None;
        FileTransition_session_id := None |}.

(** [SELECT .. WHERE p ORDER BY created_at]; [what] ends the messages. *)
Definition read_transitions (name what : string) (p : TransitionsRow → bool)
    : Fs (list FileTransition) :=
  db_bind db_conn (λ _,
  db_bind (db_query ("failed to prepare " +:+ name +:+ " query") (λ _, Ok tt)) (λ _,
  db_bind (db_query ("failed to query transitions " +:+ what) (λ _, Ok tt)) (λ _,
  db_query ("failed to collect transitions " +:+ what) (λ t,
    try_map row_to_transition
      (order_by (λ a b, str_leb (transitions_created_at a) (transitions_created_at b))
         (List.filter p (t_transitions t))))))).

Definition sqlite_transitions_for_file (file_id : Uuid) : Fs (list FileTransition) :=
  read_transitions "transitions_for_file" "for file"
    (λ r, bool_decide (transitions_file_id r = Uuid_to_string file_id)).

Definition sqlite_transitions_by_source (source : TransitionSource) : Fs (list FileTransition) :=
  read_transitions "transitions_by_source" "by source"
    (λ r, bool_decide (transitions_source r = TransitionSource_as_str source)).

Definition sqlite_transitions_for_path (path : PathBuf) : Fs (list FileTransition) :=
  read_transitions "transitions_for_path" "for path"
    (λ r, bool_decide (transitions_path r = to_string_lossy path)
          || bool_decide (transitions_from_path r = Some (to_string_lossy path))).

(** ** Failures *)
Definition is_failure (r : TransitionsRow) : bool :=
  bool_decide (transitions_outcome r = Some "failure") &&
  bool_decide (is_Some (transitions_session_id r)).

Definition sqlite_latest_failure_session : Fs (option Uuid) :=
  db_bind db_conn (λ _,
  db_bind (db_query "failed to query latest failure session" (λ t,
      Ok (head (order_by (λ a b, str_leb (transitions_created_at b) (transitions_created_at a))
                  (List.filter is_failure (t_transitions t)))))) (λ row,
  db_ret ((row ≫= transitions_session_id) ≫= λ s,
            match Uuid_parse_str s with Ok u => Some u | Err _ => None end))).

(** [MIN] of a column of text *)
Definition min_str (l : list string) : string :=
  match l with
  | [] => ""
  | a :: l => foldl (λ m b, if str_leb m b then m else b) a l
  end.

(** [GROUP BY session_id]: the session, its first failure and their number *)
Definition failure_groups (rows : list TransitionsRow) : list (string * string * nat) :=
  let failures := List.filter is_failure rows in
  (λ s,
     let group := List.filter (λ r, bool_decide (transitions_session_id r = Some s)) failures in
     (s, min_str (transitions_created_at <$> group), length group))
  <$> group_keys (omap transitions_session_id failures).

Definition group_to_summary (g : string * string * nat) : result rusqlite_Error SessionSummary :=
  session_id ← match Uuid_parse_str g.1.1 with
               | Ok u => Ok u
               | Err e => Err (rusqlite_FromSqlConversionFailure ("invalid UUID: " +:+ e))
               end;
  started_at ← match parse_rfc3339 g.1.2 with
               | Ok t => Ok t
               | Err e => Err (rusqlite_FromSqlConversionFailure ("corrupt datetime: " +:+ e))
               end;
  Ok {| SessionSummary_session_id := session_id;
        SessionSummary_started_at := started_at;
        SessionSummary_failure_count := N.of_nat g.2 |}.

Definition sqlite_failure_sessions : Fs (list SessionSummary) :=
  db_bind db_conn (λ _,
  db_bind (db_query "failed to prepare failure_sessions query" (λ _, Ok tt)) (λ _,
  db_bind (db_query "failed to query failure sessions" (λ _, Ok tt)) (λ _,
  db_query "failed to collect failure sessions" (λ t,
    try_map group_to_summary
      (take 20 (order_by (λ a b, str_leb b.1.2 a.1.2) (failure_groups (t_transitions t)))))))).

(** ** Retention *)

(** [rowid NOT IN (SELECT MAX(rowid) .. GROUP BY file_id)]: the rows that are not the
    last of their file. Rows are listed in the order of their [rowid]. *)
Fixpoint superseded_transitions (rows : list TransitionsRow) : list TransitionsRow :=
  match rows with
  | [] => []
  | r :: rows =>
      if existsb (λ q, bool_decide (transitions_file_id q = transitions_file_id r)) rows
      then r :: superseded_transitions rows
      else superseded_transitions rows
  end.

Definition ranked_transitions (rows : list TransitionsRow) : list (nat * TransitionsRow) :=
  imap (λ i r, (S i, r))
    (order_by (λ a b, str_leb (transitions_created_at b) (transitions_created_at a))
       (superseded_transitions rows)).

Definition expired_transition (cutoff : option string) (keep_last : option Z)
    (x : nat * TransitionsRow) : bool :=
  match cutoff with Some c => str_ltb (transitions_created_at x.2) c | None => false end
  || match keep_last with Some n => (n <? Z.of_nat x.1)%Z | None => false end.

Definition expired_transitions (cutoff : option string) (keep_last : option Z)
    (rows : list TransitionsRow) : list TransitionsRow :=
  snd <$> List.filter (expired_transition cutoff keep_last) (ranked_transitions rows).

Definition count_eligible (t : FileTables) : result rusqlite_Error u64 :=
  Ok (N.of_nat (length (superseded_transitions (t_transitions t)))).

Definition sqlite_prune_old_file_transitions (now : DateTime) (policy : RetentionPolicy)
    : Fs PruneReport :=
  if RetentionPolicy_is_disabled policy then
    db_bind db_conn (λ _,
    db_bind (db_query "failed to count file_transitions" count_eligible) (λ kept,
    db_ret {| PruneReport_deleted := 0; PruneReport_kept := kept |}))
  else
    db_bind db_conn (λ _,
    let cutoff := RetentionPolicy_cutoff_str now policy in
    let keep_last := RetentionPolicy_keep_last_i64 policy in
    db_bind (db_execute "failed to prune file_transitions" (λ t,
        let ids := transitions_id <$> expired_transitions cutoff keep_last (t_transitions t) in
        let '(n, rows) := delete_rows (λ r, bool_decide (transitions_id r ∈ ids))
                            (t_transitions t) in
        (n, put_transitions rows t))) (λ deleted,
    db_bind (db_query "failed to count remaining file_transitions" count_eligible) (λ kept,
    db_ret {| PruneReport_deleted := N.of_nat deleted; PruneReport_kept := kept |}))).

Definition sqlite_count_old_file_transitions (now : DateTime) (policy : RetentionPolicy)
    : Fs PruneReport :=
  if RetentionPolicy_is_disabled policy then
    db_bind db_conn (λ _,
    db_bind (db_query "failed to count file_transitions" count_eligible) (λ kept,
    db_ret {| PruneReport_deleted := 0; PruneReport_kept := kept |}))
  else
    db_bind db_conn (λ _,
    let cutoff := RetentionPolicy_cutoff_str now policy in
    let keep_last := RetentionPolicy_keep_last_i64 policy in
    db_bind (db_query "failed to count old file_transitions" (λ t,
        Ok (N.of_nat (length (expired_transitions cutoff keep_last (t_transitions t)))))) (λ deleted,
    db_bind (db_query "failed to count eligible file_transitions" count_eligible) (λ eligible,
    db_ret {| PruneReport_deleted := deleted; PruneReport_kept := eligible - deleted |}))).

(** ** Bad files: [bad_file_storage.rs] *)
Definition bad_at (path : PathBuf) (r : BadFilesRow) : bool :=
  bool_decide (bad_path r = to_string_lossy path).

Definition delete_bad_files (p : BadFilesRow → bool) (t : FileTables) : nat * FileTables :=
  let '(n, rows) := delete_rows p (t_bad_files t) in (n, put_bad_files rows t).

Definition delete_bad_file_by_path_in_tx (path : PathBuf) : Fs unit :=
  db_bind (db_execute "failed to delete bad file by path" (delete_bad_files (bad_at path)))
    (λ _, db_ret tt).

(** [ON CONFLICT(path) DO UPDATE SET ..] *)
Definition bad_excluded (new old : BadFilesRow) : BadFilesRow := {|
  bad_id := bad_id old;
  bad_path := bad_path old;
  bad_size := bad_size new;
  bad_content_hash := bad_content_hash new;
  bad_error := bad_error new;
  bad_error_source := bad_error_source new;
  bad_attempt_count := bad_attempt_count old + 1;
  bad_first_seen_at := bad_first_seen_at old;
  bad_last_seen_at := bad_last_seen_at new;
|}.

Definition upsert_bad_row (new : BadFilesRow) (t : FileTables)
    : result rusqlite_Error unit * FileTables :=
  let same r := bool_decide (bad_path r = bad_path new) in
  if existsb same (t_bad_files t)
  then (Ok tt, put_bad_files (update_rows same (bad_excluded new) (t_bad_files t)).2 t)
  else if bool_decide (bad_id new ∈ bad_id <$> t_bad_files t)
  then (constraint_failed "bad_files.id", t)
  else (Ok tt, put_bad_files (t_bad_files t ++ [new]) t).

Definition sqlite_upsert_bad_file (bad_file : BadFile) : Fs unit :=
  db_bind db_conn (λ _, fs_run "failed to upsert bad file" (upsert_bad_row (bad_file_row bad_file))).

Definition sqlite_bad_file_by_path (path : PathBuf) : Fs (option BadFile) :=
  db_bind db_conn (λ _,
  db_query "failed to get bad file" (λ t,
    optional (query_row (bad_at path) row_to_bad_file (t_bad_files t)))).

Definition bad_file_matches (filters : BadFileFilters) (r : BadFilesRow) : bool :=
  match BadFileFilters_path_prefix filters with
  | Some prefix => like_prefix prefix (bad_path r)
  | None => true
  end &&
  match BadFileFilters_error_source filters with
  | Some s => bool_decide (bad_error_source r = BadFileSource_to_string s)
  | None => true
  end.

(** Always with a limit and an offset. *)
Definition sqlite_list_bad_files (filters : BadFileFilters) : Fs (list BadFile) :=
  db_bind db_conn (λ _,
  let limit := N.min 10000 (default 10000%N (BadFileFilters_limit filters)) in
  let offset := default 0%N (BadFileFilters_offset filters) in
  db_bind (db_query "failed to prepare bad files query" (λ _, Ok tt)) (λ _,
  db_bind (db_query "failed to query bad files" (λ _, Ok tt)) (λ _,
  db_query "failed to collect bad files" (λ t,
    try_map row_to_bad_file
      (take (N.to_nat limit) (drop (N.to_nat offset)
         (order_by (λ a b, str_leb (bad_last_seen_at b) (bad_last_seen_at a))
            (List.filter (bad_file_matches filters) (t_bad_files t))))))))).

Definition sqlite_count_bad_files (filters : BadFileFilters) : Fs u64 :=
  db_bind db_conn (λ _,
  db_query "failed to count bad files" (λ t,
    Ok (N.of_nat (length (List.filter (bad_file_matches filters) (t_bad_files t)))))).

Definition sqlite_delete_bad_file (id : Uuid) : Fs unit :=
  db_bind db_conn (λ _,
  db_bind (db_execute "failed to delete bad file"
             (delete_bad_files (λ r, bool_decide (bad_id r = Uuid_to_string id)))) (λ _, db_ret tt)).

Definition sqlite_delete_bad_file_by_path (path : PathBuf) : Fs unit :=
  db_bind db_conn (λ _, delete_bad_file_by_path_in_tx path).

(** ** Maintenance: [maintenance_storage.rs] *)

(** [chunked_delete] of [mod.rs] for its one target, [PruneTarget::BadFiles] *)
Fixpoint delete_chunks (cs : list (list string)) : Fs u64 :=
  match cs with
  | [] => db_ret 0%N
  | chunk :: cs =>
      db_bind (db_execute "failed to delete from bad_files"
                 (delete_bad_files (λ r, bool_decide (bad_id r ∈ chunk)))) (λ deleted,
      db_bind (delete_chunks cs) (λ n, db_ret (N.of_nat deleted + n)%N))
  end.

Definition chunked_delete (ids : list string) : Fs u64 :=
  match ids with
  | [] => db_ret 0%N
  | _ => db_bind db_conn (λ _, delete_chunks (chunks 500 ids))
  end.

Fixpoint mark_ids_loop (now : string) (ids : list Uuid) : Fs u64 :=
  match ids with
  | [] => db_ret 0%N
  | id :: ids =>
      db_bind (fs_exec "failed to mark file missing"
                 (update_files (λ r, has_file_id (Uuid_to_string id) r && is_active r)
                    (λ r, set_missing_since (Some now) (set_status "missing" r)))) (λ _,
      db_bind (mark_ids_loop now ids) (λ n, db_ret (n + 1)%N))
  end.

(** [bad_there] and [file_there] are the answers of the file system ([exists]) to the
    two rounds of checks. Each statement stands on its own. *)
Definition sqlite_prune_missing_files_under (now : DateTime) (bad_there file_there : PathBuf → bool)
    (root : PathBuf) : Fs u64 :=
  let root_str := to_string_lossy root in
  db_bind db_conn (λ _,
  db_bind (db_query "failed to prepare bad_files prune" (λ _, Ok tt)) (λ _,
  db_bind (db_query "failed to query bad_files" (λ _, Ok tt)) (λ _,
  db_bind (db_query "failed to collect bad_files" (λ t,
      Ok ((λ r, (bad_id r, bad_path r)) <$>
            select (λ r, like_prefix root_str (bad_path r)) (t_bad_files t)))) (λ bad_files,
  db_bind (chunked_delete (List.filter (λ b, negb (bad_there b.2)) bad_files).*1) (λ _,
  db_bind db_conn (λ _,
  db_bind (db_query "failed to prepare prune query" (λ _, Ok tt)) (λ _,
  db_bind (db_query "failed to query files" (λ _, Ok tt)) (λ _,
  db_bind (db_query "failed to collect files" (λ t,
      Ok (id_and_path <$> select (λ r, is_active r &&
            match files_path r with Some p => like_prefix root_str p | None => false end)
            (t_files t)))) (λ files,
  match omap (λ f, match Uuid_parse_str f.1 with Ok id => Some id | Err _ => None end)
          (List.filter (λ f, negb (file_there f.2)) files) with
  | [] => db_ret 0%N
  | missing_ids =>
      db_bind db_conn (λ _, mark_ids_loop (bind_time now) missing_ids)
  end))))))))).

Definition sqlite_prune_missing_files (now : DateTime) (bad_there file_there : PathBuf → bool)
    : Fs u64 := sqlite_prune_missing_files_under now bad_there file_there "/".

(** ** After the execution of a plan

    An empty hash passed as [Some] stops a debug build and is written as it is by a
    release build, which is modelled. *)
Definition sqlite_record_post_execution (now : DateTime) (new_path : option PathBuf)
    (new_expected_hash : option string) (transition : FileTransition) : Fs unit :=
  let id_str := Uuid_to_string (FileTransition_file_id transition) in
  db_bind db_conn (λ _,
  db_transaction "failed to begin post-execution transaction" (
    db_bind (match new_path with
             | Some new_path =>
                 fs_exec "failed to rename file path in bundle"
                   (update_files (has_file_id id_str) (set_new_path now new_path))
             | None => db_ret tt
             end) (λ _,
    db_bind (insert_full_transition_in_tx transition) (λ _,
    db_bind (match new_expected_hash with
             | Some hash =>
                 fs_exec "failed to update expected_hash in bundle"
                   (update_files (has_file_id id_str) (set_expected_hash hash))
             | None => db_ret tt
             end) (λ _,
    db_bind (delete_bad_file_by_path_in_tx (FileTransition_path transition)) (λ _,
    db_commit "failed to commit post-execution bundle")))))).
End store.
