(* ===== verification/ScanSpec.v ===== *)
(** * What a scan does to the stored files

    The specification of an ingestion as a relation on the rows of [files], one
    constructor per decision, and the map from paths to active files that the
    end of a session leaves. *)
From S2P Require Import Prelude Json Media Plan Jobs Engine Events Process Transitions FileTables.
From S2P Require Import ScanSessions.

(** ** Views of the table *)
Definition row_at (rows : list FilesRow) (p : string) : option FilesRow :=
  List.find (at_path p) rows.

Definition row_view (r : FilesRow) : option (Z * string) :=
  if is_active r then Some (files_size r, files_content_hash r) else None.

(** Size and content hash of the active file at a path. *)
Definition active_at (rows : list FilesRow) (p : string) : option (Z * string) :=
  row_at rows p ≫= row_view.

Definition update_id (id : string) (f : FilesRow → FilesRow) (rows : list FilesRow)
    : list FilesRow := (λ r, if has_file_id id r then f r else r) <$> rows.

(** The row [id] and the references to it are gone. *)
Definition forget_file (id : string) (rows : list FilesRow) : list FilesRow :=
  List.filter (λ r, negb (has_file_id id r))
    ((λ r, if bool_decide (files_superseded_by r = Some id) then set_superseded_by None r else r)
       <$> rows).

Section spec.
Context `{Chrono} `{UuidText} `{Sqlite} `{Unicode} `{SnapshotJson} `{RootsJson}.

(** The session that last saw a file has not been completed. *)
Definition unfinished (sessions : list SessionsRow) (last_seen : option string) : bool :=
  match last_seen with
  | None => false
  | Some s =>
      match List.find (has_session_id s) sessions with
      | Some r => negb (bool_decide (sessions_status r = "completed"))
      | None => true
      end
  end.

(** The roots that a session was begun with. *)
Definition roots_of (sessions : list SessionsRow) (session_str : string)
    : option (list PathBuf) :=
  r ← List.find (has_session_id session_str) sessions;
  match roots_from_json (sessions_roots_json r) with Ok roots => Some roots | Err _ => None end.

Definition seen_again (ctx : IngestCtx) (r : FilesRow) : FilesRow :=
  let r' := set_seen (ctx_size ctx) (ctx_hash ctx) (ctx_session_str ctx) (ctx_now ctx) r in
  if bool_decide (files_expected_hash r = None) then set_expected_hash (ctx_hash ctx) r' else r'.

Definition moved_here (ctx : IngestCtx) (r : FilesRow) : FilesRow :=
  set_seen (ctx_size ctx) (ctx_hash ctx) (ctx_session_str ctx) (ctx_now ctx)
    (set_filename (ctx_filename ctx) (set_path (Some (ctx_path_str ctx)) r)).

Definition replaced_by (ctx : IngestCtx) (new_id : Uuid) (r : FilesRow) : FilesRow :=
  set_superseded_by (Some (Uuid_to_string new_id))
    (set_missing_since (Some (ctx_now ctx)) (set_status "missing" (set_path None r))).

(** No row has the path: the file is the one of a missing row with its content
    and a path under the roots, or it is new. *)
Inductive place_file (new_id : Uuid) (ctx : IngestCtx) (roots : list PathBuf)
    (rows : list FilesRow) : IngestDecision → list FilesRow → Prop :=
| place_moved r prior u :
    r ∈ rows → is_move_source (ctx_hash ctx) r = true → files_path r = Some prior →
    is_under_any prior roots = true → Uuid_parse_str (files_id r) = Ok u →
    place_file new_id ctx roots rows (IngestDecision_Moved u prior)
      (update_id (files_id r) (moved_here ctx) rows)
| place_new :
    (∀ r prior, r ∈ rows → is_move_source (ctx_hash ctx) r = true → files_path r = Some prior →
       is_under_any prior roots = false) →
    place_file new_id ctx roots rows (IngestDecision_New new_id true)
      (rows ++ [active_file_row new_id ctx]).

Inductive ingest_file (new_id : Uuid) (ctx : IngestCtx)
    (sessions : list SessionsRow) (rows : list FilesRow)
    : IngestDecision → list FilesRow → Prop :=
| ingest_duplicate r u :
    row_at rows (ctx_path_str ctx) = Some r →
    files_last_seen_session_id r = Some (ctx_session_str ctx) →
    Uuid_parse_str (files_id r) = Ok u →
    ingest_file new_id ctx sessions rows (IngestDecision_Duplicate u) rows
| ingest_same r u :
    row_at rows (ctx_path_str ctx) = Some r →
    files_last_seen_session_id r ≠ Some (ctx_session_str ctx) →
    unfinished sessions (files_last_seen_session_id r) = false →
    files_expected_hash r = None ∨ files_expected_hash r = Some (ctx_hash ctx) →
    Uuid_parse_str (files_id r) = Ok u →
    ingest_file new_id ctx sessions rows (IngestDecision_Unchanged u)
      (update_id (files_id r) (seen_again ctx) rows)
| ingest_changed r u h :
    row_at rows (ctx_path_str ctx) = Some r →
    files_last_seen_session_id r ≠ Some (ctx_session_str ctx) →
    unfinished sessions (files_last_seen_session_id r) = false →
    files_expected_hash r = Some h → h ≠ ctx_hash ctx →
    Uuid_parse_str (files_id r) = Ok u →
    ingest_file new_id ctx sessions rows (IngestDecision_ExternallyChanged new_id u)
      (update_id (files_id r) (replaced_by ctx new_id) rows ++ [active_file_row new_id ctx])
| ingest_absent roots d rows' :
    row_at rows (ctx_path_str ctx) = None →
    roots_of sessions (ctx_session_str ctx) = Some roots →
    place_file new_id ctx roots rows d rows' →
    ingest_file new_id ctx sessions rows d rows'
| ingest_recovered roots r d rows' :
    row_at rows (ctx_path_str ctx) = Some r →
    files_last_seen_session_id r ≠ Some (ctx_session_str ctx) →
    unfinished sessions (files_last_seen_session_id r) = true →
    roots_of sessions (ctx_session_str ctx) = Some roots →
    place_file new_id ctx roots (forget_file (files_id r) rows) d rows' →
    ingest_file new_id ctx sessions rows d rows'.

(** A file that the end of a session finds gone: active, under a root, neither seen
    by the session nor changed by VOOM itself during it. *)
Definition vanished (session_str : string) (roots : list PathBuf) (voom_paths : list string)
    (r : FilesRow) : bool :=
  active_unseen session_str r &&
  match files_path r with
  | Some p => is_under_any p roots && negb (bool_decide (p ∈ voom_paths))
  | None => false
  end.

(** ** The files on disk *)

(** Size and hash of the first discovered file at a path. *)
Fixpoint discovered_at (discovered : list DiscoveredFile) (p : string) : option (Z * string) :=
  match discovered with
  | [] => None
  | df :: discovered =>
      if bool_decide (to_string_lossy (DiscoveredFile_path df) = p)
      then Some (u64_as_i64 (DiscoveredFile_size df), DiscoveredFile_content_hash df)
      else discovered_at discovered p
  end.

(** What the active files should be after a scan of [roots]. *)
Definition mirrored (roots : list PathBuf) (discovered : list DiscoveredFile)
    (before : string → option (Z * string)) (p : string) : option (Z * string) :=
  match discovered_at discovered p with
  | Some v => Some v
  | None => if is_under_any p roots then None else before p
  end.
End spec.

(** * Facts about scan sessions

    The invariant of the file tables, triples for the statements on them and for
    the steps of a session. In a triple [F] says that the step may fail: with
    engine faults [F] holds; without them it is enough that new identifiers are
    new. *)

(** ** Keys of updated rows *)
Section keys.
Context {R K : Type} `{EqDecision K} (k : R → option K).

(** An update that keeps or clears a key. *)
Lemma omap_sublist (g : R → R) (rows : list R) :
  (∀ r, r ∈ rows → k (g r) = k r ∨ k (g r) = None) →
  omap k (g <$> rows) `sublist_of` omap k rows.
Proof.
  induction rows as [|r rows IH]; intros Hg; [done|]. cbn.
  specialize (IH (λ r' Hr, Hg r' (list_elem_of_further _ _ _ Hr))).
  destruct (Hg r (list_elem_of_here _ _)) as [-> | ->].
  - destruct (k r); [by apply sublist_skip|done].
  - destruct (k r); [by apply sublist_cons|done].
Qed.

Lemma omap_filter_sublist (p : R → bool) (rows : list R) :
  omap k (List.filter p rows) `sublist_of` omap k rows.
Proof.
  induction rows as [|r rows IH]; [done|]. cbn. destruct (p r); cbn; destruct (k r).
  - by apply sublist_skip.
  - done.
  - by apply sublist_cons.
  - done.
Qed.

Lemma omap_unchanged (g : R → R) (rows : list R) :
  (∀ r, r ∈ rows → k (g r) = k r) → omap k (g <$> rows) = omap k rows.
Proof.
  induction rows as [|r rows IH]; intros Hg; [done|]. cbn.
  rewrite (Hg r) by apply list_elem_of_here.
  rewrite IH; [done|]. intros r' Hr'. by apply Hg, list_elem_of_further.
Qed.

(** An update that gives a new key to the only row with identifier [i]. *)
Lemma omap_NoDup_set {I} `{EqDecision I} (id : R → I) (i : I) (g : R → R) (v : K) (rows : list R) :
  NoDup (id <$> rows) → NoDup (omap k rows) → v ∉ omap k rows →
  (∀ r, r ∈ rows → id r ≠ i → k (g r) = k r) →
  (∀ r, r ∈ rows → id r = i → k (g r) = Some v) →
  NoDup (omap k (g <$> rows)).
Proof.
  intros Hid Hk Hv Hne Heq.
  destruct (decide (Exists (λ r, id r = i) rows)) as [He|He].
  - apply Exists_exists in He as (r & Hr & Hi). apply list_elem_of_split in Hr as (l1 & l2 & ->).
    rewrite fmap_app, fmap_cons, NoDup_app in Hid. destruct Hid as (_ & H1 & H2).
    apply NoDup_cons in H2 as [H2 _]. rewrite fmap_app, fmap_cons, !omap_app in *. cbn.
    rewrite Heq by (done || set_solver).
    rewrite 2!omap_unchanged.
    + rewrite <-Permutation_middle. apply NoDup_cons.
      assert (omap k l1 ++ omap k l2 `sublist_of` omap k l1 ++ omap k (r :: l2)) as Hs.
      { apply sublist_app; [done|]. cbn. destruct (k r); [by apply sublist_cons|done]. }
      split; [|by eapply sublist_NoDup]. intros Hin. apply Hv. by eapply elem_of_sublist.
    + intros r' Hr'. apply Hne; [set_solver|]. intros <-. apply H2. rewrite Hi. by apply list_elem_of_fmap_2.
    + intros r' Hr'. apply Hne; [set_solver|]. intros <-. apply (H1 (id r')); [by apply list_elem_of_fmap_2|].
      rewrite Hi. apply list_elem_of_here.
  - rewrite omap_unchanged; [done|]. intros r Hr. apply Hne; [done|]. intros Hi. apply He, Exists_exists.
    eauto.
Qed.
End keys.

(** ** Unique columns *)
Definition unique_rows (rows : list FilesRow) : Prop :=
  NoDup (files_id <$> rows) ∧ NoDup (omap files_path rows) ∧ NoDup (omap files_superseded_by rows).

Lemma files_unique_spec rows : files_unique rows = true ↔ unique_rows rows.
Proof.
  unfold files_unique, unique_rows. rewrite !andb_true_iff, !bool_decide_eq_true. tauto.
Qed.

Lemma row_at_Some rows p r : row_at rows p = Some r → r ∈ rows ∧ files_path r = Some p.
Proof.
  intros Hr. apply List.find_some in Hr as [Hr Hp]. rewrite list_elem_of_In. split; [done|].
  by apply bool_decide_eq_true in Hp.
Qed.

Lemma row_at_None rows p r : row_at rows p = None → r ∈ rows → files_path r ≠ Some p.
Proof.
  intros Hn Hr Hp. eapply List.find_none in Hn; [|by apply list_elem_of_In].
  unfold at_path in Hn. by rewrite bool_decide_eq_false in Hn.
Qed.

Lemma row_at_absent rows p : (∀ r, r ∈ rows → files_path r ≠ Some p) → row_at rows p = None.
Proof.
  intros Hp. unfold row_at. destruct (List.find _ _) as [r|] eqn:Hr; [|done].
  apply row_at_Some in Hr as [Hin Hr]. by destruct (Hp r).
Qed.

Lemma path_in_omap (rows : list FilesRow) r p : r ∈ rows → files_path r = Some p → p ∈ omap files_path rows.
Proof. intros. apply list_elem_of_omap. eauto. Qed.

(** Rows of a unique column are determined by it. *)
Lemma NoDup_omap_inj {R K} (k : R → option K) (rows : list R) r r' v :
  NoDup (omap k rows) → r ∈ rows → r' ∈ rows → k r = Some v → k r' = Some v → r = r'.
Proof.
  induction rows as [|q rows IH]; intros Hnd Hr Hr' Hk Hk'; [by apply elem_of_nil in Hr|].
  assert (∀ x, x ∈ rows → k x = Some v → v ∈ omap k rows) as Hin.
  { intros x ??. apply list_elem_of_omap. eauto. }
  cbn in Hnd. apply elem_of_cons in Hr as [->|Hr], Hr' as [->|Hr']; [done| | |].
  - rewrite Hk in Hnd. apply NoDup_cons in Hnd as [Hv _]. by destruct Hv; eauto.
  - rewrite Hk' in Hnd. apply NoDup_cons in Hnd as [Hv _]. by destruct Hv; eauto.
  - apply IH; try done. destruct (k q); [by apply NoDup_cons in Hnd as [_ ?]|done].
Qed.

Lemma NoDup_fmap_inj {R K} (k : R → K) (rows : list R) r r' :
  NoDup (k <$> rows) → r ∈ rows → r' ∈ rows → k r = k r' → r = r'.
Proof.
  intros Hnd Hr Hr' Hk.
  apply list_elem_of_lookup in Hr as [i Hi], Hr' as [j Hj].
  assert (i = j) as ->; [|congruence].
  apply (NoDup_lookup (k <$> rows) i j (k r)); [done|by rewrite list_lookup_fmap, Hi|].
  by rewrite list_lookup_fmap, Hj, Hk.
Qed.

Lemma row_at_unique rows r p :
  unique_rows rows → r ∈ rows → files_path r = Some p → row_at rows p = Some r.
Proof.
  intros (_ & Hp & _) Hr Hrp. unfold row_at. destruct (List.find _ _) as [r'|] eqn:Hf.
  - apply row_at_Some in Hf as [Hr' Hp']. f_equal. by apply (NoDup_omap_inj files_path rows _ _ p).
  - by destruct (row_at_None rows p r).
Qed.

(** ** Which steps keep columns unique *)
Lemma unique_same_keys (g : FilesRow → FilesRow) rows :
  (∀ r, r ∈ rows → files_id (g r) = files_id r ∧
     (files_path (g r) = files_path r ∨ files_path (g r) = None) ∧
     (files_superseded_by (g r) = files_superseded_by r ∨ files_superseded_by (g r) = None)) →
  unique_rows rows → unique_rows (g <$> rows).
Proof.
  intros Hg (Hi & Hp & Hs). split; [|split].
  - rewrite <-list_fmap_compose. rewrite (list_fmap_ext _ files_id); [done|].
    intros i r Hr. apply Hg. by eapply list_elem_of_lookup_2.
  - eapply sublist_NoDup; [apply Hp|]. apply omap_sublist. naive_solver.
  - eapply sublist_NoDup; [apply Hs|]. apply omap_sublist. naive_solver.
Qed.

Lemma unique_filter (p : FilesRow → bool) rows : unique_rows rows → unique_rows (List.filter p rows).
Proof.
  intros (Hi & Hp & Hs). split; [|split].
  - apply (sublist_NoDup _ _ Hi). clear. induction rows as [|r rows IH]; [done|]. cbn.
    destruct (p r); cbn; [by apply sublist_skip | by apply sublist_cons].
  - apply (sublist_NoDup _ _ Hp), omap_filter_sublist.
  - apply (sublist_NoDup _ _ Hs), omap_filter_sublist.
Qed.

Lemma unique_app rows r :
  unique_rows rows → files_id r ∉ files_id <$> rows →
  (∀ p, files_path r = Some p → p ∉ omap files_path rows) →
  files_superseded_by r = None → unique_rows (rows ++ [r]).
Proof.
  intros (Hi & Hp & Hs) Hid Hpath Hsup. unfold unique_rows. rewrite fmap_app, !omap_app. cbn.
  rewrite Hsup, app_nil_r. split; [|split]; [| |done].
  - apply NoDup_app. split; [done|]. split; [set_solver|apply NoDup_singleton].
  - destruct (files_path r) as [p|] eqn:E; [|by rewrite app_nil_r].
    apply NoDup_app. split; [done|]. split; [|apply NoDup_singleton].
    intros q Hq Hq'. apply list_elem_of_singleton in Hq' as ->. by apply (Hpath p).
Qed.

Lemma unique_set_path id (g : FilesRow → FilesRow) (p : string) rows :
  unique_rows rows → p ∉ omap files_path rows →
  (∀ r, files_id (g r) = files_id r ∧ files_path (g r) = Some p ∧
        files_superseded_by (g r) = files_superseded_by r) →
  unique_rows (update_id id g rows).
Proof.
  intros (Hi & Hp & Hs) Hpn Hg. unfold update_id. split; [|split].
  - rewrite <-list_fmap_compose. rewrite (list_fmap_ext _ files_id); [done|].
    intros i r Hr. cbn. destruct (has_file_id id r); [apply Hg|done].
  - apply (omap_NoDup_set files_path files_id id _ p); try done; intros r Hr Hid;
      unfold has_file_id; [by rewrite bool_decide_false | rewrite bool_decide_true by done; apply Hg].
  - rewrite omap_unchanged; [done|]. intros r Hr. destruct (has_file_id id r); [apply Hg|done].
Qed.

Lemma unique_replace id (g : FilesRow → FilesRow) (new : string) rows :
  unique_rows rows → new ∉ omap files_superseded_by rows →
  (∀ r, files_id (g r) = files_id r ∧ files_path (g r) = None ∧
        files_superseded_by (g r) = Some new) →
  unique_rows (update_id id g rows).
Proof.
  intros (Hi & Hp & Hs) Hn Hg. unfold update_id. split; [|split].
  - rewrite <-list_fmap_compose. rewrite (list_fmap_ext _ files_id); [done|].
    intros i r Hr. cbn. destruct (has_file_id id r); [apply Hg|done].
  - eapply sublist_NoDup; [apply Hp|]. apply omap_sublist. intros r _.
    destruct (has_file_id id r); [right; apply Hg|by left].
  - apply (omap_NoDup_set files_superseded_by files_id id _ new); try done; intros r Hr Hid;
      unfold has_file_id; [by rewrite bool_decide_false | rewrite bool_decide_true by done; apply Hg].
Qed.

Lemma unique_forget id rows : unique_rows rows → unique_rows (forget_file id rows).
Proof.
  intros Hu. apply unique_filter, unique_same_keys; [|done]. intros r _.
  case_bool_decide; cbn; auto.
Qed.
