(* ===== verification/IngestFacts.v ===== *)
(** * Ingestion meets its specification *)
From S2P Require Import Prelude Json Media Plan Jobs Engine Events Process Transitions FileTables.
From S2P Require Import ScanSessions ScanSpec.

(** What a step on the files leaves alone; [ids] are the identifiers of the
    transitions it may add. *)
Record file_frame (ids : list string) (t t' : FileTables) : Prop := {
  frame_sessions : t_sessions t' = t_sessions t;
  frame_mutations : t_mutations t' = t_mutations t;
  frame_outcomes : t_outcomes t' = t_outcomes t;
  frame_transitions x :
    x ∈ transitions_id <$> t_transitions t' → x ∈ transitions_id <$> t_transitions t ∨ x ∈ ids;
  frame_unique : unique_rows (t_files t) → unique_rows (t_files t');
}.

Lemma file_frame_refl ids t : file_frame ids t t.
Proof. split; auto. Qed.

Lemma file_frame_trans ids t1 t2 t3 :
  file_frame ids t1 t2 → file_frame ids t2 t3 → file_frame ids t1 t3.
Proof.
  intros [S1 M1 O1 T1 U1] [S2 M2 O2 T2 U2]. split; try congruence; [|auto].
  intros x Hx. destruct (T2 x Hx); auto.
Qed.

Section ingest.
Context `{Chrono} `{UuidText} `{Sqlite} `{Unicode} `{SnapshotJson} `{RootsJson}.
Context (b : bool) (F : Prop) (HF : b = true → F).

(** The tables let an ingestion with these identifiers through. *)
Record ready (inp : IngestInput) (t : FileTables) : Prop := {
  ready_unique : unique_rows (t_files t);
  ready_ids r : r ∈ t_files t → ∃ u, Uuid_parse_str (files_id r) = Ok u;
  ready_outcomes : t_outcomes t = [];
  ready_file : Uuid_to_string (ii_file_id inp) ∉ files_id <$> t_files t;
  ready_successor : Uuid_to_string (ii_file_id inp) ∉ omap files_superseded_by (t_files t);
  ready_transition :
    Uuid_to_string (ii_transition_id inp) ∉ transitions_id <$> t_transitions t;
  ready_second :
    Uuid_to_string (ii_second_transition_id inp) ∉ transitions_id <$> t_transitions t;
  ready_distinct : ii_transition_id inp ≠ ii_second_transition_id inp;
}.

Definition ingest_ids (inp : IngestInput) : list string :=
  [Uuid_to_string (ii_transition_id inp); Uuid_to_string (ii_second_transition_id inp)].

(** ** Statements *)
Lemma spec_update msg (p : FilesRow → bool) (f : FilesRow → FilesRow) t (ok : unit → FileTables → Prop) :
  let rows := (λ r, if p r then f r else r) <$> t_files t in
  (unique_rows rows → ok tt (put_files rows t)) → F ∨ unique_rows rows →
  db_spec b t (fs_exec msg (update_files p f)) ok (λ _, F).
Proof.
  intros rows Hok Hu. apply bind_call; [done|]. unfold update_files, update_rows.
  change (map _ (t_files t)) with rows. destruct (files_unique rows) eqn:E.
  - apply spec_ret. by apply Hok, files_unique_spec.
  - destruct Hu as [?|Hu]; [done|]. apply files_unique_spec in Hu. congruence.
Qed.

Lemma bind_update {A} msg (p : FilesRow → bool) (f : FilesRow → FilesRow) (k : unit → Fs A) t ok :
  let rows := (λ r, if p r then f r else r) <$> t_files t in
  (unique_rows rows → db_spec b (put_files rows t) (k tt) ok (λ _, F)) →
  F ∨ unique_rows rows →
  db_spec b t (db_bind (fs_exec msg (update_files p f)) k) ok (λ _, F).
Proof.
  intros rows Hok Hu.
  apply (spec_bind _ _ _ _ (λ _ t', unique_rows rows ∧ t' = put_files rows t)).
  - by apply spec_update.
  - intros [] t' [? ->]. auto.
Qed.

Lemma bind_insert_transition {A} tr now (k : unit → Fs A) t ok :
  db_spec b (put_transitions (t_transitions t ++ [transition_row tr now]) t) (k tt) ok (λ _, F) →
  F ∨ Uuid_to_string (FileTransition_id tr) ∉ transitions_id <$> t_transitions t →
  db_spec b t (db_bind (insert_transition_in_tx tr now) k) ok (λ _, F).
Proof.
  intros Hok Hid. apply bind_call; [done|]. unfold insert_transition. cbn [transitions_id transition_row].
  case_bool_decide; [|done]. by destruct Hid.
Qed.

Lemma bind_insert_file {A} id ctx msg (k : unit → Fs A) t ok :
  let rows := t_files t ++ [active_file_row id ctx] in
  (unique_rows rows → db_spec b (put_files rows t) (k tt) ok (λ _, F)) →
  F ∨ unique_rows rows →
  db_spec b t (db_bind (insert_active_file_in_tx id ctx msg) k) ok (λ _, F).
Proof.
  intros rows Hok Hu. apply bind_call; [done|]. unfold insert_file. fold rows.
  destruct (files_unique rows) eqn:E; [by apply Hok, files_unique_spec|].
  destruct Hu as [?|Hu]; [done|]. apply files_unique_spec in Hu. congruence.
Qed.

(** ** Reading the rows of a session *)
Lemma find_move_source (rows : list FilesRow) hash roots :
  match List.find (λ c, is_under_any c.2 roots)
          (id_and_path <$> select (is_move_source hash) rows) with
  | Some (id, prior) => ∃ r, r ∈ rows ∧ is_move_source hash r = true ∧
      files_path r = Some prior ∧ files_id r = id ∧ is_under_any prior roots = true
  | None => ∀ r prior, r ∈ rows → is_move_source hash r = true → files_path r = Some prior →
      is_under_any prior roots = false
  end.
Proof.
  assert (Hsel : ∀ r, r ∈ select (is_move_source hash) rows ↔ r ∈ rows ∧ is_move_source hash r = true).
  { intros r. unfold select. rewrite order_by_perm, !list_elem_of_In. apply List.filter_In. }
  assert (Hpath : ∀ r, is_move_source hash r = true → files_path r = Some (default "" (files_path r))).
  { intros r Hr. unfold is_move_source in Hr. rewrite !andb_true_iff, !bool_decide_eq_true in Hr.
    by destruct Hr as [_ [? ->]]. }
  destruct (List.find _ _) as [[id prior]|] eqn:E.
  - apply List.find_some in E as [Hin Hu]. apply list_elem_of_In, list_elem_of_fmap in Hin as (r & Hr & Hin).
    apply Hsel in Hin as [Hin Hm]. unfold id_and_path in Hr. simplify_eq. cbn in Hu.
    exists r. split_and!; auto.
  - intros r prior Hr Hm Hp. pose proof (List.find_none _ _ E (id_and_path r)) as Hn.
    unfold id_and_path in Hn at 2. cbn in Hn. rewrite Hp in Hn. apply Hn.
    apply list_elem_of_In, list_elem_of_fmap. exists r. split; [done|]. by apply Hsel.
Qed.

(** ** Branches *)

(** Adding rows to the transitions changes nothing else. *)
Lemma file_frame_steps (ids : list string) (t : FileTables) rows trs :
  unique_rows rows → Forall (λ r, transitions_id r ∈ ids) trs →
  file_frame ids t (put_transitions (t_transitions t ++ trs) (put_files rows t)).
Proof.
  intros Hu Htrs. split; try done. cbn. intros x. rewrite fmap_app, elem_of_app.
  intros [?|Hx]; [by left|right]. apply list_elem_of_fmap in Hx as (r & -> & Hr).
  rewrite Forall_forall in Htrs. auto.
Qed.

Lemma spec_moved inp ctx r prior roots t :
  r ∈ t_files t → is_move_source (ctx_hash ctx) r = true → files_path r = Some prior →
  is_under_any prior roots = true → row_at (t_files t) (ctx_path_str ctx) = None →
  F ∨ ready inp t →
  db_spec b t (db_bind (ingest_moved_in_tx inp ctx (files_id r) prior) (λ file_uuid,
               db_bind (db_commit "failed to commit moved ingest") (λ _,
               db_ret (IngestDecision_Moved file_uuid prior))))
    (λ d t', place_file (ii_file_id inp) ctx roots (t_files t) d (t_files t') ∧
             file_frame (ingest_ids inp) t t') (λ _, F).
Proof.
  intros Hr Hm Hp Hroots Hat Hready.
  assert (F ∨ ∃ u, Uuid_parse_str (files_id r) = Ok u) as Hu.
  { destruct Hready as [|Hready]; [by left|right]. by apply (ready_ids _ _ Hready). }
  apply (spec_bind _ _ _ _ (λ u t', Uuid_parse_str (files_id r) = Ok u ∧
    t_files t' = update_id (files_id r) (moved_here ctx) (t_files t) ∧
    file_frame (ingest_ids inp) t t')).
  - apply bind_update.
    + intros Huni. apply bind_lift. unfold parse_uuid.
      destruct (Uuid_parse_str (files_id r)) as [u|] eqn:Hpar; [|by destruct Hu as [?|[? ?]]].
      apply bind_insert_transition.
      * apply spec_ret. split; [done|]. split; [done|]. apply (file_frame_steps _ t); [done|].
        repeat constructor.
      * destruct Hready as [|Hready]; [by left|right]. apply (ready_transition _ _ Hready).
    + destruct Hready as [|Hready]; [by left|right]. apply (unique_set_path _ _ (ctx_path_str ctx)).
      * apply Hready.
      * intros Hin. apply list_elem_of_omap in Hin as (q & Hq & Hqp). by eapply row_at_None.
      * intros q. done.
  - intros u t' (Hpar & Hfiles & Hframe). apply bind_commit; [done|]. apply spec_ret.
    rewrite Hfiles. split; [|done]. by apply (place_moved _ _ _ _ r).
Qed.

Lemma spec_new inp ctx roots t :
  (∀ r prior, r ∈ t_files t → is_move_source (ctx_hash ctx) r = true → files_path r = Some prior →
     is_under_any prior roots = false) →
  row_at (t_files t) (ctx_path_str ctx) = None → F ∨ ready inp t →
  db_spec b t (db_bind (ingest_new_in_tx inp ctx) (λ new_id,
               db_bind (db_commit "failed to commit ingest transaction") (λ _,
               db_ret (IngestDecision_New new_id true))))
    (λ d t', place_file (ii_file_id inp) ctx roots (t_files t) d (t_files t') ∧
             file_frame (ingest_ids inp) t t') (λ _, F).
Proof.
  intros Hnone Hat Hready.
  apply (spec_bind _ _ _ _ (λ u t', u = ii_file_id inp ∧
    t_files t' = t_files t ++ [active_file_row u ctx] ∧ file_frame (ingest_ids inp) t t')).
  - apply bind_insert_file.
    + intros Huni. apply bind_insert_transition.
      * apply spec_ret. split; [done|]. split; [done|]. apply (file_frame_steps _ t); [done|].
        repeat constructor.
      * destruct Hready as [|Hready]; [by left|right]. apply (ready_transition _ _ Hready).
    + destruct Hready as [|Hready]; [by left|right]. apply unique_app; [apply Hready|apply (ready_file _ _ Hready)| |done].
      intros p Hp Hin. cbn in Hp. simplify_eq.
      apply list_elem_of_omap in Hin as (q & Hq & Hqp). by eapply row_at_None.
  - intros u t' (-> & Hfiles & Hframe). apply bind_commit; [done|]. apply spec_ret.
    rewrite Hfiles. split; [|done]. by apply place_new.
Qed.

Lemma spec_place inp ctx t :
  row_at (t_files t) (ctx_path_str ctx) = None → F ∨ ready inp t →
  F ∨ is_Some (roots_of (t_sessions t) (ctx_session_str ctx)) →
  db_spec b t (ingest_move_or_new inp ctx)
    (λ d t', ∃ roots, roots_of (t_sessions t) (ctx_session_str ctx) = Some roots ∧
             place_file (ii_file_id inp) ctx roots (t_files t) d (t_files t') ∧
             file_frame (ingest_ids inp) t t') (λ _, F).
Proof.
  intros Hat Hready Hroots. unfold ingest_move_or_new.
  apply (spec_bind _ _ _ _ (λ m t', t' = t ∧ ∃ roots,
    roots_of (t_sessions t) (ctx_session_str ctx) = Some roots ∧
    m = List.find (λ c, is_under_any c.2 roots)
          (id_and_path <$> select (is_move_source (ctx_hash ctx)) (t_files t)))).
  - unfold find_move_candidate_in_tx, query_row. apply bind_query; [done|]. unfold roots_of in Hroots |- *.
    destruct (List.find (has_session_id _) _) as [row|]; [|by destruct Hroots as [?|[? ?]]].
    cbn in Hroots |- *. apply bind_lift. unfold session_roots.
    destruct (roots_from_json _) as [roots|]; [|by destruct Hroots as [?|[? ?]]].
    do 3 (apply bind_query; [done|]). apply spec_ret. eauto.
  - intros m ? (-> & roots & Hro & ->).
    pose proof (find_move_source (t_files t) (ctx_hash ctx) roots) as Hfind.
    destruct (List.find _ (id_and_path <$> _)) as [[id prior]|].
    + destruct Hfind as (r & Hr & Hm & Hp & <- & Hu).
      eapply spec_weaken; [by apply spec_moved|naive_solver|done].
    + eapply spec_weaken; [by apply spec_new|naive_solver|done].
Qed.

Lemma file_frame_weaken ids t t' : file_frame [] t t' → file_frame ids t t'.
Proof.
  intros [? ? ? Ht ?]. split; try done. intros x Hx. destruct (Ht x Hx) as [|Hn]; [by left|].
  by apply elem_of_nil in Hn.
Qed.

Lemma ready_forget inp id t t' :
  t_files t' = forget_file id (t_files t) → file_frame [] t t' → ready inp t → ready inp t'.
Proof.
  intros Hf Hfr Hr. pose proof (frame_transitions _ _ _ Hfr) as Htr.
  assert (∀ u, Uuid_to_string u ∉ transitions_id <$> t_transitions t →
               Uuid_to_string u ∉ transitions_id <$> t_transitions t') as Hfresh.
  { intros u Hu Hin. destruct (Htr _ Hin) as [|Hn]; [done|]. by apply elem_of_nil in Hn. }
  assert (∀ q, q ∈ forget_file id (t_files t) → ∃ q0, q0 ∈ t_files t ∧ files_id q = files_id q0 ∧
            (files_superseded_by q = files_superseded_by q0 ∨ files_superseded_by q = None)) as Hq.
  { intros q Hq. apply list_elem_of_In, List.filter_In in Hq as [Hq _].
    apply list_elem_of_In, list_elem_of_fmap in Hq as (q0 & -> & Hq0). exists q0.
    case_bool_decide; cbn; auto. }
  split.
  - by apply Hfr, Hr.
  - rewrite Hf. intros q (q0 & Hq0 & -> & _)%Hq. by apply (ready_ids _ _ Hr).
  - rewrite (frame_outcomes _ _ _ Hfr). apply Hr.
  - rewrite Hf. intros (q & Hqid & (q0 & Hq0 & Hid & _)%Hq)%list_elem_of_fmap.
    apply (ready_file _ _ Hr), list_elem_of_fmap. exists q0. by rewrite <-Hid.
  - rewrite Hf. intros (q & (q0 & Hq0 & _ & Hs)%Hq & Hqs)%list_elem_of_omap.
    apply (ready_successor _ _ Hr), list_elem_of_omap. exists q0.
    destruct Hs; [split; congruence|congruence].
  - by apply Hfresh, (ready_transition _ _ Hr).
  - by apply Hfresh, (ready_second _ _ Hr).
  - apply Hr.
Qed.

Lemma spec_recover inp id t :
  F ∨ ready inp t →
  db_spec b t (recover_stub_in_tx id)
    (λ _ t', t_files t' = forget_file id (t_files t) ∧ unique_rows (t_files t') ∧
             file_frame [] t t') (λ _, F).
Proof.
  intros Hready. apply bind_update.
  - intros Hu. apply bind_execute; [done|]. unfold delete_transitions, delete_rows. cbn [fst snd].
    apply bind_call; [done|]. unfold delete_files, delete_rows. cbn [t_outcomes t_files put_transitions put_files].
    destruct (existsb _ _) eqn:E.
    { destruct Hready as [|Hready]; [done|]. by rewrite (ready_outcomes _ _ Hready) in E. }
    apply spec_ret. split; [done|]. split; [by apply unique_filter|]. split; try done; cbn.
    + intros x. rewrite !list_elem_of_fmap. intros (r & -> & Hr). left. exists r. split; [done|].
      apply list_elem_of_In, List.filter_In in Hr as [Hr _]. by apply list_elem_of_In.
    + intros _. by apply unique_filter.
  - destruct Hready as [|Hready]; [by left|right]. apply unique_same_keys; [|apply Hready].
    intros r _. case_bool_decide; cbn; auto.
Qed.

(** After a recovery no row has the path. *)
Lemma forget_row_at (rows : list FilesRow) r p :
  unique_rows rows → row_at rows p = Some r →
  row_at (forget_file (files_id r) rows) p = None.
Proof.
  intros Hurows Hr. apply row_at_Some in Hr as [Hin Hp]. apply row_at_absent.
  intros q Hq Hqp. apply list_elem_of_In, List.filter_In in Hq as [Hq Hid].
  apply list_elem_of_In, list_elem_of_fmap in Hq as (q0 & -> & Hq0).
  assert (files_path q0 = Some p) as Hq0p by (revert Hqp; case_bool_decide; done).
  assert (q0 = r) as -> by (apply (NoDup_omap_inj files_path rows _ _ p); auto; apply Hurows).
  revert Hid. case_bool_decide; unfold has_file_id; cbn; by rewrite bool_decide_true.
Qed.

Lemma spec_unchanged inp ctx r t :
  F ∨ ready inp t → r ∈ t_files t → unique_rows (t_files t) →
  db_spec b t (ingest_unchanged_in_tx ctx (files_id r) (bool_decide (files_expected_hash r = None)))
    (λ u t', Uuid_parse_str (files_id r) = Ok u ∧
             t_files t' = update_id (files_id r) (seen_again ctx) (t_files t) ∧
             file_frame (ingest_ids inp) t t') (λ _, F).
Proof.
  intros Hready Hr Huni. apply bind_update.
  2: { right. apply unique_same_keys; [|done]. intros q _. destruct (has_file_id _ _); cbn; auto. }
  intros Hu1. set (rows1 := _ <$> _) in *.
  apply (spec_bind _ _ _ _ (λ _ t',
    t_files t' = update_id (files_id r) (seen_again ctx) (t_files t) ∧
    file_frame (ingest_ids inp) t t')).
  - assert (∀ q, q ∈ t_files t → has_file_id (files_id r) q = true → q = r) as Hq.
    { intros q Hq Hid. apply bool_decide_eq_true in Hid.
      apply (NoDup_fmap_inj files_id (t_files t)); [apply Huni|done..]. }
    case_bool_decide as Hexp.
    + apply spec_update.
      * intros Hu2.
        split; [|by split; auto]. cbn [t_files put_files]. unfold rows1, update_id.
        rewrite <-list_fmap_compose. apply list_fmap_ext. intros i q Hi. cbn.
        apply list_elem_of_lookup_2 in Hi. destruct (has_file_id (files_id r) q) eqn:Hid.
        -- rewrite (Hq q) by done. unfold seen_again. rewrite bool_decide_true by done.
           unfold has_file_id. cbn. by rewrite bool_decide_true.
        -- by rewrite Hid.
      * right. apply unique_same_keys; [|done]. intros q _. destruct (has_file_id _ _); cbn; auto.
    + apply spec_ret. split.
      * apply list_fmap_ext. intros i q Hi. apply list_elem_of_lookup_2 in Hi.
        destruct (has_file_id (files_id r) q) eqn:Hid; [|done]. rewrite (Hq q) by done.
        unfold seen_again. by rewrite bool_decide_false.
      * split; try done. cbn. auto.
  - intros _ t' [Hf Hfr]. apply spec_lift. unfold parse_uuid.
    destruct (Uuid_parse_str (files_id r)) eqn:E; [done|].
    destruct Hready as [|Hready]; [done|].
    destruct (ready_ids _ _ Hready r Hr). congruence.
Qed.

Lemma spec_changed inp ctx r t :
  F ∨ ready inp t → row_at (t_files t) (ctx_path_str ctx) = Some r → unique_rows (t_files t) →
  db_spec b t (ingest_externally_changed_in_tx inp ctx (files_id r) (files_expected_hash r)
                 (files_size r))
    (λ ids t', Uuid_parse_str (files_id r) = Ok ids.2 ∧ ids.1 = ii_file_id inp ∧
       t_files t' = update_id (files_id r) (replaced_by ctx (ii_file_id inp)) (t_files t)
                    ++ [active_file_row (ii_file_id inp) ctx] ∧
       file_frame (ingest_ids inp) t t') (λ _, F).
Proof.
  intros Hready Hat Huni. pose proof (row_at_Some _ _ _ Hat) as [Hr Hrp]. apply bind_lift. unfold parse_uuid.
  destruct (Uuid_parse_str (files_id r)) as [old|] eqn:Hold.
  2: { destruct Hready as [|Hready]; [done|]. destruct (ready_ids _ _ Hready r Hr). congruence. }
  apply bind_insert_transition.
  2: { destruct Hready as [|Hready]; [by left|right]. apply (ready_transition _ _ Hready). }
  apply bind_update.
  2: { destruct Hready as [|Hready]; [by left|right].
       by apply (unique_replace _ _ (Uuid_to_string (ii_file_id inp)));
         [apply Hready|apply (ready_successor _ _ Hready)|]. }
  intros Hu1. cbn [t_files put_transitions] in *. set (rows1 := _ <$> _) in *.
  apply bind_insert_file.
  2: { destruct Hready as [|Hready]; [by left|right]. apply unique_app; cbn [t_files put_files]; try done.
       - assert (files_id <$> rows1 = files_id <$> t_files t) as ->; [|apply (ready_file _ _ Hready)].
         unfold rows1. rewrite <-list_fmap_compose. apply list_fmap_ext. intros i q _. cbn.
         by destruct (has_file_id _ _).
       - intros p [= <-] (q & Hq & Hqp)%list_elem_of_omap.
         apply list_elem_of_fmap in Hq as (q0 & -> & Hq0).
         destruct (has_file_id (files_id r) q0) eqn:Hid; [done|].
         assert (q0 = r) as ->
           by (apply (NoDup_omap_inj files_path (t_files t) _ _ (ctx_path_str ctx)); auto; apply Huni).
         unfold has_file_id in Hid. by rewrite bool_decide_true in Hid. }
  intros Hu2. apply bind_insert_transition.
  2: { destruct Hready as [|Hready]; [by left|right]. cbn. rewrite fmap_app, not_elem_of_app. split.
       - apply (ready_second _ _ Hready).
       - cbn. rewrite list_elem_of_singleton. intros Heq%Uuid_to_string_inj.
         by destruct (ready_distinct _ _ Hready). }
  apply spec_ret. split; [done|]. split; [done|]. split; [done|]. cbn.
  split; try done; cbn [t_transitions put_transitions put_files t_files].
  intros x. rewrite !fmap_app, !elem_of_app. cbn. unfold ingest_ids. set_solver.
Qed.

(** ** The whole ingestion *)
Lemma parse_completed s :
  bool_decide (ScanSessionStatus_parse s = Some ScanSessionStatus_Completed)
  = bool_decide (s = "completed").
Proof.
  unfold ScanSessionStatus_parse. destruct (decide (s = "completed")) as [->|Hs]; [done|].
  repeat (case_bool_decide; try done).
Qed.

Lemma parse_in_progress s :
  ScanSessionStatus_parse s = Some ScanSessionStatus_InProgress ↔ s = "in_progress".
Proof.
  unfold ScanSessionStatus_parse. split; [|by intros ->]. repeat (case_bool_decide; try done).
Qed.

Lemma bind_recovery {A} prior (k : bool → Fs A) t ok :
  db_spec b t (k (unfinished (t_sessions t) prior)) ok (λ _, F) →
  db_spec b t (db_bind (prior_session_needs_recovery_in_tx prior) k) ok (λ _, F).
Proof.
  intros Hk. unfold prior_session_needs_recovery_in_tx, unfinished in *. destruct prior as [s|]; [|done].
  apply (spec_bind _ _ _ _ (λ v t', t' = t ∧ v = unfinished (t_sessions t) (Some s))).
  - apply bind_query; [done|]. unfold query_row, unfinished.
    destruct (List.find _ _) as [row|]; cbn; apply spec_ret; [|done].
    by rewrite <-parse_completed.
  - by intros v ? [-> ->].
Qed.

Definition open_session (sessions : list SessionsRow) (session_str : string) : Prop :=
  ∃ row, List.find (has_session_id session_str) sessions = Some row ∧
         sessions_status row = "in_progress".

Lemma bind_validate {A} session_str (k : unit → Fs A) t ok :
  (open_session (t_sessions t) session_str → db_spec b t (k tt) ok (λ _, F)) →
  F ∨ open_session (t_sessions t) session_str →
  db_spec b t (db_bind (validate_session_in_progress_in_tx session_str) k) ok (λ _, F).
Proof.
  intros Hk Hopen.
  apply (spec_bind _ _ _ _ (λ _ t', t' = t ∧ open_session (t_sessions t) session_str)).
  - apply bind_query; [done|]. unfold query_row.
    destruct (List.find _ _) as [row|] eqn:E; cbn.
    + destruct (ScanSessionStatus_parse (sessions_status row)) as [[]|] eqn:Ep;
        [|destruct Hopen as [?|(row' & Hrow & Hs)];
          [by apply spec_lift|rewrite E in Hrow; simplify_eq; by rewrite Hs in Ep]..].
      apply spec_ret. split; [done|]. exists row. by apply parse_in_progress in Ep.
    + destruct Hopen as [?|(? & Hn & _)]; [by apply spec_lift|congruence].
  - intros [] ? [-> ?]. auto.
Qed.

(** The state after an ingestion, and the tables as they were after an error. *)
Lemma spec_ingest inp session df t :
  let ctx := ingest_ctx inp session df in
  unique_rows (t_files t) →
  F ∨ ready inp t ∧ open_session (t_sessions t) (Uuid_to_string session) ∧
      is_Some (roots_of (t_sessions t) (Uuid_to_string session)) →
  db_spec b t (sqlite_ingest_discovered_file inp session df)
    (λ d t', open_session (t_sessions t) (Uuid_to_string session) ∧
       ingest_file (ii_file_id inp) ctx (t_sessions t) (t_files t) d (t_files t') ∧
       file_frame (ingest_ids inp) t t')
    (λ t', F ∧ t' = t).
Proof.
  intros ctx Huni Hpre. assert (F ∨ ready inp t) as Hready by tauto.
  assert (F ∨ is_Some (roots_of (t_sessions t) (Uuid_to_string session))) as Hroots by tauto.
  apply spec_on_conn; [done|]. fold ctx. apply spec_rollback; [done|].
  apply bind_validate; [|tauto]. intros Hopen. apply bind_query; [done|]. unfold query_row.
  destruct (List.find (at_path (ctx_path_str ctx)) (t_files t)) as [r|] eqn:Hat; cbn.
  2: { eapply spec_weaken; [by apply spec_place| |done].
       intros d t' (roots & Hro & Hpl & Hfr). split; [done|]. split; [|done].
       by eapply ingest_absent. }
  pose proof (row_at_Some _ _ _ Hat) as [Hr _]. unfold ingest_existing. case_bool_decide as Hseen.
  { apply bind_lift. unfold parse_uuid. destruct (Uuid_parse_str (files_id r)) as [u|] eqn:Hu.
    - apply bind_commit; [done|]. apply spec_ret. split; [done|]. split; [|apply file_frame_refl].
      by eapply ingest_duplicate.
    - destruct Hready as [|Hready]; [done|]. destruct (ready_ids _ _ Hready r Hr). congruence. }
  apply bind_recovery. destruct (unfinished _ _) eqn:Hunf.
  { eapply spec_bind; [by eapply spec_recover|]. intros [] t1 (Hf & Hu1 & Hfr1).
    eapply spec_weaken; [apply spec_place| |done].
    - rewrite Hf. by apply forget_row_at.
    - destruct Hready; [by left|right]. by eapply ready_forget.
    - by rewrite (frame_sessions _ _ _ Hfr1).
    - rewrite Hf, (frame_sessions _ _ _ Hfr1). intros d t' (roots & Hro & Hpl & Hfr). split; [done|].
      split; [by eapply ingest_recovered|]. eapply file_frame_trans; [|done]. by apply file_frame_weaken. }
  destruct (hash_matches _ _) eqn:Hh.
  - eapply spec_bind; [by apply (spec_unchanged inp)|]. intros u t' (Hu & Hf & Hfr).
    apply bind_commit; [done|]. apply spec_ret. rewrite Hf. split; [done|]. split; [|done].
    eapply ingest_same; try done. revert Hh. unfold hash_matches.
    destruct (files_expected_hash r); [|by left]. intros ?%bool_decide_eq_true. right. congruence.
  - eapply spec_bind; [by apply spec_changed|]. intros [n u] t' (Hu & Hn & Hf & Hfr). cbn in *. subst n.
    apply bind_commit; [done|]. apply spec_ret. rewrite Hf. split; [done|]. split; [|done].
    revert Hh. unfold hash_matches. destruct (files_expected_hash r) eqn:He; [|done].
    intros Hne%bool_decide_eq_false. by eapply ingest_changed.
Qed.
End ingest.
