(* ===== verification/SessionFacts.v ===== *)
(** * What holds of the stored files during a session

    [seen_inv] ties the rows that a session has seen to the files it was given;
    [outside] says that paths which the session does not concern keep their
    files. Both are kept by every ingestion and by the promotion of moves. *)
From S2P Require Import Prelude Json Media Plan Jobs Engine Events Process Transitions FileTables.
From S2P Require Import ScanSessions ScanSpec IngestFacts.

(** ** The active file at a path *)
Lemma active_at_fmap (g : FilesRow → FilesRow) rows p :
  (∀ r, r ∈ rows → (files_path (g r) = Some p ↔ files_path r = Some p) ∧
                   (files_path r = Some p → row_view (g r) = row_view r)) →
  active_at (g <$> rows) p = active_at rows p.
Proof.
  unfold active_at, row_at. induction rows as [|r rows IH]; intros Hg; [done|].
  specialize (IH (λ r' Hr, Hg r' (list_elem_of_further _ _ _ Hr))).
  destruct (Hg r (list_elem_of_here _ _)) as [Hp Hv]. cbn. unfold at_path at 1 3.
  rewrite (bool_decide_ext _ _ Hp). case_bool_decide; [|done]. cbn. auto.
Qed.

Lemma active_at_app rows r p :
  files_path r ≠ Some p → active_at (rows ++ [r]) p = active_at rows p.
Proof.
  intros Hr. unfold active_at, row_at. induction rows as [|q rows IH]; cbn.
  - unfold at_path. by rewrite bool_decide_false.
  - by destruct (at_path p q).
Qed.

Lemma active_at_filter (f : FilesRow → bool) rows p :
  (∀ r, r ∈ rows → f r = false → files_path r ≠ Some p) →
  active_at (List.filter f rows) p = active_at rows p.
Proof.
  unfold active_at, row_at. induction rows as [|r rows IH]; intros Hf; [done|].
  specialize (IH (λ r' Hr, Hf r' (list_elem_of_further _ _ _ Hr))).
  specialize (Hf r (list_elem_of_here _ _)). cbn. destruct (f r); cbn; [by destruct (at_path p r)|].
  unfold at_path at 2. rewrite bool_decide_false by auto. done.
Qed.

Lemma update_id_elem id g rows r :
  r ∈ update_id id g rows →
  ∃ q, q ∈ rows ∧ ((files_id q = id ∧ r = g q) ∨ (files_id q ≠ id ∧ r = q)).
Proof.
  intros (q & -> & Hq)%list_elem_of_fmap. exists q. split; [done|].
  unfold has_file_id. case_bool_decide; auto.
Qed.

Lemma update_id_keeps id g rows r : r ∈ rows → files_id r ≠ id → r ∈ update_id id g rows.
Proof.
  intros Hr Hid. apply list_elem_of_fmap. exists r. split; [|done]. unfold has_file_id.
  by rewrite bool_decide_false.
Qed.

Lemma update_id_changes id g rows r : r ∈ rows → files_id r = id → g r ∈ update_id id g rows.
Proof.
  intros Hr Hid. apply list_elem_of_fmap. exists r. split; [|done]. unfold has_file_id.
  by rewrite bool_decide_true.
Qed.

Lemma id_unique rows q r :
  unique_rows rows → q ∈ rows → r ∈ rows → files_id q = files_id r → q = r.
Proof. intros (Hi & _ & _). by apply NoDup_fmap_inj. Qed.

(** ** Files of the session *)
Definition extend (D : string → option (Z * string)) (p : string) (v : Z * string) (q : string)
    : option (Z * string) :=
  match D q with Some w => Some w | None => if bool_decide (p = q) then Some v else None end.

Section seen.
Context (s : string) (roots : list PathBuf).

Definition seen (r : FilesRow) : Prop := files_last_seen_session_id r = Some s.

Record seen_inv (D : string → option (Z * string)) (rows : list FilesRow) : Prop := {
  seen_view r : r ∈ rows → seen r →
    ∃ p, files_path r = Some p ∧ D p = Some (files_size r, files_content_hash r) ∧
         files_status r = "active";
  seen_row p v : D p = Some v → ∃ r, r ∈ rows ∧ files_path r = Some p ∧ seen r;
}.

(** Outside the roots and the set [E] the active files are [A]. *)
Definition outside (E : string → Prop) (A : string → option (Z * string))
    (rows : list FilesRow) : Prop :=
  ∀ q, ¬ E q → is_under_any q roots = false → active_at rows q = A q.

Lemma seen_inv_ext D D' rows : (∀ p, D p = D' p) → seen_inv D rows → seen_inv D' rows.
Proof. intros HD [Hv Hr]. split; [intros r ??|intros p v]; rewrite <-?HD; [|apply Hr].
  destruct (Hv r) as (p & ? & ? & ?); [done..|]. exists p. by rewrite <-HD. Qed.

Lemma outside_mono E E' A rows : (∀ q, E q → E' q) → outside E A rows → outside E' A rows.
Proof. intros HE Ho q Hq. apply Ho. auto. Qed.

(** A path of the session belongs to a seen row, and to no other. *)
Lemma seen_at D rows r p :
  unique_rows rows → seen_inv D rows → r ∈ rows → files_path r = Some p → ¬ seen r → D p = None.
Proof.
  intros (_ & Hp & _) Hinv Hr Hrp Hns. destruct (D p) as [v|] eqn:HD; [|done].
  destruct (seen_row _ _ Hinv _ _ HD) as (q & Hq & Hqp & Hqs).
  assert (q = r) as -> by (by apply (NoDup_omap_inj files_path rows _ _ p)). done.
Qed.

Lemma absent_at D rows p : seen_inv D rows → row_at rows p = None → D p = None.
Proof.
  intros Hinv Hn. destruct (D p) as [v|] eqn:HD; [|done].
  destruct (seen_row _ _ Hinv _ _ HD) as (q & Hq & Hqp & _). by destruct (row_at_None _ _ _ Hn Hq).
Qed.

(** A row that the session sees now. *)
Lemma seen_set D rows r g p v :
  unique_rows rows → seen_inv D rows → r ∈ rows → ¬ seen r → D p = None →
  files_path (g r) = Some p → files_status (g r) = "active" → seen (g r) →
  v = (files_size (g r), files_content_hash (g r)) →
  seen_inv (extend D p v) (update_id (files_id r) g rows).
Proof.
  intros Hu Hinv Hr Hns HD Hgp Hga Hgs ->. split.
  - intros q Hq Hqs. apply update_id_elem in Hq as (q0 & Hq0 & [[Hid ->]|[Hid ->]]).
    + assert (q0 = r) as -> by (by apply (id_unique rows)). exists p. unfold extend.
      rewrite HD, bool_decide_true by done. done.
    + destruct (seen_view _ _ Hinv q0) as (p' & ? & HD' & ?); [done..|]. exists p'. unfold extend.
      by rewrite HD'.
  - intros q w. unfold extend. destruct (D q) as [w'|] eqn:HDq.
    + intros _. destruct (seen_row _ _ Hinv _ _ HDq) as (q0 & Hq0 & Hq0p & Hq0s). exists q0.
      split; [|done]. apply update_id_keeps; [done|]. intros Hid.
      assert (q0 = r) as -> by (by apply (id_unique rows)). done.
    + case_bool_decide as Hpq; [|done]. subst q. intros _. exists (g r). split; [|done].
      by apply update_id_changes.
Qed.

Lemma seen_app D rows r p v :
  seen_inv D rows → D p = None → files_path r = Some p → files_status r = "active" → seen r →
  v = (files_size r, files_content_hash r) → seen_inv (extend D p v) (rows ++ [r]).
Proof.
  intros Hinv HD Hp Ha Hs ->. split.
  - intros q [Hq | ->%list_elem_of_singleton]%elem_of_app Hqs.
    + destruct (seen_view _ _ Hinv q) as (p' & ? & HD' & ?); [done..|]. exists p'. unfold extend.
      by rewrite HD'.
    + exists p. unfold extend. by rewrite HD, bool_decide_true.
  - intros q w. unfold extend. destruct (D q) as [w'|] eqn:HDq.
    + intros _. destruct (seen_row _ _ Hinv _ _ HDq) as (q0 & ? & ? & ?). exists q0.
      rewrite elem_of_app. auto.
    + case_bool_decide as Hpq; [|done]. subst q. intros _. exists r. rewrite elem_of_app.
      split; [|done]. right. apply list_elem_of_here.
Qed.

(** Changes of other rows. *)
Lemma seen_fmap D rows (g : FilesRow → FilesRow) :
  (∀ r, r ∈ rows → files_last_seen_session_id (g r) = files_last_seen_session_id r ∧
     (seen r → files_path (g r) = files_path r ∧ files_status (g r) = files_status r ∧
               files_size (g r) = files_size r ∧
               files_content_hash (g r) = files_content_hash r)) →
  seen_inv D rows → seen_inv D (g <$> rows).
Proof.
  intros Hg Hinv. split.
  - intros q (r & -> & Hr)%list_elem_of_fmap Hqs. destruct (Hg r Hr) as [Hl Hk].
    unfold seen in Hqs. rewrite Hl in Hqs. destruct (Hk Hqs) as (-> & -> & -> & ->).
    by apply (seen_view _ _ Hinv).
  - intros p v HD. destruct (seen_row _ _ Hinv _ _ HD) as (r & Hr & Hrp & Hrs). exists (g r).
    destruct (Hg r Hr) as [Hl Hk]. destruct (Hk Hrs) as (Hgp & _). rewrite Hgp. unfold seen. rewrite Hl.
    split; [|done]. by apply list_elem_of_fmap_2.
Qed.

Lemma seen_filter D rows (f : FilesRow → bool) :
  (∀ r, r ∈ rows → f r = false → ¬ seen r) → seen_inv D rows → seen_inv D (List.filter f rows).
Proof.
  intros Hf Hinv. split.
  - intros q Hq. apply (seen_view _ _ Hinv). apply list_elem_of_In in Hq.
    apply list_elem_of_In. by apply List.filter_In in Hq as [? _].
  - intros p v HD. destruct (seen_row _ _ Hinv _ _ HD) as (r & Hr & Hrp & Hrs). exists r.
    split; [|done]. apply list_elem_of_In, List.filter_In. split; [by apply list_elem_of_In|].
    destruct (f r) eqn:E; [done|]. by destruct (Hf r Hr).
Qed.

(** ** The other files *)
Lemma outside_set E A rows r g :
  unique_rows rows → outside E A rows → r ∈ rows →
  (∀ q, files_path r = Some q → E q ∨ is_under_any q roots = true) →
  (∀ q, files_path (g r) = Some q → E q) →
  outside E A (update_id (files_id r) g rows).
Proof.
  intros Hu Ho Hr Hold Hnew q Hq Hqu. rewrite <-(Ho q Hq Hqu). apply active_at_fmap.
  intros r' Hr'. unfold has_file_id. case_bool_decide as Hid; [|done].
  assert (r' = r) as -> by (by apply (id_unique rows)).
  assert (files_path r ≠ Some q) as H1 by (intros E1; destruct (Hold q E1); congruence).
  assert (files_path (g r) ≠ Some q) as H2 by (intros E2; by apply Hq, Hnew).
  tauto.
Qed.

Lemma outside_app E A rows r :
  outside E A rows → (∀ q, files_path r = Some q → E q) → outside E A (rows ++ [r]).
Proof.
  intros Ho Hr q Hq Hqu. rewrite <-(Ho q Hq Hqu). apply active_at_app. intros Hp. by apply Hq, Hr.
Qed.

(** Rows whose path concerns the session may change; the others keep what is
    seen of them. *)
Lemma outside_fmap E A rows (g : FilesRow → FilesRow) :
  outside E A rows →
  (∀ r, r ∈ rows → files_path (g r) = files_path r ∧
     (row_view (g r) = row_view r ∨ ∀ q, files_path r = Some q → E q ∨ is_under_any q roots = true)) →
  outside E A (g <$> rows).
Proof.
  intros Ho Hg q Hq Hqu. rewrite <-(Ho q Hq Hqu). apply active_at_fmap. intros r Hr.
  destruct (Hg r Hr) as [Hp Hv]. rewrite Hp. split; [done|]. intros Hrq.
  destruct Hv as [|Hv]; [done|]. destruct (Hv q Hrq); congruence.
Qed.

Lemma outside_filter E A rows (f : FilesRow → bool) :
  outside E A rows →
  (∀ r q, r ∈ rows → f r = false → files_path r = Some q → E q ∨ is_under_any q roots = true) →
  outside E A (List.filter f rows).
Proof.
  intros Ho Hf q Hq Hqu. rewrite <-(Ho q Hq Hqu). apply active_at_filter. intros r Hr Hfr Hp.
  destruct (Hf r q); congruence.
Qed.
End seen.

(** ** One ingestion *)
Section ingest.
Context `{Chrono} `{UuidText} `{Sqlite} `{Unicode} `{SnapshotJson} `{RootsJson}.

Definition ctx_view (ctx : IngestCtx) : Z * string := (ctx_size ctx, ctx_hash ctx).

Lemma place_step new_id ctx roots rows d rows' D E A :
  unique_rows rows → row_at rows (ctx_path_str ctx) = None →
  place_file new_id ctx roots rows d rows' → E (ctx_path_str ctx) →
  seen_inv (ctx_session_str ctx) D rows → outside roots E A rows →
  seen_inv (ctx_session_str ctx) (extend D (ctx_path_str ctx) (ctx_view ctx)) rows' ∧
  outside roots E A rows'.
Proof.
  intros Hu Hat Hpl HE Hinv Ho. pose proof (absent_at _ _ _ _ Hinv Hat) as HD.
  destruct Hpl as [r prior u Hr Hm Hp Hroots _ | _].
  - assert (files_status r = "missing") as Hst.
    { unfold is_move_source in Hm. rewrite !andb_true_iff, !bool_decide_eq_true in Hm. tauto. }
    split.
    + apply seen_set; try done. intros Hs. destruct (seen_view _ _ _ Hinv r) as (? & _ & _ & Hact); [done..|].
      congruence.
    + apply outside_set; try done.
      * intros q Hq. right. congruence.
      * intros q Hq. cbn in Hq. by simplify_eq.
  - split; [by apply seen_app|]. apply outside_app; [done|]. intros q Hq. cbn in Hq. by simplify_eq.
Qed.

Lemma seen_forget s D rows r :
  seen_inv s D rows → unique_rows rows → r ∈ rows → ¬ seen s r →
  seen_inv s D (forget_file (files_id r) rows).
Proof.
  intros Hinv Hu Hr Hns. apply seen_filter.
  - intros q (q0 & -> & Hq0)%list_elem_of_fmap Hid. apply negb_false_iff, bool_decide_eq_true in Hid.
    assert (q0 = r) as -> by (apply (id_unique rows); auto; revert Hid; case_bool_decide; done).
    unfold seen. case_bool_decide; cbn; done.
  - apply seen_fmap; [|done]. intros q _. case_bool_decide; cbn; auto.
Qed.

Lemma outside_forget roots E A rows r :
  outside roots E A rows → unique_rows rows → r ∈ rows →
  (∀ q, files_path r = Some q → E q) → outside roots E A (forget_file (files_id r) rows).
Proof.
  intros Ho Hu Hr Hp. apply outside_filter.
  - apply outside_fmap; [done|]. intros q _. case_bool_decide; auto.
  - intros q p (q0 & -> & Hq0)%list_elem_of_fmap Hid Hqp. left.
    apply negb_false_iff, bool_decide_eq_true in Hid.
    assert (q0 = r) as -> by (apply (id_unique rows); auto; revert Hid; case_bool_decide; done).
    apply Hp. revert Hqp. case_bool_decide; done.
Qed.

Lemma ingest_step new_id ctx sessions roots rows d rows' D E A :
  unique_rows rows → roots_of sessions (ctx_session_str ctx) = Some roots →
  ingest_file new_id ctx sessions rows d rows' → E (ctx_path_str ctx) →
  seen_inv (ctx_session_str ctx) D rows → outside roots E A rows →
  seen_inv (ctx_session_str ctx) (extend D (ctx_path_str ctx) (ctx_view ctx)) rows' ∧
  outside roots E A rows'.
Proof.
  intros Hu Hroots Hin HE Hinv Ho.
  destruct Hin as [r u Hat Hs _|r u Hat Hs _ _ _|r u h Hat Hs _ _ _ _|roots' d rows' Hat Hro Hpl
                  |roots' r d rows' Hat Hs _ Hro Hpl].
  - apply row_at_Some in Hat as [Hr Hp]. destruct (seen_view _ _ _ Hinv r) as (p & Hp' & HD & _); [done..|].
    split; [|done]. eapply seen_inv_ext; [|done]. intros q. unfold extend. destruct (D q) eqn:HDq; [done|].
    case_bool_decide; [|done]. congruence.
  - apply row_at_Some in Hat as [Hr Hp]. split.
    + apply seen_set; try done; [by eapply seen_at| | | |].
      all: unfold seen_again; case_bool_decide; try done.
    + apply outside_set; try done.
      * intros q Hq. left. congruence.
      * intros q. unfold seen_again. case_bool_decide; cbn; congruence.
  - apply row_at_Some in Hat as [Hr Hp]. split.
    + apply seen_app; try done.
      * apply seen_fmap; [|done]. intros q Hq. unfold has_file_id. case_bool_decide as Hid; [|done].
        split; [done|]. intros Hqs. by assert (q = r) as -> by (by apply (id_unique rows)).
      * by eapply seen_at.
    + apply outside_app.
      * apply outside_set; try done. intros q Hq. left. congruence.
      * intros q Hq. cbn in Hq. congruence.
  - rewrite Hroots in Hro. simplify_eq. by eapply place_step.
  - rewrite Hroots in Hro. simplify_eq. pose proof (row_at_Some _ _ _ Hat) as [Hr Hp].
    eapply place_step; [| |done..| |].
    + by apply unique_forget.
    + by apply forget_row_at.
    + by apply seen_forget.
    + apply outside_forget; try done. intros q Hq. congruence.
Qed.
End ingest.

(** * The end of a session *)

Section finish.
Context `{Chrono} `{UuidText} `{Sqlite} `{Unicode} `{SnapshotJson} `{RootsJson}.
Context (b : bool) (F : Prop) (HF : b = true → F).

Lemma elem_of_select {R} (p : R → bool) (rows : list R) r :
  r ∈ select p rows ↔ r ∈ rows ∧ p r = true.
Proof. unfold select. rewrite order_by_perm, !list_elem_of_In. apply List.filter_In. Qed.

Lemma select_NoDup {R K} (p : R → bool) (k : R → K) (rows : list R) :
  NoDup (k <$> rows) → NoDup (k <$> select p rows).
Proof.
  intros Hnd. unfold select. rewrite order_by_perm.
  eapply sublist_NoDup; [exact Hnd|]. clear.
  induction rows as [|r rows IH]; [done|]. cbn.
  destruct (p r); cbn; [by apply sublist_skip | by apply sublist_cons].
Qed.

(** ** Promotion of one candidate *)
Definition promoted_row (q : FilesRow) (path hash s now : string) (r : FilesRow) : FilesRow :=
  set_seen (files_size q) hash s now (set_filename (filename_string path) (set_path (Some path) r)).

(** The candidate [c] takes the place of the row [q]. *)
Definition promote_rows (q : FilesRow) (path s now : string) (c : MissingCandidate)
    (rows : list FilesRow) : list FilesRow :=
  update_id (MissingCandidate_id c)
    (promoted_row q path (MissingCandidate_expected_hash c) s now)
    (List.filter (λ r, negb (has_file_id (files_id q) r)) rows).

Record promotes (s : string) (c : MissingCandidate) (rows : list FilesRow) (q : FilesRow)
    (path : string) : Prop := {
  promotes_row : q ∈ rows;
  promotes_seen : seen s q;
  promotes_hash : files_content_hash q = MissingCandidate_expected_hash c;
  promotes_path : files_path q = Some path;
  promotes_id : files_id q ≠ MissingCandidate_id c;
}.

(** What promotions need to go through. *)
Record can_promote (ids : nat → Uuid) (i : nat) (t : FileTables) : Prop := {
  can_ids r : r ∈ t_files t → ∃ u, Uuid_parse_str (files_id r) = Ok u;
  can_outcomes : t_outcomes t = [];
  can_fresh j : (i ≤ j)%nat → Uuid_to_string (ids j) ∉ transitions_id <$> t_transitions t;
  can_inj j k : ids j = ids k → j = k;
}.

Definition candidate_row (s : string) (roots : list PathBuf) (rows : list FilesRow)
    (c : MissingCandidate) : Prop :=
  is_under_any (MissingCandidate_path c) roots = true ∧
  ∃ r, r ∈ rows ∧ files_id r = MissingCandidate_id c ∧ ¬ seen s r ∧
       files_path r = Some (MissingCandidate_path c).

Lemma promote_unique s c rows q path now :
  unique_rows rows → promotes s c rows q path → unique_rows (promote_rows q path s now c rows).
Proof.
  intros Hu Hp. apply (unique_set_path _ _ path); [by apply unique_filter| |done].
  intros (r & Hr & Hrp)%list_elem_of_omap. apply list_elem_of_In, List.filter_In in Hr as [Hr Hid].
  apply list_elem_of_In in Hr.
  assert (r = q) as ->.
  { apply (NoDup_omap_inj files_path rows _ _ path); [apply Hu|done|apply Hp|done|apply Hp]. }
  unfold has_file_id in Hid. by rewrite bool_decide_true in Hid.
Qed.

Lemma spec_try_promote c s started now now_dt roots ids i t :
  unique_rows (t_files t) → candidate_row s roots (t_files t) c → F ∨ can_promote ids i t →
  db_spec b t (try_promote_one_move_in_tx c s started now now_dt (ids i))
    (λ promoted t', file_frame [Uuid_to_string (ids i)] t t' ∧
       if promoted then ∃ q path, promotes s c (t_files t) q path ∧
                        t_files t' = promote_rows q path s now c (t_files t)
       else t' = t) (λ _, F).
Proof.
  intros Hu (_ & r & Hr & Hid & Hns & Hrp) Hcan. apply bind_query; [done|].
  destruct (select_one _ _) as [q|] eqn:Hq; [|by apply spec_ret; split; [apply file_frame_refl|]].
  apply head_Some_elem_of in Hq. apply elem_of_select in Hq as [Hq Htarget].
  unfold is_promotion_target in Htarget. rewrite !andb_true_iff, !bool_decide_eq_true in Htarget.
  destruct Htarget as [[[[[Hseen Hhash] _] [path Hpath]] Hne] _].
  assert (promotes s c (t_files t) q path) as Hpr by done. rewrite Hpath. cbn [default].
  apply bind_execute; [done|]. unfold delete_transitions, delete_rows. cbn [fst snd].
  apply (spec_bind _ _ _ _ (λ _ t', t_files t' = List.filter (λ r, negb (has_file_id (files_id q) r)) (t_files t)
    ∧ t_sessions t' = t_sessions t ∧ t_mutations t' = t_mutations t ∧ t_outcomes t' = t_outcomes t
    ∧ (∀ x, x ∈ transitions_id <$> t_transitions t' → x ∈ transitions_id <$> t_transitions t))).
  { apply bind_call; [done|]. unfold delete_files, delete_rows. cbn [t_outcomes t_files put_transitions].
    destruct (existsb _ _) eqn:E.
    { destruct Hcan as [|Hcan]; [done|]. by rewrite (can_outcomes _ _ _ Hcan) in E. }
    apply spec_ret. split_and!; try done. cbn. intros x (y & -> & Hy)%list_elem_of_fmap.
    apply list_elem_of_In, List.filter_In in Hy as [Hy _].
    apply list_elem_of_fmap_2. by apply list_elem_of_In. }
  intros [] t1 (Hf1 & Hs1 & Hm1 & Ho1 & Ht1). pose proof (promote_unique _ _ _ _ _ now Hu Hpr) as Hu2.
  apply bind_update; [done| |right; by rewrite Hf1].
  intros _. apply bind_lift. unfold parse_uuid.
  destruct (Uuid_parse_str (MissingCandidate_id c)) as [u|] eqn:Hpar.
  2: { destruct Hcan as [|Hcan]; [done|]. destruct (can_ids _ _ _ Hcan r Hr). congruence. }
  apply bind_insert_transition; [done| |].
  - apply spec_ret. split.
    + split; cbn; try done.
      * intros x. rewrite fmap_app, elem_of_app. cbn. intros [?|?]; [left; auto|by right].
      * intros _. by rewrite Hf1.
    + exists q, path. cbn. by rewrite Hf1.
  - destruct Hcan as [|Hcan]; [by left|right]. cbn. intros Hin. by apply (can_fresh _ _ _ Hcan i), Ht1.
Qed.

(** ** Promotion and the invariant of the session *)
Lemma seen_remove s D rows q path :
  unique_rows rows → seen_inv s D rows → q ∈ rows → files_path q = Some path →
  seen_inv s (λ p, if bool_decide (path = p) then None else D p)
    (List.filter (λ r, negb (has_file_id (files_id q) r)) rows).
Proof.
  intros Hu Hinv Hq Hqp. split.
  - intros r Hr Hs. apply list_elem_of_In, List.filter_In in Hr as [Hr Hid]. apply list_elem_of_In in Hr.
    destruct (seen_view _ _ _ Hinv r Hr Hs) as (p & Hp & HD & Ha). exists p.
    rewrite bool_decide_false; [done|]. intros ->.
    assert (r = q) as -> by (apply (NoDup_omap_inj files_path rows _ _ p); auto; apply Hu).
    unfold has_file_id in Hid. by rewrite bool_decide_true in Hid.
  - intros p v. case_bool_decide as Hpp; [done|]. intros HD.
    destruct (seen_row _ _ _ Hinv p v HD) as (r & Hr & Hrp & Hrs). exists r. split; [|done].
    apply list_elem_of_In, List.filter_In. split; [by apply list_elem_of_In|].
    unfold has_file_id. rewrite bool_decide_false; [done|]. intros Hid.
    assert (r = q) as -> by (by apply (id_unique rows)). congruence.
Qed.

Lemma filter_other_id rows q r :
  r ∈ rows → files_id r ≠ files_id q →
  r ∈ List.filter (λ r, negb (has_file_id (files_id q) r)) rows.
Proof.
  intros Hr Hid. apply list_elem_of_In, List.filter_In. split; [by apply list_elem_of_In|].
  unfold has_file_id. by rewrite bool_decide_false.
Qed.

Lemma promote_step s roots c rows q path now D E A :
  unique_rows rows → candidate_row s roots rows c → promotes s c rows q path →
  (∀ p, is_Some (D p) → E p) → seen_inv s D rows → outside roots E A rows →
  seen_inv s D (promote_rows q path s now c rows) ∧
  outside roots E A (promote_rows q path s now c rows).
Proof.
  intros Hu (Hroot & r & Hr & Hid & Hns & Hrp) Hp HE Hinv Ho. destruct Hp as [Hq Hqs Hqh Hqp Hqid].
  destruct (seen_view _ _ _ Hinv q Hq Hqs) as (p & Hp & HD & _). rewrite Hqp in Hp. simplify_eq.
  assert (r ∈ List.filter (λ r, negb (has_file_id (files_id q) r)) rows) as Hr'.
  { apply filter_other_id; [done|]. congruence. }
  unfold promote_rows. rewrite <-Hid. split.
  - eapply seen_inv_ext; [|apply (seen_set _ (λ x, if bool_decide (p = x) then None else D x) _ r _ p
      (files_size q, files_content_hash q))];
      [|by apply unique_filter|by apply seen_remove|done|done|by rewrite bool_decide_true|done..|
       by rewrite Hqh].
    intros x. unfold extend. case_bool_decide; [by subst|by destruct (D x)].
  - apply outside_set; [by apply unique_filter| |done| |].
    + apply outside_filter; [done|]. intros x y Hx Hxid Hxp. left. apply HE.
      apply negb_false_iff, bool_decide_eq_true in Hxid.
      assert (x = q) as -> by (by apply (id_unique rows)). rewrite Hqp in Hxp. simplify_eq. eauto.
    + intros x Hx. right. congruence.
    + intros x Hx. cbn in Hx. simplify_eq. apply HE. eauto.
Qed.

Lemma promote_candidates s roots c c' rows q path now :
  promotes s c rows q path → MissingCandidate_id c' ≠ MissingCandidate_id c →
  candidate_row s roots rows c' → unique_rows rows →
  candidate_row s roots (promote_rows q path s now c rows) c'.
Proof.
  intros Hp Hne (Hroot & r & Hr & Hid & Hns & Hrp) Hu. split; [done|]. exists r. split; [|done].
  apply update_id_keeps; [|congruence]. apply filter_other_id; [done|]. intros Hq.
  assert (r = q) as -> by (apply (id_unique rows); auto; apply Hp). apply Hns, Hp.
Qed.

(** Rows after promotions were there before or belong to the session. *)
Lemma promote_origin s c rows q path now r :
  r ∈ promote_rows q path s now c rows →
  r ∈ rows ∨ seen s r ∧ files_status r = "active".
Proof.
  intros (r0 & Hr0 & [[_ ->]|[_ ->]])%update_id_elem; [by right|left].
  apply list_elem_of_In, List.filter_In in Hr0 as [? _]. by apply list_elem_of_In.
Qed.

Lemma can_promote_step ids i t t' c s q path now :
  file_frame [Uuid_to_string (ids i)] t t' →
  t_files t' = t_files t ∨ t_files t' = promote_rows q path s now c (t_files t) →
  can_promote ids i t → can_promote ids (S i) t'.
Proof.
  intros Hfr Hf [Hids Hout Hfresh Hinj]. split; [| | |done].
  - intros r Hr. destruct Hf as [Hf|Hf]; rewrite Hf in Hr; [auto|].
    apply update_id_elem in Hr as (r0 & Hr0 & Hr).
    apply list_elem_of_In, List.filter_In in Hr0 as [Hr0 _]. apply list_elem_of_In in Hr0.
    destruct Hr as [[_ ->]|[_ ->]]; by apply (Hids r0).
  - by rewrite (frame_outcomes _ _ _ Hfr).
  - intros j Hj Hin. destruct (frame_transitions _ _ _ Hfr _ Hin) as [Hin'|Hin'].
    + apply (Hfresh j); [lia|done].
    + apply list_elem_of_singleton, Uuid_to_string_inj, Hinj in Hin'. lia.
Qed.

Lemma spec_promote_loop s started now now_dt roots ids D E A cs :
  (∀ p, is_Some (D p) → E p) → NoDup (MissingCandidate_id <$> cs) →
  ∀ i t, unique_rows (t_files t) → Forall (candidate_row s roots (t_files t)) cs →
  seen_inv s D (t_files t) → outside roots E A (t_files t) → F ∨ can_promote ids i t →
  db_spec b t (promote_loop s started now now_dt ids i cs)
    (λ _ t', unique_rows (t_files t') ∧ seen_inv s D (t_files t') ∧ outside roots E A (t_files t') ∧
       t_sessions t' = t_sessions t ∧ t_mutations t' = t_mutations t ∧
       ∀ r, r ∈ t_files t' → r ∈ t_files t ∨ seen s r ∧ files_status r = "active") (λ _, F).
Proof.
  intros HE. induction cs as [|c cs IH]; intros Hnd i t Hu Hcs Hinv Ho Hcan; cbn.
  { apply spec_ret. split_and!; auto. }
  apply NoDup_cons in Hnd as [Hc Hnd]. apply Forall_cons in Hcs as [Hcand Hcs].
  eapply spec_bind; [by eapply spec_try_promote|]. intros promoted t1 [Hfr Hp].
  assert (∃ q path, unique_rows (t_files t1) ∧ seen_inv s D (t_files t1) ∧
    outside roots E A (t_files t1) ∧ Forall (candidate_row s roots (t_files t1)) cs ∧
    (t_files t1 = t_files t ∨ t_files t1 = promote_rows q path s now c (t_files t)))
    as (q & path & Hu1 & Hinv1 & Ho1 & Hcs1 & Hf1).
  { destruct promoted; [|subst t1; destruct Hcand as (_ & r & _); by exists r, ""; split_and!; auto].
    destruct Hp as (q & path & Hpr & Hf). exists q, path. rewrite Hf.
    destruct (promote_step s roots c (t_files t) q path now D E A) as [? ?]; [done..|].
    split_and!; auto; [by apply promote_unique|]. rewrite Forall_forall in Hcs |- *. intros c' Hc'.
    apply promote_candidates; auto. intros Heq. apply Hc. rewrite <-Heq. by apply list_elem_of_fmap_2. }
  eapply spec_bind.
  - apply (IH Hnd (S i) t1); try done. destruct Hcan as [|Hcan]; [by left|right].
    by eapply can_promote_step.
  - intros n t2 (Hu2 & Hinv2 & Ho2 & Hs2 & Hm2 & Hor). apply spec_ret. split_and!; try done.
    + by rewrite Hs2, (frame_sessions _ _ _ Hfr).
    + by rewrite Hm2, (frame_mutations _ _ _ Hfr).
    + intros r Hr. destruct (Hor r Hr) as [Hr1|]; [|by right].
      destruct Hf1 as [Hf1|Hf1]; rewrite Hf1 in Hr1; [by left|]. by eapply promote_origin.
Qed.

(** ** Missing files *)
Definition mark (ids : list string) (now : string) (rows : list FilesRow) : list FilesRow :=
  (λ r, if bool_decide (files_id r ∈ ids) && is_active r then set_missing now r else r) <$> rows.

Definition missing_ids (roots : list PathBuf) (voom : list string) (cs : list (string * string))
    : list string :=
  fst <$> List.filter (λ c, is_under_any c.2 roots && negb (bool_decide (c.2 ∈ voom))) cs.

Lemma mark_cons id ids now rows :
  mark ids now ((λ r, if has_file_id id r && is_active r then set_missing now r else r) <$> rows)
  = mark (id :: ids) now rows.
Proof.
  unfold mark. rewrite <-list_fmap_compose. apply list_fmap_ext. intros i r _. cbn.
  unfold has_file_id. destruct (decide (files_id r = id)) as [Hid|Hid].
  - rewrite (bool_decide_true (files_id r = id)) by done.
    rewrite (bool_decide_true (files_id r ∈ id :: ids)) by (rewrite Hid; apply list_elem_of_here).
    cbn. destruct (is_active r) eqn:Ha; [by rewrite andb_false_r|by rewrite Ha, andb_false_r].
  - rewrite (bool_decide_false (files_id r = id)) by done. cbn.
    by rewrite (bool_decide_ext (files_id r ∈ id :: ids) (files_id r ∈ ids)) by set_solver.
Qed.

Lemma spec_mark_loop roots voom now cs :
  ∀ t, unique_rows (t_files t) →
  db_spec b t (mark_missing_loop roots voom now cs)
    (λ n t', n = N.of_nat (length (missing_ids roots voom cs)) ∧
       t' = put_files (mark (missing_ids roots voom cs) now (t_files t)) t ∧
       unique_rows (t_files t')) (λ _, F).
Proof.
  induction cs as [|[id path] cs IH]; intros t Hu.
  { apply spec_ret. split; [done|].
    assert (t = put_files (mark (missing_ids roots voom []) now (t_files t)) t) as Ht.
    { unfold missing_ids, mark. destruct t; unfold put_files; cbn. f_equal. by rewrite list_fmap_id. }
    by rewrite <-Ht. }
  unfold missing_ids in *. cbn [mark_missing_loop List.filter snd].
  destruct (is_under_any path roots) eqn:Hpu; cbn; [|by apply IH].
  case_bool_decide as Hv; cbn; [by apply IH|].
  apply bind_update; [done| |].
  - intros Hu1. eapply spec_bind; [by apply IH|]. intros n t' (-> & -> & Hu2). apply spec_ret.
    split; [lia|]. split; [|done]. cbn [t_files put_files]. by rewrite mark_cons.
  - right. apply unique_same_keys; [|done]. intros r _. destruct (_ && _); cbn; auto.
Qed.

(** The rows that are marked. *)
Lemma mark_vanished s roots voom now rows :
  unique_rows rows →
  mark (missing_ids roots voom (id_and_path <$> select (active_unseen s) rows)) now rows
  = (λ r, if vanished s roots voom r then set_missing now r else r) <$> rows.
Proof.
  intros Hu. apply list_fmap_ext. intros i r Hi. apply list_elem_of_lookup_2 in Hi.
  enough (bool_decide (files_id r ∈ missing_ids roots voom (id_and_path <$> select (active_unseen s) rows))
          && is_active r = vanished s roots voom r) as -> by done.
  apply eq_true_iff_eq. unfold vanished, missing_ids. rewrite !andb_true_iff, bool_decide_eq_true. split.
  - intros [(c & Hid & Hc)%list_elem_of_fmap Ha].
    apply list_elem_of_In, List.filter_In in Hc as [Hc Hcu].
    apply list_elem_of_In, list_elem_of_fmap in Hc as (r' & -> & Hr').
    apply elem_of_select in Hr' as [Hr' Hun].
    assert (r' = r) as -> by (by apply (id_unique rows)). split; [done|].
    unfold active_unseen in Hun. rewrite !andb_true_iff, !bool_decide_eq_true in Hun.
    destruct Hun as [[_ [p Hp]] _]. unfold id_and_path in Hcu. cbn in Hcu. by rewrite Hp in Hcu |- *.
  - intros [Hun Hp]. destruct (files_path r) as [p|] eqn:Hrp; [|done]. split.
    + apply list_elem_of_fmap. exists (files_id r, p). split; [done|].
      apply list_elem_of_In, List.filter_In. split; [|done]. apply list_elem_of_In, list_elem_of_fmap.
      exists r. unfold id_and_path. rewrite Hrp. split; [done|]. by apply elem_of_select.
    + unfold active_unseen in Hun. by rewrite !andb_true_iff in Hun; destruct Hun as [[? _] _].
Qed.

(** The active files after the missing ones are marked. *)
Lemma final_view s roots voom now rows D A p :
  unique_rows rows → seen_inv s D rows → outside roots (λ x, is_Some (D x)) A rows → p ∉ voom →
  active_at ((λ r, if vanished s roots voom r then set_missing now r else r) <$> rows) p
  = match D p with Some v => Some v | None => if is_under_any p roots then None else A p end.
Proof.
  intros Hu Hinv Ho Hp. set (g := λ r, if vanished s roots voom r then set_missing now r else r).
  assert (Hgp : ∀ r, files_path (g r) = files_path r) by (intros r; unfold g; by destruct (vanished _ _ _ r)).
  assert (Hun : unique_rows (g <$> rows)).
  { apply unique_same_keys; [|done]. intros r _. unfold g. destruct (vanished _ _ _ r); cbn; auto. }
  destruct (D p) as [v|] eqn:HD.
  - destruct (seen_row _ _ _ Hinv p v HD) as (r & Hr & Hrp & Hrs).
    destruct (seen_view _ _ _ Hinv r Hr Hrs) as (p' & Hp' & HD' & Ha).
    assert (g r = r) as Hgr.
    { unfold g, vanished, active_unseen, unseen. rewrite (bool_decide_false (_ ≠ _)) by auto.
      by rewrite andb_false_r. }
    unfold active_at. rewrite (row_at_unique _ r); [|done| |done].
    + cbn. unfold row_view, is_active. rewrite bool_decide_true by done. congruence.
    + rewrite <-Hgr. by apply list_elem_of_fmap_2.
  - destruct (is_under_any p roots) eqn:Hroot.
    + unfold active_at. destruct (row_at (g <$> rows) p) as [r'|] eqn:Hat; [|done]. cbn.
      apply row_at_Some in Hat as [(r & -> & Hr)%list_elem_of_fmap Hrp]. rewrite Hgp in Hrp.
      unfold row_view. unfold g. destruct (vanished s roots voom r) eqn:Hv; [done|].
      enough (is_active r = false) as -> by done.
      unfold vanished, active_unseen, is_active in *. rewrite Hrp, Hroot in Hv.
      rewrite (bool_decide_false (p ∈ voom)), (bool_decide_true (is_Some (Some p))) in Hv by eauto.
      destruct (bool_decide (files_status r = "active")) eqn:Ha; [|done]. exfalso.
      unfold unseen in Hv. cbn in Hv. rewrite andb_true_r in Hv. apply bool_decide_eq_false in Hv.
      assert (seen s r) as Hs by (unfold seen; by apply dec_stable).
      destruct (seen_view _ _ _ Hinv r Hr Hs) as (p' & ? & ? & _). congruence.
    + rewrite <-(Ho p); [|rewrite HD; by intros [? ?]|done]. apply active_at_fmap. intros r Hr.
      rewrite Hgp. split; [done|]. intros Hrp. unfold g, vanished. rewrite Hrp, Hroot.
      by rewrite andb_false_r.
Qed.

(** ** The candidates of the promotion *)
Lemma candidates_ids s rows (f : MissingCandidate → bool) :
  NoDup (files_id <$> rows) →
  NoDup (MissingCandidate_id <$> List.filter f (missing_candidates s rows)).
Proof.
  intros Hnd. unfold missing_candidates.
  set (l := select _ rows). assert (NoDup (files_id <$> l)) as Hl by (by apply select_NoDup).
  eapply sublist_NoDup; [exact Hl|]. clear. induction l as [|r l IH]; [done|]. cbn.
  destruct (files_path r), (files_expected_hash r); cbn; try by apply sublist_cons.
  destruct (f _); cbn; [by apply sublist_skip|by apply sublist_cons].
Qed.

Lemma candidates_rows s roots rows :
  Forall (candidate_row s roots rows)
    (List.filter (λ c, is_under_any (MissingCandidate_path c) roots) (missing_candidates s rows)).
Proof.
  apply Forall_forall. intros c Hc. apply list_elem_of_In, List.filter_In in Hc as [Hc Hu].
  split; [done|]. apply list_elem_of_In, list_elem_of_omap in Hc as (r & Hr & Hc).
  apply elem_of_select in Hr as [Hr Hs]. exists r.
  destruct (files_path r) as [p|], (files_expected_hash r); try done. simplify_eq. cbn.
  unfold active_unseen, unseen in Hs. rewrite !andb_true_iff, !bool_decide_eq_true in Hs.
  split_and!; try done. apply Hs.
Qed.

(** ** The end of a session *)
Definition close_sessions (session_str now : string) (sessions : list SessionsRow)
    : list SessionsRow :=
  (λ r, if has_session_id session_str r then close_session "completed" now r else r) <$> sessions.

Lemma spec_finish now_dt ids session roots D A t :
  let s := Uuid_to_string session in
  let voom := session_mutation_paths s (t_mutations t) in
  unique_rows (t_files t) → seen_inv s D (t_files t) →
  outside roots (λ x, is_Some (D x)) A (t_files t) →
  roots_of (t_sessions t) s = Some roots →
  F ∨ can_promote ids 0 t ∧ open_session (t_sessions t) s →
  db_spec b t (sqlite_finish_scan_session now_dt ids session)
    (λ _ t', unique_rows (t_files t') ∧
       (∀ p, p ∉ voom → active_at (t_files t') p
          = match D p with Some v => Some v | None => if is_under_any p roots then None else A p end) ∧
       (∀ r p, r ∈ t_files t' → files_path r = Some p → p ∈ voom → files_status r = "missing" →
          r ∈ t_files t) ∧
       t_sessions t' = close_sessions s (bind_time now_dt) (t_sessions t))
    (λ t', F ∧ t' = t).
Proof.
  intros s voom Hu Hinv Ho Hroots Hpre. apply spec_on_conn; [done|]. fold s. apply spec_rollback; [done|].
  apply bind_query; [done|]. unfold query_row. unfold roots_of in Hroots.
  destruct (List.find (has_session_id s) (t_sessions t)) as [row|] eqn:Hrow; [|done]. cbn in Hroots |- *.
  destruct (bool_decide (ScanSessionStatus_parse _ = _)) eqn:Hst; cbn.
  2: { destruct Hpre as [|[_ (row' & Hrow' & Hs)]]; [by apply spec_lift|]. exfalso.
       apply bool_decide_eq_false in Hst. rewrite Hrow in Hrow'. simplify_eq.
       by apply Hst, parse_in_progress. }
  apply bind_lift. unfold session_roots. destruct (roots_from_json _) as [ro|]; [|done]. simplify_eq.
  unfold promote_moves_in_tx.
  eapply spec_bind.
  { do 3 (apply bind_query; [done|]).
    apply (spec_promote_loop s (sessions_started_at row) (bind_time now_dt) now_dt roots ids D
             (λ x, is_Some (D x)) A); try done.
    - apply candidates_ids, Hu.
    - apply candidates_rows.
    - tauto. }
  intros n t1 (Hu1 & Hinv1 & Ho1 & Hs1 & Hm1 & Hor1). unfold mark_missing_in_finish_tx.
  eapply spec_bind.
  { do 6 (apply bind_query; [done|]). by apply spec_mark_loop. }
  intros m t2 (_ & -> & Hu2). apply bind_execute; [done|]. unfold update_sessions, update_rows.
  cbn [fst snd]. apply bind_commit; [done|]. apply spec_ret. cbn [t_files put_sessions put_files t_sessions].
  rewrite Hm1. fold voom. rewrite mark_vanished by done. split_and!.
  - apply unique_same_keys; [|done]. intros r _. destruct (vanished _ _ _ r); cbn; auto.
  - intros p Hp. by apply final_view.
  - intros r p (r1 & -> & Hr1)%list_elem_of_fmap. destruct (vanished _ _ _ r1) eqn:Hv.
    + unfold vanished in Hv. cbn. intros Hp Hpv _. rewrite Hp, andb_true_iff in Hv.
      destruct Hv as [_ Hv]. rewrite (bool_decide_true (p ∈ voom)), andb_false_r in Hv by done. done.
    + intros _ _ Hmiss. destruct (Hor1 r1 Hr1) as [|[_ Ha]]; [done|congruence].
  - by rewrite Hs1.
Qed.
End finish.

(** * A whole scan *)

Section scan.
Context `{Chrono} `{UuidText} `{Sqlite} `{Unicode} `{SnapshotJson} `{RootsJson}.
Context (b : bool) (F : Prop) (HF : b = true → F).

(** ** The beginning of a session *)
Definition new_session (id : Uuid) (roots_json : string) (now : DateTime) : SessionsRow := {|
  sessions_id := Uuid_to_string id;
  sessions_roots_json := roots_json;
  sessions_status := "in_progress";
  sessions_started_at := bind_time now;
  sessions_finished_at := None;
  sessions_last_heartbeat_at := bind_time now;
|}.

(** Sessions in progress are given up. *)
Definition cancel_open (now : DateTime) (sessions : list SessionsRow) : list SessionsRow :=
  (λ r, if is_in_progress r then close_session "cancelled" (bind_time now) r else r) <$> sessions.

(** A session whose last sign of life is too old. *)
Definition abandoned (now : DateTime) (r : SessionsRow) : Prop :=
  ∃ heartbeat, parse_datetime (sessions_last_heartbeat_at r) = Ok heartbeat ∧
    (STALE_SESSION_SECS < num_seconds (now - heartbeat))%Z.

Lemma stale_sessions_all now prior ids :
  stale_sessions now prior = Ok ids → ids = prior.*1.
Proof.
  revert ids. induction prior as [|[sid hb] prior IH]; intros ids; cbn; [by intros [= <-]|].
  destruct (parse_datetime hb); [|done]. cbn. destruct (_ <? _)%Z; [|done].
  destruct (stale_sessions now prior) as [rest|] eqn:E; [|done]. cbn. intros [= <-]. f_equal. auto.
Qed.

Lemma stale_sessions_ok now rows :
  Forall (abandoned now) rows →
  stale_sessions now ((λ r, (sessions_id r, sessions_last_heartbeat_at r)) <$> rows)
  = Ok (sessions_id <$> rows).
Proof.
  induction 1 as [|r rows (hb & Hp & Hs) _ IH]; [done|]. cbn. rewrite Hp. cbn.
  rewrite (proj2 (Z.ltb_lt _ _) Hs), IH. done.
Qed.

Definition cancel_ids (ids : list string) (now : DateTime) (sessions : list SessionsRow)
    : list SessionsRow :=
  (λ r, if bool_decide (sessions_id r ∈ ids) && is_in_progress r
        then close_session "cancelled" (bind_time now) r else r) <$> sessions.

Lemma put_sessions_id t : put_sessions (t_sessions t) t = t.
Proof. by destruct t. Qed.

Lemma put_put_sessions v w t : put_sessions v (put_sessions w t) = put_sessions v t.
Proof. done. Qed.

Lemma spec_cancel_each now ids :
  ∀ t, db_spec b t
    (fs_each (λ sid,
       db_bind (db_execute "failed to auto-cancel stale scan session"
                  (update_sessions (λ r, has_session_id sid r && is_in_progress r)
                     (close_session "cancelled" (bind_time now)))) (λ _, db_ret tt)) ids)
    (λ _ t', t' = put_sessions (cancel_ids ids now (t_sessions t)) t) (λ _, F).
Proof.
  induction ids as [|sid ids IH]; intros t; cbn.
  { apply spec_ret. unfold cancel_ids. cbn. rewrite list_fmap_id. by rewrite put_sessions_id. }
  set (step := update_sessions _ _).
  apply (spec_bind _ _ _ _ (λ _ t', t' = (step t).2)).
  { apply bind_execute; [done|]. by apply spec_ret. }
  intros [] t1 Ht1. eapply spec_weaken; [apply IH| |done]. intros [] t' ->.
  subst t1 step. unfold update_sessions, update_rows. cbn [snd t_sessions put_sessions].
  rewrite put_put_sessions. f_equal. unfold cancel_ids.
  change (map ?f ?l) with (f <$> l). rewrite <-list_fmap_compose. apply list_fmap_ext. intros i r _. cbn.
  unfold has_session_id. destruct (decide (sessions_id r = sid)) as [Hid|Hid].
  - rewrite (bool_decide_true (sessions_id r = sid)) by done.
    rewrite (bool_decide_true (sessions_id r ∈ sid :: ids)) by (rewrite Hid; apply list_elem_of_here).
    cbn. destruct (is_in_progress r) eqn:Ha; [by rewrite andb_false_r|by rewrite Ha, andb_false_r].
  - rewrite (bool_decide_false (sessions_id r = sid)) by done. cbn.
    by rewrite (bool_decide_ext (sessions_id r ∈ sid :: ids) (sessions_id r ∈ ids)) by set_solver.
Qed.

Lemma cancel_ids_open now sessions :
  cancel_ids (sessions_id <$> select is_in_progress sessions) now sessions = cancel_open now sessions.
Proof.
  apply list_fmap_ext. intros i r Hi. apply list_elem_of_lookup_2 in Hi.
  destruct (is_in_progress r) eqn:Hp; [|by rewrite andb_false_r].
  rewrite bool_decide_true; [done|]. apply list_elem_of_fmap_2. by apply elem_of_select.
Qed.

Lemma cancel_open_ids now sessions : sessions_id <$> cancel_open now sessions = sessions_id <$> sessions.
Proof.
  unfold cancel_open. rewrite <-list_fmap_compose. apply list_fmap_ext. intros i r _. cbn.
  by destruct (is_in_progress r).
Qed.

Lemma spec_begin id now roots t :
  F ∨ (∃ j, roots_to_json roots = Ok j) ∧ (Uuid_to_string id ∉ sessions_id <$> t_sessions t) ∧
      (∀ r, r ∈ t_sessions t → is_in_progress r = true → abandoned now r) →
  db_spec b t (sqlite_begin_scan_session id now roots)
    (λ u t', u = id ∧ (Uuid_to_string id ∉ sessions_id <$> t_sessions t) ∧
       ∃ j, roots_to_json roots = Ok j ∧
            t' = put_sessions (cancel_open now (t_sessions t) ++ [new_session id j now]) t)
    (λ t', F ∧ t' = t).
Proof.
  intros Hpre. apply spec_on_conn; [done|].
  destruct (roots_to_json roots) as [j|e] eqn:Hj.
  2: { destruct Hpre as [|[[? ?] _]]; [|done]. by intros fs. }
  apply (spec_bind _ _ _ _ (λ a t', a = j ∧ t' = t)); [by apply spec_lift|]. intros ? ? [-> ->].
  apply spec_rollback; [done|]. do 3 (apply bind_query; [done|]). apply bind_lift.
  destruct (stale_sessions now _) as [ids|] eqn:Hst.
  2: { destruct Hpre as [|(_ & _ & Hab)]; [done|]. rewrite stale_sessions_ok in Hst; [done|].
       apply Forall_forall. intros r [Hr Hp]%elem_of_select. auto. }
  apply stale_sessions_all in Hst as ->. rewrite <-list_fmap_compose.
  change (fst ∘ _) with sessions_id. eapply spec_bind; [apply spec_cancel_each|]. intros [] t1 ->.
  rewrite cancel_ids_open. apply bind_call; [done|]. unfold insert_session.
  cbn [sessions_id t_sessions put_sessions]. rewrite cancel_open_ids. case_bool_decide as Hid.
  { destruct Hpre as [|(_ & ? & _)]; done. }
  apply bind_commit; [done|]. apply spec_ret. split; [done|]. split; [done|]. by exists j.
Qed.

Lemma find_new_session id j now sessions :
  Uuid_to_string id ∉ sessions_id <$> sessions →
  List.find (has_session_id (Uuid_to_string id)) (cancel_open now sessions ++ [new_session id j now])
  = Some (new_session id j now).
Proof.
  rewrite <-(cancel_open_ids now). generalize (cancel_open now sessions). intros l.
  induction l as [|r l IH]; cbn; intros Hid; unfold has_session_id at 1.
  - by rewrite bool_decide_true.
  - rewrite not_elem_of_cons in Hid. destruct Hid as [Hne Hid].
    rewrite bool_decide_false by auto. by apply IH.
Qed.

(** ** The supply of identifiers *)

(** The identifiers from the [n]-th on are new to the tables. *)
Record supply (ids : nat → Uuid) (n : nat) (t : FileTables) : Prop := {
  supply_rows r : r ∈ t_files t → ∃ u, Uuid_parse_str (files_id r) = Ok u;
  supply_outcomes : t_outcomes t = [];
  supply_files j : (n ≤ j)%nat → Uuid_to_string (ids j) ∉ files_id <$> t_files t;
  supply_successors j : (n ≤ j)%nat → Uuid_to_string (ids j) ∉ omap files_superseded_by (t_files t);
  supply_transitions j : (n ≤ j)%nat → Uuid_to_string (ids j) ∉ transitions_id <$> t_transitions t;
  supply_inj j k : ids j = ids k → j = k;
}.

Lemma supply_ready inp i t :
  unique_rows (t_files t) → supply (si_ids inp) (3 * i) t → ready (ingest_input inp i) t.
Proof.
  intros Hu [? ? Hf Hs Ht Hinj]. split; cbn [ii_file_id ii_transition_id ii_second_transition_id ingest_input]; auto.
  - apply Ht. lia.
  - apply Ht. lia.
  - intros Heq%Hinj. lia.
Qed.

Lemma supply_promote ids n t : supply ids n t → can_promote (λ j, ids (n + j)%nat) 0 t.
Proof.
  intros [? ? _ _ Ht Hinj]. split; auto.
  - intros j _. apply Ht. lia.
  - intros j k Heq%Hinj. lia.
Qed.

(** Rows after an ingestion: their identifiers are old, or the new one. *)
Lemma ingest_file_ids new_id ctx sessions rows d rows' r :
  ingest_file new_id ctx sessions rows d rows' → r ∈ rows' →
  (files_id r = Uuid_to_string new_id ∨ ∃ q, q ∈ rows ∧ files_id r = files_id q) ∧
  (∀ x, files_superseded_by r = Some x → x = Uuid_to_string new_id ∨
     ∃ q, q ∈ rows ∧ files_superseded_by q = Some x).
Proof.
  assert (Hupd : ∀ id g rows, (∀ q, files_id (g q) = files_id q ∧
    (files_superseded_by (g q) = files_superseded_by q ∨
     files_superseded_by (g q) = Some (Uuid_to_string new_id))) → r ∈ update_id id g rows →
    (∃ q, q ∈ rows ∧ files_id r = files_id q) ∧
    (∀ x, files_superseded_by r = Some x → x = Uuid_to_string new_id ∨
       ∃ q, q ∈ rows ∧ files_superseded_by q = Some x)).
  { intros id g rows0 Hg (q & Hq & [[_ ->]|[_ ->]])%update_id_elem; [|by split; eauto].
    destruct (Hg q) as [Hi Hs]. split; [by eauto|]. intros x Hx. destruct Hs as [Hs|Hs]; rewrite Hs in Hx; [by eauto|].
    simplify_eq. by left. }
  assert (Hforget : ∀ id q, q ∈ forget_file id rows → ∃ q0, q0 ∈ rows ∧ files_id q = files_id q0 ∧
    ∀ x, files_superseded_by q = Some x → files_superseded_by q0 = Some x).
  { intros id q Hq. apply list_elem_of_In, List.filter_In in Hq as [Hq _].
    apply list_elem_of_In, list_elem_of_fmap in Hq as (q0 & -> & Hq0). exists q0.
    case_bool_decide; cbn; naive_solver. }
  assert (Hplace : ∀ roots rows0, place_file new_id ctx roots rows0 d rows' → r ∈ rows' →
    (files_id r = Uuid_to_string new_id ∨ ∃ q, q ∈ rows0 ∧ files_id r = files_id q) ∧
    (∀ x, files_superseded_by r = Some x → x = Uuid_to_string new_id ∨
       ∃ q, q ∈ rows0 ∧ files_superseded_by q = Some x)).
  { intros roots rows0 [q prior u _ _ _ _ _|_].
    - intros Hr. apply Hupd in Hr as [? ?]; [by auto|]. intros q'. cbn. auto.
    - intros [Hr| ->%list_elem_of_singleton]%elem_of_app; cbn; naive_solver. }
  intros Hin Hr. destruct Hin as [q u _ _ _|q u _ _ _ _ _|q u h _ _ _ _ _ _|roots d rows' _ _ Hpl
                                 |roots q d rows' _ _ _ _ Hpl].
  - split; [by eauto|]. eauto.
  - apply Hupd in Hr as [? ?]; [by auto|]. intros q'. unfold seen_again. case_bool_decide; cbn; auto.
  - apply elem_of_app in Hr as [Hr| ->%list_elem_of_singleton]; [|cbn; naive_solver].
    apply Hupd in Hr as [? ?]; [by auto|]. intros q'. cbn. auto.
  - by eapply Hplace.
  - destruct (Hplace _ _ Hpl Hr) as [Hi Hs]. split.
    + destruct Hi as [|(q1 & (q0 & ? & Hq0 & _)%Hforget & Hq1)]; [by left|right]. exists q0.
      by rewrite <-Hq0.
    + intros x Hx. destruct (Hs x Hx) as [|(q1 & (q0 & ? & _ & Hq0)%Hforget & Hq1)]; [by left|right]. eauto.
Qed.

Lemma supply_step inp i ctx t d t' :
  ingest_file (ii_file_id (ingest_input inp i)) ctx (t_sessions t) (t_files t) d (t_files t') →
  file_frame (ingest_ids (ingest_input inp i)) t t' →
  supply (si_ids inp) (3 * i) t → supply (si_ids inp) (3 * S i) t'.
Proof.
  intros Hin Hfr [Hrows Hout Hf Hs Ht Hinj].
  assert (∀ j k, (3 * S i ≤ j)%nat → (k < 3)%nat →
    Uuid_to_string (si_ids inp j) ≠ Uuid_to_string (si_ids inp (3 * i + k))) as Hne.
  { intros j k Hj Hk Heq%Uuid_to_string_inj%Hinj. lia. }
  split; [| | | | |done].
  - intros r Hr. destruct (ingest_file_ids _ _ _ _ _ _ r Hin Hr) as [[->|(q & Hq & ->)] _]; [|by apply Hrows].
    rewrite Uuid_parse_to_string. eauto.
  - by rewrite (frame_outcomes _ _ _ Hfr).
  - intros j Hj (r & Hid & Hr)%list_elem_of_fmap.
    destruct (ingest_file_ids _ _ _ _ _ _ r Hin Hr) as [[Hn|(q & Hq & Hi)] _].
    + apply (Hne j 0%nat Hj); [lia|]. rewrite Nat.add_0_r. by rewrite Hid, Hn.
    + apply (Hf j); [lia|]. rewrite Hid, Hi. by apply list_elem_of_fmap_2.
  - intros j Hj (r & Hr & Hid)%list_elem_of_omap.
    destruct (ingest_file_ids _ _ _ _ _ _ r Hin Hr) as [_ Hsup].
    destruct (Hsup _ Hid) as [Hn|(q & Hq & Hi)].
    + apply (Hne j 0%nat Hj); [lia|]. by rewrite Nat.add_0_r.
    + apply (Hs j); [lia|]. apply list_elem_of_omap. eauto.
  - intros j Hj Hjt. destruct (frame_transitions _ _ _ Hfr _ Hjt) as [|Hn].
    + by apply (Ht j); [lia|].
    + unfold ingest_ids in Hn. cbn in Hn.
      apply elem_of_cons in Hn as [Hn|Hn%list_elem_of_singleton].
      * by apply (Hne j 1%nat Hj); [lia|].
      * by apply (Hne j 2%nat Hj); [lia|].
Qed.

(** ** The loop over the discovered files *)

(** What holds in the middle of a scan: [D] is what the session has seen, [A] the
    active files before it. *)
Record scanning (s : string) (roots : list PathBuf) (D A : string → option (Z * string))
    (E : string → Prop) (voom : list string) (t : FileTables) : Prop := {
  scanning_unique : unique_rows (t_files t);
  scanning_seen : seen_inv s D (t_files t);
  scanning_outside : outside roots E A (t_files t);
  scanning_roots : roots_of (t_sessions t) s = Some roots;
  scanning_open : open_session (t_sessions t) s;
  scanning_voom : session_mutation_paths s (t_mutations t) = voom;
}.

Definition file_at (df : DiscoveredFile) : string := to_string_lossy (DiscoveredFile_path df).

Definition extend_all (D : string → option (Z * string)) (ds : list DiscoveredFile) (p : string)
    : option (Z * string) :=
  match D p with Some v => Some v | None => discovered_at ds p end.

Lemma spec_ingest_loop inp session roots A E voom ds :
  ∀ D i result t, Forall (λ df, E (file_at df)) ds →
  scanning (Uuid_to_string session) roots D A E voom t →
  F ∨ supply (si_ids inp) (3 * i) t →
  db_spec b t (ingest_loop inp session i ds result)
    (λ _ t', scanning (Uuid_to_string session) roots (extend_all D ds) A E voom t' ∧
             (F ∨ supply (si_ids inp) (3 * (i + length ds)) t')) (λ _, F).
Proof.
  induction ds as [|df ds IH]; intros D i result t HE Hsc Hsup.
  { change (db_spec b t (db_ret result) (λ _ t', scanning (Uuid_to_string session) roots (extend_all D []) A E voom t' ∧
             (F ∨ supply (si_ids inp) (3 * (i + 0)) t')) (λ _, F)).
    apply spec_ret. rewrite Nat.add_0_r. split; [|done]. destruct Hsc. split; try done.
    eapply seen_inv_ext; [|done]. intros p. unfold extend_all. by destruct (D p). }
  apply Forall_cons in HE as [HE HEs].
  change (ingest_loop inp session i (df :: ds) result)
    with (db_bind (sqlite_ingest_discovered_file (ingest_input inp i) session df)
            (λ d, ingest_loop inp session (1 + i) ds (count_decision df d result))).
  eapply spec_bind.
  { eapply spec_weaken; [apply (spec_ingest _ F)| |by intros ? [? _]]; [done|apply Hsc| |by intros d t' Hd; exact Hd].
    destruct Hsup as [|Hsup]; [by left|right]. destruct Hsc as [? ? ? Hro ? ?].
    split; [by apply supply_ready|]. split; [done|]. rewrite Hro. eauto. }
  intros d t1 (_ & Hin & Hfr).
  destruct (ingest_step _ (ingest_ctx (ingest_input inp i) session df) (t_sessions t) roots _ _ _ D E A
              (scanning_unique _ _ _ _ _ _ _ Hsc)
              (scanning_roots _ _ _ _ _ _ _ Hsc) Hin HE (scanning_seen _ _ _ _ _ _ _ Hsc)
              (scanning_outside _ _ _ _ _ _ _ Hsc)) as [Hseen Hout].
  eapply spec_weaken; [apply (IH (extend D (file_at df) (u64_as_i64 (DiscoveredFile_size df),
    DiscoveredFile_content_hash df)) (S i))| |done]; [done| | |].
  - destruct Hsc as [Hu _ _ Hro Hop Hv]. split; try done.
    + by apply Hfr.
    + by rewrite (frame_sessions _ _ _ Hfr).
    + by rewrite (frame_sessions _ _ _ Hfr).
    + by rewrite (frame_mutations _ _ _ Hfr).
  - destruct Hsup as [|Hsup]; [by left|right]. by eapply supply_step.
  - intros r t' [[? Hs ? ? ? ?] Hsup']. split; [|by replace (i + length (df :: ds))%nat with (S i + length ds)%nat
      by (cbn; lia)].
    split; try done. eapply seen_inv_ext; [|exact Hs]. intros p. unfold extend_all, extend. cbn.
    destruct (D p); [done|]. unfold file_at. by case_bool_decide.
Qed.

(** ** The whole scan *)
Lemma spec_reconcile_body inp session discovered roots A voom t :
  scanning (Uuid_to_string session) roots (λ _, None) A
    (λ p, is_Some (discovered_at discovered p)) voom t →
  F ∨ supply (si_ids inp) 0 t →
  db_spec b t (reconcile_body inp discovered session)
    (λ _ t', ∀ p, p ∉ voom → active_at (t_files t') p = mirrored roots discovered A p) (λ _, F).
Proof.
  intros Hsc Hsup.
  change (reconcile_body inp discovered session)
    with (db_bind (ingest_loop inp session 0 discovered ReconcileResult_default) (λ result,
          db_bind (sqlite_finish_scan_session (si_finish inp)
                     (λ j, si_ids inp (3 * length discovered + j)) session) (λ finish,
          db_ret (count_finish finish result)))).
  eapply spec_bind; [apply (spec_ingest_loop inp session roots A
    (λ p, is_Some (discovered_at discovered p)) voom discovered (λ _, None) 0)|]; [|done|done|].
  - apply Forall_forall. intros df Hdf. clear Hsc. induction discovered as [|d ds IH].
    { by apply elem_of_nil in Hdf. }
    cbn. case_bool_decide; [by eauto|]. apply elem_of_cons in Hdf as [->|Hdf]; [done|auto].
  - intros result t1 [[Hu Hs Ho Hro Hop Hv] Hsup1]. cbn [Nat.add] in Hsup1.
    eapply spec_bind.
    + eapply spec_weaken; [apply (spec_finish _ F) with (roots := roots)
        (D := extend_all (λ _, None) discovered) (A := A)| |by intros ? [? _]];
        [done|done|done|exact Ho|done| |by intros d t' Hd; exact Hd].
      destruct Hsup1 as [|Hsup1]; [by left|right]. split; [|done]. by apply supply_promote.
    + intros fin t2 (_ & Hview & _ & _). apply spec_ret. intros p Hp. rewrite Hview by (by rewrite Hv).
      unfold mirrored, extend_all. by destruct (discovered_at discovered p).
Qed.

(** Every session that a row names is in the table of sessions. *)
Definition sessions_known (t : FileTables) : Prop :=
  ∀ r x, r ∈ t_files t → files_last_seen_session_id r = Some x → x ∈ sessions_id <$> t_sessions t.

Lemma begin_scanning id j now roots E t :
  unique_rows (t_files t) → sessions_known t → (Uuid_to_string id ∉ sessions_id <$> t_sessions t) →
  roots_to_json roots = Ok j →
  scanning (Uuid_to_string id) roots (λ _, None) (active_at (t_files t)) E
    (session_mutation_paths (Uuid_to_string id) (t_mutations t))
    (put_sessions (cancel_open now (t_sessions t) ++ [new_session id j now]) t).
Proof.
  intros Hu Hk Hid Hj.
  pose proof (find_new_session id j now _ Hid) as Hfind. split; cbn [t_files t_sessions t_mutations put_sessions].
  - done.
  - split; [|done]. intros r Hr Hs. by destruct Hid; eapply Hk.
  - by intros q _ _.
  - unfold roots_of. rewrite Hfind. cbn. by rewrite (roots_from_to roots).
  - eexists. split; [exact Hfind|done].
  - done.
Qed.

Lemma spec_cleanup {A} t (body : Fs A) (cleanup : Fs unit) ok :
  db_spec b t body ok (λ _, F) → (∀ t', db_spec b t' cleanup (λ _ _, True) (λ _, True)) →
  db_spec b t (λ s, match body s with
                    | (Ok v, s') => (Ok v, s')
                    | (Err e, s') => (Err e, (cleanup s').2)
                    end) ok (λ _, F).
Proof.
  intros Hb Hc fs Hfs. specialize (Hb fs Hfs). destruct (body _) as [[v|e] [t' fs']]; [done|].
  destruct Hb as [Hfs' Hb]. specialize (Hc t' fs' Hfs'). destruct (cleanup _) as [? ?]. by split; [apply Hc|].
Qed.

Lemma spec_cancel now session t :
  db_spec b t (sqlite_cancel_scan_session now session)
    (λ _ t', t' = put_sessions
       ((λ r, if has_session_id (Uuid_to_string session) r && is_in_progress r
              then close_session "cancelled" (bind_time now) r else r) <$> t_sessions t) t)
    (λ t', b = true ∧ t' = t).
Proof.
  apply spec_on_conn; [done|].
  apply (spec_bind _ _ _ _ (λ _ t', t' = put_sessions
       ((λ r, if has_session_id (Uuid_to_string session) r && is_in_progress r
              then close_session "cancelled" (bind_time now) r else r) <$> t_sessions t) t)).
  - by apply spec_execute.
  - intros n t' ->. by apply spec_ret.
Qed.

Lemma spec_reconcile inp discovered roots t :
  let s := Uuid_to_string (si_session inp) in
  unique_rows (t_files t) → sessions_known t →
  F ∨ supply (si_ids inp) 0 t ∧ (∃ j, roots_to_json roots = Ok j) ∧
      (s ∉ sessions_id <$> t_sessions t) ∧
      (∀ r, r ∈ t_sessions t → is_in_progress r = true → abandoned (si_begin inp) r) →
  db_spec b t (reconcile_discovered_files inp discovered roots)
    (λ _ t', ∀ p, p ∉ session_mutation_paths s (t_mutations t) →
       active_at (t_files t') p = mirrored roots discovered (active_at (t_files t)) p)
    (λ _, F).
Proof.
  intros s Hu Hk Hpre. unfold reconcile_discovered_files, with_scan_session.
  change (db_spec b t (db_bind (sqlite_begin_scan_session (si_session inp) (si_begin inp) roots)
    (λ session s, match reconcile_body inp discovered session s with
                  | (Ok v, s') => (Ok v, s')
                  | (Err e, s') => (Err e, (sqlite_cancel_scan_session (si_cancel inp) session s').2)
                  end)) (λ _ t', ∀ p, p ∉ session_mutation_paths s (t_mutations t) →
       active_at (t_files t') p = mirrored roots discovered (active_at (t_files t)) p)
    (λ _, F)).
  eapply spec_bind.
  { eapply spec_weaken; [apply spec_begin; tauto|by intros d t' Hd; exact Hd|by intros ? [? _]]. }
  intros ? t1 (-> & Hid & j & Hj & ->). apply spec_cleanup.
  - eapply spec_reconcile_body; [by apply begin_scanning|]. destruct Hpre as [|[Hsup _]]; [by left|right].
    by destruct Hsup.
  - intros t'. eapply spec_weaken; [apply spec_cancel|done|done].
Qed.
End scan.
