(* ===== verification/StoreInvariant.v ===== *)
(** * The invariant of the file tables

    [tables_ok] is kept by every operation of the store, whatever calls of the engine
    fail. Statements that keep a property compose ([keeps]); the beginning of a
    session needs more, because it closes the sessions before it opens its own. *)
From S2P Require Import Prelude Json Media Plan Jobs Engine Events Process Transitions FileTables.
From S2P Require Import ScanSessions RowMappers FileStore TransitionStore ScanSpec IngestFacts.
From S2P Require Import SessionFacts.

(** ** Operations that keep a property *)
Section preserves.
Context {T : Type} `{Chrono} `{UuidText} `{Sqlite} (P : T → Prop).

Definition preserves {A} (x : Sql T A) : Prop := ∀ t, P t → db_spec true t x (λ _, P) P.

Lemma preserves_ret {A} (a : A) : preserves (db_ret a).
Proof. intros t Ht. by apply spec_ret. Qed.

Lemma preserves_err {A} e : preserves (db_err e : Sql T A).
Proof. intros t Ht. by apply spec_lift. Qed.

Lemma preserves_lift {A} (r : result VoomError A) : preserves (db_lift r).
Proof. intros t Ht. apply spec_lift. by destruct r. Qed.

Lemma preserves_bind {A B} (x : Sql T A) (f : A → Sql T B) :
  preserves x → (∀ a, preserves (f a)) → preserves (db_bind x f).
Proof. intros Hx Hf t Ht. eapply spec_bind; [by apply Hx|]. intros a t' Ht'. by apply Hf. Qed.

Lemma preserves_call {A} wrap (run : T → result rusqlite_Error A * T) :
  (∀ t, P t → P (run t).2) → preserves (db_call wrap run).
Proof.
  intros Hrun t Ht. apply spec_call; [|done]. specialize (Hrun t Ht).
  by destruct (run t) as [[] ].
Qed.

Lemma preserves_conn : preserves db_conn.
Proof. by apply preserves_call. Qed.

Lemma preserves_query {A} msg (q : T → result rusqlite_Error A) : preserves (db_query msg q).
Proof. by apply preserves_call. Qed.

Lemma preserves_commit msg : preserves (db_commit msg).
Proof. by apply preserves_call. Qed.

Lemma preserves_execute {A} msg (f : T → A * T) : (∀ t, P t → P (f t).2) → preserves (db_execute msg f).
Proof. intros Hf. apply preserves_call. intros t Ht. specialize (Hf t Ht). by destruct (f t). Qed.

Lemma preserves_transaction {A} msg (body : Sql T A) : preserves body → preserves (db_transaction msg body).
Proof.
  intros Hb t Ht. eapply spec_weaken; [apply (spec_rollback true True t msg body (λ _, P))|done|].
  - done.
  - eapply spec_weaken; [by apply Hb|done|done].
  - intros ? [_ ->]. done.
Qed.

(** A value read from the tables is known in the rest of the operation. *)
Lemma preserves_read {A B} msg (q : T → result rusqlite_Error A) (f : A → Sql T B) (Q : A → T → Prop) :
  (∀ t a, P t → q t = Ok a → Q a t) →
  (∀ a t, P t → Q a t → db_spec true t (f a) (λ _, P) P) →
  preserves (db_bind (db_query msg q) f).
Proof.
  intros Hq Hf t Ht. apply (spec_bind _ _ _ _ (λ a t', t' = t ∧ Q a t)).
  - apply spec_query; [|done]. destruct (q t) eqn:E; [|done]. eauto.
  - intros a ? [-> Hqa]. by apply Hf.
Qed.
End preserves.

Create HintDb store.
#[export] Hint Resolve preserves_ret preserves_err preserves_lift preserves_conn preserves_query preserves_commit : store.

(** Steps through an operation; leaves the statements that change rows. *)
Ltac preserves_steps :=
  repeat first
    [ progress auto with store
    | lazymatch goal with
      | |- preserves _ (db_bind _ _) => apply preserves_bind; [|intros ?]
      | |- preserves _ (db_transaction _ _) => apply preserves_transaction
      end ].

(** ** The invariant *)
Section invariant.
Context `{Chrono} `{UuidText} `{Sqlite} `{Unicode} `{SnapshotJson} `{RootsJson} `{MapsJson}.

(** A file has a printed UUID and a status that can be read, and was seen by sessions
    that exist. *)
Definition row_ok (sessions : list string) (r : FilesRow) : Prop :=
  (∃ u, files_id r = Uuid_to_string u) ∧ is_Some (FileStatus_parse (files_status r)) ∧
  ∀ x, files_last_seen_session_id r = Some x → x ∈ sessions.

Definition session_ok (r : SessionsRow) : Prop :=
  is_Some (ScanSessionStatus_parse (sessions_status r)) ∧
  (∃ roots, roots_from_json (sessions_roots_json r) = Ok roots) ∧
  (∃ t, parse_datetime (sessions_last_heartbeat_at r) = Ok t).

Record tables_ok (t : FileTables) : Prop := {
  ok_unique : unique_rows (t_files t);
  ok_rows : Forall (row_ok (sessions_id <$> t_sessions t)) (t_files t);
  ok_sessions : NoDup (sessions_id <$> t_sessions t);
  ok_session_rows : Forall session_ok (t_sessions t);
  ok_one_open : (length (List.filter is_in_progress (t_sessions t)) ≤ 1)%nat;
  ok_tracks r : r ∈ t_tracks t → tracks_file_id r ∈ files_id <$> t_files t;
  ok_transitions : NoDup (transitions_id <$> t_transitions t);
}.

(** ** Statements on files *)
Lemma ok_update p f t :
  (∀ r, files_id (f r) = files_id r) →
  (∀ r, row_ok (sessions_id <$> t_sessions t) r → row_ok (sessions_id <$> t_sessions t) (f r)) →
  tables_ok t → tables_ok (update_files p f t).2.
Proof.
  intros Hid Hf [Hu Hr Hs Hsr Ho Ht Htr]. unfold update_files, update_rows.
  destruct (files_unique _) eqn:E; [|done]. split; cbn [t_files t_sessions t_tracks t_transitions put_files snd]; try done.
  - by apply files_unique_spec.
  - apply Forall_map. eapply Forall_impl; [exact Hr|]. intros r Hok. cbn. destruct (p r); auto.
  - intros r Hr'. specialize (Ht r Hr'). apply list_elem_of_fmap in Ht as (q & -> & Hq).
    apply list_elem_of_fmap. exists (if p q then f q else q).
    split; [by destruct (p q); rewrite ?Hid|]. by apply (list_elem_of_fmap_2 (λ r, if p r then f r else r)).
Qed.

Lemma ok_insert r t :
  row_ok (sessions_id <$> t_sessions t) r → tables_ok t → tables_ok (insert_file r t).2.
Proof.
  intros Hok [Hu Hr Hs Hsr Ho Ht Htr]. unfold insert_file. destruct (files_unique _) eqn:E; [|done].
  split; cbn [t_files t_sessions t_tracks t_transitions put_files snd]; try done.
  - by apply files_unique_spec.
  - apply Forall_app. split; [done|]. by apply Forall_singleton.
  - intros q Hq. rewrite fmap_app. apply elem_of_app. left. auto.
Qed.

Lemma ok_delete p t : tables_ok t → tables_ok (delete_files p t).2.
Proof.
  intros [Hu Hr Hs Hsr Ho Ht Htr]. unfold delete_files, delete_rows. destruct (existsb _ _); [done|].
  split; cbn [t_files t_sessions t_tracks t_transitions put_files put_children put_tracks snd]; try done.
  - by apply unique_filter.
  - apply Forall_forall. intros r Hin. apply list_elem_of_In, List.filter_In in Hin as [Hin _].
    rewrite Forall_forall in Hr. by apply Hr, list_elem_of_In.
  - intros q Hq. apply list_elem_of_In, List.filter_In in Hq as [Hq Hn].
    apply bool_decide_eq_true in Hn. apply list_elem_of_In, Ht in Hq.
    apply list_elem_of_fmap in Hq as (r & Hid & Hin). apply list_elem_of_fmap. exists r. split; [done|].
    apply list_elem_of_In, List.filter_In. split; [by apply list_elem_of_In|].
    destruct (p r) eqn:Hp; [|done]. exfalso. apply Hn. rewrite Hid. apply list_elem_of_fmap_2.
    apply list_elem_of_In, List.filter_In. split; [by apply list_elem_of_In|done].
Qed.

Lemma ok_transition r t : tables_ok t → tables_ok (insert_transition r t).2.
Proof.
  intros [Hu Hr Hs Hsr Ho Ht Htr]. unfold insert_transition. case_bool_decide as Hin; [done|].
  split; try done. cbn. rewrite fmap_app. apply NoDup_app. split; [done|]. split; [|apply NoDup_singleton].
  intros x Hx ->%list_elem_of_singleton. done.
Qed.

Lemma ok_filter_transitions (p : TransitionsRow → bool) t :
  tables_ok t → tables_ok (put_transitions (List.filter p (t_transitions t)) t).
Proof.
  intros [Hu Hr Hs Hsr Ho Ht Htr]. split; try done. cbn. eapply sublist_NoDup; [exact Htr|].
  generalize (t_transitions t). clear. intros rows. induction rows as [|r rows IH]; [done|]. cbn.
  destruct (p r); cbn; [by apply sublist_skip | by apply sublist_cons].
Qed.

Lemma ok_insert_track r t : tables_ok t → tables_ok (insert_track r t).2.
Proof.
  intros [Hu Hr Hs Hsr Ho Ht Htr]. unfold insert_track. destruct (_ || _) eqn:E; [done|].
  split; try done. cbn. intros q [Hq| ->%list_elem_of_singleton]%elem_of_app; [auto|].
  apply orb_false_iff in E as [_ E]. apply negb_false_iff, existsb_exists in E as (f & Hf & Hid).
  apply bool_decide_eq_true in Hid. rewrite <-Hid. apply list_elem_of_fmap_2. by apply list_elem_of_In.
Qed.

Lemma ok_filter_tracks (p : TracksRow → bool) t :
  tables_ok t → tables_ok (put_tracks (List.filter p (t_tracks t)) t).
Proof.
  intros [Hu Hr Hs Hsr Ho Ht Htr]. split; try done. cbn. intros q Hq. apply Ht.
  apply list_elem_of_In, List.filter_In in Hq as [Hq _]. by apply list_elem_of_In.
Qed.

Lemma ok_bad_files rows t : tables_ok t → tables_ok (put_bad_files rows t).
Proof. intros [? ? ? ? ? ? ?]. by split. Qed.

Lemma ok_mutations rows t : tables_ok t → tables_ok (put_mutations rows t).
Proof. intros [? ? ? ? ? ? ?]. by split. Qed.

(** ** Statements on sessions *)
Lemma ok_update_sessions (p : SessionsRow → bool) f t :
  (∀ r, sessions_id (f r) = sessions_id r) →
  (∀ r, is_in_progress (f r) = true → is_in_progress r = true) →
  (∀ r, session_ok r → session_ok (f r)) →
  tables_ok t → tables_ok (update_sessions p f t).2.
Proof.
  intros Hid Hopen Hok [Hu Hr Hs Hsr Ho Ht Htr]. unfold update_sessions, update_rows. cbn [snd].
  change (map ?g ?l) with (g <$> l). set (g := λ r, if p r then f r else r).
  assert (sessions_id <$> (g <$> t_sessions t) = sessions_id <$> t_sessions t) as Heq.
  { rewrite <-list_fmap_compose. apply list_fmap_ext. intros i r _. cbn. unfold g. by destruct (p r). }
  split; cbn [t_files t_sessions t_tracks t_transitions put_sessions]; try done; rewrite ?Heq; try done.
  - apply Forall_map. eapply Forall_impl; [exact Hsr|]. intros r Hr'. unfold g. destruct (p r); auto.
  - etrans; [|exact Ho]. generalize (t_sessions t). clear -Hopen. intros rows.
    induction rows as [|r rows IH]; [done|]. cbn. unfold g at 1. destruct (p r); [|destruct (is_in_progress r); cbn; lia].
    destruct (is_in_progress (f r)) eqn:E; [rewrite (Hopen _ E)|destruct (is_in_progress r)]; cbn; lia.
Qed.

(** ** Operations that leave the sessions alone

    [M] are mutations on record, which no operation takes back. *)
Definition mutation_key (m : MutationsRow) : string * string :=
  (mutations_session_id m, mutations_path m).

Definition recorded (M : list (string * string)) (t : FileTables) : Prop :=
  ∀ x, x ∈ M → x ∈ mutation_key <$> t_mutations t.

Definition store_ok (M : list (string * string)) (t : FileTables) : Prop :=
  tables_ok t ∧ recorded M t.

Context (M : list (string * string)).

(** [ok_with ss]: the invariant holds and the sessions [ss] exist. *)
Definition ok_with (ss : list string) (t : FileTables) : Prop :=
  store_ok M t ∧ ∀ x, x ∈ ss → x ∈ sessions_id <$> t_sessions t.

(** What a statement leaves alone. *)
Definition same_sessions (t t' : FileTables) : Prop :=
  t_sessions t' = t_sessions t ∧ t_mutations t' = t_mutations t.

Lemma ok_with_step ss t t' : same_sessions t t' → tables_ok t' → ok_with ss t → ok_with ss t'.
Proof.
  intros [Hs Hm] Ht [[_ Hr] Hss]. split; [split; [done|]|].
  - intros x. rewrite Hm. apply Hr.
  - by rewrite Hs.
Qed.

(** A change of a row that keeps its identifier, a readable status and known
    sessions. *)
Definition row_change (ss : list string) (f : FilesRow → FilesRow) : Prop :=
  ∀ r, files_id (f r) = files_id r ∧
    (files_status (f r) = files_status r ∨ is_Some (FileStatus_parse (files_status (f r)))) ∧
    (files_last_seen_session_id (f r) = files_last_seen_session_id r ∨
     ∃ x, files_last_seen_session_id (f r) = Some x ∧ x ∈ ss).

Lemma row_change_ok ss f S r :
  row_change ss f → (∀ x, x ∈ ss → x ∈ S) → row_ok S r → row_ok S (f r).
Proof.
  intros Hf HS (Hid & Hst & Hl). destruct (Hf r) as (Hi & Hs & Hx). split; [by rewrite Hi|]. split.
  - destruct Hs as [->|]; done.
  - destruct Hx as [->|(y & -> & Hy)]; [done|]. intros x [= <-]. auto.
Qed.

Lemma preserves_update ss msg p f : row_change ss f → preserves (ok_with ss) (fs_exec msg (update_files p f)).
Proof.
  intros Hf. apply preserves_bind; [|intros ?; apply preserves_ret]. apply preserves_call. intros t Hok.
  apply (ok_with_step _ t); [|apply ok_update|done].
  - unfold update_files, update_rows. by destruct (files_unique _).
  - intros r. apply Hf.
  - intros r. destruct Hok as [_ Hs]. by eapply row_change_ok.
  - apply Hok.
Qed.

Lemma preserves_fs_run {A} ss msg (f : FileTables → result rusqlite_Error A * FileTables) :
  (∀ t, tables_ok t → tables_ok (f t).2) → (∀ t, same_sessions t (f t).2) →
  preserves (ok_with ss) (fs_run msg f).
Proof.
  intros Hf Hs. apply preserves_call. intros t Hok. apply (ok_with_step _ t); [done| |done]. apply Hf, Hok.
Qed.

Lemma preserves_fs_execute {A} ss msg (f : FileTables → A * FileTables) :
  (∀ t, tables_ok t → tables_ok (f t).2) → (∀ t, same_sessions t (f t).2) →
  preserves (ok_with ss) (db_execute msg f).
Proof.
  intros Hf Hs. apply preserves_execute. intros t Hok. apply (ok_with_step _ t); [done| |done]. apply Hf, Hok.
Qed.

Lemma preserves_transition ss tr now : preserves (ok_with ss) (insert_transition_in_tx tr now).
Proof.
  apply preserves_fs_run; [intros; by apply ok_transition|]. intros t. unfold insert_transition.
  by case_bool_decide.
Qed.

Lemma preserves_delete_transitions ss msg ids :
  preserves (ok_with ss) (db_execute msg (delete_transitions ids)).
Proof. apply preserves_fs_execute; [|done]. intros t. apply ok_filter_transitions. Qed.

Lemma preserves_delete_files ss msg p : preserves (ok_with ss) (fs_run msg (delete_files p)).
Proof.
  apply preserves_fs_run; [intros; by apply ok_delete|]. intros t. unfold delete_files, delete_rows.
  by destruct (existsb _ _).
Qed.

Lemma preserves_exec_delete ss msg p : preserves (ok_with ss) (fs_exec msg (delete_files p)).
Proof. apply preserves_bind; [apply preserves_delete_files|]. intros ?. apply preserves_ret. Qed.

Lemma preserves_insert_active ss id ctx msg :
  ctx_session_str ctx ∈ ss → preserves (ok_with ss) (insert_active_file_in_tx id ctx msg).
Proof.
  intros Hss. apply preserves_call. intros t [[Ht Hr] Hs]. apply (ok_with_step _ t); [| |done].
  - unfold insert_file. by destruct (files_unique _).
  - apply ok_insert; [|done]. split; [by eexists|]. split; [by eexists|]. intros x [= <-]. auto.
Qed.
#[local] Hint Resolve preserves_transition preserves_delete_transitions preserves_delete_files preserves_exec_delete
  preserves_insert_active : store.

Lemma row_change_seen ss size hash s now g :
  s ∈ ss → (∀ r, files_id (g r) = files_id r) →
  row_change ss (λ r, set_seen size hash s now (g r)).
Proof. intros Hs Hg r. cbn. split; [apply Hg|]. split; [right; by eexists|]. right. eauto. Qed.

Lemma preserves_ingest_move_or_new inp ctx :
  preserves (ok_with [ctx_session_str ctx]) (ingest_move_or_new inp ctx).
Proof.
  assert (ctx_session_str ctx ∈ [ctx_session_str ctx]) as Hs by apply list_elem_of_here.
  unfold ingest_move_or_new, find_move_candidate_in_tx. preserves_steps.
  destruct a as [[missing_id prior]|]; unfold ingest_moved_in_tx, ingest_new_in_tx; preserves_steps.
  apply preserves_update. by apply row_change_seen.
Qed.

Lemma preserves_ingest_existing inp ctx r :
  preserves (ok_with [ctx_session_str ctx]) (ingest_existing inp ctx r).
Proof.
  assert (ctx_session_str ctx ∈ [ctx_session_str ctx]) as Hs by apply list_elem_of_here.
  unfold ingest_existing. case_bool_decide; preserves_steps.
  - unfold prior_session_needs_recovery_in_tx. destruct (files_last_seen_session_id r); preserves_steps.
  - destruct a.
    + unfold recover_stub_in_tx. preserves_steps; [|apply preserves_ingest_move_or_new].
      apply preserves_update. intros q. cbn. auto.
    + destruct (hash_matches _ _).
      * unfold ingest_unchanged_in_tx. preserves_steps.
        -- apply preserves_update. by apply (row_change_seen _ _ _ _ _ (λ r, r)).
        -- case_bool_decide; preserves_steps. apply preserves_update. intros q. cbn. auto.
      * unfold ingest_externally_changed_in_tx. preserves_steps. apply preserves_update. intros q. cbn.
        split; [done|]. split; [right; by eexists|]. by left.
Qed.

(** A transaction that first finds its session. *)
Lemma preserves_from_session {A} msg (body : Fs A) :
  (∀ t, store_ok M t → db_spec true t body (λ _, store_ok M) (λ _, True)) →
  preserves (store_ok M) (db_transaction msg body).
Proof.
  intros Hb t Ht. eapply spec_weaken; [apply (spec_rollback true True t msg body (λ _, store_ok M))|done|].
  - done.
  - by apply Hb.
  - intros ? [_ ->]. done.
Qed.

Lemma with_session {A} s t (x : Fs A) :
  preserves (ok_with [s]) x → store_ok M t → (s ∈ sessions_id <$> t_sessions t) →
  db_spec true t x (λ _, store_ok M) (λ _, True).
Proof.
  intros Hx Ht Hs. eapply spec_weaken; [apply Hx|by intros ? ? [? _]|done].
  split; [done|]. by intros y ->%list_elem_of_singleton.
Qed.

Lemma find_session_in s rows row :
  List.find (has_session_id s) rows = Some row → s ∈ sessions_id <$> rows.
Proof.
  intros Hf. apply List.find_some in Hf as [Hin Hid]. apply bool_decide_eq_true in Hid. rewrite <-Hid.
  apply list_elem_of_fmap_2. by apply list_elem_of_In.
Qed.

Lemma preserves_ingest inp session df :
  preserves (store_ok M) (sqlite_ingest_discovered_file inp session df).
Proof.
  apply preserves_bind; [apply preserves_conn|intros _]. apply preserves_from_session. intros t Ht.
  apply (bind_validate true True); [done| |by left].
  intros (row & Hrow & _). apply (with_session (Uuid_to_string session)); [|done|by eapply find_session_in].
  unfold lookup_existing_file_in_tx. preserves_steps. destruct a.
  - apply (preserves_ingest_existing inp (ingest_ctx inp session df)).
  - apply (preserves_ingest_move_or_new inp (ingest_ctx inp session df)).
Qed.

(** ** The end of a session *)
Lemma preserves_promote_loop s started now now_dt ids cs :
  ∀ i, preserves (ok_with [s]) (promote_loop s started now now_dt ids i cs).
Proof.
  induction cs as [|c cs IH]; intros i; cbn; preserves_steps. unfold try_promote_one_move_in_tx. preserves_steps.
  destruct a as [q|]; preserves_steps. apply preserves_update. apply row_change_seen; [apply list_elem_of_here|done].
Qed.

Lemma preserves_mark_loop ss roots voom now cs :
  preserves (ok_with ss) (mark_missing_loop roots voom now cs).
Proof.
  induction cs as [|[id path] cs IH]; cbn; preserves_steps. destruct (_ || _); preserves_steps.
  apply preserves_update. intros r. cbn. split; [done|]. split; [right; by eexists|by left].
Qed.
#[local] Hint Resolve preserves_promote_loop preserves_mark_loop : store.

(** Closing a session. *)
Lemma session_ok_close st now r :
  is_Some (ScanSessionStatus_parse st) → session_ok r → session_ok (close_session st (bind_time now) r).
Proof.
  intros Hst (_ & Hroots & _). split; [done|]. split; [done|]. exists now. unfold parse_datetime, bind_time, format_iso.
  cbn. by rewrite parse_to_rfc3339.
Qed.

Lemma preserves_close ss msg p st now :
  is_Some (ScanSessionStatus_parse st) → st ≠ "in_progress" →
  preserves (ok_with ss) (db_execute msg (update_sessions p (close_session st (bind_time now)))).
Proof.
  intros Hst Hne. apply preserves_execute. intros t [[Ht Hrec] Hs]. split; [split; [|done]|].
  - apply ok_update_sessions; [done| |intros; by apply session_ok_close|done].
    intros r Hr. by apply bool_decide_eq_true in Hr.
  - intros x Hx. specialize (Hs x Hx). unfold update_sessions, update_rows. cbn.
    change (map ?g ?l) with (g <$> l). rewrite <-list_fmap_compose.
    erewrite list_fmap_ext; [exact Hs|]. intros i r _. cbn. by destruct (p r).
Qed.

Lemma preserves_finish now ids session : preserves (store_ok M) (sqlite_finish_scan_session now ids session).
Proof.
  apply preserves_bind; [apply preserves_conn|intros _]. apply preserves_from_session. intros t Ht.
  apply bind_query; [done|]. unfold query_row.
  destruct (List.find _ _) as [row|] eqn:Hrow; cbn; [|by apply spec_lift].
  destruct (negb _); [by apply spec_lift|].
  apply (with_session (Uuid_to_string session)); [|done|by eapply find_session_in].
  unfold promote_moves_in_tx, mark_missing_in_finish_tx. preserves_steps.
  apply preserves_close; [by eexists|done].
Qed.

(** ** The beginning of a session *)
Lemma cancel_open_closed now sessions :
  List.filter is_in_progress (cancel_open now sessions) = [].
Proof.
  induction sessions as [|r l IH]; [done|]. cbn. destruct (is_in_progress r) eqn:E; cbn; [done|].
  by rewrite E.
Qed.

Lemma ok_begin id j now roots t :
  tables_ok t → roots_to_json roots = Ok j → (Uuid_to_string id ∉ sessions_id <$> t_sessions t) →
  tables_ok (put_sessions (cancel_open now (t_sessions t) ++ [new_session id j now]) t).
Proof.
  intros [Hu Hr Hs Hsr Ho Ht Htr] Hj Hid.
  split; cbn [t_files t_sessions t_tracks t_transitions put_sessions]; try done.
  - eapply Forall_impl; [exact Hr|]. intros r (Hi & Hst & Hl). split; [done|]. split; [done|]. intros x Hx.
    rewrite fmap_app, cancel_open_ids, elem_of_app. left. auto.
  - rewrite fmap_app, cancel_open_ids. apply NoDup_app. split; [done|]. split; [|apply NoDup_singleton].
    intros x Hx ->%list_elem_of_singleton. done.
  - apply Forall_app. split.
    + apply Forall_map. eapply Forall_impl; [exact Hsr|]. intros r Hok. cbn.
      destruct (is_in_progress r); [by apply session_ok_close; [eexists|]|done].
    + apply Forall_singleton. split; [by eexists|]. split.
      * exists roots. by apply roots_from_to.
      * exists now. unfold parse_datetime, bind_time, format_iso. cbn. by rewrite parse_to_rfc3339.
  - rewrite List.filter_app, cancel_open_closed. done.
Qed.

Lemma preserves_begin id now roots : preserves (store_ok M) (sqlite_begin_scan_session id now roots).
Proof.
  intros t Ht. eapply spec_weaken; [apply (spec_begin true True)| |]; [done|by left| |].
  - intros u t' (_ & Hid & j & Hj & ->). destruct Ht as [Ht Hr]. split; [by eapply ok_begin|done].
  - intros ? [_ ->]. done.
Qed.

(** ** The other operations *)
Lemma preserves_nil {A} (x : Fs A) : preserves (ok_with []) x → preserves (store_ok M) x.
Proof.
  intros Hx t Ht. eapply spec_weaken; [apply Hx|by intros ? ? [? _]|by intros ? [? _]].
  split; [done|]. by intros y Hy%elem_of_nil.
Qed.

Lemma row_change_const ss f :
  (∀ r, files_id (f r) = files_id r ∧
        (files_status (f r) = files_status r ∨ is_Some (FileStatus_parse (files_status (f r)))) ∧
        files_last_seen_session_id (f r) = files_last_seen_session_id r) → row_change ss f.
Proof. intros Hf r. destruct (Hf r) as (? & ? & ?). auto. Qed.

Lemma FileStatus_as_str_ok s : is_Some (FileStatus_parse (FileStatus_as_str s)).
Proof. destruct s; by eexists. Qed.

(** Updates of one file that write a readable status, or none. *)
Ltac preserves_file :=
  apply preserves_nil; apply preserves_bind; [apply preserves_conn|intros _];
  apply preserves_update, row_change_const; intros r; cbn;
  split_and!; auto using FileStatus_as_str_ok; by right; eexists.

Lemma preserves_cancel now session : preserves (store_ok M) (sqlite_cancel_scan_session now session).
Proof. apply preserves_nil. unfold sqlite_cancel_scan_session. preserves_steps. apply preserves_close; [by eexists|done]. Qed.

Lemma preserves_heartbeat now session : preserves (store_ok M) (sqlite_heartbeat_scan_session now session).
Proof.
  apply preserves_bind; [apply preserves_conn|intros _]. apply preserves_bind; [|intros ?; apply preserves_ret].
  apply preserves_execute. intros t [Ht Hrec]. split; [|done]. apply ok_update_sessions; [done|done| |done].
  intros r (Hst & Hro & _). split; [done|]. split; [done|]. exists now.
  unfold parse_datetime, bind_time, format_iso. cbn. by rewrite parse_to_rfc3339.
Qed.

Lemma ok_put_mutation m t : store_ok M t → store_ok M (put_mutation m t).
Proof.
  intros [Ht Hr]. split; [by apply ok_mutations|]. intros x Hx. specialize (Hr x Hx).
  cbn. rewrite fmap_app, elem_of_app. apply list_elem_of_fmap in Hr as (r & -> & Hr).
  destruct (decide (mutation_key r = mutation_key m)) as [->|Hne]; [right; apply list_elem_of_here|left].
  apply list_elem_of_fmap_2. apply list_elem_of_In, List.filter_In. split; [by apply list_elem_of_In|].
  rewrite bool_decide_false; [done|]. intros [Hs Hp]. apply Hne. unfold mutation_key. congruence.
Qed.

Lemma preserves_record_mutation m : preserves (store_ok M) (sqlite_record_voom_mutation m).
Proof.
  unfold sqlite_record_voom_mutation. preserves_steps.
  - apply preserves_execute. intros t Ht. by apply ok_put_mutation.
  - destruct (Mutation_original m); preserves_steps. apply preserves_execute. intros t Ht. by apply ok_put_mutation.
Qed.

Lemma preserves_mark_missing now id : preserves (store_ok M) (sqlite_mark_missing now id).
Proof. preserves_file. Qed.

Lemma preserves_reactivate now id path : preserves (store_ok M) (sqlite_reactivate_file now id path).
Proof. preserves_file. Qed.

Lemma preserves_rename now id path : preserves (store_ok M) (sqlite_rename_file_path now id path).
Proof. preserves_file. Qed.

Lemma preserves_expected_hash id hash : preserves (store_ok M) (sqlite_update_expected_hash id hash).
Proof. preserves_file. Qed.

Lemma preserves_status now id st : preserves (store_ok M) (sqlite_set_file_status now id st).
Proof. preserves_file. Qed.

Lemma preserves_purge older_than : preserves (store_ok M) (sqlite_purge_missing older_than).
Proof.
  apply preserves_nil. unfold sqlite_purge_missing. preserves_steps. apply preserves_fs_execute; [|done].
  intros t. apply ok_filter_transitions.
Qed.

Lemma preserves_mark_paths now discovered dirs :
  preserves (store_ok M) (sqlite_mark_missing_paths now discovered dirs).
Proof.
  apply preserves_nil. unfold sqlite_mark_missing_paths. preserves_steps. generalize (to_string_lossy <$> discovered).
  intros l. match goal with |- preserves _ (mark_paths_loop _ _ _ ?cs) => induction cs as [|[id path] cs IH] end;
    cbn; preserves_steps. destruct (_ && _); preserves_steps.
  apply preserves_update, row_change_const. intros r. cbn. split_and!; auto; by right; eexists.
Qed.

Lemma preserves_insert_tracks ss file_id ids tracks :
  ∀ i, preserves (ok_with ss) (insert_tracks file_id ids i tracks).
Proof.
  induction tracks as [|tr tracks IH]; intros i; cbn; preserves_steps. apply preserves_fs_run.
  - intros t. apply ok_insert_track.
  - intros t. unfold insert_track. by destruct (_ || _).
Qed.

Lemma ok_upsert_row path_str row t :
  (∃ u, files_id row = Uuid_to_string u) → is_Some (FileStatus_parse (files_status row)) →
  files_last_seen_session_id row = None → tables_ok t → tables_ok (upsert_files_row path_str row t).2.
Proof.
  intros Hid Hst Hl Ht. unfold upsert_files_row. destruct (existsb _ _).
  - apply ok_update; [done| |done]. intros r (? & _ & Hk). by split.
  - assert (tables_ok (insert_file row t).2) as Hok.
    { apply ok_insert; [|done]. split; [done|]. split; [done|]. by rewrite Hl. }
    by destruct (insert_file row t) as [[] ].
Qed.

Lemma upsert_row_sessions path_str row t :
  same_sessions t (upsert_files_row path_str row t).2.
Proof.
  unfold upsert_files_row, update_files, update_rows, insert_file.
  destruct (existsb _ _); by destruct (files_unique _).
Qed.

Lemma printed_id t r :
  tables_ok t → r ∈ t_files t → ∃ u, files_id r = Uuid_to_string u.
Proof. intros Ht Hr. pose proof (ok_rows _ Ht) as Hok. rewrite Forall_forall in Hok. by apply Hok. Qed.

Lemma preserves_upsert_tx msg path_str row ids tracks :
  (∃ u, files_id row = Uuid_to_string u) → is_Some (FileStatus_parse (files_status row)) →
  files_last_seen_session_id row = None →
  preserves (store_ok M) (db_transaction msg (
    db_bind (db_execute "failed to delete old tracks" (delete_tracks_at path_str)) (λ _,
    db_bind (fs_exec "failed to upsert file" (upsert_files_row path_str row)) (λ _,
    db_bind (upsert_tracks_in_tx (files_id row) ids tracks) (λ _,
    db_commit "failed to commit"))))).
Proof.
  intros Hid Hst Hl. apply preserves_nil. unfold upsert_tracks_in_tx. preserves_steps.
  - apply preserves_fs_execute; [|done]. intros t. apply ok_filter_tracks.
  - apply preserves_bind; [|intros ?; apply preserves_ret]. apply preserves_fs_run; [|apply upsert_row_sessions].
    intros t. by apply ok_upsert_row.
  - apply preserves_insert_tracks.
Qed.

Lemma preserves_upsert now ids file : preserves (store_ok M) (sqlite_upsert_file now ids file).
Proof.
  unfold sqlite_upsert_file. do 3 (apply preserves_bind; [auto with store|intros ?]).
  apply (preserves_read _ _ _ _ (λ existing _, ∀ x, existing = Some x → ∃ u, x = Uuid_to_string u)).
  - unfold query_row. intros t existing [Ht _]. destruct (List.find _ _) as [r|] eqn:Hf; cbn; [|by intros [= <-]].
    intros [= <-] x [= <-]. apply List.find_some in Hf as [Hin _]. eapply printed_id; [done|by apply list_elem_of_In].
  - intros existing t Ht Hex.
    apply (preserves_upsert_tx _ _ (file_row (default (Uuid_to_string (MediaFile_id file)) existing)
      (to_string_lossy (MediaFile_path file)) (filename_string (MediaFile_path file)) a0 a1 (bind_time now) file));
      [|apply FileStatus_as_str_ok|done|done]. destruct existing as [x|]; cbn; eauto.
Qed.

Lemma preserves_full_transition ss tr : preserves (ok_with ss) (insert_full_transition_in_tx tr).
Proof.
  apply preserves_fs_run; [intros; by apply ok_transition|]. intros t. unfold insert_transition.
  by case_bool_decide.
Qed.

Lemma preserves_delete_bad ss msg p : preserves (ok_with ss) (db_execute msg (delete_bad_files p)).
Proof. apply preserves_fs_execute; [|done]. intros t. apply ok_bad_files. Qed.
#[local] Hint Resolve preserves_full_transition preserves_delete_bad : store.

Lemma preserves_chunked_delete ids : preserves (ok_with []) (chunked_delete ids).
Proof.
  unfold chunked_delete. destruct ids as [|id ids]; preserves_steps. generalize (chunks 500 (id :: ids)).
  intros cs. induction cs as [|c cs IH]; cbn; preserves_steps.
Qed.

Lemma preserves_prune_missing now bad_there file_there root :
  preserves (store_ok M) (sqlite_prune_missing_files_under now bad_there file_there root).
Proof.
  apply preserves_nil. unfold sqlite_prune_missing_files_under. preserves_steps.
  { apply preserves_chunked_delete. }
  destruct (omap _ _) as [|id ids]; preserves_steps. generalize (id :: ids). intros l.
  induction l as [|i l IH]; cbn; preserves_steps.
  apply preserves_update, row_change_const. intros r. cbn. split_and!; auto; by right; eexists.
Qed.

Lemma preserves_post_execution now path hash tr :
  preserves (store_ok M) (sqlite_record_post_execution now path hash tr).
Proof.
  apply preserves_nil. unfold sqlite_record_post_execution, delete_bad_file_by_path_in_tx. preserves_steps.
  - destruct path; preserves_steps. apply preserves_update, row_change_const. intros r. cbn. auto.
  - destruct hash; preserves_steps. apply preserves_update, row_change_const. intros r. cbn. auto.
Qed.

Lemma preserves_upsert_bad bad : preserves (store_ok M) (sqlite_upsert_bad_file bad).
Proof.
  apply preserves_nil. unfold sqlite_upsert_bad_file. preserves_steps. apply preserves_fs_run; intros t; unfold upsert_bad_row.
  - intros Ht. destruct (existsb _ _); [by apply ok_bad_files|].
    case_bool_decide; [done|by apply ok_bad_files].
  - destruct (existsb _ _); [done|]. by case_bool_decide.
Qed.

Lemma preserves_prune now policy : preserves (store_ok M) (sqlite_prune_old_file_transitions now policy).
Proof.
  apply preserves_nil. unfold sqlite_prune_old_file_transitions. destruct (RetentionPolicy_is_disabled policy); preserves_steps.
  apply preserves_fs_execute; [|done]. intros t. apply ok_filter_transitions.
Qed.
End invariant.

(** ** Any sequence of calls *)
Inductive StoreOp : Type :=
| Op_begin (id : Uuid) (now : DateTime) (roots : list PathBuf)
| Op_ingest (inp : IngestInput) (session : ScanSessionId) (df : DiscoveredFile)
| Op_finish (now : DateTime) (ids : nat → Uuid) (session : ScanSessionId)
| Op_cancel (now : DateTime) (session : ScanSessionId)
| Op_heartbeat (now : DateTime) (session : ScanSessionId)
| Op_record_mutation (m : VoomOriginatedMutation)
| Op_upsert (now : DateTime) (ids : nat → Uuid) (file : MediaFile)
| Op_mark_missing (now : DateTime) (id : Uuid)
| Op_reactivate (now : DateTime) (id : Uuid) (path : PathBuf)
| Op_rename (now : DateTime) (id : Uuid) (path : PathBuf)
| Op_expected_hash (id : Uuid) (hash : string)
| Op_status (now : DateTime) (id : Uuid) (status : FileStatus)
| Op_purge (older_than : DateTime)
| Op_mark_paths (now : DateTime) (discovered dirs : list PathBuf)
| Op_post_execution (now : DateTime) (path : option PathBuf) (hash : option string)
    (tr : FileTransition)
| Op_transition (tr : FileTransition)
| Op_prune (now : DateTime) (policy : RetentionPolicy)
| Op_upsert_bad (bad : BadFile)
| Op_delete_bad (id : Uuid)
| Op_delete_bad_path (path : PathBuf)
| Op_prune_missing (now : DateTime) (bad_there file_there : PathBuf → bool) (root : PathBuf).

Section run.
Context `{Chrono} `{UuidText} `{Sqlite} `{Unicode} `{SnapshotJson} `{RootsJson} `{MapsJson}.

(** A call, of which only success or the error is kept. *)
Definition call {A} (x : Fs A) : Fs unit := db_bind x (λ _, db_ret tt).

Definition op_call (op : StoreOp) : Fs unit :=
  match op with
  | Op_begin id now roots => call (sqlite_begin_scan_session id now roots)
  | Op_ingest inp session df => call (sqlite_ingest_discovered_file inp session df)
  | Op_finish now ids session => call (sqlite_finish_scan_session now ids session)
  | Op_cancel now session => call (sqlite_cancel_scan_session now session)
  | Op_heartbeat now session => call (sqlite_heartbeat_scan_session now session)
  | Op_record_mutation m => call (sqlite_record_voom_mutation m)
  | Op_upsert now ids file => call (sqlite_upsert_file now ids file)
  | Op_mark_missing now id => call (sqlite_mark_missing now id)
  | Op_reactivate now id path => call (sqlite_reactivate_file now id path)
  | Op_rename now id path => call (sqlite_rename_file_path now id path)
  | Op_expected_hash id hash => call (sqlite_update_expected_hash id hash)
  | Op_status now id status => call (sqlite_set_file_status now id status)
  | Op_purge older_than => call (sqlite_purge_missing older_than)
  | Op_mark_paths now discovered dirs => call (sqlite_mark_missing_paths now discovered dirs)
  | Op_post_execution now path hash tr => call (sqlite_record_post_execution now path hash tr)
  | Op_transition tr => call (sqlite_record_transition tr)
  | Op_prune now policy => call (sqlite_prune_old_file_transitions now policy)
  | Op_upsert_bad bad => call (sqlite_upsert_bad_file bad)
  | Op_delete_bad id => call (sqlite_delete_bad_file id)
  | Op_delete_bad_path path => call (sqlite_delete_bad_file_by_path path)
  | Op_prune_missing now bad_there file_there root =>
      call (sqlite_prune_missing_files_under now bad_there file_there root)
  end.

(** The store after a call, whatever it answers. *)
Definition run_op (op : StoreOp) (s : SqlDb FileTables) : SqlDb FileTables := (op_call op s).2.

Definition run_ops (ops : list StoreOp) (s : SqlDb FileTables) : SqlDb FileTables :=
  foldl (λ s op, run_op op s) s ops.

Lemma preserves_run {A} (P : FileTables → Prop) (x : Fs A) s :
  preserves P x → P (db_rows s) → P (db_rows (x s).2).
Proof.
  intros Hx Hs. destruct (db_spec_run true s x _ _ (or_introl eq_refl) (Hx _ Hs)) as [_ Hr].
  by destruct (x s) as [[] ].
Qed.

Lemma preserves_delete_bad_op M (x : Fs unit) msg p :
  x = db_bind db_conn (λ _, db_bind (db_execute msg (delete_bad_files p)) (λ _, db_ret tt)) →
  preserves (store_ok M) x.
Proof.
  intros ->. apply preserves_nil. preserves_steps. apply preserves_delete_bad.
Qed.

Lemma run_op_ok M op s : store_ok M (db_rows s) → store_ok M (db_rows (run_op op s)).
Proof.
  unfold run_op. destruct op; cbn [op_call]; apply preserves_run; (apply preserves_bind; [|intros ?; apply preserves_ret]);
    auto using preserves_begin, preserves_ingest, preserves_finish, preserves_cancel, preserves_heartbeat,
      preserves_record_mutation, preserves_upsert, preserves_mark_missing, preserves_reactivate, preserves_rename,
      preserves_expected_hash, preserves_status, preserves_purge, preserves_mark_paths, preserves_post_execution,
      preserves_prune, preserves_upsert_bad, preserves_prune_missing.
  - apply preserves_nil. unfold sqlite_record_transition. preserves_steps. apply preserves_full_transition.
  - by eapply preserves_delete_bad_op.
  - by eapply preserves_delete_bad_op.
Qed.

Lemma run_ops_ok M ops s : store_ok M (db_rows s) → store_ok M (db_rows (run_ops ops s)).
Proof.
  revert s. induction ops as [|op ops IH]; intros s Hs; [done|]. cbn. by apply IH, run_op_ok.
Qed.

Lemma store_ok_nil t : store_ok [] t ↔ tables_ok t.
Proof.
  split; [by intros [? _]|]. intros Ht. split; [done|]. by intros x Hx%elem_of_nil.
Qed.

(** The empty tables. *)
Definition empty_tables : FileTables := Build_FileTables [] [] [] [] [] [] [] [].

Lemma empty_tables_ok : tables_ok empty_tables.
Proof.
  split; cbn; try apply NoDup_nil_2; try apply Forall_nil_2; auto.
  - split_and!; apply NoDup_nil_2.
  - by intros r Hr%elem_of_nil.
Qed.
End run.
