(* ===== verification/FileFacts.v ===== *)
(** * A stored file reads back

    [upsert_file] followed by [file_by_path] gives the file, if its numbers fit the
    types they are read with. *)
From S2P Require Import Prelude Json Media Plan Jobs Engine Events Process Transitions FileTables.
From S2P Require Import ScanSessions RowMappers FileStore TransitionStore ScanSpec IngestFacts.
From S2P Require Import SessionFacts StoreInvariant.

(** ** Values that fit *)
Definition fits_i32 (n : N) : Prop := (Z.of_N n ≤ i32_MAX)%Z.

Definition opt_all {A} (P : A → Prop) (o : option A) : Prop := ∀ x, o = Some x → P x.

Definition number (x : f64) : Prop := f64_is_nan x = false.

Record storable_track (t : Track) : Prop := {
  st_index : fits_i32 (Track_index t);
  st_channels : opt_all fits_i32 (Track_channels t);
  st_sample_rate : opt_all fits_i32 (Track_sample_rate t);
  st_bit_depth : opt_all fits_i32 (Track_bit_depth t);
  st_width : opt_all fits_i32 (Track_width t);
  st_height : opt_all fits_i32 (Track_height t);
  st_max_cll : opt_all fits_i32 (Track_max_cll t);
  st_max_fall : opt_all fits_i32 (Track_max_fall t);
  st_profile : opt_all (λ n, (n ≤ 255)%N) (Track_dolby_vision_profile t);
  st_lufs : opt_all number (Track_loudness_integrated_lufs t);
  st_peak : opt_all number (Track_loudness_true_peak_db t);
  st_range : opt_all number (Track_loudness_range_lu t);
  st_frame_rate : opt_all number (Track_frame_rate t);
}.

Section roundtrip.
Context `{Chrono} `{UuidText} `{Sqlite} `{Unicode} `{SnapshotJson} `{RootsJson} `{MapsJson}.

Lemma get_i32_fits n : fits_i32 n → get_i32 (Z.of_N n) = Ok (Z.of_N n).
Proof.
  unfold fits_i32, get_i32, i32_MIN, i32_MAX. intros Hn.
  rewrite (proj2 (Z.leb_le _ _)), (proj2 (Z.leb_le _ _)) by lia. done.
Qed.

Lemma checked_i32_fits n field : fits_i32 n → checked_i32_to_u32 (Z.of_N n) field = Ok n.
Proof.
  intros Hn. unfold checked_i32_to_u32. rewrite get_i32_fits by done. cbn.
  rewrite (proj2 (Z.ltb_ge _ _)) by lia. by rewrite N2Z.id.
Qed.

Lemma checked_optional_fits o field :
  opt_all fits_i32 o → checked_optional_i32_to_u32 (Z.of_N <$> o) field = Ok o.
Proof.
  intros Ho. unfold checked_optional_i32_to_u32. destruct o as [n|]; [|done]. cbn.
  by rewrite checked_i32_fits by auto.
Qed.

Lemma get_bool_as_i64 b : get_bool (bool_as_i64 b) = Ok b.
Proof. by destruct b. Qed.

Lemma bind_real_number o : opt_all number o → (o ≫= bind_real) = o.
Proof. intros Ho. destruct o as [x|]; [|done]. cbn. unfold bind_real. by rewrite (Ho x). Qed.

Lemma profile_fits o :
  opt_all (λ n, (n ≤ 255)%N) o →
  try_opt (λ v, u8_from_i32 v "tracks.dolby_vision_profile") (Z.of_N <$> o) = Ok o.
Proof.
  intros Ho. destruct o as [n|]; [|done]. specialize (Ho n eq_refl). cbn in Ho |- *. unfold u8_from_i32.
  rewrite get_i32_fits by (unfold fits_i32, i32_MAX; lia). cbn.
  rewrite (proj2 (Z.ltb_ge (Z.of_N n) 0)), (proj2 (Z.ltb_ge 255 (Z.of_N n))) by lia. cbn. by rewrite N2Z.id.
Qed.

Lemma TrackType_from_as_str t : TrackType_from_str (TrackType_as_str t) = Ok t.
Proof. by destruct t. Qed.

Lemma Container_from_as_str c : Container_from_extension (Container_as_str c) = c.
Proof. by destruct c. Qed.

Lemma FileStatus_parse_as_str s : FileStatus_parse (FileStatus_as_str s) = Some s.
Proof. by destruct s. Qed.

(** A track reads back. *)
Lemma track_reads_back id file_id track :
  storable_track track → row_to_track (track_row id file_id track) = Ok track.
Proof.
  intros [Hi Hch Hsr Hbd Hw Hh Hcll Hfall Hdv Hl Hp Hr Hf]. unfold row_to_track. cbn -[checked_i32_to_u32 get_bool].
  rewrite TrackType_from_as_str. cbn -[checked_i32_to_u32 get_bool].
  rewrite checked_i32_fits by done. cbn -[get_bool]. rewrite !checked_optional_fits by done. cbn -[get_bool].
  rewrite !get_bool_as_i64. cbn -[get_bool].
  assert (parse_optional_datetime (to_rfc3339 <$> Track_loudness_measured_at track)
    "tracks.loudness_measured_at" = Ok (Track_loudness_measured_at track)) as ->.
  { destruct (Track_loudness_measured_at track); [|done]. cbn. unfold parse_required_datetime.
    by rewrite parse_to_rfc3339. }
  cbn -[get_bool]. rewrite profile_fits by done. cbn -[get_bool].
  assert (try_opt get_bool (bool_as_i64 <$> Track_is_animation track) = Ok (Track_is_animation track)) as ->.
  { destruct (Track_is_animation track) as [[]|]; done. }
  cbn. rewrite !bind_real_number by done. by destruct track.
Qed.

(** ** Files *)
Record storable_file (file : MediaFile) (tags_json meta_json : string) : Prop := {
  sf_size : (Z.of_N (MediaFile_size file) ≤ i64_MAX)%Z;
  sf_hash : MediaFile_content_hash file ≠ Some "";
  sf_bitrate : opt_all fits_i32 (MediaFile_bitrate file);
  sf_duration : number (MediaFile_duration file);
  sf_crop : opt_all (λ d,
    (CropRect_left (CropDetection_rect d) ≤ u32_MAX ∧ CropRect_top (CropDetection_rect d) ≤ u32_MAX ∧
     CropRect_right (CropDetection_rect d) ≤ u32_MAX ∧
     CropRect_bottom (CropDetection_rect d) ≤ u32_MAX)%N) (MediaFile_crop_detection file);
  sf_tracks : Forall storable_track (MediaFile_tracks file);
  sf_order : StronglySorted N.lt (Track_index <$> MediaFile_tracks file);
  sf_tags_to : tags_to_json (MediaFile_tags file) = Ok tags_json;
  sf_tags_from : tags_from_json tags_json = Ok (MediaFile_tags file);
  sf_meta_to : metadata_to_json (MediaFile_plugin_metadata file) = Ok meta_json;
  sf_meta_from : metadata_from_json meta_json = Ok (MediaFile_plugin_metadata file);
}.

(** The file as the store keeps it: with the identifier of its row, a path of
    UTF-8 and the expected hash of the row. *)
Definition stored_file (id : Uuid) (expected_hash : option string) (file : MediaFile) : MediaFile := {|
  MediaFile_id := id;
  MediaFile_path := to_string_lossy (MediaFile_path file);
  MediaFile_size := MediaFile_size file;
  MediaFile_content_hash := MediaFile_content_hash file;
  MediaFile_expected_hash := expected_hash;
  MediaFile_status := MediaFile_status file;
  MediaFile_container := MediaFile_container file;
  MediaFile_duration := MediaFile_duration file;
  MediaFile_bitrate := MediaFile_bitrate file;
  MediaFile_crop_detection := MediaFile_crop_detection file;
  MediaFile_tracks := MediaFile_tracks file;
  MediaFile_tags := MediaFile_tags file;
  MediaFile_plugin_metadata := MediaFile_plugin_metadata file;
  MediaFile_introspected_at := MediaFile_introspected_at file;
|}.

(** The row holds what [upsert_file] writes for [file]. *)
Record holds_file (file : MediaFile) (tags_json meta_json : string) (r : FilesRow) : Prop := {
  hf_path : files_path r = Some (to_string_lossy (MediaFile_path file));
  hf_size : files_size r = u64_as_i64 (MediaFile_size file);
  hf_hash : files_content_hash r = default "" (MediaFile_content_hash file);
  hf_status : files_status r = FileStatus_as_str (MediaFile_status file);
  hf_media : files_media r = media_columns file tags_json meta_json;
}.

Lemma parse_bind_time t : parse_datetime (bind_time t) = Ok t.
Proof. unfold parse_datetime, bind_time, format_iso. by rewrite parse_to_rfc3339. Qed.

Lemma crop_side_fits n msg : (n ≤ u32_MAX)%N → crop_side (Z.of_N n) msg = Ok n.
Proof.
  intros Hn. unfold crop_side. rewrite (proj2 (Z.ltb_ge (Z.of_N n) 0)) by lia.
  rewrite (proj2 (Z.ltb_ge (Z.of_N u32_MAX) (Z.of_N n))) by lia. cbn. by rewrite N2Z.id.
Qed.

Lemma crop_reads_back file tj mj :
  storable_file file tj mj →
  FileRow_crop_detection (media_columns file tj mj) = Ok (MediaFile_crop_detection file).
Proof.
  intros Hf. pose proof (sf_crop _ _ _ Hf) as Hc. unfold FileRow_crop_detection, media_columns. cbn.
  destruct (MediaFile_crop_detection file) as [d|]; [|done].
  destruct (Hc d eq_refl) as (Hl & Ht & Hr & Hb). cbn. rewrite !crop_side_fits by done. cbn.
  rewrite parse_bind_time. cbn. by destruct d as [[] ? []].
Qed.

Lemma file_reads_back file tj mj r id tracks :
  storable_file file tj mj → holds_file file tj mj r → files_id r = Uuid_to_string id →
  tracks = MediaFile_tracks file →
  ∃ fr, row_to_file r = Ok fr ∧ FileRow_id fr = Uuid_to_string id ∧
        to_media_file fr tracks = Ok (stored_file id (files_expected_hash r) file).
Proof.
  intros Hf [Hp Hsz Hh Hst Hm] Hid ->. eexists.
  assert (files_size r = Z.of_N (MediaFile_size file)) as Hsz'.
  { rewrite Hsz. unfold u64_as_i64. by rewrite (proj2 (Z.leb_le _ _)) by apply Hf. }
  unfold row_to_file. rewrite Hsz', Hm. unfold checked_i64_to_u64.
  rewrite (proj2 (Z.ltb_ge (Z.of_N (MediaFile_size file)) 0)) by lia. cbn [mbind result_mbind].
  rewrite N2Z.id. cbn [files_bitrate media_columns].
  rewrite checked_optional_fits by apply Hf. cbn. split; [done|]. split; [done|].
  unfold to_media_file. cbn [FileRow_media FileRow_id FileRow_status FileRow_content_hash FileRow_path
    FileRow_size FileRow_bitrate FileRow_expected_hash].
  unfold json_map_column. cbn [files_tags files_plugin_metadata media_columns].
  rewrite (sf_tags_from _ _ _ Hf), (sf_meta_from _ _ _ Hf), Hid. cbn [mbind result_mbind].
  unfold parse_uuid. rewrite Uuid_parse_to_string. cbn [mbind result_mbind].
  rewrite (crop_reads_back _ _ _ Hf). cbn [mbind result_mbind files_introspected_at media_columns].
  rewrite parse_bind_time. unfold parse_file_status. rewrite Hst, FileStatus_parse_as_str.
  cbn [mbind result_mbind files_container files_duration media_columns].
  rewrite Container_from_as_str, Hp, Hh. unfold bind_real. rewrite (sf_duration _ _ _ Hf). cbn.
  unfold stored_file. do 2 f_equal. pose proof (sf_hash _ _ _ Hf) as Hne.
  destruct (MediaFile_content_hash file) as [h|]; cbn; [|done]. rewrite bool_decide_false; congruence.
Qed.

(** ** Tracks of a file *)

(** The rows of the tracks, with the identifiers from the [i]-th on. *)
Fixpoint track_rows (file_id : string) (ids : nat → Uuid) (i : nat) (tracks : list Track)
    : list TracksRow :=
  match tracks with
  | [] => []
  | track :: tracks => track_row (ids i) file_id track :: track_rows file_id ids (S i) tracks
  end.

Lemma put_put_tracks v w t : put_tracks v (put_tracks w t) = put_tracks v t.
Proof. done. Qed.

Lemma spec_insert_tracks file_id ids tracks :
  StronglySorted N.lt (Track_index <$> tracks) → (∀ j k, ids j = ids k → j = k) →
  ∀ i t, file_id ∈ files_id <$> t_files t →
  (∀ r, r ∈ t_tracks t → tracks_file_id r = file_id →
     Forall (λ tr, (tracks_stream_index r < Z.of_N (Track_index tr))%Z) tracks) →
  (∀ j, (i ≤ j)%nat → Uuid_to_string (ids j) ∉ tracks_id <$> t_tracks t) →
  db_spec false t (insert_tracks file_id ids i tracks)
    (λ _ t', t' = put_tracks (t_tracks t ++ track_rows file_id ids i tracks) t) (λ _, False).
Proof.
  intros Hsorted Hinj. induction tracks as [|tr tracks IH]; intros i t Hfile Hidx Hfresh; cbn.
  { apply spec_ret. rewrite app_nil_r. by destruct t. }
  cbn in Hsorted. apply StronglySorted_inv in Hsorted as [Hsorted Hlt].
  apply bind_call; [done|]. unfold insert_track.
  assert (bool_decide (tracks_id (track_row (ids i) file_id tr) ∈ tracks_id <$> t_tracks t) = false) as ->
    by (apply bool_decide_eq_false, Hfresh; lia).
  assert (existsb (λ q, bool_decide (tracks_file_id q = tracks_file_id (track_row (ids i) file_id tr) ∧
    tracks_stream_index q = tracks_stream_index (track_row (ids i) file_id tr))) (t_tracks t) = false) as ->.
  { apply not_true_iff_false. intros (q & Hq & Heq)%existsb_exists. apply bool_decide_eq_true in Heq as [Hf Hi].
    apply list_elem_of_In in Hq. specialize (Hidx q Hq Hf). apply Forall_cons in Hidx as [Hlt' _]. cbn in Hi. lia. }
  assert (existsb (λ f, bool_decide (files_id f = tracks_file_id (track_row (ids i) file_id tr))) (t_files t) = true) as ->.
  { apply existsb_exists. apply list_elem_of_fmap in Hfile as (f & Hf & Hin). exists f.
    split; [by apply list_elem_of_In|]. by apply bool_decide_eq_true. }
  cbn [orb negb]. eapply spec_weaken; [apply IH| |done]; try done.
  - intros r [Hr| ->%list_elem_of_singleton]%elem_of_app Hrf.
    + specialize (Hidx r Hr Hrf). by apply Forall_cons in Hidx as [_ ?].
    + apply Forall_forall. intros tr' Htr'. cbn. rewrite Forall_forall in Hlt.
      specialize (Hlt (Track_index tr') (list_elem_of_fmap_2 _ _ _ Htr')). lia.
  - intros j Hj. cbn [t_tracks put_tracks]. rewrite fmap_app, not_elem_of_app. split; [apply Hfresh; lia|].
    cbn. rewrite list_elem_of_singleton. intros Heq%Uuid_to_string_inj%Hinj. lia.
  - intros [] t' ->. rewrite put_put_tracks. cbn [t_tracks put_tracks]. by rewrite <-app_assoc.
Qed.

(** ** Writing a file *)

(** What the store must offer a file: identifiers for its tracks, and its own if the
    path is new. *)
Record can_store (ids : nat → Uuid) (file : MediaFile) (t : FileTables) : Prop := {
  cs_tracks j : Uuid_to_string (ids j) ∉ tracks_id <$> t_tracks t;
  cs_inj j k : ids j = ids k → j = k;
  cs_file : row_at (t_files t) (to_string_lossy (MediaFile_path file)) = None →
    Uuid_to_string (MediaFile_id file) ∉ files_id <$> t_files t;
}.

Definition effective_id (file : MediaFile) (t : FileTables) : string :=
  default (Uuid_to_string (MediaFile_id file))
    (files_id <$> row_at (t_files t) (to_string_lossy (MediaFile_path file))).

(** The tables after [upsert_file]. *)
Record upserted (ids : nat → Uuid) (file : MediaFile) (tj mj : string) (t t' : FileTables) : Prop := {
  up_row : ∃ r, row_at (t_files t') (to_string_lossy (MediaFile_path file)) = Some r ∧
    files_id r = effective_id file t ∧ holds_file file tj mj r ∧
    files_expected_hash r =
      (row_at (t_files t) (to_string_lossy (MediaFile_path file)) ≫= files_expected_hash);
  up_tracks : List.filter (λ r, bool_decide (tracks_file_id r = effective_id file t)) (t_tracks t')
    = track_rows (effective_id file t) ids 0 (MediaFile_tracks file);
}.

Lemma existsb_row_at rows p : existsb (at_path p) rows = bool_decide (is_Some (row_at rows p)).
Proof.
  unfold row_at. induction rows as [|r rows IH]; [done|]. cbn. destruct (at_path p r); [|done].
  by rewrite bool_decide_true by eauto.
Qed.

(** The statement that writes the row. *)
Lemma upsert_row_effect path_str row t :
  unique_rows (t_files t) → files_path row = Some path_str → files_superseded_by row = None →
  (row_at (t_files t) path_str = None → files_id row ∉ files_id <$> t_files t) →
  ∃ n rows, upsert_files_row path_str row t = (Ok n, put_files rows t) ∧ unique_rows rows ∧
    row_at rows path_str = Some (match row_at (t_files t) path_str with
                                 | Some old => excluded row old
                                 | None => row
                                 end).
Proof.
  intros Hu Hp Hsup Hid. unfold upsert_files_row. rewrite existsb_row_at.
  destruct (row_at (t_files t) path_str) as [old|] eqn:Hat.
  - rewrite bool_decide_true by eauto. unfold update_files, update_rows. change (map ?g ?l) with (g <$> l).
    set (rows := _ <$> t_files t).
    assert (unique_rows rows) as Hur.
    { apply unique_same_keys; [|done]. intros r _. destruct (at_path path_str r); cbn; auto. }
    rewrite (proj2 (files_unique_spec rows) Hur). eexists _, rows. split; [done|]. split; [done|].
    apply row_at_Some in Hat as [Hin Hop]. apply row_at_unique; [done| |done].
    apply list_elem_of_fmap. exists old. split; [|done]. unfold at_path. by rewrite bool_decide_true.
  - rewrite bool_decide_false by (by intros [? ?]). unfold insert_file.
    assert (unique_rows (t_files t ++ [row])) as Hur.
    { apply unique_app; [done|by apply Hid| |done]. intros p Hp' (r & Hr & Hrp)%list_elem_of_omap.
      rewrite Hp in Hp'. simplify_eq. by eapply row_at_None. }
    rewrite (proj2 (files_unique_spec _) Hur). eexists _, _. split; [done|]. split; [done|].
    apply row_at_unique; [done| |done]. apply elem_of_app. right. apply list_elem_of_here.
Qed.

Lemma track_rows_file file_id ids tracks :
  ∀ i, Forall (λ r, tracks_file_id r = file_id) (track_rows file_id ids i tracks).
Proof. induction tracks as [|tr tracks IH]; intros i; cbn; constructor; auto. Qed.

(** After the old tracks are deleted none is left for the identifier. *)
Lemma no_tracks_left file t r :
  tables_ok t → (row_at (t_files t) (to_string_lossy (MediaFile_path file)) = None →
    Uuid_to_string (MediaFile_id file) ∉ files_id <$> t_files t) →
  r ∈ t_tracks (delete_tracks_at (to_string_lossy (MediaFile_path file)) t).2 →
  r ∈ t_tracks t ∧ tracks_file_id r ≠ effective_id file t.
Proof.
  intros Hok Hid Hr. unfold delete_tracks_at, delete_rows in Hr. cbn in Hr.
  apply list_elem_of_In, List.filter_In in Hr as [Hr Hn]. apply list_elem_of_In in Hr. split; [done|].
  apply negb_true_iff, bool_decide_eq_false in Hn. unfold effective_id.
  destruct (row_at _ _) as [old|] eqn:Hat; cbn.
  - intros Heq. apply Hn. rewrite Heq. apply row_at_Some in Hat as [Hin Hp]. apply list_elem_of_fmap_2.
    apply list_elem_of_In, List.filter_In. split; [by apply list_elem_of_In|]. by apply bool_decide_eq_true.
  - intros Heq. apply (Hid eq_refl). rewrite <-Heq. by apply (ok_tracks _ Hok).
Qed.

Lemma spec_upsert now ids file tj mj t :
  tables_ok t → storable_file file tj mj → can_store ids file t →
  db_spec false t (sqlite_upsert_file now ids file)
    (λ _ t', upserted ids file tj mj t t') (λ _, False).
Proof.
  intros Hok Hf [Hct Hinj Hcf]. set (p := to_string_lossy (MediaFile_path file)) in *.
  eapply spec_weaken; [apply (spec_on_conn false False)|by intros a t' Ha; exact Ha|by intros ? [? _]]; [done|].
  eapply spec_weaken; [|by intros a t' Ha; exact Ha|intros ? Hfalse; exact (False_ind _ Hfalse)].
  apply bind_lift. rewrite (sf_tags_to _ _ _ Hf). cbn [json_text]. apply bind_lift.
  rewrite (sf_meta_to _ _ _ Hf). cbn [json_text]. apply bind_query; [done|]. fold p. unfold query_row.
  assert (Heid : ∀ existing, optional (match List.find (at_path p) (t_files t) with
     | Some r => Ok (files_id r) | None => Err rusqlite_QueryReturnedNoRows end) = Ok existing →
     default (Uuid_to_string (MediaFile_id file)) existing = effective_id file t).
  { intros existing. unfold effective_id, row_at. fold p.
    destruct (List.find (at_path p) (t_files t)); cbn; by intros [= <-]. }
  destruct (optional _) as [existing|] eqn:Hex.
  2: { exfalso. by destruct (List.find (at_path p) (t_files t)). }
  rewrite (Heid existing eq_refl). set (eid := effective_id file t).
  eapply spec_weaken; [apply (spec_rollback false False)|by intros a t' Ha; exact Ha|by intros ? [? _]]; [done|].
  apply bind_execute; [done|]. set (t1 := (delete_tracks_at p t).2).
  pose proof (no_tracks_left file t) as Hnone. fold p t1 in Hnone.
  assert (t_files t1 = t_files t) as Hf1 by done.
  destruct (upsert_row_effect p (file_row eid p (filename_string (MediaFile_path file)) tj mj (bind_time now) file) t1)
    as (n & rows & Heff & Hur & Hrow); [apply Hok|done|done| |].
  { rewrite Hf1. intros Hat. unfold eid, effective_id. fold p. rewrite Hat. by apply Hcf. }
  apply (spec_bind _ _ _ _ (λ _ t2, t2 = put_files rows t1)).
  { apply bind_call; [done|]. rewrite Heff. by apply spec_ret. }
  intros [] t2 ->. rewrite Hf1 in Hrow.
  apply (spec_bind _ _ _ _ (λ _ t3, t3 = put_tracks (t_tracks t1 ++ track_rows eid ids 0 (MediaFile_tracks file))
                                           (put_files rows t1))).
  { apply bind_query; [done|].
    eapply spec_weaken; [apply spec_insert_tracks|by intros [] t' ->|done]; [apply Hf|done| | |].
    - apply row_at_Some in Hrow as [Hin _]. apply list_elem_of_fmap. eexists. split; [|exact Hin].
      unfold eid, effective_id. fold p. by destruct (row_at (t_files t) p).
    - intros r Hr Hrf. by destruct (Hnone r Hok Hcf Hr).
    - intros j _ (r & Hid & Hr)%list_elem_of_fmap. apply (Hct j). rewrite Hid. apply list_elem_of_fmap_2.
      by destruct (Hnone r Hok Hcf Hr). }
  intros [] t3 ->. apply spec_commit; [|done]. split; fold p eid; cbn [t_files put_tracks put_files t_tracks].
  - eexists. split; [exact Hrow|]. unfold eid, effective_id. fold p.
    destruct (row_at (t_files t) p) as [old|] eqn:Hat; [|by split_and!].
    apply row_at_Some in Hat as [_ Hp]. by split_and!.
  - rewrite List.filter_app, filter_none, filter_all; [done|apply Forall_forall..].
    + intros r Hr. apply bool_decide_eq_true. pose proof (track_rows_file eid ids (MediaFile_tracks file) 0) as Hall.
      rewrite Forall_forall in Hall. by apply Hall.
    + intros r Hr. apply bool_decide_eq_false. by destruct (Hnone r Hok Hcf Hr).
Qed.

(** ** Reading it *)
Lemma track_rows_read file_id ids tracks :
  Forall storable_track tracks →
  ∀ i, try_map row_to_track (track_rows file_id ids i tracks) = Ok tracks.
Proof.
  induction 1 as [|tr tracks Htr _ IH]; intros i; [done|]. cbn -[row_to_track].
  rewrite track_reads_back by done. cbn. by rewrite IH.
Qed.

Lemma track_rows_index file_id ids tracks :
  ∀ i, tracks_stream_index <$> track_rows file_id ids i tracks = Z.of_N ∘ Track_index <$> tracks.
Proof. induction tracks as [|tr tracks IH]; intros i; cbn; [done|]. by rewrite IH. Qed.

(** Rows in the strict order of a key are the only ordering of themselves. *)
Lemma order_by_strict {R} (k : R → Z) (rows : list R) :
  StronglySorted Z.lt (k <$> rows) → order_by (λ a b, (k a <=? k b)%Z) rows = rows.
Proof.
  intros Hs. apply (StronglySorted_unique_strong (λ a b, (k a <=? k b)%Z = true)).
  - intros a b Ha Hb Hab Hba. rewrite order_by_perm in Ha. apply Z.leb_le in Hab, Hba.
    assert (NoDup (k <$> rows)) as Hnd.
    { clear -Hs. induction Hs as [|x l _ IH Hx]; constructor; [|done]. intros Hin.
      rewrite Forall_forall in Hx. specialize (Hx x Hin). lia. }
    apply (NoDup_fmap_inj k rows); try done. lia.
  - apply order_by_sorted.
    + intros a b. rewrite !Z.leb_le. lia.
    + intros a b c. rewrite !Z.leb_le. lia.
  - clear -Hs. induction rows as [|r rows IH]; cbn in Hs; constructor; apply StronglySorted_inv in Hs as [Hs Hlt].
    + auto.
    + apply Forall_forall. intros q Hq. rewrite Forall_forall in Hlt. apply Z.leb_le.
      specialize (Hlt (k q) (list_elem_of_fmap_2 _ _ _ Hq)). lia.
  - apply order_by_perm.
Qed.

Lemma StronglySorted_of_N (l : list N) : StronglySorted N.lt l → StronglySorted Z.lt (Z.of_N <$> l).
Proof.
  induction 1 as [|x l _ IH Hx]; cbn; constructor; [done|]. apply Forall_map. eapply Forall_impl; [exact Hx|].
  intros y. cbn. lia.
Qed.

Lemma spec_load_tracks u ids tracks t :
  Forall storable_track tracks → StronglySorted N.lt (Track_index <$> tracks) →
  List.filter (λ r, bool_decide (tracks_file_id r = Uuid_to_string u)) (t_tracks t)
    = track_rows (Uuid_to_string u) ids 0 tracks →
  db_spec false t (load_tracks u) (λ l t', l = tracks ∧ t' = t) (λ _, False).
Proof.
  intros Hst Hs Hfilter. do 2 (apply bind_query; [done|]). apply spec_query; [|done]. rewrite Hfilter.
  rewrite order_by_strict; [by rewrite track_rows_read|]. rewrite track_rows_index, list_fmap_compose.
  by apply StronglySorted_of_N.
Qed.

Lemma spec_file_by_path ids file tj mj t t' u :
  storable_file file tj mj → upserted ids file tj mj t t' → effective_id file t = Uuid_to_string u →
  db_spec false t' (sqlite_file_by_path (MediaFile_path file))
    (λ res t'', t'' = t' ∧ res = Some (stored_file u
       (row_at (t_files t) (to_string_lossy (MediaFile_path file)) ≫= files_expected_hash) file))
    (λ _, False).
Proof.
  intros Hf [(r & Hrow & Hid & Hholds & Hexp) Htracks] Hu. rewrite Hu in *.
  destruct (file_reads_back file tj mj r u (MediaFile_tracks file)) as (fr & Hfr & Hfid & Hmedia); [done..|].
  eapply spec_weaken; [apply (spec_on_conn false False)|by intros a t2 Ha; exact Ha|by intros ? [? _]]; [done|].
  eapply spec_weaken; [|by intros a t2 Ha; exact Ha|intros ? Hfalse; exact (False_ind _ Hfalse)].
  apply bind_query; [done|]. unfold row_at in Hrow. rewrite Hrow. cbn [try_opt]. rewrite Hfr. cbn.
  apply bind_lift. unfold parse_uuid. rewrite Hfid, Uuid_parse_to_string.
  eapply spec_bind; [eapply spec_load_tracks; [apply Hf|apply Hf|exact Htracks]|].
  intros l t2 [-> ->]. apply bind_lift. rewrite Hmedia. apply spec_ret. by rewrite Hexp.
Qed.

Lemma effective_id_printed file t :
  tables_ok t → ∃ u, effective_id file t = Uuid_to_string u ∧
    (row_at (t_files t) (to_string_lossy (MediaFile_path file)) = None → u = MediaFile_id file).
Proof.
  intros Hok. unfold effective_id. destruct (row_at _ _) as [r|] eqn:Hat; cbn; [|by eauto].
  apply row_at_Some in Hat as [Hr _]. destruct (printed_id _ _ Hok Hr) as [u Hu]. by exists u.
Qed.

Lemma spec_upsert_read now ids file tj mj t :
  tables_ok t → storable_file file tj mj → can_store ids file t →
  ∃ u, (row_at (t_files t) (to_string_lossy (MediaFile_path file)) = None → u = MediaFile_id file) ∧
  db_spec false t
    (db_bind (sqlite_upsert_file now ids file) (λ _, sqlite_file_by_path (MediaFile_path file)))
    (λ res _, res = Some (stored_file u
       (row_at (t_files t) (to_string_lossy (MediaFile_path file)) ≫= files_expected_hash) file))
    (λ _, False).
Proof.
  intros Hok Hf Hc. destruct (effective_id_printed file t Hok) as (u & Hu & Hnew). exists u. split; [done|].
  eapply spec_bind; [by apply spec_upsert|]. intros [] t' Hup.
  eapply spec_weaken; [by eapply spec_file_by_path|by intros ? ? [_ ?]|done].
Qed.
End roundtrip.
