(* ===== verification/StoreFacts.v ===== *)
(** * Failing operations, recorded mutations, retention and listings of the store *)
From S2P Require Import Prelude Json Media Plan Jobs Engine Events Process Transitions FileTables.
From S2P Require Import ScanSessions RowMappers FileStore TransitionStore ScanSpec IngestFacts.
From S2P Require Import SessionFacts StoreInvariant FileFacts.

(** ** Operations that fail change nothing *)
Section atomic.
Context {T : Type} `{Chrono} `{UuidText} `{Sqlite}.

Definition atomic {A} (x : Sql T A) : Prop :=
  ∀ t, db_spec true t x (λ _ _, True) (λ t', t' = t).

Definition reads {A} (x : Sql T A) : Prop :=
  ∀ t, db_spec true t x (λ _ t', t' = t) (λ t', t' = t).

Lemma spec_any {A} (x : Sql T A) t : db_spec true t x (λ _ _, True) (λ _, True).
Proof. intros fs _. destruct (x _) as [[] ?]; split; auto; by left. Qed.

Lemma atomic_read {A B} (x : Sql T A) (f : A → Sql T B) :
  reads x → (∀ a, atomic (f a)) → atomic (db_bind x f).
Proof. intros Hx Hf t. eapply spec_bind; [apply Hx|]. intros a ? ->. apply Hf. Qed.

Lemma atomic_ret {A B} (x : Sql T A) (f : A → B) : atomic x → atomic (db_bind x (λ a, db_ret (f a))).
Proof. intros Hx t. eapply spec_bind; [apply Hx|]. intros a t' _. by apply spec_ret. Qed.

Lemma atomic_transaction {A} msg (body : Sql T A) : atomic (db_transaction msg body).
Proof.
  intros t. eapply spec_weaken; [apply (spec_rollback true True); [done|apply spec_any]|done|].
  by intros ? [_ ->].
Qed.

Lemma atomic_call {A} wrap (run : T → result rusqlite_Error A * T) :
  (∀ t e, (run t).1 = Err e → (run t).2 = t) → atomic (db_call wrap run).
Proof.
  intros Hrun t. apply spec_call; [|done]. specialize (Hrun t). destruct (run t) as [[a|e] t']; [done|].
  by apply (Hrun e).
Qed.

Lemma atomic_execute {A} msg (f : T → A * T) : atomic (db_execute msg f).
Proof. intros t. by apply spec_execute. Qed.

Lemma reads_conn : reads db_conn.
Proof. intros t. by apply spec_conn. Qed.

Lemma reads_lift {A} (r : result VoomError A) : reads (db_lift r).
Proof. intros t. apply spec_lift. by destruct r. Qed.

Lemma reads_query {A} msg (q : T → result rusqlite_Error A) : reads (db_query msg q).
Proof. intros t. apply spec_query; [|done]. by destruct (q t). Qed.
End atomic.
#[export] Hint Resolve atomic_ret atomic_transaction atomic_execute reads_conn reads_lift reads_query : store.

Section store.
Context `{Chrono} `{UuidText} `{Sqlite} `{Unicode} `{SnapshotJson} `{RootsJson} `{MapsJson}.

Lemma atomic_update msg p f : atomic (fs_exec msg (update_files p f)).
Proof.
  apply (atomic_ret _ (λ _, tt)), atomic_call. intros t e. unfold update_files, update_rows.
  by destruct (files_unique _).
Qed.

Lemma atomic_insert_transition msg r : atomic (fs_run msg (insert_transition r)).
Proof. apply atomic_call. intros t e. unfold insert_transition. by case_bool_decide. Qed.

Lemma atomic_upsert_bad msg r : atomic (fs_run msg (upsert_bad_row r)).
Proof.
  apply atomic_call. intros t e. unfold upsert_bad_row. destruct (existsb _ _); [done|].
  by case_bool_decide.
Qed.
#[local] Hint Resolve atomic_update atomic_insert_transition atomic_upsert_bad : store.

(** Operations of more than one statement outside a transaction. *)
Definition stepwise (op : StoreOp) : bool :=
  match op with Op_purge _ | Op_mark_paths _ _ _ | Op_prune _ _ | Op_prune_missing _ _ _ _ => true | _ => false end.

Lemma atomic_op op : stepwise op = false → atomic (op_call op).
Proof.
  destruct op; cbn [stepwise op_call]; intros Hs; try done; apply (atomic_ret _ (λ _, tt));
    (apply atomic_read; [apply reads_conn|intros []]); auto with store.
  - apply atomic_read; [auto with store|intros j]. auto with store.
  - apply atomic_read; [auto with store|intros j]. auto with store.
  - do 3 (apply atomic_read; [auto with store|intros ?]). auto with store.
  - apply atomic_insert_transition.
  - apply (atomic_ret _ (λ _, tt)), atomic_execute.
Qed.

Lemma op_error_unchanged op s e :
  stepwise op = false → (op_call op s).1 = Err e → db_rows (op_call op s).2 = db_rows s.
Proof.
  intros Hs He. destruct (db_spec_run true s (op_call op) _ _ (or_introl eq_refl) (atomic_op op Hs (db_rows s)))
    as [_ Hr]. by rewrite He in Hr.
Qed.

(** ** What VOOM itself has changed is not missed *)

(** Rows after a promotion were there before, or are active. *)
Lemma promote_loop_origin s started now now_dt ids cs :
  ∀ i t, unique_rows (t_files t) →
  db_spec true t (promote_loop s started now now_dt ids i cs)
    (λ _ t', unique_rows (t_files t') ∧ t_mutations t' = t_mutations t ∧
       ∀ r, r ∈ t_files t' → r ∈ t_files t ∨ files_status r = "active") (λ _, True).
Proof.
  induction cs as [|c cs IH]; intros i t Hu; cbn; [by apply spec_ret; auto|].
  apply (spec_bind _ _ _ _ (λ _ t1, unique_rows (t_files t1) ∧ t_mutations t1 = t_mutations t ∧
    ∀ r, r ∈ t_files t1 → r ∈ t_files t ∨ files_status r = "active")).
  - apply bind_query; [done|]. destruct (select_one _ _) as [q|]; [|by apply spec_ret; auto].
    apply bind_execute; [done|]. unfold delete_transitions, delete_rows. cbn [fst snd].
    apply (spec_bind _ _ _ _ (λ _ t1, t_mutations t1 = t_mutations t ∧ ∀ r, r ∈ t_files t1 → r ∈ t_files t)).
    { apply bind_call; [done|]. unfold delete_files, delete_rows. destruct (existsb _ _); [done|].
      apply spec_ret. split; [done|]. cbn. intros r Hr. apply list_elem_of_In, List.filter_In in Hr as [Hr _].
      by apply list_elem_of_In. }
    intros [] t1 [Hm Hsub]. apply (bind_update true True); [done| |by left]. intros Hu2.
    apply bind_lift. destruct (parse_uuid _); [|done].
    apply (bind_insert_transition true True); [done| |by left]. apply spec_ret. cbn. split; [done|]. split; [done|].
    intros r (r0 & -> & Hr0)%list_elem_of_fmap. destruct (has_file_id _ _); [by right|left; auto].
  - intros p t1 (Hu1 & Hm1 & Hor1). eapply spec_bind; [by apply IH|].
    intros n t2 (Hu2 & Hm2 & Hor2). apply spec_ret. split_and!; [done|congruence|].
    intros r Hr. destruct (Hor2 r Hr); auto.
Qed.

Lemma finish_spares_recorded now_dt ids session t :
  let s := Uuid_to_string session in
  unique_rows (t_files t) →
  db_spec true t (sqlite_finish_scan_session now_dt ids session)
    (λ _ t', ∀ r p, r ∈ t_files t' → files_path r = Some p → (s, p) ∈ mutation_key <$> t_mutations t →
       files_status r = "missing" → r ∈ t_files t) (λ _, True).
Proof.
  intros s Hu. eapply spec_weaken; [apply (spec_on_conn true True)|by intros a t' Ha; exact Ha|done]; [done|].
  eapply spec_weaken; [apply (spec_rollback true True)|by intros a t' Ha; exact Ha|done]; [done|].
  apply bind_query; [done|]. destruct (optional _) as [[row|]|]; [|by apply spec_lift|done].
  destruct (negb _); [by apply spec_lift|]. apply bind_lift. destruct (session_roots _) as [roots|]; [|done].
  eapply spec_bind.
  { do 3 (apply bind_query; [done|]). by apply promote_loop_origin. }
  intros n t1 (Hu1 & Hm1 & Hor1). unfold mark_missing_in_finish_tx.
  eapply spec_bind.
  { do 6 (apply bind_query; [done|]). by apply spec_mark_loop. }
  intros m t2 (_ & -> & Hu2). apply bind_execute; [done|]. apply bind_commit; [done|]. apply spec_ret.
  cbn [t_files put_sessions put_files snd update_sessions update_rows]. fold s.
  rewrite mark_vanished by done. intros r p (r1 & -> & Hr1)%list_elem_of_fmap.
  destruct (vanished _ _ _ r1) eqn:Hv.
  - intros Hp Hrec _. cbn in Hp. exfalso. unfold vanished in Hv. rewrite Hp, andb_true_iff in Hv. destruct Hv as [_ Hv].
    rewrite bool_decide_true, andb_false_r in Hv; [done|]. rewrite Hm1. unfold session_mutation_paths.
    apply list_elem_of_fmap in Hrec as (m' & Hk & Hm'). apply list_elem_of_fmap. exists m'.
    unfold mutation_key in Hk. injection Hk as Hks Hkp. split; [done|].
    apply list_elem_of_In, List.filter_In. split; [by apply list_elem_of_In|]. by apply bool_decide_eq_true.
  - intros Hp _ Hmiss. destruct (Hor1 r1 Hr1) as [|Ha]; [done|congruence].
Qed.

Lemma record_mutation_keys m t :
  db_spec true t (sqlite_record_voom_mutation m)
    (λ _ t', (Uuid_to_string (Mutation_session m), to_string_lossy (Mutation_path m))
               ∈ mutation_key <$> t_mutations t' ∧
             (∀ orig, Mutation_original m = Some orig →
                (Uuid_to_string (Mutation_session m), to_string_lossy orig)
                  ∈ mutation_key <$> t_mutations t')) (λ _, True).
Proof.
  assert (Hlast : ∀ row t k, mutation_key row = k → k ∈ mutation_key <$> t_mutations (put_mutation row t)).
  { intros row t0 k <-. cbn. rewrite fmap_app, elem_of_app. right. apply list_elem_of_here. }
  apply (spec_bind _ _ _ _ (λ _ t', True)); [by apply spec_conn|]. intros _ t1 _.
  apply bind_lift. destruct (recorded_unix _) as [rec|]; [|done].
  eapply spec_weaken; [apply (spec_rollback true True)|by intros a t' Ha; exact Ha|done]; [done|].
  apply bind_execute; [done|]. cbn [fst snd].
  destruct (Mutation_original m) as [orig|].
  - apply bind_execute; [done|]. cbn [fst snd]. apply spec_commit; [|done]. split.
    + cbn. destruct (decide (to_string_lossy (Mutation_path m) = to_string_lossy orig)) as [->|Hne].
      { rewrite fmap_app, elem_of_app. right. apply list_elem_of_here. }
      rewrite fmap_app, elem_of_app. left. rewrite List.filter_app, fmap_app, elem_of_app. right. cbn.
      rewrite bool_decide_false by (intros [_ ?]; done). apply list_elem_of_here.
    + intros orig' [= <-]. by apply Hlast.
  - apply spec_commit; [|done]. split; [by apply Hlast|done].
Qed.

(** ** Retention keeps the latest transition of every file *)
Definition of_file (file_id : string) (r : TransitionsRow) : bool :=
  bool_decide (transitions_file_id r = file_id).

Lemma superseded_sub rows r : r ∈ superseded_transitions rows → r ∈ rows.
Proof.
  induction rows as [|x rows IH]; cbn; [done|]. destruct (existsb _ _); rewrite ?elem_of_cons; naive_solver.
Qed.

Lemma latest_not_superseded file_id rows r :
  NoDup (transitions_id <$> rows) → last (List.filter (of_file file_id) rows) = Some r →
  transitions_id r ∉ transitions_id <$> superseded_transitions rows.
Proof.
  assert (Hlast : ∀ l x, last (List.filter (of_file file_id) l) = Some x → x ∈ l ∧ transitions_file_id x = file_id).
  { intros l x Hx. apply last_Some_elem_of in Hx.
    apply list_elem_of_In, List.filter_In in Hx as [Hx Hf]. apply bool_decide_eq_true in Hf.
    by rewrite list_elem_of_In. }
  induction rows as [|x rows IH]; cbn; [done|]. intros [Hx Hnd]%NoDup_cons Hl.
  assert (Hrest : last (List.filter (of_file file_id) rows) = Some r →
    (transitions_id r ∉ transitions_id <$> superseded_transitions rows) ∧ transitions_id r ≠ transitions_id x).
  { intros Hr. split; [by apply IH|]. intros Heq. apply Hx. rewrite <-Heq. apply list_elem_of_fmap_2. by apply Hlast. }
  assert (Hx' : transitions_id x ∉ transitions_id <$> superseded_transitions rows).
  { intros (q & Hq & Hin%superseded_sub)%list_elem_of_fmap. apply Hx. rewrite Hq. by apply list_elem_of_fmap_2. }
  destruct (of_file file_id x) eqn:Hfx.
  - destruct (List.filter (of_file file_id) rows) as [|y l] eqn:Hfil.
    + injection Hl as <-. apply bool_decide_eq_true in Hfx.
      destruct (existsb _ rows) eqn:Hex; [|done]. apply existsb_exists in Hex as (q & Hq & Hqf).
      apply bool_decide_eq_true in Hqf. exfalso. assert (q ∈ List.filter (of_file file_id) rows) as Hin.
      { apply list_elem_of_In, List.filter_In. split; [done|]. apply bool_decide_eq_true. congruence. }
      rewrite Hfil in Hin. by apply elem_of_nil in Hin.
    + destruct (Hrest Hl) as [Hr Hne]. destruct (existsb _ rows); cbn; [|done]. set_solver.
  - destruct (Hrest Hl) as [Hr Hne]. destruct (existsb _ rows); cbn; [|done]. set_solver.
Qed.

Lemma last_filter_keep {A} (p : A → bool) l x : last l = Some x → p x = true → last (List.filter p l) = Some x.
Proof.
  induction l as [|y l IH]; [done|]. intros Hl Hp. destruct l as [|z l].
  - injection Hl as ->. cbn. by rewrite Hp.
  - specialize (IH Hl Hp). change (List.filter p (y :: z :: l))
      with (if p y then y :: List.filter p (z :: l) else List.filter p (z :: l)).
    destruct (p y); [|done]. by destruct (List.filter p (z :: l)).
Qed.

Lemma filter_swap {A} (p q : A → bool) l : List.filter p (List.filter q l) = List.filter q (List.filter p l).
Proof.
  induction l as [|x l IH]; [done|]. cbn. destruct (p x) eqn:Hp, (q x) eqn:Hq; cbn; rewrite ?Hp, ?Hq, ?IH; done.
Qed.

Lemma expired_sub cutoff keep_last rows r :
  r ∈ expired_transitions cutoff keep_last rows → r ∈ superseded_transitions rows.
Proof.
  intros (x & -> & Hx)%list_elem_of_fmap. apply list_elem_of_In, List.filter_In in Hx as [Hx _].
  apply list_elem_of_In, list_elem_of_lookup in Hx as [i Hi]. unfold ranked_transitions in Hi.
  rewrite list_lookup_imap in Hi. destruct (order_by _ _ !! i) as [q|] eqn:Hq; [|done]. cbn in Hi. simplify_eq. cbn.
  apply list_elem_of_lookup_2 in Hq. by rewrite order_by_perm in Hq.
Qed.

Lemma prune_latest cutoff keep_last rows file_id :
  NoDup (transitions_id <$> rows) →
  last (List.filter (of_file file_id)
    (delete_rows (λ r, bool_decide (transitions_id r ∈ transitions_id <$> expired_transitions cutoff keep_last rows)) rows).2)
  = last (List.filter (of_file file_id) rows).
Proof.
  intros Hnd. unfold delete_rows. cbn [snd]. rewrite filter_swap.
  destruct (last (List.filter (of_file file_id) rows)) as [r|] eqn:Hl.
  - apply last_filter_keep; [done|]. apply negb_true_iff, bool_decide_eq_false.
    intros (q & Hq & Hin%expired_sub)%list_elem_of_fmap.
    apply (latest_not_superseded file_id rows r Hnd Hl). rewrite Hq. by apply list_elem_of_fmap_2.
  - apply last_None in Hl. by rewrite Hl.
Qed.

Lemma spec_prune_latest now policy t file_id :
  NoDup (transitions_id <$> t_transitions t) →
  let P t' := last (List.filter (of_file file_id) (t_transitions t'))
              = last (List.filter (of_file file_id) (t_transitions t)) in
  db_spec true t (sqlite_prune_old_file_transitions now policy) (λ _, P) P.
Proof.
  intros Hnd P. unfold sqlite_prune_old_file_transitions.
  destruct (RetentionPolicy_is_disabled policy).
  - apply (spec_bind _ _ _ _ (λ _, P)); [by apply spec_conn|]. intros u t1 HP1.
    apply (spec_bind _ _ _ _ (λ _, P)); [by apply spec_query|]. intros k t2 HP2. by apply spec_ret.
  - apply (spec_bind _ _ _ _ (λ _ t', t' = t)); [by apply spec_conn|]. intros _ ? ->.
    eapply (spec_bind _ _ _ _ (λ _, P)).
    + apply spec_execute; [|done]. unfold P. cbn [snd delete_rows put_transitions t_transitions].
      apply (prune_latest _ _ (t_transitions t) file_id Hnd).
    + intros n t1 HP1. eapply (spec_bind _ _ _ _ (λ _, P)); [by apply spec_query|].
      intros k t2 HP2. by apply spec_ret.
Qed.
End store.

(** * Listings of the store

    The pattern of a path prefix, and lists and counts of files. *)

(** ** Escaping *)
Abbreviation bytes := String.list_ascii_of_string.

Definition escape_byte (c : ascii) : list ascii :=
  if bool_decide (c ∈ ["\"%char; "%"%char; "_"%char]) then ["\"%char; c] else [c].

Lemma bytes_app s t : bytes (s +:+ t) = bytes s ++ bytes t.
Proof. induction s as [|c s IH]; [done|]. change (String c s +:+ t) with (String c (s +:+ t)). cbn. by rewrite IH. Qed.

Lemma bytes_replace c rep s :
  bytes (str_replace (String c "") rep s)
  = flat_map (λ d, if bool_decide (c = d) then bytes rep else [d]) (bytes s).
Proof.
  unfold str_replace. induction s as [|d s IH]; [done|]. cbn. rewrite andb_true_r.
  case_bool_decide; [by rewrite bytes_app, IH|]. cbn. by rewrite IH.
Qed.

Lemma flat_map_flat_map {A B C} (f : A → list B) (g : B → list C) l :
  flat_map g (flat_map f l) = flat_map (λ x, flat_map g (f x)) l.
Proof. induction l as [|x l IH]; [done|]. cbn. by rewrite flat_map_app, IH. Qed.

Lemma bytes_escape s : bytes (escape_like s) = flat_map escape_byte (bytes s).
Proof.
  unfold escape_like. rewrite !bytes_replace, !flat_map_flat_map. apply flat_map_ext. intros c.
  unfold escape_byte. destruct (decide (c ∈ ["\"%char; "%"%char; "_"%char])) as [Hc|Hc].
  - repeat (apply elem_of_cons in Hc as [->|Hc]; [reflexivity|]). by apply elem_of_nil in Hc.
  - rewrite (bool_decide_false (c ∈ _)) by done. rewrite !not_elem_of_cons in Hc. destruct Hc as (H1 & H2 & H3 & _).
    rewrite bool_decide_false by auto. cbn. rewrite bool_decide_false by auto. cbn.
    by rewrite bool_decide_false by auto.
Qed.

(** ** Matching *)
Lemma sql_like_any value : sql_like ["%"%char] value = true.
Proof.
  cbn. rewrite bool_decide_true by done. induction value as [|c value IH]; [done|].
  rewrite IH. apply orb_true_r.
Qed.

Lemma sql_like_escaped c pattern value :
  sql_like (escape_byte c ++ pattern) value
  = match value with
    | [] => false
    | d :: value => bool_decide (ascii_lower c = ascii_lower d) && sql_like pattern value
    end.
Proof.
  unfold escape_byte. case_bool_decide as Hc.
  - destruct value as [|d value]; reflexivity.
  - rewrite !not_elem_of_cons in Hc. destruct Hc as (H1 & H2 & H3 & _). cbn.
    rewrite !bool_decide_false by done. done.
Qed.

Lemma like_prefix_spec prefix value :
  like_prefix prefix value = starts_with (to_ascii_lowercase prefix) (to_ascii_lowercase value).
Proof.
  unfold like_prefix. rewrite bytes_app, bytes_escape.
  revert value. induction prefix as [|c prefix IH]; intros value.
  { cbn [bytes String.list_ascii_of_string flat_map app]. apply sql_like_any. }
  change (bytes (String c prefix)) with (c :: bytes prefix). cbn [flat_map].
  rewrite <-app_assoc, sql_like_escaped. destruct value as [|d value]; [done|].
  change (bytes (String d value)) with (d :: bytes value). cbv beta iota. rewrite (IH value). done.
Qed.

(** ** Lists and counts *)
Section lists.
Context `{Chrono} `{UuidText} `{Sqlite} `{Unicode} `{SnapshotJson} `{RootsJson} `{MapsJson}.

Lemma matching_ids_NoDup filters t :
  unique_rows (t_files t) → NoDup (files_id <$> matching_files filters t).
Proof. intros Hu. by apply unique_filter. Qed.

Lemma remove_dups_NoDup {A} `{EqDecision A} (l : list A) : NoDup l → remove_dups l = l.
Proof.
  induction 1 as [|x l Hx _ IH]; [done|]. cbn.
  destruct (decide_rel _ x l); [done|]. by rewrite IH.
Qed.

Lemma spec_count filters t :
  unique_rows (t_files t) →
  db_spec false t (sqlite_count_files filters)
    (λ n t', t' = t ∧ n = N.of_nat (length (matching_files filters t))) (λ _, False).
Proof.
  intros Hu. eapply spec_weaken; [apply (spec_on_conn false False)|by intros a t2 Ha; exact Ha|by intros ? [? _]]; [done|].
  apply spec_query; [|done]. split; [done|].
  by rewrite remove_dups_NoDup, length_fmap by (by apply matching_ids_NoDup).
Qed.

Lemma try_map_length {E A B} (f : A → result E B) l ys : try_map f l = Ok ys → length ys = length l.
Proof. intros Hl. apply try_map_Ok_Forall2 in Hl. by apply Forall2_length in Hl. Qed.


Lemma spec_load_chunks id_chunks :
  ∀ result t, db_spec true t (load_track_chunks id_chunks result) (λ _ t', t' = t) (λ _, True).
Proof.
  induction id_chunks as [|chunk id_chunks IH]; intros result t; cbn; [by apply spec_ret|].
  do 3 (apply bind_query; [done|]). apply bind_lift. destruct (read_track_rows _ _); [apply IH|done].
Qed.

(** A list that is answered has one file per row of its page. *)
Lemma spec_list filters t :
  db_spec true t (sqlite_list_files filters)
    (λ files t', t' = t ∧ ∃ page,
       paginate (FileFilters_limit filters) (FileFilters_offset filters)
         (order_by path_leb (matching_files filters t)) = Ok page ∧
       length files = length page) (λ _, True).
Proof.
  apply (spec_bind _ _ _ _ (λ _ t', t' = t)); [by apply spec_conn|]. intros _ ? ->.
  apply bind_query; [done|]. destruct (paginate _ _ _) as [page|] eqn:Hpage; [|done].
  do 2 (apply bind_query; [done|]). destruct (try_map row_to_file page) as [rows|] eqn:Hrows; [|done].
  apply bind_lift. destruct (try_map _ rows) as [ids|] eqn:Hids; [|done].
  eapply spec_bind; [apply spec_load_chunks|]. intros m ? ->. apply spec_lift.
  destruct (to_media_files m (zip rows ids)) as [files|] eqn:Hfiles; [|done]. split; [done|].
  exists page. split; [done|]. apply try_map_length in Hrows, Hids, Hfiles.
  rewrite Hfiles, length_zip_with. lia.
Qed.
End lists.
