(* ===== verification/MkvExecutor.v ===== *)
(** * Command lines of the MKVToolNix executor

    [plugins/mkvtoolnix-executor/src/merge.rs] and [propedit.rs]: the arguments
    of [mkvmerge] and [mkvpropedit]. Track numbers are [u32]; [idx + 1] wraps. *)
From S2P Require Import Prelude Json Media Plan CapabilityMap Codecs Events Kernel Process.

(** ** [merge.rs] *)
Definition determine_final_path (original : PathBuf) (actions : list PlannedAction) : PathBuf :=
  if existsb (λ a, bool_decide (PlannedAction_operation a = Op_ConvertContainer)) actions
  then path_set_extension original "mkv" else original.

(** The three lists of removed tracks. *)
Record Removes : Type := {
  video_removes : list u32;
  audio_removes : list u32;
  subtitle_removes : list u32;
}.

Definition no_removes : Removes :=
  {| video_removes := []; audio_removes := []; subtitle_removes := [] |}.

Definition push_removes (category : string) (idx : u32) (r : Removes) : Removes :=
  let on := λ name l,
    if bool_decide (category = name) ||
       negb (bool_decide (category ∈ ["video"; "audio"; "subtitle"]))
    then l ++ [idx] else l in
  {| video_removes := on "video" (video_removes r);
     audio_removes := on "audio" (audio_removes r);
     subtitle_removes := on "subtitle" (subtitle_removes r) |}.

(** One action in the pass that groups removals by type; an attachment goes to
    all three lists. *)
Definition group_removal (r : Removes) (action : PlannedAction) : Removes :=
  if bool_decide (PlannedAction_operation action = Op_RemoveTrack) then
    match PlannedAction_track_index action, PlannedAction_parameters action with
    | Some idx, AP_RemoveTrack _ track_type =>
        push_removes (TrackType_track_category track_type) idx r
    | _, _ => r
    end
  else r.

Definition removal_args (option_name : string) (ids : list u32) : list string :=
  match ids with
  | [] => []
  | _ => [option_name; "!" +:+ str_join "," (pretty <$> ids)]
  end.

Definition order_args (action : PlannedAction) : list string :=
  if bool_decide (PlannedAction_operation action = Op_ReorderTracks) then
    match PlannedAction_parameters action with
    | AP_ReorderTracks order =>
        let track_order := (λ idx : N, "0:" +:+ pretty idx) <$> omap (parse_unsigned u64_MAX) order in
        match track_order with
        | [] => []
        | _ => ["--track-order"; str_join "," track_order]
        end
    | _ => []
    end
  else [].

Definition build_merge_args `{Unicode} (input_path output_path : PathBuf)
    (actions : list PlannedAction) : list string :=
  let r := foldl group_removal no_removes actions in
  ["-o"; to_string_lossy output_path] ++
  removal_args "--video-tracks" (video_removes r) ++
  removal_args "--audio-tracks" (audio_removes r) ++
  removal_args "--subtitle-tracks" (subtitle_removes r) ++
  (actions ≫= order_args) ++
  [to_string_lossy input_path].

(** ** [propedit.rs] *)
Definition is_segment_info_property `{Unicode} (name : string) : bool :=
  bool_decide (to_lowercase name ∈
    ["title"; "date"; "segment-uid"; "prev-uid"; "next-uid"; "segment-filename"; "prev-filename";
     "next-filename"; "muxing-application"; "writing-application"]).

(** [format!("track:{}", idx + 1)] *)
Definition track_selector (idx : u32) : string :=
  "track:" +:+ pretty (((idx + 1) mod 4294967296)%N).

Definition edit_track (idx : u32) (setting : string) : list string :=
  ["--edit"; track_selector idx; "--set"; setting].

Definition push_track_flag (action : PlannedAction) (flag_value : string) : list string :=
  match PlannedAction_track_index action with
  | Some idx => edit_track idx flag_value
  | None => []
  end.

(** What one action adds to the arguments. *)
Definition propedit_args_of `{Unicode} (action : PlannedAction) : result VoomError (list string) :=
  match PlannedAction_operation action with
  | Op_SetDefault => Ok (push_track_flag action "flag-default=1")
  | Op_ClearDefault => Ok (push_track_flag action "flag-default=0")
  | Op_SetForced => Ok (push_track_flag action "flag-forced=1")
  | Op_ClearForced => Ok (push_track_flag action "flag-forced=0")
  | Op_SetTitle =>
      match PlannedAction_track_index action with
      | Some idx =>
          let title := match PlannedAction_parameters action with
                       | AP_Title title => title
                       | _ => ""
                       end in
          _ ← validate_metadata_value title;
          Ok (edit_track idx ("name=" +:+ title))
      | None => Ok []
      end
  | Op_SetLanguage =>
      match PlannedAction_track_index action with
      | Some idx =>
          let language := match PlannedAction_parameters action with
                          | AP_Language language => language
                          | _ => "und"
                          end in
          _ ← validate_metadata_value language;
          Ok (edit_track idx ("language=" +:+ language))
      | None => Ok []
      end
  | Op_SetContainerTag =>
      let '(tag, value) := match PlannedAction_parameters action with
                           | AP_SetTag tag value => (tag, value)
                           | _ => ("title", "")
                           end in
      if is_segment_info_property tag then
        _ ← validate_metadata_value tag;
        _ ← validate_metadata_value value;
        Ok ["--edit"; "info"; "--set"; tag +:+ "=" +:+ value]
      else Ok []
  | Op_ClearContainerTags => Ok ["--tags"; "all:"]
  | Op_DeleteContainerTag =>
      let tag := match PlannedAction_parameters action with
                 | AP_DeleteTag tag => tag
                 | _ => ""
                 end in
      if is_segment_info_property tag then
        _ ← validate_metadata_value tag;
        Ok ["--edit"; "info"; "--delete"; tag]
      else Ok []
  | _ => Ok []
  end.

Definition build_propedit_args `{Unicode} (path : PathBuf) (actions : list PlannedAction)
    : result VoomError (list string) :=
  argss ← try_map propedit_args_of actions;
  Ok (to_string_lossy path :: concat argss).

(** ** [lib.rs]: which operations go where *)
Definition MERGE_OPS : list OperationType :=
  [Op_RemoveTrack; Op_ReorderTracks; Op_ConvertContainer].

Definition is_merge_op (op : OperationType) : bool := bool_decide (op ∈ MERGE_OPS).

Definition is_supported_op (op : OperationType) : bool :=
  OperationType_is_metadata_op op || is_merge_op op || bool_decide (op = Op_MuxSubtitle).

Definition classify_actions (actions : list PlannedAction)
    : list PlannedAction * list PlannedAction :=
  (List.filter (λ a, OperationType_is_metadata_op (PlannedAction_operation a)) actions,
   List.filter (λ a, negb (OperationType_is_metadata_op (PlannedAction_operation a))
                     && is_merge_op (PlannedAction_operation a)) actions).

(** The arguments of [execute_mux_subtitle]. *)
Definition mux_subtitle_args `{Unicode} (path tmp subtitle_path : PathBuf) (language : string)
    (forced : bool) (title : option string) : list string :=
  ["-o"; to_string_lossy tmp; "--language"; "0:" +:+ language;
   "--forced-display-flag"; if forced then "0:1" else "0:0"] ++
  match title with Some t => ["--track-name"; "0:" +:+ t] | None => [] end ++
  [to_string_lossy path; to_string_lossy subtitle_path].

(** * The MKVToolNix executor

    [plugins/mkvtoolnix-executor/src/lib.rs], [merge.rs] and [propedit.rs]: the
    execution of plans over files, child processes and the mutation store, and
    the plugin. The identifier of a temporary file, the time a command takes and
    the time of a record are inputs. *)

(** Inputs of one command: identifier of the temporary file, duration, time. *)
Record ExecInput : Type := {
  in_temp_id : string;
  in_duration_ms : u64;
  in_recorded_at : DateTime;
}.

(** The plugin: whether [mkvmerge] was found, and whether there is a store. *)
Record MkvtoolnixExecutor : Type := {
  Mkv_available : bool;
  Mkv_has_store : bool;
}.

Section executor.
Context {S : Type} `{MutationStorage S} `{Children} `{Unicode}.
Context (to_str : string → option string).

Definition mkv_error (tool message : string) : VoomError := VoomError_ToolExecution tool message.

Definition file_not_found (tool : string) (path : PathBuf) : VoomError :=
  mkv_error tool ("file not found: " +:+ to_string_lossy path).

(** ** [merge.rs] *)

(** [output.status.code().unwrap_or(2) <= 1] *)
Definition merge_succeeded (o : Output) : bool :=
  (default 2 (ExitStatus_code (Output_status o)) <=? 1)%Z.

Definition execution_detail (inp : ExecInput) (command : string) (o : Output) : ExecutionDetail :=
  {| ExecutionDetail_command := command;
     ExecutionDetail_exit_code := ExitStatus_code (Output_status o);
     ExecutionDetail_stderr_tail := stderr_tail (Output_stderr o) 20;
     ExecutionDetail_duration_ms := in_duration_ms inp |}.

(** The results of the actions after a successful command. *)
Definition succeeded (detail : ExecutionDetail) (actions : list PlannedAction) : list ActionResult :=
  (λ a, ActionResult_with_execution_detail
          (ActionResult_new_success (PlannedAction_operation a) (PlannedAction_description a))
          detail) <$> actions.

(** Putting the temporary file in place: record the mutation, rename, remove
    the original if its name has changed. *)
Definition replace_original (has_store : bool) (inp : ExecInput) (scan_session : option Uuid)
    (path temp_path final_path : PathBuf) : Io S unit :=
  io_bind (record_mutation_for_pending_write has_store (in_recorded_at inp) scan_session path
             final_path) (λ _ w,
  match fs_rename temp_path final_path w with
  | (Err e, w') =>
      (Err (mkv_error "mkvmerge"
              ("failed to rename " +:+ to_string_lossy temp_path +:+ " to "
               +:+ to_string_lossy final_path +:+ ": " +:+ e)), w')
  | (Ok _, w') =>
      (Ok tt, if negb (path_eqb final_path path) && fs_exists path w'
              then remove_quietly path w' else w')
  end).

Definition execute_merge_actions (has_store : bool) (inp : ExecInput)
    (scan_session : option Uuid) (path : PathBuf) (actions : list PlannedAction)
    : Io S (list ActionResult) := λ w,
  match actions with
  | [] => (Ok [], w)
  | first :: _ =>
      if negb (fs_exists path w) then (Err (file_not_found "mkvmerge" path), w)
      else
        let temp_path := temp_path_with_ext to_str (in_temp_id inp) path "mkv" in
        let args := build_merge_args path temp_path actions in
        let command_str := shell_quote_args "mkvmerge" args in
        with_temp_guard temp_path
          (io_bind (run_with_timeout "mkvmerge" args 1800) (λ output,
           let detail := execution_detail inp command_str output in
           if merge_succeeded output then
             io_bind (replace_original has_store inp scan_session path temp_path
                        (determine_final_path path actions)) (λ _,
             io_ret (succeeded detail actions, true))
           else
             let error_msg :=
               "mkvmerge exited with status "
               +:+ ExitStatus_to_string (Output_status output) +:+ ":" +:+ newline_str
               +:+ stderr_tail (Output_stderr output) 20 +:+ newline_str +:+ "cmd: "
               +:+ command_str in
             io_ret ([ActionResult_with_execution_detail
                        (ActionResult_new_failure (PlannedAction_operation first)
                           (PlannedAction_description first) error_msg) detail], false))) w
  end.

(** ** [propedit.rs] *)
Definition execute_propedit_actions (path : PathBuf) (actions : list PlannedAction)
    : Io S (list ActionResult) := λ w,
  match actions with
  | [] => (Ok [], w)
  | _ =>
      io_bind (io_lift (build_propedit_args path actions)) (λ args,
      io_bind (run_with_timeout "mkvpropedit" args 300) (λ output,
      if ExitStatus_success (Output_status output) then
        io_ret ((λ a, ActionResult_new_success (PlannedAction_operation a)
                        (PlannedAction_description a)) <$> actions)
      else
        io_err (mkv_error "mkvpropedit"
          ("mkvpropedit exited with status " +:+ ExitStatus_to_string (Output_status output)
           +:+ ": " +:+ to_string_lossy (Output_stderr output))))) w
  end.

(** ** [lib.rs] *)

(** [o.status.success() || o.status.code() == Some(1)] *)
Definition mux_succeeded (o : Output) : bool :=
  ExitStatus_success (Output_status o) || bool_decide (ExitStatus_code (Output_status o) = Some 1%Z).

Definition replace_muxed (has_store : bool) (inp : ExecInput) (scan_session : option Uuid)
    (path tmp : PathBuf) : Io S unit :=
  io_bind (record_mutation_for_pending_write has_store (in_recorded_at inp) scan_session path path)
    (λ _ w,
     match fs_rename tmp path w with
     | (Err e, w') => (Err (mkv_error "mkvmerge" ("failed to rename temp file: " +:+ e)), w')
     | (Ok _, w') => (Ok tt, w')
     end).

Definition execute_mux_subtitle (has_store : bool) (inp : ExecInput) (plan : Plan)
    (action : PlannedAction) : Io S (list ActionResult) := λ w,
  let path := MediaFile_path (Plan_file plan) in
  match PlannedAction_parameters action with
  | AP_MuxSubtitle subtitle_path language forced title =>
      if negb (is_valid_language language) then
        (Err (mkv_error "mkvmerge"
                ("invalid ISO 639 language code: " +:+ dquote +:+ language +:+ dquote)), w)
      else
        let tmp := temp_path_with_ext to_str (in_temp_id inp) path "mkv" in
        let args := mux_subtitle_args path tmp subtitle_path language forced title in
        let command_str := shell_quote_args "mkvmerge" args in
        with_temp_guard tmp (λ w,
          match run_with_timeout "mkvmerge" args 120 w with
          | (Ok o, w') =>
              let detail := execution_detail inp command_str o in
              let result := λ r, [ActionResult_with_execution_detail r detail] in
              if mux_succeeded o then
                io_bind (replace_muxed has_store inp (Plan_scan_session plan) path tmp) (λ _,
                  io_ret (result (ActionResult_new_success (PlannedAction_operation action)
                                    (PlannedAction_description action)), true)) w'
              else
                let tail := stderr_tail (Output_stderr o) 20 in
                let display_tail := if bool_decide (tail = "") then "(no output)" else tail in
                let error_msg :=
                  "mkvmerge failed (exit "
                  +:+ pretty (default (-1)%Z (ExitStatus_code (Output_status o))) +:+ "):"
                  +:+ newline_str +:+ display_tail +:+ newline_str +:+ "cmd: " +:+ command_str in
                (Ok (result (ActionResult_new_failure (PlannedAction_operation action)
                               (PlannedAction_description action) error_msg), false), w')
          | (Err e, w') =>
              (Err (mkv_error "mkvmerge"
                      ("mkvmerge subtitle mux failed: " +:+ VoomError_to_string e)), w')
          end) w
  | _ => (Err (mkv_error "mkvmerge" "expected MuxSubtitle params"), w)
  end.

(** The loop over the subtitles to mux; [inputs i] are those of the [i]-th
    command. *)
Fixpoint execute_mux_subtitles (has_store : bool) (inputs : nat → ExecInput) (plan : Plan)
    (i : nat) (actions : list PlannedAction) : Io S (list ActionResult) :=
  match actions with
  | [] => io_ret []
  | a :: actions =>
      io_bind (execute_mux_subtitle has_store (inputs i) plan a) (λ rs,
      io_bind (execute_mux_subtitles has_store inputs plan (Datatypes.S i) actions) (λ rs',
      io_ret (rs ++ rs')))
  end.

Definition is_mux_subtitle (a : PlannedAction) : bool :=
  bool_decide (PlannedAction_operation a = Op_MuxSubtitle).

Definition execute_plan (has_store : bool) (inputs : nat → ExecInput) (plan : Plan)
    : Io S (list ActionResult) := λ w,
  let path := MediaFile_path (Plan_file plan) in
  if negb (fs_exists path w) then (Err (file_not_found "mkvtoolnix" path), w)
  else if existsb is_mux_subtitle (Plan_actions plan) then
    execute_mux_subtitles has_store inputs plan 0
      (List.filter is_mux_subtitle (Plan_actions plan)) w
  else
    let '(propedit_actions, merge_actions) := classify_actions (Plan_actions plan) in
    let merge := execute_merge_actions has_store (inputs 0) (Plan_scan_session plan) path
                   merge_actions in
    let is_mkv := bool_decide (MediaFile_container (Plan_file plan) = Container_Mkv) in
    if is_mkv || match merge_actions with [] => true | _ => false end then
      io_bind (execute_propedit_actions path propedit_actions) (λ rs,
      io_bind merge (λ rs', io_ret (rs ++ rs'))) w
    else
      io_bind merge (λ rs,
      io_bind (execute_propedit_actions (path_set_extension path "mkv") propedit_actions) (λ rs',
      io_ret (rs ++ rs'))) w.

Definition can_handle (available : bool) (plan : Plan) : bool :=
  let is_mkv := bool_decide (MediaFile_container (Plan_file plan) = Container_Mkv) in
  let is_convert_to_mkv :=
    existsb (λ a, bool_decide (PlannedAction_operation a = Op_ConvertContainer) &&
                  match PlannedAction_parameters a with
                  | AP_Container c => bool_decide (c = Container_Mkv)
                  | _ => false
                  end) (Plan_actions plan) in
  available && (is_mkv || is_convert_to_mkv)
  && forallb (λ a, is_supported_op (PlannedAction_operation a)) (Plan_actions plan).
(** ** The plugin

    [stamps] are the identifiers and times of new files and plans, [inputs]
    those of commands. *)
Context `{ActionResultsJson}.
Context (stamps : World S → Stamp * Stamp) (inputs : World S → nat → ExecInput).

Definition MKVTOOLNIX_FORMATS : list string :=
  ["ass"; "avi"; "flac"; "flv"; "matroska"; "mov"; "mp4"; "mpeg"; "ogm"; "srt"; "ssa"; "wav";
   "webm"].

Definition mkv_name : string := "mkvtoolnix-executor".

Definition Mkv_capabilities (self : MkvtoolnixExecutor) : list Capability :=
  if Mkv_available self
  then [Capability_Execute (OperationType_METADATA_OPS ++ MERGE_OPS) ["mkv"]] else [].

Definition Mkv_handles (event_type : string) : bool :=
  bool_decide (event_type = "plan.created" ∨ event_type = "subtitle.generated").

Definition handle_plan_created (self : MkvtoolnixExecutor) (plan : Plan) (w : World S)
    : handler (option EventResult) * World S :=
  if Plan_is_empty plan || Plan_is_skipped plan then (Returned (Ok None), w)
  else if negb (can_handle (Mkv_available self) plan) then (Returned (Ok None), w)
  else
    let '(outcome, w') := execute_plan (Mkv_has_store self) (inputs w) plan w in
    (Returned (Ok (Some (EventResult_from_plan_execution mkv_name outcome))), w').

Definition invalid_metadata (what : string) (r : result VoomError string)
    : result VoomError string :=
  match r with
  | Ok v => Ok v
  | Err e => Err (mkv_error "mkvmerge" ("invalid " +:+ what +:+ ": " +:+ VoomError_to_string e))
  end.

(** [file.container = c] *)
Definition MediaFile_set_container (f : MediaFile) (c : Container) : MediaFile := {|
  MediaFile_id := MediaFile_id f;
  MediaFile_path := MediaFile_path f;
  MediaFile_size := MediaFile_size f;
  MediaFile_content_hash := MediaFile_content_hash f;
  MediaFile_expected_hash := MediaFile_expected_hash f;
  MediaFile_status := MediaFile_status f;
  MediaFile_container := c;
  MediaFile_duration := MediaFile_duration f;
  MediaFile_bitrate := MediaFile_bitrate f;
  MediaFile_tracks := MediaFile_tracks f;
  MediaFile_tags := MediaFile_tags f;
  MediaFile_plugin_metadata := MediaFile_plugin_metadata f;
  MediaFile_crop_detection := MediaFile_crop_detection f;
  MediaFile_introspected_at := MediaFile_introspected_at f;
|}.

(** The plan that muxes the subtitle of an event. *)
Definition subtitle_plan (file_stamp plan_stamp : Stamp) (e : SubtitleGeneratedEvent)
    : result string Plan :=
  let file := MediaFile_set_container
                (MediaFile_new (Stamp_id file_stamp) (Stamp_now file_stamp)
                   (SubtitleGeneratedEvent_path e)) Container_Mkv in
  let plan := Plan_new plan_stamp file "subtitle-mux" "subtitle_mux" in
  action ← PlannedAction_try_file_op Op_MuxSubtitle
             (AP_MuxSubtitle (SubtitleGeneratedEvent_subtitle_path e)
                (SubtitleGeneratedEvent_language e) (SubtitleGeneratedEvent_forced e)
                (SubtitleGeneratedEvent_title e)) "Mux subtitle into container";
  Ok {| Plan_id := Plan_id plan;
        Plan_file := file;
        Plan_policy_name := Plan_policy_name plan;
        Plan_phase_name := Plan_phase_name plan;
        Plan_actions := [action];
        Plan_warnings := [];
        Plan_safeguard_violations := [];
        Plan_skip_reason := None;
        Plan_policy_hash := None;
        Plan_evaluated_at := Plan_evaluated_at plan;
        Plan_executor_hint := None;
        Plan_session_id := None;
        Plan_scan_session := SubtitleGeneratedEvent_scan_session e |}.

(** [PlanExecuting] comes before [PlanCreated]. *)
Definition subtitle_events (e : SubtitleGeneratedEvent) (plan : Plan) : EventResult := {|
  EventResult_plugin_name := mkv_name;
  EventResult_produced_events :=
    [Event_PlanExecuting {| PlanExecutingEvent_plan_id := Plan_id plan;
                            PlanExecutingEvent_path := SubtitleGeneratedEvent_path e;
                            PlanExecutingEvent_phase_name := "subtitle_mux";
                            PlanExecutingEvent_action_count := 1 |};
     Event_PlanCreated {| PlanCreatedEvent_plan := plan |}];
  EventResult_data := None;
  EventResult_claimed := true;
  EventResult_execution_error := None;
  EventResult_execution_detail := None;
|}.

Definition handle_subtitle_generated (self : MkvtoolnixExecutor) (e : SubtitleGeneratedEvent)
    (w : World S) : handler (option EventResult) :=
  let ext := default "" (path_extension (SubtitleGeneratedEvent_path e) ≫= to_str) in
  if negb (Mkv_available self) then Returned (Ok None)
  else if negb (bool_decide (Container_from_extension ext = Container_Mkv)) then Returned (Ok None)
  else
    match invalid_metadata "language"
            (validate_metadata_value (SubtitleGeneratedEvent_language e)) with
    | Err err => Returned (Err err)
    | Ok _ =>
        match try_opt (λ t, invalid_metadata "title" (validate_metadata_value t))
                (SubtitleGeneratedEvent_title e) with
        | Err err => Returned (Err err)
        | Ok _ =>
            match subtitle_plan (stamps w).1 (stamps w).2 e with
            | Ok plan => Returned (Ok (Some (subtitle_events e plan)))
            | Err _ => Panicked
            end
        end
    end.

Definition Mkv_on_event (self : MkvtoolnixExecutor) (event : Event) (w : World S)
    : handler (option EventResult) * World S :=
  match event with
  | Event_PlanCreated e => handle_plan_created self (PlanCreatedEvent_plan e) w
  | Event_SubtitleGenerated e => (handle_subtitle_generated self e w, w)
  | _ => (Returned (Ok None), w)
  end.

(** [init]: look for [mkvmerge]; announce what it can read. *)
Definition Mkv_init (self : MkvtoolnixExecutor) (w : World S)
    : (MkvtoolnixExecutor * list Event) * World S :=
  let '(available, w') := probe_tool_status "mkvmerge" ["--version"] 10 w in
  ({| Mkv_available := available; Mkv_has_store := Mkv_has_store self |},
   if available then
     [Event_ExecutorCapabilities
        {| ECE_plugin_name := mkv_name;
           ECE_codecs := {| CodecCapabilities_decoders := []; CodecCapabilities_encoders := [];
                            CodecCapabilities_hw_decoders := [];
                            CodecCapabilities_hw_encoders := [] |};
           ECE_formats := MKVTOOLNIX_FORMATS;
           ECE_hw_accels := [];
           ECE_parallel_limits := [] |}]
   else [], w').

Definition MkvtoolnixPlugin (self : MkvtoolnixExecutor) : Plugin (World S) := {|
  Plugin_name := mkv_name;
  Plugin_capabilities := Mkv_capabilities self;
  Plugin_handles := Mkv_handles;
  Plugin_on_event := Mkv_on_event self;
  Plugin_on_call _ w :=
    (Returned (Err (VoomError_plugin mkv_name
       "plugin does not handle calls (no on_call override)")), w);
  Plugin_shutdown w := (Returned (Ok tt), w);
|}.
End executor.
