(* ===== verification/MkvFacts.v ===== *)
(** * Facts about the MKVToolNix executor

    The command line read back as [mkvmerge] documents it, and the effect of a
    merge on the files. *)
From S2P Require Import Prelude Json Media Plan Compiled CapabilityMap Condition Evaluator.
From S2P Require Import EmitFacts PhaseFacts Codecs Events Kernel Process MkvExecutor.

(** ** Decimal numbers read back *)
Lemma decimal_value_pretty_go x s : decimal_value 0 (pretty_N_go x s) = decimal_value x s.
Proof.
  revert s. induction (N.lt_wf_0 x) as [x _ IH]; intros s.
  destruct (decide (x = 0)%N) as [->|Hx]; [by rewrite pretty_N_go_0|].
  rewrite pretty_N_go_step by lia. rewrite IH by (apply N.div_lt; lia).
  cbn [decimal_value].
  assert (x mod 10 < 10)%N as Hm by (apply N.mod_lt; lia).
  assert (is_ascii_digit (pretty_N_char (x mod 10)) = true ∧
          N.of_nat (nat_of_ascii (pretty_N_char (x mod 10)) - 48) = (x mod 10)%N) as [-> ->].
  { generalize dependent (x mod 10)%N. intros d Hd.
    assert (d ∈ [0; 1; 2; 3; 4; 5; 6; 7; 8; 9])%N as Hin.
    { rewrite !elem_of_cons. lia. }
    revert d Hd Hin. clear. intros d _ Hin.
    repeat (apply elem_of_cons in Hin as [->|Hin]; [by vm_compute|]).
    by apply elem_of_nil in Hin. }
  f_equal. pose proof (N.div_mod x 10). lia.
Qed.

Lemma decimal_value_pretty (n : N) : decimal_value 0 (pretty n) = Some n.
Proof.
  unfold pretty, pretty_N. case_decide as Hn; [by subst|]. by rewrite decimal_value_pretty_go.
Qed.

(** The first byte of a decimal text is a digit. *)
Lemma decimal_value_head c s v :
  decimal_value 0 (String c s) = Some v → is_ascii_digit c = true.
Proof. simpl. by destruct (is_ascii_digit c). Qed.

Lemma parse_unsigned_pretty (max n : N) : (n ≤ max)%N → parse_unsigned max (pretty n) = Some n.
Proof.
  intros Hle. pose proof (decimal_value_pretty n) as Hd. unfold parse_unsigned.
  destruct (pretty n) as [|c s] eqn:Hp.
  { injection Hd as <-. by vm_compute in Hp. }
  assert (bool_decide (c = ascii_of_nat 43) = false) as ->.
  { apply bool_decide_eq_false. apply decimal_value_head in Hd. intros ->. by vm_compute in Hd. }
  rewrite bool_decide_false by done. rewrite Hd. cbn. by rewrite (proj2 (N.leb_le _ _) Hle).
Qed.

(** ** The command line of [mkvmerge] *)

(** Every option of these commands takes one value; the input comes last. *)
Fixpoint mkvmerge_options (args : list string) : list (string * string) :=
  match args with
  | o :: v :: args => (o, v) :: mkvmerge_options args
  | _ => []
  end.

(** The tracks that a value [!1,2,..] excludes. *)
Definition excluded_ids (value : string) : list u32 :=
  match strip_prefix "!" value with
  | Some ids => omap (parse_unsigned u32_MAX) (split_on (ascii_of_nat 44) [] ids)
  | None => []
  end.

(** Track [idx] is dropped by option [name]. *)
Definition mkvmerge_excludes (args : list string) (name : string) (idx : u32) : bool :=
  existsb (λ ov, bool_decide (ov.1 = name ∧ idx ∈ excluded_ids ov.2)) (mkvmerge_options args).

Definition category_option (ty : TrackType) : option string :=
  if TrackType_is_video ty then Some "--video-tracks"
  else if TrackType_is_audio ty then Some "--audio-tracks"
  else if TrackType_is_subtitle ty then Some "--subtitle-tracks"
  else None.

Fixpoint no_byte (c : ascii) (s : string) : Prop :=
  match s with EmptyString => True | String d s => d ≠ c ∧ no_byte c s end.

Lemma decimal_no_byte c acc s v :
  is_ascii_digit c = false → decimal_value acc s = Some v → no_byte c s.
Proof.
  intros Hc. revert acc; induction s as [|d s IH]; intros acc Hd; [done|]. simpl in *.
  destruct (is_ascii_digit d) eqn:Hdd; [|done]. split; [congruence|by eapply IH].
Qed.

Lemma split_on_app sep cur a s :
  no_byte sep a → split_on sep cur (a +:+ s) = split_on sep (reverse (String.list_ascii_of_string a) ++ cur) s.
Proof.
  revert cur; induction a as [|c a IH]; intros cur Ha; [done|]. destruct Ha as [Hc Ha]. simpl.
  rewrite bool_decide_false by done. rewrite IH by done. f_equal.
  by rewrite reverse_cons, <-(assoc_L (++)).
Qed.

Lemma of_bytes_rev_reverse a : of_bytes_rev (reverse (String.list_ascii_of_string a)) = a.
Proof.
  unfold of_bytes_rev. rewrite reverse_involutive. apply String.string_of_list_ascii_of_string.
Qed.

(** Joining and splitting at a byte that does not occur. *)
Lemma split_on_join sep l :
  l ≠ [] → Forall (no_byte sep) l → split_on sep [] (str_join (String sep "") l) = l.
Proof.
  intros Hne Hl. induction Hl as [|a l Ha Hl IH]; [done|]. destruct l as [|b l].
  - simpl. rewrite <-(string_app_nil a) at 1. rewrite split_on_app by done.
    rewrite app_nil_r. cbn. by rewrite of_bytes_rev_reverse.
  - change (str_join (String sep "") (a :: b :: l))
      with (a +:+ (String sep "" +:+ str_join (String sep "") (b :: l))).
    rewrite split_on_app by done. rewrite app_nil_r.
    change (String sep "" +:+ str_join (String sep "") (b :: l))
      with (String sep (str_join (String sep "") (b :: l))).
    cbn [split_on]. rewrite bool_decide_true by done.
    rewrite of_bytes_rev_reverse. f_equal. by apply IH.
Qed.

Lemma excluded_ids_join (ids : list u32) :
  ids ≠ [] → Forall (λ i, (i ≤ u32_MAX)%N) ids →
  excluded_ids ("!" +:+ str_join "," (pretty <$> ids)) = ids.
Proof.
  intros Hne Hids. unfold excluded_ids.
  change ("!" +:+ str_join "," (pretty <$> ids)) with (String "!" (str_join "," (pretty <$> ids))).
  cbn [strip_prefix]. rewrite bool_decide_true by done. rewrite split_on_join.
  - clear Hne. induction Hids as [|i ids Hi Hids IH]; [done|]. cbn [fmap list_fmap omap list_omap].
    rewrite parse_unsigned_pretty by done. f_equal. exact IH.
  - by destruct ids.
  - apply Forall_fmap, Forall_forall. intros i _. simpl.
    eapply decimal_no_byte; [|apply decimal_value_pretty]. by vm_compute.
Qed.

(** ** What the options say *)
Definition removes_in (name : string) (r : Removes) : list u32 :=
  if bool_decide (name = "--video-tracks") then video_removes r
  else if bool_decide (name = "--audio-tracks") then audio_removes r
  else if bool_decide (name = "--subtitle-tracks") then subtitle_removes r
  else [].

Lemma removes_in_video r : removes_in "--video-tracks" r = video_removes r.
Proof. done. Qed.

Lemma removes_in_audio r : removes_in "--audio-tracks" r = audio_removes r.
Proof. done. Qed.

Lemma removes_in_subtitle r : removes_in "--subtitle-tracks" r = subtitle_removes r.
Proof. done. Qed.

Definition removes_of (name : string) (actions : list PlannedAction) : list u32 :=
  removes_in name (foldl group_removal no_removes actions).

Definition track_options : list string :=
  ["--video-tracks"; "--audio-tracks"; "--subtitle-tracks"].

Lemma track_options_cases name :
  name ∈ track_options →
  name = "--video-tracks" ∨ name = "--audio-tracks" ∨ name = "--subtitle-tracks".
Proof.
  unfold track_options. rewrite !elem_of_cons, elem_of_nil. naive_solver.
Qed.

Definition removal_option (name : string) (ids : list u32) : list (string * string) :=
  match ids with [] => [] | _ => [(name, "!" +:+ str_join "," (pretty <$> ids))] end.

Lemma options_removal name ids rest :
  mkvmerge_options (removal_args name ids ++ rest) = removal_option name ids ++ mkvmerge_options rest.
Proof. by destruct ids. Qed.

Lemma order_args_cases a : order_args a = [] ∨ ∃ v, order_args a = ["--track-order"; v].
Proof. unfold order_args. repeat case_match; eauto. Qed.

(** The other options are those of the order of tracks. *)
Lemma options_order actions rest :
  ∃ os, mkvmerge_options ((actions ≫= order_args) ++ rest) = os ++ mkvmerge_options rest ∧
        Forall (λ ov, ov.1 = "--track-order") os.
Proof.
  induction actions as [|a actions (os & Hos & Hf)]; [by exists []|].
  rewrite bind_cons, <-(assoc_L (++)). destruct (order_args_cases a) as [->|[v ->]].
  - by exists os.
  - exists (("--track-order", v) :: os). split; [cbn; by rewrite Hos | by constructor].
Qed.

Section excludes.
Context `{Unicode}.

Lemma removal_option_excludes name name' ids idx :
  Forall (λ i, (i ≤ u32_MAX)%N) ids →
  existsb (λ ov, bool_decide (ov.1 = name ∧ idx ∈ excluded_ids ov.2)) (removal_option name' ids) = true
  ↔ name' = name ∧ idx ∈ ids.
Proof.
  intros Hids. destruct ids as [|i ids].
  { simpl. split; [done|]. intros [_ H']. by apply elem_of_nil in H'. }
  unfold removal_option. cbn [existsb fst snd]. rewrite excluded_ids_join by done.
  rewrite orb_false_r, bool_decide_eq_true. done.
Qed.

(** Reading the command line back gives the three lists. *)
Lemma mkvmerge_excludes_spec input output actions name idx :
  name ∈ track_options →
  (∀ n, Forall (λ i, (i ≤ u32_MAX)%N) (removes_of n actions)) →
  mkvmerge_excludes (build_merge_args input output actions) name idx = true ↔
  idx ∈ removes_of name actions.
Proof.
  intros Hname Hids. unfold mkvmerge_excludes, build_merge_args.
  change (["-o"; to_string_lossy output] ++ ?l) with ("-o" :: to_string_lossy output :: l).
  cbn [mkvmerge_options]. rewrite !options_removal.
  destruct (options_order actions [to_string_lossy input]) as (os & -> & Hos).
  assert (existsb (λ ov, bool_decide (ov.1 = name ∧ idx ∈ excluded_ids ov.2))
            (os ++ mkvmerge_options [to_string_lossy input]) = false) as Hrest.
  { rewrite app_nil_r. apply not_true_iff_false. rewrite existsb_exists.
    intros (ov & Hin & [Hn _]%bool_decide_eq_true).
    rewrite Forall_forall in Hos. apply list_elem_of_In, Hos in Hin. rewrite Hin in Hn.
    subst name. set_solver. }
  pose proof (Hids "--video-tracks") as Hv. pose proof (Hids "--audio-tracks") as Ha.
  pose proof (Hids "--subtitle-tracks") as Hs.
  cbn [existsb fst snd]. rewrite 3!existsb_app, Hrest.
  rewrite !orb_true_iff, !removal_option_excludes by done.
  rewrite bool_decide_eq_true. unfold removes_of. clear Hrest Hv Ha Hs Hids.
  destruct (track_options_cases name Hname) as [->|[->| ->]];
    rewrite ?removes_in_video, ?removes_in_audio, ?removes_in_subtitle; naive_solver.
Qed.
End excludes.

(** ** Which tracks are in the lists *)
Definition removes_track (name : string) (idx : u32) (a : PlannedAction) : Prop :=
  PlannedAction_operation a = Op_RemoveTrack ∧ PlannedAction_track_index a = Some idx ∧
  ∃ reason ty, PlannedAction_parameters a = AP_RemoveTrack reason ty ∧
               (category_option ty = Some name ∨ category_option ty = None).

(** The option [name] takes the removals of tracks of type [ty]. *)
Definition listed (name : string) (ty : TrackType) : bool :=
  bool_decide (category_option ty = Some name ∨ category_option ty = None).

Lemma push_removes_in name ty idx r :
  name ∈ track_options →
  removes_in name (push_removes (TrackType_track_category ty) idx r) =
  if listed name ty then removes_in name r ++ [idx] else removes_in name r.
Proof.
  intros [->|[->| ->]]%track_options_cases; by destruct ty; vm_compute.
Qed.

Lemma group_removal_spec name idx r a :
  name ∈ track_options →
  idx ∈ removes_in name (group_removal r a) ↔ idx ∈ removes_in name r ∨ removes_track name idx a.
Proof.
  intros Hname. unfold group_removal, removes_track.
  case_bool_decide as Hop; [|naive_solver].
  destruct (PlannedAction_track_index a) as [i|]; [|naive_solver].
  destruct (PlannedAction_parameters a) as [| |reason ty| | | | | | | | | | |]; try naive_solver.
  rewrite push_removes_in by done. unfold listed.
  case_bool_decide as Hl; rewrite ?elem_of_app, ?list_elem_of_singleton; naive_solver.
Qed.

Lemma removes_of_spec name idx actions :
  name ∈ track_options →
  idx ∈ removes_of name actions ↔ Exists (removes_track name idx) actions.
Proof.
  intros Hname. unfold removes_of.
  assert (∀ r, idx ∈ removes_in name (foldl group_removal r actions) ↔
               idx ∈ removes_in name r ∨ Exists (removes_track name idx) actions) as Hgen.
  { induction actions as [|a actions IH]; intros r; simpl.
    - rewrite Exists_nil. naive_solver.
    - rewrite IH, group_removal_spec, Exists_cons by done. naive_solver. }
  rewrite Hgen. split; [|by right]. intros [Hin|]; [|done].
  destruct (track_options_cases name Hname) as [->|[->| ->]]; by apply elem_of_nil in Hin.
Qed.

Definition action_index_ok (a : PlannedAction) : Prop :=
  match PlannedAction_track_index a with Some i => (i ≤ u32_MAX)%N | None => True end.

Lemma removes_of_bounded name actions :
  Forall action_index_ok actions → Forall (λ i, (i ≤ u32_MAX)%N) (removes_of name actions).
Proof.
  intros Hok. apply Forall_forall. intros i Hi.
  destruct (decide (name ∈ track_options)) as [Hname|Hname].
  - rewrite removes_of_spec in Hi by done. apply Exists_exists in Hi as (a & Ha & _ & Hidx & _).
    rewrite Forall_forall in Hok. specialize (Hok a Ha). unfold action_index_ok in Hok.
    by rewrite Hidx in Hok.
  - unfold removes_of, removes_in, track_options in *.
    repeat case_bool_decide; set_solver.
Qed.

Lemma classify_merge_elem a actions :
  PlannedAction_operation a = Op_RemoveTrack →
  a ∈ (classify_actions actions).2 ↔ a ∈ actions.
Proof.
  intros Hop. unfold classify_actions. cbn [snd]. rewrite filter_elem_of, Hop.
  split; [by intros [? _]|done].
Qed.

Lemma category_option_listed ty name : category_option ty = Some name → name ∈ track_options.
Proof. unfold category_option, track_options. repeat case_match; set_solver. Qed.

(** The command of a plan whose actions fit the file drops a track exactly if
    the plan removes it. *)
Lemma command_excludes_removed `{Unicode} file actions input output t name :
  Forall (action_ok file) actions →
  NoDup (Track_index <$> MediaFile_tracks file) →
  Forall (λ t, (Track_index t ≤ u32_MAX)%N) (MediaFile_tracks file) →
  t ∈ MediaFile_tracks file → category_option (Track_track_type t) = Some name →
  mkvmerge_excludes (build_merge_args input output (classify_actions actions).2) name
    (Track_index t) = negb (survives actions t).
Proof.
  intros Hok Hnd Hmax Ht Hcat. rewrite Forall_forall in Hok. rewrite Forall_forall in Hmax.
  assert (∀ a, a ∈ actions → PlannedAction_operation a = Op_RemoveTrack →
            ∀ i, PlannedAction_track_index a = Some i →
            ∃ t', t' ∈ MediaFile_tracks file ∧ Track_index t' = i ∧ ∃ reason,
              PlannedAction_parameters a = AP_RemoveTrack reason (Track_track_type t')) as Hrm.
  { intros a Ha Hop i Hi. destruct (Hok a Ha) as [Hwf Ha']. rewrite Hi in Ha'.
    destruct Ha' as (t' & ? & ? & Hta). exists t'. split_and!; [done..|]. rewrite Hop in Hta.
    unfold track_action_ok in Hta. destruct (PlannedAction_parameters a); naive_solver. }
  apply eq_iff_eq_true. rewrite negb_true_iff, <-not_true_iff_false, survives_spec.
  rewrite mkvmerge_excludes_spec.
  - rewrite removes_of_spec by (by eapply category_option_listed). rewrite Exists_exists. split.
    + intros (a & Ha & Hop & Hidx & _) Hs.
      by apply (Hs a); [apply (classify_merge_elem a actions Hop)| |].
    + intros Hs. destruct (decide (Exists (λ a, PlannedAction_operation a = Op_RemoveTrack ∧
        PlannedAction_track_index a = Some (Track_index t)) actions)) as [He|Hne].
      * apply Exists_exists in He as (a & Ha & Hop & Hidx). exists a.
        split; [by apply classify_merge_elem|]. split_and!; [done..|].
        destruct (Hrm a Ha Hop _ Hidx) as (t' & Ht' & Hi & reason & ->).
        assert (t' = t) as -> by (by eapply NoDup_fmap_inj_elem).
        eexists _, _. split; [done|]. by left.
      * exfalso. apply Hs. intros a Ha Hop Hidx. apply Hne, Exists_exists. eauto.
  - by eapply category_option_listed.
  - intros n. apply removes_of_bounded, Forall_forall. intros a Ha. unfold action_index_ok.
    destruct (PlannedAction_track_index a) as [i|] eqn:Hi; [|done].
    unfold classify_actions in Ha. cbn in Ha. apply filter_elem_of in Ha as [Ha _].
    destruct (Hok a Ha) as [_ Ha']. rewrite Hi in Ha'. destruct Ha' as (t' & ? & <- & _).
    by apply Hmax.
Qed.

(** ** The effect of a merge on the files *)

(** What [mkvmerge] documents: it writes the file given with [-o] only. *)
Class MkvmergeWrites `{Children} : Prop :=
  mkvmerge_writes out args files k :
    k ≠ path_key out →
    (run_child "mkvmerge" ("-o" :: out :: args) files).2 !! k = files !! k.

Definition all_succeeded (r : result VoomError (list ActionResult)) : bool :=
  match r with Ok rs => forallb ActionResult_success rs | Err _ => false end.

Section files.
Context {S : Type}.

(** Removing a file: the files without it, or the same files on a fault. *)
Lemma remove_quietly_cases p (w : World S) :
  w_store (remove_quietly p w) = w_store w ∧
  (w_files (remove_quietly p w) = delete (path_key p) (w_files w) ∨
   w_files (remove_quietly p w) = w_files w ∧ w_faults w ≠ []).
Proof.
  assert (∀ m : Files, ¬ is_Some (m !! path_key p) → m = delete (path_key p) m) as Hno.
  { intros m Hm. rewrite delete_id; [done|]. by apply eq_None_not_Some. }
  unfold remove_quietly, fs_remove, fs_call.
  destruct (w_faults w) as [|[e|] fs]; cbn; [|naive_solver|]; case_bool_decide; cbn; naive_solver.
Qed.

Lemma remove_quietly_frame p (w : World S) k :
  k ≠ path_key p → w_files (remove_quietly p w) !! k = w_files w !! k.
Proof.
  intros Hk. destruct (remove_quietly_cases p w) as [_ [->|[-> _]]]; [|done].
  by rewrite lookup_delete_ne.
Qed.

Lemma remove_quietly_gone p (w : World S) :
  w_faults w = [] → w_files (remove_quietly p w) !! path_key p = None.
Proof.
  intros Hf. destruct (remove_quietly_cases p w) as [_ [->|[_ ?]]]; [|done].
  by rewrite lookup_delete_eq.
Qed.

Lemma fs_rename_spec src dst (w : World S) :
  match fs_rename src dst w with
  | (Ok _, w') => ∃ content, w_files w !! path_key src = Some content ∧
      w_files w' = <[path_key dst := content]> (delete (path_key src) (w_files w)) ∧
      w_store w' = w_store w
  | (Err _, w') => w_files w' = w_files w ∧ w_store w' = w_store w
  end ∧ (w_faults w = [] → w_faults (fs_rename src dst w).2 = []).
Proof.
  unfold fs_rename, fs_call.
  destruct (w_faults w) as [|[e|] fs]; cbn; try done;
    destruct (w_files w !! path_key src) as [content|] eqn:Hc; cbn; naive_solver.
Qed.
End files.

Section merge.
Context {S : Type} `{MutationStorage S} `{Children} `{Unicode}.
Context (to_str : string → option string) (has_store : bool) (inp : ExecInput).
Context (scan_session : option Uuid).

Lemma record_mutation_files now session src dst (w : World S) :
  let w' := (record_mutation_for_pending_write has_store now session src dst w).2 in
  w_files w' = w_files w ∧ w_faults w' = w_faults w.
Proof.
  unfold record_mutation_for_pending_write. destruct session; [|done].
  destruct has_store; [|done]. cbn. by case_match.
Qed.

(** The mutation is on record. *)
Definition mutation_recorded (path final : PathBuf) (s s' : S) : Prop :=
  has_store = true → ∀ session, scan_session = Some session →
  ∃ m, Mutation_session m = session ∧ Mutation_path m = final ∧
       record_voom_mutation m s = (Ok tt, s').

Lemma record_mutation_recorded now path final (w w' : World S) :
  record_mutation_for_pending_write has_store now scan_session path final w = (Ok tt, w') →
  mutation_recorded path final (w_store w) (w_store w').
Proof.
  unfold record_mutation_for_pending_write, mutation_recorded. intros Hr -> session ->. cbn in Hr.
  destruct (record_voom_mutation _ _) as [[[]|e] s] eqn:Hm; [|done]. injection Hr as <-.
  eexists. split_and!; [| |exact Hm]; done.
Qed.

Lemma replace_original_spec path temp final (w : World S) :
  match replace_original has_store inp scan_session path temp final w with
  | (Ok _, w') =>
      (∃ content, w_files w !! path_key temp = Some content ∧
                  w_files w' !! path_key final = Some content) ∧
      (∀ k, k ≠ path_key temp → k ≠ path_key final → k ≠ path_key path →
            w_files w' !! k = w_files w !! k) ∧
      mutation_recorded path final (w_store w) (w_store w')
  | (Err _, w') => w_files w' = w_files w
  end ∧ ((∃ e, (replace_original has_store inp scan_session path temp final w).1 = Err e) →
         w_faults w = [] → w_faults (replace_original has_store inp scan_session path temp final w).2 = []).
Proof.
  unfold replace_original, io_bind.
  pose proof (record_mutation_files (in_recorded_at inp) scan_session path final w) as [Hf Hfa].
  pose proof (record_mutation_recorded (in_recorded_at inp) path final w) as Hrec.
  destruct (record_mutation_for_pending_write _ _ _ _ _ w) as [[[]|e] w1]; cbn in *;
    [|by rewrite Hf, Hfa].
  specialize (Hrec w1 eq_refl).
  pose proof (fs_rename_spec temp final w1) as [Hr Hrf].
  destruct (fs_rename temp final w1) as [[[]|e] w2]; cbn in *.
  - destruct Hr as (content & Hc & Hw2 & Hs). rewrite Hf in Hc, Hw2. split; [|by intros [e [=]]].
    destruct (negb (path_eqb final path) && fs_exists path w2) eqn:Hrm.
    + apply andb_true_iff in Hrm as [Hne _]. unfold path_eqb in Hne.
      rewrite negb_true_iff, bool_decide_eq_false in Hne.
      destruct (remove_quietly_cases path w2) as [Hst _].
      rewrite Hst, Hs. split_and!; [|intros k Ht Hfi Hp|done].
      * exists content. split; [done|]. rewrite remove_quietly_frame by done.
        by rewrite Hw2, lookup_insert_eq.
      * rewrite remove_quietly_frame by done. rewrite Hw2.
        by rewrite lookup_insert_ne, lookup_delete_ne.
    + rewrite Hs, Hw2. split_and!; [|intros k Ht Hfi Hp|done].
      * exists content. by rewrite lookup_insert_eq.
      * by rewrite lookup_insert_ne, lookup_delete_ne.
  - destruct Hr as [Hw2 _]. rewrite Hw2, Hf. split; [done|]. intros _ Hw. apply Hrf. by rewrite Hfa.
Qed.

(** A merge that does not succeed leaves every file; one that does puts what
    [mkvmerge] wrote in place, with the mutation on record. *)
Definition all_or_nothing (path temp final : PathBuf) (args : list string)
    (r : result VoomError (list ActionResult)) (w w' : World S) : Prop :=
  if all_succeeded r then
    (∃ content, (run_child "mkvmerge" args (w_files w)).2 !! path_key temp = Some content ∧
                w_files w' !! path_key final = Some content) ∧
    (∀ k, k ≠ path_key temp → k ≠ path_key final → k ≠ path_key path →
          w_files w' !! k = w_files w !! k) ∧
    mutation_recorded path final (w_store w) (w_store w')
  else
    (∀ k, k ≠ path_key temp → w_files w' !! k = w_files w !! k) ∧
    (w_faults w = [] → w_files w' !! path_key temp = None).

Lemma all_succeeded_succeeded detail actions : all_succeeded (Ok (succeeded detail actions)) = true.
Proof. unfold succeeded. cbn. by induction actions. Qed.

Lemma execute_merge_spec `{!MkvmergeWrites} path actions (w : World S) :
  let temp := temp_path_with_ext to_str (in_temp_id inp) path "mkv" in
  let final := determine_final_path path actions in
  let args := build_merge_args path temp actions in
  let '(r, w') := execute_merge_actions to_str has_store inp scan_session path actions w in
  to_string_lossy temp = temp → w_files w !! path_key temp = None → actions ≠ [] →
  all_or_nothing path temp final args r w w'.
Proof.
  intros temp final args. unfold execute_merge_actions.
  destruct actions as [|a0 actions']; [done|]. set (actions := a0 :: actions') in *.
  destruct (fs_exists path w); cbn [negb]; [|intros _ Ht _; done].
  fold temp args. unfold with_temp_guard, io_bind, run_with_timeout.
  destruct (run_child "mkvmerge" args (w_files w)) as [o files] eqn:Hrun.
  assert (to_string_lossy temp = temp →
          ∀ k, k ≠ path_key temp → files !! k = w_files w !! k) as Hfiles.
  { intros Hlossy k Hk. change files with (o, files).2. rewrite <-Hrun. unfold args, build_merge_args.
    rewrite Hlossy. by apply mkvmerge_writes. }
  set (w1 := Build_World files (w_store w) (w_faults w)).
  assert (∀ w2 : World S, w_files w2 = files → (w_faults w = [] → w_faults w2 = []) →
          to_string_lossy temp = temp →
          (∀ k, k ≠ path_key temp →
             w_files (remove_quietly temp w2) !! k = w_files w !! k) ∧
          (w_faults w = [] → w_files (remove_quietly temp w2) !! path_key temp = None)) as Hclean.
  { intros w2 Hw2 Hfa Hlossy. split.
    - intros k Hk. rewrite remove_quietly_frame, Hw2 by done. by apply Hfiles.
    - intros Hf. by apply remove_quietly_gone, Hfa. }
  destruct (child_result "mkvmerge" 1800 o) as [output|e]; cbn -[succeeded];
    [|intros Hl Ht _; apply (Hclean w1); done].
  destruct (merge_succeeded output); cbn -[succeeded]; [|intros Hl Ht _; apply (Hclean w1); done].
  pose proof (replace_original_spec path temp final w1) as [Hrep Hfa].
  fold final. destruct (replace_original _ _ _ path temp final w1) as [[[]|e] w2];
    cbn -[succeeded] in Hrep |- *.
  - intros Hl Ht _. unfold all_or_nothing. rewrite all_succeeded_succeeded.
    destruct Hrep as ((content & Hc & Hcf) & Hframe & Hrec).
    split_and!; [exists content; split; [|done]| |done].
    { change ((run_child "mkvmerge" args (w_files w)).2 !! path_key temp = Some content).
      by rewrite Hrun. }
    intros k Hk Hkf Hkp. rewrite Hframe by done. by apply Hfiles.
  - intros Hl Ht _. apply (Hclean w2); [done| |done]. intros Hf. apply Hfa; [by eexists|done].
Qed.
End merge.
