(* ===== verification/CropDetect.v ===== *)
(** * Crop detection of the FFmpeg executor

    [plugins/ffmpeg-executor/src/cropdetect.rs]: the samples that are run, the
    parsing of the output of the [cropdetect] filter and the choice of a crop.
    Pixels are [u32]; a plain subtraction of the code is one of [N], and the
    lemmas show where it cannot underflow. *)
From S2P Require Import Prelude Media Plan Process.

(** ** Machine arithmetic *)
Definition checked_sub (a b : N) : option N := if (b <=? a)%N then Some (a - b)%N else None.

Definition u32_saturating_add (a b : u32) : u32 := N.min u32_MAX (a + b).

(** [u64::div_ceil] *)
Definition div_ceil (a b : N) : N := ((a + b - 1) / b)%N.

Definition f64_mul (a b : f64) : f64 := SFmul f64_prec f64_emax a b.
Definition f64_div (a b : f64) : f64 := SFdiv f64_prec f64_emax a b.

(** [f64::max]: the other argument if one is NaN *)
Definition f64_max (a b : f64) : f64 :=
  if f64_is_nan a then b else if f64_is_nan b then a else if f64_ltb a b then b else a.

(** [format!("{:.3}", x)]: the exact value rounded half-to-even. *)
Fixpoint pad_zeros (n : nat) (s : string) : string :=
  match n with O => s | S n => "0" +:+ pad_zeros n s end.

Definition fmt_milli (neg : bool) (t : Z) : string :=
  let frac := pretty (Z.to_N (t mod 1000)) in
  (if neg then "-" else "") +:+ pretty (Z.to_N (t / 1000)) +:+ "."
  +:+ pad_zeros (3 - String.length frac) frac.

Definition fmt_f64_3 (x : f64) : string :=
  match x with
  | S754_nan => "NaN"
  | S754_infinity s => if s then "-inf" else "inf"
  | S754_zero s => fmt_milli s 0
  | S754_finite s m e =>
      fmt_milli s
        (if (0 <=? e)%Z then (1000 * Z.pos m * 2 ^ e)%Z
         else round_half_even (1000 * Z.pos m) (2 ^ (- e)))
  end.

(** ** Configuration *)
Record CropDetectSource : Type := {
  CropDetectSource_width : u32;
  CropDetectSource_height : u32;
  CropDetectSource_duration_secs : f64;
}.

Record AspectRatio : Type := { AspectRatio_width : u32; AspectRatio_height : u32 }.

Definition AspectRatio_parse (value : string) : option AspectRatio :=
  '(width, height) ← split_once slash value;
  width ← parse_unsigned u32_MAX width;
  height ← parse_unsigned u32_MAX height;
  if (width =? 0)%N || (height =? 0)%N then None
  else Some {| AspectRatio_width := width; AspectRatio_height := height |}.

Record CropDetectConfig : Type := {
  CropDetectConfig_sample_duration_secs : u32;
  CropDetectConfig_sample_count : u32;
  CropDetectConfig_threshold : N;
  CropDetectConfig_minimum_crop : u32;
  CropDetectConfig_preserve_bottom_pixels : u32;
  CropDetectConfig_aspect_locks : list AspectRatio;
}.

(** [From<&CropSettings> for CropDetectConfig] *)
Definition CropDetectConfig_from (s : CropSettings) : CropDetectConfig := {|
  CropDetectConfig_sample_duration_secs :=
    N.max (default 60%N (CropSettings_sample_duration_secs s)) 1;
  CropDetectConfig_sample_count := N.max (default 3%N (CropSettings_sample_count s)) 1;
  CropDetectConfig_threshold := default 24%N (CropSettings_threshold s);
  CropDetectConfig_minimum_crop := default 4%N (CropSettings_minimum_crop s);
  CropDetectConfig_preserve_bottom_pixels :=
    default 0%N (CropSettings_preserve_bottom_pixels s);
  CropDetectConfig_aspect_locks := omap AspectRatio_parse (CropSettings_aspect_lock s);
|}.

(** ** Samples *)
Definition sample_starts (duration_secs : f64) (count sample_duration_secs : u32) : list f64 :=
  let zero := f64_of_Z 0 in
  if f64_leb duration_secs zero || (count =? 1)%N then [zero]
  else
    let latest_start := f64_max (f64_sub duration_secs (f64_of_N sample_duration_secs)) zero in
    if f64_eqb latest_start zero then [zero]
    else (λ idx, f64_div (f64_mul latest_start (f64_of_Z (Z.of_nat idx))) (f64_of_N (count - 1)))
           <$> seq 0 (N.to_nat count).

(** ** Parsing *)
Definition crop_separator (c : string) : bool :=
  bool_decide (c = ":") || bool_decide (c ∈ whitespace_list).

(** [split] of a sequence of characters *)
Fixpoint split_chars (sep : string → bool) (cur : string) (cs : list string) : list string :=
  match cs with
  | [] => [cur]
  | c :: cs => if sep c then cur :: split_chars sep "" cs else split_chars sep (cur +:+ c) cs
  end.

(** What follows the last occurrence of [pat], which does not overlap itself. *)
Fixpoint after_last (pat s : string) : option string :=
  match s with
  | EmptyString => None
  | String _ s' =>
      match after_last pat s' with
      | Some r => Some r
      | None => strip_prefix pat s
      end
  end.

Record DetectedCrop : Type := {
  DetectedCrop_width : u32;
  DetectedCrop_height : u32;
  DetectedCrop_x : u32;
  DetectedCrop_y : u32;
}.

Definition parse_crop_line (line : string) : option DetectedCrop :=
  let crop := default line (after_last "crop=" line) in
  match split_chars crop_separator "" (str_chars crop) with
  | w :: h :: x :: y :: _ =>
      w ← parse_unsigned u32_MAX w;
      h ← parse_unsigned u32_MAX h;
      x ← parse_unsigned u32_MAX x;
      y ← parse_unsigned u32_MAX y;
      Some {| DetectedCrop_width := w; DetectedCrop_height := h;
              DetectedCrop_x := x; DetectedCrop_y := y |}
  | _ => None
  end.

Definition invalid_crop (message : string) : VoomError := VoomError_ToolExecution "ffmpeg" message.

Definition ok_or {E A} (o : option A) (e : E) : result E A :=
  match o with Some a => Ok a | None => Err e end.

Definition Build_Rect (left top right bottom : u32) : CropRect :=
  {| CropRect_left := left; CropRect_top := top; CropRect_right := right;
     CropRect_bottom := bottom |}.

Definition DetectedCrop_to_rect (source : CropDetectSource) (c : DetectedCrop)
    : result VoomError CropRect :=
  right ← ok_or (v ← checked_sub (CropDetectSource_width source) (DetectedCrop_x c);
                 checked_sub v (DetectedCrop_width c))
                (invalid_crop "crop width exceeds source width");
  bottom ← ok_or (v ← checked_sub (CropDetectSource_height source) (DetectedCrop_y c);
                  checked_sub v (DetectedCrop_height c))
                 (invalid_crop "crop height exceeds source height");
  Ok (Build_Rect (DetectedCrop_x c) (DetectedCrop_y c) right bottom).

Definition parse_cropdetect_rects (stderr : string) (source : CropDetectSource)
    : result VoomError (list CropRect) :=
  try_map (DetectedCrop_to_rect source) (omap parse_crop_line (str_lines stderr)).

(** ** Choosing the crop *)
Record OutputDimensions : Type := {
  OutputDimensions_width : u32;
  OutputDimensions_height : u32;
}.

Definition OutputDimensions_area (d : OutputDimensions) : u64 :=
  (OutputDimensions_width d * OutputDimensions_height d)%N.

Definition output_dimensions (rect : CropRect) (source : CropDetectSource)
    : result VoomError OutputDimensions :=
  width ← ok_or (v ← checked_sub (CropDetectSource_width source) (CropRect_left rect);
                 checked_sub v (CropRect_right rect))
                (invalid_crop "crop removes all source width");
  height ← ok_or (v ← checked_sub (CropDetectSource_height source) (CropRect_top rect);
                  checked_sub v (CropRect_bottom rect))
                 (invalid_crop "crop removes all source height");
  if (width =? 0)%N || (height =? 0)%N then Err (invalid_crop "crop leaves empty output")
  else Ok {| OutputDimensions_width := width; OutputDimensions_height := height |}.

Definition even_u64_to_u32 (value : u64) : option u32 :=
  let value := (value + value mod 2)%N in
  if (value <=? u64_MAX)%N && (value <=? u32_MAX)%N then Some value else None.

Definition expand_axis (start_crop end_crop expand_by : u32) : option (u32 * u32) :=
  if (u32_saturating_add start_crop end_crop <? expand_by)%N then None
  else
    let from_start := N.min (expand_by / 2) start_crop in
    let remaining := (expand_by - from_start)%N in
    let from_end := N.min remaining end_crop in
    let remaining := (remaining - from_end)%N in
    if (start_crop - from_start <? remaining)%N then None
    else Some (start_crop - from_start - remaining, end_crop - from_end)%N.

Definition snap_to_aspect (rect : CropRect) (source : CropDetectSource) (dims : OutputDimensions)
    (ratio : AspectRatio) : option (CropRect * OutputDimensions) :=
  let w := OutputDimensions_width dims in
  let h := OutputDimensions_height dims in
  let current := (w * AspectRatio_height ratio)%N in
  let target := (h * AspectRatio_width ratio)%N in
  if (current =? target)%N then Some (rect, dims)
  else if (target <? current)%N then
    height ← even_u64_to_u32 (div_ceil (w * AspectRatio_height ratio) (AspectRatio_width ratio));
    if (CropDetectSource_height source <? height)%N then None
    else
      '(top, bottom) ← expand_axis (CropRect_top rect) (CropRect_bottom rect) (height - h);
      Some (Build_Rect (CropRect_left rect) top (CropRect_right rect) bottom,
            {| OutputDimensions_width := w; OutputDimensions_height := height |})
  else
    width ← even_u64_to_u32 (div_ceil (h * AspectRatio_width ratio) (AspectRatio_height ratio));
    if (CropDetectSource_width source <? width)%N then None
    else
      '(l, r) ← expand_axis (CropRect_left rect) (CropRect_right rect) (width - w);
      Some (Build_Rect l (CropRect_top rect) r (CropRect_bottom rect),
            {| OutputDimensions_width := width; OutputDimensions_height := h |}).

(** The candidate with the fewest additional pixels, the first one of equals. *)
Definition better_candidate (rect : CropRect) (source : CropDetectSource)
    (original : OutputDimensions) (best : option (CropRect * u64)) (ratio : AspectRatio)
    : option (CropRect * u64) :=
  match snap_to_aspect rect source original ratio with
  | None => best
  | Some (candidate, dims) =>
      let expanded := (OutputDimensions_area dims - OutputDimensions_area original)%N in
      match best with
      | None => Some (candidate, expanded)
      | Some (_, best_pixels) =>
          if (expanded <? best_pixels)%N then Some (candidate, expanded) else best
      end
  end.

Definition snap_to_aspect_lock (rect : CropRect) (source : CropDetectSource)
    (aspect_locks : list AspectRatio) : result VoomError CropRect :=
  match aspect_locks with
  | [] => Ok rect
  | _ =>
      original ← output_dimensions rect source;
      Ok (match foldl (better_candidate rect source original) None aspect_locks with
          | Some (candidate, _) => candidate
          | None => rect
          end)
  end.

Definition snap_output_to_even (rect : CropRect) (source : CropDetectSource)
    : result VoomError CropRect :=
  dims ← output_dimensions rect source;
  let right := if (OutputDimensions_width dims mod 2 =? 0)%N then CropRect_right rect
               else u32_saturating_add (CropRect_right rect) 1 in
  let bottom := if (OutputDimensions_height dims mod 2 =? 0)%N then CropRect_bottom rect
                else u32_saturating_add (CropRect_bottom rect) 1 in
  Ok (Build_Rect (CropRect_left rect) (CropRect_top rect) right bottom).

Definition apply_minimum_crop (rect : CropRect) (minimum : u32) : CropRect :=
  let side := λ value, if (value <? minimum)%N then 0%N else value in
  Build_Rect (side (CropRect_left rect)) (side (CropRect_top rect)) (side (CropRect_right rect))
    (side (CropRect_bottom rect)).

Definition min_rect (a b : CropRect) : CropRect :=
  Build_Rect (N.min (CropRect_left a) (CropRect_left b)) (N.min (CropRect_top a) (CropRect_top b))
    (N.min (CropRect_right a) (CropRect_right b)) (N.min (CropRect_bottom a) (CropRect_bottom b)).

(** [rect.bottom = rect.bottom.saturating_sub(n)] *)
Definition preserve_bottom (rect : CropRect) (n : u32) : CropRect :=
  Build_Rect (CropRect_left rect) (CropRect_top rect) (CropRect_right rect)
    (CropRect_bottom rect - n)%N.

Definition conservative_crop (rects : list CropRect) (source : CropDetectSource)
    (config : CropDetectConfig) : result VoomError (option CropRect) :=
  match rects with
  | [] => Ok None
  | first :: rest =>
      let rect := foldl min_rect first rest in
      let rect := apply_minimum_crop rect (CropDetectConfig_minimum_crop config) in
      let rect := preserve_bottom rect (CropDetectConfig_preserve_bottom_pixels config) in
      rect ← snap_to_aspect_lock rect source (CropDetectConfig_aspect_locks config);
      rect ← snap_output_to_even rect source;
      Ok (Some rect)
  end.

(** ** Running the filter *)
Section detect.
Context {S : Type} `{Children} `{Unicode}.

Definition cropdetect_args (source_path : PathBuf) (start_secs : f64) (config : CropDetectConfig)
    : list string :=
  ["-hide_banner"; "-ss"; fmt_f64_3 start_secs; "-t";
   pretty (CropDetectConfig_sample_duration_secs config); "-i"; to_string_lossy source_path;
   "-vf"; "cropdetect=limit=" +:+ pretty (CropDetectConfig_threshold config) +:+ ":round=2";
   "-f"; "null"; "-"].

Definition run_cropdetect_sample (ffmpeg_path : string) (source_path : PathBuf) (start_secs : f64)
    (config : CropDetectConfig) : Io S string :=
  io_bind (run_with_timeout ffmpeg_path (cropdetect_args source_path start_secs config) 300)
    (λ output,
     if ExitStatus_success (Output_status output) then io_ret (to_string_lossy (Output_stderr output))
     else io_err (VoomError_ToolExecution ffmpeg_path
            ("cropdetect failed with " +:+ ExitStatus_to_string (Output_status output) +:+ ":"
             +:+ newline_str +:+ stderr_tail (Output_stderr output) 20))).

Fixpoint detect_rects_at (ffmpeg_path : string) (source_path : PathBuf) (source : CropDetectSource)
    (config : CropDetectConfig) (starts : list f64) : Io S (list CropRect) :=
  match starts with
  | [] => io_ret []
  | start :: starts =>
      io_bind (run_cropdetect_sample ffmpeg_path source_path start config) (λ stderr,
      io_bind (io_lift (parse_cropdetect_rects stderr source)) (λ rects,
      io_bind (detect_rects_at ffmpeg_path source_path source config starts) (λ rects',
      io_ret (rects ++ rects'))))
  end.

Definition detect_sample_rects (ffmpeg_path : string) (source_path : PathBuf)
    (source : CropDetectSource) (config : CropDetectConfig) : Io S (list CropRect) :=
  detect_rects_at ffmpeg_path source_path source config
    (sample_starts (CropDetectSource_duration_secs source) (CropDetectConfig_sample_count config)
       (CropDetectConfig_sample_duration_secs config)).

Definition detect_crop (ffmpeg_path : string) (source_path : PathBuf) (source : CropDetectSource)
    (settings : CropSettings) (now : DateTime) : Io S (option CropDetection) :=
  let config := CropDetectConfig_from settings in
  io_bind (detect_sample_rects ffmpeg_path source_path source config) (λ rects,
  io_bind (io_lift (conservative_crop rects source config)) (λ o,
  io_ret (match o with
          | None => None
          | Some rect =>
              if CropRect_is_empty rect then None else Some (CropDetection_new rect now)
          end))).
End detect.

(** * Facts about crop detection

    Every step after the merge of the samples keeps the crop within what all
    samples agree on, except for at most one pixel that makes the output even. *)

(** [a] cuts away no more than [b]. *)
Definition within_crop (a b : CropRect) : Prop :=
  (CropRect_left a ≤ CropRect_left b)%N ∧ (CropRect_top a ≤ CropRect_top b)%N ∧
  (CropRect_right a ≤ CropRect_right b)%N ∧ (CropRect_bottom a ≤ CropRect_bottom b)%N.

#[export] Instance within_crop_refl : Reflexive within_crop.
Proof. intros a. unfold within_crop. lia. Qed.

#[export] Instance within_crop_trans : Transitive within_crop.
Proof. intros a b c. unfold within_crop. lia. Qed.

(** The crop fits the source and leaves something. *)
Definition leaves_picture (source : CropDetectSource) (r : CropRect) : Prop :=
  (CropRect_left r + CropRect_right r < CropDetectSource_width source)%N ∧
  (CropRect_top r + CropRect_bottom r < CropDetectSource_height source)%N.

Lemma within_leaves source a b : within_crop a b → leaves_picture source b → leaves_picture source a.
Proof. unfold within_crop, leaves_picture. lia. Qed.

Lemma checked_sub_Some a b c : checked_sub a b = Some c ↔ (b ≤ a)%N ∧ c = (a - b)%N.
Proof. unfold checked_sub. destruct (N.leb_spec b a); naive_solver lia. Qed.

(** [output_dimensions] succeeds exactly on crops that leave something. *)
Lemma output_dimensions_spec rect source d :
  output_dimensions rect source = Ok d ↔
  leaves_picture source rect ∧
  d = {| OutputDimensions_width :=
           (CropDetectSource_width source - CropRect_left rect - CropRect_right rect)%N;
         OutputDimensions_height :=
           (CropDetectSource_height source - CropRect_top rect - CropRect_bottom rect)%N |}.
Proof.
  unfold output_dimensions, leaves_picture, checked_sub.
  destruct (N.leb_spec (CropRect_left rect) (CropDetectSource_width source)); cbn;
    [|split; [done|lia]].
  destruct (N.leb_spec (CropRect_right rect)
              (CropDetectSource_width source - CropRect_left rect)); cbn; [|split; [done|lia]].
  destruct (N.leb_spec (CropRect_top rect) (CropDetectSource_height source)); cbn;
    [|split; [done|lia]].
  destruct (N.leb_spec (CropRect_bottom rect)
              (CropDetectSource_height source - CropRect_top rect)); cbn; [|split; [done|lia]].
  destruct (N.eqb_spec (CropDetectSource_width source - CropRect_left rect - CropRect_right rect) 0);
    cbn; [split; [done|lia]|].
  destruct (N.eqb_spec (CropDetectSource_height source - CropRect_top rect - CropRect_bottom rect) 0);
    cbn; [split; [done|lia]|].
  split; [intros [= <-]; split; [lia|done] | by intros [_ ->]].
Qed.

Lemma output_dimensions_Ok rect source :
  leaves_picture source rect → ∃ d, output_dimensions rect source = Ok d.
Proof. intros Hl. eexists. by apply output_dimensions_spec. Qed.

(** Taking [n] pixels back from the two sides of an axis. *)
Lemma expand_axis_spec s e n s' e' :
  expand_axis s e n = Some (s', e') → (s' ≤ s ∧ e' ≤ e ∧ s' + e' + n = s + e)%N.
Proof.
  unfold expand_axis, u32_saturating_add. intros Hx.
  assert (n / 2 ≤ n)%N by (apply N.Div0.div_le_upper_bound; lia).
  generalize dependent (n / 2)%N. intros half Hx Hhalf.
  destruct (N.ltb_spec (N.min u32_MAX (s + e)) n); [done|].
  destruct (N.ltb_spec (s - N.min half s) (n - N.min half s - N.min (n - N.min half s) e)); [done|].
  injection Hx as <- <-. lia.
Qed.

Lemma even_u64_spec v u : even_u64_to_u32 v = Some u → (v ≤ u ∧ u mod 2 = 0)%N.
Proof.
  unfold even_u64_to_u32. case_match; [|done]. intros [= <-]. split; [apply N.le_add_r|].
  rewrite N.Div0.add_mod, N.Div0.mod_mod. pose proof (N.mod_lt v 2 ltac:(done)) as Hm.
  remember (v mod 2)%N as m eqn:Hdef. clear Hdef.
  assert (m = 0 ∨ m = 1)%N as [-> | ->] by lia; done.
Qed.

Lemma div_ceil_lower a b h : (0 < b)%N → (h * b ≤ a)%N → (h ≤ div_ceil a b)%N.
Proof. intros Hb Ha. unfold div_ceil. apply N.div_le_lower_bound; lia. Qed.

(** A candidate of an aspect lock is within the crop and has the dimensions it
    claims. *)
Lemma snap_to_aspect_spec rect source dims ratio c d :
  output_dimensions rect source = Ok dims →
  (0 < AspectRatio_width ratio)%N → (0 < AspectRatio_height ratio)%N →
  snap_to_aspect rect source dims ratio = Some (c, d) →
  within_crop c rect ∧ output_dimensions c source = Ok d.
Proof.
  intros Hd Hw Hh. pose proof (proj1 (output_dimensions_spec _ _ _) Hd) as [Hl ->].
  unfold snap_to_aspect. cbn [OutputDimensions_width OutputDimensions_height].
  set (w := (CropDetectSource_width source - CropRect_left rect - CropRect_right rect)%N).
  set (h := (CropDetectSource_height source - CropRect_top rect - CropRect_bottom rect)%N).
  destruct (N.eqb_spec (w * AspectRatio_height ratio) (h * AspectRatio_width ratio)).
  { intros [= <- <-]. split; [done|]. by apply output_dimensions_spec. }
  destruct (N.ltb_spec (h * AspectRatio_width ratio) (w * AspectRatio_height ratio)).
  - destruct (even_u64_to_u32 _) as [height|] eqn:He; [|done]. cbn.
    apply even_u64_spec in He as [He _].
    assert (h ≤ height)%N by (etrans; [|exact He]; apply div_ceil_lower; lia).
    destruct (N.ltb_spec (CropDetectSource_height source) height); [done|].
    destruct (expand_axis _ _ _) as [[t b]|] eqn:Hx; [|done]. cbn. intros [= <- <-].
    apply expand_axis_spec in Hx. unfold leaves_picture in Hl.
    split; [unfold within_crop; cbn; lia|]. apply output_dimensions_spec.
    unfold leaves_picture, h in *. cbn. split; [lia|]. f_equal. lia.
  - destruct (even_u64_to_u32 _) as [width|] eqn:He; [|done]. cbn.
    apply even_u64_spec in He as [He _].
    assert (w ≤ width)%N by (etrans; [|exact He]; apply div_ceil_lower; lia).
    destruct (N.ltb_spec (CropDetectSource_width source) width); [done|].
    destruct (expand_axis _ _ _) as [[l r]|] eqn:Hx; [|done]. cbn. intros [= <- <-].
    apply expand_axis_spec in Hx. unfold leaves_picture in Hl.
    split; [unfold within_crop; cbn; lia|]. apply output_dimensions_spec.
    unfold leaves_picture, w in *. cbn. split; [lia|]. f_equal. lia.
Qed.

Definition ratio_ok (r : AspectRatio) : Prop :=
  (0 < AspectRatio_width r)%N ∧ (0 < AspectRatio_height r)%N.

Lemma AspectRatio_parse_ok v r : AspectRatio_parse v = Some r → ratio_ok r.
Proof.
  unfold AspectRatio_parse, ratio_ok. intros Hp.
  destruct (split_once slash v) as [[a b]|]; [|done]. cbn in Hp.
  destruct (parse_unsigned u32_MAX a) as [w|]; [|done]. cbn in Hp.
  destruct (parse_unsigned u32_MAX b) as [h|]; [|done]. cbn in Hp.
  destruct (N.eqb_spec w 0), (N.eqb_spec h 0); try done. injection Hp as <-. cbn. lia.
Qed.

Lemma config_ratios_ok settings :
  Forall ratio_ok (CropDetectConfig_aspect_locks (CropDetectConfig_from settings)).
Proof.
  apply Forall_forall. intros r Hr. cbn in Hr. apply list_elem_of_omap in Hr as (v & _ & Hv).
  by eapply AspectRatio_parse_ok.
Qed.

(** The fold over the locks keeps the best candidate within the crop. *)
Lemma better_candidates_within rect source original ratios best :
  output_dimensions rect source = Ok original → Forall ratio_ok ratios →
  (∀ c n, best = Some (c, n) → within_crop c rect) →
  ∀ c n, foldl (better_candidate rect source original) best ratios = Some (c, n) →
  within_crop c rect.
Proof.
  intros Ho Hr. revert best; induction Hr as [|r ratios [Hw Hh] Hr IH]; intros best Hb c n; simpl.
  { apply Hb. }
  apply IH. clear c n. intros c n. unfold better_candidate.
  destruct (snap_to_aspect rect source original r) as [[c' d]|] eqn:Hs; [|apply Hb].
  apply snap_to_aspect_spec in Hs as [Hc' _]; [|done..].
  destruct best as [[c0 n0]|]; [case_match|]; naive_solver.
Qed.

Lemma snap_to_aspect_lock_spec rect source locks :
  Forall ratio_ok locks →
  match snap_to_aspect_lock rect source locks with
  | Ok r => within_crop r rect
  | Err _ => ¬ leaves_picture source rect
  end.
Proof.
  intros Hr. unfold snap_to_aspect_lock. destruct locks as [|l locks]; [done|].
  destruct (output_dimensions rect source) as [o|e] eqn:Ho; cbn -[foldl].
  - destruct (foldl _ _ _) as [[c n]|] eqn:Hf; [|done].
    by eapply better_candidates_within in Hf.
  - intros [d Hd]%output_dimensions_Ok. congruence.
Qed.

(** The last step makes the output even by at most one pixel more. *)
Lemma snap_output_to_even_spec rect source :
  (CropDetectSource_width source ≤ u32_MAX)%N → (CropDetectSource_height source ≤ u32_MAX)%N →
  match snap_output_to_even rect source with
  | Ok r =>
      CropRect_left r = CropRect_left rect ∧ CropRect_top r = CropRect_top rect ∧
      (CropRect_right r ≤ CropRect_right rect + 1)%N ∧
      (CropRect_bottom r ≤ CropRect_bottom rect + 1)%N ∧
      (∃ w, CropDetectSource_width source = CropRect_left r + CropRect_right r + 2 * w)%N ∧
      (∃ h, CropDetectSource_height source = CropRect_top r + CropRect_bottom r + 2 * h)%N
  | Err _ => ¬ leaves_picture source rect
  end.
Proof.
  intros HW HH. unfold snap_output_to_even.
  destruct (output_dimensions rect source) as [d|e] eqn:Ho; cbn;
    [|intros [d Hd]%output_dimensions_Ok; congruence].
  apply output_dimensions_spec in Ho as [[Hw Hh] ->]. cbn.
  assert (∀ total a b, (a + b < total)%N → (total ≤ u32_MAX)%N →
    let b' := if ((total - a - b) mod 2 =? 0)%N then b else u32_saturating_add b 1 in
    (b' ≤ b + 1)%N ∧ ∃ k, (total = a + b' + 2 * k)%N) as Haxis.
  { intros total a b Hab Hmax. unfold u32_saturating_add.
    pose proof (N.div_mod (total - a - b) 2 ltac:(done)) as Hdm.
    pose proof (N.mod_lt (total - a - b) 2 ltac:(done)) as Hm.
    remember ((total - a - b) mod 2)%N as m eqn:Hdef. clear Hdef.
    remember ((total - a - b) / 2)%N as k eqn:Hdef. clear Hdef.
    destruct (N.eqb_spec m 0); cbn; (split; [lia|]); exists k; lia. }
  destruct (Haxis _ _ _ Hw HW) as [? ?], (Haxis _ _ _ Hh HH) as [? ?]. by split_and!.
Qed.

Lemma min_rect_within a b : within_crop (min_rect a b) a ∧ within_crop (min_rect a b) b.
Proof. unfold within_crop, min_rect. cbn. lia. Qed.

Lemma min_rects_within first rest :
  within_crop (foldl min_rect first rest) first ∧
  ∀ r, r ∈ rest → within_crop (foldl min_rect first rest) r.
Proof.
  revert first; induction rest as [|x rest IH]; intros first; simpl.
  { split; [done|]. intros r Hr. by apply elem_of_nil in Hr. }
  destruct (IH (min_rect first x)) as [H1 H2], (min_rect_within first x) as [Ha Hb]. split.
  - by etrans.
  - intros r [->|Hr]%elem_of_cons; [by etrans | by apply H2].
Qed.

Lemma adjusted_within rect minimum n :
  within_crop (preserve_bottom (apply_minimum_crop rect minimum) n) rect.
Proof.
  unfold within_crop, preserve_bottom, apply_minimum_crop. cbn.
  repeat case_match; lia.
Qed.

(** The detected rectangles fit the source. *)
Lemma DetectedCrop_to_rect_spec source c r :
  DetectedCrop_to_rect source c = Ok r →
  CropRect_left r = DetectedCrop_x c ∧ CropRect_top r = DetectedCrop_y c ∧
  (CropRect_left r + DetectedCrop_width c + CropRect_right r = CropDetectSource_width source)%N ∧
  (CropRect_top r + DetectedCrop_height c + CropRect_bottom r = CropDetectSource_height source)%N.
Proof.
  unfold DetectedCrop_to_rect, checked_sub. intros Hr.
  repeat (case_match; cbn in Hr; try done); rewrite ?N.leb_le in *; injection Hr as <-; cbn; lia.
Qed.
