(* ===== verification/FfmpegCommand.v ===== *)
(** * Command lines of the FFmpeg executor

    [plugins/ffmpeg-executor/src/hwaccel.rs]: hardware encoders and decoders and
    when they are used; and [command.rs]: the arguments of [ffmpeg] for the
    actions of a plan. *)
From S2P Require Import Prelude Json Media Plan Process CropDetect.

(** ** [hwaccel.rs] *)
Inductive HwAccelBackend : Type :=
| HwAccelBackend_Nvenc
| HwAccelBackend_Qsv
| HwAccelBackend_Vaapi
| HwAccelBackend_Videotoolbox.

#[export] Instance HwAccelBackend_eq_dec : EqDecision HwAccelBackend.
Proof. solve_decision. Defined.

Record HwAccelConfig : Type := {
  HwAccelConfig_backend : option HwAccelBackend;
  HwAccelConfig_validated_encoders : option (list string);
  HwAccelConfig_hw_decoders : list string;
  HwAccelConfig_hw_decode_enabled : bool;
  HwAccelConfig_device : option string;
}.

Definition HwAccelConfig_of_backend (backend : option HwAccelBackend) : HwAccelConfig := {|
  HwAccelConfig_backend := backend;
  HwAccelConfig_validated_encoders := None;
  HwAccelConfig_hw_decoders := [];
  HwAccelConfig_hw_decode_enabled := true;
  HwAccelConfig_device := None;
|}.

Definition HwAccelConfig_new : HwAccelConfig := HwAccelConfig_of_backend None.

Definition HwAccelConfig_with_backend (backend : HwAccelBackend) : HwAccelConfig :=
  HwAccelConfig_of_backend (Some backend).

Definition HwAccelConfig_enabled (self : HwAccelConfig) : bool :=
  bool_decide (is_Some (HwAccelConfig_backend self)).

Definition HwAccelConfig_with_validated_encoders (self : HwAccelConfig) (encoders : list string)
    : HwAccelConfig :=
  Build_HwAccelConfig (HwAccelConfig_backend self) (Some encoders) (HwAccelConfig_hw_decoders self)
    (HwAccelConfig_hw_decode_enabled self) (HwAccelConfig_device self).

Definition HwAccelConfig_with_hw_decoders (self : HwAccelConfig) (decoders : list string)
    : HwAccelConfig :=
  Build_HwAccelConfig (HwAccelConfig_backend self) (HwAccelConfig_validated_encoders self) decoders
    (HwAccelConfig_hw_decode_enabled self) (HwAccelConfig_device self).

Definition HwAccelConfig_with_hw_decode_enabled (self : HwAccelConfig) (enabled : bool)
    : HwAccelConfig :=
  Build_HwAccelConfig (HwAccelConfig_backend self) (HwAccelConfig_validated_encoders self)
    (HwAccelConfig_hw_decoders self) enabled (HwAccelConfig_device self).

Definition HwAccelConfig_with_device (self : HwAccelConfig) (device : option string)
    : HwAccelConfig :=
  Build_HwAccelConfig (HwAccelConfig_backend self) (HwAccelConfig_validated_encoders self)
    (HwAccelConfig_hw_decoders self) (HwAccelConfig_hw_decode_enabled self) device.

Definition device_args (self : HwAccelConfig) : list string :=
  match HwAccelConfig_backend self, HwAccelConfig_device self with
  | Some HwAccelBackend_Vaapi, Some path => ["-vaapi_device"; path]
  | Some HwAccelBackend_Qsv, Some path => ["-qsv_device"; path]
  | _, _ => []
  end.

Definition device_env (self : HwAccelConfig) : option (string * string) :=
  match HwAccelConfig_backend self, HwAccelConfig_device self with
  | Some HwAccelBackend_Nvenc, Some dev => Some ("CUDA_VISIBLE_DEVICES", dev)
  | _, _ => None
  end.

Definition software_encoder (codec : string) : string :=
  if str_in ["hevc"; "h265"] codec then "libx265"
  else if str_in ["h264"; "avc"] codec then "libx264"
  else if bool_decide (codec = "av1") then "libsvtav1"
  else if bool_decide (codec = "vp9") then "libvpx-vp9"
  else if bool_decide (codec = "opus") then "libopus"
  else codec.

Definition canonical_video_codec (codec : string) : string :=
  if bool_decide (codec = "h265") then "hevc"
  else if bool_decide (codec = "avc") then "h264"
  else if bool_decide (codec = "mpeg2video") then "mpeg2"
  else codec.

(** The suffix of the encoders of a backend and the codecs it encodes. *)
Definition backend_encoders (backend : HwAccelBackend) : string * list string :=
  match backend with
  | HwAccelBackend_Nvenc => ("_nvenc", ["hevc"; "h264"; "av1"])
  | HwAccelBackend_Qsv => ("_qsv", ["hevc"; "h264"; "av1"; "vp9"])
  | HwAccelBackend_Vaapi => ("_vaapi", ["hevc"; "h264"; "av1"; "vp9"])
  | HwAccelBackend_Videotoolbox => ("_videotoolbox", ["hevc"; "h264"])
  end.

Definition hw_encoder_for_backend (backend : HwAccelBackend) (codec : string) : option string :=
  let '(suffix, supported_codecs) := backend_encoders backend in
  let canonical := canonical_video_codec codec in
  if str_in supported_codecs canonical then Some (canonical +:+ suffix) else None.

Definition hw_decoder_for_backend (backend : HwAccelBackend) (codec : string) : option string :=
  match backend with
  | HwAccelBackend_Nvenc => Some (canonical_video_codec codec +:+ "_cuvid")
  | HwAccelBackend_Qsv => Some (canonical_video_codec codec +:+ "_qsv")
  | HwAccelBackend_Vaapi => Some (canonical_video_codec codec +:+ "_vaapi")
  | HwAccelBackend_Videotoolbox => None
  end.

Definition encoder_name (self : HwAccelConfig) (codec : string) : string :=
  match HwAccelConfig_backend self with
  | None => software_encoder codec
  | Some backend =>
      match hw_encoder_for_backend backend codec with
      | None => software_encoder codec
      | Some hw_name =>
          match HwAccelConfig_validated_encoders self with
          | Some validated => if str_in validated hw_name then hw_name else software_encoder codec
          | None => hw_name
          end
      end
  end.

Definition has_hw_encoder (self : HwAccelConfig) (codec : string) : bool :=
  match HwAccelConfig_backend self with
  | None => false
  | Some backend =>
      match hw_encoder_for_backend backend codec with
      | None => false
      | Some hw_name =>
          match HwAccelConfig_validated_encoders self with
          | Some validated => str_in validated hw_name
          | None => true
          end
      end
  end.

(** The surface of a backend for [-hwaccel]. *)
Definition decode_surface (backend : HwAccelBackend) : option string :=
  match backend with
  | HwAccelBackend_Nvenc => Some "cuda"
  | HwAccelBackend_Qsv => Some "qsv"
  | HwAccelBackend_Vaapi => Some "vaapi"
  | HwAccelBackend_Videotoolbox => None
  end.

Definition decoder_input_args (self : HwAccelConfig) (source_codec : string) : list string :=
  if negb (HwAccelConfig_hw_decode_enabled self) then []
  else
    match HwAccelConfig_backend self with
    | None => []
    | Some backend =>
        match hw_decoder_for_backend backend source_codec with
        | None => []
        | Some decoder =>
            if negb (str_in (HwAccelConfig_hw_decoders self) decoder) then []
            else match decode_surface backend with
                 | Some surface => ["-hwaccel"; surface; "-hwaccel_output_format"; surface]
                 | None => []
                 end
        end
    end.

Definition config_from_backend_name (name : string) : HwAccelConfig :=
  HwAccelConfig_of_backend
    (if bool_decide (name = "nvenc") then Some HwAccelBackend_Nvenc
     else if bool_decide (name = "qsv") then Some HwAccelBackend_Qsv
     else if bool_decide (name = "vaapi") then Some HwAccelBackend_Vaapi
     else if bool_decide (name = "videotoolbox") then Some HwAccelBackend_Videotoolbox
     else None).

Definition config_from_backend_with_system (name : string) (system : option HwAccelConfig)
    : HwAccelConfig :=
  let config := config_from_backend_name name in
  match HwAccelConfig_backend config, system with
  | Some override_be, Some sys =>
      if bool_decide (HwAccelConfig_backend sys = Some override_be)
      then Build_HwAccelConfig (HwAccelConfig_backend config) (HwAccelConfig_validated_encoders sys)
             (HwAccelConfig_hw_decoders sys) (HwAccelConfig_hw_decode_enabled sys)
             (HwAccelConfig_device sys)
      else config
  | _, _ => config
  end.

(** The backends that a text of [ffmpeg -hwaccels] names, in order of preference. *)
Definition candidates_from_text (text : string) : list HwAccelBackend :=
  (if str_contains "cuda" text || str_contains "nvdec" text then [HwAccelBackend_Nvenc] else []) ++
  (if str_contains "qsv" text then [HwAccelBackend_Qsv] else []) ++
  (if str_contains "vaapi" text then [HwAccelBackend_Vaapi] else []) ++
  (if str_contains "videotoolbox" text then [HwAccelBackend_Videotoolbox] else []).

Definition detect_backend_with_verifier (text : string) (verifier : HwAccelBackend → bool)
    : option HwAccelBackend := List.find verifier (candidates_from_text text).

(** [verifier] is [verify_backend], which looks for the hardware. *)
Definition HwAccelConfig_from_probed (verifier : HwAccelBackend → bool) (hw_accels : list string)
    : HwAccelConfig :=
  HwAccelConfig_of_backend
    (detect_backend_with_verifier (str_join " " (to_ascii_lowercase <$> hw_accels)) verifier).

Definition resolve_hw_config (verifier : HwAccelBackend → bool) (override_name : option string)
    (hw_accels : list string) : HwAccelConfig * string :=
  match (λ s, to_ascii_lowercase (str_trim s)) <$> override_name with
  | Some name =>
      if bool_decide (name = "none") then (HwAccelConfig_new, "disabled")
      else
        let cfg := config_from_backend_name name in
        if HwAccelConfig_enabled cfg then (cfg, "config override")
        else (HwAccelConfig_from_probed verifier hw_accels, "auto-detected")
  | None => (HwAccelConfig_from_probed verifier hw_accels, "auto-detected")
  end.

(** ** [command.rs]: the builder

    [FfmpegCommand] has one field, the arguments; a method pushes to it. *)
Definition FfmpegCommand : Type := list string.

Definition FfmpegCommand_new : FfmpegCommand := ["-y"; "-hide_banner"].

Definition FfmpegCommand_arg (self : FfmpegCommand) (arg : string) : FfmpegCommand := self ++ [arg].

(** A flag and its value. *)
Definition push_option (self : FfmpegCommand) (flag value : string) : FfmpegCommand :=
  self ++ [flag; value].

Definition map_all (self : FfmpegCommand) : FfmpegCommand := push_option self "-map" "0".

Definition map_track (self : FfmpegCommand) (index : u32) : FfmpegCommand :=
  push_option self "-map" ("0:" +:+ pretty index).

Definition is_attachment (t : Track) : bool :=
  bool_decide (Track_track_type t = TrackType_Attachment).

Definition map_non_attachment_tracks (self : FfmpegCommand) (file : MediaFile) : FfmpegCommand :=
  match List.filter (λ t, negb (is_attachment t)) (MediaFile_tracks file) with
  | [] => map_all self
  | tracks => foldl (λ cmd t, map_track cmd (Track_index t)) self tracks
  end.

Definition map_metadata (self : FfmpegCommand) (input_index : u32) : FfmpegCommand :=
  push_option self "-map_metadata" (pretty input_index).

Definition map_chapters (self : FfmpegCommand) (input_index : u32) : FfmpegCommand :=
  push_option self "-map_chapters" (pretty input_index).

Definition codec_copy (self : FfmpegCommand) : FfmpegCommand := push_option self "-c" "copy".

Definition video_codec (self : FfmpegCommand) (codec : string) : FfmpegCommand :=
  push_option self "-c:v" codec.

Definition audio_codec (self : FfmpegCommand) (codec : string) : FfmpegCommand :=
  push_option self "-c:a" codec.

Definition video_codec_for_track (self : FfmpegCommand) (stream : u32) (codec : string)
    : FfmpegCommand := push_option self ("-c:v:" +:+ pretty stream) codec.

Definition audio_codec_for_track (self : FfmpegCommand) (stream : u32) (codec : string)
    : FfmpegCommand := push_option self ("-c:a:" +:+ pretty stream) codec.

Definition FfmpegCommand_metadata (self : FfmpegCommand) (stream_index : option u32)
    (key value : string) : FfmpegCommand :=
  push_option self
    (match stream_index with
     | Some idx => "-metadata:s:" +:+ pretty idx
     | None => "-metadata"
     end) (key +:+ "=" +:+ value).

Definition FfmpegCommand_disposition (self : FfmpegCommand) (stream_index : u32) (value : string)
    : FfmpegCommand := push_option self ("-disposition:" +:+ pretty stream_index) value.

Definition clear_metadata (self : FfmpegCommand) (key : string) : FfmpegCommand :=
  push_option self "-metadata" (key +:+ "=").

Definition video_color_metadata (self : FfmpegCommand) (primaries transfer matrix : string)
    : FfmpegCommand :=
  push_option (push_option (push_option self "-color_primaries" primaries)
    "-color_trc" transfer) "-colorspace" matrix.

Definition audio_filter (self : FfmpegCommand) (stream : option u32) (filter : string)
    : FfmpegCommand :=
  push_option self (match stream with
                    | Some idx => "-filter:a:" +:+ pretty idx
                    | None => "-af"
                    end) filter.

(** ** Audio *)

(** [{:.2}] *)
Definition fmt_hundredths (neg : bool) (t : Z) : string :=
  let frac := pretty (Z.to_N (t mod 100)) in
  (if neg then "-" else "") +:+ pretty (Z.to_N (t / 100)) +:+ "."
  +:+ pad_zeros (2 - String.length frac) frac.

Definition fmt_f64_2 (x : f64) : string :=
  match x with
  | S754_nan => "NaN"
  | S754_infinity s => if s then "-inf" else "inf"
  | S754_zero s => fmt_hundredths s 0
  | S754_finite s m e =>
      fmt_hundredths s
        (if (0 <=? e)%Z then (100 * Z.pos m * 2 ^ e)%Z
         else round_half_even (100 * Z.pos m) (2 ^ (- e)))
  end.

(** The first three settings of [loudnorm]. *)
Definition loudnorm_base (settings : LoudnessNormalization) : string :=
  let lra := default (f64_of_Z 99) (LoudnessNormalization_lra_max settings) in
  "loudnorm=I=" +:+ fmt_f64_1 (LoudnessNormalization_target_lufs settings) +:+ ":TP="
  +:+ fmt_f64_1 (LoudnessNormalization_true_peak_db settings) +:+ ":LRA=" +:+ fmt_f64_1 lra.

Definition loudnorm_filter (settings : LoudnessNormalization) : string :=
  let base := loudnorm_base settings in
  match LoudnessNormalization_measured settings with
  | None => base
  | Some m =>
      base +:+ ":measured_I=" +:+ fmt_f64_2 (LoudnessMeasurement_input_i m)
      +:+ ":measured_TP=" +:+ fmt_f64_2 (LoudnessMeasurement_input_tp m)
      +:+ ":measured_LRA=" +:+ fmt_f64_2 (LoudnessMeasurement_input_lra m)
      +:+ ":measured_thresh=" +:+ fmt_f64_2 (LoudnessMeasurement_input_thresh m)
      +:+ ":offset=" +:+ fmt_f64_2 (LoudnessMeasurement_target_offset m)
      +:+ ":linear=true:print_format=summary"
  end.

Definition apply_audio_codec_args (cmd : FfmpegCommand) (stream : option u32) (encoder : string)
    (bitrate : option string) (channels : option u32) (loudness : option LoudnessNormalization)
    : FfmpegCommand :=
  let cmd := match stream with
             | Some stream => audio_codec_for_track cmd stream encoder
             | None => audio_codec cmd encoder
             end in
  let cmd := match bitrate with Some brate => push_option cmd "-b:a" brate | None => cmd end in
  let cmd := match channels with Some ch => push_option cmd "-ac" (pretty ch) | None => cmd end in
  match loudness with
  | Some settings => audio_filter cmd stream (loudnorm_filter settings)
  | None => cmd
  end.

Definition apply_transcode_audio (cmd : FfmpegCommand) (action : PlannedAction) : FfmpegCommand :=
  match PlannedAction_parameters action with
  | AP_Transcode codec settings =>
      apply_audio_codec_args cmd (PlannedAction_track_index action) (software_encoder codec)
        (TranscodeSettings_bitrate settings)
        (TranscodeSettings_channels settings ≫= TranscodeChannels_to_count)
        (TranscodeSettings_loudness settings)
  | _ => cmd
  end.

Definition apply_synthesize_audio (cmd : FfmpegCommand) (action : PlannedAction) : FfmpegCommand :=
  match PlannedAction_parameters action with
  | AP_Synthesize _ _ codec _ bitrate channels _ _ _ loudness =>
      apply_audio_codec_args cmd (PlannedAction_track_index action)
        (software_encoder (default "aac" codec)) bitrate channels loudness
  | _ => cmd
  end.

(** ** Video *)

(** [-cq], [-global_quality], [-qp], [-q:v] or [-crf] *)
Definition apply_quality (encoder : string) (cmd : FfmpegCommand) (crf : u32) : FfmpegCommand :=
  if ends_with "_nvenc" encoder then push_option cmd "-cq" (pretty crf)
  else if ends_with "_qsv" encoder then push_option cmd "-global_quality" (pretty crf)
  else if ends_with "_vaapi" encoder
  then push_option (push_option cmd "-rc_mode" "CQP") "-qp" (pretty crf)
  else if ends_with "_videotoolbox" encoder then push_option cmd "-q:v" (pretty crf)
  else push_option cmd "-crf" (pretty crf).

Definition apply_preset (encoder : string) (cmd : FfmpegCommand) (preset : string)
    : FfmpegCommand :=
  if negb (ends_with "_vaapi" encoder) then push_option cmd "-preset" preset else cmd.

Definition apply_tune (encoder : string) (cmd : FfmpegCommand) (tune : string) : FfmpegCommand :=
  if negb (ends_with "_nvenc" encoder) && negb (ends_with "_qsv" encoder) &&
     negb (ends_with "_vaapi" encoder) && negb (ends_with "_videotoolbox" encoder)
  then push_option cmd "-tune" tune else cmd.

Definition encoder_supports_hdr (codec : string) : bool :=
  str_in ["hevc"; "h265"; "av1"; "h264"] codec.

(** [str::strip_suffix('p')] *)
Fixpoint strip_suffix_p (s : string) : option string :=
  match s with
  | EmptyString => None
  | String c EmptyString => if bool_decide (c = ascii_of_nat 112) then Some "" else None
  | String c s => String c <$> strip_suffix_p s
  end.

Definition parse_max_height `{Unicode} (spec : string) : option u32 :=
  let s := to_lowercase spec in
  if bool_decide (s = "4k") then Some 2160%N
  else if bool_decide (s = "8k") then Some 4320%N
  else n ← strip_suffix_p s; parse_unsigned u32_MAX n.

(** [owned_config] only gives the override a place to live. *)
Definition resolve_effective_hw (settings : TranscodeSettings) (hw_accel : option HwAccelConfig)
    : option HwAccelConfig :=
  match TranscodeSettings_hw settings with
  | Some backend =>
      if bool_decide (backend = "none") then None
      else
        let cfg := config_from_backend_with_system backend hw_accel in
        if HwAccelConfig_enabled cfg then Some cfg else hw_accel
  | None => hw_accel
  end.

Definition should_tonemap (settings : TranscodeSettings) : bool :=
  bool_decide (TranscodeSettings_hdr_mode settings = Some "tonemap")
  || bool_decide (TranscodeSettings_preserve_hdr settings = Some false)
  || bool_decide (is_Some (TranscodeSettings_tonemap settings)).

Definition should_preserve_hdr (source_track : Track) (settings : TranscodeSettings) : bool :=
  Track_is_hdr source_track && negb (should_tonemap settings)
  && default true (TranscodeSettings_preserve_hdr settings).

Definition tone_map_filter (algorithm : string) : string :=
  "zscale=t=linear:npl=100,format=gbrpf32le,zscale=p=bt709,tonemap=tonemap=" +:+ algorithm
  +:+ ":desat=0,zscale=t=bt709:m=bt709:r=tv,format=yuv420p".

Definition source_video_track (file : MediaFile) (action : PlannedAction) : option Track :=
  stream_index ← PlannedAction_track_index action;
  List.find (λ t, (Track_index t =? stream_index)%N
                  && bool_decide (Track_track_type t = TrackType_Video)) (MediaFile_tracks file).

Definition u32_checked_sub (a b : u32) : option u32 := if (b <=? a)%N then Some (a - b)%N else None.

Definition crop_filter (file : MediaFile) (action : PlannedAction) (settings : TranscodeSettings)
    : option string :=
  _ ← TranscodeSettings_crop settings;
  detection ← MediaFile_crop_detection file;
  let rect := CropDetection_rect detection in
  if CropRect_is_empty rect then None
  else
    track ← source_video_track file action;
    source_width ← Track_width track;
    source_height ← Track_height track;
    width ← (w ← u32_checked_sub source_width (CropRect_left rect);
             u32_checked_sub w (CropRect_right rect));
    height ← (h ← u32_checked_sub source_height (CropRect_top rect);
              u32_checked_sub h (CropRect_bottom rect));
    let width := (width - width mod 2)%N in
    let height := (height - height mod 2)%N in
    if (width =? 0)%N || (height =? 0)%N then None
    else Some ("crop=" +:+ pretty width +:+ ":" +:+ pretty height +:+ ":"
               +:+ pretty (CropRect_left rect) +:+ ":" +:+ pretty (CropRect_top rect)).

Section video.
Context `{Unicode}.

Definition scale_filter (settings : TranscodeSettings) : option string :=
  max_res ← TranscodeSettings_max_resolution settings;
  max_h ← parse_max_height max_res;
  let algo := default "lanczos" (TranscodeSettings_scale_algorithm settings) in
  Some ("scale=-2:" +:+ squote +:+ "min(ih," +:+ pretty max_h +:+ ")" +:+ squote +:+ ":flags="
        +:+ algo).

Definition collect_video_filters (file : MediaFile) (action : PlannedAction) : list string :=
  match PlannedAction_parameters action with
  | AP_Transcode _ settings =>
      option_list (crop_filter file action settings) ++
      option_list (scale_filter settings) ++
      let explicit_tonemap :=
        bool_decide (TranscodeSettings_hdr_mode settings = Some "tonemap") in
      let source_is_hdr :=
        match source_video_track file action with Some t => Track_is_hdr t | None => false end in
      if should_tonemap settings && (explicit_tonemap || source_is_hdr)
      then [tone_map_filter (default "bt2390" (TranscodeSettings_tonemap settings))] else []
  | _ => []
  end.

Definition requires_software_video_filters (settings : TranscodeSettings) : bool :=
  bool_decide (is_Some (TranscodeSettings_max_resolution settings ≫= parse_max_height))
  || should_tonemap settings
  || bool_decide (is_Some (TranscodeSettings_crop settings)).

Definition hdr_color_primaries (track : Track) : string :=
  default "bt2020" (Track_color_primaries track).

Definition hdr_color_transfer (track : Track) : string :=
  default "smpte2084" (Track_color_transfer track).

Definition hdr_color_matrix (track : Track) : string :=
  default "bt2020nc" (Track_color_matrix track).

Definition x265_hdr_params (track : Track) : string :=
  str_join ":"
    (["colorprim=" +:+ hdr_color_primaries track; "transfer=" +:+ hdr_color_transfer track;
      "colormatrix=" +:+ hdr_color_matrix track] ++
     match Track_master_display track with Some d => ["master-display=" +:+ d] | None => [] end ++
     match Track_max_cll track, Track_max_fall track with
     | Some max_cll, Some max_fall => ["max-cll=" +:+ pretty max_cll +:+ "," +:+ pretty max_fall]
     | _, _ => []
     end).

Definition ffmpeg_error (message : string) : VoomError := VoomError_ToolExecution "ffmpeg" message.

Definition apply_hdr_preservation (cmd : FfmpegCommand) (encoder codec : string)
    (source_track : Track) : result VoomError FfmpegCommand :=
  if negb (encoder_supports_hdr codec) then
    Err (ffmpeg_error ("cannot preserve " +:+ default "source" (Track_hdr_format source_track)
           +:+ " HDR metadata while transcoding to " +:+ codec
           +:+ "; choose hevc or av1, or set preserve_hdr: false to tone-map to SDR"))
  else
    let cmd := video_color_metadata cmd (hdr_color_primaries source_track)
                 (hdr_color_transfer source_track) (hdr_color_matrix source_track) in
    if bool_decide (codec = "hevc") || str_contains "265" encoder || str_contains "hevc" encoder then
      let pix_fmt := if ends_with "_vaapi" encoder || ends_with "_qsv" encoder ||
                        ends_with "_nvenc" encoder then "p010le" else "yuv420p10le" in
      let cmd := push_option cmd "-pix_fmt" pix_fmt in
      Ok (if bool_decide (encoder = "libx265")
          then push_option cmd "-x265-params" (x265_hdr_params source_track) else cmd)
    else Ok cmd.

Definition apply_sdr_color_metadata (cmd : FfmpegCommand) : FfmpegCommand :=
  video_color_metadata cmd "bt709" "bt709" "bt709".

(** The check for [hw_fallback]. *)
Definition check_hw_fallback (settings : TranscodeSettings) (codec : string)
    (effective_hw : option HwAccelConfig) : result VoomError unit :=
  let hw_requested := match TranscodeSettings_hw settings with
                      | Some v => negb (bool_decide (v = "none"))
                      | None => false
                      end in
  if hw_requested && bool_decide (TranscodeSettings_hw_fallback settings = Some false) then
    match effective_hw with
    | Some hw_cfg =>
        if has_hw_encoder hw_cfg codec then Ok tt
        else Err (ffmpeg_error ("HW encoder for " +:+ codec
               +:+ " not available on this device and hw_fallback is disabled"))
    | None => Err (ffmpeg_error ("no HW acceleration backend available for " +:+ codec
               +:+ " and hw_fallback is disabled"))
    end
  else Ok tt.

Definition video_encoder (effective_hw : option HwAccelConfig) (codec : string) : string :=
  match effective_hw with
  | Some hw_cfg => encoder_name hw_cfg codec
  | None => software_encoder codec
  end.

(** Codec, quality, preset, tune and bitrate. *)
Definition video_encoder_args (cmd : FfmpegCommand) (stream : option u32) (encoder : string)
    (settings : TranscodeSettings) : FfmpegCommand :=
  let cmd := match stream with
             | Some stream => video_codec_for_track cmd stream encoder
             | None => video_codec cmd encoder
             end in
  let cmd := match TranscodeSettings_crf settings with
             | Some crf => apply_quality encoder cmd crf | None => cmd end in
  let cmd := match TranscodeSettings_preset settings with
             | Some preset => apply_preset encoder cmd preset | None => cmd end in
  let cmd := match TranscodeSettings_tune settings with
             | Some tune => apply_tune encoder cmd tune | None => cmd end in
  match TranscodeSettings_bitrate settings with
  | Some brate => push_option cmd "-b:v" brate
  | None => cmd
  end.

Definition apply_transcode_video (cmd : FfmpegCommand) (file : MediaFile) (action : PlannedAction)
    (hw_accel : option HwAccelConfig) : result VoomError FfmpegCommand :=
  match PlannedAction_parameters action with
  | AP_Transcode codec settings =>
      let effective_hw := resolve_effective_hw settings hw_accel in
      _ ← check_hw_fallback settings codec effective_hw;
      let encoder := video_encoder effective_hw codec in
      let cmd := video_encoder_args cmd (PlannedAction_track_index action) encoder settings in
      cmd ← match source_video_track file action with
            | Some source_track =>
                if should_preserve_hdr source_track settings
                then apply_hdr_preservation cmd encoder codec source_track
                else if Track_is_hdr source_track && should_tonemap settings
                then Ok (apply_sdr_color_metadata cmd)
                else Ok cmd
            | None => Ok cmd
            end;
      Ok (match collect_video_filters file action with
          | [] => cmd
          | filters => push_option cmd "-vf" (str_join "," filters)
          end)
  | _ => Ok cmd
  end.

Definition pixel_format_allows_direct_hw_decode (pixel_format : option string) : bool :=
  match pixel_format with
  | None => true
  | Some format =>
      let lower := to_ascii_lowercase format in
      forallb (λ pat, negb (str_contains pat lower)) ["alpha"; "yuva"; "rgba"; "bgra"; "gbr"; "rgb"]
  end.

Definition action_allows_direct_hw_decode (file : MediaFile) (action : PlannedAction)
    (hw_cfg : HwAccelConfig) : list string :=
  match PlannedAction_parameters action with
  | AP_Transcode codec settings =>
      if negb (has_hw_encoder hw_cfg codec) then []
      else if requires_software_video_filters settings then []
      else
        match source_video_track file action with
        | Some track =>
            if negb (pixel_format_allows_direct_hw_decode (Track_pixel_format track)) then []
            else decoder_input_args hw_cfg (Track_codec track)
        | None => []
        end
  | _ => []
  end.

(** The first non-empty decode arguments of an action. *)
Fixpoint hw_decode_args (file : MediaFile) (hw_accel : option HwAccelConfig)
    (actions : list PlannedAction) : list string :=
  match actions with
  | [] => []
  | action :: actions =>
      let args :=
        if negb (bool_decide (PlannedAction_operation action = Op_TranscodeVideo)) then []
        else match PlannedAction_parameters action with
             | AP_Transcode _ settings =>
                 match resolve_effective_hw settings hw_accel with
                 | Some effective_hw => action_allows_direct_hw_decode file action effective_hw
                 | None => []
                 end
             | _ => []
             end in
      match args with
      | [] => hw_decode_args file hw_accel actions
      | _ => args
      end
  end.
End video.

(** ** Metadata of streams *)
Record OutputTrackMetadata : Type := {
  OTM_output_index : u32;
  OTM_input_index : u32;
  OTM_language : string;
  OTM_title : string;
  OTM_is_default : bool;
  OTM_is_forced : bool;
}.

Definition OTM_from_track (output_index : u32) (track : Track) : OutputTrackMetadata := {|
  OTM_output_index := output_index;
  OTM_input_index := Track_index track;
  OTM_language := Track_language track;
  OTM_title := Track_title track;
  OTM_is_default := Track_is_default track;
  OTM_is_forced := Track_is_forced track;
|}.

Definition disposition_value (m : OutputTrackMetadata) : string :=
  match OTM_is_default m, OTM_is_forced m with
  | true, true => "default+forced"
  | true, false => "default"
  | false, true => "forced"
  | false, false => "0"
  end.

(** [output_index as u32] keeps the low bits. *)
Definition usize_as_u32 (n : nat) : u32 := (N.of_nat n mod 4294967296)%N.

Definition output_tracks (file : MediaFile) (exclude_attachments : bool) : list Track :=
  List.filter (λ t, negb (exclude_attachments && is_attachment t)) (MediaFile_tracks file).

Definition output_track_metadata (file : MediaFile) (exclude_attachments : bool)
    : list OutputTrackMetadata :=
  imap (λ i t, OTM_from_track (usize_as_u32 i) t) (output_tracks file exclude_attachments).

Definition OTM_set_default (b : bool) (m : OutputTrackMetadata) : OutputTrackMetadata :=
  Build_OutputTrackMetadata (OTM_output_index m) (OTM_input_index m) (OTM_language m) (OTM_title m)
    b (OTM_is_forced m).

Definition OTM_set_forced (b : bool) (m : OutputTrackMetadata) : OutputTrackMetadata :=
  Build_OutputTrackMetadata (OTM_output_index m) (OTM_input_index m) (OTM_language m) (OTM_title m)
    (OTM_is_default m) b.

Definition OTM_set_title (s : string) (m : OutputTrackMetadata) : OutputTrackMetadata :=
  Build_OutputTrackMetadata (OTM_output_index m) (OTM_input_index m) (OTM_language m) s
    (OTM_is_default m) (OTM_is_forced m).

Definition OTM_set_language (s : string) (m : OutputTrackMetadata) : OutputTrackMetadata :=
  Build_OutputTrackMetadata (OTM_output_index m) (OTM_input_index m) s (OTM_title m)
    (OTM_is_default m) (OTM_is_forced m).

(** The change of one action to its stream. *)
Definition stream_change (action : PlannedAction)
    : result VoomError (OutputTrackMetadata → OutputTrackMetadata) :=
  match PlannedAction_operation action with
  | Op_SetDefault => Ok (OTM_set_default true)
  | Op_ClearDefault => Ok (OTM_set_default false)
  | Op_SetForced => Ok (OTM_set_forced true)
  | Op_ClearForced => Ok (OTM_set_forced false)
  | Op_SetTitle =>
      match PlannedAction_parameters action with
      | AP_Title title => _ ← validate_metadata_value title; Ok (OTM_set_title title)
      | _ => Ok id
      end
  | Op_SetLanguage =>
      match PlannedAction_parameters action with
      | AP_Language language => _ ← validate_metadata_value language; Ok (OTM_set_language language)
      | _ => Ok id
      end
  | _ => Ok id
  end.

(** [iter_mut().find(p)] and a change of what it finds *)
Fixpoint update_first {A} (p : A → bool) (f : A → A) (l : list A) : list A :=
  match l with
  | [] => []
  | x :: l => if p x then f x :: l else x :: update_first p f l
  end.

Fixpoint apply_track_metadata_actions (streams : list OutputTrackMetadata)
    (actions : list PlannedAction) : result VoomError (list OutputTrackMetadata) :=
  match actions with
  | [] => Ok streams
  | action :: actions =>
      match PlannedAction_track_index action with
      | None => apply_track_metadata_actions streams actions
      | Some track_index =>
          let is_stream := λ m, (OTM_input_index m =? track_index)%N in
          if existsb is_stream streams then
            f ← stream_change action;
            apply_track_metadata_actions (update_first is_stream f streams) actions
          else apply_track_metadata_actions streams actions
      end
  end.

(** The three options of one output stream. *)
Definition stream_metadata_args (cmd : FfmpegCommand) (m : OutputTrackMetadata)
    : result VoomError FfmpegCommand :=
  _ ← validate_metadata_value (OTM_language m);
  _ ← validate_metadata_value (OTM_title m);
  Ok (FfmpegCommand_disposition
        (FfmpegCommand_metadata
           (FfmpegCommand_metadata cmd (Some (OTM_output_index m)) "language" (OTM_language m))
           (Some (OTM_output_index m)) "title" (OTM_title m))
        (OTM_output_index m) (disposition_value m)).

(** A loop that threads the command. *)
Fixpoint try_foldl {A} (f : FfmpegCommand → A → result VoomError FfmpegCommand)
    (cmd : FfmpegCommand) (l : list A) {struct l} : result VoomError FfmpegCommand :=
  match l with
  | [] => Ok cmd
  | x :: l => cmd ← f cmd x; try_foldl f cmd l
  end.

Definition apply_preserved_stream_metadata (cmd : FfmpegCommand) (file : MediaFile)
    (exclude_attachments : bool) (actions : list PlannedAction)
    : result VoomError FfmpegCommand :=
  match output_track_metadata file exclude_attachments with
  | [] => Ok cmd
  | streams =>
      streams ← apply_track_metadata_actions streams actions;
      try_foldl stream_metadata_args (map_chapters (map_metadata cmd 0) 0) streams
  end.

(** ** The whole command *)

(** [{:?}] of a string *)
Class StrDebug := str_debug : string → string.

Section command.
Context `{Unicode} `{StrDebug}.

Definition validate_metadata_key (key : string) : result VoomError string :=
  if bool_decide (key = "") then Err (VoomError_Validation "metadata key cannot be empty")
  else
    _ ← validate_metadata_value key;
    if str_contains "=" key
    then Err (VoomError_Validation
           ("metadata key contains '=' which would corrupt key=value parsing: " +:+ str_debug key))
    else Ok key.

Definition apply_action (file : MediaFile) (hw_accel : option HwAccelConfig) (cmd : FfmpegCommand)
    (action : PlannedAction) : result VoomError FfmpegCommand :=
  match PlannedAction_operation action with
  | Op_TranscodeVideo => apply_transcode_video cmd file action hw_accel
  | Op_TranscodeAudio => Ok (apply_transcode_audio cmd action)
  | Op_SynthesizeAudio => Ok (apply_synthesize_audio cmd action)
  | Op_SetContainerTag =>
      match PlannedAction_parameters action with
      | AP_SetTag tag value =>
          _ ← validate_metadata_key tag;
          _ ← validate_metadata_value value;
          Ok (FfmpegCommand_metadata cmd None tag value)
      | _ => Ok cmd
      end
  | Op_ClearContainerTags =>
      match PlannedAction_parameters action with
      | AP_ClearTags tags =>
          try_foldl (λ cmd tag, _ ← validate_metadata_key tag; Ok (clear_metadata cmd tag)) cmd tags
      | _ => Ok cmd
      end
  | Op_DeleteContainerTag =>
      match PlannedAction_parameters action with
      | AP_DeleteTag tag => _ ← validate_metadata_key tag; Ok (clear_metadata cmd tag)
      | _ => Ok cmd
      end
  | _ => Ok cmd
  end.

Definition has_transcode_video (actions : list PlannedAction) : bool :=
  existsb (λ a, bool_decide (PlannedAction_operation a = Op_TranscodeVideo)) actions.

Definition build_ffmpeg_command (file : MediaFile) (actions : list PlannedAction)
    (output_path : PathBuf) (hw_accel : option HwAccelConfig) : result VoomError (list string) :=
  let cmd := FfmpegCommand_new ++
             match hw_accel with Some hw => device_args hw | None => [] end ++
             hw_decode_args file hw_accel actions in
  let exclude_attachments := has_transcode_video actions in
  let cmd := push_option cmd "-i" (to_string_lossy (MediaFile_path file)) in
  let cmd := if exclude_attachments then map_non_attachment_tracks cmd file else map_all cmd in
  let cmd := codec_copy cmd in
  cmd ← try_foldl (apply_action file hw_accel) cmd actions;
  cmd ← apply_preserved_stream_metadata cmd file exclude_attachments actions;
  Ok (FfmpegCommand_arg cmd (to_string_lossy output_path)).

(** [to_str] gives [None] on names that are not UTF-8. *)
Definition output_extension (to_str : string → option string) (file : MediaFile)
    (actions : list PlannedAction) : string :=
  let target := λ a,
    match PlannedAction_operation a, PlannedAction_parameters a with
    | Op_ConvertContainer, AP_Container container => Some (Container_as_str container)
    | _, _ => None
    end in
  match omap target actions with
  | ext :: _ => ext
  | [] =>
      match MediaFile_container file with
      | Container_Other => default "mkv" (path_extension (MediaFile_path file) ≫= to_str)
      | c => Container_as_str c
      end
  end.
End command.
