(* ===== verification/VmafSearch.v ===== *)
(** * The search for a quality target in the FFmpeg executor

    [plugins/ffmpeg-executor/src/vmaf_iterate.rs] and the parts of [vmaf.rs] it
    uses: encode a sample with a CRF, measure its VMAF score, and bisect the CRF
    until the score is close to the target. Encoding, measuring and sampling are
    traits of the code and classes here; [FullSample] and [FfmpegEncodeAttempt] are the
    instances that the executor uses. The subtraction [high - low] of the
    code is checked or wraps depending on how it is built: [checks] tells. *)
From S2P Require Import Prelude Json Plan Process CropDetect FfmpegCommand.

(** ** Data *)
Inductive VmafModel : Type := VmafModel_V061 | VmafModel_V4k | VmafModel_Phone.

Definition VmafModel_file_name (m : VmafModel) : string :=
  match m with
  | VmafModel_V061 => "vmaf_v0.6.1.json"
  | VmafModel_V4k => "vmaf_4k_v0.6.1.json"
  | VmafModel_Phone => "vmaf_phone_v0.6.1.json"
  end.

Inductive VmafError : Type :=
| VmafError_LibvmafUnavailable
| VmafError_ModelNotFound (model : VmafModel)
| VmafError_FfmpegFailed (exit_status : i32) (stderr : string)
| VmafError_ParseFailed (message : string)
| VmafError_Io (error : string).

Inductive SampleError : Type :=
| SampleError_InvalidInput (message : string)
| SampleError_FfmpegFailed (exit_status : i32) (stderr : string)
| SampleError_ParseFailed (message : string)
| SampleError_Io (error : string).

Record BitrateBounds : Type := {
  BitrateBounds_min_bitrate : option string;
  BitrateBounds_max_bitrate : option string;
}.

Record IterationResult : Type := {
  IterationResult_final_crf : u32;
  IterationResult_final_bitrate : option string;
  IterationResult_achieved_vmaf : f64;
  IterationResult_iterations : u32;
}.

Inductive IterationError : Type :=
| IterationError_InvalidInput (message : string)
| IterationError_Sample (error : SampleError)
| IterationError_Vmaf (error : VmafError)
| IterationError_FfmpegFailed (exit_status : i32) (stderr : string)
| IterationError_Io (error : string)
| IterationError_MaxIterationsExceeded (result : IterationResult).

(** A computation returns, or panics on an arithmetic overflow. *)
Inductive checked (A : Type) : Type :=
| Finished (a : A)
| Overflowed.
Arguments Finished {A} _.
Arguments Overflowed {A}.

Definition DEFAULT_START_CRF : u32 := 23.
Definition MIN_CRF : u32 := 0.
Definition MAX_CRF : u32 := 51.
Definition TARGET_TOLERANCE : f64 := f64_of_Z 2.

Definition pick_model_for_resolution (width height : u32) : VmafModel :=
  let short_edge := N.min width height in
  let long_edge := N.max width height in
  if (2160 <=? short_edge)%N || (3840 <=? long_edge)%N then VmafModel_V4k
  else if (width <=? 1080)%N && (width <? height)%N then VmafModel_Phone
  else VmafModel_V061.

Definition validate_inputs (target_vmaf max_iterations : u32) : result IterationError unit :=
  if negb ((60 <=? target_vmaf)%N && (target_vmaf <=? 100)%N) then
    Err (IterationError_InvalidInput "target_vmaf must be from 60 to 100")
  else if (max_iterations =? 0)%N then
    Err (IterationError_InvalidInput "max_iterations must be greater than zero")
  else Ok tt.

(** ** Bisection *)
Definition update_bounds (achieved : f64) (target_vmaf crf low high : u32) : u32 * u32 :=
  if f64_ltb achieved (f64_of_N target_vmaf) then (low, (crf - 1)%N)
  else (N.min (u32_saturating_add crf 1) MAX_CRF, high).

Definition u32_modulus : N := 4294967296.

(** [low + ((high - low) / 2)] *)
Definition next_crf (checks : bool) (low high : u32) : option u32 :=
  if (low <=? high)%N then Some (low + (high - low) / 2)%N
  else if checks then None
  else Some ((low + (high + u32_modulus - low) / 2) mod u32_modulus)%N.

Definition on_target (target_vmaf : u32) (achieved : f64) : bool :=
  f64_leb (f64_abs (f64_sub achieved (f64_of_N target_vmaf))) TARGET_TOLERANCE.

(** The traits [EncodeAttempt] and [SampleExtractor]. *)
Class EncodeAttempt (S : Type) := {
  encode_sample : PathBuf → PathBuf → u32 → BitrateBounds → World S →
                  result VmafError (option string) * World S;
  measure_vmaf : PathBuf → PathBuf → VmafModel → World S → result VmafError f64 * World S;
}.

Class SampleExtractor (S : Type) :=
  extract_sample : PathBuf → PathBuf → World S → result SampleError unit * World S.

Section search.
Context {S : Type} `{EncodeAttempt S} (checks : bool).
Context (reference work_dir : PathBuf) (target_vmaf : u32) (bounds : BitrateBounds).
Context (model : VmafModel).

(** One encode and its score. *)
Definition attempt (iteration crf : u32) (w : World S)
    : result IterationError IterationResult * World S :=
  let encoded := path_join work_dir ("encoded-" +:+ pretty iteration +:+ ".mkv") in
  match encode_sample reference encoded crf bounds w with
  | (Err e, w) => (Err (IterationError_Vmaf e), w)
  | (Ok bitrate, w) =>
      match measure_vmaf reference encoded model w with
      | (Err e, w) => (Err (IterationError_Vmaf e), w)
      | (Ok achieved, w) =>
          (Ok {| IterationResult_final_crf := crf; IterationResult_final_bitrate := bitrate;
                 IterationResult_achieved_vmaf := achieved;
                 IterationResult_iterations := iteration |}, w)
      end
  end.

(** The loop [for iteration in 1..=max_iterations]; [n] iterations are left. *)
Fixpoint bisect (n : nat) (iteration low high crf : u32) (last : option IterationResult)
    (w : World S) : checked (result IterationError IterationResult) * World S :=
  match n with
  | O =>
      (Finished (Err (match last with
                      | Some r => IterationError_MaxIterationsExceeded r
                      | None => IterationError_InvalidInput
                                  "max_iterations must be greater than zero"
                      end)), w)
  | Datatypes.S n =>
      match attempt iteration crf w with
      | (Err e, w) => (Finished (Err e), w)
      | (Ok r, w) =>
          let achieved := IterationResult_achieved_vmaf r in
          if on_target target_vmaf achieved then (Finished (Ok r), w)
          else
            let '(low, high) := update_bounds achieved target_vmaf crf low high in
            match next_crf checks low high with
            | Some crf => bisect n (iteration + 1) low high crf (Some r) w
            | None => (Overflowed, w)
            end
      end
  end.

Definition run_bisection (max_iterations : u32) (w : World S)
    : checked (result IterationError IterationResult) * World S :=
  bisect (N.to_nat max_iterations) 1 MIN_CRF MAX_CRF DEFAULT_START_CRF None w.
End search.

(** ** The run in a working directory *)

(** [fs::create_dir_all] and [fs::remove_dir_all] *)
Definition fs_create_dir_all {S} (p : PathBuf) : World S → result string unit * World S :=
  fs_call (λ files, Ok files).

Definition under (dir : PathBuf) (k : bool * list string) : bool :=
  bool_decide (k.1 = (path_key dir).1 ∧ (path_key dir).2 `prefix_of` k.2).

Definition fs_remove_dir_all {S} (p : PathBuf) : World S → result string unit * World S :=
  fs_call (λ files, Ok (filter (λ kv, under p kv.1 = false) files)).

Definition cleanup_work_dir {S} (result : checked (result IterationError IterationResult))
    (work_dir : PathBuf) (w : World S)
    : checked (Prelude.result IterationError IterationResult) * World S :=
  match result with
  | Overflowed => (Overflowed, w)
  | Finished r =>
      let '(cleanup, w) := fs_remove_dir_all work_dir w in
      (Finished (match r, cleanup with
                 | Ok v, Ok _ => Ok v
                 | Ok _, Err error => Err (IterationError_Io error)
                 | Err error, _ => Err error
                 end), w)
  end.

(** [serde_json::from_slice], with the text of its error *)
Class JsonParse := json_from_slice : string → result string JValue.

Definition JValue_as_u64 (v : JValue) : option u64 :=
  match v with JNumber (Number_PosInt n) => Some n | _ => None end.

Definition as_u32 (n : u64) : option u32 := if (n <=? u32_MAX)%N then Some n else None.

(** [stream.get(key)?.as_u64()?.try_into().ok()?] *)
Definition get_u32_field (key : string) (stream : JValue) : option u32 :=
  v ← JValue_get key stream; n ← JValue_as_u64 v; as_u32 n.

(** [value.pointer("/streams/0")] *)
Definition first_stream (value : JValue) : option JValue :=
  streams ← JValue_get "streams" value;
  match streams with
  | JArray l => head l
  | _ => JValue_get "0" streams
  end.

Definition parse_resolution_output `{JsonParse} (output : Output) : option (u32 * u32) :=
  if negb (ExitStatus_success (Output_status output)) then None
  else
    value ← match json_from_slice (Output_stdout output) with Ok v => Some v | Err _ => None end;
    stream ← first_stream value;
    width ← get_u32_field "width" stream;
    height ← get_u32_field "height" stream;
    Some (width, height).

Definition source_resolution {S} `{Children} `{Unicode} `{JsonParse} (source : PathBuf)
    (w : World S) : option (u32 * u32) * World S :=
  match run_with_timeout "ffprobe"
          ["-v"; "error"; "-select_streams"; "v:0"; "-show_entries"; "stream=width,height"; "-of";
           "json"; to_string_lossy source] 30 w with
  | (Ok output, w) => (parse_resolution_output output, w)
  | (Err _, w) => (None, w)
  end.

Definition model_for_source {S} `{Children} `{Unicode} `{JsonParse} (source : PathBuf)
    (w : World S) : VmafModel * World S :=
  match source_resolution source w with
  | (Some (width, height), w) => (pick_model_for_resolution width height, w)
  | (None, w) => (VmafModel_V061, w)
  end.

Section iterate.
Context {S : Type} `{EncodeAttempt S} `{SampleExtractor S} `{Children} `{Unicode} `{JsonParse}.
Context (checks : bool).

Definition iterate_in_dir (source : PathBuf) (target_vmaf : u32) (bounds : BitrateBounds)
    (max_iterations : u32) (work_dir : PathBuf) (w : World S)
    : checked (result IterationError IterationResult) * World S :=
  let reference := path_join work_dir "reference.mkv" in
  match extract_sample source reference w with
  | (Err e, w) => (Finished (Err (IterationError_Sample e)), w)
  | (Ok _, w) =>
      let '(model, w) := model_for_source source w in
      run_bisection checks reference work_dir target_vmaf bounds model max_iterations w
  end.

(** [dir_id] is the identifier in the name of the working directory. *)
Definition iterate_to_target_with (temp_dir : PathBuf) (dir_id : string) (source : PathBuf)
    (target_vmaf : u32) (bounds : BitrateBounds) (max_iterations : u32) (w : World S)
    : checked (result IterationError IterationResult) * World S :=
  match validate_inputs target_vmaf max_iterations with
  | Err e => (Finished (Err e), w)
  | Ok _ =>
      let work_dir := path_join temp_dir ("voom-vmaf-iterate-" +:+ dir_id) in
      match fs_create_dir_all work_dir w with
      | (Err e, w) => (Finished (Err (IterationError_Io e)), w)
      | (Ok _, w) =>
          let '(result, w) :=
            iterate_in_dir source target_vmaf bounds max_iterations work_dir w in
          cleanup_work_dir result work_dir w
      end
  end.
End iterate.

(** ** The attempt with [ffmpeg] *)
Definition add_bitrate_args (bounds : BitrateBounds) : list string :=
  match BitrateBounds_max_bitrate bounds, BitrateBounds_min_bitrate bounds with
  | Some b, _ => ["-b:v"; b; "-maxrate"; b; "-bufsize"; b]
  | None, Some b => ["-b:v"; b]
  | None, None => []
  end ++
  match BitrateBounds_min_bitrate bounds with Some b => ["-minrate"; b] | None => [] end.

Definition selected_bitrate (bounds : BitrateBounds) : option string :=
  match BitrateBounds_max_bitrate bounds with
  | Some b => Some b
  | None => BitrateBounds_min_bitrate bounds
  end.

Definition sample_encode_args `{Unicode} (source dest : PathBuf) (crf : u32)
    (bounds : BitrateBounds) : list string :=
  ["-hide_banner"; "-loglevel"; "error"; "-y"; "-i"; to_string_lossy source; "-map"; "0:v:0";
   "-an"; "-c:v"; "libx264"; "-crf"; pretty crf] ++
  add_bitrate_args bounds ++ [to_string_lossy dest].

Definition encode_sample_with_ffmpeg {S} `{Children} `{Unicode} (source dest : PathBuf) (crf : u32)
    (bounds : BitrateBounds) (w : World S) : result IterationError (option string) * World S :=
  match run_with_timeout "ffmpeg" (sample_encode_args source dest crf bounds) 14400 w with
  | (Ok output, w) =>
      (if ExitStatus_success (Output_status output) then Ok (selected_bitrate bounds)
       else Err (IterationError_FfmpegFailed
                   (default (-1)%Z (ExitStatus_code (Output_status output)))
                   (to_string_lossy (Output_stderr output))), w)
  | (Err e, w) => (Err (IterationError_FfmpegFailed (-1) (VoomError_to_string e)), w)
  end.

(** ** Measuring with [libvmaf]: [vmaf.rs] *)

(** The variable [HOME] and [is_dir] of the system *)
Class VmafHost := {
  host_home : option string;
  host_is_dir : PathBuf → bool;
}.

Record VmafEnvironment : Type := {
  VmafEnvironment_libvmaf_supported : bool;
  VmafEnvironment_model_dir : option PathBuf;
}.

Definition VMAF_MODEL_DIRS : list PathBuf :=
  ["/usr/share/model"; "/usr/local/share/model"; "/opt/homebrew/share/libvmaf/model"].

Definition model_dir_candidates `{VmafHost} : list PathBuf :=
  VMAF_MODEL_DIRS ++
  match host_home with Some home => [path_join home ".config/voom/vmaf-models"] | None => [] end.

Definition resolve_vmaf_model_dir `{VmafHost} : option PathBuf :=
  List.find host_is_dir model_dir_candidates.

(** [output.lines().any(|line| line.split_whitespace().any(|token| token == "libvmaf"))] *)
Definition output_reports_libvmaf (output : string) : bool :=
  str_contains "--enable-libvmaf" output
  || existsb (λ line,
       bool_decide ("libvmaf" ∈ split_chars (λ c, bool_decide (c ∈ whitespace_list)) "" (str_chars line)))
       (str_lines output).

(** The texts of the errors *)
Definition VmafModel_debug (m : VmafModel) : string :=
  match m with VmafModel_V061 => "V061" | VmafModel_V4k => "V4k" | VmafModel_Phone => "Phone" end.

Definition VmafError_to_string (e : VmafError) : string :=
  match e with
  | VmafError_LibvmafUnavailable => "ffmpeg does not support libvmaf"
  | VmafError_ModelNotFound model => "VMAF model not found: " +:+ VmafModel_debug model
  | VmafError_FfmpegFailed status stderr =>
      "ffmpeg libvmaf failed with exit status " +:+ pretty status +:+ ": " +:+ stderr
  | VmafError_ParseFailed message => "failed to parse VMAF JSON: " +:+ message
  | VmafError_Io error => "I/O error during VMAF measurement: " +:+ error
  end.

Definition SampleError_to_string (e : SampleError) : string :=
  match e with
  | SampleError_InvalidInput message => "invalid sample request: " +:+ message
  | SampleError_FfmpegFailed status stderr =>
      "ffmpeg sample extraction failed with exit status " +:+ pretty status +:+ ": " +:+ stderr
  | SampleError_ParseFailed message => "sample extraction parse error: " +:+ message
  | SampleError_Io error => "sample extraction I/O error: " +:+ error
  end.

Definition IterationError_to_string (e : IterationError) : string :=
  match e with
  | IterationError_InvalidInput message => "invalid VMAF iteration input: " +:+ message
  | IterationError_Sample error => "sample extraction failed: " +:+ SampleError_to_string error
  | IterationError_Vmaf error => VmafError_to_string error
  | IterationError_FfmpegFailed status stderr =>
      "ffmpeg sample encode failed with exit status " +:+ pretty status +:+ ": " +:+ stderr
  | IterationError_Io error => "I/O error during VMAF iteration: " +:+ error
  | IterationError_MaxIterationsExceeded result =>
      "VMAF iteration did not converge after " +:+ pretty (IterationResult_iterations result)
      +:+ " iterations; last score " +:+ fmt_f64_2 (IterationResult_achieved_vmaf result)
  end.

(** [value.pointer("/pooled_metrics/vmaf/mean").and_then(as_f64)] *)
Definition pooled_vmaf_mean (value : JValue) : option f64 :=
  metrics ← JValue_get "pooled_metrics" value;
  vmaf ← JValue_get "vmaf" metrics;
  mean ← JValue_get "mean" vmaf;
  match mean with JNumber n => Number_as_f64 n | _ => None end.

Definition parse_vmaf_score `{JsonParse} (stdout : string) : result VmafError f64 :=
  match json_from_slice stdout with
  | Err e => Err (VmafError_ParseFailed e)
  | Ok value =>
      match pooled_vmaf_mean value with
      | Some score => Ok score
      | None => Err (VmafError_ParseFailed "missing pooled_metrics.vmaf.mean")
      end
  end.

Definition vmaf_filter `{Unicode} (model_path : option PathBuf) (log_path : PathBuf) : string :=
  "libvmaf=" +:+
  match model_path with
  | Some m => "model=path=" +:+ to_string_lossy m +:+ ":"
  | None => ""
  end +:+ "log_path=" +:+ to_string_lossy log_path +:+ ":log_fmt=json".

Definition ffmpeg_vmaf_args `{Unicode} (reference distorted : PathBuf) (model_path : option PathBuf)
    (log_path : PathBuf) : list string :=
  ["-hide_banner"; "-i"; to_string_lossy reference; "-i"; to_string_lossy distorted; "-lavfi";
   vmaf_filter model_path log_path; "-f"; "null"; "-"].

Section measure.
Context {S : Type} `{Children} `{Unicode} `{JsonParse} `{VmafHost}.

Definition run_ffmpeg_probe (args : list string) (w : World S) : option string * World S :=
  match run_with_timeout "ffmpeg" args 5 w with
  | (Ok output, w) =>
      (if negb (ExitStatus_success (Output_status output)) then None
       else Some (to_string_lossy (Output_stdout output) +:+ to_string_lossy (Output_stderr output)), w)
  | (Err _, w) => (None, w)
  end.

Definition reports_libvmaf (o : option string) : bool :=
  match o with Some output => output_reports_libvmaf output | None => false end.

Definition ffmpeg_reports_libvmaf (w : World S) : bool * World S :=
  let '(filters, w) := run_ffmpeg_probe ["-hide_banner"; "-filters"] w in
  if reports_libvmaf filters then (true, w)
  else let '(version, w) := run_ffmpeg_probe ["-version"] w in (reports_libvmaf version, w).

Definition detect_vmaf_environment (w : World S) : VmafEnvironment * World S :=
  let '(supported, w) := ffmpeg_reports_libvmaf w in
  ({| VmafEnvironment_libvmaf_supported := supported;
      VmafEnvironment_model_dir := resolve_vmaf_model_dir |}, w).

(** A missing model is an error, except the default one, which is built in. *)
Definition missing_model (model : VmafModel) : result VmafError (option PathBuf) :=
  match model with VmafModel_V061 => Ok None | _ => Err (VmafError_ModelNotFound model) end.

Definition model_path (model : VmafModel) (env : VmafEnvironment) (w : World S)
    : result VmafError (option PathBuf) :=
  match VmafEnvironment_model_dir env with
  | None => missing_model model
  | Some model_dir =>
      let path := path_join model_dir (VmafModel_file_name model) in
      if fs_exists path w then Ok (Some path) else missing_model model
  end.

(** [fs::read] *)
Definition fs_read (p : PathBuf) : World S → result string string * World S :=
  fs_query (λ files, match files !! path_key p with
                     | Some content => Ok content
                     | None => Err no_such_file
                     end).

(** [log_id] is the identifier in the name of the log. A log that cannot be read is left
    behind. *)
Definition compute_vmaf_with_environment (temp_dir : PathBuf) (log_id : string)
    (reference distorted : PathBuf) (model : VmafModel) (env : VmafEnvironment) (w : World S)
    : result VmafError f64 * World S :=
  if negb (VmafEnvironment_libvmaf_supported env) then (Err VmafError_LibvmafUnavailable, w)
  else
    match model_path model env w with
    | Err e => (Err e, w)
    | Ok mp =>
        let log_path := path_join temp_dir ("voom-vmaf-" +:+ log_id +:+ ".json") in
        match run_with_timeout "ffmpeg" (ffmpeg_vmaf_args reference distorted mp log_path) 1800 w with
        | (Ok output, w) =>
            if ExitStatus_success (Output_status output) then
              match parse_vmaf_score (Output_stdout output) with
              | Ok score => (Ok score, remove_quietly log_path w)
              | Err _ =>
                  match fs_read log_path w with
                  | (Err e, w) => (Err (VmafError_Io e), w)
                  | (Ok log, w) => (parse_vmaf_score log, remove_quietly log_path w)
                  end
              end
            else (Err (VmafError_FfmpegFailed
                         (default (-1)%Z (ExitStatus_code (Output_status output)))
                         (to_string_lossy (Output_stderr output))), remove_quietly log_path w)
        | (Err (VoomError_ToolNotFound _), w) =>
            (Err VmafError_LibvmafUnavailable, remove_quietly log_path w)
        | (Err e, w) =>
            (Err (VmafError_FfmpegFailed (-1) (VoomError_to_string e)), remove_quietly log_path w)
        end
    end.

Definition compute_vmaf (temp_dir : PathBuf) (log_id : World S → string)
    (reference distorted : PathBuf) (model : VmafModel) (w : World S) : result VmafError f64 * World S :=
  let '(env, w) := detect_vmaf_environment w in
  compute_vmaf_with_environment temp_dir (log_id w) reference distorted model env w.

Definition FfmpegEncodeAttempt (temp_dir : PathBuf) (log_id : World S → string) : EncodeAttempt S := {|
  encode_sample source dest crf bounds w :=
    match encode_sample_with_ffmpeg source dest crf bounds w with
    | (Ok bitrate, w) => (Ok bitrate, w)
    | (Err e, w) => (Err (VmafError_FfmpegFailed (-1) (IterationError_to_string e)), w)
    end;
  measure_vmaf := compute_vmaf temp_dir log_id;
|}.

Definition FullSample `{TornWrite} : SampleExtractor S := λ source dest w,
  match fs_copy source dest w with
  | (Ok _, w) => (Ok tt, w)
  | (Err e, w) => (Err (SampleError_Io e), w)
  end.

(** With the whole file as the sample; [dir_id] is the identifier of the working
    directory. *)
Definition iterate_to_target `{TornWrite} (checks : bool) (temp_dir : PathBuf)
    (dir_id log_id : World S → string) (source : PathBuf) (target_vmaf : u32)
    (bounds : BitrateBounds) (max_iterations : u32) (w : World S)
    : checked (result IterationError IterationResult) * World S :=
  @iterate_to_target_with S (FfmpegEncodeAttempt temp_dir log_id) FullSample _ _ _ checks temp_dir
    (dir_id w) source target_vmaf bounds max_iterations w.
End measure.

(** * Facts about the search for a quality target

    The interval of the bisection keeps a CRF that separates scores above the
    target from scores below it, and halves in every step. *)

Section search.
Context {S : Type} `{EncodeAttempt S} (checks : bool).
Context (reference work_dir : PathBuf) (target_vmaf : u32) (bounds : BitrateBounds).
Context (model : VmafModel).

Abbreviation attempt := (attempt reference work_dir bounds model) (only parsing).
Abbreviation bisect := (bisect checks reference work_dir target_vmaf bounds model) (only parsing).

(** The CRF [best] separates the scores: whenever an attempt is off the target,
    the score is below it exactly above [best]. *)
Definition separates (best : u32) : Prop :=
  ∀ iteration crf w r w', attempt iteration crf w = (Ok r, w') →
  on_target target_vmaf (IterationResult_achieved_vmaf r) = false →
  if f64_ltb (IterationResult_achieved_vmaf r) (f64_of_N target_vmaf)
  then (best < crf)%N else (crf < best)%N.

(** Attempts do not fail. *)
Definition attempts_succeed : Prop :=
  ∀ iteration crf w, ∃ r w', attempt iteration crf w = (Ok r, w').

Lemma attempt_crf iteration crf w r w' :
  attempt iteration crf w = (Ok r, w') →
  IterationResult_final_crf r = crf ∧ IterationResult_iterations r = iteration.
Proof.
  unfold VmafSearch.attempt. intros Ha.
  destruct (encode_sample _ _ _ _ w) as [[b|e] w1]; [|done].
  destruct (measure_vmaf _ _ _ w1) as [[v|e] w2]; [|done]. by injection Ha as <- <-.
Qed.

Lemma next_crf_mid low high :
  (low ≤ high)%N → ∃ crf, next_crf checks low high = Some crf ∧
  (low ≤ crf ≤ high ∧ 2 * (crf - low) ≤ high - low ≤ 2 * (crf - low) + 1)%N.
Proof.
  intros Hle. unfold next_crf. destruct (N.leb_spec low high); [|lia].
  eexists. split; [done|]. pose proof (N.div_mod (high - low) 2 ltac:(done)) as Hd.
  pose proof (N.mod_lt (high - low) 2 ltac:(done)) as Hm.
  remember ((high - low) mod 2)%N as m eqn:Hdef. clear Hdef.
  remember ((high - low) / 2)%N as k eqn:Hdef. clear Hdef. lia.
Qed.

(** One round: the interval keeps [best] and loses at least half. *)
Lemma update_bounds_separated best achieved crf low high :
  (low ≤ best ≤ high)%N → (high ≤ MAX_CRF)%N → (low ≤ crf ≤ high)%N →
  (if f64_ltb achieved (f64_of_N target_vmaf) then (best < crf)%N else (crf < best)%N) →
  let '(low', high') := update_bounds achieved target_vmaf crf low high in
  (low' ≤ best ≤ high' ∧ high' ≤ MAX_CRF)%N ∧
  ((low' = low ∧ high' = crf - 1) ∨ (low' = crf + 1 ∧ high' = high))%N.
Proof.
  intros Hb Hmax Hc. unfold update_bounds, u32_saturating_add, u32_MAX, MAX_CRF in *.
  destruct (f64_ltb achieved (f64_of_N target_vmaf)); intros Hs; cbn; lia.
Qed.

(** One round of the loop. *)
Lemma bisect_round n iteration low high crf last w :
  bisect (Datatypes.S n) iteration low high crf last w =
  match attempt iteration crf w with
  | (Err e, w) => (Finished (Err e), w)
  | (Ok r, w) =>
      let achieved := IterationResult_achieved_vmaf r in
      if on_target target_vmaf achieved then (Finished (Ok r), w)
      else
        let '(low, high) := update_bounds achieved target_vmaf crf low high in
        match next_crf checks low high with
        | Some crf => bisect n (iteration + 1) low high crf (Some r) w
        | None => (Overflowed, w)
        end
  end.
Proof. done. Qed.

(** What a search that ends returns. *)
Definition search_ok (max : u32) (o : checked (result IterationError IterationResult)) : Prop :=
  match o with
  | Finished (Ok r) =>
      on_target target_vmaf (IterationResult_achieved_vmaf r) = true ∧
      (IterationResult_final_crf r ≤ MAX_CRF)%N ∧ (IterationResult_iterations r ≤ max)%N
  | Finished (Err (IterationError_MaxIterationsExceeded r)) =>
      (IterationResult_final_crf r ≤ MAX_CRF)%N ∧ IterationResult_iterations r = max
  | Finished (Err _) => True
  | Overflowed => False
  end.

(** With a separating CRF in the interval the search never overflows. *)
Lemma bisect_separated best n iteration low high crf last w :
  separates best → (low ≤ best ≤ high)%N → (high ≤ MAX_CRF)%N → (low ≤ crf ≤ high)%N →
  (∀ r, last = Some r →
        (IterationResult_final_crf r ≤ MAX_CRF)%N ∧ (IterationResult_iterations r + 1 = iteration)%N) →
  search_ok (iteration + N.of_nat n - 1) (bisect n iteration low high crf last w).1.
Proof.
  intros Hsep. revert iteration low high crf last w.
  induction n as [|n IH]; intros iteration low high crf last w Hb Hmax Hc Hlast; cbn.
  { destruct last as [r|]; [|done]. destruct (Hlast r eq_refl). split; [done|lia]. }
  destruct (attempt iteration crf w) as [[r|e] w1] eqn:Ha; cbn.
  - pose proof (attempt_crf _ _ _ _ _ Ha) as [Hcrf Hit].
    destruct (on_target target_vmaf (IterationResult_achieved_vmaf r)) eqn:Hon; cbn.
    { split_and!; [done| |]; lia. }
    pose proof (update_bounds_separated best (IterationResult_achieved_vmaf r) crf low high
                  Hb Hmax Hc (Hsep _ _ _ _ _ Ha Hon)) as Hu.
    destruct (update_bounds _ _ _ _ _) as [low' high']. destruct Hu as [[Hb' Hmax'] _].
    destruct (next_crf_mid low' high') as (crf' & -> & Hmid & _); [lia|].
    replace (iteration + N.of_nat (Datatypes.S n) - 1)%N
      with (iteration + 1 + N.of_nat n - 1)%N by lia.
    apply IH; [done..|]. intros r' [= <-]. split; lia.
  - unfold VmafSearch.attempt in Ha.
    destruct (encode_sample _ _ _ _ w) as [[b|e'] w2]; [|by injection Ha as <- _].
    destruct (measure_vmaf _ _ _ w2) as [[v|e'] w3]; [done|by injection Ha as <- _].
Qed.

(** [n] further rounds are enough for [2 ^ n - 1] CRFs on each side. *)
Lemma bisect_converges best n m iteration low high crf last w :
  separates best → attempts_succeed → n ≤ m →
  (low ≤ best ≤ high)%N → (high ≤ MAX_CRF)%N → (low ≤ crf ≤ high)%N →
  (high - crf < 2 ^ N.of_nat n ∧ crf - low < 2 ^ N.of_nat n)%N →
  ∃ r, (bisect (Datatypes.S m) iteration low high crf last w).1 = Finished (Ok r).
Proof.
  intros Hsep Hall. revert m iteration low high crf last w.
  induction n as [|n IH]; intros m iteration low high crf last w Hm Hb Hmax Hc [Hh Hl];
    rewrite bisect_round; destruct (Hall iteration crf w) as (r & w1 & Ha); rewrite Ha; cbn zeta;
    (destruct (on_target target_vmaf (IterationResult_achieved_vmaf r)) eqn:Hon; [by eexists|]);
    pose proof (Hsep _ _ _ _ _ Ha Hon) as Hside.
  - cbn in Hh, Hl. case_match; lia.
  - pose proof (update_bounds_separated best (IterationResult_achieved_vmaf r) crf low high
                  Hb Hmax Hc Hside) as Hu.
    destruct (update_bounds _ _ _ _ _) as [low' high']. destruct Hu as [[Hb' Hmax'] Hcut].
    destruct (next_crf_mid low' high') as (crf' & -> & Hmid & Hhalf); [lia|].
    destruct m as [|m]; [lia|]. apply IH; [lia|done..|].
    rewrite Nat2N.inj_succ, N.pow_succ_r' in Hh, Hl.
    assert (high' - low' < 2 * 2 ^ N.of_nat n)%N by (destruct Hcut as [[-> ->]|[-> ->]]; lia).
    lia.
Qed.
End search.
