(* ===== verification/FfmpegExecutor.v ===== *)
(** * The FFmpeg executor

    [plugins/ffmpeg-executor/src/executor.rs]: the execution of a plan, from the
    search for a quality and the measurement of loudness to the file in place;
    and [lib.rs]: the plugin.

    As in [Process], a program runs over a [World]. Child processes also see the
    environment variables that the executor sets for them. *)
From S2P Require Import Prelude Json Media Plan CapabilityMap Condition Codecs Jobs Events Kernel.
From S2P Require Import Process MkvExecutor CropDetect FfmpegCommand VmafSearch.

(** ** Floating point *)
Abbreviation f32 := spec_float (only parsing).

(** [x as f32] *)
Definition f32_of_f64 (x : f64) : f32 :=
  match x with
  | S754_finite s m e => binary_normalize 24 128 (cond_Zopp s (Z.pos m)) e s
  | _ => x
  end.

(** ** Data *)
Record TranscodeOutcome : Type := {
  TranscodeOutcome_id : Uuid;
  TranscodeOutcome_file_id : string;
  TranscodeOutcome_target_vmaf : option u32;
  TranscodeOutcome_achieved_vmaf : option f32;
  TranscodeOutcome_crf_used : option u32;
  TranscodeOutcome_bitrate_used : option string;
  TranscodeOutcome_iterations : u32;
  TranscodeOutcome_sample_strategy : SampleStrategy;
  TranscodeOutcome_fallback_used : bool;
  TranscodeOutcome_completed_at : DateTime;
}.

Record LoudnessTrackUpdate : Type := {
  LoudnessTrackUpdate_track_index : u32;
  LoudnessTrackUpdate_integrated_lufs : f64;
  LoudnessTrackUpdate_true_peak_db : f64;
  LoudnessTrackUpdate_loudness_range_lu : option f64;
}.

Record PlanExecution : Type := {
  PlanExecution_action_results : list ActionResult;
  PlanExecution_transcode_outcomes : list TranscodeOutcome;
  PlanExecution_loudness_updates : list LoudnessTrackUpdate;
}.

Record OutcomeStats : Type := {
  OutcomeStats_achieved_vmaf : option f32;
  OutcomeStats_iterations : u32;
  OutcomeStats_fallback_used : bool;
}.

Definition OutcomeStats_default : OutcomeStats :=
  {| OutcomeStats_achieved_vmaf := None; OutcomeStats_iterations := 1;
     OutcomeStats_fallback_used := false |}.

Inductive DynamicHdrKind : Type :=
| DynamicHdrKind_Hdr10Plus
| DynamicHdrKind_DolbyVision.

Definition DynamicHdrKind_tool_name (self : DynamicHdrKind) : string :=
  match self with
  | DynamicHdrKind_Hdr10Plus => "hdr10plus_tool"
  | DynamicHdrKind_DolbyVision => "dovi_tool"
  end.

Record DynamicHdrJob : Type := {
  DynamicHdrJob_kind : DynamicHdrKind;
  DynamicHdrJob_source_track_index : u32;
  DynamicHdrJob_output_extension : string;
}.

(** ** Which metadata must be carried over *)
Definition dynamic_hdr_error (message : string) : VoomError :=
  VoomError_ToolExecution "dynamic-hdr" message.

Definition dynamic_hdr_kind (track : Track) : result VoomError (option DynamicHdrKind) :=
  let format := default "" (Track_hdr_format track) in
  if str_contains "HDR10+" format then Ok (Some DynamicHdrKind_Hdr10Plus)
  else if str_contains "Dolby Vision" format then
    match Track_dolby_vision_profile track with
    | None =>
        Err (dynamic_hdr_error "cannot preserve Dolby Vision RPU metadata without a detected profile")
    | Some profile =>
        if bool_decide (profile ∈ [5; 7; 8]%N) then Ok (Some DynamicHdrKind_DolbyVision)
        else Err (dynamic_hdr_error ("unsupported Dolby Vision profile " +:+ pretty profile
                    +:+ "; supported profiles are 5, 7, and 8"))
    end
  else Ok None.

Definition dynamic_hdr_job (plan : Plan) (actions : list PlannedAction) (output_extension : string)
    : result VoomError (option DynamicHdrJob) :=
  match List.find (λ a, bool_decide (PlannedAction_operation a = Op_TranscodeVideo)) actions with
  | None => Ok None
  | Some action =>
      match PlannedAction_parameters action, PlannedAction_track_index action with
      | AP_Transcode codec settings, Some track_index =>
          match List.find (λ t, (Track_index t =? track_index)%N)
                  (MediaFile_tracks (Plan_file plan)) with
          | None => Ok None
          | Some track =>
              if should_tonemap settings
                 || negb (default true (TranscodeSettings_preserve_hdr settings)) then Ok None
              else
                kind ← dynamic_hdr_kind track;
                match kind with
                | None => Ok None
                | Some kind =>
                    if negb (str_in ["hevc"; "h265"] codec) then
                      Err (dynamic_hdr_error
                        ("cannot preserve dynamic HDR metadata while transcoding to " +:+ codec
                         +:+ "; choose hevc/h265 or set preserve_hdr: false"))
                    else if negb (str_in ["mkv"; "mp4"] output_extension) then
                      Err (dynamic_hdr_error
                        ("cannot preserve dynamic HDR metadata in ." +:+ output_extension
                         +:+ " output; choose mkv or mp4, or set preserve_hdr: false"))
                    else
                      Ok (Some {| DynamicHdrJob_kind := kind;
                                  DynamicHdrJob_source_track_index := Track_index track;
                                  DynamicHdrJob_output_extension := output_extension |})
                end
          end
      | _, _ => Ok None
      end
  end.

(** ** Changing settings *)
Definition PlannedAction_set_settings (a : PlannedAction) (codec : string) (s : TranscodeSettings)
    : PlannedAction :=
  {| PlannedAction_operation := PlannedAction_operation a;
     PlannedAction_track_index := PlannedAction_track_index a;
     PlannedAction_parameters := AP_Transcode codec s;
     PlannedAction_description := PlannedAction_description a |}.

(** Assignments to [target_vmaf], [crf], [bitrate] and [preset]. *)
Definition TranscodeSettings_set_quality (s : TranscodeSettings) (target_vmaf crf : option u32)
    (bitrate preset : option string) : TranscodeSettings := {|
  TranscodeSettings_crf := crf;
  TranscodeSettings_preset := preset;
  TranscodeSettings_bitrate := bitrate;
  TranscodeSettings_target_vmaf := target_vmaf;
  TranscodeSettings_max_bitrate := TranscodeSettings_max_bitrate s;
  TranscodeSettings_min_bitrate := TranscodeSettings_min_bitrate s;
  TranscodeSettings_sample_strategy := TranscodeSettings_sample_strategy s;
  TranscodeSettings_fallback := TranscodeSettings_fallback s;
  TranscodeSettings_vmaf_overrides := TranscodeSettings_vmaf_overrides s;
  TranscodeSettings_channels := TranscodeSettings_channels s;
  TranscodeSettings_hw := TranscodeSettings_hw s;
  TranscodeSettings_hw_fallback := TranscodeSettings_hw_fallback s;
  TranscodeSettings_max_resolution := TranscodeSettings_max_resolution s;
  TranscodeSettings_scale_algorithm := TranscodeSettings_scale_algorithm s;
  TranscodeSettings_hdr_mode := TranscodeSettings_hdr_mode s;
  TranscodeSettings_preserve_hdr := TranscodeSettings_preserve_hdr s;
  TranscodeSettings_tonemap := TranscodeSettings_tonemap s;
  TranscodeSettings_hdr_color_metadata := TranscodeSettings_hdr_color_metadata s;
  TranscodeSettings_dolby_vision := TranscodeSettings_dolby_vision s;
  TranscodeSettings_tune := TranscodeSettings_tune s;
  TranscodeSettings_crop := TranscodeSettings_crop s;
  TranscodeSettings_loudness := TranscodeSettings_loudness s;
|}.

Definition LoudnessNormalization_with_measurement (l : LoudnessNormalization)
    (m : LoudnessMeasurement) : LoudnessNormalization := {|
  LoudnessNormalization_preset := LoudnessNormalization_preset l;
  LoudnessNormalization_target_lufs := LoudnessNormalization_target_lufs l;
  LoudnessNormalization_true_peak_db := LoudnessNormalization_true_peak_db l;
  LoudnessNormalization_lra_max := LoudnessNormalization_lra_max l;
  LoudnessNormalization_tolerance_lufs := LoudnessNormalization_tolerance_lufs l;
  LoudnessNormalization_measured := Some m;
|}.

(** ** Interfaces *)

(** The trait [VmafRunner]; the search may panic, see [VmafSearch]. *)
Class VmafRunner (S : Type) :=
  vmaf_run : PathBuf → u32 → BitrateBounds → World S →
             checked (result IterationError IterationResult) * World S.

(** Child processes under environment variables. *)
Class ChildrenEnv :=
  run_child_env : list (string * string) → string → list string → Files → ChildOutcome * Files.

(** [DefaultVmafRunner]: the search of [VmafSearch] over the whole file, with five
    iterations; the child processes have no variables of their own. [checks] says whether
    the arithmetic of the build is checked. *)
Definition DefaultVmafRunner {S} `{ChildrenEnv} `{Unicode} `{JsonParse} `{VmafHost} `{TornWrite}
    (checks : bool) (temp_dir : PathBuf) (dir_id log_id : World S → string) : VmafRunner S :=
  λ source target_vmaf bounds w,
    @iterate_to_target S (run_child_env []) _ _ _ _ checks temp_dir dir_id log_id
      source target_vmaf bounds 5 w.

(** [serde_json::from_str] *)
Class JsonFromStr := json_from_str : string → result string JValue.

(** What a run takes from outside: identifier, duration and time of the command,
    the directory for temporary files, the identifier of the working directory in
    it, the times of the record for it and of the loudness, and stamps of the
    outcomes. *)
Record FfmpegInput : Type := {
  fi_exec : ExecInput;
  fi_temp_dir : PathBuf;
  fi_work_id : string;
  fi_hdr_recorded_at : DateTime;
  fi_measured_at : DateTime;
  fi_stamps : nat → Stamp;
}.

Definition FFMPEG_TIMEOUT : N := 14400.
Definition STDERR_TAIL_LINES : nat := 20.
Definition TOOL_PROBE_TIMEOUT : N := 5.

(** What the plugin asks of its store. *)
Class FfmpegStorage (S : Type) := {
  insert_transcode_outcome : TranscodeOutcome → S → result VoomError unit * S;
  store_upsert_file : MediaFile → S → result VoomError unit * S;
}.

Record FfmpegExecutorPlugin : Type := {
  Ffmpeg_available : bool;
  Ffmpeg_hw_accel : HwAccelConfig;
  Ffmpeg_probed_codecs : option CodecCapabilities;
  Ffmpeg_probed_formats : option (list string);
  Ffmpeg_probed_hw_accels : option (list string);
  Ffmpeg_has_store : bool;
}.

Definition FfmpegExecutorPlugin_new : FfmpegExecutorPlugin := {|
  Ffmpeg_available := false;
  Ffmpeg_hw_accel := HwAccelConfig_new;
  Ffmpeg_probed_codecs := None;
  Ffmpeg_probed_formats := None;
  Ffmpeg_probed_hw_accels := None;
  Ffmpeg_has_store := false;
|}.

(** A program that returns or panics. *)
Definition Run (S A : Type) : Type := World S → handler A * World S.

Section run.
Context {S : Type}.

Definition run_io {A} (m : Io S A) : Run S A := λ w, let '(r, w') := m w in (Returned r, w').

Definition run_lift {A} (r : result VoomError A) : Run S A := λ w, (Returned r, w).

Definition run_bind {A B} (m : Run S A) (f : A → Run S B) : Run S B := λ w,
  match m w with
  | (Returned (Ok a), w') => f a w'
  | (Returned (Err e), w') => (Returned (Err e), w')
  | (Panicked, w') => (Panicked, w')
  end.
End run.

Section executor.
Context {S : Type} `{MutationStorage S} `{VmafRunner S} `{ChildrenEnv} `{Unicode} `{StrDebug}.
Context `{FfmpegStorage S} `{JsonFromStr} `{UuidText} (to_str : string → option string).

(** [run_with_timeout_env] *)
Definition run_with_timeout_env (tool : string) (args : list string) (timeout_secs : N)
    (env_vars : list (string * string)) : Io S Output :=
  @run_with_timeout S (run_child_env env_vars) tool args timeout_secs.

Definition env_vars_of (hw_accel : HwAccelConfig) : list (string * string) :=
  option_list (device_env hw_accel).

(** A command whose failure is an error. *)
Definition run_checked (tool : string) (args : list string) (env_vars : list (string * string))
    : Io S unit :=
  io_bind (run_with_timeout_env tool args FFMPEG_TIMEOUT env_vars) (λ output,
  if ExitStatus_success (Output_status output) then io_ret tt
  else io_err (VoomError_ToolExecution tool
         (tool +:+ " exited with " +:+ ExitStatus_to_string (Output_status output) +:+ ": "
          +:+ stderr_tail (Output_stderr output) STDERR_TAIL_LINES))).

Definition ensure_tool_available (tool : string) (env_vars : list (string * string)) : Io S unit :=
  io_bind (run_with_timeout_env tool ["--version"] TOOL_PROBE_TIMEOUT env_vars) (λ output,
  if ExitStatus_success (Output_status output) then io_ret tt
  else io_err (VoomError_ToolExecution tool
         (tool +:+ " --version exited with " +:+ ExitStatus_to_string (Output_status output)))).

(** ** Quality *)
Definition prepare_vmaf_action (file : MediaFile) (action : PlannedAction) (w : World S)
    : checked (PlannedAction * OutcomeStats) * World S :=
  match PlannedAction_parameters action with
  | AP_Transcode codec settings =>
      match TranscodeSettings_resolve_target_vmaf settings file with
      | None => (Finished (action, OutcomeStats_default), w)
      | Some target_vmaf =>
          let bounds := {| BitrateBounds_min_bitrate := TranscodeSettings_min_bitrate settings;
                           BitrateBounds_max_bitrate := TranscodeSettings_max_bitrate settings |} in
          match vmaf_run (MediaFile_path file) target_vmaf bounds w with
          | (Finished (Ok result), w') =>
              (Finished
                (PlannedAction_set_settings action codec
                   (TranscodeSettings_set_quality settings (Some target_vmaf)
                      (Some (IterationResult_final_crf result))
                      (IterationResult_final_bitrate result) None),
                 {| OutcomeStats_achieved_vmaf :=
                      Some (f32_of_f64 (IterationResult_achieved_vmaf result));
                    OutcomeStats_iterations := IterationResult_iterations result;
                    OutcomeStats_fallback_used := false |}), w')
          | (Finished (Err _), w') =>
              let fallback := TranscodeSettings_fallback settings in
              (Finished
                (PlannedAction_set_settings action codec
                   (TranscodeSettings_set_quality settings (Some target_vmaf)
                      (match fallback with
                       | Some f => Some (TranscodeFallback_crf f)
                       | None => TranscodeSettings_crf settings
                       end)
                      (TranscodeSettings_bitrate settings)
                      (match fallback with
                       | Some f => Some (TranscodeFallback_preset f)
                       | None => TranscodeSettings_preset settings
                       end)),
                 {| OutcomeStats_achieved_vmaf := None;
                    OutcomeStats_iterations := 1;
                    OutcomeStats_fallback_used := true |}), w')
          | (Overflowed, w') => (Overflowed, w')
          end
      end
  | _ => (Finished (action, OutcomeStats_default), w)
  end.

Definition transcode_outcome (stamp : Stamp) (file_id : string) (action : PlannedAction)
    (stats : OutcomeStats) : option TranscodeOutcome :=
  match PlannedAction_parameters action with
  | AP_Transcode _ settings =>
      Some {| TranscodeOutcome_id := Stamp_id stamp;
              TranscodeOutcome_file_id := file_id;
              TranscodeOutcome_target_vmaf := TranscodeSettings_target_vmaf settings;
              TranscodeOutcome_achieved_vmaf := OutcomeStats_achieved_vmaf stats;
              TranscodeOutcome_crf_used := TranscodeSettings_crf settings;
              TranscodeOutcome_bitrate_used := TranscodeSettings_bitrate settings;
              TranscodeOutcome_iterations := OutcomeStats_iterations stats;
              TranscodeOutcome_sample_strategy :=
                default SampleStrategy_Full (TranscodeSettings_sample_strategy settings);
              TranscodeOutcome_fallback_used := OutcomeStats_fallback_used stats;
              TranscodeOutcome_completed_at := Stamp_now stamp |}
  | _ => None
  end.

(** The loop over the actions; [i] numbers them. *)
Fixpoint prepare_vmaf_actions (stamps : nat → Stamp) (file : MediaFile) (i : nat)
    (actions : list PlannedAction) (w : World S)
    : checked (list PlannedAction * list TranscodeOutcome) * World S :=
  match actions with
  | [] => (Finished ([], []), w)
  | action :: actions =>
      match prepare_vmaf_action file action w with
      | (Finished (action, stats), w1) =>
          let outcome := transcode_outcome (stamps i) (Uuid_to_string (MediaFile_id file)) action
                           stats in
          match prepare_vmaf_actions stamps file (Datatypes.S i) actions w1 with
          | (Finished (prepared, outcomes), w2) =>
              (Finished (action :: prepared, option_list outcome ++ outcomes), w2)
          | (Overflowed, w2) => (Overflowed, w2)
          end
      | (Overflowed, w1) => (Overflowed, w1)
      end
  end.

Definition prepare_vmaf_transcodes_with_outcomes (inp : FfmpegInput) (plan : Plan)
    : Run S (Plan * list TranscodeOutcome) := λ w,
  match prepare_vmaf_actions (fi_stamps inp) (Plan_file plan) 0 (Plan_actions plan) w with
  | (Finished (actions, outcomes), w') =>
      (Returned (Ok (Plan_set_actions plan actions, outcomes)), w')
  | (Overflowed, w') => (Panicked, w')
  end.

(** ** Loudness *)
Definition parse_loudnorm_json (stderr : string) : result VoomError LoudnessMeasurement :=
  match after_last "{" stderr with
  | None => Err (ffmpeg_error "loudnorm output did not contain JSON")
  | Some rest =>
      match split_once (ascii_of_nat 125) rest with
      | None => Err (ffmpeg_error "loudnorm JSON was incomplete")
      | Some (body, _) =>
          match json_from_str ("{" +:+ body +:+ "}") with
          | Err error => Err (ffmpeg_error ("failed to parse loudnorm JSON: " +:+ error))
          | Ok value =>
              let read key :=
                match v ← JValue_get key value;
                      s ← match v with JString s => Some s | _ => None end;
                      f64_from_str s with
                | Some x => Ok x
                | None => Err (ffmpeg_error ("loudnorm JSON missing numeric " +:+ key))
                end in
              i ← read "input_i";
              tp ← read "input_tp";
              lra ← read "input_lra";
              thresh ← read "input_thresh";
              offset ← read "target_offset";
              Ok (Build_LoudnessMeasurement i tp lra thresh offset)
          end
      end
  end.

Definition loudness_args (path : PathBuf) (track_index : u32) (settings : LoudnessNormalization)
    : list string :=
  ["-hide_banner"; "-i"; to_string_lossy path; "-map"; "0:" +:+ pretty track_index; "-af";
   loudnorm_base settings +:+ ":print_format=json"; "-f"; "null"; "-"].

Definition measure_loudness (path : PathBuf) (track_index : u32) (settings : LoudnessNormalization)
    (env_vars : list (string * string)) : Io S LoudnessMeasurement :=
  io_bind (run_with_timeout_env "ffmpeg" (loudness_args path track_index settings) FFMPEG_TIMEOUT
             env_vars) (λ output,
  if negb (ExitStatus_success (Output_status output)) then
    io_err (ffmpeg_error ("loudness measurement failed: "
              +:+ stderr_tail (Output_stderr output) STDERR_TAIL_LINES))
  else io_lift (parse_loudnorm_json (to_string_lossy (Output_stderr output)))).

(** What an iteration of the loop needs: the codec, the settings, the loudness
    they ask for and the track, if it has not been measured. *)
Definition unmeasured (action : PlannedAction)
    : option (string * TranscodeSettings * LoudnessNormalization * u32) :=
  match PlannedAction_parameters action with
  | AP_Transcode codec settings =>
      loudness ← TranscodeSettings_loudness settings;
      if bool_decide (is_Some (LoudnessNormalization_measured loudness)) then None
      else track_index ← PlannedAction_track_index action;
           Some (codec, settings, loudness, track_index)
  | _ => None
  end.

(** The loop: the actions with their measurements, the descriptions of those to
    remove, and the updates. *)
Fixpoint measure_actions (path : PathBuf) (env_vars : list (string * string))
    (actions : list PlannedAction)
    : Io S (list PlannedAction * list string * list LoudnessTrackUpdate) :=
  match actions with
  | [] => io_ret ([], [], [])
  | action :: actions =>
      match unmeasured action with
      | None =>
          io_bind (measure_actions path env_vars actions) (λ '(done, remove, updates),
          io_ret (action :: done, remove, updates))
      | Some (codec, settings, loudness, track_index) =>
          io_bind (measure_loudness path track_index loudness env_vars) (λ measurement,
          let set l := PlannedAction_set_settings action codec
                         (TranscodeSettings_with_loudness settings l) in
          io_bind (measure_actions path env_vars actions) (λ '(done, remove, updates),
          if LoudnessNormalization_is_within_target loudness
               (LoudnessMeasurement_input_i measurement) then
            if starts_with "Normalize audio track " (PlannedAction_description action)
            then io_ret (action :: done, PlannedAction_description action :: remove, updates)
            else io_ret (set None :: done, remove, updates)
          else
            io_ret (set (Some (LoudnessNormalization_with_measurement loudness measurement)) :: done,
                    remove,
                    {| LoudnessTrackUpdate_track_index := track_index;
                       LoudnessTrackUpdate_integrated_lufs :=
                         LoudnessNormalization_target_lufs loudness;
                       LoudnessTrackUpdate_true_peak_db :=
                         LoudnessNormalization_true_peak_db loudness;
                       LoudnessTrackUpdate_loudness_range_lu :=
                         LoudnessNormalization_lra_max loudness |} :: updates)))
      end
  end.

Definition prepare_loudness_actions (plan : Plan) (hw_accel : HwAccelConfig)
    : Io S (Plan * list LoudnessTrackUpdate) :=
  io_bind (measure_actions (MediaFile_path (Plan_file plan)) (env_vars_of hw_accel)
             (Plan_actions plan)) (λ '(actions, remove, updates),
  io_ret (Plan_set_actions plan
            (List.filter (λ a, negb (str_in remove (PlannedAction_description a))) actions),
          updates)).

(** ** Dynamic HDR metadata *)
Definition metadata_path (kind : DynamicHdrKind) (work_dir : PathBuf) : PathBuf :=
  match kind with
  | DynamicHdrKind_Hdr10Plus => path_join work_dir "hdr10plus.json"
  | DynamicHdrKind_DolbyVision => path_join work_dir "rpu.bin"
  end.

(** The arguments for the raw stream of a track of [input]. *)
Definition hevc_args (input : PathBuf) (stream : string) (dest : PathBuf) : list string :=
  ["-y"; "-hide_banner"; "-i"; to_string_lossy input; "-map"; stream; "-c:v"; "copy"; "-bsf:v";
   "hevc_mp4toannexb"; "-f"; "hevc"; to_string_lossy dest].

Definition extract_source_hevc (source_path : PathBuf) (track_index : u32) (dest : PathBuf)
    (env_vars : list (string * string)) : Io S unit :=
  run_checked "ffmpeg" (hevc_args source_path ("0:" +:+ pretty track_index) dest) env_vars.

Definition extract_output_hevc (output_path dest : PathBuf) (env_vars : list (string * string))
    : Io S unit :=
  run_checked "ffmpeg" (hevc_args output_path "0:v:0" dest) env_vars.

Definition extract_dynamic_metadata (kind : DynamicHdrKind) (source_hevc work_dir : PathBuf)
    (env_vars : list (string * string)) : Io S unit :=
  let command := match kind with
                 | DynamicHdrKind_Hdr10Plus => "extract"
                 | DynamicHdrKind_DolbyVision => "extract-rpu"
                 end in
  run_checked (DynamicHdrKind_tool_name kind)
    [command; to_string_lossy source_hevc; "-o"; to_string_lossy (metadata_path kind work_dir)]
    env_vars.

Definition inject_dynamic_metadata (kind : DynamicHdrKind)
    (encoded_hevc injected_hevc work_dir : PathBuf) (env_vars : list (string * string))
    : Io S unit :=
  let '(command, metadata_option) := match kind with
                                     | DynamicHdrKind_Hdr10Plus => ("inject", "-j")
                                     | DynamicHdrKind_DolbyVision => ("inject-rpu", "--rpu-in")
                                     end in
  run_checked (DynamicHdrKind_tool_name kind)
    [command; "-i"; to_string_lossy encoded_hevc; metadata_option;
     to_string_lossy (metadata_path kind work_dir); "-o"; to_string_lossy injected_hevc]
    env_vars.

Definition remux_injected_hevc (output_path injected_hevc remuxed : PathBuf)
    (env_vars : list (string * string)) : Io S unit :=
  run_checked "ffmpeg"
    ["-y"; "-hide_banner"; "-i"; to_string_lossy output_path; "-i"; to_string_lossy injected_hevc;
     "-map"; "1:v:0"; "-map"; "0:a?"; "-map"; "0:s?"; "-map"; "0:d?"; "-map"; "0:t?";
     "-map_metadata"; "0"; "-c"; "copy"; to_string_lossy remuxed]
    env_vars.

(** [map_err(|error| dynamic_hdr_error(error.to_string()))] *)
Definition hdr_io (m : World S → result string unit * World S) : Io S unit := λ w,
  match m w with
  | (Ok _, w') => (Ok tt, w')
  | (Err e, w') => (Err (dynamic_hdr_error e), w')
  end.

(** [inspect_err(|_| remove_file(path))] *)
Definition removing_on_err {A} (path : PathBuf) (m : Io S A) : Io S A := λ w,
  match m w with
  | (Ok a, w') => (Ok a, w')
  | (Err e, w') => (Err e, remove_quietly path w')
  end.

Definition replace_output (has_store : bool) (now : DateTime) (scan_session : option Uuid)
    (plan_source output_path remuxed : PathBuf) : Io S unit :=
  io_bind (removing_on_err remuxed
             (record_mutation_for_pending_write has_store now scan_session plan_source output_path))
    (λ _,
  io_bind (hdr_io (fs_remove output_path)) (λ _,
  hdr_io (fs_rename remuxed output_path))).

Definition apply_dynamic_hdr_reinjection_in_dir (has_store : bool) (inp : FfmpegInput)
    (job : DynamicHdrJob) (source_path output_path : PathBuf) (env_vars : list (string * string))
    (scan_session : option Uuid) (work_dir : PathBuf) : Io S unit :=
  let source_hevc := path_join work_dir "source.hevc" in
  let encoded_hevc := path_join work_dir "encoded.hevc" in
  let injected_hevc := path_join work_dir "injected.hevc" in
  let remuxed := path_join work_dir ("remuxed." +:+ DynamicHdrJob_output_extension job) in
  let kind := DynamicHdrJob_kind job in
  io_bind (extract_source_hevc source_path (DynamicHdrJob_source_track_index job) source_hevc
             env_vars) (λ _,
  io_bind (extract_dynamic_metadata kind source_hevc work_dir env_vars) (λ _,
  io_bind (extract_output_hevc output_path encoded_hevc env_vars) (λ _,
  io_bind (inject_dynamic_metadata kind encoded_hevc injected_hevc work_dir env_vars) (λ _,
  io_bind (remux_injected_hevc output_path injected_hevc remuxed env_vars) (λ _,
  replace_output has_store (fi_hdr_recorded_at inp) scan_session source_path output_path
    remuxed))))).

Definition apply_dynamic_hdr_reinjection (has_store : bool) (inp : FfmpegInput)
    (job : DynamicHdrJob) (source_path output_path : PathBuf) (env_vars : list (string * string))
    (scan_session : option Uuid) : Io S unit :=
  let work_dir := path_join (fi_temp_dir inp) ("voom-dynamic-hdr-" +:+ fi_work_id inp) in
  io_bind (hdr_io (fs_create_dir_all work_dir)) (λ _ w,
  let '(result, w) := apply_dynamic_hdr_reinjection_in_dir has_store inp job source_path
                        output_path env_vars scan_session work_dir w in
  let '(cleanup, w) := fs_remove_dir_all work_dir w in
  (match result, cleanup with
   | Ok _, Err error => Err (dynamic_hdr_error error)
   | _, _ => result
   end, w)).

(** ** The file in place *)

(** Record the mutation and rename; on an error the temporary file goes. *)
Definition rename_into_place (has_store : bool) (inp : FfmpegInput) (plan : Plan)
    (output_path final_path : PathBuf) : Io S unit :=
  io_bind (removing_on_err output_path
             (record_mutation_for_pending_write has_store (in_recorded_at (fi_exec inp))
                (Plan_scan_session plan) (MediaFile_path (Plan_file plan)) final_path))
    (λ _,
  removing_on_err output_path (λ w,
    match fs_rename output_path final_path w with
    | (Ok _, w') => (Ok tt, w')
    | (Err e, w') =>
        (Err (ffmpeg_error ("failed to rename temp file to " +:+ to_string_lossy final_path
                +:+ ": " +:+ e)), w')
    end)).

Definition rename_output (has_store : bool) (inp : FfmpegInput) (plan : Plan)
    (output_path : PathBuf) (ext : string) : Io S PathBuf :=
  let path := MediaFile_path (Plan_file plan) in
  let original_ext := default "" (path_extension path ≫= to_str) in
  if bool_decide (ext = original_ext) then
    io_bind (rename_into_place has_store inp plan output_path path) (λ _, io_ret path)
  else
    let new_path := path_set_extension path ext in
    io_bind (rename_into_place has_store inp plan output_path new_path) (λ _ w,
    (Ok new_path, if negb (path_eqb new_path path) then remove_quietly path w else w)).

(** ** The whole execution *)

(** After a successful run of [ffmpeg]. *)
Definition finish_output (has_store : bool) (inp : FfmpegInput) (plan : Plan)
    (dynamic_hdr : option DynamicHdrJob) (output_path : PathBuf) (ext : string)
    (env_vars : list (string * string)) : Io S PathBuf :=
  io_bind (match dynamic_hdr with
           | None => io_ret tt
           | Some job =>
               removing_on_err output_path
                 (apply_dynamic_hdr_reinjection has_store inp job
                    (MediaFile_path (Plan_file plan)) output_path env_vars
                    (Plan_scan_session plan))
           end) (λ _,
  rename_output has_store inp plan output_path ext).

(** The result of a failed run, of the first action: there may be none. *)
Definition failed_run (inp : FfmpegInput) (command_str : string) (output : Output)
    (actions : list PlannedAction) : handler (list ActionResult) :=
  let tail := stderr_tail (Output_stderr output) STDERR_TAIL_LINES in
  let display_tail := if bool_decide (tail = "") then "(no output)" else tail in
  let error_msg := "ffmpeg exited with " +:+ ExitStatus_to_string (Output_status output) +:+ ":"
                   +:+ newline_str +:+ display_tail +:+ newline_str +:+ "cmd: " +:+ command_str in
  match actions with
  | [] => Panicked
  | first :: _ =>
      Returned (Ok [ActionResult_with_execution_detail
        (ActionResult_new_failure (PlannedAction_operation first) (PlannedAction_description first)
           error_msg)
        {| ExecutionDetail_command := command_str;
           ExecutionDetail_exit_code := ExitStatus_code (Output_status output);
           ExecutionDetail_stderr_tail := tail;
           ExecutionDetail_duration_ms := in_duration_ms (fi_exec inp) |}])
  end.

(** From the run of [ffmpeg] on. *)
Definition run_ffmpeg (has_store : bool) (inp : FfmpegInput) (plan : Plan)
    (outcomes : list TranscodeOutcome) (updates : list LoudnessTrackUpdate)
    (dynamic_hdr : option DynamicHdrJob) (output_path : PathBuf) (ext : string)
    (ffmpeg_args : list string) (env_vars : list (string * string)) : Run S PlanExecution := λ w,
  let command_str := shell_quote_args "ffmpeg" ffmpeg_args in
  match run_with_timeout_env "ffmpeg" ffmpeg_args FFMPEG_TIMEOUT env_vars w with
  | (Err e, w) => (Returned (Err e), remove_quietly output_path w)
  | (Ok output, w) =>
      if ExitStatus_success (Output_status output) then
        run_bind (run_io (finish_output has_store inp plan dynamic_hdr output_path ext env_vars))
          (λ _,
        let detail := {| ExecutionDetail_command := command_str;
                         ExecutionDetail_exit_code := Some 0%Z;
                         ExecutionDetail_stderr_tail := "";
                         ExecutionDetail_duration_ms := in_duration_ms (fi_exec inp) |} in
        run_lift (Ok {| PlanExecution_action_results := succeeded detail (Plan_actions plan);
                        PlanExecution_transcode_outcomes := outcomes;
                        PlanExecution_loudness_updates := updates |})) w
      else
        let w := remove_quietly output_path w in
        (match failed_run inp command_str output (Plan_actions plan) with
         | Returned (Ok results) =>
             Returned (Ok {| PlanExecution_action_results := results;
                             PlanExecution_transcode_outcomes := outcomes;
                             PlanExecution_loudness_updates := [] |})
         | Returned (Err e) => Returned (Err e)
         | Panicked => Panicked
         end, w)
  end.

Definition ffmpeg_output_path (inp : FfmpegInput) (plan : Plan) (ext : string) : PathBuf :=
  temp_path_with_ext to_str (in_temp_id (fi_exec inp)) (MediaFile_path (Plan_file plan)) ext.

(** With the plan prepared. *)
Definition execute_prepared (has_store : bool) (inp : FfmpegInput) (hw_accel : HwAccelConfig)
    (plan : Plan) (outcomes : list TranscodeOutcome) (updates : list LoudnessTrackUpdate)
    : Run S PlanExecution :=
  let actions := Plan_actions plan in
  let ext := output_extension to_str (Plan_file plan) actions in
  let output_path := ffmpeg_output_path inp plan ext in
  let hw := if HwAccelConfig_enabled hw_accel then Some hw_accel else None in
  let env_vars := env_vars_of hw_accel in
  run_bind (run_lift (build_ffmpeg_command (Plan_file plan) actions output_path hw))
    (λ ffmpeg_args,
  run_bind (run_lift (dynamic_hdr_job plan actions ext)) (λ dynamic_hdr,
  run_bind (run_io match dynamic_hdr with
                   | Some job => ensure_tool_available
                       (DynamicHdrKind_tool_name (DynamicHdrJob_kind job)) env_vars
                   | None => io_ret tt
                   end) (λ _,
  run_ffmpeg has_store inp plan outcomes updates dynamic_hdr output_path ext ffmpeg_args env_vars))).

Definition execute_plan_with_runners (has_store : bool) (inp : FfmpegInput) (plan : Plan)
    (hw_accel : HwAccelConfig) : Run S PlanExecution := λ w,
  let path := MediaFile_path (Plan_file plan) in
  if negb (fs_exists path w) then (Returned (Err (file_not_found "ffmpeg" path)), w)
  else
    run_bind (prepare_vmaf_transcodes_with_outcomes inp plan) (λ '(prepared, outcomes),
    run_bind (run_io (prepare_loudness_actions prepared hw_accel)) (λ '(prepared, updates),
    execute_prepared has_store inp hw_accel prepared outcomes updates)) w.

(** ** The plugin *)
Definition ffmpeg_name : string := "ffmpeg-executor".

Definition plugin_err (message : string) : VoomError := VoomError_plugin ffmpeg_name message.

Definition FFMPEG_OPS : list OperationType :=
  [Op_ConvertContainer; Op_TranscodeVideo; Op_TranscodeAudio; Op_SynthesizeAudio; Op_SetDefault;
   Op_ClearDefault; Op_SetForced; Op_ClearForced; Op_SetTitle; Op_SetLanguage; Op_SetContainerTag;
   Op_ClearContainerTags; Op_DeleteContainerTag].

Definition has_op (ops : list OperationType) (actions : list PlannedAction) : bool :=
  existsb (λ a, bool_decide (PlannedAction_operation a ∈ ops)) actions.

(** A name is among those probed, if there are any. *)
Definition probed_has (l : option (list string)) (name : string) : bool :=
  match l with Some l => str_in l name | None => true end.

Definition has_decoder_for_track (self : FfmpegExecutorPlugin) (plan : Plan)
    (action : PlannedAction) : bool :=
  match Ffmpeg_probed_codecs self, PlannedAction_track_index action with
  | Some caps, Some idx =>
      match MediaFile_tracks (Plan_file plan) !! N.to_nat idx with
      | Some track => str_in (CodecCapabilities_decoders caps) (Track_codec track)
      | None => true
      end
  | _, _ => true
  end.

Definition can_handle_action (self : FfmpegExecutorPlugin) (plan : Plan) (action : PlannedAction)
    : bool :=
  let encoders := CodecCapabilities_encoders <$> Ffmpeg_probed_codecs self in
  match PlannedAction_operation action, PlannedAction_parameters action with
  | (Op_TranscodeVideo | Op_TranscodeAudio), AP_Transcode codec _ =>
      probed_has encoders codec && has_decoder_for_track self plan action
  | Op_SynthesizeAudio, AP_Synthesize _ _ (Some codec) _ _ _ _ _ _ _ => probed_has encoders codec
  | Op_ConvertContainer, AP_Container container =>
      match Container_ffmpeg_format_name container with
      | Some name => probed_has (Ffmpeg_probed_formats self) name
      | None => true
      end
  | _, _ => true
  end.

Definition can_handle_probed (self : FfmpegExecutorPlugin) (plan : Plan) : bool :=
  forallb (can_handle_action self plan) (Plan_actions plan).

Definition Ffmpeg_can_handle (self : FfmpegExecutorPlugin) (plan : Plan) : bool :=
  let actions := Plan_actions plan in
  let is_mkv := bool_decide (MediaFile_container (Plan_file plan) = Container_Mkv) in
  if negb (Ffmpeg_available self) || Plan_is_empty plan || Plan_is_skipped plan then false
  else if has_op [Op_TranscodeVideo; Op_TranscodeAudio; Op_SynthesizeAudio] actions
          || has_op [Op_ConvertContainer] actions then can_handle_probed self plan
  else if has_op [Op_MuxSubtitle] actions then negb is_mkv
  else negb is_mkv && forallb (λ a, OperationType_is_metadata_op (PlannedAction_operation a)) actions.

(** ** Subtitles *)
Definition temp_path (id : string) (original : PathBuf) : PathBuf :=
  temp_path_with_ext to_str id original (default "mkv" (path_extension original ≫= to_str)).

Definition ffmpeg_mux_args (path subtitle_path temp : PathBuf) (language : string) (forced : bool)
    : list string :=
  ["-i"; to_string_lossy path; "-i"; to_string_lossy subtitle_path; "-c"; "copy"; "-c:s"; "srt";
   "-metadata:s:s:0"; "language=" +:+ language] ++
  (if forced then ["-disposition:s:0"; "forced"] else []) ++ ["-y"; to_string_lossy temp].

Definition Ffmpeg_execute_mux_subtitle (has_store : bool) (inp : ExecInput) (plan : Plan)
    (action : PlannedAction) : Io S (list ActionResult) := λ w,
  let path := MediaFile_path (Plan_file plan) in
  match PlannedAction_parameters action with
  | AP_MuxSubtitle subtitle_path language forced _ =>
      if negb (is_valid_language language) then
        (Err (plugin_err ("invalid ISO 639 language code: " +:+ dquote +:+ language +:+ dquote)), w)
      else
        let temp := temp_path (in_temp_id inp) path in
        let args := ffmpeg_mux_args path subtitle_path temp language forced in
        let command_str := shell_quote_args "ffmpeg" args in
        let result r exit_code tail :=
          [ActionResult_with_execution_detail r
             {| ExecutionDetail_command := command_str;
                ExecutionDetail_exit_code := exit_code;
                ExecutionDetail_stderr_tail := tail;
                ExecutionDetail_duration_ms := in_duration_ms inp |}] in
        match run_with_timeout_env "ffmpeg" args 120 [] w with
        | (Ok o, w) =>
            if ExitStatus_success (Output_status o) then
              io_bind (removing_on_err temp
                         (record_mutation_for_pending_write has_store (in_recorded_at inp)
                            (Plan_scan_session plan) path path)) (λ _,
              io_bind (removing_on_err temp (λ w,
                match fs_rename temp path w with
                | (Ok _, w') => (Ok tt, w')
                | (Err e, w') => (Err (plugin_err ("failed to rename temp file: " +:+ e)), w')
                end)) (λ _,
              io_ret (result (ActionResult_new_success (PlannedAction_operation action)
                                (PlannedAction_description action)) (Some 0%Z) ""))) w
            else
              let tail := stderr_tail (Output_stderr o) 20 in
              let display_tail := if bool_decide (tail = "") then "(no output)" else tail in
              let error_msg :=
                "ffmpeg failed (exit "
                +:+ pretty (default (-1)%Z (ExitStatus_code (Output_status o))) +:+ "):"
                +:+ newline_str +:+ display_tail +:+ newline_str +:+ "cmd: " +:+ command_str in
              (Ok (result (ActionResult_new_failure (PlannedAction_operation action)
                             (PlannedAction_description action) error_msg)
                     (ExitStatus_code (Output_status o)) tail), remove_quietly temp w)
        | (Err e, w) =>
            (Err (plugin_err ("ffmpeg subtitle mux failed: " +:+ VoomError_to_string e)),
             remove_quietly temp w)
        end
  | _ => (Err (plugin_err "expected MuxSubtitle params"), w)
  end.

Fixpoint Ffmpeg_execute_mux_subtitles (has_store : bool) (inputs : nat → FfmpegInput) (plan : Plan)
    (i : nat) (actions : list PlannedAction) : Io S (list ActionResult) :=
  match actions with
  | [] => io_ret []
  | a :: actions =>
      io_bind (Ffmpeg_execute_mux_subtitle has_store (fi_exec (inputs i)) plan a) (λ rs,
      io_bind (Ffmpeg_execute_mux_subtitles has_store inputs plan (Datatypes.S i) actions) (λ rs',
      io_ret (rs ++ rs')))
  end.

(** ** Plans *)
Definition Track_set_loudness (t : Track) (u : LoudnessTrackUpdate) (now : DateTime) : Track := {|
  Track_index := Track_index t;
  Track_track_type := Track_track_type t;
  Track_codec := Track_codec t;
  Track_language := Track_language t;
  Track_title := Track_title t;
  Track_is_default := Track_is_default t;
  Track_is_forced := Track_is_forced t;
  Track_channels := Track_channels t;
  Track_channel_layout := Track_channel_layout t;
  Track_sample_rate := Track_sample_rate t;
  Track_bit_depth := Track_bit_depth t;
  Track_loudness_integrated_lufs := Some (LoudnessTrackUpdate_integrated_lufs u);
  Track_loudness_true_peak_db := Some (LoudnessTrackUpdate_true_peak_db u);
  Track_loudness_range_lu := LoudnessTrackUpdate_loudness_range_lu u;
  Track_loudness_measured_at := Some now;
  Track_width := Track_width t;
  Track_height := Track_height t;
  Track_frame_rate := Track_frame_rate t;
  Track_is_vfr := Track_is_vfr t;
  Track_is_hdr := Track_is_hdr t;
  Track_hdr_format := Track_hdr_format t;
  Track_pixel_format := Track_pixel_format t;
  Track_color_primaries := Track_color_primaries t;
  Track_color_transfer := Track_color_transfer t;
  Track_color_matrix := Track_color_matrix t;
  Track_max_cll := Track_max_cll t;
  Track_max_fall := Track_max_fall t;
  Track_master_display := Track_master_display t;
  Track_dolby_vision_profile := Track_dolby_vision_profile t;
  Track_is_animation := Track_is_animation t;
|}.

Definition apply_loudness_updates (now : DateTime) (updates : list LoudnessTrackUpdate)
    (file : MediaFile) : MediaFile :=
  MediaFile_with_tracks file
    (foldl (λ tracks u,
       update_first (λ t, (Track_index t =? LoudnessTrackUpdate_track_index u)%N)
         (λ t, Track_set_loudness t u now) tracks) (MediaFile_tracks file) updates).

(** A call of the store. *)
Definition store_call (f : S → result VoomError unit * S) : Io S unit := λ w,
  let '(r, s) := f (w_store w) in (r, Build_World (w_files w) s (w_faults w)).

Fixpoint insert_outcomes (outcomes : list TranscodeOutcome) : Io S unit :=
  match outcomes with
  | [] => io_ret tt
  | o :: outcomes =>
      io_bind (store_call (insert_transcode_outcome o)) (λ _, insert_outcomes outcomes)
  end.

Definition store_execution (inp : FfmpegInput) (plan : Plan) (execution : PlanExecution)
    : Io S unit :=
  io_bind (insert_outcomes (PlanExecution_transcode_outcomes execution)) (λ _,
  match PlanExecution_loudness_updates execution with
  | [] => io_ret tt
  | updates =>
      store_call (store_upsert_file
        (apply_loudness_updates (fi_measured_at inp) updates (Plan_file plan)))
  end).

Definition Ffmpeg_execute_plan (self : FfmpegExecutorPlugin) (inputs : nat → FfmpegInput)
    (plan : Plan) : Run S (list ActionResult) :=
  let has_store := Ffmpeg_has_store self in
  if negb (Ffmpeg_can_handle self plan)
  then run_lift (Err (plugin_err "Plan cannot be handled by FFmpeg executor"))
  else if existsb is_mux_subtitle (Plan_actions plan) then
    run_io (Ffmpeg_execute_mux_subtitles has_store inputs plan 0
              (List.filter is_mux_subtitle (Plan_actions plan)))
  else
    run_bind (execute_plan_with_runners has_store (inputs 0) plan (Ffmpeg_hw_accel self))
      (λ execution,
    run_bind (run_io (if has_store then store_execution (inputs 0) plan execution else io_ret tt))
      (λ _, run_lift (Ok (PlanExecution_action_results execution)))).

(** ** Events *)
Context `{ActionResultsJson}.
Context (stamps : World S → Stamp * Stamp) (inputs : World S → nat → FfmpegInput).

Definition Ffmpeg_capabilities (self : FfmpegExecutorPlugin) : list Capability :=
  if Ffmpeg_available self then [Capability_Execute FFMPEG_OPS []] else [].

Definition Ffmpeg_handle_plan_created (self : FfmpegExecutorPlugin) (plan : Plan) (w : World S)
    : handler (option EventResult) * World S :=
  if Plan_is_empty plan || Plan_is_skipped plan then (Returned (Ok None), w)
  else if negb (Ffmpeg_can_handle self plan) then (Returned (Ok None), w)
  else
    match Ffmpeg_execute_plan self (inputs w) plan w with
    | (Returned outcome, w') =>
        (Returned (Ok (Some (EventResult_from_plan_execution ffmpeg_name outcome))), w')
    | (Panicked, w') => (Panicked, w')
    end.

(** [map_err(|e| plugin_err(format!("invalid {what}: {e}")))] *)
Definition Ffmpeg_invalid_metadata (what : string) (r : result VoomError string)
    : result VoomError string :=
  match r with
  | Ok v => Ok v
  | Err e => Err (plugin_err ("invalid " +:+ what +:+ ": " +:+ VoomError_to_string e))
  end.

(** The plan that muxes the subtitle of an event into a file of a container. *)
Definition Ffmpeg_subtitle_plan (file_stamp plan_stamp : Stamp) (container : Container)
    (e : SubtitleGeneratedEvent) : result string Plan :=
  plan ← subtitle_plan file_stamp plan_stamp e;
  Ok {| Plan_id := Plan_id plan;
        Plan_file := MediaFile_set_container (Plan_file plan) container;
        Plan_policy_name := Plan_policy_name plan;
        Plan_phase_name := Plan_phase_name plan;
        Plan_actions := Plan_actions plan;
        Plan_warnings := Plan_warnings plan;
        Plan_safeguard_violations := Plan_safeguard_violations plan;
        Plan_skip_reason := Plan_skip_reason plan;
        Plan_policy_hash := Plan_policy_hash plan;
        Plan_evaluated_at := Plan_evaluated_at plan;
        Plan_executor_hint := Plan_executor_hint plan;
        Plan_session_id := Plan_session_id plan;
        Plan_scan_session := Plan_scan_session plan |}.

Definition Ffmpeg_subtitle_events (e : SubtitleGeneratedEvent) (plan : Plan) : EventResult :=
  let r := subtitle_events e plan in
  {| EventResult_plugin_name := ffmpeg_name;
     EventResult_produced_events := EventResult_produced_events r;
     EventResult_data := EventResult_data r;
     EventResult_claimed := EventResult_claimed r;
     EventResult_execution_error := EventResult_execution_error r;
     EventResult_execution_detail := EventResult_execution_detail r |}.

Definition Ffmpeg_handle_subtitle_generated (self : FfmpegExecutorPlugin)
    (e : SubtitleGeneratedEvent) (w : World S) : handler (option EventResult) :=
  let ext := default "" (path_extension (SubtitleGeneratedEvent_path e) ≫= to_str) in
  let container := Container_from_extension ext in
  if negb (Ffmpeg_available self) then Returned (Ok None)
  else if bool_decide (container = Container_Mkv) then Returned (Ok None)
  else
    match Ffmpeg_invalid_metadata "language"
            (validate_metadata_value (SubtitleGeneratedEvent_language e)) with
    | Err err => Returned (Err err)
    | Ok _ =>
        match try_opt (λ t, Ffmpeg_invalid_metadata "title" (validate_metadata_value t))
                (SubtitleGeneratedEvent_title e) with
        | Err err => Returned (Err err)
        | Ok _ =>
            match Ffmpeg_subtitle_plan (stamps w).1 (stamps w).2 container e with
            | Ok plan => Returned (Ok (Some (Ffmpeg_subtitle_events e plan)))
            | Err _ => Panicked
            end
        end
    end.

Definition Ffmpeg_on_event (self : FfmpegExecutorPlugin) (event : Event) (w : World S)
    : handler (option EventResult) * World S :=
  match event with
  | Event_PlanCreated e => Ffmpeg_handle_plan_created self (PlanCreatedEvent_plan e) w
  | Event_SubtitleGenerated e => (Ffmpeg_handle_subtitle_generated self e w, w)
  | _ => (Returned (Ok None), w)
  end.

Definition FfmpegPlugin (self : FfmpegExecutorPlugin) : Plugin (World S) := {|
  Plugin_name := ffmpeg_name;
  Plugin_capabilities := Ffmpeg_capabilities self;
  Plugin_handles := Mkv_handles;
  Plugin_on_event := Ffmpeg_on_event self;
  Plugin_on_call _ w :=
    (Returned (Err (VoomError_plugin ffmpeg_name
       "plugin does not handle calls (no on_call override)")), w);
  Plugin_shutdown w := (Returned (Ok tt), w);
|}.
End executor.

(** ** Initialization

    What [probe.rs] finds out is given: the capabilities, the devices of a backend,
    and whether an encoder works, on a device if one is given. *)
Record FfmpegExecutorConfig : Type := {
  FfmpegExecutorConfig_hw_accel : option string;
  FfmpegExecutorConfig_gpu_device : option string;
  FfmpegExecutorConfig_nvenc_max_parallel : option usize;
  FfmpegExecutorConfig_hw_decode : option bool;
}.

Definition FfmpegExecutorConfig_default : FfmpegExecutorConfig := {|
  FfmpegExecutorConfig_hw_accel := None;
  FfmpegExecutorConfig_gpu_device := None;
  FfmpegExecutorConfig_nvenc_max_parallel := None;
  FfmpegExecutorConfig_hw_decode := None;
|}.

Record FfmpegCapabilities : Type := {
  FfmpegCapabilities_codecs : option CodecCapabilities;
  FfmpegCapabilities_formats : list string;
  FfmpegCapabilities_hw_accels : list string;
}.

Definition DEFAULT_NVENC_MAX_PARALLEL_PER_GPU : usize := 2%nat.

Definition positive_or_default (value : option usize) (dflt : usize) : usize :=
  match value with
  | None | Some 0%nat => dflt
  | Some value => value
  end.

Definition nvenc_parallel_limits (backend : option HwAccelBackend)
    (validated_encoders : list string) (nvenc_max_parallel : option usize)
    : list ExecutorParallelLimit :=
  if negb (bool_decide (backend = Some HwAccelBackend_Nvenc))
     || negb (existsb (ends_with "_nvenc") validated_encoders) then []
  else [{| ExecutorParallelLimit_resource := "hw:nvenc";
           ExecutorParallelLimit_max_parallel :=
             positive_or_default nvenc_max_parallel DEFAULT_NVENC_MAX_PARALLEL_PER_GPU |}].

Section init.
Context (verifier : HwAccelBackend → bool) (enumerate_gpus : HwAccelBackend → list string).
Context (validates : option (HwAccelBackend * string) → string → bool).

(** The configured device, if it is there. *)
Definition target_device (config : FfmpegExecutorConfig) (hw_config : HwAccelConfig)
    : option (HwAccelBackend * string) :=
  backend ← HwAccelConfig_backend hw_config;
  device_id ← FfmpegExecutorConfig_gpu_device config;
  if str_in (enumerate_gpus backend) device_id then Some (backend, device_id) else None.

Definition Ffmpeg_init (caps : FfmpegCapabilities)
    (parsed_config : result VoomError FfmpegExecutorConfig) (self : FfmpegExecutorPlugin)
    : FfmpegExecutorPlugin * list Event :=
  match FfmpegCapabilities_codecs caps with
  | None => (self, [])
  | Some codecs =>
      let formats := FfmpegCapabilities_formats caps in
      let hw_accels := FfmpegCapabilities_hw_accels caps in
      let config := match parsed_config with
                    | Ok c => c
                    | Err _ => FfmpegExecutorConfig_default
                    end in
      let hw_config := (resolve_hw_config verifier (FfmpegExecutorConfig_hw_accel config)
                          hw_accels).1 in
      let target := target_device config hw_config in
      let hw_config := match target with
                       | Some (_, device_id) =>
                           HwAccelConfig_with_device hw_config (Some device_id)
                       | None => hw_config
                       end in
      let validated_encoders :=
        List.filter (validates target) (CodecCapabilities_hw_encoders codecs) in
      let parallel_limits := nvenc_parallel_limits (HwAccelConfig_backend hw_config)
                               validated_encoders
                               (FfmpegExecutorConfig_nvenc_max_parallel config) in
      let hw_accel := HwAccelConfig_with_hw_decode_enabled
                        (HwAccelConfig_with_hw_decoders
                           (HwAccelConfig_with_validated_encoders hw_config validated_encoders)
                           (CodecCapabilities_hw_decoders codecs))
                        (default true (FfmpegExecutorConfig_hw_decode config)) in
      ({| Ffmpeg_available := true;
          Ffmpeg_hw_accel := hw_accel;
          Ffmpeg_probed_codecs := Some codecs;
          Ffmpeg_probed_formats := Some formats;
          Ffmpeg_probed_hw_accels := Some hw_accels;
          Ffmpeg_has_store := Ffmpeg_has_store self |},
       [Event_ExecutorCapabilities
          {| ECE_plugin_name := "ffmpeg-executor";
             ECE_codecs := codecs;
             ECE_formats := formats;
             ECE_hw_accels := hw_accels;
             ECE_parallel_limits := parallel_limits |}])
  end.
End init.
