(* ===== verification/FfmpegFacts.v ===== *)
(** * Facts about the FFmpeg executor

    The arguments are flags with one value each, between two fixed flags and the
    output; reading them back gives what [ffmpeg] is told about inputs, streams,
    their metadata and their codecs. *)
From S2P Require Import Prelude Json Media Plan CapabilityMap Condition Codecs Jobs Events Kernel.
From S2P Require Import Process MkvExecutor MkvFacts CropDetect FfmpegCommand VmafSearch.
From S2P Require Import FfmpegExecutor.

(** ** Reading a command line

    As the manual of [ffmpeg] says: of the options that apply to a stream the last
    one counts; [-c:a:n] applies to the [n]-th audio stream of the output, and
    [-metadata:s:n] and [-disposition:n] to its [n]-th stream. *)
Fixpoint read_options (args : list string) : option (list (string * string) * string) :=
  match args with
  | [] => None
  | [out] => Some ([], out)
  | flag :: value :: rest => '(opts, out) ← read_options rest; Some ((flag, value) :: opts, out)
  end.

Definition read_command (args : list string) : option (list (string * string) * string) :=
  match args with
  | y :: b :: rest => if bool_decide (y = "-y" ∧ b = "-hide_banner") then read_options rest else None
  | _ => None
  end.

Definition option_values (flag : string) (opts : list (string * string)) : list string :=
  snd <$> List.filter (λ o, bool_decide (o.1 = flag)) opts.

(** The value that [key=value] options of a stream give to a key. *)
Definition stream_tag (stream : u32) (key : string) (opts : list (string * string)) : option string :=
  last (omap (λ v, '(k, x) ← split_once (ascii_of_nat 61) v;
                   if bool_decide (k = key) then Some x else None)
          (option_values ("-metadata:s:" +:+ pretty stream) opts)).

Definition stream_disposition (stream : u32) (opts : list (string * string)) : option string :=
  last (option_values ("-disposition:" +:+ pretty stream) opts).

(** The codec of the [rank]-th output stream of a kind, [v] or [a], and the options
    that give it. *)
Definition codec_applies (kind : string) (rank : u32) (o : string * string) : bool :=
  bool_decide (o.1 ∈ ["-c"; "-c:" +:+ kind; "-c:" +:+ kind +:+ ":" +:+ pretty rank]).

Definition stream_codec (kind : string) (rank : u32) (opts : list (string * string))
    : option string := last (snd <$> List.filter (codec_applies kind rank) opts).

(** ** What a plan wants of a track *)

(** The last action of a kind for the track of an index decides. *)
Definition wanted {A} (f : PlannedAction → option A) (actions : list PlannedAction) (index : u32)
    (old : A) : A :=
  default old (last (omap (λ a,
    if bool_decide (PlannedAction_track_index a = Some index) then f a else None) actions)).

Definition sets_default (a : PlannedAction) : option bool :=
  match PlannedAction_operation a with
  | Op_SetDefault => Some true | Op_ClearDefault => Some false | _ => None
  end.

Definition sets_forced (a : PlannedAction) : option bool :=
  match PlannedAction_operation a with
  | Op_SetForced => Some true | Op_ClearForced => Some false | _ => None
  end.

Definition sets_title (a : PlannedAction) : option string :=
  match PlannedAction_operation a, PlannedAction_parameters a with
  | Op_SetTitle, AP_Title title => Some title | _, _ => None
  end.

Definition sets_language (a : PlannedAction) : option string :=
  match PlannedAction_operation a, PlannedAction_parameters a with
  | Op_SetLanguage, AP_Language language => Some language | _, _ => None
  end.

(** ** Options as lists of arguments *)
Definition flat (opts : list (string * string)) : list string := opts ≫= λ o, [o.1; o.2].

Lemma flat_app a b : flat (a ++ b) = flat a ++ flat b.
Proof. apply bind_app. Qed.

Lemma read_flat opts out : read_options (flat opts ++ [out]) = Some (opts, out).
Proof.
  induction opts as [|[f v] opts IH]; [done|]. change (flat ((f, v) :: opts)) with (f :: v :: flat opts).
  cbn [app read_options]. by rewrite IH.
Qed.

Lemma option_values_app flag a b :
  option_values flag (a ++ b) = option_values flag a ++ option_values flag b.
Proof. unfold option_values. by rewrite List.filter_app, fmap_app. Qed.

Lemma option_values_cons flag o l :
  option_values flag (o :: l) = (if bool_decide (o.1 = flag) then [o.2] else []) ++ option_values flag l.
Proof. unfold option_values. cbn. by destruct (bool_decide _). Qed.

Lemma option_values_none flag l :
  Forall (λ o, o.1 ≠ flag) l → option_values flag l = [].
Proof.
  intros Hl. unfold option_values. rewrite filter_none; [done|]. eapply Forall_impl; [exact Hl|].
  intros o Ho. by apply bool_decide_eq_false.
Qed.

(** ** The options of an action

    Flags that an action never uses: those of inputs, maps and of the metadata of a
    stream, and the codec of all streams. *)
Definition reserved (flag : string) : bool :=
  str_in ["-i"; "-map"; "-c"] flag || starts_with "-metadata:s:" flag
  || starts_with "-disposition:" flag.

Definition is_codec_option (o : string * string) : bool := starts_with "-c:" o.1.

(** The codec option that an action writes. *)
Definition codec_flag (kind : string) (stream : option u32) : string :=
  match stream with
  | Some n => "-c:" +:+ kind +:+ ":" +:+ pretty n
  | None => "-c:" +:+ kind
  end.

Definition action_codec (hw_accel : option HwAccelConfig) (a : PlannedAction)
    : list (string * string) :=
  match PlannedAction_operation a, PlannedAction_parameters a with
  | Op_TranscodeVideo, AP_Transcode codec settings =>
      [(codec_flag "v" (PlannedAction_track_index a),
        video_encoder (resolve_effective_hw settings hw_accel) codec)]
  | Op_TranscodeAudio, AP_Transcode codec _ =>
      [(codec_flag "a" (PlannedAction_track_index a), software_encoder codec)]
  | Op_SynthesizeAudio, AP_Synthesize _ _ codec _ _ _ _ _ _ _ =>
      [(codec_flag "a" (PlannedAction_track_index a), software_encoder (default "aac" codec))]
  | _, _ => []
  end.

(** [cmd'] is [cmd] and more options, none of them reserved, with the codec options [cs]. *)
Definition adds (cs : list (string * string)) (cmd cmd' : FfmpegCommand) : Prop :=
  ∃ ps, cmd' = cmd ++ flat ps ∧ Forall (λ o, reserved o.1 = false) ps ∧
        List.filter is_codec_option ps = cs.

Lemma adds_nil cmd : adds [] cmd cmd.
Proof. exists []. by rewrite app_nil_r. Qed.

Lemma adds_trans cs1 cs2 a b c : adds cs1 a b → adds cs2 b c → adds (cs1 ++ cs2) a c.
Proof.
  intros (p & -> & Hp & <-) (q & -> & Hq & <-). exists (p ++ q).
  by rewrite flat_app, app_assoc, List.filter_app, Forall_app.
Qed.

Lemma adds_option cmd f v :
  reserved f = false → adds (if starts_with "-c:" f then [(f, v)] else []) cmd (push_option cmd f v).
Proof.
  intros Hf. exists [(f, v)]. split; [done|]. split; [by apply Forall_singleton|]. cbn. unfold is_codec_option. cbn.
  by destruct (starts_with "-c:" f).
Qed.

(** An option that is no codec. *)
Lemma adds_plain cs a b f v :
  reserved f = false → starts_with "-c:" f = false → adds cs a b → adds cs a (push_option b f v).
Proof.
  intros Hr Hc Hab. rewrite <-(app_nil_r cs). eapply adds_trans; [done|].
  pose proof (adds_option b f v Hr) as Ha. by rewrite Hc in Ha.
Qed.

Lemma starts_with_app p s : starts_with p (p +:+ s) = true.
Proof.
  induction p as [|c p IH]; [by destruct s|]. change (String c p +:+ s) with (String c (p +:+ s)).
  cbn [starts_with]. by rewrite bool_decide_eq_true_2.
Qed.

Lemma reserved_codec k n : k = "v" ∨ k = "a" → reserved (codec_flag k n) = false.
Proof. by intros [-> | ->]; destruct n as [n|]. Qed.

Lemma adds_codec cmd k n v :
  k = "v" ∨ k = "a" → adds [(codec_flag k n, v)] cmd (push_option cmd (codec_flag k n) v).
Proof.
  intros Hk. pose proof (adds_option cmd (codec_flag k n) v (reserved_codec k n Hk)) as Ha.
  replace (starts_with "-c:" (codec_flag k n)) with true in Ha; [done|].
  destruct n; symmetry; apply starts_with_app.
Qed.

(** Closes goals [adds cs cmd (push_option .. )] where the last options are no codecs. *)
Ltac plain :=
  repeat match goal with
         | |- adds _ ?a ?a => apply adds_nil
         | |- adds _ _ (push_option _ _ _) => apply adds_plain; [done|done|]
         | |- adds _ _ (if ?b then _ else _) => destruct b
         | |- adds _ _ (match ?o with Some _ => _ | None => _ end) => destruct o
         end.

Lemma adds_audio cmd stream encoder bitrate channels loudness :
  adds [(codec_flag "a" stream, encoder)] cmd
    (apply_audio_codec_args cmd stream encoder bitrate channels loudness).
Proof.
  assert (Hc : adds [(codec_flag "a" stream, encoder)] cmd
    match stream with
    | Some stream => audio_codec_for_track cmd stream encoder
    | None => audio_codec cmd encoder
    end).
  { destruct stream; apply (adds_codec _ "a"); auto. }
  unfold apply_audio_codec_args, audio_filter. cbv zeta.
  destruct loudness, channels, bitrate; plain; try done; destruct stream; plain; done.
Qed.

Section actions.
Context `{Unicode} `{StrDebug}.

Lemma adds_video_encoder cmd stream encoder settings :
  adds [(codec_flag "v" stream, encoder)] cmd (video_encoder_args cmd stream encoder settings).
Proof.
  assert (Hc : adds [(codec_flag "v" stream, encoder)] cmd
    match stream with
    | Some stream => video_codec_for_track cmd stream encoder
    | None => video_codec cmd encoder
    end).
  { destruct stream; apply (adds_codec _ "v"); auto. }
  unfold video_encoder_args, apply_quality, apply_preset, apply_tune. cbv zeta.
  destruct (TranscodeSettings_bitrate settings), (TranscodeSettings_tune settings),
    (TranscodeSettings_preset settings), (TranscodeSettings_crf settings); plain; done.
Qed.

Lemma adds_colors cs a b p t m : adds cs a b → adds cs a (video_color_metadata b p t m).
Proof. intros. unfold video_color_metadata. by plain. Qed.

Lemma adds_hdr cs a cmd encoder codec track cmd' :
  adds cs a cmd → apply_hdr_preservation cmd encoder codec track = Ok cmd' → adds cs a cmd'.
Proof.
  intros Ha. unfold apply_hdr_preservation. destruct (encoder_supports_hdr codec); [|done].
  cbn [negb]. cbv zeta. set (e := _ || _ || _). destruct e; intros [= <-]; [|by apply adds_colors].
  plain; by apply adds_colors.
Qed.

Lemma adds_transcode_video cmd file a hw cmd' :
  PlannedAction_operation a = Op_TranscodeVideo →
  apply_transcode_video cmd file a hw = Ok cmd' → adds (action_codec hw a) cmd cmd'.
Proof.
  intros Hop. unfold apply_transcode_video, action_codec. rewrite Hop.
  destruct (PlannedAction_parameters a) as [| | | | | |codec settings| | | | | | |];
    try (intros [= <-]; apply adds_nil).
  destruct (check_hw_fallback _ _ _); [|done]. cbn [mbind result_mbind].
  set (enc := video_encoder _ _). pose proof (adds_video_encoder cmd (PlannedAction_track_index a) enc settings) as Hv.
  revert Hv. generalize (video_encoder_args cmd (PlannedAction_track_index a) enc settings). intros cmd1 Hv.
  assert (Hf : ∀ cmd2, adds [(codec_flag "v" (PlannedAction_track_index a), enc)] cmd cmd2 →
    adds [(codec_flag "v" (PlannedAction_track_index a), enc)] cmd
      match collect_video_filters file a with
      | [] => cmd2 | f :: l => push_option cmd2 "-vf" (str_join "," (f :: l)) end).
  { intros cmd2 H2. destruct (collect_video_filters file a); [done|]. by plain. }
  destruct (source_video_track file a) as [track|]; cbn; [|by intros [= <-]; apply Hf].
  destruct (should_preserve_hdr track settings).
  - destruct (apply_hdr_preservation _ _ _ _) as [cmd2|] eqn:Hh; [|done]. cbn. intros [= <-]. apply Hf. by eapply adds_hdr.
  - destruct (_ && _); cbn; intros [= <-]; apply Hf; [by apply adds_colors|done].
Qed.

Lemma adds_try_foldl {A} (f : FfmpegCommand → A → result VoomError FfmpegCommand)
    (cs : A → list (string * string)) cmd l cmd' :
  (∀ cmd x cmd', f cmd x = Ok cmd' → adds (cs x) cmd cmd') →
  try_foldl f cmd l = Ok cmd' → adds (l ≫= cs) cmd cmd'.
Proof.
  intros Hf. revert cmd. induction l as [|x l IH]; intros cmd; cbn; [intros [= <-]; apply adds_nil|].
  destruct (f cmd x) as [cmd1|] eqn:Hx; [|done]. cbn. intros Hl.
  eapply adds_trans; [by eapply Hf|by apply IH].
Qed.

Lemma adds_action file hw cmd a cmd' :
  apply_action file hw cmd a = Ok cmd' → adds (action_codec hw a) cmd cmd'.
Proof.
  unfold apply_action. destruct (PlannedAction_operation a) eqn:Hop;
    try (unfold action_codec; rewrite Hop; intros [= <-]; apply adds_nil).
  all: try by apply adds_transcode_video.
  all: unfold action_codec; rewrite Hop.
  - unfold apply_transcode_audio. destruct (PlannedAction_parameters a); intros [= <-]; try apply adds_nil.
    apply adds_audio.
  - unfold apply_synthesize_audio. destruct (PlannedAction_parameters a); intros [= <-]; try apply adds_nil.
    apply adds_audio.
  - destruct (PlannedAction_parameters a); try (intros [= <-]; apply adds_nil).
    destruct (validate_metadata_key _); [|done]. cbn. destruct (validate_metadata_value _); [|done].
    cbn. intros [= <-]. unfold FfmpegCommand_metadata. plain.
  - destruct (PlannedAction_parameters a); try (intros [= <-]; apply adds_nil). intros Hl.
    eapply (adds_try_foldl _ (λ _, [])) in Hl.
    + replace (tags ≫= λ _, []) with (@nil (string * string)) in Hl; [done|]. clear. by induction tags.
    + intros c tag c'. destruct (validate_metadata_key _); [|done]. cbn. intros [= <-]. unfold clear_metadata. plain.
  - destruct (PlannedAction_parameters a); try (intros [= <-]; apply adds_nil).
    destruct (validate_metadata_key _); [|done]. cbn. intros [= <-]. unfold clear_metadata. plain.
Qed.
End actions.

(** ** Metadata of streams *)
Lemma default_last_cons {A} (x old : A) l : default old (last (x :: l)) = default x (last l).
Proof.
  destruct l as [|y l]; [done|]. rewrite last_cons_cons. destruct (last (y :: l)) eqn:Hl; [done|].
  by apply last_None in Hl.
Qed.

Lemma wanted_cons {A} (f : PlannedAction → option A) a actions index old :
  wanted f (a :: actions) index old
  = wanted f actions index
      (if bool_decide (PlannedAction_track_index a = Some index) then default old (f a) else old).
Proof.
  unfold wanted. cbn. case_bool_decide; [|done]. destruct (f a); [|done]. cbn [default].
  apply default_last_cons.
Qed.

Lemma stream_change_spec a f m :
  stream_change a = Ok f →
  OTM_output_index (f m) = OTM_output_index m ∧ OTM_input_index (f m) = OTM_input_index m ∧
  OTM_language (f m) = default (OTM_language m) (sets_language a) ∧
  OTM_title (f m) = default (OTM_title m) (sets_title a) ∧
  OTM_is_default (f m) = default (OTM_is_default m) (sets_default a) ∧
  OTM_is_forced (f m) = default (OTM_is_forced m) (sets_forced a).
Proof.
  unfold stream_change, sets_language, sets_title, sets_default, sets_forced.
  destruct (PlannedAction_operation a); try by intros [= <-].
  all: destruct (PlannedAction_parameters a); try by intros [= <-].
  all: destruct (validate_metadata_value _); [|done]; by intros [= <-].
Qed.

Lemma update_first_lookup {A} (key : A → N) k (f : A → A) l i x :
  NoDup (key <$> l) → l !! i = Some x →
  update_first (λ y, (key y =? k)%N) f l !! i = Some (if (key x =? k)%N then f x else x).
Proof.
  revert i. induction l as [|y l IH]; intros i Hnd Hi; [done|]. apply NoDup_cons in Hnd as [Hy Hnd].
  cbn [update_first]. destruct (N.eqb_spec (key y) k) as [Hk|Hk]; destruct i as [|i]; cbn in *.
  - injection Hi as <-. by rewrite (proj2 (N.eqb_eq _ _)).
  - rewrite (proj2 (N.eqb_neq (key x) k)); [done|]. intros Hx. apply Hy. rewrite Hk, <-Hx.
    apply list_elem_of_fmap_2. by eapply list_elem_of_lookup_2.
  - injection Hi as <-. by rewrite (proj2 (N.eqb_neq _ _)).
  - by apply IH.
Qed.

Lemma update_first_keys {A} (key : A → N) (p : A → bool) (f : A → A) l :
  (∀ x, key (f x) = key x) → key <$> update_first p f l = key <$> l.
Proof.
  intros Hf. induction l as [|x l IH]; [done|]. cbn [update_first]. destruct (p x); cbn; [by rewrite Hf|].
  by rewrite IH.
Qed.

(** The stream [m] after the actions. *)
Definition changed_as (actions : list PlannedAction) (m m' : OutputTrackMetadata) : Prop :=
  OTM_output_index m' = OTM_output_index m ∧ OTM_input_index m' = OTM_input_index m ∧
  OTM_language m' = wanted sets_language actions (OTM_input_index m) (OTM_language m) ∧
  OTM_title m' = wanted sets_title actions (OTM_input_index m) (OTM_title m) ∧
  OTM_is_default m' = wanted sets_default actions (OTM_input_index m) (OTM_is_default m) ∧
  OTM_is_forced m' = wanted sets_forced actions (OTM_input_index m) (OTM_is_forced m).

Lemma metadata_actions actions streams streams' :
  NoDup (OTM_input_index <$> streams) →
  apply_track_metadata_actions streams actions = Ok streams' →
  length streams' = length streams ∧
  ∀ i m, streams !! i = Some m → ∃ m', streams' !! i = Some m' ∧ changed_as actions m m'.
Proof.
  revert streams. induction actions as [|a actions IH]; intros streams Hnd; cbn [apply_track_metadata_actions].
  { intros [= <-]. split; [done|]. intros i m Hm. exists m. by split_and!. }
  assert (Hskip : (∀ m, m ∈ streams → PlannedAction_track_index a ≠ Some (OTM_input_index m)) →
    apply_track_metadata_actions streams actions = Ok streams' →
    length streams' = length streams ∧ ∀ i m, streams !! i = Some m →
      ∃ m', streams' !! i = Some m' ∧ changed_as (a :: actions) m m').
  { intros Hne Hrun. destruct (IH streams Hnd Hrun) as [Hlen Hm]. split; [done|]. intros i m Hi.
    destruct (Hm i m Hi) as (m' & Hm' & Hc). exists m'. split; [done|]. unfold changed_as in *.
    assert (Hx : PlannedAction_track_index a ≠ Some (OTM_input_index m))
      by (apply Hne; by eapply list_elem_of_lookup_2).
    rewrite !wanted_cons, !bool_decide_false by done. exact Hc. }
  destruct (PlannedAction_track_index a) as [index|] eqn:Hidx; [|by apply Hskip].
  destruct (existsb _ streams) eqn:Hex.
  - destruct (stream_change a) as [f|] eqn:Hf; [|done]. cbn [mbind result_mbind]. intros Hrun.
    pose proof (λ m, stream_change_spec a f m Hf) as Hspec. apply IH in Hrun as [Hlen Hm].
    2: { rewrite update_first_keys; [done|]. intros m. by destruct (Hspec m) as (_ & ? & _). }
    split.
    + rewrite Hlen. rewrite <-(length_fmap OTM_input_index), update_first_keys; [by rewrite length_fmap|].
      intros m. by destruct (Hspec m) as (_ & ? & _).
    + intros i m Hi. destruct (Hm i _ (update_first_lookup OTM_input_index index f streams i m Hnd Hi)) as (m' & Hm' & Hc).
      exists m'. split; [done|]. destruct (Hspec m) as (Ho & Hin & Hl & Ht & Hd & Hfo). revert Hc. unfold changed_as.
      rewrite !wanted_cons, Hidx. destruct (N.eqb_spec (OTM_input_index m) index) as [Heq|Hne].
      * rewrite !bool_decide_true by congruence. by rewrite Ho, Hin, Hl, Ht, Hd, Hfo.
      * rewrite !bool_decide_false by congruence. done.
  - apply Hskip. intros m Hm [= ->]. rewrite <-not_true_iff_false in Hex. apply Hex, existsb_elem_of. exists m.
    split; [done|]. apply N.eqb_refl.
Qed.

(** ** The whole command *)
Definition stream_options (m : OutputTrackMetadata) : list (string * string) :=
  [("-metadata:s:" +:+ pretty (OTM_output_index m), "language=" +:+ OTM_language m);
   ("-metadata:s:" +:+ pretty (OTM_output_index m), "title=" +:+ OTM_title m);
   ("-disposition:" +:+ pretty (OTM_output_index m), disposition_value m)].

Lemma stream_args_one cmd m cmd' :
  stream_metadata_args cmd m = Ok cmd' → cmd' = cmd ++ flat (stream_options m).
Proof.
  unfold stream_metadata_args. destruct (validate_metadata_value (OTM_language m)); [|done].
  destruct (validate_metadata_value (OTM_title m)); [|done]. intros [= <-].
  unfold FfmpegCommand_disposition, FfmpegCommand_metadata, push_option. by rewrite <-!app_assoc.
Qed.

Lemma stream_args_options cmd streams cmd' :
  try_foldl stream_metadata_args cmd streams = Ok cmd' → cmd' = cmd ++ flat (streams ≫= stream_options).
Proof.
  revert cmd. induction streams as [|m streams IH]; intros cmd; cbn [try_foldl].
  { intros [= <-]. by rewrite app_nil_r. }
  destruct (stream_metadata_args cmd m) as [cmd1|] eqn:Hm; [|done]. intros ->%IH.
  rewrite (stream_args_one _ _ _ Hm), <-app_assoc, <-flat_app. done.
Qed.

(** The [-map] options. *)
Definition map_options (file : MediaFile) (exclude_attachments : bool) : list (string * string) :=
  match exclude_attachments, output_tracks file true with
  | true, t0 :: tracks => (λ t, ("-map", "0:" +:+ pretty (Track_index t))) <$> t0 :: tracks
  | _, _ => [("-map", "0")]
  end.

Lemma foldl_map_track cmd tracks :
  foldl (λ cmd t, map_track cmd (Track_index t)) cmd tracks
  = cmd ++ flat ((λ t, ("-map", "0:" +:+ pretty (Track_index t))) <$> tracks).
Proof.
  revert cmd. induction tracks as [|t tracks IH]; intros cmd; [by rewrite app_nil_r|]. cbn [foldl].
  rewrite IH. unfold map_track, push_option. by rewrite <-app_assoc.
Qed.

Lemma map_args_options cmd file (ex : bool) :
  (if ex then map_non_attachment_tracks cmd file else map_all cmd) = cmd ++ flat (map_options file ex).
Proof.
  unfold map_options. destruct ex; [|done]. unfold map_non_attachment_tracks, output_tracks. cbn [andb].
  destruct (List.filter _ (MediaFile_tracks file)) as [|t tracks]; [done|]. apply foldl_map_track.
Qed.

Definition hw_flag (o : string * string) : Prop :=
  o.1 ∈ ["-vaapi_device"; "-qsv_device"; "-hwaccel"; "-hwaccel_output_format"].

Lemma device_options hw : ∃ ps, device_args hw = flat ps ∧ Forall hw_flag ps.
Proof.
  unfold device_args. destruct (HwAccelConfig_backend hw) as [[]|], (HwAccelConfig_device hw) as [d|];
    try by exists [].
  - exists [("-qsv_device", d)]. split; [done|]. apply Forall_singleton. unfold hw_flag. set_solver.
  - exists [("-vaapi_device", d)]. split; [done|]. apply Forall_singleton. unfold hw_flag. set_solver.
Qed.

Lemma decoder_options hw codec : ∃ ps, decoder_input_args hw codec = flat ps ∧ Forall hw_flag ps.
Proof.
  unfold decoder_input_args. destruct (negb _); [by exists []|]. destruct (HwAccelConfig_backend hw); [|by exists []].
  destruct (hw_decoder_for_backend _ _); [|by exists []]. destruct (negb _); [by exists []|].
  destruct (decode_surface _) as [x|]; [|by exists []].
  exists [("-hwaccel", x); ("-hwaccel_output_format", x)]. split; [done|].
  repeat apply Forall_cons_2; [| |done]; unfold hw_flag; set_solver.
Qed.

Section shape.
Context `{Unicode} `{StrDebug}.

Lemma decode_options file hw actions :
  ∃ ps, hw_decode_args file hw actions = flat ps ∧ Forall hw_flag ps.
Proof.
  induction actions as [|a actions IH]; [by exists []|]. cbn [hw_decode_args].
  match goal with |- context [match ?x with [] => _ | _ :: _ => _ end] => set (args := x) end.
  assert (Hargs : ∃ ps, args = flat ps ∧ Forall hw_flag ps).
  { unfold args. destruct (negb _); [by exists []|]. destruct (PlannedAction_parameters a); try by exists [].
    destruct (resolve_effective_hw _ _) as [cfg|]; [|by exists []]. unfold action_allows_direct_hw_decode.
    destruct (PlannedAction_parameters a) as [| | | | | |codec0 settings0| | | | | | |]; try by exists [].
    destruct (negb _); [by exists []|]. destruct (requires_software_video_filters _); [by exists []|].
    destruct (source_video_track _ _); [|by exists []]. destruct (negb _); [by exists []|]. apply decoder_options. }
  by destruct args.
Qed.

(** What the options of a command are. *)
Record command_shape (file : MediaFile) (actions : list PlannedAction) (hw : option HwAccelConfig)
    (hw_opts act_opts : list (string * string)) (streams : list OutputTrackMetadata) : Prop := {
  cs_hw : Forall hw_flag hw_opts;
  cs_actions : Forall (λ o, reserved o.1 = false) act_opts;
  cs_codecs : List.filter is_codec_option act_opts = actions ≫= action_codec hw;
  cs_streams : apply_track_metadata_actions
                 (output_track_metadata file (has_transcode_video actions)) actions = Ok streams;
}.

Definition metadata_options (streams : list OutputTrackMetadata) : list (string * string) :=
  match streams with
  | [] => []
  | _ => [("-map_metadata", "0"); ("-map_chapters", "0")] ++ (streams ≫= stream_options)
  end.

Definition command_options (file : MediaFile) (actions : list PlannedAction)
    (hw_opts act_opts : list (string * string)) (streams : list OutputTrackMetadata)
    : list (string * string) :=
  hw_opts ++ [("-i", to_string_lossy (MediaFile_path file))] ++
  map_options file (has_transcode_video actions) ++ [("-c", "copy")] ++ act_opts ++
  metadata_options streams.

Lemma no_streams_no_metadata actions : apply_track_metadata_actions [] actions = Ok [].
Proof.
  induction actions as [|a actions IH]; [done|]. cbn. by destruct (PlannedAction_track_index a).
Qed.

Lemma preserved_metadata cmd file ex actions cmd' :
  apply_preserved_stream_metadata cmd file ex actions = Ok cmd' →
  ∃ streams, apply_track_metadata_actions (output_track_metadata file ex) actions = Ok streams ∧
             cmd' = cmd ++ flat (metadata_options streams).
Proof.
  unfold apply_preserved_stream_metadata. destruct (output_track_metadata file ex) as [|m ms] eqn:Hms.
  { intros [= <-]. exists []. split; [apply no_streams_no_metadata|]. by rewrite app_nil_r. }
  destruct (apply_track_metadata_actions (m :: ms) actions) as [streams|] eqn:Hrun; [|done].
  cbn [mbind result_mbind]. intros ->%stream_args_options. exists streams. split; [done|].
  assert (length streams ≠ 0) as Hlen.
  { assert (Hl : ∀ acts l l', apply_track_metadata_actions l acts = Ok l' → length l' = length l).
    { clear. induction acts as [|a acts IH]; intros l l'; cbn; [by intros [= <-]|].
      destruct (PlannedAction_track_index a); [|by apply IH]. destruct (existsb _ l); [|by apply IH].
      destruct (stream_change a) as [f|]; [|done]. cbn. intros ->%IH. clear.
      induction l as [|x l IH]; [done|]. cbn. destruct (_ =? _)%N; cbn; [done|by rewrite IH]. }
    by rewrite (Hl _ _ _ Hrun). }
  destruct streams as [|s streams]; [done|]. unfold metadata_options. rewrite flat_app.
  unfold map_chapters, map_metadata, push_option. by rewrite <-!app_assoc.
Qed.

Lemma build_shape file actions out hw args :
  build_ffmpeg_command file actions out hw = Ok args →
  ∃ hw_opts act_opts streams, command_shape file actions hw hw_opts act_opts streams ∧
    args = ["-y"; "-hide_banner"] ++ flat (command_options file actions hw_opts act_opts streams)
           ++ [to_string_lossy out].
Proof.
  unfold build_ffmpeg_command.
  assert (Hdev : ∃ ps, match hw with Some hw => device_args hw | None => [] end = flat ps ∧ Forall hw_flag ps)
    by (destruct hw; [apply device_options|by exists []]).
  destruct Hdev as (dev & -> & Hdev). destruct (decode_options file hw actions) as (dec & -> & Hdec).
  rewrite map_args_options. destruct (try_foldl _ _ _) as [cmd|] eqn:Hact; [|done]. cbn [mbind result_mbind].
  apply (adds_try_foldl _ (action_codec hw)) in Hact as (ps & -> & Hps & Hcs); [|intros ???; apply adds_action].
  destruct (apply_preserved_stream_metadata _ _ _ _) as [cmd|] eqn:Hmeta; [|done]. cbn [mbind result_mbind].
  intros [= <-]. apply preserved_metadata in Hmeta as (streams & Hstreams & ->).
  exists (dev ++ dec), ps, streams. split.
  - split; [by apply Forall_app|done..].
  - unfold FfmpegCommand_arg, codec_copy, push_option, FfmpegCommand_new, command_options.
    rewrite !flat_app. by rewrite <-!app_assoc.
Qed.

(** ** Reading it back *)
Lemma hw_flags_plain ps : Forall hw_flag ps → Forall (λ o, reserved o.1 = false ∧ is_codec_option o = false) ps.
Proof.
  intros Hps. eapply Forall_impl; [exact Hps|]. intros [f v]. unfold hw_flag, is_codec_option. cbn.
  rewrite !elem_of_cons, elem_of_nil. intros [->|[->|[->|[->|[]]]]]; done.
Qed.

Lemma unreserved_values flag ps :
  reserved flag = true → Forall (λ o, reserved o.1 = false) ps → option_values flag ps = [].
Proof.
  intros Hf Hps. apply option_values_none. eapply Forall_impl; [exact Hps|]. intros o Ho Heq. cbn in Ho. congruence.
Qed.

Lemma reserved_values flag file actions hw hw_opts act_opts streams :
  reserved flag = true → command_shape file actions hw hw_opts act_opts streams →
  option_values flag (command_options file actions hw_opts act_opts streams)
  = option_values flag [("-i", to_string_lossy (MediaFile_path file))] ++
    option_values flag (map_options file (has_transcode_video actions)) ++
    option_values flag [("-c", "copy")] ++ option_values flag (metadata_options streams).
Proof.
  intros Hf [Hhw Hact _ _]. unfold command_options. rewrite !option_values_app.
  rewrite (unreserved_values flag hw_opts Hf), (unreserved_values flag act_opts Hf Hact); [done|].
  eapply Forall_impl; [by apply hw_flags_plain|]. by intros o [? _].
Qed.

Lemma metadata_flags streams o :
  o ∈ metadata_options streams →
  o.1 = "-map_metadata" ∨ o.1 = "-map_chapters" ∨
  ∃ m, m ∈ streams ∧ o ∈ stream_options m.
Proof.
  unfold metadata_options. destruct streams as [|m ms]; [by intros ?%elem_of_nil|].
  rewrite elem_of_app, !elem_of_cons, elem_of_nil. intros [[->|[->|[]]]|Ho]; [by left|by right; left|].
  right. right. apply list_elem_of_bind in Ho as (x & Ho & Hx). eauto.
Qed.

(** Options that the metadata part does not write. *)
Lemma metadata_values_none flag streams :
  str_in ["-map_metadata"; "-map_chapters"] flag = false →
  starts_with "-metadata:s:" flag = false → starts_with "-disposition:" flag = false →
  option_values flag (metadata_options streams) = [].
Proof.
  intros Hf Hm Hd. apply option_values_none, Forall_forall. intros o Ho <-.
  apply metadata_flags in Ho as [He|[He|(m & _ & Ho)]]; [by rewrite He in Hf|by rewrite He in Hf|].
  unfold stream_options in Ho. rewrite !elem_of_cons, elem_of_nil in Ho.
  destruct Ho as [->|[->|[->|[]]]]; cbn [fst] in *; by rewrite starts_with_app in *.
Qed.

Lemma stream_values flag (streams : list OutputTrackMetadata) i m :
  NoDup (OTM_output_index <$> streams) → streams !! i = Some m →
  flag = "-metadata:s:" +:+ pretty (OTM_output_index m) ∨
  flag = "-disposition:" +:+ pretty (OTM_output_index m) →
  option_values flag (streams ≫= stream_options) = option_values flag (stream_options m).
Proof.
  intros Hnd Hi Hflag. assert (Hne : ∀ m', OTM_output_index m' ≠ OTM_output_index m →
    option_values flag (stream_options m') = []).
  { intros m' Hm'. apply option_values_none. unfold stream_options.
    repeat apply Forall_cons_2; [| | |apply Forall_nil_2]; cbn [fst];
      (destruct Hflag as [-> | ->]; try done; intros Heq%(inj _)%(inj _); congruence). }
  assert (Hnone : ∀ l, (∀ m', m' ∈ l → OTM_output_index m' ≠ OTM_output_index m) →
    option_values flag (l ≫= stream_options) = []).
  { induction l as [|x l IH]; intros Hl; [done|].
    change ((x :: l) ≫= stream_options) with (stream_options x ++ (l ≫= stream_options)).
    rewrite option_values_app, Hne, IH; [done| |].
    - intros m' Hm'. apply Hl. by apply list_elem_of_further.
    - apply Hl, list_elem_of_here. }
  apply list_elem_of_split_length in Hi as (l1 & l2 & -> & _).
  rewrite bind_app. change ((m :: l2) ≫= stream_options) with (stream_options m ++ (l2 ≫= stream_options)).
  rewrite fmap_app, fmap_cons in Hnd. apply NoDup_app in Hnd as (_ & Hl1 & Hl2). apply NoDup_cons in Hl2 as [Hl2 _].
  rewrite !option_values_app, !Hnone, app_nil_r; [done| |].
  - intros m' Hm' Heq. apply Hl2. rewrite <-Heq. by apply list_elem_of_fmap_2.
  - intros m' Hm' Heq. apply (Hl1 (OTM_output_index m)); [|apply list_elem_of_here].
    rewrite <-Heq. by apply list_elem_of_fmap_2.
Qed.

Lemma input_and_maps file actions hw hw_opts act_opts streams :
  command_shape file actions hw hw_opts act_opts streams →
  let opts := command_options file actions hw_opts act_opts streams in
  option_values "-i" opts = [to_string_lossy (MediaFile_path file)] ∧
  option_values "-map" opts = snd <$> map_options file (has_transcode_video actions).
Proof.
  intros Hs opts. unfold opts.
  assert (Hmap : ∀ flag, option_values flag (map_options file (has_transcode_video actions))
                 = if bool_decide ("-map" = flag) then snd <$> map_options file (has_transcode_video actions) else []).
  { intros flag. assert (Hall : Forall (λ o, o.1 = "-map") (map_options file (has_transcode_video actions))).
    { unfold map_options. destruct (has_transcode_video actions), (output_tracks file true) as [|t ts];
        try by apply Forall_singleton. apply Forall_fmap, Forall_true. done. }
    case_bool_decide as Hflag.
    - unfold option_values. rewrite filter_all; [done|]. eapply Forall_impl; [exact Hall|]. intros o ->.
      by apply bool_decide_eq_true.
    - apply option_values_none. eapply Forall_impl; [exact Hall|]. by intros o ->. }
  split.
  - by rewrite (reserved_values "-i" _ _ _ _ _ _ eq_refl Hs), Hmap, metadata_values_none.
  - rewrite (reserved_values "-map" _ _ _ _ _ _ eq_refl Hs), Hmap, metadata_values_none by done.
    rewrite bool_decide_true by done. cbn. by rewrite app_nil_r.
Qed.

(** The output stream of a track. *)
Definition stream_as_wanted (actions : list PlannedAction) (opts : list (string * string))
    (stream : u32) (t : Track) : Prop :=
  stream_tag stream "language" opts
  = Some (wanted sets_language actions (Track_index t) (Track_language t)) ∧
  stream_tag stream "title" opts
  = Some (wanted sets_title actions (Track_index t) (Track_title t)) ∧
  stream_disposition stream opts
  = Some (match wanted sets_default actions (Track_index t) (Track_is_default t),
                wanted sets_forced actions (Track_index t) (Track_is_forced t) with
          | true, true => "default+forced"
          | true, false => "default"
          | false, true => "forced"
          | false, false => "0"
          end).

Lemma usize_as_u32_small i : (N.of_nat i < 4294967296)%N → usize_as_u32 i = N.of_nat i.
Proof. intros Hi. by apply N.mod_small. Qed.

Lemma streams_distinct actions streams streams' :
  NoDup (OTM_input_index <$> streams) → (N.of_nat (length streams) <= 4294967296)%N →
  (∀ i m, streams !! i = Some m → OTM_output_index m = usize_as_u32 i) →
  apply_track_metadata_actions streams actions = Ok streams' →
  NoDup (OTM_output_index <$> streams').
Proof.
  intros Hnd Hlen Hout Hrun. destruct (metadata_actions _ _ _ Hnd Hrun) as [Hlen' Hm].
  assert (Hidx : ∀ i m', streams' !! i = Some m' → OTM_output_index m' = N.of_nat i).
  { intros i m' Hi. pose proof (lookup_lt_Some _ _ _ Hi) as Hlt. rewrite Hlen' in Hlt.
    destruct (lookup_lt_is_Some_2 streams i Hlt) as [m Hmi]. destruct (Hm i m Hmi) as (m2 & Hm2 & Ho & _).
    rewrite Hi in Hm2. injection Hm2 as <-. rewrite Ho, (Hout i m Hmi). apply usize_as_u32_small. lia. }
  apply NoDup_alt. intros i j x Hi Hj. rewrite list_lookup_fmap in Hi, Hj.
  apply fmap_Some in Hi as (mi & Hi & ->). apply fmap_Some in Hj as (mj & Hj & Heq).
  rewrite (Hidx _ _ Hi), (Hidx _ _ Hj) in Heq. lia.
Qed.

(** The options of a stream are those of its metadata. *)
Lemma stream_option_values flag file actions hw hw_opts act_opts streams i m :
  command_shape file actions hw hw_opts act_opts streams →
  NoDup (OTM_output_index <$> streams) → streams !! i = Some m →
  flag = "-metadata:s:" +:+ pretty (OTM_output_index m) ∨
  flag = "-disposition:" +:+ pretty (OTM_output_index m) →
  option_values flag (command_options file actions hw_opts act_opts streams)
  = option_values flag (stream_options m).
Proof.
  intros Hs Hdis Hmi Hflag.
  assert (Hne : ∀ f v, str_in ["-i"; "-map"; "-c"; "-map_metadata"; "-map_chapters"] f = true →
    (f, v : string).1 ≠ flag).
  { intros f v Hf <-. apply bool_decide_eq_true in Hf. rewrite !elem_of_cons, elem_of_nil in Hf.
    destruct Hflag as [He | He]; cbn in He; destruct Hf as [Hf|[Hf|[Hf|[Hf|[Hf|[]]]]]]; rewrite Hf in He; discriminate He. }
  assert (Hres : reserved flag = true) by (destruct Hflag as [-> | ->]; vm_compute; done).
  rewrite (reserved_values _ _ _ _ _ _ _ Hres Hs).
  rewrite (option_values_none flag [("-i", _)]) by (apply Forall_singleton; by apply Hne).
  rewrite (option_values_none flag (map_options _ _)).
  2: { unfold map_options. destruct (has_transcode_video actions), (output_tracks file true);
         try (apply Forall_singleton; by apply Hne). apply Forall_fmap, Forall_true. intros ?. by apply Hne. }
  rewrite (option_values_none flag [("-c", _)]) by (apply Forall_singleton; by apply Hne).
  cbn [app]. unfold metadata_options. destruct streams as [|m0 ms0]; [by rewrite lookup_nil in Hmi|].
  rewrite option_values_app, (option_values_none flag [("-map_metadata", "0"); ("-map_chapters", "0")]).
  - by apply (stream_values flag _ i).
  - repeat apply Forall_cons_2; [| |apply Forall_nil_2]; by apply Hne.
Qed.

Lemma stream_metadata_read file actions hw hw_opts act_opts streams i t :
  command_shape file actions hw hw_opts act_opts streams →
  NoDup (Track_index <$> MediaFile_tracks file) →
  (N.of_nat (length (MediaFile_tracks file)) <= 4294967296)%N →
  output_tracks file (has_transcode_video actions) !! i = Some t →
  stream_as_wanted actions (command_options file actions hw_opts act_opts streams) (N.of_nat i) t.
Proof.
  intros Hs Hnd Hlen Hi. set (ex := has_transcode_video actions) in *. pose proof (cs_streams _ _ _ _ _ _ Hs) as Hrun.
  fold ex in Hrun. set (ms := output_track_metadata file ex) in *.
  assert (Hms : ms !! i = Some (OTM_from_track (usize_as_u32 i) t)).
  { unfold ms, output_track_metadata. by rewrite list_lookup_imap, Hi. }
  assert (Hlen2 : (length (output_tracks file ex) <= length (MediaFile_tracks file))%nat) by apply List.filter_length_le.
  assert (Hnd2 : NoDup (OTM_input_index <$> ms)).
  { assert (OTM_input_index <$> ms = Track_index <$> output_tracks file ex) as ->.
    { unfold ms, output_track_metadata. apply list_eq. intros k. rewrite !list_lookup_fmap, list_lookup_imap.
      by destruct (output_tracks file ex !! k). }
    unfold output_tracks. by apply NoDup_fmap_filter. }
  assert (Hlt : (N.of_nat i < 4294967296)%N) by (apply lookup_lt_Some in Hi; lia).
  destruct (metadata_actions _ _ _ Hnd2 Hrun) as [_ Hm]. destruct (Hm i _ Hms) as (m & Hmi & Hc).
  assert (Hdis : NoDup (OTM_output_index <$> streams)).
  { apply (streams_distinct actions ms); [done| | |done].
    - unfold ms, output_track_metadata. rewrite length_imap. lia.
    - intros k x. unfold ms, output_track_metadata. rewrite list_lookup_imap.
      destruct (output_tracks file ex !! k); [|done]. by intros [= <-]. }
  destruct Hc as (Ho & _ & Hl & Ht & Hd & Hf). cbn in Ho, Hl, Ht, Hd, Hf.
  rewrite usize_as_u32_small in Ho by done. rewrite <-Ho.
  unfold stream_as_wanted, stream_tag, stream_disposition. 
  rewrite !(stream_option_values _ _ _ _ _ _ _ i m Hs Hdis Hmi) by auto.
  assert (Hmeta : option_values ("-metadata:s:" +:+ pretty (OTM_output_index m)) (stream_options m)
    = ["language=" +:+ OTM_language m; "title=" +:+ OTM_title m]).
  { unfold stream_options. rewrite !option_values_cons. cbn [fst snd]. rewrite bool_decide_true by done. by rewrite bool_decide_false. }
  assert (Hdisp : option_values ("-disposition:" +:+ pretty (OTM_output_index m)) (stream_options m)
    = [disposition_value m]).
  { unfold stream_options. rewrite !option_values_cons. cbn [fst snd]. rewrite !bool_decide_false by done. by rewrite bool_decide_true. }
  rewrite Hmeta, Hdisp. rewrite <-Hl, <-Ht, <-Hd, <-Hf. done.
Qed.

(** ** Codecs

    The codec that an action sets for the [rank]-th output stream of a kind: an
    index without a track is for all streams, one with a track is read as a rank. *)
Definition sets_codec (hw : option HwAccelConfig) (kind : string) (rank : u32) (a : PlannedAction)
    : option string :=
  if bool_decide (PlannedAction_track_index a = None ∨ PlannedAction_track_index a = Some rank) then
    match PlannedAction_operation a, PlannedAction_parameters a with
    | Op_TranscodeVideo, AP_Transcode codec settings =>
        if bool_decide (kind = "v") then Some (video_encoder (resolve_effective_hw settings hw) codec)
        else None
    | Op_TranscodeAudio, AP_Transcode codec _ =>
        if bool_decide (kind = "a") then Some (software_encoder codec) else None
    | Op_SynthesizeAudio, AP_Synthesize _ _ codec _ _ _ _ _ _ _ =>
        if bool_decide (kind = "a") then Some (software_encoder (default "aac" codec)) else None
    | _, _ => None
    end
  else None.

Lemma codec_applies_flag kind rank k n v :
  kind = "v" ∨ kind = "a" → k = "v" ∨ k = "a" →
  codec_applies kind rank (codec_flag k n, v)
  = bool_decide (k = kind) && bool_decide (n = None ∨ n = Some rank).
Proof.
  intros Hkind Hk. unfold codec_applies. apply eq_iff_eq_true.
  rewrite andb_true_iff, !bool_decide_eq_true, !elem_of_cons, elem_of_nil. cbn [fst].
  destruct Hkind as [-> | ->], Hk as [-> | ->], n as [n|]; cbn [codec_flag]; split; try naive_solver.
  all: try (intros [Hf|[Hf|[Hf|[]]]]; try discriminate Hf; do 3 apply (inj (String.append _)) in Hf;
            apply (inj pretty) in Hf; subst; naive_solver).
  all: intros [Hf|[Hf|[Hf|[]]]]; discriminate Hf.
Qed.

Lemma action_codec_sets hw kind rank a :
  kind = "v" ∨ kind = "a" →
  snd <$> List.filter (codec_applies kind rank) (action_codec hw a)
  = option_list (sets_codec hw kind rank a).
Proof.
  intros Hkind.
  assert (Hone : ∀ k v, k = "v" ∨ k = "a" →
    snd <$> List.filter (codec_applies kind rank) [(codec_flag k (PlannedAction_track_index a), v)]
    = if bool_decide (PlannedAction_track_index a = None ∨ PlannedAction_track_index a = Some rank)
      then option_list (if bool_decide (kind = k) then Some v else None) else []).
  { intros k v Hk. cbn [List.filter]. rewrite codec_applies_flag by done.
    rewrite (bool_decide_ext (k = kind) (kind = k)) by done.
    by destruct (bool_decide (kind = k)), (bool_decide _). }
  unfold action_codec, sets_codec.
  destruct (PlannedAction_operation a), (PlannedAction_parameters a);
    try (destruct (bool_decide _); reflexivity).
  all: rewrite Hone by auto; by destruct (bool_decide _).
Qed.

Lemma actions_codecs hw kind rank actions :
  kind = "v" ∨ kind = "a" →
  snd <$> List.filter (codec_applies kind rank) (actions ≫= action_codec hw)
  = omap (sets_codec hw kind rank) actions.
Proof.
  intros Hkind. induction actions as [|a actions IH]; [done|].
  change ((a :: actions) ≫= action_codec hw) with (action_codec hw a ++ (actions ≫= action_codec hw)).
  rewrite List.filter_app, fmap_app, IH, action_codec_sets by done. cbn.
  by destruct (sets_codec hw kind rank a).
Qed.

(** Only codec options give codecs. *)
Lemma filter_codec_options kind rank ps :
  kind = "v" ∨ kind = "a" → Forall (λ o, reserved o.1 = false) ps →
  List.filter (codec_applies kind rank) ps
  = List.filter (codec_applies kind rank) (List.filter is_codec_option ps).
Proof.
  intros Hkind Hps. induction Hps as [|[f v] ps Hf Hps IH]; [done|]. cbn [List.filter].
  destruct (is_codec_option (f, v)) eqn:Hc; cbn [List.filter]; [by rewrite IH|].
  destruct (codec_applies kind rank (f, v)) eqn:Ha; [|done]. exfalso.
  apply bool_decide_eq_true in Ha. rewrite !elem_of_cons, elem_of_nil in Ha. cbn [fst] in Ha, Hf.
  unfold is_codec_option in Hc. cbn [fst] in Hc.
  destruct Ha as [->|[->|[->|[]]]]; [by vm_compute in Hf| |]; by rewrite starts_with_app in Hc.
Qed.

Lemma no_codec_options kind rank ps :
  kind = "v" ∨ kind = "a" → Forall (λ o, o.1 ≠ "-c" ∧ is_codec_option o = false) ps →
  List.filter (codec_applies kind rank) ps = [].
Proof.
  intros Hkind Hps. apply filter_none. eapply Forall_impl; [exact Hps|]. intros [f v] [Hf Hc].
  apply bool_decide_eq_false. rewrite !elem_of_cons, elem_of_nil. cbn [fst] in *.
  unfold is_codec_option in Hc. cbn [fst] in Hc.
  intros [->|[->|[->|[]]]]; [done| |]; by rewrite starts_with_app in Hc.
Qed.

Lemma stream_codec_read file actions hw hw_opts act_opts streams kind rank :
  kind = "v" ∨ kind = "a" → command_shape file actions hw hw_opts act_opts streams →
  stream_codec kind rank (command_options file actions hw_opts act_opts streams)
  = Some (default "copy" (last (omap (sets_codec hw kind rank) actions))).
Proof.
  intros Hkind [Hhw Hact Hcodecs _]. unfold stream_codec, command_options.
  rewrite !List.filter_app, !fmap_app.
  rewrite (no_codec_options kind rank hw_opts Hkind).
  2: { eapply Forall_impl; [by apply hw_flags_plain|]. intros o [Hr Hc]. split; [|done].
       intros He. by rewrite He in Hr. }
  change (List.filter (codec_applies kind rank) [("-i", to_string_lossy (MediaFile_path file))])
    with (@nil (string * string)).
  rewrite (no_codec_options kind rank (map_options _ _) Hkind).
  2: { unfold map_options. destruct (has_transcode_video actions), (output_tracks file true);
         try by apply Forall_singleton. apply Forall_fmap, Forall_true. done. }
  rewrite (no_codec_options kind rank (metadata_options streams) Hkind).
  2: { apply Forall_forall. intros o [Ho|[Ho|(m & _ & Ho)]]%metadata_flags;
         [by unfold is_codec_option; rewrite Ho..|].
       unfold stream_options in Ho. rewrite !elem_of_cons, elem_of_nil in Ho.
       by destruct Ho as [->|[->|[->|[]]]]. }
  rewrite (filter_codec_options kind rank act_opts Hkind Hact), Hcodecs, actions_codecs by done.
  cbn [fmap list_fmap app]. rewrite app_nil_r.
  replace (snd <$> List.filter (codec_applies kind rank) [("-c", "copy")]) with ["copy"].
  - cbn [app]. destruct (omap (sets_codec hw kind rank) actions) as [|x l] eqn:Hl; [done|].
    rewrite last_cons_cons. destruct (last (x :: l)) eqn:Hlast; [done|]. by apply last_None in Hlast.
  - cbn [List.filter]. unfold codec_applies. by rewrite bool_decide_true by apply list_elem_of_here.
Qed.
End shape.

(** ** Effects on files

    What the tools document, for the commands of the executor: [ffmpeg] writes the file
    that is named last. If that is [-], the output is discarded: [loudnorm] writes no
    file, and [libvmaf] its log, whose path ends at the next colon. Listing the
    filters or the version writes nothing. The two tools for dynamic HDR write the
    file given with [-o], and nothing with [--version]; [ffprobe] only reads. *)

(** No byte that separates or quotes in the description of a filter *)
Definition filter_plain (s : string) : bool :=
  forallb (λ c, negb (bool_decide (c ∈ [":"; "'"; "\"; ","; ";"; "["; "]"]%char)))
    (String.list_ascii_of_string s).

(** The model that a [libvmaf] filter may name *)
Definition vmaf_model_option (o : string) : Prop :=
  o = "" ∨ ∃ m, o = "model=path=" +:+ m +:+ ":" ∧ filter_plain m = true.

Class FfmpegWrites `{ChildrenEnv} : Prop := {
  ffmpeg_writes env args out files k :
    out ≠ "-" → k ≠ path_key out →
    (run_child_env env "ffmpeg" (args ++ [out]) files).2 !! k = files !! k;
  ffmpeg_loudnorm env args spec files :
    (run_child_env env "ffmpeg" (args ++ ["-af"; "loudnorm=" +:+ spec; "-f"; "null"; "-"]) files).2
    = files;
  ffmpeg_vmaf_log env args model log files k :
    vmaf_model_option model → filter_plain log = true → k ≠ path_key log →
    (run_child_env env "ffmpeg"
       (args ++ ["-lavfi"; "libvmaf=" +:+ model +:+ "log_path=" +:+ log +:+ ":log_fmt=json";
                 "-f"; "null"; "-"]) files).2 !! k = files !! k;
  ffmpeg_lists env args files :
    args ∈ [["-hide_banner"; "-filters"]; ["-version"]] →
    (run_child_env env "ffmpeg" args files).2 = files;
  ffprobe_reads env args files : (run_child_env env "ffprobe" args files).2 = files;
  hdr_tool_writes kind env args out files k :
    k ≠ path_key out →
    (run_child_env env (DynamicHdrKind_tool_name kind) (args ++ ["-o"; out]) files).2 !! k
    = files !! k;
  hdr_tool_version kind env files :
    (run_child_env env (DynamicHdrKind_tool_name kind) ["--version"] files).2 = files;
}.

(** From [w] to [w'] files change only in [X], and no failure is put in. *)
Definition frame {S} (X : PathKey → Prop) (w w' : World S) : Prop :=
  (∀ k, ¬ X k → w_files w' !! k = w_files w !! k) ∧ (w_faults w = [] → w_faults w' = []).

Definition io_frame {S A} (X : PathKey → Prop) (m : Io S A) : Prop := ∀ w, frame X w (m w).2.

Section frames.
Context {S : Type}.
Implicit Types (X Y : PathKey → Prop) (w : World S).

Lemma frame_refl X w : frame X w w.
Proof. done. Qed.

Lemma frame_trans X w1 w2 w3 : frame X w1 w2 → frame X w2 w3 → frame X w1 w3.
Proof. intros [H1 F1] [H2 F2]. split; [|auto]. intros k Hk. by rewrite H2, H1. Qed.

Lemma frame_mono X Y w w' : (∀ k, X k → Y k) → frame X w w' → frame Y w w'.
Proof. intros HXY [H1 F1]. split; [|done]. intros k Hk. apply H1. auto. Qed.

Lemma io_frame_mono {A} X Y (m : Io S A) : (∀ k, X k → Y k) → io_frame X m → io_frame Y m.
Proof. intros HXY Hm w. by eapply frame_mono. Qed.

Lemma io_frame_ret {A} X (a : A) : io_frame X (io_ret (S := S) a).
Proof. intros w. apply frame_refl. Qed.

Lemma io_frame_err {A} X (e : VoomError) : io_frame X (io_err (S := S) (A := A) e).
Proof. intros w. apply frame_refl. Qed.

Lemma io_frame_lift {A} X (r : result VoomError A) : io_frame X (io_lift (S := S) r).
Proof. intros w. apply frame_refl. Qed.

Lemma io_frame_bind {A B} X (m : Io S A) (f : A → Io S B) :
  io_frame X m → (∀ a, io_frame X (f a)) → io_frame X (io_bind m f).
Proof.
  intros Hm Hf w. unfold io_bind. specialize (Hm w). destruct (m w) as [[a|e] w'].
  - by eapply frame_trans; [|apply Hf].
  - done.
Qed.

Lemma fs_call_frame X f w :
  (∀ files files', f files = Ok files' → ∀ k, ¬ X k → files' !! k = files !! k) →
  frame X w (fs_call f w).2.
Proof.
  intros Hf. unfold fs_call, frame. destruct (w_faults w) as [|[e|] fs]; cbn; [|by auto|];
    destruct (f (w_files w)) as [files'|e] eqn:Hr; cbn; (split; [|done]); eauto.
Qed.

Lemma fs_remove_frame X p w : X (path_key p) → frame X w (fs_remove p w).2.
Proof.
  intros HX. apply fs_call_frame. intros files files' Hf k Hk. revert Hf. case_bool_decide; [|done].
  intros [= <-]. apply lookup_delete_ne. naive_solver.
Qed.

Lemma fs_rename_frame X src dst w :
  X (path_key src) → X (path_key dst) → frame X w (fs_rename src dst w).2.
Proof.
  intros Hs Hd. apply fs_call_frame. intros files files' Hf k Hk.
  destruct (files !! path_key src); [|done]. injection Hf as <-.
  rewrite lookup_insert_ne, lookup_delete_ne; [done| |]; naive_solver.
Qed.

Lemma fs_create_dir_frame X p w : frame X w (fs_create_dir_all p w).2.
Proof. apply fs_call_frame. by intros ?? [= <-]. Qed.

Lemma fs_remove_dir_frame X p w :
  (∀ k, under p k = true → X k) → frame X w (fs_remove_dir_all p w).2.
Proof.
  intros HX. apply fs_call_frame. intros files files' [= <-] k Hk.
  destruct (files !! k) as [c|] eqn:Hc.
  - apply map_lookup_filter_Some_2; [done|]. cbn. apply not_true_iff_false. auto.
  - apply map_lookup_filter_None. by left.
Qed.

Lemma remove_quietly_frame_of X p w w' :
  X (path_key p) → frame X w w' → frame X w (remove_quietly p w').
Proof. intros HX Hw. eapply frame_trans; [exact Hw|]. by apply fs_remove_frame. Qed.

Lemma io_frame_removing {A} X p (m : Io S A) :
  X (path_key p) → io_frame X m → io_frame X (removing_on_err p m).
Proof.
  intros HX Hm w. unfold removing_on_err. specialize (Hm w). destruct (m w) as [[a|e] w']; [done|].
  by apply remove_quietly_frame_of.
Qed.

Lemma io_frame_hdr X (m : World S → result string unit * World S) :
  (∀ w, frame X w (m w).2) → io_frame X (hdr_io m).
Proof. intros Hm w. unfold hdr_io. specialize (Hm w). by destruct (m w) as [[[]|e] w']. Qed.

Lemma io_frame_record `{MutationStorage S} `{Unicode} X has_store now session src dst :
  io_frame X (record_mutation_for_pending_write has_store now session src dst).
Proof.
  intros w. destruct (record_mutation_files has_store now session src dst w) as [Hf Hfa].
  split; [by intros; rewrite Hf|by rewrite Hfa].
Qed.
End frames.

Create HintDb frames.
#[export] Hint Resolve io_frame_ret io_frame_err io_frame_lift io_frame_bind io_frame_removing
  io_frame_hdr io_frame_record fs_remove_frame fs_rename_frame fs_create_dir_frame : frames.

(** ** Paths under a directory *)
Lemma split_slash_app cur a b :
  split_slash cur (a +:+ String slash b) = split_slash cur a ++ split_slash "" b.
Proof.
  revert cur. induction a as [|c a IH]; intros cur; [done|].
  change (String c a +:+ String slash b) with (String c (a +:+ String slash b)). cbn [split_slash].
  case_bool_decide; rewrite IH; done.
Qed.

Lemma split_slash_cons cur s : ∃ c cs, split_slash cur s = c :: cs.
Proof.
  revert cur. induction s as [|d s IH]; intros cur; cbn; [eauto|]. case_bool_decide; eauto.
Qed.

Definition kept (c : string) : bool := negb (bool_decide (c = "")) && negb (bool_decide (c = ".")).

Lemma path_components_app a b :
  path_components (a +:+ String slash b)
  = path_components a ++ List.filter kept (split_slash "" b).
Proof.
  unfold path_components. fold kept. rewrite split_slash_app.
  destruct (split_slash_cons "" a) as (c & cs & ->). cbn [app]. change (c :: cs ++ ?l) with ((c :: cs) ++ l).
  rewrite List.filter_app. by case_bool_decide.
Qed.

Lemma path_is_absolute_app a s : a ≠ "" → path_is_absolute (a +:+ s) = path_is_absolute a.
Proof. by destruct a. Qed.

Lemma under_join dir name :
  path_is_absolute name = false → under dir (path_key (path_join dir name)) = true.
Proof.
  intros Hn. unfold under, path_key. apply bool_decide_eq_true. cbn [fst snd].
  unfold path_join. destruct (bytes_rev dir) as [|c l] eqn:Hd.
  { assert (dir = "") as ->; [|split; [done|apply prefix_nil]].
    rewrite <-(of_bytes_rev_reverse dir). unfold bytes_rev in Hd. by rewrite Hd. }
  assert (dir ≠ "") as Hne by (intros ->; done).
  case_bool_decide as Hc.
  - subst c. assert (∃ d, dir = d +:+ String slash "") as [d ->].
    { exists (of_bytes_rev l). rewrite <-(of_bytes_rev_reverse dir). unfold bytes_rev in Hd. rewrite Hd.
      unfold of_bytes_rev. rewrite reverse_cons. induction (reverse l) as [|x k IH]; [done|].
      cbn [app String.string_of_list_ascii]. by rewrite IH. }
    rewrite path_is_absolute_app by done. split; [done|].
    assert (∀ s, (d +:+ String slash "") +:+ s = d +:+ String slash s) as ->.
    { intros s. clear. induction d as [|x d IH]; [done|].
      change (String x ((d +:+ String slash "") +:+ s) = String x (d +:+ String slash s)). by rewrite IH. }
    rewrite !path_components_app. cbn [split_slash]. rewrite app_nil_r. by eexists.
  - rewrite path_is_absolute_app by done. split; [done|]. rewrite path_components_app. by eexists.
Qed.

Lemma under_trans a b k : under a (path_key b) = true → under b k = true → under a k = true.
Proof.
  unfold under. rewrite !bool_decide_eq_true. intros [H1 H2] [H3 H4]. split; [congruence|].
  by etrans.
Qed.

Lemma path_join_long dir name : String.length name ≤ String.length (path_join dir name).
Proof.
  unfold path_join. destruct (bytes_rev dir); [done|]. case_bool_decide; rewrite string_length_app; simpl; lia.
Qed.

(** A name of two bytes or more is not the standard output. *)
Lemma path_join_named dir name : 2 ≤ String.length name → path_join dir name ≠ "-".
Proof. intros Hn Heq. pose proof (path_join_long dir name) as Hl. rewrite Heq in Hl. simpl in Hl. lia. Qed.

(** ** The execution of a plan *)

(** The runner of the quality search writes under the directory for temporary
    files only, and leaves the store. *)
Class VmafFrame {S} `{VmafRunner S} (temp_dir : PathBuf) : Prop :=
  vmaf_frame source target bounds (w : World S) :
    frame (λ k, under temp_dir k = true) w (vmaf_run source target bounds w).2.

(** *** The search for a quality target

    [DefaultVmafRunner] works in the directory for temporary files: the copy of the
    file, the encodes and the logs. *)

(** A text that a path in a command and in a filter may have in it *)
Definition plain_text (s : string) : Prop := is_ascii s = true ∧ filter_plain s = true.

Lemma filter_plain_app a b : filter_plain a = true → filter_plain b = true → filter_plain (a +:+ b) = true.
Proof.
  induction a as [|c a IH]; [done|]. change (String c a +:+ b) with (String c (a +:+ b)).
  intros [Hc Ha]%andb_prop Hb. apply andb_true_intro. split; [exact Hc|]. by apply IH.
Qed.

Lemma plain_text_app a b : plain_text a → plain_text b → plain_text (a +:+ b).
Proof. intros [? ?] [? ?]. split; [by apply is_ascii_cat|by apply filter_plain_app]. Qed.

Lemma plain_text_join dir name : plain_text dir → plain_text name → plain_text (path_join dir name).
Proof.
  intros Hd Hn. unfold path_join. destruct (bytes_rev dir); [done|].
  case_bool_decide; by apply plain_text_app.
Qed.

Lemma decimal_plain acc s v : decimal_value acc s = Some v → plain_text s.
Proof.
  revert acc; induction s as [|c s IH]; intros acc; [done|]. simpl.
  destruct (is_ascii_digit c) eqn:Hc; [|done]. intros [Ha Hf]%IH. split.
  - cbn. rewrite Ha, andb_true_r. revert Hc. unfold is_ascii_digit, is_ascii_byte.
    rewrite !bool_decide_eq_true. lia.
  - apply andb_true_intro. split; [|exact Hf]. by destruct c as [[] [] [] [] [] [] [] []].
Qed.

Lemma plain_text_pretty (n : N) : plain_text (pretty n).
Proof. eapply decimal_plain, decimal_value_pretty. Qed.

Section vmaf.
Context {S : Type} `{ChildrenEnv} `{Unicode} `{JsonParse} `{VmafHost} `{TornWrite} `{!FfmpegWrites}.
Context (checks : bool) (temp_dir : PathBuf) (dir_id log_id : World S → string).
Hypothesis temp_plain : plain_text temp_dir.
Hypothesis dir_id_plain : ∀ w, plain_text (dir_id w).
Hypothesis log_id_plain : ∀ w, plain_text (log_id w).
Hypothesis home_plain : ∀ home, host_home = Some home → plain_text home.

#[local] Instance plain_children : Children := run_child_env [].
#[local] Instance ffmpeg_attempt : EncodeAttempt S := FfmpegEncodeAttempt temp_dir log_id.
#[local] Instance full_sample : SampleExtractor S := FullSample.

Let X (k : PathKey) : Prop := under temp_dir k = true.

Lemma lossy_plain p : plain_text p → to_string_lossy p = p.
Proof. intros [Ha _]. by apply to_string_lossy_ascii. Qed.

Lemma child_frame (Y : PathKey → Prop) tool args timeout (w : World S) :
  (∀ files k, ¬ Y k → (run_child_env [] tool args files).2 !! k = files !! k) →
  frame Y w (run_with_timeout tool args timeout w).2.
Proof.
  intros Hr. unfold run_with_timeout, run_child, plain_children. specialize (Hr (w_files w)).
  destruct (run_child_env [] tool args (w_files w)) as [o files]. by split.
Qed.

Lemma fs_query_frame {A} (f : Files → result string A) (w : World S) : frame X w (fs_query f w).2.
Proof. unfold fs_query, frame. destruct (w_faults w) as [|[e|] fs]; by cbn. Qed.

Lemma fs_copy_frame src dst (w : World S) : X (path_key dst) → frame X w (fs_copy src dst w).2.
Proof.
  intros Hd. assert (Hput : ∀ c k, ¬ X k → <[path_key dst := c]> (w_files w) !! k = w_files w !! k).
  { intros c k Hk. apply lookup_insert_ne. by intros <-. }
  unfold fs_copy, frame. destruct (w_files w !! path_key src), (w_faults w) as [|[e|] fs]; cbn; try done.
  - by split; [intros k Hk; apply Hput|].
  - split; [|done]. intros k Hk. destruct (torn _ _); [by apply Hput|done].
  - split; [|done]. intros k Hk. by apply Hput.
Qed.

Lemma encode_frame source dest crf bounds (w : World S) :
  dest ≠ "-" → plain_text dest → X (path_key dest) → frame X w (encode_sample source dest crf bounds w).2.
Proof.
  intros Hn Hp Hd. unfold encode_sample, ffmpeg_attempt, FfmpegEncodeAttempt, encode_sample_with_ffmpeg.
  pose proof (child_frame X "ffmpeg" (sample_encode_args source dest crf bounds) 14400 w) as Hf.
  destruct (run_with_timeout _ _ _ w) as [[o|e] w1]; cbn [snd] in *; [destruct (ExitStatus_success _)|];
    apply Hf; intros files k Hk; unfold sample_encode_args; rewrite (lossy_plain dest) by done;
    rewrite app_assoc; apply ffmpeg_writes; try done; by intros ->.
Qed.

Lemma probe_frame args (w : World S) :
  args ∈ [["-hide_banner"; "-filters"]; ["-version"]] → frame X w (run_ffmpeg_probe args w).2.
Proof.
  intros Ha. unfold run_ffmpeg_probe. pose proof (child_frame X "ffmpeg" args 5 w) as Hf.
  destruct (run_with_timeout _ _ _ w) as [[o|e] w1]; cbn [snd] in *; apply Hf; intros files k _;
    by rewrite ffmpeg_lists.
Qed.

Lemma detect_frame (w : World S) : frame X w (detect_vmaf_environment w).2.
Proof.
  unfold detect_vmaf_environment, ffmpeg_reports_libvmaf.
  pose proof (probe_frame ["-hide_banner"; "-filters"] w (list_elem_of_here _ _)) as Hp1.
  destruct (run_ffmpeg_probe ["-hide_banner"; "-filters"] w) as [o1 w1]; cbn [snd] in Hp1.
  destruct (reports_libvmaf o1); [done|].
  pose proof (probe_frame ["-version"] w1 (list_elem_of_further _ _ _ (list_elem_of_here _ _))) as Hp2.
  destruct (run_ffmpeg_probe ["-version"] w1) as [o2 w2]. by eapply frame_trans.
Qed.

Lemma model_dir_plain dir : resolve_vmaf_model_dir = Some dir → plain_text dir.
Proof.
  intros [Hin _]%find_Some_elem_of. unfold model_dir_candidates in Hin.
  apply elem_of_app in Hin as [Hin|Hin].
  - revert dir Hin. apply Forall_forall. repeat constructor.
  - destruct host_home as [home|] eqn:Hh; [|by apply elem_of_nil in Hin].
    apply list_elem_of_singleton in Hin as ->. apply plain_text_join; [by apply home_plain|by split].
Qed.

Lemma model_option_plain model env (w : World S) mp :
  VmafEnvironment_model_dir env = resolve_vmaf_model_dir → model_path model env w = Ok mp →
  vmaf_model_option match mp with Some m => "model=path=" +:+ to_string_lossy m +:+ ":" | None => "" end.
Proof.
  intros He. unfold model_path. rewrite He.
  assert (∀ m, missing_model model = Ok m → m = None) as Hmiss by (intros m; destruct model; by intros [= <-]).
  destruct resolve_vmaf_model_dir as [dir|] eqn:Hdir; [|intros ->%Hmiss; by left].
  destruct (fs_exists _ w); [|intros ->%Hmiss; by left]. intros [= <-]. right.
  assert (plain_text (path_join dir (VmafModel_file_name model))) as Hp.
  { apply plain_text_join; [by apply model_dir_plain|by destruct model]. }
  rewrite lossy_plain by done. eexists. split; [reflexivity|]. apply Hp.
Qed.

Lemma measure_vmaf_frame reference distorted model (w : World S) :
  frame X w (measure_vmaf reference distorted model w).2.
Proof.
  unfold measure_vmaf, ffmpeg_attempt, FfmpegEncodeAttempt, compute_vmaf.
  pose proof (detect_frame w) as Hd. assert (VmafEnvironment_model_dir (detect_vmaf_environment w).1
    = resolve_vmaf_model_dir) as Henv.
  { unfold detect_vmaf_environment. by destruct (ffmpeg_reports_libvmaf w). }
  destruct (detect_vmaf_environment w) as [env w1]; cbn [fst snd] in *.
  eapply frame_trans; [exact Hd|]. unfold compute_vmaf_with_environment.
  destruct (negb _); [apply frame_refl|].
  destruct (model_path model env w1) as [mp|e] eqn:Hm; [|apply frame_refl].
  set (log := path_join temp_dir ("voom-vmaf-" +:+ log_id w1 +:+ ".json")).
  assert (Hlog : X (path_key log)) by (by apply under_join).
  assert (Hplain : plain_text log).
  { apply plain_text_join; [done|]. repeat apply plain_text_app; done. }
  pose proof (child_frame X "ffmpeg" (ffmpeg_vmaf_args reference distorted mp log) 1800 w1) as Hf.
  assert (Hrun : frame X w1 (run_with_timeout "ffmpeg" (ffmpeg_vmaf_args reference distorted mp log) 1800 w1).2).
  { apply Hf. intros files k Hk. unfold ffmpeg_vmaf_args, vmaf_filter. rewrite (lossy_plain log) by done.
    change [?a; ?b; ?c; ?d; ?e; ?f; ?g; ?h; ?i; ?j] with ([a; b; c; d; e] ++ [f; g; h; i; j]).
    apply ffmpeg_vmaf_log; [by eapply model_option_plain|apply Hplain|by intros ->]. }
  destruct (run_with_timeout _ _ _ w1) as [[o|e] w2]; cbn [snd] in Hrun.
  - destruct (ExitStatus_success _); [|by apply remove_quietly_frame_of].
    destruct (parse_vmaf_score _); [by apply remove_quietly_frame_of|].
    pose proof (fs_query_frame (λ files, match files !! path_key log with
      Some content => Ok content | None => Err no_such_file end) w2) as Hq.
    unfold fs_read. destruct (fs_query _ w2) as [[c|er] w3]; cbn [snd] in *;
      [apply remove_quietly_frame_of; [done|]|]; by eapply frame_trans.
  - destruct e; by apply remove_quietly_frame_of.
Qed.

Section in_dir.
Context (work_dir : PathBuf).
Hypothesis work_plain : plain_text work_dir.
Hypothesis work_under : ∀ k, under work_dir k = true → X k.

Lemma attempt_frame reference bounds model iteration crf (w : World S) :
  frame X w (attempt reference work_dir bounds model iteration crf w).2.
Proof.
  unfold attempt. set (name := "encoded-" +:+ pretty iteration +:+ ".mkv").
  assert (plain_text name) as Hname by (repeat apply plain_text_app; try apply plain_text_pretty; done).
  pose proof (encode_frame reference (path_join work_dir name) crf bounds w) as He.
  assert (frame X w (encode_sample reference (path_join work_dir name) crf bounds w).2) as Hw.
  { apply He; [apply path_join_named; unfold name; rewrite string_length_app; simpl; lia| |].
    - by apply plain_text_join.
    - by apply work_under, under_join. }
  destruct (encode_sample _ _ _ _ w) as [[b|e] w1]; cbn [snd] in Hw; [|done].
  pose proof (measure_vmaf_frame reference (path_join work_dir name) model w1) as Hm.
  destruct (measure_vmaf _ _ _ w1) as [[v|e] w2]; cbn [snd] in *; by eapply frame_trans.
Qed.

Lemma bisect_frame reference target bounds model n iteration low high crf last (w : World S) :
  frame X w (bisect checks reference work_dir target bounds model n iteration low high crf last w).2.
Proof.
  revert iteration low high crf last w. induction n as [|n IH]; intros iteration low high crf last w; cbn;
    [apply frame_refl|].
  pose proof (attempt_frame reference bounds model iteration crf w) as Ha.
  destruct (attempt _ _ _ _ _ _ w) as [[r|e] w1]; cbn [snd] in Ha; [|done].
  destruct (on_target _ _); [done|]. destruct (update_bounds _ _ _ _ _) as [low' high'].
  destruct (next_crf checks low' high'); [|done]. by eapply frame_trans.
Qed.

Lemma model_for_source_frame source (w : World S) : frame X w (model_for_source source w).2.
Proof.
  unfold model_for_source, source_resolution.
  match goal with |- context [run_with_timeout ?t ?a ?n w] => pose proof (child_frame X t a n w) as Hf;
    assert (frame X w (run_with_timeout t a n w).2) as Hw
      by (apply Hf; intros files k _; by rewrite ffprobe_reads);
    destruct (run_with_timeout t a n w) as [[o|e] w1] end; cbn [snd] in Hw; [|done].
  by destruct (parse_resolution_output o) as [[]|].
Qed.

Lemma iterate_in_dir_frame source target bounds n (w : World S) :
  frame X w (iterate_in_dir checks source target bounds n work_dir w).2.
Proof.
  unfold iterate_in_dir, extract_sample, full_sample, FullSample.
  pose proof (fs_copy_frame source (path_join work_dir "reference.mkv") w) as Hc.
  specialize (Hc (work_under _ (under_join work_dir "reference.mkv" eq_refl))).
  destruct (fs_copy _ _ w) as [[[]|e] w1]; cbn [snd] in Hc; [|done].
  pose proof (model_for_source_frame source w1) as Hm.
  destruct (model_for_source source w1) as [model w2]; cbn [snd] in Hm.
  eapply frame_trans; [exact Hc|]. eapply frame_trans; [exact Hm|]. apply bisect_frame.
Qed.
End in_dir.

Lemma default_vmaf_frame : @VmafFrame S (DefaultVmafRunner checks temp_dir dir_id log_id) temp_dir.
Proof.
  intros source target bounds w. unfold vmaf_run, DefaultVmafRunner, iterate_to_target, iterate_to_target_with.
  destruct (validate_inputs target 5); [|apply frame_refl].
  set (dir := path_join temp_dir ("voom-vmaf-iterate-" +:+ dir_id w)).
  assert (plain_text dir) as Hp by (apply plain_text_join; [done|]; by apply plain_text_app).
  assert (∀ k, under dir k = true → X k) as Hu.
  { intros k. apply under_trans. by apply under_join. }
  pose proof (fs_create_dir_frame X dir w) as Hc.
  destruct (fs_create_dir_all dir w) as [[[]|e] w1]; cbn [snd] in Hc; [|done].
  pose proof (iterate_in_dir_frame dir Hp Hu source target bounds 5 w1) as Hi.
  unfold full_sample, ffmpeg_attempt, plain_children in Hi.
  destruct (iterate_in_dir _ _ _ _ _ _ w1) as [r w2]; cbn [snd] in Hi.
  eapply frame_trans; [exact Hc|]. eapply frame_trans; [exact Hi|]. unfold cleanup_work_dir.
  destruct r as [r|]; [|apply frame_refl].
  pose proof (fs_remove_dir_frame X dir w2 Hu) as Hr. by destruct (fs_remove_dir_all dir w2).
Qed.
End vmaf.

Definition output_extensions (to_str : string → option string) (file : MediaFile) : list string :=
  default "mkv" (path_extension (MediaFile_path file) ≫= to_str) ::
  (Container_as_str <$>
   [Container_Mkv; Container_Mp4; Container_Avi; Container_Webm; Container_Flv; Container_Wmv;
    Container_Mov; Container_Ts; Container_Other]).

Lemma Container_as_str_listed to_str file c : Container_as_str c ∈ output_extensions to_str file.
Proof.
  apply list_elem_of_further, list_elem_of_fmap_2. destruct c; rewrite !elem_of_cons; tauto.
Qed.

Lemma output_extension_listed to_str file actions :
  output_extension to_str file actions ∈ output_extensions to_str file.
Proof.
  unfold output_extension. destruct (omap _ actions) as [|ext exts] eqn:Hext.
  - destruct (MediaFile_container file); try apply Container_as_str_listed. apply list_elem_of_here.
  - assert (ext ∈ ext :: exts) as Hin by apply list_elem_of_here. rewrite <-Hext in Hin.
    apply list_elem_of_omap in Hin as (a & _ & Ha).
    destruct (PlannedAction_operation a), (PlannedAction_parameters a); try done.
    injection Ha as <-. apply Container_as_str_listed.
Qed.

Section execution.
Context {S : Type} `{MutationStorage S} `{VmafRunner S} `{ChildrenEnv} `{Unicode} `{StrDebug}.
Context `{JsonFromStr} `{UuidText} (to_str : string → option string).
Context (has_store : bool) (inp : FfmpegInput).
Context `{!FfmpegWrites} `{!VmafFrame (S := S) (fi_temp_dir inp)}.

(** Files of other programs may come and go in the directory for temporary files. *)
Definition scratch (k : PathKey) : Prop := under (fi_temp_dir inp) k = true.

Definition work_dir : PathBuf := path_join (fi_temp_dir inp) ("voom-dynamic-hdr-" +:+ fi_work_id inp).

Definition work_files : list string :=
  ["source.hevc"; "encoded.hevc"; "injected.hevc"; "hdr10plus.json"; "rpu.bin"; "remuxed.mkv";
   "remuxed.mp4"].

Lemma work_dir_scratch k : under work_dir k = true → scratch k.
Proof. apply under_trans. by apply under_join. Qed.

Lemma work_file_scratch name : name ∈ work_files → scratch (path_key (path_join work_dir name)).
Proof.
  intros Hn. apply work_dir_scratch, under_join. unfold work_files in Hn.
  rewrite !elem_of_cons, elem_of_nil in Hn. naive_solver.
Qed.

(** *** Commands *)
Lemma run_frame (X : PathKey → Prop) tool args timeout env :
  (∀ files k, ¬ X k → (run_child_env env tool args files).2 !! k = files !! k) →
  io_frame (S := S) X (run_with_timeout_env tool args timeout env).
Proof.
  intros Hr w. unfold run_with_timeout_env, run_with_timeout, run_child.
  specialize (Hr (w_files w)). destruct (run_child_env env tool args (w_files w)) as [o files].
  by split.
Qed.

Lemma run_checked_frame (X : PathKey → Prop) tool args env :
  (∀ files k, ¬ X k → (run_child_env env tool args files).2 !! k = files !! k) →
  io_frame (S := S) X (run_checked tool args env).
Proof.
  intros Hr. apply io_frame_bind; [by apply run_frame|]. intros o. destruct (ExitStatus_success _); auto with frames.
Qed.

Lemma ffmpeg_frame (X : PathKey → Prop) args out timeout env :
  out ≠ "-" → X (path_key out) →
  io_frame (S := S) X (run_with_timeout_env "ffmpeg" (args ++ [out]) timeout env).
Proof.
  intros Ho HX. apply run_frame. intros files k Hk. apply ffmpeg_writes; [done|]. naive_solver.
Qed.

Lemma ffmpeg_checked_frame (X : PathKey → Prop) args out env :
  out ≠ "-" → X (path_key out) → io_frame (S := S) X (run_checked "ffmpeg" (args ++ [out]) env).
Proof.
  intros Ho HX. apply run_checked_frame. intros files k Hk. apply ffmpeg_writes; [done|]. naive_solver.
Qed.

Lemma hdr_tool_frame (X : PathKey → Prop) kind args out env :
  X (path_key out) →
  io_frame (S := S) X (run_checked (DynamicHdrKind_tool_name kind) (args ++ ["-o"; out]) env).
Proof.
  intros HX. apply run_checked_frame. intros files k Hk. apply hdr_tool_writes. naive_solver.
Qed.

(** *** Preparation *)
Lemma prepare_vmaf_frame file i actions w :
  let '(r, w') := prepare_vmaf_actions (S := S) (fi_stamps inp) file i actions w in frame scratch w w'.
Proof.
  revert i w. induction actions as [|a actions IH]; intros i w; cbn; [apply frame_refl|].
  assert (frame scratch w (prepare_vmaf_action (S := S) file a w).2) as Ha.
  { unfold prepare_vmaf_action. destruct (PlannedAction_parameters a); try apply frame_refl.
    destruct (TranscodeSettings_resolve_target_vmaf _ _) as [target|]; [|apply frame_refl].
    match goal with |- context [vmaf_run ?p ?t ?b w] => pose proof (vmaf_frame p t b w) as Hv;
      destruct (vmaf_run p t b w) as [[[]|] w'] end; exact Hv. }
  destruct (prepare_vmaf_action file a w) as [[[a' stats]|] w1]; [|done]. specialize (IH (Datatypes.S i) w1).
  destruct (prepare_vmaf_actions _ file (Datatypes.S i) actions w1) as [[[l os]|] w2];
    by eapply frame_trans.
Qed.

Lemma measure_frame path env actions :
  io_frame (S := S) (λ _, False) (measure_actions path env actions).
Proof.
  induction actions as [|a actions IH]; cbn [measure_actions]; [apply io_frame_ret|].
  destruct (unmeasured a) as [[[[codec settings] loudness] track]|].
  - apply io_frame_bind.
    + unfold measure_loudness. apply io_frame_bind.
      * apply run_frame. intros files k _. unfold loudness_args.
        set (spec := loudnorm_base loudness +:+ ":print_format=json").
        assert (∃ rest, spec = "loudnorm=" +:+ rest) as [rest ->] by (eexists; reflexivity).
        change [?a; ?b; ?c; ?d; ?e; ?f; ?g; ?h; ?i; ?j] with ([a; b; c; d; e] ++ [f; g; h; i; j]).
        by rewrite ffmpeg_loudnorm.
      * intros o. destruct (negb _); auto with frames.
    + intros m. apply io_frame_bind; [exact IH|]. intros [[done_ remove] updates].
      destruct (LoudnessNormalization_is_within_target _ _); [|apply io_frame_ret].
      destruct (starts_with _ _); apply io_frame_ret.
  - apply io_frame_bind; [exact IH|]. intros [[done_ remove] updates]. apply io_frame_ret.
Qed.

Lemma prepare_loudness_frame plan hw :
  io_frame (S := S) (λ _, False) (prepare_loudness_actions plan hw).
Proof.
  apply io_frame_bind; [apply measure_frame|]. intros [[l r] u]. apply io_frame_ret.
Qed.

(** *** Dynamic HDR *)
Definition hevc_args_front (input : PathBuf) (stream : string) : list string :=
  ["-y"; "-hide_banner"; "-i"; to_string_lossy input; "-map"; stream; "-c:v"; "copy"; "-bsf:v";
   "hevc_mp4toannexb"; "-f"; "hevc"].

Hypothesis work_utf8 : ∀ name, name ∈ work_files →
  to_string_lossy (path_join work_dir name) = path_join work_dir name.

Lemma metadata_path_listed kind : ∃ name, name ∈ work_files ∧ metadata_path kind work_dir = path_join work_dir name.
Proof.
  unfold work_files. destruct kind; eexists; (split; [|reflexivity]); rewrite !elem_of_cons; tauto.
Qed.

Lemma hdr_frame job source output env session :
  DynamicHdrJob_output_extension job ∈ ["mkv"; "mp4"] →
  io_frame (S := S) (λ k, scratch k ∨ k = path_key output)
    (apply_dynamic_hdr_reinjection has_store inp job source output env session).
Proof.
  intros Hext. set (X := λ k, scratch k ∨ k = path_key output).
  assert (Hwork : ∀ name, name ∈ work_files →
    X (path_key (to_string_lossy (path_join work_dir name)))).
  { intros name Hn. left. rewrite work_utf8 by done. by apply work_file_scratch. }
  assert (Hnamed : ∀ name, name ∈ work_files → to_string_lossy (path_join work_dir name) ≠ "-").
  { intros name Hn. rewrite work_utf8 by done. apply path_join_named. revert name Hn.
    apply Forall_forall. apply (bool_decide_unpack _). by vm_compute. }
  assert (Hmeta : ∀ kind, X (path_key (to_string_lossy (metadata_path kind work_dir)))).
  { intros kind. destruct (metadata_path_listed kind) as (name & Hn & ->). by apply Hwork. }
  assert (Hrem : "remuxed." +:+ DynamicHdrJob_output_extension job ∈ work_files).
  { rewrite !elem_of_cons, elem_of_nil in Hext.
    destruct Hext as [-> | [-> | []]]; [apply (list_elem_of_lookup_2 _ 5) | apply (list_elem_of_lookup_2 _ 6)];
      reflexivity. }
  unfold apply_dynamic_hdr_reinjection. fold work_dir. apply io_frame_bind; [auto with frames|]. intros [] w.
  assert (Hbody : io_frame X (apply_dynamic_hdr_reinjection_in_dir (S := S) has_store inp job source output env
                    session work_dir)).
  { unfold apply_dynamic_hdr_reinjection_in_dir. 
    apply io_frame_bind; [|intros _; apply io_frame_bind; [|intros _; apply io_frame_bind;
      [|intros _; apply io_frame_bind; [|intros _; apply io_frame_bind; [|intros _]]]]].
    - apply (ffmpeg_checked_frame X (hevc_args_front source _)); [apply Hnamed|apply Hwork];
        by apply (list_elem_of_lookup_2 _ 0).
    - unfold extract_dynamic_metadata. apply (hdr_tool_frame X _ [_; _]), Hmeta.
    - apply (ffmpeg_checked_frame X (hevc_args_front output _)); [apply Hnamed|apply Hwork];
        by apply (list_elem_of_lookup_2 _ 1).
    - unfold inject_dynamic_metadata. destruct (DynamicHdrJob_kind job) as [|] eqn:Hk;
        rewrite <-Hk; apply (hdr_tool_frame X _ [_; _; _; _; _]), Hwork; by apply (list_elem_of_lookup_2 _ 2).
    - unfold remux_injected_hevc.
      apply (ffmpeg_checked_frame X [_; _; _; _; _; _; _; _; _; _; _; _; _; _; _; _; _; _; _; _]);
        [by apply Hnamed|by apply Hwork].
    - unfold replace_output. apply io_frame_bind.
      + apply io_frame_removing; [left; by apply work_file_scratch|apply io_frame_record].
      + intros _. apply io_frame_bind.
        * apply io_frame_hdr. intros w'. apply fs_remove_frame. by right.
        * intros _. apply io_frame_hdr. intros w'. apply fs_rename_frame; [left; by apply work_file_scratch|by right]. }
  specialize (Hbody w).
  destruct (apply_dynamic_hdr_reinjection_in_dir _ _ _ _ _ _ _ _ w) as [r w1].
  pose proof (fs_remove_dir_frame X work_dir w1) as Hrm.
  destruct (fs_remove_dir_all work_dir w1) as [cl w2]. cbn in *. eapply frame_trans; [exact Hbody|].
  apply Hrm. intros k Hk. left. by apply work_dir_scratch.
Qed.

(** *** The file in place *)

(** A failure leaves all files but [temp], which is gone unless removing it fails. *)
Definition rolled_back (temp : PathBuf) (w w' : World S) : Prop :=
  frame (λ k, k = path_key temp) w w' ∧ (w_faults w = [] → w_files w' !! path_key temp = None).

Lemma rolled_back_quietly temp w w' :
  frame (λ k, k = path_key temp) w w' → rolled_back temp w (remove_quietly temp w').
Proof.
  intros Hf. split; [by apply remove_quietly_frame_of|]. intros Hfa.
  apply remove_quietly_gone. by apply Hf.
Qed.

(** What putting the file in place has done. *)
Record in_place (plan : Plan) (temp final : PathBuf) (w w' : World S) : Prop := {
  ip_content : ∃ content, w_files w !! path_key temp = Some content ∧
                          w_files w' !! path_key final = Some content;
  ip_frame k : k ≠ path_key temp → k ≠ path_key final →
               k ≠ path_key (MediaFile_path (Plan_file plan)) →
               w_files w' !! k = w_files w !! k;
  ip_recorded : mutation_recorded has_store (Plan_scan_session plan)
                  (MediaFile_path (Plan_file plan)) final (w_store w) (w_store w');
  ip_original : path_key final ≠ path_key (MediaFile_path (Plan_file plan)) → w_faults w = [] →
                w_files w' !! path_key (MediaFile_path (Plan_file plan)) = None;
}.

Lemma rename_into_place_spec plan temp final w :
  match rename_into_place (S := S) has_store inp plan temp final w with
  | (Ok _, w') =>
      (∃ content, w_files w !! path_key temp = Some content ∧
         w_files w' = <[path_key final := content]> (delete (path_key temp) (w_files w))) ∧
      mutation_recorded has_store (Plan_scan_session plan) (MediaFile_path (Plan_file plan)) final
        (w_store w) (w_store w') ∧ (w_faults w = [] → w_faults w' = [])
  | (Err _, w') => rolled_back temp w w'
  end.
Proof.
  unfold rename_into_place, io_bind, removing_on_err.
  set (path := MediaFile_path (Plan_file plan)). set (session := Plan_scan_session plan).
  pose proof (record_mutation_files has_store (in_recorded_at (fi_exec inp)) session path final w) as [Hf Hfa].
  pose proof (record_mutation_recorded has_store session (in_recorded_at (fi_exec inp)) path final w) as Hrec.
  destruct (record_mutation_for_pending_write _ _ _ _ _ w) as [[[]|e] w1]; cbn [fst snd] in Hf, Hfa.
  - specialize (Hrec w1 eq_refl). pose proof (fs_rename_spec temp final w1) as [Hr Hrf].
    destruct (fs_rename temp final w1) as [[[]|e] w2]; cbn [snd] in Hrf.
    + destruct Hr as (content & Hc & Hw2 & Hs). rewrite Hf in Hc, Hw2. rewrite Hs, Hfa in *.
      split_and!; [by exists content|done|done].
    + destruct Hr as [Hw2 _]. apply rolled_back_quietly. split.
      * intros k _. by rewrite Hw2, Hf.
      * rewrite Hfa in Hrf. exact Hrf.
  - apply rolled_back_quietly. split; [intros k _; by rewrite Hf|by rewrite Hfa].
Qed.

(** The path that the file gets. *)
Definition final_path (plan : Plan) (ext : string) : PathBuf :=
  let path := MediaFile_path (Plan_file plan) in
  if bool_decide (ext = default "" (path_extension path ≫= to_str)) then path
  else path_set_extension path ext.

Lemma rename_output_spec plan temp ext w :
  match rename_output (S := S) to_str has_store inp plan temp ext w with
  | (Ok _, w') => in_place plan temp (final_path plan ext) w w'
  | (Err _, w') => rolled_back temp w w'
  end.
Proof.
  unfold rename_output, final_path. set (path := MediaFile_path (Plan_file plan)).
  case_bool_decide as Hext; unfold io_bind.
  - pose proof (rename_into_place_spec plan temp path w) as Hs.
    destruct (rename_into_place _ _ _ _ path w) as [[[]|e] w']; [|exact Hs]. cbn.
    destruct Hs as ((content & Hc & Hw) & Hrec & _). split; [|intros k Ht Hfi _|done|done].
    + exists content. by rewrite Hw, lookup_insert_eq.
    + by rewrite Hw, lookup_insert_ne, lookup_delete_ne.
  - set (final := path_set_extension path ext). pose proof (rename_into_place_spec plan temp final w) as Hs.
    destruct (rename_into_place _ _ _ _ final w) as [[[]|e] w']; [|exact Hs]. cbn.
    destruct Hs as ((content & Hc & Hw) & Hrec & Hfa). unfold path_eqb. case_bool_decide as Heq; cbn [negb].
    + split; [|intros k Ht Hfi _|done|done].
      * exists content. by rewrite Hw, lookup_insert_eq.
      * by rewrite Hw, lookup_insert_ne, lookup_delete_ne.
    + destruct (remove_quietly_cases path w') as [Hst _]. split.
      * exists content. rewrite remove_quietly_frame by done. by rewrite Hw, lookup_insert_eq.
      * intros k Ht Hfi Hp. rewrite remove_quietly_frame by done. by rewrite Hw, lookup_insert_ne, lookup_delete_ne.
      * by rewrite Hst.
      * intros _ Hno. apply remove_quietly_gone. auto.
Qed.

(** *** The run *)
Definition run_succeeded (r : handler PlanExecution) : bool :=
  match r with
  | Returned (Ok ex) => forallb ActionResult_success (PlanExecution_action_results ex)
  | _ => false
  end.

(** Files that a run may leave changed when it fails. *)
Definition passing (temp : PathBuf) (k : PathKey) : Prop := scratch k ∨ k = path_key temp.

Lemma dynamic_hdr_job_ext plan actions ext job :
  dynamic_hdr_job plan actions ext = Ok (Some job) →
  DynamicHdrJob_output_extension job ∈ ["mkv"; "mp4"].
Proof.
  unfold dynamic_hdr_job. destruct (List.find _ actions) as [a|]; [|done].
  destruct (PlannedAction_parameters a); try done. destruct (PlannedAction_track_index a); try done.
  destruct (List.find _ _); [|done]. destruct (_ || _); [done|].
  destruct (dynamic_hdr_kind _) as [[kind|]|]; try done. cbn [mbind result_mbind].
  destruct (negb (str_in ["hevc"; "h265"] _)); [done|].
  destruct (str_in ["mkv"; "mp4"] ext) eqn:He; [|done]. intros [= <-]. cbn.
  by apply bool_decide_eq_true in He.
Qed.

Lemma rolled_back_passing temp w w1 w' :
  frame (passing temp) w w1 → rolled_back temp w1 w' →
  frame (passing temp) w w' ∧ (w_faults w = [] → w_files w' !! path_key temp = None).
Proof.
  intros Hf [Hr Hg]. split.
  - eapply frame_trans; [exact Hf|]. eapply frame_mono; [|exact Hr]. intros k ->. by right.
  - intros Hno. apply Hg, Hf, Hno.
Qed.

Lemma finish_output_spec plan hdr temp ext env w :
  (∀ job, hdr = Some job → DynamicHdrJob_output_extension job ∈ ["mkv"; "mp4"]) →
  match finish_output (S := S) to_str has_store inp plan hdr temp ext env w with
  | (Ok _, w') => ∃ w1, frame (passing temp) w w1 ∧ (hdr = None → w1 = w) ∧
                        in_place plan temp (final_path plan ext) w1 w'
  | (Err _, w') => frame (passing temp) w w' ∧ (w_faults w = [] → w_files w' !! path_key temp = None)
  end.
Proof.
  intros Hext. unfold finish_output, io_bind, removing_on_err. destruct hdr as [job|].
  - pose proof (hdr_frame job (MediaFile_path (Plan_file plan)) temp env (Plan_scan_session plan)
      (Hext job eq_refl) w) as Hh. change (frame (passing temp) w ?x) with (frame (passing temp) w x) in Hh.
    destruct (apply_dynamic_hdr_reinjection _ _ _ _ _ _ _ w) as [[[]|e] w1]; cbn [snd] in Hh.
    + pose proof (rename_output_spec plan temp ext w1) as Hr.
      destruct (rename_output _ _ _ _ _ _ w1) as [[p|e] w2].
      * by exists w1.
      * by eapply rolled_back_passing.
    + split.
      * apply remove_quietly_frame_of; [by right|done].
      * intros Hno. apply remove_quietly_gone, Hh, Hno.
  - cbn. pose proof (rename_output_spec plan temp ext w) as Hr.
    destruct (rename_output _ _ _ _ _ _ w) as [[p|e] w2].
    + exists w. split; [apply frame_refl|done].
    + eapply rolled_back_passing; [apply frame_refl|done].
Qed.

Lemma forallb_succeeded detail actions :
  forallb ActionResult_success (succeeded detail actions) = true.
Proof. exact (all_succeeded_succeeded detail actions). Qed.

Lemma run_ffmpeg_spec plan outcomes updates hdr temp ext front env w :
  temp ≠ "-" → (∀ job, hdr = Some job → DynamicHdrJob_output_extension job ∈ ["mkv"; "mp4"]) →
  let args := front ++ [temp] in
  let '(r, w') := run_ffmpeg (S := S) to_str has_store inp plan outcomes updates hdr temp ext args env w in
  if run_succeeded r then
    ∃ w1, frame (passing temp) w w1 ∧
          (hdr = None → w_files w1 = (run_child_env env "ffmpeg" args (w_files w)).2) ∧
          in_place plan temp (final_path plan ext) w1 w'
  else frame (passing temp) w w' ∧ (w_faults w = [] → w_files w' !! path_key temp = None).
Proof.
  intros Hnamed Hext args. unfold run_ffmpeg.
  pose proof (ffmpeg_frame (passing temp) front temp FFMPEG_TIMEOUT env Hnamed (or_intror eq_refl) w) as Hrun.
  fold args in Hrun. unfold run_with_timeout_env, run_with_timeout, run_child in *.
  destruct (run_child_env env "ffmpeg" args (w_files w)) as [o files] eqn:Hchild. cbn [snd] in Hrun |- *.
  set (w0 := Build_World files (w_store w) (w_faults w)) in *.
  assert (Hq : frame (passing temp) w (remove_quietly temp w0) ∧
    (w_faults w = [] → w_files (remove_quietly temp w0) !! path_key temp = None)).
  { split; [apply remove_quietly_frame_of; [by right|done]|]. intros Hno. by apply remove_quietly_gone. }
  destruct (child_result "ffmpeg" FFMPEG_TIMEOUT o) as [output|e]; [|exact Hq].
  destruct (ExitStatus_success (Output_status output)).
  - pose proof (finish_output_spec plan hdr temp ext env w0 Hext) as Hfin.
    unfold run_bind, run_io. destruct (finish_output _ _ _ _ _ _ _ _ w0) as [[p|e] w2]; cbn [run_lift].
    + unfold run_lift, run_succeeded. cbn [PlanExecution_action_results].
      rewrite forallb_succeeded. destruct Hfin as (w1 & Hf1 & Hn & Hip). exists w1.
      split_and!; [by eapply frame_trans| |done]. intros Hh. by rewrite (Hn Hh).
    + destruct Hfin as [Hf Hg]. split; [by eapply frame_trans|]. intros Hno. by apply Hg.
  - destruct (Plan_actions plan) as [|first rest]; exact Hq.
Qed.

(** *** The whole execution

    Preparation changes the settings of actions and removes some. *)
Definition action_id (a : PlannedAction) : OperationType * option u32 * string :=
  (PlannedAction_operation a, PlannedAction_track_index a, PlannedAction_description a).

Lemma prepare_vmaf_ids stamps file i actions (w : World S) l os w' :
  prepare_vmaf_actions stamps file i actions w = (Finished (l, os), w') →
  action_id <$> l = action_id <$> actions.
Proof.
  revert i w l os. induction actions as [|a actions IH]; intros i w l os; cbn; [by intros [= <- <- <-]|].
  destruct (prepare_vmaf_action file a w) as [[[a' stats]|] w1] eqn:Ha; [|done].
  destruct (prepare_vmaf_actions _ file (Datatypes.S i) actions w1) as [[[l1 os1]|] w2] eqn:Hl; [|done].
  intros [= <- <- <-]. cbn. rewrite (IH _ _ _ _ Hl). f_equal. revert Ha. unfold prepare_vmaf_action.
  destruct (PlannedAction_parameters a) eqn:Hp; try by intros [= <- <- <-].
  destruct (TranscodeSettings_resolve_target_vmaf _ _); [|by intros [= <- <- <-]].
  destruct (vmaf_run _ _ _ w) as [[[]|] ?]; intros [=]; by subst.
Qed.

Lemma measure_ids path env actions (w : World S) l remove updates w' :
  measure_actions path env actions w = (Ok (l, remove, updates), w') →
  action_id <$> l = action_id <$> actions.
Proof.
  revert w l remove updates w'. induction actions as [|a actions IH]; intros w l remove updates w';
    cbn [measure_actions]; unfold io_bind, io_ret; [by intros [= <- <- <- <-]|].
  destruct (unmeasured a) as [[[[codec settings] loudness] track]|].
  - destruct (measure_loudness path track loudness env w) as [[m|e] w1]; [|done].
    destruct (measure_actions path env actions w1) as [[[[l1 r1] u1]|e] w2] eqn:Hl; [|done].
    apply IH in Hl. destruct (LoudnessNormalization_is_within_target _ _);
      [destruct (starts_with _ _)|]; intros [=]; subst; cbn; by rewrite Hl.
  - destruct (measure_actions path env actions w) as [[[[l1 r1] u1]|e] w2] eqn:Hl; [|done].
    apply IH in Hl. intros [=]; subst; cbn; by rewrite Hl.
Qed.

Lemma fmap_filter_sublist {A B} (f : A → B) (p : A → bool) l : f <$> List.filter p l `sublist_of` f <$> l.
Proof.
  induction l as [|x l IH]; [done|]. cbn. destruct (p x); [by apply sublist_skip|by apply sublist_cons].
Qed.

(** After a success. *)
Record replaced (hw : HwAccelConfig) (plan : Plan) (ext : string) (w w' : World S) : Prop := {
  rp_written : ∃ actions args files content,
    action_id <$> actions `sublist_of` action_id <$> Plan_actions plan ∧
    build_ffmpeg_command (Plan_file plan) actions (ffmpeg_output_path to_str inp plan ext)
      (if HwAccelConfig_enabled hw then Some hw else None) = Ok args ∧
    (∀ k, ¬ scratch k → files !! k = w_files w !! k) ∧
    w_files w' !! path_key (final_path plan ext) = Some content ∧
    (dynamic_hdr_job plan actions ext = Ok None →
     (run_child_env (env_vars_of hw) "ffmpeg" args files).2
       !! path_key (ffmpeg_output_path to_str inp plan ext) = Some content);
  rp_frame k : ¬ scratch k → k ≠ path_key (ffmpeg_output_path to_str inp plan ext) →
    k ≠ path_key (final_path plan ext) → k ≠ path_key (MediaFile_path (Plan_file plan)) →
    w_files w' !! k = w_files w !! k;
  rp_recorded : ∃ s, mutation_recorded has_store (Plan_scan_session plan)
    (MediaFile_path (Plan_file plan)) (final_path plan ext) s (w_store w');
  rp_original : path_key (final_path plan ext) ≠ path_key (MediaFile_path (Plan_file plan)) →
    w_faults w = [] → w_files w' !! path_key (MediaFile_path (Plan_file plan)) = None;
}.

(** After a failure. *)
Definition undone (plan : Plan) (ext : string) (w w' : World S) : Prop :=
  (∀ k, ¬ scratch k → k ≠ path_key (ffmpeg_output_path to_str inp plan ext) →
        w_files w' !! k = w_files w !! k) ∧
  (w_faults w = [] → w_files w' !! path_key (ffmpeg_output_path to_str inp plan ext) = None).

Lemma undone_frame plan ext w w' :
  frame scratch w w' →
  ¬ scratch (path_key (ffmpeg_output_path to_str inp plan ext)) →
  w_files w !! path_key (ffmpeg_output_path to_str inp plan ext) = None → undone plan ext w w'.
Proof. intros [Hf _] Hs Hn. split; [by auto|]. intros _. by rewrite Hf. Qed.

Lemma ensure_tool_frame kind env :
  io_frame (S := S) (λ _, False) (ensure_tool_available (DynamicHdrKind_tool_name kind) env).
Proof.
  apply io_frame_bind; [|intros o; destruct (ExitStatus_success _); auto with frames].
  apply run_frame. intros files k _. by rewrite hdr_tool_version.
Qed.

Lemma undone_run plan ext w0 w w' :
  frame scratch w0 w → ¬ scratch (path_key (ffmpeg_output_path to_str inp plan ext)) →
  frame (passing (ffmpeg_output_path to_str inp plan ext)) w w' ∧
  (w_faults w = [] → w_files w' !! path_key (ffmpeg_output_path to_str inp plan ext) = None) →
  undone plan ext w0 w'.
Proof.
  intros Hf Hs [Hr Hg]. split; [|intros Hno; by apply Hg, Hf].
  intros k Hk Ht. destruct Hr as [Hr _]. rewrite Hr; [by apply Hf|]. by intros [?|?].
Qed.

Lemma output_path_named plan ext : ffmpeg_output_path to_str inp plan ext ≠ "-".
Proof. apply path_join_named. rewrite !string_length_app. simpl. lia. Qed.

Lemma execute_prepared_spec hw plan actions outcomes updates w0 w :
  let ext := output_extension to_str (Plan_file plan) actions in
  let temp := ffmpeg_output_path to_str inp plan ext in
  let '(r, w') := execute_prepared (S := S) to_str has_store inp hw (Plan_set_actions plan actions)
                    outcomes updates w in
  frame scratch w0 w → action_id <$> actions `sublist_of` action_id <$> Plan_actions plan →
  to_string_lossy temp = temp → ¬ scratch (path_key temp) → w_files w0 !! path_key temp = None →
  if run_succeeded r then replaced hw plan ext w0 w' else undone plan ext w0 w'.
Proof.
  intros ext temp. unfold execute_prepared, run_bind, run_lift, run_io.
  change (Plan_actions (Plan_set_actions plan actions)) with actions.
  change (Plan_file (Plan_set_actions plan actions)) with (Plan_file plan). fold ext.
  change (ffmpeg_output_path to_str inp (Plan_set_actions plan actions) ext) with temp.
  change (dynamic_hdr_job (Plan_set_actions plan actions)) with (dynamic_hdr_job plan).
  set (hwo := if HwAccelConfig_enabled hw then Some hw else None).
  destruct (build_ffmpeg_command (Plan_file plan) actions temp hwo) as [args|e] eqn:Hargs;
    [|intros; by apply undone_frame].
  destruct (dynamic_hdr_job plan actions ext) as [hdr|e] eqn:Hhdr; [|intros; by apply undone_frame].
  match goal with |- context [match ?x w with _ => _ end] => set (check := x) end.
  assert (Hens : frame scratch w (check w).2).
  { unfold check. destruct hdr as [job|]; [|apply frame_refl].
    eapply frame_mono; [|apply ensure_tool_frame]. done. }
  destruct (check w) as [[[]|e] w1]; cbn [snd] in Hens;
    [|intros; apply undone_frame; [by eapply frame_trans|done..]].
  destruct (build_shape _ _ _ _ _ Hargs) as (ho & ao & st & _ & Hshape).
  rewrite app_assoc in Hshape. set (front := _ ++ flat _) in Hshape.
  destruct (run_ffmpeg _ _ _ _ _ _ _ _ _ _ _ w1) as [r w'] eqn:Hrun.
  intros Hf Hsub Hl Hs Hn. rewrite Hl in Hshape. rewrite Hshape in Hrun.
  pose proof (run_ffmpeg_spec (Plan_set_actions plan actions) outcomes updates hdr temp ext front (env_vars_of hw) w1) as Hspec.
  specialize (Hspec (output_path_named plan ext) ltac:(intros job ->; by eapply dynamic_hdr_job_ext)).
  cbv zeta in Hspec.
  rewrite Hrun in Hspec.
  assert (Hf1 : frame scratch w0 w1) by (by eapply frame_trans).
  destruct (run_succeeded r); [|by eapply undone_run].
  destruct Hspec as (w2 & Hf2 & Hchild & [(content & Hc & Hc') Hfr Hrec Horig]).
  change (final_path (Plan_set_actions plan actions) ext) with (final_path plan ext) in *. split.
  - exists actions, args, (w_files w1), content. split_and!; [done..|by apply Hf1|done|].
    intros Hnone. rewrite Hhdr in Hnone. injection Hnone as ->. rewrite Hshape, <-Hchild by done. exact Hc.
  - intros k Hk Ht Hfi Hp. rewrite Hfr by done. destruct Hf2 as [Hf2 _]. rewrite Hf2; [by apply Hf1|].
    by intros [?|?].
  - by exists (w_store w2).
  - intros Hne Hno. apply Horig; [done|]. apply Hf2, Hf1, Hno.
Qed.
End execution.

(** What is assumed of the names of temporary files: they are plain. *)
Record temp_names_plain {S} `{VmafHost} (inp : FfmpegInput) (dir_id log_id : World S → string)
    : Prop := {
  tp_temp_dir : plain_text (fi_temp_dir inp);
  tp_work_id : plain_text (fi_work_id inp);
  tp_dir_id w : plain_text (dir_id w);
  tp_log_id w : plain_text (log_id w);
  tp_home home : host_home = Some home → plain_text home;
}.

(** No temporary file for the output is there yet, or among the scratch files. *)
Definition output_free {S} `{Unicode} (to_str : string → option string) (inp : FfmpegInput)
    (plan : Plan) (w : World S) : Prop :=
  ∀ ext, ext ∈ output_extensions to_str (Plan_file plan) →
    let temp := ffmpeg_output_path to_str inp plan ext in
    to_string_lossy temp = temp ∧ ¬ scratch inp (path_key temp) ∧ w_files w !! path_key temp = None.

Lemma work_names_utf8 `{Unicode} inp :
  plain_text (fi_temp_dir inp) → plain_text (fi_work_id inp) → ∀ name, name ∈ work_files →
  to_string_lossy (path_join (work_dir inp) name) = path_join (work_dir inp) name.
Proof.
  intros Ht Hw name Hn. apply lossy_plain. apply plain_text_join.
  - apply plain_text_join; [done|]. by apply plain_text_app.
  - revert name Hn. apply Forall_forall. by repeat constructor.
Qed.

(** ** Encoders *)
Section encoders.
Context `{Unicode} `{StrDebug}.

Lemma try_foldl_elem {A} (f : FfmpegCommand → A → result VoomError FfmpegCommand) cmd l cmd' x :
  try_foldl f cmd l = Ok cmd' → x ∈ l → ∃ c c', f c x = Ok c'.
Proof.
  revert cmd. induction l as [|y l IH]; intros cmd; [by intros _ ?%elem_of_nil|]. cbn [try_foldl].
  destruct (f cmd y) as [cmd1|] eqn:Hy; [|done]. cbn [mbind result_mbind].
  intros Hl [->|Hx]%elem_of_cons; [by exists cmd, cmd1|by eapply IH].
Qed.

(** A command is built only if the encoders that must be hardware are there. *)
Lemma build_checks_fallback file actions out hw args a codec settings :
  build_ffmpeg_command file actions out hw = Ok args → a ∈ actions →
  PlannedAction_operation a = Op_TranscodeVideo →
  PlannedAction_parameters a = AP_Transcode codec settings →
  check_hw_fallback settings codec (resolve_effective_hw settings hw) = Ok tt.
Proof.
  unfold build_ffmpeg_command. intros Hb Ha Hop Hp. revert Hb.
  destruct (try_foldl _ _ _) as [cmd|] eqn:Hf; [|done]. intros _.
  destruct (try_foldl_elem _ _ _ _ a Hf Ha) as (c & c' & Hc). revert Hc.
  unfold apply_action, apply_transcode_video. rewrite Hop, Hp.
  by destruct (check_hw_fallback _ _ _) as [[]|].
Qed.

(** The override, if any, is for the backend that was set up. *)
Definition own_backend (hw : HwAccelConfig) (settings : TranscodeSettings) : Prop :=
  ∀ name, TranscodeSettings_hw settings = Some name →
  HwAccelConfig_backend (config_from_backend_name name) = None ∨
  HwAccelConfig_backend (config_from_backend_name name) = HwAccelConfig_backend hw.

Definition enabled_hw (hw : HwAccelConfig) : option HwAccelConfig :=
  if HwAccelConfig_enabled hw then Some hw else None.

Lemma effective_hw_own hw settings cfg :
  own_backend hw settings → resolve_effective_hw settings (enabled_hw hw) = Some cfg →
  HwAccelConfig_validated_encoders cfg = HwAccelConfig_validated_encoders hw.
Proof.
  unfold own_backend, resolve_effective_hw, config_from_backend_with_system, enabled_hw, HwAccelConfig_enabled.
  intros Hown. destruct (TranscodeSettings_hw settings) as [name|]; [|case_bool_decide; naive_solver].
  specialize (Hown name eq_refl). case_bool_decide; [done|].
  destruct (HwAccelConfig_backend (config_from_backend_name name)) as [b|] eqn:Hb.
  - destruct Hown as [|Hown]; [done|]. rewrite <-Hown. rewrite (bool_decide_true (is_Some (Some b))) by done.
    rewrite <-Hown, (bool_decide_true (Some b = Some b)) by done. cbn [HwAccelConfig_backend].
    rewrite (bool_decide_true (is_Some (Some b))) by done. by intros [= <-].
  - rewrite Hb, (bool_decide_false (is_Some None)) by (by intros []). case_bool_decide; naive_solver.
Qed.

Lemma encoder_name_cases cfg codec v :
  HwAccelConfig_validated_encoders cfg = Some v →
  if has_hw_encoder cfg codec then encoder_name cfg codec ∈ v
  else encoder_name cfg codec = software_encoder codec.
Proof.
  intros Hv. unfold has_hw_encoder, encoder_name. rewrite Hv. destruct (HwAccelConfig_backend cfg); [|done].
  destruct (hw_encoder_for_backend _ codec) as [name|]; [|done].
  destruct (str_in v name) eqn:Hin; [|done]. by apply bool_decide_eq_true in Hin.
Qed.

(** Hardware is asked for and nothing else will do. *)
Definition hardware_only (settings : TranscodeSettings) : Prop :=
  (∃ name, TranscodeSettings_hw settings = Some name ∧ name ≠ "none") ∧
  TranscodeSettings_hw_fallback settings = Some false.

Lemma check_hw_fallback_only settings codec hw :
  hardware_only settings → check_hw_fallback settings codec hw = Ok tt →
  ∃ cfg, hw = Some cfg ∧ has_hw_encoder cfg codec = true.
Proof.
  intros [(name & Hname & Hne) Hf]. unfold check_hw_fallback. rewrite Hname, Hf.
  rewrite bool_decide_false, bool_decide_true by done. cbn. destruct hw as [cfg|]; [|done].
  destruct (has_hw_encoder cfg codec) eqn:Hh; [|done]. by exists cfg.
Qed.

Lemma video_encoder_own hw settings codec v :
  own_backend hw settings → HwAccelConfig_validated_encoders hw = Some v →
  let encoder := video_encoder (resolve_effective_hw settings (enabled_hw hw)) codec in
  (encoder = software_encoder codec ∨ encoder ∈ v) ∧
  (hardware_only settings →
   check_hw_fallback settings codec (resolve_effective_hw settings (enabled_hw hw)) = Ok tt →
   encoder ∈ v).
Proof.
  intros Hown Hv. cbv zeta. destruct (resolve_effective_hw settings (enabled_hw hw)) as [cfg|] eqn:He.
  - rewrite <-(effective_hw_own _ _ _ Hown He) in Hv. pose proof (encoder_name_cases cfg codec v Hv) as Hc.
    cbn [video_encoder]. split.
    + destruct (has_hw_encoder cfg codec); auto.
    + intros Ho Hk. destruct (check_hw_fallback_only _ _ _ Ho Hk) as (? & [= <-] & Hh). by rewrite Hh in Hc.
  - split; [by left|]. intros Ho Hk. by destruct (check_hw_fallback_only _ _ _ Ho Hk) as (? & ? & _).
Qed.
End encoders.
