(* ===== verification/BackupManager.v ===== *)
(** * The backup manager

    [plugins/backup-manager]: backups of files before a plan is executed, their
    restoration when it fails and their removal when it succeeds, copies at
    remote destinations made by [rclone], and the inventory of these. With it
    [crates/voom-domain/src/utils/disk.rs], the estimates of disk space.

    The state of the plugin is part of the shared state, behind the interface
    [BackupHost]. A panic with the lock of the records held poisons the lock.
    Directories are not part of the state: making one and removing an empty one
    may fail but change no file. *)
From S2P Require Import Prelude Json Media Plan CapabilityMap Jobs Events Kernel Process.
From S2P Require Import VmafSearch FfmpegExecutor.

Declare Scope run_scope.
Delimit Scope run_scope with run.
Notation "x ⇐ m ; k" := (run_bind m (λ x, k))
  (at level 20, m at level 100, k at level 200, right associativity) : run_scope.
Notation "m ⨟ k" := (run_bind m (λ _, k))
  (at level 100, k at level 200, right associativity) : run_scope.

(** ** The system *)

(** Links, directories and free space: [statvfs] gives the free blocks and their
    size. *)
Class Volume := {
  is_symlink : Files → PathBuf → bool;
  dir_exists : Files → PathBuf → bool;
  statvfs : Files → string → result string (u64 * u64);
}.

(** [Command::output]: the child runs to its end. *)
Class CommandOutput :=
  command_output : string → list string → Files → result string Output * Files.

(** Identifiers and time. *)
Class Ambient (S : Type) := {
  new_v4 : World S → Uuid;
  utc_now : World S → DateTime;
}.

(** [format("%Y%m%d%H%M%S")] of [chrono] *)
Class TimestampText := fmt_timestamp : DateTime → string.

(** The SHA-256 of the crate [sha2], as bytes *)
Class Sha256 := sha256_digest : string → string.

Definition u64_saturating_add (a b : u64) : u64 := N.min u64_MAX (a + b).
Definition u64_saturating_mul (a b : u64) : u64 := N.min u64_MAX (a * b).

Section fs.
Context {S : Type}.
Implicit Types w : World S.

Definition run_ret {A} (a : A) : Run S A := λ w, (Returned (Ok a), w).

Definition run_err {A} (e : VoomError) : Run S A := λ w, (Returned (Err e), w).

Definition run_panic {A} : Run S A := λ w, (Panicked, w).

(** An operation of the system with the error it is turned into. *)
Definition run_os {A} (f : string → VoomError) (m : World S → result string A * World S)
    : Run S A := λ w,
  match m w with
  | (Ok a, w') => (Returned (Ok a), w')
  | (Err e, w') => (Returned (Err (f e)), w')
  end.

(** [fs::metadata(p).len()] *)
Definition fs_len (p : PathBuf) : World S → result string u64 * World S :=
  fs_query (λ files,
    match files !! path_key p with
    | Some content => Ok (str_len content)
    | None => Err no_such_file
    end).

(** Opening a file for appending, which creates it. *)
Definition fs_open_append (p : PathBuf) : World S → result string unit * World S :=
  fs_call (λ files, Ok (<[path_key p := default "" (files !! path_key p)]> files)).

(** [File::create] *)
Definition fs_create (p : PathBuf) : World S → result string unit * World S :=
  fs_call (λ files, Ok (<[path_key p := ""]> files)).

(** Writing at the end of an open file. *)
Definition fs_write_end `{TornWrite} (p : PathBuf) (text : string) w
    : result string unit * World S :=
  let old := default "" (w_files w !! path_key p) in
  let put c fs := Build_World (<[path_key p := old +:+ c]> (w_files w)) (w_store w) fs in
  match w_faults w with
  | Some e :: fs => (Err e, put (default "" (torn e text)) fs)
  | fs => (Ok tt, put text (tail fs))
  end.

(** [fs::remove_dir] of a directory that may be empty. *)
Definition fs_remove_dir (p : PathBuf) : World S → result string unit * World S :=
  fs_call (λ files, Ok files).

(** ** [utils/disk.rs] *)
Definition path_exists `{Volume} (p : PathBuf) w : bool :=
  fs_exists p w || dir_exists (w_files w) p.

Definition has_nul (s : string) : bool :=
  existsb (λ c, bool_decide (c = ascii_of_nat 0)) (String.list_ascii_of_string s).

(** The nearest ancestor that exists, or the last one; [fuel] bounds the number
    of parents. *)
Fixpoint nearest_existing `{Volume} (fuel : nat) (check : PathBuf) w : PathBuf :=
  if path_exists check w then check
  else
    match fuel, path_parent check with
    | Datatypes.S fuel, Some p => nearest_existing fuel p w
    | _, _ => check
    end.

Definition available_space `{Volume} `{Unicode} (path : PathBuf) : Run S u64 := λ w,
  let check := to_string_lossy (nearest_existing (String.length path) path w) in
  if has_nul check then
    (Returned (Err (VoomError_Validation
       "invalid path for statvfs: nul byte found in provided data")), w)
  else
    run_os VoomError_Io
      (fs_query (λ files,
         '(bavail, frsize) ← statvfs files check; Ok (u64_saturating_mul bavail frsize))) w.

Definition MINIMUM_RESERVE_BYTES : u64 := 50 * 1024 * 1024.

(** The sizes of the subtitle files that are muxed; a file that cannot be
    read counts for nothing. *)
Fixpoint subtitle_sizes (actions : list PlannedAction) w : list u64 * World S :=
  match actions with
  | [] => ([], w)
  | a :: actions =>
      match PlannedAction_parameters a with
      | AP_MuxSubtitle subtitle_path _ _ _ =>
          let '(r, w) := fs_len subtitle_path w in
          let '(sizes, w) := subtitle_sizes actions w in
          (match r with Ok n => n :: sizes | Err _ => sizes end, w)
      | _ => subtitle_sizes actions w
      end
  end.

Definition needs_extra_space (op : OperationType) : bool :=
  match op with
  | Op_TranscodeVideo | Op_TranscodeAudio | Op_ConvertContainer | Op_SynthesizeAudio => true
  | _ => false
  end.

Definition estimate_required_space (plan : Plan) (file_size : u64) w : u64 * World S :=
  let needs_extra := existsb (λ a, needs_extra_space (PlannedAction_operation a)) (Plan_actions plan) in
  let '(sizes, w) := subtitle_sizes (Plan_actions plan) w in
  let subtitle_bytes := foldl u64_saturating_add 0%N sizes in
  let multiplier := if needs_extra then 2%N else 1%N in
  (u64_saturating_add
     (u64_saturating_add (u64_saturating_mul file_size multiplier) subtitle_bytes)
     MINIMUM_RESERVE_BYTES, w).
End fs.

(** ** [destination.rs] *)
Definition backup_err (message : string) : VoomError := VoomError_plugin "backup-manager" message.

Inductive DestinationKind : Type :=
| DestinationKind_Local
| DestinationKind_Rclone
| DestinationKind_S3
| DestinationKind_Sftp
| DestinationKind_Webdav.

Definition DestinationKind_is_rclone_backed (k : DestinationKind) : bool :=
  match k with
  | DestinationKind_Local => false
  | _ => true
  end.

Definition DestinationKind_as_str (k : DestinationKind) : string :=
  match k with
  | DestinationKind_Local => "local"
  | DestinationKind_Rclone => "rclone"
  | DestinationKind_S3 => "s3"
  | DestinationKind_Sftp => "sftp"
  | DestinationKind_Webdav => "webdav"
  end.

Record BackupDestinationConfig : Type := {
  Destination_name : string;
  Destination_kind : DestinationKind;
  Destination_remote : option string;
  Destination_bandwidth_limit : option string;
  Destination_minimum_storage_days : option u32;
}.

Definition BackupDestinationConfig_rclone (name remote : string) : BackupDestinationConfig := {|
  Destination_name := name;
  Destination_kind := DestinationKind_Rclone;
  Destination_remote := Some remote;
  Destination_bandwidth_limit := None;
  Destination_minimum_storage_days := None;
|}.

Definition requires_remote (name : string) : VoomError :=
  backup_err ("backup destination '" +:+ name +:+ "' requires remote").

Definition BackupDestinationConfig_validate (d : BackupDestinationConfig) : result VoomError unit :=
  if bool_decide (str_trim (Destination_name d) = "")
  then Err (backup_err "backup destination name cannot be empty")
  else if DestinationKind_is_rclone_backed (Destination_kind d)
          && match Destination_remote d with
             | Some remote => bool_decide (str_trim remote = "")
             | None => true
             end
  then Err (requires_remote (Destination_name d))
  else Ok tt.

Record BackupDestinationsConfig : Type := {
  Destinations_verify_after_upload : bool;
  Destinations_block_on_remote_failure : bool;
  Destinations_rclone_path : string;
  Destinations_destinations : list BackupDestinationConfig;
}.

(** The loop, with the names seen so far. *)
Fixpoint validate_destinations (names : list string) (l : list BackupDestinationConfig)
    : result VoomError unit :=
  match l with
  | [] => Ok tt
  | d :: l =>
      _ ← BackupDestinationConfig_validate d;
      if bool_decide (Destination_name d ∈ names)
      then Err (backup_err ("duplicate backup destination '" +:+ Destination_name d +:+ "'"))
      else validate_destinations (Destination_name d :: names) l
  end.

Definition BackupDestinationsConfig_validate (c : BackupDestinationsConfig) : result VoomError unit :=
  validate_destinations [] (Destinations_destinations c).

Definition default_rclone_path : string := "rclone".

Definition BackupDestinationsConfig_default : BackupDestinationsConfig := {|
  Destinations_verify_after_upload := true;
  Destinations_block_on_remote_failure := true;
  Destinations_rclone_path := default_rclone_path;
  Destinations_destinations := [];
|}.

Record RemoteBackupRecord : Type := {
  RemoteBackup_destination_name : string;
  RemoteBackup_remote_path : string;
  RemoteBackup_verified : bool;
}.

Record RemoteUploadRequest : Type := {
  Upload_destination : BackupDestinationConfig;
  Upload_source_path : PathBuf;
  Upload_remote_path : string;
  Upload_expected_size : u64;
  Upload_rclone_path : string;
  Upload_verify_after_upload : bool;
}.

Record RemoteUploadReceipt : Type := { Receipt_verified : bool }.

Record RcloneCommand : Type := {
  Rclone_program : string;
  Rclone_args : list string;
}.

Definition RcloneCommand_copyto `{Unicode} (program : string) (source : PathBuf) (remote_path : string)
    (bandwidth_limit : option string) : RcloneCommand := {|
  Rclone_program := program;
  Rclone_args :=
    ["copyto"; to_string_lossy source; remote_path]
    ++ match bandwidth_limit with Some limit => ["--bwlimit"; limit] | None => [] end;
|}.

Definition RcloneCommand_size (program remote_path : string) : RcloneCommand :=
  {| Rclone_program := program; Rclone_args := ["size"; "--json"; remote_path] |}.

Definition RcloneCommand_hashsum (program algorithm remote_path : string) : RcloneCommand :=
  {| Rclone_program := program; Rclone_args := ["hashsum"; algorithm; remote_path] |}.

Definition RcloneCommand_deletefile (program remote_path : string) : RcloneCommand :=
  {| Rclone_program := program; Rclone_args := ["deletefile"; remote_path] |}.

(** [to_string_lossy().replace(['/', '\\', '\0'], "_")] *)
Definition unsafe_name_byte (c : ascii) : bool :=
  bool_decide (c = slash ∨ c = ascii_of_nat 92 ∨ c = ascii_of_nat 0).

Fixpoint replace_unsafe (s : string) : string :=
  match s with
  | EmptyString => EmptyString
  | String c s => String (if unsafe_name_byte c then ascii_of_nat 95 else c) (replace_unsafe s)
  end.

Definition safe_file_name `{Unicode} (path : PathBuf) : string :=
  match path_file_name path with
  | Some n => replace_unsafe (to_string_lossy n)
  | None => "unknown"
  end.

(** [trim_end_matches('/')] *)
Fixpoint trim_slashes_rev (l : list ascii) : list ascii :=
  match l with
  | c :: l' => if bool_decide (c = slash) then trim_slashes_rev l' else l
  | [] => []
  end.

Definition trim_end_slashes (s : string) : string := of_bytes_rev (trim_slashes_rev (bytes_rev s)).

Definition remote_path_for `{Unicode} `{UuidText} (destination : BackupDestinationConfig) (id : Uuid)
    (source : PathBuf) : result VoomError string :=
  match Destination_remote destination with
  | None => Err (requires_remote (Destination_name destination))
  | Some remote =>
      Ok (trim_end_slashes remote +:+ "/" +:+ Uuid_to_string id +:+ "/"
          +:+ safe_file_name source +:+ ".vbak")
  end.

(** [serde_json::from_slice::<RcloneSizeOutput>]: the field [bytes] of the text. *)
Class RcloneSizeJson := rclone_size_bytes : string → result string u64.

Section rclone.
Context {S : Type} `{Unicode} `{CommandOutput} `{RcloneSizeJson}.
Open Scope run_scope.

Definition RcloneCommand_run (c : RcloneCommand) : Run S string := λ w,
  let '(r, files) := command_output (Rclone_program c) (Rclone_args c) (w_files w) in
  let w := Build_World files (w_store w) (w_faults w) in
  match r with
  | Err e => (Returned (Err (backup_err ("failed to run " +:+ Rclone_program c +:+ ": " +:+ e))), w)
  | Ok output =>
      if ExitStatus_success (Output_status output) then (Returned (Ok (Output_stdout output)), w)
      else (Returned (Err (backup_err
              (Rclone_program c +:+ " failed with status "
               +:+ ExitStatus_to_string (Output_status output) +:+ ": "
               +:+ str_trim (to_string_lossy (Output_stderr output))))), w)
  end.

Definition remote_size (rclone_path remote_path : string) : Run S u64 :=
  stdout ⇐ RcloneCommand_run (RcloneCommand_size rclone_path remote_path);
  match rclone_size_bytes stdout with
  | Ok n => run_ret n
  | Err e => run_err (backup_err
               ("failed to parse rclone size output for " +:+ remote_path +:+ ": " +:+ e))
  end.

Definition verify_remote_size (rclone_path remote_path : string) (expected_size : u64)
    : Run S unit :=
  actual_size ⇐ remote_size rclone_path remote_path;
  if (actual_size =? expected_size)%N then run_ret tt
  else run_err (backup_err
         ("remote backup size mismatch for " +:+ remote_path +:+ ": expected "
          +:+ pretty expected_size +:+ ", got " +:+ pretty actual_size)).

Definition upload_with_rclone (request : RemoteUploadRequest) : Run S RemoteUploadReceipt :=
  RcloneCommand_run
    (RcloneCommand_copyto (Upload_rclone_path request) (Upload_source_path request)
       (Upload_remote_path request)
       (Destination_bandwidth_limit (Upload_destination request))) ⨟
  (if Upload_verify_after_upload request
   then verify_remote_size (Upload_rclone_path request) (Upload_remote_path request)
          (Upload_expected_size request)
   else run_ret tt) ⨟
  run_ret {| Receipt_verified := Upload_verify_after_upload request |}.

Definition download_with_rclone (rclone_path remote_path : string) (output_path : PathBuf)
    (expected_size : u64) : Run S unit :=
  verify_remote_size rclone_path remote_path expected_size ⨟
  RcloneCommand_run
    (RcloneCommand_copyto rclone_path remote_path (to_string_lossy output_path) None) ⨟
  downloaded ⇐ run_os (λ e, backup_err ("failed to read restored backup "
                              +:+ to_string_lossy output_path +:+ ": " +:+ e)) (fs_len output_path);
  if (downloaded =? expected_size)%N then run_ret tt
  else run_err (backup_err
         ("restored backup size mismatch for " +:+ to_string_lossy output_path +:+ ": expected "
          +:+ pretty expected_size +:+ ", got " +:+ pretty downloaded)).

Definition is_hex_digit (c : ascii) : bool :=
  let n := nat_of_ascii c in
  bool_decide (48 ≤ n ≤ 57 ∨ 65 ≤ n ≤ 70 ∨ 97 ≤ n ≤ 102).

(** [split_whitespace().next()] *)
Fixpoint first_word (cs : list string) : string :=
  match cs with
  | c :: cs => if bool_decide (c ∈ whitespace_list) then "" else c +:+ first_word cs
  | [] => ""
  end.

Definition remote_sha256 (rclone_path remote_path : string) : Run S (option string) := λ w,
  match RcloneCommand_run (RcloneCommand_hashsum rclone_path "SHA-256" remote_path) w with
  | (Panicked, w) => (Panicked, w)
  | (Returned (Err _), w) => (Returned (Ok None), w)
  | (Returned (Ok stdout), w) =>
      let hash := first_word (str_chars (str_trim (to_string_lossy stdout))) in
      (Returned (Ok
        (if bool_decide (String.length hash = 64)
            && forallb is_hex_digit (String.list_ascii_of_string hash)
         then Some (to_ascii_lowercase hash) else None)), w)
  end.

Definition delete_with_rclone (rclone_path remote_path : string) : Run S unit :=
  RcloneCommand_run (RcloneCommand_deletefile rclone_path remote_path) ⨟ run_ret tt.
End rclone.

(** ** [inventory.rs] *)
Inductive RemoteBackupInventoryStatus : Type :=
| InventoryStatus_Uploaded
| InventoryStatus_Verified.

Definition InventoryStatus_as_str (s : RemoteBackupInventoryStatus) : string :=
  match s with
  | InventoryStatus_Uploaded => "uploaded"
  | InventoryStatus_Verified => "verified"
  end.

Record RemoteBackupInventoryRecord : Type := {
  Inventory_backup_id : Uuid;
  Inventory_original_path : PathBuf;
  Inventory_local_backup_path : PathBuf;
  Inventory_destination_name : string;
  Inventory_remote_path : string;
  Inventory_size : u64;
  Inventory_sha256 : option string;
  Inventory_uploaded_at : DateTime;
  Inventory_verified_at : option DateTime;
  Inventory_status : RemoteBackupInventoryStatus;
}.

(** The derived serialization of a record as JSON text, which fails on a path that
    is not UTF-8, and its inverse. *)
Class InventoryJson := {
  inventory_to_string : RemoteBackupInventoryRecord → option string;
  inventory_from_str : string → result string RemoteBackupInventoryRecord;
}.

Definition RemoteBackupInventory_default_path (data_dir : PathBuf) : PathBuf :=
  path_join (path_join data_dir "backup-manager") "remote-backups.jsonl".

Section inventory.
Context {S : Type} `{Unicode} `{TornWrite} `{InventoryJson} (to_str : string → option string).
Implicit Types path : PathBuf.
Open Scope run_scope.

Definition inventory_error (what : string) path (e : string) : VoomError :=
  backup_err ("failed to " +:+ what +:+ " " +:+ to_string_lossy path +:+ ": " +:+ e).

Definition create_inventory_dir path : Run S unit :=
  match path_parent path with
  | None => run_ret tt
  | Some parent =>
      run_os (inventory_error "create remote backup inventory directory" parent)
        (fs_create_dir_all parent)
  end.

(** [serde_json::to_string(record).expect(...)] and [writeln!] *)
Definition write_record path (record : RemoteBackupInventoryRecord) : Run S unit :=
  match inventory_to_string record with
  | None => run_panic
  | Some json =>
      run_os (inventory_error "write remote backup inventory" path)
        (fs_write_end path (json +:+ newline_str))
  end.

Definition RemoteBackupInventory_append path (record : RemoteBackupInventoryRecord) : Run S unit :=
  create_inventory_dir path ⨟
  run_os (inventory_error "open remote backup inventory" path) (fs_open_append path) ⨟
  write_record path record.

(** The lines parsed one by one. *)
Fixpoint parse_inventory path (lines : list string)
    : result VoomError (list RemoteBackupInventoryRecord) :=
  match lines with
  | [] => Ok []
  | line :: lines =>
      match to_str line with
      | None => Err (inventory_error "read remote backup inventory" path
                       "stream did not contain valid UTF-8")
      | Some line =>
          match inventory_from_str line with
          | Err e => Err (inventory_error "parse remote backup inventory" path e)
          | Ok record => records ← parse_inventory path lines; Ok (record :: records)
          end
      end
  end.

Definition RemoteBackupInventory_list path (destination : option string)
    : Run S (list RemoteBackupInventoryRecord) := λ w,
  match fs_query (λ files, Ok (files !! path_key path)) w with
  | (Err e, w) => (Returned (Err (inventory_error "open remote backup inventory" path e)), w)
  | (Ok None, w) => (Returned (Ok []), w)
  | (Ok (Some text), w) =>
      (run_os (inventory_error "read remote backup inventory" path) (fs_query (λ _, Ok tt)) ⨟
       match parse_inventory path (str_lines text) with
       | Err e => run_err e
       | Ok records =>
           run_ret (List.filter (λ r, match destination with
                                      | None => true
                                      | Some name => bool_decide (Inventory_destination_name r = name)
                                      end) records)
       end) w
  end.

Fixpoint write_records path (records : list RemoteBackupInventoryRecord) : Run S unit :=
  match records with
  | [] => run_ret tt
  | r :: records => write_record path r ⨟ write_records path records
  end.

Definition RemoteBackupInventory_replace_all path (records : list RemoteBackupInventoryRecord)
    : Run S unit :=
  create_inventory_dir path ⨟
  (let temp_path := path_set_extension path "jsonl.tmp" in
   run_os (inventory_error "create remote backup inventory" temp_path) (fs_create temp_path) ⨟
   write_records temp_path records ⨟
   run_os (inventory_error "replace remote backup inventory" path) (fs_rename temp_path path)).
End inventory.

(** ** The plugin's data: [lib.rs] *)
Record BackupRecord : Type := {
  BackupRecord_id : Uuid;
  BackupRecord_original_path : PathBuf;
  BackupRecord_backup_path : PathBuf;
  BackupRecord_size : u64;
  BackupRecord_created_at : DateTime;
  BackupRecord_remote_backups : list RemoteBackupRecord;
  BackupRecord_retained : bool;
}.

Record BackupConfig : Type := {
  BackupConfig_backup_dir : option PathBuf;
  BackupConfig_use_global_dir : bool;
  BackupConfig_min_free_space : u64;
  BackupConfig_verify_after_upload : bool;
  BackupConfig_block_on_remote_failure : bool;
  BackupConfig_rclone_path : string;
  BackupConfig_destinations : list BackupDestinationConfig;
}.

Definition default_min_free_space : u64 := 1024 * 1024 * 100.

Definition BackupConfig_default : BackupConfig := {|
  BackupConfig_backup_dir := None;
  BackupConfig_use_global_dir := false;
  BackupConfig_min_free_space := default_min_free_space;
  BackupConfig_verify_after_upload := true;
  BackupConfig_block_on_remote_failure := true;
  BackupConfig_rclone_path := default_rclone_path;
  BackupConfig_destinations := [];
|}.

Definition BackupConfig_validate (c : BackupConfig) : result VoomError unit :=
  BackupDestinationsConfig_validate {|
    Destinations_verify_after_upload := BackupConfig_verify_after_upload c;
    Destinations_block_on_remote_failure := BackupConfig_block_on_remote_failure c;
    Destinations_rclone_path := BackupConfig_rclone_path c;
    Destinations_destinations := BackupConfig_destinations c;
  |}.

(** The records are keyed by the file a path names; [poisoned] is that of the
    lock around them. *)
Record BackupManagerPlugin : Type := {
  Backup_config : BackupConfig;
  Backup_records : gmap PathKey BackupRecord;
  Backup_poisoned : bool;
  Backup_inventory : option PathBuf;
}.

Definition BackupManagerPlugin_from_config (config : BackupConfig) : BackupManagerPlugin := {|
  Backup_config := config;
  Backup_records := ∅;
  Backup_poisoned := false;
  Backup_inventory := None;
|}.

Definition BackupManagerPlugin_new : BackupManagerPlugin :=
  BackupManagerPlugin_from_config BackupConfig_default.

Definition Backup_set_records (records : gmap PathKey BackupRecord) (p : BackupManagerPlugin)
    : BackupManagerPlugin := {|
  Backup_config := Backup_config p;
  Backup_records := records;
  Backup_poisoned := Backup_poisoned p;
  Backup_inventory := Backup_inventory p;
|}.

Definition Backup_poison (p : BackupManagerPlugin) : BackupManagerPlugin := {|
  Backup_config := Backup_config p;
  Backup_records := Backup_records p;
  Backup_poisoned := true;
  Backup_inventory := Backup_inventory p;
|}.

Definition BackupManagerPlugin_with_inventory_path (path : PathBuf) (p : BackupManagerPlugin)
    : BackupManagerPlugin := {|
  Backup_config := Backup_config p;
  Backup_records := Backup_records p;
  Backup_poisoned := Backup_poisoned p;
  Backup_inventory := Some path;
|}.

Definition BackupRecord_retain (r : BackupRecord) : BackupRecord := {|
  BackupRecord_id := BackupRecord_id r;
  BackupRecord_original_path := BackupRecord_original_path r;
  BackupRecord_backup_path := BackupRecord_backup_path r;
  BackupRecord_size := BackupRecord_size r;
  BackupRecord_created_at := BackupRecord_created_at r;
  BackupRecord_remote_backups := BackupRecord_remote_backups r;
  BackupRecord_retained := true;
|}.

(** The shared state contains the state of the plugin. *)
Class BackupHost (S : Type) := {
  backup_get : S → BackupManagerPlugin;
  backup_set : BackupManagerPlugin → S → S;
  backup_get_set p s : backup_get (backup_set p s) = p;
}.

(** [HashMap::values] of the records *)
Class RecordsOrder := {
  records_values : gmap PathKey BackupRecord → list BackupRecord;
  records_values_perm m : records_values m ≡ₚ (map_to_list m).*2;
}.

(** ** [backup.rs] and [space.rs] *)
Section backup.
Context {S : Type} `{Unicode} `{UuidText} `{TornWrite} `{Volume} `{Ambient S} `{TimestampText}.
Implicit Types path : PathBuf.
Open Scope run_scope.

(** [overflow_checks] tells whether the build checks additions. *)
Definition u64_add (overflow_checks : bool) (a b : u64) : Run S u64 :=
  if (a + b <=? u64_MAX)%N then run_ret (a + b)%N
  else if overflow_checks then run_panic
  else run_ret ((a + b) mod 18446744073709551616)%N.

Definition validate_disk_space_for (overflow_checks : bool) (backup_path source_path : PathBuf)
    (min_free_space : u64) : Run S unit :=
  file_size ⇐ run_os (λ e, backup_err ("failed to read metadata for "
                             +:+ to_string_lossy source_path +:+ ": " +:+ e)) (fs_len source_path);
  let check_path := default (default "/" (path_parent source_path)) (path_parent backup_path) in
  available ⇐ available_space check_path;
  required ⇐ u64_add overflow_checks file_size min_free_space;
  if (available <? required)%N then
    run_err (backup_err ("insufficient disk space for backup of " +:+ to_string_lossy source_path
      +:+ ": need " +:+ pretty required +:+ " bytes (file " +:+ pretty file_size +:+ " + reserve "
      +:+ pretty min_free_space +:+ "), have " +:+ pretty available +:+ " available"))
  else run_ret tt.

(** [now] is the time at which the name is made. *)
Definition backup_path_for (config : BackupConfig) path (unique_id : Uuid) (now : DateTime)
    : PathBuf :=
  let file_name := safe_file_name path in
  match (if BackupConfig_use_global_dir config then BackupConfig_backup_dir config else None) with
  | Some dir => path_join dir (Uuid_to_string unique_id +:+ "_" +:+ file_name)
  | None =>
      let parent := default "." (path_parent path) in
      path_join (path_join parent ".voom-backup")
        (file_name +:+ "." +:+ fmt_timestamp now +:+ ".vbak")
  end.

(** The uploads, with the records of those made so far. *)
Fixpoint upload_all (config : BackupConfig) path (size : u64) (id : Uuid)
    (upload_remote : RemoteUploadRequest → Run S RemoteUploadReceipt)
    (destinations : list BackupDestinationConfig) (remote_backups : list RemoteBackupRecord)
    : Run S (list RemoteBackupRecord) :=
  match destinations with
  | [] => run_ret remote_backups
  | destination :: destinations =>
      let continue remote_backups :=
        upload_all config path size id upload_remote destinations remote_backups in
      if negb (DestinationKind_is_rclone_backed (Destination_kind destination))
      then continue remote_backups
      else
        remote_path ⇐ run_lift (remote_path_for destination id path);
        λ w,
        match upload_remote {|
                Upload_destination := destination;
                Upload_source_path := path;
                Upload_remote_path := remote_path;
                Upload_expected_size := size;
                Upload_rclone_path := BackupConfig_rclone_path config;
                Upload_verify_after_upload := BackupConfig_verify_after_upload config;
              |} w with
        | (Panicked, w) => (Panicked, w)
        | (Returned (Ok receipt), w) =>
            continue (remote_backups ++
              [{| RemoteBackup_destination_name := Destination_name destination;
                  RemoteBackup_remote_path := remote_path;
                  RemoteBackup_verified := Receipt_verified receipt |}]) w
        | (Returned (Err e), w) =>
            if BackupConfig_block_on_remote_failure config then (Returned (Err e), w)
            else continue remote_backups w
        end
  end.

(** The checks, the directory and the copy: the size of the file. *)
Definition backup_copy path (backup_path : PathBuf)
    (validate_space : PathBuf → PathBuf → Run S unit) : Run S unit :=
  validate_space backup_path path ⨟
  match path_parent backup_path with
  | Some parent => run_os VoomError_Io (fs_create_dir_all parent)
  | None => run_ret tt
  end ⨟
  run_os (λ e, backup_err ("failed to copy " +:+ to_string_lossy path +:+ " to "
                 +:+ to_string_lossy backup_path +:+ ": " +:+ e)) (fs_copy path backup_path).

Definition backup_file_with_destinations (config : BackupConfig) path
    (validate_space : PathBuf → PathBuf → Run S unit)
    (upload_remote : RemoteUploadRequest → Run S RemoteUploadReceipt) : Run S BackupRecord :=
  symlink ⇐ run_os (λ e, backup_err ("cannot read " +:+ to_string_lossy path +:+ ": " +:+ e))
              (fs_query (λ files, match files !! path_key path with
                                  | Some _ => Ok (is_symlink files path)
                                  | None => Err no_such_file
                                  end));
  if (symlink : bool) then
    run_err (backup_err ("refusing to backup symlink: " +:+ to_string_lossy path))
  else
    size ⇐ run_os (λ e, backup_err ("cannot backup " +:+ to_string_lossy path +:+ ": " +:+ e))
             (fs_len path);
    λ w,
    let backup_id := new_v4 w in
    let backup_path := backup_path_for config path backup_id (utc_now w) in
    (backup_copy path backup_path validate_space ⨟
     remote_backups ⇐ upload_all config path size backup_id upload_remote
                        (BackupConfig_destinations config) [];
     λ w, (Returned (Ok {|
       BackupRecord_id := backup_id;
       BackupRecord_original_path := path;
       BackupRecord_backup_path := backup_path;
       BackupRecord_size := size;
       BackupRecord_created_at := utc_now w;
       BackupRecord_remote_backups := remote_backups;
       BackupRecord_retained := false;
     |}), w)) w.

Definition backup_backup_file `{CommandOutput} `{RcloneSizeJson} (config : BackupConfig) path
    (validate_space : PathBuf → PathBuf → Run S unit) : Run S BackupRecord :=
  backup_file_with_destinations config path validate_space upload_with_rclone.

(** [restore_from_paths]; [restore_file] of a record is the same copy. *)
Definition restore_from_paths (backup_path original_path : PathBuf) : Run S unit :=
  run_os (λ e, backup_err ("failed to restore " +:+ to_string_lossy original_path +:+ " from "
                 +:+ to_string_lossy backup_path +:+ ": " +:+ e)) (fs_copy backup_path original_path).

Definition backup_restore_file (record : BackupRecord) : Run S unit :=
  restore_from_paths (BackupRecord_backup_path record) (BackupRecord_original_path record).

Definition try_cleanup_parent_dir path (w : World S) : World S :=
  match path_parent path with
  | Some parent => (fs_remove_dir parent w).2
  | None => w
  end.

Definition remove_vbak_file path : Run S unit :=
  run_os (λ e, backup_err ("failed to remove backup " +:+ to_string_lossy path +:+ ": " +:+ e))
    (fs_remove path) ⨟
  λ w, (Returned (Ok tt), try_cleanup_parent_dir path w).

Definition backup_remove_backup (record : BackupRecord) : Run S unit :=
  remove_vbak_file (BackupRecord_backup_path record).

Fixpoint backup_cleanup_all (removed : u64) (records : list BackupRecord) : Run S u64 :=
  match records with
  | [] => run_ret removed
  | record :: records => λ w,
      let path := BackupRecord_backup_path record in
      if fs_exists path w then
        (run_os (λ e, backup_err ("failed to remove backup " +:+ to_string_lossy path +:+ ": " +:+ e))
           (fs_remove path) ⨟
         λ w, backup_cleanup_all (removed + 1)%N records (try_cleanup_parent_dir path w)) w
      else backup_cleanup_all removed records (try_cleanup_parent_dir path w)
  end.
End backup.

(** ** The plugin *)
Section plugin.
Context {S : Type} `{Unicode} `{UuidText} `{TornWrite} `{Volume} `{Ambient S} `{TimestampText}.
Context `{CommandOutput} `{RcloneSizeJson} `{InventoryJson} `{Sha256} `{RecordsOrder}.
Context `{BackupHost S} (overflow_checks : bool) (to_str : string → option string).
Implicit Types path : PathBuf.
Open Scope run_scope.

Definition plugin_state (w : World S) : BackupManagerPlugin := backup_get (w_store w).

Definition update_plugin (f : BackupManagerPlugin → BackupManagerPlugin) (w : World S) : World S :=
  Build_World (w_files w) (backup_set (f (plugin_state w)) (w_store w)) (w_faults w).

(** [self.records()] *)
Definition records : Run S (gmap PathKey BackupRecord) := λ w,
  (Returned (if Backup_poisoned (plugin_state w)
             then Err (backup_err "backup records lock poisoned")
             else Ok (Backup_records (plugin_state w))), w).

Definition set_records (r : gmap PathKey BackupRecord) : Run S unit := λ w,
  (Returned (Ok tt), update_plugin (Backup_set_records r) w).

(** A panic with the lock held. *)
Definition lock_held {A} (m : Run S A) : Run S A := λ w,
  match m w with
  | (Panicked, w) => (Panicked, update_plugin Backup_poison w)
  | r => r
  end.

Definition hex_encode (bytes : string) : string :=
  foldr (λ c s, fmt_hex_byte c +:+ s) "" (String.list_ascii_of_string bytes).

Definition compute_sha256 path : Run S string :=
  content ⇐ run_os (λ e, backup_err ("failed to open backup " +:+ to_string_lossy path +:+ ": " +:+ e))
              (fs_query (λ files, match files !! path_key path with
                                  | Some c => Ok c
                                  | None => Err no_such_file
                                  end));
  run_os (λ e, backup_err ("failed to read backup " +:+ to_string_lossy path +:+ ": " +:+ e))
    (fs_query (λ _, Ok (hex_encode (sha256_digest content)))).

Fixpoint persist_remotes (inventory : PathBuf) (record : BackupRecord)
    (remotes : list RemoteBackupRecord) : Run S unit :=
  match remotes with
  | [] => run_ret tt
  | remote :: remotes => λ w,
      let now := utc_now w in
      (sha256 ⇐ compute_sha256 (BackupRecord_backup_path record);
       RemoteBackupInventory_append inventory {|
         Inventory_backup_id := BackupRecord_id record;
         Inventory_original_path := BackupRecord_original_path record;
         Inventory_local_backup_path := BackupRecord_backup_path record;
         Inventory_destination_name := RemoteBackup_destination_name remote;
         Inventory_remote_path := RemoteBackup_remote_path remote;
         Inventory_size := BackupRecord_size record;
         Inventory_sha256 := Some sha256;
         Inventory_uploaded_at := now;
         Inventory_verified_at := if RemoteBackup_verified remote then Some now else None;
         Inventory_status := if RemoteBackup_verified remote then InventoryStatus_Verified
                             else InventoryStatus_Uploaded;
       |} ⨟
       persist_remotes inventory record remotes) w
  end.

Definition persist_remote_inventory (record : BackupRecord) : Run S unit := λ w,
  match Backup_inventory (plugin_state w) with
  | None => (Returned (Ok tt), w)
  | Some inventory => persist_remotes inventory record (BackupRecord_remote_backups record) w
  end.

(** The lock is taken after the backup is made and held to the end. *)
Definition Backup_backup_file path : Run S BackupRecord := λ w,
  let config := Backup_config (plugin_state w) in
  (record ⇐ backup_backup_file config path (λ backup_path source_path,
              validate_disk_space_for overflow_checks backup_path source_path
                (BackupConfig_min_free_space config));
   rs ⇐ records;
   lock_held (set_records (<[path_key path := record]> rs) ⨟
              persist_remote_inventory record) ⨟
   run_ret record) w.

Definition no_backup_found path : VoomError :=
  backup_err ("no backup found for " +:+ to_string_lossy path).

Definition Backup_restore_file path : Run S unit :=
  rs ⇐ records;
  match rs !! path_key path with
  | None => run_err (no_backup_found path)
  | Some record => backup_restore_file record ⨟ set_records (delete (path_key path) rs)
  end.

Definition Backup_remove_backup path : Run S unit :=
  rs ⇐ records;
  match rs !! path_key path with
  | None => run_err (no_backup_found path)
  | Some record => backup_remove_backup record ⨟ set_records (delete (path_key path) rs)
  end.

Definition Backup_validate_disk_space path : Run S unit := λ w,
  let config := Backup_config (plugin_state w) in
  validate_disk_space_for overflow_checks
    (backup_path_for config path (new_v4 w) (utc_now w)) path (BackupConfig_min_free_space config) w.

Definition Backup_has_backup path : Run S bool :=
  rs ⇐ records; run_ret (bool_decide (is_Some (rs !! path_key path))).

Definition Backup_active_backups : Run S (list BackupRecord) :=
  rs ⇐ records; run_ret (records_values rs).

Definition Backup_cleanup_all : Run S u64 :=
  rs ⇐ records;
  removed ⇐ backup_cleanup_all 0%N (records_values rs);
  records ⨟ set_records ∅ ⨟ run_ret removed.

(** ** Events *)
Definition backup_result (data : JValue) : EventResult :=
  let r := EventResult_new "backup-manager" in
  {| EventResult_plugin_name := EventResult_plugin_name r;
     EventResult_produced_events := EventResult_produced_events r;
     EventResult_data := Some data;
     EventResult_claimed := EventResult_claimed r;
     EventResult_execution_error := EventResult_execution_error r;
     EventResult_execution_detail := EventResult_execution_detail r |}.

(** [json!] of a path panics unless it is UTF-8. *)
Definition json_path (p : PathBuf) : Run S JValue :=
  match to_str p with
  | Some s => run_ret (JString s)
  | None => run_panic
  end.

Definition json_object (l : list (string * JValue)) : JValue := JObject (json_map_collect l).

Definition json_remote_backup (r : RemoteBackupRecord) : JValue :=
  json_object [("destination_name", JString (RemoteBackup_destination_name r));
               ("remote_path", JString (RemoteBackup_remote_path r));
               ("verified", JBool (RemoteBackup_verified r))].

Definition on_plan_executing (evt : PlanExecutingEvent) : Run S (option EventResult) :=
  let path := PlanExecutingEvent_path evt in
  has ⇐ Backup_has_backup path;
  if (has : bool) then run_ret None
  else
    record ⇐ Backup_backup_file path;
    jpath ⇐ json_path path;
    jbackup ⇐ json_path (BackupRecord_backup_path record);
    run_ret (Some (backup_result (json_object
      [("backed_up", JBool true); ("path", jpath);
       ("phase", JString (PlanExecutingEvent_phase_name evt)); ("backup_path", jbackup);
       ("remote_backups", JArray (json_remote_backup <$> BackupRecord_remote_backups record))]))).

Definition on_plan_completed (evt : PlanCompletedEvent) : Run S (option EventResult) :=
  let path := PlanCompletedEvent_path evt in
  if PlanCompletedEvent_keep_backups evt then λ w,
    (Returned (Ok None),
     if Backup_poisoned (plugin_state w) then w
     else update_plugin (λ p, Backup_set_records
            (alter BackupRecord_retain (path_key path) (Backup_records p)) p) w)
  else
    has ⇐ Backup_has_backup path;
    if (has : bool) then
      Backup_remove_backup path ⨟
      jpath ⇐ json_path path;
      run_ret (Some (backup_result (json_object
        [("backup_removed", JBool true); ("path", jpath);
         ("phase", JString (PlanCompletedEvent_phase_name evt))])))
    else run_ret None.

Definition on_plan_failed (evt : PlanFailedEvent) : Run S (option EventResult) :=
  let path := PlanFailedEvent_path evt in
  has ⇐ Backup_has_backup path;
  if (has : bool) then
    Backup_restore_file path ⨟
    jpath ⇐ json_path path;
    run_ret (Some (backup_result (json_object
      [("restored", JBool true); ("path", jpath);
       ("phase", JString (PlanFailedEvent_phase_name evt));
       ("error", JString (PlanFailedEvent_error evt))])))
  else run_ret None.

Definition Backup_on_event (event : Event) : Run S (option EventResult) :=
  match event with
  | Event_PlanExecuting evt => on_plan_executing evt
  | Event_PlanCompleted evt => on_plan_completed evt
  | Event_PlanFailed evt => on_plan_failed evt
  | _ => run_ret None
  end.

Definition Backup_handles (event_type : string) : bool :=
  bool_decide (event_type ∈ ["plan.executing"; "plan.completed"; "plan.failed"]).

(** [config] is what [ctx.parse_config()] gives. *)
Definition Backup_init (config : result VoomError BackupConfig) (data_dir : PathBuf)
    : Run S (list Event) :=
  config ⇐ run_lift config;
  run_lift (BackupConfig_validate config) ⨟
  λ w, (Returned (Ok []), update_plugin (λ p, {|
    Backup_config := config;
    Backup_records := Backup_records p;
    Backup_poisoned := Backup_poisoned p;
    Backup_inventory := Some (RemoteBackupInventory_default_path data_dir);
  |}) w).

Definition BackupPlugin : Plugin (World S) := {|
  Plugin_name := "backup-manager";
  Plugin_capabilities := [Capability_Backup];
  Plugin_handles := Backup_handles;
  Plugin_on_event := Backup_on_event;
  Plugin_on_call _ w :=
    (Returned (Err (VoomError_plugin "backup-manager"
       "plugin does not handle calls (no on_call override)")), w);
  Plugin_shutdown w := (Returned (Ok tt), w);
|}.
End plugin.
