(* ===== verification/Estimate.v ===== *)
(** * Estimates

    [crates/voom-domain/src/estimate.rs]: what a run of plans will cost and save,
    from samples of earlier transcodes; and the calibration of
    [crates/voom-cli/src/commands/estimate.rs]: samples from benchmarks and their
    accuracy.

    Sums are those of a release build: [u64] and [i64] wrap around. *)
From S2P Require Import Prelude Media Plan Process CropDetect.

(** ** Machine arithmetic *)
Definition two64 : N := 18446744073709551616.

Definition u64_wrapping_add (a b : u64) : u64 := ((a + b) mod two64)%N.

(** [Iterator::sum] *)
Definition u64_sum (l : list u64) : u64 := foldl u64_wrapping_add 0%N l.

(** The value of the lowest 64 bits in two's complement *)
Definition i64_wrap (z : Z) : Z :=
  let z := (z mod 18446744073709551616)%Z in
  if (z <? 9223372036854775808)%Z then z else (z - 18446744073709551616)%Z.

(** [n as i64] *)
Definition as_i64 (n : u64) : Z := i64_wrap (Z.of_N n).

Definition i64_wrapping_sub (a b : Z) : Z := i64_wrap (a - b).

Definition f64_add (a b : f64) : f64 := SFadd f64_prec f64_emax a b.

(** A decimal literal: the nearest float to [num / den] *)
Definition f64_ratio (num den : Z) : f64 := f64_div (f64_of_Z num) (f64_of_Z den).

(** [f64::round]: halves away from zero; the sign of a zero is kept. *)
Definition f64_round (x : f64) : f64 :=
  match x with
  | S754_finite s m e =>
      if (0 <=? e)%Z then x
      else
        let n := ((2 * Z.pos m + 2 ^ (- e)) / (2 * 2 ^ (- e)))%Z in
        if (n =? 0)%Z then S754_zero s else f64_of_Z (if s then (- n)%Z else n)
  | _ => x
  end.

(** [x as u64]: truncation towards zero, saturating; NaN gives 0. *)
Definition f64_as_u64 (x : f64) : u64 :=
  match x with
  | S754_zero _ | S754_nan => 0%N
  | S754_infinity s => if s then 0%N else u64_MAX
  | S754_finite true _ _ => 0%N
  | S754_finite false m e =>
      N.min u64_MAX (Z.to_N (if (0 <=? e)%Z then Z.pos m * 2 ^ e else Z.pos m / 2 ^ (- e)))
  end.

(** [f64::total_cmp]; a NaN is one with its sign bit clear. *)
Definition f64_total_leb (a b : f64) : bool :=
  match a, b with
  | _, S754_nan => true
  | S754_nan, _ => false
  | S754_zero s, S754_zero s' => s || negb s'
  | _, _ => f64_leb a b
  end.

Definition f64_total_le (a b : f64) : Prop := f64_total_leb a b = true.

#[export] Instance f64_total_le_dec a b : Decision (f64_total_le a b).
Proof. unfold f64_total_le. apply _. Defined.

(** ** Medians

    [values[values.len() / 2]] after sorting, of a vector with first value [x]; the
    index is in range ([median_sorted]). *)
Definition median {A} (R : A → A → Prop) `{!∀ a b, Decision (R a b)} (x : A) (l : list A) : A :=
  default x (merge_sort R (x :: l) !! (length (x :: l) / 2)).

Definition median_f64 (x : f64) (values : list f64) : f64 := median f64_total_le x values.
Definition median_u64 (x : u64) (values : list u64) : u64 := median N.le x values.

(** ** Samples *)
Record EstimateOperationKey : Type := {
  EstimateOperationKey_phase_name : string;
  EstimateOperationKey_codec : string;
  EstimateOperationKey_preset : string;
  EstimateOperationKey_backend : string;
}.

#[export] Instance EstimateOperationKey_eq_dec : EqDecision EstimateOperationKey.
Proof. solve_decision. Defined.

Record CostModelSample : Type := {
  CostModelSample_id : Uuid;
  CostModelSample_key : EstimateOperationKey;
  CostModelSample_pixels_per_second : f64;
  CostModelSample_output_size_ratio : f64;
  CostModelSample_fixed_overhead_ms : u64;
  CostModelSample_completed_at : DateTime;
}.

Record EstimateModel : Type := { EstimateModel_samples : list CostModelSample }.

Definition EstimateModel_samples_for (model : EstimateModel) (key : EstimateOperationKey)
    : list CostModelSample :=
  List.filter (λ sample, bool_decide (CostModelSample_key sample = key)) (EstimateModel_samples model).

(** ** Estimates *)
Record EstimateInput : Type := {
  EstimateInput_plans : list Plan;
  EstimateInput_workers : usize;
  EstimateInput_estimated_at : DateTime;
}.

Record ActionEstimate : Type := {
  ActionEstimate_operation : OperationType;
  ActionEstimate_codec : option string;
  ActionEstimate_backend : option string;
  ActionEstimate_bytes_out : u64;
  ActionEstimate_compute_time_ms : u64;
  ActionEstimate_high_uncertainty : bool;
}.

Record FileEstimate : Type := {
  FileEstimate_file_id : Uuid;
  FileEstimate_path : string;
  FileEstimate_phase_name : string;
  FileEstimate_bytes_in : u64;
  FileEstimate_bytes_out : u64;
  FileEstimate_bytes_saved : Z;
  FileEstimate_compute_time_ms : u64;
  FileEstimate_high_uncertainty : bool;
  FileEstimate_net_byte_loss : bool;
  FileEstimate_actions : list ActionEstimate;
}.

Record EstimateRun : Type := {
  EstimateRun_id : Uuid;
  EstimateRun_estimated_at : DateTime;
  EstimateRun_file_count : usize;
  EstimateRun_bytes_in : u64;
  EstimateRun_bytes_out : u64;
  EstimateRun_bytes_saved : Z;
  EstimateRun_compute_time_ms : u64;
  EstimateRun_wall_time_ms : u64;
  EstimateRun_high_uncertainty_files : usize;
  EstimateRun_net_loss_files : usize;
  EstimateRun_files : list FileEstimate;
}.

Definition DEFAULT_FIXED_ACTION_MS : u64 := 500.
Definition DEFAULT_TRANSCODE_PIXELS_PER_SECOND : f64 := f64_of_Z 2000000.
Definition DEFAULT_TRANSCODE_SIZE_RATIO : f64 := f64_ratio 65 100.

Record TranscodeProfile : Type := {
  TranscodeProfile_pixels_per_second : f64;
  TranscodeProfile_output_size_ratio : f64;
  TranscodeProfile_fixed_overhead_ms : u64;
}.

Definition TranscodeProfile_from_samples (samples : list CostModelSample) : TranscodeProfile :=
  match samples with
  | [] => {|
      TranscodeProfile_pixels_per_second := DEFAULT_TRANSCODE_PIXELS_PER_SECOND;
      TranscodeProfile_output_size_ratio := DEFAULT_TRANSCODE_SIZE_RATIO;
      TranscodeProfile_fixed_overhead_ms := DEFAULT_FIXED_ACTION_MS;
    |}
  | s :: l => {|
      TranscodeProfile_pixels_per_second :=
        median_f64 (CostModelSample_pixels_per_second s) (CostModelSample_pixels_per_second <$> l);
      TranscodeProfile_output_size_ratio :=
        median_f64 (CostModelSample_output_size_ratio s) (CostModelSample_output_size_ratio <$> l);
      TranscodeProfile_fixed_overhead_ms :=
        median_u64 (CostModelSample_fixed_overhead_ms s) (CostModelSample_fixed_overhead_ms <$> l);
    |}
  end.

(** The first video track whose width and height are known *)
Definition video_dimensions (plan : Plan) : option (u32 * u32) :=
  head (omap (λ t, w ← Track_width t; h ← Track_height t; Some (w, h))
          (MediaFile_video_tracks (Plan_file plan))).

Definition missing_video_dimensions (plan : Plan) : bool :=
  bool_decide (video_dimensions plan = None)
  || f64_leb (MediaFile_duration (Plan_file plan)) (f64_of_Z 0).

Definition at_least_a_second (plan : Plan) : f64 :=
  f64_max (MediaFile_duration (Plan_file plan)) (f64_of_Z 1).

Definition duration_fallback_ms (plan : Plan) (profile : TranscodeProfile) : u64 :=
  u64_wrapping_add
    (f64_as_u64 (f64_round (f64_mul (at_least_a_second plan) (f64_of_Z 1000))))
    (TranscodeProfile_fixed_overhead_ms profile).

Definition estimate_transcode_ms (plan : Plan) (profile : TranscodeProfile) : u64 :=
  match video_dimensions plan with
  | None =>
      u64_wrapping_add (TranscodeProfile_fixed_overhead_ms profile) (duration_fallback_ms plan profile)
  | Some (width, height) =>
      let pixels := f64_mul (f64_mul (f64_of_N width) (f64_of_N height)) (at_least_a_second plan) in
      let encode_ms :=
        f64_as_u64 (f64_round (f64_mul (f64_div pixels (TranscodeProfile_pixels_per_second profile))
                                 (f64_of_Z 1000))) in
      u64_wrapping_add (TranscodeProfile_fixed_overhead_ms profile) encode_ms
  end.

Definition estimate_action (model : EstimateModel) (plan : Plan) (action : PlannedAction)
    : ActionEstimate :=
  match PlannedAction_parameters action with
  | AP_Transcode codec settings =>
      let preset := default "default" (TranscodeSettings_preset settings) in
      let backend := default "software" (TranscodeSettings_hw settings) in
      let key := {| EstimateOperationKey_phase_name := Plan_phase_name plan;
                    EstimateOperationKey_codec := codec;
                    EstimateOperationKey_preset := preset;
                    EstimateOperationKey_backend := backend |} in
      let samples := EstimateModel_samples_for model key in
      let profile := TranscodeProfile_from_samples samples in {|
        ActionEstimate_operation := PlannedAction_operation action;
        ActionEstimate_codec := Some codec;
        ActionEstimate_backend := Some backend;
        ActionEstimate_bytes_out :=
          f64_as_u64 (f64_round (f64_mul (f64_of_N (MediaFile_size (Plan_file plan)))
                                   (TranscodeProfile_output_size_ratio profile)));
        ActionEstimate_compute_time_ms := estimate_transcode_ms plan profile;
        ActionEstimate_high_uncertainty := (length samples <? 5)%nat || missing_video_dimensions plan;
      |}
  | _ => {|
      ActionEstimate_operation := PlannedAction_operation action;
      ActionEstimate_codec := None;
      ActionEstimate_backend := None;
      ActionEstimate_bytes_out := MediaFile_size (Plan_file plan);
      ActionEstimate_compute_time_ms := DEFAULT_FIXED_ACTION_MS;
      ActionEstimate_high_uncertainty := false;
    |}
  end.

(** [Iterator::max] *)
Definition max_of (l : list u64) : option u64 :=
  match l with [] => None | x :: l => Some (foldl N.max x l) end.

Section estimates.
Context `{Unicode}.

Definition estimate_file (model : EstimateModel) (plan : Plan) : FileEstimate :=
  let file := Plan_file plan in
  let actions := estimate_action model plan <$> Plan_actions plan in
  let bytes_out := default (MediaFile_size file) (max_of (ActionEstimate_bytes_out <$> actions)) in
  let bytes_saved := i64_wrapping_sub (as_i64 (MediaFile_size file)) (as_i64 bytes_out) in {|
    FileEstimate_file_id := MediaFile_id file;
    FileEstimate_path := to_string_lossy (MediaFile_path file);
    FileEstimate_phase_name := Plan_phase_name plan;
    FileEstimate_bytes_in := MediaFile_size file;
    FileEstimate_bytes_out := bytes_out;
    FileEstimate_bytes_saved := bytes_saved;
    FileEstimate_compute_time_ms := u64_sum (ActionEstimate_compute_time_ms <$> actions);
    FileEstimate_high_uncertainty := existsb ActionEstimate_high_uncertainty actions;
    FileEstimate_net_byte_loss := (bytes_saved <? 0)%Z;
    FileEstimate_actions := actions;
  |}.

(** [id] is the new identifier of the run. *)
Definition estimate_plans (id : Uuid) (input : EstimateInput) (model : EstimateModel) : EstimateRun :=
  let files := estimate_file model <$> EstimateInput_plans input in
  let bytes_in := u64_sum (FileEstimate_bytes_in <$> files) in
  let bytes_out := u64_sum (FileEstimate_bytes_out <$> files) in
  let compute_time_ms := u64_sum (FileEstimate_compute_time_ms <$> files) in
  let workers := N.of_nat (Nat.max (EstimateInput_workers input) 1) in {|
    EstimateRun_id := id;
    EstimateRun_estimated_at := EstimateInput_estimated_at input;
    EstimateRun_file_count := length files;
    EstimateRun_bytes_in := bytes_in;
    EstimateRun_bytes_out := bytes_out;
    EstimateRun_bytes_saved := i64_wrapping_sub (as_i64 bytes_in) (as_i64 bytes_out);
    EstimateRun_compute_time_ms := compute_time_ms;
    EstimateRun_wall_time_ms := div_ceil compute_time_ms workers;
    EstimateRun_high_uncertainty_files := length (List.filter FileEstimate_high_uncertainty files);
    EstimateRun_net_loss_files := length (List.filter FileEstimate_net_byte_loss files);
    EstimateRun_files := files;
  |}.
End estimates.

(** ** Calibration: [commands/estimate.rs] *)
Definition transcode_key (phase_name codec preset backend : string) : EstimateOperationKey :=
  Build_EstimateOperationKey phase_name codec preset backend.

(** [ids] are the new identifiers of the samples. *)
Definition default_calibration_samples (ids : Uuid * Uuid * Uuid) (completed_at : DateTime)
    : list CostModelSample :=
  let '(id1, id2, id3) := ids in
  [Build_CostModelSample id1 (transcode_key "video" "hevc" "slow" "software") (f64_of_Z 1500000)
     (f64_ratio 55 100) 1000 completed_at;
   Build_CostModelSample id2 (transcode_key "video" "hevc" "slow" "nvenc") (f64_of_Z 5000000)
     (f64_ratio 60 100) 1000 completed_at;
   Build_CostModelSample id3 (transcode_key "video" "av1" "slow" "software") (f64_of_Z 750000)
     (f64_ratio 45 100) 1000 completed_at].

Record CalibrationBenchmarkResult : Type := {
  Benchmark_width : u32;
  Benchmark_height : u32;
  Benchmark_duration_seconds : f64;
  Benchmark_input_bytes : u64;
  Benchmark_output_bytes : u64;
  Benchmark_elapsed_ms : u64;
  Benchmark_completed_at : DateTime;
}.

Definition benchmark_pixels (result : CalibrationBenchmarkResult) : f64 :=
  f64_mul (f64_mul (f64_of_N (Benchmark_width result)) (f64_of_N (Benchmark_height result)))
    (Benchmark_duration_seconds result).

Definition cost_model_sample_from_benchmark (id : Uuid) (result : CalibrationBenchmarkResult)
    : CostModelSample :=
  let elapsed_seconds :=
    f64_max (f64_div (f64_of_N (Benchmark_elapsed_ms result)) (f64_of_Z 1000)) (f64_ratio 1 1000) in {|
    CostModelSample_id := id;
    CostModelSample_key := transcode_key "video" "hevc" "slow" "software";
    CostModelSample_pixels_per_second := f64_div (benchmark_pixels result) elapsed_seconds;
    CostModelSample_output_size_ratio :=
      f64_div (f64_of_N (Benchmark_output_bytes result))
        (f64_of_N (N.max (Benchmark_input_bytes result) 1));
    CostModelSample_fixed_overhead_ms := 0;
    CostModelSample_completed_at := Benchmark_completed_at result;
  |}.

Record EstimateAccuracyReport : Type := {
  Accuracy_fixtures : usize;
  Accuracy_validation_fixtures : usize;
  Accuracy_total_savings_error : f64;
  Accuracy_total_bytes_error : f64;
  Accuracy_total_time_error : f64;
  Accuracy_max_bytes_error : f64;
  Accuracy_max_time_error : f64;
}.

Definition ratio_error (estimated actual : f64) : f64 :=
  if f64_leb actual (f64_of_Z 0) then f64_of_Z 0
  else f64_div (f64_abs (f64_sub estimated actual)) actual.

(** The median panics on an empty vector: [None]. *)
Definition median_of (values : list f64) : option f64 :=
  match values with [] => None | x :: l => Some (median_f64 x l) end.

Definition estimate_bytes (result : CalibrationBenchmarkResult) (samples : list CostModelSample)
    : option f64 :=
  output_size_ratio ← median_of (CostModelSample_output_size_ratio <$> samples);
  Some (f64_round (f64_mul (f64_of_N (Benchmark_input_bytes result)) output_size_ratio)).

Definition estimate_ms (result : CalibrationBenchmarkResult) (samples : list CostModelSample)
    : option f64 :=
  pixels_per_second ← median_of (CostModelSample_pixels_per_second <$> samples);
  Some (f64_mul (f64_div (benchmark_pixels result) pixels_per_second) (f64_of_Z 1000)).

(** Identifiers of samples are not used here: all are 0. *)
Definition holdout_samples (results : list CalibrationBenchmarkResult) (holdout_index : usize)
    : list CostModelSample :=
  cost_model_sample_from_benchmark 0 <$>
    (take holdout_index results ++ drop (S holdout_index) results).

(** The mutable variables of the loop *)
Record AccuracySums : Type := {
  sum_estimated_bytes : f64;
  sum_actual_bytes : f64;
  sum_input_bytes : f64;
  sum_estimated_ms : f64;
  sum_actual_ms : f64;
  sum_max_bytes_error : f64;
  sum_max_time_error : f64;
}.

Definition accuracy_step (results : list CalibrationBenchmarkResult) (acc : option AccuracySums)
    (entry : usize * CalibrationBenchmarkResult) : option AccuracySums :=
  let '(index, result) := entry in
  sums ← acc;
  let samples := holdout_samples results index in
  bytes ← estimate_bytes result samples;
  time ← estimate_ms result samples;
  let output_bytes := f64_of_N (Benchmark_output_bytes result) in
  let elapsed_ms := f64_of_N (Benchmark_elapsed_ms result) in
  Some {|
    sum_estimated_bytes := f64_add (sum_estimated_bytes sums) bytes;
    sum_actual_bytes := f64_add (sum_actual_bytes sums) output_bytes;
    sum_input_bytes := f64_add (sum_input_bytes sums) (f64_of_N (Benchmark_input_bytes result));
    sum_estimated_ms := f64_add (sum_estimated_ms sums) time;
    sum_actual_ms := f64_add (sum_actual_ms sums) elapsed_ms;
    sum_max_bytes_error := f64_max (sum_max_bytes_error sums) (ratio_error bytes output_bytes);
    sum_max_time_error := f64_max (sum_max_time_error sums) (ratio_error time elapsed_ms);
  |}.

Definition accuracy_report_from_benchmarks (results : list CalibrationBenchmarkResult)
    : option EstimateAccuracyReport :=
  let zero := f64_of_Z 0 in
  if (length results <? 2)%nat then
    Some (Build_EstimateAccuracyReport (length results) 0 zero zero zero zero zero)
  else
    sums ← foldl (accuracy_step results) (Some (Build_AccuracySums zero zero zero zero zero zero zero))
             (imap pair results);
    Some {|
      Accuracy_fixtures := length results;
      Accuracy_validation_fixtures := length results;
      Accuracy_total_savings_error :=
        ratio_error (f64_sub (sum_input_bytes sums) (sum_estimated_bytes sums))
          (f64_sub (sum_input_bytes sums) (sum_actual_bytes sums));
      Accuracy_total_bytes_error := ratio_error (sum_estimated_bytes sums) (sum_actual_bytes sums);
      Accuracy_total_time_error := ratio_error (sum_estimated_ms sums) (sum_actual_ms sums);
      Accuracy_max_bytes_error := sum_max_bytes_error sums;
      Accuracy_max_time_error := sum_max_time_error sums;
    |}.

(** ** Properties *)

(** The index of a median is in range. *)
Lemma median_sorted {A} (R : A → A → Prop) `{!∀ a b, Decision (R a b)} x l :
  merge_sort R (x :: l) !! (length (x :: l) / 2) = Some (median R x l).
Proof.
  unfold median. destruct (lookup_lt_is_Some_2 (merge_sort R (x :: l)) (length (x :: l) / 2)) as [y ->];
    [|done].
  rewrite (Permutation_length (merge_sort_Permutation R (x :: l))).
  apply Nat.div_lt; simpl; lia.
Qed.

Lemma median_elem {A} (R : A → A → Prop) `{!∀ a b, Decision (R a b)} x l : median R x l ∈ x :: l.
Proof.
  rewrite <-(merge_sort_Permutation R (x :: l)). eapply list_elem_of_lookup_2, median_sorted.
Qed.

(** The report of an accuracy never panics: with two results or more, some sample is
    left when one is held out. *)
Lemma holdout_not_empty results i : 2 ≤ length results → holdout_samples results i ≠ [].
Proof.
  intros Hl He. apply fmap_nil_inv in He. apply (f_equal length) in He.
  rewrite length_app, length_take, length_drop in He. simpl in He. lia.
Qed.

Lemma accuracy_step_total results sums entry :
  2 ≤ length results → is_Some (accuracy_step results (Some sums) entry).
Proof.
  intros Hl. destruct entry as [i result]. unfold accuracy_step, estimate_bytes, estimate_ms. cbn.
  pose proof (holdout_not_empty results i Hl) as Hn. by destruct (holdout_samples results i).
Qed.

Lemma accuracy_report_total results : is_Some (accuracy_report_from_benchmarks results).
Proof.
  unfold accuracy_report_from_benchmarks. case_match eqn:Hl; [done|]. apply Nat.ltb_ge in Hl.
  assert (Hf : ∀ l acc, is_Some acc → is_Some (foldl (accuracy_step results) acc l)).
  { intros l. induction l as [|e l IH]; intros acc [sums ->]; [by eexists|]. cbn [foldl].
    by apply IH, accuracy_step_total. }
  match goal with |- context [foldl _ ?acc ?l] =>
    destruct (Hf l acc ltac:(by eexists)) as [sums ->] end. by eexists.
Qed.

(** Within their width machine sums are exact. *)
Lemma u64_sum_acc l a :
  (a + foldr N.add 0 l < two64 → foldl u64_wrapping_add a l = a + foldr N.add 0 l)%N.
Proof.
  revert a. induction l as [|x l IH]; intros a Ha; cbn [foldl foldr] in *; [by rewrite N.add_0_r|].
  unfold u64_wrapping_add at 2. rewrite N.mod_small by lia. rewrite IH; lia.
Qed.

Lemma u64_sum_exact l : (foldr N.add 0 l < two64 → u64_sum l = foldr N.add 0 l)%N.
Proof. intros Hl. unfold u64_sum. by rewrite u64_sum_acc by (rewrite N.add_0_l; exact Hl). Qed.

Lemma i64_wrap_id z : (-9223372036854775808 <= z < 9223372036854775808 → i64_wrap z = z)%Z.
Proof.
  intros Hz. unfold i64_wrap. cbv zeta. destruct (Z.ltb_spec (z mod 18446744073709551616) 9223372036854775808) as [Hl|Hl];
    Z.div_mod_to_equations; lia.
Qed.

Lemma as_i64_id n : (n < 9223372036854775808)%N → as_i64 n = Z.of_N n.
Proof. intros Hn. apply i64_wrap_id. lia. Qed.

Lemma i64_sub_id a b :
  (a < 9223372036854775808)%N → (b < 9223372036854775808)%N →
  i64_wrapping_sub (as_i64 a) (as_i64 b) = (Z.of_N a - Z.of_N b)%Z.
Proof. intros Ha Hb. rewrite !as_i64_id by done. apply i64_wrap_id. lia. Qed.

Lemma max_of_ge l x m : x ∈ l → max_of l = Some m → (x <= m)%N.
Proof.
  destruct l as [|y l]; [done|]. cbn. intros Hx [= <-].
  assert (Hm : ∀ k a, (a <= foldl N.max a k)%N).
  { intros k. induction k as [|z k IH]; intros a; cbn; [lia|]. etrans; [|apply IH]. lia. }
  revert y Hx. induction l as [|z l IH]; intros y Hx; cbn; [set_solver by lia|].
  apply elem_of_cons in Hx as [->|Hx]; [etrans; [|apply Hm]; lia|].
  apply elem_of_cons in Hx as [->|Hx]; [etrans; [|apply Hm]; lia|].
  apply IH. set_solver.
Qed.

Lemma div_ceil_bounds a b : (0 < b → a <= b * div_ceil a b < a + b)%N.
Proof.
  intros Hb. unfold div_ceil. pose proof (N.div_mod' (a + b - 1) b) as Hd.
  pose proof (N.mod_lt (a + b - 1) b ltac:(lia)) as Hm.
  generalize dependent ((a + b - 1) / b)%N. generalize dependent ((a + b - 1) mod b)%N.
  intros r Hr q Hq. generalize dependent (b * q)%N. lia.
Qed.

Section facts.
Context `{Unicode}.
Implicit Types (plan : Plan) (model : EstimateModel).

Definition is_transcode (a : PlannedAction) : bool :=
  match PlannedAction_parameters a with AP_Transcode _ _ => true | _ => false end.

(** A plan with an action that is no transcode is never estimated to save anything:
    the estimated size is the largest of its actions', and of such an action it is
    the size of the file. *)
Lemma mixed_plan_saves_nothing model plan a :
  a ∈ Plan_actions plan → is_transcode a = false →
  (MediaFile_size (Plan_file plan) < 9223372036854775808)%N →
  (FileEstimate_bytes_out (estimate_file model plan) < 9223372036854775808)%N →
  (FileEstimate_bytes_saved (estimate_file model plan) <= 0)%Z.
Proof.
  intros Ha Hnt Hs Ho. unfold estimate_file in *. cbn in *. rewrite i64_sub_id by done.
  destruct (max_of (ActionEstimate_bytes_out <$> (estimate_action model plan <$> Plan_actions plan)))
    as [m|] eqn:Hm; cbn in *; [|lia].
  eapply (max_of_ge _ (MediaFile_size (Plan_file plan))) in Hm; [lia|].
  rewrite <-list_fmap_compose. apply list_elem_of_fmap. exists a. split; [|done].
  unfold is_transcode in Hnt. cbn. unfold estimate_action. by destruct (PlannedAction_parameters a).
Qed.

Lemma saved_total files :
  Forall (λ f, FileEstimate_bytes_saved f
               = Z.of_N (FileEstimate_bytes_in f) - Z.of_N (FileEstimate_bytes_out f))%Z files →
  (foldr Z.add 0 (FileEstimate_bytes_saved <$> files)
   = Z.of_N (foldr N.add 0%N (FileEstimate_bytes_in <$> files))
     - Z.of_N (foldr N.add 0%N (FileEstimate_bytes_out <$> files)))%Z.
Proof. induction 1 as [|f l Hf _ IH]; cbn; [done|]. rewrite Hf, IH. lia. Qed.

Lemma summand_le l x : x ∈ l → (x <= foldr N.add 0 l)%N.
Proof. induction l as [|y l IH]; cbn; [set_solver|]. intros [->|Hx]%elem_of_cons; [lia|]. specialize (IH Hx). lia. Qed.

(** Within the widths of the totals an estimate adds up: the bytes saved are the sum
    over the plans, and the wall time is the least that gives the workers enough
    time. *)
Lemma estimate_adds_up id input model :
  let run := estimate_plans id input model in
  let files := EstimateRun_files run in
  let total {A} (f : FileEstimate → A) := f <$> files in
  (foldr N.add 0 (total FileEstimate_bytes_in) < 9223372036854775808)%N →
  (foldr N.add 0 (total FileEstimate_bytes_out) < 9223372036854775808)%N →
  (foldr N.add 0 (total FileEstimate_compute_time_ms) < two64)%N →
  EstimateRun_bytes_saved run = foldr Z.add 0%Z (total FileEstimate_bytes_saved) ∧
  EstimateRun_compute_time_ms run = foldr N.add 0%N (total FileEstimate_compute_time_ms) ∧
  let workers := N.of_nat (Nat.max (EstimateInput_workers input) 1) in
  (EstimateRun_compute_time_ms run <= workers * EstimateRun_wall_time_ms run
   < EstimateRun_compute_time_ms run + workers)%N.
Proof.
  intros run files total Hi Ho Ht. split_and!.
  - unfold run, estimate_plans. cbn. change (estimate_file model <$> EstimateInput_plans input) with files.
    unfold two64 in *. rewrite !u64_sum_exact by (unfold two64; subst total; cbn in *; lia).
    rewrite i64_sub_id by done. symmetry. apply saved_total, Forall_forall. intros f Hf.
    assert (Hin : (FileEstimate_bytes_in f < 9223372036854775808)%N)
      by (eapply N.le_lt_trans; [|exact Hi]; by apply summand_le, list_elem_of_fmap_2).
    assert (Hout : (FileEstimate_bytes_out f < 9223372036854775808)%N)
      by (eapply N.le_lt_trans; [|exact Ho]; by apply summand_le, list_elem_of_fmap_2).
    clear Hi Ho Ht. apply list_elem_of_fmap in Hf as (plan & -> & _). by apply i64_sub_id.
  - unfold run, estimate_plans. cbn. change (estimate_file model <$> EstimateInput_plans input) with files.
    by apply u64_sum_exact.
  - apply div_ceil_bounds. lia.
Qed.
End facts.
