(* ===== verification/PolicyMap.v ===== *)
(** * The policy of a file

    [crates/voom-cli/src/policy_map.rs] with the resolution of policy paths of
    [config.rs] and the choice of a resolver of [commands/process/mod.rs]: which
    policy applies to which file. An error of [anyhow] is its outermost message; the
    outer [option] of a result is a panic of the code. *)
From S2P Require Import Prelude Media Plan Compiled Ast TopoSort Compiler Composition Formatter.
From S2P Require Import Parser Pipeline Process Transitions MkvFacts FfmpegCommand FfmpegFacts.

(** ** Paths *)

(** [Path::join] *)
Definition path_push (base path : PathBuf) : PathBuf :=
  if path_is_absolute path then path else path_join base path.

(** Leading separators and [.] components *)
Fixpoint skip_separators (s : string) : string :=
  match s with
  | EmptyString => EmptyString
  | String c s' =>
      if bool_decide (c = slash) then skip_separators s'
      else if bool_decide (c = dot) then
        match s' with
        | EmptyString => EmptyString
        | String d _ => if bool_decide (d = slash) then skip_separators s' else s
        end
      else s
  end.

(** What follows the first component *)
Fixpoint skip_component (s : string) : string :=
  match s with
  | EmptyString => EmptyString
  | String c s' => if bool_decide (c = slash) then s else skip_component s'
  end.

(** [Path::strip_prefix]. The parts of a [.] at the start are separators here. *)
Definition path_strip_prefix (p base : PathBuf) : option PathBuf :=
  if negb (path_starts_with p base) then None
  else
    let names := List.filter (λ c, negb (bool_decide (c = "."))) (path_components base) in
    let trim s := of_bytes_rev (trim_path_rev (bytes_rev s)) in
    Some (if bool_decide (path_all_components base = []) then trim p
          else skip_separators
                 (trim (Nat.iter (length names) (λ s, skip_component (skip_separators s)) p))).

(** ** Configuration

    [policies_dir] is the directory of policies of the user; [policy_path_exists] is
    [Path::exists]; [toml_from_str] reads a policy map. *)
Record MappingEntry : Type := {
  MappingEntry_prefix : string;
  MappingEntry_policy : option string;
  MappingEntry_skip : option bool;
}.

Record PolicyMapFile : Type := {
  PolicyMapFile_default : option string;
  PolicyMapFile_mapping : list MappingEntry;
}.

Class PolicyEnv := {
  policies_dir : PathBuf;
  policy_path_exists : PathBuf → bool;
  toml_from_str : string → result string PolicyMapFile;
}.

(** The fields of [AppConfig] that choose policies. *)
Record AppConfig : Type := {
  AppConfig_default_policy : option string;
  AppConfig_policy_mapping : list MappingEntry;
}.

(** [path.parent()] of a bare file name is the empty path. *)
Definition resolve_policy_path `{PolicyEnv} (path : PathBuf) : PathBuf :=
  if policy_path_exists path then path
  else if match path_parent path with
          | Some p => negb (path_eqb p "")
          | None => false
          end then path
  else
    let candidate := path_push policies_dir path in
    if policy_path_exists candidate then candidate else path.

(** ** Resolvers *)
Inductive DefaultAction : Type :=
| DefaultAction_Policy (idx : usize)
| DefaultAction_Skip
| DefaultAction_None.

Inductive MappingAction : Type :=
| MappingAction_Policy (idx : usize)
| MappingAction_Skip.

Record ResolvedMapping : Type := {
  ResolvedMapping_prefix : PathBuf;
  ResolvedMapping_action : MappingAction;
}.

Record PolicyResolver : Type := {
  PolicyResolver_root : PathBuf;
  PolicyResolver_mappings : list ResolvedMapping;
  PolicyResolver_default : DefaultAction;
  PolicyResolver_policies : list (string * CompiledPolicy);
}.

Inductive PolicyMatch : Type :=
| PolicyMatch_Policy (compiled : CompiledPolicy) (name : string)
| PolicyMatch_Skip.

Definition PolicyResolver_from_single (compiled : CompiledPolicy) (root : PathBuf) : PolicyResolver := {|
  PolicyResolver_root := root;
  PolicyResolver_mappings := [];
  PolicyResolver_default := DefaultAction_Policy 0;
  PolicyResolver_policies := [(CompiledPolicy_name compiled, compiled)];
|}.

(** The stable sort by the length of the prefix, longest first *)
Fixpoint insert_mapping (m : ResolvedMapping) (l : list ResolvedMapping) : list ResolvedMapping :=
  match l with
  | [] => [m]
  | n :: l' =>
      if String.length (ResolvedMapping_prefix n) <=? String.length (ResolvedMapping_prefix m)
      then m :: l else n :: insert_mapping m l'
  end%nat.

Definition sort_mappings (l : list ResolvedMapping) : list ResolvedMapping := foldr insert_mapping [] l.

Section resolver.
Context `{Pest} `{PolicySources, SourceHash, F64Display, RegexCrate, ValueDebug, PartitionPoint, HashOrder}.
Context `{Unicode} `{StrDebug} `{PolicyEnv}.

Definition MappingEntry_validate (entry : MappingEntry) : result string unit :=
  let has_policy := bool_decide (is_Some (MappingEntry_policy entry)) in
  let has_skip := bool_decide (MappingEntry_skip entry = Some true) in
  let prefix := str_debug (MappingEntry_prefix entry) in
  if has_policy && has_skip then
    Err ("mapping for prefix " +:+ prefix +:+ " has both `policy` and `skip = true`; "
         +:+ "use one or the other")
  else if negb has_policy && negb has_skip then
    Err ("mapping for prefix " +:+ prefix +:+ " must have either `policy` or `skip = true`")
  else Ok tt.

Definition resolve_policy_in_context (name : string) (base_dir : option PathBuf) : PathBuf :=
  match base_dir with
  | Some base =>
      let candidate := path_push base name in
      if policy_path_exists candidate then candidate else resolve_policy_path name
  | None => resolve_policy_path name
  end.

(** [seen.insert(p)] and [policy_paths.push(p)]: the paths are the set. *)
Definition push_unique (paths : list string) (p : string) : list string :=
  if bool_decide (p ∈ paths) then paths else paths ++ [p].

Definition policy_paths_of (default : option string) (entries : list MappingEntry) : list string :=
  let paths := match default with
               | Some d => if bool_decide (d = "skip") then [] else [d]
               | None => []
               end in
  foldl (λ paths entry, match MappingEntry_policy entry with
                        | Some p => push_unique paths p
                        | None => paths
                        end) paths entries.

Definition compile_named (fuel : nat) (base_dir : option PathBuf) (name : string)
    : option (result string CompiledPolicy) :=
  let resolved := resolve_policy_in_context name base_dir in
  r ← compile_policy_file fuel resolved;
  Some (match r with
        | Ok compiled => Ok compiled
        | Err _ => Err ("failed to compile policy: " +:+ to_string_lossy resolved)
        end).

(** The loop that compiles: [acc] is [policies], whose positions [path_to_index] holds. *)
Fixpoint compile_policies (fuel : nat) (base_dir : option PathBuf) (paths : list string)
    (acc : list (string * CompiledPolicy)) : option (result string (list (string * CompiledPolicy))) :=
  match paths with
  | [] => Some (Ok acc)
  | name :: paths =>
      r ← compile_named fuel base_dir name;
      match r with
      | Err e => Some (Err e)
      | Ok compiled => compile_policies fuel base_dir paths (acc ++ [(name, compiled)])
      end
  end.

Definition path_index (policies : list (string * CompiledPolicy)) : gmap string usize :=
  list_to_map (imap (λ i p, (p.1, i)) policies).

Definition default_action_of (index : gmap string usize) (default : option string)
    : option DefaultAction :=
  match default with
  | Some d =>
      if bool_decide (d = "skip") then Some DefaultAction_Skip
      else idx ← index !! d; Some (DefaultAction_Policy idx)
  | None => Some DefaultAction_None
  end.

Definition resolve_entry (index : gmap string usize) (entry : MappingEntry) : option ResolvedMapping :=
  action ← (if bool_decide (MappingEntry_skip entry = Some true) then Some MappingAction_Skip
            else name ← MappingEntry_policy entry; idx ← index !! name; Some (MappingAction_Policy idx));
  Some {| ResolvedMapping_prefix := MappingEntry_prefix entry; ResolvedMapping_action := action |}.

Definition PolicyResolver_build (fuel : nat) (default : option string) (entries : list MappingEntry)
    (root : PathBuf) (base_dir : option PathBuf) : option (result string PolicyResolver) :=
  match try_map MappingEntry_validate entries with
  | Err e => Some (Err e)
  | Ok _ =>
      r ← compile_policies fuel base_dir (policy_paths_of default entries) [];
      match r with
      | Err e => Some (Err e)
      | Ok policies =>
          let index := path_index policies in
          default_action ← default_action_of index default;
          mappings ← mapM (resolve_entry index) entries;
          Some (Ok {|
            PolicyResolver_root := root;
            PolicyResolver_mappings := sort_mappings mappings;
            PolicyResolver_default := default_action;
            PolicyResolver_policies := policies;
          |})
      end
  end.

Definition PolicyResolver_from_map_file (fuel : nat) (path root : PathBuf)
    : option (result string PolicyResolver) :=
  match read_to_string path with
  | Err _ => Some (Err ("failed to read policy map: " +:+ to_string_lossy path))
  | Ok contents =>
      match toml_from_str contents with
      | Err _ => Some (Err ("failed to parse policy map: " +:+ to_string_lossy path))
      | Ok map_file =>
          PolicyResolver_build fuel (PolicyMapFile_default map_file) (PolicyMapFile_mapping map_file)
            root (path_parent path)
      end
  end.

Definition PolicyResolver_from_config (fuel : nat) (config : AppConfig) (root : PathBuf)
    : option (result string PolicyResolver) :=
  PolicyResolver_build fuel (AppConfig_default_policy config) (AppConfig_policy_mapping config) root None.

(** [build_policy_resolver]: [policy] and [policy_map] are arguments of the command. *)
Definition build_policy_resolver (fuel : nat) (policy policy_map : option PathBuf) (config : AppConfig)
    (root : PathBuf) : option (result string PolicyResolver) :=
  match policy, policy_map with
  | Some policy_path, _ =>
      let resolved := resolve_policy_path policy_path in
      r ← compile_policy_file fuel resolved;
      Some (match r with
            | Ok compiled => Ok (PolicyResolver_from_single compiled root)
            | Err _ => Err ("failed to compile policy: " +:+ to_string_lossy resolved)
            end)
  | None, Some map_path => PolicyResolver_from_map_file fuel map_path root
  | None, None =>
      match AppConfig_policy_mapping config, AppConfig_default_policy config with
      | [], None =>
          Some (Err ("no policy specified; use --policy, --policy-map, "
                     +:+ "or configure policy_mapping in config.toml"))
      | _, _ => PolicyResolver_from_config fuel config root
      end
  end.

Definition policy_match (policies : list (string * CompiledPolicy)) (idx : usize)
    : option (result string PolicyMatch) :=
  '(name, compiled) ← policies !! idx; Some (Ok (PolicyMatch_Policy compiled name)).

(** The path in the root directory, or the path itself *)
Definition relative_path (resolver : PolicyResolver) (file_path : PathBuf) : PathBuf :=
  default file_path (path_strip_prefix file_path (PolicyResolver_root resolver)).

Definition PolicyResolver_resolve (resolver : PolicyResolver) (file_path : PathBuf)
    : option (result string PolicyMatch) :=
  let relative := relative_path resolver file_path in
  match List.find (λ m, path_starts_with relative (ResolvedMapping_prefix m))
          (PolicyResolver_mappings resolver) with
  | Some mapping =>
      match ResolvedMapping_action mapping with
      | MappingAction_Policy idx => policy_match (PolicyResolver_policies resolver) idx
      | MappingAction_Skip => Some (Ok PolicyMatch_Skip)
      end
  | None =>
      match PolicyResolver_default resolver with
      | DefaultAction_Policy idx => policy_match (PolicyResolver_policies resolver) idx
      | DefaultAction_Skip => Some (Ok PolicyMatch_Skip)
      | DefaultAction_None =>
          Some (Err ("no policy mapping matches " +:+ to_string_lossy relative
                     +:+ " and no default is configured"))
      end
  end.

(** The first occurrences, in order *)
Definition PolicyResolver_all_phase_names (resolver : PolicyResolver) : list string :=
  foldl push_unique []
    (concat ((λ p, CompiledPolicy_phase_order p.2) <$> PolicyResolver_policies resolver)).

Definition PolicyResolver_is_single_policy (resolver : PolicyResolver) : bool :=
  bool_decide (length (PolicyResolver_mappings resolver) = 0)
  && bool_decide (length (PolicyResolver_policies resolver) = 1).

Definition PolicyResolver_summary (resolver : PolicyResolver) : string :=
  let counts :=
    pretty (N.of_nat (length (PolicyResolver_policies resolver))) +:+ " policies, "
    +:+ pretty (N.of_nat (length (PolicyResolver_mappings resolver))) +:+ " prefix mappings" in
  if PolicyResolver_is_single_policy resolver then
    match PolicyResolver_policies resolver with (name, _) :: _ => name | [] => counts end
  else counts.
End resolver.

Example strip_nested : path_strip_prefix "/media//tv/./kids/a.mkv" "/media/tv/" = Some "kids/a.mkv".
Proof. by vm_compute. Qed.

Example strip_apart : path_strip_prefix "/media/tvshows/a.mkv" "/media/tv" = None.
Proof. by vm_compute. Qed.

Example strip_current : path_strip_prefix "./tv/a.mkv" "." = Some "tv/a.mkv".
Proof. by vm_compute. Qed.

(** ** The longest prefix *)
Section best.
Context (f : ResolvedMapping → bool).
Implicit Types (m n : ResolvedMapping) (l : list ResolvedMapping).

Abbreviation plen m := (String.length (ResolvedMapping_prefix m)).

(** A matching mapping with the longest prefix, the first of them. *)
Definition better m (b : option ResolvedMapping) : option ResolvedMapping :=
  if f m then
    match b with
    | Some n => if plen n <=? plen m then Some m else Some n
    | None => Some m
    end%nat
  else b.

Definition best l : option ResolvedMapping := foldr better None l.

Definition shorter m n : Prop := plen n ≤ plen m.

Lemma insert_mapping_elem m n l : n ∈ insert_mapping m l → n = m ∨ n ∈ l.
Proof.
  induction l as [|x l IH]; cbn; [set_solver|]. case_match; [set_solver|].
  intros [->|Hn]%elem_of_cons; [right; left|]. destruct (IH Hn); [by left|right; by right].
Qed.

Lemma insert_mapping_sorted m l : StronglySorted shorter l → StronglySorted shorter (insert_mapping m l).
Proof.
  induction 1 as [|n l Hs IH Hn]; cbn; [by repeat constructor|]. destruct (Nat.leb_spec (plen n) (plen m)) as [Hle|Hlt].
  - constructor; [by constructor|]. constructor; [done|]. eapply Forall_impl; [exact Hn|].
    unfold shorter. intros x Hx. lia.
  - constructor; [done|]. apply Forall_forall. intros x [->|Hx]%insert_mapping_elem; [unfold shorter; lia|].
    by eapply Forall_forall in Hn.
Qed.

Lemma sort_mappings_sorted l : StronglySorted shorter (sort_mappings l).
Proof. induction l as [|m l IH]; cbn; [constructor|]. by apply insert_mapping_sorted. Qed.

Lemma find_insert m l :
  StronglySorted shorter l → List.find f (insert_mapping m l) = better m (List.find f l).
Proof.
  unfold better. induction 1 as [|n l Hs IH Hn]; cbn; [done|].
  destruct (Nat.leb_spec (plen n) (plen m)) as [Hle|Hlt]; cbn.
  - destruct (f m) eqn:Hm; [|done]. destruct (if f n then Some n else List.find f l) as [x|] eqn:Hx; [|done].
    assert (plen x ≤ plen m); [|by destruct (Nat.leb_spec (plen x) (plen m)); [|lia]].
    destruct (f n); [by injection Hx as <-|]. apply find_Some_elem_of in Hx as [Hx _].
    eapply Forall_forall in Hn; [|exact Hx]. unfold shorter in Hn. lia.
  - destruct (f n) eqn:Hfn; [|done]. destruct (f m); [|done]. by destruct (Nat.leb_spec (plen n) (plen m)); [lia|].
Qed.

(** The first match of the sorted mappings is the best of all. *)
Lemma find_sorted l : List.find f (sort_mappings l) = best l.
Proof.
  induction l as [|m l IH]; [done|]. change (sort_mappings (m :: l)) with (insert_mapping m (sort_mappings l)).
  rewrite find_insert by apply sort_mappings_sorted. by rewrite IH.
Qed.

Lemma best_None l m : best l = None → m ∈ l → f m = false.
Proof.
  induction l as [|n l IH]; cbn; [set_solver|]. change (foldr better None l) with (best l). unfold better.
  intros Hb [->|Hm]%elem_of_cons; destruct (f _) eqn:Hf; try done; repeat case_match; try done; by apply IH.
Qed.

Lemma best_Some l m :
  best l = Some m →
  ∃ i, l !! i = Some m ∧ f m = true ∧
    (∀ j n, l !! j = Some n → f n = true → plen n ≤ plen m ∧ (j < i → plen n < plen m)).
Proof.
  revert m. induction l as [|x l IH]; intros m; cbn; [done|]. change (foldr better None l) with (best l). unfold better. destruct (f x) eqn:Hx.
  - destruct (best l) as [y|] eqn:Hb.
    + destruct (IH y eq_refl) as (i & Hi & Hy & Hall). destruct (Nat.leb_spec (plen y) (plen x)) as [Hle|Hlt];
        intros [= <-].
      * exists 0. split_and!; [done|done|]. intros [|j] n Hn Hf; [injection Hn as <-; lia|].
        destruct (Hall j n Hn Hf). lia.
      * exists (Datatypes.S i). split_and!; [done|done|]. intros [|j] n Hn Hf; [injection Hn as <-; lia|].
        destruct (Hall j n Hn Hf). lia.
    + intros [= <-]. exists 0. split_and!; [done|done|]. intros [|j] n Hn Hf; [injection Hn as <-; lia|].
      cbn in Hn. apply list_elem_of_lookup_2 in Hn. by rewrite (best_None _ _ Hb Hn) in Hf.
  - intros Hb. destruct (IH m Hb) as (i & Hi & Hm & Hall). exists (Datatypes.S i). split_and!; [done|done|].
    intros [|j] n Hn Hf; [injection Hn as <-; congruence|]. destruct (Hall j n Hn Hf). lia.
Qed.
End best.

(** ** Directories and texts

    A path is tidy when it is written without repeated or trailing separators and
    without [.] inside. For tidy paths the longer text is the deeper directory. *)
Definition tidy (p : PathBuf) : Prop :=
  p = (if path_is_absolute p then "/" else "") +:+ str_join "/" (path_components p).

#[export] Instance tidy_dec p : Decision (tidy p).
Proof. unfold tidy. apply _. Defined.

Lemma components_nonempty p c : c ∈ path_components p → 0 < String.length c.
Proof.
  unfold path_components. intros Hc. assert (Hne : c ≠ "").
  { destruct (split_slash "" p) as [|x l]; [cbn in Hc; set_solver|].
    assert (Hk : ∀ k, c ∈ List.filter (λ c, negb (bool_decide (c = "")) && negb (bool_decide (c = "."))) k → c ≠ "").
    { intros k [_ Hb]%filter_elem_of. apply andb_true_iff in Hb as [Hb%negb_true_iff _].
      by apply bool_decide_eq_false in Hb. }
    destruct (bool_decide (x = ".")); [apply elem_of_cons in Hc as [->|Hc]; [done|]|]; by eapply Hk. }
  destruct c; [done|]. cbn. lia.
Qed.

(** The length of a joined text grows with every component. *)
Lemma join_length_lt l k :
  k ≠ [] → Forall (λ c, 0 < String.length c) k →
  String.length (str_join "/" l) < String.length (str_join "/" (l ++ k)).
Proof.
  intros Hk Hall. assert (Hpos : 0 < String.length (str_join "/" k)).
  { destruct k as [|c k]; [done|]. apply Forall_cons in Hall as [Hc _]. cbn.
    destruct k; [done|]. rewrite string_length_app. lia. }
  induction l as [|x l IH]; [exact Hpos|]. destruct l as [|y l].
  - destruct k as [|c k]; [done|]. cbn [app str_join]. rewrite !string_length_app. cbn. lia.
  - cbn [app str_join] in *. rewrite !string_length_app. cbn in *. lia.
Qed.

Lemma tidy_length_lt p q k :
  tidy p → tidy q → k ≠ [] → path_all_components q = path_all_components p ++ k →
  String.length p < String.length q.
Proof.
  unfold path_all_components. intros Hp Hq Hk He.
  assert (Hpos : Forall (λ c, 0 < String.length c) (path_components q))
    by (apply Forall_forall; intros c; apply components_nonempty).
  rewrite Hp, Hq, !string_length_app. unfold tidy in *.
  destruct (path_is_absolute p) eqn:Hpa, (path_is_absolute q) eqn:Hqa; cbn in He.
  - injection He as He. rewrite He in Hpos |- *. apply Forall_app in Hpos as [_ Hpos].
    pose proof (join_length_lt (path_components p) k Hk Hpos). lia.
  - destruct (path_components q) as [|c l] eqn:Hc; [done|]. injection He as -> He. exfalso.
    rewrite Hq in Hqa. cbn in Hqa. destruct l; by cbn in Hqa.
  - destruct (path_components p) as [|c l] eqn:Hc; [cbn; lia|]. injection He as <- He. exfalso.
    rewrite Hp in Hpa. cbn in Hpa. destruct l; by cbn in Hpa.
  - rewrite He in Hpos |- *. apply Forall_app in Hpos as [_ Hpos].
    pose proof (join_length_lt (path_components p) k Hk Hpos). lia.
Qed.

(** Of two tidy directories of a path, the one with the longer text is inside the other. *)
Lemma tidy_nested path p q :
  path_starts_with path p = true → path_starts_with path q = true → tidy p → tidy q →
  String.length q ≤ String.length p → path_starts_with p q = true.
Proof.
  unfold path_starts_with. rewrite !bool_decide_eq_true. intros Hp Hq Htp Htq Hle.
  destruct (prefix_weak_total _ _ _ Hp Hq) as [[k Hk]|Hqp]; [|done].
  destruct k as [|c k]; [exists []; by rewrite Hk, !app_nil_r|].
  pose proof (tidy_length_lt p q (c :: k) Htp Htq ltac:(done) Hk). lia.
Qed.

(** ** Paths in a directory *)
Definition body (s : string) : list string := List.filter kept (split_slash "" s).

Lemma body_skip_separators s : body (skip_separators s) = body s.
Proof.
  induction s as [|c s IH]; [done|]. cbn [skip_separators]. case_bool_decide as Hc; [subst c; by rewrite IH|].
  case_bool_decide as Hd; [|done]. subst c. destruct s as [|d s]; [done|]. case_bool_decide as Hs; [|done].
  subst d. rewrite IH. done.
Qed.

Lemma split_skip_component s cur :
  tail (split_slash cur s) = tail (split_slash "" (skip_component s)).
Proof.
  revert cur. induction s as [|c s IH]; intros cur; [done|]. cbn [skip_component split_slash].
  change (ascii_of_nat 47) with slash. case_bool_decide as Hc; [|apply IH]. cbn [split_slash]. by rewrite bool_decide_true.
Qed.

Lemma body_skip_component s : body (skip_component s) = List.filter kept (tail (split_slash "" s)).
Proof.
  rewrite split_skip_component. unfold body. induction s as [|c s IH]; [done|]. cbn [skip_component].
  case_bool_decide as Hc; [|done]. cbn [split_slash]. by rewrite bool_decide_true.
Qed.

Lemma str_rev_cons c s : str_rev (String c s) = str_rev s +:+ String c "".
Proof.
  unfold str_rev. cbn [String.list_ascii_of_string]. rewrite reverse_cons.
  induction (reverse (String.list_ascii_of_string s)) as [|x l IH]; [done|].
  cbn [app String.string_of_list_ascii]. by rewrite IH.
Qed.

Lemma split_head s cur : ∃ a, head (split_slash cur s) = Some (str_rev cur +:+ a) ∧
  (a = "" → skip_component s = s).
Proof.
  revert cur. induction s as [|c s IH]; intros cur; cbn [split_slash skip_component]; change (ascii_of_nat 47) with slash.
  - exists "". by rewrite string_app_nil.
  - case_bool_decide as Hc.
    + exists "". by rewrite string_app_nil.
    + destruct (IH (String c cur)) as (a & -> & _). exists (String c a). split; [|done].
      by rewrite str_rev_cons, string_app_assoc.
Qed.

(** After [skip_separators] a text is empty or starts with a component. *)
Lemma skip_separators_head s :
  skip_separators s = "" ∨
  ∃ x, path_is_absolute (skip_separators s) = false ∧
    head (split_slash "" (skip_separators s)) = Some x ∧ kept x = true.
Proof.
  induction s as [|c s IH]; [by left|]. cbn [skip_separators]. case_bool_decide as Hc; [done|].
  assert (Hmain : (c = dot → ∃ d s', s = String d s' ∧ d ≠ slash) →
    ∃ x, path_is_absolute (String c s) = false ∧ head (split_slash "" (String c s)) = Some x ∧ kept x = true).
  { intros Hd. cbn [split_slash path_is_absolute]. change (ascii_of_nat 47) with slash.
    rewrite bool_decide_false by done.
    destruct (split_head s (String c "")) as (a & -> & Ha). eexists. split_and!; [done|done|].
    unfold kept. change (str_rev (String c "") +:+ a) with (String c a). rewrite bool_decide_false by done. cbn.
    case_bool_decide as He; [|done]. injection He as -> ->. destruct (Hd eq_refl) as (d & s' & -> & Hds).
    specialize (Ha eq_refl). cbn in Ha. rewrite bool_decide_false in Ha by done.
    apply (f_equal String.length) in Ha. exfalso. revert Ha. clear.
    assert (Hl : ∀ t, String.length (skip_component t) ≤ String.length t)
      by (intros t; induction t as [|y t IH]; cbn; [done|]; case_match; cbn; lia).
    specialize (Hl s'). cbn. lia. }
  case_bool_decide as Hd; [|right; by apply Hmain].
  destruct s as [|d s]; [by left|]. case_bool_decide as Hs; [done|]. right. apply Hmain. intros _. by exists d, s.
Qed.

Lemma body_next s : body (skip_component (skip_separators s)) = tail (body s).
Proof.
  rewrite <-(body_skip_separators s). rewrite body_skip_component. unfold body.
  destruct (skip_separators_head s) as [->|(x & _ & Hx & Hk)]; [done|].
  destruct (split_slash "" (skip_separators s)) as [|y l]; [done|]. injection Hx as ->. cbn. by rewrite Hk.
Qed.

Lemma body_iter n s : body (Nat.iter n (λ s, skip_component (skip_separators s)) s) = drop n (body s).
Proof.
  induction n as [|n IH]; [done|]. rewrite Nat.iter_succ, body_next, IH. clear.
  revert n. induction (body s) as [|x l IH]; intros [|n]; [done..|]. apply IH.
Qed.

Lemma of_bytes_rev_cons c l : of_bytes_rev (c :: l) = of_bytes_rev l +:+ String c "".
Proof.
  unfold of_bytes_rev. rewrite reverse_cons. induction (reverse l) as [|x k IH]; [done|].
  cbn [app String.string_of_list_ascii]. by rewrite IH.
Qed.

Lemma body_trim l : body (of_bytes_rev (trim_path_rev l)) = body (of_bytes_rev l).
Proof.
  assert (Hs : ∀ a b, body (a +:+ String slash b) = body a ++ body b).
  { intros a b. unfold body. by rewrite split_slash_app, List.filter_app. }
  induction l as [|c l IH]; [done|]. cbn [trim_path_rev]. case_bool_decide as Hc.
  - subst c. rewrite IH, of_bytes_rev_cons, Hs. by rewrite app_nil_r.
  - destruct l as [|d l]; [done|]. case_bool_decide as Hd; [|done]. destruct Hd as [-> ->].
    rewrite IH, !of_bytes_rev_cons, string_app_assoc. change (String slash "" +:+ String dot "") with "/.".
    change "/." with (String slash "."). by rewrite !Hs.
Qed.

Lemma absolute_components p : path_is_absolute p = true → path_components p = body p.
Proof.
  destruct p as [|c p]; cbn; [done|]. intros ->%bool_decide_eq_true. unfold path_components, body. fold kept.
  cbn [split_slash]. by rewrite bool_decide_true.
Qed.

Lemma skipped_components s : path_all_components (skip_separators s) = body s.
Proof.
  rewrite <-(body_skip_separators s). unfold path_all_components, path_components, body. fold kept.
  destruct (skip_separators_head s) as [->|(x & Ha & Hx & Hk)]; [done|]. rewrite Ha. cbn [app].
  destruct (split_slash "" (skip_separators s)) as [|y l]; [done|]. injection Hx as ->.
  rewrite bool_decide_false; [done|]. intros ->. done.
Qed.

(** Stripping a directory from a path leaves the components below it. *)
Lemma strip_prefix_components p base :
  path_is_absolute p = true → path_is_absolute base = true → path_starts_with p base = true →
  ∃ r, path_strip_prefix p base = Some r ∧
    path_all_components p = path_all_components base ++ path_all_components r.
Proof.
  intros Hp Hb Hs. unfold path_strip_prefix. rewrite Hs. cbn [negb].
  assert (Hbase : path_all_components base = "/" :: body base)
    by (unfold path_all_components; rewrite Hb; by rewrite absolute_components).
  assert (Hpath : path_all_components p = "/" :: body p)
    by (unfold path_all_components; rewrite Hp; by rewrite absolute_components).
  unfold path_starts_with in Hs. apply bool_decide_eq_true in Hs. rewrite Hbase, Hpath in Hs |- *.
  apply prefix_cons_inv_2 in Hs as [k Hk]. rewrite bool_decide_false by done. eexists. split; [done|].
  rewrite skipped_components, body_trim.
  unfold bytes_rev. rewrite of_bytes_rev_reverse, body_iter.
  rewrite absolute_components by done. cbn [app]. f_equal. rewrite Hk. f_equal.
  rewrite (filter_all _ (body base)); [by rewrite drop_app_length|].
  apply Forall_forall. intros c [_ Hc]%filter_elem_of. unfold kept in Hc.
  by apply andb_true_iff in Hc as [_ ?].
Qed.

(** ** Built resolvers *)
Lemma push_unique_elem l p q : q ∈ push_unique l p ↔ q ∈ l ∨ q = p.
Proof. unfold push_unique. case_bool_decide; set_solver. Qed.

Section built.
Context `{Pest} `{PolicySources, SourceHash, F64Display, RegexCrate, ValueDebug, PartitionPoint, HashOrder}.
Context `{Unicode} `{StrDebug} `{PolicyEnv}.
Context (fuel : nat) (base_dir : option PathBuf).
Implicit Types (policies : list (string * CompiledPolicy)) (entry : MappingEntry).

(** What is answered for a file to which the policy named [p] applies. *)
Definition applies (p : string) (m : result string PolicyMatch) : Prop :=
  ∃ compiled, compile_policy_file fuel (resolve_policy_in_context p base_dir) = Some (Ok compiled) ∧
    m = Ok (PolicyMatch_Policy compiled p).

Definition entry_applies entry (m : result string PolicyMatch) : Prop :=
  match MappingEntry_policy entry with
  | Some p => applies p m
  | None => m = Ok PolicyMatch_Skip
  end.

Definition default_applies (default : option string) (m : result string PolicyMatch) : Prop :=
  match default with
  | Some d => if bool_decide (d = "skip") then m = Ok PolicyMatch_Skip else applies d m
  | None => ∃ e, m = Err e
  end.

Lemma compile_policies_Ok paths acc policies :
  compile_policies fuel base_dir paths acc = Some (Ok policies) →
  ∃ new, policies = acc ++ new ∧ new.*1 = paths ∧
    Forall (λ p, compile_named fuel base_dir p.1 = Some (Ok p.2)) new.
Proof.
  revert acc. induction paths as [|name paths IH]; intros acc; cbn.
  - intros [= <-]. exists []. by rewrite app_nil_r.
  - destruct (compile_named _ _ name) as [[compiled|e]|] eqn:Hc; cbn; [|done|done].
    intros (new & -> & <- & Hn)%IH. exists ((name, compiled) :: new).
    rewrite <-(assoc_L (++)). split_and!; [done|done|]. by constructor.
Qed.

Lemma named_applies p compiled :
  compile_named fuel base_dir p = Some (Ok compiled) → applies p (Ok (PolicyMatch_Policy compiled p)).
Proof.
  unfold compile_named. destruct (compile_policy_file _ _) as [[c|e]|] eqn:Hc; cbn; [|done|done].
  intros [= ->]. by exists compiled.
Qed.

Lemma index_match policies name idx :
  Forall (λ p, compile_named fuel base_dir p.1 = Some (Ok p.2)) policies →
  path_index policies !! name = Some idx →
  ∃ m, policy_match policies idx = Some m ∧ applies name m.
Proof.
  intros Hall Hi%elem_of_list_to_map_2. apply elem_of_lookup_imap in Hi as (i & [n compiled] & [= -> ->] & Hp).
  unfold policy_match. rewrite Hp. cbn. eexists. split; [done|].
  apply named_applies. by apply (Forall_lookup_1 _ _ _ _ Hall Hp).
Qed.

Lemma index_found policies name : name ∈ policies.*1 → is_Some (path_index policies !! name).
Proof.
  intros Hn. destruct (path_index policies !! name) eqn:Hi; [by eexists|]. exfalso.
  apply not_elem_of_list_to_map_2 in Hi. apply Hi. apply list_elem_of_fmap in Hn as ([n c] & -> & Hp).
  apply list_elem_of_lookup in Hp as [i Hi']. apply list_elem_of_fmap. exists (n, i). split; [done|].
  apply elem_of_lookup_imap. by exists i, (n, c).
Qed.

Lemma policy_paths_elem default entries :
  (∀ d, default = Some d → d ≠ "skip" → d ∈ policy_paths_of default entries) ∧
  (∀ e p, e ∈ entries → MappingEntry_policy e = Some p → p ∈ policy_paths_of default entries).
Proof.
  unfold policy_paths_of. set (start := match default with Some d => _ | None => _ end).
  set (step := λ paths entry, _).
  assert (Hkeep : ∀ l paths p, p ∈ paths → p ∈ foldl step paths l).
  { intros l. induction l as [|e l IH]; intros paths p Hp; cbn; [done|]. apply IH. unfold step.
    case_match; [|done]. apply push_unique_elem. by left. }
  split.
  - intros d -> Hd. apply Hkeep. unfold start. rewrite bool_decide_false by done. set_solver.
  - intros e p He Hp. clearbody start. revert start. induction entries as [|x l IH]; intros start; [set_solver|].
    apply elem_of_cons in He as [<-|He]; cbn.
    + apply Hkeep. unfold step. rewrite Hp. apply push_unique_elem. by right.
    + by apply IH.
Qed.

(** Validated entries have a policy or are to be skipped, but not both. *)
Lemma validated entries :
  (∃ l, try_map MappingEntry_validate entries = Ok l) →
  Forall (λ e, MappingEntry_skip e = Some true ↔ MappingEntry_policy e = None) entries.
Proof.
  intros [l Hl%try_map_Ok_Forall2]. eapply Forall2_Forall_l; [exact Hl|]. apply Forall_true.
  intros [] e. unfold MappingEntry_validate. destruct (MappingEntry_policy e) as [p|]; cbn; case_bool_decide; cbn;
    done || (intros _; split; done).
Qed.

Lemma resolve_entry_match policies entry mapping :
  Forall (λ p, compile_named fuel base_dir p.1 = Some (Ok p.2)) policies →
  (MappingEntry_skip entry = Some true ↔ MappingEntry_policy entry = None) →
  resolve_entry (path_index policies) entry = Some mapping →
  ResolvedMapping_prefix mapping = MappingEntry_prefix entry ∧
  ∃ m, match ResolvedMapping_action mapping with
       | MappingAction_Policy idx => policy_match policies idx
       | MappingAction_Skip => Some (Ok PolicyMatch_Skip)
       end = Some m ∧ entry_applies entry m.
Proof.
  intros Hall Hv. unfold resolve_entry, entry_applies. case_bool_decide as Hs; cbn.
  - intros [= <-]. split; [done|]. cbn. eexists. split; [done|]. apply Hv in Hs. by rewrite Hs.
  - destruct (MappingEntry_policy entry) as [name|]; cbn; [|done].
    destruct (path_index policies !! name) as [idx|] eqn:Hi; cbn; [|done]. intros [= <-]. split; [done|]. cbn.
    by apply index_match.
Qed.

Lemma default_match policies default action :
  Forall (λ p, compile_named fuel base_dir p.1 = Some (Ok p.2)) policies →
  default_action_of (path_index policies) default = Some action →
  ∀ relative, ∃ m,
    match action with
    | DefaultAction_Policy idx => policy_match policies idx
    | DefaultAction_Skip => Some (Ok PolicyMatch_Skip)
    | DefaultAction_None =>
        Some (Err ("no policy mapping matches " +:+ to_string_lossy relative
                   +:+ " and no default is configured"))
    end = Some m ∧ default_applies default m.
Proof.
  intros Hall Ha relative. unfold default_action_of, default_applies in *. destruct default as [d|].
  - case_bool_decide; [injection Ha as <-; by eexists|].
    destruct (path_index policies !! d) as [idx|] eqn:Hi; cbn in Ha; [|done]. injection Ha as <-.
    by apply index_match.
  - injection Ha as <-. eexists. split; [done|]. by eexists.
Qed.

Record built (default : option string) (entries : list MappingEntry) (root : PathBuf)
    (r : PolicyResolver) (mappings : list ResolvedMapping) : Prop := {
  built_root : PolicyResolver_root r = root;
  built_sorted : PolicyResolver_mappings r = sort_mappings mappings;
  built_policies : Forall (λ p, compile_named fuel base_dir p.1 = Some (Ok p.2)) (PolicyResolver_policies r);
  built_default : default_action_of (path_index (PolicyResolver_policies r)) default
                  = Some (PolicyResolver_default r);
  built_valid : Forall (λ e, MappingEntry_skip e = Some true ↔ MappingEntry_policy e = None) entries;
  built_entries : Forall2 (λ e m, resolve_entry (path_index (PolicyResolver_policies r)) e = Some m)
                    entries mappings;
}.

Lemma build_built default entries root r :
  PolicyResolver_build fuel default entries root base_dir = Some (Ok r) →
  ∃ mappings, built default entries root r mappings.
Proof.
  unfold PolicyResolver_build. destruct (try_map MappingEntry_validate entries) as [l|] eqn:Hv; [|done].
  destruct (compile_policies _ _ _ []) as [[policies|]|] eqn:Hc; cbn; [|done|done].
  apply compile_policies_Ok in Hc as (new & -> & _ & Hall). cbn [app].
  destruct (default_action_of _ default) as [action|] eqn:Hd; cbn; [|done].
  destruct (mapM _ entries) as [mappings|] eqn:Hm; cbn; [|done]. intros [= <-]. exists mappings.
  split; cbn; [done|done|done|done| |by apply mapM_Some_1]. apply validated. by exists l.
Qed.

(** Building a resolver panics only if compilation does. *)
Lemma build_never_panics default entries root :
  (∀ p, compile_policy_file fuel p ≠ None) →
  PolicyResolver_build fuel default entries root base_dir ≠ None.
Proof.
  intros Hcomp. unfold PolicyResolver_build.
  destruct (try_map MappingEntry_validate entries) as [l|] eqn:Hv; [|done].
  assert (Hval := validated entries (ex_intro _ l Hv)).
  assert (Hnp : ∀ paths acc, compile_policies fuel base_dir paths acc ≠ None).
  { intros paths. induction paths as [|name paths IH]; intros acc; cbn; [done|]. unfold compile_named.
    destruct (compile_policy_file fuel _) as [[c|e]|] eqn:Hc; cbn; [apply IH|done|].
    by apply Hcomp in Hc. }
  destruct (compile_policies _ _ _ []) as [[policies|]|] eqn:Hc; cbn; [|done|by apply Hnp in Hc].
  apply compile_policies_Ok in Hc as (new & -> & Hpaths & _). cbn [app].
  destruct (policy_paths_elem default entries) as [Hdef Hent].
  destruct (default_action_of _ default) as [action|] eqn:Hd; cbn.
  2:{ exfalso. unfold default_action_of in Hd. destruct default as [d|]; [|done].
      case_bool_decide as Hs; [done|]. destruct (index_found new d) as [i Hi]; [rewrite Hpaths; by apply Hdef|].
      by rewrite Hi in Hd. }
  destruct (mapM _ entries) as [mappings|] eqn:Hm; cbn; [done|]. exfalso.
  apply eq_None_not_Some in Hm. apply Hm, mapM_is_Some_2, Forall_forall. intros e He. unfold resolve_entry.
  cbn. destruct (bool_decide (MappingEntry_skip e = Some true)) eqn:Hs; [by eexists|]. apply bool_decide_eq_false in Hs. eapply Forall_forall in Hval; [|exact He].
  destruct (MappingEntry_policy e) as [name|] eqn:Hp; cbn; [|by destruct Hs; apply Hval].
  destruct (index_found new name) as [i Hi]; [rewrite Hpaths; by eapply Hent|]. rewrite Hi. by eexists.
Qed.
End built.
