(* ===== verification/ProcessFile.v ===== *)
(** * Processing of one file

    The execution path of [voom process] for one file, in
    [crates/voom-cli/src/commands/process]: [dispatch.rs] (the events around a
    plan), [plan_outcome.rs], [safeguards.rs], [transitions.rs],
    [audio_language.rs] and the phase loop of [pipeline.rs], with
    [crates/voom-cli/src/kernel_invoke.rs].

    A [Pipe] is the state the loop acts upon: the world of files and plugins, the
    statistics of the kernel and the counters of the run. The calls of the code to
    the store and to the introspector go through the interfaces [ProcessStorage] and
    [Introspector]. Tasks of the runtime are plain calls: the model has one
    thread, and waiting for a permit changes nothing. At the end, the dry run and the
    processing of a job, with [crates/voom-cli/src/introspect.rs]. *)
From S2P Require Import Prelude Json Media Plan Compiled CapabilityMap Codecs Jobs Events Kernel.
From S2P Require Import CallPlugins Process Transitions CropDetect FfmpegCommand VmafSearch.
From S2P Require Import FfmpegExecutor BackupManager Estimate PolicyMap.

(** ** Text *)

(** [format!("{:.n$}", x)]: the exact value rounded half-to-even. *)
Definition fmt_decimal (digits : nat) (neg : bool) (t : Z) : string :=
  let unit := (10 ^ Z.of_nat digits)%Z in
  let frac := pretty (Z.to_N (t mod unit)) in
  (if neg then "-" else "") +:+ pretty (Z.to_N (t / unit))
  +:+ (if (digits =? 0)%nat then ""
       else "." +:+ pad_zeros (digits - String.length frac) frac).

Definition fmt_f64_n (digits : nat) (x : f64) : string :=
  match x with
  | S754_nan => "NaN"
  | S754_infinity s => if s then "-inf" else "inf"
  | S754_zero s => fmt_decimal digits s 0
  | S754_finite s m e =>
      fmt_decimal digits s
        (if (0 <=? e)%Z then (10 ^ Z.of_nat digits * Z.pos m * 2 ^ e)%Z
         else round_half_even (10 ^ Z.of_nat digits * Z.pos m) (2 ^ (- e)))
  end.

(** [utils/format.rs] *)
Definition format_size (bytes : u64) : string :=
  let kib := 1024%N in
  let mib := (1024 * kib)%N in
  let gib := (1024 * mib)%N in
  let ratio unit := f64_div (f64_of_N bytes) (f64_of_N unit) in
  if (gib <=? bytes)%N then fmt_f64_n 2 (ratio gib) +:+ " GiB"
  else if (mib <=? bytes)%N then fmt_f64_n 1 (ratio mib) +:+ " MiB"
  else if (kib <=? bytes)%N then fmt_f64_n 0 (ratio kib) +:+ " KiB"
  else pretty bytes +:+ " B".

(** ** Outcome of a plan: [plan_outcome.rs] *)
Definition PlanFailedEvent_new (plan_id : Uuid) (path : PathBuf) (phase_name error : string)
    : PlanFailedEvent := {|
  PlanFailedEvent_plan_id := plan_id;
  PlanFailedEvent_path := path;
  PlanFailedEvent_phase_name := phase_name;
  PlanFailedEvent_error := error;
  PlanFailedEvent_error_code := None;
  PlanFailedEvent_plugin_name := None;
  PlanFailedEvent_error_chain := [];
  PlanFailedEvent_execution_detail := None;
|}.

(** The two fields that callers set afterwards. *)
Definition PlanFailedEvent_by (e : PlanFailedEvent) (plugin_name : option string)
    (detail : option ExecutionDetail) : PlanFailedEvent := {|
  PlanFailedEvent_plan_id := PlanFailedEvent_plan_id e;
  PlanFailedEvent_path := PlanFailedEvent_path e;
  PlanFailedEvent_phase_name := PlanFailedEvent_phase_name e;
  PlanFailedEvent_error := PlanFailedEvent_error e;
  PlanFailedEvent_error_code := PlanFailedEvent_error_code e;
  PlanFailedEvent_plugin_name := plugin_name;
  PlanFailedEvent_error_chain := PlanFailedEvent_error_chain e;
  PlanFailedEvent_execution_detail := detail;
|}.

Inductive PlanOutcome : Type :=
| PlanOutcome_Success (executor : string)
| PlanOutcome_Failed (e : PlanFailedEvent).

(** The first claim, the first error and the first detail among the results. *)
Definition scan_result (acc : option string * option string * option ExecutionDetail)
    (r : EventResult) : option string * option string * option ExecutionDetail :=
  let '(claimed_name, exec_error, exec_detail) := acc in
  (match claimed_name with
   | Some n => Some n
   | None => if EventResult_claimed r then Some (EventResult_plugin_name r) else None
   end,
   match exec_error with Some e => Some e | None => EventResult_execution_error r end,
   match exec_detail with Some d => Some d | None => EventResult_execution_detail r end).

Definition PlanOutcome_from_event_result (results : list EventResult) (plan : Plan)
    (file : MediaFile) : PlanOutcome :=
  let '(claimed_name, exec_error, exec_detail) := foldl scan_result (None, None, None) results in
  let failed := PlanFailedEvent_new (Plan_id plan) (MediaFile_path file) (Plan_phase_name plan) in
  match claimed_name, exec_error with
  | Some name, None => PlanOutcome_Success name
  | _, Some error => PlanOutcome_Failed (PlanFailedEvent_by (failed error) claimed_name exec_detail)
  | None, None => PlanOutcome_Failed (failed "no executor available for plan")
  end.

(** ** Paths after execution: [pipeline.rs] *)
Definition container_action (a : PlannedAction) : option Container :=
  if bool_decide (PlannedAction_operation a = Op_ConvertContainer) then
    match PlannedAction_parameters a with
    | AP_Container c => Some c
    | _ => None
    end
  else None.

(** From the last plan to the first; in a plan the first conversion. *)
Definition find_last_container_action (plans : list Plan) : option Container :=
  head (omap (λ plan, if Plan_is_skipped plan || Plan_is_empty plan then None
                      else head (omap container_action (Plan_actions plan))) (reverse plans)).

Definition resolve_post_execution_path {S} `{Volume} (file : MediaFile) (plans : list Plan)
    (w : World S) : PathBuf :=
  match find_last_container_action plans with
  | Some container =>
      let new_path := path_set_extension (MediaFile_path file) (Container_as_str container) in
      if path_exists new_path w then new_path else MediaFile_path file
  | None => MediaFile_path file
  end.

(** ** Detected languages: [audio_language.rs] *)
Definition AUDIO_LANGUAGE_DETECTOR_PLUGIN : string := "audio-language-detector".

Definition json_list (v : JValue) : option (list JValue) :=
  match v with JArray l => Some l | _ => None end.

(** [serde_json::from_value::<AudioLanguageMetadata>]: the field [detections]; a
    struct is read from an object or from an array of its fields. *)
Definition AudioLanguageMetadata_from_value (v : JValue) : option (list JValue) :=
  match v with
  | JObject _ =>
      match JValue_get "detections" v with
      | None => Some []
      | Some d => json_list d
      end
  | JArray [] => Some []
  | JArray [d] => json_list d
  | _ => None
  end.

Definition json_as_u32 (v : JValue) : option u32 :=
  match v with
  | JNumber (Number_PosInt n) => if (n <=? u32_MAX)%N then Some n else None
  | _ => None
  end.

Definition json_as_string (v : JValue) : option string :=
  match v with JString s => Some s | _ => None end.

Definition AudioLanguageDetection_from_value (v : JValue) : option (u32 * string) :=
  '(index, language) ←
    match v with
    | JObject _ =>
        index ← JValue_get "track_index" v; language ← JValue_get "detected_language" v;
        Some (index, language)
    | JArray [index; language] => Some (index, language)
    | _ => None
    end;
  index ← json_as_u32 index;
  language ← json_as_string language;
  Some (index, language).

Definition Track_set_language (t : Track) (language : string) : Track := {|
  Track_index := Track_index t;
  Track_track_type := Track_track_type t;
  Track_codec := Track_codec t;
  Track_language := language;
  Track_title := Track_title t;
  Track_is_default := Track_is_default t;
  Track_is_forced := Track_is_forced t;
  Track_channels := Track_channels t;
  Track_channel_layout := Track_channel_layout t;
  Track_sample_rate := Track_sample_rate t;
  Track_bit_depth := Track_bit_depth t;
  Track_loudness_integrated_lufs := Track_loudness_integrated_lufs t;
  Track_loudness_true_peak_db := Track_loudness_true_peak_db t;
  Track_loudness_range_lu := Track_loudness_range_lu t;
  Track_loudness_measured_at := Track_loudness_measured_at t;
  Track_width := Track_width t;
  Track_height := Track_height t;
  Track_frame_rate := Track_frame_rate t;
  Track_is_vfr := Track_is_vfr t;
  Track_is_hdr := Track_is_hdr t;
  Track_hdr_format := Track_hdr_format t;
  Track_pixel_format := Track_pixel_format t;
  Track_color_primaries := Track_color_primaries t;
  Track_color_transfer := Track_color_transfer t;
  Track_color_matrix := Track_color_matrix t;
  Track_max_cll := Track_max_cll t;
  Track_max_fall := Track_max_fall t;
  Track_master_display := Track_master_display t;
  Track_dolby_vision_profile := Track_dolby_vision_profile t;
  Track_is_animation := Track_is_animation t;
|}.

(** The changes of a [MediaFile] that the loop makes. *)
Definition MediaFile_set_tracks (f : MediaFile) (tracks : list Track)
    (plugin_metadata : gmap string JValue) : MediaFile := {|
  MediaFile_id := MediaFile_id f;
  MediaFile_path := MediaFile_path f;
  MediaFile_size := MediaFile_size f;
  MediaFile_content_hash := MediaFile_content_hash f;
  MediaFile_expected_hash := MediaFile_expected_hash f;
  MediaFile_status := MediaFile_status f;
  MediaFile_container := MediaFile_container f;
  MediaFile_duration := MediaFile_duration f;
  MediaFile_bitrate := MediaFile_bitrate f;
  MediaFile_crop_detection := MediaFile_crop_detection f;
  MediaFile_tracks := tracks;
  MediaFile_tags := MediaFile_tags f;
  MediaFile_plugin_metadata := plugin_metadata;
  MediaFile_introspected_at := MediaFile_introspected_at f;
|}.

Definition MediaFile_set_crop_detection (f : MediaFile) (detection : option CropDetection)
    : MediaFile := {|
  MediaFile_id := MediaFile_id f;
  MediaFile_path := MediaFile_path f;
  MediaFile_size := MediaFile_size f;
  MediaFile_content_hash := MediaFile_content_hash f;
  MediaFile_expected_hash := MediaFile_expected_hash f;
  MediaFile_status := MediaFile_status f;
  MediaFile_container := MediaFile_container f;
  MediaFile_duration := MediaFile_duration f;
  MediaFile_bitrate := MediaFile_bitrate f;
  MediaFile_crop_detection := detection;
  MediaFile_tracks := MediaFile_tracks f;
  MediaFile_tags := MediaFile_tags f;
  MediaFile_plugin_metadata := MediaFile_plugin_metadata f;
  MediaFile_introspected_at := MediaFile_introspected_at f;
|}.

(** The fallback of [reintrospect_file]: where the file is, with its size, container
    and, if it is known, its hash. *)
Definition MediaFile_relocated (f : MediaFile) (path : PathBuf) (size : u64) (container : Container)
    (hash : option string) : MediaFile := {|
  MediaFile_id := MediaFile_id f;
  MediaFile_path := path;
  MediaFile_size := size;
  MediaFile_content_hash := match hash with Some h => Some h | None => MediaFile_content_hash f end;
  MediaFile_expected_hash := MediaFile_expected_hash f;
  MediaFile_status := MediaFile_status f;
  MediaFile_container := container;
  MediaFile_duration := MediaFile_duration f;
  MediaFile_bitrate := MediaFile_bitrate f;
  MediaFile_crop_detection := MediaFile_crop_detection f;
  MediaFile_tracks := MediaFile_tracks f;
  MediaFile_tags := MediaFile_tags f;
  MediaFile_plugin_metadata := MediaFile_plugin_metadata f;
  MediaFile_introspected_at := MediaFile_introspected_at f;
|}.

Definition preserve_persisted_file_identity (persisted_file reintrospected_file : MediaFile)
    : MediaFile := {|
  MediaFile_id := MediaFile_id persisted_file;
  MediaFile_path := MediaFile_path reintrospected_file;
  MediaFile_size := MediaFile_size reintrospected_file;
  MediaFile_content_hash := MediaFile_content_hash reintrospected_file;
  MediaFile_expected_hash := MediaFile_expected_hash persisted_file;
  MediaFile_status := MediaFile_status persisted_file;
  MediaFile_container := MediaFile_container reintrospected_file;
  MediaFile_duration := MediaFile_duration reintrospected_file;
  MediaFile_bitrate := MediaFile_bitrate reintrospected_file;
  MediaFile_crop_detection := MediaFile_crop_detection reintrospected_file;
  MediaFile_tracks := MediaFile_tracks reintrospected_file;
  MediaFile_tags := MediaFile_tags reintrospected_file;
  MediaFile_plugin_metadata := MediaFile_plugin_metadata reintrospected_file;
  MediaFile_introspected_at := MediaFile_introspected_at reintrospected_file;
|}.

Definition Plan_set_file (p : Plan) (file : MediaFile) : Plan := {|
  Plan_id := Plan_id p;
  Plan_file := file;
  Plan_policy_name := Plan_policy_name p;
  Plan_phase_name := Plan_phase_name p;
  Plan_actions := Plan_actions p;
  Plan_warnings := Plan_warnings p;
  Plan_safeguard_violations := Plan_safeguard_violations p;
  Plan_skip_reason := Plan_skip_reason p;
  Plan_policy_hash := Plan_policy_hash p;
  Plan_evaluated_at := Plan_evaluated_at p;
  Plan_executor_hint := Plan_executor_hint p;
  Plan_session_id := Plan_session_id p;
  Plan_scan_session := Plan_scan_session p;
|}.

(** [with_session_id] and [with_scan_session] *)
Definition Plan_with_sessions (p : Plan) (session_id scan_session : Uuid) : Plan := {|
  Plan_id := Plan_id p;
  Plan_file := Plan_file p;
  Plan_policy_name := Plan_policy_name p;
  Plan_phase_name := Plan_phase_name p;
  Plan_actions := Plan_actions p;
  Plan_warnings := Plan_warnings p;
  Plan_safeguard_violations := Plan_safeguard_violations p;
  Plan_skip_reason := Plan_skip_reason p;
  Plan_policy_hash := Plan_policy_hash p;
  Plan_evaluated_at := Plan_evaluated_at p;
  Plan_executor_hint := Plan_executor_hint p;
  Plan_session_id := Some session_id;
  Plan_scan_session := Some scan_session;
|}.

Definition apply_detection (file : MediaFile) (detection : u32 * string) : MediaFile :=
  let '(index, detected_language) := detection in
  match normalize_language detected_language with
  | None => file
  | Some normalized =>
      MediaFile_set_tracks file
        (update_first (λ t, (Track_index t =? index)%N) (λ t, Track_set_language t normalized)
           (MediaFile_tracks file)) (MediaFile_plugin_metadata file)
  end.

Definition apply_detected_languages (file : MediaFile) : MediaFile :=
  match MediaFile_plugin_metadata file !! AUDIO_LANGUAGE_DETECTOR_PLUGIN
          ≫= AudioLanguageMetadata_from_value with
  | None => file
  | Some detections => foldl apply_detection file (omap AudioLanguageDetection_from_value detections)
  end.

(** ** Counters: [mod.rs] *)
Record PhaseStats : Type := {
  PhaseStats_completed : u64;
  PhaseStats_skipped : u64;
  PhaseStats_failed : u64;
  PhaseStats_skip_reasons : gmap string u64;
}.

Definition PhaseStats_default : PhaseStats := {|
  PhaseStats_completed := 0;
  PhaseStats_skipped := 0;
  PhaseStats_failed := 0;
  PhaseStats_skip_reasons := ∅;
|}.

Inductive PhaseOutcomeKind : Type :=
| PhaseOutcomeKind_Completed
| PhaseOutcomeKind_Skipped (reason : string)
| PhaseOutcomeKind_Failed.

Definition count_phase_outcome (outcome : PhaseOutcomeKind) (e : PhaseStats) : PhaseStats :=
  match outcome with
  | PhaseOutcomeKind_Completed =>
      Build_PhaseStats (PhaseStats_completed e + 1) (PhaseStats_skipped e) (PhaseStats_failed e)
        (PhaseStats_skip_reasons e)
  | PhaseOutcomeKind_Skipped reason =>
      Build_PhaseStats (PhaseStats_completed e) (PhaseStats_skipped e + 1) (PhaseStats_failed e)
        (<[reason := (default 0 (PhaseStats_skip_reasons e !! reason) + 1)%N]>
           (PhaseStats_skip_reasons e))
  | PhaseOutcomeKind_Failed =>
      Build_PhaseStats (PhaseStats_completed e) (PhaseStats_skipped e) (PhaseStats_failed e + 1)
        (PhaseStats_skip_reasons e)
  end.

Record RunCounters : Type := {
  RunCounters_modified_count : u64;
  RunCounters_backup_bytes : u64;
  RunCounters_phase_stats : gmap string PhaseStats;
  RunCounters_plan_collector : list JValue;
  RunCounters_estimate_plans : list Plan;
}.

(** [fetch_add] wraps around. *)
Definition fetch_add (a b : u64) : u64 := ((a + b) mod 18446744073709551616)%N.

Definition record_phase_stat (phase_name : string) (outcome : PhaseOutcomeKind) (c : RunCounters)
    : RunCounters := {|
  RunCounters_modified_count := RunCounters_modified_count c;
  RunCounters_backup_bytes := RunCounters_backup_bytes c;
  RunCounters_phase_stats :=
    <[phase_name := count_phase_outcome outcome
        (default PhaseStats_default (RunCounters_phase_stats c !! phase_name))]>
      (RunCounters_phase_stats c);
  RunCounters_plan_collector := RunCounters_plan_collector c;
  RunCounters_estimate_plans := RunCounters_estimate_plans c;
|}.

Definition count_modified (c : RunCounters) : RunCounters := {|
  RunCounters_modified_count := fetch_add (RunCounters_modified_count c) 1;
  RunCounters_backup_bytes := RunCounters_backup_bytes c;
  RunCounters_phase_stats := RunCounters_phase_stats c;
  RunCounters_plan_collector := RunCounters_plan_collector c;
  RunCounters_estimate_plans := RunCounters_estimate_plans c;
|}.

Definition count_backup (size : u64) (c : RunCounters) : RunCounters := {|
  RunCounters_modified_count := RunCounters_modified_count c;
  RunCounters_backup_bytes := fetch_add (RunCounters_backup_bytes c) size;
  RunCounters_phase_stats := RunCounters_phase_stats c;
  RunCounters_plan_collector := RunCounters_plan_collector c;
  RunCounters_estimate_plans := RunCounters_estimate_plans c;
|}.

Definition collect_plans (plans_json : list JValue) (c : RunCounters) : RunCounters := {|
  RunCounters_modified_count := RunCounters_modified_count c;
  RunCounters_backup_bytes := RunCounters_backup_bytes c;
  RunCounters_phase_stats := RunCounters_phase_stats c;
  RunCounters_plan_collector := RunCounters_plan_collector c ++ plans_json;
  RunCounters_estimate_plans := RunCounters_estimate_plans c;
|}.

Definition collect_estimates (plans : list Plan) (c : RunCounters) : RunCounters := {|
  RunCounters_modified_count := RunCounters_modified_count c;
  RunCounters_backup_bytes := RunCounters_backup_bytes c;
  RunCounters_phase_stats := RunCounters_phase_stats c;
  RunCounters_plan_collector := RunCounters_plan_collector c;
  RunCounters_estimate_plans := RunCounters_estimate_plans c ++ plans;
|}.

(** ** The state and the interfaces *)
Record Pipe (S : Type) : Type := {
  pi_world : World S;
  pi_log : list PluginStatRecord;
  pi_counters : RunCounters;
}.
Arguments pi_world {S} _.
Arguments pi_log {S} _.
Arguments pi_counters {S} _.
Arguments Build_Pipe {S} _ _ _.

Definition Proc (S A : Type) : Type := Pipe S → A * Pipe S.

#[export] Instance proc_mret {S} : MRet (Proc S) := λ _ a st, (a, st).

#[export] Instance proc_mbind {S} : MBind (Proc S) := λ _ _ f m st,
  let '(a, st) := m st in f a st.

(** The methods of the store that the loop calls. *)
Class ProcessStorage (S : Type) := {
  record_transition : FileTransition → S → result VoomError unit * S;
  record_post_execution : option PathBuf → option string → FileTransition → S →
    result VoomError unit * S;
  delete_bad_file_by_path : PathBuf → S → result VoomError unit * S;
  upsert_file : MediaFile → S → result VoomError unit * S;
}.

(** [FfprobeIntrospectorPlugin::introspect] *)
Class Introspector (S : Type) :=
  introspect : PathBuf → u64 → option string → World S → result VoomError MediaFile * World S.

(** [voom_discovery::hash_file] *)
Class FileHash (S : Type) := hash_file : PathBuf → World S → result VoomError string * World S.

Record ProcessContext (S : Type) : Type := {
  ctx_resolver : PolicyResolver;
  ctx_kernel : Kernel (World S);
  ctx_dry_run : bool;
  ctx_plan_only : bool;
  ctx_estimate_mode : bool;
  ctx_flag_size_increase : bool;
  ctx_flag_duration_shrink : bool;
  ctx_force_rescan : bool;
  ctx_capabilities : CapabilityMap;
  ctx_confirm_savings : option u64;
  ctx_estimate_model : EstimateModel;
  ctx_session_id : Uuid;
  ctx_scan_session : Uuid;
}.
Arguments ctx_resolver {S} _.
Arguments ctx_kernel {S} _.
Arguments ctx_dry_run {S} _.
Arguments ctx_plan_only {S} _.
Arguments ctx_estimate_mode {S} _.
Arguments ctx_flag_size_increase {S} _.
Arguments ctx_flag_duration_shrink {S} _.
Arguments ctx_force_rescan {S} _.
Arguments ctx_capabilities {S} _.
Arguments ctx_confirm_savings {S} _.
Arguments ctx_estimate_model {S} _.
Arguments ctx_session_id {S} _.
Arguments ctx_scan_session {S} _.

(** [serde_json] on crop settings and on violations; [{e:#}] of [anyhow]; the debug
    text of a response. *)
Class CropSettingsJson := crop_settings_json : CropSettings → result string string.
Class ViolationsJson := violations_json : list SafeguardViolation → JValue.
Class AnyhowText := anyhow_text : VoomError → string.
Class ResponseDebug := response_debug : CallResponse → string.

(** [serde_json::to_value] of a plan, [None] if it fails *)
Class PlanJson := plan_to_value : Plan → option JValue.

(** [StorageTrait::file_by_path] *)
Class StoredFiles (S : Type) :=
  stored_file : PathBuf → S → result VoomError (option MediaFile) * S.

(** ** Jobs: [job.rs] and the beginning of [pipeline.rs] *)
Record DiscoveredFilePayload : Type := {
  DiscoveredFilePayload_path : string;
  DiscoveredFilePayload_size : u64;
  DiscoveredFilePayload_content_hash : option string;
  DiscoveredFilePayload_needs_reintrospect : bool;
}.

Definition json_as_u64 (v : JValue) : option u64 :=
  match v with JNumber (Number_PosInt n) => Some n | _ => None end.

Definition json_as_bool (v : JValue) : option bool :=
  match v with JBool b => Some b | _ => None end.

Definition json_as_opt_string (v : JValue) : option (option string) :=
  match v with JNull => Some None | JString s => Some (Some s) | _ => None end.

(** [serde_json::from_value]: a struct is read from an object or from an array of its
    fields; an absent [content_hash] is [None] in an object, and the last field has a
    default. *)
Definition DiscoveredFilePayload_from_value (v : JValue) : option DiscoveredFilePayload :=
  '(path, size, hash, flag) ←
    match v with
    | JObject _ =>
        path ← JValue_get "path" v; size ← JValue_get "size" v;
        Some (path, size, default JNull (JValue_get "content_hash" v),
              default (JBool false) (JValue_get "needs_reintrospect" v))
    | JArray [path; size; hash] => Some (path, size, hash, JBool false)
    | JArray [path; size; hash; flag] => Some (path, size, hash, flag)
    | _ => None
    end;
  path ← json_as_string path;
  size ← json_as_u64 size;
  hash ← json_as_opt_string hash;
  flag ← json_as_bool flag;
  Some (Build_DiscoveredFilePayload path size hash flag).

Definition parse_job_payload (job : Job) : result string DiscoveredFilePayload :=
  match Job_payload job with
  | None => Err "missing payload"
  | Some raw_payload =>
      match DiscoveredFilePayload_from_value raw_payload with
      | Some payload => Ok payload
      | None => Err "invalid payload"
      end
  end.

Definition matches_discovery (stored : MediaFile) (discovered_size : u64)
    (discovered_hash : option string) : bool :=
  let hash_match :=
    match MediaFile_content_hash stored, discovered_hash with
    | Some s, Some d => bool_decide (s = d)
    | _, _ => false
    end in
  bool_decide (MediaFile_status stored = FileStatus_Active)
  && (MediaFile_size stored =? discovered_size)%N && hash_match
  && match MediaFile_tracks stored with [] => false | _ => true end.

#[export] Instance CropRect_eq_dec : EqDecision CropRect.
Proof. solve_decision. Defined.

#[export] Instance CropDetection_eq_dec : EqDecision CropDetection.
Proof. solve_decision. Defined.

Section process.
Context {S : Type} `{Clock (World S)} `{QueryDebug} `{Unicode} `{UuidText} `{Volume} `{Ambient S}.
Context `{Children} `{ProcessStorage S} `{Introspector S} `{FileHash S} `{CropSettingsJson}.
Context `{ViolationsJson} `{AnyhowText} `{ResponseDebug} (to_str : string → option string).
(** Whether the run has been cancelled. *)
Context (cancelled : Pipe S → bool).
Context (ctx : ProcessContext S).
Implicit Types (plan : Plan) (file : MediaFile) (st : Pipe S).

Definition on_world {A} (f : World S → A * World S) : Proc S A := λ st,
  let '(a, w) := f (pi_world st) in (a, Build_Pipe w (pi_log st) (pi_counters st)).

Definition on_store {A} (f : S → A * S) : Proc S A :=
  on_world (λ w, let '(a, s) := f (w_store w) in (a, Build_World (w_files w) s (w_faults w))).

Definition read_world {A} (f : World S → A) : Proc S A := λ st, (f (pi_world st), st).

Definition count (f : RunCounters → RunCounters) : Proc S unit := λ st,
  (tt, Build_Pipe (pi_world st) (pi_log st) (f (pi_counters st))).

(** ** [dispatch.rs]: plugin errors are only logged. *)
Definition dispatch_and_log (event : Event) : Proc S (list EventResult) := λ st,
  let '(results, w, log) := dispatch (ctx_kernel ctx) event (pi_world st) (pi_log st) in
  (results, Build_Pipe w log (pi_counters st)).

Definition PlanDispatcher_created plan : Proc S unit :=
  _ ← dispatch_and_log (Event_PlanCreated {| PlanCreatedEvent_plan := plan |}); mret tt.

Definition PlanDispatcher_begin plan file : Proc S (list EventResult) :=
  _ ← dispatch_and_log (Event_PlanExecuting {|
        PlanExecutingEvent_plan_id := Plan_id plan;
        PlanExecutingEvent_path := MediaFile_path file;
        PlanExecutingEvent_phase_name := Plan_phase_name plan;
        PlanExecutingEvent_action_count := length (Plan_actions plan);
      |});
  dispatch_and_log (Event_PlanCreated {| PlanCreatedEvent_plan := plan |}).

Definition PlanDispatcher_completed plan file (keep_backups : bool) : Proc S unit :=
  _ ← dispatch_and_log (Event_PlanCompleted {|
        PlanCompletedEvent_plan_id := Plan_id plan;
        PlanCompletedEvent_path := MediaFile_path file;
        PlanCompletedEvent_phase_name := Plan_phase_name plan;
        PlanCompletedEvent_actions_applied := length (Plan_actions plan);
        PlanCompletedEvent_keep_backups := keep_backups;
      |});
  mret tt.

Definition PlanDispatcher_skipped plan file (reason : string) : Proc S unit :=
  _ ← dispatch_and_log (Event_PlanSkipped {|
        PlanSkippedEvent_plan_id := Plan_id plan;
        PlanSkippedEvent_path := MediaFile_path file;
        PlanSkippedEvent_phase_name := Plan_phase_name plan;
        PlanSkippedEvent_skip_reason := reason;
      |});
  mret tt.

Definition PlanDispatcher_failed (event : PlanFailedEvent) : Proc S unit :=
  _ ← dispatch_and_log (Event_PlanFailed event); mret tt.

Definition execute_single_plan plan file : Proc S PlanOutcome :=
  results ← PlanDispatcher_begin plan file;
  mret (PlanOutcome_from_event_result results plan file).

Definition dispatch_skipped_plan plan file (reason : string) : Proc S unit :=
  _ ← PlanDispatcher_created plan;
  _ ← PlanDispatcher_skipped plan file reason;
  count (record_phase_stat (Plan_phase_name plan) (PhaseOutcomeKind_Skipped reason)).

Definition dispatch_plan_failure (failed : PlanFailedEvent) (phase_name : string) : Proc S unit :=
  _ ← PlanDispatcher_failed failed;
  count (record_phase_stat phase_name PhaseOutcomeKind_Failed).

(** ** [transitions.rs] *)
Definition transition_record_error (operation : string) (path : PathBuf) (phase_name : string)
    (plan_id : Uuid) (error : VoomError) : VoomError :=
  let message := "failed to record " +:+ operation +:+ " for file '" +:+ to_string_lossy path
    +:+ "' in phase '" +:+ phase_name +:+ "' for plan " +:+ Uuid_to_string plan_id +:+ ": "
    +:+ VoomError_to_string error in
  match error with
  | VoomError_Storage kind _ => VoomError_Storage kind message
  | _ => VoomError_Storage StorageErrorKind_Other message
  end.

(** [FileTransition::new] and the setters that both records use. *)
Definition voom_transition (w : World S) (old new : MediaFile) plan (executor : string)
    (elapsed_ms : u64) (actions_taken tracks_modified : u32) (outcome : ProcessingOutcome)
    (snapshot : option MetadataSnapshot) (error_message : option string)
    (from_path : option PathBuf) : FileTransition := {|
  FileTransition_id := new_v4 w;
  FileTransition_file_id := MediaFile_id old;
  FileTransition_path := MediaFile_path new;
  FileTransition_from_path := from_path;
  FileTransition_from_hash := MediaFile_content_hash old;
  FileTransition_to_hash := default "" (MediaFile_content_hash new);
  FileTransition_from_size := Some (MediaFile_size old);
  FileTransition_to_size := MediaFile_size new;
  FileTransition_source := TransitionSource_Voom;
  FileTransition_source_detail := Some executor;
  FileTransition_plan_id := Some (Plan_id plan);
  FileTransition_created_at := utc_now w;
  FileTransition_duration_ms := Some elapsed_ms;
  FileTransition_actions_taken := Some actions_taken;
  FileTransition_tracks_modified := Some tracks_modified;
  FileTransition_outcome := Some outcome;
  FileTransition_policy_name := Some (Plan_policy_name plan);
  FileTransition_phase_name := Some (Plan_phase_name plan);
  FileTransition_metadata_snapshot := snapshot;
  FileTransition_error_message := error_message;
  FileTransition_session_id := Some (ctx_session_id ctx);
|}.

Definition record_file_transition (old_file new_file : MediaFile) (executor : string)
    (elapsed_ms : u64) (actions_taken tracks_modified : u32) plan : Proc S (result VoomError unit) :=
  let hash_changed :=
    negb (bool_decide (MediaFile_content_hash new_file = MediaFile_content_hash old_file)) in
  let path_changed := negb (path_eqb (MediaFile_path old_file) (MediaFile_path new_file)) in
  if negb hash_changed && negb path_changed then mret (Ok tt)
  else
    w ← read_world id;
    let transition :=
      voom_transition w old_file new_file plan executor elapsed_ms actions_taken tracks_modified
        ProcessingOutcome_Success (Some (MetadataSnapshot_from_media_file new_file)) None
        (if path_changed then Some (MediaFile_path old_file) else None) in
    r ← on_store (record_post_execution
          (if path_changed then Some (MediaFile_path new_file) else None)
          (if hash_changed then MediaFile_content_hash new_file else None) transition);
    mret (match r with
          | Ok _ => Ok tt
          | Err e => Err (transition_record_error "post-execution transition"
                            (MediaFile_path old_file) (Plan_phase_name plan) (Plan_id plan) e)
          end).

Definition record_failure_transition file plan (executor : string) (error_message : option string)
    : Proc S (result VoomError unit) :=
  w ← read_world id;
  r ← on_store (record_transition
        (voom_transition w file file plan executor 0 0 0 ProcessingOutcome_Failure None
           error_message None));
  mret (match r with
        | Ok _ => Ok tt
        | Err e => Err (transition_record_error "failure transition" (MediaFile_path file)
                          (Plan_phase_name plan) (Plan_id plan) e)
        end).

(** ** [safeguards.rs] *)
Definition record_safeguard_failure plan file (message : string) : Proc S unit :=
  _ ← PlanDispatcher_failed
        (PlanFailedEvent_new (Plan_id plan) (MediaFile_path file) (Plan_phase_name plan) message);
  _ ← count (record_phase_stat (Plan_phase_name plan) PhaseOutcomeKind_Failed);
  _ ← record_failure_transition file plan "" (Some message);
  mret tt.

(** A converted output is removed; the error is only logged. *)
Definition remove_converted file (check_path : PathBuf) : Proc S unit := λ st,
  if path_eqb check_path (MediaFile_path file) then (tt, st)
  else (tt, Build_Pipe (remove_quietly check_path (pi_world st)) (pi_log st) (pi_counters st)).

Definition check_size_increase plan file : Proc S bool :=
  if negb (ctx_flag_size_increase ctx) then mret false
  else
    check_path ← read_world (resolve_post_execution_path file [plan]);
    r ← on_world (fs_len check_path);
    match r with
    | Err _ => mret false
    | Ok new_size =>
        if (new_size <=? MediaFile_size file)%N || (MediaFile_size file =? 0)%N then mret false
        else
          _ ← remove_converted file check_path;
          _ ← record_safeguard_failure plan file
                ("output grew from " +:+ pretty (MediaFile_size file) +:+ " to " +:+ pretty new_size
                 +:+ " bytes");
          mret true
    end.

Definition DURATION_SHRINK_THRESHOLD_PCT : f64 := f64_of_Z 5.

Definition duration_shrunk_pct (orig new : f64) : f64 :=
  if f64_leb orig (f64_of_Z 0) || f64_leb orig new then f64_of_Z 0
  else f64_mul (f64_div (f64_sub orig new) orig) (f64_of_Z 100).

Inductive DurationShrinkOutcome : Type :=
| DurationShrinkOutcome_Shrunk (check_path : PathBuf) (new_duration pct : f64)
| DurationShrinkOutcome_FfprobeFailed (check_path : PathBuf) (error : string).

Definition check_duration_shrink_blocking plan file : Proc S (option DurationShrinkOutcome) :=
  check_path ← read_world (resolve_post_execution_path file [plan]);
  r ← on_world (fs_len check_path);
  match r with
  | Err _ => mret None
  | Ok new_size =>
      r ← on_world (introspect check_path new_size None);
      match r with
      | Err e => mret (Some (DurationShrinkOutcome_FfprobeFailed check_path (VoomError_to_string e)))
      | Ok f =>
          let new_duration := MediaFile_duration f in
          let pct := duration_shrunk_pct (MediaFile_duration file) new_duration in
          if f64_ltb pct DURATION_SHRINK_THRESHOLD_PCT then mret None
          else mret (Some (DurationShrinkOutcome_Shrunk check_path new_duration pct))
      end
  end.

Definition check_duration_shrink plan file : Proc S bool := λ st,
  if negb (ctx_flag_duration_shrink ctx) || f64_leb (MediaFile_duration file) (f64_of_Z 0)
     || cancelled st
  then (false, st)
  else
    (outcome ← check_duration_shrink_blocking plan file;
     match outcome with
     | None => mret false
     | Some outcome =>
         let '(check_path, err_msg) :=
           match outcome with
           | DurationShrinkOutcome_Shrunk check_path new_duration pct =>
               (check_path, "output duration shrank from " +:+ fmt_f64_n 2 (MediaFile_duration file)
                  +:+ "s to " +:+ fmt_f64_n 2 new_duration +:+ "s (" +:+ fmt_f64_n 1 pct +:+ "%)")
           | DurationShrinkOutcome_FfprobeFailed check_path error =>
               (check_path, "duration-shrink check: ffprobe failed to introspect output "
                  +:+ to_string_lossy check_path +:+ ": " +:+ error)
           end in
         _ ← remove_converted file check_path;
         _ ← record_safeguard_failure plan file err_msg;
         mret true
     end) st.

Definition insufficient_space (required available : u64) (check_path : PathBuf) : string :=
  "insufficient disk space: need " +:+ format_size required +:+ " but only "
  +:+ format_size available +:+ " available on " +:+ to_string_lossy check_path.

Definition check_disk_space plan file : Proc S bool :=
  let check_path := default "/" (path_parent (MediaFile_path file)) in
  r ← on_world (available_space check_path);
  match r with
  | Returned (Ok available) =>
      required ← on_world (estimate_required_space plan (MediaFile_size file));
      if (required <=? available)%N then mret false
      else
        _ ← record_safeguard_failure plan file (insufficient_space required available check_path);
        mret true
  | _ => mret false
  end.

Definition dispatch_safeguard_violations plan file : Proc S unit :=
  match Plan_safeguard_violations plan with
  | [] => mret tt
  | violations =>
      let tagged := MediaFile_set_tracks file (MediaFile_tracks file)
        (<["safeguard_violations" := violations_json violations]> (MediaFile_plugin_metadata file)) in
      _ ← dispatch_and_log (Event_FileIntrospected
            {| FileIntrospectedEvent_file := tagged; FileIntrospectedEvent_scan_session := None |});
      mret tt
  end.

(** ** Calls: [kernel_invoke.rs] *)
Definition call_exclusive (capability : Capability) (call : Call)
    : Proc S (result VoomError CallResponse) := λ st,
  let '(r, w, log) := dispatch_to_capability (ctx_kernel ctx)
                        (CapabilityQuery_Exclusive (Capability_kind capability)) call
                        (pi_world st) (pi_log st) in
  (r, Build_Pipe w log (pi_counters st)).

Definition kernel_evaluate (policy : CompiledPolicy) file (phase : option string)
    (phase_outcomes : option (gmap string EvaluationOutcome))
    (capabilities_override : option CapabilityMap) : Proc S (result string EvaluationResult) :=
  r ← call_exclusive Capability_EvaluatePolicy
        (Call_EvaluatePolicy policy file phase None phase_outcomes capabilities_override);
  mret (match r with
        | Err e => Err (anyhow_text e)
        | Ok (CallResponse_EvaluatePolicy result) => Ok result
        | Ok other => Err ("evaluate dispatch returned wrong CallResponse variant: "
                             +:+ response_debug other)
        end).

Definition kernel_orchestrate (plans : list Plan) (policy_name : string)
    : Proc S (result string OrchestrationResult) :=
  r ← call_exclusive Capability_OrchestratePhases (Call_Orchestrate plans policy_name);
  mret (match r with
        | Err e => Err (anyhow_text e)
        | Ok (CallResponse_Orchestrate result) => Ok result
        | Ok other => Err ("orchestrate dispatch returned wrong CallResponse variant: "
                             +:+ response_debug other)
        end).

(** ** The phase loop: [pipeline.rs] *)

(** A reason to leave the file alone. *)
Definition check_file_hash file : Proc S (option string) :=
  match MediaFile_content_hash file with
  | None => mret None
  | Some stored_hash =>
      r ← on_world (hash_file (MediaFile_path file));
      mret (match r with
            | Ok current_hash =>
                if bool_decide (current_hash = stored_hash) then None
                else Some "file changed since introspection"
            | Err e => Some ("hash check failed: " +:+ VoomError_to_string e)
            end)
  end.

(** The end of [introspect_file_inner] after an error *)
Definition introspection_failed (path : PathBuf) (size : u64) (hash : option string) (e : VoomError)
    : Proc S (result VoomError MediaFile) :=
  _ ← dispatch_and_log (Event_FileIntrospectionFailed {|
        FileIntrospectionFailedEvent_path := path;
        FileIntrospectionFailedEvent_size := size;
        FileIntrospectionFailedEvent_content_hash := hash;
        FileIntrospectionFailedEvent_error := VoomError_to_string e;
        FileIntrospectionFailedEvent_error_source := BadFileSource_Introspection;
      |});
  mret (Err (VoomError_plugin "ffprobe"
    ("introspection failed for " +:+ to_string_lossy path +:+ ": " +:+ VoomError_to_string e))).

(** [introspect_file_no_dispatch]: only failures are reported to the plugins. *)
Definition introspect_file_no_dispatch (path : PathBuf) (size : u64) (hash : option string)
    : Proc S (result VoomError MediaFile) :=
  r ← on_world (introspect path size hash);
  match r with
  | Ok f => mret (Ok f)
  | Err e => introspection_failed path size hash e
  end.

Definition reintrospect_file file (current_path : PathBuf) : Proc S MediaFile := λ st,
  if negb (path_exists current_path (pi_world st)) then (file, st)
  else
    (size ← on_world (fs_len current_path);
     let size := match size with Ok n => n | Err _ => MediaFile_size file end in
     hash ← on_world (hash_file current_path);
     let hash := match hash with Ok h => Some h | Err _ => None end in
     r ← introspect_file_no_dispatch current_path size hash;
     mret (match r with
           | Ok new_file =>
               let new_file := preserve_persisted_file_identity file new_file in
               apply_detected_languages
                 (MediaFile_set_tracks new_file (MediaFile_tracks new_file)
                    (MediaFile_plugin_metadata new_file ∪ MediaFile_plugin_metadata file))
           | Err _ =>
               MediaFile_relocated file current_path size
                 (Container_from_extension (default "" (path_extension current_path ≫= to_str))) hash
           end)) st.

Definition handle_plan_success plan file (executor : string) (elapsed_ms : u64)
    (keep_backups : bool) : Proc S (result VoomError MediaFile) :=
  _ ← (if keep_backups then count (count_backup (MediaFile_size file)) else mret tt);
  _ ← PlanDispatcher_completed plan file keep_backups;
  _ ← count (record_phase_stat (Plan_phase_name plan) PhaseOutcomeKind_Completed);
  let actions_taken := len_u32 (Plan_actions plan) in
  let tracks_modified :=
    len_u32 (List.filter (λ a, bool_decide (is_Some (PlannedAction_track_index a)))
               (Plan_actions plan)) in
  post_exec_path ← read_world (resolve_post_execution_path file [plan]);
  new_file ← reintrospect_file file post_exec_path;
  r ← record_file_transition file new_file executor elapsed_ms actions_taken tracks_modified plan;
  match r with
  | Err e => mret (Err e)
  | Ok _ =>
      _ ← on_store (delete_bad_file_by_path (MediaFile_path new_file));
      mret (Ok new_file)
  end.

(** *** Automatic cropping *)
Definition crop_settings_of (a : PlannedAction) : option CropSettings :=
  if bool_decide (PlannedAction_operation a = Op_TranscodeVideo) then
    match PlannedAction_parameters a with
    | AP_Transcode _ settings => TranscodeSettings_crop settings
    | _ => None
    end
  else None.

Definition plan_requires_auto_crop plan : bool :=
  existsb (λ a, bool_decide (is_Some (crop_settings_of a))) (Plan_actions plan).

Definition cropdetect_request_for_plan plan file : option (CropSettings * CropDetectSource) :=
  action ← List.find (λ a, bool_decide (is_Some (crop_settings_of a))) (Plan_actions plan);
  crop_settings ← crop_settings_of action;
  track_index ← PlannedAction_track_index action;
  track ← List.find (λ t, (Track_index t =? track_index)%N
                          && bool_decide (Track_track_type t = TrackType_Video))
            (MediaFile_tracks file);
  width ← Track_width track;
  height ← Track_height track;
  Some (crop_settings, {| CropDetectSource_width := width; CropDetectSource_height := height;
                          CropDetectSource_duration_secs := MediaFile_duration file |}).

Definition apply_auto_crop_detection plan file : Proc S (result string (Plan * MediaFile)) :=
  match cropdetect_request_for_plan plan file with
  | None => mret (Ok (plan, file))
  | Some (settings, source) =>
      match crop_settings_json settings with
      | Err e => mret (Err ("failed to fingerprint crop settings: " +:+ e))
      | Ok fingerprint =>
          if bool_decide (MediaFile_crop_detection file ≫= CropDetection_settings_fingerprint
                          = Some fingerprint)
          then mret (Ok (Plan_set_file plan file, file))
          else
            now ← read_world utc_now;
            r ← on_world (detect_crop "ffmpeg" (MediaFile_path file) source settings now);
            match r with
            | Err e => mret (Err ("crop detection failed: " +:+ VoomError_to_string e))
            | Ok d =>
                let detection :=
                  (λ d, CropDetection_with_settings_fingerprint d fingerprint) <$> d in
                if bool_decide (MediaFile_crop_detection file = detection)
                then mret (Ok (plan, file))
                else
                  let updated := MediaFile_set_crop_detection file detection in
                  r ← on_store (upsert_file updated);
                  mret (match r with
                        | Err e => Err ("failed to persist crop detection: " +:+ VoomError_to_string e)
                        | Ok _ => Ok (Plan_set_file plan updated, updated)
                        end)
            end
      end
  end.

Definition savings_below_threshold plan (w : World S) : bool :=
  match ctx_confirm_savings ctx with
  | None => false
  | Some threshold =>
      let input := {| EstimateInput_plans := [plan]; EstimateInput_workers := 1;
                      EstimateInput_estimated_at := utc_now w |} in
      let estimate := estimate_plans (new_v4 w) input (ctx_estimate_model ctx) in
      (EstimateRun_bytes_saved estimate <? as_i64 threshold)%Z
  end.

(** *** One phase *)
Record LoopState : Type := {
  ls_file : MediaFile;
  ls_outcomes : gmap string EvaluationOutcome;
  ls_any_executed : bool;
  ls_modified_counted : bool;
  ls_plans_evaluated : usize;
  ls_failed_plan_count : usize;
  ls_all_plans : list Plan;
}.

(** How an iteration of the loop ends. *)
Inductive Flow : Type :=
| Flow_Continue
| Flow_Break
| Flow_Return (error : string).

Definition set_outcome (phase : string) (o : EvaluationOutcome) (ls : LoopState) : LoopState := {|
  ls_file := ls_file ls;
  ls_outcomes := <[phase := o]> (ls_outcomes ls);
  ls_any_executed := ls_any_executed ls;
  ls_modified_counted := ls_modified_counted ls;
  ls_plans_evaluated := ls_plans_evaluated ls;
  ls_failed_plan_count := ls_failed_plan_count ls;
  ls_all_plans := ls_all_plans ls;
|}.

Definition set_failed (phase : string) (o : EvaluationOutcome) (ls : LoopState) : LoopState := {|
  ls_file := ls_file ls;
  ls_outcomes := <[phase := o]> (ls_outcomes ls);
  ls_any_executed := ls_any_executed ls;
  ls_modified_counted := ls_modified_counted ls;
  ls_plans_evaluated := ls_plans_evaluated ls;
  ls_failed_plan_count := ls_failed_plan_count ls + 1;
  ls_all_plans := ls_all_plans ls;
|}.

Definition set_file (file : MediaFile) (ls : LoopState) : LoopState := {|
  ls_file := file;
  ls_outcomes := ls_outcomes ls;
  ls_any_executed := ls_any_executed ls;
  ls_modified_counted := ls_modified_counted ls;
  ls_plans_evaluated := ls_plans_evaluated ls;
  ls_failed_plan_count := ls_failed_plan_count ls;
  ls_all_plans := ls_all_plans ls;
|}.

(** A plan has been evaluated. *)
Definition push_plan plan (ls : LoopState) : LoopState := {|
  ls_file := ls_file ls;
  ls_outcomes := ls_outcomes ls;
  ls_any_executed := ls_any_executed ls;
  ls_modified_counted := ls_modified_counted ls;
  ls_plans_evaluated := ls_plans_evaluated ls + 1;
  ls_failed_plan_count := ls_failed_plan_count ls;
  ls_all_plans := ls_all_plans ls ++ [plan];
|}.

(** A plan has been executed and passed the checks. *)
Definition set_executed (phase : string) (ls : LoopState) : LoopState := {|
  ls_file := ls_file ls;
  ls_outcomes := <[phase := EvaluationOutcome_Executed true]> (ls_outcomes ls);
  ls_any_executed := true;
  ls_modified_counted := true;
  ls_plans_evaluated := ls_plans_evaluated ls;
  ls_failed_plan_count := ls_failed_plan_count ls;
  ls_all_plans := ls_all_plans ls;
|}.

(** After a successful execution: the checks of the output, then completion. *)
Definition finish_success (phase_name : string) plan (executor : string) (elapsed_ms : u64)
    (keep_backups : bool) (ls : LoopState) : Proc S (Flow * LoopState) :=
  grew ← check_size_increase plan (ls_file ls);
  if (grew : bool) then
    mret (Flow_Continue, set_failed phase_name EvaluationOutcome_SafeguardFailed ls)
  else
    shrunk ← check_duration_shrink plan (ls_file ls);
    if (shrunk : bool) then
      mret (Flow_Continue, set_failed phase_name EvaluationOutcome_SafeguardFailed ls)
    else
      _ ← (if ls_modified_counted ls then mret tt else count count_modified);
      r ← handle_plan_success plan (ls_file ls) executor elapsed_ms keep_backups;
      mret (match r with
            | Err e => (Flow_Return (VoomError_to_string e), set_executed phase_name ls)
            | Ok new_file => (Flow_Continue, set_file new_file (set_executed phase_name ls))
            end).

Definition finish_failure plan (failed : PlanFailedEvent) (ls : LoopState)
    : Proc S (Flow * LoopState) :=
  _ ← dispatch_plan_failure failed (Plan_phase_name plan);
  r ← record_failure_transition (ls_file ls) plan
        (default "" (PlanFailedEvent_plugin_name failed)) (Some (PlanFailedEvent_error failed));
  mret (match r with
        | Err e => (Flow_Return (VoomError_to_string e), ls)
        | Ok _ => (Flow_Continue, set_failed (Plan_phase_name plan) EvaluationOutcome_ExecutionFailed ls)
        end).

Definition execute_phase (phase_name : string) plan (keep_backups : bool) (ls : LoopState)
    : Proc S (Flow * LoopState) := λ st,
  let '(exec_outcome, st') := execute_single_plan plan (ls_file ls) st in
  let elapsed_ms := clock_elapsed_ms (pi_world st) (pi_world st') in
  match exec_outcome with
  | PlanOutcome_Success executor =>
      finish_success phase_name plan executor elapsed_ms keep_backups ls st'
  | PlanOutcome_Failed failed => finish_failure plan failed ls st'
  end.

(** The disk is checked before the permit is taken, unless cropping has taken it. *)
Definition check_and_execute (phase_name : string) plan (has_permit keep_backups : bool)
    (ls : LoopState) : Proc S (Flow * LoopState) :=
  full ← check_disk_space plan (ls_file ls);
  if (full : bool) then
    mret (Flow_Continue, set_failed phase_name EvaluationOutcome_SafeguardFailed ls)
  else λ st,
    if negb has_permit && cancelled st then ((Flow_Break, ls), st)
    else execute_phase phase_name plan keep_backups ls st.

Definition crop_and_execute (phase_name : string) plan (keep_backups : bool) (ls : LoopState)
    : Proc S (Flow * LoopState) := λ st,
  if negb (plan_requires_auto_crop plan)
  then check_and_execute phase_name plan false keep_backups ls st
  else if cancelled st then ((Flow_Break, ls), st)
  else
    (r ← apply_auto_crop_detection plan (ls_file ls);
     match r with
     | Err error =>
         let failed := PlanFailedEvent_new (Plan_id plan) (MediaFile_path (ls_file ls))
                         (Plan_phase_name plan) error in
         _ ← dispatch_plan_failure (PlanFailedEvent_by failed (Some "ffmpeg-executor") None)
               (Plan_phase_name plan);
         mret (Flow_Continue, set_failed phase_name EvaluationOutcome_ExecutionFailed ls)
     | Ok (plan, file) => check_and_execute phase_name plan true keep_backups (set_file file ls)
     end) st.

(** What becomes of an evaluated plan. *)
Definition run_plan (phase_name : string) plan (keep_backups : bool) (ls : LoopState)
    : Proc S (Flow * LoopState) := λ st,
  if savings_below_threshold plan (pi_world st) then
    (_ ← count (record_phase_stat (Plan_phase_name plan)
                  (PhaseOutcomeKind_Skipped "estimated savings below threshold"));
     mret (Flow_Continue, set_outcome phase_name EvaluationOutcome_Skipped ls)) st
  else
    (_ ← dispatch_safeguard_violations plan (ls_file ls);
     match Plan_skip_reason plan with
     | Some reason =>
         _ ← dispatch_skipped_plan plan (ls_file ls) reason;
         mret (Flow_Continue, set_outcome phase_name EvaluationOutcome_Skipped ls)
     | None =>
         if Plan_is_empty plan
         then mret (Flow_Continue, set_outcome phase_name (EvaluationOutcome_Executed false) ls)
         else crop_and_execute phase_name plan keep_backups ls
     end) st.

Definition run_phase (compiled : CompiledPolicy) (phase_name : string) (ls : LoopState)
    : Proc S (Flow * LoopState) := λ st,
  if cancelled st then ((Flow_Break, ls), st)
  else
    (r ← kernel_evaluate compiled (ls_file ls) (Some phase_name) (Some (ls_outcomes ls))
           (Some (ctx_capabilities ctx));
     match r with
     | Err e => mret (Flow_Return ("evaluate dispatch failed for phase " +:+ phase_name +:+ ": "
                                     +:+ e), ls)
     | Ok result =>
         match EvaluationResult_plans result with
         | [] => mret (Flow_Continue, ls)
         | plan :: _ =>
             let plan := Plan_with_sessions plan (ctx_session_id ctx) (ctx_scan_session ctx) in
             run_plan phase_name plan (CompiledConfig_keep_backups (CompiledPolicy_config compiled))
               (push_plan plan ls)
         end
     end) st.

Fixpoint run_phases (compiled : CompiledPolicy) (phases : list string) (ls : LoopState)
    : Proc S (result string unit * LoopState) :=
  match phases with
  | [] => mret (Ok tt, ls)
  | phase_name :: phases =>
      '(flow, ls) ← run_phase compiled phase_name ls;
      match flow with
      | Flow_Continue => run_phases compiled phases ls
      | Flow_Break => mret (Ok tt, ls)
      | Flow_Return error => mret (Err error, ls)
      end
  end.

Definition LoopState_init file : LoopState := {|
  ls_file := file;
  ls_outcomes := ∅;
  ls_any_executed := false;
  ls_modified_counted := false;
  ls_plans_evaluated := 0;
  ls_failed_plan_count := 0;
  ls_all_plans := [];
|}.

Definition skipped_json file (reason : string) : JValue :=
  json_object [("path", JString (to_string_lossy (MediaFile_path file)));
               ("skipped", JBool true); ("reason", JString reason)].

Definition process_single_file_execute_inner file (compiled : CompiledPolicy)
    : Proc S (result string (option JValue) * list Plan) :=
  skip ← check_file_hash file;
  match skip with
  | Some reason => mret (Ok (Some (skipped_json file reason)), [])
  | None =>
      let path_str := to_string_lossy (MediaFile_path file) in
      '(r, ls) ← run_phases compiled (CompiledPolicy_phase_order compiled) (LoopState_init file);
      mret (match r with
            | Err error => Err error
            | Ok _ =>
                if (0 <? ls_failed_plan_count ls)%nat
                then Err (pretty (N.of_nat (ls_failed_plan_count ls))
                          +:+ " executable plan(s) failed for " +:+ path_str)
                else Ok (Some (json_object
                       [("path", JString path_str); ("needs_execution", JBool (ls_any_executed ls));
                        ("plans_evaluated", json_u64 (N.of_nat (ls_plans_evaluated ls)))]))
            end, ls_all_plans ls)
  end.

(** The orchestrator is called in any case; its errors are only logged. *)
Definition process_single_file_execute file (compiled : CompiledPolicy)
    : Proc S (result string (option JValue)) :=
  '(inner_result, all_plans) ← process_single_file_execute_inner file compiled;
  _ ← kernel_orchestrate all_plans (CompiledPolicy_name compiled);
  mret inner_result.

(** ** The dry run *)
Context `{PlanJson}.

Definition orchestrate_plans (compiled : CompiledPolicy) file
    : Proc S (result string OrchestrationResult) :=
  r ← kernel_evaluate compiled file None None (Some (ctx_capabilities ctx));
  match r with
  | Err e => mret (Err ("evaluate dispatch failed (dry-run): " +:+ e))
  | Ok result =>
      r ← kernel_orchestrate (EvaluationResult_plans result) (CompiledPolicy_name compiled);
      mret (match r with
            | Err e => Err ("orchestrate dispatch failed (dry-run): " +:+ e)
            | Ok result => Ok result
            end)
  end.

Definition Plan_push_violation plan (violation : SafeguardViolation) : Plan := {|
  Plan_id := Plan_id plan;
  Plan_file := Plan_file plan;
  Plan_policy_name := Plan_policy_name plan;
  Plan_phase_name := Plan_phase_name plan;
  Plan_actions := Plan_actions plan;
  Plan_warnings := Plan_warnings plan;
  Plan_safeguard_violations := Plan_safeguard_violations plan ++ [violation];
  Plan_skip_reason := Plan_skip_reason plan;
  Plan_policy_hash := Plan_policy_hash plan;
  Plan_evaluated_at := Plan_evaluated_at plan;
  Plan_executor_hint := Plan_executor_hint plan;
  Plan_session_id := Plan_session_id plan;
  Plan_scan_session := Plan_scan_session plan;
|}.

(** The body of the loop over the plans *)
Definition annotate_plan (available : u64) (check_path : PathBuf) file plan : Proc S Plan :=
  if Plan_is_skipped plan || Plan_is_empty plan then mret plan
  else
    required ← on_world (estimate_required_space plan (MediaFile_size file));
    mret (if (available <? required)%N
          then Plan_push_violation plan
                 (SafeguardViolation_new SafeguardKind_DiskSpaceLow
                    (insufficient_space required available check_path) (Plan_phase_name plan))
          else plan).

Fixpoint annotate_plans (available : u64) (check_path : PathBuf) file (plans : list Plan)
    : Proc S (list Plan) :=
  match plans with
  | [] => mret []
  | plan :: plans =>
      plan ← annotate_plan available check_path file plan;
      plans ← annotate_plans available check_path file plans;
      mret (plan :: plans)
  end.

(** The plans of the result, annotated *)
Definition annotate_disk_space_violations (plans : list Plan) file : Proc S (list Plan) :=
  let check_path := default "/" (path_parent (MediaFile_path file)) in
  r ← on_world (available_space check_path);
  match r with
  | Returned (Ok available) => annotate_plans available check_path file plans
  | _ => mret plans
  end.

Definition collect_safeguard_violations file (plans : list Plan) : Proc S unit :=
  match concat (Plan_safeguard_violations <$> plans) with
  | [] => mret tt
  | violations =>
      let tagged := MediaFile_set_tracks file (MediaFile_tracks file)
        (<["safeguard_violations" := violations_json violations]> (MediaFile_plugin_metadata file)) in
      _ ← dispatch_and_log (Event_FileIntrospected
            {| FileIntrospectedEvent_file := tagged; FileIntrospectedEvent_scan_session := None |});
      mret tt
  end.

Definition dry_run_stat plan (c : RunCounters) : RunCounters :=
  if Plan_is_skipped plan then
    record_phase_stat (Plan_phase_name plan)
      (PhaseOutcomeKind_Skipped (default "unknown" (Plan_skip_reason plan))) c
  else if negb (Plan_is_empty plan) then
    record_phase_stat (Plan_phase_name plan) PhaseOutcomeKind_Completed c
  else c.

Definition include_in_plan_only_output plan : bool := negb (Plan_is_empty plan) || Plan_is_skipped plan.

Definition plan_summary plan : JValue :=
  json_object ([("phase", JString (Plan_phase_name plan));
                ("actions", json_u64 (N.of_nat (length (Plan_actions plan))));
                ("skipped", JBool (Plan_is_skipped plan))]
               ++ match Plan_safeguard_violations plan with
                  | [] => []
                  | violations => [("safeguard_violations", violations_json violations)]
                  end).

Definition process_single_file_dry_run file (compiled : CompiledPolicy)
    : Proc S (result string (option JValue)) :=
  r ← orchestrate_plans compiled file;
  match r with
  | Err e => mret (Err e)
  | Ok result =>
      plans ← annotate_disk_space_violations (OrchestrationResult_plans result) file;
      let result := {| OrchestrationResult_plans := plans;
                       OrchestrationResult_phase_results := OrchestrationResult_phase_results result;
                       OrchestrationResult_file_modified := OrchestrationResult_file_modified result |} in
      _ ← collect_safeguard_violations file plans;
      let needs_exec := needs_execution result in
      _ ← (if needs_exec then count count_modified else mret tt);
      _ ← count (λ c, foldl (λ c plan, dry_run_stat plan c) c plans);
      _ ← (if ctx_plan_only ctx
           then count (collect_plans (omap plan_to_value (List.filter include_in_plan_only_output plans)))
           else mret tt);
      _ ← (if ctx_estimate_mode ctx then count (collect_estimates plans) else mret tt);
      mret (Ok (Some (json_object
        [("path", JString (to_string_lossy (MediaFile_path file)));
         ("needs_execution", JBool needs_exec); ("plans", JArray (plan_summary <$> plans))])))
  end.

(** ** One job *)
Context `{StoredFiles S}.

(** [introspect_file]: the plugins are told of the result. *)
Definition introspect_file (path : PathBuf) (size : u64) (hash : option string)
    (scan_session : option Uuid) : Proc S (result VoomError MediaFile) :=
  r ← on_world (introspect path size hash);
  match r with
  | Ok f =>
      _ ← dispatch_and_log (Event_FileIntrospected
            {| FileIntrospectedEvent_file := f; FileIntrospectedEvent_scan_session := scan_session |});
      mret (Ok f)
  | Err e => introspection_failed path size hash e
  end.

(** Any failure of the lookup is no file. *)
Definition load_stored_file (path : PathBuf) : Proc S (option MediaFile) :=
  r ← on_store (stored_file path);
  mret (match r with Ok f => f | Err _ => None end).

Definition introspect_or_reuse (payload : DiscoveredFilePayload) : Proc S (result string MediaFile) :=
  let path := DiscoveredFilePayload_path payload in
  stored ← load_stored_file path;
  let cache_hit :=
    negb (ctx_force_rescan ctx) && negb (DiscoveredFilePayload_needs_reintrospect payload)
    && match stored with
       | Some s => matches_discovery s (DiscoveredFilePayload_size payload)
                     (DiscoveredFilePayload_content_hash payload)
       | None => false
       end in
  match cache_hit, stored with
  | true, Some s => mret (Ok s)
  | _, _ =>
      r ← introspect_file path (DiscoveredFilePayload_size payload)
            (DiscoveredFilePayload_content_hash payload) (Some (ctx_scan_session ctx));
      mret (match r with
            | Err e => Err ("introspect " +:+ path +:+ ": " +:+ VoomError_to_string e)
            | Ok fresh =>
                let old := match stored with Some s => MediaFile_plugin_metadata s | None => ∅ end in
                Ok (MediaFile_set_tracks fresh (MediaFile_tracks fresh)
                      (MediaFile_plugin_metadata fresh ∪ old))
            end)
  end.

(** The outer [option] is a panic. *)
Definition process_single_file (job : Job) : Proc S (option (result string (option JValue))) :=
  match parse_job_payload job with
  | Err e => mret (Some (Err ("job payload: " +:+ e)))
  | Ok payload =>
      r ← introspect_or_reuse payload;
      match r with
      | Err e => mret (Some (Err e))
      | Ok file =>
          let file := apply_detected_languages file in
          match PolicyResolver_resolve (ctx_resolver ctx) (MediaFile_path file) with
          | None => mret None
          | Some (Err e) => mret (Some (Err ("policy resolution: " +:+ e)))
          | Some (Ok PolicyMatch_Skip) =>
              mret (Some (Ok (Some (skipped_json file "excluded by policy map"))))
          | Some (Ok (PolicyMatch_Policy compiled _)) =>
              r ← (if ctx_dry_run ctx then process_single_file_dry_run file compiled
                   else process_single_file_execute file compiled);
              mret (Some r)
          end
      end
  end.
End process.
