(* ===== verification/BackupFacts.v ===== *)
(** * Facts about backups and the processing of a file

    How events travel through the bus when all plugins but one leave something
    alone; what the backup manager does on each event of a plan; and what holds of
    the file between the phases of [ProcessFile]. *)
From S2P Require Import Prelude Json Media Plan Compiled CapabilityMap Jobs Events Kernel.
From S2P Require Import CallPlugins Process Transitions MkvFacts CropDetect FfmpegCommand.
From S2P Require Import VmafSearch FfmpegExecutor FfmpegFacts BackupManager Estimate PolicyMap.
From S2P Require Import ProcessFile.

(** ** The bus *)
Definition is_plugin_error (e : Event) : Prop :=
  match e with Event_PluginError _ => True | _ => False end.

(** What a handler returns stops no delivery and produces only events in [E]. *)
Definition open_result (E : Event → Prop) (r : handler (option EventResult)) : Prop :=
  ∀ x, r = Returned (Ok (Some x)) → EventResult_claimed x = false ∧ Forall E (EventResult_produced_events x).

(** The handler may stop delivery. *)
Definition closed_result (E : Event → Prop) (r : handler (option EventResult)) : Prop :=
  ∀ x, r = Returned (Ok (Some x)) → Forall E (EventResult_produced_events x).

Lemma open_closed E r : open_result E r → closed_result E r.
Proof. intros Hr x Hx. by apply Hr. Qed.

Section bus.
Context {W : Type} `{Clock W} (R : W → W → Prop) `{!PreOrder R}.
Implicit Types (subs : list (Subscriber W)) (w : W) (log : list PluginStatRecord).

Lemma deliver_closed (E : Event → Prop) event subs w log rs w' log' :
  (∀ e, is_plugin_error e → E e) →
  (∀ s w, s ∈ subs → let '(r, w') := Plugin_on_event (Subscriber_handler s) event w in
                     R w w' ∧ closed_result E r) →
  deliver event subs w log = (rs, w', log') →
  R w w' ∧ log `prefix_of` log' ∧ Forall E (rs ≫= EventResult_produced_events).
Proof.
  intros HE. revert w log rs w' log'. induction subs as [|s subs IH]; intros w log rs w' log' Hs.
  { intros [= <- <- <-]. split_and!; [done|done|constructor]. }
  cbn [deliver]. pose proof (Hs s w (list_elem_of_here _ _)) as Hh.
  destruct (Plugin_on_event (Subscriber_handler s) event w) as [r w1]. destruct Hh as [HR Hr].
  match goal with |- context [log ++ [?x]] => set (rec := x) end.
  assert (Hrest : ∀ rs' w' log', deliver event subs w1 (log ++ [rec]) = (rs', w', log') →
    R w w' ∧ log `prefix_of` log' ∧ Forall E (rs' ≫= EventResult_produced_events)).
  { intros rs' w2 log2 Hd. apply IH in Hd as (HR2 & Hp & HF); [|intros s' w3 Hs'; apply Hs; by right].
    split_and!; [by etrans|etrans; [by eexists|exact Hp]|done]. }
  destruct r as [[[x|]|e]|].
  1: destruct (EventResult_claimed x).
  1: { intros [= <- <- <-]. split_and!; [done|by eexists|]. cbn. rewrite app_nil_r. by apply Hr. }
  all: destruct (deliver event subs w1 _) as [[rs2 w2] log2]; intros [= <- <- <-];
    destruct (Hrest _ _ _ eq_refl) as (? & ? & ?); (split_and!; [done..|]); cbn.
  - apply Forall_app. split; [by apply Hr|done].
  - done.
  - constructor; [by apply HE|done].
  - constructor; [by apply HE|done].
Qed.

(** Delivery up to a point, when no earlier handler stops it. *)
Lemma deliver_app (E : Event → Prop) event l1 l2 w log :
  (∀ s w, s ∈ l1 → open_result E (Plugin_on_event (Subscriber_handler s) event w).1) →
  deliver event (l1 ++ l2) w log
  = let '(rs1, w1, log1) := deliver event l1 w log in
    let '(rs2, w2, log2) := deliver event l2 w1 log1 in (rs1 ++ rs2, w2, log2).
Proof.
  revert w log. induction l1 as [|s l1 IH]; intros w log Hs; cbn [app deliver].
  { by destruct (deliver event l2 w log) as [[??]?]. }
  pose proof (Hs s w (list_elem_of_here _ _)) as Hr.
  destruct (Plugin_on_event (Subscriber_handler s) event w) as [r w1]. cbn [fst] in Hr.
  match goal with |- context [log ++ [?x]] => set (rec := x) end.
  specialize (IH w1 (log ++ [rec]) (λ s w Hs', Hs s w (list_elem_of_further _ _ _ Hs'))).
  destruct r as [[[x|]|e]|]; [destruct (Hr x eq_refl) as [-> _]| | |]; rewrite IH; try done;
    destruct (deliver event l1 w1 _) as [[rs1 w2] log2]; by destruct (deliver event l2 w2 log2) as [[??]?].
Qed.

Lemma cascade_closed (E : Event → Prop) publish events w log rs w' log' :
  (∀ e w log rs w' log', E e → publish e w log = (rs, w', log') → R w w' ∧ log `prefix_of` log') →
  Forall E events → cascade publish events w log = (rs, w', log') →
  R w w' ∧ log `prefix_of` log'.
Proof.
  intros Hp HF. revert w log rs w' log'. induction HF as [|e es He HF IH]; intros w log rs w' log'; cbn [cascade].
  { by intros [= <- <- <-]. }
  destruct (publish e w log) as [[rs1 w1] log1] eqn:H1.
  destruct (cascade publish es w1 log1) as [[rs2 w2] log2] eqn:H2. intros [= <- <- <-].
  apply Hp in H1 as [? ?]; [|done]. apply IH in H2 as [? ?]. split; by etrans.
Qed.

(** A cascade of events on which every handler keeps [R]. *)
Lemma publish_closed (E : Event → Prop) subs n event w log rs w' log' :
  (∀ e, is_plugin_error e → E e) →
  (∀ e s w, E e → s ∈ matching_handlers subs e →
     let '(r, w') := Plugin_on_event (Subscriber_handler s) e w in R w w' ∧ closed_result E r) →
  E event → publish_recursive subs n event w log = (rs, w', log') →
  R w w' ∧ log `prefix_of` log'.
Proof.
  intros HE Hs. revert event w log rs w' log'. induction n as [|n IH]; intros event w log rs w' log' He;
    cbn [publish_recursive];
    destruct (deliver event (matching_handlers subs event) w log) as [[rs1 w1] log1] eqn:Hd;
    (eapply (deliver_closed E) in Hd as (HR & Hp & HF); [|done|intros s w2; by apply Hs]).
  { by intros [= <- <- <-]. }
  destruct (cascade _ _ w1 log1) as [[rs2 w2] log2] eqn:Hc. intros [= <- <- <-].
  apply (cascade_closed E) in Hc as [? ?]; [split; by etrans|exact IH|done].
Qed.

(** An event that one subscriber acts on: it does so in a state related to the
    first one, what follows keeps the relation, and its outcome is in the log. *)
Lemma publish_through subs l1 b l2 n event w log rs w' log' :
  (∀ e s w, is_plugin_error e → s ∈ matching_handlers subs e →
     let '(r, w') := Plugin_on_event (Subscriber_handler s) e w in
     R w w' ∧ closed_result is_plugin_error r) →
  matching_handlers subs event = l1 ++ b :: l2 →
  (∀ s w, s ∈ l1 ++ l2 → let '(r, w') := Plugin_on_event (Subscriber_handler s) event w in
     R w w' ∧ open_result is_plugin_error r) →
  (∀ w, open_result is_plugin_error (Plugin_on_event (Subscriber_handler b) event w).1) →
  publish_recursive subs n event w log = (rs, w', log') →
  ∃ w1 w2 r rec, R w w1 ∧ Plugin_on_event (Subscriber_handler b) event w1 = (r, w2) ∧ R w2 w' ∧
    log `prefix_of` log' ∧ rec ∈ log' ∧ PluginStatRecord_plugin_id rec = Subscriber_plugin_name b ∧
    PluginStatRecord_outcome rec = event_outcome r.
Proof.
  intros Herr Hm Hs Hb.
  assert (Hrest : ∀ w log rs w' log', deliver event (l1 ++ b :: l2) w log = (rs, w', log') →
    ∃ w1 w2 r rec, R w w1 ∧ Plugin_on_event (Subscriber_handler b) event w1 = (r, w2) ∧ R w2 w' ∧
      log `prefix_of` log' ∧ rec ∈ log' ∧ PluginStatRecord_plugin_id rec = Subscriber_plugin_name b ∧
      PluginStatRecord_outcome rec = event_outcome r ∧
      Forall is_plugin_error (rs ≫= EventResult_produced_events)).
  { clear w log rs w' log'. intros w log rs w' log'.
    rewrite (deliver_app is_plugin_error) by
      (intros s w0 Hs'; specialize (Hs s w0); destruct (Plugin_on_event _ event w0); apply Hs; set_solver).
    destruct (deliver event l1 w log) as [[rs1 w1] log1] eqn:H1.
    apply (deliver_closed is_plugin_error) in H1 as (HR1 & Hp1 & HF1); [|done|].
    2:{ intros s w0 Hs'. specialize (Hs s w0). destruct (Plugin_on_event _ event w0) as [r w3].
        destruct Hs as [? ?]; [set_solver|]. split; [done|by apply open_closed]. }
    cbn [deliver]. specialize (Hb w1).
    destruct (Plugin_on_event (Subscriber_handler b) event w1) as [r w2] eqn:Hr. cbn [fst] in Hb.
    match goal with |- context [log1 ++ [?x]] => set (rec := x) end.
    destruct (deliver event l2 w2 (log1 ++ [rec])) as [[rs2 w3] log3] eqn:H2.
    apply (deliver_closed is_plugin_error) in H2 as (HR2 & Hp2 & HF2); [|done|].
    2:{ intros s w0 Hs'. specialize (Hs s w0). destruct (Plugin_on_event _ event w0) as [r' w4].
        destruct Hs as [? ?]; [set_solver|]. split; [done|by apply open_closed]. }
    assert (Hall : ∀ rs', Forall is_plugin_error (rs' ≫= EventResult_produced_events) →
      (rs1 ++ rs', w3, log3) = (rs, w', log') → ∃ w1 w2 r rec, R w w1 ∧
      Plugin_on_event (Subscriber_handler b) event w1 = (r, w2) ∧ R w2 w' ∧
      log `prefix_of` log' ∧ rec ∈ log' ∧ PluginStatRecord_plugin_id rec = Subscriber_plugin_name b ∧
      PluginStatRecord_outcome rec = event_outcome r ∧
      Forall is_plugin_error (rs ≫= EventResult_produced_events)).
    { intros rs' HF' [= <- <- <-]. exists w1, w2, r, rec. split_and!; [done..| | |done|done|].
      - etrans; [exact Hp1|]. etrans; [by eexists|exact Hp2].
      - destruct Hp2 as [k ->]. set_solver.
      - rewrite bind_app. by apply Forall_app. }
    destruct r as [[[x|]|e]|].
    - destruct (Hb x eq_refl) as [-> HFx]. apply Hall. cbn. by apply Forall_app.
    - by apply Hall.
    - apply Hall. cbn. by constructor.
    - apply Hall. cbn. by constructor. }
  destruct n as [|n]; cbn [publish_recursive]; rewrite Hm;
    destruct (deliver event (l1 ++ b :: l2) w log) as [[rs1 w1] log1] eqn:Hd.
  { intros [= <- <- <-]. apply Hrest in Hd as (wa & wb & r & rec & ? & ? & ? & ? & ? & ? & ? & ?).
    by exists wa, wb, r, rec. }
  apply Hrest in Hd as (wa & wb & r & rec & ? & ? & ? & ? & ? & ? & ? & HF).
  destruct (cascade _ _ w1 log1) as [[rs2 w2] log2] eqn:Hc. intros [= <- <- <-].
  apply (cascade_closed is_plugin_error) in Hc as [? [k ->]]; [| |done].
  2: { intros e w0 log0 rs0 w0' log0' He. by apply (publish_closed is_plugin_error). }
  exists wa, wb, r, rec. split_and!; [done|done|by etrans| |set_solver|done|done].
  etrans; [done|by eexists].
Qed.
End bus.

(** ** What an operation leaves alone *)

(** [rclone] does not change the files that are there. *)
Class RcloneKeeps `{CommandOutput} : Prop :=
  rclone_keeps prog args files k :
    is_Some (files !! k) → (command_output prog args files).2 !! k = files !! k.

Section backups.
Context {S : Type} `{Unicode} `{UuidText} `{TornWrite} `{Volume} `{Ambient S} `{TimestampText}.
Context `{CommandOutput} `{!RcloneKeeps} `{RcloneSizeJson} `{InventoryJson} `{Sha256} `{BackupHost S}.
Context (overflow_checks : bool) (to_str : string → option string).
Implicit Types (w : World S) (K : PathKey → Prop) (k : PathKey).
Open Scope run_scope.

(** The files with a name in [K] that are there, and the state of the plugin *)
Definition keeps K w w' : Prop :=
  (∀ k, K k → is_Some (w_files w !! k) → w_files w' !! k = w_files w !! k) ∧
  plugin_state w' = plugin_state w.

#[export] Instance keeps_preorder K : PreOrder (keeps K).
Proof.
  split; [done|]. intros w1 w2 w3 [Ha Pa] [Hb Pb]. split; [|congruence].
  intros k Hk Hs. rewrite <-(Ha k Hk Hs). apply Hb; [done|]. by rewrite Ha.
Qed.

Lemma keeps_mono K K' w w' : (∀ k, K' k → K k) → keeps K w w' → keeps K' w w'.
Proof. intros HK [Hf Hp]. split; [|done]. auto. Qed.

Lemma keeps_lookup K w w' k c :
  keeps K w w' → K k → w_files w !! k = Some c → w_files w' !! k = Some c.
Proof. intros [Hf _] Hk Hc. rewrite Hf; [done..|]. by rewrite Hc. Qed.

Definition run_keeps {A} K (m : Run S A) : Prop := ∀ w, keeps K w (m w).2.

Lemma run_keeps_bind {A B} K (m : Run S A) (f : A → Run S B) :
  run_keeps K m → (∀ a, run_keeps K (f a)) → run_keeps K (run_bind m f).
Proof.
  intros Hm Hf w. unfold run_bind. specialize (Hm w). destruct (m w) as [[[a|e]|] w1]; cbn in *; [|done..].
  etrans; [exact Hm|apply Hf].
Qed.

Lemma run_keeps_ret {A} K (a : A) : run_keeps K (run_ret a).
Proof. by intros w. Qed.

Lemma run_keeps_err {A} K (e : VoomError) : run_keeps K (run_err (A := A) e).
Proof. by intros w. Qed.

Lemma run_keeps_panic {A} K : run_keeps K (run_panic (A := A)).
Proof. by intros w. Qed.

Lemma run_keeps_lift {A} K (r : result VoomError A) : run_keeps K (run_lift r).
Proof. by intros w. Qed.

Lemma run_keeps_os {A} K f (m : World S → result string A * World S) :
  (∀ w, keeps K w (m w).2) → run_keeps K (run_os f m).
Proof. intros Hm w. unfold run_os. specialize (Hm w). by destruct (m w) as [[a|e] w1]. Qed.

Lemma fs_query_keeps {A} K (f : Files → result string A) w : keeps K w (fs_query f w).2.
Proof. unfold fs_query. by destruct (w_faults w) as [|[e|] fs]. Qed.

Lemma fs_len_keeps K p w : keeps K w (fs_len p w).2.
Proof. apply fs_query_keeps. Qed.

Lemma fs_call_keeps K f w :
  (∀ files files' k, f files = Ok files' → K k → files' !! k = files !! k) → keeps K w (fs_call f w).2.
Proof.
  intros Hf. unfold fs_call. destruct (w_faults w) as [|[e|] fs]; [|done|];
    destruct (f (w_files w)) as [files'|e] eqn:Hr; (split; [|done]); cbn; intros k Hk _; eauto.
Qed.

Lemma fs_create_dir_keeps K p w : keeps K w (fs_create_dir_all p w).2.
Proof. apply fs_call_keeps. by intros ??? [= <-]. Qed.

Lemma fs_write_end_keeps K p text w : ¬ K (path_key p) → keeps K w (fs_write_end p text w).2.
Proof.
  intros HK. unfold fs_write_end. destruct (w_faults w) as [|[e|] fs]; cbn; (split; [|done]);
    cbn; intros k Hk _; apply lookup_insert_ne; by intros <-.
Qed.

Lemma fs_open_append_keeps K p w : ¬ K (path_key p) → keeps K w (fs_open_append p w).2.
Proof.
  intros HK. apply fs_call_keeps. intros ??? [= <-] Hk. apply lookup_insert_ne. by intros <-.
Qed.

Lemma fs_copy_keeps K src dst w : ¬ K (path_key dst) → keeps K w (fs_copy src dst w).2.
Proof.
  intros HK. assert (∀ c : string, ∀ k, K k → <[path_key dst := c]> (w_files w) !! k = w_files w !! k) as Hput.
  { intros c k Hk. apply lookup_insert_ne. by intros <-. }
  unfold fs_copy. destruct (w_files w !! path_key src) as [c|]; [|done].
  destruct (w_faults w) as [|[e|] fs]; [|destruct (torn e c)|]; cbn; (split; [|done]); cbn; auto.
Qed.

Lemma fs_remove_keeps K p w : ¬ K (path_key p) → keeps K w (fs_remove p w).2.
Proof.
  intros HK. apply fs_call_keeps. intros files files' k. case_bool_decide; [|done]. intros [= <-] Hk.
  apply lookup_delete_ne. by intros <-.
Qed.

Create HintDb keeps.
Hint Resolve run_keeps_bind run_keeps_ret run_keeps_err run_keeps_panic run_keeps_lift run_keeps_os
  fs_query_keeps fs_len_keeps fs_create_dir_keeps fs_write_end_keeps fs_open_append_keeps fs_copy_keeps
  fs_remove_keeps : keeps.

Lemma rclone_run_keeps K c : run_keeps K (RcloneCommand_run (S := S) c).
Proof.
  intros w. unfold RcloneCommand_run.
  pose proof (rclone_keeps (Rclone_program c) (Rclone_args c) (w_files w)) as Hr.
  destruct (command_output _ _ (w_files w)) as [[o|e] files]; cbn in *; [case_match|];
    (split; [|done]); intros k _; apply Hr.
Qed.
Hint Resolve rclone_run_keeps : keeps.

Lemma upload_keeps K request : run_keeps K (upload_with_rclone (S := S) request).
Proof.
  unfold upload_with_rclone, verify_remote_size, remote_size. apply run_keeps_bind; [auto with keeps|].
  intros _. apply run_keeps_bind; [|auto with keeps]. case_match; [|auto with keeps].
  apply run_keeps_bind; [|intros ?; case_match; auto with keeps].
  apply run_keeps_bind; [auto with keeps|]. intros ?. case_match; auto with keeps.
Qed.

Lemma upload_all_keeps K config path size id destinations remotes :
  run_keeps K (upload_all config path size id upload_with_rclone destinations remotes).
Proof.
  revert remotes. induction destinations as [|d ds IH]; intros remotes; cbn [upload_all]; [auto with keeps|].
  case_match; [auto|]. apply run_keeps_bind; [auto with keeps|]. intros remote_path w.
  match goal with |- context [upload_with_rclone ?r w] => pose proof (upload_keeps K r w) as Hu;
    destruct (upload_with_rclone r w) as [[[receipt|e]|] w1] end; cbn in *; [|case_match|]; [|done| |done];
    (etrans; [exact Hu|apply IH]).
Qed.

Lemma validate_keeps K backup_path path min_free :
  run_keeps K (validate_disk_space_for (S := S) overflow_checks backup_path path min_free).
Proof.
  unfold validate_disk_space_for, available_space, u64_add.
  apply run_keeps_bind; [auto with keeps|]. intros file_size. apply run_keeps_bind.
  { intros w. case_match; [done|]. apply run_keeps_os. auto with keeps. }
  intros available. apply run_keeps_bind; [repeat case_match; auto with keeps|].
  intros ?. case_match; auto with keeps.
Qed.

Lemma persist_keeps K inventory record remotes :
  ¬ K (path_key inventory) → run_keeps K (persist_remotes inventory record remotes).
Proof.
  intros HK. induction remotes as [|r rs IH]; cbn [persist_remotes]; [auto with keeps|].
  intros w. unfold compute_sha256, RemoteBackupInventory_append, create_inventory_dir, write_record.
  match goal with |- keeps K w (?m w).2 => cut (run_keeps K m); [auto|] end.
  repeat first [apply run_keeps_bind; [|intros ?] | case_match | apply IH]; auto with keeps.
Qed.

(** ** The events of a plan *)

(** The handler failed. *)
Definition bad {A} (r : handler A) : Prop := r = Panicked ∨ ∃ e, r = Returned (Err e).

(** A run from [w] fails or ends, with a value, in a state that satisfies [Q]. *)
Definition run_post {A} (m : Run S A) w (Q : A → World S → Prop) : Prop :=
  match m w with
  | (Returned (Ok a), w') => Q a w'
  | _ => True
  end.

Lemma run_post_bind {A B} (m : Run S A) (f : A → Run S B) w P Q :
  run_post m w P → (∀ a w', P a w' → run_post (f a) w' Q) → run_post (run_bind m f) w Q.
Proof. unfold run_post, run_bind. destruct (m w) as [[[a|e]|] w']; [|done..]. intros HP Hf. by apply Hf. Qed.

Lemma run_post_keeps {A} K (m : Run S A) w :
  run_keeps K m → run_post m w (λ _ w', keeps K w w').
Proof. intros Hm. specialize (Hm w). unfold run_post. by destruct (m w) as [[[a|e]|] w']. Qed.

Lemma run_post_mono {A} (m : Run S A) w (P Q : A → World S → Prop) :
  run_post m w P → (∀ a w', P a w' → Q a w') → run_post m w Q.
Proof. unfold run_post. destruct (m w) as [[[a|e]|] w']; auto. Qed.

Lemma run_post_eq {A} (m m' : Run S A) w Q : m w = m' w → run_post m' w Q → run_post m w Q.
Proof. unfold run_post. by intros ->. Qed.

Lemma run_post_bad {A} (m : Run S A) w Q :
  run_post m w Q → bad (m w).1 ∨ ∃ a, (m w).1 = Returned (Ok a) ∧ Q a (m w).2.
Proof. unfold run_post, bad. destruct (m w) as [[[a|e]|] w']; cbn; eauto. Qed.

Lemma copy_post f src dst w c :
  path_key src ≠ path_key dst → w_files w !! path_key src = Some c →
  run_post (run_os f (fs_copy src dst)) w (λ _ w',
    w_files w' !! path_key src = Some c ∧ w_files w' !! path_key dst = Some c ∧
    plugin_state w' = plugin_state w).
Proof.
  intros Hne Hc. unfold run_post, run_os, fs_copy. rewrite Hc, bool_decide_false by done.
  destruct (w_faults w) as [|[e|] fs]; cbn; [|done|];
    by rewrite lookup_insert_ne, Hc, lookup_insert_eq by done.
Qed.

(** The file [path] has content [c] and there is no backup of it. *)
Record ready (config : BackupConfig) (inventory : option PathBuf) (path : PathBuf) (c : string) w
    : Prop := {
  ready_file : w_files w !! path_key path = Some c;
  ready_config : Backup_config (plugin_state w) = config;
  ready_inventory : Backup_inventory (plugin_state w) = inventory;
  ready_lock : Backup_poisoned (plugin_state w) = false;
  ready_none : Backup_records (plugin_state w) !! path_key path = None;
}.

(** There is a backup of [path], with content [c]. *)
Record backed_up (config : BackupConfig) (inventory : option PathBuf) (path : PathBuf) (c : string) w
    : Prop := {
  backed_config : Backup_config (plugin_state w) = config;
  backed_inventory : Backup_inventory (plugin_state w) = inventory;
  backed_lock : Backup_poisoned (plugin_state w) = false;
  backed_record : ∃ record id now,
    Backup_records (plugin_state w) !! path_key path = Some record ∧
    BackupRecord_original_path record = path ∧
    BackupRecord_backup_path record = backup_path_for config path id now ∧
    w_files w !! path_key (BackupRecord_backup_path record) = Some c;
}.

(** Backups of [path] have names of their own. *)
Record apart (config : BackupConfig) (inventory : option PathBuf) (path : PathBuf) : Prop := {
  apart_original id now : path_key (backup_path_for config path id now) ≠ path_key path;
  apart_converted id now container :
    path_key (backup_path_for config path id now)
    ≠ path_key (path_set_extension path (Container_as_str container));
  apart_inventory p :
    inventory = Some p →
    path_key p ≠ path_key path ∧ ∀ id now, path_key p ≠ path_key (backup_path_for config path id now);
}.

Context (config : BackupConfig) (inventory : option PathBuf) (path : PathBuf) (c : string).
Context (Hapart : apart config inventory path).

Lemma keeps_ready w w' : keeps (λ k, k = path_key path) w w' →
  ready config inventory path c w → ready config inventory path c w'.
Proof.
  intros Hk [Hf Hc Hi Hl Hn]. split; [by eapply keeps_lookup|..]; destruct Hk as [_ ->]; done.
Qed.

(** The keys of backups of the file *)
Definition backup_keys k : Prop := ∃ id now, k = path_key (backup_path_for config path id now).

Lemma keeps_backed w w' : keeps backup_keys w w' →
  backed_up config inventory path c w → backed_up config inventory path c w'.
Proof.
  intros Hk [Hc Hi Hl (record & id & now & Hr & Ho & Hb & Hf)]. pose proof Hk as [_ Hp].
  split; [by rewrite Hp..|]. exists record, id, now. rewrite Hp. split_and!; [done..|].
  eapply keeps_lookup; [exact Hk| |exact Hf]. exists id, now. by rewrite Hb.
Qed.

Lemma backup_copy_post backup_path validate_space w :
  path_key backup_path ≠ path_key path → w_files w !! path_key path = Some c →
  (∀ K a b, run_keeps K (validate_space a b)) →
  run_post (backup_copy path backup_path validate_space) w (λ _ w',
    w_files w' !! path_key path = Some c ∧ w_files w' !! path_key backup_path = Some c ∧
    plugin_state w' = plugin_state w).
Proof.
  intros Hne Hc Hv. unfold backup_copy. set (K := λ k, k = path_key path).
  eapply run_post_bind; [by apply (run_post_keeps K)|]. intros ? w1 Hk1.
  eapply run_post_bind; [apply (run_post_keeps K); case_match; auto with keeps|]. intros ? w2 Hk2.
  eapply run_post_mono; [apply copy_post; [done|]|].
  - eapply (keeps_lookup K); [|done|exact Hc]. etrans; [exact Hk1|exact Hk2].
  - intros _ w' (? & ? & Hp). split_and!; [done..|]. destruct Hk1 as [_ Hp1], Hk2 as [_ Hp2]. congruence.
Qed.

Lemma backup_file_post w :
  w_files w !! path_key path = Some c →
  run_post (backup_backup_file config path (λ backup_path source_path,
      validate_disk_space_for overflow_checks backup_path source_path
        (BackupConfig_min_free_space config))) w (λ record w',
    w_files w' !! path_key path = Some c ∧ plugin_state w' = plugin_state w ∧
    BackupRecord_original_path record = path ∧
    ∃ id now, BackupRecord_backup_path record = backup_path_for config path id now ∧
      w_files w' !! path_key (BackupRecord_backup_path record) = Some c).
Proof.
  intros Hc. unfold backup_backup_file, backup_file_with_destinations. set (K := λ k, k = path_key path).
  eapply run_post_bind; [apply (run_post_keeps K); auto with keeps|]. intros symlink w1 Hk1.
  case_match; [done|].
  eapply run_post_bind; [apply (run_post_keeps K); auto with keeps|]. intros size w2 Hk2.
  eapply (run_post_bind (backup_copy _ _ _)).
  { apply backup_copy_post; [apply (apart_original _ _ _ Hapart)| |intros; apply validate_keeps].
    eapply (keeps_lookup K); [|done|exact Hc]. etrans; [exact Hk1|exact Hk2]. }
  intros ? w3 (Hf3 & Hb3 & Hp3). set (backup_path := backup_path_for config path _ _) in *.
  eapply run_post_bind.
  { apply (run_post_keeps (λ k, k = path_key path ∨ k = path_key backup_path)). apply upload_all_keeps. }
  intros remotes w4 Hk4. unfold run_post. cbn. split_and!; [|  |done|].
  - eapply keeps_lookup; [exact Hk4|by left|done].
  - destruct Hk1 as [_ Hp1], Hk2 as [_ Hp2], Hk4 as [_ Hp4]. congruence.
  - eexists _, _. split; [done|]. eapply keeps_lookup; [exact Hk4|by right|done].
Qed.

Lemma plugin_state_update f w : plugin_state (update_plugin f w) = f (plugin_state w).
Proof. unfold plugin_state at 1, update_plugin. cbn. apply backup_get_set. Qed.

Lemma records_post w :
  run_post records w (λ rs w', w' = w ∧ rs = Backup_records (plugin_state w) ∧
                               Backup_poisoned (plugin_state w) = false).
Proof. unfold run_post, records. by destruct (Backup_poisoned (plugin_state w)). Qed.

Lemma run_post_lock {A} (m : Run S A) w Q : run_post m w Q → run_post (lock_held m) w Q.
Proof. unfold run_post, lock_held. by destruct (m w) as [[[a|e]|] w']. Qed.

Lemma plugin_backup_post w :
  ready config inventory path c w →
  run_post (Backup_backup_file overflow_checks path) w (λ _ w', backed_up config inventory path c w').
Proof.
  intros [Hf Hc Hi Hl Hn].
  eapply run_post_eq; [unfold Backup_backup_file; rewrite Hc; reflexivity|].
  eapply run_post_bind; [by apply backup_file_post|].
  intros record w1 (Hf1 & Hp1 & Ho & id & now & Hb & Hbf).
  eapply run_post_bind; [apply records_post|]. intros rs w2 (-> & -> & _).
  apply (run_post_bind _ _ _ (λ _ w3, backed_up config inventory path c w3)); [|done]. apply run_post_lock.
  eapply (run_post_bind _ _ _ (λ _ w3, backed_up config inventory path c w3)).
  { unfold run_post, set_records. split; rewrite plugin_state_update; cbn; rewrite ?Hp1; try done.
    exists record, id, now. rewrite lookup_insert_eq. split_and!; done. }
  intros ? w3 Hw3. unfold persist_remote_inventory, run_post.
  destruct (Backup_inventory (plugin_state w3)) as [inv|] eqn:Hinv; [|done].
  pose proof (persist_keeps backup_keys inv record (BackupRecord_remote_backups record)) as Hk.
  destruct (persist_remotes _ _ _ w3) as [[[[]|e]|] w4] eqn:Hr; [|done..].
  eapply keeps_backed; [|exact Hw3]. change w4 with (Returned (Ok tt), w4).2. rewrite <-Hr. apply Hk.
  intros (id' & now' & Hkey). rewrite (backed_inventory _ _ _ _ _ Hw3) in Hinv.
  destruct (apart_inventory _ _ _ Hapart _ Hinv) as [_ Hne]. by eapply Hne.
Qed.

Lemma has_backup_post w :
  run_post (Backup_has_backup path) w (λ has w', w' = w ∧ Backup_poisoned (plugin_state w) = false ∧
    has = bool_decide (is_Some (Backup_records (plugin_state w) !! path_key path))).
Proof.
  eapply run_post_bind; [apply records_post|]. by intros rs w' (-> & -> & Hl).
Qed.

Lemma json_path_post p w : run_post (json_path to_str p) w (λ _ w', w' = w).
Proof. unfold run_post, json_path. by destruct (to_str p). Qed.

(** A plan is about to be executed. *)
Lemma executing_post evt w :
  PlanExecutingEvent_path evt = path → ready config inventory path c w →
  run_post (on_plan_executing overflow_checks to_str evt) w (λ _ w', backed_up config inventory path c w').
Proof.
  intros Hpath Hw. unfold on_plan_executing. rewrite Hpath.
  eapply run_post_bind; [apply has_backup_post|]. intros has w' (-> & _ & ->).
  rewrite (ready_none _ _ _ _ _ Hw), bool_decide_false by by intros [??].
  eapply run_post_bind; [by apply plugin_backup_post|]. intros record w1 Hw1.
  eapply run_post_bind; [apply json_path_post|]. intros ?? ->.
  eapply run_post_bind; [apply json_path_post|]. by intros ?? ->.
Qed.

(** A plan for a file with a backup has failed. *)
Lemma failed_post evt w :
  PlanFailedEvent_path evt = path → backed_up config inventory path c w →
  run_post (on_plan_failed to_str evt) w (λ _ w', ready config inventory path c w').
Proof.
  intros Hpath [Hc Hi Hl (record & id & now & Hr & Ho & Hb & Hf)]. unfold on_plan_failed. rewrite Hpath.
  eapply run_post_bind; [apply has_backup_post|]. intros has w' (-> & _ & ->).
  rewrite Hr, bool_decide_true by eauto.
  apply (run_post_bind _ _ _ (λ _ w', ready config inventory path c w')).
  - unfold Backup_restore_file. eapply run_post_bind; [apply records_post|].
    intros rs w' (-> & -> & _). rewrite Hr. eapply run_post_bind.
    { apply copy_post; [|exact Hf]. rewrite Hb, Ho. apply (apart_original _ _ _ Hapart). }
    intros ? w1 (_ & Hf1 & Hp1). unfold run_post, set_records. rewrite Ho in Hf1.
    split; [exact Hf1|..]; rewrite plugin_state_update; cbn; rewrite ?Hp1; try done.
    apply lookup_delete_eq.
  - intros ? w1 Hw1. eapply run_post_bind; [apply json_path_post|]. by intros ?? ->.
Qed.

(** A plan for a file without a backup has failed. *)
Lemma failed_ready evt w :
  PlanFailedEvent_path evt = path → ready config inventory path c w →
  on_plan_failed to_str evt w = (Returned (Ok None), w).
Proof.
  intros Hpath [Hf Hc Hi Hl Hn].
  unfold on_plan_failed, Backup_has_backup, run_bind, records. rewrite Hpath, Hl. cbn.
  by rewrite Hn, bool_decide_false by by intros [??].
Qed.
End backups.

(** ** The processing of a file *)

(** Events that tell plugins what happens; the plan of a [PlanCreated] event among
    them is not to be executed. *)
Definition notice (e : Event) : Prop :=
  match e with
  | Event_PlanExecuting _ | Event_PlanCompleted _ | Event_PlanFailed _ | Event_PlanSkipped _
  | Event_PluginError _ | Event_FileIntrospected _ | Event_FileIntrospectionFailed _ => True
  | Event_PlanCreated e => Plan_is_skipped (PlanCreatedEvent_plan e) = true
  | _ => False
  end.

(** The backup manager has failed on an event. *)
Definition troubled (rec : PluginStatRecord) : Prop :=
  PluginStatRecord_plugin_id rec = "backup-manager" ∧
  match PluginStatRecord_outcome rec with
  | PluginInvocationOutcome_Err _ | PluginInvocationOutcome_Panic => True
  | _ => False
  end.

Definition trouble (log : list PluginStatRecord) : Prop := Exists troubled log.

Lemma trouble_prefix log log' : log `prefix_of` log' → trouble log → trouble log'.
Proof. intros [k ->] Ht. apply Exists_app. by left. Qed.

Section coop.
Context {S : Type} `{BackupHost S}.
Implicit Types w : World S.

(** No file changes, nor the state of the backup manager. *)
Definition quiet w w' : Prop := w_files w' = w_files w ∧ plugin_state w' = plugin_state w.

#[export] Instance quiet_preorder : PreOrder quiet.
Proof. split; [done|]. intros w1 w2 w3 [? ?] [? ?]. split; congruence. Qed.

Lemma quiet_keeps K w w' : quiet w w' → keeps K w w'.
Proof. intros [Hf Hp]. split; [|done]. intros k _ _. by rewrite Hf. Qed.

Context `{Unicode} `{UuidText} `{TimestampText} (config : BackupConfig) (path : PathBuf).

(** A plugin that leaves the backup manager and the backups of [path] alone, and
    changes files only to execute a plan. It does not stop the delivery of notices,
    and produces no further events for the events of plans. What it evaluates for
    the file are plans for the file. *)
Class Cooperative (p : Plugin (World S)) : Prop := {
  coop_notice e w :
    notice e → let '(r, w') := Plugin_on_event p e w in quiet w w' ∧ open_result is_plugin_error r;
  coop_created e w :
    MediaFile_path (Plan_file (PlanCreatedEvent_plan e)) = path →
    let '(r, w') := Plugin_on_event p (Event_PlanCreated e) w in
    keeps (backup_keys config path) w w' ∧ closed_result is_plugin_error r;
  coop_call call w : quiet w (Plugin_on_call p call w).2;
  coop_plans policy file phase filter outcomes caps w result :
    MediaFile_path file = path →
    (Plugin_on_call p (Call_EvaluatePolicy policy file phase filter outcomes caps) w).1
    = Returned (Ok (CallResponse_EvaluatePolicy result)) →
    Forall (λ plan, MediaFile_path (Plan_file plan) = path) (EvaluationResult_plans result);
}.
End coop.

(** The interfaces of the loop read files and leave the backup manager alone. *)
Class StorageSpares (S : Type) `{BackupHost S} `{ProcessStorage S} : Prop := {
  spares_transition t s : backup_get (record_transition t s).2 = backup_get s;
  spares_post p h t s : backup_get (record_post_execution p h t s).2 = backup_get s;
  spares_bad p s : backup_get (delete_bad_file_by_path p s).2 = backup_get s;
  spares_upsert f s : backup_get (upsert_file f s).2 = backup_get s;
}.

Class ToolsRead (S : Type) `{BackupHost S} `{Introspector S} `{FileHash S} `{Children} `{Unicode} : Prop := {
  introspect_reads p n h (w : World S) : quiet w (introspect p n h w).2;
  introspect_path p n h (w w' : World S) f : introspect p n h w = (Ok f, w') → MediaFile_path f = p;
  hash_reads p (w : World S) : quiet w (hash_file p w).2;
  cropdetect_reads source start config files :
    (run_child "ffmpeg" (cropdetect_args source start config) files).2 = files;
}.

Class StoredReads (S : Type) `{BackupHost S} `{StoredFiles S} : Prop := {
  stored_reads p s : backup_get (stored_file p s).2 = backup_get s;
  stored_path p s s' f : stored_file p s = (Ok (Some f), s') → MediaFile_path f = p;
}.

Section pipeline.
Context {S : Type} `{Clock (World S)} `{QueryDebug} `{Unicode} `{UuidText} `{Volume} `{Ambient S}.
Context `{Children} `{ProcessStorage S} `{Introspector S} `{FileHash S} `{CropSettingsJson}.
Context `{ViolationsJson} `{AnyhowText} `{ResponseDebug} (to_str : string → option string).
Context `{TornWrite} `{TimestampText} `{CommandOutput} `{!RcloneKeeps} `{RcloneSizeJson}.
Context `{InventoryJson} `{Sha256} `{BackupHost S} `{!StorageSpares S} `{!ToolsRead S}.
Context (overflow_checks : bool) (cancelled : Pipe S → bool).
Context (ctx : ProcessContext S).
Context (config : BackupConfig) (inventory : option PathBuf) (path : PathBuf) (c : string).
Context (Hapart : apart config inventory path).
Implicit Types (w : World S) (st : Pipe S) (plan : Plan) (file : MediaFile).

(** The kernel has the backup manager, and otherwise cooperative plugins. *)
Record team (subs : list (Subscriber (World S))) (l1 : list (Subscriber (World S)))
    (b : Subscriber (World S)) (l2 : list (Subscriber (World S))) : Prop := {
  team_subs : subs = l1 ++ b :: l2;
  team_name : Subscriber_plugin_name b = "backup-manager";
  team_backup : Subscriber_handler b = BackupPlugin overflow_checks to_str;
  team_coop s : s ∈ l1 ++ l2 → Cooperative config path (Subscriber_handler s);
}.

Context (l1 l2 : list (Subscriber (World S))) (b : Subscriber (World S)).
Context (Hteam : team (Kernel_subscribers (ctx_kernel ctx)) l1 b l2).

Lemma backup_open e w : open_result is_plugin_error (Plugin_on_event (Subscriber_handler b) e w).1.
Proof.
  rewrite (team_backup _ _ _ _ Hteam). cbn. intros x Hx.
  assert (Hr : EventResult_claimed x = false ∧ EventResult_produced_events x = []);
    [|destruct Hr as [-> ->]; by split].
  revert Hx. unfold Backup_on_event, on_plan_executing, on_plan_completed, on_plan_failed, run_bind, run_ret.
  destruct e; try done; repeat (case_match; try done); cbn; by intros [= <-].
Qed.

Lemma in_team s : s ∈ Kernel_subscribers (ctx_kernel ctx) → s = b ∨ Cooperative config path (Subscriber_handler s).
Proof.
  rewrite (team_subs _ _ _ _ Hteam), elem_of_app, elem_of_cons.
  intros [Hs|[->|Hs]]; [right| by left|right]; apply (team_coop _ _ _ _ Hteam), elem_of_app; by auto.
Qed.

(** A notice that the backup manager does not take. *)
Lemma other_coop e s w :
  notice e → Backup_handles (Event_event_type e) = false →
  s ∈ matching_handlers (Kernel_subscribers (ctx_kernel ctx)) e →
  let '(r, w') := Plugin_on_event (Subscriber_handler s) e w in
  quiet w w' ∧ open_result is_plugin_error r.
Proof.
  intros He Hb [Hs Hm]%filter_elem_of. apply in_team in Hs as [->|Hs]; [|by eapply coop_notice].
  rewrite (team_backup _ _ _ _ Hteam) in Hm. cbn in Hm. congruence.
Qed.

Lemma error_quiet e s w :
  is_plugin_error e → s ∈ matching_handlers (Kernel_subscribers (ctx_kernel ctx)) e →
  let '(r, w') := Plugin_on_event (Subscriber_handler s) e w in
  quiet w w' ∧ closed_result is_plugin_error r.
Proof.
  intros He Hs. destruct e; try done. pose proof (other_coop (Event_PluginError e) s w I eq_refl Hs) as Ho.
  destruct (Plugin_on_event _ _ w) as [r w']. destruct Ho. split; [done|by apply open_closed].
Qed.

Lemma dispatch_quiet e w log rs w' log' :
  notice e → Backup_handles (Event_event_type e) = false →
  dispatch (ctx_kernel ctx) e w log = (rs, w', log') → quiet w w' ∧ log `prefix_of` log'.
Proof.
  intros He Hb. apply (publish_closed quiet (λ e', is_plugin_error e' ∨ e' = e)); [by left| |by right].
  intros e' s w0 [He'| ->] Hs.
  - pose proof (error_quiet _ _ w0 He' Hs) as Hq. destruct (Plugin_on_event _ e' w0) as [r w1].
    destruct Hq as [? Hr]. split; [done|]. intros x Hx. eapply Forall_impl; [by apply Hr|]. by left.
  - pose proof (other_coop _ _ w0 He Hb Hs) as Hq. destruct (Plugin_on_event _ e w0) as [r w1].
    destruct Hq as [? Hr%open_closed]. split; [done|]. intros x Hx. eapply Forall_impl; [by apply Hr|].
    by left.
Qed.

(** A plan is given to the executors. *)
Lemma dispatch_created e w log rs w' log' :
  MediaFile_path (Plan_file (PlanCreatedEvent_plan e)) = path →
  dispatch (ctx_kernel ctx) (Event_PlanCreated e) w log = (rs, w', log') →
  keeps (backup_keys config path) w w' ∧ log `prefix_of` log'.
Proof.
  intros Hp. apply (publish_closed (keeps (backup_keys config path)) (λ e', is_plugin_error e' ∨ e' = Event_PlanCreated e)); [by left| |by right].
  intros e' s w0 [He'| ->] Hs.
  - pose proof (error_quiet _ _ w0 He' Hs) as Hq. destruct (Plugin_on_event _ e' w0) as [r w1].
    destruct Hq as [? Hr]. split; [by apply quiet_keeps|]. intros x Hx.
    eapply Forall_impl; [by apply Hr|]. by left.
  - apply filter_elem_of in Hs as [Hs Hm]. apply in_team in Hs as [->|Hs].
    { by rewrite (team_backup _ _ _ _ Hteam) in Hm. }
    pose proof (coop_created _ _ e w0 Hp) as Hq. destruct (Plugin_on_event _ _ w0) as [r w1].
    destruct Hq as [? Hr]. split; [done|]. intros x Hx. eapply Forall_impl; [by apply Hr|]. by left.
Qed.

(** A notice that the backup manager takes: it does so with the files as they
    are, and if it fails that is in the log. *)
Lemma dispatch_backup e w log rs w' log' :
  notice e → Backup_handles (Event_event_type e) = true →
  dispatch (ctx_kernel ctx) e w log = (rs, w', log') →
  ∃ w1 w2, quiet w w1 ∧ log `prefix_of` log' ∧ quiet w2 w' ∧
    Backup_on_event overflow_checks to_str e w1 = ((Backup_on_event overflow_checks to_str e w1).1, w2) ∧
    (bad (Backup_on_event overflow_checks to_str e w1).1 → trouble log').
Proof.
  intros He Hb Hd.
  set (h := λ s : Subscriber (World S), Plugin_handles (Subscriber_handler s) (Event_event_type e)).
  eapply (publish_through quiet _ (List.filter h l1) b (List.filter h l2)) in Hd
    as (w1 & w2 & r & rec & Hq1 & Hr & Hq2 & Hp & Hin & Hname & Hout).
  - rewrite (team_backup _ _ _ _ Hteam) in Hr. cbn in Hr. exists w1, w2. rewrite Hr.
    split_and!; [done..|]. cbn. intros Hbad. apply Exists_exists. exists rec. split; [done|].
    split; [by rewrite Hname; apply (team_name _ _ _ _ Hteam)|]. rewrite Hout.
    by destruct Hbad as [->|[err ->]].
  - exact error_quiet.
  - unfold matching_handlers. rewrite (team_subs _ _ _ _ Hteam), List.filter_app. cbn [List.filter].
    rewrite (team_backup _ _ _ _ Hteam) at 1. cbn [BackupPlugin Plugin_handles]. by rewrite Hb.
  - intros s w0 Hs. assert (Cooperative config path (Subscriber_handler s)); [|by eapply coop_notice].
    apply (team_coop _ _ _ _ Hteam).
    apply elem_of_app in Hs as [Hs|Hs]; apply filter_elem_of in Hs as [? _]; set_solver.
  - apply backup_open.
Qed.

(** *** Triples *)
Definition triple {A} (P : Pipe S → Prop) (m : Proc S A) (Q : A → Pipe S → Prop) : Prop :=
  ∀ st, P st → let '(a, st') := m st in Q a st'.

Lemma triple_ret {A} (P : Pipe S → Prop) (a : A) Q : (∀ st, P st → Q a st) → triple P (mret a) Q.
Proof. intros HPQ st Hst. by apply HPQ. Qed.

Lemma triple_bind {A B} P (m : Proc S A) (f : A → Proc S B) Q R :
  triple P m Q → (∀ a, triple (Q a) (f a) R) → triple P (mbind f m) R.
Proof.
  intros Hm Hf st Hst. unfold mbind, proc_mbind. specialize (Hm st Hst). destruct (m st) as [a st1].
  by apply Hf.
Qed.

Lemma triple_map {A B} P (m : Proc S A) (g : A → B) Q :
  triple P m (λ a, Q (g a)) → triple P (mbind (λ a, mret (g a)) m) Q.
Proof. intros Hm. eapply triple_bind; [exact Hm|]. intros a. by apply triple_ret. Qed.

Lemma triple_unit {A} P (m : Proc S A) (Q : Pipe S → Prop) :
  triple P m (λ _, Q) → triple P (mbind (λ _, mret tt) m) (λ _, Q).
Proof. exact (triple_map P m (λ _, tt) (λ _, Q)). Qed.

Lemma triple_test {A} P (test : Pipe S → bool) (m1 m2 : Proc S A) Q :
  triple P m1 Q → triple P m2 Q → triple P (λ st, if test st then m1 st else m2 st) Q.
Proof. intros Ha Hb st Hst. destruct (test st); [by apply Ha|by apply Hb]. Qed.

Lemma triple_conseq {A} (P P' : Pipe S → Prop) (m : Proc S A) (Q Q' : A → Pipe S → Prop) :
  triple P m Q → (∀ st, P' st → P st) → (∀ a st, Q a st → Q' a st) → triple P' m Q'.
Proof.
  intros Hm HP HQ st Hst. specialize (Hm st (HP st Hst)). destruct (m st) as [a st1]. by apply HQ.
Qed.

(** The backup manager has failed, or the world satisfies [X]. *)
Definition good (X : World S → Prop) st : Prop := trouble (pi_log st) ∨ X (pi_world st).

(** What a quiet step keeps *)
Class Stable (X : World S → Prop) : Prop := stable w w' : quiet w w' → X w → X w'.

Abbreviation is_ready := (ready config inventory path c) (only parsing).
Abbreviation is_backed := (backed_up config inventory path c) (only parsing).
Abbreviation is_either := (λ w, ready config inventory path c w ∨ backed_up config inventory path c w)
  (only parsing).

#[local] Instance ready_stable : Stable is_ready.
Proof. intros w w' Hq. apply keeps_ready. by apply quiet_keeps. Qed.

#[local] Instance backed_stable : Stable is_backed.
Proof. intros w w' Hq. apply keeps_backed. by apply quiet_keeps. Qed.

#[local] Instance either_stable : Stable is_either.
Proof. intros w w' Hq [Hw|Hw]; [left|right]; by eapply stable. Qed.

Lemma triple_world {A} X `{!Stable X} (f : World S → A * World S) :
  (∀ w, quiet w (f w).2) → triple (good X) (on_world f) (λ _, good X).
Proof.
  intros Hf st Hst. unfold on_world. specialize (Hf (pi_world st)).
  destruct (f (pi_world st)) as [a w]. destruct Hst as [Ht|HX]; [by left|right]. by eapply stable.
Qed.

Lemma triple_store {A} X `{!Stable X} (f : S → A * S) :
  (∀ s, backup_get (f s).2 = backup_get s) → triple (good X) (on_store f) (λ _, good X).
Proof.
  intros Hf. apply (triple_world X). intros w. specialize (Hf (w_store w)).
  destruct (f (w_store w)) as [a s]. done.
Qed.

Lemma triple_read {A} X (f : World S → A) :
  triple (good X) (read_world f) (λ a st, good X st ∧ a = f (pi_world st)).
Proof. by intros st Hst. Qed.

Lemma triple_count X f : triple (good X) (count f) (λ _, good X).
Proof. by intros st Hst. Qed.

Lemma triple_notice X `{!Stable X} e :
  notice e → Backup_handles (Event_event_type e) = false →
  triple (good X) (dispatch_and_log ctx e) (λ _, good X).
Proof.
  intros He Hb st Hst. unfold dispatch_and_log.
  destruct (dispatch _ e _ _) as [[rs w] log] eqn:Hd. apply dispatch_quiet in Hd as [Hq Hp]; [|done..].
  destruct Hst as [Ht|HX]; [left; by eapply trouble_prefix|right]. by eapply stable.
Qed.

(** An event that the backup manager takes, with what it does. *)
Lemma triple_backup (X Y : World S → Prop) `{!Stable X} `{!Stable Y} e :
  notice e → Backup_handles (Event_event_type e) = true →
  (∀ w, X w → run_post (Backup_on_event overflow_checks to_str e) w (λ _ w', Y w')) →
  triple (good X) (dispatch_and_log ctx e) (λ _, good Y).
Proof.
  intros He Hb Hpost st Hst. unfold dispatch_and_log.
  destruct (dispatch _ e _ _) as [[rs w'] log'] eqn:Hd.
  apply dispatch_backup in Hd as (w1 & w2 & Hq1 & Hp & Hq2 & Hr & Hbad); [|done..].
  destruct Hst as [Ht|HX]; [left; by eapply trouble_prefix|].
  apply (stable _ w1) in HX; [|done]. apply Hpost, run_post_bad in HX as [HX|(a & _ & HY)].
  - left. by apply Hbad.
  - right. rewrite Hr in HY. by eapply stable.
Qed.

Lemma triple_executing plan file :
  MediaFile_path file = path → MediaFile_path (Plan_file plan) = path →
  triple (good is_ready) (PlanDispatcher_begin ctx plan file) (λ _, good is_backed).
Proof.
  intros Hpath Hplan. unfold PlanDispatcher_begin. eapply triple_bind.
  - apply (triple_backup is_ready is_backed); [done|done|]. intros w Hw. by apply executing_post.
  - intros ? st Hst. unfold dispatch_and_log. destruct (dispatch _ _ _ _) as [[rs w'] log'] eqn:Hd.
    apply dispatch_created in Hd as [Hs Hp]; [|done].
    destruct Hst as [Ht|HX]; [left; by eapply trouble_prefix|right]. by eapply keeps_backed.
Qed.

Lemma triple_failed event :
  PlanFailedEvent_path event = path →
  triple (good is_either) (PlanDispatcher_failed ctx event) (λ _, good is_ready).
Proof.
  intros Hpath. apply triple_unit.
  apply (triple_backup is_either is_ready); [done|done|]. intros w [Hw|Hw].
  - unfold run_post, Backup_on_event. by rewrite (failed_ready to_str config inventory path c).
  - by apply failed_post.
Qed.

(** *** The steps of the loop *)
Lemma record_failure_triple X `{!Stable X} file plan executor message :
  triple (good X) (record_failure_transition ctx file plan executor message) (λ _, good X).
Proof.
  eapply triple_bind; [apply triple_read|]. intros w0. apply triple_map.
  eapply triple_conseq; [apply (triple_store X); intros s0; apply spares_transition|by intros st [? _]|].
  by intros r st Hst.
Qed.

Lemma safeguard_triple plan file message :
  MediaFile_path file = path →
  triple (good is_either) (record_safeguard_failure ctx plan file message) (λ _, good is_ready).
Proof.
  intros Hpath. eapply triple_bind; [by apply triple_failed|]. intros ?.
  eapply triple_bind; [apply triple_count|]. intros ?. apply triple_unit. apply record_failure_triple, _.
Qed.

Lemma resolve_cases file plans w :
  resolve_post_execution_path file plans w = MediaFile_path file ∨
  ∃ container, resolve_post_execution_path file plans w
               = path_set_extension (MediaFile_path file) (Container_as_str container).
Proof.
  unfold resolve_post_execution_path. destruct (find_last_container_action plans) as [k|]; [|by left].
  case_match; [right; by exists k|by left].
Qed.

Lemma remove_converted_triple plans file check_path :
  MediaFile_path file = path →
  triple (λ st, good is_backed st ∧ ∃ w, check_path = resolve_post_execution_path file plans w)
    (remove_converted file check_path) (λ _, good is_backed).
Proof.
  intros Hpath st [Hst [w ->]]. unfold remove_converted, path_eqb. case_bool_decide as Hk; [done|].
  destruct Hst as [Ht|HX]; [by left|right]. cbn. eapply keeps_backed; [|exact HX].
  apply fs_remove_keeps. intros (id & now & Heq).
  destruct (resolve_cases file plans w) as [Hr|[k Hr]]; rewrite Hr in *; [done|].
  rewrite Hpath in Heq. by eapply (apart_converted _ _ _ Hapart).
Qed.

Lemma fs_len_quiet p w : quiet w (fs_len p w).2.
Proof. unfold fs_len, fs_query. by destruct (w_faults w) as [|[e|] fs]. Qed.

(** What both checks of the output do when they object. *)
Lemma object_triple plan file check_path message :
  MediaFile_path file = path →
  triple (λ st, good is_backed st ∧ ∃ w, check_path = resolve_post_execution_path file [plan] w)
    (_ ← remove_converted file check_path; _ ← record_safeguard_failure ctx plan file message; mret true)
    (λ (r : bool), if r then good is_ready else good is_backed).
Proof.
  intros Hpath. eapply triple_bind; [by apply (remove_converted_triple [plan])|]. intros ?.
  apply (triple_map _ _ (λ _, true)).
  eapply triple_conseq; [by apply safeguard_triple| |by intros ? st Hst].
  intros st [Ht|HX]; [by left|by right; right].
Qed.

Lemma size_triple plan file :
  MediaFile_path file = path →
  triple (good is_backed) (check_size_increase ctx plan file)
    (λ (r : bool), if r then good is_ready else good is_backed).
Proof.
  intros Hpath. unfold check_size_increase. case_match; [by apply triple_ret|].
  eapply triple_bind; [apply triple_read|]. intros check_path.
  eapply (triple_bind _ _ _ (λ _ st, good is_backed st ∧
            ∃ w, check_path = resolve_post_execution_path file [plan] w)).
  { intros st [Hst Hc]. pose proof (triple_world is_backed (fs_len check_path) (fs_len_quiet _) st Hst) as Hw.
    destruct (on_world _ st) as [r st']. split; [done|by eexists]. }
  intros [n|e]; [|by apply triple_ret; intros st [? _]].
  case_match; [by apply triple_ret; intros st [? _]|]. by apply object_triple.
Qed.

Lemma shrink_probe_triple plan file :
  triple (good is_backed) (check_duration_shrink_blocking plan file)
    (λ r st, good is_backed st ∧ ∀ o, r = Some o → ∃ w,
       match o with
       | DurationShrinkOutcome_Shrunk p _ _ => p
       | DurationShrinkOutcome_FfprobeFailed p _ => p
       end = resolve_post_execution_path file [plan] w).
Proof.
  eapply triple_bind; [apply triple_read|]. intros check_path.
  set (Q st := good is_backed st ∧ ∃ w, check_path = resolve_post_execution_path file [plan] w).
  assert (Hw : ∀ A (f : World S → A * World S), (∀ w, quiet w (f w).2) →
    triple Q (on_world f) (λ _, Q)).
  { intros A f Hf st [Hst Hp]. pose proof (triple_world is_backed f Hf st Hst) as Hr.
    destruct (on_world f st) as [r st']. by split. }
  eapply (triple_conseq Q); [|intros st [? ->]; split; [done|by eexists]|intros r st Hst; exact Hst].
  eapply triple_bind; [apply Hw, fs_len_quiet|]. intros [n|e]; [|by apply triple_ret; intros st [? _]].
  eapply triple_bind; [apply Hw; intros w; apply introspect_reads|].
  intros [f|e]; [cbv zeta; destruct (f64_ltb _ _)|]; apply triple_ret; intros st [? Hp]; (split; [done|]); intros o Ho; simplify_eq; done.
Qed.

Lemma duration_triple plan file :
  MediaFile_path file = path →
  triple (good is_backed) (check_duration_shrink cancelled ctx plan file)
    (λ (r : bool), if r then good is_ready else good is_backed).
Proof.
  intros Hpath. unfold check_duration_shrink.
  refine (triple_test _ (λ st, _ || cancelled st) (mret false) _ _ _ _); [by apply triple_ret|].
  eapply triple_bind; [apply shrink_probe_triple|]. intros [o|]; [|by apply triple_ret; intros st [? _]].
  destruct o as [p d pct|p e]; (eapply triple_conseq; [by apply object_triple| |by intros r st Hst]);
    intros st [Hst Ho]; (split; [done|]); by apply (Ho _ eq_refl).
Qed.

Lemma available_quiet p w : quiet w (available_space p w).2.
Proof.
  unfold available_space, run_os, fs_query. case_match; [done|].
  destruct (w_faults w) as [|[e|] fs]; [|done|]; by repeat case_match.
Qed.

Lemma estimate_quiet plan size w : quiet w (estimate_required_space plan size w).2.
Proof.
  unfold estimate_required_space.
  assert (Hs : ∀ actions w, quiet w (subtitle_sizes actions w).2).
  { induction actions as [|a actions IH]; intros w0; cbn [subtitle_sizes]; [done|].
    destruct (PlannedAction_parameters a); try apply IH.
    pose proof (fs_len_quiet subtitle_path w0) as Hl. destruct (fs_len subtitle_path w0) as [r w1].
    specialize (IH w1). destruct (subtitle_sizes actions w1) as [sizes w2]. cbn in *. by etrans. }
  specialize (Hs (Plan_actions plan) w). by destruct (subtitle_sizes _ w).
Qed.

Lemma disk_triple plan file :
  MediaFile_path file = path →
  triple (good is_ready) (check_disk_space ctx plan file) (λ _, good is_ready).
Proof.
  intros Hpath. eapply triple_bind; [apply (triple_world is_ready), available_quiet|].
  intros [[n|e]|]; [|by apply triple_ret..].
  eapply triple_bind; [apply (triple_world is_ready), estimate_quiet|]. intros required.
  case_match; [by apply triple_ret|]. apply (triple_map _ _ (λ _, true)).
  eapply triple_conseq; [by apply safeguard_triple| |by intros ? st Hst].
  intros st [Ht|HX]; [by left|by right; left].
Qed.

Lemma violations_triple plan file :
  triple (good is_ready) (dispatch_safeguard_violations ctx plan file) (λ _, good is_ready).
Proof.
  unfold dispatch_safeguard_violations. case_match; [by apply triple_ret|].
  apply triple_unit. by apply triple_notice; [apply _|..].
Qed.

Lemma skipped_triple plan file reason :
  Plan_skip_reason plan = Some reason →
  triple (good is_ready) (dispatch_skipped_plan ctx plan file reason) (λ _, good is_ready).
Proof.
  intros Hs. eapply triple_bind; [apply triple_unit, triple_notice; [apply _| |done]|].
  { cbn. unfold Plan_is_skipped. by rewrite Hs. }
  intros ?. eapply triple_bind; [apply triple_unit; by apply triple_notice; [apply _|..]|].
  intros ?. apply triple_count.
Qed.

Lemma call_triple k call :
  triple (good is_ready) (call_exclusive ctx k call) (λ r st, good is_ready st ∧
    ∀ x, r = Ok x → ∃ s w, Cooperative config path (Subscriber_handler s) ∧
      (Plugin_on_call (Subscriber_handler s) call w).1 = Returned (Ok x)).
Proof.
  intros st Hst. unfold call_exclusive, dispatch_to_capability, resolve_capability.
  destruct (List.find _ _) as [s0|] eqn:Hfind; [|done].
  apply find_Some_elem_of in Hfind as [Hs _]. apply in_team in Hs.
  match goal with |- context [Plugin_on_call ?p ?call ?w] =>
    assert (Hq : quiet w (Plugin_on_call p call w).2);
    [|assert (Ho : Cooperative config path p ∨ ∃ e, (Plugin_on_call p call w).1 = Returned (Err e));
      [|destruct (Plugin_on_call p call w) as [r w'] eqn:Hc]] end.
  { destruct Hs as [->|Hs]; [by rewrite (team_backup _ _ _ _ Hteam)|by eapply coop_call]. }
  { destruct Hs as [->|Hs]; [right|by left]. rewrite (team_backup _ _ _ _ Hteam). by eexists. }
  cbn in *. split.
  - destruct Hst as [Ht|HX]; [left; eapply trouble_prefix; [by eexists|done]|right]. by eapply stable.
  - intros x Hx. destruct Ho as [Ho|[e ->]]; [|done]. exists s0, (pi_world st). split; [done|].
    rewrite Hc. cbn. destruct r as [[y|e]|]; simplify_eq; done.
Qed.

Lemma evaluate_triple policy file phase outcomes caps :
  MediaFile_path file = path →
  triple (good is_ready) (kernel_evaluate ctx policy file phase outcomes caps) (λ r st,
    good is_ready st ∧ ∀ x, r = Ok x → Forall (λ plan, MediaFile_path (Plan_file plan) = path)
                                        (EvaluationResult_plans x)).
Proof.
  intros Hpath. apply triple_map. eapply triple_conseq; [apply call_triple|done|].
  intros r st [Hst Hr]. split; [done|]. intros x Hx. destruct r as [[]|]; simplify_eq.
  destruct (Hr _ eq_refl) as (s & w & Hs & Hc). by eapply coop_plans.
Qed.

(** *** Automatic cropping *)
Lemma detect_crop_quiet p source settings now w : quiet w (detect_crop "ffmpeg" p source settings now w).2.
Proof.
  assert (Hb : ∀ A B (m : Io S A) (f : A → Io S B), (∀ w, quiet w (m w).2) →
    (∀ a w, quiet w (f a w).2) → ∀ w, quiet w (io_bind m f w).2).
  { intros A B m f Hm Hf w0. unfold io_bind. specialize (Hm w0). destruct (m w0) as [[a|e] w1]; [|done].
    etrans; [exact Hm|apply Hf]. }
  unfold detect_crop, detect_sample_rects. apply Hb.
  - generalize (sample_starts (CropDetectSource_duration_secs source)
      (CropDetectConfig_sample_count (CropDetectConfig_from settings))
      (CropDetectConfig_sample_duration_secs (CropDetectConfig_from settings))).
    intros starts. induction starts as [|t starts IH]; cbn [detect_rects_at]; [done|].
    apply Hb.
    + apply Hb; [|intros a w0; by case_match]. intros w0. unfold run_with_timeout.
      pose proof (cropdetect_reads p t (CropDetectConfig_from settings) (w_files w0)) as Hr.
      destruct (run_child _ _ (w_files w0)) as [o files]. cbn in *. by subst.
    + intros stderr. apply Hb; [done|]. intros rects. by apply Hb.
  - intros rects. apply Hb; done.
Qed.

Definition cropped (r : result string (Plan * MediaFile)) : Prop :=
  ∀ p f, r = Ok (p, f) → MediaFile_path f = path ∧ MediaFile_path (Plan_file p) = path.

Lemma crop_triple plan file :
  MediaFile_path file = path → MediaFile_path (Plan_file plan) = path →
  triple (good is_ready) (apply_auto_crop_detection plan file)
    (λ r st, good is_ready st ∧ cropped r).
Proof.
  intros Hpath Hplan. unfold apply_auto_crop_detection.
  assert (Hret : ∀ r, cropped r → triple (good is_ready) (mret r) (λ r st, good is_ready st ∧ cropped r)).
  { intros r Hr. by apply triple_ret. }
  destruct (cropdetect_request_for_plan plan file) as [[settings source]|];
    [|apply Hret; by intros ?? [= <- <-]].
  destruct (crop_settings_json settings) as [fingerprint|e]; [|by apply Hret].
  case_match; [apply Hret; by intros ?? [= <- <-]|].
  eapply triple_bind; [apply triple_read|]. intros now.
  eapply (triple_bind _ _ _ (λ _, good is_ready)).
  { eapply triple_conseq; [apply (triple_world is_ready), detect_crop_quiet|by intros st [? _]|by intros ? st Hst]. }
  intros [d|e]; [|by apply Hret]. case_match; [apply Hret; by intros ?? [= <- <-]|].
  apply triple_map. eapply triple_conseq; [apply (triple_store is_ready), spares_upsert|done|].
  intros [u|e] st Hst; (split; [done|]); [|done]. by intros ?? [= <- <-].
Qed.

(** *** One phase, and all of them *)
Abbreviation untouched := (λ (r : Flow * LoopState) (st : Pipe S),
  ls_any_executed r.2 = false →
  good (ready config inventory path c) st ∧ MediaFile_path (ls_file r.2) = path) (only parsing).

Lemma success_triple phase plan executor elapsed keep ls :
  MediaFile_path (ls_file ls) = path →
  triple (good is_backed) (finish_success to_str cancelled ctx phase plan executor elapsed keep ls) untouched.
Proof.
  intros Hpath. unfold finish_success.
  eapply triple_bind; [by apply size_triple|]. intros [|]; [by apply triple_ret|].
  eapply triple_bind; [by apply duration_triple|]. intros [|]; [by apply triple_ret|].
  eapply (triple_bind _ _ _ (λ _ _, True)); [intros st _; by destruct (_ st)|]. intros ?.
  apply triple_map. intros st _. destruct (handle_plan_success _ _ _ _ _ _ _ st) as [[f|e] st']; done.
Qed.

Lemma failure_triple plan failed ls :
  MediaFile_path (ls_file ls) = path → PlanFailedEvent_path failed = path →
  triple (good is_either) (finish_failure ctx plan failed ls) untouched.
Proof.
  intros Hpath Hf. unfold finish_failure, dispatch_plan_failure.
  eapply (triple_bind _ _ _ (λ _, good is_ready)).
  { eapply triple_bind; [by apply triple_failed|]. intros ?. apply triple_count. }
  intros ?. apply triple_map. eapply triple_conseq; [apply (record_failure_triple is_ready)|intros st Hst; exact Hst|].
  by intros [r|e] st Hst.
Qed.

Lemma outcome_path results plan file failed :
  PlanOutcome_from_event_result results plan file = PlanOutcome_Failed failed →
  PlanFailedEvent_path failed = MediaFile_path file.
Proof.
  unfold PlanOutcome_from_event_result. destruct (foldl _ _ _) as [[[n|] [e|]] d]; by intros [= <-].
Qed.

Lemma execute_triple phase plan keep ls :
  MediaFile_path (ls_file ls) = path → MediaFile_path (Plan_file plan) = path →
  triple (good is_ready) (execute_phase to_str cancelled ctx phase plan keep ls) untouched.
Proof.
  intros Hpath Hplan st Hst. unfold execute_phase, execute_single_plan.
  pose proof (triple_executing plan _ Hpath Hplan st Hst) as Hb. unfold mbind at 1, proc_mbind.
  destruct (PlanDispatcher_begin ctx plan (ls_file ls) st) as [results st1].
  destruct (PlanOutcome_from_event_result results plan (ls_file ls)) as [executor|failed] eqn:Ho; cbn.
  - by apply success_triple.
  - apply failure_triple; [done|by apply outcome_path in Ho as ->|].
    destruct Hb as [Ht|HX]; [by left|by right; right].
Qed.

Lemma check_execute_triple phase plan permit keep ls :
  MediaFile_path (ls_file ls) = path → MediaFile_path (Plan_file plan) = path →
  triple (good is_ready) (check_and_execute to_str cancelled ctx phase plan permit keep ls) untouched.
Proof.
  intros Hpath Hplan. eapply triple_bind; [by apply disk_triple|]. intros [|]; [by apply triple_ret|].
  refine (triple_test _ (λ st, _ && cancelled st) (mret (Flow_Break, ls)) _ _ _ _); [by apply triple_ret|].
  by apply execute_triple.
Qed.

Lemma run_plan_triple phase plan keep ls :
  MediaFile_path (ls_file ls) = path → MediaFile_path (Plan_file plan) = path →
  triple (good is_ready) (run_plan to_str cancelled ctx phase plan keep ls) untouched.
Proof.
  intros Hpath Hplan. unfold run_plan.
  refine (triple_test _ (λ st, savings_below_threshold ctx plan (pi_world st)) _ _ _ _ _).
  { eapply triple_bind; [apply triple_count|]. intros ?. by apply triple_ret. }
  eapply triple_bind; [apply violations_triple|]. intros ?.
  destruct (Plan_skip_reason plan) as [reason|] eqn:Hs.
  { eapply triple_bind; [by apply skipped_triple|]. intros ?. by apply triple_ret. }
  case_match; [by apply triple_ret|]. unfold crop_and_execute.
  refine (triple_test _ (λ st, negb (plan_requires_auto_crop plan)) _ _ _ _ _);
    [by apply check_execute_triple|].
  refine (triple_test _ cancelled (mret (Flow_Break, ls)) _ _ _ _); [by apply triple_ret|].
  eapply triple_bind; [by apply crop_triple|]. intros [[plan' file']|e].
  - intros st [Hst Hp]. destruct (Hp _ _ eq_refl). by apply check_execute_triple.
  - eapply (triple_bind _ _ _ (λ _, good is_ready)); [|intros ?; by apply triple_ret].
    eapply triple_bind; [|intros ?; apply triple_count].
    eapply triple_conseq; [by apply triple_failed| |by intros ? st Hst].
    intros st [[Ht|HX] _]; [by left|by right; left].
Qed.

Lemma run_phase_triple compiled phase ls :
  MediaFile_path (ls_file ls) = path →
  triple (good is_ready) (run_phase to_str cancelled ctx compiled phase ls) untouched.
Proof.
  intros Hpath. unfold run_phase.
  refine (triple_test _ cancelled (mret (Flow_Break, ls)) _ _ _ _); [by apply triple_ret|].
  eapply triple_bind; [by apply evaluate_triple|]. intros [result|e]; [|by apply triple_ret; intros st [? _]].
  destruct (EvaluationResult_plans result) as [|plan plans] eqn:Hr; [by apply triple_ret; intros st [? _]|].
  intros st [Hst Hp]. specialize (Hp _ eq_refl). rewrite Hr in Hp. apply Forall_cons in Hp as [Hp _].
  by apply run_plan_triple.
Qed.

(** *** The count of modified files *)
Abbreviation modified st := (RunCounters_modified_count (pi_counters st)) (only parsing).

Definition steady {A} (m : Proc S A) : Prop := ∀ st, modified (m st).2 = modified st.

Lemma steady_bind {A B} (m : Proc S A) (f : A → Proc S B) :
  steady m → (∀ a, steady (f a)) → steady (mbind f m).
Proof.
  intros Hm Hf st. unfold mbind, proc_mbind. specialize (Hm st). destruct (m st) as [a st1].
  by rewrite Hf.
Qed.

Lemma steady_ret {A} (a : A) : steady (mret a).
Proof. by intros st. Qed.

Lemma steady_test {A} (test : Pipe S → bool) (m1 m2 : Proc S A) :
  steady m1 → steady m2 → steady (λ st, if test st then m1 st else m2 st).
Proof. intros Ha Hb st. destruct (test st); auto. Qed.

Lemma steady_world {A} (f : World S → A * World S) : steady (on_world f).
Proof. intros st. unfold on_world. by destruct (f (pi_world st)). Qed.

Lemma steady_store {A} (f : S → A * S) : steady (on_store f).
Proof. apply steady_world. Qed.

Lemma steady_read {A} (f : World S → A) : steady (read_world f).
Proof. by intros st. Qed.

Lemma steady_stat phase o : steady (count (record_phase_stat phase o)).
Proof. by intros st. Qed.

Lemma steady_backup n : steady (count (count_backup n)).
Proof. by intros st. Qed.

Lemma steady_dispatch e : steady (dispatch_and_log ctx e).
Proof. intros st. unfold dispatch_and_log. by destruct (dispatch _ e _ _) as [[??]?]. Qed.

Lemma steady_call k call : steady (call_exclusive ctx k call).
Proof. intros st. unfold call_exclusive. by destruct (dispatch_to_capability _ _ _ _ _) as [[??]?]. Qed.

Lemma steady_remove file p : steady (remove_converted file p).
Proof. intros st. unfold remove_converted. by case_match. Qed.

Ltac steady_step :=
  first [ apply steady_bind; [|intros ?] | apply steady_ret | apply steady_world | apply steady_store
        | apply steady_read | apply steady_stat | apply steady_backup | apply steady_dispatch
        | apply steady_call | apply steady_remove | case_match ].

Lemma steady_failure file plan executor message :
  steady (record_failure_transition ctx file plan executor message).
Proof. unfold record_failure_transition. by repeat steady_step. Qed.

Lemma steady_safeguard plan file message : steady (record_safeguard_failure ctx plan file message).
Proof.
  unfold record_safeguard_failure, PlanDispatcher_failed. repeat steady_step; apply steady_failure.
Qed.

Lemma steady_size plan file : steady (check_size_increase ctx plan file).
Proof. unfold check_size_increase. repeat steady_step; apply steady_safeguard. Qed.

Lemma steady_duration plan file : steady (check_duration_shrink cancelled ctx plan file).
Proof.
  unfold check_duration_shrink, check_duration_shrink_blocking.
  refine (steady_test (λ st, _ || cancelled st) (mret false) _ _ _); [apply steady_ret|].
  repeat first [steady_step|cbv zeta]; apply steady_safeguard.
Qed.

Lemma steady_disk plan file : steady (check_disk_space ctx plan file).
Proof. unfold check_disk_space. repeat steady_step; apply steady_safeguard. Qed.

Lemma steady_success plan file executor elapsed keep :
  steady (handle_plan_success to_str ctx plan file executor elapsed keep).
Proof.
  unfold handle_plan_success, PlanDispatcher_completed. repeat steady_step.
  - unfold reintrospect_file, introspect_file_no_dispatch, introspection_failed.
    refine (steady_test (λ st, negb (path_exists _ (pi_world st))) (mret file) _ _ _); [apply steady_ret|].
    repeat first [steady_step|cbv zeta].
  - unfold record_file_transition. cbv zeta. by repeat steady_step.
Qed.

Lemma steady_crop plan file : steady (apply_auto_crop_detection plan file).
Proof. unfold apply_auto_crop_detection. by repeat first [steady_step|cbv zeta]. Qed.

Lemma steady_violations plan file : steady (dispatch_safeguard_violations ctx plan file).
Proof. unfold dispatch_safeguard_violations. by repeat steady_step. Qed.

Lemma steady_skipped plan file reason : steady (dispatch_skipped_plan ctx plan file reason).
Proof.
  unfold dispatch_skipped_plan, PlanDispatcher_created, PlanDispatcher_skipped. by repeat steady_step.
Qed.

Lemma steady_plan_failure failed phase : steady (dispatch_plan_failure ctx failed phase).
Proof. unfold dispatch_plan_failure, PlanDispatcher_failed. by repeat steady_step. Qed.

Lemma steady_evaluate policy file phase outcomes caps :
  steady (kernel_evaluate ctx policy file phase outcomes caps).
Proof. unfold kernel_evaluate. by repeat steady_step. Qed.

(** The counter has grown by one since [n] exactly when a plan has been executed. *)
Definition counted (n : u64) (ls : LoopState) st : Prop :=
  ls_modified_counted ls = ls_any_executed ls ∧
  modified st = (if ls_any_executed ls then fetch_add n 1 else n).

(** A step of the loop keeps the count right, and does not forget an execution. *)
Definition counts (ls : LoopState) (m : Proc S (Flow * LoopState)) : Prop :=
  ∀ n, triple (counted n ls) m (λ r st, counted n r.2 st ∧
    (ls_any_executed ls = true → ls_any_executed r.2 = true)).

Lemma counts_steady {A} ls (m : Proc S A) f : steady m → (∀ a, counts ls (f a)) → counts ls (mbind f m).
Proof.
  intros Hm Hf n. apply (triple_bind _ _ _ (λ _, counted n ls)); [|intros a; apply Hf].
  intros st [Hc Hn]. specialize (Hm st). destruct (m st) as [a st']. split; [done|]. cbn in *. congruence.
Qed.

Lemma counts_ret ls flow ls' :
  ls_any_executed ls' = ls_any_executed ls → ls_modified_counted ls' = ls_modified_counted ls →
  counts ls (mret (flow, ls')).
Proof. intros Ha Hm n. apply triple_ret. unfold counted. cbn. by rewrite Ha, Hm. Qed.

Lemma counts_test ls (test : Pipe S → bool) m1 m2 :
  counts ls m1 → counts ls m2 → counts ls (λ st, if test st then m1 st else m2 st).
Proof. intros Ha Hb n. by apply triple_test. Qed.

Lemma counts_success phase plan executor elapsed keep ls :
  counts ls (finish_success to_str cancelled ctx phase plan executor elapsed keep ls).
Proof.
  apply counts_steady; [apply steady_size|]. intros [|]; [by apply counts_ret|].
  apply counts_steady; [apply steady_duration|]. intros [|]; [by apply counts_ret|]. intros n.
  apply (triple_bind _ _ _ (λ _ st, modified st = fetch_add n 1)).
  { intros st [Hc Hn]. rewrite Hc. destruct (ls_any_executed ls); cbn; congruence. }
  intros _ st Hst. unfold mbind, proc_mbind.
  pose proof (steady_success plan (ls_file ls) executor elapsed keep st) as Hs.
  destruct (handle_plan_success _ _ _ _ _ _ _ st) as [[f|e] st']; cbn in *; (split; [|done]);
    (split; [done|]); cbn; congruence.
Qed.

Lemma counts_execute phase plan keep ls :
  counts ls (execute_phase to_str cancelled ctx phase plan keep ls).
Proof.
  intros n st [Hc Hn]. unfold execute_phase.
  assert (Hs : steady (execute_single_plan ctx plan (ls_file ls))).
  { unfold execute_single_plan, PlanDispatcher_begin. by repeat steady_step. }
  specialize (Hs st). destruct (execute_single_plan _ _ _ st) as [[executor|failed] st']; cbn in Hs.
  - apply counts_success. split; [done|congruence].
  - revert st' Hs. intros st' Hs. assert (Hf : counts ls (finish_failure ctx plan failed ls)).
    { apply counts_steady; [apply steady_plan_failure|]. intros ?.
      apply counts_steady; [apply steady_failure|]. intros [?|?]; by apply counts_ret. }
    apply Hf. split; [done|congruence].
Qed.

Lemma counts_check phase plan permit keep ls :
  counts ls (check_and_execute to_str cancelled ctx phase plan permit keep ls).
Proof.
  apply counts_steady; [apply steady_disk|]. intros [|]; [by apply counts_ret|].
  refine (counts_test _ (λ st, _ && cancelled st) (mret (Flow_Break, ls)) _ _ _); [by apply counts_ret|].
  apply counts_execute.
Qed.

Lemma counts_plan phase plan keep ls :
  counts ls (run_plan to_str cancelled ctx phase plan keep ls).
Proof.
  refine (counts_test _ (λ st, savings_below_threshold ctx plan (pi_world st)) _ _ _ _).
  { apply counts_steady; [apply steady_stat|]. intros ?. by apply counts_ret. }
  apply counts_steady; [apply steady_violations|]. intros ?. case_match.
  { apply counts_steady; [apply steady_skipped|]. intros ?. by apply counts_ret. }
  case_match; [by apply counts_ret|].
  refine (counts_test _ (λ st, negb (plan_requires_auto_crop plan)) _ _ _ _); [apply counts_check|].
  refine (counts_test _ cancelled (mret (Flow_Break, ls)) _ _ _); [by apply counts_ret|].
  apply counts_steady; [apply steady_crop|]. intros [[plan' file']|e].
  - exact (counts_check phase plan' true keep (set_file file' ls)).
  - apply counts_steady; [apply steady_plan_failure|]. intros ?. by apply counts_ret.
Qed.

Lemma counts_phase compiled phase ls :
  counts ls (run_phase to_str cancelled ctx compiled phase ls).
Proof.
  refine (counts_test _ cancelled (mret (Flow_Break, ls)) _ _ _); [by apply counts_ret|].
  apply counts_steady; [apply steady_evaluate|]. intros [result|e]; [|by apply counts_ret].
  destruct (EvaluationResult_plans result) as [|plan plans]; [by apply counts_ret|].
  exact (counts_plan phase _ _ (push_plan (Plan_with_sessions plan _ _) ls)).
Qed.

(** *** The loop *)
Lemma run_phases_triple compiled phases n ls :
  (ls_any_executed ls = false → MediaFile_path (ls_file ls) = path) →
  triple (λ st, counted n ls st ∧ (ls_any_executed ls = false → good is_ready st))
    (run_phases to_str cancelled ctx compiled phases ls)
    (λ r st, counted n r.2 st ∧ (ls_any_executed r.2 = false → good is_ready st)).
Proof.
  revert ls. induction phases as [|phase phases IH]; intros ls Hpath st [Hc Hst]; [done|].
  cbn [run_phases]. unfold mbind, proc_mbind.
  pose proof (counts_phase compiled phase ls n st Hc) as Hc'.
  assert (Hp : ls_any_executed ls = false →
    untouched (run_phase to_str cancelled ctx compiled phase ls st).1
              (run_phase to_str cancelled ctx compiled phase ls st).2).
  { intros Ha. pose proof (run_phase_triple compiled phase ls (Hpath Ha) st (Hst Ha)) as Hr.
    by destruct (run_phase _ _ _ _ _ _ st). }
  destruct (run_phase _ _ _ _ _ _ st) as [[flow ls'] st']. cbn [fst snd] in *. destruct Hc' as [Hc' Hs].
  assert (Hg : ls_any_executed ls' = false → good is_ready st' ∧ MediaFile_path (ls_file ls') = path).
  { intros Ha. apply Hp; [|done]. destruct (ls_any_executed ls); [by rewrite Hs in Ha|done]. }
  destruct flow; [apply IH; [|split; [done|]]; intros Ha; by apply Hg|..]; (split; [done|]); intros Ha; by apply Hg.
Qed.

Lemma fetch_add_ne n : fetch_add n 1 ≠ n.
Proof.
  unfold fetch_add. destruct (decide (n < 18446744073709551616)%N) as [Hn|Hn].
  - destruct (decide (n = 18446744073709551615)%N) as [->|Hne]; [done|]. rewrite N.mod_small; lia.
  - pose proof (N.mod_lt (n + 1) 18446744073709551616). lia.
Qed.

Lemma process_file_triple compiled file n :
  MediaFile_path file = path →
  triple (λ st, modified st = n ∧ good is_ready st)
    (process_single_file_execute to_str cancelled ctx file compiled)
    (λ _ st, modified st = n → good is_ready st).
Proof.
  intros Hpath. unfold process_single_file_execute.
  apply (triple_bind _ _ _ (λ _ st, modified st = n → good is_ready st)).
  - unfold process_single_file_execute_inner, check_file_hash.
    apply (triple_bind _ _ _ (λ _ st, modified st = n ∧ good is_ready st)).
    + case_match; [|by apply triple_ret]. apply triple_map. intros st [Hn Hst].
      pose proof (triple_world is_ready (hash_file (MediaFile_path file)) (hash_reads _) st Hst) as Hw.
      pose proof (steady_world (hash_file (MediaFile_path file)) st) as Hs.
      destruct (on_world _ st) as [r st']. cbn in *. split; [congruence|done].
    + intros [reason|]; [by apply triple_ret; intros st []|].
      apply (triple_bind _ _ _ (λ r st, counted n r.2 st ∧ (ls_any_executed r.2 = false → good is_ready st))).
      * eapply triple_conseq; [by apply (run_phases_triple compiled _ n)| |done]. by intros st [<- Hst].
      * intros [r ls]. apply triple_ret. intros st [[_ Hc] Hst] Hn. apply Hst. cbn in *.
        destruct (ls_any_executed ls); [|done]. rewrite Hn in Hc. by edestruct fetch_add_ne.
  - intros [inner plans].
    apply (triple_bind _ _ _ (λ _ st, modified st = n → good is_ready st)); [|intros ?; by apply triple_ret].
    apply triple_map. intros st Hst. pose proof (steady_call Capability_OrchestratePhases
      (Call_Orchestrate plans (CompiledPolicy_name compiled)) st) as Hs.
    pose proof (call_triple Capability_OrchestratePhases (Call_Orchestrate plans (CompiledPolicy_name compiled)) st) as Hw.
    destruct (call_exclusive _ _ _ st) as [r st']. cbn in *. intros Hn. apply Hw, Hst. congruence.
Qed.

(** *** The dry run *)

(** A program that changes no file and not the backup manager. *)
Definition silent {A} (m : Proc S A) : Prop :=
  ∀ st, quiet (pi_world st) (pi_world (m st).2) ∧ pi_log st `prefix_of` pi_log (m st).2.

Lemma silent_good {A} X `{!Stable X} (m : Proc S A) :
  silent m → triple (good X) m (λ _, good X).
Proof.
  intros Hm st Hst. destruct (Hm st) as [Hq Hp]. destruct (m st) as [a st']. cbn in *.
  destruct Hst as [Ht|HX]; [left; by eapply trouble_prefix|right; by eapply stable].
Qed.

Lemma silent_bind {A B} (m : Proc S A) (f : A → Proc S B) :
  silent m → (∀ a, silent (f a)) → silent (mbind f m).
Proof.
  intros Hm Hf st. unfold mbind, proc_mbind. destruct (Hm st) as [Hq Hp]. destruct (m st) as [a st1].
  destruct (Hf a st1). split; by etrans.
Qed.

Lemma silent_ret {A} (a : A) : silent (mret a).
Proof. by intros st. Qed.

Lemma silent_count f : silent (count f).
Proof. by intros st. Qed.

Lemma silent_world {A} (f : World S → A * World S) : (∀ w, quiet w (f w).2) → silent (on_world f).
Proof. intros Hf st. unfold on_world. specialize (Hf (pi_world st)). by destruct (f (pi_world st)). Qed.

Lemma silent_notice e :
  notice e → Backup_handles (Event_event_type e) = false → silent (dispatch_and_log ctx e).
Proof.
  intros He Hb st. unfold dispatch_and_log. destruct (dispatch _ e _ _) as [[rs w] log] eqn:Hd.
  by apply dispatch_quiet in Hd.
Qed.

Lemma silent_call k call : silent (call_exclusive ctx k call).
Proof.
  intros st. unfold call_exclusive, dispatch_to_capability, resolve_capability.
  destruct (List.find _ _) as [s0|] eqn:Hfind; [|done].
  apply find_Some_elem_of in Hfind as [Hs _]. apply in_team in Hs.
  match goal with |- context [Plugin_on_call ?p ?call ?w] =>
    assert (Hq : quiet w (Plugin_on_call p call w).2); [|destruct (Plugin_on_call p call w) as [r w']] end.
  { destruct Hs as [->|Hs]; [by rewrite (team_backup _ _ _ _ Hteam)|by eapply coop_call]. }
  cbn in *. split; [done|]. by eexists.
Qed.

Ltac silent_step :=
  first [ apply silent_bind; [|intros ?] | apply silent_ret | apply silent_count | apply silent_call
        | apply silent_world; intros ?; first [apply available_quiet|apply estimate_quiet|apply introspect_reads]
        | by apply silent_notice | case_match ].

Context `{PlanJson} `{StoredFiles S} `{!StoredReads S}.

Lemma silent_annotate available check_path file plans :
  silent (annotate_plans available check_path file plans).
Proof.
  induction plans as [|plan plans IH]; [apply silent_ret|]. cbn [annotate_plans]. unfold annotate_plan.
  repeat first [apply IH|silent_step].
Qed.

Lemma silent_dry_run file compiled : silent (process_single_file_dry_run ctx file compiled).
Proof.
  unfold process_single_file_dry_run, orchestrate_plans, kernel_evaluate, kernel_orchestrate,
    annotate_disk_space_violations, collect_safeguard_violations.
  repeat first [apply silent_annotate|silent_step|cbv zeta].
Qed.

Lemma silent_introspect payload : silent (introspect_or_reuse ctx payload).
Proof.
  unfold introspect_or_reuse, load_stored_file, introspect_file, introspection_failed.
  apply silent_bind.
  - apply silent_bind; [|intros ?; apply silent_ret]. apply silent_world. intros w.
    pose proof (stored_reads (DiscoveredFilePayload_path payload) (w_store w)) as Hr.
    unfold quiet, plugin_state. destruct (stored_file _ (w_store w)) as [r s']. by cbn in *.
  - intros stored. cbv zeta. repeat silent_step.
Qed.

(** A dry run is silent, whatever the job. *)
Lemma silent_job job : ctx_dry_run ctx = true → silent (process_single_file to_str cancelled ctx job).
Proof.
  intros Hdry. unfold process_single_file. rewrite Hdry.
  destruct (parse_job_payload job) as [payload|e]; [|apply silent_ret].
  apply silent_bind; [apply silent_introspect|]. intros [file|e]; [|apply silent_ret]. cbv zeta.
  destruct (PolicyResolver_resolve _ _) as [[[compiled name|]|e]|]; try apply silent_ret.
  apply silent_bind; [apply silent_dry_run|]. intros ?. apply silent_ret.
Qed.

(** *** A whole job *)
Lemma apply_detected_path file : MediaFile_path (apply_detected_languages file) = MediaFile_path file.
Proof.
  unfold apply_detected_languages. destruct (_ ≫= _) as [l|]; [|done].
  generalize (omap AudioLanguageDetection_from_value l). clear l. intros l. revert file.
  induction l as [|[i lang] l IH]; intros file; [done|]. cbn [foldl]. rewrite IH. unfold apply_detection.
  by case_match.
Qed.

Lemma introspected_path payload st file st' :
  introspect_or_reuse ctx payload st = (Ok file, st') →
  MediaFile_path file = DiscoveredFilePayload_path payload.
Proof.
  unfold introspect_or_reuse, load_stored_file, introspect_file, introspection_failed, on_store, on_world,
    mbind, proc_mbind, mret, proc_mret. cbn.
  destruct (stored_file _ _) as [r s'] eqn:Hs. cbn.
  assert (Hfresh : ∀ w f w', introspect (DiscoveredFilePayload_path payload) (DiscoveredFilePayload_size payload)
    (DiscoveredFilePayload_content_hash payload) w = (Ok f, w') → MediaFile_path f = DiscoveredFilePayload_path payload)
    by (intros w f w'; apply introspect_path).
  set (stored := match r with Ok f => f | Err _ => None end).
  destruct (_ && _ && _) eqn:Hc.
  - destruct stored as [f|] eqn:Hst; [|by rewrite andb_false_r in Hc]. intros [= <- <-].
    destruct r as [[g|]|]; cbn in *; [|done|done]. subst stored. injection Hst as ->. by eapply stored_path.
  - destruct (introspect _ _ _ _) as [[f|e] w'] eqn:Hi; cbn; destruct (dispatch_and_log _ _ _) as [rs st1];
      intros [= <- <-]; cbn. by eapply Hfresh.
Qed.

Lemma steady_introspect payload : steady (introspect_or_reuse ctx payload).
Proof.
  unfold introspect_or_reuse, load_stored_file, introspect_file, introspection_failed.
  by repeat first [steady_step|cbv zeta].
Qed.

Lemma process_job_triple job payload n :
  parse_job_payload job = Ok payload → DiscoveredFilePayload_path payload = path →
  triple (λ st, modified st = n ∧ good is_ready st) (process_single_file to_str cancelled ctx job)
    (λ _ st, modified st = n → good is_ready st).
Proof.
  intros Hpay Hpath. destruct (ctx_dry_run ctx) eqn:Hdry.
  { intros st [_ Hst]. pose proof (silent_good is_ready _ (silent_job job Hdry) st Hst) as Hg.
    by destruct (process_single_file _ _ _ _ st). }
  unfold process_single_file. rewrite Hpay, Hdry. intros st [Hn Hst]. unfold mbind at 1, proc_mbind.
  pose proof (introspected_path payload st) as Hp. pose proof (steady_introspect payload st) as Hs.
  pose proof (silent_good is_ready _ (silent_introspect payload) st Hst) as Hg.
  destruct (introspect_or_reuse ctx payload st) as [[file|e] st1]; cbn in Hs; [|by intros ?].
  specialize (Hp file st1 eq_refl). cbv zeta.
  destruct (PolicyResolver_resolve _ _) as [[[compiled name|]|e]|]; try by intros ?.
  assert (Hrun : triple (λ st, modified st = n ∧ good is_ready st)
    (r ← process_single_file_execute to_str cancelled ctx (apply_detected_languages file) compiled; mret (Some r))
    (λ _ st, modified st = n → good is_ready st)).
  { apply (triple_map _ _ Some). apply (process_file_triple compiled _ n). by rewrite apply_detected_path, Hp. }
  apply Hrun. split; [congruence|exact Hg].
Qed.
End pipeline.
