(* ===== verification/Recovery.v ===== *)
(** * Crash recovery

    [crates/voom-cli/src/recovery.rs]: backups that a crashed run has left behind are
    found on disk, matched with the pending operations of the store, and put
    back or discarded. Of [plugins/discovery/src/scanner.rs] the two functions that
    it calls, [normalize_path] and [hash_file].

    Directories are those that the paths of files pass through; what [read_dir]
    lists, and in which order, is the interface [ReadDir]. The theorems about
    recovery are in [BackupTheorems]. *)
From S2P Require Import Prelude Media Plan Jobs Events Kernel Process Transitions FfmpegCommand.
From S2P Require Import FfmpegExecutor BackupManager ProcessFile.

(** ** Names *)

(** Resolution of links by the system, and Unicode NFC *)
Class Canonical := {
  canonicalize : Files → PathBuf → result string PathBuf;
  nfc : string → string;
}.

Definition normalize_path {S} `{Unicode} `{Canonical} (path : PathBuf) (w : World S) : PathBuf :=
  let canonical := match canonicalize (w_files w) path with Ok p => p | Err _ => path end in
  nfc (to_string_lossy canonical).

(** [str::strip_suffix] *)
Fixpoint strip_suffix (suffix s : string) : option string :=
  if bool_decide (s = suffix) then Some ""
  else match s with
       | EmptyString => None
       | String c s => String c <$> strip_suffix suffix s
       end.

Definition strip_timestamp_suffix (name : string) : option string :=
  '(stem, suffix) ← split_last_dot name;
  if bool_decide (String.length suffix = 14)
     && forallb is_ascii_digit (String.list_ascii_of_string suffix)
  then Some stem else None.

Definition infer_original_path {S} `{Unicode} `{Canonical} (backup_path : PathBuf) (w : World S)
    : option PathBuf :=
  backup_dir ← path_parent backup_path;
  original_dir ← path_parent backup_dir;
  backup_filename ← to_string_lossy <$> path_file_name backup_path;
  without_ext ← strip_suffix ".vbak" backup_filename;
  original_filename ← strip_timestamp_suffix without_ext;
  Some (path_join (normalize_path original_dir w) original_filename).

(** ** Hashes of files: [hash_file] *)

(** The 64-bit XXH3 of the crate [xxhash-rust]; updates append. *)
Class Xxh3 := xxh3_64 : string → u64.

Definition PARTIAL_HASH_THRESHOLD : u64 := 2 * 1024 * 1024.
Definition HASH_CHUNK_SIZE : N := 1024 * 1024.
Definition HASH_BUFFER_SIZE : N := 256 * 1024.

(** [{:016x}] *)
Definition fmt_hex_16 (n : u64) : string :=
  foldr (λ i s, hex_digit (N.to_nat (N.land (N.shiftr n (4 * i)) 15)) +:+ s) ""
    [15; 14; 13; 12; 11; 10; 9; 8; 7; 6; 5; 4; 3; 2; 1; 0]%N.

Definition to_le_bytes (n : u64) : string :=
  String.string_of_list_ascii
    ((λ i, ascii_of_N (N.land (N.shiftr n (8 * i)) 255)) <$> [0; 1; 2; 3; 4; 5; 6; 7]%N).

(** What [read] puts into a buffer of the given size, from a position on. *)
Definition read_at (pos size : N) (content : string) : string :=
  String.substring (N.to_nat pos) (N.to_nat size) content.

Section hash.
Context {S : Type} `{Unicode} `{Xxh3}.
Implicit Types w : World S.

(** Reads until nothing comes; [fuel] bounds their number. *)
Fixpoint read_to_end (fuel : nat) (content : string) (pos : N) (acc : string) w
    : result string string * World S :=
  match fuel with
  | O => (Ok acc, w)
  | Datatypes.S fuel =>
      match fs_query (λ _, Ok (read_at pos HASH_BUFFER_SIZE content)) w with
      | (Err e, w) => (Err e, w)
      | (Ok chunk, w) =>
          if bool_decide (chunk = "") then (Ok acc, w)
          else read_to_end fuel content (pos + str_len chunk)%N (acc +:+ chunk) w
      end
  end.

Definition hash_file_full (content : string) w : result VoomError string * World S :=
  match read_to_end (N.to_nat (str_len content / HASH_BUFFER_SIZE + 2)) content 0 "" w with
  | (Ok data, w) => (Ok (fmt_hex_16 (xxh3_64 data)), w)
  | (Err e, w) => (Err (VoomError_Io e), w)
  end.

(** The reads at the given positions; before each but the first there is a seek. *)
Fixpoint read_chunks (content : string) (acc : string) (positions : list N) w
    : result string string * World S :=
  match positions with
  | [] => (Ok acc, w)
  | pos :: positions =>
      match fs_query (λ _, Ok (read_at pos HASH_CHUNK_SIZE content)) w with
      | (Err e, w) => (Err e, w)
      | (Ok chunk, w) => read_chunks content (acc +:+ chunk) positions w
      end
  end.

Definition discovery_hash_file (path : PathBuf) w : result VoomError string * World S :=
  let io_err e := VoomError_Io (to_string_lossy path +:+ ": " +:+ e) in
  match fs_query (λ files, match files !! path_key path with
                           | Some c => Ok c
                           | None => Err no_such_file
                           end) w with
  | (Err e, w) => (Err (io_err e), w)
  | (Ok content, w) =>
      match fs_len path w with
      | (Err e, w) => (Err (io_err e), w)
      | (Ok file_size, w) =>
          if (file_size <=? PARTIAL_HASH_THRESHOLD)%N then hash_file_full content w
          else
            match read_chunks content (to_le_bytes file_size)
                    [0; file_size / 2; file_size - HASH_CHUNK_SIZE]%N w with
            | (Err e, w) => (Err (io_err e), w)
            | (Ok data, w) => (Ok (fmt_hex_16 (xxh3_64 data)), w)
            end
      end
  end.

(** The phase loop calls the same function. *)
#[export] Instance discovery_hash : FileHash S := discovery_hash_file.
End hash.

(** ** [recovery.rs] *)
Record PendingOperation : Type := {
  PendingOperation_id : Uuid;
  PendingOperation_file_path : PathBuf;
  PendingOperation_phase_name : string;
  PendingOperation_started_at : DateTime;
}.

Inductive RecoveryMode : Type :=
| RecoveryMode_AlwaysRecover
| RecoveryMode_AlwaysDiscard.

Record RecoveryConfig : Type := { RecoveryConfig_mode : RecoveryMode }.

Record OrphanedBackup : Type := {
  Orphan_backup_path : PathBuf;
  Orphan_original_path : PathBuf;
  Orphan_size : u64;
}.

(** The methods of the store that recovery calls. *)
Class RecoveryStorage (S : Type) := {
  list_pending_ops : S → result VoomError (list PendingOperation);
  delete_pending_op : Uuid → S → result VoomError unit * S;
  file_by_path : PathBuf → S → result VoomError (option MediaFile);
}.

(** The names of the entries of a directory that can be read *)
Class ReadDir := read_dir : Files → PathBuf → result string (list string).

(** [with_detail] *)
Definition FileTransition_with_detail (t : FileTransition) (detail : string) : FileTransition := {|
  FileTransition_id := FileTransition_id t;
  FileTransition_file_id := FileTransition_file_id t;
  FileTransition_path := FileTransition_path t;
  FileTransition_from_path := FileTransition_from_path t;
  FileTransition_from_hash := FileTransition_from_hash t;
  FileTransition_to_hash := FileTransition_to_hash t;
  FileTransition_from_size := FileTransition_from_size t;
  FileTransition_to_size := FileTransition_to_size t;
  FileTransition_source := FileTransition_source t;
  FileTransition_source_detail := Some detail;
  FileTransition_plan_id := FileTransition_plan_id t;
  FileTransition_created_at := FileTransition_created_at t;
  FileTransition_duration_ms := FileTransition_duration_ms t;
  FileTransition_actions_taken := FileTransition_actions_taken t;
  FileTransition_tracks_modified := FileTransition_tracks_modified t;
  FileTransition_outcome := FileTransition_outcome t;
  FileTransition_policy_name := FileTransition_policy_name t;
  FileTransition_phase_name := FileTransition_phase_name t;
  FileTransition_metadata_snapshot := FileTransition_metadata_snapshot t;
  FileTransition_error_message := FileTransition_error_message t;
  FileTransition_session_id := FileTransition_session_id t;
|}.

(** Whether a file lies somewhere under [dir]. *)
Definition is_dir (files : Files) (dir : PathBuf) : bool :=
  existsb (λ k, bool_decide (fst k = path_is_absolute dir) &&
                bool_decide (path_components dir `prefix_of` snd k) &&
                negb (bool_decide (snd k = path_components dir))) (map_to_list files).*1.

(** No path is longer than this. *)
Definition tree_depth (files : Files) : nat := max_list (length ∘ snd <$> (map_to_list files).*1).

Section recovery.
Context {S : Type} `{Unicode} `{UuidText} `{TornWrite} `{Volume} `{Ambient S} `{Canonical} `{Xxh3}.
Context `{ProcessStorage S} `{RecoveryStorage S} `{ReadDir}.
Implicit Types (w : World S) (orphan : OrphanedBackup) (pending : list PendingOperation).

Definition path_is_under_any (path : PathBuf) (dirs : list PathBuf) : bool :=
  existsb (path_starts_with path) dirs.

Fixpoint vbak_entries (dir : PathBuf) (names : list string) w : list OrphanedBackup * World S :=
  match names with
  | [] => ([], w)
  | name :: names =>
      let path := path_join dir name in
      if bool_decide (path_extension path = Some "vbak") then
        let '(size, w) := fs_len path w in
        let '(rest, w') := vbak_entries dir names w in
        (match infer_original_path path w with
         | Some original =>
             {| Orphan_backup_path := path; Orphan_original_path := original;
                Orphan_size := match size with Ok n => n | Err _ => 0%N end |} :: rest
         | None => rest
         end, w')
      else vbak_entries dir names w
  end.

Definition collect_vbak_files (backup_dir : PathBuf) w : list OrphanedBackup * World S :=
  match fs_query (λ files, read_dir files backup_dir) w with
  | (Err _, w) => ([], w)
  | (Ok names, w) => vbak_entries backup_dir names w
  end.

(** The entries of a directory, [collect] being the call for a subdirectory. *)
Fixpoint dir_entries (collect : PathBuf → World S → list OrphanedBackup * World S)
    (dir : PathBuf) (names : list string) w : list OrphanedBackup * World S :=
  match names with
  | [] => ([], w)
  | name :: names =>
      let path := path_join dir name in
      match fs_query (λ files, Ok (is_dir files path)) w with
      | (Ok true, w) =>
          let '(found, w) :=
            if bool_decide (name = ".voom-backup") then collect_vbak_files path w
            else collect path w in
          let '(rest, w) := dir_entries collect dir names w in
          (found ++ rest, w)
      | (_, w) => dir_entries collect dir names w
      end
  end.

Fixpoint collect_orphans_in (fuel : nat) (dir : PathBuf) w : list OrphanedBackup * World S :=
  match fs_query (λ files, read_dir files dir) w with
  | (Err _, w) => ([], w)
  | (Ok names, w) =>
      match fuel with
      | O => ([], w)
      | Datatypes.S fuel => dir_entries (collect_orphans_in fuel) dir names w
      end
  end.

Fixpoint find_orphans_under (dirs : list PathBuf) w : list OrphanedBackup * World S :=
  match dirs with
  | [] => ([], w)
  | dir :: dirs =>
      let '(found, w) := collect_orphans_in (Datatypes.S (tree_depth (w_files w))) dir w in
      let '(rest, w) := find_orphans_under dirs w in
      (found ++ rest, w)
  end.

(** The paths of the pending operations on files with the given name. *)
Definition pending_named pending (filename : string) : list PathBuf :=
  omap (λ op, name ← path_file_name (PendingOperation_file_path op);
              if bool_decide (to_string_lossy name = filename)
              then Some (PendingOperation_file_path op) else None) pending.

Definition UUID_LEN : nat := 36.

(** The name of the file that a backup in the global directory is of. *)
Definition global_original (backup_filename : string) : option string :=
  if (String.length backup_filename <=? UUID_LEN + 1)%nat then None
  else if negb (bool_decide (String.get UUID_LEN backup_filename = Some (ascii_of_nat 95))) then None
  else match Uuid_parse_str (String.substring 0 UUID_LEN backup_filename) with
       | Err _ => None
       | Ok _ => Some (String.substring (UUID_LEN + 1) (String.length backup_filename) backup_filename)
       end.

Fixpoint global_entries (dir : PathBuf) pending (names : list string) w
    : list OrphanedBackup * list PathBuf * World S :=
  match names with
  | [] => ([], [], w)
  | name :: names =>
      let path := path_join dir name in
      match fs_len path w with
      | (Err _, w) => global_entries dir pending names w
      | (Ok size, w) =>
          let '(backups, ambiguous, w) := global_entries dir pending names w in
          match filename ← to_string_lossy <$> path_file_name path;
                original ← global_original filename;
                Some (pending_named pending original) with
          | Some [matched] =>
              ({| Orphan_backup_path := path; Orphan_original_path := matched;
                  Orphan_size := size |} :: backups, ambiguous, w)
          | Some ((_ :: _ :: _) as matched_paths) => (backups, matched_paths ++ ambiguous, w)
          | _ => (backups, ambiguous, w)
          end
      end
  end.

Definition collect_global_backups (global_dir : PathBuf) pending w
    : list OrphanedBackup * list PathBuf * World S :=
  match fs_query (λ files, read_dir files global_dir) w with
  | (Err _, w) => ([], [], w)
  | (Ok names, w) => global_entries global_dir pending names w
  end.

Definition record_recovery_transition (original_path : PathBuf) (to_hash : string) (to_size : u64)
    (detail : string) w : World S :=
  match file_by_path original_path (w_store w) with
  | Ok (Some file) =>
      let transition :=
        FileTransition_with_detail
          (FileTransition_new (new_v4 w) (utc_now w) (MediaFile_id file) original_path to_hash to_size
             TransitionSource_Unknown) detail in
      Build_World (w_files w) (record_transition transition (w_store w)).2 (w_faults w)
  | _ => w
  end.

Open Scope run_scope.

Definition recover orphan : Run S unit :=
  restore_from_paths (Orphan_backup_path orphan) (Orphan_original_path orphan) ⨟
  (λ w,
   let '(hash, w) := discovery_hash_file (Orphan_original_path orphan) w in
   let '(size, w) := fs_len (Orphan_original_path orphan) w in
   let w := record_recovery_transition (Orphan_original_path orphan)
              (match hash with Ok h => h | Err _ => "" end)
              (match size with Ok n => n | Err _ => Orphan_size orphan end)
              "crash_recovery:restored" w in
   remove_vbak_file (Orphan_backup_path orphan) w).

Definition discard orphan : Run S unit :=
  remove_vbak_file (Orphan_backup_path orphan) ⨟
  (λ w,
   let original_path := Orphan_original_path orphan in
   let '(to_hash, to_size, w) :=
     if path_exists original_path w then
       let '(hash, w) := discovery_hash_file original_path w in
       let '(size, w) := fs_len original_path w in
       (match hash with Ok h => h | Err _ => "" end, match size with Ok n => n | Err _ => 0%N end, w)
     else ("", 0%N, w) in
   (Returned (Ok tt),
    record_recovery_transition original_path to_hash to_size "crash_recovery:discarded" w)).

(** Errors are only logged. Neither function panics. *)
Definition delete_pending (id : Uuid) w : World S :=
  Build_World (w_files w) (delete_pending_op id (w_store w)).2 (w_faults w).

Definition resolve_single_orphan orphan (config : RecoveryConfig) pending
    : World S → result string bool * World S := λ w,
  let r := match RecoveryConfig_mode config with
           | RecoveryMode_AlwaysRecover => recover orphan w
           | RecoveryMode_AlwaysDiscard => discard orphan w
           end in
  match r with
  | (Returned (Ok _), w) =>
      let path_str := to_string_lossy (Orphan_original_path orphan) in
      let ops := List.filter (λ op, bool_decide
                   (to_string_lossy (PendingOperation_file_path op) = path_str)) pending in
      (Ok true, foldl (λ w op, delete_pending (PendingOperation_id op) w) w ops)
  | (_, w) => (Ok false, w)
  end.

Definition clean_stale_pending_ops pending (scan_dirs ambiguous_paths : list PathBuf) w : World S :=
  let canonical_dirs :=
    omap (λ d, match canonicalize (w_files w) d with Ok p => Some p | Err _ => None end) scan_dirs in
  foldl (λ w op,
    let path := PendingOperation_file_path op in
    if existsb (path_eqb path) ambiguous_paths || negb (path_is_under_any path canonical_dirs)
    then w else delete_pending (PendingOperation_id op) w) w pending.

Fixpoint resolve_orphans (config : RecoveryConfig) pending (resolved : u64)
    (orphans : list OrphanedBackup) w : result string u64 * World S :=
  match orphans with
  | [] => (Ok resolved, w)
  | orphan :: orphans =>
      match resolve_single_orphan orphan config pending w with
      | (Ok true, w) => resolve_orphans config pending (resolved + 1)%N orphans w
      | (Ok false, w) => resolve_orphans config pending resolved orphans w
      | (Err e, w) => (Err e, w)
      end
  end.

Definition check_and_recover_under (config : RecoveryConfig) (scan_dirs : list PathBuf)
    (global_backup_dir : option PathBuf) w : result string u64 * World S :=
  let pending := match list_pending_ops (w_store w) with Ok ops => ops | Err _ => [] end in
  let '(all_backups, w) := find_orphans_under scan_dirs w in
  let '(global_backups, ambiguous_paths, w) :=
    match global_backup_dir with
    | Some global_dir => collect_global_backups global_dir pending w
    | None => ([], [], w)
    end in
  let all_backups := all_backups ++ global_backups in
  let pending_paths := (λ op, to_string_lossy (PendingOperation_file_path op)) <$> pending in
  let orphans :=
    List.filter (λ b, bool_decide (to_string_lossy (Orphan_original_path b) ∈ pending_paths))
      all_backups in
  match orphans with
  | [] => (Ok 0%N, clean_stale_pending_ops pending scan_dirs ambiguous_paths w)
  | _ => resolve_orphans config pending 0 orphans w
  end.
End recovery.
