(* ===== verification/RecoveryFacts.v ===== *)
(** * Facts about the names of backups and about recovery

    What the path functions do on the path of an entry of a directory; the names of
    backups beside a file; what the scan for backups finds, and what recovery then
    does to the files. *)
From S2P Require Import Prelude Json Media Plan Compiled CapabilityMap Jobs Events Kernel.
From S2P Require Import CallPlugins Process Transitions MkvFacts CropDetect FfmpegCommand.
From S2P Require Import VmafSearch FfmpegExecutor FfmpegFacts BackupManager ProcessFile.
From S2P Require Import BackupFacts Recovery.

(** ** Names of files in directories *)

(** A directory as [Path::parent] gives it *)
Definition trimmed (dir : PathBuf) : Prop :=
  dir = "/" ∨ trim_path_rev (bytes_rev dir) = bytes_rev dir.

Lemma trim_trim l : trim_path_rev (trim_path_rev l) = trim_path_rev l.
Proof.
  induction l as [|c l IH]; [done|]. cbn [trim_path_rev]. case_bool_decide as Hc; [done|].
  destruct l as [|d l]; [cbn; by rewrite bool_decide_false|]. case_bool_decide as Hd; [done|].
  cbn [trim_path_rev]. by rewrite !bool_decide_false by done.
Qed.

Lemma bytes_rev_of_bytes_rev l : bytes_rev (of_bytes_rev l) = l.
Proof.
  unfold bytes_rev, of_bytes_rev. by rewrite String.list_ascii_of_string_of_list_ascii, reverse_involutive.
Qed.

Lemma parent_trimmed p dir : path_parent p = Some dir → trimmed dir.
Proof.
  unfold path_parent. destruct (split_last_rev _ _) as [[|c name] rest]; [done|]. intros [= <-].
  case_match; [by left|right]. by rewrite bytes_rev_of_bytes_rev, trim_trim.
Qed.

(** The name of an entry of a directory *)
Record plain (name : string) : Prop := {
  plain_bytes : no_byte slash name;
  plain_kept : kept name = true;
  plain_up : name ≠ "..";
}.

Lemma bytes_rev_app a b : bytes_rev (a +:+ b) = bytes_rev b ++ bytes_rev a.
Proof. unfold bytes_rev. by rewrite list_ascii_app, reverse_app. Qed.

Lemma bytes_rev_inj a b : bytes_rev a = bytes_rev b → a = b.
Proof. intros Hab. by rewrite <-(of_bytes_rev_reverse a), <-(of_bytes_rev_reverse b); f_equal. Qed.

Lemma no_byte_elem c s : no_byte c s → c ∉ bytes_rev s.
Proof.
  unfold bytes_rev. rewrite elem_of_reverse. induction s as [|d s IH]; cbn; [set_solver|].
  intros [Hd Hs]. rewrite elem_of_cons. intros [->|?]; [done|]. by apply IH.
Qed.

Lemma split_last_rev_app acc name rest :
  slash ∉ name → split_last_rev acc (name ++ slash :: rest) = (reverse name ++ acc, slash :: rest).
Proof.
  revert acc. induction name as [|c name IH]; intros acc Hn; cbn [app split_last_rev].
  { by rewrite bool_decide_true. }
  rewrite bool_decide_false by set_solver. rewrite IH by set_solver. by rewrite reverse_cons, <-(assoc_L (++)).
Qed.

Lemma split_last_rev_all acc name : slash ∉ name → split_last_rev acc name = (reverse name ++ acc, []).
Proof.
  revert acc. induction name as [|c name IH]; intros acc Hn; cbn [split_last_rev]; [done|].
  rewrite bool_decide_false by set_solver. rewrite IH by set_solver. by rewrite reverse_cons, <-(assoc_L (++)).
Qed.

Lemma kept_nonempty name : kept name = true → bytes_rev name ≠ [].
Proof. intros Hk Hb. apply (bytes_rev_inj name "") in Hb as ->. by vm_compute in Hk. Qed.

Lemma trim_plain name rest :
  plain name → trim_path_rev (bytes_rev name ++ slash :: rest) = bytes_rev name ++ slash :: rest.
Proof.
  intros [Hb Hk _]. apply no_byte_elem in Hb. pose proof (kept_nonempty _ Hk) as Hne.
  destruct (bytes_rev name) as [|c l] eqn:Hn; [done|]. cbn [app trim_path_rev].
  rewrite bool_decide_false by set_solver. destruct l as [|d l]; cbn [app].
  - rewrite bool_decide_false; [done|]. intros [-> _]. apply (bytes_rev_inj name ".") in Hn as ->.
    by vm_compute in Hk.
  - rewrite bool_decide_false; [done|]. intros [_ ->]. set_solver.
Qed.

Lemma trim_plain_all name : plain name → trim_path_rev (bytes_rev name) = bytes_rev name.
Proof.
  intros [Hb Hk _]. apply no_byte_elem in Hb. destruct (bytes_rev name) as [|c l]; [done|]. cbn.
  rewrite bool_decide_false by set_solver. destruct l as [|d l]; [done|].
  rewrite bool_decide_false; [done|]. intros [_ ->]. set_solver.
Qed.

Lemma plain_relative name : plain name → path_is_absolute name = false.
Proof.
  intros [Hb _ _]. destruct name as [|c name]; [done|]. cbn in *. by rewrite bool_decide_false by tauto.
Qed.

(** The three forms of a joined path *)
Lemma join_cases dir name :
  trimmed dir →
  (dir = "" ∧ path_join dir name = name) ∨ (dir = "/" ∧ path_join dir name = String slash name) ∨
  (dir ≠ "" ∧ trim_path_rev (bytes_rev dir) = bytes_rev dir ∧ path_join dir name = dir +:+ String slash name).
Proof.
  intros [->|Ht]; [right; by left|]. unfold path_join. destruct (bytes_rev dir) as [|c l] eqn:Hd.
  { left. split; [|done]. by apply (bytes_rev_inj dir ""). }
  right. right. split; [by intros ->|]. split; [done|]. case_bool_decide as Hc; [|done]. subst c.
  exfalso. cbn [trim_path_rev] in Ht. rewrite bool_decide_true in Ht by done. assert (Hlen : ∀ l, length (trim_path_rev l) ≤ length l).
  { clear. induction l as [|c l IH]; [done|]. cbn [trim_path_rev]. repeat case_match; cbn in *; lia. }
  pose proof (Hlen l) as Hl. rewrite Ht in Hl. cbn in Hl. lia.
Qed.

Lemma join_parent dir name : trimmed dir → plain name → path_parent (path_join dir name) = Some dir.
Proof.
  intros Hd Hn. pose proof (no_byte_elem _ _ (plain_bytes _ Hn)) as Hs.
  pose proof (kept_nonempty _ (plain_kept _ Hn)) as Hne.
  assert (Hr : reverse (bytes_rev name) ≠ []) by (intros Hr; by apply Hne, (inj reverse)).
  unfold path_parent. destruct (join_cases dir name Hd) as [[-> ->]|[[-> ->]|(Hdn & Ht & ->)]].
  - rewrite trim_plain_all, split_last_rev_all by done. rewrite app_nil_r.
    destruct (reverse (bytes_rev name)) as [|c l]; [done|]. cbn. by rewrite plain_relative.
  - change (String slash name) with ("/" +:+ name). rewrite bytes_rev_app.
    change (bytes_rev "/") with [slash]. rewrite trim_plain, split_last_rev_app by done. rewrite app_nil_r.
    by destruct (reverse (bytes_rev name)) as [|c l].
  - change (dir +:+ String slash name) with (dir +:+ ("/" +:+ name)).
    rewrite !bytes_rev_app, <-(assoc_L (++)). change (bytes_rev "/" ++ bytes_rev dir) with (slash :: bytes_rev dir).
    rewrite trim_plain, split_last_rev_app by done. rewrite app_nil_r.
    destruct (reverse (bytes_rev name)) as [|c l]; [done|]. cbn [trim_path_rev].
    rewrite (bool_decide_true (slash = slash)), Ht by done. unfold bytes_rev. rewrite of_bytes_rev_reverse.
    rewrite (bool_decide_false (dir = "")) by done. done.
Qed.

Lemma str_rev_app_list cur : String.list_ascii_of_string (str_rev cur) = reverse (String.list_ascii_of_string cur).
Proof. unfold str_rev. by rewrite String.list_ascii_of_string_of_list_ascii. Qed.

Lemma split_slash_plain cur name :
  no_byte slash name → split_slash cur name = [str_rev cur +:+ name].
Proof.
  revert cur. induction name as [|c name IH]; intros cur Hn; cbn [split_slash].
  { by rewrite string_app_nil. }
  destruct Hn as [Hc Hn]. rewrite bool_decide_false by done. rewrite IH by done. f_equal.
  apply bytes_rev_inj. unfold bytes_rev. f_equal. rewrite !list_ascii_app, !str_rev_app_list.
  cbn [String.list_ascii_of_string].
  by rewrite reverse_cons, <-(assoc_L (++)).
Qed.

Lemma plain_components name : plain name → List.filter kept (split_slash "" name) = [name].
Proof.
  intros [Hb Hk _]. rewrite split_slash_plain by done. change (str_rev "" +:+ name) with name.
  cbn [List.filter]. by rewrite Hk.
Qed.

Lemma join_key dir name :
  trimmed dir → plain name →
  path_key (path_join dir name) = (path_is_absolute dir, path_components dir ++ [name]).
Proof.
  intros Hd Hn. unfold path_key. destruct (join_cases dir name Hd) as [[-> ->]|[[-> ->]|(Hdn & _ & ->)]].
  - rewrite plain_relative by done. f_equal. unfold path_components. fold kept.
    rewrite plain_components by done. rewrite split_slash_plain by apply Hn.
    change (str_rev "" +:+ name) with name. rewrite bool_decide_false; [done|].
    intros ->. by destruct Hn as [_ Hk _]; vm_compute in Hk.
  - change (String slash name) with ("" +:+ String slash name).
    rewrite path_components_app, plain_components by done. done.
  - rewrite path_is_absolute_app, path_components_app, plain_components by done. done.
Qed.

Lemma join_file_name dir name : trimmed dir → plain name → path_file_name (path_join dir name) = Some name.
Proof.
  intros Hd Hn. unfold path_file_name. fold kept.
  assert (Hl : last (List.filter kept (split_slash "" (path_join dir name))) = Some name).
  { destruct (join_cases dir name Hd) as [[-> ->]|[[-> ->]|(Hdn & _ & ->)]].
    - by rewrite plain_components.
    - change (String slash name) with ("" +:+ String slash name).
      rewrite split_slash_app, List.filter_app, (plain_components name) by done. by rewrite last_snoc.
    - rewrite split_slash_app, List.filter_app, (plain_components name) by done. by rewrite last_snoc. }
  rewrite Hl. by rewrite bool_decide_false by apply Hn.
Qed.

Lemma join_trimmed dir name : trimmed dir → plain name → trimmed (path_join dir name).
Proof.
  intros Hd Hn. right. destruct (join_cases dir name Hd) as [[-> ->]|[[-> ->]|(Hdn & _ & ->)]].
  - by apply trim_plain_all.
  - change (String slash name) with ("/" +:+ name). rewrite bytes_rev_app. by apply trim_plain.
  - change (dir +:+ String slash name) with (dir +:+ ("/" +:+ name)).
    rewrite !bytes_rev_app, <-(assoc_L (++)). by apply trim_plain.
Qed.

(** ** Backups beside the file *)
Lemma no_byte_app c a b : no_byte c a → no_byte c b → no_byte c (a +:+ b).
Proof.
  intros Ha Hb. induction a as [|d a IH]; [done|]. change (String d a +:+ b) with (String d (a +:+ b)).
  destruct Ha as [Hd Ha]. split; [done|]. by apply IH.
Qed.

Lemma strip_suffix_app suffix a : strip_suffix suffix (a +:+ suffix) = Some a.
Proof.
  assert (Hlen : ∀ x y : string, String.length (x +:+ y) = String.length x + String.length y).
  { intros x y. induction x as [|d x IH]; [done|]. change (S (String.length (x +:+ y)) = S (String.length x) + String.length y).
    rewrite IH. lia. }
  induction a as [|c a IH].
  - change ("" +:+ suffix) with suffix. by destruct suffix; cbn [strip_suffix]; rewrite bool_decide_true.
  - change (String c a +:+ suffix) with (String c (a +:+ suffix)). cbn [strip_suffix].
    rewrite bool_decide_false, IH; [done|]. intros Heq. apply (f_equal String.length) in Heq. cbn in Heq.
    rewrite Hlen in Heq. lia.
Qed.

Lemma split_last_dot_none s : no_byte dot s → split_last_dot s = None.
Proof.
  induction s as [|c s IH]; [done|]. intros [Hc Hs]. cbn. rewrite IH by done. by rewrite bool_decide_false.
Qed.

Lemma split_last_dot_app a s : no_byte dot s → split_last_dot (a +:+ String dot s) = Some (a, s).
Proof.
  intros Hs. induction a as [|c a IH].
  - change ("" +:+ String dot s) with (String dot s). cbn [split_last_dot].
    by rewrite split_last_dot_none, bool_decide_true.
  - change (String c a +:+ String dot s) with (String c (a +:+ String dot s)). cbn [split_last_dot].
    by rewrite IH.
Qed.

(** Fourteen digits, as the year has four. *)
Definition stamp (s : string) : Prop :=
  String.length s = 14 ∧ forallb is_ascii_digit (String.list_ascii_of_string s) = true.

Lemma digits_no_byte c s :
  is_ascii_digit c = false → forallb is_ascii_digit (String.list_ascii_of_string s) = true → no_byte c s.
Proof.
  intros Hc. induction s as [|d s IH]; [done|]. cbn. intros [Hd Hs]%andb_true_iff.
  split; [congruence|by apply IH].
Qed.

Lemma digits_ascii s : forallb is_ascii_digit (String.list_ascii_of_string s) = true → is_ascii s = true.
Proof.
  induction s as [|d s IH]; [done|]. cbn. intros [Hd Hs]%andb_true_iff. rewrite (IH Hs), andb_true_r.
  unfold is_ascii_digit, is_ascii_byte in *. apply bool_decide_eq_true in Hd. apply bool_decide_eq_true. lia.
Qed.

(** A name that the backup keeps *)
Record safe (name : string) : Prop := {
  safe_plain : plain name;
  safe_ascii : is_ascii name = true;
  safe_bytes : replace_unsafe name = name;
}.

Lemma plain_voom_backup : plain ".voom-backup".
Proof. split; [by vm_compute|done|done]. Qed.

Lemma plain_suffixed name s : plain name → no_byte slash s → plain (name +:+ "." +:+ s).
Proof.
  intros [Hb Hk Hu] Hs. split.
  - by apply no_byte_app; [|split].
  - destruct name as [|c name]; [by vm_compute in Hk|].
    change (String c name +:+ "." +:+ s) with (String c (name +:+ String dot s)).
    unfold kept. rewrite !bool_decide_false; [done| |done]. by destruct name.
  - destruct name as [|c [|d name]]; [by vm_compute in Hk| |by destruct name].
    change (String c "" +:+ "." +:+ s) with (String c (String dot s)). intros [= -> ->]. by vm_compute in Hk.
Qed.

Section siblings.
Context {S : Type} `{Unicode} `{UuidText} `{TimestampText} `{Canonical}.
Context (config : BackupConfig) (Hsibling : BackupConfig_use_global_dir config = false).
Context (dir name : string) (Hdir : trimmed dir) (Hname : safe name).
Implicit Types (w : World S) (id : Uuid) (now : DateTime).

Definition vbak_name now : string := (name +:+ "." +:+ fmt_timestamp now) +:+ ".vbak".

Lemma stamp_flat s : stamp s → no_byte slash s.
Proof. intros [_ Hd]. by apply digits_no_byte. Qed.

Lemma vbak_plain now : no_byte slash (fmt_timestamp now) → plain (vbak_name now).
Proof.
  intros Hd. unfold vbak_name. rewrite string_app_assoc.
  apply (plain_suffixed _ (fmt_timestamp now +:+ ".vbak")); [apply Hname|].
  apply no_byte_app; [done|by vm_compute].
Qed.

Lemma sibling_path id now :
  backup_path_for config (path_join dir name) id now
  = path_join (path_join dir ".voom-backup") (vbak_name now).
Proof.
  unfold backup_path_for, safe_file_name, vbak_name. rewrite Hsibling.
  rewrite join_parent, join_file_name by (done || apply Hname). cbn [default].
  rewrite to_string_lossy_ascii, (safe_bytes _ Hname) by apply Hname.
  by rewrite string_app_assoc.
Qed.

Lemma sibling_trimmed : trimmed (path_join dir ".voom-backup").
Proof. apply join_trimmed; [done|apply plain_voom_backup]. Qed.

Lemma sibling_key id now :
  no_byte slash (fmt_timestamp now) →
  path_key (backup_path_for config (path_join dir name) id now)
  = (path_is_absolute dir, path_components dir ++ [".voom-backup"; vbak_name now]).
Proof.
  intros Hs. rewrite sibling_path, join_key by (apply sibling_trimmed || by apply vbak_plain).
  pose proof (join_key dir ".voom-backup" Hdir plain_voom_backup) as Hk.
  injection Hk as -> ->. by rewrite <-(assoc_L (++)).
Qed.

Lemma infer_sibling id now w :
  stamp (fmt_timestamp now) →
  infer_original_path (backup_path_for config (path_join dir name) id now) w
  = Some (path_join (normalize_path dir w) name).
Proof.
  intros Hs. pose proof (vbak_plain _ (stamp_flat _ Hs)) as Hp. rewrite sibling_path. unfold infer_original_path.
  rewrite join_parent, join_file_name by (apply sibling_trimmed || done). cbn [mbind option_bind].
  rewrite join_parent by (done || apply plain_voom_backup). cbn.
  destruct Hs as [Hl Hd]. rewrite to_string_lossy_ascii.
  2:{ repeat apply is_ascii_cat; try done; [apply Hname|by apply digits_ascii]. }
  unfold vbak_name. rewrite strip_suffix_app. cbn. unfold strip_timestamp_suffix.
  change (name +:+ "." +:+ fmt_timestamp now) with (name +:+ String dot (fmt_timestamp now)).
  rewrite split_last_dot_app by by apply digits_no_byte. cbn. by rewrite Hl, bool_decide_true, Hd.
Qed.

Lemma vbak_extension now :
  no_byte slash (fmt_timestamp now) →
  path_extension (path_join (path_join dir ".voom-backup") (vbak_name now)) = Some "vbak".
Proof.
  intros Hs. unfold path_extension. rewrite join_file_name by (apply sibling_trimmed || by apply vbak_plain).
  cbn [mbind option_bind]. unfold vbak_name. change ".vbak" with (String dot "vbak").
  rewrite split_last_dot_app by by vm_compute. cbn. rewrite bool_decide_false; [done|].
  destruct Hname as [[_ Hk _] _ _]. by destruct name.
Qed.

(** A converted output is beside the file. *)
Lemma prefix_cases x :
  (dir = "" ∧ path_prefix (path_join dir name) +:+ x = x) ∨
  path_prefix (path_join dir name) +:+ x = (if bool_decide (dir = "/") then "" else dir) +:+ String slash x.
Proof.
  pose proof (no_byte_elem _ _ (plain_bytes _ (safe_plain _ Hname))) as Hs. unfold path_prefix.
  destruct (join_cases dir name Hdir) as [[-> ->]|[[-> ->]|(Hdn & Ht & ->)]].
  - left. split; [done|]. by rewrite trim_plain_all, split_last_rev_all by (done || apply Hname).
  - right. change (String slash name) with ("/" +:+ name). rewrite bytes_rev_app.
    change (bytes_rev "/") with [slash]. by rewrite trim_plain, split_last_rev_app by (done || apply Hname).
  - right. assert (dir ≠ "/") by (intros ->; by vm_compute in Ht). rewrite bool_decide_false by done.
    change (dir +:+ String slash name) with (dir +:+ ("/" +:+ name)).
    rewrite !bytes_rev_app, <-(assoc_L (++)).
    change (bytes_rev "/" ++ bytes_rev dir) with (slash :: bytes_rev dir).
    rewrite trim_plain, split_last_rev_app by (done || apply Hname). cbn [snd].
    change (slash :: bytes_rev dir) with (bytes_rev "/" ++ bytes_rev dir). rewrite <-bytes_rev_app.
    unfold bytes_rev. rewrite of_bytes_rev_reverse. by rewrite string_app_assoc.
Qed.

Lemma split_last_dot_no_byte c s a b : split_last_dot s = Some (a, b) → no_byte c s → no_byte c a.
Proof.
  revert a b. induction s as [|d s IH]; intros a b; cbn; [done|].
  destruct (split_last_dot s) as [[a' b']|]; [|by case_bool_decide; intros [= <- <-]].
  intros [= <- <-] [Hd Hs]. split; [done|]. by eapply IH.
Qed.

Lemma converted_length ext :
  no_byte slash ext →
  length (path_components (path_set_extension (path_join dir name) ext)) ≤ length (path_components dir) + 1.
Proof.
  intros Hext. unfold path_set_extension, path_file_stem.
  rewrite join_file_name by (done || apply Hname). cbn [mbind option_bind].
  set (stem := match split_last_dot name with Some _ => _ | None => _ end).
  assert (Hflat : ∀ x, no_byte slash x → length (List.filter kept (split_slash "" x)) ≤ 1).
  { intros x Hx. rewrite split_slash_plain by done. cbn [List.filter]. case_match; cbn; lia. }
  assert (Hx : ∀ s, stem = Some s → no_byte slash (s +:+ "." +:+ ext)).
  { intros s Hst. apply no_byte_app; [|by split]. subst stem. pose proof (plain_bytes _ (safe_plain _ Hname)).
    destruct (split_last_dot name) as [[a b]|] eqn:Hd; [|by simplify_eq].
    revert Hst. case_bool_decide; intros [= <-]; [done|]. by eapply split_last_dot_no_byte. }
  destruct stem as [s|]; [|pose proof (join_key dir name Hdir (safe_plain _ Hname)) as Hk;
    injection Hk as _ ->; rewrite length_app; cbn; lia].
  specialize (Hx s eq_refl). apply Hflat in Hx as Hl.
  destruct (prefix_cases (s +:+ "." +:+ ext)) as [[Hd ->]| ->].
  - rewrite Hd. unfold path_components at 1. fold kept. rewrite split_slash_plain in * by done.
    set (x := str_rev "" +:+ (s +:+ "." +:+ ext)) in *. clearbody x.
    case_bool_decide as Hdot; [subst x; clear; vm_compute; lia|]. etrans; [exact Hl|]. lia.
  - rewrite path_components_app, length_app. case_bool_decide as Hd; [|lia]. rewrite Hd.
    change (path_components "") with ([] : list string). change (path_components "/") with ([] : list string).
    cbn [length]. lia.
Qed.

Lemma sibling_apart inventory :
  (∀ now, no_byte slash (fmt_timestamp now)) →
  (∀ p, inventory = Some p → path_key p ≠ path_key (path_join dir name) ∧
     ∀ now, path_key p ≠ (path_is_absolute dir, path_components dir ++ [".voom-backup"; vbak_name now])) →
  apart config inventory (path_join dir name).
Proof.
  intros Hts Hinv. split.
  - intros id now. rewrite sibling_key, join_key by (done || apply Hname). intros [= Hc].
    apply (f_equal length) in Hc. rewrite !length_app in Hc. cbn in Hc. lia.
  - intros id now container. rewrite sibling_key by done. intros Hc.
    apply (f_equal (length ∘ snd)) in Hc. cbn in Hc. rewrite length_app in Hc. cbn in Hc.
    pose proof (converted_length (Container_as_str container)) as Hl.
    rewrite <-Hc in Hl. destruct container; specialize (Hl ltac:(by vm_compute)); lia.
  - intros p Hp. split; [by apply Hinv|]. intros id now. rewrite sibling_key by done. by apply Hinv.
Qed.
End siblings.

(** ** Recovery *)

(** [read_dir] lists every file and directory that is there. *)
Class ReadDirComplete `{ReadDir} : Prop :=
  read_dir_lists files dir name :
    trimmed dir → plain name →
    is_Some (files !! path_key (path_join dir name)) ∨ is_dir files (path_join dir name) = true →
    ∃ names, read_dir files dir = Ok names ∧ name ∈ names.

(** A directory under [dir] *)
Definition subdir (dir : PathBuf) (subs : list string) : PathBuf := foldl path_join dir subs.

Lemma is_dir_extended (files : Files) dir rest :
  rest ≠ [] → is_Some (files !! (path_is_absolute dir, path_components dir ++ rest)) →
  is_dir files dir = true.
Proof.
  intros Hne [c Hc]. apply existsb_exists. exists (path_is_absolute dir, path_components dir ++ rest). split.
  - apply list_elem_of_In, list_elem_of_fmap. eexists (_, c). split; [done|]. by apply elem_of_map_to_list.
  - cbn [fst snd]. rewrite !bool_decide_true by (done || by apply prefix_app_r). cbn.
    rewrite bool_decide_false; [done|]. intros Heq. apply Hne, (app_inv_head (path_components dir)).
    by rewrite app_nil_r.
Qed.

Lemma tree_depth_bound (files : Files) k : is_Some (files !! k) → length (snd k) ≤ tree_depth files.
Proof.
  intros [c Hc]. unfold tree_depth. apply elem_of_map_to_list in Hc.
  apply (list_elem_of_fmap_2 fst) in Hc. apply (list_elem_of_fmap_2 (length ∘ snd)) in Hc.
  by apply max_list_elem_of_le.
Qed.

Section recovery.
Context {S : Type} `{Unicode} `{UuidText} `{TornWrite} `{Volume} `{Ambient S} `{Canonical} `{Xxh3}.
Context `{ProcessStorage S} `{RecoveryStorage S} `{ReadDir}.
Implicit Types (w : World S) (o orphan : OrphanedBackup) (pending : list PendingOperation).

(** *** Without faults, reading changes nothing *)
Lemma query_same {A} (f : Files → result string A) w :
  w_faults w = [] → fs_query f w = (f (w_files w), w).
Proof. destruct w. unfold fs_query. cbn. by intros ->. Qed.

Lemma len_same p w : w_faults w = [] → (fs_len p w).2 = w.
Proof. intros Hw. unfold fs_len. by rewrite query_same. Qed.

Lemma read_to_end_same fuel content pos acc w :
  w_faults w = [] → (read_to_end fuel content pos acc w).2 = w.
Proof.
  intros Hw. revert pos acc. induction fuel as [|fuel IH]; intros pos acc; cbn [read_to_end]; [done|].
  rewrite query_same by done. by case_match.
Qed.

Lemma hash_same path w : w_faults w = [] → (discovery_hash_file path w).2 = w.
Proof.
  intros Hw. unfold discovery_hash_file. rewrite query_same by done. case_match; [|done].
  unfold fs_len. rewrite query_same by done. case_match; [|done]. case_match.
  - unfold hash_file_full. pose proof (read_to_end_same (N.to_nat (str_len a / HASH_BUFFER_SIZE + 2)) a 0 "" w Hw).
    by destruct (read_to_end _ _ _ _ w) as [[?|?] ?].
  - cbn [read_chunks]. by rewrite !query_same by done.
Qed.

(** *** The scan *)
Lemma vbak_entries_same dir names w :
  w_faults w = [] → (vbak_entries dir names w).2 = w.
Proof.
  intros Hw. induction names as [|name names IH]; cbn [vbak_entries]; [done|]. case_match; [|done].
  pose proof (len_same (path_join dir name) w Hw) as Hl. destruct (fs_len _ w) as [size w1]. cbn in Hl. subst.
  by destruct (vbak_entries dir names w) as [rest w'].
Qed.

Lemma vbak_entries_found dir names name w original :
  w_faults w = [] → name ∈ names → path_extension (path_join dir name) = Some "vbak" →
  infer_original_path (path_join dir name) w = Some original →
  ∃ o, o ∈ (vbak_entries dir names w).1 ∧ Orphan_backup_path o = path_join dir name ∧
       Orphan_original_path o = original.
Proof.
  intros Hw Hin Hext Hinfer. induction names as [|x names IH]; [by apply not_elem_of_nil in Hin|].
  cbn [vbak_entries]. apply elem_of_cons in Hin as [<-|Hin].
  - rewrite bool_decide_true by done. pose proof (len_same (path_join dir name) w Hw) as Hl.
    destruct (fs_len _ w) as [size w1]. cbn in Hl. subst. rewrite Hinfer.
    destruct (vbak_entries dir names w) as [rest w']. eexists. split; [apply list_elem_of_here|done].
  - case_match; [|by apply IH]. pose proof (len_same (path_join dir x) w Hw) as Hl.
    destruct (fs_len _ w) as [size w1]. cbn in Hl. subst. destruct (IH Hin) as (o & Ho & ?).
    destruct (vbak_entries dir names w) as [rest w']. exists o. split; [|done].
    case_match; [apply elem_of_cons; by right|done].
Qed.

Lemma collect_vbak_same dir w : w_faults w = [] → (collect_vbak_files dir w).2 = w.
Proof.
  intros Hw. unfold collect_vbak_files. rewrite query_same by done. case_match; [|done].
  by apply vbak_entries_same.
Qed.

Lemma dir_entries_same collect dir names w :
  w_faults w = [] → (∀ p, (collect p w).2 = w) → (dir_entries collect dir names w).2 = w.
Proof.
  intros Hw Hc. induction names as [|name names IH]; cbn [dir_entries]; [done|].
  rewrite query_same by done. case_match; [|done].
  assert (Hf : (if bool_decide (name = ".voom-backup") then collect_vbak_files (path_join dir name) w
                else collect (path_join dir name) w).2 = w).
  { case_match; [by apply collect_vbak_same|done]. }
  destruct (if bool_decide _ then _ else _) as [found w1]. cbn in Hf. subst.
  by destruct (dir_entries collect dir names w) as [rest w2].
Qed.

Lemma dir_entries_found collect dir names name w o :
  w_faults w = [] → (∀ p, (collect p w).2 = w) → name ∈ names →
  is_dir (w_files w) (path_join dir name) = true →
  o ∈ (if bool_decide (name = ".voom-backup") then collect_vbak_files (path_join dir name) w
       else collect (path_join dir name) w).1 →
  o ∈ (dir_entries collect dir names w).1.
Proof.
  intros Hw Hc Hin Hd Ho. induction names as [|x names IH]; [by apply not_elem_of_nil in Hin|].
  cbn [dir_entries]. rewrite query_same by done. apply elem_of_cons in Hin as [<-|Hin].
  - rewrite Hd. pose proof (dir_entries_same collect dir names w Hw Hc) as Hs.
    destruct (if bool_decide _ then _ else _) as [found w1]. cbn in Ho.
    destruct (dir_entries collect dir names w1) as [rest w2]. apply elem_of_app. by left.
  - destruct (is_dir (w_files w) (path_join dir x)); [|by apply IH].
    assert (Hf : (if bool_decide (x = ".voom-backup") then collect_vbak_files (path_join dir x) w
                  else collect (path_join dir x) w).2 = w).
    { destruct (bool_decide (x = _)); [by apply collect_vbak_same|done]. }
    destruct (if bool_decide (x = _) then _ else _) as [found w1]. cbn in Hf. subst.
    specialize (IH Hin). destruct (dir_entries collect dir names w) as [rest w2]. apply elem_of_app. by right.
Qed.

Lemma collect_orphans_same fuel dir w : w_faults w = [] → (collect_orphans_in fuel dir w).2 = w.
Proof.
  intros Hw. revert dir. induction fuel as [|fuel IH]; intros dir; cbn [collect_orphans_in];
    rewrite query_same by done; case_match; try done. by apply dir_entries_same.
Qed.

Lemma find_orphans_same dirs w : w_faults w = [] → (find_orphans_under dirs w).2 = w.
Proof.
  intros Hw. induction dirs as [|dir dirs IH]; cbn [find_orphans_under]; [done|].
  pose proof (collect_orphans_same (Datatypes.S (tree_depth (w_files w))) dir w Hw) as Hc.
  destruct (collect_orphans_in _ dir w) as [found w1]. cbn in Hc. subst.
  by destruct (find_orphans_under dirs w).
Qed.

Lemma find_orphans_found dirs dir w o :
  w_faults w = [] → dir ∈ dirs →
  o ∈ (collect_orphans_in (Datatypes.S (tree_depth (w_files w))) dir w).1 →
  o ∈ (find_orphans_under dirs w).1.
Proof.
  intros Hw Hin Ho. induction dirs as [|x dirs IH]; [by apply not_elem_of_nil in Hin|].
  cbn [find_orphans_under]. apply elem_of_cons in Hin as [<-|Hin].
  - pose proof (collect_orphans_same (Datatypes.S (tree_depth (w_files w))) dir w Hw) as Hc.
    destruct (collect_orphans_in _ dir w) as [found w1]. cbn in Ho.
    destruct (find_orphans_under dirs w1). apply elem_of_app. by left.
  - pose proof (collect_orphans_same (Datatypes.S (tree_depth (w_files w))) x w Hw) as Hc.
    destruct (collect_orphans_in _ x w) as [found w1]. cbn in Hc. subst.
    specialize (IH Hin). destruct (find_orphans_under dirs w). apply elem_of_app. by right.
Qed.

(** *** A backup beside a file under a directory that is scanned *)
Context `{TimestampText} `{!ReadDirComplete} (config : BackupConfig).
Context (Hsibling : BackupConfig_use_global_dir config = false).

Lemma subdir_cons dir sub subs : subdir dir (sub :: subs) = subdir (path_join dir sub) subs.
Proof. done. Qed.

Lemma subdir_trimmed dir subs : trimmed dir → Forall plain subs → trimmed (subdir dir subs).
Proof.
  intros Hd Hs. revert dir Hd. induction Hs as [|sub subs Hsub Hs IH]; intros dir Hd; [done|].
  rewrite subdir_cons. apply IH. by apply join_trimmed.
Qed.

Lemma subdir_key dir subs :
  trimmed dir → Forall plain subs →
  path_key (subdir dir subs) = (path_is_absolute dir, path_components dir ++ subs).
Proof.
  intros Hd Hs. revert dir Hd. induction Hs as [|sub subs Hsub Hs IH]; intros dir Hd.
  { by rewrite app_nil_r. }
  rewrite subdir_cons, IH by by apply join_trimmed.
  pose proof (join_key dir sub Hd Hsub) as Hk. injection Hk as -> ->. by rewrite <-(assoc_L (++)).
Qed.

Lemma sibling_found name id now dir subs fuel w :
  w_faults w = [] → trimmed dir → safe name → stamp (fmt_timestamp now) →
  Forall (λ s, plain s ∧ s ≠ ".voom-backup") subs → length subs < fuel →
  is_Some (w_files w !! path_key (backup_path_for config (path_join (subdir dir subs) name) id now)) →
  ∃ o, o ∈ (collect_orphans_in fuel dir w).1 ∧
    Orphan_backup_path o = backup_path_for config (path_join (subdir dir subs) name) id now ∧
    Orphan_original_path o = path_join (normalize_path (subdir dir subs) w) name.
Proof.
  intros Hw Hd Hn Hs Hsubs. revert dir fuel Hd.
  induction Hsubs as [|sub subs [Hsub Hne] Hsubs IH]; intros dir fuel Hd Hfuel Hb;
    (destruct fuel as [|fuel]; [cbn in Hfuel; lia|]); cbn [collect_orphans_in]; rewrite query_same by done.
  - change (subdir dir []) with dir in *. pose proof (stamp_flat _ Hs) as Hflat.
    pose proof (sibling_trimmed dir Hd) as Hvd.
    assert (Hdir : is_dir (w_files w) (path_join dir ".voom-backup") = true).
    { apply (is_dir_extended _ _ [vbak_name name now]); [done|].
      rewrite (sibling_path _ Hsibling) in Hb by done. by rewrite join_key in Hb by (done || by apply vbak_plain). }
    destruct (read_dir_lists (w_files w) dir ".voom-backup" Hd plain_voom_backup (or_intror Hdir))
      as (names & -> & Hin).
    destruct (read_dir_lists (w_files w) (path_join dir ".voom-backup") (vbak_name name now) Hvd) as (vnames & Hv & Hvin).
    { by apply vbak_plain. }
    { left. by rewrite (sibling_path _ Hsibling) in Hb. }
    pose proof (infer_sibling (S := S) config Hsibling dir name Hd Hn id now w Hs) as Hi.
    rewrite (sibling_path _ Hsibling) in * by done.
    destruct (vbak_entries_found (path_join dir ".voom-backup") vnames (vbak_name name now) w _ Hw Hvin
                (vbak_extension dir name Hd Hn now Hflat) Hi) as (o & Ho & Hob & Hoo).
    exists o. split; [|done]. eapply dir_entries_found; [done|by intros; apply collect_orphans_same|done..|].
    rewrite bool_decide_true by done. unfold collect_vbak_files. by rewrite query_same, Hv by done.
  - rewrite subdir_cons in *. pose proof (join_trimmed dir sub Hd Hsub) as Hjd.
    assert (Hdir : is_dir (w_files w) (path_join dir sub) = true).
    { eapply (is_dir_extended _ _ (subs ++ [".voom-backup"; vbak_name name now])); [by destruct subs|].
      assert (Hp : Forall plain subs) by (eapply Forall_impl; [exact Hsubs|by intros ? []]).
      pose proof (subdir_trimmed _ _ Hjd Hp) as Ht. pose proof (subdir_key _ _ Hjd Hp) as Hk.
      rewrite (sibling_key config Hsibling _ _ Ht Hn) in Hb by by apply stamp_flat.
      injection Hk as Ha Hc. by rewrite Ha, Hc, <-(assoc_L (++)) in Hb. }
    destruct (read_dir_lists (w_files w) dir sub Hd Hsub (or_intror Hdir)) as (names & -> & Hin).
    destruct (IH (path_join dir sub) fuel Hjd) as (o & Ho & ?); [cbn in Hfuel; lia|done|].
    exists o. split; [|done]. eapply dir_entries_found; [done|by intros; apply collect_orphans_same|done..|].
    by rewrite bool_decide_false by done.
Qed.

(** *** The resolution *)
Lemma remove_vbak_ok p w :
  w_faults w = [] → is_Some (w_files w !! path_key p) →
  remove_vbak_file p w = (Returned (Ok tt), Build_World (delete (path_key p) (w_files w)) (w_store w) []).
Proof.
  destruct w as [files store faults]. cbn. intros -> Hp.
  unfold remove_vbak_file, run_bind, run_os, fs_remove, fs_call, try_cleanup_parent_dir. cbn.
  rewrite bool_decide_true by done. by destruct (path_parent p).
Qed.

Lemma record_recovery_same p hash size detail w :
  w_files (record_recovery_transition p hash size detail w) = w_files w ∧
  w_faults (record_recovery_transition p hash size detail w) = w_faults w.
Proof. unfold record_recovery_transition. by repeat case_match. Qed.

(** What [recover] does to the files *)
Lemma recover_files o w :
  w_faults w = [] →
  let B := path_key (Orphan_backup_path o) in
  let P := path_key (Orphan_original_path o) in
  match w_files w !! B with
  | Some c => ∃ w' c', recover o w = (Returned (Ok tt), w') ∧ w_faults w' = [] ∧
                w_files w' = delete B (<[P := c']> (w_files w)) ∧ (B ≠ P → c' = c)
  | None => ∃ e, recover o w = (Returned (Err e), w)
  end.
Proof.
  intros Hw B P. destruct w as [files store faults]. cbn in Hw. subst faults. cbn [w_files].
  unfold recover, restore_from_paths, run_bind, run_os, fs_copy. cbn [w_files w_faults w_store].
  fold B P. destruct (files !! B) as [c|] eqn:Hb; [|by eexists]. cbn [tail].
  set (c' := if bool_decide (B = P) then "" else c). set (w1 := Build_World (<[P := c']> files) store []).
  pose proof (hash_same (Orphan_original_path o) w1 eq_refl) as Hh.
  destruct (discovery_hash_file _ w1) as [hash w2]. cbn in Hh. subst w2.
  pose proof (len_same (Orphan_original_path o) w1 eq_refl) as Hl.
  destruct (fs_len _ w1) as [size w2]. cbn in Hl. subst w2.
  match goal with |- context [record_recovery_transition ?p ?h ?n ?d w1] =>
    destruct (record_recovery_same p h n d w1) as [Hf Hfa]; set (w2 := record_recovery_transition p h n d w1) in * end.
  rewrite remove_vbak_ok; [|by rewrite Hfa|].
  - eexists _, c'. split_and!; [done|done|cbn; by rewrite Hf|]. intros Hne. subst c'.
    by rewrite bool_decide_false.
  - rewrite Hf. subst w1. cbn. fold B. destruct (decide (P = B)) as [->|Hne]; [by rewrite lookup_insert_eq|].
    by rewrite lookup_insert_ne, Hb.
Qed.

Lemma delete_pending_same ops w :
  let w' := foldl (λ w op, delete_pending (PendingOperation_id op) w) w ops in
  w_files w' = w_files w ∧ w_faults w' = w_faults w.
Proof.
  revert w. induction ops as [|op ops IH]; intros w; [done|]. cbn.
  destruct (IH (delete_pending (PendingOperation_id op) w)) as [Hf Hfa]. by rewrite Hf, Hfa.
Qed.

Context (P B : bool * list string) (c : string) (HPB : P ≠ B).
Context (rc : RecoveryConfig) (Hmode : RecoveryConfig_mode rc = RecoveryMode_AlwaysRecover).

(** A backup that was found is the one in [B], of the file in [P], or has nothing
    to do with either. *)
Definition unmixed o : Prop :=
  (path_key (Orphan_backup_path o) = B ∧ path_key (Orphan_original_path o) = P) ∨
  (path_key (Orphan_backup_path o) ≠ B ∧ path_key (Orphan_backup_path o) ≠ P ∧
   path_key (Orphan_original_path o) ≠ B ∧ path_key (Orphan_original_path o) ≠ P).

Definition waiting w : Prop := w_faults w = [] ∧ w_files w !! B = Some c.
Definition restored w : Prop := w_faults w = [] ∧ w_files w !! P = Some c ∧ w_files w !! B = None.

Lemma resolve_other pending o w :
  unmixed o → waiting w ∨ restored w →
  ∃ b w', resolve_single_orphan o rc pending w = (Ok b, w') ∧
    ((waiting w → path_key (Orphan_backup_path o) ≠ B → waiting w') ∧
     (waiting w → path_key (Orphan_backup_path o) = B → restored w' ∧ b = true) ∧
     (restored w → restored w')).
Proof.
  intros Ho Hw. assert (Hfa : w_faults w = []) by by destruct Hw as [[? _]|[? _]].
  pose proof (recover_files o w Hfa) as Hr. unfold resolve_single_orphan. rewrite Hmode. cbv zeta in Hr.
  destruct (w_files w !! path_key (Orphan_backup_path o)) as [c0|] eqn:Hb.
  - destruct Hr as (w1 & c' & -> & Hfa1 & Hf1 & Hc'). eexists true, _. split; [done|].
    match goal with |- context [foldl ?f w1 ?ops] => destruct (delete_pending_same ops w1) as [Hf2 Hfa2] end.
    unfold waiting, restored. rewrite Hf2, Hfa2, Hf1.
    destruct Ho as [[Hbk Hor]|(? & ? & ? & ?)].
    + rewrite Hbk, Hor in *. split_and!; [done|intros [_ HB] _|intros (_ & _ & HB); congruence].
      rewrite lookup_delete_eq, lookup_delete_ne, lookup_insert_eq by done. rewrite Hc' by done.
      split_and!; congruence.
    + rewrite !lookup_delete_ne, !lookup_insert_ne by done.
      split_and!; [by intros [_ HB]|done|by intros (_ & HP & HB)].
  - destruct Hr as [e ->]. eexists false, _. split; [done|]. split_and!; [done| |done].
    intros [_ HB] Hk. rewrite Hk in Hb. congruence.
Qed.

Lemma resolve_done pending n orphans w :
  Forall unmixed orphans → restored w →
  ∃ m w', resolve_orphans rc pending n orphans w = (Ok m, w') ∧ (n ≤ m)%N ∧ restored w'.
Proof.
  intros Hall. revert n w. induction Hall as [|o orphans Ho Hall IH]; intros n w Hw; cbn [resolve_orphans].
  { by exists n, w. }
  destruct (resolve_other pending o w Ho (or_intror Hw)) as (b & w1 & -> & _ & _ & Hr).
  destruct (IH (if b then n + 1 else n)%N w1 (Hr Hw)) as (m & w2 & Hm & Hle & Hw2).
  exists m, w2. destruct b; (split_and!; [done|lia|done]).
Qed.

Lemma resolve_restores pending n orphans w :
  Forall unmixed orphans → Exists (λ o, path_key (Orphan_backup_path o) = B) orphans → waiting w →
  ∃ m w', resolve_orphans rc pending n orphans w = (Ok m, w') ∧ (n < m)%N ∧ restored w'.
Proof.
  intros Hall. revert n w. induction Hall as [|o orphans Ho Hall IH]; intros n w Hex Hw.
  { by apply Exists_nil in Hex. }
  cbn [resolve_orphans].
  destruct (resolve_other pending o w Ho (or_introl Hw)) as (b & w1 & -> & Ha & Hb & _).
  destruct (decide (path_key (Orphan_backup_path o) = B)) as [Heq|Hne].
  - destruct (Hb Hw Heq) as [Hr ->].
    destruct (resolve_done pending (n + 1) orphans w1 Hall Hr) as (m & w2 & Hm & Hle & Hw2).
    exists m, w2. split_and!; [done|lia|done].
  - apply Exists_cons in Hex as [Hex|Hex]; [done|].
    destruct (IH (if b then n + 1 else n)%N w1 Hex (Ha Hw Hne)) as (m & w2 & Hm & Hle & Hw2).
    exists m, w2. destruct b; (split_and!; [done|lia|done]).
Qed.

(** The whole run, once the scan has found the backup *)
Lemma recover_found scan_dirs w o op ops :
  waiting w → list_pending_ops (w_store w) = Ok ops → op ∈ ops →
  o ∈ (find_orphans_under scan_dirs w).1 → Forall unmixed (find_orphans_under scan_dirs w).1 →
  path_key (Orphan_backup_path o) = B →
  to_string_lossy (Orphan_original_path o) = to_string_lossy (PendingOperation_file_path op) →
  ∃ n w', check_and_recover_under rc scan_dirs None w = (Ok n, w') ∧ (0 < n)%N ∧ restored w'.
Proof.
  intros Hw Hops Hop Ho Hall Hbk Heq. unfold check_and_recover_under. rewrite Hops.
  pose proof (find_orphans_same scan_dirs w (proj1 Hw)) as Hs.
  destruct (find_orphans_under scan_dirs w) as [found w1]. cbn in Hs, Ho, Hall. subst w1.
  rewrite app_nil_r. set (keep := λ b, bool_decide _).
  assert (Hin : o ∈ List.filter keep found).
  { apply filter_elem_of. split; [done|]. apply bool_decide_eq_true. rewrite Heq.
    by apply (list_elem_of_fmap_2 (λ op, to_string_lossy (PendingOperation_file_path op))). }
  assert (Hun : Forall unmixed (List.filter keep found)).
  { apply Forall_forall. intros x [Hx _]%filter_elem_of. rewrite Forall_forall in Hall. by apply Hall. }
  destruct (resolve_restores ops 0 (List.filter keep found) w Hun) as (n & w' & Hr & Hn & Hw'); [|done|].
  { apply Exists_exists. by exists o. }
  exists n, w'. split_and!; [|done|done]. by destruct (List.filter keep found); [apply not_elem_of_nil in Hin|].
Qed.
End recovery.

(** Hashing only reads. *)
Section hashing.
Context {S : Type} `{Unicode} `{Xxh3}.
Implicit Types w : World S.

Definition only_reads w w' : Prop := w_files w' = w_files w ∧ w_store w' = w_store w.

#[export] Instance only_reads_preorder : PreOrder only_reads.
Proof. split; [done|]. intros w1 w2 w3 [? ?] [? ?]. split; congruence. Qed.

Lemma query_reads {A} (f : Files → result string A) w : only_reads w (fs_query f w).2.
Proof. unfold fs_query. by destruct (w_faults w) as [|[e|] fs]. Qed.

Lemma read_to_end_reads fuel content pos acc w : only_reads w (read_to_end fuel content pos acc w).2.
Proof.
  revert pos acc w. induction fuel as [|fuel IH]; intros pos acc w; cbn [read_to_end]; [done|].
  pose proof (query_reads (λ _, Ok (read_at pos HASH_BUFFER_SIZE content)) w) as Hq.
  destruct (fs_query _ w) as [[chunk|e] w1]; [|done]. case_match; [done|]. etrans; [exact Hq|apply IH].
Qed.

Lemma read_chunks_reads content acc positions w : only_reads w (read_chunks content acc positions w).2.
Proof.
  revert acc w. induction positions as [|pos positions IH]; intros acc w; cbn [read_chunks]; [done|].
  pose proof (query_reads (λ _, Ok (read_at pos HASH_CHUNK_SIZE content)) w) as Hq.
  destruct (fs_query _ w) as [[chunk|e] w1]; [|done]. etrans; [exact Hq|apply IH].
Qed.

Lemma hash_only_reads path w : only_reads w (discovery_hash_file path w).2.
Proof.
  unfold discovery_hash_file.
  match goal with |- context [fs_query ?f w] => pose proof (query_reads f w) as Hq end.
  destruct (fs_query _ w) as [[content|e] w1]; [|done].
  pose proof (query_reads (λ files, match files !! path_key path with
    | Some content => Ok (str_len content) | None => Err no_such_file end) w1) as Hl.
  unfold fs_len. destruct (fs_query _ w1) as [[n|e] w2]; cbn [snd] in *; [|by etrans].
  assert (Hw2 : only_reads w w2) by by etrans. case_match.
  - unfold hash_file_full.
    pose proof (read_to_end_reads (N.to_nat (str_len content / HASH_BUFFER_SIZE + 2)) content 0 "" w2) as Hr.
    destruct (read_to_end _ _ _ _ w2) as [[?|?] w3]; (etrans; [exact Hw2|exact Hr]).
  - pose proof (read_chunks_reads content (to_le_bytes n) [0; n / 2; n - HASH_CHUNK_SIZE]%N w2) as Hr.
    destruct (read_chunks _ _ _ w2) as [[?|?] w3]; (etrans; [exact Hw2|exact Hr]).
Qed.
End hashing.

(** ** The inventory of remote backups *)

(** What [serde_json] promises of the text of a record *)
Class InventoryJsonLaws `{InventoryJson} (to_str : string → option string) : Prop :=
  inventory_text_law record json :
    inventory_to_string record = Some json →
    inventory_from_str json = Ok record ∧ to_str json = Some json ∧
    no_byte (ascii_of_nat 10) json ∧ no_byte (ascii_of_nat 13) json.

Section inventory.
Context {S : Type} `{Unicode} `{TornWrite} `{InventoryJson} (to_str : string → option string).
Context `{!InventoryJsonLaws to_str}.
Implicit Types (w : World S) (records : list RemoteBackupInventoryRecord).

(** The text of an inventory *)
Fixpoint inventory_text records : option string :=
  match records with
  | [] => Some ""
  | r :: records => json ← inventory_to_string r; text ← inventory_text records;
                    Some (json +:+ newline_str +:+ text)
  end.

Lemma inventory_text_app records records' text text' :
  inventory_text records = Some text → inventory_text records' = Some text' →
  inventory_text (records ++ records') = Some (text +:+ text').
Proof.
  revert text. induction records as [|r records IH]; intros text; cbn; [by intros [= <-]|].
  destruct (inventory_to_string r) as [json|]; [|done]. cbn.
  destruct (inventory_text records) as [t|]; [|done]. cbn. intros [= <-] Ht.
  rewrite (IH t eq_refl Ht). cbn. f_equal. symmetry. by rewrite !string_app_assoc.
Qed.

Lemma lines_go_line cur line rest :
  no_byte (ascii_of_nat 10) line →
  lines_go cur (line +:+ newline_str +:+ rest)
  = of_bytes_rev (strip_cr (bytes_rev line ++ cur)) :: lines_go [] rest.
Proof.
  revert cur. induction line as [|c line IH]; intros cur Hn; [done|]. destruct Hn as [Hc Hn].
  change (String c line +:+ newline_str +:+ rest) with (String c (line +:+ newline_str +:+ rest)).
  cbn [lines_go]. rewrite bool_decide_false, IH by done. do 3 f_equal.
  change (String c line) with (String c "" +:+ line). rewrite bytes_rev_app, <-(assoc_L (++)). done.
Qed.

Lemma strip_cr_same l : ascii_of_nat 13 ∉ l → strip_cr l = l.
Proof. destruct l as [|c l]; [done|]. cbn. intros Hn. rewrite bool_decide_false; [done|]. set_solver. Qed.

Lemma parse_inventory_text path records text :
  inventory_text records = Some text → parse_inventory to_str path (str_lines text) = Ok records.
Proof.
  revert text. induction records as [|r records IH]; intros text; cbn; [by intros [= <-]|].
  destruct (inventory_to_string r) as [json|] eqn:Hj; [|done]. cbn.
  destruct (inventory_text records) as [t|]; [|done]. cbn. intros [= <-].
  destruct (inventory_text_law r json Hj) as (Hfrom & Hstr & Hnl & Hcr).
  unfold str_lines. rewrite lines_go_line, app_nil_r by done.
  rewrite strip_cr_same by by apply no_byte_elem. unfold bytes_rev. rewrite of_bytes_rev_reverse.
  cbn [parse_inventory]. rewrite Hstr, Hfrom. unfold str_lines in IH. by rewrite (IH t eq_refl).
Qed.

Lemma write_record_post path record old w :
  w_files w !! path_key path = Some old →
  run_post (write_record path record) w (λ _ w', ∃ json, inventory_to_string record = Some json ∧
    w_files w' !! path_key path = Some (old +:+ json +:+ newline_str)).
Proof.
  intros Hold. unfold run_post, write_record. destruct (inventory_to_string record) as [json|]; [|done].
  unfold run_os, fs_write_end. rewrite Hold.
  destruct (w_faults w) as [|[e|] fs]; [|done|]; exists json; (split; [done|]); cbn;
    by rewrite lookup_insert_eq.
Qed.

Lemma write_records_post path records old w :
  w_files w !! path_key path = Some old →
  run_post (write_records path records) w (λ _ w', ∃ text, inventory_text records = Some text ∧
    w_files w' !! path_key path = Some (old +:+ text)).
Proof.
  revert old w. induction records as [|r records IH]; intros old w Hold; cbn [write_records].
  { exists "". by rewrite string_app_nil. }
  eapply run_post_bind; [by apply write_record_post|]. intros ? w1 (json & Hj & Hf1).
  eapply run_post_mono; [by apply IH|]. intros ? w2 (text & Ht & Hf2). exists (json +:+ newline_str +:+ text).
  cbn. rewrite Hj. cbn. rewrite Ht. split; [done|]. rewrite Hf2. f_equal. by rewrite !string_app_assoc.
Qed.

Lemma create_dir_post path w :
  run_post (create_inventory_dir path) w (λ _ w', w_files w' = w_files w).
Proof.
  unfold create_inventory_dir, run_post. destruct (path_parent path); [|done].
  unfold run_os, fs_create_dir_all, fs_call. by destruct (w_faults w) as [|[e|] fs].
Qed.

Lemma replace_all_post path records w :
  run_post (RemoteBackupInventory_replace_all path records) w (λ _ w', ∃ text,
    inventory_text records = Some text ∧ w_files w' !! path_key path = Some text).
Proof.
  eapply run_post_bind; [apply create_dir_post|]. intros ? w1 _. set (temp := path_set_extension path _).
  eapply (run_post_bind _ _ _ (λ _ w2, w_files w2 !! path_key temp = Some "")).
  { unfold run_post, run_os, fs_create, fs_call.
    destruct (w_faults w1) as [|[e|] fs]; [|done|]; cbn; by rewrite lookup_insert_eq. }
  intros ? w2 Hf2. eapply run_post_bind; [by apply write_records_post|]. intros ? w3 (text & Ht & Hf3).
  unfold run_post, run_os, fs_rename, fs_call. rewrite Hf3.
  destruct (w_faults w3) as [|[e|] fs]; [|done|]; exists text; (split; [done|]); cbn;
    by rewrite lookup_insert_eq.
Qed.

Lemma append_post path record old w :
  default "" (w_files w !! path_key path) = old →
  run_post (RemoteBackupInventory_append path record) w (λ _ w', ∃ json,
    inventory_to_string record = Some json ∧
    w_files w' !! path_key path = Some (old +:+ json +:+ newline_str)).
Proof.
  intros Hold. eapply run_post_bind; [apply create_dir_post|]. intros ? w1 Hf1.
  eapply (run_post_bind _ _ _ (λ _ w2, w_files w2 !! path_key path = Some old)).
  { unfold run_post, run_os, fs_open_append, fs_call. rewrite Hf1, Hold.
    destruct (w_faults w1) as [|[e|] fs]; [|done|]; cbn; by rewrite lookup_insert_eq. }
  intros ? w2 Hf2. by apply write_record_post.
Qed.

Lemma list_post path destination records text w :
  inventory_text records = Some text → w_files w !! path_key path = Some text → w_faults w = [] →
  RemoteBackupInventory_list to_str path destination w
  = (Returned (Ok (List.filter (λ r, match destination with
                                     | None => true
                                     | Some name => bool_decide (Inventory_destination_name r = name)
                                     end) records)), w).
Proof.
  intros Ht Hf Hw. unfold RemoteBackupInventory_list. rewrite query_same by done. rewrite Hf.
  unfold run_bind, run_os. rewrite query_same by done. by rewrite (parse_inventory_text path records).
Qed.
End inventory.
