(* ===== verification/Samples.v ===== *)
(** * Concrete instances and sample data

    Instances of the interfaces to code outside the repository, and a small
    media file and policies, on which the definitions evaluate. *)
From S2P Require Import Prelude Json Media Plan Compiled CapabilityMap Condition Evaluator Ast.
From S2P Require Import TopoSort Compiler Events Kernel.

(** ** Instances *)
Definition json_display_sample : JsonDisplay := λ v,
  match v with
  | JNull => "null"
  | JBool true => "true"
  | JBool false => "false"
  | _ => "value"
  end.

(** Patterns taken literally. *)
Definition regex_literal : RegexCrate := {|
  regex_new _ := Ok tt;
  regex_is_match pattern s := str_contains pattern s;
|}.

Fixpoint prefix_length {A} (f : A → bool) (l : list A) : nat :=
  match l with
  | [] => 0
  | x :: l => if f x then S (prefix_length f l) else 0
  end.

Lemma prefix_length_le {A} (f : A → bool) l : prefix_length f l ≤ length l.
Proof. induction l as [|x l IH]; simpl; [lia|]. destruct (f x); lia. Qed.

Lemma prefix_length_partitioned {A} (f : A → bool) l k :
  Forall (λ x, f x = true) l → Forall (λ x, f x = false) k →
  prefix_length f (l ++ k) = length l.
Proof.
  intros Hl Hk. induction Hl as [|x l Hx _ IH]; simpl; [|by rewrite Hx, IH].
  destruct Hk as [|y k Hy _]; simpl; [done|]. by rewrite Hy.
Qed.

Definition partition_point_linear : PartitionPoint := {|
  partition_point _ f l := prefix_length f l;
  partition_point_le _ f l := prefix_length_le f l;
  partition_point_partitioned _ f l k := prefix_length_partitioned f l k;
|}.

(** Search of the first element that is not smaller than the key. *)
Definition linear_search (l : list Z) (key : Z) : result nat nat :=
  let i := prefix_length (λ x, x <? key)%Z l in
  match l !! i with
  | Some x => if (x =? key)%Z then Ok i else Err i
  | None => Err i
  end.

Lemma prefix_length_take {A} (f : A → bool) l :
  Forall (λ x, f x = true) (take (prefix_length f l) l).
Proof. induction l as [|x l IH]; simpl; [constructor|]. destruct (f x) eqn:E; simpl; by constructor. Qed.

Lemma prefix_length_next {A} (f : A → bool) l x :
  l !! prefix_length f l = Some x → f x = false.
Proof.
  induction l as [|y l IH]; simpl; [done|]. destruct (f y) eqn:E; simpl; [done|].
  by intros [= <-].
Qed.

Lemma linear_search_Ok l key i :
  StronglySorted Z.le l → linear_search l key = Ok i → l !! i = Some key.
Proof.
  intros _. unfold linear_search. destruct (l !! _) as [x|] eqn:Hx; [|done].
  destruct (Z.eqb_spec x key); [|done]. intros [= <-]. by subst.
Qed.

Lemma linear_search_Err l key i :
  StronglySorted Z.le l → linear_search l key = Err i →
  i ≤ length l ∧ Forall (λ x, x < key)%Z (take i l) ∧ Forall (λ x, key < x)%Z (drop i l).
Proof.
  intros Hs. unfold linear_search. set (f := λ x, (x <? key)%Z).
  pose proof (prefix_length_le f l) as Hle.
  assert (Forall (λ x, x < key)%Z (take (prefix_length f l) l)) as Ht.
  { eapply Forall_impl; [apply prefix_length_take|]. intros x. apply Z.ltb_lt. }
  destruct (l !! prefix_length f l) as [x|] eqn:Hx.
  - destruct (Z.eqb_spec x key) as [|Hne]; [done|]. intros [= <-]. split_and!; [done|done|].
    pose proof (prefix_length_next f l x Hx) as Hge%Z.ltb_ge.
    rewrite (drop_S l x _ Hx). assert (key < x)%Z as Hlt by lia. constructor; [done|].
    rewrite <-(take_drop_middle l _ x Hx) in Hs. apply StronglySorted_app_1_r in Hs.
    apply StronglySorted_inv in Hs as [_ Hall]. eapply Forall_impl; [exact Hall|]. simpl. lia.
  - intros [= <-]. split_and!; [done|done|]. apply lookup_ge_None in Hx.
    by rewrite drop_ge.
Qed.

Definition binary_search_linear : BinarySearch := {|
  binary_search := linear_search;
  binary_search_Ok := linear_search_Ok;
  binary_search_Err := linear_search_Err;
|}.

(** ** A media file: one video track and two audio tracks *)
Definition sample_file : MediaFile :=
  MediaFile_with_container
    (MediaFile_with_tracks (MediaFile_new 1 0 "/media/movie.mkv")
       [Track_new 0 TrackType_Video "h264"; Track_new 1 TrackType_AudioMain "aac";
        Track_new 2 TrackType_AudioAlternate "dts"]) Container_Mkv.

Definition sample_stamps (n : nat) : Stamp := {| Stamp_id := N.of_nat n; Stamp_now := 0 |}.

(** ** A policy

    [clean] keeps the AAC audio tracks and converts to mp4; [video], which
    depends on it and runs if it modified the file, transcodes to HEVC. *)
Definition sample_span : Span := Build_Span 0 0 1 1.

Definition sample_op (op : OperationNode) : SpannedOperation :=
  Build_SpannedOperation op sample_span.

Definition sample_clean : PhaseNode := {|
  PhaseNode_name := "clean";
  PhaseNode_extend := false;
  PhaseNode_skip_when := None;
  PhaseNode_depends_on := None;
  PhaseNode_run_if := None;
  PhaseNode_on_error := None;
  PhaseNode_operations :=
    [sample_op (OperationNode_Keep "audio" (Some (FilterNode_CodecIn ["aac"])) None);
     sample_op (OperationNode_Container "mp4")];
  PhaseNode_span := sample_span;
|}.

Definition sample_video : PhaseNode := {|
  PhaseNode_name := "video";
  PhaseNode_extend := false;
  PhaseNode_skip_when := None;
  PhaseNode_depends_on := Some ["clean"];
  PhaseNode_run_if := Some (Build_RunIfNode "clean" RunIfTriggerNode_Modified);
  PhaseNode_on_error := None;
  PhaseNode_operations := [sample_op (OperationNode_Transcode "video" "x265" [])];
  PhaseNode_span := sample_span;
|}.

Definition sample_ast : PolicyAst := {|
  PolicyAst_name := "demo";
  PolicyAst_extends := None;
  PolicyAst_metadata := None;
  PolicyAst_config := None;
  PolicyAst_phases := [sample_video; sample_clean];
  PolicyAst_span := sample_span;
|}.

Definition empty_policy : CompiledPolicy := {|
  CompiledPolicy_name := "";
  CompiledPolicy_metadata := compile_metadata None [];
  CompiledPolicy_config := compile_config None;
  CompiledPolicy_phases := [];
  CompiledPolicy_phase_order := [];
  CompiledPolicy_source_hash := "";
|}.

Definition value_debug_sample : ValueDebug := λ _, "value".

Definition sample_policy : CompiledPolicy :=
  match @compile_ast regex_literal value_debug_sample partition_point_linear hash_order_gmap
          sample_ast with
  | Ok policy => policy
  | Err _ => empty_policy
  end.

(** The plans of the sample policy for the sample file. *)
Definition sample_plans : list Plan :=
  match @evaluate unicode_ascii hash_order_gmap json_display_sample regex_literal
          sample_stamps sample_policy sample_file with
  | Ok r => EvaluationResult_plans r
  | Err _ => []
  end.

Example sample_plan_names : Plan_phase_name <$> sample_plans = ["clean"; "video"].
Proof. by vm_compute. Qed.

Example sample_plan_actions :
  (λ p, (PlannedAction_operation <$> Plan_actions p)) <$> sample_plans =
  [[Op_RemoveTrack; Op_ConvertContainer]; [Op_TranscodeVideo]].
Proof. by vm_compute. Qed.

(** The [n]-th of them. *)
Definition sample_plan (n : nat) : Plan :=
  default (Plan_new (sample_stamps 0) sample_file "" "") (sample_plans !! n).

Definition sample_result : EvaluationResult := {| EvaluationResult_plans := sample_plans |}.

(** The [n]-th phase of the sample policy. *)
Definition sample_phase (name : string) : option CompiledPhase := find_phase sample_policy name.
