(* ===== verification/EvaluatorTheorems.v ===== *)
(** * Theorems about policy evaluation

    The properties of the evaluator ([plugins/policy-evaluator]) as its clients
    rely on them, each with a witness on the sample policy where it has
    hypotheses. *)
From S2P Require Import Prelude Json Media Plan Compiled CapabilityMap Condition Evaluator.
From S2P Require Import EmitFacts PhaseFacts Ast TopoSort Compiler Samples.

Section evaluator_theorems.
Context `{Unicode, HashOrder, JsonDisplay, RegexCrate}.

(** C1: In a build without debug assertions, evaluation never panics, whatever the
    policy, file, capabilities and recorded outputs. It returns one plan per known
    phase of [phase_order], in that order; every plan carries the evaluated file
    and the policy and phase names; every action has parameters of its operation's
    kind. An action on a track names a track that exists, and sets a flag, title,
    language or codec to a value that the track does not have (a normalized audio
    track may keep its codec), removes it with its type, or synthesizes audio from
    it as the source. An action on the file converts to another container, deletes
    a tag that is there, clears exactly the tags that are there, synthesizes
    without a source, or sets a tag, orders or verifies, which are unconditional.
    Every safeguard violation is also a warning and names the plan's phase. *)
Theorem evaluate_total_and_well_formed stamps policy file caps lookup :
  ∃ r, evaluate_with_phase_outputs stamps policy file caps lookup = Ok r ∧
    Plan_phase_name <$> EvaluationResult_plans r =
      List.filter (known_phase policy) (CompiledPolicy_phase_order policy) ∧
    ∀ p, p ∈ EvaluationResult_plans r →
      Plan_file p = file ∧ Plan_policy_name p = CompiledPolicy_name policy ∧
      Forall (action_ok file) (Plan_actions p) ∧
      Forall (violation_ok p) (Plan_safeguard_violations p).
Proof.
  destruct (evaluate_with_phase_outputs_trace stamps policy file caps lookup)
    as (r & -> & Hn & Ht). exists r. split_and!; [done..|]. intros p Hp.
  eapply evaluation_trace_elem in Hp as (stamp & phase & oc & _ & He); [|done].
  by apply evaluate_phase_plan_ok in He as [Ha Hv (_ & Hf & Hpn & _)].
Qed.

(** C2: A plan that is not skipped never removes all video tracks, nor all
    audio tracks: if the file has a track of that type, one that no
    [RemoveTrack] action of the plan names is left. *)
Theorem evaluate_keeps_video_and_audio stamps policy file caps lookup r p :
  evaluate_with_phase_outputs stamps policy file caps lookup = Ok r →
  p ∈ EvaluationResult_plans r → Plan_skip_reason p = None →
  ∀ ty, ty = TrackType_is_video ∨ ty = TrackType_is_audio →
  ∀ t, t ∈ MediaFile_tracks file → ty (Track_track_type t) = true →
  ∃ t', t' ∈ MediaFile_tracks file ∧ ty (Track_track_type t') = true ∧
        ∀ a, a ∈ Plan_actions p → PlannedAction_operation a = Op_RemoveTrack →
             PlannedAction_track_index a ≠ Some (Track_index t').
Proof.
  intros [_ Ht]%evaluate_Ok_trace Hp Hs ty Hty t Hin Htt.
  eapply evaluation_trace_elem in Hp as (stamp & phase & oc & _ & He); [|done].
  apply evaluate_phase_protects in He as (Hv & Ha & _); [|unfold Plan_is_skipped; by rewrite Hs].
  destruct Hty as [-> | ->].
  - destruct Hv as (t' & ? & ? & Hsv); [by exists t|]. exists t'. by rewrite survives_spec in Hsv.
  - destruct Ha as (t' & ? & ? & Hsv); [by exists t|]. exists t'. by rewrite survives_spec in Hsv.
Qed.

(** C3: In a plan that is not skipped, the planned container conversion (the
    first one, whose target also names the output file) never leaves a codec
    that is known to be incompatible with the target container: neither the
    (possibly transcoded) codec of a surviving track nor the codec of a
    synthesized track. *)
Theorem evaluate_conversion_compatible stamps policy file caps lookup r p :
  evaluate_with_phase_outputs stamps policy file caps lookup = Ok r →
  p ∈ EvaluationResult_plans r → Plan_skip_reason p = None →
  conversion_safe file (Plan_actions p).
Proof.
  intros [_ Ht]%evaluate_Ok_trace Hp Hs.
  eapply evaluation_trace_elem in Hp as (stamp & phase & oc & _ & He); [|done].
  by apply evaluate_phase_protects in He as (_ & _ & ?); [|unfold Plan_is_skipped; rewrite Hs].
Qed.

(** C40: The whole-policy and the single-phase entry points agree: plan [i] of
    an evaluation is what [evaluate_single_phase_with_phase_outputs] returns
    for its phase when the outcomes of the plans before it are passed. *)
Theorem evaluate_single_phase_agrees stamps policy file caps lookup r i p :
  evaluate_with_phase_outputs stamps policy file caps lookup = Ok r →
  EvaluationResult_plans r !! i = Some p →
  evaluate_single_phase_with_phase_outputs (stamps i) (Plan_phase_name p) policy file
    (outcomes_after ∅ (take i (EvaluationResult_plans r))) caps lookup = Ok (Some p).
Proof.
  intros [_ Ht]%evaluate_Ok_trace Hi. destruct (Ht i p Hi) as (phase & Hf & He).
  unfold evaluate_single_phase_with_phase_outputs. by rewrite Hf, He.
Qed.

(** C39: A phase with [run_if q.modified] (or [q.completed]) is evaluated to a
    plan that is not skipped only if an earlier plan of the same evaluation
    is for phase [q], is not skipped itself, and (for [modified]) has
    actions. *)
Theorem run_if_requires_earlier_plan stamps policy file caps lookup r i p phase run_if :
  evaluate_with_phase_outputs stamps policy file caps lookup = Ok r →
  EvaluationResult_plans r !! i = Some p → Plan_skip_reason p = None →
  find_phase policy (Plan_phase_name p) = Some phase →
  CompiledPhase_run_if phase = Some run_if →
  ∃ j q, j < i ∧ EvaluationResult_plans r !! j = Some q ∧
    Plan_phase_name q = CompiledRunIf_phase run_if ∧ Plan_skip_reason q = None ∧
    (CompiledRunIf_trigger run_if = RunIfTrigger_Modified → Plan_actions q ≠ []).
Proof.
  intros [_ Ht]%evaluate_Ok_trace Hi Hs Hf Hr. destruct (Ht i p Hi) as (phase' & Hf' & He).
  rewrite Hf in Hf'. injection Hf' as <-.
  apply evaluate_phase_ran in He as [Hc _]; [|unfold Plan_is_skipped; by rewrite Hs].
  apply check_skip_None in Hc as (_ & Hrun & _). specialize (Hrun _ Hr).
  unfold run_if_satisfied in Hrun. rewrite outcomes_after_lookup in Hrun.
  destruct (List.find _ (rev (take i _))) as [q|] eqn:Hq; [|done].
  apply find_Some_elem_of in Hq as [Hin Hn%bool_decide_eq_true].
  apply list_elem_of_In, in_rev, list_elem_of_In, list_elem_of_lookup in Hin as [j Hj].
  apply lookup_take_Some in Hj as [Hj Hji]. exists j, q. unfold plan_outcome in Hrun.
  unfold Plan_is_skipped, Plan_is_empty in Hrun.
  destruct (Plan_skip_reason q) eqn:Hsq.
  { by destruct (CompiledRunIf_trigger run_if). }
  split_and!; [done..|]. intros Htr. rewrite Htr in Hrun. by destruct (Plan_actions q).
Qed.
End evaluator_theorems.

(** ** Witnesses on the sample policy *)
#[local] Existing Instance unicode_ascii.
#[local] Existing Instance hash_order_gmap.
#[local] Existing Instance json_display_sample.
#[local] Existing Instance regex_literal.

Lemma evaluate_keeps_video_and_audio_witness :
  ∃ t', t' ∈ MediaFile_tracks sample_file ∧ TrackType_is_audio (Track_track_type t') = true ∧
        ∀ a, a ∈ Plan_actions (sample_plan 0) → PlannedAction_operation a = Op_RemoveTrack →
             PlannedAction_track_index a ≠ Some (Track_index t').
Proof.
  apply (evaluate_keeps_video_and_audio sample_stamps sample_policy sample_file None None
           sample_result (sample_plan 0)) with (t := Track_new 1 TrackType_AudioMain "aac").
  - by vm_compute.
  - apply (list_elem_of_lookup_2 _ 0). by vm_compute.
  - by vm_compute.
  - by right.
  - apply (list_elem_of_lookup_2 _ 1). by vm_compute.
  - by vm_compute.
Defined.

Lemma evaluate_conversion_compatible_witness :
  convert_target (Plan_actions (sample_plan 0)) = Some Container_Mp4 ∧
  conversion_safe sample_file (Plan_actions (sample_plan 0)).
Proof.
  split; [by vm_compute|].
  apply (evaluate_conversion_compatible sample_stamps sample_policy sample_file None None
           sample_result).
  - by vm_compute.
  - apply (list_elem_of_lookup_2 _ 0). by vm_compute.
  - by vm_compute.
Defined.

Lemma evaluate_single_phase_agrees_witness :
  evaluate_single_phase_with_phase_outputs (sample_stamps 1) (Plan_phase_name (sample_plan 1))
    sample_policy sample_file (outcomes_after ∅ (take 1 sample_plans)) None None
  = Ok (Some (sample_plan 1)).
Proof.
  apply (evaluate_single_phase_agrees sample_stamps sample_policy sample_file None None
           sample_result); by vm_compute.
Defined.

Lemma run_if_requires_earlier_plan_witness :
  ∃ j q, j < 1 ∧ sample_plans !! j = Some q ∧ Plan_phase_name q = "clean" ∧
    Plan_skip_reason q = None ∧
    (RunIfTrigger_Modified = RunIfTrigger_Modified → Plan_actions q ≠ []).
Proof.
  eapply (run_if_requires_earlier_plan sample_stamps sample_policy sample_file None None
            sample_result 1 (sample_plan 1) _ (Build_CompiledRunIf "clean" RunIfTrigger_Modified)).
  - by vm_compute.
  - by vm_compute.
  - by vm_compute.
  - vm_compute; reflexivity.
  - by vm_compute.
Defined.

(** ** A skipped plan that has actions *)

(** A transcode that needs NVENC, then a conversion to mp4. *)
Definition skip_phase : PhaseNode := {|
  PhaseNode_name := "encode";
  PhaseNode_extend := false;
  PhaseNode_skip_when := None;
  PhaseNode_depends_on := None;
  PhaseNode_run_if := None;
  PhaseNode_on_error := None;
  PhaseNode_operations :=
    [sample_op (OperationNode_Transcode "video" "hevc"
       [("hw", Value_String "nvenc"); ("hw_fallback", Value_Bool false)]);
     sample_op (OperationNode_Container "mp4")];
  PhaseNode_span := sample_span;
|}.

Definition skip_ast : PolicyAst := {|
  PolicyAst_name := "skip";
  PolicyAst_extends := None;
  PolicyAst_metadata := None;
  PolicyAst_config := None;
  PolicyAst_phases := [skip_phase];
  PolicyAst_span := sample_span;
|}.

Definition skip_policy : CompiledPolicy :=
  match @compile_ast regex_literal value_debug_sample partition_point_linear hash_order_gmap
          skip_ast with
  | Ok policy => policy
  | Err _ => empty_policy
  end.

Definition skip_result : EvaluationResult :=
  match evaluate sample_stamps skip_policy sample_file with
  | Ok r => r
  | Err _ => {| EvaluationResult_plans := [] |}
  end.

Definition skip_plan : Plan :=
  default (Plan_new (sample_stamps 0) sample_file "" "") (EvaluationResult_plans skip_result !! 0).

(** The invariant stated with [Plan::with_skip_reason], that a skipped plan
    has no actions, does not hold of evaluated plans: operations after a
    transcode that skipped the phase still plan their actions. *)
Lemma skipped_plan_may_have_actions :
  ∃ policy r p,
    @compile_ast regex_literal value_debug_sample partition_point_linear hash_order_gmap skip_ast
      = Ok policy ∧
    evaluate sample_stamps policy sample_file = Ok r ∧ EvaluationResult_plans r = [p] ∧
    Plan_is_skipped p = true ∧
    PlannedAction_operation <$> Plan_actions p = [Op_ConvertContainer].
Proof. exists skip_policy, skip_result, skip_plan. split_and!; vm_compute; reflexivity. Qed.
