(* ===== verification/OperationTheorems.v ===== *)
(** * Theorems about the operations of a phase

    What [keep], [remove], [defaults], [transcode] and the executor hints of
    the policy evaluator do to a plan, stated on the tracks of the file. *)
From S2P Require Import Prelude Json Media Plan Compiled CapabilityMap Condition Evaluator.
From S2P Require Import EmitFacts PhaseFacts Samples.

(** [t] is a track of the target that the filter selects. *)
Definition selected `{Unicode, HashOrder, JsonDisplay, RegexCrate} (file : MediaFile)
    (ctx : EvalContext) (target : TrackTarget) (filter : option CompiledFilter) (t : Track) : bool :=
  target_type target (Track_track_type t) && filter_matches_ctx t filter file ctx.

Section operation_theorems.
Context `{Unicode, HashOrder, JsonDisplay, RegexCrate}.

Lemma target_filter_nil file target (f : Track → bool) :
  List.filter f (tracks_for_target file target) = [] ↔
  ∀ t, t ∈ MediaFile_tracks file → target_type target (Track_track_type t) = true → f t = false.
Proof.
  rewrite filter_nil_existsb, <-not_true_iff_false, existsb_elem_of.
  setoid_rewrite elem_of_tracks_for_target. setoid_rewrite <-not_true_iff_false. naive_solver.
Qed.

(** C38: [keep] with distinct track indices. If the filter selects some track
    of the target, exactly the target's other tracks are removed (tracks of
    other targets are untouched) and nothing else is recorded. If it selects
    none, no action is added, and the [AllTracksRemoved] violation is
    recorded just when the file has tracks of the target. *)
Theorem keep_removes_exactly_the_others file ctx target filter p :
  NoDup (Track_index <$> MediaFile_tracks file) →
  ∃ p', emit_keep file ctx target filter p = XOk tt p' ∧
    if existsb (selected file ctx target filter) (MediaFile_tracks file) then
      (∀ t, t ∈ MediaFile_tracks file →
         survives (Plan_actions p') t =
         survives (Plan_actions p) t &&
         (negb (target_type target (Track_track_type t)) || selected file ctx target filter t)) ∧
      Plan_warnings p' = Plan_warnings p ∧
      Plan_safeguard_violations p' = Plan_safeguard_violations p
    else
      Plan_actions p' = Plan_actions p ∧
      (Plan_safeguard_violations p' ≠ Plan_safeguard_violations p ↔
       tracks_for_target file target ≠ []).
Proof.
  intros Hnd. rewrite emit_keep_eq. eexists. split; [done|]. cbv zeta.
  assert (List.filter (λ t, filter_matches_ctx t filter file ctx)
            (tracks_for_target file target) = [] ↔
          existsb (selected file ctx target filter) (MediaFile_tracks file) = false) as Hsel.
  { rewrite target_filter_nil, <-not_true_iff_false, existsb_elem_of.
    unfold selected. setoid_rewrite andb_true_iff. setoid_rewrite <-not_true_iff_false.
    naive_solver. }
  destruct (existsb (selected file ctx target filter) _) eqn:Hex.
  - rewrite bool_decide_false by (rewrite Hsel; naive_solver). simpl. split_and!; [|done|done].
    intros t Ht. rewrite survives_app. f_equal. rewrite survives_removals by done.
    unfold selected. by destruct (target_type _ _), (filter_matches_ctx _ _ _ _).
  - destruct (tracks_for_target file target) as [|t l] eqn:Hl.
    + rewrite bool_decide_false by naive_solver. simpl. rewrite app_nil_r. naive_solver.
    + rewrite bool_decide_true by (split; [done|by apply Hsel]). simpl.
      split; [done|]. split; [done|]. intros _ Heq. apply (f_equal length) in Heq.
      rewrite length_app in Heq. simpl in Heq. lia.
Qed.

(** The guard of [emit_remove]: there are tracks and the filter takes all. *)
Lemma remove_all_spec file ctx target filter :
  let tracks := tracks_for_target file target in
  let m t := filter_matches_ctx t filter file ctx in
  tracks ≠ [] ∧ List.filter (λ t, negb (m t)) tracks = [] ↔
  negb (bool_decide (tracks = [])) && forallb m tracks = true.
Proof.
  intros tracks m. rewrite andb_true_iff, negb_true_iff, bool_decide_eq_false, forallb_elem_of,
    filter_nil_existsb, <-not_true_iff_false, existsb_elem_of. setoid_rewrite negb_true_iff.
  split; intros [? Hn]; (split; [done|]).
  - intros t Ht. destruct (m t) eqn:E; [done|]. destruct Hn. eauto.
  - intros (t & Ht & Hf). by rewrite Hn in Hf.
Qed.

(** [remove] with distinct track indices removes exactly the selected
    tracks, except that when it would remove every track of a video or audio
    target it removes none and records a violation. *)
Lemma remove_removes_exactly_the_selected file ctx target filter p :
  NoDup (Track_index <$> MediaFile_tracks file) →
  ∃ p', emit_remove file ctx target filter p = XOk tt p' ∧
    if (match target with TrackTarget_Video | TrackTarget_Audio => true | _ => false end) &&
       negb (bool_decide (tracks_for_target file target = [])) &&
       forallb (λ t, filter_matches_ctx t filter file ctx) (tracks_for_target file target)
    then Plan_actions p' = Plan_actions p ∧
         Plan_safeguard_violations p' =
           Plan_safeguard_violations p ++
           [SafeguardViolation_new SafeguardKind_AllTracksRemoved (remove_msg file target)
              (Plan_phase_name p)]
    else ∀ t, t ∈ MediaFile_tracks file →
         survives (Plan_actions p') t =
         survives (Plan_actions p) t && negb (selected file ctx target filter t).
Proof.
  intros Hnd. rewrite emit_remove_eq. eexists. split; [done|]. cbv zeta.
  fold (is_critical_target target).
  pose proof (remove_all_spec file ctx target filter) as Hall.
  rewrite <-andb_assoc. destruct (is_critical_target target); simpl;
    [|rewrite andb_false_r; intros t Ht; simpl; rewrite survives_app; f_equal;
      by rewrite survives_removals].
  rewrite andb_true_r. destruct (negb _ && _) eqn:E; simpl.
  - rewrite bool_decide_true by (by apply Hall). done.
  - rewrite bool_decide_false by (rewrite Hall; congruence).
    intros t Ht. simpl. rewrite survives_app. f_equal. by rewrite survives_removals.
Qed.

(** A [defaults] entry reaches its strategy: executing the actions it
    plans leaves every track of the target with the wanted default flag
    (none, the first track, the first track of each language, or all), it
    plans at most one flag change per track, and plans nothing when the flags
    are already as wanted. *)
Lemma defaults_reach_strategy file d p :
  NoDup (Track_index <$> tracks_for_target file (CompiledDefault_target d)) →
  let tracks := tracks_for_target file (CompiledDefault_target d) in
  let wanted := wanted_defaults (CompiledDefault_strategy d) tracks in
  ∃ acts, emit_set_defaults file [d] p = XOk tt (add_actions p acts) ∧
    default_after acts <$> tracks = wanted ∧
    length acts ≤ length tracks ∧
    (Track_is_default <$> tracks = wanted → acts = []).
Proof.
  intros Hnd tracks wanted. destruct (emit_set_defaults_flags file d) as (acts & Hf & He).
  exists acts. split_and!; [apply He|by apply flag_actions_default_after| |].
  - fold tracks wanted in Hf. clearbody tracks wanted.
    clear -Hf. induction Hf as [|t w ts ws a acts Ha _ IH]; [done|].
    rewrite length_app. simpl. unfold flag_action in Ha.
    case_bool_decide; [subst; simpl; lia|]. destruct Ha as [? ->]. simpl. lia.
  - intros Heq. fold tracks wanted in Hf. rewrite <-Heq in Hf. by eapply flag_actions_noop.
Qed.

(** A transcode that names a hardware backend (other than [auto] and
    [none]) with [hw_fallback: false], when no executor reports that backend,
    skips the phase: no action is left in the plan, whatever was planned
    before, and the skip reason names the backend. *)
Lemma transcode_without_required_hw_skips file ctx target codec settings hw p :
  target = TrackTarget_Video ∨ target = TrackTarget_Audio → CTS_hw settings = Some hw →
  hw ≠ "auto" → hw ≠ "none" → CTS_hw_fallback settings = Some false →
  (∀ caps n e raw, EvalContext_capabilities ctx = Some caps →
     CapabilityMap_executors caps !! n = Some e → raw ∈ ECE_hw_accels e →
     normalize_hwaccel raw ≠ hw) →
  ∃ p', emit_transcode file ctx target codec settings p = XOk tt p' ∧
    Plan_actions p' = [] ∧
    Plan_skip_reason p' =
      Some ("hw backend '" +:+ hw +:+ "' unavailable and hw_fallback is false").
Proof.
  intros Ht Hhw Ha Hn Hfb Hcaps.
  assert (hw_unavailable ctx settings = Some hw) as Hu.
  { unfold hw_unavailable. rewrite Hhw, Hfb. simpl.
    rewrite !(bool_decide_false (hw = _)) by done. simpl.
    destruct (EvalContext_capabilities ctx) as [caps|]; [|done].
    unfold CapabilityMap_has_hwaccel. rewrite bool_decide_false; [done|].
    intros (e & raw & (n & Hne)%elem_of_CapabilityMap_values & Hraw & ->)%elem_of_hw_accels.
    by eapply Hcaps. }
  destruct Ht as [-> | ->]; unfold emit_transcode; rewrite Hu; by eexists.
Qed.
End operation_theorems.

(** The executor hint. With reported capabilities, a plan that is not
    skipped and has no hint keeps its place and its actions, and gets the hint
    [n] exactly when it needs some encoder and [n] is the only executor that
    can encode every codec its actions need. *)
Lemma capability_hint_exact `{HashOrder} plans caps i plan :
  CapabilityMap_executors caps ≠ ∅ → plans !! i = Some plan →
  Plan_skip_reason plan = None → Plan_executor_hint plan = None →
  ∃ plan', apply_capability_hints plans caps !! i = Some plan' ∧
    Plan_actions plan' = Plan_actions plan ∧
    ∀ n, Plan_executor_hint plan' = Some n ↔
         omap action_codec (Plan_actions plan) ≠ [] ∧
         ∀ x, can_encode_all caps x (Plan_actions plan) ↔ x = n.
Proof.
  intros Hc Hi Hs Hh. unfold apply_capability_hints, CapabilityMap_is_empty.
  rewrite bool_decide_false by done. rewrite list_lookup_fmap, Hi. simpl. eexists.
  split; [done|]. split.
  - unfold apply_hints_to_plan. case_match; [done|].
    destruct (foldl _ _ _) as [[c|] w]; [|done]. by case_match.
  - apply apply_hints_executor_hint; [unfold Plan_is_skipped; by rewrite Hs|done].
Qed.

(** ** Witnesses *)
#[local] Existing Instance unicode_ascii.
#[local] Existing Instance hash_order_gmap.
#[local] Existing Instance json_display_sample.
#[local] Existing Instance regex_literal.

Definition blank_plan : Plan := Plan_new (sample_stamps 0) sample_file "demo" "clean".

Definition keep_aac : option CompiledFilter := Some (CF_CodecIn ["aac"]).

Lemma sample_indices_distinct : NoDup (Track_index <$> MediaFile_tracks sample_file).
Proof. apply (bool_decide_eq_true_1 _). by vm_compute. Qed.

Lemma keep_removes_exactly_the_others_witness :
  ∃ p', emit_keep sample_file EvalContext_empty TrackTarget_Audio keep_aac blank_plan = XOk tt p' ∧
    ∀ t, t ∈ MediaFile_tracks sample_file →
      survives (Plan_actions p') t =
      survives [] t && (negb (target_type TrackTarget_Audio (Track_track_type t)) ||
                        selected sample_file EvalContext_empty TrackTarget_Audio keep_aac t).
Proof.
  destruct (keep_removes_exactly_the_others sample_file EvalContext_empty TrackTarget_Audio keep_aac
              blank_plan sample_indices_distinct) as (p' & He & Hp').
  exists p'. split; [exact He|]. by destruct Hp' as [Hs _].
Defined.

Lemma remove_removes_exactly_the_selected_witness :
  ∃ p', emit_remove sample_file EvalContext_empty TrackTarget_Audio keep_aac blank_plan = XOk tt p' ∧
    ∀ t, t ∈ MediaFile_tracks sample_file →
      survives (Plan_actions p') t =
      survives [] t && negb (selected sample_file EvalContext_empty TrackTarget_Audio keep_aac t).
Proof.
  apply (remove_removes_exactly_the_selected sample_file EvalContext_empty TrackTarget_Audio keep_aac
           blank_plan sample_indices_distinct).
Defined.

Definition first_audio : CompiledDefault := Build_CompiledDefault TrackTarget_Audio DefaultStrategy_First.

Lemma defaults_reach_strategy_witness :
  ∃ acts, emit_set_defaults sample_file [first_audio] blank_plan =
            XOk tt (add_actions blank_plan acts) ∧
    default_after acts <$> tracks_for_target sample_file TrackTarget_Audio = [true; false].
Proof.
  destruct (defaults_reach_strategy sample_file first_audio blank_plan) as (acts & He & Hd & _).
  { apply (bool_decide_eq_true_1 _). by vm_compute. }
  by exists acts.
Defined.

(** Settings of a transcode that insists on NVENC. *)
Definition nvenc_settings : CompiledTranscodeSettings := {|
  CTS_preserve := []; CTS_crf := None; CTS_preset := None; CTS_bitrate := None;
  CTS_target_vmaf := None; CTS_max_bitrate := None; CTS_min_bitrate := None;
  CTS_sample_strategy := None; CTS_fallback := None; CTS_vmaf_overrides := None;
  CTS_channels := None; CTS_hw := Some "nvenc"; CTS_hw_fallback := Some false;
  CTS_max_resolution := None; CTS_scale_algorithm := None; CTS_hdr_mode := None;
  CTS_preserve_hdr := None; CTS_tonemap := None; CTS_hdr_color_metadata := None;
  CTS_dolby_vision := None; CTS_tune := None; CTS_crop := None; CTS_loudness := None;
|}.

(** An executor that encodes HEVC. *)
Definition hevc_executor : ExecutorCapabilitiesEvent := {|
  ECE_plugin_name := "ffmpeg-executor";
  ECE_codecs := Build_CodecCapabilities [] ["hevc"] [] [];
  ECE_formats := []; ECE_hw_accels := []; ECE_parallel_limits := [];
|}.

Definition hevc_caps : CapabilityMap := CapabilityMap_register CapabilityMap_new hevc_executor.

Lemma capability_hint_exact_witness :
  ∃ plan', apply_capability_hints sample_plans hevc_caps !! 1 = Some plan' ∧
    (Plan_executor_hint plan' = Some "ffmpeg-executor" ↔
     omap action_codec (Plan_actions (sample_plan 1)) ≠ [] ∧
     ∀ x, can_encode_all hevc_caps x (Plan_actions (sample_plan 1)) ↔ x = "ffmpeg-executor").
Proof.
  destruct (capability_hint_exact sample_plans hevc_caps 1 (sample_plan 1))
    as (plan' & ? & _ & Hh).
  - apply (bool_decide_eq_false_1 _). by vm_compute.
  - by vm_compute.
  - by vm_compute.
  - by vm_compute.
  - exists plan'. split; [done|]. apply Hh.
Defined.

(** The biconditional is not vacuous: the sample plan gets the hint. *)
Example sample_hint :
  Plan_executor_hint <$> (apply_capability_hints sample_plans hevc_caps !! 1) =
  Some (Some "ffmpeg-executor").
Proof. by vm_compute. Qed.
