(* ===== verification/CompilerTheorems.v ===== *)
(** * Theorems about the policy compiler

    The ordering of phases, the absence of panics and the connection between a
    policy's source tree and the plans its compiled form evaluates to
    ([crates/voom-dsl/src/compiler.rs] with [plugins/policy-evaluator]). *)
From S2P Require Import Prelude Json Media Plan Compiled CapabilityMap Condition Evaluator.
From S2P Require Import EmitFacts PhaseFacts Codecs Ast TopoSort Compiler CompilerFacts Samples.

(** An element of minimal rank. *)
Lemma min_rank {A} (rank : A → nat) (l : list A) :
  l ≠ [] → ∃ x, x ∈ l ∧ ∀ y, y ∈ l → rank x ≤ rank y.
Proof.
  induction l as [|a l IH]; [done|]. intros _. destruct l as [|b l].
  { exists a. split; [by left|]. intros y Hy. apply list_elem_of_singleton in Hy as ->. done. }
  destruct IH as (x & Hx & Hmin); [done|].
  destruct (decide (rank a ≤ rank x)).
  - exists a. split; [by left|]. intros y [->|Hy]%elem_of_cons; [done|].
    specialize (Hmin y Hy). lia.
  - exists x. split; [by right|]. intros y [->|Hy]%elem_of_cons; [lia|auto].
Qed.

(** Sorting forgets the order of what is sorted. *)
Lemma merge_sort_perm (l k : list string) : l ≡ₚ k → merge_sort String.le l = merge_sort String.le k.
Proof.
  intros Hp. apply (StronglySorted_unique String.le);
    [apply (StronglySorted_merge_sort String.le); apply _..|].
  by rewrite !merge_sort_Permutation.
Qed.

Lemma topo_queue_order_irrel (order1 order2 : HashOrder) deg : @topo_queue order1 deg = @topo_queue order2 deg.
Proof. apply merge_sort_perm. by rewrite !hash_iter_perm. Qed.

(** Compilation is deterministic: the result, error messages included, does
    not depend on the iteration order of the hash maps of the phase sort. *)
Lemma compile_hash_order_irrelevant `{RegexCrate, ValueDebug, PartitionPoint}
    (order1 order2 : HashOrder) ast chain sources :
  @compile_ast_with_composition _ _ _ order1 ast chain sources =
  @compile_ast_with_composition _ _ _ order2 ast chain sources.
Proof.
  unfold compile_ast_with_composition, topological_sort. destruct (topo_graph ast) as [adj deg].
  by rewrite (topo_queue_order_irrel order1 order2).
Qed.

Section compiler_theorems.
Context `{RegexCrate, ValueDebug, PartitionPoint, HashOrder}.

(** C26: [topological_sort] always returns (no [unwrap], subtraction or
    insertion panics, and its loop ends within one iteration per phase), for
    any [partition_point] within bounds and any hash order. An [Ok] order
    lists every phase exactly once and each phase after all its dependencies.
    With distinct phase names, an [Err] names a non-empty set of phases each
    of which depends on an unknown phase or on another phase of the set. *)
Theorem topological_sort_correct ast :
  (∃ order, topological_sort ast = Some (Ok order) ∧ valid_order ast order) ∨
  (∃ e stuck, topological_sort ast = Some (Err (DslError_Compile e)) ∧
     (NoDup (ast_names ast) → blocked ast stuck) ∧
     (e = "phases [" +:+ str_join ", " stuck +:+ "] reference unknown dependencies" ∨
      e = "circular dependency involving phases: [" +:+ str_join ", " stuck +:+ "]")).
Proof.
  destruct (topological_sort_cases ast) as [?|(e & res & Hs & Hb & ->)]; [by left|right].
  eexists _, (topo_stuck ast res). split_and!; [done|done|]. case_match; auto.
Qed.

(** Every acyclic policy is ordered: if the phase names are distinct and
    some rank decreases along every dependency, all of which are phases,
    [topological_sort] succeeds. *)
Lemma topological_sort_complete ast (rank : string → nat) :
  NoDup (ast_names ast) →
  (∀ phase d, phase ∈ PolicyAst_phases ast → d ∈ deps_of phase →
     d ∈ ast_names ast ∧ rank d < rank (PhaseNode_name phase)) →
  ∃ order, topological_sort ast = Some (Ok order) ∧ valid_order ast order.
Proof.
  intros Hnd Hrank. destruct (topological_sort_cases ast) as [?|(e & res & _ & Hb & _)]; [done|].
  destruct (Hb Hnd) as [Hne Hst]. destruct (min_rank rank _ Hne) as (n & Hn & Hmin).
  destruct (Hst n Hn) as (_ & d & Hed & Hd). apply elem_of_ast_edges in Hed as (p & Hp & <- & Hdp).
  destruct (Hrank p d Hp Hdp) as [Hk Hlt]. destruct Hd as [Hd|Hd]; [done|].
  specialize (Hmin d Hd). lia.
Qed.

(** Compilation does not panic on a tree whose track targets and rule
    modes are the ones of the grammar: [unreachable!] arms and the loop of the
    sort included, it returns a policy or a [DslError]. *)
Lemma compile_never_panics ast chain sources :
  ast_ok ast = true →
  (∃ policy, compile_ast_with_composition ast chain sources = Ok policy) ∨
  (∃ e, compile_ast_with_composition ast chain sources = Err (CompileError e)).
Proof.
  intros Hok%(no_panic_compile ast chain sources).
  destruct (compile_ast_with_composition ast chain sources) as [p|[e|msg]]; [eauto..|].
  by destruct (Hok msg).
Qed.

(** A compiled policy keeps the phases of its source: one compiled phase
    per phase node, in source order, with its name and its dependencies, and
    one compiled operation per operation node, in order; the order it records
    is a valid one. *)
Lemma compile_preserves_phases ast chain sources policy :
  compile_ast_with_composition ast chain sources = Ok policy →
  Forall2 (λ node phase,
      CompiledPhase_name phase = PhaseNode_name node ∧
      CompiledPhase_depends_on phase = deps_of node ∧
      Forall2 (λ s op, compile_operation (SpannedOperation_node s) = Ok op)
        (PhaseNode_operations node) (CompiledPhase_operations phase))
    (PolicyAst_phases ast) (CompiledPolicy_phases policy) ∧
  valid_order ast (CompiledPolicy_phase_order policy).
Proof.
  intros Hc. split; [|by eapply compile_valid_order].
  apply compile_Ok in Hc as (Hf & _). eapply Forall2_impl; [exact Hf|].
  simpl. intros node phase (? & ? & _ & ?)%compile_phase_Ok. done.
Qed.

(** Every [u32] written as a number in a policy is accepted and compiled
    to itself. *)
Lemma safe_u32_roundtrip k : (k ≤ u32_MAX)%N → safe_u32 (f64_of_N k) = Some k.
Proof. apply safe_u32_complete. Qed.

(** A number of a policy is compiled to a [u32] only if it is an integer
    within range, and then to that integer: [as u32] neither truncates nor
    saturates. *)
Lemma safe_u32_exact n k :
  f64_valid n = true → safe_u32 n = Some k →
  (k ≤ u32_MAX)%N ∧ f64_integer n = Some (Z.of_N k).
Proof. apply safe_u32_sound. Qed.
End compiler_theorems.

(** C25: From the source tree to the plans: evaluating a compiled policy yields
    exactly one plan per phase of the source, and the plan of a phase comes
    after the plans of all the phases its node depends on, so that no phase is
    skipped because a dependency has not been evaluated. *)
Theorem compiled_policy_evaluates_dependencies_first
    `{Unicode, JsonDisplay, RegexCrate, ValueDebug, PartitionPoint, HashOrder}
    ast policy stamps file caps lookup r :
  compile_ast ast = Ok policy →
  evaluate_with_phase_outputs stamps policy file caps lookup = Ok r →
  Plan_phase_name <$> EvaluationResult_plans r ≡ₚ ast_names ast ∧
  ∀ i p node d,
    EvaluationResult_plans r !! i = Some p →
    node ∈ PolicyAst_phases ast → PhaseNode_name node = Plan_phase_name p → d ∈ deps_of node →
    ∃ j q, j < i ∧ EvaluationResult_plans r !! j = Some q ∧ Plan_phase_name q = d.
Proof.
  intros Hc [Hn Ht]%evaluate_Ok_trace. destruct (compile_valid_order _ _ _ _ Hc) as (Hnd & Hp & Hord).
  destruct (compile_deps_first _ _ _ _ Hc) as [_ Hk]. rewrite Hk in Hn.
  split; [by rewrite Hn|]. intros i p node d Hi Hnode Hname Hd.
  assert (CompiledPolicy_phase_order policy !! i = Some (Plan_phase_name p)) as Hl.
  { by rewrite <-Hn, list_lookup_fmap, Hi. }
  pose proof (take_drop_middle _ _ _ Hl) as Hsplit.
  assert (d ∈ take i (CompiledPolicy_phase_order policy)) as Hin.
  { eapply Hord; [symmetry; exact Hsplit|]. apply elem_of_ast_edges. eauto. }
  apply list_elem_of_lookup in Hin as [j Hj]. apply lookup_take_Some in Hj as [Hj Hlt].
  rewrite <-Hn, list_lookup_fmap in Hj. destruct (EvaluationResult_plans r !! j) as [q|] eqn:Hq; [|done].
  injection Hj as Hj. by exists j, q.
Qed.

(** ** Witnesses *)
#[local] Existing Instance unicode_ascii.
#[local] Existing Instance hash_order_gmap.
#[local] Existing Instance json_display_sample.
#[local] Existing Instance regex_literal.
#[local] Existing Instance value_debug_sample.
#[local] Existing Instance partition_point_linear.

Lemma topological_sort_complete_witness :
  ∃ order, topological_sort sample_ast = Some (Ok order) ∧ valid_order sample_ast order.
Proof.
  apply (topological_sort_complete sample_ast (λ n, if bool_decide (n = "video") then 1 else 0)).
  - apply (bool_decide_eq_true_1 _). by vm_compute.
  - intros phase d Hp Hd. simpl in Hp.
    apply elem_of_cons in Hp as [->|Hp%list_elem_of_singleton]; [|subst; by apply elem_of_nil in Hd].
    apply list_elem_of_singleton in Hd as ->. vm_compute. split; [|lia].
    apply (list_elem_of_lookup_2 _ 1). done.
Defined.

Lemma compile_preserves_phases_witness :
  Forall2 (λ node phase,
      CompiledPhase_name phase = PhaseNode_name node ∧
      CompiledPhase_depends_on phase = deps_of node ∧
      Forall2 (λ s op, compile_operation (SpannedOperation_node s) = Ok op)
        (PhaseNode_operations node) (CompiledPhase_operations phase))
    [sample_video; sample_clean] (CompiledPolicy_phases sample_policy) ∧
  valid_order sample_ast (CompiledPolicy_phase_order sample_policy).
Proof. apply (compile_preserves_phases sample_ast [] ∅ sample_policy). by vm_compute. Defined.

Lemma compiled_policy_evaluates_dependencies_first_witness :
  ∃ j q, j < 1 ∧ sample_plans !! j = Some q ∧ Plan_phase_name q = "clean".
Proof.
  destruct (compiled_policy_evaluates_dependencies_first sample_ast sample_policy sample_stamps
              sample_file None None sample_result) as [_ Hd].
  - by vm_compute.
  - by vm_compute.
  - apply (Hd 1 (sample_plan 1) sample_video "clean").
    + by vm_compute.
    + by left.
    + by vm_compute.
    + by left.
Defined.
