(* ===== verification/KernelTheorems.v ===== *)
(** * Theorems about the kernel

    Registration, capability routing, event delivery and shutdown
    ([crates/voom-kernel]), and the calls that reach the policy evaluator and
    the phase orchestrator through it. *)
From S2P Require Import Prelude Json Media Plan Compiled CapabilityMap Condition Evaluator.
From S2P Require Import EmitFacts PhaseFacts Ast TopoSort Compiler Events Kernel KernelFacts.
From S2P Require Import CallPlugins Samples.

Section kernel_theorems.
Context {W : Type} `{Clock W, HashOrder, BinarySearch, QueryDebug}.
Implicit Types (k : Kernel W) (w : W) (log : list PluginStatRecord) (p : Plugin W).

(** The plugin has a capability that answers the query. *)
Definition answers_query p (query : CapabilityQuery) : bool :=
  existsb (λ c, Capability_matches_query c query) (Plugin_capabilities p).

(** In every kernel built by the registration operations, an exclusive
    or sharded query has at most one owner, and [resolve_capability] finds it:
    it returns [p] exactly when [p] is a registered plugin that answers the
    query. *)
Lemma resolve_capability_unique_owner k query p :
  kernel_reachable k → (∀ kind, query ≠ CapabilityQuery_Competing kind) →
  resolve_capability k query = Ok p ↔
  Kernel_registry k !! Plugin_name p = Some p ∧ answers_query p query = true.
Proof.
  intros Hk%kernel_reachable_ok Hq. unfold resolve_capability, answers_query.
  rewrite (kernel_registry k Hk). split.
  - destruct (List.find _ _) as [s|] eqn:Hf; [|done]. intros [= <-].
    apply find_Some_elem_of in Hf as [Hs Hm]. split; [|done].
    exists s. split_and!; [done| |done]. by apply kernel_named with k.
  - intros [(s & Hs & Hn & <-) Hm]. destruct (List.find _ _) as [t|] eqn:Hf.
    + apply find_Some_elem_of in Hf as [Ht Htm]. do 2 f_equal.
      by eapply (kernel_ok_unique k query).
    + eapply find_none in Hf; [|by apply list_elem_of_In]. by rewrite Hm in Hf.
Qed.

(** [register_plugin] on a reachable kernel never panics. It succeeds
    exactly when no plugin has the name and no claim conflicts, and then the
    new subscriber stands after every subscriber of lower or equal priority
    and before those of higher priority, whose order is unchanged. *)
Lemma register_plugin_spec k p priority :
  kernel_reachable k →
  match register_plugin k p priority with
  | None => False
  | Some (Err _) => ~ claims_free k p ∨ is_Some (Kernel_registry k !! Plugin_name p)
  | Some (Ok k') =>
      claims_free k p ∧ Kernel_registry k !! Plugin_name p = None ∧
      Kernel_registry k' = <[Plugin_name p := p]> (Kernel_registry k) ∧
      Kernel_subscribers k' =
        List.filter (λ s, Subscriber_priority s <=? priority)%Z (Kernel_subscribers k) ++
        Build_Subscriber W (Plugin_name p) priority p ::
        List.filter (λ s, priority <? Subscriber_priority s)%Z (Kernel_subscribers k) ∧
      prio_sorted (Kernel_subscribers k')
  end.
Proof.
  intros Hk%kernel_reachable_ok. unfold register_plugin.
  pose proof (check_collisions_spec k p) as Hcs.
  destruct (check_capability_collisions k p) as [[]|e]; [|left; by rewrite <-Hcs].
  unfold register_and_subscribe, PluginRegistry_register.
  destruct (Kernel_registry k !! Plugin_name p) eqn:Hn; [right; by eexists|].
  pose proof (kernel_sorted k Hk) as Hs.
  destruct (subscribe_plugin (Kernel_subscribers k) p priority) as [subs|] eqn:Hsub;
    [|by rewrite subscribe_plugin_eq in Hsub]. simpl.
  pose proof (subscribe_plugin_sorted _ _ _ _ Hs Hsub).
  rewrite subscribe_plugin_eq in Hsub by done. injection Hsub as <-.
  split_and!; [by apply Hcs|done|done|done|done].
Qed.

(** A plugin that may not be registered (its name is taken or a claim
    conflicts) is rejected before its [init] runs: the shared state and the
    log are untouched and no event is dispatched. *)
Lemma rejected_plugin_is_not_initialized k p unique priority init w log :
  is_Some (Kernel_registry k !! Plugin_name p) ∨ ~ claims_free k p →
  ∃ e, init_and_register k p unique priority init w log = (Some (Err e), w, log).
Proof.
  intros Hrej. unfold init_and_register. destruct (Kernel_registry k !! Plugin_name p); [by eexists|].
  destruct Hrej as [[? ?]|Hrej]; [done|]. rewrite <-check_collisions_spec in Hrej.
  destruct (check_capability_collisions k p) as [[]|e]; [done|by eexists].
Qed.

(** Delivery of an event: the matching handlers run in subscription
    order, one log record each; each answer goes with its record (a handler
    that fails or panics yields a [plugin.error] result and does not stop the
    others); delivery stops early only when a result claims the event, and
    then that result is the last one. *)
Lemma deliver_in_order event subs w log results w' log' :
  deliver (W := W) event (matching_handlers subs event) w log = (results, w', log') →
  ∃ recs, log' = log ++ recs ∧ delivered event (matching_handlers subs event) results recs.
Proof. apply deliver_spec. Qed.

(** Publishing ends after boundedly many handler runs even if handlers
    keep producing events: with [n] subscribers that produce at most [B]
    events per run, one [publish] makes at most
    [cascade_bound n B MAX_CASCADE_DEPTH] invocations. *)
Lemma publish_cascade_bounded B subs event w log results w' log' :
  1 ≤ B → produces_at_most B subs →
  publish (W := W) subs event w log = (results, w', log') →
  length log' ≤ length log + cascade_bound (length subs) B MAX_CASCADE_DEPTH.
Proof. apply publish_recursive_bound. Qed.

(** Shutdown: if no handler panics, the first [shutdown] runs the
    shutdown of every subscriber once, in reverse order, whatever errors they
    return; every later [shutdown] does nothing. *)
Lemma shutdown_once_in_reverse k w :
  Kernel_shutdown_called k = false →
  (∀ s w, s ∈ Kernel_subscribers k →
     fst (Plugin_shutdown (Subscriber_handler s) w) ≠ Panicked) →
  ∃ k' w', shutdown k w = (Returned (Ok tt), k', w') ∧
    w' = foldl shutdown_effect w (reverse (Kernel_subscribers k)) ∧
    Kernel_subscribers k' = Kernel_subscribers k ∧
    ∀ w2, shutdown k' w2 = (Returned (Ok tt), k', w2).
Proof.
  intros Hc Hp. unfold shutdown at 1. rewrite Hc. simpl.
  rewrite shutdown_all_effects by (intros s w1; rewrite elem_of_reverse; apply Hp).
  by do 2 eexists.
Qed.
End kernel_theorems.

Section call_theorems.
Context `{Unicode, HashOrder, JsonDisplay, RegexCrate, CallDebug, BinarySearch, QueryDebug}.
Context {W : Type} `{Clock W} (cache : W → CapabilityMap) (set_cache : CapabilityMap → W → W)
  (stamps : W → nat → Stamp).

(** C4: Evaluating through the kernel, in a build without debug assertions. In a
    reachable kernel in which the policy evaluator is registered, every
    [EvaluatePolicy] call is routed to it and answered without error or panic; one
    [Ok] record is logged, the shared state is untouched, and every plan in the
    answer is for the file, applies to it, and (unless skipped) keeps its video and
    audio and is compatible with its container. *)
Theorem evaluate_call_answers_safely k policy file phase outputs outcomes caps w log :
  let plugin := PolicyEvaluatorPlugin cache set_cache stamps in
  kernel_reachable k → Kernel_registry k !! "policy-evaluator" = Some plugin →
  ∃ r, dispatch_to_capability k (CapabilityQuery_Exclusive "evaluate_policy")
         (Call_EvaluatePolicy policy file phase outputs outcomes caps) w log =
       (Ok (CallResponse_EvaluatePolicy r), w,
        log ++ [Build_PluginStatRecord "policy-evaluator" "call.evaluate_policy"
                  (clock_now w) (clock_elapsed_ms w w) PluginInvocationOutcome_Ok]) ∧
    Forall (plan_safe file) (EvaluationResult_plans r).
Proof.
  intros plugin Hk%kernel_reachable_ok Hreg.
  set (query := CapabilityQuery_Exclusive "evaluate_policy").
  assert (resolve_capability k query = Ok plugin) as Hres.
  { apply (kernel_registry k Hk) in Hreg as (s & Hs & _ & Hp). unfold resolve_capability.
    assert (existsb (λ c, Capability_matches_query c query)
              (Plugin_capabilities (Subscriber_handler s)) = true) as Hm by (by rewrite Hp).
    destruct (List.find _ _) as [t|] eqn:Hf.
    - apply find_Some_elem_of in Hf as [Ht Htm]. rewrite <-Hp. do 2 f_equal.
      by eapply (kernel_ok_unique k query).
    - eapply find_none in Hf; [|by apply list_elem_of_In]. by rewrite Hm in Hf. }
  unfold dispatch_to_capability. rewrite Hres. simpl.
  destruct (PolicyEvaluator_evaluate_safe policy file phase outputs outcomes
              (default (cache w) caps) (stamps w)) as (r & -> & Hr). by eexists.
Qed.
End call_theorems.

(** Orchestration reports each plan in order: phase [i]'s result carries
    the phase name and skip reason of plan [i], is [Skipped] iff the plan is
    skipped, [Pending] iff it is not skipped and has actions; and the file is
    reported modified iff some plan needs execution. *)
Lemma orchestrate_reports_plans plans :
  let r := orchestrate plans in
  OrchestrationResult_plans r = plans ∧
  Forall2 (λ p pr,
      PhaseResult_phase_name pr = Plan_phase_name p ∧
      PhaseResult_skip_reason pr = Plan_skip_reason p ∧
      (PhaseResult_outcome pr = PhaseOutcome_Skipped ↔ Plan_skip_reason p ≠ None) ∧
      (PhaseResult_outcome pr = PhaseOutcome_Pending ↔
         Plan_skip_reason p = None ∧ Plan_actions p ≠ []) ∧
      (PhaseResult_file_modified pr = true ↔ PhaseResult_outcome pr = PhaseOutcome_Pending))
    plans (OrchestrationResult_phase_results r) ∧
  OrchestrationResult_file_modified r = needs_execution r.
Proof.
  simpl. rewrite orchestrate_eq. split_and!; [done| |done]. simpl. apply Forall2_fmap_r.
  apply Forall_Forall2_diag, Forall_forall. intros p _.
  unfold plan_result, plan_pending, Plan_is_skipped, Plan_is_empty. simpl.
  destruct (Plan_skip_reason p), (Plan_actions p); naive_solver.
Qed.

(** ** Witnesses *)
#[local] Existing Instance unicode_ascii.
#[local] Existing Instance hash_order_gmap.
#[local] Existing Instance json_display_sample.
#[local] Existing Instance regex_literal.
#[local] Existing Instance binary_search_linear.
#[local] Instance clock_stopped : Clock CapabilityMap :=
  {| clock_now _ := 0%Z; clock_elapsed_ms _ _ := 0%N |}.
#[local] Instance query_debug_sample : QueryDebug := λ _, "query".
#[local] Instance call_debug_sample : CallDebug := call_kind_str.

(** The evaluator's cache as the whole shared state. *)
Definition sample_evaluator : Plugin CapabilityMap :=
  PolicyEvaluatorPlugin (λ w, w) (λ caps _, caps) (λ _, sample_stamps).

Definition registered (k : Kernel CapabilityMap) (p : Plugin CapabilityMap) (priority : i32)
    : Kernel CapabilityMap :=
  match register_plugin k p priority with
  | Some (Ok k') => k'
  | _ => k
  end.

Definition sample_kernel : Kernel CapabilityMap :=
  registered (registered Kernel_new sample_evaluator 20) PhaseOrchestratorPlugin 10.

Lemma registered_reachable k p priority :
  kernel_reachable k → kernel_reachable (registered k p priority).
Proof.
  intros Hk. unfold registered. destruct (register_plugin k p priority) as [[k'|]|] eqn:Hr; [|done|done].
  by eapply reach_register.
Qed.

Lemma sample_kernel_reachable : kernel_reachable sample_kernel.
Proof. do 2 apply registered_reachable. constructor. Qed.

Lemma resolve_capability_unique_owner_witness :
  resolve_capability sample_kernel (CapabilityQuery_Exclusive "evaluate_policy") =
    Ok sample_evaluator ↔
  Kernel_registry sample_kernel !! Plugin_name sample_evaluator = Some sample_evaluator ∧
  answers_query sample_evaluator (CapabilityQuery_Exclusive "evaluate_policy") = true.
Proof.
  apply (resolve_capability_unique_owner sample_kernel); [exact sample_kernel_reachable|].
  by intros.
Defined.

Lemma register_plugin_spec_witness :
  Subscriber_plugin_name <$> Kernel_subscribers sample_kernel =
    ["phase-orchestrator"; "policy-evaluator"] ∧
  ∃ e, register_plugin sample_kernel sample_evaluator 5 = Some (Err e) ∧
    (~ claims_free sample_kernel sample_evaluator ∨
     is_Some (Kernel_registry sample_kernel !! "policy-evaluator")).
Proof.
  split; [reflexivity|]. eexists. split; [reflexivity|].
  exact (register_plugin_spec sample_kernel sample_evaluator 5 sample_kernel_reachable).
Defined.

Lemma rejected_plugin_is_not_initialized_witness :
  ∃ e, init_and_register sample_kernel sample_evaluator true 5
         (λ w, (Ok (sample_evaluator, []), CapabilityMap_new)) CapabilityMap_new [] =
       (Some (Err e), CapabilityMap_new, []).
Proof.
  apply (rejected_plugin_is_not_initialized sample_kernel sample_evaluator).
  left. by eexists.
Defined.

(** An event that the evaluator handles. *)
Definition sample_event : Event :=
  Event_ExecutorCapabilities {|
    ECE_plugin_name := "ffmpeg-executor";
    ECE_codecs := Build_CodecCapabilities [] ["hevc"] [] [];
    ECE_formats := []; ECE_hw_accels := []; ECE_parallel_limits := [];
  |}.

Definition sample_record : PluginStatRecord :=
  Build_PluginStatRecord "policy-evaluator" "executor.capabilities" 0 0
    PluginInvocationOutcome_Skipped.

Lemma deliver_in_order_witness :
  ∃ recs, [sample_record] = [] ++ recs ∧
    delivered sample_event (matching_handlers (Kernel_subscribers sample_kernel) sample_event)
      [] recs.
Proof.
  eapply (deliver_in_order sample_event (Kernel_subscribers sample_kernel) CapabilityMap_new []).
  reflexivity.
Defined.

Lemma sample_kernel_quiet : produces_at_most 1 (Kernel_subscribers sample_kernel).
Proof.
  intros s event w r w' Hs. change (s ∈ [Build_Subscriber _ "phase-orchestrator" 10
    PhaseOrchestratorPlugin; Build_Subscriber _ "policy-evaluator" 20 sample_evaluator]) in Hs.
  apply elem_of_cons in Hs as [->|Hs%list_elem_of_singleton]; [done|]. subst. by destruct event.
Qed.

Lemma publish_cascade_bounded_witness :
  length [sample_record] ≤ length (A := PluginStatRecord) [] + cascade_bound 2 1 MAX_CASCADE_DEPTH.
Proof.
  eapply (publish_cascade_bounded 1 (Kernel_subscribers sample_kernel) sample_event
            CapabilityMap_new [] []).
  - lia.
  - exact sample_kernel_quiet.
  - reflexivity.
Defined.

Lemma shutdown_once_in_reverse_witness :
  ∃ k' w', shutdown sample_kernel CapabilityMap_new = (Returned (Ok tt), k', w') ∧
    w' = foldl shutdown_effect CapabilityMap_new (reverse (Kernel_subscribers sample_kernel)) ∧
    Kernel_subscribers k' = Kernel_subscribers sample_kernel ∧
    ∀ w2, shutdown k' w2 = (Returned (Ok tt), k', w2).
Proof.
  apply (shutdown_once_in_reverse sample_kernel CapabilityMap_new); [reflexivity|].
  intros s w Hs. change (s ∈ [Build_Subscriber _ "phase-orchestrator" 10
    PhaseOrchestratorPlugin; Build_Subscriber _ "policy-evaluator" 20 sample_evaluator]) in Hs.
  apply elem_of_cons in Hs as [->|Hs%list_elem_of_singleton]; [done|by subst].
Defined.

Lemma evaluate_call_answers_safely_witness :
  ∃ r, dispatch_to_capability sample_kernel (CapabilityQuery_Exclusive "evaluate_policy")
         (Call_EvaluatePolicy sample_policy sample_file None None None None) CapabilityMap_new [] =
       (Ok (CallResponse_EvaluatePolicy r), CapabilityMap_new,
        [Build_PluginStatRecord "policy-evaluator" "call.evaluate_policy"
           (clock_now CapabilityMap_new) (clock_elapsed_ms CapabilityMap_new CapabilityMap_new)
           PluginInvocationOutcome_Ok]) ∧
    Forall (plan_safe sample_file) (EvaluationResult_plans r).
Proof.
  apply (evaluate_call_answers_safely (λ w, w) (λ caps _, caps) (λ _, sample_stamps) sample_kernel
           sample_policy sample_file None None None None CapabilityMap_new []).
  - exact sample_kernel_reachable.
  - reflexivity.
Defined.
