(* ===== verification/DomainTheorems.v ===== *)
(** * Theorems about the domain helpers

    Codec names, conditions and filters, hardware selection, executor reports
    and the textual forms of the domain types ([crates/voom-domain]). *)
From S2P Require Import Prelude Json Media Plan Compiled CapabilityMap Condition Evaluator.
From S2P Require Import EmitFacts Codecs Ast TopoSort Compiler Validator ValueFacts Events Kernel.
From S2P Require Import Samples.

Lemma filter_andb {A} (f g : A → bool) l :
  List.filter (λ x, f x && g x) l = List.filter g (List.filter f l).
Proof. induction l as [|x l IH]; simpl; [done|]. destruct (f x); simpl; by rewrite IH. Qed.

Lemma filter_true {A} (l : list A) : List.filter (λ _, true) l = l.
Proof. induction l as [|x l IH]; simpl; by f_equal. Qed.

(** ** Codecs *)

(** The name is listed in one of the tables. *)
Definition known_alias (alias : string) : Prop :=
  is_Some (VIDEO_CODECS !! alias) ∨ is_Some (AUDIO_CODECS !! alias) ∨
  is_Some (SUBTITLE_CODECS !! alias).

Definition entry_listed (k c : string) : bool := bool_decide (normalize_codec k = Some c).

Lemma normalize_codec_listed alias c :
  VIDEO_CODECS !! alias = Some c ∨ AUDIO_CODECS !! alias = Some c ∨
  SUBTITLE_CODECS !! alias = Some c → normalize_codec alias = Some c.
Proof.
  intros [Hc|[Hc|Hc]]; apply (codec_table_check _ entry_listed) in Hc;
    try (by apply bool_decide_eq_true in Hc); by vm_compute.
Qed.

Lemma elem_of_push_new l acc n : n ∈ foldl push_new acc l ↔ n ∈ acc ∨ n ∈ l.
Proof.
  revert acc; induction l as [|x l IH]; intros acc; simpl; [set_solver|].
  rewrite IH. unfold push_new. case_bool_decide; set_solver.
Qed.

Lemma ALL_CODEC_NAMES_canonical `{HashOrder} c : c ∈ ALL_CODEC_NAMES → normalize_codec c = Some c.
Proof.
  unfold ALL_CODEC_NAMES. rewrite merge_sort_Permutation, !elem_of_push_new, !list_elem_of_fmap.
  setoid_rewrite hash_iter_perm. intros Hc.
  assert (∃ alias, normalize_codec alias = Some c) as [alias Ha].
  { destruct Hc as [[[?|([a v] & -> & Hc)]|([a v] & -> & Hc)]|([a v] & -> & Hc)];
      [set_solver|exists a..]; apply elem_of_map_to_list in Hc; apply normalize_codec_listed; auto. }
  by apply normalize_codec_type in Ha as [? _].
Qed.

Lemma elem_of_tables `{HashOrder} alias c :
  (alias, c) ∈ hash_iter VIDEO_CODECS ++ hash_iter AUDIO_CODECS ++ hash_iter SUBTITLE_CODECS ↔
  VIDEO_CODECS !! alias = Some c ∨ AUDIO_CODECS !! alias = Some c ∨ SUBTITLE_CODECS !! alias = Some c.
Proof. by rewrite !elem_of_app, !hash_iter_perm, !elem_of_map_to_list. Qed.

(** [edit_distance] is the Levenshtein distance: some script of that many
    insertions, deletions and substitutions turns one name into the other, and
    no script is shorter; it is 0 exactly on equal names, and symmetric. The
    validator's own full-matrix version, which counts characters, agrees with it
    on ASCII names. *)
Lemma edit_distance_minimal s t :
  let a := String.list_ascii_of_string s in
  let b := String.list_ascii_of_string t in
  edits a b (edit_distance s t) ∧ (∀ k, edits a b k → edit_distance s t ≤ k) ∧
  (edit_distance s t = 0 ↔ s = t) ∧ edit_distance s t = edit_distance t s ∧
  (is_ascii s && is_ascii t = true → matrix_edit_distance s t = edit_distance s t).
Proof.
  intros a b. split_and!; [..|intros [? ?]%andb_prop; by apply matrix_edit_distance_ascii];
    rewrite !edit_distance_lev; fold a b; [apply lev_edits|intros k; apply lev_minimal| |].
  - split.
    + intros H0. pose proof (lev_edits a b) as He. apply edits_0 in He; [|done].
      apply (f_equal String.string_of_list_ascii) in He. unfold a, b in He.
      by rewrite !String.string_of_list_ascii_of_string in He.
    + intros <-. apply Nat.le_0_r, lev_minimal, edits_refl.
  - apply lev_unique; [apply edits_sym, lev_edits|]. intros l Hl. apply lev_minimal.
    by apply edits_sym.
Qed.

(** [normalize_codec] is canonical: its result is a fixed point, has the
    track type of the name it came from (which is known), and the case of the
    name does not matter. *)
Lemma normalize_codec_canonical name c :
  normalize_codec name = Some c →
  normalize_codec c = Some c ∧ codec_type c = codec_type name ∧ is_Some (codec_type name) ∧
  normalize_codec (to_ascii_lowercase name) = Some c.
Proof.
  intros Hc. destruct (normalize_codec_type name c Hc) as (? & ? & ?).
  split_and!; [done..|]. by rewrite normalize_codec_lower.
Qed.

(** [suggest_codec] proposes a nearest codec, whatever the iteration order
    of the tables: a suggestion is the canonical form of a known name within
    distance 3 to which no known name is nearer, and without a suggestion every
    known name is farther than 3. *)
Lemma suggest_codec_nearest `{HashOrder} name :
  let distance alias := edit_distance (to_ascii_lowercase name) alias in
  match suggest_codec name with
  | Some c => ∃ alias, normalize_codec alias = Some c ∧ distance alias ≤ 3 ∧
                       ∀ alias', known_alias alias' → distance alias ≤ distance alias'
  | None => ∀ alias, known_alias alias → 3 < distance alias
  end.
Proof.
  intros distance. unfold suggest_codec.
  match goal with |- context [foldl _ None ?l] => set (cands := l) end.
  assert (∀ alias c, (alias, c) ∈ cands → normalize_codec alias = Some c) as Hcand.
  { intros alias c [(x & [= -> ->] & Hc)%list_elem_of_fmap|Hc%elem_of_tables]%elem_of_app;
      [by apply ALL_CODEC_NAMES_canonical|by apply normalize_codec_listed]. }
  assert (∀ alias, known_alias alias → ∃ c, (alias, c) ∈ cands) as Hknown.
  { intros alias [[c Hc]|[[c Hc]|[c Hc]]]; exists c; apply elem_of_app; right;
      apply elem_of_tables; auto. }
  pose proof (suggest_fold_spec (to_ascii_lowercase name) cands None) as Hs.
  destruct (foldl _ None cands) as [[c d]|]; simpl in *.
  - destruct Hs as ([?|(Hd & alias & Hin & <-)] & Hmin & _); [done|].
    exists alias. split_and!; [by eapply Hcand|done|]. intros alias' Hk.
    destruct (Hknown alias' Hk) as [c' Hc']. destruct (Hmin alias' c' Hc'); unfold distance; lia.
  - intros alias Hk. destruct (Hknown alias Hk) as [c Hc]. by apply (proj2 Hs alias c).
Qed.

(** ** Conditions and capabilities *)
Section conditions.
Context `{Unicode, HashOrder, JsonDisplay, RegexCrate}.

(** A condition that reads only the file (its fields, tracks, plugin
    metadata and tags) has the same value in every evaluation context:
    capabilities and earlier phases cannot influence it. *)
Lemma condition_context_independent file ctx1 ctx2 c :
  condition_closed c = true → evaluate_condition c file ctx1 = evaluate_condition c file ctx2.
Proof. apply evaluate_condition_closed. Qed.

(** [exists] holds exactly when a track of the target matches the filter,
    and [count] compares the number of such tracks. *)
Lemma exists_and_count_conditions file ctx target filter op n :
  let matching := List.filter (λ t, target_type target (Track_track_type t) &&
                                    filter_matches_ctx t filter file ctx)
                              (MediaFile_tracks file) in
  (evaluate_condition (CC_Exists target filter) file ctx = true ↔ matching ≠ []) ∧
  evaluate_condition (CC_Count target filter op n) file ctx =
    compare_f64 (f64_of_Z (Z.of_nat (length matching))) op n.
Proof.
  intros matching. split.
  - rewrite evaluate_exists_filter. unfold matching. rewrite filter_nil_existsb.
    rewrite not_false_iff_true, existsb_elem_of. setoid_rewrite andb_true_iff. naive_solver.
  - simpl. unfold matching.
    rewrite filter_andb, <-tracks_for_target_filter. unfold filter_matches_ctx.
    destruct filter as [f|]; [done|]. by rewrite filter_true.
Qed.
End conditions.

(** An executor reports the backend. *)
Definition reports_hwaccel (m : CapabilityMap) (backend : string) : Prop :=
  ∃ n e raw, CapabilityMap_executors m !! n = Some e ∧ raw ∈ ECE_hw_accels e ∧
    normalize_hwaccel raw = backend.

(** [best_hwaccel] is the first backend of the priority list that some
    executor reports, or ["none"] when none is reported; the iteration order of
    the executors does not matter. *)
Lemma best_hwaccel_first_reported `{HashOrder} m :
  let priority := ["nvenc"; "qsv"; "vaapi"; "videotoolbox"] in
  (CapabilityMap_best_hwaccel m = "none" ∧ ∀ b, b ∈ priority → ~ reports_hwaccel m b) ∨
  (∃ pre post, priority = pre ++ CapabilityMap_best_hwaccel m :: post ∧
     reports_hwaccel m (CapabilityMap_best_hwaccel m) ∧
     ∀ b, b ∈ pre → ~ reports_hwaccel m b).
Proof.
  intros priority. change priority with hwaccel_priority. clear priority.
  assert (∀ b, b ∈ CapabilityMap_hw_accels m ↔ reports_hwaccel m b) as Hb.
  { intros b. rewrite elem_of_hw_accels. unfold reports_hwaccel.
    setoid_rewrite elem_of_CapabilityMap_values. naive_solver. }
  unfold CapabilityMap_best_hwaccel. generalize hwaccel_priority as l.
  induction l as [|c l IH]; simpl; [left; set_solver|].
  destruct (bool_decide (c ∈ CapabilityMap_hw_accels m)) eqn:Hc.
  - right. exists [], l. apply bool_decide_eq_true, Hb in Hc. set_solver.
  - apply bool_decide_eq_false in Hc. rewrite Hb in Hc.
    destruct IH as [[Hnone Hn]|(pre & post & Hl & Hr & Hn)].
    + left. split; [done|]. intros b [->|?]%elem_of_cons; auto.
    + right. exists (c :: pre), post. split_and!; [by rewrite Hl at 1|done|].
      intros b [->|?]%elem_of_cons; auto.
Qed.

(** A field [phase.f] of an earlier phase with a recorded output resolves
    exactly for the fields of [PHASE_OUTPUT_FIELDS], [outcome] only once the
    phase has one. *)
Lemma phase_field_resolves `{Unicode, HashOrder, JsonDisplay} ctx lookup phase out field :
  EvalContext_phase_output_lookup ctx = Some lookup → lookup phase = Some out →
  is_Some (resolve_phase_field ctx phase [field]) ↔
  field ∈ PHASE_OUTPUT_FIELDS ∧ (field = "outcome" → is_Some (PhaseOutput_outcome out)).
Proof. apply resolve_phase_field_dom. Qed.

(** ** Executor reports and textual forms *)

(** The report an executor makes of a plan always claims the event, so no
    other executor runs the plan; it is an error report exactly when execution
    failed as a whole or every action of a non-empty plan failed. *)
Lemma plan_execution_report `{ActionResultsJson} name outcome :
  EventResult_claimed (EventResult_from_plan_execution name outcome) = true ∧
  (is_Some (EventResult_execution_error (EventResult_from_plan_execution name outcome)) ↔
   match outcome with
   | Ok results => results ≠ [] ∧ Forall (λ r, ActionResult_success r = false) results
   | Err _ => True
   end).
Proof. apply from_plan_execution_error. Qed.

(** The textual forms of operations and track types are bijective with
    their values, and container names parse back; an extension is recognised,
    in any case, exactly when it is listed in [known_extensions]. *)
Lemma domain_names_roundtrip :
  (∀ s o, OperationType_parse s = Some o ↔ OperationType_as_str o = s) ∧
  (∀ s t, TrackType_from_str s = Ok t ↔ TrackType_as_str t = s) ∧
  (∀ c, Container_from_extension (Container_as_str c) = c) ∧
  (∀ ext, Container_from_extension ext ≠ Container_Other ↔
          to_ascii_lowercase ext ∈ Container_known_extensions).
Proof.
  split_and!.
  - intros s o. split; [apply OperationType_as_str_parse|]. intros <-. apply OperationType_parse_as_str.
  - intros s t. split; [apply TrackType_as_str_from_str|]. intros <-. apply TrackType_from_str_as_str.
  - apply Container_from_extension_as_str.
  - apply Container_known_extensions_complete.
Qed.

(** ** Witnesses *)
#[local] Existing Instance unicode_ascii.
#[local] Existing Instance hash_order_gmap.
#[local] Existing Instance json_display_sample.
#[local] Existing Instance regex_literal.

Lemma normalize_codec_canonical_witness :
  normalize_codec "hevc" = Some "hevc" ∧ codec_type "hevc" = codec_type "X265" ∧
  is_Some (codec_type "X265") ∧ normalize_codec (to_ascii_lowercase "X265") = Some "hevc".
Proof. apply (normalize_codec_canonical "X265" "hevc"). by vm_compute. Defined.

(** At least two audio tracks, in an mkv file. *)
Definition sample_condition : CompiledCondition :=
  CC_And [CC_Count TrackTarget_Audio None Cmp_Ge (f64_of_Z 2);
          CC_FieldCompare ["file"; "container"] Cmp_Eq (JString "mkv")].

Lemma condition_context_independent_witness :
  evaluate_condition sample_condition sample_file EvalContext_empty =
  evaluate_condition sample_condition sample_file
    {| EvalContext_capabilities := Some CapabilityMap_new;
       EvalContext_phase_output_lookup := Some (λ _, None) |}.
Proof. by apply (condition_context_independent sample_file). Defined.

(** The recorded output of a phase that has not finished. *)
Definition sample_output : PhaseOutput := {|
  PhaseOutput_completed := false; PhaseOutput_modified := false; PhaseOutput_outcome := None;
  PhaseOutput_error_count := 0; PhaseOutput_warning_count := 0;
|}.

(** ** A field that depends on the iteration order *)

(** Another order in which a hash map may list its entries. *)
Lemma reverse_map_to_list_perm {V} (m : gmap string V) : reverse (map_to_list m) ≡ₚ map_to_list m.
Proof. apply reverse_Permutation. Qed.

Definition hash_order_reverse : HashOrder := {|
  hash_iter V m := reverse (map_to_list m);
  hash_iter_perm V m := reverse_map_to_list_perm m;
|}.

(** An executor that reports one hardware backend. *)
Definition hw_executor (name accel : string) : ExecutorCapabilitiesEvent := {|
  ECE_plugin_name := name;
  ECE_codecs := Build_CodecCapabilities [] [] [] [];
  ECE_formats := []; ECE_hw_accels := [accel]; ECE_parallel_limits := [];
|}.

Definition two_backends : CapabilityMap :=
  CapabilityMap_register (CapabilityMap_register CapabilityMap_new (hw_executor "a" "cuda"))
    (hw_executor "b" "vaapi").

(** The value of [system.hwaccels] is not determined by the reported
    capabilities: when two executors report different backends, two iteration
    orders of the executor map give two different lists (the same backends, in
    a different order), so a policy that reads the field may evaluate
    differently from run to run. *)
Lemma hwaccels_field_depends_on_order :
  let ctx := EvalContext_with_capabilities (Some two_backends) in
  @resolve_field unicode_ascii hash_order_gmap sample_file ["system"; "hwaccels"] ctx ≠
  @resolve_field unicode_ascii hash_order_reverse sample_file ["system"; "hwaccels"] ctx.
Proof. by vm_compute. Qed.
