(* ===== verification/DslTheorems.v ===== *)
(** * Theorems on the policy language front end

    The validator (graph checks, settings), policy composition, the formatter,
    the pipeline and the policy map, with witnesses. *)
From S2P Require Import Prelude Media Plan Compiled Codecs Ast TopoSort Compiler CompilerFacts.
From S2P Require Import PhaseGraph Validator ValueFacts Grammar Parser ParserFacts Composition.
From S2P Require Import CompositionFacts Formatter.
From S2P Require Import Pipeline Transitions FfmpegCommand PolicyMap Samples.

(** ** The phase graph *)

(** C33: The depth first search of the validator always finishes without panicking.
    It reports no error exactly when no phase depends on itself through any
    number of dependencies, and every error it reports names a genuine cycle: a
    sequence of phases, each depending on the next, that starts and ends at a
    declared phase and repeats no other. *)
Theorem cycle_detection_exact ast :
  ∃ es, validate_cycle_detection ast = Some es ∧
    (es = [] ↔ ∀ n, ¬ tc (dep (cycle_adj (PolicyAst_phases ast))) n n) ∧
    Forall (reports_cycle (PolicyAst_phases ast)) es.
Proof.
  destruct (validate_cycle_detection_ok ast) as (es & Hes & Hall & Hg). exists es.
  split_and!; [done| |done]. split.
  - intros Hnil n Hc. pose proof (proj1 Hg Hnil) as Hgr.
    assert (n ∈ PhaseNode_name <$> PolicyAst_phases ast) as (p & -> & Hp)%list_elem_of_fmap.
    { inversion Hc; subst; by eapply dep_declared. }
    exact (grounded_no_cycle _ _ (Hgr p Hp) Hc).
  - intros Hno. destruct es as [|e es]; [done|]. apply Forall_cons in Hall as [He _].
    destruct (reports_cycle_tc _ _ He) as (n & Hn). by destruct (Hno n).
Qed.

(** The reachability loop of the validator ends within one pass more than there
    are phases, and computes the least set of phases that contains every phase
    all of whose declared dependencies it contains. *)
Lemma reachability_least_fixed_point ast :
  ∃ R, reachable_phases ast = Some R ∧
    (∀ p, p ∈ PolicyAst_phases ast →
      (∀ d, d ∈ deps_of p → d ∈ ast_names ast → d ∈ R) → PhaseNode_name p ∈ R) ∧
    (∀ S : gset string,
      (∀ p, p ∈ PolicyAst_phases ast →
        (∀ d, d ∈ deps_of p → d ∈ ast_names ast → d ∈ S) → PhaseNode_name p ∈ S) →
      R ⊆ S).
Proof.
  destruct (reachable_phases_ok ast) as (R & HR & Hroot). exists R. split_and!; [done| |].
  - intros p Hp Hd. apply Hroot. constructor; [done|]. intros d Hdd Hdn%elem_of_list_to_set.
    apply Hroot. by apply Hd.
  - intros S HS n Hn%Hroot. induction Hn as [p Hp _ IH]. apply HS; [done|].
    intros d Hd Hdn. apply IH; [done|]. by apply elem_of_list_to_set.
Qed.

(** The two graph checks of the validator agree: when phase names are distinct,
    the search for cycles is silent exactly when every phase is reachable. *)
Lemma cycle_check_agrees_with_reachability ast :
  NoDup (ast_names ast) →
  validate_cycle_detection ast = Some [] ↔ validate_reachability ast = Some [].
Proof.
  intros Hnd. destruct (validate_cycle_detection_ok ast) as (es & -> & _ & Hg).
  destruct (validate_reachability_ok ast) as (es' & -> & Hr).
  rewrite !(inj_iff Some), Hg, Hr. apply forall_proper; intros p. split; intros Hp Hin;
    (apply rooted_grounded; [done| |by apply Hp]); apply list_elem_of_fmap; eauto.
Qed.

(** ** Validation and compilation *)

(** C30: A policy that passes validation compiles: the compiler returns a policy
    whose phase order is a permutation of the phases with dependencies first. The
    side condition covers the two parts of a tree that the validator does not
    visit: the loudness preset of a [keep] and the [create_if] condition of a
    synthesized track. *)
Theorem validated_policy_compiles `{RegexCrate, ValueDebug, PartitionPoint, HashOrder} ast :
  validate ast = Some (Ok tt) → unchecked_parts_ok ast = true →
  ∃ policy, compile_ast ast = Ok policy ∧ valid_order ast (CompiledPolicy_phase_order policy).
Proof.
  intros Hv Hu. destruct (validated_compiles ast [] ∅ Hv Hu) as [policy Hp].
  exists policy. split; [done|]. by eapply compile_valid_order.
Qed.


(** ** Composition *)

(** Merging a child policy into its parent, both with distinct phase names: an
    [extend] phase without a parent phase is the only error; otherwise the result
    has the parent's phases in order, each replaced by the child's phase of that
    name or extended with the child's operations after its own, then the child's
    remaining phases, with names still distinct, a source recorded for exactly
    the phases of the result and the child's configuration preferred. *)
Lemma merge_policy_spec parent child sid :
  let ps := ResolvedPolicyAst_phases parent in
  let cs := PolicyAst_phases child in
  NoDup (PhaseNode_name <$> ps) → NoDup (PhaseNode_name <$> cs) →
  (∃ e c, merge_policy parent child sid = Err e ∧ c ∈ cs ∧ PhaseNode_extend c = true ∧
          PhaseNode_name c ∉ PhaseNode_name <$> ps) ∨
  (∃ r, merge_policy parent child sid = Ok r ∧
    (∀ c, c ∈ cs → PhaseNode_name c ∉ PhaseNode_name <$> ps → PhaseNode_extend c = false) ∧
    (∀ i p, ps !! i = Some p → ∃ q, ResolvedPolicyAst_phases r !! i = Some q ∧
      PhaseNode_name q = PhaseNode_name p ∧
      (∀ c, c ∈ cs → PhaseNode_name c = PhaseNode_name p →
        (PhaseNode_extend c = true →
           PhaseNode_operations q = PhaseNode_operations p ++ PhaseNode_operations c) ∧
        (PhaseNode_extend c = false → q = c)) ∧
      (PhaseNode_name p ∉ PhaseNode_name <$> cs → q = clear_extend p)) ∧
    drop (length ps) (ResolvedPolicyAst_phases r) =
      List.filter (λ c, negb (bool_decide (PhaseNode_name c ∈ PhaseNode_name <$> ps))) cs ∧
    NoDup (PhaseNode_name <$> ResolvedPolicyAst_phases r) ∧
    (∀ n, is_Some (ResolvedPolicyAst_phase_sources r !! n) ↔
          n ∈ PhaseNode_name <$> ResolvedPolicyAst_phases r)).
Proof.
  intros ps cs Hps Hcs. pose proof (merge_policy_cases parent child sid Hps Hcs) as Hcase.
  fold ps cs in Hcase. destruct (List.find PhaseNode_extend (unmatched cs ps)) as [c|] eqn:Hf.
  - left. apply find_Some_elem_of in Hf as [[Hin Hn]%filter_elem_of Hx].
    apply negb_true_iff, bool_decide_eq_false in Hn. by eexists _, c.
  - right. destruct Hcase as (r & Hr & Hp & Hs). exists r.
    assert (∀ c, c ∈ unmatched cs ps → PhaseNode_extend c = false) as Hun.
    { intros c Hc. eapply find_none in Hf; [done|by apply list_elem_of_In]. }
    split_and!; [done| | | | |done].
    + intros c Hc Hn. apply Hun, filter_elem_of. by rewrite bool_decide_false.
    + intros i p Hi. exists (merged_phase cs p). rewrite Hp, lookup_app_l.
      2:{ rewrite length_fmap. by eapply lookup_lt_Some. }
      rewrite list_lookup_fmap, Hi. split_and!; [done|apply merged_phase_name| |].
      * intros c Hc Hname. by apply merged_phase_child.
      * intros Hn. by apply merged_phase_inherited.
    + rewrite Hp, drop_app_length' by (by rewrite length_fmap).
      rewrite <-(list_fmap_id (List.filter _ cs)). apply list_fmap_ext.
      intros i c Hc. apply clear_extend_id, Hun. by eapply list_elem_of_lookup_2.
    + by eapply merge_policy_names.
Qed.

(** C34: Resolution of a policy file always ends, whatever its [extends] clauses
    say: if only finitely many files can be read, a chain of parents is never
    longer than the number of sources, a cycle is an error, and a resolved policy
    has no [extends] clause and no [extend] phase left. *)
Theorem resolve_policy_file_terminates `{Pest} `{PolicySources} (files : list PathBuf) path fuel :
  (∀ p s, read_to_string p = Ok s → p ∈ files) →
  length BUNDLED_POLICIES + length files ≤ fuel →
  ∃ r, resolve_policy_file fuel path = Some r ∧
    ∀ res, r = Done res →
      PolicyAst_extends (ResolvedPolicyAst_ast res) = None ∧
      Forall (λ p, PhaseNode_extend p = false) (ResolvedPolicyAst_phases res) ∧
      length (ResolvedPolicyAst_extends_chain res) < length BUNDLED_POLICIES + length files.
Proof.
  intros Hread Hfuel. unfold resolve_policy_file.
  destruct (canonicalize_existing_path path) as [p|]; simpl; [|by eexists].
  destruct (read_policy_file p) as [source|] eqn:Hp; simpl; [|by eexists].
  destruct (parse_source source) as [ast|e|]; simpl; [|by eexists..].
  assert (length (known_sources files) = length BUNDLED_POLICIES + length files) as Hlen.
  { unfold known_sources. by rewrite length_app, !length_fmap. }
  destruct (resolve_ast_total files fuel ast (PolicySourceId_File p) (path_parent p)
    AllowFiles_Yes [PolicySourceId_File p]) as (r & -> & Hr).
  - done.
  - split; [apply NoDup_singleton|]. intros x ->%list_elem_of_singleton. by eapply file_known.
  - rewrite Hlen. simpl. lia.
  - exists r. split; [done|]. intros res Heq. destruct (Hr res Heq) as ([? ?] & _ & Hc).
    rewrite Hlen in Hc. simpl in Hc. split_and!; [done|done|lia].
Qed.

(** ** The parser *)

(** C22: The parser never panics on a plainly written source, whatever tree of the
    grammar the library makes of it: none of its [unwrap]s and [expect]s fails, it
    returns a syntax tree or an error, and a tree names only track targets that the
    compiler knows. Plainly written means that, in that tree, [track] in a query is
    followed by a space or nothing, no field path starts with [exists] or [count]
    and a blank, colon or parenthesis, and the targets of [actions] and [transcode]
    are words of their own. A source of more than 1 MiB, or one that the library
    rejects, is a parse error in any case. *)
Theorem parse_policy_sound `{PestLaws} input :
  plainly_written input →
  ((∃ ast, parse_policy input = Done ast ∧ ast_ok ast = true) ∨
   (∃ e, parse_policy input = Fails e)) ∧
  ((∃ e, pest_parse input = Err e) ∨ (MAX_POLICY_SIZE < N.of_nat (String.length input))%N →
     ∃ line col msg, parse_policy input = Fails (DslError_parse line col msg)).
Proof.
  intros Hw%parse_policy_ok. split.
  - destruct (parse_policy input) as [ast|e|]; [left|right|done]; eauto.
  - unfold parse_policy. case N.ltb_spec; [eauto|]. intros Hle [[e ->]|Hgt]; [eauto|lia].
Qed.

(** ** The pipeline *)



(** A string printed by the formatter is read back by the parser: escaping and
    quoting any string, backslashes and quotes included, and parsing the literal
    gives the string. *)
Lemma string_literal_roundtrip s :
  parse_string_value (dquote +:+ escape_string s +:+ dquote) = s.
Proof. apply parse_quoted. Qed.

(** ** The policy map *)

(** C32: The policy map gives every file the policy of the most specific directory. For
    a map that has been built, and a file below the root, [resolve] never panics. If
    entries match the path below the root, the answer is that of the entry with the
    longest prefix, of equal ones the first: the policy that compiles from its file,
    or to skip the file. If prefixes are written without superfluous separators, the
    directory of that entry lies in those of all other matching entries. Otherwise
    the answer is that of the default, which is an error if there is none. *)
Theorem policy_map_most_specific `{Pest}
    `{PolicySources, SourceHash, F64Display, RegexCrate, ValueDebug, PartitionPoint, HashOrder}
    `{Unicode} `{StrDebug} `{PolicyEnv} fuel default entries root base_dir r file :
  PolicyResolver_build fuel default entries root base_dir = Some (Ok r) →
  Process.path_is_absolute file = true → Process.path_is_absolute root = true →
  path_starts_with file root = true →
  ∃ below m, path_all_components file = path_all_components root ++ below ∧
    PolicyResolver_resolve r file = Some m ∧
    let matches e := path_all_components (MappingEntry_prefix e) `prefix_of` below in
    ((∃ i e, entries !! i = Some e ∧ matches e ∧ entry_applies fuel base_dir e m ∧
        ∀ j e', entries !! j = Some e' → matches e' →
          String.length (MappingEntry_prefix e') ≤ String.length (MappingEntry_prefix e) ∧
          (j < i → String.length (MappingEntry_prefix e') < String.length (MappingEntry_prefix e)) ∧
          (tidy (MappingEntry_prefix e) → tidy (MappingEntry_prefix e') →
           path_starts_with (MappingEntry_prefix e) (MappingEntry_prefix e') = true)) ∨
     ((∀ e, e ∈ entries → ¬ matches e) ∧ default_applies fuel base_dir default m)).
Proof.
  intros [mappings [Hroot Hsort Hpol Hdef Hval Hent]]%build_built Hfile Hrt Hunder.
  destruct (strip_prefix_components file root Hfile Hrt Hunder) as (rel & Hrel & Hcomps).
  exists (path_all_components rel). unfold PolicyResolver_resolve, relative_path. rewrite Hroot, Hrel, Hsort.
  cbn [from_option id option.default]. rewrite find_sorted.
  set (f := λ m, path_starts_with rel (ResolvedMapping_prefix m)).
  assert (Hf : ∀ e m, resolve_entry (path_index (PolicyResolver_policies r)) e = Some m →
    ResolvedMapping_prefix m = MappingEntry_prefix e).
  { intros e m. unfold resolve_entry. intros ([] & _ & [= <-])%bind_Some; done. }
  destruct (best f mappings) as [x|] eqn:Hb.
  - apply best_Some in Hb as (i & Hi & Hx & Hmax).
    destruct (Forall2_lookup_r _ _ _ _ _ Hent Hi) as (e & He & Hre).
    destruct (resolve_entry_match fuel base_dir _ _ _ Hpol (Forall_lookup_1 _ _ _ _ Hval He) Hre)
      as (Hpre & m & Hm & Happ).
    exists m. split_and!; [done|done|]. left. exists i, e. split_and!; [done| |done|].
    { rewrite <-Hpre. by apply bool_decide_eq_true in Hx. }
    intros j e' Hj He'. destruct (Forall2_lookup_l _ _ _ _ _ Hent Hj) as (x' & Hx' & Hre').
    rewrite <-Hpre, <-(Hf _ _ Hre') in *.
    assert (Hfx : f x' = true) by by apply bool_decide_eq_true. destruct (Hmax j x' Hx' Hfx).
    split_and!; [done|done|]. intros Ht Ht'. by eapply (tidy_nested rel).
  - destruct (default_match fuel base_dir _ _ _ Hpol Hdef rel) as (m & Hm & Happ). exists m.
    split_and!; [done|done|]. right. split; [|done]. intros e [i Hi]%list_elem_of_lookup Hmatch.
    destruct (Forall2_lookup_l _ _ _ _ _ Hent Hi) as (x & Hx%list_elem_of_lookup_2 & Hre).
    pose proof (best_None f _ _ Hb Hx) as Hn. unfold f, path_starts_with in Hn.
    apply bool_decide_eq_false in Hn. by rewrite (Hf _ _ Hre) in Hn.
Qed.

(** ** Languages *)

(** Language names and codes are inverse to each other, for any iteration order
    of the tables and any case mapping that agrees with ASCII: a valid code has a
    canonical three-letter code with a display name, from which the canonical code
    is found again, and every name that is recognised is the name of a code. *)
Lemma language_names_roundtrip `{Unicode, HashOrder} :
  (∀ code, is_valid_language code = true →
    ∃ c n, normalize_language code = Some c ∧ normalize_language c = Some c ∧
      String.length c = 3 ∧ language_name code = Some n ∧
      language_code_from_name n = Some c) ∧
  (∀ name c, language_code_from_name name = Some c →
    ∃ n, language_name c = Some n ∧ to_lowercase n = to_lowercase name).
Proof.
  split.
  - intros code Hc. unfold is_valid_language in Hc. apply bool_decide_eq_true in Hc as [c Hc].
    assert (normalize_language code = Some c) as Hn by done.
    destruct (normalize_language_canonical _ _ Hn) as (_ & [n Hname] & Hl).
    exists c, n. split_and!; [done|by eapply language_names_valid|done| |].
    + unfold language_name. by rewrite Hn.
    + by apply NAME_TO_CODE_lookup.
  - intros name c (n & Hn & Hl)%NAME_TO_CODE_elem. exists n. split; [|done].
    unfold language_name. by rewrite (language_names_valid c n Hn).
Qed.

(** ** Channels *)

(** A limit of the front end: [channels: 5.1] in a [synthesize] block, a number
    literal, passes validation and compiles, but the compiled track has no channel
    setting at all. *)
Lemma surround_number_dropped `{RegexCrate, ValueDebug, HashOrder} name n line col names :
  f64_integer n = None →
  let op := OperationNode_Synthesize name [SynthSetting_Channels (Value_Number n "5.1")] in
  diag_errors (validate_operation op line col names) = [] ∧
  ∃ s, compile_operation op = Ok (CO_Synthesize s) ∧ CompiledSynthesize_channels s = None.
Proof.
  intros Hn op. split; [done|]. eexists. split; [done|]. simpl. unfold safe_u32.
  by rewrite Hn, andb_false_r.
Qed.

(** A number as the preset of a [fallback] block passes validation, but the
    compiled settings have no fallback. *)
Lemma fallback_number_preset_dropped n line col :
  let items := [("crf", Value_Number (f64_of_Z 20) "20"); ("preset", Value_Number n "5")] in
  validate_transcode_fallback (Value_Object items) line col = [] ∧
  parse_transcode_fallback (Some (Value_Object items)) = None.
Proof. done. Qed.

(** The validator does not look at [crf]: any value passes, and one that is no number
    is dropped by the compiler. *)
Lemma crf_unchecked `{HashOrder} :
  let settings := [("crf", Value_Ident "high")] in
  diag_errors (validate_transcode_operation "video" "hevc" settings 1 1) = [] ∧
  CTS_crf (compile_transcode_settings settings) = None.
Proof. done. Qed.

(** ** Witnesses *)

Definition sample_cyclic : PolicyAst := {|
  PolicyAst_name := "cyclic";
  PolicyAst_extends := None;
  PolicyAst_metadata := None;
  PolicyAst_config := None;
  PolicyAst_phases :=
    [Build_PhaseNode "a" false None (Some ["b"]) None None [] sample_span;
     Build_PhaseNode "b" false None (Some ["a"]) None None [] sample_span];
  PolicyAst_span := sample_span;
|}.

Lemma cycle_check_agrees_with_reachability_witness :
  (validate_cycle_detection sample_ast = Some [] ↔ validate_reachability sample_ast = Some []) ∧
  (validate_cycle_detection sample_cyclic = Some [] ↔
   validate_reachability sample_cyclic = Some []) ∧
  validate_reachability sample_ast = Some [] ∧ validate_reachability sample_cyclic ≠ Some [].
Proof.
  split_and!; [apply cycle_check_agrees_with_reachability; apply (bool_decide_unpack _);
    by vm_compute..|by vm_compute|]. by vm_compute.
Defined.

Lemma validated_policy_compiles_witness :
  ∃ policy,
    @compile_ast regex_literal value_debug_sample partition_point_linear hash_order_gmap
      sample_ast = Ok policy ∧
    valid_order sample_ast (CompiledPolicy_phase_order policy).
Proof.
  apply (@validated_policy_compiles regex_literal value_debug_sample partition_point_linear
    hash_order_gmap sample_ast); by vm_compute.
Defined.



Definition sample_parent : ResolvedPolicyAst := {|
  ResolvedPolicyAst_ast := sample_ast;
  ResolvedPolicyAst_source_id := PolicySourceId_Bundled "base";
  ResolvedPolicyAst_extends_chain := [];
  ResolvedPolicyAst_phase_sources := ∅;
|}.

(** Extends [clean] by a verification and adds a phase [tags]. *)
Definition sample_child : PolicyAst := {|
  PolicyAst_name := "child";
  PolicyAst_extends := Some (ExtendsSource_Bundled "base");
  PolicyAst_metadata := None;
  PolicyAst_config := None;
  PolicyAst_phases :=
    [Build_PhaseNode "clean" true None None None None
       [sample_op (OperationNode_Verify VerifyMode_Quick)] sample_span;
     Build_PhaseNode "tags" false None None None None
       [sample_op OperationNode_ClearTags] sample_span];
  PolicyAst_span := sample_span;
|}.

Lemma merge_policy_spec_witness :
  ∃ r, merge_policy sample_parent sample_child PolicySourceId_Inline = Ok r ∧
    PhaseNode_name <$> ResolvedPolicyAst_phases r = ["video"; "clean"; "tags"] ∧
    NoDup (PhaseNode_name <$> ResolvedPolicyAst_phases r).
Proof.
  destruct (merge_policy_spec sample_parent sample_child PolicySourceId_Inline)
    as [(e & c & He & _)|(r & Hr & _ & _ & _ & Hnd & _)];
    [apply (bool_decide_unpack _); by vm_compute..|vm_compute in He; discriminate He|].
  exists r. split_and!; [exact Hr| |exact Hnd]. vm_compute in Hr. injection Hr as <-. done.
Defined.

(** *** Sources

    The library is the evaluation of the grammar with fuel for small texts. *)
Definition pest_error : PestError := Build_PestError 1 1 "expected policy".

#[local] Instance pest_small : Pest := λ input,
  match peg (λ n, (1, n)) 3000 (Sub R_policy) 0 input with
  | Match _ _ ps => Ok ps
  | _ => Err pest_error
  end.

#[local] Instance pest_small_laws : PestLaws.
Proof.
  constructor. intros input ps. unfold pest_parse, pest_small.
  destruct (peg _ _ _ _ _) as [text rest qs| |] eqn:Hp; [|done..]. intros [= <-]. eauto.
Qed.

(** A text with apostrophes for its quotes *)
Definition text (s : string) : string := str_replace "'" dquote s.

Lemma plainly_written_check s :
  match pest_parse s with Ok ps => forallb no_misread ps | Err _ => true end = true →
  plainly_written s.
Proof. intros Hc ps Hp. by rewrite Hp in Hc. Qed.

Definition base_source : string := text
  "policy 'base' {
     phase video {
       depends_on: [clean]
       run_if clean.modified
       transcode video to x265
     }
     phase clean {
       keep audio where codec in [aac]
       container mp4
     }
   }".

(** Extends [clean] by a verification and adds a phase [tags]. *)
Definition child_source : string := text
  "policy 'child' extends 'base' {
     phase clean {
       extend
       verify quick
     }
     phase tags {
       clear_tags
       synthesize 'stereo' {
         codec: aac
         create_if not exists(audio where channels == 2)
       }
     }
   }".

Definition loop_source : string :=
  text "policy 'loop' extends 'file:///l' { phase p { clear_tags } }".

Lemma parse_policy_sound_witness :
  ∃ ast, parse_policy child_source = Done ast ∧ ast_ok ast = true ∧
    PhaseNode_name <$> PolicyAst_phases ast = ["clean"; "tags"].
Proof.
  destruct (@parse_policy_sound pest_small pest_small_laws child_source)
    as [[(ast & Ha & Hok)|(e & He)] _]; [by apply plainly_written_check; vm_compute| |].
  - exists ast. split_and!; [exact Ha|exact Hok|]. vm_compute in Ha. by injection Ha as <-.
  - by vm_compute in He.
Defined.

(** One bundled policy, and a file that extends itself *)
Definition sample_sources : PolicySources := {|
  BUNDLED_POLICIES := [("base", base_source)];
  read_to_string p := if bool_decide (p = "/l") then Ok loop_source else Err "not found";
  canonicalize p := Ok p;
|}.

Lemma resolve_policy_file_terminates_witness :
  ∃ r, @resolve_policy_file pest_small sample_sources 2 "/l" = Some r ∧
    r = returned (composition_error "cyclic policy extends: /l -> /l").
Proof.
  destruct (@resolve_policy_file_terminates pest_small sample_sources ["/l"] "/l" 2) as (r & Hr & _).
  - simpl. intros p s. case_bool_decide; [intros _; subst; by left|discriminate].
  - simpl. lia.
  - exists r. split; [exact Hr|]. vm_compute in Hr. injection Hr as <-. by vm_compute.
Defined.

Definition sample_compile (source : string) : option (result DslPipelineError CompiledPolicy) :=
  @compile_policy_with_bundled pest_small sample_sources (λ s, s) (λ _, "0.5") regex_literal
    value_debug_sample partition_point_linear hash_order_gmap 2 source.


(** *** Limits of the parser

    The keyword that a builder dispatches on is looked for in the text of a pair,
    which is not always where the grammar has it. *)
Definition newline : string := String (ascii_of_nat 10) "".

(** A policy of one phase *)
Definition one_phase (op : string) : string :=
  text "policy 'p' { phase p { " +:+ text op +:+ " } }".

Definition parsed_ops (op : string) : option (list OperationNode) :=
  match parse_policy (one_phase op) with
  | Done ast => Some (SpannedOperation_node <$> phases_ops (PolicyAst_phases ast))
  | _ => None
  end.

(** A comment after [track], and a field path that begins with [count], panic:
    the child that is unwrapped is not there. *)
Example comment_after_track_panics :
  parse_policy (one_phase ("when exists(track//c" +:+ newline +:+ ") { skip }")) = Panics ∧
  parse_policy (one_phase "when count.x == 1 { skip }") ≠ Panics ∧
  parse_policy (one_phase "when count .x exists { skip }") = Panics.
Proof. split_and!; by vm_compute. Qed.

(** After [track] and a line break, the filter is part of the target. In a
    [create_if] condition, which the validator does not visit, the compiler panics
    on it. *)
Example create_if_target_panics :
  sample_compile (one_phase ("synthesize 's' { codec: aac create_if exists(track where forced) }"))
    ≠ None ∧
  sample_compile (one_phase ("synthesize 's' { codec: aac create_if exists(track" +:+ newline
    +:+ "where forced) }")) = None.
Proof. split; by vm_compute. Qed.

(** The test for [contains] looks at the whole filter, its pattern included. *)
Example matches_read_as_contains :
  parsed_ops "keep audio where title matches 'it contains'" =
    Some [OperationNode_Keep "audio" (Some (FilterNode_TitleContains "it contains")) None] ∧
  parsed_ops "keep audio where title matches 'it has'" =
    Some [OperationNode_Keep "audio" (Some (FilterNode_TitleMatches "it has")) None].
Proof. split; by vm_compute. Qed.

(** A negation glued to its operand is lost. *)
Example glued_negation_lost :
  parsed_ops "keep audio where notforced" =
    Some [OperationNode_Keep "audio" (Some FilterNode_Forced) None] ∧
  parsed_ops "keep audio where not forced" =
    Some [OperationNode_Keep "audio" (Some (FilterNode_Not FilterNode_Forced)) None].
Proof. split; by vm_compute. Qed.

(** A membership test of a number is accepted by the grammar, the validator and the
    compiler. *)
Example numeric_membership_accepted :
  parsed_ops "keep audio where channels in 6" =
    Some [OperationNode_Keep "audio" (Some (FilterNode_Channels CompareOp_In (f64_of_Z 6))) None] ∧
  match sample_compile (one_phase "keep audio where channels in 6") with
  | Some (Ok _) => True
  | _ => False
  end.
Proof. split; by vm_compute. Qed.

(** *** A policy map *)
Definition sample_files : PolicySources := {|
  BUNDLED_POLICIES := [];
  read_to_string p := if bool_decide (p = "/policies/tv.voom") then Ok base_source else Err "not found";
  canonicalize p := Ok p;
|}.

Definition sample_env : PolicyEnv := {|
  policies_dir := "/config/policies";
  policy_path_exists p := bool_decide (p = "/policies/tv.voom");
  toml_from_str _ := Err "expected a table";
|}.

Definition skip_entry (prefix : string) : MappingEntry := Build_MappingEntry prefix None (Some true).
Definition tv_entry (prefix : string) : MappingEntry := Build_MappingEntry prefix (Some "tv.voom") None.

(** The map of [tv.voom] for one prefix and of skipping for another *)
Definition sample_build (tv skip : string) : option (result string PolicyResolver) :=
  @PolicyResolver_build pest_small sample_files (λ s, s) (λ _, "0.5") regex_literal value_debug_sample
    partition_point_linear hash_order_gmap unicode_ascii (λ s, s) sample_env 2 None
    [tv_entry tv; skip_entry skip] "/media" (Some "/policies").

Definition sample_resolve (tv skip : string) (file : PathBuf) : option (result string PolicyMatch) :=
  match sample_build tv skip with
  | Some (Ok r) => @PolicyResolver_resolve unicode_ascii r file
  | _ => None
  end.

Lemma policy_map_most_specific_witness :
  ∃ m, sample_resolve "tv" "tv/kids" "/media/tv/kids/a.mkv" = Some m ∧ m = Ok PolicyMatch_Skip.
Proof.
  unfold sample_resolve.
  destruct (sample_build "tv" "tv/kids") as [[r|e]|] eqn:Hb; [|by vm_compute in Hb..].
  destruct (@policy_map_most_specific pest_small sample_files (λ s, s) (λ _, "0.5") regex_literal value_debug_sample
    partition_point_linear hash_order_gmap unicode_ascii (λ s, s) sample_env 2 None
    [tv_entry "tv"; skip_entry "tv/kids"] "/media" (Some "/policies") r "/media/tv/kids/a.mkv" Hb
    eq_refl eq_refl eq_refl) as (below & m & Hbelow & Hm & [(i & e & Hi & _ & He & Hmax)|[Hno _]]).
  - exists m. split; [exact Hm|]. destruct i as [|[|i]]; cbn in Hi; [| |done].
    + injection Hi as <-. assert (Hbelow' : below = ["tv"; "kids"; "a.mkv"]) by by injection Hbelow as <-.
      destruct (Hmax 1 (skip_entry "tv/kids") eq_refl) as [Hle _]; [|vm_compute in Hle; lia].
      rewrite Hbelow'. by apply (bool_decide_unpack _); vm_compute.
    + injection Hi as <-. exact He.
  - exfalso. apply (Hno (tv_entry "tv")); [by left|]. injection Hbelow as <-.
    by apply (bool_decide_unpack _); vm_compute.
Defined.

(** The longest text wins, not the deepest directory: superfluous separators let an
    outer directory take precedence. *)
Example longest_text_wins :
  sample_resolve "tv///////" "tv/kids" "/media/tv/kids/a.mkv" ≠ Some (Ok PolicyMatch_Skip) ∧
  sample_resolve "tv" "tv/kids" "/media/tv/kids/a.mkv" = Some (Ok PolicyMatch_Skip).
Proof. split; [|by vm_compute]. vm_compute. by intros [=]. Qed.
