(* ===== verification/StoreSamples.v ===== *)
(** * Sample instances for jobs

    Texts in which numbers are written in unary, a sort for [ORDER BY], and the
    order of a [gmap] for hash maps: instances of the parameters of the job
    components, on which the definitions evaluate. *)
From S2P Require Import Prelude Json Media Plan Compiled CapabilityMap Jobs Engine SqliteJobs.
From S2P Require Import JobSpec SqliteJobsFacts MemoryJobs Events Kernel JobQueue WorkerPool.
From S2P Require Import WorkerStream Process Transitions FileTables ScanSessions RowMappers.
From S2P Require Import FileStore TransitionStore ScanSpec IngestFacts SessionFacts.
From S2P Require Import StoreInvariant FileFacts StoreFacts.

(** ** Texts *)
Fixpoint unary (n : nat) : string :=
  match n with 0 => EmptyString | Datatypes.S n => String (ascii_of_nat 49) (unary n) end.

Lemma length_unary n : String.length (unary n) = n.
Proof. induction n as [|n IH]; [done|]. cbn. by rewrite IH. Qed.

Lemma str_leb_unary n k : str_leb (unary n) (unary k) = (n <=? k)%nat.
Proof.
  revert k. induction n as [|n IH]; intros [|k]; try done.
  specialize (IH k). unfold str_leb, String.leb in *. cbn [unary String.compare].
  by replace (Ascii.compare (ascii_of_nat 49) (ascii_of_nat 49)) with Eq by done.
Qed.

Definition unary_time (t : DateTime) : string :=
  if (t <? 0)%Z then String (ascii_of_nat 45) (unary (Z.to_nat (- t))) else unary (Z.to_nat t).

Definition parse_unary_time (s : string) : result string DateTime :=
  match s with
  | String c s' =>
      if bool_decide (c = ascii_of_nat 45) then Ok (- Z.of_nat (String.length s'))%Z
      else Ok (Z.of_nat (String.length s))
  | EmptyString => Ok 0%Z
  end.

Lemma parse_unary_time_ok t : parse_unary_time (unary_time t) = Ok t.
Proof.
  unfold unary_time, parse_unary_time. destruct (Z.ltb_spec t 0).
  - rewrite bool_decide_true by done. rewrite length_unary. f_equal. lia.
  - destruct (Z.to_nat t) as [|n] eqn:Ht; cbn -[bool_decide]; [f_equal; lia|].
    rewrite bool_decide_false by done. rewrite length_unary. f_equal. lia.
Qed.

Lemma unary_time_order t u :
  rfc3339_range t → rfc3339_range u → str_leb (unary_time t) (unary_time u) = (t <=? u)%Z.
Proof.
  unfold rfc3339_range, unary_time. intros Ht Hu.
  destruct (Z.ltb_spec t 0); [lia|]. destruct (Z.ltb_spec u 0); [lia|].
  rewrite str_leb_unary. destruct (Z.leb_spec t u); [apply Nat.leb_le | apply Nat.leb_gt]; lia.
Qed.

Definition chrono_unary : Chrono := {|
  to_rfc3339 := unary_time;
  parse_rfc3339 := parse_unary_time;
  parse_to_rfc3339 := parse_unary_time_ok;
  to_rfc3339_order := unary_time_order;
|}.

Lemma unary_uuid_ok (u : Uuid) : Ok (E := string) (N.of_nat (String.length (unary (N.to_nat u)))) = Ok u.
Proof. f_equal. rewrite length_unary. lia. Qed.

Definition uuid_unary : UuidText := {|
  Uuid_to_string u := unary (N.to_nat u);
  Uuid_parse_str s := Ok (N.of_nat (String.length s));
  Uuid_parse_to_string := unary_uuid_ok;
|}.

(** ** The engine and hash maps *)
Lemma insert_by_sorted {A} (leb : A → A → bool) x l :
  (∀ a b, leb a b = true ∨ leb b a = true) →
  (∀ a b c, leb a b = true → leb b c = true → leb a c = true) →
  StronglySorted (λ a b, leb a b = true) l →
  StronglySorted (λ a b, leb a b = true) (insert_by leb x l).
Proof.
  intros Htot Htr. induction 1 as [|y l Hs IH Hy]; [by repeat constructor|]. cbn.
  destruct (leb x y) eqn:Hxy.
  - constructor; [by constructor|]. constructor; [done|]. eapply Forall_impl; [done|].
    intros z Hz. by eapply Htr.
  - constructor; [done|]. rewrite insert_by_perm. constructor; [|done].
    destruct (Htot x y); congruence.
Qed.

Lemma sort_by_sorted {A} (leb : A → A → bool) l :
  (∀ a b, leb a b = true ∨ leb b a = true) →
  (∀ a b c, leb a b = true → leb b c = true → leb a c = true) →
  StronglySorted (λ a b, leb a b = true) (sort_by leb l).
Proof.
  intros Htot Htr. induction l as [|x l IH]; [constructor|]. by apply insert_by_sorted.
Qed.

Definition sqlite_sample : Sqlite := {|
  rusqlite_to_string _ := "database error";
  serde_json_to_string _ := Ok "null";
  serde_json_from_str _ := Ok JNull;
  order_by A leb l := sort_by leb l;
  order_by_perm A leb l := sort_by_perm leb l;
  order_by_sorted A leb l := sort_by_sorted leb l;
  group_keys l := remove_dups l;
  group_keys_nodup l := NoDup_remove_dups l;
  group_keys_elem l k := elem_of_remove_dups l k;
|}.

Definition job_hash_order_gmap : JobHashOrder := {|
  jobs_values m := (map_to_list m).*2;
  jobs_values_perm m := reflexivity _;
  status_keys l := remove_dups l;
  status_keys_nodup l := NoDup_remove_dups l;
  status_keys_elem l k := elem_of_remove_dups l k;
|}.

#[local] Existing Instance chrono_unary.
#[local] Existing Instance uuid_unary.
#[local] Existing Instance sqlite_sample.
#[local] Existing Instance job_hash_order_gmap.

(** ** A run of the queue *)
Definition empty_db (faults : list (option rusqlite_Error)) : JobsDb :=
  {| db_rows := []; db_faults := faults |}.

Lemma empty_db_rep faults : sqlite_rep (empty_db faults) ∅.
Proof. exists []. split_and!; [done | constructor | constructor | done]. Qed.

Definition sample_job (id : Uuid) (now : DateTime) (priority : i32) : Job :=
  enqueue_job id now JobType_Transcode priority None.

Lemma sample_job_storable id now priority :
  rfc3339_range now → sqlite_storable (sample_job id now priority).
Proof. by intros Hnow. Qed.

(** Two workers claim two jobs and try again; the engine fails once. *)
Definition sample_ops : list queue_op :=
  [ QEnqueue 1 3 JobType_Transcode 50 None;
    QEnqueue 2 4 JobType_Transcode 10 None;
    QClaim 5 "a";
    QClaim 6 "b";
    QClaimById 7 2 "b";
    QComplete 8 2 None;
    QClaim 9 "a";
    QClaimById 10 1 "b" ].

(** ** A run of the pool *)
Definition sample_item (id : Uuid) : WorkItem unit * EnqueueInput :=
  ({| WorkItem_job_type := JobType_Transcode; WorkItem_priority := 100; WorkItem_payload := None |},
   {| ei_id := id; ei_now := 1; ei_error_id := id + 100 |}).

Definition sample_items : list (WorkItem unit * EnqueueInput) := [sample_item 1; sample_item 2].

Definition sample_shared : Shared InMemoryStore :=
  Build_Shared {| InMemoryStore_jobs := ∅ |} false 0 0 0 [] [].

Definition sample_input : TaskInput :=
  {| in_now := 5; in_join_error := None; in_processor := Processed None |}.

Definition unit_to_value (_ : unit) : result string JValue := Ok JNull.

(** One worker: the second task starts when the first has ended. *)
Definition sample_schedule : list (PoolAction InMemoryStore) :=
  [A_Spawn "w-1"] ++ replicate 8 (A_Task 0 sample_input) ++
  [A_Spawn "w-2"; A_EndSpawning] ++ replicate 8 (A_Task 1 sample_input) ++
  [A_EndSweep; A_Recv; A_Recv; A_Finish].

(** ** Runs of the streaming pool

    Items whose payload is [false] cannot be serialized. *)
Definition bool_to_value (b : bool) : result string JValue :=
  if b then Ok JNull else Err "not serializable".

Definition stream_item (b : bool) : WorkItem bool :=
  {| WorkItem_job_type := JobType_Process; WorkItem_priority := 100; WorkItem_payload := Some b |}.

Definition stream_input (id : Uuid) : EnqueueInput :=
  {| ei_id := id; ei_now := 1; ei_error_id := id + 100 |}.

Definition stream_shared : Shared JobsDb := Build_Shared (empty_db []) false 0 0 0 [] [].

Definition worker_steps (n : nat) : list (StreamAction JobsDb bool) := replicate n (SA_Worker 0 sample_input).

Definition enqueuer_steps (n : nat) : list (StreamAction JobsDb bool) := replicate n SA_Enqueuer.

(** One worker, one job. *)
Definition stream_schedule : list (StreamAction JobsDb bool) :=
  [SA_Produce (stream_item true) (stream_input 1); SA_Close] ++ enqueuer_steps 6 ++
  worker_steps 1 ++ [SA_OpenGate] ++
  worker_steps 12 ++ [SA_Collect; SA_EndWorkers; SA_Report].

(** While the first job runs the second item cannot be enqueued; the third is
    enqueued after that. *)
Definition strand_schedule : list (StreamAction JobsDb bool) :=
  [SA_Produce (stream_item true) (stream_input 1); SA_Produce (stream_item false) (stream_input 2);
   SA_Produce (stream_item true) (stream_input 3); SA_Close] ++ enqueuer_steps 4 ++
  worker_steps 1 ++ [SA_OpenGate] ++
  worker_steps 3 ++ enqueuer_steps 3 ++ worker_steps 7 ++ enqueuer_steps 6 ++
  [SA_Collect; SA_Collect; SA_EndWorkers; SA_Report].

(** * Sample instances for scans

    A small library on which the store evaluates, and proofs that it meets the
    hypotheses of the theorems on scans. *)

Definition snapshot_sample : SnapshotJson := {|
  snapshot_to_json _ := Ok "{}";
  snapshot_from_json _ := Err "no snapshot";
|}.

(** Scans of one root. *)
Definition one_root (roots : list PathBuf) : result string string :=
  match roots with [r] => Ok r | _ => Err "one root" end.

Lemma one_root_from_to roots s : one_root roots = Ok s → Ok (E := string) [s] = Ok roots.
Proof. destruct roots as [|r [|]]; [done| |done]. by intros [= <-]. Qed.

Definition roots_sample : RootsJson := {|
  roots_to_json := one_root;
  roots_from_json s := Ok [s];
  roots_from_to := one_root_from_to;
|}.

Definition maps_sample : MapsJson := {|
  tags_to_json _ := Ok "{}";
  tags_from_json _ := Ok ∅;
  metadata_to_json _ := Ok "{}";
  metadata_from_json _ := Ok ∅;
|}.

#[local] Existing Instance chrono_unary.
#[local] Existing Instance uuid_unary.
#[local] Existing Instance sqlite_sample.
#[local] Existing Instance unicode_ascii.
#[local] Existing Instance snapshot_sample.
#[local] Existing Instance roots_sample.
#[local] Existing Instance maps_sample.

(** ** A library *)
Definition sample_row (id : Uuid) (path hash : string) : FilesRow := {|
  files_id := Uuid_to_string id;
  files_path := Some path;
  files_filename := filename_string path;
  files_size := 7;
  files_content_hash := hash;
  files_expected_hash := Some hash;
  files_status := "active";
  files_missing_since := None;
  files_superseded_by := None;
  files_media := discovered_media (bind_time 1);
  files_last_seen_session_id := Some (Uuid_to_string 1);
  files_created_at := bind_time 1;
  files_updated_at := bind_time 1;
|}.

Definition sample_session : SessionsRow := {|
  sessions_id := Uuid_to_string 1;
  sessions_roots_json := "/m";
  sessions_status := "completed";
  sessions_started_at := bind_time 1;
  sessions_finished_at := Some (bind_time 2);
  sessions_last_heartbeat_at := bind_time 2;
|}.

Definition sample_track_row : TracksRow :=
  track_row 1 (Uuid_to_string 1) (Track_new 0 TrackType_Video "h264").

Definition sample_tables : FileTables := {|
  t_files := [sample_row 1 "/m/a.mkv" "aa"; sample_row 2 "/m/b.mkv" "bb"; sample_row 3 "/x/c.mkv" "cc"];
  t_tracks := [sample_track_row];
  t_transitions := [];
  t_sessions := [sample_session];
  t_mutations := [];
  t_bad_files := [];
  t_children := [];
  t_outcomes := [];
|}.

Lemma sample_tables_ok : tables_ok sample_tables.
Proof.
  split.
  - apply files_unique_spec. by vm_compute.
  - apply Forall_forall. intros r Hr. cbn in Hr.
    assert (∀ id path hash, row_ok ["1"] (sample_row id path hash)) as Hok.
    { intros id path hash. split; [by eexists|]. split; [by eexists|]. intros x [= <-]. apply list_elem_of_here. }
    repeat (apply elem_of_cons in Hr as [->|Hr]; [apply Hok|]). by apply elem_of_nil in Hr.
  - apply NoDup_singleton.
  - apply Forall_singleton. split; [by eexists|]. split; [by eexists|]. by exists 2%Z.
  - by vm_compute; lia.
  - intros r ->%list_elem_of_singleton. apply list_elem_of_here.
  - apply NoDup_nil_2.
Qed.

Definition sample_db : SqlDb FileTables := {| db_rows := sample_tables; db_faults := [] |}.

(** ** A scan of [/m]: [a] has changed, [b] has moved, [d] is new *)
Definition sample_scan : ScanInput := {|
  si_begin := 10;
  si_ingest i := 11%Z;
  si_finish := 12;
  si_cancel := 12;
  si_session := 5;
  si_ids j := (10 + N.of_nat j)%N;
|}.

Definition sample_found (path hash : string) : DiscoveredFile := {|
  DiscoveredFile_path := path;
  DiscoveredFile_size := 9;
  DiscoveredFile_content_hash := hash;
|}.

Definition sample_discovered : list DiscoveredFile :=
  [sample_found "/m/a.mkv" "ax"; sample_found "/m/e/b.mkv" "bb"; sample_found "/m/d.mkv" "dd";
   sample_found "/m/d.mkv" "d2"].

Lemma unary_inj n k : unary n = unary k → n = k.
Proof. intros Hnk. rewrite <-(length_unary n), Hnk. apply length_unary. Qed.

Lemma sample_supply : supply (si_ids sample_scan) 0 sample_tables.
Proof.
  assert (Hfresh : ∀ j i, Uuid_to_string (si_ids sample_scan j) = Uuid_to_string i → (i < 10)%N → False).
  { intros j i Heq%unary_inj Hi. cbn in Heq. lia. }
  split.
  - intros r Hr. by eexists.
  - done.
  - intros j _ Hin. cbn in Hin. repeat (apply elem_of_cons in Hin as [Hin|Hin]; [by eapply Hfresh; [exact Hin|lia]|]).
    by apply elem_of_nil in Hin.
  - intros j _ Hin. by apply elem_of_nil in Hin.
  - intros j _ Hin. by apply elem_of_nil in Hin.
  - intros j k. cbn. lia.
Qed.
