(* ===== verification/JobTheorems.v ===== *)
(** * Theorems about jobs

    The store, the queue, the worker pool and retention, with witnesses on the
    sample instances at the end of the file. *)
From S2P Require Import Prelude Json Media Plan Compiled CapabilityMap Jobs Engine SqliteJobs.
From S2P Require Import JobSpec SqliteJobsFacts MemoryJobs Events Kernel JobQueue WorkerPool.
From S2P Require Import WorkerPoolFacts WorkerStream WorkerStreamFacts Samples StoreSamples.

(** ** The queue *)
Section queue.
Context {S : Type} `{JobStorage S} `{UuidText} `{!JobStoreLaws S}.

(** C23: over any store that keeps the contract of [JobStorage], in any
    interleaving of enqueueing, claims by any number of workers, progress
    reports, completions, failures, cancellations (also delayed ones) and
    deletions, no job is claimed twice: the identifiers of successful claims
    are pairwise different, provided new jobs get new identifiers. *)
Theorem job_claimed_at_most_once (ops : list queue_op) (s : S) (m : gmap Uuid Job) :
  rep s m → Forall op_storable ops → NoDup (ops ≫= enqueued_id) →
  (∀ id, id ∈ ops ≫= enqueued_id → m !! id = None) →
  NoDup (run_ops ops s).1.
Proof.
  intros Hs Hst Hnd Hnew. apply (run_ops_claims ops s m []); [done..|]. split.
  - intros id Hid. split; [by apply Hnew | apply not_elem_of_nil].
  - intros id j Hid. by apply elem_of_nil in Hid.
Qed.
End queue.

(** ** The SQLite store *)
Section sqlite.
Context `{Chrono} `{UuidText} `{Sqlite}.

Definition is_error (a : store_answer) : Prop :=
  match a with AnsError _ => True | _ => False end.

(** The values of an update have a JSON text, and a page with an offset has a limit. *)
Definition op_serializable (op : store_op) : Prop :=
  match op with
  | SUpdate _ u => update_serializable u
  | SList filters => is_Some (JobFilters_offset filters) → is_Some (JobFilters_limit filters)
  | _ => True
  end.

Lemma page_exists filters l : op_serializable (SList filters) → is_Some (page filters l).
Proof.
  cbn. unfold page. destruct (JobFilters_limit filters), (JobFilters_offset filters); [by eexists..| |by eexists].
  intros Hl. by destruct Hl as [? ?].
Qed.

Lemma cancel_storable now s m id :
  sqlite_rep s m → ∀ j, m !! id = Some j → sqlite_storable (apply_update (cancel_update now) j).
Proof. intros Hs j Hj. by apply (sqlite_rep_entry s m id j Hs) in Hj as [_ Hj]. Qed.

Lemma alter_insert_lookup (f : Job → Job) id (m : gmap Uuid Job) j :
  m !! id = Some j → alter f id m = <[id := f j]> m.
Proof.
  intros Hj. apply map_eq. intros i. destruct (decide (i = id)) as [->|]; by simplify_map_eq.
Qed.

Lemma Some_eq_forall {A} (x : A) (P : A → Prop) : P x ↔ (∀ y, Some x = Some y → P y).
Proof. naive_solver. Qed.

Lemma sqlite_exec_total op s m :
  db_faults s = [] → sqlite_rep s m → op_values_storable op → op_serializable op →
  (∀ id, id ∈ created_id op → m !! id = None) →
  ¬ is_error (exec_op op s).1 ∧ db_faults (exec_op op s).2 = [].
Proof.
  intros Hfs Hs Hop Hser Hnew.
  assert (Hdone : ∀ A (f : A → store_answer) (x : Db A) a m',
    (∀ a, ¬ is_error (f a)) → op_spec false (db_rows s) x m a m' →
    ¬ is_error (answer f (x s)).1 ∧ db_faults (answer f (x s)).2 = []).
  { intros A f x a m' Hf Hx. apply total_of_spec in Hx as (Ha & Hfs' & _); [|done].
    unfold answer. cbn. rewrite Ha. by split; [apply Hf|]. }
  destruct op as [j|id|id u|now w|now id w|filters| |status|now policy|now policy|]; cbn [exec_op].
  - eapply Hdone; [by auto|]. apply sqlite_create_job_spec; [done| |done]. apply Hnew. by left.
  - eapply Hdone; [by auto|]. by apply sqlite_job_spec.
  - eapply Hdone; [by auto|]. apply sqlite_update_job_spec; [done| |done].
    intros j Hj. apply Hop. by apply (sqlite_rep_entry s m id).
  - destruct (sqlite_claim_next_job_spec false (db_rows s) m now w Hs) as (o & _ & Ha).
    eapply Hdone; [by auto | done].
  - eapply Hdone; [by auto|]. by apply sqlite_claim_job_by_id_spec.
  - destruct (sqlite_list_page_spec false (db_rows s) m filters Hs) as (l & _ & Ha).
    destruct (page_exists filters l Hser) as [p Hp]. rewrite Hp in Ha.
    eapply Hdone; [by auto | done].
  - destruct (sqlite_count_jobs_spec false (db_rows s) m Hs) as (l & _ & Ha).
    eapply Hdone; [by auto | done].
  - eapply Hdone; [by auto|]. by apply sqlite_delete_jobs_spec.
  - destruct (sqlite_prune_spec false (db_rows s) m now policy Hs) as (n & o & _ & Ha).
    apply db_spec_run in Ha as [Hf Ha]; [|by right]. unfold answer. cbn [prune_old_jobs SqliteStore_JobStorage].
    destruct (sqlite_prune_old_jobs now policy s) as [[r|e] s']; cbn in *; [|by destruct Ha].
    destruct Hf as [|Hf]; [done|]. split; [by intros []|done].
  - destruct (sqlite_count_old_spec false (db_rows s) m now policy Hs) as (n & o & _ & Ha).
    eapply Hdone; [by auto | done].
  - destruct (sqlite_oldest_spec false (db_rows s) m Hs) as (o & _ & Ha).
    eapply Hdone; [by auto | done].
Qed.

Lemma sqlite_exec_ops_total ops s m :
  db_faults s = [] → sqlite_rep s m → Forall op_values_storable ops → Forall op_serializable ops →
  ids_fresh ops m → Forall (λ a, ¬ is_error a) (exec_ops ops s).1.
Proof.
  revert s m. induction ops as [|op ops IH]; intros s m Hfs Hs Hst Hser Hfr; [constructor|].
  apply Forall_cons in Hst as [Hop Hst]. apply Forall_cons in Hser as [Hser1 Hser].
  assert (Hrep : rep s m) by exact Hs.
  destruct (exec_op_fresh op ops s m Hrep Hop Hfr) as (m' & Hs' & _ & Hfr').
  destruct (sqlite_exec_total op s m Hfs Hs Hop Hser1 (λ id, ids_fresh_head op ops m id Hfr))
    as [Ha Hfs'].
  cbn [exec_ops]. destruct (exec_op op s) as [a s']; cbn [fst snd] in *.
  specialize (IH s' m' Hfs' Hs' Hst Hser Hfr').
  destruct (exec_ops ops s') as [az s'']. by constructor.
Qed.

(** C24: The SQLite job table refines a finite map of jobs. For every sequence of
    calls of the eleven methods of [JobStorage], on jobs that the table can hold (no
    NaN progress, JSON that reads back, times in the range of the texts) and with
    new identifiers, whatever calls on the engine fail, the answers are those of a
    run of the abstract store, and the table represents its final map: a claim takes
    a pending job that no other precedes, a list is a page of the jobs in order,
    counts and the oldest job are those of the map, pruning takes exactly the
    finished jobs past the retention policy, and a failed operation has no effect,
    except that pruning may fail after it has deleted. If no call on the engine
    fails, updates serialize and no page has an offset without a limit, no operation
    fails. *)
Theorem sqlite_store_refines_job_map (ops : list store_op) (s : JobsDb) (m : gmap Uuid Job) :
  sqlite_rep s m → Forall op_values_storable ops → ids_fresh ops m →
  (∃ m', sqlite_rep (exec_ops ops s).2 m' ∧ spec_run m ops (exec_ops ops s).1 m') ∧
  (db_faults s = [] → Forall op_serializable ops →
   Forall (λ a, ¬ is_error a) (exec_ops ops s).1).
Proof.
  intros Hs Hst Hfr. split; [exact (exec_ops_refines ops s m Hs Hst Hfr)|].
  intros Hfs Hser. by eapply sqlite_exec_ops_total.
Qed.

(** [cancel] succeeds only on pending and running jobs, which become
    cancelled; an error leaves the jobs as they are. If no call on the engine
    fails, it fails exactly on missing jobs and jobs in a terminal state. *)
Lemma cancel_only_live_jobs (now : DateTime) (id : Uuid) (s : JobsDb) (m : gmap Uuid Job) :
  sqlite_rep s m →
  match JobQueue_cancel now id s with
  | (Ok _, s') => ∃ j, m !! id = Some j ∧ Job_is_terminal j = false ∧
      sqlite_rep s' (<[id := apply_update (cancel_update now) j]> m)
  | (Err _, s') => sqlite_rep s' m
  end ∧
  (db_faults s = [] →
   (∃ e, (JobQueue_cancel now id s).1 = Err e) ↔
   (∀ j, m !! id = Some j → Job_is_terminal j = true)).
Proof.
  intros Hs. split.
  - pose proof (answers_of_spec s _ m _ m (sqlite_job_spec true (db_rows s) m id Hs)) as Ha.
    unfold JobQueue_cancel, cancel_check, answers in *. cbn [job SqliteStore_JobStorage].
    destruct (sqlite_job id s) as [[o|e] s1]; cbn [fst snd] in Ha; [|done].
    destruct Ha as [-> Hs1]. destruct (m !! id) as [j|] eqn:Hj; [|done].
    pose proof (answers_of_spec s1 _ m _ _ (sqlite_update_job_spec true (db_rows s1) m id
      (cancel_update now) Hs1 (cancel_storable now s1 m id Hs1) ltac:(done))) as Hu.
    destruct (Job_status j) eqn:Hst; try done; unfold cancel_write; cbn [update_job SqliteStore_JobStorage];
      unfold answers in Hu; destruct (sqlite_update_job _ _ _) as [[[]|e] s2]; cbn [fst snd] in Hu;
      try done; exists j; (split; [done|]); unfold Job_is_terminal; rewrite Hst;
      (split; [done|]); destruct Hu as [_ Hu]; by rewrite <-(alter_insert_lookup _ _ m j).
  - intros Hfs. unfold JobQueue_cancel, cancel_check. cbn [job SqliteStore_JobStorage].
    destruct (total_of_spec s _ m _ m Hfs (sqlite_job_spec false (db_rows s) m id Hs))
      as (Ha & Hfs1 & Hs1).
    destruct (sqlite_job id s) as [r s1]; cbn [fst snd] in *. subst r.
    destruct (m !! id) as [j|] eqn:Hj; [|naive_solver].
    destruct (total_of_spec s1 _ m _ _ Hfs1 (sqlite_update_job_spec false (db_rows s1) m id
      (cancel_update now) Hs1 (cancel_storable now s1 m id Hs1) ltac:(done))) as (Hu & _ & _).
    unfold cancel_write; cbn [update_job SqliteStore_JobStorage]. rewrite <-(Some_eq_forall j (λ j, Job_is_terminal j = true)).
    unfold Job_is_terminal. destruct (Job_status j); cbn; rewrite ?Hu; naive_solver.
Qed.
End sqlite.

(** ** Retention *)
Section retention.
Context `{Chrono} `{UuidText} `{Sqlite}.

(** [prune_old_jobs] with a retention policy in force splits the finished
    jobs into the newest, which it keeps, and the oldest, which it deletes; all
    other rows stay. The kept ones are not past the cutoff and at most as many
    as the policy keeps; a deleted one is past the cutoff or the number to keep
    is reached. The report counts both, and [count_old_jobs] predicts it without
    changing the table. *)
Lemma prune_old_jobs_keeps_newest (rows : list JobRow) (now : DateTime) (policy : RetentionPolicy) :
  NoDup (row_id <$> rows) → RetentionPolicy_is_disabled policy = false →
  let cutoff := RetentionPolicy_cutoff_str now policy in
  let keep_last := RetentionPolicy_keep_last_i64 policy in
  let s := {| db_rows := rows; db_faults := [] |} in
  ∃ newest oldest rows',
    let pruned := {| PruneReport_deleted := N.of_nat (length oldest);
                     PruneReport_kept := N.of_nat (length newest) |} in
    newest ++ oldest ≡ₚ List.filter row_is_terminal rows ∧
    (∀ a b, a ∈ newest → b ∈ oldest → str_leb (effective_at b) (effective_at a) = true) ∧
    (∀ r, r ∈ rows' ↔ r ∈ rows ∧ r ∉ oldest) ∧
    (∀ r c, r ∈ newest → cutoff = Some c → str_ltb (effective_at r) c = false) ∧
    (∀ n, keep_last = Some n → (Z.of_nat (length newest) ≤ n)%Z) ∧
    (∀ r, r ∈ oldest → (∃ c, cutoff = Some c ∧ str_ltb (effective_at r) c = true) ∨
                       (∃ n, keep_last = Some n ∧ (n ≤ Z.of_nat (length newest))%Z)) ∧
    sqlite_prune_old_jobs now policy s = (Ok pruned, {| db_rows := rows'; db_faults := [] |}) ∧
    sqlite_count_old_jobs now policy s = (Ok pruned, s).
Proof.
  intros Hnd Hen cutoff keep_last s.
  destruct (ranked_split cutoff keep_last rows) as (newest & oldest & Hr & Hperm & Hs & Hexp & Hkept).
  destruct (delete_split rows newest oldest Hnd Hperm) as (Hdel & Hterm & Hrows).
  destruct (newest_bounds cutoff keep_last newest) as [Hcut Hlast];
    [apply keep_last_i64_nonneg | done |].
  assert (Hids : expired_ids cutoff keep_last rows = map row_id oldest).
  { unfold expired_ids. rewrite Hexp, <-(map_map snd row_id). f_equal. apply imap_number_fst. }
  assert (Hnum : length (List.filter row_is_terminal rows) = length newest + length oldest).
  { by rewrite <-Hperm, length_app. }
  eexists newest, oldest, _. split_and!; [done | | exact Hrows | done | done | | |].
  - intros a b Ha Hb.
    exact (StronglySorted_app_between (λ a b, newest_first a b = true) newest oldest a b Hs Ha Hb).
  - apply (oldest_reason cutoff keep_last newest oldest Hs). rewrite <-Hexp. by apply filter_forall.
  - unfold sqlite_prune_old_jobs. rewrite Hen. unfold db_bind, db_conn, db_execute, db_query, db_call.
    cbn -[expired_ids delete_rows count_terminal]. fold cutoff keep_last. rewrite Hids.
    unfold delete_rows, db_ret, count_terminal; cbn -[List.filter].
    by rewrite Hdel, Hterm.
  - unfold sqlite_count_old_jobs. rewrite Hen. unfold db_bind, db_conn, db_query, db_call.
    cbn -[expired ranked count_terminal]. fold cutoff keep_last. rewrite Hexp, length_imap.
    unfold db_ret, count_terminal. rewrite Hnum. cbn. do 3 f_equal. lia.
Qed.
End retention.

(** ** The worker pool *)
Section pool.
Context {S P : Type} `{JobStorage S} `{UuidText} (to_value : P → result string JValue).

(** The states of a batch: what any schedule leads to from the start. *)
Definition batch_reaches (workers : nat) (on_error : JobErrorStrategy)
    (items : list (WorkItem P * EnqueueInput)) (sh : Shared S) (l : list (PoolAction S))
    (p : Pool S) : Prop :=
  pool_run workers on_error (channel_capacity (enqueue_items to_value items sh).1.1) l
    (process_batch to_value items sh) = Some p.

(** C27: for every schedule of a batch, at every moment at most as many tasks
    are alive as there are workers, and in the end every item is accounted for:
    its job has exactly one result, or its processor panicked, or it was never
    started and is handed to cancellation, or it could not be enqueued and has
    a failed result; and each counter has grown by the number of results with
    its outcome. *)
Theorem process_batch_accounts_for_every_item (workers : nat) (on_error : JobErrorStrategy)
    (items : list (WorkItem P * EnqueueInput)) (sh : Shared S) (l : list (PoolAction S))
    (p : Pool S) :
  batch_reaches workers on_error items sh l p →
  let '(job_ids, failed, _) := enqueue_items to_value items sh in
  length job_ids + length failed = length items ∧
  live_tasks (Pool_tasks p) ≤ workers ∧
  (Pool_main p = M_Finished →
   ∃ R panicked,
     Pool_results p = failed ++ R ∧
     (JobResult_job_id <$> R) ++ (Task_job_id <$> panicked) ++ Pool_unstarted p ≡ₚ job_ids ∧
     Forall (λ t, Task_pc t = T_Panicked ∧ t ∈ Pool_tasks p) panicked ∧
     ∀ k, counter k (Pool_shared p) =
          (counter k sh + tally (is_kind k) (JobResult_outcome <$> Pool_results p))%N).
Proof.
  unfold batch_reaches. intros Hrun.
  destruct (pool_run_inv workers on_error _ _ _ _ l _ _ p
    (process_batch_inv to_value workers items sh) Hrun) as [R Hinv].
  unfold process_batch in Hinv.
  destruct (enqueue_items to_value items sh) as [[job_ids failed] sh'] eqn:He.
  apply enqueue_items_spec in He as (Hlen & Hall & Hc & Hf & Ha & _).
  pose proof Hinv as [Hres Hids Hlive Hsent Hk _ Hfin].
  split_and!; [done | done |]. intros Hm. destruct (Hfin Hm) as [Hch Hl0].
  exists R, (List.filter (λ t, negb (Task_sent t)) (Pool_tasks p)). split_and!.
  - done.
  - rewrite Hch, app_nil_r in Hsent. rewrite Hsent, app_assoc. unfold sent_ids.
    rewrite <-fmap_app, filter_split_perm. by rewrite Hm in Hids.
  - apply Forall_forall. intros t Ht. rewrite list_elem_of_In, List.filter_In in Ht.
    destruct Ht as [Ht Hns]. rewrite list_elem_of_In. split; [|done].
    apply list_elem_of_In in Ht. pose proof (live_tasks_zero _ t Hl0 Ht) as He.
    unfold Task_ended in He. unfold Task_sent in Hns. by destruct (Task_pc t).
  - intros k. rewrite (Hk k). unfold counted. rewrite Hch, app_nil_r, Hres, fmap_app, !tally_app.
    rewrite (counted_none _ Hl0). cbn [Pool_shared].
    replace (counter k (report _ _)) with (counter k sh') by by destruct k.
    assert (Hbase : counter k sh' = (counter k sh + tally (is_kind k) (JobResult_outcome <$> failed))%N).
    { rewrite (tally_failures k failed Hall). destruct k; cbn; lia. }
    rewrite Hbase. change (tally (is_kind k) []) with 0%N. cbn [Pool_results]. lia.
Qed.

(** C28: a batch ends. Whatever the schedule, it takes at most twenty internal
    steps per job and four more; and as long as it has not finished some
    internal step is possible, in particular a task that sends its result finds
    room in the channel although results are received only after the last task
    has been spawned. *)
Theorem process_batch_terminates (available : option positive) (config : WorkerPoolConfig)
    (on_error : JobErrorStrategy) (items : list (WorkItem P * EnqueueInput)) (sh : Shared S)
    (l : list (PoolAction S)) (p : Pool S) :
  let workers := effective_workers available config in
  let job_ids := (enqueue_items to_value items sh).1.1 in
  batch_reaches workers on_error items sh l p →
  length (List.filter internal l) ≤ 20 * length job_ids + 4 ∧
  (Pool_main p ≠ M_Finished →
   ∃ a p', internal a = true ∧
     pool_step workers on_error (channel_capacity job_ids) a p = Some p').
Proof.
  intros workers job_ids Hrun. split.
  - apply pool_run_measure in Hrun. unfold job_ids, process_batch, pool_measure in *.
    destruct (enqueue_items to_value items sh) as [[ids rs] sh']. cbn in *. lia.
  - destruct (pool_run_inv workers on_error _ _ _ _ l _ _ p
      (process_batch_inv to_value workers items sh) Hrun) as [R Hinv].
    intros Hm. eapply pool_progress; [apply effective_workers_pos | exact Hinv | done].
Qed.
End pool.

(** ** The streaming pool *)
Section stream.
Context `{Chrono} `{UuidText} `{Sqlite} {P : Type} (to_value : P → result string JValue).

(** C29: for every schedule of a stream over the SQLite store, in the end
    every enqueued job is accounted for: it has exactly one result, or its claim
    gave no job, or its processor panicked, or no worker took it; the last only
    when the stream was cancelled, or the strategy is to stop on failures, or
    all workers panicked. The other results are failures of items that could not
    be enqueued, and each counter has grown by the results with its outcome. *)
Theorem process_stream_accounts_for_every_job (on_error : JobErrorStrategy) (capacity : nat)
    (worker_ids : list string) (sh : Shared JobsDb) (l : list (StreamAction JobsDb P))
    (st : Stream JobsDb P) :
  stream_run to_value on_error capacity l (process_stream worker_ids sh) = Some st →
  st_main st = S_Finished →
  ∃ F R panicked left,
    st_results st ≡ₚ F ++ R ∧
    Forall (λ r, JobOutcome_is_failure (JobResult_outcome r) = true) F ∧
    st_enqueued st ≡ₚ (JobResult_job_id <$> R) ++ st_missed st ++ panicked ++ left ∧
    Forall (λ id, ∃ w, w ∈ st_workers st ∧ Worker_pc w = W_Panicked id) panicked ∧
    (left ≠ [] → sh_token (st_shared st) = true ∨ on_error = JobErrorStrategy_Fail ∨
                 Forall (λ w, ∃ id, Worker_pc w = W_Panicked id) (st_workers st)) ∧
    ∀ k, counter k (st_shared st) =
         (counter k sh + tally (is_kind k) (JobResult_outcome <$> st_results st))%N.
Proof.
  intros Hrun Hm.
  assert (Hid : ∀ now id w (s : JobsDb) j s',
    claim_job_by_id now id w s = (Ok (Some j), s') → Job_id j = id)
    by exact sqlite_claim_returns_id.
  destruct (stream_run_inv to_value on_error capacity sh Hid l [] [] [] _ st
    (process_stream_inv on_error worker_ids sh) Hrun) as (F & R & L & Hinv).
  destruct Hinv as [Hres Hfl _ Hids Hleft Hc _ Hexit Hend].
  destruct (Hend ltac:(by rewrite Hm)) as (He & Hw & Hch).
  rewrite Hch, app_nil_r in Hres. unfold stream_counted in Hc. rewrite Hch, He, app_nil_r in Hc.
  exists F, R, (st_workers st ≫= in_flight), (L ++ (HeapEntry_id <$> st_heap st)).
  split_and!; [done | done | | by apply in_flight_panicked | |].
  - apply occ_perm. intros x. specialize (Hids x). rewrite He in Hids. cbn [recording] in Hids.
    rewrite !occ_app in *. rewrite occ_nil in Hids. lia.
  - intros Hl. destruct (list_find_exit (st_workers st) Hw) as [(w & Hin & Hx)|Hall]; [|auto].
    destruct (Hexit w Hin Hx) as [?|[?|[_ Hh]]]; auto. left. apply Hleft.
    rewrite Hh, fmap_nil, app_nil_r in Hl. done.
  - intros k. rewrite (Hc k), (ended_counted _ Hw). by rewrite !app_nil_r.
Qed.
End stream.

(** ** Limits on plans *)

(** A limiter never hands out more permits of a resource than its
    limit: however plans acquire and drop permits, those held and those left
    add up to the configured, positive limit, only configured resources are
    held, and a plan waits only for a resource whose permits are all held. *)
Lemma plan_limits_respected (limits : list (string * usize)) (default_resource : option string)
    (l : PlanExecutionLimiter) (held : list string) :
  limiter_reachable (from_limits_with_default limits default_resource) l held →
  (∀ r, r ∈ held → ∃ n, 0 < n ∧ (r, n) ∈ limits ∧ permits_of r held ≤ n) ∧
  (∀ plan, acquire_for_plan l plan = None →
     ∃ r n, plan_permit l plan = Some r ∧ (r, n) ∈ limits ∧ permits_of r held = n).
Proof.
  intros Hl. apply limiter_balanced in Hl as [_ Hb]. split.
  - intros r Hr. specialize (Hb r). destruct (_ !! r) as [n|] eqn:Hn.
    + apply from_limits_positive in Hn as [Hpos Hin]. destruct Hb as (k & _ & Hk).
      exists n. split_and!; [done | done | lia].
    + destruct Hb as [_ Hz]. exfalso. by apply (permits_of_elem r held).
  - intros plan Hacq. unfold acquire_for_plan in Hacq.
    destruct (plan_permit l plan) as [r|] eqn:Hp; [|done]. exists r. specialize (Hb r).
    assert (is_Some (PlanExecutionLimiter_semaphores l !! r)) as [k Hk].
    { unfold plan_permit in Hp. destruct (from_plan_with_default _ _); [|done]. cbn in Hp.
      case_decide; by simplify_eq. }
    rewrite Hk in Hacq, Hb. destruct (_ !! r) as [n|] eqn:Hn in Hb; [|by destruct Hb].
    apply from_limits_positive in Hn as [_ Hin]. destruct Hb as (k' & [= <-] & Hk').
    exists n. split_and!; [done | done |]. destruct k; [lia | done].
Qed.


(** ** Witnesses *)
#[local] Existing Instance chrono_unary.
#[local] Existing Instance uuid_unary.
#[local] Existing Instance sqlite_sample.
#[local] Existing Instance job_hash_order_gmap.

(** [Result::ok] *)
Definition result_ok {E A} (r : result E A) : option A :=
  match r with Ok a => Some a | Err _ => None end.

Lemma complete_storable now j :
  sqlite_storable j → sqlite_storable (apply_update (complete_update now None) j).
Proof. intros (?&?&?&?&?). by split_and!. Qed.

Ltac each_op :=
  repeat (apply Forall_cons; split;
          [first [done | by intros ? ?; apply complete_storable | by intros ?]|]);
  by apply Forall_nil.

Lemma job_claimed_at_most_once_witness :
  NoDup (run_ops sample_ops (empty_db [None; None; None; None; None; None;
    Some (rusqlite_SqliteFailure ErrorCode_Unknown "disk I/O error")])).1 ∧
  (run_ops sample_ops (empty_db [None; None; None; None; None; None;
    Some (rusqlite_SqliteFailure ErrorCode_Unknown "disk I/O error")])).1 = [2%N; 1%N].
Proof.
  split; [|vm_compute; reflexivity].
  apply (job_claimed_at_most_once _ _ ∅).
  - apply empty_db_rep.
  - each_op.
  - vm_compute. repeat constructor; set_solver.
  - intros id _. apply lookup_empty.
Defined.

Definition keep_none : RetentionPolicy :=
  {| RetentionPolicy_max_age := None; RetentionPolicy_keep_last := Some 0%N |}.

Definition sample_store_ops : list store_op :=
  [ SCreate (sample_job 1 3 50); SCreate (sample_job 2 4 10); SClaimNext 5 "a";
    SUpdate 2 (complete_update 6 None); SClaimById 7 1 "b";
    SList {| JobFilters_status := None; JobFilters_limit := Some 5%N; JobFilters_offset := Some 1%N |};
    SCountByStatus; SOldest; SCountOld 9 keep_none; SPrune 9 keep_none;
    SDelete (Some JobStatus_Running); SJob 2 ].

Lemma sample_store_ops_fresh : ids_fresh sample_store_ops ∅.
Proof.
  split; [vm_compute; repeat constructor; set_solver|]. intros id _. apply lookup_empty.
Qed.

Lemma sqlite_store_refines_job_map_witness :
  Forall (λ a, ¬ is_error a) (exec_ops sample_store_ops (empty_db [])).1 ∧
  ∃ m', spec_run ∅ sample_store_ops (exec_ops sample_store_ops (empty_db [])).1 m'.
Proof.
  destruct (sqlite_store_refines_job_map sample_store_ops (empty_db []) ∅) as [(m' & _ & Hrun) Htot].
  - apply empty_db_rep.
  - each_op.
  - apply sample_store_ops_fresh.
  - split; [|by exists m']. apply Htot; [done|].
    each_op.
Defined.

Definition one_job_db : JobsDb :=
  {| db_rows := [row_of (sample_job 1 3 50)]; db_faults := [] |}.

Lemma one_job_rep : sqlite_rep one_job_db (jmap [sample_job 1 3 50]).
Proof.
  exists [sample_job 1 3 50]. split_and!; [done | apply NoDup_singleton | | done].
  apply Forall_singleton. by apply sample_job_storable.
Qed.

Lemma cancel_only_live_jobs_witness :
  sqlite_rep one_job_db (jmap [sample_job 1 3 50]) ∧
  (∃ e, (JobQueue_cancel 9 2 one_job_db).1 = Err e) ∧
  (JobQueue_cancel 9 1 one_job_db).1 = Ok tt.
Proof.
  split; [apply one_job_rep|]. split; [|vm_compute; reflexivity].
  apply (cancel_only_live_jobs 9 2 one_job_db (jmap [sample_job 1 3 50]) one_job_rep); [done|].
  intros j Hj. discriminate Hj.
Defined.

(** Three finished jobs, of which a policy keeps the newest. *)
Definition finished_row (id : Uuid) (completed : DateTime) : JobRow :=
  row_of (apply_update (complete_update completed None) (sample_job id 1 50)).

Definition finished_rows : list JobRow :=
  [finished_row 1 4; finished_row 2 9; row_of (sample_job 3 2 50); finished_row 4 7].

Definition keep_one : RetentionPolicy :=
  {| RetentionPolicy_max_age := None; RetentionPolicy_keep_last := Some 1%N |}.

Lemma prune_old_jobs_keeps_newest_witness :
  ∃ newest oldest rows',
    newest ++ oldest ≡ₚ List.filter row_is_terminal finished_rows ∧
    sqlite_prune_old_jobs 20 keep_one {| db_rows := finished_rows; db_faults := [] |} =
      (Ok {| PruneReport_deleted := N.of_nat (length oldest);
             PruneReport_kept := N.of_nat (length newest) |},
       {| db_rows := rows'; db_faults := [] |}).
Proof.
  destruct (prune_old_jobs_keeps_newest finished_rows 20 keep_one)
    as (newest & oldest & rows' & Hperm & _ & _ & _ & _ & _ & Hprune & _).
  - vm_compute. repeat constructor; set_solver.
  - reflexivity.
  - by exists newest, oldest, rows'.
Defined.

Definition sample_final : Pool InMemoryStore :=
  let p := process_batch unit_to_value sample_items sample_shared in
  default p (pool_run 1 JobErrorStrategy_Fail 2 sample_schedule p).

Lemma process_batch_accounts_for_every_item_witness :
  Pool_main sample_final = M_Finished ∧
  ∃ R panicked,
    Pool_results sample_final = R ∧
    (JobResult_job_id <$> R) ++ (Task_job_id <$> panicked) ++ Pool_unstarted sample_final
      ≡ₚ [1%N; 2%N].
Proof.
  assert (Hm : Pool_main sample_final = M_Finished) by (vm_compute; reflexivity).
  split; [exact Hm|].
  assert (Hrun : batch_reaches unit_to_value 1 JobErrorStrategy_Fail sample_items sample_shared
            sample_schedule sample_final) by (vm_compute; reflexivity).
  pose proof (process_batch_accounts_for_every_item unit_to_value 1 JobErrorStrategy_Fail
    sample_items sample_shared sample_schedule sample_final Hrun) as (_ & _ & Hfin).
  destruct (Hfin Hm) as (R & panicked & HR & Hids & _). exists R, panicked. by split.
Defined.

Lemma process_batch_terminates_witness :
  length (List.filter internal sample_schedule) ≤ 44.
Proof.
  assert (Hrun : batch_reaches unit_to_value
            (effective_workers (Some 1%positive) WorkerPoolConfig_default) JobErrorStrategy_Fail
            sample_items sample_shared sample_schedule sample_final) by (vm_compute; reflexivity).
  exact (proj1 (process_batch_terminates unit_to_value (Some 1%positive) WorkerPoolConfig_default
    JobErrorStrategy_Fail sample_items sample_shared sample_schedule sample_final Hrun)).
Defined.

Definition stream_final (l : list (StreamAction JobsDb bool)) : Stream JobsDb bool :=
  let st := process_stream ["w-1"] stream_shared in
  default st (stream_run bool_to_value JobErrorStrategy_Fail (stream_capacity 1) l st).

Lemma process_stream_accounts_for_every_job_witness :
  ∃ F R panicked left,
    st_results (stream_final stream_schedule) ≡ₚ F ++ R ∧
    [1%N] ≡ₚ (JobResult_job_id <$> R) ++ st_missed (stream_final stream_schedule) ++ panicked ++ left.
Proof.
  assert (Hrun : stream_run bool_to_value JobErrorStrategy_Fail (stream_capacity 1) stream_schedule
            (process_stream ["w-1"] stream_shared) = Some (stream_final stream_schedule))
    by (vm_compute; reflexivity).
  assert (Hm : st_main (stream_final stream_schedule) = S_Finished) by (vm_compute; reflexivity).
  destruct (process_stream_accounts_for_every_job bool_to_value JobErrorStrategy_Fail
    (stream_capacity 1) ["w-1"] stream_shared stream_schedule (stream_final stream_schedule) Hrun Hm)
    as (F & R & panicked & left & Hres & _ & Hids & _).
  exists F, R, panicked, left. by split.
Defined.

(** A plan that transcodes with a hardware encoder. *)
Definition nvenc_plan : Plan :=
  Plan_set_actions (Plan_new (sample_stamps 0) sample_file "policy" "phase")
    [{| PlannedAction_operation := Op_TranscodeVideo;
        PlannedAction_track_index := Some 0%N;
        PlannedAction_parameters := AP_Transcode "hevc" TranscodeSettings_default;
        PlannedAction_description := "" |}].

Definition nvenc_limiter : PlanExecutionLimiter :=
  from_limits_with_default [("hw:nvenc", 1); ("hw:qsv", 0)] (Some "hw:nvenc").

Lemma nvenc_acquired :
  limiter_reachable nvenc_limiter (set_permits nvenc_limiter "hw:nvenc" 0) ["hw:nvenc"].
Proof.
  apply (limiter_acquire _ nvenc_limiter [] nvenc_plan (Some "hw:nvenc")); [apply limiter_start|].
  vm_compute. reflexivity.
Qed.

Lemma plan_limits_respected_witness :
  acquire_for_plan (set_permits nvenc_limiter "hw:nvenc" 0) nvenc_plan = None ∧
  ∃ r n, plan_permit (set_permits nvenc_limiter "hw:nvenc" 0) nvenc_plan = Some r ∧
    (r, n) ∈ [("hw:nvenc", 1); ("hw:qsv", 0)] ∧ permits_of r ["hw:nvenc"] = n.
Proof.
  assert (Hw : acquire_for_plan (set_permits nvenc_limiter "hw:nvenc" 0) nvenc_plan = None)
    by (vm_compute; reflexivity).
  split; [exact Hw|].
  exact (proj2 (plan_limits_respected [("hw:nvenc", 1); ("hw:qsv", 0)] (Some "hw:nvenc") _ _
           nvenc_acquired) nvenc_plan Hw).
Defined.

(** ** Limits of the code *)

(** A batch whose token is cancelled after a task was spawned and before the
    task looks at it reports the job as cancelled but leaves it pending. *)
Lemma cancelled_task_leaves_job_pending :
  let p := process_batch unit_to_value [sample_item 1] sample_shared in
  match pool_run 1 JobErrorStrategy_Fail 1
          ([A_Spawn "w-1"; A_Cancel] ++ replicate 3 (A_Task 0 sample_input) ++
           [A_EndSpawning; A_EndSweep; A_Recv; A_Finish]) p with
  | Some q =>
      Pool_results q = [JobResult_failure 1 "cancelled"] ∧
      Job_status <$> InMemoryStore_jobs (sh_store (Pool_shared q)) !! 1%N = Some JobStatus_Pending
  | None => False
  end.
Proof. vm_compute. done. Qed.

(** Under the strategy that stops on failures, an item that cannot be enqueued
    while a job runs makes the worker stop without cancelling the stream: a job
    enqueued later stays pending, without a result. *)
Lemma stream_strands_job :
  let st := stream_final strand_schedule in
  st_main st = S_Finished ∧ sh_token (st_shared st) = false ∧
  JobResult_job_id <$> st_results st = [102%N; 1%N] ∧
  row_status <$> db_rows (sh_store (st_shared st)) = ["completed"; "pending"].
Proof. vm_compute. done. Qed.

(** A gate that opens before a worker waits for it does not wake the worker. *)
Lemma gate_signal_lost :
  let st := stream_final [SA_OpenGate; SA_Worker 0 sample_input] in
  Worker_pc <$> st_workers st = [W_Waiting] ∧
  stream_step bool_to_value JobErrorStrategy_Fail (stream_capacity 1) (SA_Worker 0 sample_input) st
    = None.
Proof. vm_compute. done. Qed.

(** A job that is cancelled while it runs ends as completed. *)
Lemma complete_overwrites_cancelled :
  let s := (run_ops [QEnqueue 1 3 JobType_Scan 50 None; QClaim 4 "a"; QCancel 5 1;
                     QComplete 6 1 None] (empty_db [])).2 in
  option_map Job_status <$> result_ok (JobQueue_job 1 s).1 = Some (Some JobStatus_Completed).
Proof. vm_compute. done. Qed.

(** Progress that is not a number is stored as [NULL], and the job can no longer
    be read, listed with others or claimed. *)
Lemma nan_progress_hides_jobs :
  let s := (run_ops [QEnqueue 1 3 JobType_Scan 50 None; QEnqueue 2 4 JobType_Scan 60 None;
                     QProgress 1 S754_nan None] (empty_db [])).2 in
  result_ok (JobQueue_job 1 s).1 = None ∧ result_ok (JobQueue_list_jobs JobFilters_default s).1 = None ∧
  result_ok (JobQueue_claim 5 "a" s).1 = None.
Proof. vm_compute. done. Qed.

(** A page without a limit is a syntax error. *)
Lemma offset_without_limit_fails :
  result_ok (JobQueue_list_jobs {| JobFilters_status := None; JobFilters_limit := None;
                                   JobFilters_offset := Some 0%N |} one_job_db).1 = None.
Proof. vm_compute. done. Qed.

(** Asked to, [delete_jobs] deletes pending jobs. *)
Lemma delete_jobs_deletes_pending :
  (delete_jobs (Some JobStatus_Pending) one_job_db).1 = Ok 1%N.
Proof. vm_compute. done. Qed.
