(* ===== verification/ExecutorTheorems.v ===== *)
(** * Theorems about the executors

    The MKVToolNix executor, crop detection and the search for a quality target:
    what their commands say, what they leave behind and when they end. *)
From S2P Require Import Prelude Json Media Plan Compiled CapabilityMap Condition Evaluator.
From S2P Require Import EmitFacts PhaseFacts Events Kernel Process MkvExecutor MkvFacts.
From S2P Require Import CropDetect VmafSearch Samples.

(** ** MKVToolNix *)
Section command.
Context `{Unicode, HashOrder, JsonDisplay, RegexCrate}.

Lemma video_option ty : category_option ty = Some "--video-tracks" ↔ TrackType_is_video ty = true.
Proof. by destruct ty. Qed.

Lemma audio_option ty : category_option ty = Some "--audio-tracks" ↔ TrackType_is_audio ty = true.
Proof. by destruct ty. Qed.

(** C6: the [mkvmerge] command of an evaluated plan does to the file what the
    plan says. Read as [mkvmerge] documents it, it drops a video, audio or
    subtitle track exactly if the plan removes it; and, if the plan is not
    skipped, it never drops all video or all audio tracks. *)
Theorem mkvmerge_drops_removed_tracks stamps policy file caps lookup r p output :
  evaluate_with_phase_outputs stamps policy file caps lookup = Ok r →
  p ∈ EvaluationResult_plans r →
  NoDup (Track_index <$> MediaFile_tracks file) →
  Forall (λ t, (Track_index t ≤ u32_MAX)%N) (MediaFile_tracks file) →
  let excluded := mkvmerge_excludes
    (build_merge_args (MediaFile_path file) output (classify_actions (Plan_actions p)).2) in
  (∀ t name, t ∈ MediaFile_tracks file → category_option (Track_track_type t) = Some name →
     excluded name (Track_index t) = negb (survives (Plan_actions p) t)) ∧
  (Plan_skip_reason p = None → ∀ name, name ∈ ["--video-tracks"; "--audio-tracks"] →
   ∀ t, t ∈ MediaFile_tracks file → category_option (Track_track_type t) = Some name →
   ∃ t', t' ∈ MediaFile_tracks file ∧ category_option (Track_track_type t') = Some name ∧
         excluded name (Track_index t') = false).
Proof.
  intros [_ Ht]%evaluate_Ok_trace Hp Hnd Hmax excluded.
  eapply evaluation_trace_elem in Hp as (stamp & phase & oc & _ & He); [|done].
  pose proof (evaluate_phase_plan_ok _ _ _ _ _ _ _ He) as [Hok _ _].
  assert (∀ t name, t ∈ MediaFile_tracks file → category_option (Track_track_type t) = Some name →
     excluded name (Track_index t) = negb (survives (Plan_actions p) t)) as Hex.
  { intros t name Hin Hc. by apply (command_excludes_removed file). }
  split; [exact Hex|]. intros Hs name Hname t Hin Hc.
  apply evaluate_phase_protects in He as (Hv & Ha & _); [|unfold Plan_is_skipped; by rewrite Hs].
  rewrite !elem_of_cons, elem_of_nil in Hname. destruct Hname as [->|[->|[]]].
  - destruct Hv as (t' & ? & ? & Hsv); [exists t; by rewrite <-video_option|].
    exists t'. rewrite video_option. split_and!; [done..|].
    rewrite Hex; [by rewrite Hsv|done|by apply video_option].
  - destruct Ha as (t' & ? & ? & Hsv); [exists t; by rewrite <-audio_option|].
    exists t'. rewrite audio_option. split_and!; [done..|].
    rewrite Hex; [by rewrite Hsv|done|by apply audio_option].
Qed.
End command.

Section files.
Context {S : Type} `{MutationStorage S} `{Children} `{Unicode}.
Context (to_str : string → option string).

Lemma classify_structural actions :
  Forall (λ a, is_merge_op (PlannedAction_operation a) = true) actions →
  classify_actions actions = ([], actions) ∧ existsb is_mux_subtitle actions = false.
Proof.
  intros Hall. unfold classify_actions, is_mux_subtitle. induction Hall as [|a l Ha _ IH]; [done|].
  simpl. destruct IH as [[= -> ->] ->].
  unfold is_merge_op in *. rewrite bool_decide_eq_true in Ha.
  unfold MERGE_OPS in Ha. rewrite !elem_of_cons, elem_of_nil in Ha.
  by destruct Ha as [-> | [-> | [-> | []]]].
Qed.

(** C5: executing a plan of structural changes (removals, reordering, a
    conversion to Matroska) is all or nothing. If it fails, for whatever reason,
    no file has changed, and without a failing file operation the temporary file
    is gone. If it succeeds, the final path has what [mkvmerge] wrote, only the
    original and the temporary file may have changed besides, and the change is
    on record for the scan session. *)
Theorem structural_plan_all_or_nothing `{!MkvmergeWrites} (has_store : bool)
    (inputs : nat → ExecInput) (plan : Plan) (w : World S) :
  let path := MediaFile_path (Plan_file plan) in
  let temp := temp_path_with_ext to_str (in_temp_id (inputs 0)) path "mkv" in
  let final := determine_final_path path (Plan_actions plan) in
  let '(r, w') := execute_plan to_str has_store inputs plan w in
  Plan_actions plan ≠ [] →
  Forall (λ a, is_merge_op (PlannedAction_operation a) = true) (Plan_actions plan) →
  to_string_lossy temp = temp → w_files w !! path_key temp = None →
  all_or_nothing has_store (Plan_scan_session plan) path temp final
    (build_merge_args path temp (Plan_actions plan)) r w w'.
Proof.
  intros path temp final. pose proof (execute_merge_spec to_str has_store (inputs 0)
    (Plan_scan_session plan) path (Plan_actions plan) w) as Hm.
  destruct (execute_plan to_str has_store inputs plan w) as [r w'] eqn:He.
  intros Hne Hall Hlossy Htemp. unfold execute_plan in He. fold path in He.
  destruct (fs_exists path w); cbn [negb] in He; [|by injection He as <- <-].
  destruct (classify_structural _ Hall) as [Hcl Hmux]. rewrite Hmux, Hcl in He.
  set (merge := execute_merge_actions to_str has_store (inputs 0) (Plan_scan_session plan) path
                  (Plan_actions plan)) in *.
  assert (∃ r0, merge w = (r0, w') ∧ all_succeeded r0 = all_succeeded r) as (r0 & Hr0 & Hsame).
  { revert He. unfold execute_propedit_actions, io_bind, io_ret.
    destruct (merge w) as [[rs|e] w1]; case_match; intros [= <- <-]; rewrite ?app_nil_r; eauto. }
  rewrite Hr0 in Hm. specialize (Hm Hlossy Htemp Hne). unfold all_or_nothing in *.
  by rewrite <-Hsame.
Qed.
End files.

(** ** Crop detection *)

(** C37: a detected crop is conservative. Whatever the settings, it cuts away no
    more than any of the samples shows, except for one pixel at the right and
    at the bottom that makes the output dimensions even, as they are; and
    detection fails only if the agreed crop would leave nothing of the picture. *)
Theorem detected_crop_conservative (rects : list CropRect) (source : CropDetectSource)
    (settings : CropSettings) :
  (CropDetectSource_width source ≤ u32_MAX)%N → (CropDetectSource_height source ≤ u32_MAX)%N →
  match conservative_crop rects source (CropDetectConfig_from settings) with
  | Ok None => rects = []
  | Ok (Some r) =>
      (∀ x, x ∈ rects →
         CropRect_left r ≤ CropRect_left x ∧ CropRect_top r ≤ CropRect_top x ∧
         CropRect_right r ≤ CropRect_right x + 1 ∧ CropRect_bottom r ≤ CropRect_bottom x + 1)%N ∧
      (∃ w, CropDetectSource_width source = CropRect_left r + CropRect_right r + 2 * w)%N ∧
      (∃ h, CropDetectSource_height source = CropRect_top r + CropRect_bottom r + 2 * h)%N
  | Err _ => ∃ first rest, rects = first :: rest ∧
      ¬ leaves_picture source (preserve_bottom
          (apply_minimum_crop (foldl min_rect first rest)
             (CropDetectConfig_minimum_crop (CropDetectConfig_from settings)))
          (CropDetectConfig_preserve_bottom_pixels (CropDetectConfig_from settings)))
  end.
Proof.
  intros HW HH. unfold conservative_crop. destruct rects as [|first rest]; [done|].
  set (config := CropDetectConfig_from settings). set (agreed := foldl min_rect first rest).
  set (rect := preserve_bottom _ _).
  pose proof (snap_to_aspect_lock_spec rect source _ (config_ratios_ok settings)) as Hlock.
  fold config in Hlock.
  destruct (snap_to_aspect_lock rect source (CropDetectConfig_aspect_locks config)) as [locked|e];
    cbn; [|by exists first, rest].
  pose proof (snap_output_to_even_spec locked source HW HH) as Heven.
  destruct (snap_output_to_even locked source) as [r|e]; cbn.
  - destruct Heven as (Hl & Ht & Hr & Hb & Hw & Hh). split_and!; [|done..].
    assert (∀ x, x ∈ first :: rest → within_crop locked x) as Hin.
    { intros x Hx. etrans; [exact Hlock|]. etrans; [apply adjusted_within|]. fold agreed.
      destruct (min_rects_within first rest) as [H1 H2].
      apply elem_of_cons in Hx as [->|Hx]; [done|by apply H2]. }
    intros x Hx. apply Hin in Hx as (? & ? & ? & ?). rewrite Hl, Ht. lia.
  - exists first, rest. split; [done|]. intros Hp. apply Heven. by eapply within_leaves.
Qed.

(** ** The search for a quality target *)

(** C36: The search for a CRF is a correct bisection, if some CRF up to 51 is itself
    on target or never tried: every score off the target is above it at a smaller
    CRF and below it at a larger one. Then, in every build, the search never
    overflows, uses CRFs up to 51 only, and returns within the allowed number of
    rounds, with a score on target or with the last attempt; and if no attempt
    fails, six rounds are enough to hit the target. *)
Theorem vmaf_search_converges {S : Type} `{EncodeAttempt S} (checks : bool)
    (reference work_dir : PathBuf) (target_vmaf : u32) (bounds : BitrateBounds)
    (model : VmafModel) (max_iterations best : u32) (w : World S) :
  separates reference work_dir target_vmaf bounds model best → (best ≤ MAX_CRF)%N →
  let o := (run_bisection checks reference work_dir target_vmaf bounds model max_iterations w).1 in
  search_ok target_vmaf max_iterations o ∧
  (attempts_succeed reference work_dir bounds model → (6 ≤ max_iterations)%N →
   ∃ r, o = Finished (Ok r)).
Proof.
  intros Hsep Hbest o. unfold o, run_bisection, MIN_CRF, DEFAULT_START_CRF, MAX_CRF in *. split.
  - pose proof (bisect_separated checks reference work_dir target_vmaf bounds model best
      (N.to_nat max_iterations) 1 0 51 23 None w) as Hok.
    rewrite N2Nat.id, N.add_comm, N.add_sub in Hok. by apply Hok; unfold MAX_CRF; [|lia..|].
  - intros Hall Hmax. destruct (N.to_nat max_iterations) as [|m] eqn:Hm; [lia|].
    apply (bisect_converges checks reference work_dir target_vmaf bounds model best 5);
      unfold MAX_CRF; [done|done|lia..|done].
Qed.

(** ** Witnesses *)
#[local] Existing Instance unicode_ascii.
#[local] Existing Instance hash_order_gmap.
#[local] Existing Instance json_display_sample.
#[local] Existing Instance regex_literal.

Lemma mkvmerge_drops_removed_tracks_witness :
  let excluded := mkvmerge_excludes
    (build_merge_args "/media/movie.mkv" "/media/out.mkv"
       (classify_actions (Plan_actions (sample_plan 0))).2) in
  excluded "--audio-tracks" 2%N = true ∧ excluded "--audio-tracks" 1%N = false ∧
  ∃ t, t ∈ MediaFile_tracks sample_file ∧ category_option (Track_track_type t) = Some "--video-tracks" ∧
       excluded "--video-tracks" (Track_index t) = false.
Proof.
  assert (∀ n t, MediaFile_tracks sample_file !! n = Some t → t ∈ MediaFile_tracks sample_file)
    as Hin by (intros n t; apply list_elem_of_lookup_2).
  destruct (mkvmerge_drops_removed_tracks sample_stamps sample_policy sample_file None None
              sample_result (sample_plan 0) "/media/out.mkv") as [Hex Hkeep].
  - vm_compute. reflexivity.
  - apply (list_elem_of_lookup_2 _ 0). vm_compute. reflexivity.
  - apply (bool_decide_unpack _). vm_compute. exact I.
  - apply (bool_decide_unpack _). vm_compute. exact I.
  - intros excluded. split_and!.
    + etrans; [apply (Hex (Track_new 2 TrackType_AudioAlternate "dts") "--audio-tracks");
               [apply (Hin 2) |]|]; vm_compute; reflexivity.
    + etrans; [apply (Hex (Track_new 1 TrackType_AudioMain "aac") "--audio-tracks");
               [apply (Hin 1) |]|]; vm_compute; reflexivity.
    + apply (Hkeep ltac:(vm_compute; reflexivity) "--video-tracks" ltac:(apply list_elem_of_here)
               (Track_new 0 TrackType_Video "h264")); [apply (Hin 0)|]; vm_compute; reflexivity.
Defined.

(** *** Files *)

(** A [mkvmerge] that writes its output, unless the file [/bad] exists, and a
    [mkvpropedit] that writes the title. *)
Definition exited (code : i32) : ChildOutcome :=
  Child_Exited (ExitStatus_Code code) (Pipe_Chunks []) (Pipe_Chunks []).

Definition sample_children : Children := λ tool args files,
  match args with
  | _ :: out :: _ =>
      if bool_decide (tool = "mkvmerge") then
        if bool_decide (files !! path_key "/bad" = None)
        then (exited 0, <[path_key out := "merged"]> files) else (exited 2, files)
      else (exited 0, <[path_key (default "" (head args)) := "edited"]> files)
  | _ => (exited 2, files)
  end.
#[local] Existing Instance sample_children.

#[local] Instance sample_children_writes : MkvmergeWrites.
Proof.
  intros out args files k Hk. unfold run_child, sample_children.
  rewrite bool_decide_true by done. case_bool_decide; [|done]. by apply lookup_insert_ne.
Qed.

#[local] Instance sample_mutations : MutationStorage (list VoomOriginatedMutation) :=
  λ m ms, (Ok tt, m :: ms).

Definition sample_world (files : list (PathBuf * string)) : World (list VoomOriginatedMutation) :=
  Build_World (list_to_map (prod_map path_key id <$> files)) [] [].

Definition sample_inputs (n : nat) : ExecInput :=
  {| in_temp_id := "id"; in_duration_ms := 1; in_recorded_at := 0 |}.

Definition structural_action (op : OperationType) (params : ActionParams) (idx : option u32)
    : PlannedAction :=
  {| PlannedAction_operation := op; PlannedAction_track_index := idx;
     PlannedAction_parameters := params; PlannedAction_description := "" |}.

Definition remove_audio : PlannedAction :=
  structural_action Op_RemoveTrack (AP_RemoveTrack "filter" TrackType_AudioAlternate) (Some 2%N).

Definition removal_plan : Plan :=
  Plan_set_actions (Plan_new (sample_stamps 0) sample_file "policy" "phase") [remove_audio].

Lemma structural_plan_all_or_nothing_witness :
  let w := sample_world [("/media/movie.mkv", "original")] in
  let w' := (execute_plan Some true sample_inputs removal_plan w).2 in
  w_files w' !! path_key "/media/movie.mkv" = Some "merged".
Proof.
  pose proof (structural_plan_all_or_nothing Some true sample_inputs removal_plan
                (sample_world [("/media/movie.mkv", "original")])) as Hall.
  intros w w'. unfold w', w.
  destruct (execute_plan Some true sample_inputs removal_plan _) as [r w1] eqn:He.
  assert (all_succeeded r = true) as Hr.
  { change r with (r, w1).1. rewrite <-He. by vm_compute. }
  assert (Forall (λ a, is_merge_op (PlannedAction_operation a) = true) (Plan_actions removal_plan))
    as Hops by (repeat constructor).
  specialize (Hall ltac:(done) Hops ltac:(done) ltac:(by vm_compute)).
  unfold all_or_nothing in Hall. rewrite Hr in Hall. destruct Hall as [(content & Hc & Hf) _].
  vm_compute in Hc. injection Hc as <-. exact Hf.
Defined.

(** *** Crops *)
Definition full_hd : CropDetectSource :=
  {| CropDetectSource_width := 1920; CropDetectSource_height := 1080;
     CropDetectSource_duration_secs := f64_of_Z 60 |}.

Definition letterbox (n : u32) : CropRect :=
  {| CropRect_left := 0; CropRect_top := n; CropRect_right := 0; CropRect_bottom := n |}.

Lemma detected_crop_conservative_witness :
  ∃ r, conservative_crop [letterbox 141; letterbox 140] full_hd
         (CropDetectConfig_from CropSettings_auto) = Ok (Some r) ∧
       (CropRect_top r ≤ 140 ∧ CropRect_bottom r ≤ 141)%N.
Proof.
  pose proof (detected_crop_conservative [letterbox 141; letterbox 140] full_hd CropSettings_auto
                ltac:(done) ltac:(done)) as Hc.
  destruct (conservative_crop _ _ _) as [[r|]|e] eqn:He; [| |].
  - exists r. split; [done|]. destruct Hc as [Hin _].
    destruct (Hin (letterbox 140)) as (_ & Ht & _ & Hb);
      [apply list_elem_of_further, list_elem_of_here|]. by split.
  - vm_compute in He. discriminate.
  - vm_compute in He. discriminate.
Defined.

(** *** Quality *)

(** An encoder that remembers the CRF, with a score for each CRF. *)
Definition scored (score : u32 → f64) : EncodeAttempt u32 := {|
  encode_sample _ _ crf _ w := (Ok None, Build_World (w_files w) crf (w_faults w));
  measure_vmaf _ _ _ w := (Ok (score (w_store w)), w);
|}.

Definition no_bounds : BitrateBounds :=
  {| BitrateBounds_min_bitrate := None; BitrateBounds_max_bitrate := None |}.

(** 100 below CRF 30, the target at it and 60 above. *)
Definition score_30 (crf : u32) : f64 :=
  if (crf <? 30)%N then f64_of_Z 100 else if (crf =? 30)%N then f64_of_Z 93 else f64_of_Z 60.

Lemma score_30_separates :
  let _ := scored score_30 in
  separates "ref.mkv" "/tmp" 93 no_bounds VmafModel_V061 30 ∧
  attempts_succeed "ref.mkv" "/tmp" no_bounds VmafModel_V061.
Proof.
  split; [|by intros; do 2 eexists].
  intros iteration crf w r w' [= <- <-]. cbn [IterationResult_achieved_vmaf w_store].
  unfold score_30. destruct (N.ltb_spec crf 30); [by vm_compute|].
  destruct (N.eqb_spec crf 30); [by vm_compute|]. intros _.
  change (30 < crf)%N. lia.
Qed.

Lemma vmaf_search_converges_witness :
  let _ := scored score_30 in
  ∃ r, (run_bisection true "ref.mkv" "/tmp" 93 no_bounds VmafModel_V061 6
          (Build_World ∅ 0%N [])).1 = Finished (Ok r) ∧ (IterationResult_final_crf r ≤ 51)%N.
Proof.
  intros enc. destruct score_30_separates as [Hsep Hall].
  destruct (vmaf_search_converges (H := enc) true "ref.mkv" "/tmp" 93 no_bounds VmafModel_V061 6 30
              (Build_World ∅ 0%N []) Hsep ltac:(done)) as [Hok Hconv].
  destruct (Hconv Hall ltac:(done)) as [r Hr]. rewrite Hr in Hok. exists r. split; [done|].
  by destruct Hok as (_ & ? & _).
Defined.

(** ** Limits of the code *)

(** If the score steps over the target between CRF 17 and CRF 18, the fifth
    round computes [high - low] with [high] below [low]: a build that checks
    arithmetic panics, and one that does not goes on with CRF 2147483665. *)
Definition score_17 (crf : u32) : f64 :=
  if (crf <=? 17)%N then f64_of_Z 100 else f64_of_Z 60.

Lemma score_step_underflows :
  let _ := scored score_17 in
  let run checks max := run_bisection checks "ref.mkv" "/tmp" 93 no_bounds VmafModel_V061 max
                          (Build_World ∅ 0%N []) in
  (run true 5%N).1 = Overflowed ∧ w_store (run false 6%N).2 = 2147483665%N.
Proof. split; vm_compute; reflexivity. Qed.

Definition mixed_plan (container : Container) : Plan :=
  Plan_set_actions
    (Plan_new (sample_stamps 0) (MediaFile_with_container sample_file container) "policy" "phase")
    [remove_audio;
     structural_action Op_SetTitle (AP_Title "new title") (Some 1%N)].

(** If the properties are edited and the merge then fails, the plan is reported
    as succeeded, though the track is still there. *)
Lemma partial_failure_reported_as_success (json : ActionResultsJson) :
  let w := sample_world [("/media/movie.mkv", "original"); ("/bad", "")] in
  let '(r, w') := execute_plan Some true sample_inputs (mixed_plan Container_Mkv) w in
  all_succeeded r = false ∧ w_files w' !! path_key "/media/movie.mkv" = Some "edited" ∧
  EventResult_execution_error (EventResult_from_plan_execution mkv_name r) = None.
Proof. vm_compute. done. Qed.

Definition avi_plan : Plan :=
  Plan_set_actions
    (Plan_new (sample_stamps 0)
       (MediaFile_with_container (MediaFile_new 1 0 "/media/movie.avi") Container_Avi)
       "policy" "phase")
    [structural_action Op_ConvertContainer (AP_Container Container_Mkv) None;
     structural_action Op_SetTitle (AP_Title "new title") (Some 1%N)].

(** If the conversion of [movie.avi] fails, the properties are still edited, in
    [movie.mkv], which is then another file. *)
Lemma failed_conversion_edits_other_file :
  let w := sample_world [("/media/movie.avi", "original"); ("/media/movie.mkv", "other");
                         ("/bad", "")] in
  let w' := (execute_plan Some true sample_inputs avi_plan w).2 in
  w_files w' !! path_key "/media/movie.avi" = Some "original" ∧
  w_files w' !! path_key "/media/movie.mkv" = Some "edited".
Proof. split; vm_compute; reflexivity. Qed.

(** Properties edited after a merge address tracks by their number before it:
    with audio track 1 removed, the title of subtitle track 2 goes to the third
    track, which is another track or none. *)
Lemma edit_after_merge_keeps_numbers :
  build_propedit_args "/media/movie.mkv"
    [structural_action Op_SetTitle (AP_Title "new title") (Some 2%N)] =
  Ok ["/media/movie.mkv"; "--edit"; "track:3"; "--set"; "name=new title"].
Proof. vm_compute. reflexivity. Qed.

(** Removing an attachment adds its number to the three options for tracks and
    to none for attachments. *)
Lemma attachment_removal_names_tracks :
  build_merge_args "/media/movie.mkv" "/media/out.mkv"
    [structural_action Op_RemoveTrack (AP_RemoveTrack "filter" TrackType_Attachment) (Some 3%N)] =
  ["-o"; "/media/out.mkv"; "--video-tracks"; "!3"; "--audio-tracks"; "!3"; "--subtitle-tracks";
   "!3"; "/media/movie.mkv"].
Proof. vm_compute. reflexivity. Qed.
