(* ===== verification/FfmpegTheorems.v ===== *)
(** * Theorems about the FFmpeg executor

    What its command lines say to [ffmpeg], which encoders they use, and what the
    execution of a plan leaves behind. *)
From S2P Require Import Prelude Json Media Plan CapabilityMap Condition Codecs Jobs Events Kernel.
From S2P Require Import Process MkvExecutor MkvFacts CropDetect FfmpegCommand VmafSearch.
From S2P Require Import FfmpegExecutor FfmpegFacts Samples StoreSamples.

Section command.
Context `{Unicode} `{StrDebug}.

(** C8: the [ffmpeg] command of a list of actions, read as [ffmpeg] documents it, does
    to inputs, streams and metadata what the actions say. The only input is the file;
    all its streams are mapped or, when video is transcoded, all that are no
    attachments, in order; and every output stream has the language, the title and
    the default and forced flags of its track, as the last action for that track
    and property says, or as the track has them. *)
Theorem ffmpeg_command_reads_back file actions out hw args :
  build_ffmpeg_command file actions out hw = Ok args →
  NoDup (Track_index <$> MediaFile_tracks file) →
  (N.of_nat (length (MediaFile_tracks file)) <= 4294967296)%N →
  let tracks := output_tracks file (has_transcode_video actions) in
  ∃ opts, read_command args = Some (opts, to_string_lossy out) ∧
    option_values "-i" opts = [to_string_lossy (MediaFile_path file)] ∧
    option_values "-map" opts
    = (if has_transcode_video actions && negb (bool_decide (tracks = []))
       then (λ t, "0:" +:+ pretty (Track_index t)) <$> tracks else ["0"]) ∧
    ∀ i t, tracks !! i = Some t → stream_as_wanted actions opts (N.of_nat i) t.
Proof.
  intros (ho & ao & st & Hs & ->)%build_shape Hnd Hlen tracks.
  exists (command_options file actions ho ao st). split; [apply read_flat|].
  destruct (input_and_maps _ _ _ _ _ _ Hs) as [Hi Hm]. split; [exact Hi|]. split.
  - rewrite Hm. unfold tracks, map_options. destruct (has_transcode_video actions); [|done].
    destruct (output_tracks file true) as [|t ts]; [done|]. cbn [andb bool_decide].
    rewrite bool_decide_false by done. cbn [negb]. by rewrite <-list_fmap_compose.
  - intros i t. by eapply stream_metadata_read.
Qed.

(** C10: the codec of an output stream. The [rank]-th video or audio stream of the
    output is copied unless an action that transcodes streams of its kind has no
    track index or one equal to [rank], and then the last such action gives its
    encoder: the index of a track in the container is used as a rank among the
    streams of its kind. *)
Theorem ffmpeg_stream_codecs file actions out hw args kind rank :
  build_ffmpeg_command file actions out hw = Ok args → kind = "v" ∨ kind = "a" →
  ∃ opts, read_command args = Some (opts, to_string_lossy out) ∧
    stream_codec kind rank opts
    = Some (default "copy" (last (omap (sets_codec hw kind rank) actions))).
Proof.
  intros (ho & ao & st & Hs & ->)%build_shape Hk.
  exists (command_options file actions ho ao st). split; [apply read_flat|].
  by apply stream_codec_read.
Qed.

(** C9: encoders. After initialization, a command for actions that override the
    hardware backend at most by the one that was set up encodes every video stream
    with a software encoder or with a hardware encoder that was found to work on
    the configured device; and with the latter if the action asks for hardware
    without fallback. *)
Theorem ffmpeg_encoders_work verifier gpus validates caps config self codecs
    file actions out args rank encoder :
  let parsed := match config with Ok c => c | Err _ => FfmpegExecutorConfig_default end in
  let resolved := (resolve_hw_config verifier (FfmpegExecutorConfig_hw_accel parsed)
                     (FfmpegCapabilities_hw_accels caps)).1 in
  let works e := e ∈ CodecCapabilities_hw_encoders codecs ∧
                 validates (target_device gpus parsed resolved) e = true in
  let hw := Ffmpeg_hw_accel (Ffmpeg_init verifier gpus validates caps config self).1 in
  FfmpegCapabilities_codecs caps = Some codecs →
  (∀ a codec settings, a ∈ actions → PlannedAction_parameters a = AP_Transcode codec settings →
     own_backend hw settings) →
  build_ffmpeg_command file actions out (enabled_hw hw) = Ok args →
  ∃ opts, read_command args = Some (opts, to_string_lossy out) ∧
    (stream_codec "v" rank opts = Some encoder → encoder ≠ "copy" →
     ∃ a codec settings, a ∈ actions ∧ PlannedAction_operation a = Op_TranscodeVideo ∧
       PlannedAction_parameters a = AP_Transcode codec settings ∧
       (encoder = software_encoder codec ∨ works encoder) ∧
       (hardware_only settings → works encoder)).
Proof.
  intros parsed resolved works hw Hcaps Hown Hb.
  pose proof Hb as (ho & ao & st & Hs & Hargs)%build_shape.
  exists (command_options file actions ho ao st). split; [rewrite Hargs; apply read_flat|].
  rewrite (stream_codec_read _ _ _ _ _ _ "v" rank (or_introl eq_refl) Hs). intros [= Henc] Hne.
  destruct (last (omap (sets_codec (enabled_hw hw) "v" rank) actions)) as [e|] eqn:Hlast; [|done].
  cbn in Henc. subst e. apply last_Some_elem_of, list_elem_of_omap in Hlast as (a & Ha & Hset).
  revert Hset. unfold sets_codec. case_bool_decide; [|done].
  destruct (PlannedAction_operation a) eqn:Hop, (PlannedAction_parameters a) eqn:Hp; try done.
  cbn. intros [= <-].
  set (v := List.filter (validates (target_device gpus parsed resolved)) (CodecCapabilities_hw_encoders codecs)).
  assert (Hv : HwAccelConfig_validated_encoders hw = Some v).
  { unfold hw, Ffmpeg_init. rewrite Hcaps. done. }
  assert (Hworks : ∀ e, e ∈ v → works e) by (intros e He; by apply filter_elem_of in He).
  destruct (video_encoder_own hw settings codec v (Hown _ _ _ Ha Hp) Hv) as [Hc Ho].
  exists a, codec, settings. split_and!; [done..| |].
  - destruct Hc; auto.
  - intros Hh. apply Hworks, Ho; [done|]. by eapply build_checks_fallback.
Qed.
End command.

Section execution.
Context {S : Type} `{MutationStorage S} `{ChildrenEnv} `{Unicode} `{StrDebug} `{FfmpegStorage S}.
Context `{JsonFromStr} `{UuidText} `{JsonParse} `{VmafHost} `{TornWrite} `{!FfmpegWrites}.
Context (to_str : string → option string).




End execution.

(** ** Witnesses *)
#[local] Existing Instance unicode_ascii.
#[local] Existing Instance uuid_unary.
#[local] Instance debug_quoted : StrDebug := λ s, dquote +:+ s +:+ dquote.

Definition action_of (op : OperationType) (idx : option u32) (params : ActionParams)
    (description : string) : PlannedAction :=
  {| PlannedAction_operation := op; PlannedAction_track_index := idx;
     PlannedAction_parameters := params; PlannedAction_description := description |}.

Definition movie (path : PathBuf) (container : Container) : MediaFile :=
  MediaFile_with_container
    (MediaFile_with_tracks (MediaFile_new 1 0 path)
       [Track_new 0 TrackType_Video "h264"; Track_new 1 TrackType_AudioMain "aac";
        Track_new 2 TrackType_Attachment "ttf"]) container.

Definition mp4_file : MediaFile := movie "/media/movie.mp4" Container_Mp4.

Definition audio_to_opus : PlannedAction :=
  action_of Op_TranscodeAudio (Some 1%N) (AP_Transcode "opus" TranscodeSettings_default) "audio".

Definition video_to_hevc (settings : TranscodeSettings) : PlannedAction :=
  action_of Op_TranscodeVideo (Some 0%N) (AP_Transcode "hevc" settings) "video".

Definition retitle : PlannedAction := action_of Op_SetTitle (Some 1%N) (AP_Title "Commentary") "title".

Definition sample_actions : list PlannedAction :=
  [video_to_hevc TranscodeSettings_default; audio_to_opus; retitle].

Definition sample_args : list string :=
  match build_ffmpeg_command mp4_file sample_actions "/media/out.mp4" None with
  | Ok args => args
  | Err _ => []
  end.

Lemma ffmpeg_command_reads_back_witness :
  ∃ opts, read_command sample_args = Some (opts, "/media/out.mp4") ∧
    option_values "-map" opts = ["0:0"; "0:1"] ∧
    stream_tag 1 "title" opts = Some "Commentary" ∧ stream_tag 0 "title" opts = Some "".
Proof.
  destruct (ffmpeg_command_reads_back mp4_file sample_actions "/media/out.mp4" None sample_args)
    as (opts & Hread & _ & Hmap & Hst).
  - vm_compute. reflexivity.
  - apply (bool_decide_unpack _). vm_compute. exact I.
  - vm_compute. discriminate.
  - exists opts. split; [exact Hread|]. split; [etrans; [exact Hmap|]; vm_compute; reflexivity|]. split.
    + destruct (Hst 1 (Track_new 1 TrackType_AudioMain "aac") ltac:(vm_compute; reflexivity)) as (_ & Ht & _).
      etrans; [exact Ht|]. vm_compute. reflexivity.
    + destruct (Hst 0 (Track_new 0 TrackType_Video "h264") ltac:(vm_compute; reflexivity)) as (_ & Ht & _).
      etrans; [exact Ht|]. vm_compute. reflexivity.
Defined.

(** The transcode of track 1, the first audio stream, leaves that stream copied. *)
Lemma ffmpeg_stream_codecs_witness :
  ∃ opts, read_command sample_args = Some (opts, "/media/out.mp4") ∧
    stream_codec "v" 0 opts = Some "libx265" ∧ stream_codec "a" 0 opts = Some "copy" ∧
    stream_codec "a" 1 opts = Some "libopus".
Proof.
  assert (Hb : build_ffmpeg_command mp4_file sample_actions "/media/out.mp4" None = Ok sample_args)
    by (vm_compute; reflexivity).
  destruct (ffmpeg_stream_codecs _ _ _ _ _ "v" 0 Hb (or_introl eq_refl)) as (opts & Hread & Hv).
  destruct (ffmpeg_stream_codecs _ _ _ _ _ "a" 0 Hb (or_intror eq_refl)) as (opts' & Hread' & Ha).
  rewrite Hread in Hread'. injection Hread' as <-.
  destruct (ffmpeg_stream_codecs _ _ _ _ _ "a" 1 Hb (or_intror eq_refl)) as (opts' & Hread' & Ha1).
  rewrite Hread in Hread'. injection Hread' as <-. exists opts.
  split_and!; [exact Hread|etrans; [exact Hv|]|etrans; [exact Ha|]|etrans; [exact Ha1|]]; vm_compute; reflexivity.
Defined.

(** *** Encoders *)
Definition nvidia_caps : FfmpegCapabilities := {|
  FfmpegCapabilities_codecs := Some {|
    CodecCapabilities_decoders := ["h264"]; CodecCapabilities_encoders := ["hevc"];
    CodecCapabilities_hw_decoders := []; CodecCapabilities_hw_encoders := ["hevc_nvenc"; "av1_nvenc"; "hevc_qsv"] |};
  FfmpegCapabilities_formats := ["matroska"];
  FfmpegCapabilities_hw_accels := ["cuda"];
|}.

(** A device that encodes HEVC only. *)
Definition hevc_only (target : option (HwAccelBackend * string)) (encoder : string) : bool :=
  bool_decide (encoder = "hevc_nvenc").

Definition nvidia_hw : HwAccelConfig :=
  Ffmpeg_hw_accel (Ffmpeg_init (λ _, true) (λ _, ["0"]) hevc_only nvidia_caps
                     (Ok FfmpegExecutorConfig_default) FfmpegExecutorPlugin_new).1.

Definition video_args (hw : HwAccelConfig) (codec : string) (settings : TranscodeSettings)
    : result VoomError (list string) :=
  build_ffmpeg_command mp4_file [action_of Op_TranscodeVideo (Some 0%N) (AP_Transcode codec settings) "video"]
    "/media/out.mp4" (enabled_hw hw).

Definition ok_args (r : result VoomError (list string)) : list string :=
  match r with Ok args => args | Err _ => [] end.

Lemma ffmpeg_encoders_work_witness :
  let args := ok_args (video_args nvidia_hw "hevc" TranscodeSettings_default) in
  ∃ opts, read_command args = Some (opts, "/media/out.mp4") ∧
    stream_codec "v" 0 opts = Some "hevc_nvenc" ∧ hevc_only None "hevc_nvenc" = true.
Proof.
  intros args.
  destruct (ffmpeg_encoders_work (λ _, true) (λ _, ["0"]) hevc_only nvidia_caps
    (Ok FfmpegExecutorConfig_default) FfmpegExecutorPlugin_new
    (default (Build_CodecCapabilities [] [] [] []) (FfmpegCapabilities_codecs nvidia_caps)) mp4_file
    [video_to_hevc TranscodeSettings_default] "/media/out.mp4" args 0 "hevc_nvenc")
    as (opts & Hread & Hc).
  - reflexivity.
  - intros a codec settings Ha Hp name Hname. apply list_elem_of_singleton in Ha as ->.
    cbn in Hp. injection Hp as <- <-. discriminate Hname.
  - vm_compute. reflexivity.
  - exists opts. split; [exact Hread|].
    assert (Hv : stream_codec "v" 0 opts = Some "hevc_nvenc").
    { vm_compute in Hread. injection Hread as <-. vm_compute. reflexivity. }
    split; [exact Hv|]. destruct (Hc Hv ltac:(discriminate)) as (a & codec & settings & Ha & _ & Hp & Hw & _).
    apply list_elem_of_singleton in Ha as ->. cbn in Hp. injection Hp as <- <-.
    destruct Hw as [Hw|[_ Hw]]; [vm_compute in Hw; discriminate Hw|exact Hw].
Defined.

(** *** Execution

    [ffmpeg] writes the file that is named last, unless the file [/bad] exists;
    its measurements are loud enough, and it has [libvmaf]. *)
Definition writes_last (args : list string) (files : Files) : Files :=
  match last args with
  | Some out => if bool_decide (out = "-") then files else <[path_key out := "encoded"]> files
  | None => files
  end.

Definition ran (code : i32) (stderr : string) : ChildOutcome :=
  Child_Exited (ExitStatus_Code code) (Pipe_Chunks []) (Pipe_Chunks [stderr]).

#[local] Instance sample_tools : ChildrenEnv := λ env tool args files,
  if bool_decide (tool = "ffprobe" ∨ args ∈ [["--version"]; ["-version"]; ["-hide_banner"; "-filters"]])
  then (ran 0 "libvmaf", files)
  else if bool_decide (last args = Some "-") then (ran 0 "{}", files)
  else if bool_decide (files !! path_key "/bad" = None) then (ran 0 "", writes_last args files)
  else (ran 1 "", files).

Lemma writes_last_frame args out files k :
  k ≠ path_key out → writes_last (args ++ [out]) files !! k = files !! k.
Proof.
  intros Hk. unfold writes_last. rewrite last_snoc. case_bool_decide; [done|].
  by apply lookup_insert_ne.
Qed.

#[local] Instance sample_tools_write : FfmpegWrites.
Proof.
  assert (Hw : ∀ env tool args out files k, k ≠ path_key out →
    (run_child_env env tool (args ++ [out]) files).2 !! k = files !! k).
  { intros env tool args out files k Hk. unfold run_child_env, sample_tools.
    repeat case_bool_decide; try done. by apply writes_last_frame. }
  assert (Hq : ∀ env tool args files, last args = Some "-" → (run_child_env env tool args files).2 = files).
  { intros env tool args files Hl. unfold run_child_env, sample_tools. case_bool_decide; [done|].
    by rewrite Hl, bool_decide_true. }
  assert (Hl : ∀ args : list string, last (args ++ ["-"]) = Some "-") by (intros args; by rewrite last_snoc).
  split; [auto|..].
  - intros env args spec files. apply Hq. exact (last_app_cons args _ "-af").
  - intros env args model log files k _ _ _. rewrite Hq; [done|]. exact (last_app_cons args _ "-lavfi").
  - intros env args files Ha. unfold run_child_env, sample_tools. rewrite bool_decide_true; [done|].
    right. set_solver.
  - intros env args files. unfold run_child_env, sample_tools. rewrite bool_decide_true; [done|]. by left.
  - intros kind env args out files k Hk.
    change (args ++ ["-o"; out]) with (args ++ (["-o"] ++ [out])). rewrite (assoc_L (++)). by apply Hw.
  - intros kind env files. unfold run_child_env, sample_tools. rewrite bool_decide_true; [done|].
    right. set_solver.
Qed.

#[local] Instance no_home : VmafHost := {| host_home := None; host_is_dir _ := false |}.
#[local] Instance whole_writes : TornWrite := λ _ _, None.

(** Every measurement has the score 93. *)
#[local] Instance score_json : JsonParse := λ _,
  Ok (JObject [("pooled_metrics", JObject [("vmaf", JObject [("mean", JNumber (Number_PosInt 93))])])]).

#[local] Instance default_runner {S} : VmafRunner S :=
  DefaultVmafRunner true "/tmp" (λ _, "d") (λ _, "l").

#[local] Instance mutation_log : MutationStorage (list VoomOriginatedMutation) := λ m ms, (Ok tt, m :: ms).

(** The answer of [loudnorm]: all values are -23. *)
#[local] Instance loudnorm_json : JsonFromStr := λ _,
  Ok (JObject ((λ k, (k, JString "-23.0")) <$>
        ["input_i"; "input_tp"; "input_lra"; "input_thresh"; "target_offset"])).

Definition ff_world (files : list (PathBuf * string)) : World (list VoomOriginatedMutation) :=
  Build_World (list_to_map (prod_map path_key id <$> files)) [] [].

Definition ff_input : FfmpegInput := {|
  fi_exec := {| in_temp_id := "id"; in_duration_ms := 1; in_recorded_at := 0 |};
  fi_temp_dir := "/tmp";
  fi_work_id := "w";
  fi_hdr_recorded_at := 0;
  fi_measured_at := 0;
  fi_stamps n := {| Stamp_id := N.of_nat n; Stamp_now := 0 |};
|}.

Definition plan_of (file : MediaFile) (actions : list PlannedAction) : Plan :=
  Plan_set_actions (Plan_new {| Stamp_id := 1; Stamp_now := 0 |} file "policy" "phase") actions.


(** A store that takes everything *)
#[local] Instance working_store : FfmpegStorage (list VoomOriginatedMutation) := {|
  insert_transcode_outcome _ s := (Ok tt, s);
  store_upsert_file _ s := (Ok tt, s);
|}.

Definition ready : FfmpegExecutorPlugin := {|
  Ffmpeg_available := true;
  Ffmpeg_hw_accel := HwAccelConfig_new;
  Ffmpeg_probed_codecs := None;
  Ffmpeg_probed_formats := None;
  Ffmpeg_probed_hw_accels := None;
  Ffmpeg_has_store := true;
|}.





(** ** Limits of the code *)

(** An override with a backend other than the one that was set up is used although
    its encoder does not work, even without fallback. *)
Definition with_hw (name : string) : TranscodeSettings :=
  let s := TranscodeSettings_default in
  {| TranscodeSettings_crf := TranscodeSettings_crf s;
     TranscodeSettings_preset := TranscodeSettings_preset s;
     TranscodeSettings_bitrate := TranscodeSettings_bitrate s;
     TranscodeSettings_target_vmaf := TranscodeSettings_target_vmaf s;
     TranscodeSettings_max_bitrate := TranscodeSettings_max_bitrate s;
     TranscodeSettings_min_bitrate := TranscodeSettings_min_bitrate s;
     TranscodeSettings_sample_strategy := TranscodeSettings_sample_strategy s;
     TranscodeSettings_fallback := TranscodeSettings_fallback s;
     TranscodeSettings_vmaf_overrides := TranscodeSettings_vmaf_overrides s;
     TranscodeSettings_channels := TranscodeSettings_channels s;
     TranscodeSettings_hw := Some name;
     TranscodeSettings_hw_fallback := Some false;
     TranscodeSettings_max_resolution := TranscodeSettings_max_resolution s;
     TranscodeSettings_scale_algorithm := TranscodeSettings_scale_algorithm s;
     TranscodeSettings_hdr_mode := TranscodeSettings_hdr_mode s;
     TranscodeSettings_preserve_hdr := TranscodeSettings_preserve_hdr s;
     TranscodeSettings_tonemap := TranscodeSettings_tonemap s;
     TranscodeSettings_hdr_color_metadata := TranscodeSettings_hdr_color_metadata s;
     TranscodeSettings_dolby_vision := TranscodeSettings_dolby_vision s;
     TranscodeSettings_tune := TranscodeSettings_tune s;
     TranscodeSettings_crop := TranscodeSettings_crop s;
     TranscodeSettings_loudness := TranscodeSettings_loudness s |}.

Lemma other_backend_unchecked :
  hevc_only None "hevc_qsv" = false ∧
  ∃ opts, read_command (ok_args (video_args nvidia_hw "hevc" (with_hw "qsv")))
          = Some (opts, "/media/out.mp4") ∧
          stream_codec "v" 0 opts = Some "hevc_qsv".
Proof. split; [reflexivity|]. eexists. split; vm_compute; reflexivity. Qed.

(** A plan whose only action normalizes an audio track that is loud enough has no
    action left; if [ffmpeg] then fails, the executor panics. *)
Definition normalize : PlannedAction :=
  action_of Op_TranscodeAudio (Some 1%N)
    (AP_Transcode "aac" (TranscodeSettings_with_loudness TranscodeSettings_default
       (Some (LoudnessNormalization_new LoudnessPreset_EbuR128Broadcast (f64_of_Z (-23))
                (f64_of_Z (-1)) None)))) "Normalize audio track 1".

Lemma panics_without_actions :
  (execute_plan_with_runners Some true ff_input (plan_of mp4_file [normalize]) HwAccelConfig_new
     (ff_world [("/media/movie.mp4", "original"); ("/bad", "")])).1 = Panicked.
Proof. vm_compute. reflexivity. Qed.

(** If the store fails after the file has been replaced, the plan is reported as
    failed. *)
#[local] Instance broken_store : FfmpegStorage (list VoomOriginatedMutation) := {|
  insert_transcode_outcome _ s := (Err (VoomError_Validation "disk full"), s);
  store_upsert_file _ s := (Err (VoomError_Validation "disk full"), s);
|}.

Lemma failure_after_replacement :
  let '(r, w') := Ffmpeg_execute_plan Some ready (λ _, ff_input) (plan_of mp4_file [audio_to_opus])
                    (ff_world [("/media/movie.mp4", "original")]) in
  r = Returned (Err (VoomError_Validation "disk full")) ∧
  w_files w' !! path_key "/media/movie.mp4" = Some "encoded".
Proof. vm_compute. split; reflexivity. Qed.

(** A plan that muxes a subtitle does nothing else. *)
Definition mux_english : PlannedAction :=
  action_of Op_MuxSubtitle None (AP_MuxSubtitle "/media/movie.srt" "eng" false None) "mux".

Lemma mux_drops_other_actions :
  let '(r, _) := Ffmpeg_execute_plan Some ready (λ _, ff_input) (plan_of mp4_file [mux_english; audio_to_opus])
                   (ff_world [("/media/movie.mp4", "original")]) in
  ∃ a, r = Returned (Ok [a]) ∧ ActionResult_success a = true ∧ ActionResult_operation a = Op_MuxSubtitle.
Proof. vm_compute. eexists. split; [reflexivity|]. split; reflexivity. Qed.

(** A file with an extension in capital letters is renamed. *)
Lemma capital_extension_renamed :
  let file := movie "/media/MOVIE.MKV" Container_Mkv in
  let w' := (execute_plan_with_runners Some true ff_input (plan_of file [audio_to_opus]) HwAccelConfig_new
               (ff_world [("/media/MOVIE.MKV", "original")])).2 in
  w_files w' !! path_key "/media/MOVIE.MKV" = None ∧
  w_files w' !! path_key "/media/MOVIE.mkv" = Some "encoded".
Proof. split; vm_compute; reflexivity. Qed.

(** A plan that transcodes and removes a track is taken; the track stays, and the
    removal is reported as done. *)
Definition remove_track_1 : PlannedAction :=
  action_of Op_RemoveTrack (Some 1%N) (AP_RemoveTrack "filter" TrackType_AudioMain) "remove".

Lemma removal_reported_done :
  let actions := [video_to_hevc TranscodeSettings_default; remove_track_1] in
  let '(r, _) := execute_plan_with_runners Some true ff_input (plan_of mp4_file actions) HwAccelConfig_new
                   (ff_world [("/media/movie.mp4", "original")]) in
  run_succeeded r = true ∧ Ffmpeg_can_handle ready (plan_of mp4_file actions) = true ∧
  ∃ opts, read_command (ok_args (build_ffmpeg_command mp4_file actions "/media/out.mp4" None))
          = Some (opts, "/media/out.mp4") ∧ option_values "-map" opts = ["0:0"; "0:1"].
Proof. vm_compute. split; [reflexivity|]. split; [reflexivity|]. eexists. split; reflexivity. Qed.
