(* ===== verification/ScanTheorems.v ===== *)
(** * Theorems about scans and the file store *)
From S2P Require Import Prelude Json Media Plan Compiled CapabilityMap Jobs Engine Events Kernel.
From S2P Require Import Process Transitions FileTables ScanSessions RowMappers FileStore.
From S2P Require Import TransitionStore ScanSpec IngestFacts SessionFacts StoreInvariant.
From S2P Require Import FileFacts StoreFacts StoreSamples.

Section scans.
Context `{Chrono} `{UuidText} `{Sqlite} `{Unicode} `{SnapshotJson} `{RootsJson} `{MapsJson}.

Lemma tables_ok_known t : tables_ok t → sessions_known t.
Proof.
  intros Ht r x Hr Hx. pose proof (ok_rows _ Ht) as Hok. rewrite Forall_forall in Hok. by apply (Hok r).
Qed.

(** C14: a scan that succeeds leaves the store a mirror of the disk. Whatever calls of
    the engine fail on the way, the active file at a path is the first file that
    was discovered there, with its size and hash; under the scanned directories
    nothing else is active; and outside them every other file is as it was. *)
Theorem scan_mirrors_disk (inp : ScanInput) (discovered : list DiscoveredFile)
    (roots : list PathBuf) (s s' : SqlDb FileTables) (r : ReconcileResult) (p : string) :
  tables_ok (db_rows s) →
  session_mutation_paths (Uuid_to_string (si_session inp)) (t_mutations (db_rows s)) = [] →
  reconcile_discovered_files inp discovered roots s = (Ok r, s') →
  active_at (t_files (db_rows s')) p
  = mirrored roots discovered (active_at (t_files (db_rows s))) p.
Proof.
  intros Hok Hmut Hrun.
  destruct (db_spec_run true s _ _ _ (or_introl eq_refl)
    (spec_reconcile true True (λ _, I) inp discovered roots (db_rows s) (ok_unique _ Hok)
       (tables_ok_known _ Hok) (or_introl I))) as [_ Hr].
  rewrite Hrun in Hr. apply Hr. cbn. rewrite Hmut. by intros ?%elem_of_nil.
Qed.

(** C15: a scan goes through. If no call of the engine fails, no other scan is alive, the
    new identifiers are new and no file has transcode outcomes, then
    reconciliation returns its result. *)
Theorem scan_succeeds (inp : ScanInput) (discovered : list DiscoveredFile) (roots : list PathBuf)
    (t : FileTables) :
  tables_ok t → supply (si_ids inp) 0 t → (∃ j, roots_to_json roots = Ok j) →
  (Uuid_to_string (si_session inp) ∉ sessions_id <$> t_sessions t) →
  (∀ row, row ∈ t_sessions t → is_in_progress row = true → abandoned (si_begin inp) row) →
  ∃ r s', reconcile_discovered_files inp discovered roots {| db_rows := t; db_faults := [] |}
          = (Ok r, s').
Proof.
  intros Hok Hsup Hj Hid Hab.
  destruct (db_spec_run false {| db_rows := t; db_faults := [] |} _ _ _ (or_intror eq_refl)
    (spec_reconcile false False (λ E : false = true, diff_false_true E) inp discovered roots t (ok_unique _ Hok)
       (tables_ok_known _ Hok) (or_intror (conj Hsup (conj Hj (conj Hid Hab)))))) as [_ Hr].
  destruct (reconcile_discovered_files _ _ _ _) as [[r|e] s']; [eauto|done].
Qed.

(** C17: what an ingestion does. It only succeeds in an open session, and then its decision
    and the new rows of [files] are those of the specification: a duplicate, an
    unchanged, changed, moved or new file, after the recovery of a row that an
    unfinished session left. If it fails, the tables are as they were. *)
Theorem ingest_meets_specification (inp : IngestInput) (session : ScanSessionId)
    (df : DiscoveredFile) (s : SqlDb FileTables) :
  tables_ok (db_rows s) →
  match sqlite_ingest_discovered_file inp session df s with
  | (Ok d, s') =>
      open_session (t_sessions (db_rows s)) (Uuid_to_string session) ∧
      ingest_file (ii_file_id inp) (ingest_ctx inp session df) (t_sessions (db_rows s))
        (t_files (db_rows s)) d (t_files (db_rows s'))
  | (Err _, s') => db_rows s' = db_rows s
  end.
Proof.
  intros Hok. destruct (db_spec_run true s _ _ _ (or_introl eq_refl)
    (spec_ingest true True (λ _, I) inp session df (db_rows s) (ok_unique _ Hok) (or_introl I))) as [_ Hr].
  destruct (sqlite_ingest_discovered_file _ _ _ _) as [[d|e] s']; cbn in *; tauto.
Qed.

(** C18: Every sequence of writing calls of the store on the tables of files,
    tracks, transitions, scan sessions, their mutations and bad files, the
    maintenance included, with any failures of the engine, keeps these tables in
    order. In particular at most one scan is in progress, the unique columns are
    unique, every status, identifier and root list can be read, every session that a
    file names exists, and every track has its file. *)
Theorem store_keeps_tables_ok (ops : list StoreOp) (s : SqlDb FileTables) :
  tables_ok (db_rows s) → tables_ok (db_rows (run_ops ops s)).
Proof. intros Hok. apply (run_ops_ok [] ops s). by apply store_ok_nil. Qed.

(** C19: A writing call of the store on the tables of files, tracks, transitions,
    scan sessions, their mutations and bad files that answers with an error has
    changed nothing, with four exceptions, which are several statements without a
    transaction: purging missing files, pruning transitions, marking paths as
    missing, and pruning files that are gone from the disk. *)
Theorem failed_operation_changes_nothing (op : StoreOp) (s : SqlDb FileTables) (e : VoomError) :
  stepwise op = false → (op_call op s).1 = Err e → db_rows (op_call op s).2 = db_rows s.
Proof. apply op_error_unchanged. Qed.

(** C16: a file that VOOM writes during a scan is not taken for missing. Once an executor
    has recorded the write, then, whatever other calls reach the store, the end of the
    session does not mark a row at the path it writes, or at the path it replaces. *)
Theorem recorded_write_not_missed (now fin : DateTime) (session : Uuid) (src dest : PathBuf)
    (w w' : World (SqlDb FileTables)) (ops : list StoreOp) (ids : nat → Uuid)
    (out : ScanFinishOutcome) (s' : SqlDb FileTables) (r : FilesRow) (p : string) :
  tables_ok (db_rows (w_store w)) →
  record_mutation_for_pending_write true now (Some session) src dest w = (Ok tt, w') →
  sqlite_finish_scan_session fin ids session (run_ops ops (w_store w')) = (Ok out, s') →
  p = to_string_lossy dest ∨ path_eqb dest src = false ∧ p = to_string_lossy src →
  r ∈ t_files (db_rows s') → files_path r = Some p → files_status r = "missing" →
  r ∈ t_files (db_rows (run_ops ops (w_store w'))).
Proof.
  intros Hok Hrec Hfin Hp Hr Hrp Hmiss.
  assert (Hkey : store_ok [(Uuid_to_string session, p)] (db_rows (w_store w'))).
  { revert Hrec. unfold record_mutation_for_pending_write. cbn [negb].
    set (m := Build_VoomOriginatedMutation _ _ _ _ _).
    destruct (record_voom_mutation m (w_store w)) as [[[]|e] s1] eqn:Hm; [|done]. intros [= <-]. cbn. split.
    - assert (s1 = (sqlite_record_voom_mutation m (w_store w)).2) as -> by (by unfold record_voom_mutation,
        sqlite_mutation_storage in Hm; rewrite Hm).
      apply (preserves_run _ _ _ (preserves_record_mutation [] m)). by apply store_ok_nil.
    - intros x ->%list_elem_of_singleton.
      destruct (db_spec_run true (w_store w) _ _ _ (or_introl eq_refl) (record_mutation_keys m (db_rows (w_store w)))) as [_ Hk].
      unfold record_voom_mutation, sqlite_mutation_storage in Hm. rewrite Hm in Hk. cbn in Hk. destruct Hk as [Hk1 Hk2].
      destruct Hp as [->|[Hne ->]]; [done|]. apply Hk2. by rewrite Hne. }
  pose proof (run_ops_ok _ ops _ Hkey) as [Hok' Hkeys].
  destruct (db_spec_run true (run_ops ops (w_store w')) _ _ _ (or_introl eq_refl)
    (finish_spares_recorded fin ids session _ (ok_unique _ Hok'))) as [_ Hf].
  rewrite Hfin in Hf. eapply Hf; [exact Hr|exact Hrp| |done]. apply Hkeys, list_elem_of_here.
Qed.

(** C20: A storable file that is written reads back. Storable is: a size up to
    [i64::MAX]; a bitrate and [u32] values of the tracks below 2^31 and a Dolby
    Vision profile up to 255; no NaN among the floats; a content hash that is not
    empty; tracks in strictly increasing order of their indices; and tags and
    metadata that survive JSON. If the tables are well formed, no statement fails
    and the identifiers of new rows are fresh, the file found at the path is the one
    written, except for the identifier and the expected hash of a row that was there
    before. *)
Theorem stored_file_reads_back (now : DateTime) (ids : nat → Uuid) (file : MediaFile)
    (tags_json meta_json : string) (t : FileTables) :
  let old := row_at (t_files t) (to_string_lossy (MediaFile_path file)) in
  tables_ok t → storable_file file tags_json meta_json → can_store ids file t →
  ∃ u s', (old = None → u = MediaFile_id file) ∧
    db_bind (sqlite_upsert_file now ids file) (λ _, sqlite_file_by_path (MediaFile_path file))
      {| db_rows := t; db_faults := [] |}
    = (Ok (Some (stored_file u (old ≫= files_expected_hash) file)), s').
Proof.
  intros old Hok Hf Hc. destruct (spec_upsert_read now ids file _ _ t Hok Hf Hc) as (u & Hu & Hspec).
  destruct (db_spec_run false {| db_rows := t; db_faults := [] |} _ _ _ (or_intror eq_refl) Hspec) as [_ Hr].
  exists u. destruct (db_bind _ _ _) as [[res|e] s']; [|done]. exists s'. split; [done|]. cbn in Hr. by rewrite Hr.
Qed.

(** C21: retention never takes the last transition of a file, with whatever policy and
    failures of the engine: the last one recorded stays the last one. *)
Theorem prune_keeps_latest_transition (now : DateTime) (policy : RetentionPolicy)
    (s : SqlDb FileTables) (file_id : string) :
  tables_ok (db_rows s) →
  last (List.filter (of_file file_id)
          (t_transitions (db_rows (sqlite_prune_old_file_transitions now policy s).2)))
  = last (List.filter (of_file file_id) (t_transitions (db_rows s))).
Proof.
  intros Hok. destruct (db_spec_run true s _ _ _ (or_introl eq_refl)
    (spec_prune_latest now policy (db_rows s) file_id (ok_transitions _ Hok))) as [_ Hr].
  by destruct (sqlite_prune_old_file_transitions _ _ _) as [[] ].
Qed.
End scans.

(** ** Witnesses *)
#[local] Existing Instance chrono_unary.
#[local] Existing Instance uuid_unary.
#[local] Existing Instance sqlite_sample.
#[local] Existing Instance unicode_ascii.
#[local] Existing Instance snapshot_sample.
#[local] Existing Instance roots_sample.
#[local] Existing Instance maps_sample.

Definition sample_scanned : result VoomError ReconcileResult * SqlDb FileTables :=
  reconcile_discovered_files sample_scan sample_discovered ["/m"] sample_db.

(** A witness: the changed, the moved and the new file, and one elsewhere. *)
Lemma scan_mirrors_disk_witness :
  (active_at (t_files (db_rows sample_scanned.2)) <$>
     ["/m/a.mkv"; "/m/b.mkv"; "/m/e/b.mkv"; "/m/d.mkv"; "/x/c.mkv"])
  = [Some (9, "ax"); None; Some (9, "bb"); Some (9, "dd"); Some (7, "cc")]%Z.
Proof.
  assert (Hrun : ∃ r, reconcile_discovered_files sample_scan sample_discovered ["/m"] sample_db
                      = (Ok r, sample_scanned.2)) by (eexists; vm_compute; reflexivity).
  destruct Hrun as [r Hrun].
  pose proof (λ p, scan_mirrors_disk sample_scan sample_discovered ["/m"] sample_db sample_scanned.2 r p
    sample_tables_ok eq_refl Hrun) as Hm.
  cbn [fmap list_fmap]. rewrite !Hm. vm_compute. reflexivity.
Defined.

(** A witness: a scan of the sample library. *)
Lemma scan_succeeds_witness :
  ∃ r s', reconcile_discovered_files sample_scan sample_discovered ["/m"]
            {| db_rows := sample_tables; db_faults := [] |} = (Ok r, s').
Proof.
  apply (scan_succeeds sample_scan sample_discovered ["/m"] sample_tables).
  - exact sample_tables_ok.
  - exact sample_supply.
  - exists "/m". reflexivity.
  - intros Hin. apply list_elem_of_singleton in Hin. vm_compute in Hin. discriminate Hin.
  - intros row Hrow. apply list_elem_of_singleton in Hrow. subst row. vm_compute. discriminate.
Defined.

(** The sample library with the scan in progress. *)
Definition sample_scanning : SqlDb FileTables :=
  (sqlite_begin_scan_session 5 10 ["/m"] sample_db).2.

Definition sample_ingest : IngestInput := Build_IngestInput 11 20 21 22.

Lemma sample_scanning_ok : tables_ok (db_rows sample_scanning).
Proof.
  apply (preserves_run _ _ _ (preserves_begin [] 5 10 ["/m"])). apply store_ok_nil. exact sample_tables_ok.
Qed.

(** A witness: a changed file. *)
Lemma ingest_meets_specification_witness :
  ∃ s', sqlite_ingest_discovered_file sample_ingest 5 (sample_found "/m/a.mkv" "ax") sample_scanning
        = (Ok (IngestDecision_ExternallyChanged 20 1), s') ∧
  ingest_file 20 (ingest_ctx sample_ingest 5 (sample_found "/m/a.mkv" "ax"))
    (t_sessions (db_rows sample_scanning)) (t_files (db_rows sample_scanning))
    (IngestDecision_ExternallyChanged 20 1) (t_files (db_rows s')).
Proof.
  pose proof (ingest_meets_specification sample_ingest 5 (sample_found "/m/a.mkv" "ax")
                sample_scanning sample_scanning_ok) as Hs.
  destruct (sqlite_ingest_discovered_file sample_ingest 5 (sample_found "/m/a.mkv" "ax") sample_scanning)
    as [d s'] eqn:Hrun.
  exists s'. assert (d = Ok (IngestDecision_ExternallyChanged 20 1)) as ->.
  { apply (f_equal fst) in Hrun. cbn [fst] in Hrun. rewrite <-Hrun. vm_compute. reflexivity. }
  split; [reflexivity|]. exact (proj2 Hs).
Defined.

(** A witness: a scan is begun twice while the engine fails now and then. *)
Lemma store_keeps_tables_ok_witness :
  let ops := [Op_begin 5 10 ["/m"]; Op_ingest sample_ingest 5 (sample_found "/m/a.mkv" "ax");
              Op_begin 6 11 ["/m"]; Op_purge 50] in
  let s := {| db_rows := sample_tables;
              db_faults := [None; None; None; None; None; None; None; None; None;
                            Some (rusqlite_SqliteFailure ErrorCode_Unknown "disk I/O error")] |} in
  tables_ok (db_rows (run_ops ops s)) ∧
  length (List.filter is_in_progress (t_sessions (db_rows (run_ops ops s)))) = 1%nat.
Proof.
  intros ops s. split; [|vm_compute; reflexivity].
  apply (store_keeps_tables_ok ops s). exact sample_tables_ok.
Defined.

(** A witness: the engine fails in the middle of an ingestion. *)
(** Pruning that fails on the second of three files has marked the first. *)
Example failed_prune_changes_rows :
  let s := {| db_rows := sample_tables;
              db_faults := replicate 10 None
                           ++ [Some (rusqlite_SqliteFailure ErrorCode_Unknown "disk I/O error")] |} in
  let op := Op_prune_missing 7 (λ _, false) (λ _, false) "/" in
  (∃ e, (op_call op s).1 = Err e) ∧ files_status <$> t_files (db_rows (op_call op s).2) =
    ["missing"; "active"; "active"].
Proof. split; [eexists|]; by vm_compute. Qed.

Lemma failed_operation_changes_nothing_witness :
  let s := {| db_rows := db_rows sample_scanning;
              db_faults := [None; None; None; None; None; None; None;
                            Some (rusqlite_SqliteFailure ErrorCode_Unknown "disk I/O error")] |} in
  let op := Op_ingest sample_ingest 5 (sample_found "/m/a.mkv" "ax") in
  (∃ e, (op_call op s).1 = Err e) ∧ db_rows (op_call op s).2 = db_rows s.
Proof.
  intros s op.
  assert (He : ∃ e, (op_call op s).1 = Err e) by (eexists; vm_compute; reflexivity).
  split; [exact He|]. destruct He as [e He].
  exact (failed_operation_changes_nothing op s e eq_refl He).
Defined.

(** An executor writes [/m/b.mkv] while the scan is in progress. *)
Definition sample_written : result VoomError () * World (SqlDb FileTables) :=
  record_mutation_for_pending_write true 11 (Some 5%N) "/m/b.mp4" "/m/b.mkv"
    (Build_World ∅ sample_scanning []).

(** The end of the scan, after other calls. *)
Definition sample_finished (ops : list StoreOp) : result VoomError ScanFinishOutcome * SqlDb FileTables :=
  sqlite_finish_scan_session 12 (λ j, 30 + N.of_nat j)%N 5 (run_ops ops (w_store sample_written.2)).

(** A witness: the scan has not seen [/m/a.mkv] and [/m/b.mkv], and only the first is
    missing; and a row that is missing at the path was marked by another call. *)
Lemma recorded_write_not_missed_witness :
  (files_status <$> t_files (db_rows (sample_finished []).2)) = ["missing"; "active"; "active"] ∧
  ∃ r, files_path r = Some "/m/b.mkv" ∧ files_status r = "missing" ∧
       r ∈ t_files (db_rows (run_ops [Op_mark_missing 11 2] (w_store sample_written.2))).
Proof.
  split; [vm_compute; reflexivity|].
  destruct (t_files (db_rows (sample_finished [Op_mark_missing 11 2]).2) !! 1%nat) as [r|] eqn:Hr;
    [|vm_compute in Hr; discriminate].
  assert (Hrow : files_path r = Some "/m/b.mkv" ∧ files_status r = "missing").
  { apply (f_equal (fmap (M := option) (λ r, (files_path r, files_status r)))) in Hr. vm_compute in Hr.
    by injection Hr as -> ->. }
  exists r. split; [apply Hrow|]. split; [apply Hrow|].
  assert (Hrec : record_mutation_for_pending_write true 11 (Some 5%N) "/m/b.mp4" "/m/b.mkv"
                   (Build_World ∅ sample_scanning []) = (Ok tt, sample_written.2))
    by (vm_compute; reflexivity).
  assert (Hfin : ∃ out, sqlite_finish_scan_session 12 (λ j, 30 + N.of_nat j)%N 5
                   (run_ops [Op_mark_missing 11 2] (w_store sample_written.2))
                 = (Ok out, (sample_finished [Op_mark_missing 11 2]).2))
    by (eexists; vm_compute; reflexivity).
  destruct Hfin as [out Hfin].
  apply (recorded_write_not_missed 11 12 5 "/m/b.mp4" "/m/b.mkv" (Build_World ∅ sample_scanning [])
           sample_written.2 [Op_mark_missing 11 2] (λ j, 30 + N.of_nat j)%N out
           (sample_finished [Op_mark_missing 11 2]).2 r "/m/b.mkv").
  - exact sample_scanning_ok.
  - exact Hrec.
  - exact Hfin.
  - left. vm_compute. reflexivity.
  - apply list_elem_of_lookup. eauto.
  - apply Hrow.
  - apply Hrow.
Defined.

(** A file with a video and an audio track. *)
Definition sample_media : MediaFile :=
  MediaFile_with_tracks (MediaFile_new 9 10 "/m/a.mkv")
    [Track_new 0 TrackType_Video "hevc"; Track_new 1 TrackType_AudioMain "aac"].

(** A witness: the file replaces a row, with the identifier 1 and a hash. *)
Lemma stored_file_reads_back_witness :
  ∃ u s', db_bind (sqlite_upsert_file 11 (λ j, 40 + N.of_nat j)%N sample_media)
            (λ _, sqlite_file_by_path "/m/a.mkv") {| db_rows := sample_tables; db_faults := [] |}
          = (Ok (Some (stored_file u (Some "aa") sample_media)), s').
Proof.
  destruct (stored_file_reads_back 11 (λ j, 40 + N.of_nat j)%N sample_media "{}" "{}" sample_tables)
    as (u & s' & _ & Hrun).
  - exact sample_tables_ok.
  - split; [vm_compute; discriminate|discriminate|discriminate|reflexivity|discriminate| | |reflexivity..].
    + repeat apply Forall_cons_2; [| |apply Forall_nil_2]; split; try discriminate; by vm_compute.
    + repeat constructor.
  - split.
    + intros j Hin%list_elem_of_singleton%unary_inj. lia.
    + intros j k Hjk. lia.
    + discriminate.
  - exists u, s'. exact Hrun.
Defined.

(** Two transitions of one file, of which the first is dated later. *)
Definition sample_history : SqlDb FileTables :=
  run_ops [Op_transition (FileTransition_new 50 9 1 "/m/a.mkv" "a1" 7 TransitionSource_Discovery);
           Op_transition (FileTransition_new 51 8 1 "/m/a.mkv" "a2" 7 TransitionSource_Voom)] sample_db.

(** A witness: a policy that keeps none. *)
Lemma prune_keeps_latest_transition_witness :
  let policy := Build_RetentionPolicy (Some 0%Z) (Some 0%N) in
  length (t_transitions (db_rows sample_history)) = 2%nat ∧
  length (t_transitions (db_rows (sqlite_prune_old_file_transitions 100 policy sample_history).2)) = 1%nat ∧
  transitions_to_hash <$> last (List.filter (of_file (Uuid_to_string 1))
     (t_transitions (db_rows (sqlite_prune_old_file_transitions 100 policy sample_history).2)))
  = Some "a2".
Proof.
  intros policy. split; [vm_compute; reflexivity|]. split; [vm_compute; reflexivity|].
  rewrite (prune_keeps_latest_transition 100 policy sample_history (Uuid_to_string 1)).
  - vm_compute. reflexivity.
  - apply (run_ops_ok [] _ sample_db). apply store_ok_nil. exact sample_tables_ok.
Defined.

(** ** Limits

    Behaviour of the store that a caller has to know of, on the sample library. *)

(** A file that is merely seen again in a session is taken for a leftover of it if the
    session is cancelled: the next scan that finds it on disk, unchanged, gives it
    a new row and deletes the old one, with its tracks and its history. *)
Definition sample_recovered : SqlDb FileTables :=
  run_ops [Op_begin 5 10 ["/m"]; Op_ingest sample_ingest 5 (sample_found "/m/a.mkv" "aa");
           Op_cancel 12 5;
           Op_begin 6 13 ["/m"];
           Op_ingest (Build_IngestInput 14 60 61 62) 6 (sample_found "/m/a.mkv" "aa")] sample_history.

Lemma recovery_forgets_old_file :
  ((files_id <$> row_at (t_files (db_rows sample_history)) "/m/a.mkv") = Some (Uuid_to_string 1) ∧
   length (t_tracks (db_rows sample_history)) = 1%nat ∧
   (transitions_to_hash <$> t_transitions (db_rows sample_history)) = ["a1"; "a2"]) ∧
  ((files_id <$> row_at (t_files (db_rows sample_recovered)) "/m/a.mkv") = Some (Uuid_to_string 60) ∧
   t_tracks (db_rows sample_recovered) = [] ∧
   (transitions_to_hash <$> t_transitions (db_rows sample_recovered)) = ["aa"]).
Proof. vm_compute. repeat split; reflexivity. Qed.

(** The history of [sample_history], where a transcode outcome names the file, which
    went missing long ago. *)
Definition sample_outcome : SqlDb FileTables :=
  let s := run_ops [Op_mark_missing 11 1] sample_history in
  {| db_rows := Build_FileTables (t_files (db_rows s)) (t_tracks (db_rows s)) (t_transitions (db_rows s))
       (t_sessions (db_rows s)) [] [] [] [Uuid_to_string 1];
     db_faults := [] |}.

(** Purging is not a transaction: the outcome keeps the file, but its history is gone. *)
Lemma purge_loses_history :
  let '(r, s') := sqlite_purge_missing 50 sample_outcome in
  (∃ e, r = Err e) ∧ t_files (db_rows s') = t_files (db_rows sample_outcome) ∧
  length (t_transitions (db_rows sample_outcome)) = 2%nat ∧ t_transitions (db_rows s') = [].
Proof. vm_compute. split; [eexists; reflexivity|]. repeat split; reflexivity. Qed.

(** The index of a track is a [u32] that is written as it is and read as an [i32]. *)
Lemma large_index_unreadable :
  let file := MediaFile_with_tracks sample_media [Track_new 2147483648 TrackType_Video "hevc"] in
  ∃ s', sqlite_upsert_file 11 (λ j, 40 + N.of_nat j)%N file sample_db = (Ok tt, s') ∧
        ∃ e, (sqlite_file_by_path "/m/a.mkv" s').1 = Err e.
Proof. eexists. split; [vm_compute; reflexivity|]. eexists. vm_compute. reflexivity. Qed.

Definition english (t : Track) : Track :=
  Build_Track (Track_index t) (Track_track_type t) (Track_codec t) "eng" (Track_title t)
    (Track_is_default t) (Track_is_forced t) (Track_channels t) (Track_channel_layout t)
    (Track_sample_rate t) (Track_bit_depth t) None None None None None None None false false
    None None None None None None None None None None.

(** A filter for a codec and a language is about one track. *)
Lemma filters_on_one_track :
  let tracks := [Track_new 0 TrackType_Video "hevc"; english (Track_new 1 TrackType_AudioMain "aac")] in
  let s := (sqlite_upsert_file 11 (λ j, 40 + N.of_nat j)%N
              (MediaFile_with_tracks sample_media tracks) sample_db).2 in
  let count codec lang := (sqlite_count_files
    (Build_FileFilters None (Some codec) (Some lang) None None None true) s).1 in
  count "hevc" "und" = Ok 1%N ∧ count "aac" "eng" = Ok 1%N ∧ count "hevc" "eng" = Ok 0%N.
Proof. vm_compute. repeat split; reflexivity. Qed.

(** A quarantined file is active again when a scan sees it. *)
Lemma quarantine_ends_when_seen :
  let s := run_ops [Op_status 9 1 FileStatus_Quarantined; Op_begin 5 10 ["/m"]] sample_db in
  (files_status <$> row_at (t_files (db_rows s)) "/m/a.mkv") = Some "quarantined" ∧
  let s' := run_ops [Op_ingest sample_ingest 5 (sample_found "/m/a.mkv" "aa")] s in
  (files_status <$> row_at (t_files (db_rows s')) "/m/a.mkv") = Some "active".
Proof. vm_compute. split; reflexivity. Qed.
