(* ===== verification/BackupTheorems.v ===== *)
(** * Theorems about backups, the processing of a file and recovery

    What a run leaves of a file whose plans fail; how backups are matched with their
    files after a crash, and restored; and the inventory of remote backups. *)
From S2P Require Import Prelude Json Media Plan Compiled CapabilityMap Jobs Events Kernel.
From S2P Require Import CallPlugins Process Transitions MkvFacts CropDetect FfmpegCommand.
From S2P Require Import VmafSearch FfmpegExecutor FfmpegFacts BackupManager Estimate PolicyMap.
From S2P Require Import ProcessFile BackupFacts Recovery RecoveryFacts Samples StoreSamples.

Section processing.
Context {S : Type} `{Clock (World S)} `{QueryDebug} `{Unicode} `{UuidText} `{Volume} `{Ambient S}.
Context `{Children} `{ProcessStorage S} `{Introspector S} `{FileHash S} `{CropSettingsJson}.
Context `{ViolationsJson} `{AnyhowText} `{ResponseDebug} (to_str : string → option string).
Context `{TornWrite} `{TimestampText} `{CommandOutput} `{!RcloneKeeps} `{RcloneSizeJson}.
Context `{InventoryJson} `{Sha256} `{BackupHost S} `{!StorageSpares S} `{!ToolsRead S}.
Context `{PlanJson} `{StoredFiles S} `{!StoredReads S}.



(** With [--confirm-savings] a plan that does anything besides transcoding is never
    executed: it is not estimated to save anything. *)
Lemma confirmed_savings_skip_mixed_plans (ctx : ProcessContext S) threshold plan a (w : World S) :
  ctx_confirm_savings ctx = Some threshold → (0 < threshold < 9223372036854775808)%N →
  a ∈ Plan_actions plan → is_transcode a = false →
  (MediaFile_size (Plan_file plan) < 9223372036854775808)%N →
  (FileEstimate_bytes_out (estimate_file (ctx_estimate_model ctx) plan) < 9223372036854775808)%N →
  savings_below_threshold ctx plan w = true.
Proof.
  intros Hc Ht Ha Hn Hs Ho. pose proof (mixed_plan_saves_nothing _ _ _ Ha Hn Hs Ho) as Hsaved.
  unfold savings_below_threshold. rewrite Hc. apply Z.ltb_lt. rewrite as_i64_id by lia.
  cbn [estimate_plans EstimateRun_bytes_saved EstimateInput_plans fmap list_fmap].
  rewrite !u64_sum_exact by (cbn [foldr]; unfold two64; change (FileEstimate_bytes_in _) with (MediaFile_size (Plan_file plan)); lia).
  cbn [foldr]. rewrite !N.add_0_r. change (i64_wrapping_sub _ _) with (FileEstimate_bytes_saved (estimate_file (ctx_estimate_model ctx) plan)).
  lia.
Qed.
End processing.

Section naming.
Context {S : Type} `{Unicode} `{UuidText} `{TimestampText} `{Canonical}.

(** The name of a backup beside its file leads back to the file: recovery infers
    from it the normalized directory and the name of the original, for a name of
    ASCII bytes without a backslash and a year of four digits. *)
Lemma backup_name_leads_back config dir name id now (w : World S) :
  BackupConfig_use_global_dir config = false → trimmed dir → safe name → stamp (fmt_timestamp now) →
  infer_original_path (backup_path_for config (path_join dir name) id now) w
  = Some (path_join (normalize_path dir w) name).
Proof. intros Hs Hd Hn Ht. by apply infer_sibling. Qed.
End naming.

Section crash.
Context {S : Type} `{Unicode} `{UuidText} `{TornWrite} `{Volume} `{Ambient S} `{Canonical} `{Xxh3}.
Context `{ProcessStorage S} `{RecoveryStorage S} `{ReadDir} `{!ReadDirComplete} `{TimestampText}.

(** C12: After a crash the original is put back. Let a file lie under a scanned
    directory (written without trailing separators, canonical, with no directory
    [.voom-backup] on the way), under an ASCII name without separators and
    backslashes; let backups be kept beside the files, and let a backup of it, with a
    year of four digits in its name, and a pending operation in the store be there,
    while no other backup found by the scan has to do with either. Then recovery in
    the mode [AlwaysRecover], if no file operation fails, ends without an error, with
    the content of the backup in the file, whatever was there, and the backup
    removed. *)
Theorem crash_recovery_restores_file config rc scan_dirs dir subs name id now (w : World S) c op ops :
  BackupConfig_use_global_dir config = false →
  RecoveryConfig_mode rc = RecoveryMode_AlwaysRecover →
  trimmed dir → dir ∈ scan_dirs → Forall (λ s, plain s ∧ s ≠ ".voom-backup") subs →
  safe name → stamp (fmt_timestamp now) →
  let path := path_join (subdir dir subs) name in
  let backup := backup_path_for config path id now in
  normalize_path (subdir dir subs) w = subdir dir subs →
  list_pending_ops (w_store w) = Ok ops → op ∈ ops → PendingOperation_file_path op = path →
  w_faults w = [] → w_files w !! path_key backup = Some c →
  Forall (unmixed (path_key path) (path_key backup)) (find_orphans_under scan_dirs w).1 →
  ∃ n w', check_and_recover_under rc scan_dirs None w = (Ok n, w') ∧ (0 < n)%N ∧
    w_files w' !! path_key path = Some c ∧ w_files w' !! path_key backup = None.
Proof.
  intros Hsib Hmode Hd Hdin Hsubs Hn Hs path backup Hnorm Hops Hop Hpath Hw Hb Hall.
  assert (Hp : Forall plain subs) by (eapply Forall_impl; [exact Hsubs|by intros ? []]).
  assert (Ht : trimmed (subdir dir subs)) by by apply subdir_trimmed.
  assert (HPB : path_key path ≠ path_key backup).
  { unfold path, backup. rewrite (sibling_key config Hsib _ _ Ht Hn) by by apply stamp_flat.
    rewrite join_key by (done || apply Hn). intros [= Hc]. apply (f_equal length) in Hc.
    rewrite !length_app in Hc. cbn in Hc. lia. }
  destruct (sibling_found config Hsib name id now dir subs (Datatypes.S (tree_depth (w_files w))) w)
    as (o & Ho & Hob & Hoo); try done.
  { assert (Hl : length (snd (path_key backup)) ≤ tree_depth (w_files w)) by (apply tree_depth_bound; by rewrite Hb).
    unfold backup, path in Hl. rewrite (sibling_key config Hsib _ _ Ht Hn) in Hl by by apply stamp_flat.
    pose proof (subdir_key _ _ Hd Hp) as Hk. injection Hk as _ Hk. cbn in Hl. rewrite Hk, !length_app in Hl. lia. }
  destruct (recover_found (path_key path) (path_key backup) c HPB rc Hmode scan_dirs w o op ops)
    as (n & w' & Hr & Hn' & _ & HP & HB); try done.
  - by eapply find_orphans_found.
  - by rewrite Hob.
  - by rewrite Hoo, Hnorm, Hpath.
  - by exists n, w'.
Qed.
End crash.

Section inventory.
Context {S : Type} `{Unicode} `{TornWrite} `{InventoryJson} (to_str : string → option string).
Context `{!InventoryJsonLaws to_str}.

(** The inventory of remote backups reads back. After the inventory has been
    replaced and a record has been appended, both without an error, it lists the
    records in the order in which they were written, the appended one last. *)
Lemma inventory_reads_back path records record (w w1 w2 : World S) :
  RemoteBackupInventory_replace_all path records w = (Returned (Ok tt), w1) →
  RemoteBackupInventory_append path record w1 = (Returned (Ok tt), w2) →
  w_faults w2 = [] →
  RemoteBackupInventory_list to_str path None w2 = (Returned (Ok (records ++ [record])), w2).
Proof.
  intros Hr Ha Hw. pose proof (replace_all_post path records w) as Hp. unfold run_post in Hp. rewrite Hr in Hp.
  destruct Hp as (text & Ht & Hf). pose proof (append_post path record text w1) as Hp.
  unfold run_post in Hp. rewrite Ha, Hf in Hp. destruct (Hp eq_refl) as (json & Hj & Hf2).
  erewrite (list_post to_str path None (records ++ [record])); [|
    apply inventory_text_app; [exact Ht|cbn; by rewrite Hj]|by rewrite Hf2; cbn; rewrite ?string_app_nil|done].
  do 3 f_equal. by induction (records ++ [record]) as [|x l IH]; cbn; rewrite ?IH.
Qed.
End inventory.

(** ** Witnesses

    The store is the state of the backup manager, with one pending operation. *)
#[local] Existing Instance unicode_ascii.
#[local] Existing Instance uuid_unary.
#[local] Instance host_sample : BackupHost BackupManagerPlugin := {|
  backup_get p := p; backup_set p _ := p; backup_get_set p _ := eq_refl |}.
#[local] Instance clock_sample : Clock (World BackupManagerPlugin) :=
  {| clock_now _ := 0%Z; clock_elapsed_ms _ _ := 0%N |}.
#[local] Instance queries_sample : QueryDebug := λ _, "query".
#[local] Instance volume_sample : Volume :=
  {| is_symlink _ _ := false; dir_exists _ _ := true; statvfs _ _ := Ok (1099511627776, 4096)%N |}.
#[local] Instance ambient_sample : Ambient BackupManagerPlugin :=
  {| new_v4 _ := 7%N; utc_now _ := 0%Z |}.
#[local] Instance no_children : Children := λ _ _ files, (Child_NotFound, files).
#[local] Instance torn_sample : TornWrite := λ _ _, Some "".
#[local] Instance timestamp_sample : TimestampText := λ _, "20240101120000".
#[local] Instance no_rclone : CommandOutput := λ _ _ files, (Err "not found", files).
#[local] Instance no_rclone_sizes : RcloneSizeJson := λ _, Err "eof".
#[local] Instance sha_sample : Sha256 := λ s, s.
#[local] Instance xxh3_sample : Xxh3 := λ s, str_len s.
#[local] Instance probe_sample : Introspector BackupManagerPlugin := λ p _ _ w,
  (Ok (MediaFile_with_tracks (MediaFile_new 1 0 p) []), w).
#[local] Instance plan_json_sample : PlanJson := λ plan, Some (JString (Plan_phase_name plan)).
#[local] Instance no_stored_files : StoredFiles BackupManagerPlugin := λ _ s, (Ok None, s).
#[local] Instance crop_json_sample : CropSettingsJson := λ _, Ok "{}".
#[local] Instance violations_sample : ViolationsJson := λ _, JArray [].
#[local] Instance anyhow_sample : AnyhowText := VoomError_to_string.
#[local] Instance response_sample : ResponseDebug := λ _, "response".
#[local] Instance storage_sample : ProcessStorage BackupManagerPlugin := {|
  record_transition _ s := (Ok tt, s);
  record_post_execution _ _ _ s := (Ok tt, s);
  delete_bad_file_by_path _ s := (Ok tt, s);
  upsert_file _ s := (Ok tt, s) |}.

#[local] Instance storage_sample_spares : StorageSpares BackupManagerPlugin.
Proof. by split. Qed.

#[local] Instance no_stored_reads : StoredReads BackupManagerPlugin.
Proof. by split. Qed.

#[local] Instance no_rclone_keeps : RcloneKeeps.
Proof. by intros prog args files k. Qed.

#[local] Instance tools_sample_read : ToolsRead BackupManagerPlugin.
Proof.
  split; [done|by intros p n h w w' f [= <- _]| |done]. intros p w. destruct (hash_only_reads p w) as [Hf Hs]. split; [done|].
  unfold plugin_state. f_equal. exact Hs.
Qed.

#[export] Instance RemoteBackupInventoryStatus_eq_dec : EqDecision RemoteBackupInventoryStatus.
Proof. solve_decision. Defined.

#[export] Instance RemoteBackupInventoryRecord_eq_dec : EqDecision RemoteBackupInventoryRecord.
Proof. solve_decision. Defined.

Definition uploaded (destination : string) : RemoteBackupInventoryRecord := {|
  Inventory_backup_id := 7;
  Inventory_original_path := "/media/movie.mkv";
  Inventory_local_backup_path := "/media/.voom-backup/movie.mkv.20240101120000.vbak";
  Inventory_destination_name := destination;
  Inventory_remote_path := "remote:movie";
  Inventory_size := 4;
  Inventory_sha256 := None;
  Inventory_uploaded_at := 0;
  Inventory_verified_at := None;
  Inventory_status := InventoryStatus_Uploaded;
|}.

#[local] Instance inventory_json_sample : InventoryJson := {|
  inventory_to_string r :=
    if bool_decide (r = uploaded "home") then Some "home"
    else if bool_decide (r = uploaded "cloud") then Some "cloud" else None;
  inventory_from_str s := Ok (uploaded s) |}.

#[local] Instance inventory_sample_laws : InventoryJsonLaws Some.
Proof.
  intros r json. cbn. case_bool_decide as Hr; [|case_bool_decide as Hr2; [|done]]; intros [= <-]; subst;
    (split_and!; [done|done|..]); by repeat split.
Qed.

Lemma inventory_reads_back_witness :
  let w := Build_World ∅ BackupManagerPlugin_new [] in
  let w1 := (RemoteBackupInventory_replace_all "/data/remote.jsonl" [uploaded "home"] w).2 in
  let w2 := (RemoteBackupInventory_append "/data/remote.jsonl" (uploaded "cloud") w1).2 in
  RemoteBackupInventory_list Some "/data/remote.jsonl" None w2
  = (Returned (Ok [uploaded "home"; uploaded "cloud"]), w2).
Proof.
  intros w w1 w2. apply (inventory_reads_back Some "/data/remote.jsonl" [uploaded "home"] (uploaded "cloud") w w1 w2).
  - by vm_compute.
  - by vm_compute.
  - by vm_compute.
Defined.

(** *** A plan that fails *)
Lemma media_trimmed : trimmed "/media".
Proof. right. by vm_compute. Qed.

Lemma movie_safe : safe "movie.mkv".
Proof. split; [split; [by repeat split|done|done]|done|done]. Qed.

(** Plans are executed by writing half a file, and fail. *)
Definition half_writer : Plugin (World BackupManagerPlugin) := {|
  Plugin_name := "half-writer";
  Plugin_capabilities := [Capability_EvaluatePolicy; Capability_OrchestratePhases];
  Plugin_handles t := bool_decide (t = "plan.created");
  Plugin_on_event e w :=
    match e with
    | Event_PlanCreated e =>
        let plan := PlanCreatedEvent_plan e in
        if Plan_is_skipped plan then (Returned (Ok None), w)
        else (Returned (Ok (Some (EventResult_plan_failed "half-writer" "disk full"))),
              Build_World (<[path_key (MediaFile_path (Plan_file plan)) := "half"]> (w_files w))
                (w_store w) (w_faults w))
    | _ => (Returned (Ok None), w)
    end;
  Plugin_on_call call w :=
    match call with
    | Call_EvaluatePolicy _ file _ _ _ _ =>
        (Returned (Ok (CallResponse_EvaluatePolicy
           {| EvaluationResult_plans := [Plan_set_file (sample_plan 0) file] |})), w)
    | Call_Orchestrate plans _ => (Returned (Ok (CallResponse_Orchestrate (orchestrate plans))), w)
    | _ => (Returned (Err (VoomError_plugin "half-writer" "unexpected call")), w)
    end;
  Plugin_shutdown w := (Returned (Ok tt), w);
|}.


Definition sample_subscriber (p : Plugin (World BackupManagerPlugin)) : Subscriber (World BackupManagerPlugin) :=
  {| Subscriber_plugin_name := Plugin_name p; Subscriber_priority := 0; Subscriber_handler := p |}.

Definition sample_context (dry_run : bool) : ProcessContext BackupManagerPlugin := {|
  ctx_resolver := PolicyResolver_from_single sample_policy "/media";
  ctx_kernel := {| Kernel_registry := ∅;
                   Kernel_subscribers := [sample_subscriber half_writer;
                                          sample_subscriber (BackupPlugin true Some)];
                   Kernel_shutdown_called := false |};
  ctx_dry_run := dry_run;
  ctx_plan_only := true;
  ctx_estimate_mode := true;
  ctx_flag_size_increase := true;
  ctx_flag_duration_shrink := true;
  ctx_force_rescan := false;
  ctx_capabilities := CapabilityMap_new;
  ctx_confirm_savings := None;
  ctx_estimate_model := {| EstimateModel_samples := [] |};
  ctx_session_id := 1;
  ctx_scan_session := 2;
|}.

Definition sample_pipe : Pipe BackupManagerPlugin := {|
  pi_world := Build_World {[path_key "/media/movie.mkv" := "full"]} BackupManagerPlugin_new [];
  pi_log := [];
  pi_counters := {| RunCounters_modified_count := 3; RunCounters_backup_bytes := 0;
                    RunCounters_phase_stats := ∅; RunCounters_plan_collector := [];
                    RunCounters_estimate_plans := [] |};
|}.


Definition movie_job : Job := {|
  Job_id := 9;
  Job_job_type := JobType_Process;
  Job_status := JobStatus_Running;
  Job_priority := 100;
  Job_payload := Some (JObject [("path", JString "/media/movie.mkv"); ("size", json_u64 4)]);
  Job_progress := f64_of_Z 0;
  Job_progress_message := None;
  Job_output := None;
  Job_error := None;
  Job_worker_id := None;
  Job_created_at := 0;
  Job_started_at := None;
  Job_completed_at := None;
|}.



(** The file is backed up, half overwritten, and restored; one plan has failed. *)
Definition after_failure : option (result string (option JValue)) * Pipe BackupManagerPlugin :=
  process_single_file Some (λ _, false) (sample_context false) movie_job sample_pipe.

Example after_failure_fails :
  after_failure.1 = Some (Err "2 executable plan(s) failed for /media/movie.mkv").
Proof. by vm_compute. Qed.


(** The same job in a dry run: its plan is reported, collected and not executed. *)
Definition after_dry_run : option (result string (option JValue)) * Pipe BackupManagerPlugin :=
  process_single_file Some (λ _, false) (sample_context true) movie_job sample_pipe.

Example dry_run_reports :
  RunCounters_modified_count (pi_counters after_dry_run.2) = 4%N ∧
  RunCounters_plan_collector (pi_counters after_dry_run.2) = [JString (Plan_phase_name (sample_plan 0))].
Proof. by vm_compute. Qed.


(** An error of the backup manager does not keep the plan from being executed: here
    the metadata of the file cannot be read for the backup. *)
Definition without_backup : Pipe BackupManagerPlugin := {|
  pi_world := Build_World {[path_key "/media/movie.mkv" := "full"]} BackupManagerPlugin_new
                [None; None; Some "input/output error"];
  pi_log := [];
  pi_counters := pi_counters sample_pipe;
|}.

Example execution_without_backup :
  let st := (execute_phase Some (λ _, false) (sample_context false) "clean" (sample_plan 0) false
               (LoopState_init sample_file) without_backup).2 in
  w_files (pi_world st) !! path_key "/media/movie.mkv" = Some "half".
Proof. by vm_compute. Qed.

(** *** Names *)
#[local] Instance canonical_sample : Canonical := {| canonicalize _ p := Ok p; nfc s := s |}.

Lemma stamp_sample : stamp "20240101120000".
Proof. by split. Qed.

Lemma backup_name_leads_back_witness :
  infer_original_path "/media/.voom-backup/movie.mkv.20240101120000.vbak" (pi_world sample_pipe)
  = Some "/media/movie.mkv".
Proof.
  exact (backup_name_leads_back BackupConfig_default "/media" "movie.mkv" 7 0 (pi_world sample_pipe)
    eq_refl media_trimmed movie_safe stamp_sample).
Defined.

(** *** Recovery *)

(** The entries of a directory, some more than once. *)
#[local] Instance read_dir_sample : ReadDir := λ files dir,
  Ok (omap (λ k, if bool_decide (fst k = path_is_absolute dir)
                    && bool_decide (path_components dir `prefix_of` snd k)
                 then head (drop (length (path_components dir)) (snd k)) else None)
        (map_to_list files).*1).

#[local] Instance read_dir_sample_complete : ReadDirComplete.
Proof.
  intros files dir name Hd Hn Hin. eexists. split; [done|].
  assert (∃ rest, is_Some (files !! (path_is_absolute dir, path_components dir ++ name :: rest))) as [rest [c Hc]].
  { pose proof (join_key dir name Hd Hn) as Hk. destruct Hin as [Hin|Hin].
    - exists []. by rewrite <-Hk.
    - apply existsb_exists in Hin as ([a l] & Hl & Ht). apply list_elem_of_In in Hl.
      apply list_elem_of_fmap in Hl as ([k c] & Heq & Hm%elem_of_map_to_list).
      cbn in Heq. subst k.
      injection Hk as Ha Hcs. cbn [fst snd] in Ht. rewrite Ha, Hcs in Ht.
      apply andb_true_iff in Ht as [[Ht1 Ht2]%andb_true_iff _].
      apply bool_decide_eq_true in Ht1 as ->. apply bool_decide_eq_true in Ht2 as [rest ->].
      exists rest. rewrite <-(assoc_L (++)) in Hm. by exists c. }
  apply list_elem_of_omap. eexists. split.
  { apply (list_elem_of_fmap_2 fst). by apply elem_of_map_to_list. }
  cbn [fst snd]. rewrite !bool_decide_true by (done || by apply prefix_app_r). cbn.
  by rewrite drop_app_length.
Qed.

Definition crashed_op : PendingOperation := {|
  PendingOperation_id := 5;
  PendingOperation_file_path := "/media/tv/movie.mkv";
  PendingOperation_phase_name := "clean";
  PendingOperation_started_at := 0;
|}.

#[local] Instance recovery_storage_sample : RecoveryStorage BackupManagerPlugin := {|
  list_pending_ops _ := Ok [crashed_op];
  delete_pending_op _ s := (Ok tt, s);
  file_by_path _ _ := Ok None |}.

Definition crashed : World BackupManagerPlugin := {|
  w_files := {[path_key "/media/tv/movie.mkv" := "half";
               path_key "/media/tv/.voom-backup/movie.mkv.20240101120000.vbak" := "full";
               path_key "/media/other.mkv" := "other"]};
  w_store := BackupManagerPlugin_new;
  w_faults := [];
|}.

Lemma crash_recovery_restores_file_witness :
  ∃ n w', check_and_recover_under {| RecoveryConfig_mode := RecoveryMode_AlwaysRecover |} ["/media"] None
            crashed = (Ok n, w') ∧ (0 < n)%N ∧
    w_files w' !! path_key "/media/tv/movie.mkv" = Some "full" ∧
    w_files w' !! path_key "/media/tv/.voom-backup/movie.mkv.20240101120000.vbak" = None.
Proof.
  refine (crash_recovery_restores_file BackupConfig_default
    {| RecoveryConfig_mode := RecoveryMode_AlwaysRecover |}
    ["/media"] "/media" ["tv"] "movie.mkv" 7 0 crashed "full" crashed_op [crashed_op] eq_refl eq_refl
    media_trimmed (list_elem_of_here _ _) _ movie_safe stamp_sample _ eq_refl (list_elem_of_here _ _)
    eq_refl eq_refl _ _).
  - by repeat constructor.
  - by vm_compute.
  - by vm_compute.
  - match goal with |- Forall _ ?l => let l' := eval vm_compute in l in
      assert (Hl : l = l') by (vm_compute; reflexivity); rewrite Hl; clear Hl end.
    repeat (apply Forall_cons; split; [left; split; vm_compute; reflexivity|]). constructor.
Defined.

(** Of two backups of a file that are left behind, both are put back, one over the
    other, and both are removed. *)
Example two_backups_both_consumed :
  let w := Build_World (<[path_key "/media/tv/.voom-backup/movie.mkv.20230101120000.vbak" := "older"]>
                          (w_files crashed)) BackupManagerPlugin_new [] in
  let w' := (check_and_recover_under {| RecoveryConfig_mode := RecoveryMode_AlwaysRecover |} ["/media"] None w).2 in
  w_files w' !! path_key "/media/tv/.voom-backup/movie.mkv.20230101120000.vbak" = None ∧
  w_files w' !! path_key "/media/tv/.voom-backup/movie.mkv.20240101120000.vbak" = None.
Proof. by vm_compute. Qed.
